(* ===== verification/_CoqProject ===== *)
-Q . S2P
Prelude.v
Sorting.v
Floats.v
Varlena.v
RangeTypes.v
RangeOrder.v
RangeOps.v
RangeStore.v
Hashfn.v
RangeCanon.v
RangeTheorems.v
RangeParse.v
RangeFmgr.v
RangeIO.v
Numutils.v
NumutilsProofs.v
IntIO.v
Numeric.v
NumericValue.v
NumericRound.v
NumericStore.v
NumericTheorems.v
NumericIO.v
NumericAccum.v
RangeSqlTheorems.v
QSort.v
RangeGist.v
RangeGistSplit.v
RangeGistKeys.v
RangeGistSearch.v
RangeGistPart.v
RangeGistTheorems.v
RangeSpgist.v
RangeSpgistSearch.v
RangeSpgistTree.v
RangeSpgistTheorems.v
GistChoose.v
RangeGistTree.v
RangeGistTreeTheorems.v
RangeTypanalyze.v
RangeHist.v
RangeSelfuncs.v
RangeSelProofs.v
GeoSelfuncs.v
RangeStatTheorems.v
PgLz.v
PgLzDecode.v
PgLzHistory.v
PgLzTheorems.v
Toast.v
ToastInline.v
ToastTable.v
ToastStore.v
ToastTheorems.v
HeapTuple.v
HeapTupleFill.v
HeapTupleProofs.v
HeapTupleRead.v
HeapTupleExpand.v
HeapTupleTheorems.v
ToastTuple.v
ToastTupleInv.v
ToastTupleRounds.v
ToastTupleInsert.v
ToastTupleTheorems.v
ToastFlatten.v
IndexTuple.v
IndexTupleTheorems.v
Page.v
PageMem.v
PageShift.v
PageAdd.v
PageCompact.v
PageMulti.v
PageOps.v
PageTheorems.v
GistPage.v
GistPlace.v
GistPlaceProofs.v
GistPlaceTheorems.v
