(* ===== verification/Prelude.v ===== *)
(** * Verification of the PostgreSQL range types (postgres-ramen)

    The program is a fork of PostgreSQL 13 whose own work is on range types:
    new statistics for range columns and selectivity estimates that use them.
    The development models the range types from the stored bytes up to those
    statistics.  All C files below are under
    src/postgres-ramen/src/backend/utils/adt/ unless another path is given.

    ** Parts of the program and how they interact

    A range value is a varlena object: header word, OID of the range type,
    the bound values laid out like tuple attributes, and a flags byte at the
    end.  [range_serialize] and [range_deserialize] translate between the
    object and a pair of [RangeBound]s; [make_range] also applies the range
    type's canonical function.  Every operator deserializes its arguments and
    compares bounds with [range_cmp_bounds], which calls the comparison
    function of the element type.  The SQL-callable functions find the type
    cache entry (kept in [fn_extra] between calls) and call the operators.
    GiST and SP-GiST indexes store ranges and call the support functions of
    rangetypes_gist.c and rangetypes_spgist.c to choose subtrees, to split
    pages and inner tuples, and to search.  ANALYZE calls [compute_range_stats], which stores a
    histogram of bounds, one of lengths, and (the fork's addition) one of
    frequencies; [rangesel], [rangerestsel] and [rangeoverlapsjoinsel] read
    them when the planner asks for the selectivity of a clause.
    Bound values and ranges that are long are compressed or moved to a TOAST
    table; the range functions get them back through [detoast_attr].  Rows are
    stored as heap tuples, which [heap_toast_insert_or_update] makes short
    enough by moving attributes to the TOAST table, and index entries as index
    tuples, which are formed and read with the same functions.  Tuples lie on
    pages of a fixed size, on which the functions of bufpage.c add, move and
    delete them; GiST places its index tuples on such pages and splits them.
    The bounds of numrange are numerics: variable-length decimal numbers, with
    their own packed form, arithmetic and aggregates.

    ** Files

    - Prelude.v: errors as values ([result], its monad and notation), C
      integer arithmetic at its width, shared lemmas, tactics and hints.
    - Floats.v: binary32 and binary64 arithmetic, executable, on SpecFloat.
    - Varlena.v: [Datum], varlena headers (include/postgres.h), alignment and
      fetching (include/access/tupmacs.h), [datum_compute_size],
      [datum_write].
    - RangeTypes.v: [RangeType], [RangeBound], [TypeCacheEntry],
      [range_cmp_bounds], [range_serialize], [range_deserialize],
      [make_range] (rangetypes.c, include/utils/rangetypes.h).
    - RangeOrder.v: the abstract order of bounds, and what an element type
      promises to the range code (class [RangeSubtype]).
    - RangeOps.v: the operators of rangetypes.c in their [_internal] form, the
      invariant [range_wf], membership [mem], and what a canonical function
      promises (class [RangeCanonical]).
    - RangeStore.v: the stored form is determined by the bounds.
    - Hashfn.v: common/hashfn.c and access/hash/hashfunc.c, for integers and
      for byte strings.
    - RangeCanon.v: int4range, int8range and daterange, with their canonical
      and difference functions and the int4, int8 and date functions they
      call; instances of the classes above.
    - RangeTheorems.v: the theorems on all of these.
    - RangeParse.v, RangeFmgr.v, RangeIO.v: range literals, the SQL-callable
      functions over [fn_extra], and text and binary I/O (with
      libpq/pqformat.c).
    - Numutils.v, NumutilsProofs.v: numutils.c and [scanint8] of int8.c, the
      decimal text of integers; IntIO.v: the I/O functions of int.c and int8.c,
      instances of the classes by which range I/O uses its element type.
    - RangeSqlTheorems.v: the theorems on text, binary I/O, cache and hashing.
    - Numeric.v: numeric.c, without division, functions that need it, and
      conversions of floating-point numbers.  NumericValue.v: the value of a
      digit string, comparison, addition and subtraction; NumericRound.v:
      rounding and multiplication; NumericStore.v: the packed form;
      NumericTheorems.v: the functions on packed values, with the theorems;
      NumericIO.v: text and binary forms; NumericAccum.v: the sum accumulator
      and the aggregates that use it.
    - Sorting.v, QSort.v: the contract of sorting, and port/qsort_arg.c, which
      meets it.
    - RangeGist.v, RangeGistSplit.v: rangetypes_gist.c; RangeGistKeys.v,
      RangeGistSearch.v, RangeGistPart.v: invariant of index keys, completeness
      of the search, page splits; RangeGistTheorems.v: the split by class, and
      the theorems.
    - RangeSpgist.v: rangetypes_spgist.c; RangeSpgistSearch.v: completeness of
      the consistent functions; RangeSpgistTree.v: the tree that insertions
      build ([checkAllTheSame] of access/spgist/spgdoinsert.c) and its search;
      RangeSpgistTheorems.v: the theorems.
    - GistChoose.v, RangeGistTree.v: the functions of access/gist that call the
      operator class ([gistchoose], [gistgetadjusted], [gistSplit],
      [gistindex_keytest]) and the tree that insertions build;
      RangeGistTreeTheorems.v: its search, and the theorems.
    - RangeTypanalyze.v: rangetypes_typanalyze.c; RangeHist.v: lemmas on the
      histograms it builds.
    - RangeSelfuncs.v: rangetypes_selfuncs.c; GeoSelfuncs.v: geo_selfuncs.c;
      RangeSelProofs.v: lemmas on them; RangeStatTheorems.v: the theorems on
      statistics and estimates.
    - PgLz.v: common/pg_lzcompress.c; PgLzDecode.v, PgLzHistory.v,
      PgLzTheorems.v: the format as tokens and its decoder, the linked lists of
      the history table, and the round trips.
    - Toast.v: access/common/toast_internals.c and detoast.c,
      [heap_fetch_toast_slice] of access/heap/heaptoast.c, and what they call
      to choose value ids; ToastInline.v, ToastTable.v, ToastStore.v: values in
      line, TOAST tables and their indexes, values out of line;
      ToastTheorems.v: the theorems, and values stored while their table is
      rewritten.
    - HeapTuple.v: access/common/heaptuple.c with include/access/htup_details.h
      and tupmacs.h (forming, reading, modifying and expanding heap and minimal
      tuples); HeapTupleFill.v, HeapTupleProofs.v, HeapTupleRead.v,
      HeapTupleExpand.v: lemmas on filling and reading the data area;
      HeapTupleTheorems.v: the theorems.
    - ToastTuple.v: access/table/toast_helper.c and
      [heap_toast_insert_or_update], [heap_toast_delete] of
      access/heap/heaptoast.c; ToastTupleInv.v, ToastTupleRounds.v,
      ToastTupleInsert.v: its invariant, the four rounds, the new tuple and the
      deletion of old values; ToastTupleTheorems.v: the theorems; ToastFlatten.v:
      the functions of heaptoast.c that flatten tuples, and theirs.
    - IndexTuple.v: access/common/indextuple.c with include/access/itup.h;
      IndexTupleTheorems.v: the theorems.
    - Page.v: storage/page/bufpage.c with include/storage/bufpage.h, itemid.h
      and off.h; PageMem.v: the bytes of a page, its invariant and abstract
      contents; PageShift.v, PageAdd.v, PageCompact.v, PageMulti.v: deleting and
      overwriting, adding, compacting, deleting several items; PageOps.v: the
      operations as a state machine, and pages with arbitrary contents;
      PageTheorems.v: checksums (include/storage/checksum_impl.h) and the
      theorems.
    - GistPage.v: tuples on GiST pages (access/gist/gistutil.c); GistPlace.v:
      [gistplacetopage] and [gistprunepage] of access/gist/gist.c;
      GistPlaceProofs.v, GistPlaceTheorems.v: its lemmas and theorems.

    ** How state and effects are modelled

    A stored object is the list of its bytes, a pointer into it an offset.  C
    integers are [Z] with wrap-around where the source can overflow (int
    arithmetic is built with -fwrapv).  [ereport] and [elog] at ERROR are
    [Err], and so is the one of bufpage.c at PANIC, which ends the server
    instead of the transaction; an access or conversion without defined meaning
    in C is an [Err] with code [UNDEFINED_BEHAVIOUR], so that a theorem whose
    conclusion is [Ok] also says that there is none.  The support functions of
    a range type that can raise errors do so in the model: the canonical
    function, and the difference function of its subtype, whose errors
    (float overflow, say) go through penalties, page splits, statistics and
    estimates, so that the theorems on these list them ([subdiff_failure]).  [fn_extra] is threaded as the state of
    a monad.  The state of TOAST is a [World]: the OID counter, the TOAST tables
    with their rows and index entries, and the objects in memory that datums
    point to.  A tuple is the fields of its header with the bytes that follow
    them; a tuple descriptor, whose cached attribute offsets the readers fill
    in, is passed in and returned.  An attribute's datum [represents] a logical
    value when detoasting it gives that value.  A page is the list of its bytes;
    its abstract contents ([PageState]) are the items by offset number, the free
    space, the flags and the special space.  A GiST index is a map from block
    numbers to pages.  A numeric is its bytes; a [NumericVar] has the digits and
    the number of spare places before them, into which rounding carries; the
    number that either stands for is [Fin m s], that is [m * 10^(-s)] with [s]
    decimals, or [NaN].  Asserts are compiled out in production builds and are not
    modelled, also where they state a condition that the code does not ensure,
    as in [calc_length_hist_frac], whose argument lengths are in order only if
    the difference function is monotone.

    Code outside the modelled files is a parameter: [Toast] ([detoast_attr], which
    Toast.v models and ToastTheorems.v instantiates),
    [Catalog] (what lookup_type_cache and get_type_io_data find, with
    [CatalogOk] for what the callers rely on), [Sorter] where only the
    contract of sorting matters, the element types' I/O functions ([TextIO],
    [BinaryIO], with instances for int4 and int8), the outcomes of random(),
    the address of a varlena value where the code reads a pointer
    as a number, and what the planner says about a clause.

    ** What the theorems show

    - Order and storage (RangeTheorems.v): [range_cmp_bounds] is the abstract
      order of bounds; serialization round-trips for every element layout and
      fails exactly on bounds out of order or when the object would be larger
      than [MaxAllocSize];
      [make_range] has the members its bounds describe.
    - Operators: each boolean operator decides its set-theoretic meaning on
      well-formed ranges; union, merge, intersection and difference have the
      members they should and raise an error exactly when the result is not a
      range, which for a union means that there is a gap between the two; [range_cmp] is a total order compatible with [range_eq]; for
      int4range, equality is equality of sets.
    - Canonical functions: the result is canonical and has the same members,
      or the increment overflows.
    - SQL level: text and binary round trips, transparency of the cache,
      hashing respects equality; int4 and int8 text I/O is exact, so that the
      round trips of int4range and int8range hold without assumptions.
    - Hashing: the code paths of [hash_bytes] agree with each other and with
      the functions for one word.
    - GiST: no page that holds a match is skipped, union keys cover their
      entries, picksplit partitions a page, [gistSplit] ends with pages that
      fit, [gistchoose] minimizes the penalty; sorting is correct.
    - SP-GiST: picksplit agrees with choose and its centroid is a range, splits
      make progress, also when an entry leads to another split of what a split
      left together, and every insertion can be completed.
    - Both trees: a search of any index that insertions build, with any scan
      keys, returns exactly the inserted ranges that satisfy the keys.
    - Statistics: the histogram subscripts are exact and in bounds, the bounds
      histogram consists of valid ranges in order that span the sample, and
      the estimate of each operator is made of the number of histogram bounds
      on the right side of the constant, interpolated inside of one bin;
      the binary search is correct.  Theorems also record where the code does
      something else: undefined behaviour of ANALYZE on small samples, and an
      error of the join estimate on empty histograms.
    - TOAST: compression returns for every input and decompression gives the
      input back, in full, for every prefix, and from a prefix of the
      compressed bytes; what is compressed in line or stored out of line is
      read back in full and in slices, and saving or deleting a value changes
      nothing else; a value id that is not in use is always found.  One theorem
      records that long slices of short compressed values fail.
    - Tuples: what [heap_form_tuple] or [index_form_tuple] stores is what the
      deforming functions return, whatever offsets the descriptor has cached;
      [heap_expand_tuple] adds the missing attributes and changes no other;
      truncated index tuples have the key attributes they keep.
    - Toasted tuples: [heap_toast_insert_or_update] returns a tuple with the same
      logical values, on insertion and on update, and on update deletes from the
      TOAST table exactly the old values that the new tuple does not share;
      [heap_toast_delete] deletes exactly the tuple's own values; flattened
      tuples need no TOAST table.  Two theorems record that the target size
      wraps around for a long null bitmap, and that the default target is not
      the documented one.
    - Pages: every operation of bufpage.c refines its specification on the items
      of the page and keeps the page well-formed; deleting several items is
      deleting them one by one; on arbitrary bytes the operations that add
      an item and that delete one or several (as many as a page can have) report
      corruption and never access memory outside of the page, while
      [PageRepairFragmentation], as a theorem records, trusts the lengths of the
      items it moves; a page is verified exactly when its header and checksum say so.
    - GiST pages: a page is split exactly when the tuples do not fit, dead ones
      removed, and [gistplacetopage] leaves the tuples of
      the page and the new ones, in pages linked to the right, with their
      downlinks, whether it updates the page, splits it or splits the root.
    - Numeric: comparison is that of the numbers; addition, subtraction and
      multiplication are exact (multiplication up to the greatest scale) and
      fail exactly when the result does not fit; rounding, truncation, ceiling,
      floor, type modifiers and casts of integers are what they should be, and
      no digit buffer is overrun; equal numbers have equal hashes; literals are
      read as the number written, and text and binary forms round-trip.  One
      theorem records how [numeric_recv] reads a malformed NaN.
    - Aggregates: in every state that accumulating, discarding, combining and
      final calls reach, in any order, the sum is the exact sum of the values
      aggregated, and its scale the greatest of theirs.

    ** Fuel

    Loops that are not structural take fuel.  Running out is reported as an
    error distinct from the results of the code (in the sort function, by
    returning the array as it is, which the proof that the result is sorted
    excludes), and theorems show that it does not happen: [n] elements for a
    run of qsort's partition loops and the length of the part for its
    recursion, which shrinks at every call; the number of entries plus one for
    the loops of the double sorting split; the number of tuples of a page for
    [gistSplit]; the length of a key for the chunks that are hashed; three turns
    for the loops that print four or eight digits of a 32 or 64 bit integer;
    the width of the interval for the binary searches; the sum of the histogram
    sizes for the two loops that align and multiply frequency histograms; the
    number of bins for those that walk over one; the length of the input for
    the loops of pglz, whose history lists get shorter at every step; the number
    of bytes for the chunks of a value; the number of index entries plus one for
    the search of a free value id, since the candidates are distinct; the number
    of attributes plus one for each round of the tuple toaster, since every turn
    of its loop removes a candidate; the number of line pointers for the search
    of a free one; the number of tuples for the layout of a split; five digits
    for the conversion of an int8, for which the buffer has room for five.  The
    loops of numeric.c are otherwise structural, on digits or characters.

    ** Not modelled

    Of the index access methods: buffers, locking, WAL, vacuum, index builds,
    several columns and NULLs; the pages of SP-GiST.  The trees over which
    searches are proved complete are inductive types, and insertion is a
    relation that leaves page sizes, random choices and restarts open.  Of
    numeric.c: division and what needs it (averages and variances, roots,
    exponentials, logarithms, powers, greatest common divisors), conversions of
    floating-point numbers, [generate_series], the sort support, and the
    serialized form of aggregate states.  Also the planner and executor,
    catalogs, heap access and MVCC, the btree under TOAST tables, system columns
    and the plain copies of tuples, memory contexts (allocation fails only above
    [MaxAllocSize]), the bytewise copies inside the sort function, timestamp
    arithmetic, debug output, and the rest of PostgreSQL.

    ** Left to do

    - Instances of [StableBounds] and [UniqueBounds] for daterange.
    - That the intervals of the frequency histogram cover the sample, and that
      the number of intervals is positive whenever all bounds are finite.
    - The ratio that the double sorting split does reach.
    - An instance of [RangeSubtype] for numeric: the class asks for an order on
      all datums, and [cmp_numerics] is one only on well-formed values.
    - Division of numerics. *)

From Stdlib Require Export ZArith Lia String Ascii.
From stdpp Require Export prelude list numbers strings.

#[global] Open Scope Z_scope.

(** ** C error reporting

    [ereport(ERROR, ...)] and [elog(ERROR, ...)] abort the current function.
    A function that can raise returns a [result]; the error carries the
    SQLSTATE class and the primary message. *)

Inductive ErrCode : Type :=
| ERRCODE_DATA_EXCEPTION
| ERRCODE_SYNTAX_ERROR
| ERRCODE_INVALID_TEXT_REPRESENTATION
| ERRCODE_UNDEFINED_FUNCTION
| ERRCODE_NUMERIC_VALUE_OUT_OF_RANGE
| ERRCODE_DATETIME_VALUE_OUT_OF_RANGE
| ERRCODE_PROTOCOL_VIOLATION
| ERRCODE_PROGRAM_LIMIT_EXCEEDED
| ERRCODE_DATA_CORRUPTED
| ERRCODE_UNIQUE_VIOLATION
| ERRCODE_TOO_MANY_COLUMNS
| ERRCODE_FEATURE_NOT_SUPPORTED
| ERRCODE_INVALID_BINARY_REPRESENTATION
| ERRCODE_INVALID_PRECEDING_OR_FOLLOWING_SIZE
| ERRCODE_INTERNAL_ERROR
| UNDEFINED_BEHAVIOUR.

(** [UNDEFINED_BEHAVIOUR] is not a PostgreSQL error: it marks an access
    outside an object, on which the C program has no defined meaning. *)
Record PgError : Type := mkError { err_code : ErrCode; err_msg : string }.

Inductive result (A : Type) : Type :=
| Ok (a : A)
| Err (e : PgError).
Arguments Ok {A} a.
Arguments Err {A} e.

Definition ereport {A} (c : ErrCode) (msg : string) : result A := Err (mkError c msg).

Definition elog {A} (msg : string) : result A := ereport ERRCODE_INTERNAL_ERROR msg.

Definition undefined {A} (msg : string) : result A := ereport UNDEFINED_BEHAVIOUR msg.

#[global] Instance result_ret : MRet result := @Ok.
#[global] Instance result_bind : MBind result :=
  fun A B f m => match m with Ok a => f a | Err e => Err e end.
#[global] Instance result_fmap : FMap result :=
  fun A B f m => match m with Ok a => Ok (f a) | Err e => Err e end.

Definition is_Ok {A} (m : result A) : Prop := exists a, m = Ok a.

#[global] Instance ErrCode_eq_dec : EqDecision ErrCode.
Proof. solve_decision. Defined.

#[global] Instance PgError_eq_dec : EqDecision PgError.
Proof. solve_decision. Defined.

#[global] Instance result_eq_dec {A} `{EqDecision A} : EqDecision (result A).
Proof. solve_decision. Defined.

(** Reading an element of a C array. *)
Definition array_get {A} (arr : list A) (i : Z) : result A :=
  if i <? 0 then undefined "array index out of range"
  else match arr !! Z.to_nat i with Some a => Ok a | None => undefined "array index out of range" end.

Lemma array_get_lookup {A} (arr : list A) i a : 0 <= i -> arr !! Z.to_nat i = Some a -> array_get arr i = Ok a.
Proof. intros Hi E. unfold array_get. destruct (Z.ltb_spec i 0); [lia|]. by rewrite E. Qed.

(** ** Machine integers

    A [w]-bit value is a [Z]; these are the C conversions (two's complement). *)

Definition uwrap (w : Z) (x : Z) : Z := x mod 2 ^ w.

Definition swrap (w : Z) (x : Z) : Z := (x + 2 ^ (w - 1)) mod 2 ^ w - 2 ^ (w - 1).

Definition in_uint (w x : Z) : Prop := 0 <= x < 2 ^ w.

Definition in_sint (w x : Z) : Prop := - 2 ^ (w - 1) <= x < 2 ^ (w - 1).

Definition PG_INT32_MIN : Z := -2147483648.
Definition PG_INT32_MAX : Z := 2147483647.

(** The C truth value of an [int]. *)
Definition bit_set (flags mask : Z) : bool := negb (Z.land flags mask =? 0).

(** Little-endian bytes. *)
Fixpoint le_bytes (n : nat) (x : Z) : list Z :=
  match n with
  | O => []
  | S n' => x mod 256 :: le_bytes n' (x / 256)
  end.

Fixpoint le_value (bs : list Z) : Z :=
  match bs with
  | [] => 0
  | b :: bs' => b + 256 * le_value bs'
  end.

Definition is_byte (b : Z) : Prop := 0 <= b < 256.

(** The bytes at offset [off] of a buffer; reads past its end give zero bytes. *)
Definition byte_at (bs : list Z) (off : Z) : Z := nth (Z.to_nat off) bs 0.

Definition bytes_at (bs : list Z) (off len : Z) : list Z :=
  take (Z.to_nat len) (drop (Z.to_nat off) bs).

(** ** Automation *)

Create HintDb pg.

(** Case analysis on every [if]/[match] of the goal that is stuck on a term. *)
Ltac split_ifs :=
  repeat match goal with
  | |- context [if ?b then _ else _] => destruct b eqn:?
  end.

(** Turn boolean comparison facts on [Z] into propositions. *)
Ltac zbool :=
  repeat match goal with
  | H : (_ <? _) = true |- _ => apply Z.ltb_lt in H
  | H : (_ <? _) = false |- _ => apply Z.ltb_ge in H
  | H : (_ <=? _) = true |- _ => apply Z.leb_le in H
  | H : (_ <=? _) = false |- _ => apply Z.leb_gt in H
  | H : (_ >? _) = true |- _ => apply Z.gtb_lt in H
  | H : (_ >? _) = false |- _ => rewrite Z.gtb_ltb in H; apply Z.ltb_ge in H
  | H : (_ >=? _) = true |- _ => rewrite Z.geb_leb in H; apply Z.leb_le in H
  | H : (_ >=? _) = false |- _ => rewrite Z.geb_leb in H; apply Z.leb_gt in H
  | H : (_ =? _) = true |- _ => apply Z.eqb_eq in H
  | H : (_ =? _) = false |- _ => apply Z.eqb_neq in H
  | H : andb _ _ = true |- _ => apply andb_true_iff in H; destruct H
  | H : orb _ _ = false |- _ => apply orb_false_iff in H; destruct H
  | H : negb _ = true |- _ => apply negb_true_iff in H
  | H : negb _ = false |- _ => apply negb_false_iff in H
  end.

(** [lia] with the defining equations of division and remainder. *)
Ltac zlia := Z.to_euclidean_division_equations; lia.

(** Invert a computation that returned [Ok]. *)
Ltac inv_ok H :=
  match type of H with
  | mbind _ ?m = Ok _ =>
      let E := fresh "E" in destruct m eqn:E; [cbn in H | discriminate H]
  | Ok _ = Ok _ => injection H as H
  | mret _ = Ok _ => injection H as H
  end.

(** ** Lemmas on the result monad *)

Lemma Ok_inj {A} (a b : A) : Ok a = Ok b -> a = b.
Proof. by injection 1. Qed.

Lemma bind_Ok {A B} (m : result A) (f : A -> result B) b :
  (m ≫= f) = Ok b <-> exists a, m = Ok a /\ f a = Ok b.
Proof.
  destruct m as [a|e]; cbn; split.
  - intros H; by exists a.
  - by intros (a' & [= ->] & H).
  - discriminate.
  - by intros (a' & H & _).
Qed.

Lemma bind_Err {A B} (m : result A) (f : A -> result B) e :
  m = Err e -> (m ≫= f) = Err e.
Proof. by intros ->. Qed.

Lemma bind_assoc' {A B C} (m : result A) (f : A -> result B) (g : B -> result C) :
  (m ≫= fun a => f a ≫= g) = ((m ≫= f) ≫= g).
Proof. by destruct m. Qed.

(** ** Lemmas on machine integers *)

Lemma pow2_pos w : 0 <= w -> 0 < 2 ^ w.
Proof. intros; apply Z.pow_pos_nonneg; lia. Qed.

Lemma uwrap_range w x : 0 <= w -> in_uint w (uwrap w x).
Proof. intros Hw. apply Z.mod_pos_bound, pow2_pos, Hw. Qed.

Lemma swrap_range w x : 0 < w -> in_sint w (swrap w x).
Proof.
  intros Hw. unfold in_sint, swrap.
  assert (E : 2 ^ w = 2 * 2 ^ (w - 1)) by (rewrite <- Z.pow_succ_r; [f_equal; lia|lia]).
  pose proof (Z.mod_pos_bound (x + 2 ^ (w - 1)) (2 ^ w) (pow2_pos w ltac:(lia))). lia.
Qed.

Lemma uwrap_small w x : in_uint w x -> uwrap w x = x.
Proof. apply Z.mod_small. Qed.

Lemma swrap_small w x : 0 < w -> in_sint w x -> swrap w x = x.
Proof.
  intros Hw [H1 H2]. unfold swrap.
  assert (E : 2 ^ w = 2 * 2 ^ (w - 1)) by (rewrite <- Z.pow_succ_r; [f_equal; lia|lia]).
  rewrite Z.mod_small; lia.
Qed.

Lemma swrap_mod w x : 0 < w -> swrap w (x mod 2 ^ w) = swrap w x.
Proof.
  intros Hw. unfold swrap. by rewrite Zplus_mod_idemp_l.
Qed.

Lemma swrap_mod_le w v x : 0 < w <= v -> swrap w (x mod 2 ^ v) = swrap w x.
Proof.
  intros Hw. rewrite <- (swrap_mod w (x mod _)), <- (swrap_mod w x) by lia. f_equal.
  apply Z.mod_mod_divide. exists (2 ^ (v - w)). rewrite <- Z.pow_add_r by lia. f_equal. lia.
Qed.

Lemma swrap_swrap_mod w x : 0 < w -> (swrap w x) mod 2 ^ w = x mod 2 ^ w.
Proof.
  intros Hw. unfold swrap. rewrite Zminus_mod_idemp_l. f_equal. lia.
Qed.

(** ** Lemmas on bytes *)

Lemma length_le_bytes n x : length (le_bytes n x) = n.
Proof. revert x; induction n; intros x; cbn; auto. Qed.

Lemma le_bytes_is_byte n x : Forall is_byte (le_bytes n x).
Proof.
  revert x; induction n; intros x; cbn; constructor; auto.
  apply Z.mod_pos_bound; lia.
Qed.

Lemma le_value_bytes n x : le_value (le_bytes n x) = x mod 2 ^ (8 * Z.of_nat n).
Proof.
  revert x; induction n as [|n IH]; intros x.
  - by rewrite Z.mod_1_r.
  - cbn [le_bytes le_value]. rewrite IH.
    replace (8 * Z.of_nat (S n)) with (8 + 8 * Z.of_nat n) by lia.
    rewrite Z.pow_add_r by lia. change (2 ^ 8) with 256.
    rewrite Z.rem_mul_r; [lia|lia|apply pow2_pos; lia].
Qed.

Lemma le_bytes_value bs : Forall is_byte bs -> le_bytes (length bs) (le_value bs) = bs.
Proof.
  induction 1 as [|b bs [Hb1 Hb2] _ IH]; [done|]. cbn [length le_bytes le_value].
  rewrite (Z.mul_comm 256), Z.mod_add, Z.mod_small, Z.div_add, Z.div_small by lia.
  by rewrite Z.add_0_l, IH.
Qed.

Lemma bytes_at_app_l pre bs suf :
  bytes_at (pre ++ bs ++ suf) (Z.of_nat (length pre)) (Z.of_nat (length bs)) = bs.
Proof.
  unfold bytes_at. rewrite !Nat2Z.id, drop_app_length. by rewrite take_app_length.
Qed.

Lemma byte_at_app pre b suf :
  byte_at (pre ++ b :: suf) (Z.of_nat (length pre)) = b.
Proof. unfold byte_at. rewrite Nat2Z.id, app_nth2 by lia. by rewrite Nat.sub_diag. Qed.

#[export] Hint Resolve pow2_pos uwrap_range swrap_range le_bytes_is_byte : pg.

