(* ===== verification/Sorting.v ===== *)
(** * The contract of the sort functions

    [qsort_arg] and [qsort] (src/port) sort an array in place by a comparison
    function.  Their clients rely on this interface only; QSort.v discharges
    it. *)

From Stdlib Require Export Sorting.Sorted Sorting.Permutation.
From S2P Require Import Prelude.

(** A comparison function that is a total preorder. *)
Class Preorder_cmp {A} (cmp : A -> A -> Z) : Prop := {
  pcmp_total : forall a b, Z.sgn (cmp b a) = - Z.sgn (cmp a b);
  pcmp_trans : forall a b c, cmp a b <= 0 -> cmp b c <= 0 -> cmp a c <= 0
}.

Lemma pcmp_refl {A} (cmp : A -> A -> Z) `{!Preorder_cmp cmp} a : cmp a a = 0.
Proof. pose proof (pcmp_total a a). lia. Qed.

Definition cmp_le {A} (cmp : A -> A -> Z) (a b : A) : Prop := cmp a b <= 0.

Class Sorter : Type := {
  qsort_arg : forall {A}, (A -> A -> Z) -> list A -> list A;
  qsort_arg_perm : forall A (cmp : A -> A -> Z) (l : list A), Permutation (qsort_arg cmp l) l;
  qsort_arg_sorted : forall A (cmp : A -> A -> Z) (l : list A),
    Preorder_cmp cmp -> StronglySorted (cmp_le cmp) (qsort_arg cmp l)
}.

(** ** Sorting the two sides of pairs *)

Section SortedPairs.
Context {A : Type} (cmp : A -> A -> Z) `{!Preorder_cmp cmp}.

(** The number of elements that are at most [x]. *)
Definition count_le (x : A) (l : list A) : nat := length (List.filter (fun a => cmp a x <=? 0) l).

Lemma count_le_perm x l l' : Permutation l l' -> count_le x l = count_le x l'.
Proof.
  unfold count_le. induction 1 as [|a l l' Hp IH|a b l|]; cbn; [done| | |congruence].
  - destruct (cmp a x <=? 0); cbn; congruence.
  - by destruct (cmp a x <=? 0), (cmp b x <=? 0).
Qed.

Lemma count_le_pairs x l u :
  Forall2 (fun a b => cmp a b <= 0) l u -> (count_le x u <= count_le x l)%nat.
Proof.
  unfold count_le. induction 1 as [|a b l u Hab Hl IH]; cbn; [done|].
  destruct (Z.leb_spec (cmp b x) 0) as [Hb|], (Z.leb_spec (cmp a x) 0) as [Ha|Ha]; cbn; try lia.
  pose proof (pcmp_trans a b x Hab Hb). lia.
Qed.

(** In a sorted list at least [k + 1] elements are at most the k-th, and at
    most [k] elements are below it. *)
Lemma sorted_count_ge l k x :
  StronglySorted (cmp_le cmp) l -> l !! k = Some x -> (k < count_le x l)%nat.
Proof.
  intros Hs. revert k. induction Hs as [|a l Hs IH Ha]; intros k Hk; [done|].
  unfold count_le in *. cbn. destruct k as [|k]; cbn in Hk.
  - injection Hk as <-. destruct (Z.leb_spec (cmp a a) 0); [cbn; lia|]. pose proof (pcmp_refl cmp a). lia.
  - assert (Hax : cmp a x <= 0).
    { rewrite List.Forall_forall in Ha. apply Ha, list_elem_of_In, list_elem_of_lookup. by exists k. }
    destruct (Z.leb_spec (cmp a x) 0); [|lia]. cbn. specialize (IH k Hk). lia.
Qed.

Lemma sorted_count_lt l k y x :
  StronglySorted (cmp_le cmp) l -> l !! k = Some y -> 0 < cmp y x -> (count_le x l <= k)%nat.
Proof.
  intros Hs. revert k. induction Hs as [|a l Hs IH Ha]; intros k Hk Hyx; [done|].
  unfold count_le in *. cbn. destruct k as [|k]; cbn in Hk.
  - injection Hk as ->. destruct (Z.leb_spec (cmp y x) 0); [lia|].
    assert (E : List.filter (fun b => cmp b x <=? 0) l = []); [|by rewrite E].
    clear IH Hs. induction Ha as [|b l Hb Hl IH]; cbn; [done|].
    destruct (Z.leb_spec (cmp b x) 0); [|done]. unfold cmp_le in Hb. pose proof (pcmp_trans y b x Hb). lia.
  - specialize (IH k Hk Hyx). destruct (cmp a x <=? 0); cbn; lia.
Qed.

(** The k-th smallest left component is at most the k-th smallest right one. *)
Lemma sorted_pairs l u ls us k a b :
  Forall2 (fun a b => cmp a b <= 0) l u ->
  Permutation ls l -> Permutation us u ->
  StronglySorted (cmp_le cmp) ls -> StronglySorted (cmp_le cmp) us ->
  ls !! k = Some a -> us !! k = Some b -> cmp a b <= 0.
Proof.
  intros Hp Pl Pu Sl Su Ha Hb. destruct (Z.le_gt_cases (cmp a b) 0) as [|Hgt]; [done|exfalso].
  pose proof (sorted_count_ge us k b Su Hb). pose proof (sorted_count_lt ls k a b Sl Ha Hgt).
  pose proof (count_le_pairs b l u Hp). pose proof (count_le_perm b _ _ Pl). pose proof (count_le_perm b _ _ Pu). lia.
Qed.

(** A sorted list read at ascending subscripts is sorted. *)
Lemma sorted_lookup l i j a b :
  StronglySorted (cmp_le cmp) l -> (i <= j)%nat -> l !! i = Some a -> l !! j = Some b -> cmp a b <= 0.
Proof.
  intros Hs. revert i j. induction Hs as [|x l Hs IH Hx]; intros i j Hij Ha Hb; [done|].
  destruct i as [|i], j as [|j]; cbn in Ha, Hb; try lia.
  - rewrite Ha in Hb. injection Hb as <-. by rewrite (pcmp_refl cmp).
  - injection Ha as <-. rewrite List.Forall_forall in Hx. apply Hx, list_elem_of_In, list_elem_of_lookup. by exists j.
  - apply (IH i j); [lia|done..].
Qed.

End SortedPairs.
