(* ===== verification/Floats.v ===== *)
(** * IEEE 754 arithmetic of the C types [float4] and [float8]

    [float8] (C [double]) is binary64 and [float4] (C [float]) is binary32,
    both with rounding to nearest even, as the executable formats of the
    Standard Library's [SpecFloat] (precision and maximal exponent given
    explicitly).  C comparisons are false when an operand is a NaN, as
    [SFltb]/[SFleb]/[SFeqb] are.  A decimal constant of the source is the
    correctly rounded quotient of two integers, which is what the compiler
    stores for it. *)

From Stdlib Require Import ZArith Lia SpecFloat.
From S2P Require Import Prelude.

Definition float8 : Type := spec_float.
Definition float4 : Type := spec_float.

Definition f8_prec : Z := 53.
Definition f8_emax : Z := 1024.
Definition f4_prec : Z := 24.
Definition f4_emax : Z := 128.

(** Arithmetic on [double]. *)
Definition f8_add : float8 -> float8 -> float8 := SFadd f8_prec f8_emax.
Definition f8_sub : float8 -> float8 -> float8 := SFsub f8_prec f8_emax.
Definition f8_mul : float8 -> float8 -> float8 := SFmul f8_prec f8_emax.
Definition f8_div : float8 -> float8 -> float8 := SFdiv f8_prec f8_emax.

(** Arithmetic on [float]. *)
Definition f4_add : float4 -> float4 -> float4 := SFadd f4_prec f4_emax.
Definition f4_div : float4 -> float4 -> float4 := SFdiv f4_prec f4_emax.

(** Conversions from integers and between the two formats. *)
Definition f8_of_Z (z : Z) : float8 := binary_normalize f8_prec f8_emax z 0 false.
Definition f4_of_Z (z : Z) : float4 := binary_normalize f4_prec f4_emax z 0 false.

Definition f4_of_f8 (x : float8) : float4 :=
  match x with
  | S754_finite s m e => binary_round f4_prec f4_emax s m e
  | _ => x
  end.

Definition f8_of_f4 (x : float4) : float8 :=
  match x with
  | S754_finite s m e => binary_round f8_prec f8_emax s m e
  | _ => x
  end.

(** The constant [num / den] of the source, e.g. [0.005] is [f8_dec 5 1000]. *)
Definition f8_dec (num den : Z) : float8 := f8_div (f8_of_Z num) (f8_of_Z den).

Definition f8_zero : float8 := f8_of_Z 0.
Definition f8_one : float8 := f8_of_Z 1.
Definition f8_inf : float8 := S754_infinity false.

(** Conversion to an integer type truncates; NaN and infinities have no
    integer value. *)
Definition f8_trunc (x : float8) : option Z :=
  match x with
  | S754_zero _ => Some 0
  | S754_finite s m e =>
      let v := if 0 <=? e then Z.pos m * 2 ^ e else Z.pos m / 2 ^ (- e) in
      Some (if s then - v else v)
  | _ => None
  end.

Definition isnan (x : spec_float) : bool :=
  match x with S754_nan => true | _ => false end.

Definition isinf (x : spec_float) : bool :=
  match x with S754_infinity _ => true | _ => false end.

Definition flt (x y : spec_float) : bool := SFltb x y.
Definition fle (x y : spec_float) : bool := SFleb x y.
Definition feq (x y : spec_float) : bool := SFeqb x y.
Definition fgt (x y : spec_float) : bool := SFltb y x.
Definition fge (x y : spec_float) : bool := SFleb y x.

(** The [Max] and [Min] macros of c.h: [x > y ? x : y] and [x < y ? x : y]. *)
Definition fMax (x y : float8) : float8 := if fgt x y then x else y.
Definition fMin (x y : float8) : float8 := if flt x y then x else y.

(** [CLAMP_PROBABILITY]: the two tests in order; a NaN passes through. *)
Definition CLAMP_PROBABILITY (p : float8) : float8 :=
  if flt p f8_zero then f8_zero
  else if fgt p f8_one then f8_one
  else p.

(** A probability: neither NaN nor outside [0, 1]. *)
Definition is_prob (p : float8) : Prop := fle f8_zero p = true /\ fle p f8_one = true.

(** ** The order of the comparison operators *)

(** The key that [SFcompare] compares lexicographically on non-NaN values. *)
Definition fkey (x : spec_float) : Z * (Z * Z) :=
  match x with
  | S754_nan => (0, (0, 0))
  | S754_infinity true => (-2, (0, 0))
  | S754_infinity false => (2, (0, 0))
  | S754_zero _ => (0, (0, 0))
  | S754_finite true m e => (-1, (- e, Z.neg m))
  | S754_finite false m e => (1, (e, Z.pos m))
  end.

Definition lex_lt (k1 k2 : Z * (Z * Z)) : Prop :=
  fst k1 < fst k2 \/
  (fst k1 = fst k2 /\
   (fst (snd k1) < fst (snd k2) \/
    (fst (snd k1) = fst (snd k2) /\ snd (snd k1) < snd (snd k2)))).

Lemma SFcompare_key x y :
  isnan x = false -> isnan y = false ->
  match SFcompare x y with
  | Some Lt => lex_lt (fkey x) (fkey y)
  | Some Eq => fkey x = fkey y
  | Some Gt => lex_lt (fkey y) (fkey x)
  | None => False
  end.
Proof.
  unfold lex_lt.
  destruct x as [[]|[]| |[] mx ex], y as [[]|[]| |[] my ey]; cbn; intros; try done; try lia.
  - destruct (Z.compare_spec ex ey) as [->| |]; [|lia..].
    change (Pos.compare_cont Eq mx my) with (Pos.compare mx my).
    destruct (Pos.compare_spec mx my) as [->| |]; cbn; [done|lia..].
  - destruct (Z.compare_spec ex ey) as [->| |]; [|lia..].
    change (Pos.compare_cont Eq mx my) with (Pos.compare mx my).
    destruct (Pos.compare_spec mx my) as [->| |]; cbn; [done|lia..].
Qed.

Lemma flt_not_nan x y : flt x y = true -> isnan x = false /\ isnan y = false.
Proof. by destruct x as [[]|[]| |[]], y as [[]|[]| |[]]. Qed.

Lemma fle_not_nan x y : fle x y = true -> isnan x = false /\ isnan y = false.
Proof. by destruct x as [[]|[]| |[]], y as [[]|[]| |[]]. Qed.

Lemma flt_key x y :
  isnan x = false -> isnan y = false -> flt x y = true <-> lex_lt (fkey x) (fkey y).
Proof.
  intros Hx Hy. pose proof (SFcompare_key x y Hx Hy) as H. unfold flt, SFltb.
  destruct (SFcompare x y) as [[]|]; split; intros; try done; exfalso.
  - rewrite H in *. unfold lex_lt in *. lia.
  - unfold lex_lt in *. lia.
Qed.

Lemma fle_key x y :
  isnan x = false -> isnan y = false ->
  fle x y = true <-> ~ lex_lt (fkey y) (fkey x).
Proof.
  intros Hx Hy. pose proof (SFcompare_key x y Hx Hy) as H. unfold fle, SFleb.
  destruct (SFcompare x y) as [[]|]; split; intros; try done.
  - rewrite H. unfold lex_lt. lia.
  - unfold lex_lt in *. lia.
Qed.

Lemma fle_trans x y z : fle x y = true -> fle y z = true -> fle x z = true.
Proof.
  intros H1 H2.
  destruct (fle_not_nan _ _ H1), (fle_not_nan _ _ H2).
  apply fle_key in H1; [|done..]. apply fle_key in H2; [|done..].
  apply fle_key; [done..|]. unfold lex_lt in *. lia.
Qed.

Lemma flt_le x y : flt x y = true -> fle x y = true.
Proof.
  intros H. destruct (flt_not_nan _ _ H). apply flt_key in H; [|done..].
  apply fle_key; [done..|]. unfold lex_lt in *. lia.
Qed.

Lemma fle_refl x : isnan x = false -> fle x x = true.
Proof. intros. apply fle_key; [done..|]. unfold lex_lt. lia. Qed.

Lemma flt_fle_total x y :
  isnan x = false -> isnan y = false -> flt x y = false -> fle y x = true.
Proof.
  intros Hx Hy H. apply fle_key; [done..|].
  intros Hlt. apply flt_key in Hlt; [|done..]. by rewrite Hlt in H.
Qed.

Lemma flt_le_trans x y z : flt x y = true -> fle y z = true -> flt x z = true.
Proof.
  intros H1 H2.
  destruct (flt_not_nan _ _ H1), (fle_not_nan _ _ H2).
  apply flt_key in H1; [|done..]. apply fle_key in H2; [|done..].
  apply flt_key; [done..|]. unfold lex_lt in *. lia.
Qed.

Lemma flt_irrefl_le x y : fle x y = true -> flt y x = false.
Proof.
  intros H. destruct (fle_not_nan _ _ H). apply fle_key in H; [|done..].
  destruct (flt y x) eqn:E; [|done]. apply flt_key in E; done.
Qed.

Lemma clamp_is_prob p : isnan p = false -> is_prob (CLAMP_PROBABILITY p).
Proof.
  intros Hn. unfold CLAMP_PROBABILITY, is_prob.
  destruct (flt p f8_zero) eqn:E1; [done|].
  destruct (fgt p f8_one) eqn:E2; [done|].
  split; apply flt_fle_total; done.
Qed.

Lemma clamp_id p : is_prob p -> CLAMP_PROBABILITY p = p.
Proof.
  intros [H0 H1]. unfold CLAMP_PROBABILITY, fgt.
  by rewrite (flt_irrefl_le _ _ H0), (flt_irrefl_le _ _ H1 : SFltb _ _ = _).
Qed.

Lemma is_prob_not_nan p : is_prob p -> isnan p = false.
Proof. intros [H _]. by apply fle_not_nan in H as [_ ?]. Qed.

(** Clamping into [0, 1] with the [Max] and [Min] macros. *)
Lemma fMin_fMax_prob p : isnan p = false -> is_prob (fMin (fMax p f8_zero) f8_one).
Proof.
  intros Hn. unfold fMin, fMax, fgt, is_prob.
  destruct (SFltb f8_zero p) eqn:E1.
  - destruct (flt p f8_one) eqn:E2; [|done].
    split; apply flt_le; done.
  - done.
Qed.

#[export] Hint Resolve clamp_is_prob fMin_fMax_prob is_prob_not_nan flt_le : pg.
