(* ===== verification/Varlena.v ===== *)
(** * Datums and their storage layout

    The part of the backend's storage conventions that range values rely on:
    [Datum] (postgres.h), the varlena headers (postgres.h, little-endian
    branch), attribute alignment and fetching (access/tupmacs.h), and the two
    helpers of rangetypes.c that lay out bound values, [datum_compute_size]
    and [datum_write].  Sizes are those of a 64-bit little-endian platform. *)

From S2P Require Import Prelude.

(** A [Datum] is a machine word, or a pointer; a pointer is represented by the
    bytes of the object it points to. *)
Inductive Datum : Type :=
| DWord (w : Z)
| DPtr (bytes : list Z).

#[global] Instance Datum_eq_dec : EqDecision Datum.
Proof. solve_decision. Defined.

Definition datum_word (d : Datum) : Z := match d with DWord w => w | DPtr _ => 0 end.

Definition DatumGetPointer (d : Datum) : list Z :=
  match d with DWord _ => [] | DPtr bs => bs end.

Definition Int32GetDatum (x : Z) : Datum := DWord (uwrap 64 x).
Definition DatumGetInt32 (d : Datum) : Z := swrap 32 (datum_word d).
Definition Int64GetDatum (x : Z) : Datum := DWord (uwrap 64 x).
Definition DatumGetInt64 (d : Datum) : Z := swrap 64 (datum_word d).

(** ** pg_type attributes of the element type *)

Inductive TypAlign : Type := TYPALIGN_CHAR | TYPALIGN_SHORT | TYPALIGN_INT | TYPALIGN_DOUBLE.

Inductive TypStorage : Type :=
| TYPSTORAGE_PLAIN | TYPSTORAGE_EXTERNAL | TYPSTORAGE_EXTENDED | TYPSTORAGE_MAIN.

#[global] Instance TypStorage_eq_dec : EqDecision TypStorage.
Proof. solve_decision. Defined.

Record ElemType : Type := mkElemType {
  typlen : Z;
  typbyval : bool;
  typalign : TypAlign;
  typstorage : TypStorage
}.

(** ** Varlena headers (postgres.h) *)

Definition VARHDRSZ : Z := 4.
Definition VARHDRSZ_SHORT : Z := 1.
Definition VARHDRSZ_EXTERNAL : Z := 2.
Definition VARATT_SHORT_MAX : Z := 127.

Definition va_header_1b (p : list Z) : Z := byte_at p 0.

Definition VARATT_IS_4B_U (p : list Z) : bool := Z.land (va_header_1b p) 3 =? 0.
Definition VARATT_IS_4B_C (p : list Z) : bool := Z.land (va_header_1b p) 3 =? 2.
Definition VARATT_IS_1B (p : list Z) : bool := Z.land (va_header_1b p) 1 =? 1.
Definition VARATT_IS_1B_E (p : list Z) : bool := va_header_1b p =? 1.
Definition VARATT_NOT_PAD_BYTE (p : list Z) : bool := negb (byte_at p 0 =? 0).

Definition VARSIZE_4B (p : list Z) : Z :=
  Z.land (Z.shiftr (le_value (bytes_at p 0 4)) 2) 1073741823.

Definition VARSIZE_1B (p : list Z) : Z := Z.land (Z.shiftr (va_header_1b p) 1) 127.

Definition VARTAG_1B_E (p : list Z) : Z := byte_at p 1.

Definition VARTAG_SIZE (tag : Z) : Z :=
  if tag =? 1 then 8
  else if Z.land tag (Z.lnot 1) =? 2 then 8
  else if tag =? 18 then 16
  else 1.

Definition VARSIZE_EXTERNAL (p : list Z) : Z := VARHDRSZ_EXTERNAL + VARTAG_SIZE (VARTAG_1B_E p).

Definition VARSIZE_ANY (p : list Z) : Z :=
  if VARATT_IS_1B_E p then VARSIZE_EXTERNAL p
  else if VARATT_IS_1B p then VARSIZE_1B p
  else VARSIZE_4B p.

Definition VARATT_CONVERTED_SHORT_SIZE (p : list Z) : Z := VARSIZE_4B p - VARHDRSZ + VARHDRSZ_SHORT.

Definition VARATT_CAN_MAKE_SHORT (p : list Z) : bool :=
  VARATT_IS_4B_U p && (VARATT_CONVERTED_SHORT_SIZE p <=? VARATT_SHORT_MAX).

Definition VARDATA (p : list Z) : list Z := drop 4 p.

(** [SET_VARSIZE_SHORT]: the one-byte header of an object of [len] bytes. *)
Definition SET_VARSIZE_SHORT (len : Z) : Z := Z.lor (uwrap 8 (Z.shiftl len 1)) 1.

(** [SET_VARSIZE]: the 32-bit header word of an object of [len] bytes. *)
Definition SET_VARSIZE (len : Z) : Z := uwrap 32 (Z.shiftl (uwrap 32 len) 2).

(** [VARSIZE] of that header word. *)
Definition VARSIZE_of_header (h : Z) : Z := Z.land (Z.shiftr h 2) 1073741823.

(** The TOAST access method: [detoast_attr] reads compressed and out-of-line
    values (access/common/detoast.c); it stays a parameter. *)
Class Toast : Type := { detoast_attr : list Z -> list Z }.

(** [PG_DETOAST_DATUM_PACKED], that is [pg_detoast_datum_packed] (fmgr.c). *)
Definition pg_detoast_datum_packed `{Toast} (d : Datum) : Datum :=
  let p := DatumGetPointer d in
  if VARATT_IS_4B_C p || VARATT_IS_1B_E p then DPtr (detoast_attr p) else d.

(** ** Alignment and fetching (access/tupmacs.h) *)

Definition TYPEALIGN (alignval len : Z) : Z := Z.land (len + (alignval - 1)) (Z.lnot (alignval - 1)).

Definition alignof (a : TypAlign) : Z :=
  match a with
  | TYPALIGN_CHAR => 1
  | TYPALIGN_SHORT => 2
  | TYPALIGN_INT => 4
  | TYPALIGN_DOUBLE => 8
  end.

Definition att_align_nominal (off : Z) (a : TypAlign) : Z :=
  match a with
  | TYPALIGN_INT => TYPEALIGN 4 off
  | TYPALIGN_CHAR => off
  | TYPALIGN_DOUBLE => TYPEALIGN 8 off
  | TYPALIGN_SHORT => TYPEALIGN 2 off
  end.

Definition att_align_datum (off : Z) (a : TypAlign) (len : Z) (d : Datum) : Z :=
  if (len =? -1) && VARATT_IS_1B (DatumGetPointer d) then off else att_align_nominal off a.

(** [p] is the buffer at the current position. *)
Definition att_align_pointer (off : Z) (a : TypAlign) (len : Z) (p : list Z) : Z :=
  if (len =? -1) && VARATT_NOT_PAD_BYTE p then off else att_align_nominal off a.

(** [strlen]: the bytes before the first zero byte. *)
Fixpoint strlen (p : list Z) : Z :=
  match p with
  | [] => 0
  | b :: p' => if b =? 0 then 0 else 1 + strlen p'
  end.

Definition att_addlength_pointer (off : Z) (len : Z) (p : list Z) : Z :=
  if 0 <? len then off + len
  else if len =? -1 then off + VARSIZE_ANY p
  else off + (strlen p + 1).

Definition att_addlength_datum (off : Z) (len : Z) (d : Datum) : Z :=
  att_addlength_pointer off len (DatumGetPointer d).

(** A by-value attribute is sign-extended to a [Datum] ([char] is signed); a
    by-reference one is the object at the current position. *)
Definition fetch_att (p : list Z) (byval : bool) (len : Z) : Datum :=
  if byval then
    if len =? 8 then DWord (le_value (bytes_at p 0 8))
    else if len =? 4 then DWord (uwrap 64 (swrap 32 (le_value (bytes_at p 0 4))))
    else if len =? 2 then DWord (uwrap 64 (swrap 16 (le_value (bytes_at p 0 2))))
    else DWord (uwrap 64 (swrap 8 (byte_at p 0)))
  else DPtr (bytes_at p 0 (att_addlength_pointer 0 len p)).

(** [palloc0] refuses a request above [MaxAllocSize] (utils/memutils.h). *)
Definition MaxAllocSize : Z := 0x3fffffff.

Definition palloc0 (size : Z) : result (list Z) :=
  if size >? MaxAllocSize then elog "invalid memory alloc request size"
  else Ok (replicate (Z.to_nat size) 0).

(** ** Buffers

    Stores into a palloc'ed object: [buf] holds its bytes from offset [base]
    on; storing outside it is undefined behaviour. *)
Definition buf_write (base : Z) (buf : list Z) (off : Z) (bs : list Z) : result (list Z) :=
  let i := off - base in
  if (0 <=? i) && (i + Z.of_nat (length bs) <=? Z.of_nat (length buf)) then
    Ok (take (Z.to_nat i) buf ++ bs ++ drop (Z.to_nat i + length bs) buf)
  else undefined "store outside of the allocated object".

Definition store_att_byval (d : Datum) (len : Z) : result (list Z) :=
  if len =? 1 then Ok (le_bytes 1 (datum_word d))
  else if len =? 2 then Ok (le_bytes 2 (datum_word d))
  else if len =? 4 then Ok (le_bytes 4 (datum_word d))
  else if len =? 8 then Ok (le_bytes 8 (datum_word d))
  else elog "unsupported byval length".

(** ** Laying out a bound value (rangetypes.c) *)

Definition TYPE_IS_PACKABLE (len : Z) (st : TypStorage) : bool :=
  (len =? -1) && bool_decide (st <> TYPSTORAGE_PLAIN).

Definition datum_compute_size (data_length : Z) (val : Datum) (et : ElemType) : Z :=
  if TYPE_IS_PACKABLE (typlen et) (typstorage et)
     && VARATT_CAN_MAKE_SHORT (DatumGetPointer val) then
    data_length + VARATT_CONVERTED_SHORT_SIZE (DatumGetPointer val)
  else
    let data_length := att_align_datum data_length (typalign et) (typlen et) val in
    att_addlength_datum data_length (typlen et) val.

(** Returns the buffer and the advanced pointer. *)
Definition datum_write (base : Z) (buf : list Z) (ptr : Z) (datum : Datum) (et : ElemType)
  : result (list Z * Z) :=
  if typbyval et then
    let ptr := att_align_nominal ptr (typalign et) in
    bs ← store_att_byval datum (typlen et);
    buf ← buf_write base buf ptr bs;
    Ok (buf, ptr + typlen et)
  else if typlen et =? -1 then
    let val := DatumGetPointer datum in
    if VARATT_IS_1B_E val then elog "cannot store a toast pointer inside a range"
    else if VARATT_IS_1B val then
      let data_length := VARSIZE_1B val in
      buf ← buf_write base buf ptr (bytes_at val 0 data_length);
      Ok (buf, ptr + data_length)
    else if TYPE_IS_PACKABLE (typlen et) (typstorage et) && VARATT_CAN_MAKE_SHORT val then
      let data_length := VARATT_CONVERTED_SHORT_SIZE val in
      buf ← buf_write base buf ptr [SET_VARSIZE_SHORT data_length];
      buf ← buf_write base buf (ptr + 1) (bytes_at (VARDATA val) 0 (data_length - 1));
      Ok (buf, ptr + data_length)
    else
      let ptr := att_align_nominal ptr (typalign et) in
      let data_length := VARSIZE_4B val in
      buf ← buf_write base buf ptr (bytes_at val 0 data_length);
      Ok (buf, ptr + data_length)
  else if typlen et =? -2 then
    let data_length := strlen (DatumGetPointer datum) + 1 in
    buf ← buf_write base buf ptr (bytes_at (DatumGetPointer datum) 0 data_length);
    Ok (buf, ptr + data_length)
  else
    let ptr := att_align_nominal ptr (typalign et) in
    let data_length := typlen et in
    buf ← buf_write base buf ptr (bytes_at (DatumGetPointer datum) 0 data_length);
    Ok (buf, ptr + data_length).

(** ** Legal datums and their stored form *)

(** The combinations of [typlen], [typbyval] and [typalign] that CREATE TYPE
    accepts. *)
Definition elem_ok (et : ElemType) : Prop :=
  if typbyval et then In (typlen et) [1; 2; 4; 8]
  else typlen et = -1 \/ (typlen et = -2 /\ typalign et = TYPALIGN_CHAR) \/ 0 < typlen et.

(** A value of the element type that is not toasted. *)
Definition datum_ok (et : ElemType) (d : Datum) : Prop :=
  if typbyval et then exists w, d = DWord w /\ in_uint 64 w
  else exists bs, d = DPtr bs /\ Forall is_byte bs /\
    if typlen et =? -1 then
      VARATT_IS_1B_E bs = false /\ VARATT_IS_4B_C bs = false /\
      VARSIZE_ANY bs = Z.of_nat (length bs) /\
      (VARATT_IS_1B bs = false -> 4 <= Z.of_nat (length bs))
    else if typlen et =? -2 then exists s, bs = s ++ [0] /\ Forall (fun b => b <> 0) s
    else Z.of_nat (length bs) = typlen et.

(** The value is stored without alignment, under a one-byte header. *)
Definition stored_short (et : ElemType) (d : Datum) : bool :=
  (typlen et =? -1) &&
  (VARATT_IS_1B (DatumGetPointer d)
   || (TYPE_IS_PACKABLE (typlen et) (typstorage et) && VARATT_CAN_MAKE_SHORT (DatumGetPointer d))).

Definition stored_bytes (et : ElemType) (d : Datum) : list Z :=
  let bs := DatumGetPointer d in
  if typbyval et then le_bytes (Z.to_nat (typlen et)) (datum_word d)
  else if stored_short et d && negb (VARATT_IS_1B bs) then
    SET_VARSIZE_SHORT (VARATT_CONVERTED_SHORT_SIZE bs) :: VARDATA bs
  else bs.

Definition stored_off (et : ElemType) (d : Datum) (ptr : Z) : Z :=
  if stored_short et d then ptr else att_align_nominal ptr (typalign et).

(** What [fetch_att] gives back for a stored value. *)
Definition stored_datum (et : ElemType) (d : Datum) : Datum :=
  if typbyval et then
    if typlen et =? 8 then d
    else DWord (uwrap 64 (swrap (8 * typlen et) (datum_word d)))
  else DPtr (stored_bytes et d).

(** ** Alignment *)

Lemma TYPEALIGN_spec k off :
  0 <= k -> TYPEALIGN (2 ^ k) off = 2 ^ k * ((off + (2 ^ k - 1)) / 2 ^ k).
Proof.
  intros Hk. unfold TYPEALIGN.
  replace (2 ^ k - 1) with (Z.ones k) by (rewrite Z.ones_equiv; lia).
  rewrite <- Z.ldiff_land, Z.ldiff_ones_r, Z.shiftl_mul_pow2, Z.shiftr_div_pow2 by lia.
  by rewrite Z.mul_comm.
Qed.

Lemma att_align_nominal_spec off a :
  att_align_nominal off a = alignof a * ((off + (alignof a - 1)) / alignof a).
Proof.
  destruct a; cbn [att_align_nominal alignof].
  - rewrite Z.add_0_r, Z.div_1_r. lia.
  - apply (TYPEALIGN_spec 1); lia.
  - apply (TYPEALIGN_spec 2); lia.
  - apply (TYPEALIGN_spec 3); lia.
Qed.

Lemma att_align_nominal_bound off a :
  off <= att_align_nominal off a < off + alignof a.
Proof.
  rewrite att_align_nominal_spec.
  assert (0 < alignof a) by (by destruct a).
  pose proof (Z.div_mod (off + (alignof a - 1)) (alignof a) ltac:(lia)).
  pose proof (Z.mod_pos_bound (off + (alignof a - 1)) (alignof a) ltac:(lia)). lia.
Qed.

Lemma att_align_nominal_idem off a :
  att_align_nominal (att_align_nominal off a) a = att_align_nominal off a.
Proof.
  rewrite !att_align_nominal_spec.
  assert (0 < alignof a) by (by destruct a). f_equal.
  rewrite Z.add_comm, Z.mul_comm, Z.div_add by lia. rewrite (Z.div_small (_ - 1)); lia.
Qed.

(** Nothing precedes a lower bound: offset 8 suits every alignment. *)
Lemma att_align_nominal_8 a : att_align_nominal 8 a = 8.
Proof. by destruct a. Qed.

(** ** Headers *)

Lemma land_1_mod h : Z.land h 1 = h mod 2.
Proof. apply (Z.land_ones h 1); lia. Qed.

Lemma VARATT_IS_1B_parity p : VARATT_IS_1B p = true <-> va_header_1b p mod 2 = 1.
Proof. unfold VARATT_IS_1B. by rewrite land_1_mod, Z.eqb_eq. Qed.

Lemma VARSIZE_1B_spec p : VARSIZE_1B p = (va_header_1b p / 2) mod 128.
Proof.
  unfold VARSIZE_1B. rewrite Z.shiftr_div_pow2 by lia. apply (Z.land_ones _ 7). lia.
Qed.

Lemma SET_VARSIZE_SHORT_spec len : 0 <= len <= 127 -> SET_VARSIZE_SHORT len = 2 * len + 1.
Proof.
  intros H. unfold SET_VARSIZE_SHORT, uwrap.
  rewrite Z.shiftl_mul_pow2 by lia. rewrite Z.mod_small by lia.
  change (2 ^ 1) with 2. rewrite Z.mul_comm.
  assert (Hl : Z.land (2 * len) 1 = 0) by (rewrite land_1_mod; zlia).
  by rewrite <- Z.lxor_lor, <- Z.add_nocarry_lxor.
Qed.

Lemma VARSIZE_of_SET_VARSIZE len : 0 <= len < 2 ^ 30 -> VARSIZE_of_header (SET_VARSIZE len) = len.
Proof.
  intros H. unfold VARSIZE_of_header, SET_VARSIZE, uwrap.
  rewrite (Z.mod_small len) by lia.
  rewrite Z.shiftl_mul_pow2, Z.shiftr_div_pow2 by lia. rewrite Z.mod_small by lia.
  rewrite Z.div_mul by lia. rewrite (Z.land_ones _ 30) by lia. apply Z.mod_small. lia.
Qed.

Lemma can_make_short_4B bs :
  VARATT_CAN_MAKE_SHORT bs = true ->
  VARATT_IS_1B bs = false /\ VARSIZE_4B bs <= 130.
Proof.
  unfold VARATT_CAN_MAKE_SHORT, VARATT_IS_4B_U, VARATT_CONVERTED_SHORT_SIZE, VARATT_SHORT_MAX,
    VARHDRSZ, VARHDRSZ_SHORT. intros H; zbool. split; [|lia].
  unfold VARATT_IS_1B. rewrite land_1_mod.
  rewrite (Z.land_ones _ 2) in H by lia. change (2 ^ 2) with 4 in H.
  apply Z.eqb_neq. zlia.
Qed.

Lemma header_app p q : p <> [] -> va_header_1b (p ++ q) = va_header_1b p.
Proof. by destruct p. Qed.

(** ** Writing and fetching a stored value *)

Lemma buf_write_zeros base pre n off bs :
  base + Z.of_nat (length pre) <= off ->
  off + Z.of_nat (length bs) <= base + Z.of_nat (length pre) + Z.of_nat n ->
  buf_write base (pre ++ replicate n 0) off bs =
  Ok (pre ++ replicate (Z.to_nat (off - base) - length pre) 0 ++ bs ++
      replicate (length pre + n - (Z.to_nat (off - base) + length bs)) 0).
Proof.
  intros H1 H2. unfold buf_write.
  rewrite length_app, length_replicate.
  destruct (_ && _) eqn:E.
  2: { apply andb_false_iff in E as [E|E]; zbool; lia. }
  f_equal. rewrite take_app_ge, take_replicate by lia.
  rewrite drop_app_ge, drop_replicate by lia.
  rewrite <- app_assoc. do 4 f_equal; lia.
Qed.

Lemma strlen_app s q : Forall (fun b => b <> 0) s -> strlen (s ++ 0 :: q) = Z.of_nat (length s).
Proof.
  induction 1 as [|b s Hb _ IH]; [done|]. cbn [app strlen].
  apply Z.eqb_neq in Hb. rewrite Hb, IH. cbn [length]. lia.
Qed.

Lemma varlena_4B_length bs :
  VARSIZE_ANY bs = Z.of_nat (length bs) -> VARATT_IS_1B bs = false ->
  VARSIZE_4B bs = Z.of_nat (length bs).
Proof.
  unfold VARSIZE_ANY. intros H E. rewrite E in H.
  destruct (VARATT_IS_1B_E bs) eqn:E1; [|done].
  unfold VARATT_IS_1B_E, VARATT_IS_1B in *. zbool. by rewrite E1 in E.
Qed.

(** The six ways a legal value can be stored, with the facts each gives. *)
Inductive stored_view (et : ElemType) : Datum -> Prop :=
| SV_byval w :
    typbyval et = true -> In (typlen et) [1; 2; 4; 8] -> in_uint 64 w ->
    stored_view et (DWord w)
| SV_short bs :
    typbyval et = false -> typlen et = -1 -> Forall is_byte bs ->
    VARATT_IS_1B bs = true -> VARATT_IS_1B_E bs = false ->
    VARSIZE_1B bs = Z.of_nat (length bs) -> bs <> [] ->
    stored_view et (DPtr bs)
| SV_pack bs :
    typbyval et = false -> typlen et = -1 -> Forall is_byte bs ->
    VARATT_IS_1B bs = false -> VARATT_IS_1B_E bs = false ->
    TYPE_IS_PACKABLE (-1) (typstorage et) && VARATT_CAN_MAKE_SHORT bs = true ->
    VARSIZE_4B bs = Z.of_nat (length bs) -> 4 <= Z.of_nat (length bs) <= 130 ->
    stored_view et (DPtr bs)
| SV_full bs :
    typbyval et = false -> typlen et = -1 -> Forall is_byte bs ->
    VARATT_IS_1B bs = false -> VARATT_IS_1B_E bs = false ->
    TYPE_IS_PACKABLE (-1) (typstorage et) && VARATT_CAN_MAKE_SHORT bs = false ->
    VARSIZE_4B bs = Z.of_nat (length bs) -> 4 <= Z.of_nat (length bs) ->
    stored_view et (DPtr bs)
| SV_cstring s :
    typbyval et = false -> typlen et = -2 -> typalign et = TYPALIGN_CHAR ->
    Forall (fun b => b <> 0) s ->
    stored_view et (DPtr (s ++ [0]))
| SV_fixed bs :
    typbyval et = false -> 0 < typlen et -> Z.of_nat (length bs) = typlen et ->
    stored_view et (DPtr bs).

Lemma can_make_short_1B bs : VARATT_IS_1B bs = true -> VARATT_CAN_MAKE_SHORT bs = false.
Proof.
  intros H. destruct (VARATT_CAN_MAKE_SHORT bs) eqn:E; [|done].
  apply can_make_short_4B in E as [E _]. congruence.
Qed.

Lemma stored_viewP et d : elem_ok et -> datum_ok et d -> stored_view et d.
Proof.
  unfold elem_ok, datum_ok. destruct (typbyval et) eqn:Hbv.
  { intros He (w & -> & Hw). by apply SV_byval. }
  intros He (bs & -> & Hb & Hd).
  destruct (typlen et =? -1) eqn:E1.
  - apply Z.eqb_eq in E1. destruct Hd as (HE & _ & Hsz & H4).
    destruct (VARATT_IS_1B bs) eqn:E1B.
    + apply SV_short; try done; [|by intros ->].
      by rewrite <- Hsz; unfold VARSIZE_ANY; rewrite HE, E1B.
    + specialize (H4 eq_refl). pose proof (varlena_4B_length _ Hsz E1B) as H4B.
      destruct (TYPE_IS_PACKABLE (-1) (typstorage et) && VARATT_CAN_MAKE_SHORT bs) eqn:EP.
      * apply SV_pack; try done. apply andb_true_iff in EP as [_ EP].
        apply can_make_short_4B in EP as [_ EP]. lia.
      * by apply SV_full.
  - destruct (typlen et =? -2) eqn:E2; zbool.
    + destruct Hd as (s & -> & Hs). apply SV_cstring; try done. by destruct He as [?|[[]|?]]; try lia.
    + apply SV_fixed; try done. lia.
Qed.

(** Unfold the layout functions at a case of the view. *)
Ltac view_simp :=
  unfold stored_bytes, stored_off, stored_datum, stored_short, datum_compute_size,
    att_align_datum, att_align_pointer, att_addlength_datum, att_addlength_pointer;
  cbn [DatumGetPointer datum_word];
  repeat match goal with
  | H : typbyval _ = _ |- _ => rewrite !H
  | H : typlen _ = _ |- _ => rewrite !H
  | H : typalign _ = _ |- _ => rewrite !H
  | H : VARATT_IS_1B _ = _ |- _ => rewrite !H
  | H : VARATT_IS_1B_E _ = _ |- _ => rewrite !H
  | H : TYPE_IS_PACKABLE _ _ && _ = _ |- _ => rewrite !H
  end; rewrite ?orb_false_l, ?orb_true_l;
  cbn [Z.eqb Z.ltb Z.compare Pos.compare Pos.eqb Pos.compare_cont andb negb].

Lemma pos_eqb_neg x p : 0 < x -> (x =? Z.neg p) = false.
Proof. intros. apply Z.eqb_neq. lia. Qed.

Lemma pos_ltb x : 0 < x -> (0 <? x) = true.
Proof. intros. by apply Z.ltb_lt. Qed.

Lemma length_short_bytes bs :
  VARSIZE_4B bs = Z.of_nat (length bs) -> 4 <= Z.of_nat (length bs) ->
  Z.of_nat (length (VARDATA bs)) = VARATT_CONVERTED_SHORT_SIZE bs - 1.
Proof.
  intros H1 H2. unfold VARATT_CONVERTED_SHORT_SIZE, VARDATA, VARHDRSZ, VARHDRSZ_SHORT.
  rewrite length_drop. lia.
Qed.

Lemma length_stored_byval et w :
  typbyval et = true -> In (typlen et) [1; 2; 4; 8] ->
  Z.of_nat (length (stored_bytes et (DWord w))) = typlen et.
Proof. intros Hb Hl. unfold stored_bytes. rewrite Hb, length_le_bytes. cbn in Hl. lia. Qed.

(** [datum_compute_size] accounts for exactly the alignment padding and the
    stored bytes. *)
Lemma datum_compute_size_stored et d ptr :
  elem_ok et -> datum_ok et d ->
  datum_compute_size ptr d et = stored_off et d ptr + Z.of_nat (length (stored_bytes et d)).
Proof.
  intros He Hd. destruct (stored_viewP et d He Hd).
  - rewrite length_stored_byval by done. assert (0 < typlen et) by (cbn in *; lia).
    view_simp. unfold TYPE_IS_PACKABLE. by rewrite !pos_eqb_neg, pos_ltb.
  - view_simp. rewrite can_make_short_1B, andb_false_r by done.
    unfold VARSIZE_ANY. view_simp. lia.
  - view_simp. cbn [length]. pose proof (length_short_bytes bs). lia.
  - view_simp. unfold VARSIZE_ANY. view_simp. lia.
  - view_simp. rewrite (strlen_app s []), length_app by done.
    cbn [length att_align_nominal TYPE_IS_PACKABLE Z.eqb Pos.eqb andb]. lia.
  - view_simp. unfold TYPE_IS_PACKABLE. rewrite !pos_eqb_neg, pos_ltb by done. cbn [andb]. lia.
Qed.

Lemma stored_off_bound et d ptr : ptr <= stored_off et d ptr.
Proof.
  unfold stored_off. destruct (stored_short et d); [lia|].
  pose proof (att_align_nominal_bound ptr (typalign et)). lia.
Qed.

Lemma bytes_at_all bs n : n = Z.of_nat (length bs) -> bytes_at bs 0 n = bs.
Proof. intros ->. unfold bytes_at. by rewrite Nat2Z.id, drop_0, firstn_all. Qed.

Lemma bytes_at_app0 bs q n : n = Z.of_nat (length bs) -> bytes_at (bs ++ q) 0 n = bs.
Proof. intros ->. apply (bytes_at_app_l []). Qed.

Lemma buf_write_in base buf off bs i :
  off = base + Z.of_nat i -> (i + length bs <= length buf)%nat ->
  buf_write base buf off bs = Ok (take i buf ++ bs ++ drop (i + length bs) buf).
Proof.
  intros -> H. unfold buf_write. replace (base + Z.of_nat i - base) with (Z.of_nat i) by lia.
  rewrite Nat2Z.id. destruct (_ && _) eqn:E; [done|].
  apply andb_false_iff in E as [E|E]; zbool; lia.
Qed.

Lemma buf_write_seq base buf off b bs i :
  off = base + Z.of_nat i -> (i + S (length bs) <= length buf)%nat ->
  (buf' ← buf_write base buf off [b]; buf_write base buf' (off + 1) bs) =
  buf_write base buf off (b :: bs).
Proof.
  intros H1 H2. rewrite (buf_write_in _ _ _ (b :: bs) i) by (cbn; lia).
  rewrite (buf_write_in _ _ _ _ i) by (cbn; lia). cbn [mbind result_bind].
  assert (Hl : length (take i buf ++ [b]) = S i) by (rewrite length_app, length_take; cbn; lia).
  rewrite (app_assoc (take i buf) [b]), (buf_write_in _ _ _ _ (S i)).
  - rewrite take_app_length', drop_app_ge, drop_drop, Hl, <- app_assoc by lia. cbn [app length].
    do 5 f_equal. lia.
  - lia.
  - rewrite length_app, Hl, length_drop. cbn. lia.
Qed.

Lemma store_att_byval_stored et w :
  typbyval et = true -> In (typlen et) [1; 2; 4; 8] ->
  store_att_byval (DWord w) (typlen et) = Ok (stored_bytes et (DWord w)).
Proof.
  intros Hb Hl. unfold stored_bytes. rewrite Hb. unfold store_att_byval. cbn [datum_word].
  cbn in Hl. destruct Hl as [<-|[<-|[<-|[<-|[]]]]]; done.
Qed.

(** [datum_write] stays inside the object whenever it has the room that
    [datum_compute_size] counted, and stores the padding and the stored bytes. *)
Lemma datum_write_stored et d base pre n ptr off :
  elem_ok et -> datum_ok et d ->
  ptr = base + Z.of_nat (length pre) -> off = stored_off et d ptr ->
  off + Z.of_nat (length (stored_bytes et d)) <= ptr + Z.of_nat n ->
  datum_write base (pre ++ replicate n 0) ptr d et =
  Ok (pre ++ replicate (Z.to_nat (off - ptr)) 0 ++ stored_bytes et d ++
      replicate (n - (Z.to_nat (off - ptr) + length (stored_bytes et d))) 0,
      off + Z.of_nat (length (stored_bytes et d))).
Proof.
  intros He Hd Hptr Hoff Hroom. pose proof (stored_off_bound et d ptr) as Hle.
  assert (Hw : buf_write base (pre ++ replicate n 0) off (stored_bytes et d) =
    Ok (pre ++ replicate (Z.to_nat (off - ptr)) 0 ++ stored_bytes et d ++
        replicate (n - (Z.to_nat (off - ptr) + length (stored_bytes et d))) 0)).
  { rewrite buf_write_zeros by lia. do 5 f_equal; lia. }
  destruct (stored_viewP et d He Hd) as [w Hbv Hl|bs Hbv Hl Hb|bs Hbv Hl Hb|bs Hbv Hl Hb|s Hbv Hl Ha|bs Hbv Hl Hb];
    unfold datum_write; rewrite Hbv.
  - rewrite store_att_byval_stored by done. cbn [mbind result_bind].
    assert (Ho : att_align_nominal ptr (typalign et) = off).
    { rewrite Hoff. view_simp. by rewrite pos_eqb_neg by (cbn in *; lia). }
    rewrite Ho, Hw. cbn. by rewrite length_stored_byval.
  - assert (Hs : stored_bytes et (DPtr bs) = bs) by (by view_simp).
    assert (Ho : off = ptr) by (rewrite Hoff; by view_simp).
    rewrite Hs, Ho in *. view_simp. rewrite bytes_at_all, Hw by done. cbn. do 3 f_equal. lia.
  - assert (Hs : stored_bytes et (DPtr bs) =
      SET_VARSIZE_SHORT (VARATT_CONVERTED_SHORT_SIZE bs) :: VARDATA bs) by (by view_simp).
    assert (Ho : off = ptr) by (rewrite Hoff; by view_simp).
    pose proof (length_short_bytes bs ltac:(done) ltac:(lia)) as Hsl.
    rewrite Hs, Ho in *. view_simp.
    rewrite bytes_at_all by lia.
    rewrite bind_assoc', (buf_write_seq _ _ _ _ _ (length pre)), Hw;
      cbn [length] in *; rewrite ?length_app, ?length_replicate; try lia.
    cbn. do 3 f_equal. lia.
  - assert (Hs : stored_bytes et (DPtr bs) = bs) by (by view_simp).
    assert (Ho : att_align_nominal ptr (typalign et) = off) by (rewrite Hoff; by view_simp).
    rewrite Hs in *. view_simp. rewrite bytes_at_all, Ho, Hw by done. cbn. do 3 f_equal. lia.
  - assert (Hs : stored_bytes et (DPtr (s ++ [0])) = s ++ [0]) by (by view_simp).
    assert (Ho : off = ptr) by (rewrite Hoff; by view_simp).
    rewrite Hs, Ho in *. view_simp.
    rewrite (strlen_app s []) by done. rewrite bytes_at_all by (rewrite length_app; cbn; lia).
    rewrite Hw. cbn. rewrite length_app. cbn. do 3 f_equal. lia.
  - assert (Hs : stored_bytes et (DPtr bs) = bs) by (view_simp; by rewrite pos_eqb_neg).
    assert (Ho : att_align_nominal ptr (typalign et) = off).
    { rewrite Hoff. view_simp. by rewrite pos_eqb_neg. }
    rewrite Hs in *. rewrite !pos_eqb_neg by done. cbn [DatumGetPointer].
    rewrite bytes_at_all, Ho, Hw by done. cbn. by rewrite Hb.
Qed.

Lemma VARSIZE_4B_app bs q : 4 <= Z.of_nat (length bs) -> VARSIZE_4B (bs ++ q) = VARSIZE_4B bs.
Proof.
  intros H. unfold VARSIZE_4B, bytes_at. rewrite !drop_0, take_app_le by lia. done.
Qed.

(** The one-byte header that [datum_write] makes. *)
Lemma short_header len q :
  1 <= len <= 127 ->
  let p := SET_VARSIZE_SHORT len :: q in
  VARATT_IS_1B p = true /\ VARATT_IS_1B_E p = false /\ VARSIZE_1B p = len /\
  VARATT_IS_4B_C p = false.
Proof.
  intros H p. assert (Hh : va_header_1b p = 2 * len + 1) by (by apply SET_VARSIZE_SHORT_spec; lia).
  split; [|split; [|split]].
  - apply VARATT_IS_1B_parity. rewrite Hh. zlia.
  - unfold VARATT_IS_1B_E. rewrite Hh. apply Z.eqb_neq. lia.
  - rewrite VARSIZE_1B_spec, Hh. zlia.
  - unfold VARATT_IS_4B_C. rewrite Hh, (Z.land_ones _ 2) by lia. apply Z.eqb_neq.
    change (2 ^ 2) with 4. zlia.
Qed.

Lemma converted_short_size bs :
  VARSIZE_4B bs = Z.of_nat (length bs) -> 4 <= Z.of_nat (length bs) <= 130 ->
  1 <= VARATT_CONVERTED_SHORT_SIZE bs <= 127.
Proof. unfold VARATT_CONVERTED_SHORT_SIZE, VARHDRSZ, VARHDRSZ_SHORT. lia. Qed.

Lemma VARSIZE_ANY_full bs q :
  bs <> [] -> VARATT_IS_1B bs = false -> 4 <= Z.of_nat (length bs) ->
  VARSIZE_ANY (bs ++ q) = VARSIZE_4B bs.
Proof.
  intros Hne H1 H4. unfold VARSIZE_ANY, VARATT_IS_1B, VARATT_IS_1B_E in *.
  rewrite header_app by done. rewrite H1. destruct (va_header_1b bs =? 1) eqn:E.
  - apply Z.eqb_eq in E. by rewrite E in H1.
  - by apply VARSIZE_4B_app.
Qed.

Lemma VARSIZE_ANY_short bs q :
  bs <> [] -> VARATT_IS_1B bs = true -> VARATT_IS_1B_E bs = false ->
  VARSIZE_ANY (bs ++ q) = VARSIZE_1B bs.
Proof.
  intros Hne H1 HE. unfold VARSIZE_ANY, VARSIZE_1B, VARATT_IS_1B, VARATT_IS_1B_E in *.
  rewrite header_app by done. by rewrite H1, HE.
Qed.

(** Walking over a stored value advances by its stored bytes. *)
Lemma att_addlength_stored et d off q :
  elem_ok et -> datum_ok et d ->
  att_addlength_pointer off (typlen et) (stored_bytes et d ++ q) =
  off + Z.of_nat (length (stored_bytes et d)).
Proof.
  intros He Hd.
  destruct (stored_viewP et d He Hd) as [w Hbv Hl|bs Hbv Hl Hb|bs Hbv Hl Hb|bs Hbv Hl Hb|s Hbv Hl Ha|bs Hbv Hl Hb].
  - rewrite length_stored_byval by done. unfold att_addlength_pointer. by rewrite pos_ltb by (cbn in *; lia).
  - view_simp. by rewrite VARSIZE_ANY_short, H1 by done.
  - view_simp. destruct (short_header (VARATT_CONVERTED_SHORT_SIZE bs) (VARDATA bs)) as (HA & HB & HC & HD).
    { by apply converted_short_size. }
    rewrite VARSIZE_ANY_short by done. rewrite HC. cbn [length].
    pose proof (length_short_bytes bs ltac:(done) ltac:(lia)). lia.
  - view_simp. rewrite VARSIZE_ANY_full, H2; try done. by intros ->.
  - view_simp. rewrite <- app_assoc. cbn [app].
    rewrite (strlen_app s q), length_app by done. cbn. lia.
  - view_simp. rewrite pos_eqb_neg, pos_ltb by done. cbn [andb]. lia.
Qed.

(** Fetching a stored value gives its stored form. *)
Lemma fetch_att_stored et d q :
  elem_ok et -> datum_ok et d ->
  fetch_att (stored_bytes et d ++ q) (typbyval et) (typlen et) = stored_datum et d.
Proof.
  intros He Hd. unfold fetch_att, stored_datum.
  destruct (typbyval et) eqn:Hbv.
  - unfold elem_ok, datum_ok in He, Hd. rewrite Hbv in He, Hd. destruct Hd as (w & -> & Hw).
    unfold stored_bytes. rewrite Hbv. cbn [datum_word]. cbn in He.
    destruct He as [He|[He|[He|[He|[]]]]]; rewrite <- He; cbn [Z.eqb Pos.eqb].
    + change (byte_at _ 0) with (w mod 2 ^ 8). by rewrite swrap_mod by lia.
    + rewrite bytes_at_app0, le_value_bytes by done. by rewrite swrap_mod by lia.
    + rewrite bytes_at_app0, le_value_bytes by done. by rewrite swrap_mod by lia.
    + rewrite bytes_at_app0, le_value_bytes by done. by rewrite Z.mod_small.
  - f_equal. rewrite att_addlength_stored by done. by apply bytes_at_app0.
Qed.

Lemma stored_short_nonzero et d :
  elem_ok et -> datum_ok et d -> stored_short et d = true ->
  exists b bs, stored_bytes et d = b :: bs /\ b <> 0.
Proof.
  intros He Hd Hs.
  destruct (stored_viewP et d He Hd) as [w Hbv Hl|bs Hbv Hl Hb|bs Hbv Hl Hb|bs Hbv Hl Hb|s Hbv Hl Ha|bs Hbv Hl Hb];
    revert Hs; view_simp; intros Hs.
  - by rewrite pos_eqb_neg in Hs by (cbn in *; lia).
  - destruct bs as [|b bs]; [done|]. exists b, bs. split; [done|].
    intros ->. match goal with H : VARATT_IS_1B _ = true |- _ => by vm_compute in H end.
  - eexists _, _. split; [done|]. rewrite SET_VARSIZE_SHORT_spec by (pose proof (converted_short_size bs); lia).
    pose proof (converted_short_size bs). lia.
  - done.
  - done.
  - by rewrite pos_eqb_neg in Hs.
Qed.

(** [att_align_pointer] finds a stored value behind its (zero) padding. *)
Lemma att_align_pointer_stored et d ptr off q :
  elem_ok et -> datum_ok et d -> off = stored_off et d ptr ->
  att_align_pointer ptr (typalign et) (typlen et)
    (replicate (Z.to_nat (off - ptr)) 0 ++ stored_bytes et d ++ q) = off.
Proof.
  intros He Hd ->. unfold att_align_pointer, stored_off.
  destruct (stored_short et d) eqn:Hs.
  - rewrite Z.sub_diag. change (Z.to_nat 0) with O. cbn [replicate app].
    destruct (stored_short_nonzero et d He Hd Hs) as (b & bs & -> & Hb).
    unfold stored_short in Hs. apply andb_true_iff in Hs as [-> _].
    unfold VARATT_NOT_PAD_BYTE, byte_at. change (Z.to_nat 0) with O. cbn [app nth].
    apply Z.eqb_neq in Hb. by rewrite Hb.
  - pose proof (att_align_nominal_bound ptr (typalign et)) as Hb.
    destruct (_ && _) eqn:E; [|done].
    destruct (decide (att_align_nominal ptr (typalign et) = ptr)) as [->|Hne]; [done|].
    apply andb_true_iff in E as [_ E]. unfold VARATT_NOT_PAD_BYTE in E.
    destruct (Z.to_nat _) eqn:En; [lia|]. by vm_compute in E.
Qed.

Lemma swrap_uwrap_idem n w : 0 < n <= 64 -> swrap n (uwrap 64 (swrap n w)) = swrap n w.
Proof.
  intros Hn. unfold uwrap. rewrite swrap_mod_le by lia. apply swrap_small; [lia|].
  apply swrap_range. lia.
Qed.

(** The stored form is a legal value, and storing it again changes nothing. *)
Lemma stored_datum_ok et d : elem_ok et -> datum_ok et d -> datum_ok et (stored_datum et d).
Proof.
  intros He Hd. pose proof Hd as Hd0. unfold datum_ok.
  destruct (stored_viewP et d He Hd) as [w Hbv Hl Hw|bs Hbv Hl Hb|bs Hbv Hl Hb|bs Hbv Hl Hb|s Hbv Hl Ha|bs Hbv Hl Hb];
    unfold stored_datum; rewrite Hbv.
  - destruct (typlen et =? 8); eexists; split; try done. by apply uwrap_range.
  - unfold datum_ok in Hd0. rewrite Hbv in Hd0. view_simp. rewrite Hl in Hd0.
    by destruct Hd0 as (? & [= <-] & ?); eexists.
  - view_simp. eexists. split; [done|].
    destruct (short_header (VARATT_CONVERTED_SHORT_SIZE bs) (VARDATA bs)) as (HA & HB & HC & HD).
    { by apply converted_short_size. }
    pose proof (converted_short_size bs ltac:(done) ltac:(done)).
    pose proof (length_short_bytes bs ltac:(done) ltac:(lia)).
    repeat split.
    + constructor; [rewrite SET_VARSIZE_SHORT_spec by lia; unfold is_byte; lia|].
      by apply Forall_drop.
    + done.
    + done.
    + unfold VARSIZE_ANY. rewrite HA, HB, HC. cbn [length]. lia.
    + rewrite HA. done.
  - unfold datum_ok in Hd0. rewrite Hbv in Hd0. view_simp. rewrite Hl in Hd0.
    by destruct Hd0 as (? & [= <-] & ?); eexists.
  - unfold datum_ok in Hd0. rewrite Hbv in Hd0. view_simp. rewrite Hl in Hd0.
    by destruct Hd0 as (? & [= <-] & ?); eexists.
  - unfold datum_ok in Hd0. rewrite Hbv in Hd0. view_simp. rewrite !pos_eqb_neg in * by done.
    destruct Hd0 as (? & [= <-] & ?); eexists; done.
Qed.

Lemma stored_datum_idem et d :
  elem_ok et -> datum_ok et d -> stored_datum et (stored_datum et d) = stored_datum et d.
Proof.
  intros He Hd.
  destruct (stored_viewP et d He Hd) as [w Hbv Hl Hw|bs Hbv Hl Hb|bs Hbv Hl Hb|bs Hbv Hl Hb|s Hbv Hl Ha|bs Hbv Hl Hb];
    unfold stored_datum; rewrite Hbv.
  - destruct (typlen et =? 8) eqn:E; [done|]. cbn [datum_word].
    rewrite swrap_uwrap_idem; [done|]. cbn in Hl. lia.
  - f_equal. assert (Hs : stored_bytes et (DPtr bs) = bs) by (by view_simp). by rewrite !Hs.
  - f_equal. destruct (short_header (VARATT_CONVERTED_SHORT_SIZE bs) (VARDATA bs)) as (HA & HB & HC & HD).
    { by apply converted_short_size. }
    assert (Hs : stored_bytes et (DPtr bs) =
      SET_VARSIZE_SHORT (VARATT_CONVERTED_SHORT_SIZE bs) :: VARDATA bs) by (by view_simp).
    rewrite Hs. cbn zeta in HA. by view_simp.
  - f_equal. assert (Hs : stored_bytes et (DPtr bs) = bs) by (by view_simp). by rewrite !Hs.
  - f_equal. assert (Hs : stored_bytes et (DPtr (s ++ [0])) = s ++ [0]) by (by view_simp).
    by rewrite !Hs.
  - f_equal. assert (Hs : stored_bytes et (DPtr bs) = bs) by (view_simp; by rewrite pos_eqb_neg).
    by rewrite !Hs.
Qed.

(** A legal value needs no detoasting. *)
Lemma detoast_datum_ok `{Toast} et d :
  typlen et = -1 -> typbyval et = false -> datum_ok et d -> pg_detoast_datum_packed d = d.
Proof.
  intros Hl Hbv. unfold datum_ok. rewrite Hbv, Hl. intros (bs & -> & _ & HE & HC & _).
  unfold pg_detoast_datum_packed. cbn [DatumGetPointer]. by rewrite HE, HC.
Qed.

#[export] Hint Resolve stored_datum_ok : pg.
