(* ===== verification/RangeTypes.v ===== *)
(** * Range values: representation, construction and bound comparison

    Models the data types of utils/rangetypes.h and the support functions of
    rangetypes.c that every other range function goes through:
    [range_serialize], [range_deserialize], [range_get_flags],
    [range_set_contain_empty], [make_range], [make_empty_range],
    [range_cmp_bounds] and [range_cmp_bound_values].

    A range value is its stored object: the varlena header word, the range
    type's OID and the bytes that follow.  Asserts are compiled out in
    production builds and are not modelled. *)

From S2P Require Import Prelude Floats Varlena.

Definition Oid : Type := Z.

(** ** Data (utils/rangetypes.h, utils/typcache.h) *)

Record RangeType : Type := mkRange {
  vl_len_ : Z;
  rangetypid : Oid;
  rdata : list Z
}.

#[global] Instance RangeType_eq_dec : EqDecision RangeType.
Proof. solve_decision. Defined.

Definition sizeof_RangeType : Z := 8.

Definition RangeTypeGetOid (r : RangeType) : Oid := rangetypid r.

Definition RANGE_EMPTY : Z := 0x01.
Definition RANGE_LB_INC : Z := 0x02.
Definition RANGE_UB_INC : Z := 0x04.
Definition RANGE_LB_INF : Z := 0x08.
Definition RANGE_UB_INF : Z := 0x10.
Definition RANGE_LB_NULL : Z := 0x20.
Definition RANGE_UB_NULL : Z := 0x40.
Definition RANGE_CONTAIN_EMPTY : Z := 0x80.

Definition RANGE_HAS_LBOUND (flags : Z) : bool :=
  negb (bit_set flags (Z.lor (Z.lor RANGE_EMPTY RANGE_LB_NULL) RANGE_LB_INF)).

Definition RANGE_HAS_UBOUND (flags : Z) : bool :=
  negb (bit_set flags (Z.lor (Z.lor RANGE_EMPTY RANGE_UB_NULL) RANGE_UB_INF)).

Record RangeBound : Type := mkBound {
  val : Datum;
  infinite : bool;
  inclusive : bool;
  lower : bool
}.

#[global] Instance RangeBound_eq_dec : EqDecision RangeBound.
Proof. solve_decision. Defined.

(** The fields of the type cache entry that the range functions use.  The
    support functions carry the collation of the range type. *)
Record TypeCacheEntry : Type := mkTypeCache {
  type_id : Oid;
  elem_type_id : Oid;
  rngelemtype : ElemType;
  rng_cmp_proc : Datum -> Datum -> Z;
  rng_canonical : option (RangeType -> result RangeType);
  rng_subdiff : option (Datum -> Datum -> result float8);
  hash_proc : option (Datum -> Z);
  hash_extended_proc : option (Datum -> Z -> Z)
}.

(** ** Comparison of bounds *)

Definition range_cmp_bounds (tc : TypeCacheEntry) (b1 b2 : RangeBound) : Z :=
  if infinite b1 && infinite b2 then
    if Bool.eqb (lower b1) (lower b2) then 0
    else if lower b1 then -1 else 1
  else if infinite b1 then if lower b1 then -1 else 1
  else if infinite b2 then if lower b2 then 1 else -1
  else
    let result := rng_cmp_proc tc (val b1) (val b2) in
    if result =? 0 then
      if negb (inclusive b1) && negb (inclusive b2) then
        if Bool.eqb (lower b1) (lower b2) then 0
        else if lower b1 then 1 else -1
      else if negb (inclusive b1) then if lower b1 then 1 else -1
      else if negb (inclusive b2) then if lower b2 then -1 else 1
      else 0
    else result.

Definition range_cmp_bound_values (tc : TypeCacheEntry) (b1 b2 : RangeBound) : Z :=
  if infinite b1 && infinite b2 then
    if Bool.eqb (lower b1) (lower b2) then 0
    else if lower b1 then -1 else 1
  else if infinite b1 then if lower b1 then -1 else 1
  else if infinite b2 then if lower b2 then 1 else -1
  else rng_cmp_proc tc (val b1) (val b2).

(** ** Flags *)

(** [*((char * ) range + VARSIZE(range) - 1)] *)
Definition range_get_flags (r : RangeType) : Z :=
  byte_at (rdata r) (VARSIZE_of_header (vl_len_ r) - 1 - sizeof_RangeType).

Definition RangeIsEmpty (r : RangeType) : bool := bit_set (range_get_flags r) RANGE_EMPTY.

Definition RangeIsOrContainsEmpty (r : RangeType) : bool :=
  bit_set (range_get_flags r) (Z.lor RANGE_EMPTY RANGE_CONTAIN_EMPTY).

Definition range_set_contain_empty (r : RangeType) : RangeType :=
  let i := VARSIZE_of_header (vl_len_ r) - 1 - sizeof_RangeType in
  mkRange (vl_len_ r) (rangetypid r)
    (<[Z.to_nat i := Z.lor (byte_at (rdata r) i) RANGE_CONTAIN_EMPTY]> (rdata r)).

(** ** Serialization *)

Section Serialize.
Context `{Toast}.

(** The flags value that [range_serialize] computes from the bounds. *)
Definition serialize_flags (tc : TypeCacheEntry) (lo up : RangeBound) (empty : bool) : result Z :=
  if empty then Ok RANGE_EMPTY
  else
    let cmp := range_cmp_bound_values tc lo up in
    if cmp >? 0 then
      ereport ERRCODE_DATA_EXCEPTION
        "range lower bound must be less than or equal to range upper bound"
    else if (cmp =? 0) && negb (inclusive lo && inclusive up) then Ok RANGE_EMPTY
    else
      let flags := 0 in
      let flags := if infinite lo then Z.lor flags RANGE_LB_INF
                   else if inclusive lo then Z.lor flags RANGE_LB_INC else flags in
      let flags := if infinite up then Z.lor flags RANGE_UB_INF
                   else if inclusive up then Z.lor flags RANGE_UB_INC else flags in
      Ok flags.

(** [if (typlen == -1) v = PG_DETOAST_DATUM_PACKED(v)] *)
Definition detoast_bound (et : ElemType) (d : Datum) : Datum :=
  if typlen et =? -1 then pg_detoast_datum_packed d else d.

Definition range_serialize (tc : TypeCacheEntry) (lo up : RangeBound) (empty : bool)
  : result RangeType :=
  flags ← serialize_flags tc lo up empty;
  let et := rngelemtype tc in
  let lval := detoast_bound et (val lo) in
  let uval := detoast_bound et (val up) in
  let msize := sizeof_RangeType in
  let msize := if RANGE_HAS_LBOUND flags then datum_compute_size msize lval et else msize in
  let msize := if RANGE_HAS_UBOUND flags then datum_compute_size msize uval et else msize in
  let msize := msize + 1 in
  object ← palloc0 msize;
  let buf := drop (Z.to_nat sizeof_RangeType) object in
  let ptr := sizeof_RangeType in
  '(buf, ptr) ← (if RANGE_HAS_LBOUND flags then datum_write sizeof_RangeType buf ptr lval et
                 else Ok (buf, ptr));
  '(buf, ptr) ← (if RANGE_HAS_UBOUND flags then datum_write sizeof_RangeType buf ptr uval et
                 else Ok (buf, ptr));
  buf ← buf_write sizeof_RangeType buf ptr [flags];
  Ok (mkRange (SET_VARSIZE msize) (type_id tc) buf).

End Serialize.

Definition range_deserialize (tc : TypeCacheEntry) (r : RangeType)
  : RangeBound * RangeBound * bool :=
  let flags := range_get_flags r in
  let et := rngelemtype tc in
  let at_ptr p := drop (Z.to_nat (p - sizeof_RangeType)) (rdata r) in
  let ptr := sizeof_RangeType in
  let '(lbound, ptr) :=
    if RANGE_HAS_LBOUND flags then
      (fetch_att (at_ptr ptr) (typbyval et) (typlen et),
       att_addlength_pointer ptr (typlen et) (at_ptr ptr))
    else (DWord 0, ptr) in
  let ubound :=
    if RANGE_HAS_UBOUND flags then
      let ptr := att_align_pointer ptr (typalign et) (typlen et) (at_ptr ptr) in
      fetch_att (at_ptr ptr) (typbyval et) (typlen et)
    else DWord 0 in
  (mkBound lbound (bit_set flags RANGE_LB_INF) (bit_set flags RANGE_LB_INC) true,
   mkBound ubound (bit_set flags RANGE_UB_INF) (bit_set flags RANGE_UB_INC) false,
   bit_set flags RANGE_EMPTY).

Section Make.
Context `{Toast}.

Definition make_range (tc : TypeCacheEntry) (lo up : RangeBound) (empty : bool)
  : result RangeType :=
  range ← range_serialize tc lo up empty;
  match rng_canonical tc with
  | Some canonical => if negb (RangeIsEmpty range) then canonical range else Ok range
  | None => Ok range
  end.

Definition make_empty_range (tc : TypeCacheEntry) : result RangeType :=
  make_range tc (mkBound (DWord 0) false false true) (mkBound (DWord 0) false false false) true.

End Make.

(** ** Legal bounds and the layout of a serialized range *)

Section Layout.
Context `{Toast}.

(** The value of a finite bound is legal for the element type. *)
Definition bound_ok (tc : TypeCacheEntry) (b : RangeBound) : Prop :=
  infinite b = false -> datum_ok (rngelemtype tc) (detoast_bound (rngelemtype tc) (val b)).

(** A bound as [range_deserialize] gives it back. *)
Definition norm_bound (tc : TypeCacheEntry) (b : RangeBound) : RangeBound :=
  mkBound
    (if infinite b then DWord 0
     else stored_datum (rngelemtype tc) (detoast_bound (rngelemtype tc) (val b)))
    (infinite b) (inclusive b && negb (infinite b)) (lower b).

Definition empty_bound (lo : bool) : RangeBound := mkBound (DWord 0) false false lo.

(** The offset of the upper bound's value, and the bytes after the OID. *)
Definition upper_off (et : ElemType) (flags : Z) (lval uval : Datum) : Z :=
  let o1 := sizeof_RangeType +
    (if RANGE_HAS_LBOUND flags then Z.of_nat (length (stored_bytes et lval)) else 0) in
  if RANGE_HAS_UBOUND flags then stored_off et uval o1 else o1.

Definition layout (et : ElemType) (flags : Z) (lval uval : Datum) : list Z :=
  let lbytes := if RANGE_HAS_LBOUND flags then stored_bytes et lval else [] in
  let ubytes := if RANGE_HAS_UBOUND flags then stored_bytes et uval else [] in
  let o1 := sizeof_RangeType + Z.of_nat (length lbytes) in
  lbytes ++ replicate (Z.to_nat (upper_off et flags lval uval - o1)) 0 ++ ubytes ++ [flags].

End Layout.

Lemma stored_off_8 et d : stored_off et d 8 = 8.
Proof. unfold stored_off. destruct (stored_short et d); [done|apply att_align_nominal_8]. Qed.

Lemma palloc0_Ok size buf : palloc0 size = Ok buf -> buf = replicate (Z.to_nat size) 0 /\ size <= MaxAllocSize.
Proof.
  unfold palloc0. destruct (size >? MaxAllocSize) eqn:E; [done|]. zbool. by intros [= <-].
Qed.

(** The flags of a non-empty range. *)
Definition bound_flags (lo up : RangeBound) : Z :=
  Z.lor (if infinite lo then RANGE_LB_INF else if inclusive lo then RANGE_LB_INC else 0)
        (if infinite up then RANGE_UB_INF else if inclusive up then RANGE_UB_INC else 0).

(** The bounds describe an empty range. *)
Definition makes_empty (tc : TypeCacheEntry) (lo up : RangeBound) (empty : bool) : bool :=
  empty || ((range_cmp_bound_values tc lo up =? 0) && negb (inclusive lo && inclusive up)).

Lemma serialize_flags_spec tc lo up empty :
  serialize_flags tc lo up empty =
  if negb empty && (range_cmp_bound_values tc lo up >? 0)
  then ereport ERRCODE_DATA_EXCEPTION "range lower bound must be less than or equal to range upper bound"
  else Ok (if makes_empty tc lo up empty then RANGE_EMPTY else bound_flags lo up).
Proof.
  unfold serialize_flags, makes_empty, bound_flags. destruct empty; [done|]. cbn [negb andb orb].
  destruct (range_cmp_bound_values tc lo up >? 0); [done|].
  destruct (_ && _); [done|]. by destruct (infinite lo), (inclusive lo), (infinite up), (inclusive up).
Qed.

Lemma bound_flags_bits lo up :
  RANGE_HAS_LBOUND (bound_flags lo up) = negb (infinite lo) /\
  RANGE_HAS_UBOUND (bound_flags lo up) = negb (infinite up) /\
  bit_set (bound_flags lo up) RANGE_LB_INF = infinite lo /\
  bit_set (bound_flags lo up) RANGE_UB_INF = infinite up /\
  bit_set (bound_flags lo up) RANGE_LB_INC = inclusive lo && negb (infinite lo) /\
  bit_set (bound_flags lo up) RANGE_UB_INC = inclusive up && negb (infinite up) /\
  bit_set (bound_flags lo up) RANGE_EMPTY = false.
Proof. unfold bound_flags. by destruct (infinite lo), (inclusive lo), (infinite up), (inclusive up). Qed.

Lemma flags_has_lbound tc lo up empty flags :
  serialize_flags tc lo up empty = Ok flags -> RANGE_HAS_LBOUND flags = true -> infinite lo = false.
Proof.
  rewrite serialize_flags_spec. destruct (_ && _); [done|]. intros [= <-].
  destruct (makes_empty _ _ _ _); [done|]. destruct (bound_flags_bits lo up) as (-> & _).
  by destruct (infinite lo).
Qed.

Lemma flags_has_ubound tc lo up empty flags :
  serialize_flags tc lo up empty = Ok flags -> RANGE_HAS_UBOUND flags = true -> infinite up = false.
Proof.
  rewrite serialize_flags_spec. destruct (_ && _); [done|]. intros [= <-].
  destruct (makes_empty _ _ _ _); [done|]. destruct (bound_flags_bits lo up) as (_ & -> & _).
  by destruct (infinite up).
Qed.

Section LayoutLemmas.
Context `{Toast}.
Variables (tc : TypeCacheEntry).
Hypothesis Helem : elem_ok (rngelemtype tc).
Let et := rngelemtype tc.

(** Storing a value that may be absent. *)
Lemma write_opt_stored (has : bool) d pre n ptr off bs :
  (has = true -> datum_ok et d) ->
  ptr = sizeof_RangeType + Z.of_nat (length pre) ->
  off = (if has then stored_off et d ptr else ptr) ->
  bs = (if has then stored_bytes et d else []) ->
  off + Z.of_nat (length bs) <= ptr + Z.of_nat n ->
  (if has then datum_write sizeof_RangeType (pre ++ replicate n 0) ptr d et
   else Ok (pre ++ replicate n 0, ptr)) =
  Ok ((pre ++ replicate (Z.to_nat (off - ptr)) 0 ++ bs) ++
      replicate (n - (Z.to_nat (off - ptr) + length bs)) 0, off + Z.of_nat (length bs)).
Proof.
  intros Hd Hptr -> -> Hroom. destruct has.
  - rewrite (datum_write_stored _ _ _ _ _ _ (stored_off et d ptr)) by auto.
    by rewrite <- !app_assoc.
  - rewrite Z.sub_diag. cbn [Z.to_nat replicate app length].
    rewrite app_nil_r, Nat.sub_0_r, Z.add_0_r. done.
Qed.

Lemma size_opt_stored (has : bool) d m :
  (has = true -> datum_ok et d) ->
  (if has then datum_compute_size m d et else m) =
  (if has then stored_off et d m else m) +
  Z.of_nat (length (if has then stored_bytes et d else [])).
Proof.
  destruct has; intros Hd; [by apply datum_compute_size_stored; auto|]. cbn. lia.
Qed.

(** Storing the bounds of an allocated object gives the layout; the stores
    never leave the object. *)
Lemma write_layout flags lval uval n :
  (RANGE_HAS_LBOUND flags = true -> datum_ok et lval) ->
  (RANGE_HAS_UBOUND flags = true -> datum_ok et uval) ->
  let msize := sizeof_RangeType in
  let msize := if RANGE_HAS_LBOUND flags then datum_compute_size msize lval et else msize in
  let msize := if RANGE_HAS_UBOUND flags then datum_compute_size msize uval et else msize in
  n = Z.to_nat (msize + 1 - sizeof_RangeType) ->
  ('(buf, ptr) ← (if RANGE_HAS_LBOUND flags
                  then datum_write sizeof_RangeType (replicate n 0) sizeof_RangeType lval et
                  else Ok (replicate n 0, sizeof_RangeType));
   '(buf, ptr) ← (if RANGE_HAS_UBOUND flags then datum_write sizeof_RangeType buf ptr uval et
                  else Ok (buf, ptr));
   buf_write sizeof_RangeType buf ptr [flags]) = Ok (layout et flags lval uval)
  /\ msize + 1 = sizeof_RangeType + Z.of_nat (length (layout et flags lval uval)).
Proof.
  intros Hl Hu msize0 msize1 msize2 Hn.
  assert (H1 : msize1 = 8 + Z.of_nat (length (if RANGE_HAS_LBOUND flags then stored_bytes et lval else []))).
  { unfold msize1, msize0. rewrite size_opt_stored by done. f_equal.
    destruct (RANGE_HAS_LBOUND flags); [apply stored_off_8|done]. }
  assert (H2 : msize2 = upper_off et flags lval uval +
    Z.of_nat (length (if RANGE_HAS_UBOUND flags then stored_bytes et uval else []))).
  { unfold msize2. rewrite size_opt_stored by done. f_equal. unfold upper_off. rewrite H1.
    by destruct (RANGE_HAS_LBOUND flags). }
  assert (Ho : msize1 <= upper_off et flags lval uval).
  { unfold upper_off. destruct (RANGE_HAS_UBOUND flags); rewrite H1;
      destruct (RANGE_HAS_LBOUND flags); try apply stored_off_bound;
      unfold sizeof_RangeType; cbn [length]; lia. }
  clearbody msize1 msize2. unfold layout.
  set (lb := if RANGE_HAS_LBOUND flags then stored_bytes et lval else _) in *.
  set (ub := if RANGE_HAS_UBOUND flags then stored_bytes et uval else _) in *.
  set (off := upper_off et flags lval uval) in *. unfold sizeof_RangeType in *.
  assert (HL := fun Hoff Hroom => write_opt_stored (RANGE_HAS_LBOUND flags) lval [] n 8 8 lb Hl eq_refl Hoff eq_refl Hroom).
  unfold sizeof_RangeType in HL. cbn [app] in HL. rewrite HL; clear HL;
    [|by destruct (RANGE_HAS_LBOUND flags); rewrite ?stored_off_8|lia].
  cbn [mbind result_bind]. rewrite Z.sub_diag. cbn [Z.to_nat replicate app Nat.add].
  assert (HU := fun k Hoff Hroom => write_opt_stored (RANGE_HAS_UBOUND flags) uval lb k _ off ub Hu eq_refl Hoff eq_refl Hroom).
  unfold sizeof_RangeType in HU. rewrite HU; clear HU;
    [|by unfold off, upper_off, lb; destruct (RANGE_HAS_LBOUND flags)|lia].
  cbn [mbind result_bind].
  rewrite buf_write_zeros by (cbn [length]; rewrite ?length_app, ?length_replicate; lia).
  split.
  - f_equal. rewrite <- !app_assoc. cbn [length]. rewrite !length_app, length_replicate.
    match goal with |- context [replicate ?a 0 ++ [flags] ++ replicate ?b 0] =>
      replace a with O by lia; replace b with O by lia end. done.
  - rewrite !length_app, length_replicate. cbn [length]. lia.
Qed.

(** The object that holds a layout. *)
Definition layout_range (flags : Z) (lval uval : Datum) : RangeType :=
  let l := layout et flags lval uval in
  mkRange (SET_VARSIZE (sizeof_RangeType + Z.of_nat (length l))) (type_id tc) l.

Lemma layout_snoc flags lval uval :
  exists pre, layout et flags lval uval = pre ++ [flags].
Proof. unfold layout. eexists. by rewrite !app_assoc. Qed.

Lemma get_flags_layout flags lval uval :
  sizeof_RangeType + Z.of_nat (length (layout et flags lval uval)) <= MaxAllocSize ->
  range_get_flags (layout_range flags lval uval) = flags.
Proof.
  unfold MaxAllocSize, sizeof_RangeType. intros Hsz. unfold range_get_flags, layout_range. cbn [rdata vl_len_].
  rewrite VARSIZE_of_SET_VARSIZE by (unfold sizeof_RangeType; lia).
  destruct (layout_snoc flags lval uval) as [pre ->].
  rewrite length_app. cbn [length]. unfold sizeof_RangeType.
  replace (8 + Z.of_nat (length pre + 1) - 1 - 8) with (Z.of_nat (length pre)) by lia.
  apply byte_at_app.
Qed.

Lemma deserialize_layout flags lval uval :
  (RANGE_HAS_LBOUND flags = true -> datum_ok et lval) ->
  (RANGE_HAS_UBOUND flags = true -> datum_ok et uval) ->
  sizeof_RangeType + Z.of_nat (length (layout et flags lval uval)) <= MaxAllocSize ->
  range_deserialize tc (layout_range flags lval uval) =
  (mkBound (if RANGE_HAS_LBOUND flags then stored_datum et lval else DWord 0)
     (bit_set flags RANGE_LB_INF) (bit_set flags RANGE_LB_INC) true,
   mkBound (if RANGE_HAS_UBOUND flags then stored_datum et uval else DWord 0)
     (bit_set flags RANGE_UB_INF) (bit_set flags RANGE_UB_INC) false,
   bit_set flags RANGE_EMPTY).
Proof.
  intros Hl Hu Hsz. unfold range_deserialize. rewrite get_flags_layout by done.
  unfold layout_range. cbn [rdata]. fold et. unfold layout, sizeof_RangeType in *.
  rewrite Z.sub_diag. change (Z.to_nat 0) with O. rewrite drop_0.
  set (lb := if RANGE_HAS_LBOUND flags then stored_bytes et lval else []).
  set (ub := if RANGE_HAS_UBOUND flags then stored_bytes et uval else []).
  set (off := upper_off et flags lval uval).
  assert (Hp : (if RANGE_HAS_LBOUND flags then
      (fetch_att (lb ++ replicate (Z.to_nat (off - (8 + Z.of_nat (length lb)))) 0 ++ ub ++ [flags]) (typbyval et) (typlen et),
       att_addlength_pointer 8 (typlen et) (lb ++ replicate (Z.to_nat (off - (8 + Z.of_nat (length lb)))) 0 ++ ub ++ [flags]))
      else (DWord 0, 8)) =
      (if RANGE_HAS_LBOUND flags then stored_datum et lval else DWord 0, 8 + Z.of_nat (length lb))).
  { unfold lb. destruct (RANGE_HAS_LBOUND flags); [|done].
    by rewrite fetch_att_stored, att_addlength_stored by auto. }
  rewrite Hp. clear Hp. do 2 f_equal. f_equal.
  destruct (RANGE_HAS_UBOUND flags) eqn:EU; [|done].
  assert (Hoff : off = stored_off et uval (8 + Z.of_nat (length lb))).
  { unfold off, upper_off, lb. rewrite EU. by destruct (RANGE_HAS_LBOUND flags). }
  pose proof (stored_off_bound et uval (8 + Z.of_nat (length lb))) as Hb. rewrite <- Hoff in Hb.
  replace (Z.to_nat (8 + Z.of_nat (length lb) - 8)) with (length lb) by lia.
  rewrite drop_app_length. unfold ub.
  rewrite att_align_pointer_stored by auto.
  rewrite app_assoc, drop_app_length' by (rewrite length_app, length_replicate; lia).
  by apply fetch_att_stored; auto.
Qed.

(** [range_serialize] is: compute the flags, refuse an oversized object, and
    otherwise lay the bounds out. *)
Lemma range_serialize_layout lo up empty :
  bound_ok tc lo -> bound_ok tc up ->
  range_serialize tc lo up empty =
  (flags ← serialize_flags tc lo up empty;
   let r := layout_range flags (detoast_bound et (val lo)) (detoast_bound et (val up)) in
   if sizeof_RangeType + Z.of_nat (length (rdata r)) >? MaxAllocSize
   then elog "invalid memory alloc request size" else Ok r).
Proof.
  intros Hl Hu. unfold range_serialize.
  destruct (serialize_flags tc lo up empty) as [flags|e] eqn:Ef; [|done]. cbn [mbind result_bind].
  fold et.
  destruct (write_layout flags (detoast_bound et (val lo)) (detoast_bound et (val up)) _
    ltac:(intros HL; apply Hl; by eapply flags_has_lbound)
    ltac:(intros HU; apply Hu; by eapply flags_has_ubound) eq_refl) as [Hw Hs].
  cbv zeta in Hw, Hs. unfold layout_range, palloc0. cbn [rdata]. cbv zeta. rewrite <- Hs.
  destruct (_ >? MaxAllocSize) eqn:E; [done|]. cbn [mbind result_bind].
  rewrite drop_replicate, <- Z2Nat.inj_sub by done. revert Hw.
  destruct (if RANGE_HAS_LBOUND flags then datum_write _ _ _ _ _ else _) as [[b1 p1]|]; cbn [mbind result_bind]; [|done].
  destruct (if RANGE_HAS_UBOUND flags then datum_write _ _ _ _ _ else _) as [[b2 p2]|]; cbn [mbind result_bind]; [|done].
  by intros ->.
Qed.

(** Serializing and deserializing gives the normalized bounds back. *)
Lemma serialize_deserialize lo up empty r :
  bound_ok tc lo -> bound_ok tc up -> lower lo = true -> lower up = false ->
  range_serialize tc lo up empty = Ok r ->
  rangetypid r = type_id tc /\
  range_get_flags r = (if makes_empty tc lo up empty then RANGE_EMPTY else bound_flags lo up) /\
  range_deserialize tc r =
  (if makes_empty tc lo up empty then (empty_bound true, empty_bound false, true)
   else (norm_bound tc lo, norm_bound tc up, false)).
Proof.
  intros Hl Hu El Eu. rewrite range_serialize_layout by done. rewrite bind_Ok.
  intros (flags & Hf & Hr). cbv zeta in Hr. destruct (_ >? _) eqn:Esz; [done|]. zbool.
  injection Hr as <-. unfold layout_range at 1 in Esz. cbn [rdata] in Esz.
  rewrite get_flags_layout by done. split; [done|].
  pose proof (flags_has_lbound _ _ _ _ _ Hf) as HL. pose proof (flags_has_ubound _ _ _ _ _ Hf) as HU.
  rewrite deserialize_layout by (try done; intros; by auto using Hl, Hu).
  rewrite serialize_flags_spec in Hf. destruct (_ && _) in Hf; [done|]. injection Hf as <-.
  split; [done|]. destruct (makes_empty tc lo up empty); [done|].
  destruct (bound_flags_bits lo up) as (-> & -> & -> & -> & -> & -> & ->).
  unfold norm_bound. rewrite El, Eu. fold et. by destruct (infinite lo), (infinite up).
Qed.

(** The size of the object for the given bounds: the header with the OID, the
    stored bytes of the finite bounds, the second one from the next offset its
    type allows, and the byte of flags; the empty range has no bounds. *)
Definition serialized_size (lo up : RangeBound) (empty : bool) : Z :=
  if makes_empty tc lo up empty then 9
  else
    let lval := detoast_bound et (val lo) in
    let uval := detoast_bound et (val up) in
    let lend := 8 + (if infinite lo then 0 else Z.of_nat (length (stored_bytes et lval))) in
    (if infinite up then lend
     else stored_off et uval lend + Z.of_nat (length (stored_bytes et uval))) + 1.

Lemma layout_size lo up empty :
  8 + Z.of_nat (length (layout et (if makes_empty tc lo up empty then RANGE_EMPTY else bound_flags lo up)
    (detoast_bound et (val lo)) (detoast_bound et (val up)))) = serialized_size lo up empty.
Proof.
  unfold serialized_size. destruct (makes_empty tc lo up empty); [done|].
  destruct (bound_flags_bits lo up) as (HL & HU & _). unfold layout, upper_off. rewrite HL, HU.
  unfold sizeof_RangeType. rewrite !length_app, length_replicate. cbn [length].
  set (uval := detoast_bound et (val up)).
  set (lb := stored_bytes et (detoast_bound et (val lo))).
  pose proof (stored_off_bound et uval (8 + Z.of_nat (length lb))).
  pose proof (stored_off_bound et uval 8).
  destruct (infinite lo), (infinite up); cbn [negb length] in *; rewrite ?Z.add_0_r; try lia.
Qed.

(** [range_serialize] on legal bounds: the error for bounds out of order, the
    error for an object that is too large, or an object of the given size. *)
Lemma serialize_outcome lo up empty :
  bound_ok tc lo -> bound_ok tc up ->
  if negb empty && (range_cmp_bound_values tc lo up >? 0) then
    range_serialize tc lo up empty = Err (mkError ERRCODE_DATA_EXCEPTION
      "range lower bound must be less than or equal to range upper bound")
  else if serialized_size lo up empty >? MaxAllocSize then
    range_serialize tc lo up empty = Err (mkError ERRCODE_INTERNAL_ERROR "invalid memory alloc request size")
  else exists r, range_serialize tc lo up empty = Ok r /\
    vl_len_ r = SET_VARSIZE (serialized_size lo up empty) /\
    8 + Z.of_nat (length (rdata r)) = serialized_size lo up empty.
Proof.
  intros Hl Hu. rewrite range_serialize_layout, serialize_flags_spec by done.
  destruct (negb empty && _) eqn:E; [done|]. cbn [mbind result_bind]. cbv zeta.
  pose proof (layout_size lo up empty) as Hs. unfold layout_range, sizeof_RangeType. cbn [rdata].
  rewrite Hs. destruct (_ >? MaxAllocSize); [done|]. eexists. split; [done|]. cbn [vl_len_ rdata]. by rewrite Hs.
Qed.

(** The only errors of [range_serialize] on legal bounds. *)
Lemma serialize_error lo up empty e :
  bound_ok tc lo -> bound_ok tc up ->
  range_serialize tc lo up empty = Err e ->
  (empty = false /\ 0 < range_cmp_bound_values tc lo up /\
   e = mkError ERRCODE_DATA_EXCEPTION
         "range lower bound must be less than or equal to range upper bound") \/
  e = mkError ERRCODE_INTERNAL_ERROR "invalid memory alloc request size".
Proof.
  intros Hl Hu. rewrite range_serialize_layout, serialize_flags_spec by done.
  destruct (negb empty && _) eqn:E; cbn [mbind result_bind ereport].
  - zbool. intros [= <-]. left. by destruct empty.
  - cbv zeta. destruct (_ >? MaxAllocSize); unfold elog, ereport; [|done]. intros [= <-]. by right.
Qed.

End LayoutLemmas.
