(* ===== verification/RangeOrder.v ===== *)
(** * The order of range bounds: specification

    Bounds are compared as points of the element type's line extended with
    -infinity and +infinity, where each value [v] has a point just before it,
    the point itself, and a point just after it (the comment above
    [range_cmp_bounds] in rangetypes.c).  This file states that order
    independently of the code, proves it is a total preorder whenever the
    element type's comparison function is one, and gives the interfaces that
    an element type and its canonical function have to meet. *)

From S2P Require Import Prelude Floats Varlena RangeTypes.

(** ** The extended line *)

Inductive Side : Type := Before | At | After.

Inductive ExtPoint : Type :=
| MinusInf
| PlusInf
| Fin (v : Datum) (s : Side).

Definition side_rank (s : Side) : Z :=
  match s with Before => -1 | At => 0 | After => 1 end.

Definition ext_cmp (cmp : Datum -> Datum -> Z) (p q : ExtPoint) : Z :=
  match p, q with
  | MinusInf, MinusInf | PlusInf, PlusInf => 0
  | MinusInf, _ | _, PlusInf => -1
  | PlusInf, _ | _, MinusInf => 1
  | Fin v s, Fin w t => if cmp v w =? 0 then side_rank s - side_rank t else cmp v w
  end.

(** The point a bound stands for. *)
Definition point_of (b : RangeBound) : ExtPoint :=
  if infinite b then if lower b then MinusInf else PlusInf
  else Fin (val b) (if inclusive b then At else if lower b then After else Before).

(** The bound that stands for a value itself. *)
Definition pt (v : Datum) : RangeBound := mkBound v false true true.

(** [v] lies between the bounds [lo] and [up]. *)
Definition between (tc : TypeCacheEntry) (lo up : RangeBound) (v : Datum) : Prop :=
  range_cmp_bounds tc lo (pt v) <= 0 /\ 0 <= range_cmp_bounds tc up (pt v).

(** ** Interfaces *)

(** A btree comparison function orders the values (documented contract of
    btree operator classes). *)
Class CmpOrder (cmp : Datum -> Datum -> Z) : Prop := {
  cmp_antisym : forall a b, Z.sgn (cmp b a) = - Z.sgn (cmp a b);
  cmp_trans : forall a b c, cmp a b <= 0 -> cmp b c <= 0 -> cmp a c <= 0
}.

(** What the range functions rely on for a range type: legal storage
    attributes, an ordering comparison, and a comparison that does not depend
    on the storage format (packed or not, toasted or not) of its arguments. *)
Class RangeSubtype `{Toast} (tc : TypeCacheEntry) : Prop := {
  rs_elem : elem_ok (rngelemtype tc);
  rs_order :: CmpOrder (rng_cmp_proc tc);
  rs_stored : forall d x, datum_ok (rngelemtype tc) (detoast_bound (rngelemtype tc) d) ->
    Z.sgn (rng_cmp_proc tc (stored_datum (rngelemtype tc) (detoast_bound (rngelemtype tc) d)) x) =
    Z.sgn (rng_cmp_proc tc d x)
}.

(** ** A total preorder restricted to finitely many points is an order of integers *)

Section Rank.
Context {A : Type} (cmp : A -> A -> Z).
Hypothesis asym : forall x y, Z.sgn (cmp y x) = - Z.sgn (cmp x y).
Hypothesis trans : forall x y z, cmp x y <= 0 -> cmp y z <= 0 -> cmp x z <= 0.

Definition rank (l : list A) (x : A) : Z :=
  Z.of_nat (length (List.filter (fun y => cmp y x <? 0) l)).

Lemma length_filter_le (P Q : A -> bool) l :
  (forall x, P x = true -> Q x = true) ->
  (length (List.filter P l) <= length (List.filter Q l))%nat.
Proof.
  intros HPQ. induction l as [|a l IH]; [done|]. cbn [List.filter].
  destruct (P a) eqn:EP; [rewrite (HPQ _ EP); cbn; lia|]. destruct (Q a); cbn; lia.
Qed.

Lemma length_filter_lt (P Q : A -> bool) l a :
  (forall x, P x = true -> Q x = true) -> In a l -> P a = false -> Q a = true ->
  (length (List.filter P l) < length (List.filter Q l))%nat.
Proof.
  intros HPQ Hin HP HQ. induction l as [|b l IH]; [done|]. cbn [List.filter].
  destruct Hin as [->|Hin].
  - rewrite HP, HQ. cbn. pose proof (length_filter_le P Q l HPQ). lia.
  - specialize (IH Hin).
    destruct (P b) eqn:EP; [rewrite (HPQ _ EP); cbn; lia|]. destruct (Q b); cbn; lia.
Qed.

Lemma cmp_lt_le_trans x y z : cmp x y < 0 -> cmp y z <= 0 -> cmp x z < 0.
Proof.
  intros H1 H2. pose proof (trans x y z). pose proof (asym x z). pose proof (asym x y).
  destruct (decide (cmp x z = 0)); [|lia].
  pose proof (trans y z x). lia.
Qed.

Lemma rank_le l x y : cmp x y <= 0 -> rank l x <= rank l y.
Proof.
  intros H. unfold rank. apply Nat2Z.inj_le, length_filter_le.
  intros z Hz. apply Z.ltb_lt in Hz. apply Z.ltb_lt. by apply cmp_lt_le_trans with x.
Qed.

Lemma rank_lt l x y : In x l -> cmp x y < 0 -> rank l x < rank l y.
Proof.
  intros Hin H. unfold rank. apply Nat2Z.inj_lt, length_filter_lt with x; [|done|..].
  - intros z Hz. apply Z.ltb_lt in Hz. apply Z.ltb_lt. apply cmp_lt_le_trans with x; lia.
  - apply Z.ltb_ge. pose proof (asym x x). lia.
  - by apply Z.ltb_lt.
Qed.

Lemma rank_spec l x y :
  In x l -> In y l -> Z.sgn (cmp x y) = Z.sgn (rank l x - rank l y).
Proof.
  intros Hx Hy. pose proof (asym x y).
  destruct (Z.lt_trichotomy (cmp x y) 0) as [Hlt|[Heq|Hgt]].
  - pose proof (rank_lt l x y Hx Hlt). lia.
  - pose proof (rank_le l x y). pose proof (rank_le l y x). lia.
  - pose proof (rank_lt l y x Hy). lia.
Qed.

End Rank.

(** ** [range_cmp_bounds] is the order of the extended line *)

Lemma range_cmp_bounds_sgn tc b1 b2 :
  Z.sgn (range_cmp_bounds tc b1 b2) =
  Z.sgn (ext_cmp (rng_cmp_proc tc) (point_of b1) (point_of b2)).
Proof.
  unfold range_cmp_bounds, point_of, ext_cmp.
  destruct b1 as [v1 [] i1 l1], b2 as [v2 [] i2 l2]; cbn [infinite lower val inclusive andb].
  - by destruct l1, l2.
  - by destruct l1.
  - by destruct l2.
  - destruct (rng_cmp_proc tc v1 v2 =? 0) eqn:E; [|done]. by destruct i1, i2, l1, l2.
Qed.

Section Order.
Context (cmp : Datum -> Datum -> Z) `{!CmpOrder cmp}.

Lemma cmp_refl a : cmp a a = 0.
Proof. pose proof (cmp_antisym a a). lia. Qed.

Lemma ext_cmp_antisym p q : Z.sgn (ext_cmp cmp q p) = - Z.sgn (ext_cmp cmp p q).
Proof.
  destruct p as [| |v s], q as [| |w t]; cbn; try done.
  pose proof (cmp_antisym v w).
  destruct (Z.eqb_spec (cmp v w) 0), (Z.eqb_spec (cmp w v) 0); lia.
Qed.

Lemma ext_cmp_trans p q r :
  ext_cmp cmp p q <= 0 -> ext_cmp cmp q r <= 0 -> ext_cmp cmp p r <= 0.
Proof.
  destruct p as [| |v s], q as [| |w t], r as [| |x u]; cbn; try lia.
  pose proof (cmp_antisym v w). pose proof (cmp_antisym w x). pose proof (cmp_antisym v x).
  pose proof (cmp_trans v w x). pose proof (cmp_trans w x v). pose proof (cmp_trans x v w).
  pose proof (cmp_trans x w v). pose proof (cmp_trans w v x). pose proof (cmp_trans v x w).
  destruct (Z.eqb_spec (cmp v w) 0), (Z.eqb_spec (cmp w x) 0), (Z.eqb_spec (cmp v x) 0); lia.
Qed.

End Order.

Section BoundOrder.
Context (tc : TypeCacheEntry) `{!CmpOrder (rng_cmp_proc tc)}.

Lemma bounds_antisym b1 b2 :
  Z.sgn (range_cmp_bounds tc b2 b1) = - Z.sgn (range_cmp_bounds tc b1 b2).
Proof. rewrite !range_cmp_bounds_sgn. by apply ext_cmp_antisym. Qed.

Lemma bounds_refl b : range_cmp_bounds tc b b = 0.
Proof. pose proof (bounds_antisym b b). lia. Qed.

Lemma bounds_trans b1 b2 b3 :
  range_cmp_bounds tc b1 b2 <= 0 -> range_cmp_bounds tc b2 b3 <= 0 ->
  range_cmp_bounds tc b1 b3 <= 0.
Proof.
  intros H1 H2.
  pose proof (range_cmp_bounds_sgn tc b1 b2). pose proof (range_cmp_bounds_sgn tc b2 b3).
  pose proof (range_cmp_bounds_sgn tc b1 b3).
  pose proof (ext_cmp_trans _ (point_of b1) (point_of b2) (point_of b3)). lia.
Qed.

Lemma bounds_rank l b1 b2 :
  In b1 l -> In b2 l ->
  Z.sgn (range_cmp_bounds tc b1 b2) =
  Z.sgn (rank (range_cmp_bounds tc) l b1 - rank (range_cmp_bounds tc) l b2).
Proof. apply rank_spec; [apply bounds_antisym|apply bounds_trans]. Qed.

End BoundOrder.

(** Decide goals about comparisons of the bounds in [l]: each comparison is
    replaced by one of the ranks, which are integers. *)
Lemma sgn_transfer c d :
  Z.sgn c = Z.sgn d ->
  (c <= 0 <-> d <= 0) /\ (0 <= c <-> 0 <= d) /\ (c < 0 <-> d < 0) /\ (0 < c <-> 0 < d) /\
  (c = 0 <-> d = 0) /\ (c <> 0 <-> d <> 0).
Proof. lia. Qed.

Ltac rank_lia tc l :=
  let f := fresh "f" in let Hf := fresh "Hf" in
  pose proof (bounds_rank tc l) as Hf;
  set (f := rank (range_cmp_bounds tc) l) in Hf; clearbody f;
  repeat match goal with H : _ /\ _ |- _ => destruct H end;
  let tr a b := constr:(sgn_transfer _ _ (Hf a b ltac:(cbn; tauto) ltac:(cbn; tauto))) in
  repeat match goal with
  | H : range_cmp_bounds tc ?a ?b <= 0 |- _ => let t := tr a b in apply (proj1 t) in H
  | H : 0 <= range_cmp_bounds tc ?a ?b |- _ => let t := tr a b in apply (proj1 (proj2 t)) in H
  | H : range_cmp_bounds tc ?a ?b < 0 |- _ => let t := tr a b in apply (proj1 (proj2 (proj2 t))) in H
  | H : 0 < range_cmp_bounds tc ?a ?b |- _ =>
      let t := tr a b in apply (proj1 (proj2 (proj2 (proj2 t)))) in H
  | H : range_cmp_bounds tc ?a ?b = 0 |- _ =>
      let t := tr a b in apply (proj1 (proj2 (proj2 (proj2 (proj2 t))))) in H
  | H : range_cmp_bounds tc ?a ?b <> 0 |- _ =>
      let t := tr a b in apply (proj2 (proj2 (proj2 (proj2 (proj2 t))))) in H
  end;
  repeat match goal with
  | H : context [range_cmp_bounds tc _ _] |- _ =>
      lazymatch type of H with forall b1 b2, In b1 _ -> _ => fail | _ => clear H end
  end;
  repeat match goal with
  | |- context [range_cmp_bounds tc ?a ?b <= 0] => let t := tr a b in rewrite (proj1 t)
  | |- context [0 <= range_cmp_bounds tc ?a ?b] => let t := tr a b in rewrite (proj1 (proj2 t))
  | |- context [range_cmp_bounds tc ?a ?b < 0] => let t := tr a b in rewrite (proj1 (proj2 (proj2 t)))
  | |- context [0 < range_cmp_bounds tc ?a ?b] =>
      let t := tr a b in rewrite (proj1 (proj2 (proj2 (proj2 t))))
  | |- context [range_cmp_bounds tc ?a ?b = 0] =>
      let t := tr a b in rewrite (proj1 (proj2 (proj2 (proj2 (proj2 t)))))
  end; clear Hf; lia.
