(* ===== verification/RangeOps.v ===== *)
(** * Operators on range values

    The generic functions of rangetypes.c: accessors, the boolean operators
    (in their [_internal] form, given the type cache entry), union, merge,
    difference, intersection and the btree comparison.  Functions of the
    source that can raise an error return a [result]. *)

From S2P Require Import Prelude Floats Varlena RangeTypes RangeOrder.

(** ** range -> subtype, range -> bool *)

(** SQL NULL is [None]. *)
Definition range_lower_internal (tc : TypeCacheEntry) (r1 : RangeType) : option Datum :=
  let '(lo, up, empty) := range_deserialize tc r1 in
  if empty || infinite lo then None else Some (val lo).

Definition range_upper_internal (tc : TypeCacheEntry) (r1 : RangeType) : option Datum :=
  let '(lo, up, empty) := range_deserialize tc r1 in
  if empty || infinite up then None else Some (val up).

Definition range_empty (r1 : RangeType) : bool := bit_set (range_get_flags r1) RANGE_EMPTY.
Definition range_lower_inc (r1 : RangeType) : bool := bit_set (range_get_flags r1) RANGE_LB_INC.
Definition range_upper_inc (r1 : RangeType) : bool := bit_set (range_get_flags r1) RANGE_UB_INC.
Definition range_lower_inf (r1 : RangeType) : bool := bit_set (range_get_flags r1) RANGE_LB_INF.
Definition range_upper_inf (r1 : RangeType) : bool := bit_set (range_get_flags r1) RANGE_UB_INF.

(** ** range, element -> bool *)

Definition range_contains_elem_internal (tc : TypeCacheEntry) (r : RangeType) (v : Datum) : bool :=
  let '(lo, up, empty) := range_deserialize tc r in
  if empty then false
  else
    let lower_fails :=
      if negb (infinite lo) then
        let cmp := rng_cmp_proc tc (val lo) v in
        if cmp >? 0 then true else (cmp =? 0) && negb (inclusive lo)
      else false in
    let upper_fails :=
      if negb (infinite up) then
        let cmp := rng_cmp_proc tc (val up) v in
        if cmp <? 0 then true else (cmp =? 0) && negb (inclusive up)
      else false in
    if lower_fails then false
    else if upper_fails then false
    else true.

(** ** range, range -> bool *)

Definition types_differ (r1 r2 : RangeType) : bool :=
  negb (RangeTypeGetOid r1 =? RangeTypeGetOid r2).

Definition range_eq_internal (tc : TypeCacheEntry) (r1 r2 : RangeType) : result bool :=
  if types_differ r1 r2 then elog "range types do not match"
  else
    let '(lower1, upper1, empty1) := range_deserialize tc r1 in
    let '(lower2, upper2, empty2) := range_deserialize tc r2 in
    if empty1 && empty2 then Ok true
    else if negb (Bool.eqb empty1 empty2) then Ok false
    else if negb (range_cmp_bounds tc lower1 lower2 =? 0) then Ok false
    else if negb (range_cmp_bounds tc upper1 upper2 =? 0) then Ok false
    else Ok true.

Definition range_ne_internal (tc : TypeCacheEntry) (r1 r2 : RangeType) : result bool :=
  b ← range_eq_internal tc r1 r2; Ok (negb b).

Definition range_contains_internal (tc : TypeCacheEntry) (r1 r2 : RangeType) : result bool :=
  if types_differ r1 r2 then elog "range types do not match"
  else
    let '(lower1, upper1, empty1) := range_deserialize tc r1 in
    let '(lower2, upper2, empty2) := range_deserialize tc r2 in
    if empty2 then Ok true
    else if empty1 then Ok false
    else if range_cmp_bounds tc lower1 lower2 >? 0 then Ok false
    else if range_cmp_bounds tc upper1 upper2 <? 0 then Ok false
    else Ok true.

Definition range_contained_by_internal (tc : TypeCacheEntry) (r1 r2 : RangeType) : result bool :=
  range_contains_internal tc r2 r1.

Definition range_before_internal (tc : TypeCacheEntry) (r1 r2 : RangeType) : result bool :=
  if types_differ r1 r2 then elog "range types do not match"
  else
    let '(lower1, upper1, empty1) := range_deserialize tc r1 in
    let '(lower2, upper2, empty2) := range_deserialize tc r2 in
    if empty1 || empty2 then Ok false
    else Ok (range_cmp_bounds tc upper1 lower2 <? 0).

Definition range_after_internal (tc : TypeCacheEntry) (r1 r2 : RangeType) : result bool :=
  if types_differ r1 r2 then elog "range types do not match"
  else
    let '(lower1, upper1, empty1) := range_deserialize tc r1 in
    let '(lower2, upper2, empty2) := range_deserialize tc r2 in
    if empty1 || empty2 then Ok false
    else Ok (range_cmp_bounds tc lower1 upper2 >? 0).

Definition range_overlaps_internal (tc : TypeCacheEntry) (r1 r2 : RangeType) : result bool :=
  if types_differ r1 r2 then elog "range types do not match"
  else
    let '(lower1, upper1, empty1) := range_deserialize tc r1 in
    let '(lower2, upper2, empty2) := range_deserialize tc r2 in
    if empty1 || empty2 then Ok false
    else if (range_cmp_bounds tc lower1 lower2 >=? 0) && (range_cmp_bounds tc lower1 upper2 <=? 0)
    then Ok true
    else if (range_cmp_bounds tc lower2 lower1 >=? 0) && (range_cmp_bounds tc lower2 upper1 <=? 0)
    then Ok true
    else Ok false.

Definition range_overleft_internal (tc : TypeCacheEntry) (r1 r2 : RangeType) : result bool :=
  if types_differ r1 r2 then elog "range types do not match"
  else
    let '(lower1, upper1, empty1) := range_deserialize tc r1 in
    let '(lower2, upper2, empty2) := range_deserialize tc r2 in
    if empty1 || empty2 then Ok false
    else if range_cmp_bounds tc upper1 upper2 <=? 0 then Ok true
    else Ok false.

Definition range_overright_internal (tc : TypeCacheEntry) (r1 r2 : RangeType) : result bool :=
  if types_differ r1 r2 then elog "range types do not match"
  else
    let '(lower1, upper1, empty1) := range_deserialize tc r1 in
    let '(lower2, upper2, empty2) := range_deserialize tc r2 in
    if empty1 || empty2 then Ok false
    else if range_cmp_bounds tc lower1 lower2 >=? 0 then Ok true
    else Ok false.

Section Ops.
Context `{Toast}.

(** [boundA] is an upper bound and [boundB] a lower bound. *)
Definition bounds_adjacent (tc : TypeCacheEntry) (boundA boundB : RangeBound) : result bool :=
  let cmp := range_cmp_bound_values tc boundA boundB in
  if cmp <? 0 then
    match rng_canonical tc with
    | None => Ok false
    | Some _ =>
        let boundA := mkBound (val boundA) (infinite boundA) (negb (inclusive boundA)) true in
        let boundB := mkBound (val boundB) (infinite boundB) (negb (inclusive boundB)) false in
        r ← make_range tc boundA boundB false;
        Ok (RangeIsEmpty r)
    end
  else if cmp =? 0 then Ok (negb (Bool.eqb (inclusive boundA) (inclusive boundB)))
  else Ok false.

Definition range_adjacent_internal (tc : TypeCacheEntry) (r1 r2 : RangeType) : result bool :=
  if types_differ r1 r2 then elog "range types do not match"
  else
    let '(lower1, upper1, empty1) := range_deserialize tc r1 in
    let '(lower2, upper2, empty2) := range_deserialize tc r2 in
    if empty1 || empty2 then Ok false
    else
      a ← bounds_adjacent tc upper1 lower2;
      if (a : bool) then Ok true else bounds_adjacent tc upper2 lower1.

(** ** range, range -> range *)

Definition range_minus_internal (tc : TypeCacheEntry) (r1 r2 : RangeType) : result RangeType :=
  let '(lower1, upper1, empty1) := range_deserialize tc r1 in
  let '(lower2, upper2, empty2) := range_deserialize tc r2 in
  if empty1 || empty2 then Ok r1
  else
    let cmp_l1l2 := range_cmp_bounds tc lower1 lower2 in
    let cmp_l1u2 := range_cmp_bounds tc lower1 upper2 in
    let cmp_u1l2 := range_cmp_bounds tc upper1 lower2 in
    let cmp_u1u2 := range_cmp_bounds tc upper1 upper2 in
    if (cmp_l1l2 <? 0) && (cmp_u1u2 >? 0) then
      ereport ERRCODE_DATA_EXCEPTION "result of range difference would not be contiguous"
    else if (cmp_l1u2 >? 0) || (cmp_u1l2 <? 0) then Ok r1
    else if (cmp_l1l2 >=? 0) && (cmp_u1u2 <=? 0) then make_empty_range tc
    else if (cmp_l1l2 <=? 0) && (cmp_u1l2 >=? 0) && (cmp_u1u2 <=? 0) then
      make_range tc lower1 (mkBound (val lower2) (infinite lower2) (negb (inclusive lower2)) false) false
    else if (cmp_l1l2 >=? 0) && (cmp_u1u2 >=? 0) && (cmp_l1u2 <=? 0) then
      make_range tc (mkBound (val upper2) (infinite upper2) (negb (inclusive upper2)) true) upper1 false
    else elog "unexpected case in range_minus".

Definition range_union_internal (tc : TypeCacheEntry) (r1 r2 : RangeType) (strict : bool)
  : result RangeType :=
  if types_differ r1 r2 then elog "range types do not match"
  else
    let '(lower1, upper1, empty1) := range_deserialize tc r1 in
    let '(lower2, upper2, empty2) := range_deserialize tc r2 in
    if empty1 then Ok r2
    else if empty2 then Ok r1
    else
      contiguous ←
        (if strict then
           o ← range_overlaps_internal tc r1 r2;
           if (o : bool) then Ok true else range_adjacent_internal tc r1 r2
         else Ok true);
      if negb contiguous then
        ereport ERRCODE_DATA_EXCEPTION "result of range union would not be contiguous"
      else
        let result_lower := if range_cmp_bounds tc lower1 lower2 <? 0 then lower1 else lower2 in
        let result_upper := if range_cmp_bounds tc upper1 upper2 >? 0 then upper1 else upper2 in
        make_range tc result_lower result_upper false.

Definition range_intersect_internal (tc : TypeCacheEntry) (r1 r2 : RangeType) : result RangeType :=
  let '(lower1, upper1, empty1) := range_deserialize tc r1 in
  let '(lower2, upper2, empty2) := range_deserialize tc r2 in
  if empty1 || empty2 then make_empty_range tc
  else
    o ← range_overlaps_internal tc r1 r2;
    if negb o then make_empty_range tc
    else
      let result_lower := if range_cmp_bounds tc lower1 lower2 >=? 0 then lower1 else lower2 in
      let result_upper := if range_cmp_bounds tc upper1 upper2 <=? 0 then upper1 else upper2 in
      make_range tc result_lower result_upper false.

End Ops.

(** ** Btree support *)

Definition range_cmp_internal (tc : TypeCacheEntry) (r1 r2 : RangeType) : Z :=
  let '(lower1, upper1, empty1) := range_deserialize tc r1 in
  let '(lower2, upper2, empty2) := range_deserialize tc r2 in
  if empty1 && empty2 then 0
  else if empty1 then -1
  else if empty2 then 1
  else
    let cmp := range_cmp_bounds tc lower1 lower2 in
    if cmp =? 0 then range_cmp_bounds tc upper1 upper2 else cmp.

(** ** Well-formed range values and their members *)

(** The invariant of a range value: it carries its type's OID and, unless it
    is empty, legal bounds in order. *)
Definition range_wf `{Toast} (tc : TypeCacheEntry) (r : RangeType) : Prop :=
  rangetypid r = type_id tc /\
  let '(lo, up, empty) := range_deserialize tc r in
  empty = false -> bound_ok tc lo /\ bound_ok tc up /\ range_cmp_bounds tc lo up <= 0.

(** [v] is a member of [r]. *)
Definition mem (tc : TypeCacheEntry) (r : RangeType) (v : Datum) : Prop :=
  range_contains_elem_internal tc r v = true.

(** What a canonical function promises to [make_range]: it keeps the
    invariant and the members. *)
Class RangeCanonical `{Toast} (tc : TypeCacheEntry) : Prop := {
  canonical_ok : forall canonical r r',
    rng_canonical tc = Some canonical -> range_wf tc r -> RangeIsEmpty r = false ->
    canonical r = Ok r' -> range_wf tc r' /\ forall v, mem tc r' v <-> mem tc r v
}.

(** A canonical range between finite bounds has a member. *)
Class TightBounds `{Toast} (tc : TypeCacheEntry) : Prop := {
  tight_make : forall canonical lo up r,
    rng_canonical tc = Some canonical ->
    bound_ok tc lo -> bound_ok tc up -> lower lo = true -> lower up = false ->
    infinite lo = false -> infinite up = false ->
    make_range tc lo up false = Ok r -> RangeIsEmpty r = false -> exists v, mem tc r v
}.

Lemma deserialize_sides tc r lo up e :
  range_deserialize tc r = (lo, up, e) ->
  lower lo = true /\ lower up = false /\ e = RangeIsEmpty r.
Proof.
  unfold range_deserialize. destruct (if RANGE_HAS_LBOUND _ then _ else _) as [lb p].
  intros [= <- <- <-]. done.
Qed.

Lemma mem_between tc r v lo up e :
  range_deserialize tc r = (lo, up, e) -> mem tc r v <-> e = false /\ between tc lo up v.
Proof.
  intros Hd. destruct (deserialize_sides _ _ _ _ _ Hd) as (Hlo & Hup & _).
  unfold mem, range_contains_elem_internal, between, range_cmp_bounds. rewrite Hd.
  destruct lo as [vl il cl ll], up as [vu iu cu lu]; cbn in *; subst ll lu.
  destruct e; [naive_solver|].
  destruct il, iu, cl, cu; cbn [negb andb];
    repeat match goal with
    | |- context [rng_cmp_proc tc ?a ?b >? 0] => destruct (Z.gtb_spec (rng_cmp_proc tc a b) 0)
    | |- context [rng_cmp_proc tc ?a ?b <? 0] => destruct (Z.ltb_spec (rng_cmp_proc tc a b) 0)
    | |- context [rng_cmp_proc tc ?a ?b =? 0] => destruct (Z.eqb_spec (rng_cmp_proc tc a b) 0)
    end; cbn; split; intros; split_and?; try done; try lia.
Qed.

(** A lower and an upper bound are in order exactly when [range_serialize]
    accepts them as a non-empty range. *)
Lemma cmp_values_bounds tc lo up :
  lower lo = true -> lower up = false ->
  range_cmp_bounds tc lo up <= 0 <->
  (range_cmp_bound_values tc lo up < 0 \/
   (range_cmp_bound_values tc lo up = 0 /\ inclusive lo = true /\ inclusive up = true)).
Proof.
  intros Hlo Hup. unfold range_cmp_bounds, range_cmp_bound_values.
  destruct lo as [vl [] [] ll], up as [vu [] [] lu]; cbn in *; subst ll lu; cbn; try lia;
    destruct (Z.eqb_spec (rng_cmp_proc tc vl vu) 0); lia.
Qed.

Section Make.
Context `{Toast} (tc : TypeCacheEntry) `{!RangeSubtype tc}.

Lemma norm_bound_cmp b x :
  bound_ok tc b ->
  Z.sgn (range_cmp_bounds tc (norm_bound tc b) x) = Z.sgn (range_cmp_bounds tc b x).
Proof.
  intros Hb. rewrite !range_cmp_bounds_sgn. unfold norm_bound, point_of.
  cbn [infinite inclusive lower val]. destruct (infinite b) eqn:E; [done|].
  rewrite andb_true_r. pose proof (rs_stored (val b)) as Hs.
  destruct (if infinite x then _ else _) as [| |w t]; cbn; try done.
  specialize (Hs w (Hb E)).
  destruct (Z.eqb_spec (rng_cmp_proc tc (val b) w) 0) as [E0|E0],
    (Z.eqb_spec (rng_cmp_proc tc (stored_datum (rngelemtype tc)
      (detoast_bound (rngelemtype tc) (val b))) w) 0) as [E1|E1]; try lia.
  all: by destruct (inclusive b).
Qed.

Lemma norm_bound_cmp_r b x :
  bound_ok tc b ->
  Z.sgn (range_cmp_bounds tc x (norm_bound tc b)) = Z.sgn (range_cmp_bounds tc x b).
Proof.
  intros Hb. pose proof (norm_bound_cmp b x Hb).
  pose proof (bounds_antisym tc x b). pose proof (bounds_antisym tc x (norm_bound tc b)). lia.
Qed.

Lemma norm_bound_ok b : bound_ok tc b -> bound_ok tc (norm_bound tc b).
Proof.
  intros Hb Hi. unfold norm_bound in *. cbn [infinite val] in *. rewrite Hi.
  pose proof (stored_datum_ok _ _ rs_elem (Hb Hi)) as Hs. pose proof rs_elem as He.
  unfold detoast_bound at 1. destruct (typlen (rngelemtype tc) =? -1) eqn:E; [|done].
  apply Z.eqb_eq in E. rewrite (detoast_datum_ok (rngelemtype tc)); [done|done| |done].
  unfold elem_ok in He. destruct (typbyval (rngelemtype tc)); [|done]. cbn in He. lia.
Qed.

Lemma range_serialize_spec lo up empty r :
  bound_ok tc lo -> bound_ok tc up -> lower lo = true -> lower up = false ->
  range_serialize tc lo up empty = Ok r ->
  range_wf tc r /\ forall v, mem tc r v <-> empty = false /\ between tc lo up v.
Proof.
  intros Hl Hu El Eu Hs.
  destruct (serialize_deserialize tc rs_elem lo up empty r Hl Hu El Eu Hs) as (Hid & Hfl & Hd).
  assert (Hcmp : empty = false -> range_cmp_bound_values tc lo up <= 0).
  { intros ->. rewrite range_serialize_layout, serialize_flags_spec in Hs by (done || apply rs_elem).
    destruct (negb false && _) eqn:E in Hs; [done|]. cbn [negb andb] in E. zbool. lia. }
  pose proof (cmp_values_bounds tc lo up El Eu) as Hiff. unfold makes_empty in Hd.
  pose proof (norm_bound_cmp lo) as Nl. pose proof (norm_bound_cmp up) as Nu.
  destruct (empty || _) eqn:Ee.
  - split; [split; [done|by rewrite Hd]|]. intros v. rewrite (mem_between _ _ _ _ _ _ Hd).
    split; [by intros []|]. intros [-> [H1 H2]]. exfalso. zbool. cbn [orb] in Ee.
    apply andb_true_iff in Ee as [Ev Ei]. zbool. apply andb_false_iff in Ei.
    assert (0 < range_cmp_bounds tc lo up).
    { apply Z.nle_gt. intros Hle. apply Hiff in Hle as [?|(_ & Hi1 & Hi2)]; [lia|].
      rewrite Hi1, Hi2 in Ei. by destruct Ei. }
    clear Hiff. rank_lia tc [lo; up; pt v].
  - apply orb_false_iff in Ee as [-> Ee]. specialize (Hcmp eq_refl).
    apply andb_false_iff in Ee. rewrite negb_false_iff, andb_true_iff, Z.eqb_neq in Ee.
    assert (Ho : range_cmp_bounds tc lo up <= 0) 
      by (apply Hiff; destruct Ee as [?|[]]; [left; lia|]; by apply Z.le_lteq in Hcmp as []; auto).
    split.
    + split; [done|]. rewrite Hd. intros _. split_and!; auto using norm_bound_ok.
      pose proof (Nl (norm_bound tc up) Hl). pose proof (norm_bound_cmp_r up lo Hu). lia.
    + intros v. rewrite (mem_between _ _ _ _ _ _ Hd). unfold between.
      pose proof (Nl (pt v) Hl). pose proof (Nu (pt v) Hu).
      split; intros [_ []]; split; try done; lia.
Qed.

Context `{!RangeCanonical tc}.

Lemma make_range_spec lo up empty r :
  bound_ok tc lo -> bound_ok tc up -> lower lo = true -> lower up = false ->
  make_range tc lo up empty = Ok r ->
  range_wf tc r /\ forall v, mem tc r v <-> empty = false /\ between tc lo up v.
Proof.
  intros Hl Hu El Eu. unfold make_range. rewrite bind_Ok. intros (r0 & Hs & Hr).
  destruct (range_serialize_spec _ _ _ _ Hl Hu El Eu Hs) as [Hwf Hm].
  destruct (rng_canonical tc) as [canonical|] eqn:Ec; [|by injection Hr as <-].
  destruct (RangeIsEmpty r0) eqn:Ee; cbn [negb] in Hr; [by injection Hr as <-|].
  destruct (canonical_ok _ _ _ Ec Hwf Ee Hr) as [Hwf' Hm'].
  split; [done|]. intros v. by rewrite Hm'.
Qed.

End Make.

(** ** The set of points of a range: the specification of the boolean operators *)

(** A point of the extended line lies in [r]. *)
Definition pts (tc : TypeCacheEntry) (r : RangeType) (p : ExtPoint) : Prop :=
  let '(lo, up, empty) := range_deserialize tc r in
  empty = false /\
  ext_cmp (rng_cmp_proc tc) (point_of lo) p <= 0 /\ ext_cmp (rng_cmp_proc tc) p (point_of up) <= 0.

Definition bound_of (p : ExtPoint) : RangeBound :=
  match p with
  | MinusInf => mkBound (DWord 0) true false true
  | PlusInf => mkBound (DWord 0) true false false
  | Fin v Before => mkBound v false false false
  | Fin v At => mkBound v false true true
  | Fin v After => mkBound v false false true
  end.

Lemma point_of_bound_of p : point_of (bound_of p) = p.
Proof. by destruct p as [| |v []]. Qed.

Section Spec.
Context `{Toast} (tc : TypeCacheEntry) `{!RangeSubtype tc}.

Lemma types_match r1 r2 : range_wf tc r1 -> range_wf tc r2 -> types_differ r1 r2 = false.
Proof.
  intros [H1 _] [H2 _]. unfold types_differ, RangeTypeGetOid. rewrite H1, H2. by rewrite Z.eqb_refl.
Qed.

Lemma pts_cmp r p lo up e :
  range_deserialize tc r = (lo, up, e) ->
  pts tc r p <-> e = false /\ range_cmp_bounds tc lo (bound_of p) <= 0 /\
                 range_cmp_bounds tc (bound_of p) up <= 0.
Proof.
  intros Hd. unfold pts. rewrite Hd.
  pose proof (range_cmp_bounds_sgn tc lo (bound_of p)) as H1.
  pose proof (range_cmp_bounds_sgn tc (bound_of p) up) as H2.
  rewrite point_of_bound_of in H1, H2. split; intros (? & ? & ?); split_and!; try done; lia.
Qed.

Lemma pts_bound r b lo up e :
  range_deserialize tc r = (lo, up, e) ->
  pts tc r (point_of b) <-> e = false /\ range_cmp_bounds tc lo b <= 0 /\ range_cmp_bounds tc b up <= 0.
Proof.
  intros Hd. unfold pts. rewrite Hd.
  pose proof (range_cmp_bounds_sgn tc lo b) as H1. pose proof (range_cmp_bounds_sgn tc b up) as H2.
  split; intros (? & ? & ?); split_and!; try done; lia.
Qed.

Lemma mem_pts r v : mem tc r v <-> pts tc r (Fin v At).
Proof.
  destruct (range_deserialize tc r) as [[lo up] e] eqn:Hd.
  rewrite (mem_between _ _ _ _ _ _ Hd). change (Fin v At) with (point_of (pt v)).
  rewrite (pts_bound _ _ _ _ _ Hd). unfold between.
  pose proof (bounds_antisym tc (pt v) up). split; intros (? & ? & ?); split_and!; try done; lia.
Qed.

(** Unfold an operator on two well-formed ranges. *)
Lemma wf_view r :
  range_wf tc r ->
  exists lo up e, range_deserialize tc r = (lo, up, e) /\ lower lo = true /\ lower up = false /\
    (e = false -> bound_ok tc lo /\ bound_ok tc up /\ range_cmp_bounds tc lo up <= 0).
Proof.
  intros [Hid Hwf]. destruct (range_deserialize tc r) as [[lo up] e] eqn:Hd.
  destruct (deserialize_sides _ _ _ _ _ Hd) as (? & ? & _). by exists lo, up, e.
Qed.

End Spec.

(** Introduce the bounds of two well-formed ranges. *)
Ltac view2 r1 r2 H1 H2 :=
  let Ht := fresh "Ht" in
  pose proof (types_match _ r1 r2 H1 H2) as Ht;
  destruct (wf_view _ r1 H1) as (lower1 & upper1 & empty1 & Hd1 & Hl1 & Hu1 & Hw1);
  destruct (wf_view _ r2 H2) as (lower2 & upper2 & empty2 & Hd2 & Hl2 & Hu2 & Hw2).

Section BoolSpec.
Context `{Toast} (tc : TypeCacheEntry) `{!RangeSubtype tc}.
Variables (r1 r2 : RangeType).
Hypothesis Hr1 : range_wf tc r1.
Hypothesis Hr2 : range_wf tc r2.

(** The order of points, through the bounds that stand for them. *)
Lemma ext_cmp_bounds p q :
  Z.sgn (ext_cmp (rng_cmp_proc tc) p q) = Z.sgn (range_cmp_bounds tc (bound_of p) (bound_of q)).
Proof. by rewrite range_cmp_bounds_sgn, !point_of_bound_of. Qed.

(** A non-empty well-formed range holds the points of its bounds. *)
Lemma pts_endpoints r lo up :
  range_deserialize tc r = (lo, up, false) -> range_cmp_bounds tc lo up <= 0 ->
  pts tc r (point_of lo) /\ pts tc r (point_of up).
Proof.
  intros Hd Ho. rewrite !(pts_bound tc r _ _ _ _ Hd).
  split_and!; try done; rank_lia tc [lo; up].
Qed.

Lemma pts_empty r lo up p : range_deserialize tc r = (lo, up, true) -> ~ pts tc r p.
Proof. intros Hd. rewrite (pts_cmp tc r _ _ _ _ Hd). by intros []. Qed.

End BoolSpec.

(** Start the proof of a specification of an operator on two ranges. *)
Ltac start_op op r1 r2 H1 H2 :=
  view2 r1 r2 H1 H2; unfold op;
  match goal with Ht : types_differ r1 r2 = false |- _ => rewrite Ht end;
  match goal with
  | Hd1 : range_deserialize _ r1 = _, Hd2 : range_deserialize _ r2 = _ |- _ => rewrite ?Hd1, ?Hd2
  end.

(** Case analysis on the comparisons that decide the result of an operator. *)
Ltac cmp_cases :=
  repeat match goal with
  | |- context [if ?b then Ok _ else _] => destruct b eqn:?
  end; zbool; eexists; (split; [reflexivity|]).

(** Read a membership hypothesis, or a goal, as comparisons of bounds. *)
Ltac pts_tac tc := 
  repeat match goal with
  | Hd : range_deserialize tc ?r = _, H : context [pts tc ?r (point_of _)] |- _ =>
      rewrite (pts_bound tc r _ _ _ _ Hd) in H
  | Hd : range_deserialize tc ?r = _ |- context [pts tc ?r (point_of _)] =>
      rewrite (pts_bound tc r _ _ _ _ Hd)
  | Hd : range_deserialize tc ?r = _, H : context [pts tc ?r _] |- _ =>
      rewrite (pts_cmp tc r _ _ _ _ Hd) in H
  | Hd : range_deserialize tc ?r = _ |- context [pts tc ?r _] =>
      rewrite (pts_cmp tc r _ _ _ _ Hd)
  end.

(** An operator that is false when one of its arguments is empty. *)
Ltac empty_false tc :=
  exists false; split; [reflexivity|]; split; [done|]; intros; exfalso;
  repeat match goal with
  | H : _ /\ _ |- _ => destruct H
  | H : exists _, _ |- _ => destruct H
  end;
  match goal with
  | Hd : range_deserialize tc ?r = (_, _, true), H : pts tc ?r _ |- _ =>
      exact (pts_empty tc _ _ _ _ Hd H)
  end.

Ltac nonempty_cases tc :=
  match goal with
  | Hd1 : range_deserialize tc _ = (_, _, ?e1), Hd2 : range_deserialize tc _ = (_, _, ?e2),
    Hw1 : ?e1 = false -> _, Hw2 : ?e2 = false -> _ |- _ =>
      destruct e1; [empty_false tc|]; destruct e2; [empty_false tc|]; cbn [orb];
      let Ho1 := fresh "Ho1" in let Ho2 := fresh "Ho2" in
      destruct (Hw1 eq_refl) as (_ & _ & Ho1); destruct (Hw2 eq_refl) as (_ & _ & Ho2);
      destruct (pts_endpoints tc _ _ _ Hd1 Ho1) as [Hlo1 Hup1];
      destruct (pts_endpoints tc _ _ _ Hd2 Ho2) as [Hlo2 Hup2]
  end.

Section BoolSpec2.
Context `{Toast} (tc : TypeCacheEntry) `{!RangeSubtype tc}.
Variables (r1 r2 : RangeType).
Hypothesis Hr1 : range_wf tc r1.
Hypothesis Hr2 : range_wf tc r2.

Lemma contains_pts :
  exists b, range_contains_internal tc r1 r2 = Ok b /\
    (b = true <-> forall p, pts tc r2 p -> pts tc r1 p).
Proof.
  start_op range_contains_internal r1 r2 Hr1 Hr2.
  destruct empty2.
  { exists true. split; [done|]. split; [|done]. intros _ p Hp. by destruct (pts_empty tc _ _ _ _ Hd2 Hp). }
  destruct Hw2 as (_ & _ & Ho2); [done|]. destruct (pts_endpoints tc _ _ _ Hd2 Ho2) as [Hlo Hup].
  destruct empty1.
  { exists false. split; [done|]. split; [done|]. intros Hall.
    by destruct (pts_empty tc _ _ _ _ Hd1 (Hall _ Hlo)). }
  cmp_cases; (split; [try done|intros Hall; try done]).
  - apply Hall in Hlo. pts_tac tc. lia.
  - apply Hall in Hup. pts_tac tc. exfalso. destruct Hup as (_ & _ & Hup).
    rank_lia tc [upper1; upper2].
  - intros _ p Hp. pts_tac tc. destruct Hp as (_ & Hp1 & Hp2).
    split_and!; [done|..]; rank_lia tc [lower1; upper1; lower2; upper2; bound_of p].
Qed.

Lemma overlaps_pts :
  exists b, range_overlaps_internal tc r1 r2 = Ok b /\
    (b = true <-> exists p, pts tc r1 p /\ pts tc r2 p).
Proof.
  start_op range_overlaps_internal r1 r2 Hr1 Hr2.
  nonempty_cases tc.
  cmp_cases; (split; [try done; intros _|intros Hex; try done]).
  - exists (point_of lower1). pts_tac tc. split_and!; try done; rank_lia tc [lower1; upper1; lower2; upper2].
  - exists (point_of lower2). pts_tac tc. split_and!; try done; rank_lia tc [lower1; upper1; lower2; upper2].
  - destruct Hex as (p & Hp1 & Hp2). pts_tac tc. exfalso.
    destruct Hp1 as (_ & ? & ?), Hp2 as (_ & ? & ?).
    apply andb_false_iff in Heqb, Heqb0.
    destruct Heqb, Heqb0; zbool; rank_lia tc [lower1; upper1; lower2; upper2; bound_of p].
Qed.

(** For operators that are false when a range is empty and otherwise compare
    one bound of each. *)
Lemma before_pts :
  exists b, range_before_internal tc r1 r2 = Ok b /\
    (b = true <-> (exists p, pts tc r1 p) /\ (exists p, pts tc r2 p) /\
       forall p q, pts tc r1 p -> pts tc r2 q -> ext_cmp (rng_cmp_proc tc) p q < 0).
Proof.
  start_op range_before_internal r1 r2 Hr1 Hr2.
  nonempty_cases tc.
  eexists. split; [reflexivity|]. rewrite Z.ltb_lt. split.
  - intros Hlt. split_and!; [by eexists..|]. intros p q Hp Hq. pose proof (ext_cmp_bounds tc p q).
    pts_tac tc. destruct Hp as (_ & ? & ?), Hq as (_ & ? & ?).
    assert (range_cmp_bounds tc (bound_of p) (bound_of q) < 0)
      by rank_lia tc [upper1; lower2; bound_of p; bound_of q; lower1; upper2]. lia.
  - intros (_ & _ & Hall). specialize (Hall _ _ Hup1 Hlo2).
    pose proof (range_cmp_bounds_sgn tc upper1 lower2). lia.
Qed.

Lemma eq_pts :
  exists b, range_eq_internal tc r1 r2 = Ok b /\
    (b = true <-> forall p, pts tc r1 p <-> pts tc r2 p).
Proof.
  start_op range_eq_internal r1 r2 Hr1 Hr2.
  destruct empty1, empty2; cbn [andb Bool.eqb negb].
  - exists true. split; [done|]. split; [|done]. intros _ p.
    split; intros Hp; [by destruct (pts_empty tc _ _ _ _ Hd1 Hp)|by destruct (pts_empty tc _ _ _ _ Hd2 Hp)].
  - destruct Hw2 as (_ & _ & Ho2); [done|]. destruct (pts_endpoints tc _ _ _ Hd2 Ho2) as [Hlo2 Hup2].
    exists false. split; [done|]. split; [done|]. intros Hall.
    apply Hall in Hlo2. by destruct (pts_empty tc _ _ _ _ Hd1 Hlo2).
  - destruct Hw1 as (_ & _ & Ho1); [done|]. destruct (pts_endpoints tc _ _ _ Hd1 Ho1) as [Hlo1 Hup1].
    exists false. split; [done|]. split; [done|]. intros Hall.
    apply Hall in Hlo1. by destruct (pts_empty tc _ _ _ _ Hd2 Hlo1).
  - destruct Hw1 as (_ & _ & Ho1); [done|]. destruct Hw2 as (_ & _ & Ho2); [done|].
    destruct (pts_endpoints tc _ _ _ Hd1 Ho1) as [Hlo1 Hup1].
    destruct (pts_endpoints tc _ _ _ Hd2 Ho2) as [Hlo2 Hup2].
    cmp_cases; (split; [try done; intros _|intros Hall; try done]).
    1,2: apply Hall in Hlo1, Hup1; apply Hall in Hlo2, Hup2; pts_tac tc;
      destruct Hlo1 as (_&?&?), Hup1 as (_&?&?), Hlo2 as (_&?&?), Hup2 as (_&?&?); exfalso;
      rank_lia tc [lower1; upper1; lower2; upper2].
    intros p. pts_tac tc. split; intros (_ & ? & ?); split_and!; try done;
      rank_lia tc [lower1; upper1; lower2; upper2; bound_of p].
Qed.

(** The two one-sided operators: no point of [r1] is above (below) every
    point of [r2]. *)
Lemma overleft_pts :
  exists b, range_overleft_internal tc r1 r2 = Ok b /\
    (b = true <-> (exists p, pts tc r1 p) /\
       (exists q, pts tc r2 q /\ forall p, pts tc r1 p -> ext_cmp (rng_cmp_proc tc) p q <= 0)).
Proof.
  start_op range_overleft_internal r1 r2 Hr1 Hr2.
  nonempty_cases tc.
  cmp_cases; (split; [try done; intros _|intros Hall; try done]).
  - split; [by eexists|]. exists (point_of upper2). split; [done|]. intros p Hp.
    pose proof (range_cmp_bounds_sgn tc (bound_of p) upper2) as Hs. rewrite point_of_bound_of in Hs.
    pts_tac tc. assert (range_cmp_bounds tc (bound_of p) upper2 <= 0)
      by rank_lia tc [upper1; upper2; bound_of p; lower1; lower2]. lia.
  - destruct Hall as (_ & q & Hq & Hall). specialize (Hall _ Hup1).
    pose proof (range_cmp_bounds_sgn tc upper1 (bound_of q)) as Hs. rewrite point_of_bound_of in Hs.
    pts_tac tc. assert (range_cmp_bounds tc upper1 (bound_of q) <= 0) by lia.
    exfalso. rank_lia tc [upper1; upper2; bound_of q; lower1; lower2].
Qed.

Lemma overright_pts :
  exists b, range_overright_internal tc r1 r2 = Ok b /\
    (b = true <-> (exists p, pts tc r1 p) /\
       (exists q, pts tc r2 q /\ forall p, pts tc r1 p -> ext_cmp (rng_cmp_proc tc) q p <= 0)).
Proof.
  start_op range_overright_internal r1 r2 Hr1 Hr2.
  nonempty_cases tc.
  cmp_cases; (split; [try done; intros _|intros Hall; try done]).
  - split; [by eexists|]. exists (point_of lower2). split; [done|]. intros p Hp.
    pose proof (range_cmp_bounds_sgn tc lower2 (bound_of p)) as Hs. rewrite point_of_bound_of in Hs.
    pts_tac tc. assert (range_cmp_bounds tc lower2 (bound_of p) <= 0)
      by rank_lia tc [upper1; upper2; bound_of p; lower1; lower2]. lia.
  - destruct Hall as (_ & q & Hq & Hall). specialize (Hall _ Hlo1).
    pose proof (range_cmp_bounds_sgn tc (bound_of q) lower1) as Hs. rewrite point_of_bound_of in Hs.
    pts_tac tc. assert (range_cmp_bounds tc (bound_of q) lower1 <= 0) by lia.
    exfalso. rank_lia tc [upper1; upper2; bound_of q; lower1; lower2].
Qed.

(** [>>] is [<<] with the arguments exchanged. *)
Lemma after_before : range_after_internal tc r1 r2 = range_before_internal tc r2 r1.
Proof.
  start_op range_after_internal r1 r2 Hr1 Hr2. unfold range_before_internal.
  rewrite (types_match tc r2 r1), Hd1, Hd2, orb_comm by done.
  destruct (empty2 || empty1); [done|]. f_equal. pose proof (bounds_antisym tc lower1 upper2).
  destruct (Z.gtb_spec (range_cmp_bounds tc lower1 upper2) 0),
    (Z.ltb_spec (range_cmp_bounds tc upper2 lower1) 0); lia.
Qed.

End BoolSpec2.

(** ** The btree order *)

Section CmpSpec.
Context `{Toast} (tc : TypeCacheEntry) `{!RangeSubtype tc}.

Lemma cmp_eq_agree r1 r2 :
  range_wf tc r1 -> range_wf tc r2 ->
  range_eq_internal tc r1 r2 = Ok (range_cmp_internal tc r1 r2 =? 0).
Proof.
  intros Hr1 Hr2. start_op range_eq_internal r1 r2 Hr1 Hr2. unfold range_cmp_internal.
  rewrite Hd1, Hd2. destruct empty1, empty2; cbn [andb Bool.eqb negb]; try done.
  destruct (range_cmp_bounds tc lower1 lower2 =? 0) eqn:E1; cbn [negb].
  - by destruct (range_cmp_bounds tc upper1 upper2 =? 0).
  - by rewrite E1.
Qed.

Lemma range_cmp_antisym r1 r2 :
  Z.sgn (range_cmp_internal tc r2 r1) = - Z.sgn (range_cmp_internal tc r1 r2).
Proof.
  unfold range_cmp_internal.
  destruct (range_deserialize tc r1) as [[l1 u1] e1], (range_deserialize tc r2) as [[l2 u2] e2].
  destruct e1, e2; cbn [andb]; try done.
  pose proof (bounds_antisym tc l1 l2). pose proof (bounds_antisym tc u1 u2).
  destruct (Z.eqb_spec (range_cmp_bounds tc l1 l2) 0), (Z.eqb_spec (range_cmp_bounds tc l2 l1) 0); lia.
Qed.

Lemma range_cmp_trans r1 r2 r3 :
  range_cmp_internal tc r1 r2 <= 0 -> range_cmp_internal tc r2 r3 <= 0 ->
  range_cmp_internal tc r1 r3 <= 0.
Proof.
  unfold range_cmp_internal.
  destruct (range_deserialize tc r1) as [[l1 u1] e1], (range_deserialize tc r2) as [[l2 u2] e2],
    (range_deserialize tc r3) as [[l3 u3] e3].
  destruct e1, e2, e3; cbn [andb]; try lia.
  destruct (Z.eqb_spec (range_cmp_bounds tc l1 l2) 0), (Z.eqb_spec (range_cmp_bounds tc l2 l3) 0),
    (Z.eqb_spec (range_cmp_bounds tc l1 l3) 0); intros H1 H2;
    rank_lia tc [l1; l2; l3; u1; u2; u3].
Qed.

End CmpSpec.

(** ** Union, merge, intersection and difference *)

(** The bound on the other side of the same cut. *)
Definition flip_bound (b : RangeBound) : RangeBound :=
  mkBound (val b) (infinite b) (negb (inclusive b)) (negb (lower b)).

(** The errors [make_range] can raise on bounds in order: the object would be
    larger than [MaxAllocSize], or the canonical function fails. *)
Definition make_failure `{Toast} (tc : TypeCacheEntry) (e : PgError) : Prop :=
  e = mkError ERRCODE_INTERNAL_ERROR "invalid memory alloc request size" \/
  exists canonical r0, rng_canonical tc = Some canonical /\ range_wf tc r0 /\ canonical r0 = Err e.

(** An error that the type's [subtype_diff] function raises. *)
Definition subdiff_failure (tc : TypeCacheEntry) (e : PgError) : Prop :=
  exists subdiff val1 val2, rng_subdiff tc = Some subdiff /\ subdiff val1 val2 = Err e.

Section SetOps.
Context `{Toast} (tc : TypeCacheEntry) `{!RangeSubtype tc} `{!RangeCanonical tc}.

Lemma flip_upper b v :
  infinite b = false -> lower b = false ->
  range_cmp_bounds tc (flip_bound b) (pt v) <= 0 <-> ~ 0 <= range_cmp_bounds tc b (pt v).
Proof.
  intros Hi Hl. unfold range_cmp_bounds, flip_bound. cbn. rewrite Hi, Hl. cbn.
  destruct (Z.eqb_spec (rng_cmp_proc tc (val b) v) 0), (inclusive b); cbn; lia.
Qed.

Lemma flip_lower b v :
  infinite b = false -> lower b = true ->
  0 <= range_cmp_bounds tc (flip_bound b) (pt v) <-> ~ range_cmp_bounds tc b (pt v) <= 0.
Proof.
  intros Hi Hl. unfold range_cmp_bounds, flip_bound. cbn. rewrite Hi, Hl. cbn.
  destruct (Z.eqb_spec (rng_cmp_proc tc (val b) v) 0), (inclusive b); cbn; lia.
Qed.

Lemma flip_ok b : bound_ok tc b -> bound_ok tc (flip_bound b).
Proof. done. Qed.

(** Adjacent bounds leave no value out and share none. *)
Lemma bounds_adjacent_spec A B :
  bound_ok tc A -> bound_ok tc B -> lower A = false -> lower B = true ->
  bounds_adjacent tc A B = Ok true ->
  range_cmp_bounds tc A B < 0 /\
  forall v, 0 <= range_cmp_bounds tc A (pt v) \/ range_cmp_bounds tc B (pt v) <= 0.
Proof.
  intros HA HB LA LB Hadj.
  destruct (infinite A) eqn:IA;
    [unfold bounds_adjacent, range_cmp_bound_values in Hadj; rewrite IA, LA, LB in Hadj; by destruct (infinite B)|].
  destruct (infinite B) eqn:IB;
    [unfold bounds_adjacent, range_cmp_bound_values in Hadj; by rewrite IA, IB, LB in Hadj|].
  unfold bounds_adjacent in Hadj.
  assert (EV : range_cmp_bound_values tc A B = rng_cmp_proc tc (val A) (val B)).
  { unfold range_cmp_bound_values. by rewrite IA, IB. }
  rewrite EV in Hadj. destruct (rng_cmp_proc tc (val A) (val B) <? 0) eqn:Elt; zbool.
  - split.
    { unfold range_cmp_bounds. rewrite IA, IB. cbn [andb].
      destruct (Z.eqb_spec (rng_cmp_proc tc (val A) (val B)) 0); lia. }
    intros v. destruct (rng_canonical tc) as [c|] eqn:Ec; [|done].
    apply bind_Ok in Hadj as (r & Hmk & Hr). apply Ok_inj in Hr.
    assert (FA : flip_bound A = mkBound (val A) (infinite A) (negb (inclusive A)) true)
      by (unfold flip_bound; by rewrite LA).
    assert (FB : flip_bound B = mkBound (val B) (infinite B) (negb (inclusive B)) false)
      by (unfold flip_bound; by rewrite LB).
    rewrite <- FA, <- FB in Hmk.
    destruct (make_range_spec tc (flip_bound A) (flip_bound B) false r) as [Hwf Hmem];
      [done|done|cbn; by rewrite LA|cbn; by rewrite LB|done|]. specialize (Hmem v).
    assert (Hno : ~ mem tc r v).
    { destruct (range_deserialize tc r) as [[lo up] e] eqn:Hd.
      rewrite (mem_between _ _ _ _ _ _ Hd). destruct (deserialize_sides _ _ _ _ _ Hd) as (_ & _ & ->).
      rewrite Hr. by intros []. }
    pose proof (flip_upper A v IA LA). pose proof (flip_lower B v IB LB).
    unfold between in Hmem.
    destruct (Z.le_gt_cases 0 (range_cmp_bounds tc A (pt v))); [by left|right].
    destruct (Z.le_gt_cases (range_cmp_bounds tc B (pt v)) 0); [done|].
    destruct Hno. apply Hmem. split; [done|]. lia.
  - destruct (rng_cmp_proc tc (val A) (val B) =? 0) eqn:Eeq; [|done]. zbool. injection Hadj as Hinc.
    assert (HAB : range_cmp_bounds tc (flip_bound A) B = 0 /\ range_cmp_bounds tc A B < 0).
    { unfold range_cmp_bounds, flip_bound. cbn. rewrite IA, IB, LA, LB, Eeq. cbn.
      destruct (inclusive A), (inclusive B); cbn in *; lia || done. }
    split; [tauto|]. intros v. pose proof (flip_upper A v IA LA). destruct HAB as [HAB _].
    destruct (Z.le_gt_cases 0 (range_cmp_bounds tc A (pt v))); [by left|right].
    assert (range_cmp_bounds tc (flip_bound A) (pt v) <= 0) by lia.
    rank_lia tc [flip_bound A; B; pt v].
Qed.

(** The object that stands for the empty range. *)
Definition empty_range : RangeType := mkRange (SET_VARSIZE 9) (type_id tc) [RANGE_EMPTY].

Lemma make_empty_range_eq : make_empty_range tc = Ok empty_range.
Proof. unfold make_empty_range, make_range. cbn. by destruct (rng_canonical tc). Qed.

Lemma empty_range_spec : range_wf tc empty_range /\ forall v, ~ mem tc empty_range v.
Proof. split; [done|]. intros v. by unfold mem. Qed.

Lemma make_range_error lo up e :
  bound_ok tc lo -> bound_ok tc up -> lower lo = true -> lower up = false ->
  range_cmp_bound_values tc lo up <= 0 -> make_range tc lo up false = Err e -> make_failure tc e.
Proof.
  intros Hl Hu El Eu Ho Hm. unfold make_range in Hm.
  destruct (range_serialize tc lo up false) as [r0|e0] eqn:Hs; cbn in Hm.
  - destruct (range_serialize_spec tc lo up false r0 Hl Hu El Eu Hs) as [Hwf _].
    destruct (rng_canonical tc) as [c|] eqn:Ec; [|done]. destruct (negb _); [|done].
    right. by exists c, r0.
  - injection Hm as ->.
    destruct (serialize_error tc rs_elem lo up false e Hl Hu Hs) as [(_ & Hgt & _)| -> ]; [lia|by left].
Qed.

Lemma bounds_values_le lo up :
  lower lo = true -> lower up = false -> range_cmp_bounds tc lo up <= 0 ->
  range_cmp_bound_values tc lo up <= 0.
Proof. intros El Eu Ho. apply cmp_values_bounds in Ho; [lia|done..]. Qed.

(** The value half of flipping: an upper bound at or above a lower bound stays
    at or above it in value when either side is flipped. *)
Lemma values_flip_upper lo b :
  lower lo = true -> lower b = true -> infinite b = false -> range_cmp_bounds tc lo b <= 0 ->
  range_cmp_bound_values tc lo (flip_bound b) <= 0.
Proof.
  unfold range_cmp_bounds, range_cmp_bound_values, flip_bound. cbn. intros -> -> ->.
  destruct (infinite lo); cbn; [lia|].
  destruct (Z.eqb_spec (rng_cmp_proc tc (val lo) (val b)) 0); lia.
Qed.

Lemma values_flip_lower b up :
  lower up = false -> lower b = false -> infinite b = false -> range_cmp_bounds tc b up <= 0 ->
  range_cmp_bound_values tc (flip_bound b) up <= 0.
Proof.
  unfold range_cmp_bounds, range_cmp_bound_values, flip_bound. cbn. intros -> -> ->. cbn.
  destruct (infinite up); cbn; [lia|].
  destruct (Z.eqb_spec (rng_cmp_proc tc (val b) (val up)) 0); lia.
Qed.

(** What a range-valued operator has to give: a well-formed range with the
    specified members, or an error of [make_range]. *)
Definition computes (res : result RangeType) (members : Datum -> Prop) : Prop :=
  match res with
  | Ok r => range_wf tc r /\ forall v, mem tc r v <-> members v
  | Err e => make_failure tc e
  end.

Lemma make_range_computes lo up members :
  bound_ok tc lo -> bound_ok tc up -> lower lo = true -> lower up = false ->
  range_cmp_bound_values tc lo up <= 0 ->
  (forall v, between tc lo up v <-> members v) ->
  computes (make_range tc lo up false) members.
Proof.
  intros Hl Hu El Eu Ho Hm. unfold computes. destruct (make_range tc lo up false) as [r|e] eqn:E.
  - destruct (make_range_spec tc lo up false r Hl Hu El Eu E) as [Hwf Hmem].
    split; [done|]. intros v. rewrite Hmem, <- Hm. by split; [intros []|].
  - exact (make_range_error lo up e Hl Hu El Eu Ho E).
Qed.

Lemma empty_computes members :
  (forall v, ~ members v) -> computes (make_empty_range tc) members.
Proof.
  intros Hm. rewrite make_empty_range_eq. destruct empty_range_spec as [Hwf Hno]. split; [done|].
  intros v. split; [by intros ?%Hno|by intros ?%Hm].
Qed.

Lemma self_computes r members :
  range_wf tc r -> (forall v, mem tc r v <-> members v) -> computes (Ok r) members.
Proof. done. Qed.

Lemma mem_empty r lo up v : range_deserialize tc r = (lo, up, true) -> ~ mem tc r v.
Proof. intros Hd. rewrite (mem_between _ _ _ _ _ _ Hd). by intros []. Qed.

Lemma mem_bounds r lo up v :
  range_deserialize tc r = (lo, up, false) ->
  mem tc r v <-> range_cmp_bounds tc lo (pt v) <= 0 /\ 0 <= range_cmp_bounds tc up (pt v).
Proof. intros Hd. rewrite (mem_between _ _ _ _ _ _ Hd). unfold between. tauto. Qed.

Lemma overlaps_Ok r1 r2 :
  range_wf tc r1 -> range_wf tc r2 -> exists b, range_overlaps_internal tc r1 r2 = Ok b.
Proof. intros H1 H2. destruct (overlaps_pts tc r1 r2 H1 H2) as (b & ? & _). by exists b. Qed.

Lemma overlaps_cmp r1 r2 l1 u1 l2 u2 b :
  range_wf tc r1 -> range_wf tc r2 ->
  range_deserialize tc r1 = (l1, u1, false) -> range_deserialize tc r2 = (l2, u2, false) ->
  range_overlaps_internal tc r1 r2 = Ok b ->
  (b = true <-> range_cmp_bounds tc l1 u2 <= 0 /\ range_cmp_bounds tc l2 u1 <= 0).
Proof.
  intros H1 H2 Hd1 Hd2. pose proof (types_match tc r1 r2 H1 H2) as Ht.
  destruct H1 as [_ H1], H2 as [_ H2]. rewrite Hd1 in H1. rewrite Hd2 in H2.
  destruct H1 as (_ & _ & Ho1); [done|]. destruct H2 as (_ & _ & Ho2); [done|].
  unfold range_overlaps_internal. rewrite Ht, Hd1, Hd2. cbn [orb].
  destruct (_ && _) eqn:E1; [zbool; intros [= <-]; split; [intros _|done];
    split; rank_lia tc [l1; u1; l2; u2]|].
  destruct (_ && _) eqn:E2 in |- *; [zbool; intros [= <-]; split; [intros _|done];
    split; rank_lia tc [l1; u1; l2; u2]|].
  intros [= <-]. split; [done|]. intros []. apply andb_false_iff in E1, E2. exfalso.
  destruct E1, E2; zbool; rank_lia tc [l1; u1; l2; u2].
Qed.

Lemma intersect_computes r1 r2 :
  range_wf tc r1 -> range_wf tc r2 ->
  computes (range_intersect_internal tc r1 r2) (fun v => mem tc r1 v /\ mem tc r2 v).
Proof.
  intros Hr1 Hr2. unfold range_intersect_internal. view2 r1 r2 Hr1 Hr2. rewrite Hd1, Hd2.
  destruct empty1; [apply empty_computes; intros v [Hm _]; by destruct (mem_empty _ _ _ _ Hd1 Hm)|].
  destruct empty2; [apply empty_computes; intros v [_ Hm]; by destruct (mem_empty _ _ _ _ Hd2 Hm)|].
  destruct Hw1 as (Hlok1 & Huok1 & Ho1), Hw2 as (Hlok2 & Huok2 & Ho2); [done..|]. cbn [orb].
  destruct (overlaps_Ok r1 r2 Hr1 Hr2) as [b Hb].
  pose proof (overlaps_cmp r1 r2 _ _ _ _ b Hr1 Hr2 Hd1 Hd2 Hb) as Hov.
  rewrite Hb. cbn [mbind result_bind]. destruct b; cbn [negb].
  - destruct Hov as [Hov _]. specialize (Hov eq_refl) as [Hx1 Hx2].
    destruct (range_cmp_bounds tc lower1 lower2 >=? 0) eqn:EL,
      (range_cmp_bounds tc upper1 upper2 <=? 0) eqn:EU; zbool;
      (apply make_range_computes; [done..| |]);
      try (apply bounds_values_le; [done..|]; rank_lia tc [lower1; upper1; lower2; upper2]);
      intros v; rewrite (mem_bounds _ _ _ _ Hd1), (mem_bounds _ _ _ _ Hd2); unfold between;
      split; intros; split_and?; rank_lia tc [lower1; upper1; lower2; upper2; pt v].
  - apply empty_computes. intros v [H1 H2]. apply (mem_bounds _ _ _ _ Hd1) in H1.
    apply (mem_bounds _ _ _ _ Hd2) in H2. enough (false = true) by done. apply Hov.
    split; rank_lia tc [lower1; upper1; lower2; upper2; pt v].
Qed.

(** [v] lies between two points of [r1] and [r2]. *)
Definition hull (r1 r2 : RangeType) (v : Datum) : Prop :=
  exists p q, (pts tc r1 p \/ pts tc r2 p) /\ (pts tc r1 q \/ pts tc r2 q) /\
    ext_cmp (rng_cmp_proc tc) p (Fin v At) <= 0 /\ ext_cmp (rng_cmp_proc tc) (Fin v At) q <= 0.

Lemma ext_cmp_at_l b v :
  Z.sgn (ext_cmp (rng_cmp_proc tc) (point_of b) (Fin v At)) = Z.sgn (range_cmp_bounds tc b (pt v)).
Proof. by rewrite range_cmp_bounds_sgn. Qed.

Lemma ext_cmp_at_r b v :
  Z.sgn (ext_cmp (rng_cmp_proc tc) (Fin v At) (point_of b)) = Z.sgn (range_cmp_bounds tc (pt v) b).
Proof. by rewrite range_cmp_bounds_sgn. Qed.

Lemma hull_bounds r1 r2 l1 u1 l2 u2 v :
  range_deserialize tc r1 = (l1, u1, false) -> range_deserialize tc r2 = (l2, u2, false) ->
  range_cmp_bounds tc l1 u1 <= 0 -> range_cmp_bounds tc l2 u2 <= 0 ->
  hull r1 r2 v <->
  (range_cmp_bounds tc l1 (pt v) <= 0 \/ range_cmp_bounds tc l2 (pt v) <= 0) /\
  (0 <= range_cmp_bounds tc u1 (pt v) \/ 0 <= range_cmp_bounds tc u2 (pt v)).
Proof.
  intros Hd1 Hd2 Ho1 Ho2.
  destruct (pts_endpoints tc _ _ _ Hd1 Ho1) as [Pl1 Pu1].
  destruct (pts_endpoints tc _ _ _ Hd2 Ho2) as [Pl2 Pu2]. split.
  - intros (p & q & Hp & Hq & Hpv & Hqv).
    pose proof (ext_cmp_at_l (bound_of p) v) as E1. pose proof (ext_cmp_at_r (bound_of q) v) as E2.
    rewrite point_of_bound_of in E1, E2. apply sgn_transfer in E1 as (E1 & _), E2 as (E2 & _).
    apply E1 in Hpv. apply E2 in Hqv. clear E1 E2 Pl1 Pu1 Pl2 Pu2.
    split.
    + destruct Hp as [Hp|Hp]; pts_tac tc; [left|right]; rank_lia tc [l1;u1;l2;u2;bound_of p;bound_of q;pt v].
    + destruct Hq as [Hq|Hq]; pts_tac tc; [left|right]; rank_lia tc [l1;u1;l2;u2;bound_of p;bound_of q;pt v].
  - intros [Hl Hu].
    assert (HP : exists b, (pts tc r1 (point_of b) \/ pts tc r2 (point_of b)) /\ range_cmp_bounds tc b (pt v) <= 0)
      by (destruct Hl; [exists l1|exists l2]; auto).
    assert (HQ : exists b, (pts tc r1 (point_of b) \/ pts tc r2 (point_of b)) /\ 0 <= range_cmp_bounds tc b (pt v))
      by (destruct Hu; [exists u1|exists u2]; auto).
    destruct HP as (p & Hp & Hpv), HQ as (q & Hq & Hqv).
    exists (point_of p), (point_of q). split_and!; [done..| |].
    + apply (sgn_transfer _ _ (ext_cmp_at_l p v)). done.
    + apply (sgn_transfer _ _ (ext_cmp_at_r q v)). pose proof (bounds_antisym tc q (pt v)). lia.
Qed.

Lemma hull_sym r1 r2 v : hull r1 r2 v <-> hull r2 r1 v.
Proof. unfold hull. split; intros (p & q & ?); exists p, q; tauto. Qed.

Lemma hull_empty_l r1 r2 lo up v :
  range_deserialize tc r1 = (lo, up, true) -> mem tc r2 v <-> hull r1 r2 v.
Proof.
  intros Hd1. rewrite (mem_pts tc). split.
  - intros Hp. exists (Fin v At), (Fin v At).
    assert (ext_cmp (rng_cmp_proc tc) (Fin v At) (Fin v At) = 0) by (cbn; by rewrite cmp_refl by apply _).
    split_and!; auto; lia.
  - intros (p & q & Hp & Hq & Hpv & Hqv).
    destruct Hp as [Hp|Hp]; [by destruct (pts_empty tc _ _ _ _ Hd1 Hp)|].
    destruct Hq as [Hq|Hq]; [by destruct (pts_empty tc _ _ _ _ Hd1 Hq)|].
    unfold pts in *. destruct (range_deserialize tc r2) as [[lo2 up2] e2].
    destruct Hp as (He & Hp & _), Hq as (_ & _ & Hq).
    split_and!; [done|by apply ext_cmp_trans with p; [apply _|..]|by apply ext_cmp_trans with q; [apply _|..]].
Qed.

Lemma merge_computes r1 r2 :
  range_wf tc r1 -> range_wf tc r2 ->
  computes (range_union_internal tc r1 r2 false) (hull r1 r2).
Proof.
  intros Hr1 Hr2. view2 r1 r2 Hr1 Hr2. unfold range_union_internal. rewrite Ht, Hd1, Hd2.
  destruct empty1; [apply self_computes; [done|]; intros v; by eapply hull_empty_l|].
  destruct empty2; [apply self_computes; [done|]; intros v; rewrite hull_sym; by eapply hull_empty_l|].
  destruct Hw1 as (Hlok1 & Huok1 & Ho1), Hw2 as (Hlok2 & Huok2 & Ho2); [done..|].
  cbn [mbind result_bind negb].
  destruct (range_cmp_bounds tc lower1 lower2 <? 0) eqn:EL,
    (range_cmp_bounds tc upper1 upper2 >? 0) eqn:EU; zbool;
    (apply make_range_computes; [done..| |]);
    try (apply bounds_values_le; [done..|]; rank_lia tc [lower1; upper1; lower2; upper2]);
    intros v; rewrite (hull_bounds _ _ _ _ _ _ _ Hd1 Hd2 Ho1 Ho2); unfold between;
    split; [tauto| |tauto| |tauto| |tauto|];
    intros [[|] [|]]; split; rank_lia tc [lower1; upper1; lower2; upper2; pt v].
Qed.

Lemma bounds_adjacent_error A B e :
  bound_ok tc A -> bound_ok tc B -> lower A = false -> lower B = true ->
  bounds_adjacent tc A B = Err e -> make_failure tc e.
Proof.
  intros HA HB LA LB Hadj. unfold bounds_adjacent in Hadj.
  destruct (range_cmp_bound_values tc A B <? 0) eqn:Elt; [|by destruct (_ =? 0)]. zbool.
  destruct (rng_canonical tc) as [c|]; [|done].
  set (A' := mkBound _ _ (negb (inclusive A)) _) in Hadj.
  set (B' := mkBound _ _ (negb (inclusive B)) _) in Hadj.
  destruct (make_range tc A' B' false) as [r|e'] eqn:Em; [done|]. injection Hadj as ->.
  refine (make_range_error A' B' e HA HB eq_refl eq_refl _ Em).
  unfold range_cmp_bound_values in *. subst A' B'. cbn. rewrite LA, LB in Elt.
  destruct (infinite A), (infinite B); cbn in *; lia.
Qed.

(** Adjacent ranges: between them they hold every value of their hull. *)
Lemma adjacent_cases r1 r2 l1 u1 l2 u2 :
  range_wf tc r1 -> range_wf tc r2 ->
  range_deserialize tc r1 = (l1, u1, false) -> range_deserialize tc r2 = (l2, u2, false) ->
  match range_adjacent_internal tc r1 r2 with
  | Ok true =>
      forall v, (0 <= range_cmp_bounds tc u1 (pt v) \/ range_cmp_bounds tc l2 (pt v) <= 0) /\
                range_cmp_bounds tc u1 l2 < 0 \/
                (0 <= range_cmp_bounds tc u2 (pt v) \/ range_cmp_bounds tc l1 (pt v) <= 0) /\
                range_cmp_bounds tc u2 l1 < 0
  | Ok false => True
  | Err e => make_failure tc e
  end.
Proof.
  intros H1 H2 Hd1 Hd2. unfold range_adjacent_internal. rewrite (types_match tc r1 r2) by done.
  destruct (deserialize_sides _ _ _ _ _ Hd1) as (L1 & U1 & _), (deserialize_sides _ _ _ _ _ Hd2) as (L2 & U2 & _).
  destruct H1 as [_ H1], H2 as [_ H2]. rewrite Hd1 in H1 |- *. rewrite Hd2 in H2 |- *.
  destruct H1 as (Bl1 & Bu1 & Ho1); [done|]. destruct H2 as (Bl2 & Bu2 & Ho2); [done|]. cbn [orb].
  destruct (bounds_adjacent tc u1 l2) as [[]|e] eqn:A1; cbn [mbind result_bind].
  - intros v. left. destruct (bounds_adjacent_spec u1 l2 Bu1 Bl2 U1 L2 A1). auto.
  - destruct (bounds_adjacent tc u2 l1) as [[]|e] eqn:A2; [|done|exact (bounds_adjacent_error _ _ _ Bu2 Bl1 U2 L1 A2)].
    intros v. right. destruct (bounds_adjacent_spec u2 l1 Bu2 Bl1 U2 L1 A2). auto.
  - exact (bounds_adjacent_error _ _ _ Bu1 Bl2 U1 L2 A1).
Qed.

(** A bound below (above) another one makes the latter finite, when that is a
    lower (upper) bound. *)
Lemma cmp_lower_finite b lo : lower lo = true -> range_cmp_bounds tc b lo < 0 -> infinite lo = false.
Proof.
  unfold range_cmp_bounds. intros ->. destruct (infinite lo); [|done].
  destruct (infinite b), (lower b); cbn; lia.
Qed.

Lemma cmp_upper_finite b up : lower up = false -> 0 < range_cmp_bounds tc b up -> infinite up = false.
Proof.
  unfold range_cmp_bounds. intros ->. destruct (infinite up); [|done].
  destruct (infinite b), (lower b); cbn; lia.
Qed.

Lemma flip_lower_eq b :
  lower b = true -> mkBound (val b) (infinite b) (negb (inclusive b)) false = flip_bound b.
Proof. intros Hl. unfold flip_bound. by rewrite Hl. Qed.

Lemma flip_upper_eq b :
  lower b = false -> mkBound (val b) (infinite b) (negb (inclusive b)) true = flip_bound b.
Proof. intros Hl. unfold flip_bound. by rewrite Hl. Qed.

Definition not_contiguous (what : string) : PgError :=
  mkError ERRCODE_DATA_EXCEPTION ("result of range " +:+ what +:+ " would not be contiguous").

(** Something lies between the upper bound [A] and the lower bound [B]: the
    value they share, which both leave out, or the values between them; a type
    with a canonical function has none there when the range of these values is
    canonicalized to the empty range. *)
Definition bounds_gap (A B : RangeBound) : Prop :=
  (range_cmp_bound_values tc A B = 0 /\ inclusive A = false /\ inclusive B = false) \/
  (range_cmp_bound_values tc A B < 0 /\
   (rng_canonical tc = None \/
    exists r, make_range tc (flip_bound A) (flip_bound B) false = Ok r /\ RangeIsEmpty r = false)).

(** The ranges neither overlap nor touch. *)
Definition apart (r1 r2 : RangeType) : Prop :=
  let '(l1, u1, e1) := range_deserialize tc r1 in
  let '(l2, u2, e2) := range_deserialize tc r2 in
  e1 = false /\ e2 = false /\ (bounds_gap u1 l2 \/ bounds_gap u2 l1).

Lemma bounds_gap_finite A B :
  lower A = false -> lower B = true -> bounds_gap A B -> infinite A = false /\ infinite B = false.
Proof.
  intros LA LB Hg. unfold bounds_gap, range_cmp_bound_values in Hg. rewrite LA, LB in Hg.
  destruct (infinite A), (infinite B); cbn in Hg; [exfalso; lia..|done].
Qed.

Lemma bounds_gap_lt A B : lower A = false -> lower B = true -> bounds_gap A B -> range_cmp_bounds tc A B < 0.
Proof.
  intros LA LB Hg. destruct (bounds_gap_finite A B LA LB Hg) as [IA IB].
  unfold bounds_gap, range_cmp_bound_values in Hg. unfold range_cmp_bounds. rewrite IA, IB in Hg |- *.
  cbn [andb] in *. destruct Hg as [(E & -> & ->)|[Hlt _]].
  - rewrite E, LA, LB. cbn. lia.
  - destruct (Z.eqb_spec (rng_cmp_proc tc (val A) (val B)) 0); lia.
Qed.

(** [bounds_adjacent] on an upper bound at or above a lower bound, and below
    it. *)
Lemma bounds_adjacent_above A B :
  lower A = false -> lower B = true -> 0 <= range_cmp_bounds tc A B -> bounds_adjacent tc A B = Ok false.
Proof.
  intros LA LB. unfold bounds_adjacent, range_cmp_bound_values, range_cmp_bounds. rewrite LA, LB.
  destruct (infinite A), (infinite B); cbn; [done..|].
  destruct (Z.eqb_spec (rng_cmp_proc tc (val A) (val B)) 0) as [-> |];
    [by destruct (inclusive A), (inclusive B); cbn; intros; lia || done|].
  destruct (Z.ltb_spec (rng_cmp_proc tc (val A) (val B)) 0); [lia|done].
Qed.

Lemma bounds_adjacent_gap A B :
  lower A = false -> lower B = true -> range_cmp_bounds tc A B < 0 ->
  bounds_adjacent tc A B = Ok false <-> bounds_gap A B.
Proof.
  intros LA LB Hlt. unfold bounds_adjacent, bounds_gap. rewrite (flip_upper_eq A LA), (flip_lower_eq B LB).
  destruct (Z.ltb_spec (range_cmp_bound_values tc A B) 0) as [Hv|Hv].
  - destruct (rng_canonical tc) as [c|].
    + rewrite bind_Ok. split.
      * intros (r & Hm & [= He]). right. split; [done|]. right. by exists r.
      * intros [[? _]|[_ [[=]|(r & Hm & He)]]]; [lia|]. exists r. by rewrite He.
    + split; [|done]. intros _. right. auto.
  - destruct (Z.eqb_spec (range_cmp_bound_values tc A B) 0) as [E|Hn].
    + split.
      * intros [= Hi%negb_false_iff%eqb_prop]. left. split; [done|]. revert Hlt E.
        unfold range_cmp_bounds, range_cmp_bound_values. rewrite LA, LB, Hi.
        destruct (infinite A), (infinite B), (inclusive B); cbn; try lia; auto. intros Hlt E. rewrite E in Hlt. cbn in Hlt. lia.
      * intros [(_ & -> & ->)|[? _]]; [done|lia].
    + split; [|intros [[? _]|[? _]]; lia]. intros _. exfalso. revert Hlt Hv Hn.
      unfold range_cmp_bounds, range_cmp_bound_values. rewrite LA, LB.
      destruct (infinite A), (infinite B); cbn; try lia.
      destruct (Z.eqb_spec (rng_cmp_proc tc (val A) (val B)) 0); lia.
Qed.

(** Ranges that do not overlap: the adjacency test is that of the two bounds
    that face each other. *)
Lemma adjacent_facing r1 r2 l1 u1 l2 u2 :
  range_wf tc r1 -> range_wf tc r2 ->
  range_deserialize tc r1 = (l1, u1, false) -> range_deserialize tc r2 = (l2, u2, false) ->
  ~ (range_cmp_bounds tc l1 u2 <= 0 /\ range_cmp_bounds tc l2 u1 <= 0) ->
  range_adjacent_internal tc r1 r2 = Ok false <-> apart r1 r2.
Proof.
  intros H1 H2 Hd1 Hd2 Hno. unfold range_adjacent_internal, apart. rewrite (types_match tc r1 r2) by done.
  destruct (deserialize_sides _ _ _ _ _ Hd1) as (L1 & U1 & _), (deserialize_sides _ _ _ _ _ Hd2) as (L2 & U2 & _).
  destruct H1 as [_ H1], H2 as [_ H2]. rewrite Hd1 in H1 |- *. rewrite Hd2 in H2 |- *.
  destruct H1 as (_ & _ & Ho1); [done|]. destruct H2 as (_ & _ & Ho2); [done|]. cbn [orb].
  pose proof (bounds_gap_lt u1 l2 U1 L2) as Hg1. pose proof (bounds_gap_lt u2 l1 U2 L1) as Hg2.
  destruct (Z.le_gt_cases 0 (range_cmp_bounds tc u1 l2)) as [Hge|Hlt].
  - rewrite (bounds_adjacent_above u1 l2 U1 L2 Hge). cbn [mbind result_bind].
    assert (Hlt : range_cmp_bounds tc u2 l1 < 0).
    { destruct (Z.le_gt_cases 0 (range_cmp_bounds tc u2 l1)); [|lia]. destruct Hno.
      split; rank_lia tc [l1; u1; l2; u2]. }
    rewrite (bounds_adjacent_gap u2 l1 U2 L1 Hlt). split; [auto|]. intros (_ & _ & [Hg|Hg]); [|done].
    specialize (Hg1 Hg). lia.
  - assert (Hge : 0 <= range_cmp_bounds tc u2 l1) by (clear Hg1 Hg2; rank_lia tc [l1; u1; l2; u2]).
    rewrite (bounds_adjacent_above u2 l1 U2 L1 Hge). pose proof (bounds_adjacent_gap u1 l2 U1 L2 Hlt) as Hiff.
    split.
    + rewrite bind_Ok. intros ([] & Ha & Hr); [done|]. apply Hiff in Ha. auto.
    + intros (_ & _ & [Hg|Hg]); [apply Hiff in Hg; by rewrite Hg|specialize (Hg2 Hg); lia].
Qed.

(** Strict union: an error when the ranges neither overlap nor touch, and
    the members of both ranges otherwise. *)
Lemma union_strict r1 r2 :
  range_wf tc r1 -> range_wf tc r2 ->
  (apart r1 r2 /\ range_union_internal tc r1 r2 true = Err (not_contiguous "union")) \/
  (~ apart r1 r2 /\
   computes (range_union_internal tc r1 r2 true) (fun v => mem tc r1 v \/ mem tc r2 v)).
Proof.
  intros Hr1 Hr2. view2 r1 r2 Hr1 Hr2. unfold range_union_internal. rewrite Ht, Hd1, Hd2.
  destruct empty1.
  { right. split; [unfold apart; rewrite Hd1, Hd2; by intros []|].
    apply self_computes; [done|]. intros v. pose proof (mem_empty _ _ _ v Hd1). tauto. }
  destruct empty2.
  { right. split; [unfold apart; rewrite Hd1, Hd2; by intros (_ & [=] & _)|].
    apply self_computes; [done|]. intros v. pose proof (mem_empty _ _ _ v Hd2). tauto. }
  destruct Hw1 as (Hlok1 & Huok1 & Ho1), Hw2 as (Hlok2 & Huok2 & Ho2); [done..|].
  destruct (overlaps_Ok r1 r2 Hr1 Hr2) as [b Hb].
  pose proof (overlaps_cmp r1 r2 _ _ _ _ b Hr1 Hr2 Hd1 Hd2 Hb) as Hov.
  pose proof (adjacent_cases r1 r2 _ _ _ _ Hr1 Hr2 Hd1 Hd2) as Hadj.
  pose proof (adjacent_facing r1 r2 _ _ _ _ Hr1 Hr2 Hd1 Hd2) as Hface.
  rewrite Hb. cbn [mbind result_bind].
  set (res := make_range tc (if range_cmp_bounds tc lower1 lower2 <? 0 then lower1 else lower2)
    (if range_cmp_bounds tc upper1 upper2 >? 0 then upper1 else upper2) false).
  assert (Hres : (forall v, hull r1 r2 v -> mem tc r1 v \/ mem tc r2 v) ->
      computes res (fun v => mem tc r1 v \/ mem tc r2 v)).
  { intros Hcov. pose proof (merge_computes r1 r2 Hr1 Hr2) as Hm.
    unfold range_union_internal in Hm. rewrite Ht, Hd1, Hd2 in Hm. cbn [mbind result_bind negb] in Hm.
    fold res in Hm. unfold computes in *. destruct res as [r|e]; [|done].
    destruct Hm as [Hwf Hm]. split; [done|]. intros v. rewrite Hm. split; [apply Hcov|].
    rewrite (hull_bounds _ _ _ _ _ _ _ Hd1 Hd2 Ho1 Ho2), (mem_bounds _ _ _ _ Hd1), (mem_bounds _ _ _ _ Hd2).
    tauto. }
  destruct b.
  - right. destruct Hov as [Hov _]. destruct (Hov eq_refl) as [Hx1 Hx2]. split.
    + unfold apart. rewrite Hd1, Hd2. intros (_ & _ & [Hg|Hg]);
        (apply bounds_gap_lt in Hg; [|done..]); clear Hov Hface Hadj Hres; rank_lia tc [lower1; upper1; lower2; upper2].
    + apply Hres. intros v.
      rewrite (hull_bounds _ _ _ _ _ _ _ Hd1 Hd2 Ho1 Ho2), (mem_bounds _ _ _ _ Hd1), (mem_bounds _ _ _ _ Hd2).
      clear Hres Hov Hadj Hface. intros [[|] [|]]; rank_lia tc [lower1; upper1; lower2; upper2; pt v].
  - assert (Hno : ~ (range_cmp_bounds tc lower1 upper2 <= 0 /\ range_cmp_bounds tc lower2 upper1 <= 0))
      by (intros Hx; by apply Hov in Hx).
    specialize (Hface Hno). destruct (range_adjacent_internal tc r1 r2) as [[]|e] eqn:EA; cbn [mbind result_bind].
    + right. split; [by intros Hg%Hface|]. apply Hres. intros v. specialize (Hadj v).
      rewrite (hull_bounds _ _ _ _ _ _ _ Hd1 Hd2 Ho1 Ho2), (mem_bounds _ _ _ _ Hd1), (mem_bounds _ _ _ _ Hd2).
      clear Hres Hov Hface Hno. destruct Hadj as [[[|] ?]|[[|] ?]]; intros [[|] [|]];
        rank_lia tc [lower1; upper1; lower2; upper2; pt v].
    + left. split; [by apply Hface|done].
    + right. split; [by intros Hg%Hface|exact Hadj].
Qed.

(** Between the bounds of a gap lies a value, in a type with a canonical
    function that leaves no range between finite bounds without a member. *)
Lemma bounds_gap_value A B :
  TightBounds tc -> rng_canonical tc <> None ->
  bound_ok tc A -> bound_ok tc B -> lower A = false -> lower B = true -> bounds_gap A B ->
  exists v, range_cmp_bounds tc A (pt v) < 0 /\ 0 < range_cmp_bounds tc B (pt v).
Proof.
  intros Ht Hc HA HB LA LB Hg. destruct (bounds_gap_finite A B LA LB Hg) as [IA IB].
  destruct Hg as [(E & XA & XB)|[Hlt [?|(r & Hm & He)]]]; [|done|].
  - exists (val A). unfold range_cmp_bound_values in E. rewrite IA, IB in E. cbn [andb] in E.
    unfold range_cmp_bounds. cbn. rewrite IA, IB, XA, XB, LA, LB, cmp_refl by apply _.
    pose proof (cmp_antisym (cmp := rng_cmp_proc tc) (val A) (val B)) as Hs. rewrite E in Hs.
    replace (rng_cmp_proc tc (val B) (val A)) with 0 by lia. cbn. lia.
  - destruct (rng_canonical tc) as [c|] eqn:Ec; [|done].
    assert (Lf : lower (flip_bound A) = true) by (cbn; by rewrite LA).
    assert (Uf : lower (flip_bound B) = false) by (cbn; by rewrite LB).
    destruct (tight_make c _ _ r Ec (flip_ok A HA) (flip_ok B HB) Lf Uf IA IB Hm He) as [v Hv].
    exists v. destruct (make_range_spec tc _ _ false r (flip_ok A HA) (flip_ok B HB) Lf Uf Hm) as [_ Hmem].
    apply Hmem in Hv as [_ [H1 H2]]. apply flip_upper in H1; [|done..]. apply flip_lower in H2; [|done..]. lia.
Qed.

Lemma apart_value r1 r2 :
  TightBounds tc -> rng_canonical tc <> None -> range_wf tc r1 -> range_wf tc r2 -> apart r1 r2 ->
  exists v, hull r1 r2 v /\ ~ mem tc r1 v /\ ~ mem tc r2 v.
Proof.
  intros Ht Hc Hr1 Hr2 Ha. view2 r1 r2 Hr1 Hr2. unfold apart in Ha. rewrite Hd1, Hd2 in Ha.
  destruct Ha as (-> & -> & Hg). destruct Hw1 as (Hlok1 & Huok1 & Ho1), Hw2 as (Hlok2 & Huok2 & Ho2); [done..|].
  destruct Hg as [Hg|Hg];
    [pose proof (bounds_gap_lt _ _ Hu1 Hl2 Hg)|pose proof (bounds_gap_lt _ _ Hu2 Hl1 Hg)];
    (apply bounds_gap_value in Hg; [|done..]); destruct Hg as (v & Hv1 & Hv2); exists v;
    rewrite (hull_bounds _ _ _ _ _ _ _ Hd1 Hd2 Ho1 Ho2), (mem_bounds _ _ _ _ Hd1), (mem_bounds _ _ _ _ Hd2);
    (split; [|lia]).
  - split; [left|right]; rank_lia tc [lower1; upper1; lower2; upper2; pt v].
  - split; [right|left]; rank_lia tc [lower1; upper1; lower2; upper2; pt v].
Qed.

(** Difference: the members of [r1] that are not in [r2], or an error exactly
    when [r2] lies strictly inside [r1]. *)
Lemma minus_spec r1 r2 :
  range_wf tc r1 -> range_wf tc r2 ->
  computes (range_minus_internal tc r1 r2) (fun v => mem tc r1 v /\ ~ mem tc r2 v) \/
  (range_minus_internal tc r1 r2 = Err (not_contiguous "difference") /\
   let '(l1, u1, e1) := range_deserialize tc r1 in
   let '(l2, u2, e2) := range_deserialize tc r2 in
   e1 = false /\ e2 = false /\ range_cmp_bounds tc l1 l2 < 0 /\ range_cmp_bounds tc u2 u1 < 0).
Proof.
  intros Hr1 Hr2. view2 r1 r2 Hr1 Hr2. unfold range_minus_internal. rewrite Hd1, Hd2.
  destruct empty1.
  { left. apply self_computes; [done|]. intros v. pose proof (mem_empty _ _ _ v Hd1). tauto. }
  destruct empty2.
  { left. apply self_computes; [done|]. intros v. pose proof (mem_empty _ _ _ v Hd2). tauto. }
  destruct Hw1 as (Hlok1 & Huok1 & Ho1), Hw2 as (Hlok2 & Huok2 & Ho2); [done..|]. cbn [orb].
  destruct (_ && _) eqn:E1.
  { right. zbool. split_and!; try done. rank_lia tc [upper1; upper2]. }
  left. apply andb_false_iff in E1.
  destruct (_ || _) eqn:E2.
  { apply self_computes; [done|]. intros v. rewrite (mem_bounds _ _ _ _ Hd1), (mem_bounds _ _ _ _ Hd2).
    apply orb_true_iff in E2. split; [|tauto]. intros [? ?]. split_and!; [done..|].
    intros [? ?]. destruct E2; zbool; rank_lia tc [lower1; upper1; lower2; upper2; pt v]. }
  zbool. destruct (_ && _) eqn:E3.
  { zbool. apply empty_computes. intros v.
    rewrite (mem_bounds _ _ _ _ Hd1), (mem_bounds _ _ _ _ Hd2). intros [[? ?] Hn]. apply Hn.
    split; rank_lia tc [lower1; upper1; lower2; upper2; pt v]. }
  apply andb_false_iff in E3.
  match goal with |- context [if ?b then make_range _ _ _ _ else _] => destruct b eqn:E4 end; [zbool|].
  { assert (Hlt : range_cmp_bounds tc lower1 lower2 < 0) by (destruct E3; zbool; lia).
    pose proof (cmp_lower_finite _ _ Hl2 Hlt) as Hfin.
    rewrite (flip_lower_eq lower2 Hl2).
    apply make_range_computes; [done..| | |]; [cbn; by rewrite Hl2| |].
    - apply values_flip_upper; [done..|lia].
    - intros v. unfold between.
      rewrite (mem_bounds _ _ _ _ Hd1), (mem_bounds _ _ _ _ Hd2), flip_lower by done.
      split; [intros [? ?%Z.nle_gt]|intros [[? ?] Hn]].
      + split_and!; [done| |lia]. rank_lia tc [lower1; upper1; lower2; upper2; pt v].
      + split; [done|]. intros Hle. apply Hn. split; [done|].
        rank_lia tc [lower1; upper1; lower2; upper2; pt v]. }
  match goal with |- context [if ?b then make_range _ _ _ _ else _] => destruct b eqn:E5 end; [zbool|].
  { assert (Hlt : 0 < range_cmp_bounds tc upper1 upper2) by (destruct E3; zbool; lia).
    pose proof (cmp_upper_finite _ _ Hu2 Hlt) as Hfin.
    rewrite (flip_upper_eq upper2 Hu2).
    apply make_range_computes; [done..| | | |]; [cbn; by rewrite Hu2|done| |].
    - apply values_flip_lower; [done..|]. rank_lia tc [upper1; upper2].
    - intros v. unfold between.
      rewrite (mem_bounds _ _ _ _ Hd1), (mem_bounds _ _ _ _ Hd2), flip_upper by done.
      split; [intros [?%Z.nle_gt ?]|intros [[? ?] Hn]].
      + split_and!; [|done|lia]. rank_lia tc [lower1; upper1; lower2; upper2; pt v].
      + split; [|done]. intros Hle. apply Hn. split; [|done].
        rank_lia tc [lower1; upper1; lower2; upper2; pt v]. }
  exfalso. apply andb_false_iff in E5 as [E5|?]; [|zbool; lia].
  apply andb_false_iff in E4 as [E4|?]; [apply andb_false_iff in E4 as [?|?]|].
  all: apply andb_false_iff in E5 as [?|?].
  all: destruct E1, E3; zbool; lia.
Qed.

End SetOps.
