(* ===== verification/RangeStore.v ===== *)
(** * Stored ranges

    What distinguishes an object that [range_serialize] built: its bytes are
    determined by the bounds that [range_deserialize] reads from it.  Used for
    the round trips through the text and binary formats and for hashing. *)

From S2P Require Import Prelude Sorting Floats Varlena RangeTypes RangeOrder RangeOps.

(** ** The stored form of a value is determined by what is read back *)

Lemma le_bytes_mod n x : le_bytes n (x mod 2 ^ (8 * Z.of_nat n)) = le_bytes n x.
Proof.
  rewrite <- le_value_bytes. rewrite <- (length_le_bytes n x) at 1.
  apply le_bytes_value, le_bytes_is_byte.
Qed.

Lemma le_bytes_congr n x y :
  x mod 2 ^ (8 * Z.of_nat n) = y mod 2 ^ (8 * Z.of_nat n) -> le_bytes n x = le_bytes n y.
Proof. intros E. by rewrite <- (le_bytes_mod n x), <- (le_bytes_mod n y), E. Qed.

Lemma stored_bytes_idem et d :
  elem_ok et -> datum_ok et d -> stored_bytes et (stored_datum et d) = stored_bytes et d.
Proof.
  intros He Hd. pose proof (stored_datum_idem et d He Hd) as Hi.
  destruct (typbyval et) eqn:Hbv.
  2: { unfold stored_datum in Hi. rewrite Hbv in Hi. injection Hi as Hi.
       unfold stored_datum. by rewrite Hbv. }
  unfold stored_bytes, stored_datum. rewrite Hbv. destruct (typlen et =? 8) eqn:E8; [done|]. zbool.
  unfold elem_ok in He. rewrite Hbv in He. cbn in He. cbn [datum_word]. apply le_bytes_congr.
  rewrite Z2Nat.id by lia. unfold uwrap.
  rewrite Z.mod_mod_divide by (exists (2 ^ (64 - 8 * typlen et)); rewrite <- Z.pow_add_r by lia; f_equal; lia).
  apply swrap_swrap_mod. lia.
Qed.

Lemma stored_short_idem et d :
  elem_ok et -> datum_ok et d -> stored_short et (stored_datum et d) = stored_short et d.
Proof.
  intros He Hd.
  destruct (stored_viewP et d He Hd) as [w Hbv Hl Hw|bs Hbv Hl Hb|bs Hbv Hl Hb|bs Hbv Hl Hb|s Hbv Hl Ha|bs Hbv Hl Hb].
  - unfold stored_short. destruct (typlen et =? -1) eqn:E; [|done]. zbool. cbn in Hl. lia.
  - assert (Hs : stored_datum et (DPtr bs) = DPtr bs) by (unfold stored_datum; rewrite Hbv; f_equal; by view_simp).
    by rewrite Hs.
  - destruct (short_header (VARATT_CONVERTED_SHORT_SIZE bs) (VARDATA bs)) as (HA & _).
    { by apply converted_short_size. }
    assert (Hs : stored_datum et (DPtr bs) = DPtr (SET_VARSIZE_SHORT (VARATT_CONVERTED_SHORT_SIZE bs) :: VARDATA bs))
      by (unfold stored_datum; rewrite Hbv; f_equal; by view_simp).
    rewrite Hs. cbn zeta in HA. by view_simp.
  - assert (Hs : stored_datum et (DPtr bs) = DPtr bs) by (unfold stored_datum; rewrite Hbv; f_equal; by view_simp).
    by rewrite Hs.
  - unfold stored_short. by rewrite Hl.
  - unfold stored_short. by rewrite pos_eqb_neg.
Qed.

Section Norm.
Context `{Toast} (tc : TypeCacheEntry) `{!RangeSubtype tc}.
Let et := rngelemtype tc.

Lemma layout_stored flags l u :
  (RANGE_HAS_LBOUND flags = true -> datum_ok et l) ->
  (RANGE_HAS_UBOUND flags = true -> datum_ok et u) ->
  layout et flags (stored_datum et l) (stored_datum et u) = layout et flags l u.
Proof.
  intros Hl Hu. pose proof (rs_elem : elem_ok et) as He. unfold layout, upper_off, stored_off.
  destruct (RANGE_HAS_LBOUND flags), (RANGE_HAS_UBOUND flags);
    rewrite ?stored_bytes_idem, ?stored_short_idem by auto; done.
Qed.

Lemma detoast_stored d :
  datum_ok et (detoast_bound et d) ->
  detoast_bound et (stored_datum et (detoast_bound et d)) = stored_datum et (detoast_bound et d).
Proof.
  intros Hd. pose proof (rs_elem : elem_ok et) as He. pose proof (stored_datum_ok _ _ He Hd) as Hs.
  unfold detoast_bound at 1. destruct (typlen et =? -1) eqn:E; [|done]. zbool.
  apply (detoast_datum_ok et); [done| |done].
  unfold elem_ok in He. destruct (typbyval et); [|done]. cbn in He. lia.
Qed.

Lemma norm_idem b : bound_ok tc b -> norm_bound tc (norm_bound tc b) = norm_bound tc b.
Proof.
  intros Hb. unfold norm_bound. cbn [infinite inclusive lower val].
  destruct (infinite b) eqn:Ei; [by rewrite !andb_false_r|]. rewrite !andb_true_r. f_equal.
  fold et. rewrite detoast_stored by auto. apply stored_datum_idem; [apply rs_elem|]. by apply Hb.
Qed.

Lemma norm_values lo up :
  bound_ok tc lo -> bound_ok tc up ->
  Z.sgn (range_cmp_bound_values tc (norm_bound tc lo) (norm_bound tc up)) =
  Z.sgn (range_cmp_bound_values tc lo up).
Proof.
  intros Hl Hu. unfold range_cmp_bound_values, norm_bound. cbn [infinite lower val].
  destruct (infinite lo) eqn:El, (infinite up) eqn:Eu; try done. cbn [andb].
  rewrite (rs_stored (val lo) _ (Hl El)).
  pose proof (rs_stored (val up) (val lo) (Hu Eu)) as E1.
  pose proof (cmp_antisym (val lo) (val up)) as E2.
  pose proof (cmp_antisym (val lo) (stored_datum (rngelemtype tc) (detoast_bound (rngelemtype tc) (val up)))) as E3.
  lia.
Qed.

Lemma norm_flags lo up : bound_flags (norm_bound tc lo) (norm_bound tc up) = bound_flags lo up.
Proof.
  unfold bound_flags, norm_bound. cbn.
  by destruct (infinite lo), (infinite up), (inclusive lo), (inclusive up).
Qed.

Lemma norm_serialize_flags lo up empty :
  bound_ok tc lo -> bound_ok tc up -> lower lo = true -> lower up = false ->
  serialize_flags tc (norm_bound tc lo) (norm_bound tc up) empty = serialize_flags tc lo up empty.
Proof.
  intros Hl Hu El Eu. rewrite !serialize_flags_spec, norm_flags. unfold makes_empty.
  pose proof (norm_values lo up Hl Hu) as Hs.
  set (c1 := range_cmp_bound_values tc (norm_bound tc lo) (norm_bound tc up)) in *.
  set (c2 := range_cmp_bound_values tc lo up) in *.
  assert (E1 : (c1 >? 0) = (c2 >? 0)) by (destruct (Z.gtb_spec c1 0), (Z.gtb_spec c2 0); lia).
  assert (E2 : (c1 =? 0) = (c2 =? 0)) by (destruct (Z.eqb_spec c1 0), (Z.eqb_spec c2 0); lia).
  rewrite E1, E2.
  assert (E3 : (c2 =? 0) && negb (inclusive (norm_bound tc lo) && inclusive (norm_bound tc up)) =
               (c2 =? 0) && negb (inclusive lo && inclusive up)); [|by rewrite E3].
  cbn [inclusive norm_bound]. subst c2. unfold range_cmp_bound_values. rewrite El, Eu.
  by destruct (infinite lo), (infinite up); cbn; rewrite ?andb_true_r, ?andb_false_r.
Qed.

(** Serializing depends on the bounds only through what will be read back. *)
Lemma range_serialize_norm lo up empty :
  bound_ok tc lo -> bound_ok tc up -> lower lo = true -> lower up = false ->
  range_serialize tc (norm_bound tc lo) (norm_bound tc up) empty = range_serialize tc lo up empty.
Proof.
  intros Hl Hu El Eu.
  rewrite !range_serialize_layout by (apply rs_elem || by auto using norm_bound_ok).
  rewrite norm_serialize_flags by done.
  destruct (serialize_flags tc lo up empty) as [flags|e] eqn:Ef; [|done]. cbn [mbind result_bind].
  enough (Hlay : layout_range tc flags (detoast_bound et (val (norm_bound tc lo)))
      (detoast_bound et (val (norm_bound tc up))) =
    layout_range tc flags (detoast_bound et (val lo)) (detoast_bound et (val up))).
  { cbv zeta. subst et. by rewrite Hlay. }
  pose proof (flags_has_lbound _ _ _ _ _ Ef) as HL. pose proof (flags_has_ubound _ _ _ _ _ Ef) as HU.
  enough (Hlay : layout et flags (detoast_bound et (val (norm_bound tc lo)))
      (detoast_bound et (val (norm_bound tc up))) =
    layout et flags (detoast_bound et (val lo)) (detoast_bound et (val up)))
    by (unfold layout_range; fold et; by rewrite Hlay).
  rewrite <- (layout_stored flags (detoast_bound et (val lo)) (detoast_bound et (val up)))
    by (intros; auto).
  assert (Hd : forall b, infinite b = false -> bound_ok tc b ->
    detoast_bound et (val (norm_bound tc b)) = stored_datum et (detoast_bound et (val b))).
  { intros b Hi Hb. unfold norm_bound. cbn [val]. rewrite Hi. apply detoast_stored, Hb, Hi. }
  unfold layout, upper_off.
  destruct (RANGE_HAS_LBOUND flags), (RANGE_HAS_UBOUND flags); rewrite ?Hd by auto; done.
Qed.

Lemma range_serialize_determined lo up lo2 up2 empty :
  bound_ok tc lo -> bound_ok tc up -> bound_ok tc lo2 -> bound_ok tc up2 ->
  lower lo = true -> lower up = false -> lower lo2 = true -> lower up2 = false ->
  norm_bound tc lo = norm_bound tc lo2 -> norm_bound tc up = norm_bound tc up2 ->
  range_serialize tc lo up empty = range_serialize tc lo2 up2 empty.
Proof.
  intros. rewrite <- range_serialize_norm by done. rewrite <- (range_serialize_norm lo2 up2) by done.
  congruence.
Qed.

(** ** Stored ranges *)

(** [r] is an object that [range_serialize] built from legal bounds. *)
Definition stored_range (r : RangeType) : Prop :=
  exists lo up empty, bound_ok tc lo /\ bound_ok tc up /\ lower lo = true /\ lower up = false /\
    range_serialize tc lo up empty = Ok r.

Lemma serialize_empty_eq lo up : range_serialize tc lo up true = Ok (empty_range tc).
Proof. reflexivity. Qed.

(** A stored range is the empty object, or built from exactly the bounds that
    are read from it. *)
Lemma stored_range_view r :
  stored_range r ->
  (r = empty_range tc) \/
  exists lo up, range_deserialize tc r = (lo, up, false) /\ range_get_flags r = bound_flags lo up /\
    bound_ok tc lo /\ bound_ok tc up /\ range_serialize tc lo up false = Ok r /\
    norm_bound tc lo = lo /\ norm_bound tc up = up.
Proof.
  intros (lo & up & empty & Hl & Hu & El & Eu & Hs).
  destruct (serialize_deserialize tc rs_elem lo up empty r Hl Hu El Eu Hs) as (_ & Hf & Hd).
  destruct (makes_empty tc lo up empty) eqn:Em.
  - left. rewrite range_serialize_layout, serialize_flags_spec in Hs by (done || apply rs_elem).
    destruct (_ && _) in Hs; [done|]. rewrite Em in Hs. cbn [mbind result_bind] in Hs. cbv zeta in Hs.
    destruct (_ >? _) in Hs; [done|]. by injection Hs as <-.
  - right. exists (norm_bound tc lo), (norm_bound tc up).
    assert (empty = false) as -> by (destruct empty; [done|done]).
    split_and!; [done|by rewrite norm_flags|by apply norm_bound_ok|by apply norm_bound_ok| | |].
    + by rewrite range_serialize_norm.
    + apply norm_idem. done.
    + apply norm_idem. done.
Qed.

End Norm.

(** ** Bounds in order *)

Section NormCmp.
Context `{Toast} (tc : TypeCacheEntry) `{!RangeSubtype tc}.

Lemma norm_bound_zero b : bound_ok tc b -> range_cmp_bounds tc b (norm_bound tc b) = 0.
Proof.
  intros Hb. pose proof (norm_bound_cmp_r tc b b Hb). pose proof (bounds_antisym tc b b). lia.
Qed.

(** A range built by [range_serialize] alone has the bounds it was given. *)
Lemma serialize_bounds lo up r :
  bound_ok tc lo -> bound_ok tc up -> lower lo = true -> lower up = false ->
  range_cmp_bounds tc lo up <= 0 -> range_serialize tc lo up false = Ok r ->
  range_deserialize tc r = (norm_bound tc lo, norm_bound tc up, false) /\
  range_cmp_bounds tc lo (norm_bound tc lo) = 0 /\ range_cmp_bounds tc up (norm_bound tc up) = 0.
Proof.
  intros Hl Hu El Eu Ho Hs.
  destruct (serialize_deserialize tc rs_elem lo up false r Hl Hu El Eu Hs) as (_ & _ & Hd).
  assert (Hm : makes_empty tc lo up false = false).
  { unfold makes_empty. cbn [orb]. apply (cmp_values_bounds tc lo up El Eu) in Ho.
    destruct Ho as [Hlt|(Heq & -> & ->)]; [|by rewrite andb_false_r].
    destruct (Z.eqb_spec (range_cmp_bound_values tc lo up) 0); [lia|done]. }
  rewrite Hm in Hd. by auto using norm_bound_zero.
Qed.

End NormCmp.

(** ** Ranges made of bounds of different ranges *)

Definition lower_of (tc : TypeCacheEntry) (r : RangeType) : RangeBound := fst (fst (range_deserialize tc r)).
Definition upper_of (tc : TypeCacheEntry) (r : RangeType) : RangeBound := snd (fst (range_deserialize tc r)).

Definition alloc_error : PgError := mkError ERRCODE_INTERNAL_ERROR "invalid memory alloc request size".

Section Pairs.
Context `{Toast} (tc : TypeCacheEntry) `{!RangeSubtype tc}.

#[global] Instance bounds_preorder : Preorder_cmp (range_cmp_bounds tc).
Proof. split; intros; [by apply (bounds_antisym tc)|by apply (bounds_trans tc) with b]. Qed.

(** A lower and an upper bound of one range. *)
Definition pair_ok (lo up : RangeBound) : Prop :=
  bound_ok tc lo /\ bound_ok tc up /\ lower lo = true /\ lower up = false /\ range_cmp_bounds tc lo up <= 0.

(** Serializing one pair. *)
Lemma serialize_pair lo up :
  pair_ok lo up ->
  match range_serialize tc lo up false with
  | Ok r => range_wf tc r /\ RangeIsEmpty r = false /\
            range_cmp_bounds tc lo (lower_of tc r) = 0 /\ range_cmp_bounds tc up (upper_of tc r) = 0
  | Err e => e = alloc_error
  end.
Proof.
  intros (Hl & Hu & El & Eu & Ho). destruct (range_serialize tc lo up false) as [r|e] eqn:Hs.
  - destruct (serialize_bounds tc lo up r Hl Hu El Eu Ho Hs) as (Hd & Zl & Zu).
    destruct (range_serialize_spec tc lo up false r Hl Hu El Eu Hs) as [Hwf _].
    destruct (deserialize_sides _ _ _ _ _ Hd) as (_ & _ & He).
    split_and!; [done|done|unfold lower_of; by rewrite Hd|unfold upper_of; by rewrite Hd].
  - destruct (serialize_error tc rs_elem lo up false e Hl Hu Hs) as [(_ & Hgt & _)| -> ]; [|done].
    apply cmp_values_bounds in Ho; [lia|done..].
Qed.

End Pairs.
