(* ===== verification/Hashfn.v ===== *)
(** * Hash functions

    The hash functions of src/common/hashfn.c and
    src/backend/access/hash/hashfunc.c, for integers and for byte strings, that
    the range and numeric hash support build on.
    [uint32] and [uint64] arithmetic wraps around. *)

From S2P Require Import Prelude Varlena.

Definition u32 (x : Z) : Z := uwrap 32 x.
Definition u64 (x : Z) : Z := uwrap 64 x.

(** [rot(x,k)] on [uint32]. *)
Definition rot (x k : Z) : Z := Z.lor (u32 (Z.shiftl x k)) (Z.shiftr x (32 - k)).

(** One line of [mix]: [x -= z; x ^= rot(z,k); z += y]; gives [(x, z)]. *)
Definition mix_step (x y z k : Z) : Z * Z :=
  let x := u32 (x - z) in
  let x := Z.lxor x (rot z k) in
  let z := u32 (z + y) in
  (x, z).

Definition mix (a b c : Z) : Z * Z * Z :=
  let '(a, c) := mix_step a b c 4 in
  let '(b, a) := mix_step b c a 6 in
  let '(c, b) := mix_step c a b 8 in
  let '(a, c) := mix_step a b c 16 in
  let '(b, a) := mix_step b c a 19 in
  let '(c, b) := mix_step c a b 4 in
  (a, b, c).

(** One line of [final]: [x ^= y; x -= rot(y,k)]. *)
Definition final_step (x y k : Z) : Z := u32 (Z.lxor x y - rot y k).

Definition final (a b c : Z) : Z * Z * Z :=
  let c := final_step c b 14 in
  let a := final_step a c 11 in
  let b := final_step b a 25 in
  let c := final_step c b 16 in
  let a := final_step a c 4 in
  let b := final_step b a 14 in
  let c := final_step c b 24 in
  (a, b, c).

Definition hash_init : Z := u32 (0x9e3779b9 + 4 + 3923095).

Definition hash_bytes_uint32 (k : Z) : Z :=
  let '(_, _, c) := final (u32 (hash_init + k)) hash_init hash_init in c.

Definition hash_bytes_uint32_extended (k seed : Z) : Z :=
  let '(a, b, c) :=
    if negb (seed =? 0) then
      mix (u32 (hash_init + u32 (Z.shiftr seed 32))) (u32 (hash_init + u32 seed)) hash_init
    else (hash_init, hash_init, hash_init) in
  let '(_, b, c) := final (u32 (a + k)) b c in
  Z.lor (Z.shiftl b 32) c.

(** [hash_uint32] and [hash_uint32_extended] wrap these in a [Datum]; the
    hash support functions below give the hash value itself. *)
Definition hashint4 (d : Datum) : Z := hash_bytes_uint32 (u32 (DatumGetInt32 d)).

Definition hashint4extended (d : Datum) (seed : Z) : Z :=
  hash_bytes_uint32_extended (u32 (DatumGetInt32 d)) (u64 seed).

(** The 32-bit key that [hashint8] hashes. *)
Definition int8_key (v : Z) : Z :=
  let lohalf := u32 v in
  let hihalf := u32 (Z.shiftr v 32) in
  Z.lxor lohalf (if 0 <=? v then hihalf else u32 (Z.lnot hihalf)).

Definition hashint8 (d : Datum) : Z := hash_bytes_uint32 (int8_key (DatumGetInt64 d)).

Definition hashint8extended (d : Datum) (seed : Z) : Z :=
  hash_bytes_uint32_extended (int8_key (DatumGetInt64 d)) (u64 seed).

Definition ROTATE_HIGH_AND_LOW_32BITS (v : Z) : Z :=
  Z.lor (Z.land (u64 (Z.shiftl v 1)) 0xfffffffefffffffe) (Z.land (Z.shiftr v 31) 0x100000001).

(** ** Ranges of the results *)

Lemma log2_uint w x : 0 < w -> in_uint w x -> Z.log2 x < w.
Proof.
  intros Hw [H1 H2]. destruct (decide (x = 0)) as [->|]; [cbn; lia|]. apply Z.log2_lt_pow2; lia.
Qed.

Lemma uint_lor w x y : 0 < w -> in_uint w x -> in_uint w y -> in_uint w (Z.lor x y).
Proof.
  intros Hw Hx Hy. pose proof (log2_uint _ _ Hw Hx). pose proof (log2_uint _ _ Hw Hy).
  destruct Hx, Hy. assert (0 <= Z.lor x y) by (apply Z.lor_nonneg; lia). split; [done|].
  destruct (decide (Z.lor x y = 0)) as [->|]; [apply pow2_pos; lia|].
  apply Z.log2_lt_pow2; [lia|]. rewrite Z.log2_lor by lia. lia.
Qed.

Lemma final_step_range x y k : in_uint 32 (final_step x y k).
Proof. by apply uwrap_range. Qed.

Lemma hash_bytes_uint32_range k : in_uint 32 (hash_bytes_uint32 k).
Proof. unfold hash_bytes_uint32, final. cbn zeta. apply final_step_range. Qed.

Lemma final_range a b c a' b' c' :
  final a b c = (a', b', c') -> in_uint 32 b' /\ in_uint 32 c'.
Proof. intros [= <- <- <-]. split; apply final_step_range. Qed.

Lemma hash_bytes_uint32_extended_range k seed : in_uint 64 (hash_bytes_uint32_extended k seed).
Proof.
  unfold hash_bytes_uint32_extended.
  destruct (if negb (seed =? 0) then mix _ _ _ else _) as [[a b] c].
  destruct (final _ _ _) as [[a' b'] c'] eqn:E. apply final_range in E as [[? ?] [? ?]].
  apply uint_lor; [lia| |unfold in_uint; lia].
  rewrite Z.shiftl_mul_pow2 by lia. unfold in_uint. change (2 ^ 64) with (2 ^ 32 * 2 ^ 32). nia.
Qed.

(** ** Compatibility of the int4 and int8 hash functions *)

Lemma int8_key_int4 v : in_sint 32 v -> int8_key v = u32 v.
Proof.
  unfold in_sint, int8_key, u32, uwrap. cbn [Z.sub]. intros [H1 H2].
  change (2 ^ (32 - 1)) with 2147483648 in *. rewrite Z.shiftr_div_pow2 by lia.
  destruct (0 <=? v) eqn:E; zbool.
  - rewrite (Z.div_small v) by lia. by rewrite Z.mod_0_l, Z.lxor_0_r by lia.
  - replace (v / 2 ^ 32) with (-1) by zlia. cbn. by rewrite Z.lxor_0_r.
Qed.

(** ** [mix] is reversible *)

(** The inverse of a line of [mix], given [y]. *)
Definition unmix_step (x y z k : Z) : Z * Z :=
  let z := u32 (z - y) in
  let x := u32 (Z.lxor x (rot z k) + z) in
  (x, z).

Definition unmix (a b c : Z) : Z * Z * Z :=
  let '(c, b) := unmix_step c a b 4 in
  let '(b, a) := unmix_step b c a 19 in
  let '(a, c) := unmix_step a b c 16 in
  let '(c, b) := unmix_step c a b 8 in
  let '(b, a) := unmix_step b c a 6 in
  let '(a, c) := unmix_step a b c 4 in
  (a, b, c).

Lemma uint_lxor w x y : 0 < w -> in_uint w x -> in_uint w y -> in_uint w (Z.lxor x y).
Proof.
  intros Hw Hx Hy. pose proof (log2_uint _ _ Hw Hx). pose proof (log2_uint _ _ Hw Hy).
  destruct Hx, Hy. assert (0 <= Z.lxor x y) by (apply Z.lxor_nonneg; lia). split; [done|].
  destruct (decide (Z.lxor x y = 0)) as [->|]; [apply pow2_pos; lia|].
  apply Z.log2_lt_pow2; [lia|]. pose proof (Z.log2_lxor x y). lia.
Qed.

Lemma rot_range x k : 0 < k < 32 -> in_uint 32 x -> in_uint 32 (rot x k).
Proof.
  intros Hk [Hx1 Hx2]. apply uint_lor; [lia|by apply uwrap_range|].
  rewrite Z.shiftr_div_pow2 by lia. split; [apply Z.div_pos; [lia|apply pow2_pos; lia]|].
  apply Z.le_lt_trans with x; [|lia]. apply Z.div_le_upper_bound; [apply pow2_pos; lia|].
  pose proof (pow2_pos (32 - k) ltac:(lia)). nia.
Qed.

Lemma mix_step_range x y z k :
  0 < k < 32 -> in_uint 32 z ->
  in_uint 32 (mix_step x y z k).1 /\ in_uint 32 (mix_step x y z k).2.
Proof.
  intros Hk Hz. split; [|by apply uwrap_range].
  apply uint_lxor; [lia|by apply uwrap_range|by apply rot_range].
Qed.

Lemma unmix_mix_step x y z k :
  in_uint 32 x -> in_uint 32 z ->
  unmix_step (mix_step x y z k).1 y (mix_step x y z k).2 k = (x, z).
Proof.
  intros Hx Hz. unfold unmix_step, mix_step, u32. cbn [fst snd].
  assert (Ez : uwrap 32 (uwrap 32 (z + y) - y) = z).
  { unfold uwrap. rewrite Zminus_mod_idemp_l, Z.add_simpl_r. by apply uwrap_small. }
  rewrite Ez. f_equal. rewrite Z.lxor_assoc, Z.lxor_nilpotent, Z.lxor_0_r.
  unfold uwrap. rewrite Zplus_mod_idemp_l, Z.sub_add. by apply uwrap_small.
Qed.

Lemma unmix_mix a b c :
  in_uint 32 a -> in_uint 32 b -> in_uint 32 c ->
  (let '(a', b', c') := mix a b c in unmix a' b' c') = (a, b, c).
Proof.
  intros Ha Hb Hc. unfold mix.
  repeat match goal with
  | |- context [mix_step ?x ?y ?z ?k] =>
      let Hr := fresh "Hr" in let Hu := fresh "Hu" in
      pose proof (mix_step_range x y z k ltac:(lia) ltac:(assumption)) as [? Hr];
      pose proof (unmix_mix_step x y z k ltac:(assumption) ltac:(assumption)) as Hu;
      destruct (mix_step x y z k); cbn [fst snd] in *
  end.
  unfold unmix.
  repeat match goal with H : unmix_step ?x ?y ?z ?k = _ |- _ => rewrite H; clear H end. done.
Qed.

(** ** Hashing of byte strings

    hash_bytes, hash_bytes_extended and the dynahash functions of
    src/common/hashfn.c, with all four code paths: the key may or may not be
    aligned to a word, and the machine may be of either endianness.  A key is
    the list of its bytes. *)

Section HashBytes.
Context (WORDS_BIGENDIAN : bool).

(** A [uint32] in memory. *)
Definition word_value (bs : list Z) : Z := le_value (if WORDS_BIGENDIAN then rev bs else bs).

Definition word_bytes (x : Z) : list Z := let bs := le_bytes 4 x in if WORDS_BIGENDIAN then rev bs else bs.

(** [ka[i]] and [(uint32) k[i] << n]. *)
Definition ka (k : list Z) (i : Z) : Z := word_value (bytes_at k (4 * i) 4).

Definition shifted (k : list Z) (i n : Z) : Z := u32 (Z.shiftl (byte_at k i) n).

(** The word at [k[i]], assembled from bytes. *)
Definition kb (k : list Z) (i : Z) : Z :=
  if WORDS_BIGENDIAN then u32 (byte_at k (i + 3) + shifted k (i + 2) 8 + shifted k (i + 1) 16 + shifted k i 24)
  else u32 (byte_at k i + shifted k (i + 1) 8 + shifted k (i + 2) 16 + shifted k (i + 3) 24).

Definition hash_state : Type := Z * Z * Z.

(** The loop over chunks of 12 bytes; gives the rest of the key. *)
Fixpoint hash_chunks (aligned : bool) (fuel : nat) (k : list Z) (s : hash_state) : list Z * hash_state :=
  match fuel with
  | O => (k, s)
  | S fuel' =>
      if (12 <=? length k)%nat then
        let '(a, b, c) := s in
        let fetch i := if aligned then ka k i else kb k (4 * i) in
        let a := u32 (a + fetch 0) in
        let b := u32 (b + fetch 1) in
        let c := u32 (c + fetch 2) in
        hash_chunks aligned fuel' (drop 12 k) (mix a b c)
      else (k, s)
  end.

(** One case of a switch that falls through to the next: [x += (uint32) k[i] << n]. *)
Definition case_add (k : list Z) (i : Z) (big little : Z) (x : Z) : Z :=
  if i <? Z.of_nat (length k) then u32 (x + shifted k i (if WORDS_BIGENDIAN then big else little)) else x.

(** The last 11 bytes, of an aligned key. *)
Definition hash_tail_aligned (k : list Z) (s : hash_state) : hash_state :=
  let '(a, b, c) := s in
  let len := Z.of_nat (length k) in
  if 8 <=? len then
    let c := case_add k 10 8 24 c in
    let c := case_add k 9 16 16 c in
    let c := case_add k 8 24 8 c in
    let b := u32 (b + ka k 1) in
    let a := u32 (a + ka k 0) in
    (a, b, c)
  else if 4 <=? len then
    let b := case_add k 6 8 16 b in
    let b := case_add k 5 16 8 b in
    let b := case_add k 4 24 0 b in
    let a := u32 (a + ka k 0) in
    (a, b, c)
  else
    let a := case_add k 2 8 16 a in
    let a := case_add k 1 16 8 a in
    let a := case_add k 0 24 0 a in
    (a, b, c).

(** The last 11 bytes, of any key. *)
Definition hash_tail_unaligned (k : list Z) (s : hash_state) : hash_state :=
  let '(a, b, c) := s in
  let c := case_add k 10 8 24 c in
  let c := case_add k 9 16 16 c in
  let c := case_add k 8 24 8 c in
  let b := case_add k 7 0 24 b in
  let b := case_add k 6 8 16 b in
  let b := case_add k 5 16 8 b in
  let b := case_add k 4 24 0 b in
  let a := case_add k 3 0 24 a in
  let a := case_add k 2 8 16 a in
  let a := case_add k 1 16 8 a in
  let a := case_add k 0 24 0 a in
  (a, b, c).

Definition hash_setup (k : list Z) : Z := u32 (0x9e3779b9 + u32 (Z.of_nat (length k)) + 3923095).

Definition hash_key (aligned : bool) (k : list Z) (s : hash_state) : hash_state :=
  let '(k, s) := hash_chunks aligned (length k) k s in
  if aligned then hash_tail_aligned k s else hash_tail_unaligned k s.

(** [aligned] is whether the address of the key is a multiple of four. *)
Definition hash_bytes (aligned : bool) (k : list Z) : Z :=
  let init := hash_setup k in
  let '(a, b, c) := hash_key aligned k (init, init, init) in
  let '(_, _, c) := final a b c in c.

Definition hash_bytes_extended (aligned : bool) (k : list Z) (seed : Z) : Z :=
  let init := hash_setup k in
  let s :=
    if negb (seed =? 0) then mix (u32 (init + u32 (Z.shiftr seed 32))) (u32 (init + u32 seed)) init
    else (init, init, init) in
  let '(a, b, c) := hash_key aligned k s in
  let '(_, b, c) := final a b c in
  Z.lor (Z.shiftl b 32) c.

(** The functions for dynahash.c.  The string ends at its first zero byte. *)
Definition string_hash (aligned : bool) (key : list Z) (keysize : Z) : Z :=
  let s_len := Z.min (strlen key) (keysize - 1) in
  hash_bytes aligned (bytes_at key 0 s_len).

Definition tag_hash (aligned : bool) (key : list Z) (keysize : Z) : Z := hash_bytes aligned (bytes_at key 0 keysize).

Definition uint32_hash (key : list Z) : Z := hash_bytes_uint32 (word_value (bytes_at key 0 4)).

End HashBytes.

(** ** Sums modulo [2^32] *)

Definition eq32 (x y : Z) : Prop := u32 x = u32 y.

#[export] Instance eq32_equivalence : Equivalence eq32.
Proof. unfold eq32. split; [by intros x|by intros x y|by intros x y z -> ]. Qed.

#[export] Instance eq32_add : Proper (eq32 ==> eq32 ==> eq32) Z.add.
Proof.
  unfold eq32, u32, uwrap. intros x x' Hx y y' Hy. by rewrite Zplus_mod, Hx, Hy, <- Zplus_mod.
Qed.

Lemma u32_eq32 x : eq32 (u32 x) x.
Proof. apply Z.mod_mod. done. Qed.

(** Two sums that agree modulo [2^32]. *)
Ltac u32_sum :=
  match goal with |- u32 ?x = u32 ?y => change (eq32 x y) end;
  repeat setoid_rewrite u32_eq32; rewrite ?Z.shiftl_mul_pow2 by lia; unfold eq32; f_equal; lia.

(** ** The code paths agree *)

Section Paths.
Context (be : bool).

Lemma byte_at_app_r pre l j : 0 <= j -> byte_at (pre ++ l) (Z.of_nat (length pre) + j) = byte_at l j.
Proof. intros Hj. unfold byte_at. rewrite app_nth2 by lia. f_equal. lia. Qed.

(** The words of a key are the sums of its bytes. *)
Lemma ka_kb_app pre b0 b1 b2 b3 q i :
  4 * i = Z.of_nat (length pre) -> let k := pre ++ b0 :: b1 :: b2 :: b3 :: q in u32 (ka be k i) = kb be k (4 * i).
Proof.
  intros Hi k. unfold ka, kb, shifted, bytes_at, k. rewrite Hi, Nat2Z.id, drop_app_length.
  rewrite byte_at_app, !byte_at_app_r by lia. unfold byte_at, word_value.
  change (Z.to_nat 4) with 4%nat. change (Z.to_nat 3) with 3%nat. change (Z.to_nat 2) with 2%nat. change (Z.to_nat 1) with 1%nat.
  change (take 4 (b0 :: b1 :: b2 :: b3 :: q)) with [b0; b1; b2; b3]. destruct be; cbn [nth rev app le_value]; u32_sum.
Qed.

Lemma ka_kb k i : 0 <= i -> 4 * i + 4 <= Z.of_nat (length k) -> u32 (ka be k i) = kb be k (4 * i).
Proof.
  intros Hi Hl. rewrite <- (take_drop (Z.to_nat (4 * i)) k).
  assert (Hp : 4 * i = Z.of_nat (length (take (Z.to_nat (4 * i)) k))) by (rewrite length_take; lia).
  assert (Hd : (4 <= length (drop (Z.to_nat (4 * i)) k))%nat) by (rewrite length_drop; lia).
  destruct (drop _ k) as [|b0 [|b1 [|b2 [|b3 q]]]]; cbn [length] in Hd; try lia. by apply ka_kb_app.
Qed.

Lemma add_ka k i x : 0 <= i -> 4 * i + 4 <= Z.of_nat (length k) -> u32 (x + ka be k i) = u32 (x + kb be k (4 * i)).
Proof. intros Hi Hl. rewrite <- ka_kb by done. u32_sum. Qed.

Lemma hash_chunks_paths fuel k s :
  hash_chunks be true fuel k s = hash_chunks be false fuel k s.
Proof.
  revert k s. induction fuel as [|fuel IH]; intros k [[a b] c]; [done|]. cbn [hash_chunks].
  destruct (Nat.leb_spec 12 (length k)); [|done]. rewrite !add_ka by lia. apply IH.
Qed.

(** Enough fuel: less than a chunk is left. *)
Lemma hash_chunks_rest aligned fuel k s :
  (length k <= fuel)%nat -> (length (fst (hash_chunks be aligned fuel k s)) < 12)%nat.
Proof.
  revert k s. induction fuel as [|fuel IH]; intros k [[a b] c] Hf; cbn [hash_chunks]; [cbn; lia|].
  destruct (Nat.leb_spec 12 (length k)); [|cbn; lia]. apply IH. rewrite length_drop. lia.
Qed.

(** One case that is taken. *)
Lemma case_add_take k i big little x :
  i < Z.of_nat (length k) -> case_add be k i big little x = u32 (x + shifted k i (if be then big else little)).
Proof. intros Hi. unfold case_add. by destruct (Z.ltb_spec i (Z.of_nat (length k))); [|lia]. Qed.

(** Four cases that fall through add a word. *)
Lemma case_add_word k i x :
  0 <= i -> 4 * i + 4 <= Z.of_nat (length k) ->
  case_add be k (4 * i) 24 0 (case_add be k (4 * i + 1) 16 8 (case_add be k (4 * i + 2) 8 16 (case_add be k (4 * i + 3) 0 24 x)))
  = u32 (x + ka be k i).
Proof.
  intros Hi Hl. rewrite add_ka, !case_add_take by lia. unfold kb, shifted.
  destruct be; u32_sum.
Qed.

Lemma case_add_skip k i big little x : Z.of_nat (length k) <= i -> case_add be k i big little x = x.
Proof. intros Hi. unfold case_add. by destruct (Z.ltb_spec i (Z.of_nat (length k))); [lia|]. Qed.

Lemma hash_tail_paths k s :
  (length k < 12)%nat -> hash_tail_aligned be k s = hash_tail_unaligned be k s.
Proof.
  intros Hk. destruct s as [[a b] c]. unfold hash_tail_aligned, hash_tail_unaligned.
  pose proof (case_add_word k 0) as H0. pose proof (case_add_word k 1) as H1. cbn [Z.mul Z.add Pos.mul Pos.add] in H0, H1.
  destruct (Z.leb_spec 8 (Z.of_nat (length k))); [by rewrite H0, H1 by lia|].
  rewrite (case_add_skip k 10), (case_add_skip k 9), (case_add_skip k 8), (case_add_skip k 7) by lia.
  destruct (Z.leb_spec 4 (Z.of_nat (length k))); [by rewrite H0 by lia|].
  by rewrite (case_add_skip k 6), (case_add_skip k 5), (case_add_skip k 4), (case_add_skip k 3) by lia.
Qed.

Lemma hash_key_paths k s : hash_key be true k s = hash_key be false k s.
Proof.
  unfold hash_key. rewrite hash_chunks_paths. pose proof (hash_chunks_rest false (length k) k s ltac:(lia)) as Hr.
  destruct (hash_chunks be false (length k) k s) as [rest s']. by apply hash_tail_paths.
Qed.

(** ** Keys of four bytes *)

Lemma word_value_bytes x : word_value be (word_bytes be x) = u32 x.
Proof.
  unfold word_value, word_bytes. destruct be; cbv zeta; rewrite ?rev_involutive, le_value_bytes; done.
Qed.

Lemma length_word_bytes x : length (word_bytes be x) = 4%nat.
Proof. unfold word_bytes. destruct be; cbv zeta; by rewrite ?length_rev, length_le_bytes. Qed.

Lemma hash_key_word x a b c : hash_key be true (word_bytes be x) (a, b, c) = (u32 (a + x), b, c).
Proof.
  unfold hash_key. rewrite length_word_bytes. cbn [hash_chunks]. rewrite length_word_bytes. cbn [Nat.leb].
  unfold hash_tail_aligned. rewrite !case_add_skip by (rewrite length_word_bytes; lia). rewrite length_word_bytes.
  change (8 <=? Z.of_nat 4) with false. change (4 <=? Z.of_nat 4) with true. cbn iota. f_equal. f_equal.
  unfold ka, bytes_at. change (Z.to_nat (4 * 0)) with 0%nat. rewrite drop_0, take_ge by (rewrite length_word_bytes; lia).
  rewrite word_value_bytes. u32_sum.
Qed.

End Paths.

(** The low half of a 64-bit hash value. *)
Lemma low_half b c : in_uint 32 b -> in_uint 32 c -> u32 (Z.lor (Z.shiftl b 32) c) = c.
Proof.
  intros [Hb _] Hc. unfold u32, uwrap. rewrite <- Z.land_ones, Z.land_lor_distr_l, !Z.land_ones, Z.shiftl_mul_pow2 by lia.
  rewrite Z.mod_mul by done. rewrite Z.lor_0_l. by apply Z.mod_small.
Qed.

(** ** Properties *)

(** The code paths of [hash_bytes] and [hash_bytes_extended] for aligned and
    unaligned keys give the same hash value on machines of either endianness;
    without a seed the low half of the extended hash is the plain hash; and the
    hash of the four bytes of a [uint32] is [hash_bytes_uint32] of its value,
    with and without seed, so that [uint32_hash] and [tag_hash] agree. *)
Theorem hash_bytes_equivalent be aligned k seed x :
  hash_bytes be true k = hash_bytes be false k /\
  hash_bytes_extended be true k seed = hash_bytes_extended be false k seed /\
  u32 (hash_bytes_extended be aligned k 0) = hash_bytes be aligned k /\
  hash_bytes be aligned (word_bytes be x) = hash_bytes_uint32 x /\
  hash_bytes_extended be aligned (word_bytes be x) seed = hash_bytes_uint32_extended x seed /\
  tag_hash be aligned (word_bytes be x) 4 = uint32_hash be (word_bytes be x).
Proof.
  assert (Hw : forall s, hash_key be aligned (word_bytes be x) s = hash_key be true (word_bytes be x) s)
    by (intros s; destruct aligned; [done|by rewrite hash_key_paths]).
  assert (Hlen : hash_setup (word_bytes be x) = hash_init) by (unfold hash_setup; by rewrite length_word_bytes).
  assert (Hb : hash_bytes be aligned (word_bytes be x) = hash_bytes_uint32 x).
  { unfold hash_bytes, hash_bytes_uint32. by rewrite Hlen, Hw, hash_key_word. }
  split_and!.
  - unfold hash_bytes. by rewrite hash_key_paths.
  - unfold hash_bytes_extended. by rewrite hash_key_paths.
  - unfold hash_bytes_extended, hash_bytes. cbn [Z.eqb negb].
    destruct (hash_key be aligned k _) as [[a b] c]. destruct (final a b c) as [[a' b'] c'] eqn:E.
    apply final_range in E as [Hb' Hc']. by apply low_half.
  - exact Hb.
  - unfold hash_bytes_extended, hash_bytes_uint32_extended. rewrite Hlen.
    destruct (negb (seed =? 0)); [destruct (mix _ _ _) as [[a b] c]|]; by rewrite Hw, hash_key_word.
  - unfold tag_hash, uint32_hash, bytes_at. change (Z.to_nat 0) with 0%nat. change (Z.to_nat 4) with 4%nat.
    rewrite drop_0, take_ge by (rewrite length_word_bytes; lia). rewrite Hb, word_value_bytes.
    assert (E : u32 (hash_init + x) = u32 (hash_init + u32 x)) by u32_sum.
    unfold hash_bytes_uint32. by rewrite E.
Qed.
