(* ===== verification/RangeCanon.v ===== *)
(** * Discrete range types: canonical and difference functions

    The built-in range types over discrete element types: the comparison and
    addition functions of int4, int8 and date, the canonical functions
    [int4range_canonical], [int8range_canonical] and [daterange_canonical],
    the [subtype_diff] functions, and the type cache entries of int4range,
    int8range and daterange.  The canonical functions are shown to discharge
    the interface [RangeCanonical]. *)

From S2P Require Import Prelude Floats Varlena RangeTypes RangeOrder RangeOps Hashfn.

(** ** Element types *)

Definition A_LESS_THAN_B : Z := -1.
Definition A_GREATER_THAN_B : Z := 1.

Definition btint4cmp (x y : Datum) : Z :=
  let a := DatumGetInt32 x in
  let b := DatumGetInt32 y in
  if a >? b then A_GREATER_THAN_B else if a =? b then 0 else A_LESS_THAN_B.

Definition btint8cmp (x y : Datum) : Z :=
  let a := DatumGetInt64 x in
  let b := DatumGetInt64 y in
  if a >? b then A_GREATER_THAN_B else if a =? b then 0 else A_LESS_THAN_B.

Definition DatumGetDateADT (d : Datum) : Z := DatumGetInt32 d.
Definition DateADTGetDatum (x : Z) : Datum := Int32GetDatum x.

Definition date_cmp (x y : Datum) : Z :=
  let dateVal1 := DatumGetDateADT x in
  let dateVal2 := DatumGetDateADT y in
  if dateVal1 <? dateVal2 then -1 else if dateVal1 >? dateVal2 then 1 else 0.

(** [pg_add_s32_overflow] and [pg_add_s64_overflow]: the exact sum, unless it
    does not fit. *)
Definition add_overflow (w a b : Z) : option Z :=
  let res := a + b in
  if (res >? 2 ^ (w - 1) - 1) || (res <? - 2 ^ (w - 1)) then None else Some res.

Definition int4pl (x y : Datum) : result Datum :=
  match add_overflow 32 (DatumGetInt32 x) (DatumGetInt32 y) with
  | None => ereport ERRCODE_NUMERIC_VALUE_OUT_OF_RANGE "integer out of range"
  | Some result => Ok (Int32GetDatum result)
  end.

Definition int8pl (x y : Datum) : result Datum :=
  match add_overflow 64 (DatumGetInt64 x) (DatumGetInt64 y) with
  | None => ereport ERRCODE_NUMERIC_VALUE_OUT_OF_RANGE "bigint out of range"
  | Some result => Ok (Int64GetDatum result)
  end.

Definition DATEVAL_NOBEGIN : Z := PG_INT32_MIN.
Definition DATEVAL_NOEND : Z := PG_INT32_MAX.
Definition DATE_NOT_FINITE (j : Z) : bool := (j =? DATEVAL_NOBEGIN) || (j =? DATEVAL_NOEND).

Definition POSTGRES_EPOCH_JDATE : Z := 2451545.
Definition DATETIME_MIN_JULIAN : Z := 0.
Definition DATE_END_JULIAN : Z := 2147483494.

Definition IS_VALID_DATE (d : Z) : bool :=
  (DATETIME_MIN_JULIAN - POSTGRES_EPOCH_JDATE <=? d) && (d <? DATE_END_JULIAN - POSTGRES_EPOCH_JDATE).

(** The sum wraps around (the backend is compiled with -fwrapv). *)
Definition date_pli (x y : Datum) : result Datum :=
  let dateVal := DatumGetDateADT x in
  let days := DatumGetInt32 y in
  if DATE_NOT_FINITE dateVal then Ok (DateADTGetDatum dateVal)
  else
    let result := swrap 32 (dateVal + days) in
    if (if days >=? 0 then result <? dateVal else result >? dateVal) || negb (IS_VALID_DATE result) then
      ereport ERRCODE_DATETIME_VALUE_OUT_OF_RANGE "date out of range"
    else Ok (DateADTGetDatum result).

(** ** Canonical functions

    [typcache] is the entry that [range_get_typcache] returns for the range's
    own type. *)

Section Canonical.
Context `{Toast}.

Definition int4range_canonical (typcache : TypeCacheEntry) (r : RangeType) : result RangeType :=
  let '(lo, up, empty) := range_deserialize typcache r in
  if empty then Ok r
  else
    lo ← (if negb (infinite lo) && negb (inclusive lo) then
            v ← int4pl (val lo) (Int32GetDatum 1);
            Ok (mkBound v (infinite lo) true (lower lo))
          else Ok lo);
    up ← (if negb (infinite up) && inclusive up then
            v ← int4pl (val up) (Int32GetDatum 1);
            Ok (mkBound v (infinite up) false (lower up))
          else Ok up);
    range_serialize typcache lo up false.

Definition int8range_canonical (typcache : TypeCacheEntry) (r : RangeType) : result RangeType :=
  let '(lo, up, empty) := range_deserialize typcache r in
  if empty then Ok r
  else
    lo ← (if negb (infinite lo) && negb (inclusive lo) then
            v ← int8pl (val lo) (Int64GetDatum 1);
            Ok (mkBound v (infinite lo) true (lower lo))
          else Ok lo);
    up ← (if negb (infinite up) && inclusive up then
            v ← int8pl (val up) (Int64GetDatum 1);
            Ok (mkBound v (infinite up) false (lower up))
          else Ok up);
    range_serialize typcache lo up false.

Definition daterange_canonical (typcache : TypeCacheEntry) (r : RangeType) : result RangeType :=
  let '(lo, up, empty) := range_deserialize typcache r in
  if empty then Ok r
  else
    lo ← (if negb (infinite lo) && negb (DATE_NOT_FINITE (DatumGetDateADT (val lo)))
             && negb (inclusive lo) then
            v ← date_pli (val lo) (Int32GetDatum 1);
            Ok (mkBound v (infinite lo) true (lower lo))
          else Ok lo);
    up ← (if negb (infinite up) && negb (DATE_NOT_FINITE (DatumGetDateADT (val up)))
             && inclusive up then
            v ← date_pli (val up) (Int32GetDatum 1);
            Ok (mkBound v (infinite up) false (lower up))
          else Ok up);
    range_serialize typcache lo up false.

End Canonical.

(** ** Difference functions *)

Definition int4range_subdiff (x y : Datum) : result float8 :=
  Ok (f8_sub (f8_of_Z (DatumGetInt32 x)) (f8_of_Z (DatumGetInt32 y))).

Definition int8range_subdiff (x y : Datum) : result float8 :=
  Ok (f8_sub (f8_of_Z (DatumGetInt64 x)) (f8_of_Z (DatumGetInt64 y))).

(** [numeric_sub] and [numeric_float8] (numeric.c) are parameters here. *)
Definition numrange_subdiff (numeric_sub : Datum -> Datum -> result Datum)
    (numeric_float8 : Datum -> result float8) (v1 v2 : Datum) : result float8 :=
  numresult ← numeric_sub v1 v2;
  numeric_float8 numresult.

Definition daterange_subdiff (x y : Datum) : result float8 :=
  Ok (f8_sub (f8_of_Z (DatumGetInt32 x)) (f8_of_Z (DatumGetInt32 y))).

Definition USECS_PER_SEC : Z := 1000000.

Definition tsrange_subdiff (x y : Datum) : result float8 :=
  Ok (f8_div (f8_sub (f8_of_Z (DatumGetInt64 x)) (f8_of_Z (DatumGetInt64 y))) (f8_of_Z USECS_PER_SEC)).

Definition tstzrange_subdiff (x y : Datum) : result float8 :=
  Ok (f8_div (f8_sub (f8_of_Z (DatumGetInt64 x)) (f8_of_Z (DatumGetInt64 y))) (f8_of_Z USECS_PER_SEC)).

(** ** Type cache entries of the built-in discrete range types (pg_type, pg_range) *)

Definition INT4RANGEOID : Oid := 3904.
Definition INT8RANGEOID : Oid := 3926.
Definition DATERANGEOID : Oid := 3912.

Definition int4_elem : ElemType := mkElemType 4 true TYPALIGN_INT TYPSTORAGE_PLAIN.
Definition int8_elem : ElemType := mkElemType 8 true TYPALIGN_DOUBLE TYPSTORAGE_PLAIN.

(** An entry and the entry its canonical function sees differ in
    [rng_canonical] alone, which neither [range_serialize] nor
    [range_deserialize] reads. *)
Definition with_canonical (tc : TypeCacheEntry) (c : option (RangeType -> result RangeType)) : TypeCacheEntry :=
  mkTypeCache (type_id tc) (elem_type_id tc) (rngelemtype tc) (rng_cmp_proc tc) c
    (rng_subdiff tc) (hash_proc tc) (hash_extended_proc tc).

Definition int4_base : TypeCacheEntry :=
  mkTypeCache INT4RANGEOID 23 int4_elem btint4cmp None (Some int4range_subdiff)
    (Some hashint4) (Some hashint4extended).

Definition int8_base : TypeCacheEntry :=
  mkTypeCache INT8RANGEOID 20 int8_elem btint8cmp None (Some int8range_subdiff)
    (Some hashint8) (Some hashint8extended).

Definition date_base : TypeCacheEntry :=
  mkTypeCache DATERANGEOID 1082 int4_elem date_cmp None (Some daterange_subdiff)
    (Some hashint4) (Some hashint4extended).

Definition int4range `{Toast} : TypeCacheEntry :=
  with_canonical int4_base (Some (int4range_canonical int4_base)).

Definition int8range `{Toast} : TypeCacheEntry :=
  with_canonical int8_base (Some (int8range_canonical int8_base)).

Definition daterange `{Toast} : TypeCacheEntry :=
  with_canonical date_base (Some (daterange_canonical date_base)).

(** ** The element types meet the interface [RangeSubtype] *)

Lemma btint4cmp_spec x y : Z.sgn (btint4cmp x y) = Z.sgn (DatumGetInt32 x - DatumGetInt32 y).
Proof. unfold btint4cmp, A_GREATER_THAN_B, A_LESS_THAN_B. split_ifs; zbool; lia. Qed.

Lemma btint8cmp_spec x y : Z.sgn (btint8cmp x y) = Z.sgn (DatumGetInt64 x - DatumGetInt64 y).
Proof. unfold btint8cmp, A_GREATER_THAN_B, A_LESS_THAN_B. split_ifs; zbool; lia. Qed.

Lemma date_cmp_spec x y : Z.sgn (date_cmp x y) = Z.sgn (DatumGetInt32 x - DatumGetInt32 y).
Proof. unfold date_cmp, DatumGetDateADT. split_ifs; zbool; lia. Qed.

(** A comparison through an integer key is an order. *)
Lemma key_order (cmp : Datum -> Datum -> Z) (key : Datum -> Z) :
  (forall x y, Z.sgn (cmp x y) = Z.sgn (key x - key y)) -> CmpOrder cmp.
Proof.
  intros Hk. split.
  - intros a b. pose proof (Hk a b). pose proof (Hk b a). lia.
  - intros a b c. pose proof (Hk a b). pose proof (Hk b c). pose proof (Hk a c). lia.
Qed.

Lemma key_subtype `{Toast} (tc : TypeCacheEntry) (key : Datum -> Z) :
  elem_ok (rngelemtype tc) -> typbyval (rngelemtype tc) = true ->
  (forall x y, Z.sgn (rng_cmp_proc tc x y) = Z.sgn (key x - key y)) ->
  (forall d, key (stored_datum (rngelemtype tc) d) = key d) ->
  RangeSubtype tc.
Proof.
  intros He Hbv Hk Hs. split; [done|by eapply key_order|].
  intros d x _. rewrite !Hk, Hs. unfold detoast_bound.
  destruct (typlen (rngelemtype tc) =? -1) eqn:E; [|done]. zbool.
  unfold elem_ok in He. rewrite Hbv in He. cbn in He. lia.
Qed.

Lemma int4_stored d : DatumGetInt32 (stored_datum int4_elem d) = DatumGetInt32 d.
Proof. unfold DatumGetInt32. cbn. by apply swrap_uwrap_idem. Qed.

Lemma int8_stored d : DatumGetInt64 (stored_datum int8_elem d) = DatumGetInt64 d.
Proof. done. Qed.

#[global] Instance int4_subtype `{Toast} c : RangeSubtype (with_canonical int4_base c).
Proof.
  apply (key_subtype _ DatumGetInt32); [by cbn; auto|done|apply btint4cmp_spec|apply int4_stored].
Qed.

#[global] Instance int8_subtype `{Toast} c : RangeSubtype (with_canonical int8_base c).
Proof.
  apply (key_subtype _ DatumGetInt64); [by cbn; auto|done|apply btint8cmp_spec|apply int8_stored].
Qed.

#[global] Instance date_subtype `{Toast} c : RangeSubtype (with_canonical date_base c).
Proof.
  apply (key_subtype _ DatumGetInt32); [by cbn; auto|done|apply date_cmp_spec|apply int4_stored].
Qed.

(** ** The common form of the canonical functions

    [succ] gives the next value; values for which [skip] holds are left
    alone. *)

Definition canon_lower (skip : Datum -> bool) (succ : Datum -> result Datum) (lo : RangeBound)
  : result RangeBound :=
  if negb (infinite lo) && negb (skip (val lo)) && negb (inclusive lo) then
    v ← succ (val lo); Ok (mkBound v (infinite lo) true (lower lo))
  else Ok lo.

Definition canon_upper (skip : Datum -> bool) (succ : Datum -> result Datum) (up : RangeBound)
  : result RangeBound :=
  if negb (infinite up) && negb (skip (val up)) && inclusive up then
    v ← succ (val up); Ok (mkBound v (infinite up) false (lower up))
  else Ok up.

Definition discrete_canonical `{Toast} (tc : TypeCacheEntry) skip succ (r : RangeType) : result RangeType :=
  let '(lo, up, empty) := range_deserialize tc r in
  if empty then Ok r
  else
    lo ← canon_lower skip succ lo;
    up ← canon_upper skip succ up;
    range_serialize tc lo up false.

Definition no_skip (d : Datum) : bool := false.
Definition int4_succ (d : Datum) : result Datum := int4pl d (Int32GetDatum 1).
Definition int8_succ (d : Datum) : result Datum := int8pl d (Int64GetDatum 1).
Definition date_skip (d : Datum) : bool := DATE_NOT_FINITE (DatumGetDateADT d).
Definition date_succ (d : Datum) : result Datum := date_pli d (Int32GetDatum 1).

Lemma int4_canonical_form `{Toast} tc r :
  int4range_canonical tc r = discrete_canonical tc no_skip int4_succ r.
Proof.
  unfold int4range_canonical, discrete_canonical, canon_lower, canon_upper, no_skip. cbn [negb].
  destruct (range_deserialize tc r) as [[lo up] []]; [done|]. by rewrite !andb_true_r.
Qed.

Lemma int8_canonical_form `{Toast} tc r :
  int8range_canonical tc r = discrete_canonical tc no_skip int8_succ r.
Proof.
  unfold int8range_canonical, discrete_canonical, canon_lower, canon_upper, no_skip. cbn [negb].
  destruct (range_deserialize tc r) as [[lo up] []]; [done|]. by rewrite !andb_true_r.
Qed.

Lemma date_canonical_form `{Toast} tc r :
  daterange_canonical tc r = discrete_canonical tc date_skip date_succ r.
Proof. done. Qed.

(** What the successor function promises: nothing lies between a value and
    its successor. *)
Class Discrete (tc : TypeCacheEntry) (skip : Datum -> bool) (succ : Datum -> result Datum) : Prop := {
  discrete_byval : typbyval (rngelemtype tc) = true;
  succ_ok : forall v w, skip v = false -> succ v = Ok w ->
    datum_ok (rngelemtype tc) w /\
    forall x, rng_cmp_proc tc v x < 0 <-> rng_cmp_proc tc w x <= 0
}.

Section DiscreteCanonical.
Context `{Toast} (tc : TypeCacheEntry) `{!RangeSubtype tc}.
Context (skip : Datum -> bool) (succ : Datum -> result Datum) `{!Discrete tc skip succ}.

Lemma detoast_byval d : detoast_bound (rngelemtype tc) d = d.
Proof.
  pose proof rs_elem as He. unfold elem_ok in He. rewrite (discrete_byval (tc := tc)) in He.
  unfold detoast_bound. destruct (typlen (rngelemtype tc) =? -1) eqn:E; [|done].
  zbool. cbn in He. lia.
Qed.

Lemma canon_lower_spec lo lo' :
  lower lo = true -> bound_ok tc lo -> canon_lower skip succ lo = Ok lo' ->
  lower lo' = true /\ bound_ok tc lo' /\ infinite lo' = infinite lo /\
  (forall v, range_cmp_bounds tc lo' (pt v) <= 0 <-> range_cmp_bounds tc lo (pt v) <= 0).
Proof.
  intros El Hb. unfold canon_lower. destruct (_ && _) eqn:Ec; [|by intros [= <-]].
  zbool. rewrite bind_Ok. intros (w & Hs & [= <-]).
  destruct (succ_ok _ _ ltac:(eassumption) Hs) as [Hw Hn]. cbn. split_and!; [done| |done|].
  - intros _. cbn. by rewrite detoast_byval.
  - intros v. specialize (Hn v). unfold range_cmp_bounds. cbn.
    repeat match goal with H : _ = _ |- _ => rewrite H end. cbn.
    destruct (Z.eqb_spec (rng_cmp_proc tc w v) 0), (Z.eqb_spec (rng_cmp_proc tc (val lo) v) 0); lia.
Qed.

Lemma canon_upper_spec up up' :
  lower up = false -> bound_ok tc up -> canon_upper skip succ up = Ok up' ->
  lower up' = false /\ bound_ok tc up' /\ infinite up' = infinite up /\
  (forall v, 0 <= range_cmp_bounds tc up' (pt v) <-> 0 <= range_cmp_bounds tc up (pt v)).
Proof.
  intros El Hb. unfold canon_upper. destruct (_ && _) eqn:Ec; [|by intros [= <-]].
  zbool. rewrite bind_Ok. intros (w & Hs & [= <-]).
  destruct (succ_ok _ _ ltac:(eassumption) Hs) as [Hw Hn]. cbn. split_and!; [done| |done|].
  - intros _. cbn. by rewrite detoast_byval.
  - intros v. specialize (Hn v). unfold range_cmp_bounds. cbn.
    repeat match goal with H : _ = _ |- _ => rewrite H end. cbn.
    destruct (Z.eqb_spec (rng_cmp_proc tc w v) 0), (Z.eqb_spec (rng_cmp_proc tc (val up) v) 0); lia.
Qed.

Lemma discrete_canonical_ok r r' :
  range_wf tc r -> RangeIsEmpty r = false -> discrete_canonical tc skip succ r = Ok r' ->
  range_wf tc r' /\ forall v, mem tc r' v <-> mem tc r v.
Proof.
  intros Hwf He. destruct (wf_view tc r Hwf) as (lo & up & e & Hd & El & Eu & Hb).
  destruct (deserialize_sides _ _ _ _ _ Hd) as (_ & _ & ->). rewrite He in *.
  destruct Hb as (Hlo & Hup & _); [done|]. unfold discrete_canonical. rewrite Hd, bind_Ok.
  intros (lo' & Cl & Hr). apply bind_Ok in Hr as (up' & Cu & Hs).
  destruct (canon_lower_spec _ _ El Hlo Cl) as (El' & Hlo' & _ & Ml).
  destruct (canon_upper_spec _ _ Eu Hup Cu) as (Eu' & Hup' & _ & Mu).
  destruct (range_serialize_spec tc lo' up' false r' Hlo' Hup' El' Eu' Hs) as [Hwf' Hm].
  split; [done|]. intros v. rewrite Hm, (mem_between _ _ _ _ _ _ Hd). unfold between.
  by rewrite Ml, Mu.
Qed.

End DiscreteCanonical.

(** ** The three instances *)

Lemma datum_ok_word et x : typbyval et = true -> datum_ok et (DWord (uwrap 64 x)).
Proof. intros Hbv. unfold datum_ok. rewrite Hbv. eexists. split; [done|]. by apply uwrap_range. Qed.

Lemma get_int32_wrap x : in_sint 32 x -> DatumGetInt32 (Int32GetDatum x) = x.
Proof.
  intros Hx. unfold DatumGetInt32, Int32GetDatum, uwrap. cbn [datum_word].
  rewrite swrap_mod_le by lia. by apply swrap_small.
Qed.

Lemma get_int64_wrap x : in_sint 64 x -> DatumGetInt64 (Int64GetDatum x) = x.
Proof.
  intros Hx. unfold DatumGetInt64, Int64GetDatum, uwrap. cbn [datum_word].
  rewrite swrap_mod_le by lia. by apply swrap_small.
Qed.

Lemma get_int32_range d : in_sint 32 (DatumGetInt32 d).
Proof. by apply swrap_range. Qed.

Lemma get_int64_range d : in_sint 64 (DatumGetInt64 d).
Proof. by apply swrap_range. Qed.

Lemma int4_succ_spec v :
  int4_succ v = if DatumGetInt32 v =? PG_INT32_MAX
    then ereport ERRCODE_NUMERIC_VALUE_OUT_OF_RANGE "integer out of range"
    else Ok (Int32GetDatum (DatumGetInt32 v + 1)).
Proof.
  unfold int4_succ, int4pl, add_overflow, PG_INT32_MAX. rewrite (get_int32_wrap 1) by (unfold in_sint; lia).
  pose proof (get_int32_range v) as Hr. unfold in_sint in Hr.
  destruct (_ || _) eqn:E1; destruct (_ =? _) eqn:E2; zbool; try done; exfalso.
  - apply orb_true_iff in E1 as [E1|E1]; zbool; lia.
  - lia.
Qed.

Lemma int8_succ_spec v :
  int8_succ v = if DatumGetInt64 v =? 2 ^ 63 - 1
    then ereport ERRCODE_NUMERIC_VALUE_OUT_OF_RANGE "bigint out of range"
    else Ok (Int64GetDatum (DatumGetInt64 v + 1)).
Proof.
  unfold int8_succ, int8pl, add_overflow. rewrite (get_int64_wrap 1) by (unfold in_sint; lia).
  pose proof (get_int64_range v) as Hr. unfold in_sint in Hr.
  destruct (_ || _) eqn:E1; destruct (_ =? _) eqn:E2; zbool; try done; exfalso.
  - apply orb_true_iff in E1 as [E1|E1]; zbool; lia.
  - lia.
Qed.

Lemma date_succ_spec v :
  date_skip v = false ->
  date_succ v = if IS_VALID_DATE (DatumGetInt32 v + 1)
    then Ok (Int32GetDatum (DatumGetInt32 v + 1))
    else ereport ERRCODE_DATETIME_VALUE_OUT_OF_RANGE "date out of range".
Proof.
  unfold date_skip, date_succ, date_pli, DatumGetDateADT, DateADTGetDatum. intros Hs. rewrite Hs.
  rewrite (get_int32_wrap 1) by (unfold in_sint; lia). cbn [Z.geb Z.compare].
  pose proof (get_int32_range v) as Hr. unfold in_sint in Hr.
  unfold DATE_NOT_FINITE, DATEVAL_NOBEGIN, DATEVAL_NOEND, PG_INT32_MIN, PG_INT32_MAX in Hs. zbool.
  rewrite swrap_small by (unfold in_sint; lia).
  replace (DatumGetInt32 v + 1 <? DatumGetInt32 v) with false by (symmetry; apply Z.ltb_ge; lia).
  cbn [orb]. by destruct (IS_VALID_DATE _).
Qed.

#[global] Instance int4_discrete c : Discrete (with_canonical int4_base c) no_skip int4_succ.
Proof.
  split; [done|]. intros v w _ Hs. rewrite int4_succ_spec in Hs. destruct (_ =? _) eqn:E; [done|].
  injection Hs as <-. split; [by apply datum_ok_word|]. intros x. cbn.
  pose proof (btint4cmp_spec v x). pose proof (btint4cmp_spec (Int32GetDatum (DatumGetInt32 v + 1)) x) as H2.
  pose proof (get_int32_range v) as Hr. unfold in_sint, PG_INT32_MAX in *. zbool.
  rewrite get_int32_wrap in H2 by (unfold in_sint; lia). lia.
Qed.

#[global] Instance int8_discrete c : Discrete (with_canonical int8_base c) no_skip int8_succ.
Proof.
  split; [done|]. intros v w _ Hs. rewrite int8_succ_spec in Hs. destruct (_ =? _) eqn:E; [done|].
  injection Hs as <-. split; [by apply datum_ok_word|]. intros x. cbn [rng_cmp_proc with_canonical int8_base].
  pose proof (btint8cmp_spec v x). pose proof (btint8cmp_spec (Int64GetDatum (DatumGetInt64 v + 1)) x) as H2.
  pose proof (get_int64_range v) as Hr. unfold in_sint in *. zbool.
  rewrite get_int64_wrap in H2 by (unfold in_sint; lia). lia.
Qed.

#[global] Instance date_discrete c : Discrete (with_canonical date_base c) date_skip date_succ.
Proof.
  split; [done|]. intros v w Hsk Hs. rewrite date_succ_spec in Hs by done.
  destruct (IS_VALID_DATE _) eqn:E; [|done].
  injection Hs as <-. split; [by apply datum_ok_word|]. intros x. cbn [rng_cmp_proc with_canonical date_base].
  pose proof (date_cmp_spec v x). pose proof (date_cmp_spec (Int32GetDatum (DatumGetInt32 v + 1)) x) as H2.
  unfold IS_VALID_DATE, DATETIME_MIN_JULIAN, POSTGRES_EPOCH_JDATE, DATE_END_JULIAN in E. zbool.
  rewrite get_int32_wrap in H2 by (unfold in_sint; lia). lia.
Qed.

#[global] Instance int4range_ok `{Toast} : RangeCanonical int4range.
Proof.
  split. intros c r r' [= <-] Hwf He Hc. rewrite int4_canonical_form in Hc.
  exact (discrete_canonical_ok (with_canonical int4_base _) no_skip int4_succ r r' Hwf He Hc).
Qed.

#[global] Instance int8range_ok `{Toast} : RangeCanonical int8range.
Proof.
  split. intros c r r' [= <-] Hwf He Hc. rewrite int8_canonical_form in Hc.
  exact (discrete_canonical_ok (with_canonical int8_base _) no_skip int8_succ r r' Hwf He Hc).
Qed.

#[global] Instance daterange_ok `{Toast} : RangeCanonical daterange.
Proof.
  split. intros c r r' [= <-] Hwf He Hc. rewrite date_canonical_form in Hc.
  exact (discrete_canonical_ok (with_canonical date_base _) date_skip date_succ r r' Hwf He Hc).
Qed.

(** ** Canonical form, and ranges for which no operation overflows *)

(** Lower bound inclusive, upper bound exclusive. *)
Definition canonical_bounds (lo up : RangeBound) : Prop :=
  (infinite lo = false -> inclusive lo = true) /\ (infinite up = false -> inclusive up = false).

Definition canonical_form (tc : TypeCacheEntry) (r : RangeType) : Prop :=
  let '(lo, up, empty) := range_deserialize tc r in empty = false -> canonical_bounds lo up.

Section CanonicalForm.
Context `{Toast} (tc : TypeCacheEntry) `{!RangeSubtype tc}.
Context (skip : Datum -> bool) (succ : Datum -> result Datum) `{!Discrete tc skip succ}.

Lemma layout_byval_length flags lval uval :
  Z.of_nat (length (layout (rngelemtype tc) flags lval uval)) <= 32.
Proof.
  pose proof rs_elem as He. pose proof (discrete_byval (tc := tc)) as Hbv.
  unfold elem_ok in He. rewrite Hbv in He.
  assert (Hlen : forall d, Z.of_nat (length (stored_bytes (rngelemtype tc) d)) <= 8).
  { intros d. unfold stored_bytes. rewrite Hbv, length_le_bytes. cbn in He. lia. }
  assert (Hal : forall d p, stored_off (rngelemtype tc) d p <= p + 8).
  { intros d p. unfold stored_off. destruct (stored_short _ _); [lia|].
    pose proof (att_align_nominal_bound p (typalign (rngelemtype tc))).
    assert (alignof (typalign (rngelemtype tc)) <= 8) by (by destruct (typalign _)). lia. }
  unfold layout, upper_off. rewrite !length_app, length_replicate. cbn [length].
  pose proof (Hlen lval). pose proof (Hlen uval).
  destruct (RANGE_HAS_LBOUND flags), (RANGE_HAS_UBOUND flags); cbn [length]; try lia.
  - match goal with |- context [stored_off ?e ?d ?p] => pose proof (Hal d p) end. lia.
  - match goal with |- context [stored_off ?e ?d ?p] => pose proof (Hal d p) end. lia.
Qed.

(** A range over a by-value type is far below the allocation limit. *)
Lemma serialize_byval_total lo up empty :
  bound_ok tc lo -> bound_ok tc up -> range_cmp_bound_values tc lo up <= 0 ->
  exists r, range_serialize tc lo up empty = Ok r.
Proof.
  intros Hl Hu Ho. rewrite range_serialize_layout, serialize_flags_spec by (done || apply rs_elem).
  destruct (negb empty && _) eqn:Eb; [zbool; lia|]. cbn [mbind result_bind]. cbv zeta.
  unfold layout_range. cbn [rdata].
  destruct (_ >? MaxAllocSize) eqn:Esz; [|by eexists]. exfalso. zbool.
  match type of Esz with context [layout ?e ?f ?a ?b] => pose proof (layout_byval_length f a b) end.
  unfold MaxAllocSize, sizeof_RangeType in Esz. lia.
Qed.

(** On canonical bounds the canonical function has nothing to do. *)
Lemma canon_bounds_id lo up :
  canonical_bounds lo up -> canon_lower skip succ lo = Ok lo /\ canon_upper skip succ up = Ok up.
Proof.
  intros [Hl Hu]. unfold canon_lower, canon_upper. split.
  - destruct (infinite lo); [done|]. rewrite Hl by done. by rewrite andb_false_r.
  - destruct (infinite up); [done|]. rewrite Hu by done. by rewrite andb_false_r.
Qed.

Lemma canonical_norm lo up :
  canonical_bounds lo up -> canonical_bounds (norm_bound tc lo) (norm_bound tc up).
Proof.
  intros [Hl Hu]. split; cbn; intros Hi; rewrite Hi; cbn.
  - by rewrite (Hl Hi).
  - by rewrite (Hu Hi).
Qed.

Lemma norm_bound_idem b : bound_ok tc b -> norm_bound tc (norm_bound tc b) = norm_bound tc b.
Proof.
  intros Hb. unfold norm_bound. cbn. destruct (infinite b) eqn:Ei; [by rewrite !andb_false_r|].
  rewrite !andb_true_r. f_equal. rewrite !(detoast_byval tc skip succ).
  apply stored_datum_idem; [apply rs_elem|]. specialize (Hb Ei). by rewrite (detoast_byval tc skip succ) in Hb.
Qed.

Lemma serialize_canonical_form lo up r :
  bound_ok tc lo -> bound_ok tc up -> lower lo = true -> lower up = false ->
  canonical_bounds lo up -> range_serialize tc lo up false = Ok r -> canonical_form tc r.
Proof.
  intros Hl Hu El Eu Hc Hs.
  destruct (serialize_deserialize tc rs_elem lo up false r Hl Hu El Eu Hs) as (_ & _ & Hd).
  unfold canonical_form. rewrite Hd. destruct (makes_empty _ _ _ _); [done|]. intros _.
  by apply canonical_norm.
Qed.

(** The bounds that the canonical function computes are canonical, unless a
    value is exempt. *)
Lemma canon_bounds_canonical lo up lo' up' :
  (infinite lo = false -> skip (val lo) = false) -> (infinite up = false -> skip (val up) = false) ->
  canon_lower skip succ lo = Ok lo' -> canon_upper skip succ up = Ok up' -> canonical_bounds lo' up'.
Proof.
  intros Sl Su Cl Cu. unfold canon_lower in Cl. unfold canon_upper in Cu. split.
  - destruct (infinite lo) eqn:Ei; cbn in Cl; [injection Cl as <-; congruence|].
    rewrite (Sl eq_refl) in Cl. cbn in Cl. destruct (inclusive lo) eqn:Ec; cbn in Cl.
    + by injection Cl as <-.
    + apply bind_Ok in Cl as (w & _ & [= <-]). done.
  - destruct (infinite up) eqn:Ei; cbn in Cu; [injection Cu as <-; congruence|].
    rewrite (Su eq_refl) in Cu. cbn in Cu. destruct (inclusive up) eqn:Ec; cbn in Cu.
    + apply bind_Ok in Cu as (w & _ & [= <-]). done.
    + by injection Cu as <-.
Qed.

(** A value is below its successor, and a value below another one has its
    successor at most there. *)
Lemma succ_values v w x :
  skip v = false -> succ v = Ok w ->
  (rng_cmp_proc tc v x < 0 -> rng_cmp_proc tc w x <= 0) /\
  (rng_cmp_proc tc x v <= 0 -> rng_cmp_proc tc x w <= 0).
Proof.
  intros Hs Hv. destruct (succ_ok _ _ Hs Hv) as [_ Hn]. split; [apply Hn|].
  intros Hx. apply (cmp_trans x v w); [done|].
  assert (rng_cmp_proc tc v w < 0); [|lia]. apply Hn. rewrite cmp_refl by apply _. lia.
Qed.

(** Canonicalization keeps the bounds in order. *)
Lemma canon_order lo up lo' up' :
  lower lo = true -> lower up = false -> range_cmp_bounds tc lo up <= 0 ->
  canon_lower skip succ lo = Ok lo' -> canon_upper skip succ up = Ok up' ->
  range_cmp_bound_values tc lo' up' <= 0.
Proof.
  intros El Eu Ho. unfold canon_lower, canon_upper.
  destruct (_ && negb (inclusive lo)) eqn:E1, (_ && inclusive up) eqn:E2; zbool; rewrite ?bind_Ok.
  - intros (w & Hw & [= <-]) (x & Hx & [= <-]).
    unfold range_cmp_bounds, range_cmp_bound_values in *. cbn.
    repeat match goal with H : _ = true |- _ => rewrite H in * | H : _ = false |- _ => rewrite H in * end. cbn in *.
    destruct (Z.eqb_spec (rng_cmp_proc tc (val lo) (val up)) 0); [lia|].
    apply (succ_values (val up) x w); [done..|]. apply (succ_values (val lo) w (val up)); [done..|lia].
  - intros (w & Hw & [= <-]) [= <-].
    unfold range_cmp_bounds, range_cmp_bound_values in *. cbn.
    repeat match goal with H : _ = true |- _ => rewrite H in * | H : _ = false |- _ => rewrite H in * end. cbn in *.
    destruct (infinite up); [lia|].
    destruct (Z.eqb_spec (rng_cmp_proc tc (val lo) (val up)) 0); cbn in *;
      [destruct (negb (inclusive up)); lia|].
    apply (succ_values (val lo) w (val up)); [done..|lia].
  - intros [= <-] (x & Hx & [= <-]).
    unfold range_cmp_bounds, range_cmp_bound_values in *. cbn.
    repeat match goal with H : _ = true |- _ => rewrite H in * | H : _ = false |- _ => rewrite H in * end. cbn in *.
    destruct (infinite lo); [lia|].
    apply (succ_values (val up) x (val lo)); [done..|].
    destruct (Z.eqb_spec (rng_cmp_proc tc (val lo) (val up)) 0); cbn in *; lia.
  - intros [= <-] [= <-]. by apply bounds_values_le.
Qed.

(** The canonical function succeeds whenever the successors it needs exist. *)
Lemma discrete_canonical_total r lo up lo' up' :
  range_wf tc r -> range_deserialize tc r = (lo, up, false) ->
  canon_lower skip succ lo = Ok lo' -> canon_upper skip succ up = Ok up' ->
  exists r', discrete_canonical tc skip succ r = Ok r'.
Proof.
  intros Hwf Hd Cl Cu. destruct (wf_view tc r Hwf) as (l & u & e & Hd' & El & Eu & Hb).
  rewrite Hd in Hd'. injection Hd' as <- <- <-. destruct Hb as (Hl & Hu & Ho); [done|].
  unfold discrete_canonical. rewrite Hd, Cl, Cu. cbn [mbind result_bind].
  destruct (canon_lower_spec tc skip succ _ _ El Hl Cl) as (_ & Hl' & _).
  destruct (canon_upper_spec tc skip succ _ _ Eu Hu Cu) as (_ & Hu' & _).
  apply serialize_byval_total; [done..|]. by apply (canon_order lo up).
Qed.

(** The outcomes of a canonical function on a non-empty range. *)
Lemma discrete_canonical_cases r lo up :
  range_wf tc r -> range_deserialize tc r = (lo, up, false) ->
  match discrete_canonical tc skip succ r with
  | Ok r' => range_wf tc r' /\ (forall v, mem tc r' v <-> mem tc r v) /\
      ((infinite lo = false -> skip (val lo) = false) -> (infinite up = false -> skip (val up) = false) ->
       canonical_form tc r') /\
      is_Ok (canon_lower skip succ lo) /\ is_Ok (canon_upper skip succ up)
  | Err e => canon_lower skip succ lo = Err e \/
      (is_Ok (canon_lower skip succ lo) /\ canon_upper skip succ up = Err e)
  end.
Proof.
  intros Hwf Hd. destruct (wf_view tc r Hwf) as (l & u & e & Hd' & El & Eu & Hb).
  rewrite Hd in Hd'. injection Hd' as <- <- <-. destruct Hb as (Hl & Hu & Ho); [done|].
  destruct (canon_lower skip succ lo) as [lo'|e] eqn:Cl;
    [|unfold discrete_canonical; rewrite Hd, Cl; by left].
  destruct (canon_upper skip succ up) as [up'|e] eqn:Cu;
    [|unfold discrete_canonical; rewrite Hd, Cl, Cu; right; split; [by eexists|done]].
  destruct (discrete_canonical_total r lo up lo' up' Hwf Hd Cl Cu) as [r' Hr']. rewrite Hr'.
  destruct (deserialize_sides _ _ _ _ _ Hd) as (_ & _ & He).
  destruct (discrete_canonical_ok tc skip succ r r' Hwf (eq_sym He) Hr') as [Hwf' Hm].
  split_and!; [done|done| |by eexists|by eexists].
  intros Sl Su. unfold discrete_canonical in Hr'. rewrite Hd, Cl, Cu in Hr'. cbn [mbind result_bind] in Hr'.
  destruct (canon_lower_spec tc skip succ _ _ El Hl Cl) as (El' & Hl' & _).
  destruct (canon_upper_spec tc skip succ _ _ Eu Hu Cu) as (Eu' & Hu' & _).
  apply (serialize_canonical_form lo' up'); [done..| |done]. by apply (canon_bounds_canonical lo up).
Qed.

Context (canonical : RangeType -> result RangeType).
Hypothesis Hcanon : rng_canonical tc = Some canonical.
Hypothesis Hform : forall r, canonical r = discrete_canonical tc skip succ r.

(** [make_range] on canonical bounds in order always succeeds, and gives a
    canonical range. *)
Lemma make_canonical_total lo up :
  bound_ok tc lo -> bound_ok tc up -> lower lo = true -> lower up = false ->
  canonical_bounds lo up -> range_cmp_bound_values tc lo up <= 0 ->
  exists r, make_range tc lo up false = Ok r /\ canonical_form tc r.
Proof.
  intros Hl Hu El Eu Hc Ho. unfold make_range.
  destruct (serialize_byval_total lo up false Hl Hu Ho) as [r Hs]. rewrite Hs. cbn [mbind result_bind].
  pose proof (serialize_canonical_form _ _ _ Hl Hu El Eu Hc Hs) as Hcf.
  rewrite Hcanon. destruct (RangeIsEmpty r) eqn:Ee; cbn [negb]; [by exists r|].
  rewrite Hform. unfold discrete_canonical.
  destruct (serialize_deserialize tc rs_elem lo up false r Hl Hu El Eu Hs) as (_ & _ & Hd).
  pose proof (range_serialize_spec tc lo up false r Hl Hu El Eu Hs) as [[_ Hwf] _].
  rewrite Hd in *. destruct (makes_empty tc lo up false).
  { destruct (deserialize_sides _ _ _ _ _ Hd) as (_ & _ & He). by rewrite Ee in He. }
  destruct (Hwf eq_refl) as (Hl' & Hu' & Ho').
  destruct (canon_bounds_id _ _ (canonical_norm _ _ Hc)) as [-> ->]. cbn [mbind result_bind].
  destruct (serialize_byval_total (norm_bound tc lo) (norm_bound tc up) false Hl' Hu') as [r' Hs'].
  { by apply bounds_values_le. }
  exists r'. split; [done|]. apply (serialize_canonical_form _ _ _ Hl' Hu'); try done.
  by apply canonical_norm.
Qed.

(** Flipping the inner bounds of canonical ranges gives canonical bounds. *)
Lemma flip_canonical lo up lo2 up2 :
  canonical_bounds lo up -> canonical_bounds lo2 up2 ->
  canonical_bounds lo (flip_bound lo2) /\ canonical_bounds (flip_bound up) up2 /\
  canonical_bounds (flip_bound up) (flip_bound lo2).
Proof.
  intros [H1 H2] [H3 H4]. unfold canonical_bounds. cbn.
  split_and!; intros; rewrite ?H2, ?H3 by done; auto.
Qed.

Lemma empty_canonical : canonical_form tc (empty_range tc).
Proof. done. Qed.

Section Closed.
Variables (r1 r2 : RangeType).
Hypothesis Hr1 : range_wf tc r1.
Hypothesis Hr2 : range_wf tc r2.
Hypothesis Hc1 : canonical_form tc r1.
Hypothesis Hc2 : canonical_form tc r2.

Lemma intersect_closed :
  exists r, range_intersect_internal tc r1 r2 = Ok r /\ canonical_form tc r.
Proof.
  unfold range_intersect_internal. view2 r1 r2 Hr1 Hr2. unfold canonical_form in Hc1, Hc2.
  rewrite Hd1 in Hc1 |- *. rewrite Hd2 in Hc2 |- *.
  destruct empty1; [rewrite make_empty_range_eq; by eexists|].
  destruct empty2; [rewrite make_empty_range_eq; by eexists|].
  destruct Hw1 as (Hlok1 & Huok1 & Ho1), Hw2 as (Hlok2 & Huok2 & Ho2); [done..|]. cbn [orb].
  destruct (Hc1 eq_refl) as [C1 C2], (Hc2 eq_refl) as [C3 C4].
  destruct (overlaps_Ok tc r1 r2 Hr1 Hr2) as [b Hb].
  pose proof (overlaps_cmp tc r1 r2 _ _ _ _ b Hr1 Hr2 Hd1 Hd2 Hb) as Hov.
  rewrite Hb. cbn [mbind result_bind]. destruct b; cbn [negb]; [|rewrite make_empty_range_eq; by eexists].
  destruct Hov as [Hov _]. specialize (Hov eq_refl) as [Hx1 Hx2].
  destruct (range_cmp_bounds tc lower1 lower2 >=? 0), (range_cmp_bounds tc upper1 upper2 <=? 0);
    (apply make_canonical_total; [done..|by split|]; by apply bounds_values_le).
Qed.

Lemma bounds_adjacent_total A B lo up :
  bound_ok tc A -> bound_ok tc B -> lower A = false -> lower B = true ->
  canonical_bounds lo A -> canonical_bounds B up -> is_Ok (bounds_adjacent tc A B).
Proof.
  intros HA HB LA LB CA CB. unfold bounds_adjacent.
  destruct (range_cmp_bound_values tc A B <? 0) eqn:Elt; [|by destruct (_ =? 0); eexists]. zbool.
  rewrite Hcanon, (flip_upper_eq A LA), (flip_lower_eq B LB).
  destruct (make_canonical_total (flip_bound A) (flip_bound B)) as (r & -> & _); [done..| | | | |by eexists].
  - cbn. by rewrite LA.
  - cbn. by rewrite LB.
  - by destruct (flip_canonical lo A B up CA CB) as (_ & _ & ?).
  - unfold range_cmp_bound_values in *. cbn. rewrite LA, LB in *.
    destruct (infinite A), (infinite B); cbn in *; lia.
Qed.

Lemma union_closed :
  (exists r, range_union_internal tc r1 r2 true = Ok r /\ canonical_form tc r) \/
  range_union_internal tc r1 r2 true = Err (not_contiguous "union").
Proof.
  view2 r1 r2 Hr1 Hr2. unfold range_union_internal. pose proof Hc1 as C1. pose proof Hc2 as C2.
  unfold canonical_form in C1, C2. rewrite Ht. rewrite Hd1 in C1 |- *. rewrite Hd2 in C2 |- *.
  destruct empty1; [left; by exists r2|]. destruct empty2; [left; by exists r1|].
  destruct Hw1 as (Hlok1 & Huok1 & Ho1), Hw2 as (Hlok2 & Huok2 & Ho2); [done..|].
  specialize (C1 eq_refl). specialize (C2 eq_refl).
  destruct (overlaps_Ok tc r1 r2 Hr1 Hr2) as [b Hb]. rewrite Hb. cbn [mbind result_bind].
  assert (Hadj : is_Ok (range_adjacent_internal tc r1 r2)).
  { unfold range_adjacent_internal. rewrite Ht, Hd1, Hd2. cbn [orb].
    destruct (bounds_adjacent_total upper1 lower2 lower1 upper2) as [a ->]; [done..|].
    cbn [mbind result_bind]. destruct a; [by eexists|].
    by apply (bounds_adjacent_total upper2 lower1 lower2 upper1). }
  assert (Hres : exists r, make_range tc (if range_cmp_bounds tc lower1 lower2 <? 0 then lower1 else lower2)
    (if range_cmp_bounds tc upper1 upper2 >? 0 then upper1 else upper2) false = Ok r /\ canonical_form tc r).
  { destruct C1, C2.
    destruct (range_cmp_bounds tc lower1 lower2 <? 0) eqn:?, (range_cmp_bounds tc upper1 upper2 >? 0) eqn:?;
      zbool; (apply make_canonical_total; [done..|by split|]);
      (apply bounds_values_le; [done..|]); rank_lia tc [lower1; upper1; lower2; upper2]. }
  destruct b; [by left|]. destruct Hadj as [a ->]. cbn [mbind result_bind].
  destruct a; [by left|by right].
Qed.

Lemma minus_closed :
  (exists r, range_minus_internal tc r1 r2 = Ok r /\ canonical_form tc r) \/
  range_minus_internal tc r1 r2 = Err (not_contiguous "difference").
Proof.
  view2 r1 r2 Hr1 Hr2. unfold range_minus_internal. pose proof Hc1 as C1. pose proof Hc2 as C2.
  unfold canonical_form in C1, C2. rewrite Hd1 in C1 |- *. rewrite Hd2 in C2 |- *.
  destruct empty1; [left; by exists r1|]. destruct empty2; [left; by exists r1|]. cbn [orb].
  destruct Hw1 as (Hlok1 & Huok1 & Ho1), Hw2 as (Hlok2 & Huok2 & Ho2); [done..|].
  specialize (C1 eq_refl). specialize (C2 eq_refl).
  destruct (flip_canonical lower1 upper1 lower2 upper2 C1 C2) as (F1 & _ & _).
  destruct (flip_canonical lower2 upper2 lower1 upper1 C2 C1) as (_ & F2 & _).
  destruct (_ && _) eqn:E1; [by right|left]. apply andb_false_iff in E1.
  destruct (_ || _) eqn:E2; [by exists r1|]. zbool. destruct (_ && _) eqn:E3.
  { rewrite make_empty_range_eq. by eexists. }
  apply andb_false_iff in E3.
  match goal with |- context [if ?b then make_range _ _ _ _ else _] => destruct b eqn:E4 end; [zbool|].
  { assert (Hlt : range_cmp_bounds tc lower1 lower2 < 0) by (destruct E3; zbool; lia).
    pose proof (cmp_lower_finite tc _ _ Hl2 Hlt) as Hfin. rewrite (flip_lower_eq lower2 Hl2).
    apply make_canonical_total; [done..| |done|]; [cbn; by rewrite Hl2|].
    apply values_flip_upper; [done..|lia]. }
  match goal with |- context [if ?b then make_range _ _ _ _ else _] => destruct b eqn:E5 end; [zbool|].
  { assert (Hlt : 0 < range_cmp_bounds tc upper1 upper2) by (destruct E3; zbool; lia).
    pose proof (cmp_upper_finite tc _ _ Hu2 Hlt) as Hfin. rewrite (flip_upper_eq upper2 Hu2).
    apply make_canonical_total; [done..| |done|done|]; [cbn; by rewrite Hu2|].
    apply values_flip_lower; [done..|]. rank_lia tc [upper1; upper2]. }
  exfalso. apply andb_false_iff in E5 as [E5|?]; [|zbool; lia].
  apply andb_false_iff in E4 as [E4|?]; [apply andb_false_iff in E4 as [?|?]|].
  all: apply andb_false_iff in E5 as [?|?].
  all: destruct E1, E3; zbool; lia.
Qed.

End Closed.
End CanonicalForm.

(** ** Canonical int4 ranges with finite bounds are determined by their members *)

Definition finite_bounds (tc : TypeCacheEntry) (r : RangeType) : Prop :=
  let '(lo, up, empty) := range_deserialize tc r in
  empty = false -> infinite lo = false /\ infinite up = false.

Section Int4Ext.
Context `{Toast}.

Lemma int4_mem r lo up v :
  canonical_form int4range r -> finite_bounds int4range r ->
  range_deserialize int4range r = (lo, up, false) ->
  mem int4range r v <-> DatumGetInt32 (val lo) <= DatumGetInt32 v < DatumGetInt32 (val up).
Proof.
  intros Hc Hf Hd. unfold canonical_form, finite_bounds in *. rewrite Hd in Hc, Hf.
  destruct (Hf eq_refl) as [Fl Fu], (Hc eq_refl) as [Cl Cu].
  rewrite (mem_bounds _ _ _ _ _ Hd). unfold range_cmp_bounds. cbn [infinite pt].
  rewrite Fl, Fu, (Cl Fl), (Cu Fu). destruct (deserialize_sides _ _ _ _ _ Hd) as (-> & -> & _).
  cbn [andb negb inclusive pt val].
  pose proof (btint4cmp_spec (val lo) v) as E1. pose proof (btint4cmp_spec (val up) v) as E2.
  change (rng_cmp_proc int4range) with btint4cmp.
  destruct (Z.eqb_spec (btint4cmp (val lo) v) 0), (Z.eqb_spec (btint4cmp (val up) v) 0); lia.
Qed.

Lemma int4_nonempty r lo up :
  range_wf int4range r -> canonical_form int4range r -> finite_bounds int4range r ->
  range_deserialize int4range r = (lo, up, false) ->
  DatumGetInt32 (val lo) < DatumGetInt32 (val up).
Proof.
  intros [_ Hwf] Hc Hf Hd. unfold canonical_form, finite_bounds in *. rewrite Hd in Hwf, Hc, Hf.
  destruct (Hwf eq_refl) as (_ & _ & Ho), (Hf eq_refl) as [Fl Fu], (Hc eq_refl) as [Cl Cu].
  unfold range_cmp_bounds in Ho. rewrite Fl, Fu, (Cl Fl), (Cu Fu) in Ho.
  destruct (deserialize_sides _ _ _ _ _ Hd) as (Hl & Hu & _). rewrite Hu in Ho.
  cbn [andb negb] in Ho. pose proof (btint4cmp_spec (val lo) (val up)).
  change (rng_cmp_proc int4range) with btint4cmp in Ho.
  destruct (Z.eqb_spec (btint4cmp (val lo) (val up)) 0); lia.
Qed.

Lemma int4_bounds_eq b1 b2 :
  lower b1 = lower b2 -> infinite b1 = false -> infinite b2 = false -> inclusive b1 = inclusive b2 ->
  range_cmp_bounds int4range b1 b2 = 0 <-> DatumGetInt32 (val b1) = DatumGetInt32 (val b2).
Proof.
  intros El F1 F2 Ei. unfold range_cmp_bounds. rewrite F1, F2, El, Ei. cbn [andb].
  pose proof (btint4cmp_spec (val b1) (val b2)).
  change (rng_cmp_proc int4range) with btint4cmp.
  destruct (Z.eqb_spec (btint4cmp (val b1) (val b2)) 0), (inclusive b2), (lower b2); cbn; lia.
Qed.

Lemma int4_eq_ext r1 r2 :
  range_wf int4range r1 -> range_wf int4range r2 ->
  canonical_form int4range r1 -> canonical_form int4range r2 ->
  finite_bounds int4range r1 -> finite_bounds int4range r2 ->
  exists b, range_eq_internal int4range r1 r2 = Ok b /\
    (b = true <-> forall v, mem int4range r1 v <-> mem int4range r2 v).
Proof.
  intros Hr1 Hr2 C1 C2 F1 F2. start_op range_eq_internal r1 r2 Hr1 Hr2.
  destruct empty1, empty2; cbn [andb Bool.eqb negb].
  - exists true. split; [done|]. split; [|done]. intros _ v.
    split; intros Hm; [destruct (mem_empty _ _ _ _ _ Hd1 Hm)|destruct (mem_empty _ _ _ _ _ Hd2 Hm)].
  - exists false. split; [done|]. split; [done|]. intros Hall. exfalso.
    apply (mem_empty _ _ _ _ (val lower2) Hd1), Hall, (int4_mem _ _ _ _ C2 F2 Hd2).
    pose proof (int4_nonempty _ _ _ Hr2 C2 F2 Hd2). lia.
  - exists false. split; [done|]. split; [done|]. intros Hall. exfalso.
    apply (mem_empty _ _ _ _ (val lower1) Hd2), Hall, (int4_mem _ _ _ _ C1 F1 Hd1).
    pose proof (int4_nonempty _ _ _ Hr1 C1 F1 Hd1). lia.
  - pose proof (int4_nonempty _ _ _ Hr1 C1 F1 Hd1) as N1. pose proof (int4_nonempty _ _ _ Hr2 C2 F2 Hd2) as N2.
    pose proof (fun v => int4_mem _ _ _ v C1 F1 Hd1) as M1. pose proof (fun v => int4_mem _ _ _ v C2 F2 Hd2) as M2.
    unfold canonical_form, finite_bounds in C1, C2, F1, F2. rewrite Hd1 in C1, F1. rewrite Hd2 in C2, F2.
    destruct (F1 eq_refl) as [Fl1 Fu1], (F2 eq_refl) as [Fl2 Fu2], (C1 eq_refl) as [Cl1 Cu1], (C2 eq_refl) as [Cl2 Cu2].
    pose proof (int4_bounds_eq lower1 lower2 ltac:(congruence) Fl1 Fl2 ltac:(rewrite Cl1, Cl2; done)) as Bl.
    pose proof (int4_bounds_eq upper1 upper2 ltac:(congruence) Fu1 Fu2 ltac:(rewrite Cu1, Cu2; done)) as Bu.
    set (ok := (range_cmp_bounds int4range lower1 lower2 =? 0) && (range_cmp_bounds int4range upper1 upper2 =? 0)).
    exists ok. split; [subst ok; by destruct (_ =? 0), (_ =? 0)|].
    subst ok. rewrite andb_true_iff, !Z.eqb_eq, Bl, Bu. setoid_rewrite M1. setoid_rewrite M2.
    split; [intros [-> ->]; done|]. intros Hall.
    assert (Hall' : forall x, in_sint 32 x -> DatumGetInt32 (val lower1) <= x < DatumGetInt32 (val upper1) <->
      DatumGetInt32 (val lower2) <= x < DatumGetInt32 (val upper2)).
    { intros x Hx. specialize (Hall (Int32GetDatum x)). by rewrite get_int32_wrap in Hall. }
    pose proof (get_int32_range (val lower1)) as R1. pose proof (get_int32_range (val upper1)) as R2.
    pose proof (get_int32_range (val lower2)) as R3. pose proof (get_int32_range (val upper2)) as R4.
    pose proof (Hall' _ R1). pose proof (Hall' _ R3).
    pose proof (Hall' (DatumGetInt32 (val upper1) - 1) ltac:(unfold in_sint in *; lia)).
    pose proof (Hall' (DatumGetInt32 (val upper2) - 1) ltac:(unfold in_sint in *; lia)). lia.
Qed.

End Int4Ext.
