(* ===== verification/RangeTheorems.v ===== *)
(** * Properties of the range functions

    The correctness theorems of rangetypes.c: the order of bounds, the storage
    format, the boolean operators, the set operators and the canonical
    functions, each with an instance on concrete int4range values. *)

From S2P Require Import Prelude Floats Varlena RangeTypes RangeOrder RangeOps Hashfn RangeCanon.

(** ** Concrete ranges for the instances *)

(** A TOAST access method; values of int4 are never toasted. *)
Definition plain_toast : Toast := {| detoast_attr := fun p => p |}.

#[local] Existing Instance plain_toast.

Definition int4_lower (v : Z) : RangeBound := mkBound (Int32GetDatum v) false true true.
Definition int4_upper (v : Z) : RangeBound := mkBound (Int32GetDatum v) false false false.

Lemma int4_bound_ok tc v i l :
  typbyval (rngelemtype tc) = true -> typlen (rngelemtype tc) = 4 ->
  bound_ok tc (mkBound (Int32GetDatum v) false i l).
Proof.
  intros Hbv Hl _. unfold detoast_bound. rewrite Hl. cbn. by apply datum_ok_word.
Qed.

Lemma int4_make_wf a b r :
  make_range int4range (int4_lower a) (int4_upper b) false = Ok r -> range_wf int4range r.
Proof.
  intros Hm. apply (make_range_spec int4range (int4_lower a) (int4_upper b) false r); try done.
  - by apply int4_bound_ok.
  - by apply int4_bound_ok.
Qed.

(** [[a,b)] as it is stored. *)
Definition int4_stored_range (a b : Z) : RangeType :=
  mkRange (SET_VARSIZE 17) INT4RANGEOID (le_bytes 4 a ++ le_bytes 4 b ++ [RANGE_LB_INC]).

(** [[1,10)], [[5,20)] and [[3,4)]. *)
Definition r_1_10 : RangeType := int4_stored_range 1 10.
Definition r_5_20 : RangeType := int4_stored_range 5 20.
Definition r_3_4 : RangeType := int4_stored_range 3 4.

Definition r_4_6 : RangeType := int4_stored_range 4 6.

Lemma r_1_10_wf : range_wf int4range r_1_10.
Proof. by apply (int4_make_wf 1 10); vm_compute. Qed.

Lemma r_5_20_wf : range_wf int4range r_5_20.
Proof. by apply (int4_make_wf 5 20); vm_compute. Qed.

Lemma r_3_4_wf : range_wf int4range r_3_4.
Proof. by apply (int4_make_wf 3 4); vm_compute. Qed.

Lemma r_4_6_wf : range_wf int4range r_4_6.
Proof. by apply (int4_make_wf 4 6); vm_compute. Qed.

(** ** The order of bounds *)

(** C1: [range_cmp_bounds] compares two bounds as the points they stand for
    on the line extended with -infinity, +infinity and a point just before
    and just after every value; it is antisymmetric and transitive whenever
    the element type's comparison function is, so it totally orders bounds. *)
Theorem range_cmp_bounds_order (tc : TypeCacheEntry) (Hc : CmpOrder (rng_cmp_proc tc)) :
  (forall b1 b2, Z.sgn (range_cmp_bounds tc b1 b2) =
     Z.sgn (ext_cmp (rng_cmp_proc tc) (point_of b1) (point_of b2))) /\
  (forall b1 b2, Z.sgn (range_cmp_bounds tc b2 b1) = - Z.sgn (range_cmp_bounds tc b1 b2)) /\
  (forall b1 b2 b3, range_cmp_bounds tc b1 b2 <= 0 -> range_cmp_bounds tc b2 b3 <= 0 ->
     range_cmp_bounds tc b1 b3 <= 0).
Proof.
  split_and!; [apply range_cmp_bounds_sgn|apply (bounds_antisym tc)|apply (bounds_trans tc)].
Qed.

Lemma range_cmp_bounds_order_witness :
  range_cmp_bounds int4range (int4_upper 4) (int4_lower 4) < 0 /\
  Z.sgn (range_cmp_bounds int4range (int4_lower 4) (int4_upper 4)) =
  - Z.sgn (range_cmp_bounds int4range (int4_upper 4) (int4_lower 4)).
Proof.
  split; [vm_compute; reflexivity|].
  apply (range_cmp_bounds_order int4range (rs_order (tc := int4range))).
Defined.

(** ** Storage *)

(** C2: [range_deserialize] undoes [range_serialize]: it gives back the same
    bounds, with values in their stored form, infinite bounds exclusive; and
    bounds of which one is exclusive and whose values are equal, or an empty
    flag, give the empty range.  The object carries the range type's OID. *)
Theorem serialize_roundtrip `{Toast} (tc : TypeCacheEntry) (Hs : RangeSubtype tc) lo up empty r :
  bound_ok tc lo -> bound_ok tc up -> lower lo = true -> lower up = false ->
  range_serialize tc lo up empty = Ok r ->
  rangetypid r = type_id tc /\
  range_get_flags r = (if makes_empty tc lo up empty then RANGE_EMPTY else bound_flags lo up) /\
  range_deserialize tc r =
  (if makes_empty tc lo up empty then (empty_bound true, empty_bound false, true)
   else (norm_bound tc lo, norm_bound tc up, false)).
Proof. intros. by apply serialize_deserialize; [apply rs_elem|..]. Qed.

Lemma serialize_roundtrip_witness :
  range_deserialize int4range r_1_10 = (int4_lower 1, int4_upper 10, false).
Proof.
  refine (proj2 (proj2 (serialize_roundtrip int4range _ (int4_lower 1) (int4_upper 10) false r_1_10
    _ _ _ _ _))).
  - by apply int4_bound_ok.
  - by apply int4_bound_ok.
  - reflexivity.
  - reflexivity.
  - vm_compute. reflexivity.
Defined.

(** C3: [range_serialize] on legal bounds never stores outside the object it
    allocates, and has exactly three outcomes: the error for a lower bound above
    the upper bound, when the range is not flagged empty and that is so; the
    allocation error, when the bounds are in order and the object, whose size
    is the header, the OID, the stored bounds with the padding between them and
    the byte of flags, exceeds [MaxAllocSize]; and otherwise an object of
    exactly that size. *)
Theorem serialize_errors `{Toast} (tc : TypeCacheEntry) (Hs : RangeSubtype tc) lo up empty :
  bound_ok tc lo -> bound_ok tc up ->
  let disorder := empty = false /\ 0 < range_cmp_bound_values tc lo up in
  let size := serialized_size tc lo up empty in
  (disorder <-> range_serialize tc lo up empty =
   Err (mkError ERRCODE_DATA_EXCEPTION "range lower bound must be less than or equal to range upper bound")) /\
  (~ disorder /\ MaxAllocSize < size <-> range_serialize tc lo up empty =
   Err (mkError ERRCODE_INTERNAL_ERROR "invalid memory alloc request size")) /\
  (~ disorder /\ size <= MaxAllocSize <-> exists r, range_serialize tc lo up empty = Ok r /\
   vl_len_ r = SET_VARSIZE size /\ 8 + Z.of_nat (length (rdata r)) = size).
Proof.
  intros Hl Hu disorder size. pose proof (serialize_outcome tc rs_elem lo up empty Hl Hu) as Ho.
  assert (Hd : negb empty && (range_cmp_bound_values tc lo up >? 0) = true <-> disorder).
  { unfold disorder. rewrite andb_true_iff, negb_true_iff, Z.gtb_lt. done. }
  fold size in Ho. destruct (negb empty && _).
  - assert disorder by tauto. rewrite Ho.
    split; [done|]. split; (split; [tauto|]); [done|by intros (? & [=] & _)].
  - assert (~ disorder) by (intros ?; discriminate (proj2 Hd ltac:(assumption))).
    destruct (Z.gtb_spec size MaxAllocSize).
    + rewrite Ho. split; [by split; [tauto|]|]. split; [done|]. split; [lia|]. by intros (? & [=] & _).
    + destruct Ho as (r & -> & Hr). split; [by split; [tauto|]|]. split; [by split; [lia|]|].
      split; [|done]. intros _. by exists r.
Qed.

(** [[7,3)] is out of order; [[1,10)] takes 17 bytes. *)
Lemma serialize_errors_witness :
  range_serialize int4range (int4_lower 7) (int4_upper 3) false =
  Err (mkError ERRCODE_DATA_EXCEPTION "range lower bound must be less than or equal to range upper bound") /\
  exists r, range_serialize int4range (int4_lower 1) (int4_upper 10) false = Ok r /\
    vl_len_ r = SET_VARSIZE 17 /\ 8 + Z.of_nat (length (rdata r)) = 17.
Proof.
  split.
  - apply (serialize_errors int4range _ (int4_lower 7) (int4_upper 3) false).
    + by apply int4_bound_ok.
    + by apply int4_bound_ok.
    + split; [reflexivity|vm_compute; reflexivity].
  - apply (serialize_errors int4range _ (int4_lower 1) (int4_upper 10) false).
    + by apply int4_bound_ok.
    + by apply int4_bound_ok.
    + split; [intros [_ H]; vm_compute in H; discriminate H|vm_compute; discriminate].
Defined.

(** C4: [make_range], canonicalization included, gives a well-formed range
    whose members are the values between the two bounds, and none when the
    range is flagged empty. *)
Theorem make_range_members `{Toast} (tc : TypeCacheEntry) (Hs : RangeSubtype tc)
    (Hc : RangeCanonical tc) lo up empty r :
  bound_ok tc lo -> bound_ok tc up -> lower lo = true -> lower up = false ->
  make_range tc lo up empty = Ok r ->
  range_wf tc r /\ forall v, mem tc r v <-> empty = false /\ between tc lo up v.
Proof. by apply make_range_spec. Qed.

(** [(0,9]] is canonicalized to [[1,10)]. *)
Lemma make_range_members_witness :
  range_wf int4range r_1_10 /\
  forall v, mem int4range r_1_10 v <-> false = false /\
    between int4range (mkBound (Int32GetDatum 0) false false true) (mkBound (Int32GetDatum 9) false true false) v.
Proof.
  apply (make_range_members int4range _ int4range_ok).
  - by apply int4_bound_ok.
  - by apply int4_bound_ok.
  - reflexivity.
  - reflexivity.
  - vm_compute. reflexivity.
Defined.

(** ** Boolean operators *)

(** C5: [r1 @> r2] holds exactly when every point of [r2] is a point of
    [r1]. *)
Theorem contains_correct `{Toast} (tc : TypeCacheEntry) (Hs : RangeSubtype tc) r1 r2 :
  range_wf tc r1 -> range_wf tc r2 ->
  exists b, range_contains_internal tc r1 r2 = Ok b /\
    (b = true <-> forall p, pts tc r2 p -> pts tc r1 p).
Proof. intros. by apply contains_pts. Qed.

Lemma contains_correct_witness :
  exists b, range_contains_internal int4range r_1_10 r_3_4 = Ok b /\
    (b = true <-> forall p, pts int4range r_3_4 p -> pts int4range r_1_10 p).
Proof. exact (contains_correct int4range _ r_1_10 r_3_4 r_1_10_wf r_3_4_wf). Defined.

(** C6: [r1 && r2] holds exactly when the ranges have a common point. *)
Theorem overlaps_correct `{Toast} (tc : TypeCacheEntry) (Hs : RangeSubtype tc) r1 r2 :
  range_wf tc r1 -> range_wf tc r2 ->
  exists b, range_overlaps_internal tc r1 r2 = Ok b /\
    (b = true <-> exists p, pts tc r1 p /\ pts tc r2 p).
Proof. intros. by apply overlaps_pts. Qed.

Lemma overlaps_correct_witness :
  exists b, range_overlaps_internal int4range r_1_10 r_5_20 = Ok b /\
    (b = true <-> exists p, pts int4range r_1_10 p /\ pts int4range r_5_20 p).
Proof. exact (overlaps_correct int4range _ r_1_10 r_5_20 r_1_10_wf r_5_20_wf). Defined.

(** [r1 << r2] holds exactly when both ranges have points and every point
    of [r1] is below every point of [r2]; [r1 >> r2] is [r2 << r1]. *)
Theorem before_after_correct `{Toast} (tc : TypeCacheEntry) (Hs : RangeSubtype tc) r1 r2 :
  range_wf tc r1 -> range_wf tc r2 ->
  (exists b, range_before_internal tc r1 r2 = Ok b /\
    (b = true <-> (exists p, pts tc r1 p) /\ (exists p, pts tc r2 p) /\
       forall p q, pts tc r1 p -> pts tc r2 q -> ext_cmp (rng_cmp_proc tc) p q < 0)) /\
  range_after_internal tc r1 r2 = range_before_internal tc r2 r1.
Proof. intros H1 H2. split; [by apply before_pts|by apply after_before]. Qed.

Lemma before_after_correct_witness :
  range_before_internal int4range r_3_4 r_5_20 = Ok true /\
  range_after_internal int4range r_5_20 r_3_4 = Ok true.
Proof.
  split; [vm_compute; reflexivity|].
  rewrite (proj2 (before_after_correct int4range _ r_5_20 r_3_4 r_5_20_wf r_3_4_wf)).
  vm_compute. reflexivity.
Defined.

(** [r1 &< r2] holds exactly when [r1] has a point and some point of [r2]
    is at or above every point of [r1]; [r1 &> r2] is the mirror image. *)
Theorem overleft_overright_correct `{Toast} (tc : TypeCacheEntry) (Hs : RangeSubtype tc) r1 r2 :
  range_wf tc r1 -> range_wf tc r2 ->
  (exists b, range_overleft_internal tc r1 r2 = Ok b /\
    (b = true <-> (exists p, pts tc r1 p) /\
       (exists q, pts tc r2 q /\ forall p, pts tc r1 p -> ext_cmp (rng_cmp_proc tc) p q <= 0))) /\
  (exists b, range_overright_internal tc r1 r2 = Ok b /\
    (b = true <-> (exists p, pts tc r1 p) /\
       (exists q, pts tc r2 q /\ forall p, pts tc r1 p -> ext_cmp (rng_cmp_proc tc) q p <= 0))).
Proof. intros H1 H2. split; [by apply overleft_pts|by apply overright_pts]. Qed.

Lemma overleft_overright_correct_witness :
  exists b, range_overleft_internal int4range r_1_10 r_5_20 = Ok b /\
    (b = true <-> (exists p, pts int4range r_1_10 p) /\
       (exists q, pts int4range r_5_20 q /\
          forall p, pts int4range r_1_10 p -> ext_cmp (rng_cmp_proc int4range) p q <= 0)).
Proof.
  exact (proj1 (overleft_overright_correct int4range _ r_1_10 r_5_20 r_1_10_wf r_5_20_wf)).
Defined.

(** C7: [range_cmp] is a total order up to [=] on well-formed ranges: it is
    antisymmetric and transitive, and it is zero exactly when [range_eq] holds,
    that is when the ranges have the same points. *)
Theorem range_cmp_order `{Toast} (tc : TypeCacheEntry) (Hs : RangeSubtype tc) r1 r2 r3 :
  range_wf tc r1 -> range_wf tc r2 -> range_wf tc r3 ->
  range_eq_internal tc r1 r2 = Ok (range_cmp_internal tc r1 r2 =? 0) /\
  (range_cmp_internal tc r1 r2 = 0 <-> forall p, pts tc r1 p <-> pts tc r2 p) /\
  Z.sgn (range_cmp_internal tc r2 r1) = - Z.sgn (range_cmp_internal tc r1 r2) /\
  (range_cmp_internal tc r1 r2 <= 0 -> range_cmp_internal tc r2 r3 <= 0 ->
   range_cmp_internal tc r1 r3 <= 0).
Proof.
  intros H1 H2 H3. pose proof (cmp_eq_agree tc r1 r2 H1 H2) as He.
  destruct (eq_pts tc r1 r2 H1 H2) as (b & Hb & Hiff). rewrite He in Hb. injection Hb as <-.
  rewrite Z.eqb_eq in Hiff.
  split_and!; [done|done|apply (range_cmp_antisym tc)|apply (range_cmp_trans tc)].
Qed.

Lemma range_cmp_order_witness :
  range_eq_internal int4range r_1_10 r_5_20 = Ok false /\
  Z.sgn (range_cmp_internal int4range r_5_20 r_1_10) = - Z.sgn (range_cmp_internal int4range r_1_10 r_5_20).
Proof.
  split; [vm_compute; reflexivity|].
  apply (range_cmp_order int4range _ r_1_10 r_5_20 r_3_4 r_1_10_wf r_5_20_wf r_3_4_wf).
Defined.

(** ** Set operators *)

(** C8: [r1 * r2] is a well-formed range whose members are the common
    members; it fails only if [make_range] fails on the resulting bounds. *)
Theorem intersect_correct `{Toast} (tc : TypeCacheEntry) (Hs : RangeSubtype tc) (Hc : RangeCanonical tc) r1 r2 :
  range_wf tc r1 -> range_wf tc r2 ->
  computes tc (range_intersect_internal tc r1 r2) (fun v => mem tc r1 v /\ mem tc r2 v).
Proof. apply (intersect_computes tc). Qed.

Lemma intersect_correct_witness :
  range_intersect_internal int4range r_1_10 r_5_20 = Ok (int4_stored_range 5 10) /\
  computes int4range (range_intersect_internal int4range r_1_10 r_5_20)
    (fun v => mem int4range r_1_10 v /\ mem int4range r_5_20 v).
Proof.
  split; [vm_compute; reflexivity|].
  exact (intersect_correct int4range _ _ r_1_10 r_5_20 r_1_10_wf r_5_20_wf).
Defined.

(** C9: [r1 + r2] fails with the error that the result would not be
    contiguous exactly when the ranges are apart: neither is empty, they share
    no point, and between the upper bound of one and the lower bound of the
    other lies a value both leave out, or there are values between them (in a
    type with a canonical function, a range of values that is not
    canonicalized to the empty range).  Otherwise it is a well-formed range
    whose members are the members of either range.  In a discrete type the
    error says what it means: some value between members of the two ranges is
    in neither. *)
Theorem union_correct `{Toast} (tc : TypeCacheEntry) (Hs : RangeSubtype tc) (Hc : RangeCanonical tc) r1 r2 :
  range_wf tc r1 -> range_wf tc r2 ->
  ((apart tc r1 r2 /\ range_union_internal tc r1 r2 true = Err (not_contiguous "union")) \/
   (~ apart tc r1 r2 /\
    computes tc (range_union_internal tc r1 r2 true) (fun v => mem tc r1 v \/ mem tc r2 v))) /\
  (TightBounds tc -> rng_canonical tc <> None -> apart tc r1 r2 ->
   exists v, hull tc r1 r2 v /\ ~ mem tc r1 v /\ ~ mem tc r2 v).
Proof. intros H1 H2. split; [by apply (union_strict tc)|]. intros. by apply (apart_value tc). Qed.

Lemma apart_3_5 : apart int4range r_3_4 r_5_20.
Proof.
  assert (E1 : range_deserialize int4range r_3_4 = (int4_lower 3, int4_upper 4, false)) by (vm_compute; reflexivity).
  assert (E2 : range_deserialize int4range r_5_20 = (int4_lower 5, int4_upper 20, false)) by (vm_compute; reflexivity).
  unfold apart. rewrite E1, E2. split; [reflexivity|]. split; [reflexivity|]. left. right.
  split; [vm_compute; reflexivity|]. right. exists (int4_stored_range 4 5). split; vm_compute; reflexivity.
Qed.

(** Ranges that touch are joined in both orders, [[3,4)] with [[4,6)]; [[3,4)]
    and [[5,20)] are apart. *)
Lemma union_correct_witness :
  range_union_internal int4range r_3_4 r_4_6 true = Ok (int4_stored_range 3 6) /\
  range_union_internal int4range r_4_6 r_3_4 true = Ok (int4_stored_range 3 6) /\
  range_union_internal int4range r_3_4 r_5_20 true = Err (not_contiguous "union") /\
  ~ apart int4range r_4_6 r_3_4 /\
  computes int4range (range_union_internal int4range r_4_6 r_3_4 true)
    (fun v => mem int4range r_4_6 v \/ mem int4range r_3_4 v).
Proof.
  split; [vm_compute; reflexivity|]. split; [vm_compute; reflexivity|]. split.
  - destruct (union_correct int4range _ _ r_3_4 r_5_20 r_3_4_wf r_5_20_wf) as [[[_ He]|[Hn _]] _]; [exact He|].
    destruct (Hn apart_3_5).
  - destruct (union_correct int4range _ _ r_4_6 r_3_4 r_4_6_wf r_3_4_wf) as [[[_ E]|Hn] _]; [|exact Hn].
    exfalso. vm_compute in E. discriminate E.
Defined.

(** [range_merge] is a well-formed range whose members are the values
    that lie between two points of the ranges (their convex hull). *)
Theorem merge_correct `{Toast} (tc : TypeCacheEntry) (Hs : RangeSubtype tc) (Hc : RangeCanonical tc) r1 r2 :
  range_wf tc r1 -> range_wf tc r2 ->
  computes tc (range_union_internal tc r1 r2 false) (hull tc r1 r2).
Proof. apply (merge_computes tc). Qed.

Lemma merge_correct_witness :
  range_union_internal int4range r_3_4 r_5_20 false = Ok (int4_stored_range 3 20) /\
  computes int4range (range_union_internal int4range r_3_4 r_5_20 false) (hull int4range r_3_4 r_5_20).
Proof.
  split; [vm_compute; reflexivity|].
  exact (merge_correct int4range _ _ r_3_4 r_5_20 r_3_4_wf r_5_20_wf).
Defined.

(** C10: [r1 - r2] is a well-formed range whose members are the members of
    [r1] that are not in [r2], unless [r2] lies strictly inside [r1], in which
    case the error says the result would not be contiguous; the internal error
    for an unexpected case is never raised. *)
Theorem minus_correct `{Toast} (tc : TypeCacheEntry) (Hs : RangeSubtype tc) (Hc : RangeCanonical tc) r1 r2 :
  range_wf tc r1 -> range_wf tc r2 ->
  computes tc (range_minus_internal tc r1 r2) (fun v => mem tc r1 v /\ ~ mem tc r2 v) \/
  (range_minus_internal tc r1 r2 = Err (not_contiguous "difference") /\
   let '(l1, u1, e1) := range_deserialize tc r1 in
   let '(l2, u2, e2) := range_deserialize tc r2 in
   e1 = false /\ e2 = false /\ range_cmp_bounds tc l1 l2 < 0 /\ range_cmp_bounds tc u2 u1 < 0).
Proof. apply (minus_spec tc). Qed.

Lemma minus_correct_witness :
  range_minus_internal int4range r_1_10 r_5_20 = Ok (int4_stored_range 1 5) /\
  computes int4range (range_minus_internal int4range r_1_10 r_5_20)
    (fun v => mem int4range r_1_10 v /\ ~ mem int4range r_5_20 v).
Proof.
  split; [vm_compute; reflexivity|].
  destruct (minus_correct int4range _ _ r_1_10 r_5_20 r_1_10_wf r_5_20_wf) as [Hc|[Hc _]]; [exact Hc|].
  exfalso. vm_compute in Hc. discriminate Hc.
Defined.

(** ** Canonical functions *)

(** The bound that makes [int4range_canonical] overflow. *)
Definition int4_overflow (lo up : RangeBound) : Prop :=
  (infinite lo = false /\ inclusive lo = false /\ DatumGetInt32 (val lo) = PG_INT32_MAX) \/
  (infinite up = false /\ inclusive up = true /\ DatumGetInt32 (val up) = PG_INT32_MAX).

Lemma canon_lower_int4 lo :
  match canon_lower no_skip int4_succ lo with
  | Ok _ => ~ (infinite lo = false /\ inclusive lo = false /\ DatumGetInt32 (val lo) = PG_INT32_MAX)
  | Err e => e = mkError ERRCODE_NUMERIC_VALUE_OUT_OF_RANGE "integer out of range" /\
      (infinite lo = false /\ inclusive lo = false /\ DatumGetInt32 (val lo) = PG_INT32_MAX)
  end.
Proof.
  unfold canon_lower, no_skip. destruct (infinite lo), (inclusive lo); cbn [negb andb]; try naive_solver.
  rewrite int4_succ_spec. destruct (_ =? _) eqn:E; zbool; naive_solver.
Qed.

Lemma canon_upper_int4 up :
  match canon_upper no_skip int4_succ up with
  | Ok _ => ~ (infinite up = false /\ inclusive up = true /\ DatumGetInt32 (val up) = PG_INT32_MAX)
  | Err e => e = mkError ERRCODE_NUMERIC_VALUE_OUT_OF_RANGE "integer out of range" /\
      (infinite up = false /\ inclusive up = true /\ DatumGetInt32 (val up) = PG_INT32_MAX)
  end.
Proof.
  unfold canon_upper, no_skip. destruct (infinite up), (inclusive up); cbn [negb andb]; try naive_solver.
  rewrite int4_succ_spec. destruct (_ =? _) eqn:E; zbool; naive_solver.
Qed.

(** C34: [int4range_canonical] on a non-empty range gives a well-formed range
    with the same members whose lower bound is inclusive and upper bound
    exclusive; it raises "integer out of range" exactly when an exclusive lower
    or inclusive upper bound is the largest int4. *)
Theorem int4_canonical_correct `{Toast} r lo up :
  range_wf int4range r -> range_deserialize int4range r = (lo, up, false) ->
  match int4range_canonical int4range r with
  | Ok r' => range_wf int4range r' /\ canonical_form int4range r' /\
      (forall v, mem int4range r' v <-> mem int4range r v) /\ ~ int4_overflow lo up
  | Err e => e = mkError ERRCODE_NUMERIC_VALUE_OUT_OF_RANGE "integer out of range" /\ int4_overflow lo up
  end.
Proof.
  intros Hwf Hd. rewrite int4_canonical_form.
  pose proof (discrete_canonical_cases int4range no_skip int4_succ r lo up Hwf Hd) as Hc.
  pose proof (canon_lower_int4 lo) as Ll. pose proof (canon_upper_int4 up) as Lu. unfold int4_overflow.
  destruct (discrete_canonical int4range no_skip int4_succ r) as [r'|e].
  - destruct Hc as (? & ? & Hcf & [? El] & [? Eu]). rewrite El in Ll. rewrite Eu in Lu.
    split_and!; [done|by apply Hcf|done|tauto].
  - destruct Hc as [E|[_ E]]; rewrite E in *; tauto.
Qed.

(** [(0,9]] *)
Definition r_0_9 : RangeType :=
  mkRange (SET_VARSIZE 17) INT4RANGEOID (le_bytes 4 0 ++ le_bytes 4 9 ++ [RANGE_UB_INC]).

Lemma r_0_9_wf : range_wf int4range r_0_9.
Proof.
  apply (range_serialize_spec int4range (mkBound (Int32GetDatum 0) false false true)
    (mkBound (Int32GetDatum 9) false true false) false r_0_9); try done.
  - by apply int4_bound_ok.
  - by apply int4_bound_ok.
Qed.

Lemma int4_canonical_correct_witness :
  int4range_canonical int4range r_0_9 = Ok r_1_10 /\ canonical_form int4range r_1_10.
Proof.
  split; [vm_compute; reflexivity|].
  pose proof (int4_canonical_correct r_0_9 _ _ r_0_9_wf eq_refl) as Hc.
  change (int4range_canonical int4range r_0_9) with (Ok r_1_10) in Hc. apply Hc.
Defined.

(** [daterange_canonical] keeps the members of a non-empty range; it fails
    only with "date out of range", when the successor of a finite date it has
    to step over is not a valid date; the dates -infinity and infinity are
    never stepped over. *)
Theorem date_canonical_correct `{Toast} r lo up :
  range_wf daterange r -> range_deserialize daterange r = (lo, up, false) ->
  match daterange_canonical daterange r with
  | Ok r' => range_wf daterange r' /\ (forall v, mem daterange r' v <-> mem daterange r v)
  | Err e => e = mkError ERRCODE_DATETIME_VALUE_OUT_OF_RANGE "date out of range" /\
      ((inclusive lo = false /\ DATE_NOT_FINITE (DatumGetDateADT (val lo)) = false /\
        IS_VALID_DATE (DatumGetDateADT (val lo) + 1) = false) \/
       (inclusive up = true /\ DATE_NOT_FINITE (DatumGetDateADT (val up)) = false /\
        IS_VALID_DATE (DatumGetDateADT (val up) + 1) = false))
  end.
Proof.
  intros Hwf Hd. rewrite date_canonical_form.
  pose proof (discrete_canonical_cases daterange date_skip date_succ r lo up Hwf Hd) as Hc.
  assert (Hs : forall v e, date_skip v = false -> date_succ v = Err e ->
    e = mkError ERRCODE_DATETIME_VALUE_OUT_OF_RANGE "date out of range" /\
    DATE_NOT_FINITE (DatumGetDateADT v) = false /\ IS_VALID_DATE (DatumGetDateADT v + 1) = false).
  { intros v e Hk. rewrite date_succ_spec by done.
    destruct (IS_VALID_DATE (DatumGetInt32 v + 1)) eqn:E; [done|]. by intros [= <-]. }
  destruct (discrete_canonical daterange date_skip date_succ r) as [r'|e]; [tauto|].
  unfold canon_lower, canon_upper in Hc. destruct Hc as [E|[_ E]].
  - destruct (_ && negb (inclusive lo)) eqn:Ec; [|done]. zbool.
    destruct (date_succ (val lo)) as [w|e'] eqn:Es; [done|]. injection E as ->.
    destruct (Hs _ _ ltac:(eassumption) Es) as (? & ? & ?). auto.
  - destruct (_ && inclusive up) eqn:Ec; [|done]. zbool.
    destruct (date_succ (val up)) as [w|e'] eqn:Es; [done|]. injection E as ->.
    destruct (Hs _ _ ltac:(eassumption) Es) as (? & ? & ?). auto.
Qed.

(** [(2000-01-01, infinity]] keeps its infinite upper date. *)
Definition d_range : RangeType :=
  mkRange (SET_VARSIZE 17) DATERANGEOID (le_bytes 4 0 ++ le_bytes 4 DATEVAL_NOEND ++ [RANGE_UB_INC]).

Lemma d_range_wf : range_wf daterange d_range.
Proof.
  apply (range_serialize_spec daterange (mkBound (Int32GetDatum 0) false false true)
    (mkBound (Int32GetDatum DATEVAL_NOEND) false true false) false d_range); try done.
  - by apply int4_bound_ok.
  - by apply int4_bound_ok.
Qed.

Lemma date_canonical_correct_witness :
  daterange_canonical daterange d_range =
  Ok (mkRange (SET_VARSIZE 17) DATERANGEOID
        (le_bytes 4 1 ++ le_bytes 4 DATEVAL_NOEND ++ [Z.lor RANGE_LB_INC RANGE_UB_INC])) /\
  match daterange_canonical daterange d_range with
  | Ok r' => forall v, mem daterange r' v <-> mem daterange d_range v
  | Err _ => False
  end.
Proof.
  split; [vm_compute; reflexivity|].
  pose proof (date_canonical_correct d_range _ _ d_range_wf eq_refl) as Hc.
  destruct (daterange_canonical daterange d_range) as [r'|e] eqn:E; [apply Hc|].
  vm_compute in E. discriminate E.
Defined.

(** C35: on canonical int4 ranges the set operators never overflow: they give a
    canonical range again, or the error for a result that is not contiguous. *)
Theorem int4_operators_closed `{Toast} r1 r2 :
  range_wf int4range r1 -> range_wf int4range r2 ->
  canonical_form int4range r1 -> canonical_form int4range r2 ->
  (exists r, range_intersect_internal int4range r1 r2 = Ok r /\ canonical_form int4range r) /\
  ((exists r, range_union_internal int4range r1 r2 true = Ok r /\ canonical_form int4range r) \/
   range_union_internal int4range r1 r2 true = Err (not_contiguous "union")) /\
  ((exists r, range_minus_internal int4range r1 r2 = Ok r /\ canonical_form int4range r) \/
   range_minus_internal int4range r1 r2 = Err (not_contiguous "difference")).
Proof.
  intros H1 H2 C1 C2.
  pose proof (int4_canonical_form int4_base) as Hform.
  split_and!.
  - exact (intersect_closed int4range no_skip int4_succ _ eq_refl Hform r1 r2 H1 H2 C1 C2).
  - exact (union_closed int4range no_skip int4_succ _ eq_refl Hform r1 r2 H1 H2 C1 C2).
  - exact (minus_closed int4range no_skip int4_succ _ eq_refl Hform r1 r2 H1 H2 C1 C2).
Qed.

Lemma int4_operators_closed_witness :
  exists r, range_intersect_internal int4range r_1_10 r_5_20 = Ok r /\ canonical_form int4range r.
Proof.
  refine (proj1 (int4_operators_closed r_1_10 r_5_20 r_1_10_wf r_5_20_wf _ _)); vm_compute.
  - intros _. split; reflexivity.
  - intros _. split; reflexivity.
Defined.

(** Canonicalization makes [=] extensional: two canonical int4 ranges
    without infinite bounds are equal exactly when they have the same
    members. *)
Theorem int4_eq_extensional `{Toast} r1 r2 :
  range_wf int4range r1 -> range_wf int4range r2 ->
  canonical_form int4range r1 -> canonical_form int4range r2 ->
  finite_bounds int4range r1 -> finite_bounds int4range r2 ->
  exists b, range_eq_internal int4range r1 r2 = Ok b /\
    (b = true <-> forall v, mem int4range r1 v <-> mem int4range r2 v).
Proof. apply int4_eq_ext. Qed.

Lemma int4_eq_extensional_witness :
  exists b, range_eq_internal int4range r_1_10 r_5_20 = Ok b /\
    (b = true <-> forall v, mem int4range r_1_10 v <-> mem int4range r_5_20 v).
Proof.
  apply (int4_eq_extensional r_1_10 r_5_20 r_1_10_wf r_5_20_wf); vm_compute.
  - intros _. split; reflexivity.
  - intros _. split; reflexivity.
  - intros _. split; reflexivity.
  - intros _. split; reflexivity.
Defined.
