(* ===== verification/RangeParse.v ===== *)
(** * The text form of ranges

    [range_parse_flags], [range_parse], [range_parse_bound], [range_deparse]
    and [range_bound_escape] of rangetypes.c, and [pg_strncasecmp] of
    src/port/pgstrcasecmp.c.

    A C string is the list of the characters before its terminating NUL, and a
    pointer into it is the suffix that starts there.  [isspace], [isupper] and
    [tolower] are those of the C locale.  An [ereport] of a malformed literal
    carries its [errdetail] as the message. *)

From S2P Require Import Prelude Varlena RangeTypes.

Definition cstring : Type := list ascii.

Definition chr (c : ascii) : Z := Z.of_N (N_of_ascii c).

(** [*ptr], the NUL character at the end of the string. *)
Definition deref (p : cstring) : Z := match p with [] => 0 | c :: _ => chr c end.

Definition advance (p : cstring) : cstring := match p with [] => [] | _ :: p' => p' end.

Definition c_string (s : string) : cstring := list_ascii_of_string s.

(** Character constants. *)
Definition QUOTE : ascii := "034"%char.
Definition BACKSLASH : ascii := "092"%char.

Definition isspace (c : Z) : bool := (c =? 32) || ((9 <=? c) && (c <=? 13)).

Fixpoint skip_spaces (ptr : cstring) : cstring :=
  match ptr with
  | [] => []
  | c :: ptr' => if isspace (chr c) then skip_spaces ptr' else ptr
  end.

Definition RANGE_EMPTY_LITERAL : cstring := c_string "empty".

(** ** Case-independent comparison *)

Definition fold_lower (ch : Z) : Z := if (65 <=? ch) && (ch <=? 90) then ch + 32 else ch.

Fixpoint pg_strncasecmp (s1 s2 : cstring) (n : nat) : Z :=
  match n with
  | O => 0
  | S n' =>
      let ch1 := deref s1 in
      let ch2 := deref s2 in
      if negb (ch1 =? ch2) then
        let ch1 := fold_lower ch1 in
        let ch2 := fold_lower ch2 in
        if negb (ch1 =? ch2) then ch1 - ch2
        else if ch1 =? 0 then 0 else pg_strncasecmp (advance s1) (advance s2) n'
      else if ch1 =? 0 then 0 else pg_strncasecmp (advance s1) (advance s2) n'
  end.

(** ** Flags of the three-argument constructor *)

Definition range_parse_flags (flags_str : cstring) : result Z :=
  let flags := 0 in
  match flags_str with
  | [c0; c1] =>
      flags ← (if ascii_dec c0 "[" then Ok (Z.lor flags RANGE_LB_INC)
               else if ascii_dec c0 "(" then Ok flags
               else ereport ERRCODE_SYNTAX_ERROR "invalid range bound flags");
      if ascii_dec c1 "]" then Ok (Z.lor flags RANGE_UB_INC)
      else if ascii_dec c1 ")" then Ok flags
      else ereport ERRCODE_SYNTAX_ERROR "invalid range bound flags"
  | _ => ereport ERRCODE_SYNTAX_ERROR "invalid range bound flags"
  end.

(** ** Parsing *)

Definition malformed {A} (detail : string) : result A :=
  ereport ERRCODE_INVALID_TEXT_REPRESENTATION detail.

(** [*ptr == ',' || *ptr == ')' || *ptr == ']'] *)
Definition at_stop (ptr : cstring) : bool :=
  (deref ptr =? 44) || (deref ptr =? 41) || (deref ptr =? 93).

(** The scanning loop of [range_parse_bound]; gives the bound string and the
    advanced pointer. *)
Fixpoint parse_bound_loop (inquote : bool) (ptr buf : cstring) : result (cstring * cstring) :=
  if negb inquote && at_stop ptr then Ok (buf, ptr)
  else
    match ptr with
    | [] => malformed "Unexpected end of input."
    | ch :: ptr' =>
        if ascii_dec ch BACKSLASH then
          match ptr' with
          | [] => malformed "Unexpected end of input."
          | c :: ptr'' => parse_bound_loop inquote ptr'' (buf ++ [c])
          end
        else if ascii_dec ch QUOTE then
          if negb inquote then parse_bound_loop true ptr' buf
          else
            match ptr' with
            | c :: ptr'' =>
                if ascii_dec c QUOTE then parse_bound_loop true ptr'' (buf ++ [c])
                else parse_bound_loop false ptr' buf
            | [] => parse_bound_loop false ptr' buf
            end
        else parse_bound_loop inquote ptr' (buf ++ [ch])
    end.

(** The bound string (NULL is [None]), whether it is infinite, and the pointer. *)
Definition range_parse_bound (ptr : cstring) : result (option cstring * bool * cstring) :=
  if at_stop ptr then Ok (None, true, ptr)
  else
    '(buf, ptr) ← parse_bound_loop false ptr [];
    Ok (Some buf, false, ptr).

Definition range_parse (str : cstring) : result (Z * option cstring * option cstring) :=
  let ptr := skip_spaces str in
  if pg_strncasecmp ptr RANGE_EMPTY_LITERAL (length RANGE_EMPTY_LITERAL) =? 0 then
    let ptr := drop (length RANGE_EMPTY_LITERAL) ptr in
    let ptr := skip_spaces ptr in
    if negb (deref ptr =? 0) then malformed "Junk after empty key word."
    else Ok (RANGE_EMPTY, None, None)
  else
    '(flags, ptr) ← (if deref ptr =? 91 then Ok (RANGE_LB_INC, advance ptr)
                     else if deref ptr =? 40 then Ok (0, advance ptr)
                     else malformed "Missing left parenthesis or bracket.");
    '(lbound_str, infinite, ptr) ← range_parse_bound ptr;
    let flags := if (infinite : bool) then Z.lor flags RANGE_LB_INF else flags in
    ptr ← (if deref ptr =? 44 then Ok (advance ptr)
           else malformed "Missing comma after lower bound.");
    '(ubound_str, infinite, ptr) ← range_parse_bound ptr;
    let flags := if (infinite : bool) then Z.lor flags RANGE_UB_INF else flags in
    '(flags, ptr) ← (if deref ptr =? 93 then Ok (Z.lor flags RANGE_UB_INC, advance ptr)
                     else if deref ptr =? 41 then Ok (flags, advance ptr)
                     else malformed "Too many commas.");
    let ptr := skip_spaces ptr in
    if negb (deref ptr =? 0) then malformed "Junk after right parenthesis or bracket."
    else Ok (flags, lbound_str, ubound_str).

(** ** Printing *)

Definition needs_quote (c : ascii) : bool :=
  (if ascii_dec c QUOTE then true else if ascii_dec c BACKSLASH then true
   else if ascii_dec c "(" then true else if ascii_dec c ")" then true
   else if ascii_dec c "[" then true else if ascii_dec c "]" then true
   else if ascii_dec c "," then true else false) || isspace (chr c).

Definition escape_char (c : ascii) : cstring :=
  if ascii_dec c QUOTE then [c; c] else if ascii_dec c BACKSLASH then [c; c] else [c].

Definition range_bound_escape (value : cstring) : cstring :=
  let nq := match value with [] => true | _ => existsb needs_quote value end in
  (if nq then [QUOTE] else []) ++ flat_map escape_char value ++ (if nq then [QUOTE] else []).

Definition opt_str (s : option cstring) : cstring := match s with Some v => v | None => [] end.

Definition range_deparse (flags : Z) (lbound_str ubound_str : option cstring) : cstring :=
  if bit_set flags RANGE_EMPTY then RANGE_EMPTY_LITERAL
  else
    [if bit_set flags RANGE_LB_INC then "["%char else "("%char] ++
    (if RANGE_HAS_LBOUND flags then range_bound_escape (opt_str lbound_str) else []) ++
    [","%char] ++
    (if RANGE_HAS_UBOUND flags then range_bound_escape (opt_str ubound_str) else []) ++
    [if bit_set flags RANGE_UB_INC then "]"%char else ")"%char].

(** ** Parsing what was printed *)

(** The text after a bound: a character that ends an unquoted bound. *)
Definition stops (rest : cstring) : Prop := at_stop rest = true.

Lemma stops_cons_not_quote c rest : stops (c :: rest) -> c <> QUOTE /\ c <> BACKSLASH.
Proof. unfold stops, at_stop. cbn [deref]. by split; intros ->. Qed.

(** Inside quotes, escaping is undone. *)
Lemma parse_quoted v rest buf :
  stops rest ->
  parse_bound_loop true (flat_map escape_char v ++ QUOTE :: rest) buf = Ok (buf ++ v, rest).
Proof.
  intros Hs. revert buf. induction v as [|c v IH]; intros buf.
  - cbn [flat_map app]. rewrite app_nil_r. cbn [parse_bound_loop negb andb].
    destruct (ascii_dec QUOTE BACKSLASH) as [E|_]; [discriminate E|].
    destruct (ascii_dec QUOTE QUOTE) as [_|]; [|done].
    destruct rest as [|c rest]; [done|]. destruct (stops_cons_not_quote _ _ Hs) as [Hq _].
    destruct (ascii_dec c QUOTE) as [->|_]; [done|]. cbn [parse_bound_loop negb andb].
    unfold stops in Hs. by rewrite Hs.
  - cbn [flat_map]. rewrite <- app_assoc. unfold escape_char at 1.
    destruct (ascii_dec c QUOTE) as [->|Hq]; [|destruct (ascii_dec c BACKSLASH) as [->|Hb]];
      cbn [app parse_bound_loop negb andb].
    + destruct (ascii_dec QUOTE BACKSLASH) as [E|_]; [discriminate E|].
      destruct (ascii_dec QUOTE QUOTE) as [_|]; [|done]. rewrite IH. by rewrite <- app_assoc.
    + destruct (ascii_dec BACKSLASH BACKSLASH) as [_|]; [|done]. rewrite IH. by rewrite <- app_assoc.
    + destruct (ascii_dec c BACKSLASH); [done|]. destruct (ascii_dec c QUOTE); [done|].
      rewrite IH. by rewrite <- app_assoc.
Qed.

Lemma needs_quote_false c :
  needs_quote c = false ->
  c <> QUOTE /\ c <> BACKSLASH /\ escape_char c = [c] /\ (forall l, at_stop (c :: l) = false) /\
  isspace (chr c) = false.
Proof.
  unfold needs_quote, escape_char, at_stop. cbn [deref]. intros H. apply orb_false_iff in H as [H Hsp].
  destruct (ascii_dec c QUOTE); [done|]. destruct (ascii_dec c BACKSLASH); [done|].
  destruct (ascii_dec c "("); [done|]. destruct (ascii_dec c ")") as [|H1]; [done|].
  destruct (ascii_dec c "["); [done|]. destruct (ascii_dec c "]") as [|H2]; [done|].
  destruct (ascii_dec c ",") as [|H3]; [done|].
  split_and!; try done. intros _.
  destruct c as [[] [] [] [] [] [] [] []]; try reflexivity; exfalso; auto.
Qed.

(** A value without special characters is read back as it is. *)
Lemma parse_plain v rest buf :
  existsb needs_quote v = false -> stops rest ->
  parse_bound_loop false (flat_map escape_char v ++ rest) buf = Ok (buf ++ v, rest).
Proof.
  intros Hv Hs. revert buf Hv. induction v as [|c v IH]; intros buf Hv.
  - cbn [flat_map app]. rewrite app_nil_r. unfold stops in Hs.
    destruct rest; cbn [parse_bound_loop negb andb]; by rewrite Hs.
  - cbn [existsb] in Hv. apply orb_false_iff in Hv as [Hc Hv].
    destruct (needs_quote_false c Hc) as (Hq & Hb & He & Hst & _).
    cbn [flat_map]. rewrite He. cbn [app parse_bound_loop negb andb]. rewrite Hst.
    destruct (ascii_dec c BACKSLASH); [done|]. destruct (ascii_dec c QUOTE); [done|].
    rewrite IH by done. by rewrite <- app_assoc.
Qed.

Lemma escape_not_stop v rest : stops rest -> at_stop (range_bound_escape v ++ rest) = false.
Proof.
  intros _. unfold range_bound_escape. destruct v as [|c v]; [done|].
  destruct (existsb needs_quote (c :: v)) eqn:E; [done|].
  cbn [existsb] in E. apply orb_false_iff in E as [Hc _].
  destruct (needs_quote_false c Hc) as (_ & _ & He & Hst & _). cbn [flat_map]. rewrite He. apply Hst.
Qed.

(** [range_parse_bound] undoes [range_bound_escape]. *)
Lemma parse_bound_escape v rest :
  stops rest -> range_parse_bound (range_bound_escape v ++ rest) = Ok (Some v, false, rest).
Proof.
  intros Hs. unfold range_parse_bound. rewrite escape_not_stop by done.
  unfold range_bound_escape.
  set (nq := match v with [] => true | _ => existsb needs_quote v end).
  assert (Hloop : parse_bound_loop false
    (((if nq then [QUOTE] else []) ++ flat_map escape_char v ++ (if nq then [QUOTE] else [])) ++ rest) [] =
    Ok (v, rest)); [|by rewrite Hloop].
  destruct nq eqn:Enq; rewrite <- !app_assoc; cbn [app].
  - cbn [parse_bound_loop negb andb]. destruct (at_stop _) eqn:E; [discriminate E|].
    destruct (ascii_dec QUOTE BACKSLASH) as [E'|_]; [discriminate E'|].
    destruct (ascii_dec QUOTE QUOTE) as [_|]; [|done]. by rewrite parse_quoted.
  - rewrite parse_plain; [done| |done]. subst nq. by destruct v.
Qed.

(** A bound that is present, or absent. *)
Lemma parse_bound_opt (has : bool) s rest :
  stops rest -> (has = false -> s = None) -> (has = true -> s <> None) ->
  range_parse_bound ((if has then range_bound_escape (opt_str s) else []) ++ rest) =
  Ok (s, negb has, rest).
Proof.
  intros Hs Hn Hsome. destruct has; cbn [negb].
  - destruct s as [v|]; [|by destruct (Hsome eq_refl)]. by apply parse_bound_escape.
  - rewrite (Hn eq_refl). cbn [app]. unfold range_parse_bound. unfold stops in Hs. by rewrite Hs.
Qed.

(** The flags a stored range can have. *)
Definition text_flags (flags : Z) : Prop :=
  flags = RANGE_EMPTY \/ exists lo up, flags = bound_flags lo up.

Lemma skip_spaces_paren (b : bool) rest :
  skip_spaces ((if b then "["%char else "("%char) :: rest) = (if b then "["%char else "("%char) :: rest.
Proof. by destruct b. Qed.

Lemma paren_not_empty (b : bool) rest :
  (pg_strncasecmp ((if b then "["%char else "("%char) :: rest) RANGE_EMPTY_LITERAL 5 =? 0) = false.
Proof. by destruct b. Qed.

Lemma parse_deparse flags l u :
  text_flags flags ->
  (RANGE_HAS_LBOUND flags = false <-> l = None) -> (RANGE_HAS_UBOUND flags = false <-> u = None) ->
  range_parse (range_deparse flags l u) = Ok (flags, l, u).
Proof.
  intros Hf HL HU. destruct Hf as [->|(lo & up & ->)].
  { by rewrite (proj1 HL eq_refl), (proj1 HU eq_refl). }
  destruct (bound_flags_bits lo up) as (ELB & EUB & ELI & EUI & ELC & EUC & EE).
  unfold range_deparse. rewrite EE.
  set (up_text := (if RANGE_HAS_UBOUND (bound_flags lo up) then range_bound_escape (opt_str u) else []) ++
    [if bit_set (bound_flags lo up) RANGE_UB_INC then "]"%char else ")"%char]).
  unfold range_parse. cbn [app]. rewrite skip_spaces_paren.
  change (length RANGE_EMPTY_LITERAL) with 5%nat. rewrite paren_not_empty.
  assert (Hopen : forall b rest,
    (if deref ((if b : bool then "["%char else "("%char) :: rest) =? 91
     then Ok (RANGE_LB_INC, advance ((if b then "["%char else "("%char) :: rest))
     else if deref ((if b then "["%char else "("%char) :: rest) =? 40
     then Ok (0, advance ((if b then "["%char else "("%char) :: rest))
     else malformed "Missing left parenthesis or bracket.") =
    Ok (if b then RANGE_LB_INC else 0, rest)) by (by intros []).
  rewrite Hopen. cbn [mbind result_bind].
  rewrite parse_bound_opt; [|done|by apply HL|intros E El; apply HL in El; congruence].
  cbn [mbind result_bind deref advance]. change (chr ",") with 44. rewrite Z.eqb_refl. cbn [mbind result_bind].
  subst up_text.
  rewrite parse_bound_opt; [|by destruct (bit_set _ RANGE_UB_INC)|by apply HU|intros E Eu; apply HU in Eu; congruence].
  cbn [mbind result_bind].
  rewrite ELB, EUB, ELC, EUC. unfold bound_flags.
  by destruct (infinite lo), (inclusive lo), (infinite up), (inclusive up).
Qed.

(** ** The flags argument of the constructor *)

Lemma parse_flags_spec s flags :
  range_parse_flags s = Ok flags <->
  (s = c_string "[]" /\ flags = Z.lor RANGE_LB_INC RANGE_UB_INC) \/
  (s = c_string "[)" /\ flags = RANGE_LB_INC) \/
  (s = c_string "(]" /\ flags = RANGE_UB_INC) \/ (s = c_string "()" /\ flags = 0).
Proof.
  split.
  - destruct s as [|c0 [|c1 [|]]]; try done. cbn [range_parse_flags].
    destruct (ascii_dec c0 "[") as [->|]; [|destruct (ascii_dec c0 "(") as [->|]; [|done]]; cbn [mbind result_bind];
      (destruct (ascii_dec c1 "]") as [->|]; [|destruct (ascii_dec c1 ")") as [->|]; [|done]]);
      intros [= <-]; auto.
  - intros [[-> ->]|[[-> ->]|[[-> ->]|[-> ->]]]]; reflexivity.
Qed.
