(* ===== verification/RangeFmgr.v ===== *)
(** * The SQL-callable functions

    The fmgr entry points of rangetypes.c.  A call runs against the
    [fn_extra] field of its [FmgrInfo], where the type cache entry (or, for
    the I/O functions, a [RangeIOData]) is kept between calls: a function is a
    state transformer that may fail.  What the catalogs say about types is a
    parameter.  Arguments are detoasted range values; SQL NULL is [None]. *)

From S2P Require Import Prelude Floats Varlena RangeTypes RangeOrder RangeOps Hashfn RangeParse.

(** ** Calls with a state *)

Definition Fn (S A : Type) : Type := S -> result (A * S).

#[global] Instance Fn_ret {S} : MRet (Fn S) := fun A a s => Ok (a, s).
#[global] Instance Fn_bind {S} : MBind (Fn S) :=
  fun A B f m s => match m s with Ok (a, s') => f a s' | Err e => Err e end.

(** A computation that does not touch the state. *)
Definition lift {S A} (m : result A) : Fn S A :=
  fun s => match m with Ok a => Ok (a, s) | Err e => Err e end.

(** ** The catalogs *)

Inductive IOFuncSelector : Type := IOFunc_input | IOFunc_output | IOFunc_receive | IOFunc_send.

#[global] Instance IOFuncSelector_eq_dec : EqDecision IOFuncSelector.
Proof. solve_decision. Defined.

(** An I/O function of an element type; the first two arguments of input and
    receive functions are [typioparam] and [typmod]. *)
Inductive IOProc : Type :=
| InputProc (f : Oid -> Z -> cstring -> result Datum)
| OutputProc (f : Datum -> result cstring)
| ReceiveProc (f : Oid -> Z -> list Z -> result Datum)
| SendProc (f : Datum -> result (list Z)).

(** [lookup_type_cache] with [TYPECACHE_RANGE_INFO]: [None] when the type is
    not a range type.  [get_type_io_data] gives [typioparam] and the function,
    [None] for [InvalidOid]. *)
Class Catalog : Type := {
  lookup_type_cache : Oid -> option TypeCacheEntry;
  get_type_io_data : Oid -> IOFuncSelector -> Oid * option IOProc
}.

(** A type cache entry describes the type it was looked up for. *)
Class CatalogOk `{Catalog} : Prop := {
  lookup_type_id : forall oid tc, lookup_type_cache oid = Some tc -> type_id tc = oid
}.

Definition FnExtra : Type := option TypeCacheEntry.

Section Calls.
Context `{Toast} `{Catalog}.

Definition range_get_typcache (rngtypid : Oid) : Fn FnExtra TypeCacheEntry :=
  fun fn_extra =>
    let lookup :=
      match lookup_type_cache rngtypid with
      | None => elog "type is not a range type"
      | Some typcache => Ok (typcache, Some typcache)
      end in
    match fn_extra with
    | None => lookup
    | Some typcache =>
        if negb (type_id typcache =? rngtypid) then lookup else Ok (typcache, fn_extra)
    end.

(** ** Constructors; [rngtypid] is [get_fn_expr_rettype] *)

Definition arg_bound (arg : option Datum) (incl is_lower : bool) : RangeBound :=
  mkBound (match arg with None => DWord 0 | Some d => d end)
    (match arg with None => true | Some _ => false end) incl is_lower.

Definition range_constructor2 (rngtypid : Oid) (arg1 arg2 : option Datum) : Fn FnExtra RangeType :=
  typcache ← range_get_typcache rngtypid;
  let lower := arg_bound arg1 true true in
  let upper := arg_bound arg2 false false in
  lift (make_range typcache lower upper false).

Definition range_constructor3 (rngtypid : Oid) (arg1 arg2 : option Datum) (arg3 : option cstring)
  : Fn FnExtra RangeType :=
  typcache ← range_get_typcache rngtypid;
  flags_str ← lift (match arg3 with
                    | None => ereport ERRCODE_DATA_EXCEPTION "range constructor flags argument must not be null"
                    | Some s => Ok s
                    end);
  flags ← lift (range_parse_flags flags_str);
  let lower := arg_bound arg1 (bit_set flags RANGE_LB_INC) true in
  let upper := arg_bound arg2 (bit_set flags RANGE_UB_INC) false in
  lift (make_range typcache lower upper false).

(** ** Functions of one range, or a range and an element *)

Definition range_lower (r1 : RangeType) : Fn FnExtra (option Datum) :=
  typcache ← range_get_typcache (RangeTypeGetOid r1);
  mret (range_lower_internal typcache r1).

Definition range_upper (r1 : RangeType) : Fn FnExtra (option Datum) :=
  typcache ← range_get_typcache (RangeTypeGetOid r1);
  mret (range_upper_internal typcache r1).

Definition range_contains_elem (r : RangeType) (val : Datum) : Fn FnExtra bool :=
  typcache ← range_get_typcache (RangeTypeGetOid r);
  mret (range_contains_elem_internal typcache r val).

Definition elem_contained_by_range (val : Datum) (r : RangeType) : Fn FnExtra bool :=
  typcache ← range_get_typcache (RangeTypeGetOid r);
  mret (range_contains_elem_internal typcache r val).

(** ** Boolean operators *)

Definition range_eq (r1 r2 : RangeType) : Fn FnExtra bool :=
  typcache ← range_get_typcache (RangeTypeGetOid r1);
  lift (range_eq_internal typcache r1 r2).

Definition range_ne (r1 r2 : RangeType) : Fn FnExtra bool :=
  typcache ← range_get_typcache (RangeTypeGetOid r1);
  lift (range_ne_internal typcache r1 r2).

Definition range_contains (r1 r2 : RangeType) : Fn FnExtra bool :=
  typcache ← range_get_typcache (RangeTypeGetOid r1);
  lift (range_contains_internal typcache r1 r2).

Definition range_contained_by (r1 r2 : RangeType) : Fn FnExtra bool :=
  typcache ← range_get_typcache (RangeTypeGetOid r1);
  lift (range_contained_by_internal typcache r1 r2).

Definition range_before (r1 r2 : RangeType) : Fn FnExtra bool :=
  typcache ← range_get_typcache (RangeTypeGetOid r1);
  lift (range_before_internal typcache r1 r2).

Definition range_after (r1 r2 : RangeType) : Fn FnExtra bool :=
  typcache ← range_get_typcache (RangeTypeGetOid r1);
  lift (range_after_internal typcache r1 r2).

Definition range_adjacent (r1 r2 : RangeType) : Fn FnExtra bool :=
  typcache ← range_get_typcache (RangeTypeGetOid r1);
  lift (range_adjacent_internal typcache r1 r2).

Definition range_overlaps (r1 r2 : RangeType) : Fn FnExtra bool :=
  typcache ← range_get_typcache (RangeTypeGetOid r1);
  lift (range_overlaps_internal typcache r1 r2).

Definition range_overleft (r1 r2 : RangeType) : Fn FnExtra bool :=
  typcache ← range_get_typcache (RangeTypeGetOid r1);
  lift (range_overleft_internal typcache r1 r2).

Definition range_overright (r1 r2 : RangeType) : Fn FnExtra bool :=
  typcache ← range_get_typcache (RangeTypeGetOid r1);
  lift (range_overright_internal typcache r1 r2).

(** ** Set operators *)

Definition check_types (r1 r2 : RangeType) : result unit :=
  if types_differ r1 r2 then elog "range types do not match" else Ok ().

Definition range_minus (r1 r2 : RangeType) : Fn FnExtra RangeType :=
  _ ← lift (check_types r1 r2);
  typcache ← range_get_typcache (RangeTypeGetOid r1);
  lift (range_minus_internal typcache r1 r2).

Definition range_union (r1 r2 : RangeType) : Fn FnExtra RangeType :=
  typcache ← range_get_typcache (RangeTypeGetOid r1);
  lift (range_union_internal typcache r1 r2 true).

Definition range_merge (r1 r2 : RangeType) : Fn FnExtra RangeType :=
  typcache ← range_get_typcache (RangeTypeGetOid r1);
  lift (range_union_internal typcache r1 r2 false).

(** [range_overlaps(fcinfo)] is called with the same [fcinfo]. *)
Definition range_intersect (r1 r2 : RangeType) : Fn FnExtra RangeType :=
  _ ← lift (check_types r1 r2);
  typcache ← range_get_typcache (RangeTypeGetOid r1);
  let '(lower1, upper1, empty1) := range_deserialize typcache r1 in
  let '(lower2, upper2, empty2) := range_deserialize typcache r2 in
  if empty1 || empty2 then lift (make_empty_range typcache)
  else
    o ← range_overlaps r1 r2;
    if negb o then lift (make_empty_range typcache)
    else
      let result_lower := if range_cmp_bounds typcache lower1 lower2 >=? 0 then lower1 else lower2 in
      let result_upper := if range_cmp_bounds typcache upper1 upper2 <=? 0 then upper1 else upper2 in
      lift (make_range typcache result_lower result_upper false).

(** ** Btree support *)

Definition range_cmp (r1 r2 : RangeType) : Fn FnExtra Z :=
  _ ← lift (check_types r1 r2);
  typcache ← range_get_typcache (RangeTypeGetOid r1);
  mret (range_cmp_internal typcache r1 r2).

Definition range_lt (r1 r2 : RangeType) : Fn FnExtra bool := cmp ← range_cmp r1 r2; mret (cmp <? 0).
Definition range_le (r1 r2 : RangeType) : Fn FnExtra bool := cmp ← range_cmp r1 r2; mret (cmp <=? 0).
Definition range_ge (r1 r2 : RangeType) : Fn FnExtra bool := cmp ← range_cmp r1 r2; mret (cmp >=? 0).
Definition range_gt (r1 r2 : RangeType) : Fn FnExtra bool := cmp ← range_cmp r1 r2; mret (cmp >? 0).

(** ** Hash support *)

(** [flags] is a (signed) [char]. *)
Definition flags_uint32 (flags : Z) : Z := u32 (swrap 8 flags).

Definition hash_range (r : RangeType) : Fn FnExtra Z :=
  typcache ← range_get_typcache (RangeTypeGetOid r);
  let '(lower, upper, empty) := range_deserialize typcache r in
  let flags := range_get_flags r in
  hash ← lift (match hash_proc typcache with
               | None => ereport ERRCODE_UNDEFINED_FUNCTION "could not identify a hash function for type"
               | Some h => Ok h
               end);
  let lower_hash := if RANGE_HAS_LBOUND flags then u32 (hash (val lower)) else 0 in
  let upper_hash := if RANGE_HAS_UBOUND flags then u32 (hash (val upper)) else 0 in
  let result := hash_bytes_uint32 (flags_uint32 flags) in
  let result := Z.lxor result lower_hash in
  let result := Z.lor (u32 (Z.shiftl result 1)) (Z.shiftr result 31) in
  let result := Z.lxor result upper_hash in
  mret result.

Definition hash_range_extended (r : RangeType) (seed : Datum) : Fn FnExtra Z :=
  typcache ← range_get_typcache (RangeTypeGetOid r);
  let '(lower, upper, empty) := range_deserialize typcache r in
  let flags := range_get_flags r in
  hash ← lift (match hash_extended_proc typcache with
               | None => ereport ERRCODE_UNDEFINED_FUNCTION "could not identify a hash function for type"
               | Some h => Ok h
               end);
  let lower_hash := if RANGE_HAS_LBOUND flags then u64 (hash (val lower) (DatumGetInt64 seed)) else 0 in
  let upper_hash := if RANGE_HAS_UBOUND flags then u64 (hash (val upper) (DatumGetInt64 seed)) else 0 in
  let result := hash_bytes_uint32_extended (flags_uint32 flags) (u64 (DatumGetInt64 seed)) in
  let result := Z.lxor result lower_hash in
  let result := ROTATE_HIGH_AND_LOW_32BITS result in
  let result := Z.lxor result upper_hash in
  mret result.

End Calls.

(** ** The cached type cache entry is transparent *)

Section Cache.
Context `{Toast} `{Catalog} `{!CatalogOk}.

(** What [fn_extra] may hold: an entry as the catalogs give it. *)
Definition fn_extra_ok (fn_extra : FnExtra) : Prop :=
  match fn_extra with None => True | Some tc => lookup_type_cache (type_id tc) = Some tc end.

(** A call gives the same outcome whatever [fn_extra] holds, and keeps it
    valid. *)
Definition transparent {A} (m : Fn FnExtra A) : Prop :=
  forall s, fn_extra_ok s ->
  match m s, m None with
  | Ok (a, s'), Ok (b, s0) => a = b /\ fn_extra_ok s' /\ fn_extra_ok s0
  | Err e, Err e' => e = e'
  | _, _ => False
  end.

Lemma get_typcache_eq oid s :
  fn_extra_ok s ->
  range_get_typcache oid s =
  match lookup_type_cache oid with
  | None => elog "type is not a range type"
  | Some tc => Ok (tc, Some tc)
  end.
Proof.
  intros Hs. unfold range_get_typcache. destruct s as [tc|]; [|done]. cbn in Hs.
  destruct (Z.eqb_spec (type_id tc) oid) as [<-|]; cbn [negb]; [by rewrite Hs|done].
Qed.

Lemma transparent_get_typcache oid : transparent (range_get_typcache oid).
Proof.
  intros s Hs. rewrite !get_typcache_eq by done.
  destruct (lookup_type_cache oid) as [tc|] eqn:E; [|done].
  pose proof (lookup_type_id _ _ E) as Ht. cbn. by rewrite Ht.
Qed.

Lemma transparent_lift {A} (m : result A) : transparent (lift m).
Proof. intros s Hs. unfold lift. by destruct m. Qed.

Lemma transparent_ret {A} (a : A) : transparent (mret a).
Proof. intros s Hs. done. Qed.

Lemma transparent_bind {A B} (m : Fn FnExtra A) (f : A -> Fn FnExtra B) :
  transparent m -> (forall a, transparent (f a)) -> transparent (m ≫= f).
Proof.
  intros Hm Hf s Hs. unfold mbind, Fn_bind. specialize (Hm s Hs).
  destruct (m s) as [[a s']|e], (m None) as [[b s0]|e']; try done.
  destruct Hm as (<- & Hs' & Hs0). pose proof (Hf a s' Hs') as F1. pose proof (Hf a s0 Hs0) as F2.
  destruct (f a s') as [[x s1]|e1], (f a s0) as [[y s2]|e2], (f a None) as [[z s3]|e3]; naive_solver.
Qed.

End Cache.

#[export] Hint Resolve transparent_get_typcache transparent_lift transparent_ret transparent_bind : pg.

(** ** A sequence of calls on one [FmgrInfo] *)

Inductive RangeCall : Type :=
| CallConstructor2 (oid : Oid) (a b : option Datum)
| CallConstructor3 (oid : Oid) (a b : option Datum) (f : option cstring)
| CallLower (r : RangeType) | CallUpper (r : RangeType)
| CallContainsElem (r : RangeType) (v : Datum) | CallElemContainedBy (v : Datum) (r : RangeType)
| CallEq (r1 r2 : RangeType) | CallNe (r1 r2 : RangeType)
| CallContains (r1 r2 : RangeType) | CallContainedBy (r1 r2 : RangeType)
| CallBefore (r1 r2 : RangeType) | CallAfter (r1 r2 : RangeType)
| CallAdjacent (r1 r2 : RangeType) | CallOverlaps (r1 r2 : RangeType)
| CallOverleft (r1 r2 : RangeType) | CallOverright (r1 r2 : RangeType)
| CallMinus (r1 r2 : RangeType) | CallUnion (r1 r2 : RangeType)
| CallMerge (r1 r2 : RangeType) | CallIntersect (r1 r2 : RangeType)
| CallCmp (r1 r2 : RangeType) | CallLt (r1 r2 : RangeType) | CallLe (r1 r2 : RangeType)
| CallGe (r1 r2 : RangeType) | CallGt (r1 r2 : RangeType)
| CallHash (r : RangeType) | CallHashExtended (r : RangeType) (seed : Datum).

Inductive CallResult : Type :=
| ResRange (r : RangeType) | ResBool (b : bool) | ResInt (z : Z) | ResDatum (d : option Datum).

Definition returning {S A} (k : A -> CallResult) (m : Fn S A) : Fn S CallResult :=
  a ← m; mret (k a).

Definition run_call `{Toast} `{Catalog} (c : RangeCall) : Fn FnExtra CallResult :=
  match c with
  | CallConstructor2 oid a b => returning ResRange (range_constructor2 oid a b)
  | CallConstructor3 oid a b f => returning ResRange (range_constructor3 oid a b f)
  | CallLower r => returning ResDatum (range_lower r)
  | CallUpper r => returning ResDatum (range_upper r)
  | CallContainsElem r v => returning ResBool (range_contains_elem r v)
  | CallElemContainedBy v r => returning ResBool (elem_contained_by_range v r)
  | CallEq r1 r2 => returning ResBool (range_eq r1 r2)
  | CallNe r1 r2 => returning ResBool (range_ne r1 r2)
  | CallContains r1 r2 => returning ResBool (range_contains r1 r2)
  | CallContainedBy r1 r2 => returning ResBool (range_contained_by r1 r2)
  | CallBefore r1 r2 => returning ResBool (range_before r1 r2)
  | CallAfter r1 r2 => returning ResBool (range_after r1 r2)
  | CallAdjacent r1 r2 => returning ResBool (range_adjacent r1 r2)
  | CallOverlaps r1 r2 => returning ResBool (range_overlaps r1 r2)
  | CallOverleft r1 r2 => returning ResBool (range_overleft r1 r2)
  | CallOverright r1 r2 => returning ResBool (range_overright r1 r2)
  | CallMinus r1 r2 => returning ResRange (range_minus r1 r2)
  | CallUnion r1 r2 => returning ResRange (range_union r1 r2)
  | CallMerge r1 r2 => returning ResRange (range_merge r1 r2)
  | CallIntersect r1 r2 => returning ResRange (range_intersect r1 r2)
  | CallCmp r1 r2 => returning ResInt (range_cmp r1 r2)
  | CallLt r1 r2 => returning ResBool (range_lt r1 r2)
  | CallLe r1 r2 => returning ResBool (range_le r1 r2)
  | CallGe r1 r2 => returning ResBool (range_ge r1 r2)
  | CallGt r1 r2 => returning ResBool (range_gt r1 r2)
  | CallHash r => returning ResInt (hash_range r)
  | CallHashExtended r seed => returning ResInt (hash_range_extended r seed)
  end.

(** The outcomes of consecutive calls; an error ends the sequence. *)
Fixpoint run_calls `{Toast} `{Catalog} (cs : list RangeCall) (fn_extra : FnExtra) : list (result CallResult) :=
  match cs with
  | [] => []
  | c :: cs' =>
      match run_call c fn_extra with
      | Ok (a, fn_extra') => Ok a :: run_calls cs' fn_extra'
      | Err e => [Err e]
      end
  end.

(** The outcome of a call on a fresh [FmgrInfo]. *)
Definition run_fresh `{Toast} `{Catalog} (c : RangeCall) : result CallResult :=
  match run_call c None with Ok (a, _) => Ok a | Err e => Err e end.

(** Outcomes up to the first error. *)
Fixpoint until_error {A} (l : list (result A)) : list (result A) :=
  match l with
  | [] => []
  | Ok a :: l' => Ok a :: until_error l'
  | Err e :: _ => [Err e]
  end.

Section CallLemmas.
Context `{Toast} `{Catalog} `{!CatalogOk}.

Lemma transparent_if {A} (b : bool) (m1 m2 : Fn FnExtra A) :
  transparent m1 -> transparent m2 -> transparent (if b then m1 else m2).
Proof. by destruct b. Qed.

Lemma run_call_transparent c : transparent (run_call c).
Proof.
  destruct c; cbn [run_call]; unfold returning;
    (apply transparent_bind; [|intros; apply transparent_ret]);
    try (unfold range_lt, range_le, range_ge, range_gt; apply transparent_bind; [|intros; apply transparent_ret]);
    lazymatch goal with |- transparent ?m => let h := get_head m in unfold h end;
    repeat first
      [ apply transparent_get_typcache | apply transparent_lift | apply transparent_ret | apply transparent_if
      | apply transparent_bind; [|intros] | progress intros
      | match goal with |- context [range_deserialize ?tc ?r] => destruct (range_deserialize tc r) as [[? ?] ?] end
      | progress unfold range_overlaps ].
Qed.

Lemma run_calls_fresh cs s : fn_extra_ok s -> run_calls cs s = until_error (map run_fresh cs).
Proof.
  revert s. induction cs as [|c cs IH]; intros s Hs; [done|]. cbn [run_calls map]. unfold run_fresh.
  pose proof (run_call_transparent c s Hs) as Ht.
  destruct (run_call c s) as [[a s']|e], (run_call c None) as [[b s0]|e']; try done.
  - destruct Ht as (<- & Hs' & _). cbn. by rewrite IH.
  - by rewrite Ht.
Qed.

End CallLemmas.
