(* ===== verification/RangeIO.v ===== *)
(** * Input and output functions

    [range_in], [range_out], [range_recv] and [range_send] of rangetypes.c with
    their cache [RangeIOData], on top of the message functions of
    src/backend/libpq/pqformat.c.  The element type's I/O functions come from
    the catalogs. *)

From S2P Require Import Prelude Floats Varlena RangeTypes RangeOrder RangeOps RangeStore Hashfn RangeParse RangeFmgr.

(** ** Messages (pqformat.c)

    A message is what is left of its data: [cursor] advances by dropping
    bytes. *)

Definition pq_getmsgbyte (msg : list Z) : result (Z * list Z) :=
  match msg with
  | [] => ereport ERRCODE_PROTOCOL_VIOLATION "no data left in message"
  | b :: msg' => Ok (b, msg')
  end.

Definition pq_getmsgbytes (msg : list Z) (datalen : Z) : result (list Z * list Z) :=
  if (datalen <? 0) || (datalen >? Z.of_nat (length msg)) then
    ereport ERRCODE_PROTOCOL_VIOLATION "insufficient data left in message"
  else Ok (take (Z.to_nat datalen) msg, drop (Z.to_nat datalen) msg).

Definition pq_copymsgbytes (msg : list Z) (datalen : Z) : result (list Z * list Z) :=
  pq_getmsgbytes msg datalen.

(** [pq_getmsgint(msg, 4)]: network byte order. *)
Definition pq_getmsgint4 (msg : list Z) : result (Z * list Z) :=
  '(n32, msg) ← pq_copymsgbytes msg 4;
  Ok (le_value (rev n32), msg).

Definition pq_getmsgend (msg : list Z) : result unit :=
  match msg with
  | [] => Ok ()
  | _ => ereport ERRCODE_PROTOCOL_VIOLATION "invalid message format"
  end.

Definition pq_sendint32 (i : Z) : list Z := rev (le_bytes 4 i).

(** ** The cache of the I/O functions *)

Record RangeIOData : Type := mkIOData {
  io_typcache : TypeCacheEntry;
  typioproc : IOProc;
  typioparam : Oid
}.

Definition IOExtra : Type := option RangeIOData.

Section IO.
Context `{Toast} `{Catalog}.

Definition get_range_io_data (rngtypid : Oid) (func : IOFuncSelector) : Fn IOExtra RangeIOData :=
  fun fn_extra =>
    let miss := match fn_extra with
                | None => true
                | Some cache => negb (type_id (io_typcache cache) =? rngtypid)
                end in
    match fn_extra, miss with
    | Some cache, false => Ok (cache, fn_extra)
    | _, _ =>
        match lookup_type_cache rngtypid with
        | None => elog "type is not a range type"
        | Some typcache =>
            match get_type_io_data (elem_type_id typcache) func with
            | (_, None) =>
                if decide (func = IOFunc_receive)
                then ereport ERRCODE_UNDEFINED_FUNCTION "no binary input function available for type"
                else ereport ERRCODE_UNDEFINED_FUNCTION "no binary output function available for type"
            | (ioparam, Some proc) =>
                let cache := mkIOData typcache proc ioparam in
                Ok (cache, Some cache)
            end
        end
    end.

(** Calling the cached function; it is of the kind that was asked for. *)
Definition InputFunctionCall (cache : RangeIOData) (str : cstring) (typmod : Z) : result Datum :=
  match typioproc cache with InputProc f => f (typioparam cache) typmod str | _ => undefined "not an input function" end.

Definition OutputFunctionCall (cache : RangeIOData) (d : Datum) : result cstring :=
  match typioproc cache with OutputProc f => f d | _ => undefined "not an output function" end.

Definition ReceiveFunctionCall (cache : RangeIOData) (buf : list Z) (typmod : Z) : result Datum :=
  match typioproc cache with ReceiveProc f => f (typioparam cache) typmod buf | _ => undefined "not a receive function" end.

Definition SendFunctionCall (cache : RangeIOData) (d : Datum) : result (list Z) :=
  match typioproc cache with SendProc f => f d | _ => undefined "not a send function" end.

(** A bound from its flag bits; the value of an absent bound is never used. *)
Definition flag_bound (flags : Z) (v : Datum) (is_lower : bool) : RangeBound :=
  if is_lower then mkBound v (bit_set flags RANGE_LB_INF) (bit_set flags RANGE_LB_INC) true
  else mkBound v (bit_set flags RANGE_UB_INF) (bit_set flags RANGE_UB_INC) false.

Definition range_in (input_str : cstring) (rngtypoid : Oid) (typmod : Z) : Fn IOExtra RangeType :=
  cache ← get_range_io_data rngtypoid IOFunc_input;
  '(flags, lbound_str, ubound_str) ← lift (range_parse input_str);
  lval ← lift (if RANGE_HAS_LBOUND flags then InputFunctionCall cache (opt_str lbound_str) typmod
               else Ok (DWord 0));
  uval ← lift (if RANGE_HAS_UBOUND flags then InputFunctionCall cache (opt_str ubound_str) typmod
               else Ok (DWord 0));
  let lower := flag_bound flags lval true in
  let upper := flag_bound flags uval false in
  lift (make_range (io_typcache cache) lower upper (bit_set flags RANGE_EMPTY)).

Definition range_out (range : RangeType) : Fn IOExtra cstring :=
  cache ← get_range_io_data (RangeTypeGetOid range) IOFunc_output;
  let '(lower, upper, empty) := range_deserialize (io_typcache cache) range in
  let flags := range_get_flags range in
  lbound_str ← lift (if RANGE_HAS_LBOUND flags then
                       s ← OutputFunctionCall cache (val lower); Ok (Some s)
                     else Ok None);
  ubound_str ← lift (if RANGE_HAS_UBOUND flags then
                       s ← OutputFunctionCall cache (val upper); Ok (Some s)
                     else Ok None);
  mret (range_deparse flags lbound_str ubound_str).

(** One bound of the binary form: length word and data. *)
Definition recv_bound (cache : RangeIOData) (typmod : Z) (msg : list Z) : result (Datum * list Z) :=
  '(bound_len, msg) ← pq_getmsgint4 msg;
  '(bound_data, msg) ← pq_getmsgbytes msg (swrap 32 bound_len);
  v ← ReceiveFunctionCall cache bound_data typmod;
  Ok (v, msg).

Definition recv_mask : Z :=
  Z.lor RANGE_EMPTY (Z.lor RANGE_LB_INC (Z.lor RANGE_LB_INF (Z.lor RANGE_UB_INC RANGE_UB_INF))).

Definition range_recv (msg : list Z) (rngtypoid : Oid) (typmod : Z) : Fn IOExtra RangeType :=
  cache ← get_range_io_data rngtypoid IOFunc_receive;
  '(flags, msg) ← lift (pq_getmsgbyte msg);
  let flags := Z.land flags recv_mask in
  '(lval, msg) ← lift (if RANGE_HAS_LBOUND flags then recv_bound cache typmod msg else Ok (DWord 0, msg));
  '(uval, msg) ← lift (if RANGE_HAS_UBOUND flags then recv_bound cache typmod msg else Ok (DWord 0, msg));
  _ ← lift (pq_getmsgend msg);
  let lower := flag_bound flags lval true in
  let upper := flag_bound flags uval false in
  lift (make_range (io_typcache cache) lower upper (bit_set flags RANGE_EMPTY)).

Definition send_bound (cache : RangeIOData) (v : Datum) : result (list Z) :=
  bound_data ← SendFunctionCall cache v;
  Ok (pq_sendint32 (Z.of_nat (length bound_data)) ++ bound_data).

Definition range_send (range : RangeType) : Fn IOExtra (list Z) :=
  cache ← get_range_io_data (RangeTypeGetOid range) IOFunc_send;
  let '(lower, upper, empty) := range_deserialize (io_typcache cache) range in
  let flags := range_get_flags range in
  lbytes ← lift (if RANGE_HAS_LBOUND flags then send_bound cache (val lower) else Ok []);
  ubytes ← lift (if RANGE_HAS_UBOUND flags then send_bound cache (val upper) else Ok []);
  mret ([flags] ++ lbytes ++ ubytes).

End IO.

(** ** Round trips *)

(** [r] is a fixed point of its type's canonical function. *)
Definition settled (tc : TypeCacheEntry) (r : RangeType) : Prop :=
  forall canonical, rng_canonical tc = Some canonical -> RangeIsEmpty r = false -> canonical r = Ok r.

(** Two values have the same stored form. *)
Definition same_stored `{Toast} (tc : TypeCacheEntry) (d' d : Datum) : Prop :=
  datum_ok (rngelemtype tc) (detoast_bound (rngelemtype tc) d') /\
  stored_datum (rngelemtype tc) (detoast_bound (rngelemtype tc) d') =
  stored_datum (rngelemtype tc) (detoast_bound (rngelemtype tc) d).

(** What the element type's text I/O functions promise: reading what was
    written gives the same value. *)
Class TextIO `{Toast} `{Catalog} (tc : TypeCacheEntry) : Type := {
  tio_param : Oid;
  tio_in : Oid -> Z -> cstring -> result Datum;
  tio_out : Datum -> result cstring;
  tio_lookup : lookup_type_cache (type_id tc) = Some tc;
  tio_in_proc : get_type_io_data (elem_type_id tc) IOFunc_input = (tio_param, Some (InputProc tio_in));
  tio_out_proc : exists p, get_type_io_data (elem_type_id tc) IOFunc_output = (p, Some (OutputProc tio_out));
  tio_roundtrip : forall d typmod, datum_ok (rngelemtype tc) (detoast_bound (rngelemtype tc) d) ->
    exists s d', tio_out d = Ok s /\ tio_in tio_param typmod s = Ok d' /\ same_stored tc d' d
}.

Class BinaryIO `{Toast} `{Catalog} (tc : TypeCacheEntry) : Type := {
  bio_param : Oid;
  bio_recv : Oid -> Z -> list Z -> result Datum;
  bio_send : Datum -> result (list Z);
  bio_lookup : lookup_type_cache (type_id tc) = Some tc;
  bio_recv_proc : get_type_io_data (elem_type_id tc) IOFunc_receive = (bio_param, Some (ReceiveProc bio_recv));
  bio_send_proc : exists p, get_type_io_data (elem_type_id tc) IOFunc_send = (p, Some (SendProc bio_send));
  bio_roundtrip : forall d typmod, datum_ok (rngelemtype tc) (detoast_bound (rngelemtype tc) d) ->
    exists bs d', bio_send d = Ok bs /\ Z.of_nat (length bs) < 2 ^ 31 /\
      bio_recv bio_param typmod bs = Ok d' /\ same_stored tc d' d
}.

Lemma has_bounds_flags lo up :
  RANGE_HAS_LBOUND (bound_flags lo up) = negb (infinite lo) /\
  RANGE_HAS_UBOUND (bound_flags lo up) = negb (infinite up).
Proof. destruct (bound_flags_bits lo up) as (? & ? & _). done. Qed.

Section RoundTrip.
Context `{Toast} `{Catalog} (tc : TypeCacheEntry) `{!RangeSubtype tc}.

(** Values with the stored forms of the bounds of [r] build [r] again. *)
Lemma rebuild lo up lval uval r :
  lower lo = true -> lower up = false -> bound_ok tc lo -> bound_ok tc up ->
  norm_bound tc lo = lo -> norm_bound tc up = up ->
  range_serialize tc lo up false = Ok r -> settled tc r ->
  (infinite lo = false -> same_stored tc lval (val lo)) ->
  (infinite up = false -> same_stored tc uval (val up)) ->
  make_range tc (flag_bound (bound_flags lo up) lval true) (flag_bound (bound_flags lo up) uval false) false = Ok r.
Proof.
  intros El Eu Bl Bu Nl Nu Hs Hset Sl Su.
  destruct (bound_flags_bits lo up) as (_ & _ & ELI & EUI & ELC & EUC & _).
  unfold flag_bound. rewrite ELI, EUI, ELC, EUC.
  assert (Il : inclusive lo && negb (infinite lo) = inclusive lo) by (rewrite <- Nl; cbn; by destruct (infinite lo), (inclusive lo)).
  assert (Iu : inclusive up && negb (infinite up) = inclusive up) by (rewrite <- Nu; cbn; by destruct (infinite up), (inclusive up)).
  rewrite Il, Iu. unfold make_range.
  rewrite (range_serialize_determined tc _ _ lo up false), Hs; try done.
  - cbn [mbind result_bind]. destruct (rng_canonical tc) as [c|] eqn:Ec; [|done].
    destruct (RangeIsEmpty r) eqn:Ee; cbn [negb]; [done|]. by apply Hset.
  - intros Hi. by apply Sl.
  - intros Hi. by apply Su.
  - unfold norm_bound. cbn. rewrite El. destruct (infinite lo); [done|]. destruct (Sl eq_refl) as [_ ->]. done.
  - unfold norm_bound. cbn. rewrite Eu. destruct (infinite up); [done|]. destruct (Su eq_refl) as [_ ->]. done.
Qed.

Lemma make_empty_flags lval uval :
  make_range tc (flag_bound RANGE_EMPTY lval true) (flag_bound RANGE_EMPTY uval false) true = Ok (empty_range tc).
Proof. unfold make_range. rewrite serialize_empty_eq. cbn. by destruct (rng_canonical tc). Qed.

Lemma text_roundtrip `{!TextIO tc} r typmod :
  stored_range tc r -> settled tc r ->
  exists s x, range_out r None = Ok (s, x) /\
    exists y, range_in s (type_id tc) typmod None = Ok (r, y).
Proof.
  intros Hst Hset. destruct (tio_out_proc (tc := tc)) as [pout Hout].
  pose proof (tio_in_proc (tc := tc)) as Hin. pose proof (tio_lookup (tc := tc)) as Hlk.
  destruct (stored_range_view tc r Hst) as [->|(lo & up & Hd & Hf & Bl & Bu & Hs & Nl & Nu)].
  { eexists _, _. split.
    - unfold range_out, get_range_io_data, RangeTypeGetOid, mbind, Fn_bind. cbn [rangetypid empty_range].
      rewrite Hlk, Hout. reflexivity.
    - eexists. unfold range_in, get_range_io_data, mbind, Fn_bind. rewrite Hlk, Hin.
      change (range_parse _) with (Ok (RANGE_EMPTY, @None cstring, @None cstring)).
      unfold lift. cbv beta iota. change (RANGE_HAS_LBOUND RANGE_EMPTY) with false.
      change (RANGE_HAS_UBOUND RANGE_EMPTY) with false. change (bit_set RANGE_EMPTY RANGE_EMPTY) with true.
      cbv beta iota. cbn [io_typcache]. by rewrite make_empty_flags. }
  destruct (deserialize_sides _ _ _ _ _ Hd) as (El & Eu & _).
  destruct (has_bounds_flags lo up) as [HLB HUB].
  assert (Hid : RangeTypeGetOid r = type_id tc)
    by (by destruct (serialize_deserialize tc rs_elem lo up false r Bl Bu El Eu Hs)).
  (* the text of each bound *)
  assert (HL : exists s d', (if negb (infinite lo) then s ← tio_out (val lo); Ok (Some s) else Ok None) = Ok s /\
      (infinite lo = true <-> s = None) /\
      (if negb (infinite lo) then tio_in tio_param typmod (opt_str s) else Ok (DWord 0)) = Ok d' /\
      (infinite lo = false -> same_stored tc d' (val lo))).
  { destruct (infinite lo) eqn:Ei; cbn [negb]; [by exists None, (DWord 0)|].
    destruct (tio_roundtrip (val lo) typmod (Bl Ei)) as (s & d' & -> & Hi & Hss). by exists (Some s), d'. }
  assert (HU : exists s d', (if negb (infinite up) then s ← tio_out (val up); Ok (Some s) else Ok None) = Ok s /\
      (infinite up = true <-> s = None) /\
      (if negb (infinite up) then tio_in tio_param typmod (opt_str s) else Ok (DWord 0)) = Ok d' /\
      (infinite up = false -> same_stored tc d' (val up))).
  { destruct (infinite up) eqn:Ei; cbn [negb]; [by exists None, (DWord 0)|].
    destruct (tio_roundtrip (val up) typmod (Bu Ei)) as (s & d' & -> & Hi & Hss). by exists (Some s), d'. }
  destruct HL as (sl & dl & Ol & Nol & Il & Sl), HU as (su & du & Ou & Nou & Iu & Su).
  exists (range_deparse (bound_flags lo up) sl su). eexists. split.
  - unfold range_out, get_range_io_data, mbind, Fn_bind. rewrite Hid, Hlk, Hout.
    cbn [io_typcache]. rewrite Hd, Hf, HLB, HUB. unfold OutputFunctionCall. cbn [typioproc].
    unfold mbind in Ol, Ou. unfold lift. rewrite Ol, Ou. reflexivity.
  - eexists. unfold range_in, get_range_io_data, mbind, Fn_bind. rewrite Hlk, Hin.
    rewrite parse_deparse.
    + unfold lift. rewrite HLB, HUB. unfold InputFunctionCall. cbn [typioproc typioparam io_typcache].
      rewrite Il, Iu. destruct (bound_flags_bits lo up) as (_ & _ & _ & _ & _ & _ & ->).
      by rewrite (rebuild lo up dl du r).
    + right. by exists lo, up.
    + rewrite HLB, negb_false_iff. done.
    + rewrite HUB, negb_false_iff. done.
Qed.

(** *** The binary form *)

Lemma getmsgint4_sendint32 n rest :
  0 <= n < 2 ^ 32 -> pq_getmsgint4 (pq_sendint32 n ++ rest) = Ok (n, rest).
Proof.
  intros Hn. unfold pq_getmsgint4, pq_copymsgbytes, pq_getmsgbytes, pq_sendint32.
  assert (Hl : length (rev (le_bytes 4 n)) = 4%nat) by (by rewrite length_rev, length_le_bytes).
  destruct (_ || _) eqn:E.
  { apply orb_true_iff in E as [E|E]; zbool; [lia|]. rewrite length_app, Hl in E. lia. }
  cbn [mbind result_bind]. change (Z.to_nat 4) with 4%nat.
  rewrite take_app_length', drop_app_length' by done.
  rewrite rev_involutive, le_value_bytes. by rewrite Z.mod_small.
Qed.

Lemma getmsgbytes_app bs rest :
  pq_getmsgbytes (bs ++ rest) (Z.of_nat (length bs)) = Ok (bs, rest).
Proof.
  unfold pq_getmsgbytes. destruct (_ || _) eqn:E.
  { apply orb_true_iff in E as [E|E]; zbool; [lia|]. rewrite length_app in E. lia. }
  rewrite Nat2Z.id, take_app_length, drop_app_length. done.
Qed.

Lemma recv_send_bound `{!BinaryIO tc} p b typmod rest :
  bound_ok tc b -> infinite b = false ->
  exists bs d', send_bound (mkIOData tc (SendProc bio_send) p) (val b) = Ok bs /\
    recv_bound (mkIOData tc (ReceiveProc bio_recv) bio_param) typmod (bs ++ rest) = Ok (d', rest) /\
    same_stored tc d' (val b).
Proof.
  intros Hb Hi. destruct (bio_roundtrip (val b) typmod (Hb Hi)) as (bs & d' & Hsnd & Hlen & Hrcv & Hss).
  exists (pq_sendint32 (Z.of_nat (length bs)) ++ bs), d'. unfold send_bound, SendFunctionCall. cbn [typioproc].
  rewrite Hsnd. split_and!; [done| |done].
  unfold recv_bound. rewrite <- app_assoc, getmsgint4_sendint32 by lia. cbn [mbind result_bind].
  rewrite swrap_small by (unfold in_sint; lia). rewrite getmsgbytes_app. cbn [mbind result_bind].
  unfold ReceiveFunctionCall. cbn [typioproc typioparam]. by rewrite Hrcv.
Qed.

Lemma recv_mask_flags lo up : Z.land (bound_flags lo up) recv_mask = bound_flags lo up.
Proof. unfold bound_flags. by destruct (infinite lo), (inclusive lo), (infinite up), (inclusive up). Qed.

Lemma binary_roundtrip `{!BinaryIO tc} r typmod :
  stored_range tc r -> settled tc r ->
  exists bs x, range_send r None = Ok (bs, x) /\
    exists y, range_recv bs (type_id tc) typmod None = Ok (r, y).
Proof.
  intros Hst Hset. destruct (bio_send_proc (tc := tc)) as [ps Hsnd].
  pose proof (bio_recv_proc (tc := tc)) as Hrcv. pose proof (bio_lookup (tc := tc)) as Hlk.
  destruct (stored_range_view tc r Hst) as [->|(lo & up & Hd & Hf & Bl & Bu & Hs & Nl & Nu)].
  { eexists _, _. split.
    - unfold range_send, get_range_io_data, RangeTypeGetOid, mbind, Fn_bind. cbn [rangetypid empty_range].
      rewrite Hlk, Hsnd. reflexivity.
    - eexists. unfold range_recv, get_range_io_data, mbind, Fn_bind. rewrite Hlk, Hrcv.
      change (lift (pq_getmsgbyte _)) with (lift (S := IOExtra) (Ok (RANGE_EMPTY, @nil Z))).
      unfold lift. cbv beta iota zeta. change (Z.land RANGE_EMPTY recv_mask) with RANGE_EMPTY.
      change (RANGE_HAS_LBOUND RANGE_EMPTY) with false.
      change (RANGE_HAS_UBOUND RANGE_EMPTY) with false. change (bit_set RANGE_EMPTY RANGE_EMPTY) with true.
      cbv beta iota. cbn [io_typcache pq_getmsgend]. by rewrite make_empty_flags. }
  destruct (deserialize_sides _ _ _ _ _ Hd) as (El & Eu & _).
  destruct (has_bounds_flags lo up) as [HLB HUB].
  assert (Hid : RangeTypeGetOid r = type_id tc)
    by (by destruct (serialize_deserialize tc rs_elem lo up false r Bl Bu El Eu Hs)).
  assert (HB : forall b rest, bound_ok tc b ->
    exists bs d', (if negb (infinite b) then send_bound (mkIOData tc (SendProc bio_send) ps) (val b) else Ok []) = Ok bs /\
      (if negb (infinite b) then recv_bound (mkIOData tc (ReceiveProc bio_recv) bio_param) typmod (bs ++ rest)
       else Ok (DWord 0, bs ++ rest)) = Ok (d', rest) /\
      (infinite b = false -> same_stored tc d' (val b))).
  { intros b rest Hb. destruct (infinite b) eqn:Ei; cbn [negb]; [by exists [], (DWord 0)|].
    destruct (recv_send_bound ps b typmod rest Hb Ei) as (bs & d' & ? & ? & ?). by exists bs, d'. }
  destruct (HB up [] Bu) as (ub & du & Ou & Iu & Su). destruct (HB lo ub Bl) as (lb & dl & Ol & Il & Sl).
  rewrite app_nil_r in Iu.
  exists ([bound_flags lo up] ++ lb ++ ub). eexists. split.
  - unfold range_send, get_range_io_data, mbind, Fn_bind. rewrite Hid, Hlk, Hsnd.
    cbn [io_typcache]. rewrite Hd, Hf, HLB, HUB. unfold lift. rewrite Ol, Ou. reflexivity.
  - eexists. unfold range_recv, get_range_io_data, mbind, Fn_bind. rewrite Hlk, Hrcv.
    cbn [app pq_getmsgbyte lift]. rewrite recv_mask_flags, HLB, HUB. unfold lift. rewrite Il, Iu.
    cbn [pq_getmsgend io_typcache]. destruct (bound_flags_bits lo up) as (_ & _ & _ & _ & _ & _ & ->).
    by rewrite (rebuild lo up dl du r).
Qed.

End RoundTrip.
