(* ===== verification/Numutils.v ===== *)
(** * Decimal text of integers

    src/backend/utils/adt/numutils.c: printing of unsigned and signed integers
    into a caller's buffer, and the scanners [pg_strtoint16], [pg_strtoint32]
    and [scanint8] (int8.c).  A buffer is the list of its characters, and a
    store outside of it is undefined behaviour. *)

From S2P Require Import Prelude Varlena RangeTypes RangeParse.

(** ** Buffers *)

Definition NUL : ascii := "000"%char.

(** [memcpy(a + off, bs, length bs)]. *)
Definition put (a : cstring) (off : Z) (bs : cstring) : result cstring :=
  if (0 <=? off) && (off + Z.of_nat (length bs) <=? Z.of_nat (length a)) then
    Ok (take (Z.to_nat off) a ++ bs ++ drop (Z.to_nat off + length bs) a)
  else undefined "store outside of the buffer".

(** The string that starts at a buffer. *)
Fixpoint c_str (a : cstring) : cstring :=
  match a with
  | [] => []
  | c :: a' => if ascii_dec c NUL then [] else c :: c_str a'
  end.

(** ** Printing *)

Definition DIGIT_TABLE : cstring := c_string
  "00010203040506070809101112131415161718192021222324252627282930313233343536373839404142434445464748495051525354555657585960616263646566676869707172737475767778798081828384858687888990919293949596979899".

(** [DIGIT_TABLE + c], two characters. *)
Definition two_digits (c : Z) : cstring := take 2 (drop (Z.to_nat c) DIGIT_TABLE).

(** The number of leading zeros is that of the builtin. *)
Definition pg_leftmost_one_pos (word : Z) : Z := Z.log2 word.

Definition powers_of_ten (n : nat) : list Z := map (fun i => 10 ^ Z.of_nat i) (seq 0 n).

Definition decimalLength32 (v : Z) : result Z :=
  let t := (pg_leftmost_one_pos v + 1) * 1233 / 4096 in
  p ← array_get (powers_of_ten 10) t;
  Ok (t + (if v >=? p then 1 else 0)).

Definition decimalLength64 (v : Z) : result Z :=
  let t := (pg_leftmost_one_pos v + 1) * 1233 / 4096 in
  p ← array_get (powers_of_ten 20) t;
  Ok (t + (if v >=? p then 1 else 0)).

(** Four digits that end at [pos]. *)
Definition put_four (a : cstring) (pos c : Z) : result cstring :=
  let c0 := Z.shiftl (c mod 100) 1 in
  let c1 := Z.shiftl (c / 100) 1 in
  a ← put a (pos - 2) (two_digits c0);
  put a (pos - 4) (two_digits c1).

(** The loop of [pg_ultoa_n]; the rest of the value, [i] and the buffer. *)
Fixpoint ultoa_loop (fuel : nat) (value olength i : Z) (a : cstring) : result (Z * Z * cstring) :=
  match fuel with
  | O => undefined "out of fuel"
  | S fuel' =>
      if value >=? 10000 then
        let c := value - 10000 * (value / 10000) in
        a ← put_four a (olength - i) c;
        ultoa_loop fuel' (value / 10000) olength (i + 4) a
      else Ok (value, i, a)
  end.

(** The last one to four digits; [value] is less than 10000. *)
Definition ultoa_rest (value olength i : Z) (a : cstring) : result cstring :=
  '(value, i, a) ← (if value >=? 100 then
                      a ← put a (olength - i - 2) (two_digits (Z.shiftl (value mod 100) 1));
                      Ok (value / 100, i + 2, a)
                    else Ok (value, i, a));
  if value >=? 10 then put a (olength - i - 2) (two_digits (Z.shiftl value 1))
  else put a 0 [ascii_of_N (Z.to_N (48 + value))].

(** The length and the buffer.  Two turns of the loop are enough for 32 bits. *)
Definition pg_ultoa_n (value : Z) (a : cstring) : result (Z * cstring) :=
  if value =? 0 then a ← put a 0 ["0"%char]; Ok (1, a)
  else
    olength ← decimalLength32 value;
    '(value, i, a) ← ultoa_loop 3 value olength 0 a;
    a ← ultoa_rest value olength i a;
    Ok (olength, a).

(** The loop of [pg_ulltoa_n]. *)
Fixpoint ulltoa_loop (fuel : nat) (value olength i : Z) (a : cstring) : result (Z * Z * cstring) :=
  match fuel with
  | O => undefined "out of fuel"
  | S fuel' =>
      if value >=? 100000000 then
        let q := value / 100000000 in
        let value2 := uwrap 32 (value - 100000000 * q) in
        let c := value2 mod 10000 in
        let d := value2 / 10000 in
        a ← put_four a (olength - i) c;
        a ← put_four a (olength - i - 4) d;
        ulltoa_loop fuel' q olength (i + 8) a
      else Ok (value, i, a)
  end.

Definition pg_ulltoa_n (value : Z) (a : cstring) : result (Z * cstring) :=
  if value =? 0 then a ← put a 0 ["0"%char]; Ok (1, a)
  else
    olength ← decimalLength64 value;
    '(value, i, a) ← ulltoa_loop 3 value olength 0 a;
    let value2 := uwrap 32 value in
    '(value2, i, a) ← (if value2 >=? 10000 then
                         let c := value2 - 10000 * (value2 / 10000) in
                         a ← put_four a (olength - i) c;
                         Ok (value2 / 10000, i + 4, a)
                       else Ok (value2, i, a));
    a ← ultoa_rest value2 olength i a;
    Ok (olength, a).

(** A signed integer of [w] bits, NUL-terminated: [uvalue] is negated as an
    unsigned integer, and [a++] skips the sign. *)
Definition put_signed (w : Z) (print : Z -> cstring -> result (Z * cstring)) (value : Z) (a : cstring) : result cstring :=
  let uvalue := uwrap w value in
  if value <? 0 then
    let uvalue := uwrap w (0 - uvalue) in
    a ← put a 0 ["-"%char];
    '(len, a') ← print uvalue (drop 1 a);
    a' ← put a' len [NUL];
    Ok (take 1 a ++ a')
  else
    '(len, a) ← print uvalue a;
    put a len [NUL].

Definition pg_ltoa (value : Z) (a : cstring) : result cstring := put_signed 32 pg_ultoa_n value a.
Definition pg_lltoa (value : Z) (a : cstring) : result cstring := put_signed 64 pg_ulltoa_n value a.
Definition pg_itoa (i : Z) (a : cstring) : result cstring := pg_ltoa i a.

(** The end of the text and the buffer; the short cut is for hours and the like. *)
Definition pg_ultostr_zeropad (str : cstring) (value minwidth : Z) : result (Z * cstring) :=
  if (value <? 100) && (minwidth =? 2) then str ← put str 0 (two_digits (value * 2)); Ok (2, str)
  else
    '(len, str) ← pg_ultoa_n value str;
    if len >=? minwidth then Ok (len, str)
    else
      str ← put str (minwidth - len) (take (Z.to_nat len) str);
      str ← put str 0 (replicate (Z.to_nat (minwidth - len)) "0"%char);
      Ok (minwidth, str).

Definition pg_ultostr (str : cstring) (value : Z) : result (Z * cstring) := pg_ultoa_n value str.

(** ** Scanning *)

Definition isdigit (c : Z) : bool := (48 <=? c) && (c <=? 57).

(** The labels at which a scan ends. *)
Inductive Scan : Type :=
| Scanned (tmp : Z)
| OutOfRange
| InvalidSyntax.

(** [pg_mul_sN_overflow] and [pg_sub_sN_overflow]: [None] on overflow. *)
Definition checked (w x : Z) : option Z :=
  if (- 2 ^ (w - 1) <=? x) && (x <? 2 ^ (w - 1)) then Some x else None.

Definition mul_overflow (w a b : Z) : option Z := checked w (a * b).
Definition sub_overflow (w a b : Z) : option Z := checked w (a - b).

(** The digits, accumulated as a negative number; [None] when out of range. *)
Fixpoint scan_digits (w : Z) (ptr : cstring) (tmp : Z) : option (Z * cstring) :=
  match ptr with
  | [] => Some (tmp, [])
  | c :: ptr' =>
      if isdigit (chr c) then
        let digit := chr c - 48 in
        match mul_overflow w tmp 10 with
        | None => None
        | Some tmp => match sub_overflow w tmp digit with None => None | Some tmp => scan_digits w ptr' tmp end
        end
      else Some (tmp, ptr)
  end.

Definition scan_int (w : Z) (s : cstring) : Scan :=
  let ptr := skip_spaces s in
  let '(neg, ptr) :=
    if deref ptr =? 45 then (true, advance ptr) else if deref ptr =? 43 then (false, advance ptr) else (false, ptr) in
  if negb (isdigit (deref ptr)) then InvalidSyntax
  else
    match scan_digits w ptr 0 with
    | None => OutOfRange
    | Some (tmp, ptr) =>
        match skip_spaces ptr with
        | _ :: _ => InvalidSyntax
        | [] =>
            if negb neg then if tmp =? - 2 ^ (w - 1) then OutOfRange else Scanned (- tmp)
            else Scanned tmp
        end
    end.

Definition out_of_range {A} : result A := ereport ERRCODE_NUMERIC_VALUE_OUT_OF_RANGE "value is out of range for type".
Definition invalid_syntax {A} : result A := ereport ERRCODE_INVALID_TEXT_REPRESENTATION "invalid input syntax for type".

Definition scan_result (scan : Scan) : result Z :=
  match scan with Scanned v => Ok v | OutOfRange => out_of_range | InvalidSyntax => invalid_syntax end.

Definition pg_strtoint16 (s : cstring) : result Z := scan_result (scan_int 16 s).
Definition pg_strtoint32 (s : cstring) : result Z := scan_result (scan_int 32 s).

(** The return value and [*result], which is set only when it is true. *)
Definition scanint8 (str : cstring) (errorOK : bool) : result (option Z) :=
  match scan_int 64 str with
  | Scanned v => Ok (Some v)
  | OutOfRange => if errorOK then Ok None else out_of_range
  | InvalidSyntax => if errorOK then Ok None else invalid_syntax
  end.

Example print_int4_min : c_str (match pg_ltoa (-2147483648) (replicate 12 NUL) with Ok a => a | Err _ => [] end) = c_string "-2147483648".
Proof. vm_compute. reflexivity. Qed.

Example print_int8_min : c_str (match pg_lltoa (-9223372036854775808) (replicate 21 NUL) with Ok a => a | Err _ => [] end) = c_string "-9223372036854775808".
Proof. vm_compute. reflexivity. Qed.

Example scan_int4_min : pg_strtoint32 (c_string " -2147483648 ") = Ok (-2147483648).
Proof. vm_compute. reflexivity. Qed.
