(* ===== verification/NumutilsProofs.v ===== *)
(** * Decimal text of integers: proofs

    The printing functions write the decimal digits of the value and stay
    inside the buffer; the scanners accept exactly the integer literals whose
    value is in range; scanning gives back what was printed. *)

From S2P Require Import Prelude Varlena RangeTypes RangeParse Numutils.

(** ** Decimal digits *)

Definition digit_char (d : Z) : ascii := ascii_of_N (Z.to_N (48 + d)).

(** The [n] lowest decimal digits of [v]. *)
Fixpoint dec (n : nat) (v : Z) : cstring :=
  match n with
  | O => []
  | S n' => dec n' (v / 10) ++ [digit_char (v mod 10)]
  end.

(** [v] has [n] decimal digits (zero has one). *)
Definition has_digits (v : Z) (n : nat) : Prop :=
  (1 <= n)%nat /\ (n = 1%nat \/ 10 ^ (Z.of_nat n - 1) <= v) /\ 0 <= v < 10 ^ Z.of_nat n.

Lemma pow10_pos k : 0 <= k -> 0 < 10 ^ k.
Proof. intros. apply Z.pow_pos_nonneg; lia. Qed.

Lemma length_dec n v : length (dec n v) = n.
Proof. revert v. induction n as [|n IH]; intros v; [done|]. cbn [dec]. rewrite length_app, IH. cbn. lia. Qed.

Lemma dec_app n m v : dec (n + m) v = dec n (v / 10 ^ Z.of_nat m) ++ dec m v.
Proof.
  revert v. induction m as [|m IH]; intros v.
  - by rewrite Nat.add_0_r, Z.div_1_r, app_nil_r.
  - rewrite Nat.add_succ_r. cbn [dec]. rewrite IH, app_assoc. do 3 f_equal. rewrite Z.div_div by (try apply pow10_pos; lia).
    f_equal. by rewrite Nat2Z.inj_succ, Z.pow_succ_r by lia.
Qed.

Lemma dec_mod n k v : Z.of_nat n <= k -> dec n (v mod 10 ^ k) = dec n v.
Proof.
  revert k v. induction n as [|n IH]; intros k v Hk; [done|]. cbn [dec].
  replace (10 ^ k) with (10 * 10 ^ (k - 1)) by (rewrite <- Z.pow_succ_r by lia; f_equal; lia).
  pose proof (pow10_pos (k - 1) ltac:(lia)).
  assert (E : v mod (10 * 10 ^ (k - 1)) = v mod 10 + 10 * ((v / 10) mod 10 ^ (k - 1))) by (apply Z.rem_mul_r; lia).
  rewrite E, (Z.mul_comm 10 (_ mod _)), Z.div_add, (Z.div_small (v mod 10) 10), Z.add_0_l, IH by zlia.
  by rewrite Z.mod_add, Z.mod_mod by lia.
Qed.

Lemma two_digits_dec k : 0 <= k < 100 -> two_digits (Z.shiftl k 1) = dec 2 k.
Proof.
  intros Hk. assert (Hall : Forall (fun k => two_digits (Z.shiftl k 1) = dec 2 k) (seqZ 0 100)).
  { apply (bool_decide_eq_true_1 _). vm_compute. reflexivity. }
  rewrite List.Forall_forall in Hall. apply Hall, list_elem_of_In, elem_of_seqZ. lia.
Qed.

Lemma has_digits_div v n (k : nat) :
  has_digits v n -> 10 ^ Z.of_nat k <= v -> (k < n)%nat /\ has_digits (v / 10 ^ Z.of_nat k) (n - k).
Proof.
  intros (Hn & Hlow & Hv & Hhigh) Hk. pose proof (pow10_pos (Z.of_nat k) ltac:(lia)).
  assert (Hkn : (k < n)%nat).
  { destruct (Nat.lt_ge_cases k n); [done|]. pose proof (Z.pow_le_mono_r 10 (Z.of_nat n) (Z.of_nat k) ltac:(lia) ltac:(lia)). lia. }
  split; [done|]. split_and!; [lia| | |].
  - destruct (decide (n - k = 1)%nat); [by left|right]. destruct Hlow as [|Hlow]; [lia|].
    apply Z.div_le_lower_bound; [done|]. rewrite <- Z.pow_add_r by lia. replace (Z.of_nat k + _) with (Z.of_nat n - 1) by lia. done.
  - by apply Z.div_pos.
  - apply Z.div_lt_upper_bound; [done|]. rewrite <- Z.pow_add_r by lia. replace (Z.of_nat k + _) with (Z.of_nat n) by lia. done.
Qed.

(** ** The length of a number *)

(** What the approximation of the logarithm needs, for each power of two. *)
Definition length_check (bits : Z) (tens : nat) : bool :=
  forallb (fun k => let t := (k + 1) * 1233 / 4096 in
    (10 ^ (t - 1) <=? 2 ^ k) && (2 ^ (k + 1) <=? 10 ^ (t + 1)) && (0 <=? t) && (t <? Z.of_nat tens)) (seqZ 0 bits).

Lemma decimal_length bits tens v :
  length_check bits tens = true -> 0 < v < 2 ^ bits -> 0 <= bits ->
  exists n, has_digits v n /\
    (p ← array_get (powers_of_ten tens) ((pg_leftmost_one_pos v + 1) * 1233 / 4096);
     Ok ((pg_leftmost_one_pos v + 1) * 1233 / 4096 + (if v >=? p then 1 else 0))) = Ok (Z.of_nat n).
Proof.
  intros Hc [Hv1 Hv2] Hb. unfold pg_leftmost_one_pos. set (k := Z.log2 v).
  destruct (Z.log2_spec v Hv1) as [Hk1 Hk2]. fold k in Hk1, Hk2. rewrite <- Z.add_1_r in Hk2.
  assert (Hk : 0 <= k < bits) by (split; [apply Z.log2_nonneg|by apply Z.log2_lt_pow2]).
  unfold length_check in Hc. rewrite forallb_forall in Hc. specialize (Hc k ltac:(apply list_elem_of_In, elem_of_seqZ; lia)).
  cbv zeta in Hc. set (t := (k + 1) * 1233 / 4096) in *. zbool.
  assert (Hg : array_get (powers_of_ten tens) t = Ok (10 ^ t)).
  { apply array_get_lookup; [done|]. unfold powers_of_ten. rewrite list_lookup_fmap, lookup_seq_lt by lia. cbn. do 2 f_equal. lia. }
  rewrite Hg. cbn [mbind result_bind]. destruct (Z.geb_spec v (10 ^ t)) as [Hge|Hlt].
  - exists (Z.to_nat (t + 1)). split; [|f_equal; lia]. split_and!; [lia| |lia|rewrite Z2Nat.id by lia; lia].
    right. rewrite Z2Nat.id by lia. replace (t + 1 - 1) with t by lia. lia.
  - assert (0 < t) by (destruct (decide (t = 0)) as [E|]; [rewrite E in Hlt; cbn in Hlt; lia|lia]).
    exists (Z.to_nat t). split; [|f_equal; lia]. rewrite <- (Z2Nat.id t) in Hlt by lia. split_and!; [lia| |lia|done].
    right. rewrite Z2Nat.id by lia. lia.
Qed.

Lemma decimalLength32_ok v : 0 < v < 2 ^ 32 -> exists n, has_digits v n /\ decimalLength32 v = Ok (Z.of_nat n).
Proof. intros Hv. apply (decimal_length 32 10 v); [vm_compute; reflexivity|done|lia]. Qed.

Lemma decimalLength64_ok v : 0 < v < 2 ^ 64 -> exists n, has_digits v n /\ decimalLength64 v = Ok (Z.of_nat n).
Proof. intros Hv. apply (decimal_length 64 20 v); [vm_compute; reflexivity|done|lia]. Qed.

(** ** Printing *)

Lemma put_app P X S bs off :
  off = Z.of_nat (length P) -> length X = length bs -> put (P ++ X ++ S) off bs = Ok (P ++ bs ++ S).
Proof.
  intros -> Hx. unfold put. rewrite !length_app, Hx.
  destruct (Z.leb_spec 0 (Z.of_nat (length P))); [|lia]. cbn [andb].
  destruct (Z.leb_spec (Z.of_nat (length P) + Z.of_nat (length bs)) (Z.of_nat (length P + (length bs + length S)))); [|lia].
  rewrite Nat2Z.id, take_app_length, <- Hx, <- drop_drop, drop_app_length, drop_app_length. done.
Qed.

(** The last [k] characters of a part of the buffer. *)
Lemma split_last (P : cstring) k : (k <= length P)%nat -> exists P' X, P = P' ++ X /\ length P' = (length P - k)%nat /\ length X = k.
Proof.
  intros Hk. exists (take (length P - k) P), (drop (length P - k) P). rewrite take_drop, length_take, length_drop.
  split_and!; [done|lia|lia].
Qed.

Lemma put_end P S k bs off :
  length bs = k -> (k <= length P)%nat -> off = Z.of_nat (length P) - Z.of_nat k ->
  exists P', length P' = (length P - k)%nat /\ put (P ++ S) off bs = Ok (P' ++ bs ++ S).
Proof.
  intros Hb Hk ->. destruct (split_last P k Hk) as (P' & X & -> & Hp & Hx). exists P'. rewrite length_app in *.
  split; [lia|]. rewrite <- app_assoc. apply put_app; [lia|congruence].
Qed.

Lemma put_two P S k off :
  0 <= k < 100 -> (2 <= length P)%nat -> off = Z.of_nat (length P) - 2 ->
  exists P', length P' = (length P - 2)%nat /\ put (P ++ S) off (two_digits (Z.shiftl k 1)) = Ok (P' ++ dec 2 k ++ S).
Proof.
  intros Hk HP ->. rewrite two_digits_dec by done. apply put_end; [apply length_dec|done|done].
Qed.

Lemma put_four_ok P S c pos :
  0 <= c < 10000 -> (4 <= length P)%nat -> pos = Z.of_nat (length P) ->
  exists P', length P' = (length P - 4)%nat /\ put_four (P ++ S) pos c = Ok (P' ++ dec 4 c ++ S).
Proof.
  intros Hc HP ->. unfold put_four.
  destruct (put_two P S (c mod 100) (Z.of_nat (length P) - 2)) as (P1 & H1 & ->); [zlia|lia|lia|]. cbn [mbind result_bind].
  destruct (put_two P1 (dec 2 (c mod 100) ++ S) (c / 100) (Z.of_nat (length P) - 4)) as (P2 & H2 & ->); [zlia|lia|lia|].
  exists P2. split; [lia|]. change 4%nat with (2 + 2)%nat. rewrite dec_app, (dec_mod 2 2) by lia. by rewrite <- app_assoc.
Qed.

(** The state of the printing loops: the rest of the value has as many digits
    as there are characters before what was printed. *)
Definition printing (value olength i : Z) (P : cstring) : Prop :=
  has_digits value (length P) /\ olength - i = Z.of_nat (length P).

(** One turn that prints the [k] lowest digits. *)
Lemma printing_step value olength i P (k : nat) :
  printing value olength i P -> 10 ^ Z.of_nat k <= value ->
  (k < length P)%nat /\ forall P', length P' = (length P - k)%nat -> printing (value / 10 ^ Z.of_nat k) olength (i + Z.of_nat k) P'.
Proof.
  intros [Hd Ho] Hk. destruct (has_digits_div _ _ _ Hd Hk) as [Hl Hd']. split; [done|].
  intros P' Hp. split; [by rewrite Hp|]. lia.
Qed.

Lemma dec_split value (n k : nat) : (k <= n)%nat -> dec n value = dec (n - k) (value / 10 ^ Z.of_nat k) ++ dec k value.
Proof. intros Hk. rewrite <- dec_app. f_equal. lia. Qed.

Lemma ultoa_loop_ok fuel value olength i P S :
  printing value olength i P -> 0 < value < 10 ^ (4 * Z.of_nat fuel) ->
  exists value' i' P' q, ultoa_loop fuel value olength i (P ++ S) = Ok (value', i', P' ++ q ++ S) /\
    printing value' olength i' P' /\ value' < 10000 /\ dec (length P) value = dec (length P') value' ++ q.
Proof.
  revert value i P S. induction fuel as [|fuel IH]; intros value i P S Hp Hf; cbn [ultoa_loop].
  { cbn in Hf. lia. }
  destruct (Z.geb_spec value 10000) as [Hv|Hv].
  - destruct (printing_step value olength i P 4 Hp Hv) as [Hl Hnext]. destruct Hp as [Hd Ho]. pose proof Hd as (_ & _ & Hpos).
    destruct (put_four_ok P S (value - 10000 * (value / 10000)) (olength - i)) as (P1 & HP1 & ->); [zlia|lia|lia|].
    cbn [mbind result_bind].
    destruct (IH (value / 10000) (i + 4) P1 (dec 4 (value - 10000 * (value / 10000)) ++ S)) as (v' & i' & P' & q & E & Hp' & Hv' & Hdec).
    { by apply Hnext. }
    { split; [apply Z.div_str_pos; lia|]. apply Z.div_lt_upper_bound; [lia|]. replace (4 * Z.of_nat (Datatypes.S fuel)) with (4 + 4 * Z.of_nat fuel) in Hf by lia.
      rewrite Z.pow_add_r in Hf by lia. lia. }
    exists v', i', P', (q ++ dec 4 value). split_and!; [|done|done|].
    + rewrite E. replace (value - 10000 * (value / 10000)) with (value mod 10 ^ 4) by (change (10 ^ 4) with 10000; zlia).
      rewrite (dec_mod 4 4) by lia. by rewrite <- app_assoc.
    + rewrite (dec_split value (length P) 4) by lia. rewrite HP1 in Hdec. change (10 ^ Z.of_nat 4) with 10000.
      by rewrite Hdec, app_assoc.
  - exists value, i, P, []. by rewrite app_nil_r.
Qed.

Lemma ultoa_rest_ok value olength i P S :
  printing value olength i P -> value < 10000 -> ultoa_rest value olength i (P ++ S) = Ok (dec (length P) value ++ S).
Proof.
  assert (Hlast : forall value i P S, printing value olength i P -> value < 100 ->
    (if value >=? 10 then put (P ++ S) (olength - i - 2) (two_digits (Z.shiftl value 1))
     else put (P ++ S) 0 [ascii_of_N (Z.to_N (48 + value))]) = Ok (dec (length P) value ++ S)).
  { clear. intros value i P S Hp Hv. pose proof Hp as [(Hn & Hlow & Hpos & Hhigh) Ho]. destruct (Z.geb_spec value 10) as [H10|H10].
    - destruct (printing_step value olength i P 1 Hp H10) as [Hl Hnext].
      assert (Hl2 : length P = 2%nat).
      { destruct Hlow as [|Hlow]; [lia|]. destruct (decide (length P = 2)%nat); [done|].
        pose proof (Z.pow_le_mono_r 10 2 (Z.of_nat (length P) - 1) ltac:(lia) ltac:(lia)). lia. }
      destruct (put_two P S value (olength - i - 2)) as (P' & HP' & ->); [lia|lia|lia|].
      destruct P'; [|cbn in HP'; lia]. by rewrite Hl2.
    - assert (Hl1 : length P = 1%nat).
      { destruct Hlow as [|Hlow]; [lia|]. destruct (decide (length P = 1)%nat); [done|].
        pose proof (Z.pow_le_mono_r 10 1 (Z.of_nat (length P) - 1) ltac:(lia) ltac:(lia)). lia. }
      rewrite (put_app [] P S) by done. rewrite Hl1. cbn [dec app]. by rewrite Z.mod_small by lia. }
  intros Hp Hv. unfold ultoa_rest. destruct (Z.geb_spec value 100) as [Hge|Hlt]; cbn [mbind result_bind]; [|by apply Hlast].
  destruct (printing_step value olength i P 2 Hp Hge) as [Hl Hnext]. pose proof Hp as [(_ & _ & Hpos & _) Ho].
  destruct (put_two P S (value mod 100) (olength - i - 2)) as (P' & HP' & ->); [zlia|lia|lia|]. cbn [mbind result_bind].
  rewrite (Hlast (value / 100) (i + 2) P'); [|by apply Hnext|zlia].
  rewrite (dec_mod 2 2), (dec_split value (length P) 2), HP' by lia. by rewrite <- app_assoc.
Qed.

(** Eight digits, as two groups of four. *)
Lemma put_eight_ok P S v pos :
  0 <= v < 100000000 -> (8 <= length P)%nat -> pos = Z.of_nat (length P) ->
  exists P', length P' = (length P - 8)%nat /\
    (a ← put_four (P ++ S) pos (v mod 10000); put_four a (pos - 4) (v / 10000)) = Ok (P' ++ dec 8 v ++ S).
Proof.
  intros Hv HP ->. destruct (put_four_ok P S (v mod 10000) (Z.of_nat (length P))) as (P1 & H1 & ->); [zlia|lia|lia|].
  cbn [mbind result_bind].
  destruct (put_four_ok P1 (dec 4 (v mod 10000) ++ S) (v / 10000) (Z.of_nat (length P) - 4)) as (P2 & H2 & ->); [zlia|lia|lia|].
  exists P2. split; [lia|]. change 8%nat with (4 + 4)%nat. change 10000 with (10 ^ 4).
  rewrite dec_app, (dec_mod 4 4) by lia. by rewrite <- app_assoc.
Qed.

Lemma ulltoa_loop_ok fuel value olength i P S :
  printing value olength i P -> 0 < value < 10 ^ (8 * Z.of_nat fuel) ->
  exists value' i' P' q, ulltoa_loop fuel value olength i (P ++ S) = Ok (value', i', P' ++ q ++ S) /\
    printing value' olength i' P' /\ 0 < value' < 100000000 /\ dec (length P) value = dec (length P') value' ++ q.
Proof.
  revert value i P S. induction fuel as [|fuel IH]; intros value i P S Hp Hf; cbn [ulltoa_loop]; [cbn in Hf; lia|].
  destruct (Z.geb_spec value 100000000) as [Hv|Hv].
  - destruct (printing_step value olength i P 8 Hp Hv) as [Hl Hnext]. destruct Hp as [Hd Ho].
    assert (Emod : uwrap 32 (value - 100000000 * (value / 100000000)) = value mod 10 ^ 8).
    { rewrite uwrap_small by (unfold in_uint; zlia). change (10 ^ 8) with 100000000. zlia. }
    cbv zeta. rewrite Emod. pose proof (Z.mod_pos_bound value (10 ^ 8) ltac:(lia)) as Hm.
    destruct (put_eight_ok P S (value mod 10 ^ 8) (olength - i) Hm ltac:(lia) ltac:(lia)) as (P1 & HP1 & E1).
    rewrite bind_assoc', E1. cbn [mbind result_bind].
    destruct (IH (value / 100000000) (i + 8) P1 (dec 8 (value mod 10 ^ 8) ++ S)) as (v' & i' & P' & q & E & Hp' & Hv' & Hdec).
    { by apply Hnext. }
    { split; [apply Z.div_str_pos; lia|]. apply Z.div_lt_upper_bound; [lia|].
      replace (8 * Z.of_nat (Datatypes.S fuel)) with (8 + 8 * Z.of_nat fuel) in Hf by lia. rewrite Z.pow_add_r in Hf by lia. lia. }
    exists v', i', P', (q ++ dec 8 value). split_and!; [|done|lia|lia|].
    + rewrite E, (dec_mod 8 8) by lia. by rewrite <- app_assoc.
    + rewrite (dec_split value (length P) 8) by lia. rewrite HP1 in Hdec. change (10 ^ Z.of_nat 8) with 100000000.
      by rewrite Hdec, app_assoc.
  - exists value, i, P, []. rewrite app_nil_r. split_and!; (done || lia).
Qed.

(** What a printing function promises for values below [bound]: the digits of
    the value at the start of the buffer, and their number. *)
Definition prints (print : Z -> cstring -> result (Z * cstring)) (bound : Z) : Prop :=
  forall v, 0 <= v < bound -> exists n, has_digits v n /\
    forall a, (n <= length a)%nat -> print v a = Ok (Z.of_nat n, dec n v ++ drop n a).

Lemma print_zero a : (1 <= length a)%nat -> (a ← put a 0 ["0"%char]; Ok (1, a)) = Ok (Z.of_nat 1, dec 1 0 ++ drop 1 a).
Proof. intros Ha. destruct a as [|c a]; [cbn in Ha; lia|]. by rewrite (put_app [] [c] a) by done. Qed.

Lemma zero_digits : has_digits 0 1.
Proof. split_and!; [lia|by left|lia|lia]. Qed.

(** The start of the buffer and its rest. *)
Lemma split_buffer (a : cstring) n : (n <= length a)%nat -> exists P S, a = P ++ S /\ length P = n /\ S = drop n a.
Proof. intros Hn. exists (take n a), (drop n a). rewrite take_drop, length_take. split_and!; [done|lia|done]. Qed.

Lemma pg_ultoa_n_ok : prints pg_ultoa_n (2 ^ 32).
Proof.
  intros v Hv. unfold pg_ultoa_n. destruct (Z.eqb_spec v 0) as [->|Hz].
  { exists 1%nat. split; [apply zero_digits|]. intros a Ha. by apply print_zero. }
  destruct (decimalLength32_ok v ltac:(lia)) as (n & Hd & ->). exists n. split; [done|]. intros a Ha.
  destruct (split_buffer a n Ha) as (P & S & Ea & HP & HS). rewrite <- HS. subst a. cbn [mbind result_bind].
  destruct (ultoa_loop_ok 3 v (Z.of_nat n) 0 P S) as (v' & i' & P' & q & -> & Hp & Hv' & Hdec).
  { split; [by rewrite HP|lia]. }
  { split; [lia|]. eapply Z.lt_trans; [apply Hv|]. vm_compute. reflexivity. }
  cbn [mbind result_bind]. rewrite (ultoa_rest_ok v' (Z.of_nat n) i' P' (q ++ S) Hp Hv'). cbn [mbind result_bind].
  by rewrite app_assoc, <- Hdec, HP.
Qed.

Lemma pg_ulltoa_n_ok : prints pg_ulltoa_n (2 ^ 64).
Proof.
  intros v Hv. unfold pg_ulltoa_n. destruct (Z.eqb_spec v 0) as [->|Hz].
  { exists 1%nat. split; [apply zero_digits|]. intros a Ha. by apply print_zero. }
  destruct (decimalLength64_ok v ltac:(lia)) as (n & Hd & ->). exists n. split; [done|]. intros a Ha.
  destruct (split_buffer a n Ha) as (P & S & Ea & HP & HS). rewrite <- HS. subst a. cbn [mbind result_bind].
  destruct (ulltoa_loop_ok 3 v (Z.of_nat n) 0 P S) as (v' & i' & P' & q & -> & Hp & Hv' & Hdec).
  { split; [by rewrite HP|lia]. }
  { split; [lia|]. eapply Z.lt_trans; [apply Hv|]. vm_compute. reflexivity. }
  cbn [mbind result_bind]. cbv zeta. rewrite (uwrap_small 32 v') by (unfold in_uint; lia).
  destruct (Z.geb_spec v' 10000) as [Hge|Hlt]; cbn [mbind result_bind].
  - destruct (printing_step v' (Z.of_nat n) i' P' 4 Hp Hge) as [Hl Hnext]. pose proof Hp as [_ Ho].
    destruct (put_four_ok P' (q ++ S) (v' - 10000 * (v' / 10000)) (Z.of_nat n - i')) as (P1 & HP1 & ->); [zlia|lia|lia|].
    cbn [mbind result_bind].
    rewrite (ultoa_rest_ok (v' / 10000) (Z.of_nat n) (i' + 4) P1); [|by apply Hnext|zlia]. cbn [mbind result_bind].
    replace (v' - 10000 * (v' / 10000)) with (v' mod 10 ^ 4) by (change (10 ^ 4) with 10000; zlia).
    rewrite (dec_mod 4 4), HP1 by lia. rewrite (dec_split v' (length P') 4) in Hdec by lia.
    change (10 ^ Z.of_nat 4) with 10000 in Hdec. by rewrite HP in Hdec; rewrite Hdec, !app_assoc.
  - rewrite (ultoa_rest_ok v' (Z.of_nat n) i' P' (q ++ S) Hp Hlt). cbn [mbind result_bind]. by rewrite app_assoc, <- Hdec, HP.
Qed.

(** ** Signed integers *)

(** The text of a signed integer. *)
Definition int_text (v : Z) (s : cstring) : Prop :=
  exists n, has_digits (Z.abs v) n /\ s = (if v <? 0 then ["-"%char] else []) ++ dec n (Z.abs v).

Lemma digit_char_chr d : 0 <= d < 10 -> chr (digit_char d) = 48 + d.
Proof. intros Hd. unfold chr, digit_char. rewrite N_ascii_embedding; lia. Qed.

Lemma c_str_dec n v q : c_str (dec n v ++ NUL :: q) = dec n v.
Proof.
  assert (Hd : forall m v q, c_str (dec m v ++ q) = dec m v ++ c_str q).
  { clear. induction m as [|m IH]; intros v q; [done|]. cbn [dec]. rewrite <- !app_assoc, IH. f_equal. cbn [app c_str].
    destruct (ascii_dec (digit_char (v mod 10)) NUL) as [E|]; [|done]. exfalso.
    pose proof (digit_char_chr (v mod 10) ltac:(zlia)) as Hc. rewrite E in Hc. change (chr NUL) with 0 in Hc. zlia. }
  rewrite Hd. cbn. by rewrite app_nil_r.
Qed.

Lemma put_nul n v a : (n < length a)%nat -> exists q, put (dec n v ++ drop n a) (Z.of_nat n) [NUL] = Ok (dec n v ++ NUL :: q).
Proof.
  intros Hn. destruct (drop n a) as [|c q] eqn:E; [apply (f_equal length) in E; rewrite length_drop in E; cbn in E; lia|].
  exists q. apply (put_app (dec n v) [c] q); [by rewrite length_dec|done].
Qed.

Lemma put_signed_ok w print value a :
  1 < w -> prints print (2 ^ w) -> in_sint w value ->
  (forall n, has_digits (Z.abs value) n -> (n + 2 <= length a)%nat) ->
  exists a', put_signed w print value a = Ok a' /\ int_text value (c_str a').
Proof.
  intros Hw Hprint [Hlo Hhi] Hlen. assert (E2 : 2 ^ w = 2 * 2 ^ (w - 1)) by (rewrite <- Z.pow_succ_r by lia; f_equal; lia).
  pose proof (pow2_pos (w - 1) ltac:(lia)).
  destruct (Hprint (Z.abs value) ltac:(lia)) as (n & Hd & Hp). specialize (Hlen n Hd).
  unfold put_signed, int_text. cbv zeta. destruct (Z.ltb_spec value 0) as [Hneg|Hpos].
  - assert (Eu : uwrap w (0 - uwrap w value) = Z.abs value).
    { unfold uwrap. rewrite Zminus_mod_idemp_r, Z.mod_small; lia. }
    destruct a as [|c a]; [cbn in Hlen; lia|]. cbn [length] in Hlen.
    rewrite (put_app [] [c] a) by done. cbn [mbind result_bind app].
    change (drop 1 ("-"%char :: a)) with a. change (take 1 ("-"%char :: a)) with ["-"%char]. rewrite Eu, Hp by lia. cbn [mbind result_bind].
    destruct (put_nul n (Z.abs value) a ltac:(lia)) as [q ->]. cbn [mbind result_bind]. eexists. split; [done|].
    exists n. split; [done|]. cbn [c_str app]. f_equal. apply c_str_dec.
  - assert (Eu : uwrap w value = Z.abs value) by (unfold uwrap; rewrite Z.mod_small; lia).
    rewrite Eu, Hp by lia. cbn [mbind result_bind]. destruct (put_nul n (Z.abs value) a ltac:(lia)) as [q ->].
    eexists. split; [done|]. exists n. split; [done|]. apply c_str_dec.
Qed.

(** ** Scanning *)

Definition is_space (c : ascii) : Prop := isspace (chr c) = true.
Definition is_digit (c : ascii) : Prop := isdigit (chr c) = true.

(** The value of digits that follow the value [acc]. *)
Fixpoint digits_value (acc : Z) (ds : cstring) : Z :=
  match ds with
  | [] => acc
  | c :: ds' => digits_value (acc * 10 + (chr c - 48)) ds'
  end.

(** An integer literal: spaces, an optional sign, digits; then [rest]. *)
Definition int_literal (s : cstring) (v : Z) (rest : cstring) : Prop :=
  exists sp sign ds, s = sp ++ sign ++ ds ++ rest /\ Forall is_space sp /\ ds <> [] /\ Forall is_digit ds /\
    ((sign = ["-"%char] /\ v = - digits_value 0 ds) \/ ((sign = [] \/ sign = ["+"%char]) /\ v = digits_value 0 ds)).

Lemma is_digit_range c : is_digit c -> 48 <= chr c <= 57.
Proof. unfold is_digit, isdigit. intros H. zbool. lia. Qed.

Lemma digit_not_space c : is_digit c -> isspace (chr c) = false.
Proof. intros Hc%is_digit_range. unfold isspace. destruct (Z.eqb_spec (chr c) 32); [lia|]. cbn [orb]. apply andb_false_iff. right. lia. Qed.

Lemma digits_value_mono ds acc : 0 <= acc -> Forall is_digit ds -> acc <= digits_value acc ds.
Proof.
  intros Ha Hd. revert acc Ha. induction Hd as [|c ds Hc Hd IH]; intros acc Ha; cbn; [lia|].
  apply is_digit_range in Hc. specialize (IH (acc * 10 + (chr c - 48)) ltac:(lia)). lia.
Qed.

Lemma digits_value_app ds ds' acc : digits_value acc (ds ++ ds') = digits_value (digits_value acc ds) ds'.
Proof. revert acc. induction ds as [|c ds IH]; intros acc; cbn; [done|]. apply IH. Qed.

(** The digits are accumulated exactly as long as they are in range: no
    intermediate value overflows before the result does. *)
Lemma scan_digits_ok w ds rest acc :
  0 < w -> 0 <= acc <= 2 ^ (w - 1) -> Forall is_digit ds -> isdigit (deref rest) = false ->
  scan_digits w (ds ++ rest) (- acc) =
  if digits_value acc ds <=? 2 ^ (w - 1) then Some (- digits_value acc ds, rest) else None.
Proof.
  intros Hw Ha Hd Hrest. pose proof (pow2_pos (w - 1) ltac:(lia)) as H2. revert acc Ha.
  induction Hd as [|c ds Hc Hd IH]; intros acc Ha; cbn [app scan_digits digits_value].
  - destruct (Z.leb_spec acc (2 ^ (w - 1))); [|lia]. destruct rest as [|c rest]; [done|]. cbn in Hrest |- *. by rewrite Hrest.
  - rewrite Hc. apply is_digit_range in Hc.
    pose proof (digits_value_mono ds (acc * 10 + (chr c - 48)) ltac:(lia) Hd) as Hm. unfold mul_overflow, sub_overflow, checked.
    destruct (Z.leb_spec (- 2 ^ (w - 1)) (- acc * 10)), (Z.ltb_spec (- acc * 10) (2 ^ (w - 1))); cbn [andb]; try lia.
    2: { destruct (Z.leb_spec (digits_value (acc * 10 + (chr c - 48)) ds) (2 ^ (w - 1))); [lia|done]. }
    destruct (Z.leb_spec (- 2 ^ (w - 1)) (- acc * 10 - (chr c - 48))), (Z.ltb_spec (- acc * 10 - (chr c - 48)) (2 ^ (w - 1)));
      cbn [andb]; try lia.
    2: { destruct (Z.leb_spec (digits_value (acc * 10 + (chr c - 48)) ds) (2 ^ (w - 1))); [lia|done]. }
    replace (- acc * 10 - (chr c - 48)) with (- (acc * 10 + (chr c - 48))) by lia. apply IH. lia.
Qed.

Lemma skip_spaces_split s : exists sp, s = sp ++ skip_spaces s /\ Forall is_space sp /\ isspace (deref (skip_spaces s)) = false.
Proof.
  induction s as [|c s (sp & E & Hsp & Hd)]; [by exists []|]. cbn [skip_spaces]. destruct (isspace (chr c)) eqn:Ec.
  - exists (c :: sp). split_and!; [cbn; congruence|by constructor|done].
  - by exists [].
Qed.

Lemma skip_spaces_app sp s : Forall is_space sp -> isspace (deref s) = false -> skip_spaces (sp ++ s) = s.
Proof.
  intros Hsp Hs. induction Hsp as [|c sp Hc Hsp IH]; [|cbn; by rewrite Hc]. destruct s as [|c s]; [done|].
  cbn in Hs |- *. by rewrite Hs.
Qed.

Lemma digits_split s : exists ds rest, s = ds ++ rest /\ Forall is_digit ds /\ isdigit (deref rest) = false.
Proof.
  induction s as [|c s (ds & rest & E & Hd & Hr)]; [by exists [], []|]. destruct (isdigit (chr c)) eqn:Ec.
  - exists (c :: ds), rest. split_and!; [cbn; congruence|by constructor|done].
  - by exists [], (c :: s).
Qed.

(** How a scan goes on after the spaces and the sign. *)
Definition scan_rest (w : Z) (neg : bool) (ds rest : cstring) : Scan :=
  if digits_value 0 ds <=? 2 ^ (w - 1) then
    match skip_spaces rest with
    | [] => if negb neg && (digits_value 0 ds =? 2 ^ (w - 1)) then OutOfRange
            else Scanned (if neg then - digits_value 0 ds else digits_value 0 ds)
    | _ => InvalidSyntax
    end
  else OutOfRange.

Lemma scan_int_literal w sp sign ds rest :
  0 < w -> Forall is_space sp -> sign = [] \/ sign = ["+"%char] \/ sign = ["-"%char] ->
  ds <> [] -> Forall is_digit ds -> isdigit (deref rest) = false ->
  scan_int w (sp ++ sign ++ ds ++ rest) = scan_rest w (bool_decide (sign = ["-"%char])) ds rest.
Proof.
  intros Hw Hsp Hsign Hne Hd Hrest. destruct ds as [|c ds]; [done|]. pose proof (Forall_inv Hd) as Hc.
  pose proof (is_digit_range c Hc) as Hcr. pose proof (pow2_pos (w - 1) ltac:(lia)) as H2.
  assert (Hbody : forall neg, (if negb (isdigit (deref ((c :: ds) ++ rest))) then InvalidSyntax
    else match scan_digits w ((c :: ds) ++ rest) 0 with
         | None => OutOfRange
         | Some (tmp, ptr) => match skip_spaces ptr with
             | _ :: _ => InvalidSyntax
             | [] => if negb neg then if tmp =? - 2 ^ (w - 1) then OutOfRange else Scanned (- tmp) else Scanned tmp end end)
    = scan_rest w neg (c :: ds) rest).
  { intros neg. cbn [app deref]. rewrite Hc. cbn [negb].
    pose proof (scan_digits_ok w (c :: ds) rest 0 Hw ltac:(lia) Hd Hrest) as Hs. change (- 0) with 0 in Hs. cbn [app] in Hs. rewrite Hs. unfold scan_rest.
    destruct (digits_value 0 (c :: ds) <=? 2 ^ (w - 1)); [|done]. destruct (skip_spaces rest); [|done].
    set (v := digits_value 0 (c :: ds)). destruct neg; cbn [negb andb]; [done|].
    destruct (Z.eqb_spec (- v) (- 2 ^ (w - 1))), (Z.eqb_spec v (2 ^ (w - 1))); try lia; [done|]. by rewrite Z.opp_involutive. }
  unfold scan_int. destruct Hsign as [ -> | [ -> | -> ]]; cbn [app].
  - rewrite skip_spaces_app; [|done|by apply digit_not_space]. cbn [deref].
    destruct (Z.eqb_spec (chr c) 45); [lia|]. destruct (Z.eqb_spec (chr c) 43); [lia|]. apply (Hbody false).
  - rewrite skip_spaces_app; [|done|done]. apply (Hbody false).
  - rewrite skip_spaces_app; [|done|done]. apply (Hbody true).
Qed.

(** Every scan either finds no digits, or goes on after them. *)
Lemma scan_int_cases w s :
  0 < w -> scan_int w s = InvalidSyntax \/
  exists sp sign ds rest, s = sp ++ sign ++ ds ++ rest /\ Forall is_space sp /\
    (sign = [] \/ sign = ["+"%char] \/ sign = ["-"%char]) /\ ds <> [] /\ Forall is_digit ds /\
    scan_int w s = scan_rest w (bool_decide (sign = ["-"%char])) ds rest.
Proof.
  intros Hw. destruct (skip_spaces_split s) as (sp & Es & Hsp & _). set (t := skip_spaces s) in *.
  assert (Hsign : exists sign u, t = sign ++ u /\ (sign = [] \/ sign = ["+"%char] \/ sign = ["-"%char]) /\
    (isdigit (deref u) = false -> scan_int w s = InvalidSyntax)).
  { unfold scan_int. fold t. destruct t as [|c t]; [exists [], []; by split_and!; [|left|]|]. cbn [deref advance].
    assert (Hchr : forall k, chr c = Z.of_N (N_of_ascii k) -> c = k).
    { intros k E. unfold chr in E. apply N2Z.inj in E. rewrite <- (ascii_N_embedding c), E. apply ascii_N_embedding. }
    destruct (Z.eqb_spec (chr c) 45) as [E|].
    { exists ["-"%char], t. rewrite (Hchr "-"%char E). split_and!; [done|auto|]. by intros ->. }
    destruct (Z.eqb_spec (chr c) 43) as [E|].
    { exists ["+"%char], t. rewrite (Hchr "+"%char E). split_and!; [done|auto|]. by intros ->. }
    exists [], (c :: t). split_and!; [done|auto|]. cbn [deref]. by intros ->. }
  destruct Hsign as (sign & u & Et & Hs & Hinv). destruct (digits_split u) as (ds & rest & Eu & Hd & Hr).
  destruct ds as [|c ds]; [left; apply Hinv; by rewrite Eu|]. right. exists sp, sign, (c :: ds), rest.
  assert (E : s = sp ++ sign ++ (c :: ds) ++ rest) by (by rewrite Es, Et, Eu).
  split_and!; [done..|]. rewrite E at 1. by apply scan_int_literal.
Qed.

Lemma literal_of sp sign ds rest s :
  s = sp ++ sign ++ ds ++ rest -> Forall is_space sp -> (sign = [] \/ sign = ["+"%char] \/ sign = ["-"%char]) ->
  ds <> [] -> Forall is_digit ds ->
  int_literal s (if bool_decide (sign = ["-"%char]) then - digits_value 0 ds else digits_value 0 ds) rest.
Proof.
  intros -> Hsp Hs Hne Hd. exists sp, sign, ds. split_and!; [done..|].
  destruct Hs as [ -> | [ -> | -> ]]; [right; split; [by left|done]|right; split; [by right|done]|left; by split].
Qed.

(** A scan succeeds exactly on an integer literal followed by spaces, when its
    value is in range. *)
Lemma scan_int_exact w s v :
  0 < w -> scan_int w s = Scanned v <-> exists rest, int_literal s v rest /\ Forall is_space rest /\ in_sint w v.
Proof.
  intros Hw. pose proof (pow2_pos (w - 1) ltac:(lia)) as H2. split.
  - intros Hscan. destruct (scan_int_cases w s Hw) as [E|(sp & sign & ds & rest & Es & Hsp & Hs & Hne & Hd & E)]; [congruence|].
    rewrite Hscan in E. unfold scan_rest in E. pose proof (digits_value_mono ds 0 ltac:(lia) Hd) as Hpos.
    destruct (Z.leb_spec (digits_value 0 ds) (2 ^ (w - 1))); [|done].
    destruct (skip_spaces_split rest) as (sp2 & Er & Hsp2 & _). destruct (skip_spaces rest) as [|]; [|done].
    rewrite app_nil_r in Er. subst sp2. exists rest.
    pose proof (literal_of sp sign ds rest s Es Hsp Hs Hne Hd) as Hlit.
    destruct (bool_decide (sign = ["-"%char])); cbn [negb andb] in E.
    + injection E as ->. split_and!; [done|done|unfold in_sint; lia].
    + destruct (Z.eqb_spec (digits_value 0 ds) (2 ^ (w - 1))); [done|]. injection E as ->. split_and!; [done|done|unfold in_sint; lia].
  - intros (rest & (sp & sign & ds & -> & Hsp & Hne & Hd & Hv) & Hrest & [Hlo Hhi]).
    assert (Hdr : isdigit (deref rest) = false).
    { destruct rest as [|c rest]; [done|]. apply Forall_inv in Hrest. cbn. destruct (isdigit (chr c)) eqn:Ec; [|done].
      apply digit_not_space in Ec. unfold is_space in Hrest. congruence. }
    assert (Hskip : skip_spaces rest = []) by (rewrite <- (app_nil_r rest); by apply skip_spaces_app).
    pose proof (digits_value_mono ds 0 ltac:(lia) Hd) as Hpos.
    rewrite scan_int_literal; [|done|done|destruct Hv as [[-> _]|[[-> | ->] _]]; auto|done|done|done].
    unfold scan_rest. rewrite Hskip. destruct Hv as [[-> ->]|[Hsg ->]].
    + rewrite bool_decide_true by done. cbn [negb andb]. destruct (Z.leb_spec (digits_value 0 ds) (2 ^ (w - 1))); [done|lia].
    + rewrite bool_decide_false by (by destruct Hsg as [-> | ->]). cbn [negb andb].
      destruct (Z.leb_spec (digits_value 0 ds) (2 ^ (w - 1))); [|lia]. by destruct (Z.eqb_spec (digits_value 0 ds) (2 ^ (w - 1))); [lia|].
Qed.

(** A scan is out of range only after a literal whose value is. *)
Lemma scan_int_range w s : 0 < w -> scan_int w s = OutOfRange -> exists v rest, int_literal s v rest /\ ~ in_sint w v.
Proof.
  intros Hw Hscan. pose proof (pow2_pos (w - 1) ltac:(lia)) as H2.
  destruct (scan_int_cases w s Hw) as [E|(sp & sign & ds & rest & Es & Hsp & Hs & Hne & Hd & E)]; [congruence|].
  pose proof (literal_of sp sign ds rest s Es Hsp Hs Hne Hd) as Hlit. eexists _, rest. split; [exact Hlit|].
  rewrite Hscan in E. unfold scan_rest in E. unfold in_sint. destruct (bool_decide _); cbn [negb andb] in E.
  - destruct (Z.leb_spec (digits_value 0 ds) (2 ^ (w - 1))); [by destruct (skip_spaces rest)|]. lia.
  - destruct (Z.leb_spec (digits_value 0 ds) (2 ^ (w - 1))); [|lia]. destruct (skip_spaces rest); [|done].
    destruct (Z.eqb_spec (digits_value 0 ds) (2 ^ (w - 1))); [lia|done].
Qed.

(** ** Round trips *)

Lemma dec_digits n v : Forall is_digit (dec n v).
Proof.
  revert v. induction n as [|n IH]; intros v; [constructor|]. cbn [dec]. apply Forall_app. split; [apply IH|]. constructor; [|constructor].
  unfold is_digit. rewrite digit_char_chr by zlia. unfold isdigit. apply andb_true_iff. split; zlia.
Qed.

Lemma digits_value_dec n v : 0 <= v < 10 ^ Z.of_nat n -> digits_value 0 (dec n v) = v.
Proof.
  revert v. induction n as [|n IH]; intros v Hv; [cbn in *; lia|]. cbn [dec]. rewrite digits_value_app.
  rewrite Nat2Z.inj_succ, Z.pow_succ_r in Hv by lia. rewrite IH by (split; [apply Z.div_pos; lia|apply Z.div_lt_upper_bound; lia]).
  cbn [digits_value]. rewrite digit_char_chr by zlia. zlia.
Qed.

Lemma scan_text w v s : 0 < w -> in_sint w v -> int_text v s -> scan_int w s = Scanned v.
Proof.
  intros Hw Hv (n & (Hn & _ & Hd) & ->). apply scan_int_exact; [done|]. exists []. split_and!; [|constructor|done].
  exists [], (if v <? 0 then ["-"%char] else []), (dec n (Z.abs v)). rewrite app_nil_r.
  split_and!; [done|constructor|intros E; apply (f_equal length) in E; rewrite length_dec in E; cbn in E; lia|apply dec_digits|].
  rewrite digits_value_dec by done. destruct (Z.ltb_spec v 0); [left|right]; (split; [auto|lia]).
Qed.

(** The number of digits of a value below a power of ten. *)
Lemma has_digits_le v n k : has_digits v n -> v < 10 ^ Z.of_nat k -> (1 <= k)%nat -> (n <= k)%nat.
Proof.
  intros (Hn & Hlow & _) Hv Hk. destruct Hlow as [|Hlow]; [lia|]. destruct (Nat.le_gt_cases n k); [done|].
  pose proof (Z.pow_le_mono_r 10 (Z.of_nat k) (Z.of_nat n - 1) ltac:(lia) ltac:(lia)). lia.
Qed.

(** ** Zero padding *)

Lemma dec_zeros k : dec k 0 = replicate k "0"%char.
Proof.
  induction k as [|k IH]; [done|]. cbn [dec]. rewrite Z.div_0_l, IH by lia. change (digit_char (0 mod 10)) with "0"%char.
  symmetry. apply replicate_cons_app.
Qed.

(** The text has the digits of the value, and at least [minwidth] of them. *)
Lemma ultostr_zeropad_ok str value minwidth :
  0 <= value < 2 ^ 32 -> 0 < minwidth -> (Z.to_nat minwidth + 10 <= length str)%nat ->
  exists n q, pg_ultostr_zeropad str value minwidth = Ok (Z.of_nat n, dec n value ++ q) /\
    value < 10 ^ Z.of_nat n /\ minwidth <= Z.of_nat n.
Proof.
  intros Hv Hm Hl. unfold pg_ultostr_zeropad. destruct (_ && _) eqn:E.
  { zbool. exists 2%nat, (drop 2 str). subst minwidth.
    destruct (split_buffer str 2 ltac:(lia)) as (P & S & -> & HP & <-).
    rewrite <- (app_nil_l (P ++ S)). replace (value * 2) with (Z.shiftl value 1) by (rewrite Z.shiftl_mul_pow2 by lia; lia).
    rewrite two_digits_dec, put_app by (rewrite ?length_dec; (done || lia)). cbn [mbind result_bind app].
    split_and!; [done|cbn; lia|lia]. }
  clear E. destruct (pg_ultoa_n_ok value Hv) as (n & Hd & Hp).
  assert (Hn : (n <= 10)%nat) by (apply (has_digits_le value n 10 Hd); [eapply Z.lt_trans; [apply Hv|vm_compute; reflexivity]|lia]).
  rewrite Hp by lia. cbn [mbind result_bind]. destruct Hd as (_ & _ & Hd).
  destruct (Z.geb_spec (Z.of_nat n) minwidth) as [Hge|Hlt]; [exists n, (drop n str); split_and!; (done || lia)|].
  set (k := Z.to_nat (minwidth - Z.of_nat n)). rewrite Nat2Z.id, take_app_length' by (by rewrite length_dec).
  assert (Hk : minwidth - Z.of_nat n = Z.of_nat k) by (unfold k; lia). rewrite Hk.
  set (buf := dec n value ++ drop n str).
  assert (Hb : (k + n <= length buf)%nat) by (unfold buf; rewrite length_app, length_dec, length_drop; lia).
  destruct (split_buffer buf k ltac:(lia)) as (P & S & Eb & HP & HS).
  destruct (split_buffer S n) as (X & S' & -> & HX & _); [subst S; rewrite length_drop; lia|].
  rewrite Eb, put_app by (rewrite ?length_dec; lia). cbn [mbind result_bind].
  rewrite <- (app_nil_l (P ++ _)), put_app by (rewrite ?length_replicate; (done || lia)). cbn [mbind result_bind app].
  exists (k + n)%nat, S'. rewrite dec_app, Z.div_small, dec_zeros by lia. split_and!.
  - rewrite <- app_assoc. do 2 f_equal. lia.
  - eapply Z.lt_le_trans; [apply Hd|]. apply Z.pow_le_mono_r; lia.
  - lia.
Qed.
