(* ===== verification/IntIO.v ===== *)
(** * Input and output of int4 and int8

    The I/O functions of src/backend/utils/adt/int.c and int8.c for the element
    types of int4range and int8range.  They discharge what the range I/O
    functions need of an element type ([TextIO] and [BinaryIO]). *)

From S2P Require Import Prelude Floats Varlena RangeTypes RangeOrder RangeOps RangeStore Hashfn RangeCanon.
From S2P Require Import RangeParse RangeFmgr RangeIO Numutils NumutilsProofs.

(** Allocated memory; the printing functions do not depend on its contents. *)
Definition palloc_chars (n : nat) : cstring := replicate n NUL.

Definition MAXINT8LEN : nat := 20.

Definition int4in (ioparam : Oid) (typmod : Z) (num : cstring) : result Datum :=
  v ← pg_strtoint32 num; Ok (Int32GetDatum v).

Definition int4out (d : Datum) : result cstring :=
  result ← pg_ltoa (DatumGetInt32 d) (palloc_chars 12);
  Ok (c_str result).

Definition int4recv (ioparam : Oid) (typmod : Z) (buf : list Z) : result Datum :=
  '(n, _) ← pq_getmsgint4 buf; Ok (Int32GetDatum (swrap 32 n)).

Definition int4send (d : Datum) : result (list Z) := Ok (pq_sendint32 (uwrap 32 (DatumGetInt32 d))).

(** After an error of [scanint8] the function does not return. *)
Definition int8in (ioparam : Oid) (typmod : Z) (str : cstring) : result Datum :=
  res ← scanint8 str false;
  match res with Some v => Ok (Int64GetDatum v) | None => undefined "result is not set" end.

Definition int8out (d : Datum) : result cstring :=
  buf ← pg_lltoa (DatumGetInt64 d) (palloc_chars (MAXINT8LEN + 1));
  Ok (c_str buf).

Definition pq_getmsgint64 (msg : list Z) : result (Z * list Z) :=
  '(n64, msg) ← pq_copymsgbytes msg 8;
  Ok (le_value (rev n64), msg).

Definition pq_sendint64 (i : Z) : list Z := rev (le_bytes 8 i).

Definition int8recv (ioparam : Oid) (typmod : Z) (buf : list Z) : result Datum :=
  '(n, _) ← pq_getmsgint64 buf; Ok (Int64GetDatum (swrap 64 n)).

Definition int8send (d : Datum) : result (list Z) := Ok (pq_sendint64 (uwrap 64 (DatumGetInt64 d))).

(** ** Text *)

Lemma int4out_ok v : in_sint 32 v ->
  exists s, int4out (Int32GetDatum v) = Ok s /\ int_text v s /\ pg_strtoint32 s = Ok v.
Proof.
  intros Hv. unfold int4out.
  assert (E : DatumGetInt32 (Int32GetDatum v) = v).
  { unfold DatumGetInt32, Int32GetDatum. cbn [datum_word]. unfold uwrap. rewrite swrap_mod_le by lia. by apply swrap_small. }
  rewrite E. destruct (put_signed_ok 32 pg_ultoa_n v (palloc_chars 12)) as (a & Ea & Ht); [lia|exact pg_ultoa_n_ok|done| |].
  { intros n Hn. pose proof (has_digits_le _ _ 10 Hn) as Hle. unfold in_sint in Hv. cbn [Z.sub] in Hv.
    cbn. specialize (Hle ltac:(cbn; lia) ltac:(lia)). lia. }
  exists (c_str a). unfold pg_ltoa. rewrite Ea. split; [done|]. split; [done|].
  unfold pg_strtoint32. by rewrite (scan_text 32 v).
Qed.

Lemma int8out_ok v : in_sint 64 v ->
  exists s, int8out (Int64GetDatum v) = Ok s /\ int_text v s /\ scanint8 s false = Ok (Some v).
Proof.
  intros Hv. unfold int8out.
  assert (E : DatumGetInt64 (Int64GetDatum v) = v).
  { unfold DatumGetInt64, Int64GetDatum. cbn [datum_word]. unfold uwrap. rewrite swrap_mod_le by lia. by apply swrap_small. }
  rewrite E. destruct (put_signed_ok 64 pg_ulltoa_n v (palloc_chars (MAXINT8LEN + 1))) as (a & Ea & Ht); [lia|exact pg_ulltoa_n_ok|done| |].
  { intros n Hn. pose proof (has_digits_le _ _ 19 Hn) as Hle. unfold in_sint in Hv. cbn [Z.sub] in Hv.
    cbn. specialize (Hle ltac:(cbn; lia) ltac:(lia)). lia. }
  exists (c_str a). unfold pg_lltoa. rewrite Ea. split; [done|]. split; [done|].
  unfold scanint8. by rewrite (scan_text 64 v).
Qed.

(** ** Stored forms *)

Lemma int4_same_stored `{Toast} x d :
  x mod 2 ^ 32 = datum_word d mod 2 ^ 32 -> same_stored int4range (Int32GetDatum (swrap 32 x)) d.
Proof.
  intros E. split; [by apply datum_ok_word|].
  change (DWord (uwrap 64 (swrap 32 (uwrap 64 (swrap 32 x)))) = DWord (uwrap 64 (swrap 32 (datum_word d)))).
  rewrite swrap_uwrap_idem by lia. do 2 f_equal.
  by rewrite <- (swrap_mod 32 x), <- (swrap_mod 32 (datum_word d)), E by lia.
Qed.

Lemma int8_same_stored `{Toast} x d :
  datum_ok int8_elem d -> x mod 2 ^ 64 = datum_word d mod 2 ^ 64 -> same_stored int8range (Int64GetDatum (swrap 64 x)) d.
Proof.
  intros Hd E. split; [by apply datum_ok_word|]. destruct Hd as (w & -> & Hw). cbn [datum_word] in E.
  change (DWord (uwrap 64 (swrap 64 x)) = DWord w).
  f_equal. unfold uwrap. rewrite swrap_swrap_mod, E by lia. by apply Z.mod_small.
Qed.

(** ** The element types' part of the range I/O *)

Section Instances.
Context `{Toast} `{Catalog}.

(** What the catalogs say about a range type and the I/O functions of its
    element type. *)
Class IOEntries (tc : TypeCacheEntry) (input : Oid -> Z -> cstring -> result Datum) (output : Datum -> result cstring)
    (receive : Oid -> Z -> list Z -> result Datum) (send : Datum -> result (list Z)) : Prop := {
  ioe_lookup : lookup_type_cache (type_id tc) = Some tc;
  ioe_input : get_type_io_data (elem_type_id tc) IOFunc_input = (elem_type_id tc, Some (InputProc input));
  ioe_output : get_type_io_data (elem_type_id tc) IOFunc_output = (elem_type_id tc, Some (OutputProc output));
  ioe_receive : get_type_io_data (elem_type_id tc) IOFunc_receive = (elem_type_id tc, Some (ReceiveProc receive));
  ioe_send : get_type_io_data (elem_type_id tc) IOFunc_send = (elem_type_id tc, Some (SendProc send))
}.

#[export] Instance int4_text `{!IOEntries int4range int4in int4out int4recv int4send} : TextIO int4range.
Proof.
  refine {| tio_param := elem_type_id int4range; tio_in := int4in; tio_out := int4out |};
    [apply ioe_lookup|apply ioe_input|eexists; apply ioe_output|].
  intros d typmod _. destruct (int4out_ok (DatumGetInt32 d)) as (s & Hs & _ & Hin); [by apply swrap_range|].
  exists s, (Int32GetDatum (DatumGetInt32 d)). split_and!.
  - rewrite <- Hs. unfold int4out. do 2 f_equal. unfold DatumGetInt32, Int32GetDatum. cbn [datum_word].
    by rewrite swrap_uwrap_idem by lia.
  - unfold int4in. by rewrite Hin.
  - by apply int4_same_stored.
Defined.

#[export] Instance int8_text `{!IOEntries int8range int8in int8out int8recv int8send} : TextIO int8range.
Proof.
  refine {| tio_param := elem_type_id int8range; tio_in := int8in; tio_out := int8out |};
    [apply ioe_lookup|apply ioe_input|eexists; apply ioe_output|].
  intros d typmod Hd. destruct (int8out_ok (DatumGetInt64 d)) as (s & Hs & _ & Hin); [by apply swrap_range|].
  exists s, (Int64GetDatum (DatumGetInt64 d)). split_and!.
  - rewrite <- Hs. unfold int8out. do 2 f_equal. unfold DatumGetInt64, Int64GetDatum. cbn [datum_word].
    by rewrite swrap_uwrap_idem by lia.
  - unfold int8in. by rewrite Hin.
  - by apply int8_same_stored.
Defined.

#[export] Instance int4_binary `{!IOEntries int4range int4in int4out int4recv int4send} : BinaryIO int4range.
Proof.
  refine {| bio_param := elem_type_id int4range; bio_recv := int4recv; bio_send := int4send |};
    [apply ioe_lookup|apply ioe_receive|eexists; apply ioe_send|].
  intros d typmod _. exists (pq_sendint32 (uwrap 32 (DatumGetInt32 d))), (Int32GetDatum (swrap 32 (uwrap 32 (DatumGetInt32 d)))).
  split_and!; [done|by unfold pq_sendint32; rewrite length_rev, length_le_bytes| |].
  - unfold int4recv. rewrite <- (app_nil_r (pq_sendint32 _)).
    rewrite getmsgint4_sendint32 by (by apply uwrap_range). done.
  - apply int4_same_stored. unfold uwrap, DatumGetInt32. by rewrite Z.mod_mod, swrap_swrap_mod by lia.
Defined.

#[export] Instance int8_binary `{!IOEntries int8range int8in int8out int8recv int8send} : BinaryIO int8range.
Proof.
  refine {| bio_param := elem_type_id int8range; bio_recv := int8recv; bio_send := int8send |};
    [apply ioe_lookup|apply ioe_receive|eexists; apply ioe_send|].
  intros d typmod Hd. exists (pq_sendint64 (uwrap 64 (DatumGetInt64 d))), (Int64GetDatum (swrap 64 (uwrap 64 (DatumGetInt64 d)))).
  split_and!; [done|by unfold pq_sendint64; rewrite length_rev, length_le_bytes| |].
  - unfold int8recv, pq_getmsgint64, pq_copymsgbytes, pq_getmsgbytes, pq_sendint64.
    rewrite length_rev, length_le_bytes. change ((8 <? 0) || (8 >? Z.of_nat 8)) with false. cbn [mbind result_bind]. change (Z.to_nat 8) with 8%nat.
    rewrite take_ge, rev_involutive, le_value_bytes by (by rewrite length_rev, length_le_bytes).
    unfold uwrap. change (8 * Z.of_nat 8) with 64. by rewrite Z.mod_mod.
  - apply int8_same_stored; [done|]. unfold uwrap, DatumGetInt64. by rewrite Z.mod_mod, swrap_swrap_mod by lia.
Defined.

End Instances.

(** A catalog with the two range types. *)
Definition int_catalog `{Toast} : Catalog := {|
  lookup_type_cache oid := if oid =? INT4RANGEOID then Some int4range else if oid =? INT8RANGEOID then Some int8range else None;
  get_type_io_data oid func :=
    if oid =? 23 then
      match func with
      | IOFunc_input => (23, Some (InputProc int4in))
      | IOFunc_output => (23, Some (OutputProc int4out))
      | IOFunc_receive => (23, Some (ReceiveProc int4recv))
      | IOFunc_send => (23, Some (SendProc int4send))
      end
    else if oid =? 20 then
      match func with
      | IOFunc_input => (20, Some (InputProc int8in))
      | IOFunc_output => (20, Some (OutputProc int8out))
      | IOFunc_receive => (20, Some (ReceiveProc int8recv))
      | IOFunc_send => (20, Some (SendProc int8send))
      end
    else (0, None)
|}.

#[export] Instance int4_entries `{Toast} : @IOEntries int_catalog int4range int4in int4out int4recv int4send.
Proof. by split. Qed.

#[export] Instance int8_entries `{Toast} : @IOEntries int_catalog int8range int8in int8out int8recv int8send.
Proof. by split. Qed.
