(* ===== verification/Numeric.v ===== *)
(** * Numeric values

    src/backend/utils/adt/numeric.c, the element type of numrange: the packed
    form, the variable form on which arithmetic is done, comparison, addition,
    subtraction, multiplication, rounding, conversions and hashing.

    A packed value ([Numeric]) is the list of its bytes, detoasted.  Of the
    buffer of a variable the model has the digits in use and the number of
    (zero) digits that are allocated before them; a carry that needs room where
    there is none is undefined behaviour.  The digit arrays of the functions
    below have less than 100,000 entries when their arguments come from packed
    values, far below the limit of palloc. *)

From S2P Require Import Prelude Varlena Hashfn.

(** ** Constants *)

Definition NBASE : Z := 10000.
Definition HALF_NBASE : Z := 5000.
Definition DEC_DIGITS : Z := 4.
Definition MUL_GUARD_DIGITS : Z := 2.
Definition NUMERIC_MAX_PRECISION : Z := 1000.
Definition NUMERIC_MAX_RESULT_SCALE : Z := NUMERIC_MAX_PRECISION * 2.

Definition NUMERIC_SIGN_MASK : Z := 0xC000.
Definition NUMERIC_POS : Z := 0x0000.
Definition NUMERIC_NEG : Z := 0x4000.
Definition NUMERIC_SHORT : Z := 0x8000.
Definition NUMERIC_NAN : Z := 0xC000.

Definition NUMERIC_SHORT_SIGN_MASK : Z := 0x2000.
Definition NUMERIC_SHORT_DSCALE_MASK : Z := 0x1F80.
Definition NUMERIC_SHORT_DSCALE_SHIFT : Z := 7.
Definition NUMERIC_SHORT_DSCALE_MAX : Z := Z.shiftr NUMERIC_SHORT_DSCALE_MASK NUMERIC_SHORT_DSCALE_SHIFT.
Definition NUMERIC_SHORT_WEIGHT_SIGN_MASK : Z := 0x0040.
Definition NUMERIC_SHORT_WEIGHT_MASK : Z := 0x003F.
Definition NUMERIC_SHORT_WEIGHT_MAX : Z := NUMERIC_SHORT_WEIGHT_MASK.
Definition NUMERIC_SHORT_WEIGHT_MIN : Z := - (NUMERIC_SHORT_WEIGHT_MASK + 1).
Definition NUMERIC_DSCALE_MASK : Z := 0x3FFF.
Definition NUMERIC_DSCALE_MAX : Z := NUMERIC_DSCALE_MASK.
Definition NUMERIC_HDRSZ : Z := VARHDRSZ + 2 + 2.
Definition NUMERIC_HDRSZ_SHORT : Z := VARHDRSZ + 2.

Definition round_powers : list Z := [0; 1000; 100; 10].

(** ** The packed form *)

Definition Numeric : Type := list Z.

Definition n_header (num : Numeric) : Z := le_value (bytes_at num 4 2).
Definition n_weight (num : Numeric) : Z := swrap 16 (le_value (bytes_at num 6 2)).

Definition NUMERIC_FLAGBITS (num : Numeric) : Z := Z.land (n_header num) NUMERIC_SIGN_MASK.
Definition NUMERIC_IS_NAN (num : Numeric) : bool := NUMERIC_FLAGBITS num =? NUMERIC_NAN.
Definition NUMERIC_IS_SHORT (num : Numeric) : bool := NUMERIC_FLAGBITS num =? NUMERIC_SHORT.
Definition NUMERIC_HEADER_IS_SHORT (num : Numeric) : bool := bit_set (n_header num) 0x8000.
Definition NUMERIC_HEADER_SIZE (num : Numeric) : Z :=
  VARHDRSZ + 2 + (if NUMERIC_HEADER_IS_SHORT num then 0 else 2).

Definition NUMERIC_SIGN (num : Numeric) : Z :=
  if NUMERIC_IS_SHORT num then
    if bit_set (n_header num) NUMERIC_SHORT_SIGN_MASK then NUMERIC_NEG else NUMERIC_POS
  else NUMERIC_FLAGBITS num.

Definition NUMERIC_DSCALE (num : Numeric) : Z :=
  if NUMERIC_HEADER_IS_SHORT num then
    Z.shiftr (Z.land (n_header num) NUMERIC_SHORT_DSCALE_MASK) NUMERIC_SHORT_DSCALE_SHIFT
  else Z.land (n_header num) NUMERIC_DSCALE_MASK.

Definition NUMERIC_WEIGHT (num : Numeric) : Z :=
  if NUMERIC_HEADER_IS_SHORT num then
    Z.lor (if bit_set (n_header num) NUMERIC_SHORT_WEIGHT_SIGN_MASK then Z.lnot NUMERIC_SHORT_WEIGHT_MASK else 0)
          (Z.land (n_header num) NUMERIC_SHORT_WEIGHT_MASK)
  else n_weight num.

Definition NUMERIC_NDIGITS (num : Numeric) : Z := (VARSIZE_4B num - NUMERIC_HEADER_SIZE num) / 2.

(** An array of [NumericDigit]s (int16) in memory. *)
Fixpoint digits_of_bytes (bs : list Z) : list Z :=
  match bs with
  | b0 :: b1 :: bs' => swrap 16 (b0 + 256 * b1) :: digits_of_bytes bs'
  | _ => []
  end.

Definition bytes_of_digits (ds : list Z) : list Z := flat_map (le_bytes 2) ds.

Definition NUMERIC_DIGITS (num : Numeric) : list Z :=
  digits_of_bytes (bytes_at num (NUMERIC_HEADER_SIZE num) (2 * NUMERIC_NDIGITS num)).

Definition NUMERIC_CAN_BE_SHORT (scale weight : Z) : bool :=
  (scale <=? NUMERIC_SHORT_DSCALE_MAX) && (weight <=? NUMERIC_SHORT_WEIGHT_MAX) && (weight >=? NUMERIC_SHORT_WEIGHT_MIN).

(** ** The variable form *)

Record NumericVar : Type := mkVar {
  weight : Z;
  sign : Z;
  dscale : Z;
  spare : Z; (* digits - buf *)
  digits : list Z
}.

Definition ndigits (var : NumericVar) : Z := Z.of_nat (length (digits var)).

Definition with_sign (s : Z) (var : NumericVar) : NumericVar :=
  mkVar (weight var) s (dscale var) (spare var) (digits var).
Definition with_dscale (s : Z) (var : NumericVar) : NumericVar :=
  mkVar (weight var) (sign var) s (spare var) (digits var).

Definition const_zero : NumericVar := mkVar 0 NUMERIC_POS 0 0 [].
Definition const_one : NumericVar := mkVar 0 NUMERIC_POS 0 0 [1].
Definition const_nan : NumericVar := mkVar 0 NUMERIC_NAN 0 0 [].

(** [zero_var], for a variable with the given dscale. *)
Definition zero_var (scale : Z) : NumericVar := mkVar 0 NUMERIC_POS scale 0 [].

Definition init_var_from_num (num : Numeric) : NumericVar :=
  mkVar (NUMERIC_WEIGHT num) (NUMERIC_SIGN num) (NUMERIC_DSCALE num) 0 (NUMERIC_DIGITS num).

Definition set_var_from_num (num : Numeric) : NumericVar :=
  mkVar (NUMERIC_WEIGHT num) (NUMERIC_SIGN num) (NUMERIC_DSCALE num) 1 (NUMERIC_DIGITS num).

Definition set_var_from_var (value : NumericVar) : NumericVar :=
  mkVar (weight value) (sign value) (dscale value) 1 (digits value).

(** [digits[i]] where [i] is checked against the ends of the array, 0 otherwise. *)
Definition digit_at (ds : list Z) (i : Z) : Z :=
  if (0 <=? i) && (i <? Z.of_nat (length ds)) then nth (Z.to_nat i) ds 0 else 0.

(** ** Stripping zeroes *)

(** The loop over leading zeroes; the digits left and their weight. *)
Fixpoint strip_leading (ds : list Z) (w : Z) : list Z * Z :=
  match ds with
  | d :: ds' => if d =? 0 then strip_leading ds' (w - 1) else (ds, w)
  | [] => ([], w)
  end.

Fixpoint drop_zeroes (ds : list Z) : list Z :=
  match ds with
  | d :: ds' => if d =? 0 then drop_zeroes ds' else ds
  | [] => []
  end.

Definition strip_trailing (ds : list Z) : list Z := rev (drop_zeroes (rev ds)).

Definition strip_var (var : NumericVar) : NumericVar :=
  let '(ds, w) := strip_leading (digits var) (weight var) in
  let room := spare var + Z.of_nat (length (digits var) - length ds) in
  let ds := strip_trailing ds in
  if Nat.eqb (length ds) 0 then mkVar 0 NUMERIC_POS (dscale var) room ds
  else mkVar w (sign var) (dscale var) room ds.

(** ** Packing *)

(** Bytes of a packed value from its header word(s) and digits. *)
Definition pack (choice : list Z) (ds : list Z) : Numeric :=
  le_bytes 4 (SET_VARSIZE (VARHDRSZ + Z.of_nat (length choice) + 2 * Z.of_nat (length ds)))
  ++ choice ++ bytes_of_digits ds.

Definition short_form_header (s scale w : Z) : Z :=
  Z.lor (Z.lor (Z.lor (if s =? NUMERIC_NEG then Z.lor NUMERIC_SHORT NUMERIC_SHORT_SIGN_MASK else NUMERIC_SHORT)
                      (Z.shiftl scale NUMERIC_SHORT_DSCALE_SHIFT))
               (if w <? 0 then NUMERIC_SHORT_WEIGHT_SIGN_MASK else 0))
        (Z.land w NUMERIC_SHORT_WEIGHT_MASK).

Definition long_form_header (s scale : Z) : Z := Z.lor s (Z.land scale NUMERIC_DSCALE_MASK).

(** [make_result_opt_error] with [have_error], which is [None] here for the
    error; [make_result] raises it. *)
Definition make_result_opt_error (var : NumericVar) : option Numeric :=
  if sign var =? NUMERIC_NAN then Some (pack (le_bytes 2 NUMERIC_NAN) [])
  else
    let '(ds, w) := strip_leading (digits var) (weight var) in
    let ds := strip_trailing ds in
    let '(w, s) := if Nat.eqb (length ds) 0 then (0, NUMERIC_POS) else (w, sign var) in
    let num :=
      if NUMERIC_CAN_BE_SHORT (dscale var) w then pack (le_bytes 2 (short_form_header s (dscale var) w)) ds
      else pack (le_bytes 2 (long_form_header s (dscale var)) ++ le_bytes 2 w) ds in
    if negb (NUMERIC_WEIGHT num =? w) || negb (NUMERIC_DSCALE num =? dscale var) then None
    else Some num.

Definition value_overflows {A} : result A :=
  ereport ERRCODE_NUMERIC_VALUE_OUT_OF_RANGE "value overflows numeric format".

Definition make_result (var : NumericVar) : result Numeric :=
  match make_result_opt_error var with Some num => Ok num | None => value_overflows end.

(** ** Comparison *)

(** Digits before the first common digit: whether one is not zero, the digits
    left and their weight. *)
Fixpoint skip_above (ds : list Z) (w1 w2 : Z) : bool * list Z * Z :=
  match ds with
  | d :: ds' => if w1 >? w2 then if d =? 0 then skip_above ds' (w1 - 1) w2 else (true, ds', w1) else (false, ds, w1)
  | [] => (false, [], w1)
  end.

(** Digits of the same weight: the answer, or what is left when one of the
    numbers has no more digits. *)
Fixpoint cmp_common (ds1 ds2 : list Z) : Z + list Z * list Z :=
  match ds1, ds2 with
  | d1 :: ds1', d2 :: ds2' =>
      let stat := d1 - d2 in
      if stat =? 0 then cmp_common ds1' ds2' else if stat >? 0 then inl 1 else inl (-1)
  | _, _ => inr (ds1, ds2)
  end.

Definition nonzero (d : Z) : bool := negb (d =? 0).

Definition cmp_abs_common (ds1 : list Z) (w1 : Z) (ds2 : list Z) (w2 : Z) : Z :=
  let '(found1, ds1, w1) := skip_above ds1 w1 w2 in
  if found1 then 1 else
  let '(found2, ds2, w2) := skip_above ds2 w2 w1 in
  if found2 then -1 else
  match (if w1 =? w2 then cmp_common ds1 ds2 else inr (ds1, ds2)) with
  | inl stat => stat
  | inr (ds1, ds2) => if existsb nonzero ds1 then 1 else if existsb nonzero ds2 then -1 else 0
  end.

Definition cmp_abs (var1 var2 : NumericVar) : Z :=
  cmp_abs_common (digits var1) (weight var1) (digits var2) (weight var2).

Definition cmp_var_common (ds1 : list Z) (w1 s1 : Z) (ds2 : list Z) (w2 s2 : Z) : Z :=
  if Nat.eqb (length ds1) 0 then
    if Nat.eqb (length ds2) 0 then 0 else if s2 =? NUMERIC_NEG then 1 else -1
  else if Nat.eqb (length ds2) 0 then if s1 =? NUMERIC_POS then 1 else -1
  else if s1 =? NUMERIC_POS then
    if s2 =? NUMERIC_NEG then 1 else cmp_abs_common ds1 w1 ds2 w2
  else if s2 =? NUMERIC_POS then -1
  else cmp_abs_common ds2 w2 ds1 w1.

Definition cmp_var (var1 var2 : NumericVar) : Z :=
  cmp_var_common (digits var1) (weight var1) (sign var1) (digits var2) (weight var2) (sign var2).

Definition cmp_numerics (num1 num2 : Numeric) : Z :=
  if NUMERIC_IS_NAN num1 then if NUMERIC_IS_NAN num2 then 0 else 1
  else if NUMERIC_IS_NAN num2 then -1
  else cmp_var_common (NUMERIC_DIGITS num1) (NUMERIC_WEIGHT num1) (NUMERIC_SIGN num1)
                      (NUMERIC_DIGITS num2) (NUMERIC_WEIGHT num2) (NUMERIC_SIGN num2).

Definition numeric_cmp (num1 num2 : Numeric) : Z := cmp_numerics num1 num2.
Definition numeric_eq (num1 num2 : Numeric) : bool := cmp_numerics num1 num2 =? 0.
Definition numeric_ne (num1 num2 : Numeric) : bool := negb (cmp_numerics num1 num2 =? 0).
Definition numeric_gt (num1 num2 : Numeric) : bool := cmp_numerics num1 num2 >? 0.
Definition numeric_ge (num1 num2 : Numeric) : bool := cmp_numerics num1 num2 >=? 0.
Definition numeric_lt (num1 num2 : Numeric) : bool := cmp_numerics num1 num2 <? 0.
Definition numeric_le (num1 num2 : Numeric) : bool := cmp_numerics num1 num2 <=? 0.
Definition numeric_smaller (num1 num2 : Numeric) : Numeric := if cmp_numerics num1 num2 <? 0 then num1 else num2.
Definition numeric_larger (num1 num2 : Numeric) : Numeric := if cmp_numerics num1 num2 >? 0 then num1 else num2.

(** ** Addition and subtraction *)

(** The loop of [add_abs]: [n] more digits, the last ones first. *)
Fixpoint add_loop (ds1 ds2 : list Z) (n : nat) (i1 i2 carry : Z) (res : list Z) : list Z :=
  match n with
  | O => res
  | S n' =>
      let i1 := i1 - 1 in
      let i2 := i2 - 1 in
      let carry := carry + digit_at ds1 i1 + digit_at ds2 i2 in
      if carry >=? NBASE then add_loop ds1 ds2 n' i1 i2 1 (carry - NBASE :: res)
      else add_loop ds1 ds2 n' i1 i2 0 (carry :: res)
  end.

Fixpoint sub_loop (ds1 ds2 : list Z) (n : nat) (i1 i2 borrow : Z) (res : list Z) : list Z :=
  match n with
  | O => res
  | S n' =>
      let i1 := i1 - 1 in
      let i2 := i2 - 1 in
      let borrow := borrow + digit_at ds1 i1 - digit_at ds2 i2 in
      if borrow <? 0 then sub_loop ds1 ds2 n' i1 i2 (-1) (borrow + NBASE :: res)
      else sub_loop ds1 ds2 n' i1 i2 0 (borrow :: res)
  end.

(** Base-NBASE digits after the decimal point. *)
Definition nb_rscale (var : NumericVar) : Z := ndigits var - weight var - 1.

(** The callers set the sign of the result. *)
Definition add_abs (var1 var2 : NumericVar) : NumericVar :=
  let res_weight := Z.max (weight var1) (weight var2) + 1 in
  let res_dscale := Z.max (dscale var1) (dscale var2) in
  let res_rscale := Z.max (nb_rscale var1) (nb_rscale var2) in
  let res_ndigits := res_rscale + res_weight + 1 in
  let res_ndigits := if res_ndigits <=? 0 then 1 else res_ndigits in
  let res_digits := add_loop (digits var1) (digits var2) (Z.to_nat res_ndigits)
    (res_rscale + weight var1 + 1) (res_rscale + weight var2 + 1) 0 [] in
  strip_var (mkVar res_weight NUMERIC_POS res_dscale 1 res_digits).

Definition sub_abs (var1 var2 : NumericVar) : NumericVar :=
  let res_weight := weight var1 in
  let res_dscale := Z.max (dscale var1) (dscale var2) in
  let res_rscale := Z.max (nb_rscale var1) (nb_rscale var2) in
  let res_ndigits := res_rscale + res_weight + 1 in
  let res_ndigits := if res_ndigits <=? 0 then 1 else res_ndigits in
  let res_digits := sub_loop (digits var1) (digits var2) (Z.to_nat res_ndigits)
    (res_rscale + weight var1 + 1) (res_rscale + weight var2 + 1) 0 [] in
  strip_var (mkVar res_weight NUMERIC_POS res_dscale 1 res_digits).

(** [switch (cmp_abs(var1, var2))]; the signs of the difference when the first,
    and when the second, absolute value is greater. *)
Definition diff_var (var1 var2 : NumericVar) (sign1 sign2 : Z) : NumericVar :=
  let cmp := cmp_abs var1 var2 in
  if cmp =? 0 then zero_var (Z.max (dscale var1) (dscale var2))
  else if cmp =? 1 then with_sign sign1 (sub_abs var1 var2)
  else with_sign sign2 (sub_abs var2 var1).

Definition add_var (var1 var2 : NumericVar) : NumericVar :=
  if sign var1 =? NUMERIC_POS then
    if sign var2 =? NUMERIC_POS then with_sign NUMERIC_POS (add_abs var1 var2)
    else diff_var var1 var2 NUMERIC_POS NUMERIC_NEG
  else
    if sign var2 =? NUMERIC_POS then diff_var var1 var2 NUMERIC_NEG NUMERIC_POS
    else with_sign NUMERIC_NEG (add_abs var1 var2).

Definition sub_var (var1 var2 : NumericVar) : NumericVar :=
  if sign var1 =? NUMERIC_POS then
    if sign var2 =? NUMERIC_NEG then with_sign NUMERIC_POS (add_abs var1 var2)
    else diff_var var1 var2 NUMERIC_POS NUMERIC_NEG
  else
    if sign var2 =? NUMERIC_NEG then diff_var var1 var2 NUMERIC_NEG NUMERIC_POS
    else with_sign NUMERIC_NEG (add_abs var1 var2).

(** ** Rounding *)

(** The loop that propagates a carry, over the digits from the last one; the
    carry that is left when there are no more digits. *)
Fixpoint carry_loop (ds : list Z) (carry : Z) : list Z * Z :=
  if carry =? 0 then (ds, 0)
  else
    match ds with
    | [] => ([], carry)
    | d :: ds' =>
        let carry := carry + d in
        if carry >=? NBASE then let '(ds'', c) := carry_loop ds' 1 in (carry - NBASE :: ds'', c)
        else (carry :: ds', 0)
    end.

(** Rounding within an NBASE digit of which [di] decimal digits are kept: the
    new digit and the carry. *)
Definition round_digit (d di : Z) : Z * Z :=
  let pow10 := nth (Z.to_nat di) round_powers 0 in
  let extra := d mod pow10 in
  let d := d - extra in
  if extra >=? pow10 / 2 then
    let pow10 := pow10 + d in
    if pow10 >=? NBASE then (pow10 - NBASE, 1) else (pow10, 0)
  else (d, 0).

Definition round_var (var : NumericVar) (rscale : Z) : result NumericVar :=
  let di := (weight var + 1) * DEC_DIGITS + rscale in
  if di <? 0 then Ok (mkVar 0 NUMERIC_POS rscale (spare var) [])
  else
    let nd := (di + DEC_DIGITS - 1) / DEC_DIGITS in
    let di := di mod DEC_DIGITS in
    if (nd <? ndigits var) || ((nd =? ndigits var) && (di >? 0)) then
      (* the digits before the one that is rounded, that digit, and the carry *)
      let '(high, low, carry) :=
        if di =? 0 then
          (take (Z.to_nat nd) (digits var), [], if digit_at (digits var) nd >=? HALF_NBASE then 1 else 0)
        else
          let '(d, carry) := round_digit (digit_at (digits var) (nd - 1)) di in
          (take (Z.to_nat (nd - 1)) (digits var), [d], carry) in
      let '(ds, carry) := carry_loop (rev high) carry in
      if carry =? 0 then Ok (mkVar (weight var) (sign var) rscale (spare var) (rev ds ++ low))
      else if spare var <=? 0 then undefined "carry outside of the digit buffer"
      else Ok (mkVar (weight var + 1) (sign var) rscale (spare var - 1) (carry :: rev ds ++ low))
    else Ok (with_dscale rscale var).

Definition trunc_var (var : NumericVar) (rscale : Z) : NumericVar :=
  let di := (weight var + 1) * DEC_DIGITS + rscale in
  if di <=? 0 then mkVar 0 NUMERIC_POS rscale (spare var) []
  else
    let nd := (di + DEC_DIGITS - 1) / DEC_DIGITS in
    if nd <=? ndigits var then
      let di := di mod DEC_DIGITS in
      if di >? 0 then
        let pow10 := nth (Z.to_nat di) round_powers 0 in
        let d := digit_at (digits var) (nd - 1) in
        mkVar (weight var) (sign var) rscale (spare var)
          (take (Z.to_nat (nd - 1)) (digits var) ++ [d - d mod pow10])
      else mkVar (weight var) (sign var) rscale (spare var) (take (Z.to_nat nd) (digits var))
    else with_dscale rscale var.

Definition ceil_var (var : NumericVar) : NumericVar :=
  let tmp := trunc_var (set_var_from_var var) 0 in
  let tmp := if (sign var =? NUMERIC_POS) && negb (cmp_var var tmp =? 0) then add_var tmp const_one else tmp in
  set_var_from_var tmp.

Definition floor_var (var : NumericVar) : NumericVar :=
  let tmp := trunc_var (set_var_from_var var) 0 in
  let tmp := if (sign var =? NUMERIC_NEG) && negb (cmp_var var tmp =? 0) then sub_var tmp const_one else tmp in
  set_var_from_var tmp.

(** The loop of [apply_typmod] that determines the true weight. *)
Fixpoint check_ddigits (ds : list Z) (ddigits maxdigits : Z) : result unit :=
  match ds with
  | [] => Ok tt
  | dig :: ds' =>
      if negb (dig =? 0) then
        let ddigits :=
          if dig <? 10 then ddigits - 3 else if dig <? 100 then ddigits - 2
          else if dig <? 1000 then ddigits - 1 else ddigits in
        if ddigits >? maxdigits then ereport ERRCODE_NUMERIC_VALUE_OUT_OF_RANGE "numeric field overflow"
        else Ok tt
      else check_ddigits ds' (ddigits - DEC_DIGITS) maxdigits
  end.

Definition typmod_precision (typmod : Z) : Z := Z.land (Z.shiftr (typmod - VARHDRSZ) 16) 0xffff.
Definition typmod_scale (typmod : Z) : Z := Z.land (typmod - VARHDRSZ) 0xffff.

Definition apply_typmod (var : NumericVar) (typmod : Z) : result NumericVar :=
  if typmod <? VARHDRSZ then Ok var
  else
    let maxdigits := typmod_precision typmod - typmod_scale typmod in
    var ← round_var var (typmod_scale typmod);
    let ddigits := (weight var + 1) * DEC_DIGITS in
    if ddigits >? maxdigits then _ ← check_ddigits (digits var) ddigits maxdigits; Ok var
    else Ok var.

(** ** Multiplication *)

Definition INT_MAX : Z := 2147483647.

Definition int32 (x : Z) : Z := swrap 32 x.

(** A carry propagation pass, over the digits from the last one. *)
Fixpoint carry_pass (dig : list Z) (carry : Z) : list Z :=
  match dig with
  | [] => []
  | d :: dig' =>
      let newdig := int32 (d + carry) in
      if newdig >=? NBASE then
        let carry := newdig / NBASE in
        int32 (newdig - int32 (carry * NBASE)) :: carry_pass dig' carry
      else newdig :: carry_pass dig' 0
  end.

Definition normalize (dig : list Z) : list Z := rev (carry_pass (rev dig) 0).

(** A store into an array of [int]. *)
Definition array_put (arr : list Z) (i x : Z) : result (list Z) :=
  if (0 <=? i) && (i <? Z.of_nat (length arr)) then Ok (<[Z.to_nat i := x]> arr) else undefined "store outside of the array".

(** Add [var1digit] times the first [n] digits of [var2] into the accumulator. *)
Fixpoint add_row (var1digit : Z) (ds2 : list Z) (i1 n : nat) (dig : list Z) : result (list Z) :=
  match n with
  | O => Ok dig
  | S i2 =>
      let i := Z.of_nat (i1 + i2 + 2) in
      old ← array_get dig i;
      var2digit ← array_get ds2 (Z.of_nat i2);
      dig ← array_put dig i (int32 (old + int32 (var1digit * var2digit)));
      add_row var1digit ds2 i1 i2 dig
  end.

(** The loop over the first [n] digits of [var1], the last one first. *)
Fixpoint mul_rows (ds1 ds2 : list Z) (n : nat) (maxdig : Z) (dig : list Z) : result (list Z) :=
  match n with
  | O => Ok dig
  | S i1 =>
      var1digit ← array_get ds1 (Z.of_nat i1);
      if var1digit =? 0 then mul_rows ds1 ds2 i1 maxdig dig
      else
        let maxdig := maxdig + var1digit in
        let '(dig, maxdig) :=
          if maxdig >? (INT_MAX - INT_MAX / NBASE) / (NBASE - 1) then (normalize dig, 1 + var1digit)
          else (dig, maxdig) in
        let n2 := Z.min (Z.of_nat (length ds2) - 1) (Z.of_nat (length dig) - Z.of_nat i1 - 3) + 1 in
        dig ← add_row var1digit ds2 i1 (Z.to_nat n2) dig;
        mul_rows ds1 ds2 i1 maxdig dig
  end.

(** [mul_var] when [var1] is not the longer of the two. *)
Definition mul_ordered (var1 var2 : NumericVar) (rscale : Z) : result NumericVar :=
  if (ndigits var1 =? 0) || (ndigits var2 =? 0) then Ok (zero_var rscale)
  else
    let res_sign := if sign var1 =? sign var2 then NUMERIC_POS else NUMERIC_NEG in
    let res_weight := weight var1 + weight var2 + 2 in
    let maxdigits := res_weight + 1 + Z.quot (rscale + DEC_DIGITS - 1) DEC_DIGITS + MUL_GUARD_DIGITS in
    let res_ndigits := Z.min (ndigits var1 + ndigits var2 + 1) maxdigits in
    if res_ndigits <? 3 then Ok (zero_var rscale)
    else
      let n1 := Z.min (ndigits var1 - 1) (res_ndigits - 3) + 1 in
      dig ← mul_rows (digits var1) (digits var2) (Z.to_nat n1) 0 (replicate (Z.to_nat res_ndigits) 0);
      res ← round_var (mkVar res_weight res_sign 0 1 (normalize dig)) rscale;
      Ok (strip_var res).

Definition mul_var (var1 var2 : NumericVar) (rscale : Z) : result NumericVar :=
  if ndigits var1 >? ndigits var2 then mul_ordered var2 var1 rscale else mul_ordered var1 var2 rscale.

(** ** Conversions of integers *)

(** The loop of [int64_to_numericvar]; 5 digits are allocated. *)
Fixpoint int64_digits (fuel : nat) (uval : Z) (ds : list Z) : result (list Z) :=
  match fuel with
  | O => undefined "store outside of the digit buffer"
  | S fuel' =>
      let newuval := uval / NBASE in
      let ds := uval - newuval * NBASE :: ds in
      if newuval =? 0 then Ok ds else int64_digits fuel' newuval ds
  end.

Definition int64_to_numericvar (val : Z) : result NumericVar :=
  let '(s, uval) := if val <? 0 then (NUMERIC_NEG, u64 (- val)) else (NUMERIC_POS, val) in
  if val =? 0 then Ok (mkVar 0 s 0 1 [])
  else
    ds ← int64_digits 5 uval [];
    Ok (mkVar (Z.of_nat (length ds) - 1) s 0 (1 + (5 - Z.of_nat (length ds))) ds).

Definition PG_INT64_MIN : Z := - 2 ^ 63.
Definition in_int64 (x : Z) : bool := (- 2 ^ 63 <=? x) && (x <? 2 ^ 63).

(** The loop of [numericvar_to_int64] over the digits up to the decimal point;
    [None] is an overflow. *)
Fixpoint int64_loop (n : nat) (ds : list Z) (val : Z) : option Z :=
  match n with
  | O => Some val
  | S n' =>
      if negb (in_int64 (val * NBASE)) then None
      else
        match ds with
        | [] => int64_loop n' [] (val * NBASE)
        | d :: ds' =>
            if negb (in_int64 (val * NBASE - d)) then None else int64_loop n' ds' (val * NBASE - d)
        end
  end.

Definition numericvar_to_int64 (var : NumericVar) : result (option Z) :=
  rounded ← round_var (set_var_from_var var) 0;
  let rounded := strip_var rounded in
  match digits rounded with
  | [] => Ok (Some 0)
  | d :: ds =>
      match int64_loop (Z.to_nat (weight rounded)) ds (- d) with
      | None => Ok None
      | Some val =>
          if sign rounded =? NUMERIC_NEG then Ok (Some val)
          else if val =? PG_INT64_MIN then Ok None else Ok (Some (- val))
      end
  end.

Definition numericvar_to_int32 (var : NumericVar) : result (option Z) :=
  val ← numericvar_to_int64 var;
  Ok (match val with
      | Some val => if (val <? PG_INT32_MIN) || (val >? PG_INT32_MAX) then None else Some val
      | None => None
      end).

(** ** Functions on packed values *)

Definition make_nan : result Numeric := make_result const_nan.

(** The callers without [have_error]. *)
Definition or_raise (m : option Numeric) : result Numeric :=
  match m with Some num => Ok num | None => value_overflows end.

Definition numeric_add_opt_error (num1 num2 : Numeric) : result (option Numeric) :=
  if NUMERIC_IS_NAN num1 || NUMERIC_IS_NAN num2 then num ← make_nan; Ok (Some num)
  else Ok (make_result_opt_error (add_var (init_var_from_num num1) (init_var_from_num num2))).

Definition numeric_add (num1 num2 : Numeric) : result Numeric :=
  res ← numeric_add_opt_error num1 num2; or_raise res.

Definition numeric_sub_opt_error (num1 num2 : Numeric) : result (option Numeric) :=
  if NUMERIC_IS_NAN num1 || NUMERIC_IS_NAN num2 then num ← make_nan; Ok (Some num)
  else Ok (make_result_opt_error (sub_var (init_var_from_num num1) (init_var_from_num num2))).

Definition numeric_sub (num1 num2 : Numeric) : result Numeric :=
  res ← numeric_sub_opt_error num1 num2; or_raise res.

Definition numeric_mul_opt_error (num1 num2 : Numeric) : result (option Numeric) :=
  if NUMERIC_IS_NAN num1 || NUMERIC_IS_NAN num2 then num ← make_nan; Ok (Some num)
  else
    let arg1 := init_var_from_num num1 in
    let arg2 := init_var_from_num num2 in
    res ← mul_var arg1 arg2 (dscale arg1 + dscale arg2);
    res ← (if dscale res >? NUMERIC_DSCALE_MAX then round_var res NUMERIC_DSCALE_MAX else Ok res);
    Ok (make_result_opt_error res).

Definition numeric_mul (num1 num2 : Numeric) : result Numeric :=
  res ← numeric_mul_opt_error num1 num2; or_raise res.

Definition numeric_inc (num : Numeric) : result Numeric :=
  if NUMERIC_IS_NAN num then make_nan
  else make_result (add_var (init_var_from_num num) const_one).

(** A copy of the value with another first header word. *)
Definition with_header (h : Z) (num : Numeric) : Numeric :=
  let res := bytes_at num 0 (VARSIZE_4B num) in
  take 4 res ++ le_bytes 2 h ++ drop 6 res.

Definition numeric_abs (num : Numeric) : result Numeric :=
  if NUMERIC_IS_NAN num then make_nan
  else if NUMERIC_IS_SHORT num then
    Ok (with_header (Z.land (n_header num) (Z.lnot NUMERIC_SHORT_SIGN_MASK)) num)
  else Ok (with_header (Z.lor NUMERIC_POS (NUMERIC_DSCALE num)) num).

Definition numeric_uminus (num : Numeric) : result Numeric :=
  if NUMERIC_IS_NAN num then make_nan
  else if negb (NUMERIC_NDIGITS num =? 0) then
    if NUMERIC_IS_SHORT num then Ok (with_header (Z.lxor (n_header num) NUMERIC_SHORT_SIGN_MASK) num)
    else if NUMERIC_SIGN num =? NUMERIC_POS then Ok (with_header (Z.lor NUMERIC_NEG (NUMERIC_DSCALE num)) num)
    else Ok (with_header (Z.lor NUMERIC_POS (NUMERIC_DSCALE num)) num)
  else Ok (bytes_at num 0 (VARSIZE_4B num)).

Definition numeric_uplus (num : Numeric) : result Numeric := Ok (bytes_at num 0 (VARSIZE_4B num)).

Definition numeric_sign (num : Numeric) : result Numeric :=
  if NUMERIC_IS_NAN num then make_nan
  else
    make_result (if NUMERIC_NDIGITS num =? 0 then set_var_from_var const_zero
                 else with_sign (NUMERIC_SIGN num) (set_var_from_var const_one)).

Definition limit_scale (scale : Z) : Z :=
  Z.min (Z.max scale (- NUMERIC_MAX_RESULT_SCALE)) NUMERIC_MAX_RESULT_SCALE.

Definition numeric_round (num : Numeric) (scale : Z) : result Numeric :=
  if NUMERIC_IS_NAN num then make_nan
  else
    let scale := limit_scale scale in
    arg ← round_var (set_var_from_num num) scale;
    make_result (if scale <? 0 then with_dscale 0 arg else arg).

Definition numeric_trunc (num : Numeric) (scale : Z) : result Numeric :=
  if NUMERIC_IS_NAN num then make_nan
  else
    let scale := limit_scale scale in
    let arg := trunc_var (set_var_from_num num) scale in
    make_result (if scale <? 0 then with_dscale 0 arg else arg).

Definition numeric_ceil (num : Numeric) : result Numeric :=
  if NUMERIC_IS_NAN num then make_nan else make_result (ceil_var (init_var_from_num num)).

Definition numeric_floor (num : Numeric) : result Numeric :=
  if NUMERIC_IS_NAN num then make_nan else make_result (floor_var (init_var_from_num num)).

(** [numeric()], which applies the type modifier of a column. *)
Definition numeric (num : Numeric) (typmod : Z) : result Numeric :=
  if NUMERIC_IS_NAN num then make_nan
  else if typmod <? VARHDRSZ then Ok (bytes_at num 0 (VARSIZE_4B num))
  else
    let scale := typmod_scale typmod in
    let maxdigits := typmod_precision typmod - scale in
    let ddigits := (NUMERIC_WEIGHT num + 1) * DEC_DIGITS in
    if (ddigits <=? maxdigits) && (scale >=? NUMERIC_DSCALE num)
       && (NUMERIC_CAN_BE_SHORT scale (NUMERIC_WEIGHT num) || negb (NUMERIC_IS_SHORT num)) then
      if NUMERIC_IS_SHORT num then
        Ok (with_header (Z.lor (Z.land (n_header num) (Z.lnot NUMERIC_SHORT_DSCALE_MASK))
                               (Z.shiftl scale NUMERIC_SHORT_DSCALE_SHIFT)) num)
      else Ok (with_header (Z.lor (NUMERIC_SIGN num) (Z.land scale NUMERIC_DSCALE_MASK)) num)
    else
      var ← apply_typmod (set_var_from_num num) typmod;
      make_result var.

Definition int8_numeric (val : Z) : result Numeric := var ← int64_to_numericvar val; make_result var.

Definition int4_numeric (val : Z) : result Numeric := var ← int64_to_numericvar val; make_result var.

Definition int2_numeric (val : Z) : result Numeric := var ← int64_to_numericvar val; make_result var.

Definition numeric_int8 (num : Numeric) : result Z :=
  if NUMERIC_IS_NAN num then ereport ERRCODE_FEATURE_NOT_SUPPORTED "cannot convert NaN to bigint"
  else
    val ← numericvar_to_int64 (init_var_from_num num);
    match val with Some val => Ok val | None => ereport ERRCODE_NUMERIC_VALUE_OUT_OF_RANGE "bigint out of range" end.

Definition numeric_int4 (num : Numeric) : result Z :=
  if NUMERIC_IS_NAN num then ereport ERRCODE_FEATURE_NOT_SUPPORTED "cannot convert NaN to integer"
  else
    val ← numericvar_to_int32 (init_var_from_num num);
    match val with Some val => Ok val | None => ereport ERRCODE_NUMERIC_VALUE_OUT_OF_RANGE "integer out of range" end.

Definition numeric_int2 (num : Numeric) : result Z :=
  if NUMERIC_IS_NAN num then ereport ERRCODE_FEATURE_NOT_SUPPORTED "cannot convert NaN to smallint"
  else
    val ← numericvar_to_int64 (init_var_from_num num);
    match val with
    | Some val =>
        if (val <? -32768) || (val >? 32767) then ereport ERRCODE_NUMERIC_VALUE_OUT_OF_RANGE "smallint out of range"
        else Ok val
    | None => ereport ERRCODE_NUMERIC_VALUE_OUT_OF_RANGE "smallint out of range"
    end.

Definition in_range_numeric_numeric (val base offset : Numeric) (sub less : bool) : result bool :=
  if NUMERIC_IS_NAN offset || (NUMERIC_SIGN offset =? NUMERIC_NEG) then
    ereport ERRCODE_INVALID_PRECEDING_OR_FOLLOWING_SIZE "invalid preceding or following size in window function"
  else if NUMERIC_IS_NAN val then Ok (if NUMERIC_IS_NAN base then true else negb less)
  else if NUMERIC_IS_NAN base then Ok less
  else
    let sum :=
      if sub then sub_var (init_var_from_num base) (init_var_from_num offset)
      else add_var (init_var_from_num base) (init_var_from_num offset) in
    Ok (if less then cmp_var (init_var_from_num val) sum <=? 0 else cmp_var (init_var_from_num val) sum >=? 0).

(** ** Hashing *)

(** On a little-endian machine.  The digits that are hashed, without leading and trailing zeroes, and their
    weight. *)
Definition hash_digits (key : Numeric) : list Z * Z :=
  let '(ds, w) := strip_leading (NUMERIC_DIGITS key) (NUMERIC_WEIGHT key) in (strip_trailing ds, w).

Definition hash_numeric (aligned : bool) (key : Numeric) : Z :=
  if NUMERIC_IS_NAN key then 0
  else
    let '(ds, w) := hash_digits key in
    match ds with
    | [] => u32 (-1)
    | _ => Z.lxor (hash_bytes false aligned (bytes_of_digits ds)) (u64 w)
    end.

Definition hash_numeric_extended (aligned : bool) (key : Numeric) (seed : Z) : Z :=
  if NUMERIC_IS_NAN key then seed
  else
    let '(ds, w) := hash_digits key in
    match ds with
    | [] => u64 (seed - 1)
    | _ => Z.lxor (hash_bytes_extended false aligned (bytes_of_digits ds) seed) (u64 w)
    end.
