(* ===== verification/NumericValue.v ===== *)
(** * Values of numeric variables

    A variable denotes the decimal number [m * 10^(-s)] ([denotes]); lemmas on
    positional values, stripping, comparison, addition and subtraction. *)

From S2P Require Import Prelude Varlena Hashfn Numeric.

(** ** Positional values *)

(** The value of digits of which the first has weight [w], in units of
    [NBASE^(-k)]. *)
Fixpoint pv (k : Z) (ds : list Z) (w : Z) : Z :=
  match ds with
  | [] => 0
  | d :: ds' => d * NBASE ^ (k + w) + pv k ds' (w - 1)
  end.

Definition is_digit (d : Z) : Prop := 0 <= d < NBASE.

(** The digits end at or before position [-k]. *)
Definition fits (k : Z) (ds : list Z) (w : Z) : Prop := Z.of_nat (length ds) <= k + w + 1.

Lemma NBASE_pos e : 0 <= e -> 0 < NBASE ^ e.
Proof. intros. apply Z.pow_pos_nonneg; [done|lia]. Qed.

Lemma NBASE_succ e : 0 <= e -> NBASE ^ (e + 1) = NBASE * NBASE ^ e.
Proof. intros. by rewrite Z.pow_add_r, Z.mul_comm by lia. Qed.

Lemma NBASE_mono a b : 0 <= a <= b -> NBASE ^ a <= NBASE ^ b.
Proof. intros. apply Z.pow_le_mono_r; [done|lia]. Qed.

Lemma fits_tail k d ds w : fits k (d :: ds) w -> fits k ds (w - 1).
Proof. unfold fits. cbn [length]. lia. Qed.

Lemma pv_app k ds1 ds2 w : pv k (ds1 ++ ds2) w = pv k ds1 w + pv k ds2 (w - Z.of_nat (length ds1)).
Proof.
  revert w. induction ds1 as [|d ds1 IH]; intros w; cbn [app pv length].
  - by rewrite Z.sub_0_r.
  - rewrite IH. replace (w - Z.of_nat (S (length ds1))) with (w - 1 - Z.of_nat (length ds1)) by lia. lia.
Qed.

Lemma pv_nonneg k ds w : Forall is_digit ds -> 0 <= pv k ds w.
Proof.
  intros H. revert w. induction H as [|d ds [H1 H2] _ IH]; intros w; cbn [pv]; [done|].
  specialize (IH (w - 1)). pose proof (Z.pow_nonneg NBASE (k + w) ltac:(done)). nia.
Qed.

Lemma pv_bound k ds w : Forall is_digit ds -> fits k ds w -> 0 <= k + w + 1 -> pv k ds w < NBASE ^ (k + w + 1).
Proof.
  intros H. revert w. induction H as [|d ds [H1 H2] _ IH]; intros w Hf Hk; cbn [pv].
  - by apply NBASE_pos.
  - assert (0 <= k + w) by (unfold fits in Hf; cbn in Hf; lia).
    specialize (IH (w - 1) (fits_tail _ _ _ _ Hf) ltac:(lia)).
    replace (k + (w - 1) + 1) with (k + w) in IH by lia.
    rewrite NBASE_succ by lia. pose proof (NBASE_pos (k + w) ltac:(lia)). unfold is_digit, NBASE in *. nia.
Qed.

Lemma pv_pos k ds w : Forall is_digit ds -> fits k ds w -> existsb nonzero ds = true -> 0 < pv k ds w.
Proof.
  intros H. revert w. induction H as [|d ds Hd Hds IH]; intros w Hf He; [done|]. cbn [existsb pv] in *.
  assert (0 <= k + w) by (unfold fits in Hf; cbn in Hf; lia).
  pose proof (NBASE_pos (k + w) ltac:(lia)). pose proof (pv_nonneg k ds (w - 1) Hds). unfold is_digit in Hd.
  unfold nonzero in He at 1. destruct (Z.eqb_spec d 0) as [-> |]; cbn in He; [|nia].
  specialize (IH (w - 1) (fits_tail _ _ _ _ Hf) He). lia.
Qed.

Lemma pv_zero k ds w : existsb nonzero ds = false -> pv k ds w = 0.
Proof.
  revert w. induction ds as [|d ds IH]; intros w He; [done|]. cbn [existsb pv] in *.
  apply orb_false_iff in He as [E He]. unfold nonzero in E. zbool. rewrite E, IH by done. lia.
Qed.

Lemma pv_scale k j ds w : 0 <= j -> fits k ds w -> pv (k + j) ds w = pv k ds w * NBASE ^ j.
Proof.
  intros Hj. revert w. induction ds as [|d ds IH]; intros w Hf; cbn [pv]; [done|].
  rewrite IH by eauto using fits_tail.
  assert (0 <= k + w) by (unfold fits in Hf; cbn in Hf; lia).
  replace (k + j + w) with (k + w + j) by lia. rewrite Z.pow_add_r by lia. lia.
Qed.

Lemma pv_replicate k n w : pv k (replicate n 0) w = 0.
Proof. revert w. induction n as [|n IH]; intros w; cbn; [done|]. by rewrite IH. Qed.

(** ** Values of variables *)

Definition sgn (var : NumericVar) : Z := if sign var =? NUMERIC_NEG then -1 else 1.

Definition abs_value (k : Z) (var : NumericVar) : Z := pv k (digits var) (weight var).

Definition svalue (k : Z) (var : NumericVar) : Z := sgn var * abs_value k var.

Definition covers (k : Z) (var : NumericVar) : Prop := fits k (digits var) (weight var).

(** The invariant of variables. *)
Record var_ok (var : NumericVar) : Prop := {
  vo_digits : Forall is_digit (digits var);
  vo_sign : sign var = NUMERIC_POS \/ sign var = NUMERIC_NEG
}.

(** No zeroes at the ends, and zero in one form only. *)
Definition no_lead (ds : list Z) : Prop := match ds with d :: _ => d <> 0 | [] => True end.

Record stripped (var : NumericVar) : Prop := {
  st_lead : no_lead (digits var);
  st_trail : no_lead (rev (digits var));
  st_zero : digits var = [] -> weight var = 0 /\ sign var = NUMERIC_POS
}.

(** [var] is [m * 10^(-s)]. *)
Definition denotes (var : NumericVar) (m s : Z) : Prop :=
  forall k, covers k var -> s <= 4 * k -> svalue k var = m * 10 ^ (4 * k - s).

Lemma pow10_NBASE e : 0 <= e -> 10 ^ (4 * e) = NBASE ^ e.
Proof. intros. by rewrite Z.pow_mul_r by lia. Qed.

Lemma ten_pos e : 0 <= e -> 0 < 10 ^ e.
Proof. intros. apply Z.pow_pos_nonneg; lia. Qed.

Lemma covers_up k k' var : covers k var -> k <= k' -> covers k' var.
Proof. unfold covers, fits. lia. Qed.

Lemma svalue_scale k k' var : covers k var -> k <= k' -> svalue k' var = svalue k var * NBASE ^ (k' - k).
Proof.
  intros Hc Hk. unfold svalue, abs_value. replace k' with (k + (k' - k)) at 1 by lia.
  rewrite pv_scale by (done || lia). lia.
Qed.

(** It is enough to look at one unit. *)
Lemma denotes_at k var m s : covers k var -> s <= 4 * k -> svalue k var = m * 10 ^ (4 * k - s) -> denotes var m s.
Proof.
  intros Hc Hs E k' Hc' Hs'. set (K := Z.max k k').
  assert (E1 : svalue K var = m * 10 ^ (4 * K - s)).
  { rewrite (svalue_scale k) by (done || lia). rewrite E, <- pow10_NBASE by lia.
    rewrite <- Z.mul_assoc, <- Z.pow_add_r by lia. do 2 f_equal. lia. }
  rewrite (svalue_scale k') in E1 by (done || lia).
  apply (Z.mul_reg_r _ _ (NBASE ^ (K - k'))); [pose proof (NBASE_pos (K - k') ltac:(lia)); lia|].
  rewrite E1, <- pow10_NBASE by lia. rewrite <- Z.mul_assoc, <- Z.pow_add_r by lia. do 2 f_equal. lia.
Qed.

(** A unit for finitely many conditions. *)
Definition unit_for (var : NumericVar) (s : Z) : Z := Z.max (nb_rscale var) (Z.max 0 s).

Lemma unit_covers var s k : unit_for var s <= k -> covers k var.
Proof. unfold unit_for, covers, fits, nb_rscale, ndigits. lia. Qed.

Lemma unit_scale var s k : unit_for var s <= k -> s <= 4 * k.
Proof. unfold unit_for. lia. Qed.

Lemma unit_nonneg var s k : unit_for var s <= k -> 0 <= k.
Proof. unfold unit_for. lia. Qed.

#[export] Hint Resolve unit_covers unit_scale unit_nonneg : pg.

(** Two variables with the same value denote the same numbers. *)
Lemma denotes_ext k0 var var' m s :
  (forall k, k0 <= k -> covers k var -> covers k var' -> svalue k var' = svalue k var) ->
  denotes var m s -> denotes var' m s.
Proof.
  intros H D. set (k := Z.max k0 (Z.max (unit_for var s) (unit_for var' s))).
  apply (denotes_at k); [apply (unit_covers _ s); lia|apply (unit_scale var); lia|].
  rewrite H by (lia || apply (unit_covers _ s); lia).
  apply D; [apply (unit_covers _ s); lia|apply (unit_scale var); lia].
Qed.

Lemma denotes_unique var m m' s : denotes var m s -> denotes var m' s -> m = m'.
Proof.
  intros D D'. set (k := unit_for var s).
  assert (Hc : covers k var) by by apply (unit_covers _ s).
  assert (Hs : s <= 4 * k) by by apply (unit_scale var).
  pose proof (D k Hc Hs) as E. rewrite D' in E by done.
  apply Z.mul_reg_r in E; [done|]. pose proof (ten_pos (4 * k - s)). lia.
Qed.

(** A larger scale. *)
Lemma denotes_rescale var m s s' : s <= s' -> denotes var m s -> denotes var (m * 10 ^ (s' - s)) s'.
Proof.
  intros Hs D k Hc Hk. rewrite D by (done || lia). rewrite <- Z.mul_assoc, <- Z.pow_add_r by lia. do 2 f_equal. lia.
Qed.

(** ** Stripping *)

Lemma abs_value_nil k var : digits var = [] -> abs_value k var = 0.
Proof. unfold abs_value. by intros ->. Qed.

Lemma strip_leading_spec ds w ds' w' :
  strip_leading ds w = (ds', w') ->
  (exists n, ds = replicate n 0 ++ ds' /\ w' = w - Z.of_nat n) /\ no_lead ds'.
Proof.
  revert w. induction ds as [|d ds IH]; intros w H; cbn in H.
  - injection H as <- <-. split; [exists 0%nat; split; [done|lia]|done].
  - destruct (Z.eqb_spec d 0) as [-> |Hd].
    + apply IH in H as [(n & -> & ->) Hl]. split; [|done]. exists (S n). split; [done|lia].
    + injection H as <- <-. split; [exists 0%nat; split; [done|lia]|done].
Qed.

Lemma drop_zeroes_spec ds : exists n, ds = replicate n 0 ++ drop_zeroes ds /\ no_lead (drop_zeroes ds).
Proof.
  induction ds as [|d ds [n [E Hl]]]; cbn; [by exists 0%nat|].
  destruct (Z.eqb_spec d 0) as [-> |Hd]; [|by exists 0%nat].
  exists (S n). by rewrite E at 1.
Qed.

Lemma rev_replicate {A} n (x : A) : rev (replicate n x) = replicate n x.
Proof.
  induction n as [|n IH]; [done|]. cbn. rewrite IH. clear. induction n as [|n IH]; [done|]. cbn. by rewrite IH.
Qed.

Lemma strip_trailing_spec ds : exists n, ds = strip_trailing ds ++ replicate n 0 /\ no_lead (rev (strip_trailing ds)).
Proof.
  destruct (drop_zeroes_spec (rev ds)) as (n & E & Hl). exists n. unfold strip_trailing.
  split; [|by rewrite rev_involutive].
  rewrite <- (rev_replicate n), <- rev_app_distr, <- E. by rewrite rev_involutive.
Qed.

Lemma strip_trailing_lead ds : no_lead ds -> no_lead (strip_trailing ds).
Proof.
  destruct (strip_trailing_spec ds) as (n & E & _). rewrite E at 1.
  by destruct (strip_trailing ds).
Qed.

(** What the two loops leave of digits. *)
Lemma strip_loops k ds w ds' w' :
  strip_leading ds w = (ds', w') ->
  pv k (strip_trailing ds') w' = pv k ds w /\
  (Forall is_digit ds -> Forall is_digit (strip_trailing ds')) /\
  (fits k ds w -> fits k (strip_trailing ds') w') /\
  no_lead (strip_trailing ds') /\ no_lead (rev (strip_trailing ds')).
Proof.
  intros H. apply strip_leading_spec in H as [(n & -> & ->) Hl].
  destruct (strip_trailing_spec ds') as (n' & E & Ht).
  assert (Hv : pv k ds' (w - Z.of_nat n) = pv k (strip_trailing ds') (w - Z.of_nat n)).
  { rewrite E at 1. rewrite pv_app, pv_replicate. lia. }
  split_and!; [|intros Hf..| |done].
  - rewrite pv_app, pv_replicate, length_replicate, Hv. lia.
  - apply Forall_app in Hf as [_ Hf]. rewrite E in Hf. by apply Forall_app in Hf as [Hf _].
  - unfold fits in *. rewrite E, !length_app, !length_replicate in Hf. lia.
  - by apply strip_trailing_lead.
Qed.

Lemma strip_var_stripped var : stripped (strip_var var).
Proof.
  unfold strip_var. destruct (strip_leading _ _) as [ds w] eqn:E.
  destruct (strip_loops 0 _ _ _ _ E) as (_ & _ & _ & Hl & Ht).
  destruct (strip_trailing ds) eqn:Es; cbn [length Nat.eqb]; split; cbn; done.
Qed.

Lemma strip_var_ok var : var_ok var -> var_ok (strip_var var).
Proof.
  intros [Hd Hs]. unfold strip_var. destruct (strip_leading _ _) as [ds w] eqn:E.
  destruct (strip_loops 0 _ _ _ _ E) as (_ & Hf & _).
  destruct (Nat.eqb _ _); split; cbn; auto.
Qed.

Lemma strip_var_dscale var : dscale (strip_var var) = dscale var.
Proof. unfold strip_var. destruct (strip_leading _ _) as [ds w]. by destruct (Nat.eqb _ _). Qed.

Lemma strip_var_abs k var : abs_value k (strip_var var) = abs_value k var.
Proof.
  unfold strip_var, abs_value. destruct (strip_leading _ _) as [ds w] eqn:E.
  destruct (strip_loops k _ _ _ _ E) as (Hv & _).
  destruct (Nat.eqb_spec (length (strip_trailing ds)) 0) as [El|]; cbn; [|done].
  apply length_zero_iff_nil in El. by rewrite El in *.
Qed.

Lemma strip_var_sign var : digits (strip_var var) = [] \/ sign (strip_var var) = sign var.
Proof.
  unfold strip_var. destruct (strip_leading _ _) as [ds w]. destruct (Nat.eqb_spec (length (strip_trailing ds)) 0) as [El|]; [|by right].
  left. by apply length_zero_iff_nil in El.
Qed.

Lemma strip_var_svalue k var : svalue k (strip_var var) = svalue k var.
Proof.
  unfold svalue. rewrite <- (strip_var_abs k var). destruct (strip_var_sign var) as [E|E].
  - rewrite abs_value_nil by done. lia.
  - unfold sgn. by rewrite E.
Qed.

Lemma strip_var_denotes var m s : denotes (strip_var var) m s <-> denotes var m s.
Proof. split; apply (denotes_ext 0); intros k _ _ _; by rewrite strip_var_svalue. Qed.

(** ** Comparison *)

Lemma skip_above_spec k ds w1 w2 found ds' w1' :
  Forall is_digit ds -> fits k ds w1 -> skip_above ds w1 w2 = (found, ds', w1') ->
  if found then NBASE ^ (k + w2 + 1) <= pv k ds w1 /\ w2 < w1' <= w1 /\ 0 < pv k ds w1
  else pv k ds w1 = pv k ds' w1' /\ Forall is_digit ds' /\ fits k ds' w1' /\ (w1' <= w2 \/ ds' = []) /\
       (w1' = w1 \/ w2 <= w1' < w1).
Proof.
  revert w1. induction ds as [|d ds IH]; intros w1 Hd Hf H; cbn [skip_above] in H.
  - injection H as <- <- <-. split_and!; auto.
  - inversion Hd as [|?? Hd1 Hd2]; subst. rewrite Z.gtb_ltb in H. destruct (Z.ltb_spec w2 w1).
    + destruct (Z.eqb_spec d 0) as [-> |Hn].
      * apply IH in H; [|done|by eapply fits_tail]. cbn [pv]. destruct found; [|intuition lia].
        destruct H as (H1 & H2 & H3). split_and!; lia.
      * injection H as <- <- <-. cbn [pv].
        assert (0 <= k + w1) by (unfold fits in Hf; cbn in Hf; lia).
        pose proof (pv_nonneg k ds (w1 - 1) Hd2). pose proof (NBASE_pos (k + w1) ltac:(lia)).
        unfold is_digit in Hd1.
        assert (NBASE ^ (k + w2 + 1) <= NBASE ^ (k + w1)).
        { destruct (Z.ltb_spec (k + w2 + 1) 0); [rewrite Z.pow_neg_r by lia; lia|apply NBASE_mono; lia]. }
        split_and!; nia || lia.
    + injection H as <- <- <-. split_and!; auto.
Qed.

Lemma pv_small k ds w w' : Forall is_digit ds -> fits k ds w -> w <= w' -> 0 < NBASE ^ (k + w' + 1) -> pv k ds w < NBASE ^ (k + w' + 1).
Proof.
  intros Hd Hf Hw Hp. destruct ds as [|d ds]; [done|].
  assert (0 <= k + w) by (unfold fits in Hf; cbn in Hf; lia).
  apply (Z.lt_le_trans _ (NBASE ^ (k + w + 1))); [apply pv_bound; [done..|lia]|apply NBASE_mono; lia].
Qed.

Lemma pv_lead k ds w : Forall is_digit ds -> no_lead ds -> ds <> [] -> NBASE ^ (k + w) <= pv k ds w.
Proof.
  intros H Hl Hn. destruct H as [|d ds [H1 H2] Hds]; [done|]. cbn in *.
  pose proof (pv_nonneg k ds (w - 1) Hds). pose proof (Z.pow_nonneg NBASE (k + w) ltac:(done)). nia.
Qed.

Lemma cmp_common_spec k ds1 ds2 w :
  Forall is_digit ds1 -> Forall is_digit ds2 -> fits k ds1 w -> fits k ds2 w ->
  match cmp_common ds1 ds2 with
  | inl stat => stat = Z.sgn (pv k ds1 w - pv k ds2 w)
  | inr (ds1', ds2') =>
      (ds1' = [] \/ ds2' = []) /\ Forall is_digit ds1' /\ Forall is_digit ds2' /\
      exists w', pv k ds1 w - pv k ds2 w = pv k ds1' w' - pv k ds2' w' /\ fits k ds1' w' /\ fits k ds2' w'
  end.
Proof.
  intros H1. revert ds2 w. induction H1 as [|d1 ds1 Hd1 H1 IH]; intros ds2 w H2 Hf1 Hf2; cbn [cmp_common].
  - split_and!; eauto.
  - destruct H2 as [|d2 ds2 Hd2 H2]; [split_and!; eauto; by exists w|].
    destruct (Z.eqb_spec (d1 - d2) 0) as [E|E].
    + specialize (IH ds2 (w - 1) H2 (fits_tail _ _ _ _ Hf1) (fits_tail _ _ _ _ Hf2)).
      cbn [pv]. replace d2 with d1 by lia.
      replace (d1 * NBASE ^ (k + w) + pv k ds1 (w - 1) - (d1 * NBASE ^ (k + w) + pv k ds2 (w - 1)))
        with (pv k ds1 (w - 1) - pv k ds2 (w - 1)) by lia.
      done.
    + assert (0 <= k + w) by (unfold fits in Hf1; cbn in Hf1; lia).
      pose proof (pv_bound k ds1 (w - 1) H1 (fits_tail _ _ _ _ Hf1) ltac:(lia)) as B1.
      pose proof (pv_bound k ds2 (w - 1) H2 (fits_tail _ _ _ _ Hf2) ltac:(lia)) as B2.
      pose proof (pv_nonneg k ds1 (w - 1) H1). pose proof (pv_nonneg k ds2 (w - 1) H2).
      replace (k + (w - 1) + 1) with (k + w) in * by lia. cbn [pv].
      clear IH. set (X := NBASE ^ (k + w)) in *. clearbody X.
      rewrite Z.gtb_ltb. destruct (Z.ltb_spec 0 (d1 - d2)); symmetry.
      * apply Z.sgn_pos_iff. assert (0 <= (d1 - d2 - 1) * X) by (apply Z.mul_nonneg_nonneg; lia). lia.
      * apply Z.sgn_neg_iff. assert (0 <= (d2 - d1 - 1) * X) by (apply Z.mul_nonneg_nonneg; lia). lia.
Qed.

Lemma cmp_abs_common_spec k ds1 w1 ds2 w2 :
  Forall is_digit ds1 -> Forall is_digit ds2 -> fits k ds1 w1 -> fits k ds2 w2 ->
  cmp_abs_common ds1 w1 ds2 w2 = Z.sgn (pv k ds1 w1 - pv k ds2 w2).
Proof.
  intros H1 H2 Hf1 Hf2. unfold cmp_abs_common.
  destruct (skip_above ds1 w1 w2) as [[found1 ds1'] w1'] eqn:E1. apply (skip_above_spec k) in E1; [|done..].
  destruct found1.
  { symmetry. apply Z.sgn_pos_iff. destruct E1 as (Hle & _ & Hp).
    destruct (Z.ltb_spec (k + w2 + 1) 0).
    - destruct ds2; [cbn; lia|unfold fits in Hf2; cbn in Hf2; lia].
    - pose proof (pv_small k ds2 w2 w2 H2 Hf2 ltac:(lia) (NBASE_pos (k + w2 + 1) ltac:(lia))). lia. }
  destruct E1 as (Ev1 & Hd1 & Hg1 & Hr1 & Hw1). rewrite Ev1.
  destruct (skip_above ds2 w2 w1') as [[found2 ds2'] w2'] eqn:E2. apply (skip_above_spec k) in E2; [|done..].
  destruct found2.
  { symmetry. apply Z.sgn_neg_iff. destruct E2 as (Hle & _ & Hp).
    destruct ds1' as [|d1 ds1']; [cbn; lia|].
    assert (0 <= k + w1') by (unfold fits in Hg1; cbn in Hg1; lia).
    pose proof (pv_small k (d1 :: ds1') w1' w1' Hd1 Hg1 ltac:(lia) (NBASE_pos (k + w1' + 1) ltac:(lia))). lia. }
  destruct E2 as (Ev2 & Hd2 & Hg2 & Hr2 & Hw2). rewrite Ev2.
  assert (Hend : forall e1 e2 w3 w4, Forall is_digit e1 -> Forall is_digit e2 -> fits k e1 w3 -> fits k e2 w4 ->
    e1 = [] \/ e2 = [] ->
    (if existsb nonzero e1 then 1 else if existsb nonzero e2 then -1 else 0) = Z.sgn (pv k e1 w3 - pv k e2 w4)).
  { intros e1 e2 w3 w4 D1 D2 F1 F2 Hor. destruct (existsb nonzero e1) eqn:X1.
    - pose proof (pv_pos k e1 w3 D1 F1 X1). destruct Hor as [-> | ->]; [done|]. cbn. symmetry. apply Z.sgn_pos_iff. lia.
    - rewrite (pv_zero k e1) by done. destruct (existsb nonzero e2) eqn:X2.
      + pose proof (pv_pos k e2 w4 D2 F2 X2). symmetry. apply Z.sgn_neg_iff. lia.
      + by rewrite (pv_zero k e2). }
  destruct (Z.eqb_spec w1' w2') as [<- |Hne].
  - pose proof (cmp_common_spec k ds1' ds2' w1' Hd1 Hd2 Hg1 Hg2) as Hc.
    destruct (cmp_common ds1' ds2') as [stat|[e1 e2]]; [done|].
    destruct Hc as (Hor & D1 & D2 & w' & -> & F1 & F2). by apply Hend.
  - apply Hend; try done. destruct Hr1 as [?|?]; [|auto]. destruct Hr2 as [?|?]; [|auto]. lia.
Qed.

Lemma cmp_abs_spec k var1 var2 :
  var_ok var1 -> var_ok var2 -> covers k var1 -> covers k var2 ->
  cmp_abs var1 var2 = Z.sgn (abs_value k var1 - abs_value k var2).
Proof. intros [] [] ??. by apply cmp_abs_common_spec. Qed.

Lemma abs_value_pos k var : var_ok var -> covers k var -> no_lead (digits var) -> digits var <> [] -> 0 < abs_value k var.
Proof.
  intros [Hd _] Hc Hl Hn. apply pv_pos; [done..|]. destruct (digits var) as [|d ds]; [done|]. cbn in *.
  unfold nonzero. destruct (Z.eqb_spec d 0); [done|by rewrite orb_true_l].
Qed.

Lemma cmp_var_spec k var1 var2 :
  var_ok var1 -> var_ok var2 -> no_lead (digits var1) -> no_lead (digits var2) -> covers k var1 -> covers k var2 ->
  cmp_var var1 var2 = Z.sgn (svalue k var1 - svalue k var2).
Proof.
  intros V1 V2 L1 L2 C1 C2. unfold cmp_var, cmp_var_common.
  pose proof (cmp_abs_spec k var1 var2 V1 V2 C1 C2) as Ha. pose proof (cmp_abs_spec k var2 var1 V2 V1 C2 C1) as Hb.
  pose proof (pv_nonneg k _ (weight var1) (vo_digits _ V1)) as N1. pose proof (pv_nonneg k _ (weight var2) (vo_digits _ V2)) as N2.
  fold (abs_value k var1) in N1. fold (abs_value k var2) in N2. unfold cmp_abs in Ha, Hb.
  assert (P1 : length (digits var1) <> 0%nat -> 0 < abs_value k var1).
  { intros. apply abs_value_pos; [done..|]. by destruct (digits var1). }
  assert (P2 : length (digits var2) <> 0%nat -> 0 < abs_value k var2).
  { intros. apply abs_value_pos; [done..|]. by destruct (digits var2). }
  assert (Z1 : length (digits var1) = 0%nat -> abs_value k var1 = 0) by (intros ?%length_zero_iff_nil; by apply abs_value_nil).
  assert (Z2 : length (digits var2) = 0%nat -> abs_value k var2 = 0) by (intros ?%length_zero_iff_nil; by apply abs_value_nil).
  unfold svalue, sgn. destruct (vo_sign _ V1) as [-> | ->], (vo_sign _ V2) as [-> | ->]; cbn [Z.eqb];
    change (NUMERIC_POS =? NUMERIC_NEG) with false; change (NUMERIC_NEG =? NUMERIC_NEG) with true;
    change (NUMERIC_POS =? NUMERIC_POS) with true; change (NUMERIC_NEG =? NUMERIC_POS) with false; cbv iota;
    destruct (Nat.eqb_spec (length (digits var1)) 0) as [E1|E1], (Nat.eqb_spec (length (digits var2)) 0) as [E2|E2];
    rewrite ?Ha, ?Hb, ?(Z1 E1), ?(Z2 E2); try (specialize (P1 E1)); try (specialize (P2 E2)); lia.
Qed.

(** ** Addition and subtraction of absolute values *)

(** The digits of weights [p], ..., [p + n - 1]. *)
Fixpoint window (k : Z) (ds : list Z) (w p : Z) (n : nat) : Z :=
  match n with
  | O => 0
  | S n' => digit_at ds (w - p) * NBASE ^ (k + p) + window k ds w (p + 1) n'
  end.

Lemma digit_at_cons d ds i : digit_at (d :: ds) i = if i =? 0 then d else digit_at ds (i - 1).
Proof.
  unfold digit_at. cbn [length]. destruct (Z.eqb_spec i 0) as [-> |Hi]; [done|].
  destruct (Z.leb_spec 0 i), (Z.leb_spec 0 (i - 1)); cbn [andb]; [|lia|lia|done].
  destruct (Z.ltb_spec i (Z.of_nat (S (length ds)))), (Z.ltb_spec (i - 1) (Z.of_nat (length ds))); [|lia|lia|done].
  by replace (Z.to_nat i) with (S (Z.to_nat (i - 1))) by lia.
Qed.

Lemma digit_at_digit ds i : Forall is_digit ds -> is_digit (digit_at ds i).
Proof.
  intros H. unfold digit_at. destruct (_ && _) eqn:E; [|done]. zbool.
  eapply List.Forall_forall; [exact H|]. apply nth_In. lia.
Qed.

Lemma window_nil k w p n : window k [] w p n = 0.
Proof.
  revert p. induction n as [|n IH]; intros p; cbn [window]; [done|]. rewrite IH.
  unfold digit_at. cbn [length]. destruct (_ && _) eqn:E; [zbool; lia|lia].
Qed.

Lemma window_cons k d ds w p n :
  window k (d :: ds) w p n =
  (if (p <=? w) && (w <? p + Z.of_nat n) then d * NBASE ^ (k + w) else 0) + window k ds (w - 1) p n.
Proof.
  revert p. induction n as [|n IH]; intros p; cbn [window].
  - destruct (_ && _) eqn:E; [zbool; lia|lia].
  - rewrite IH, digit_at_cons. replace (w - 1 - p) with (w - p - 1) by lia.
    destruct (Z.eqb_spec (w - p) 0).
    + replace w with p by lia. replace (digit_at ds (p - p - 1)) with 0.
      2:{ unfold digit_at. destruct (_ && _) eqn:E; [zbool; lia|done]. }
      destruct (Z.leb_spec (p + 1) p), (Z.leb_spec p p), (Z.ltb_spec p (p + Z.of_nat (S n))); cbn [andb]; lia.
    + destruct (Z.leb_spec (p + 1) w), (Z.leb_spec p w), (Z.ltb_spec w (p + 1 + Z.of_nat n)), (Z.ltb_spec w (p + Z.of_nat (S n)));
        cbn [andb]; lia.
Qed.

(** A window over all the digits. *)
Lemma window_all k ds w p n :
  ds = [] \/ (p <= w + 1 - Z.of_nat (length ds) /\ w < p + Z.of_nat n) -> window k ds w p n = pv k ds w.
Proof.
  revert w. induction ds as [|d ds IH]; intros w H; [apply window_nil|].
  rewrite window_cons. cbn [pv]. destruct H as [?|[H1 H2]]; [done|]. cbn [length] in H1.
  rewrite IH by (destruct ds; [by left|right; cbn [length] in *; lia]).
  destruct (Z.leb_spec p w), (Z.ltb_spec w (p + Z.of_nat n)); cbn [andb]; lia.
Qed.

Lemma window_nonneg k ds w p n : Forall is_digit ds -> 0 <= window k ds w p n.
Proof.
  intros H. revert p. induction n as [|n IH]; intros p; cbn [window]; [done|]. specialize (IH (p + 1)).
  pose proof (digit_at_digit ds (w - p) H) as [H1 _]. pose proof (Z.pow_nonneg NBASE (k + p) ltac:(done)). nia.
Qed.

(** A digit before those of the turns that follow. *)
Lemma loop_snoc k p n new d c c' carry x v :
  length new = n -> 0 <= k + p -> d + c' * NBASE = carry + x ->
  pv k new (p + 1 + Z.of_nat n - 1) + c * NBASE ^ (k + (p + 1) + Z.of_nat n) = c' * NBASE ^ (k + (p + 1)) + v ->
  pv k (new ++ [d]) (p + Z.of_nat (S n) - 1) + c * NBASE ^ (k + p + Z.of_nat (S n)) =
  carry * NBASE ^ (k + p) + x * NBASE ^ (k + p) + v.
Proof.
  intros Hl Hk Hd Hv.
  replace (p + Z.of_nat (S n) - 1) with (p + 1 + Z.of_nat n - 1) by lia.
  replace (k + p + Z.of_nat (S n)) with (k + (p + 1) + Z.of_nat n) by lia.
  rewrite pv_app, Hl. cbn [pv]. replace (p + 1 + Z.of_nat n - 1 - Z.of_nat n) with p by lia.
  replace (k + (p + 1)) with (k + p + 1) in Hv at 2 by lia. rewrite (NBASE_succ (k + p)) in Hv by lia. nia.
Qed.

(** The loops: the digits they put before [res], and the carry that is left. *)
Lemma add_loop_spec k ds1 ds2 w1 w2 n p carry res :
  Forall is_digit ds1 -> Forall is_digit ds2 -> 0 <= carry <= 1 -> 0 <= k + p ->
  exists new c, add_loop ds1 ds2 n (w1 - p + 1) (w2 - p + 1) carry res = new ++ res /\
    length new = n /\ Forall is_digit new /\ 0 <= c <= 1 /\
    pv k new (p + Z.of_nat n - 1) + c * NBASE ^ (k + p + Z.of_nat n) =
    carry * NBASE ^ (k + p) + window k ds1 w1 p n + window k ds2 w2 p n.
Proof.
  intros H1 H2. revert p carry res. induction n as [|n IH]; intros p carry res Hc Hk; cbn [add_loop].
  - exists [], carry. split_and!; try done; try lia. cbn [pv window]. rewrite !Z.add_0_r. lia.
  - replace (w1 - p + 1 - 1) with (w1 - p) by lia. replace (w2 - p + 1 - 1) with (w2 - p) by lia.
    pose proof (digit_at_digit ds1 (w1 - p) H1) as D1. pose proof (digit_at_digit ds2 (w2 - p) H2) as D2.
    set (c0 := carry + digit_at ds1 (w1 - p) + digit_at ds2 (w2 - p)).
    assert (exists d c', (if c0 >=? NBASE then d = c0 - NBASE /\ c' = 1 else d = c0 /\ c' = 0) /\ is_digit d /\ 0 <= c' <= 1 /\ d + c' * NBASE = c0)
      as (d & c' & Hif & Hd & Hc' & Hsum).
    { unfold is_digit in *. subst c0. rewrite Z.geb_leb. destruct (Z.leb_spec NBASE (carry + digit_at ds1 (w1 - p) + digit_at ds2 (w2 - p)));
        eexists _, _; (split; [by split|]); unfold NBASE in *; lia. }
    destruct (IH (p + 1) c' (d :: res) Hc' ltac:(lia)) as (new & c & E & Hl & Hnew & Hcr & Hv).
    replace (w1 - (p + 1) + 1) with (w1 - p) in E by lia. replace (w2 - (p + 1) + 1) with (w2 - p) in E by lia.
    exists (new ++ [d]), c. split_and!; try done.
    + rewrite <- app_assoc. cbn [app]. rewrite <- E. destruct (c0 >=? NBASE); by destruct Hif as [-> ->].
    + rewrite length_app. cbn. lia.
    + apply Forall_app; auto.
    + lia.
    + lia.
    + cbn [window]. rewrite (loop_snoc _ _ _ _ _ _ c' carry (digit_at ds1 (w1 - p) + digit_at ds2 (w2 - p)) (window k ds1 w1 (p + 1) n + window k ds2 w2 (p + 1) n)); lia.
Qed.

Lemma sub_loop_spec k ds1 ds2 w1 w2 n p borrow res :
  Forall is_digit ds1 -> Forall is_digit ds2 -> -1 <= borrow <= 0 -> 0 <= k + p ->
  exists new c, sub_loop ds1 ds2 n (w1 - p + 1) (w2 - p + 1) borrow res = new ++ res /\
    length new = n /\ Forall is_digit new /\ -1 <= c <= 0 /\
    pv k new (p + Z.of_nat n - 1) + c * NBASE ^ (k + p + Z.of_nat n) =
    borrow * NBASE ^ (k + p) + window k ds1 w1 p n - window k ds2 w2 p n.
Proof.
  intros H1 H2. revert p borrow res. induction n as [|n IH]; intros p borrow res Hc Hk; cbn [sub_loop].
  - exists [], borrow. split_and!; try done; try lia. cbn [pv window]. rewrite !Z.add_0_r. lia.
  - replace (w1 - p + 1 - 1) with (w1 - p) by lia. replace (w2 - p + 1 - 1) with (w2 - p) by lia.
    pose proof (digit_at_digit ds1 (w1 - p) H1) as D1. pose proof (digit_at_digit ds2 (w2 - p) H2) as D2.
    set (c0 := borrow + digit_at ds1 (w1 - p) - digit_at ds2 (w2 - p)).
    assert (exists d c', (if c0 <? 0 then d = c0 + NBASE /\ c' = -1 else d = c0 /\ c' = 0) /\ is_digit d /\ -1 <= c' <= 0 /\ d + c' * NBASE = c0)
      as (d & c' & Hif & Hd & Hc' & Hsum).
    { unfold is_digit in *. subst c0. destruct (Z.ltb_spec (borrow + digit_at ds1 (w1 - p) - digit_at ds2 (w2 - p)) 0);
        eexists _, _; (split; [by split|]); unfold NBASE in *; lia. }
    destruct (IH (p + 1) c' (d :: res) Hc' ltac:(lia)) as (new & c & E & Hl & Hnew & Hcr & Hv).
    replace (w1 - (p + 1) + 1) with (w1 - p) in E by lia. replace (w2 - (p + 1) + 1) with (w2 - p) in E by lia.
    exists (new ++ [d]), c. split_and!; try done.
    + rewrite <- app_assoc. cbn [app]. rewrite <- E. destruct (c0 <? 0); by destruct Hif as [-> ->].
    + rewrite length_app. cbn. lia.
    + apply Forall_app; auto.
    + lia.
    + lia.
    + cbn [window]. rewrite (loop_snoc _ _ _ _ _ _ c' borrow (digit_at ds1 (w1 - p) - digit_at ds2 (w2 - p)) (window k ds1 w1 (p + 1) n - window k ds2 w2 (p + 1) n)); lia.
Qed.

(** The two windows of an operation on [var1] and [var2] that starts at the
    last digit of either, and its number of digits. *)
Definition last_pos (var1 var2 : NumericVar) : Z := - Z.max (nb_rscale var1) (nb_rscale var2).

Lemma covers_last k var1 var2 : covers k var1 -> covers k var2 -> 0 <= k + last_pos var1 var2.
Proof. unfold covers, fits, last_pos, nb_rscale, ndigits. lia. Qed.

Lemma window_var k var1 var2 var n :
  var = var1 \/ var = var2 -> digits var = [] \/ weight var < last_pos var1 var2 + Z.of_nat n ->
  window k (digits var) (weight var) (last_pos var1 var2) n = abs_value k var.
Proof.
  intros Hv Hw. apply window_all. destruct Hw as [?|Hw]; [by left|right]. split; [|done].
  unfold last_pos, nb_rscale, ndigits. destruct Hv as [-> | ->]; lia.
Qed.

Lemma add_abs_spec k var1 var2 :
  var_ok var1 -> var_ok var2 -> covers k var1 -> covers k var2 ->
  var_ok (add_abs var1 var2) /\ stripped (add_abs var1 var2) /\
  dscale (add_abs var1 var2) = Z.max (dscale var1) (dscale var2) /\
  abs_value k (add_abs var1 var2) = abs_value k var1 + abs_value k var2.
Proof.
  intros [D1 S1] [D2 S2] C1 C2. unfold add_abs.
  set (p := last_pos var1 var2). set (W := Z.max (weight var1) (weight var2) + 1).
  assert (Hn : exists n, Z.max (nb_rscale var1) (nb_rscale var2) + W + 1 = Z.of_nat n /\ (0 < n)%nat).
  { exists (Z.to_nat (W + 1 - p)). subst W p. unfold last_pos, nb_rscale, ndigits. lia. }
  destruct Hn as (n & Hn & Hpos). rewrite Hn. destruct (Z.leb_spec (Z.of_nat n) 0); [lia|]. rewrite Nat2Z.id.
  destruct (add_loop_spec k (digits var1) (digits var2) (weight var1) (weight var2) n p 0 [] D1 D2 ltac:(lia)
    (covers_last _ _ _ C1 C2)) as (new & c & E & Hl & Hd & Hc & Hv).
  replace (Z.max (nb_rscale var1) (nb_rscale var2) + weight var1 + 1) with (weight var1 - p + 1) by (subst p; unfold last_pos; lia).
  replace (Z.max (nb_rscale var1) (nb_rscale var2) + weight var2 + 1) with (weight var2 - p + 1) by (subst p; unfold last_pos; lia).
  rewrite E, app_nil_r.
  assert (EW : p + Z.of_nat n - 1 = W) by (subst p; unfold last_pos; lia).
  rewrite !(window_var k var1 var2), EW in Hv by (auto; right; fold p; lia).
  assert (Hok : var_ok (mkVar W NUMERIC_POS (Z.max (dscale var1) (dscale var2)) 1 new)) by (split; auto).
  split_and!; [by apply strip_var_ok|apply strip_var_stripped|by rewrite strip_var_dscale|].
  rewrite strip_var_abs. unfold abs_value at 1. cbn [digits weight].
  assert (HkW : 0 <= k + (W - 1) + 1) by (pose proof (covers_last k var1 var2 C1 C2); fold p in H0; lia).
  pose proof (pv_small k _ _ (W - 1) D1 C1 ltac:(subst W; lia) (NBASE_pos _ HkW)).
  pose proof (pv_small k _ _ (W - 1) D2 C2 ltac:(subst W; lia) (NBASE_pos _ HkW)).
  pose proof (pv_nonneg k new W Hd). pose proof (pv_nonneg k _ (weight var1) D1).
  replace (k + p + Z.of_nat n) with (k + (W - 1) + 1 + 1) in Hv by lia. rewrite NBASE_succ in Hv by lia.
  unfold abs_value in *. set (X := NBASE ^ (k + (W - 1) + 1)) in *. clearbody X. unfold NBASE in Hv.
  assert (Hc2 : c = 0 \/ c = 1) by lia. destruct Hc2 as [-> | ->]; lia.
Qed.

(** What subtraction needs: no leading zeroes, or as many digits before the
    point in the greater number. *)
Definition subtractable (var1 var2 : NumericVar) : Prop :=
  no_lead (digits var2) \/ (weight var2 <= weight var1 /\ digits var1 <> []).

Lemma sub_abs_spec k var1 var2 :
  var_ok var1 -> var_ok var2 -> subtractable var1 var2 -> covers k var1 -> covers k var2 ->
  abs_value k var2 <= abs_value k var1 ->
  var_ok (sub_abs var1 var2) /\ stripped (sub_abs var1 var2) /\
  dscale (sub_abs var1 var2) = Z.max (dscale var1) (dscale var2) /\
  abs_value k (sub_abs var1 var2) = abs_value k var1 - abs_value k var2.
Proof.
  intros [D1 S1] [D2 S2] L2 C1 C2 Hle. unfold sub_abs.
  set (p := last_pos var1 var2). set (N := Z.max (nb_rscale var1) (nb_rscale var2) + weight var1 + 1).
  set (n := Z.to_nat (if N <=? 0 then 1 else N)). 
  pose proof (covers_last k var1 var2 C1 C2) as Hkp. fold p in Hkp.
  assert (HN : 0 <= N) by (subst N; unfold nb_rscale, ndigits; lia).
  destruct (sub_loop_spec k (digits var1) (digits var2) (weight var1) (weight var2) n p 0 [] D1 D2 ltac:(lia) Hkp)
    as (new & c & E & Hl & Hd & Hc & Hv).
  replace (Z.max (nb_rscale var1) (nb_rscale var2) + weight var2 + 1) with (weight var2 - p + 1) by (subst p; unfold last_pos; lia).
  replace N with (weight var1 - p + 1) by (subst N p; unfold last_pos; lia).
  rewrite E, app_nil_r.
  assert (Hw2 : digits var2 = [] \/ weight var2 <= weight var1).
  { destruct (decide (digits var2 = [])) as [?|Hne]; [by left|right]. destruct L2 as [L2|[? _]]; [|done].
    destruct (Z.le_gt_cases (weight var2) (weight var1)) as [|Hlt]; [done|exfalso].
    pose proof (pv_lead k (digits var2) (weight var2) D2 L2 Hne) as Hge.
    unfold covers, fits in C2. assert (0 < length (digits var2))%nat by (by destruct (digits var2); [|cbn; lia]).
    pose proof (pv_small k (digits var1) (weight var1) (weight var2 - 1) D1 C1 ltac:(lia)) as Hs.
    replace (k + (weight var2 - 1) + 1) with (k + weight var2) in Hs by lia.
    specialize (Hs (NBASE_pos (k + weight var2) ltac:(lia))). unfold abs_value in Hle. lia. }
  assert (Hok : var_ok (mkVar (weight var1) NUMERIC_POS (Z.max (dscale var1) (dscale var2)) 1 new)) by (split; auto).
  split_and!; [by apply strip_var_ok|apply strip_var_stripped|by rewrite strip_var_dscale|].
  rewrite strip_var_abs. unfold abs_value at 1. cbn [digits weight].
  assert (Hn : digits var1 = [] \/ weight var1 = p + Z.of_nat n - 1).
  { destruct (Z.leb_spec N 0); [|right; subst N n p; unfold last_pos; lia].
    left. apply length_zero_iff_nil. subst N. unfold nb_rscale, ndigits in *. lia. }
  assert (Hn2 : digits var2 = [] \/ weight var2 < p + Z.of_nat n).
  { destruct Hn as [Hn|Hn]; [left|destruct Hw2; [by left|right; lia]].
    destruct L2 as [L2|[_ ?]]; [|done].
    rewrite (abs_value_nil k var1) in Hle by done. destruct (decide (digits var2 = [])) as [|Hne]; [done|].
    pose proof (abs_value_pos k var2 ltac:(by split) C2 L2 Hne). lia. }
  rewrite !(window_var k var1 var2) in Hv by (auto; fold p; destruct Hn; auto; right; lia).
  assert (Hf : fits k new (p + Z.of_nat n - 1)) by (unfold fits; lia).
  pose proof (pv_bound k new (p + Z.of_nat n - 1) Hd Hf ltac:(lia)) as Hb.
  replace (k + (p + Z.of_nat n - 1) + 1) with (k + p + Z.of_nat n) in Hb by lia.
  assert (Hc2 : c = 0 \/ c = -1) by lia. destruct Hc2 as [-> | ->]; [|lia].
  destruct Hn as [Hn|Hn].
  - rewrite (abs_value_nil k var1) in * by done.
    pose proof (pv_nonneg k _ (weight var2) D2). fold (abs_value k var2) in *.
    destruct (existsb nonzero new) eqn:Ez; [pose proof (pv_pos k _ _ Hd Hf Ez); lia|].
    rewrite pv_zero in Hv by done. rewrite pv_zero by done. lia.
  - rewrite <- Hn in Hv. lia.
Qed.

(** ** Addition and subtraction *)

(** What the arithmetic functions return. *)
Record computes (k : Z) (var : NumericVar) (scale v : Z) : Prop := {
  cp_ok : var_ok var;
  cp_stripped : stripped var;
  cp_dscale : dscale var = scale;
  cp_value : svalue k var = v
}.

Lemma with_sign_computes k s var scale :
  var_ok var -> stripped var -> dscale var = scale -> s = NUMERIC_POS \/ (s = NUMERIC_NEG /\ abs_value k var <> 0) ->
  computes k (with_sign s var) scale ((if s =? NUMERIC_NEG then -1 else 1) * abs_value k var).
Proof.
  intros [Hd Hs] [Hl Ht Hz] Hsc Hor. split; cbn; try done.
  - split; cbn; [done|]. destruct Hor as [?|[? _]]; auto.
  - split; cbn; [done..|]. intros Hn. destruct (Hz Hn) as [Hw _]. split; [done|].
    destruct Hor as [?|[_ Hne]]; [done|]. by rewrite abs_value_nil in Hne.
Qed.

Lemma diff_var_spec k var1 var2 s1 s2 :
  var_ok var1 -> var_ok var2 -> subtractable var2 var1 -> subtractable var1 var2 -> covers k var1 -> covers k var2 ->
  (s1 = NUMERIC_POS /\ s2 = NUMERIC_NEG) \/ (s1 = NUMERIC_NEG /\ s2 = NUMERIC_POS) ->
  computes k (diff_var var1 var2 s1 s2) (Z.max (dscale var1) (dscale var2))
    ((if s1 =? NUMERIC_NEG then -1 else 1) * (abs_value k var1 - abs_value k var2)).
Proof.
  intros V1 V2 L1 L2 C1 C2 Hs. unfold diff_var. rewrite (cmp_abs_spec k) by done.
  destruct (Z.sgn_spec (abs_value k var1 - abs_value k var2)) as [[H ->]|[[H ->]|[H ->]]]; cbn [Z.eqb].
  - destruct (sub_abs_spec k var1 var2 V1 V2 L2 C1 C2 ltac:(lia)) as (? & ? & ? & E). rewrite <- E.
    apply with_sign_computes; try done. destruct Hs as [[-> ->]|[-> ->]]; [by left|right; split; [done|lia]].
  - replace (abs_value k var1 - abs_value k var2) with 0 by lia. rewrite Z.mul_0_r.
    split; cbn; try done; split; cbn; auto.
  - destruct (sub_abs_spec k var2 var1 V2 V1 L1 C2 C1 ltac:(lia)) as (Ho & Hst & Hd & E).
    rewrite Z.max_comm in Hd.
    pose proof (with_sign_computes k s2 _ _ Ho Hst Hd) as Hw. rewrite E in Hw.
    replace ((if s1 =? NUMERIC_NEG then -1 else 1) * (abs_value k var1 - abs_value k var2))
      with ((if s2 =? NUMERIC_NEG then -1 else 1) * (abs_value k var2 - abs_value k var1))
      by (destruct Hs as [[-> ->]|[-> ->]]; cbn; lia).
    apply Hw. destruct Hs as [[-> ->]|[-> ->]]; [right; split; [done|lia]|by left].
Qed.

Lemma add_abs_computes k var1 var2 s :
  var_ok var1 -> var_ok var2 -> covers k var1 -> covers k var2 ->
  s = NUMERIC_POS \/ (s = NUMERIC_NEG /\ 0 < abs_value k var1) ->
  computes k (with_sign s (add_abs var1 var2)) (Z.max (dscale var1) (dscale var2))
    ((if s =? NUMERIC_NEG then -1 else 1) * (abs_value k var1 + abs_value k var2)).
Proof.
  intros V1 V2 C1 C2 Hs. destruct (add_abs_spec k var1 var2 V1 V2 C1 C2) as (? & ? & ? & E). rewrite <- E.
  apply with_sign_computes; try done. destruct Hs as [?|[? Hp]]; [by left|right]. split; [done|].
  pose proof (pv_nonneg k _ (weight var2) (vo_digits _ V2)). fold (abs_value k var2) in *. lia.
Qed.

(** What the functions need of their arguments. *)
Record led (var : NumericVar) : Prop := {
  ld_lead : no_lead (digits var);
  ld_zero : digits var = [] -> sign var = NUMERIC_POS
}.

Lemma stripped_led var : stripped var -> led var.
Proof. intros [Hl Ht Hz]. split; [done|]. by intros []%Hz. Qed.

Lemma neg_nonzero k var : var_ok var -> led var -> covers k var -> sign var = NUMERIC_NEG -> 0 < abs_value k var.
Proof.
  intros V [Hl Hz] C Hs. apply abs_value_pos; [done..|]. intros Hn. pose proof (Hz Hn) as E. by rewrite E in Hs.
Qed.

Lemma computes_eq k var scale v v' : computes k var scale v -> v = v' -> computes k var scale v'.
Proof. by intros ? <-. Qed.

Ltac signed_cases V1 V2 St1 St2 C1 :=
  pose proof (neg_nonzero _ _ V1 St1 C1); unfold svalue, sgn;
  destruct (vo_sign _ V1) as [E1|E1], (vo_sign _ V2) as [E2|E2]; rewrite E1, E2;
  cbn [Z.eqb Pos.eqb NUMERIC_POS NUMERIC_NEG]; destruct St1, St2;
  (eapply computes_eq; [(apply diff_var_spec || apply add_abs_computes); unfold subtractable; auto|cbn; lia]).

Lemma add_var_spec k var1 var2 :
  var_ok var1 -> var_ok var2 -> led var1 -> led var2 -> covers k var1 -> covers k var2 ->
  computes k (add_var var1 var2) (Z.max (dscale var1) (dscale var2)) (svalue k var1 + svalue k var2).
Proof. intros V1 V2 St1 St2 C1 C2. unfold add_var. signed_cases V1 V2 St1 St2 C1. Qed.

Lemma sub_var_spec k var1 var2 :
  var_ok var1 -> var_ok var2 -> led var1 -> led var2 -> covers k var1 -> covers k var2 ->
  computes k (sub_var var1 var2) (Z.max (dscale var1) (dscale var2)) (svalue k var1 - svalue k var2).
Proof. intros V1 V2 St1 St2 C1 C2. unfold sub_var. signed_cases V1 V2 St1 St2 C1. Qed.
