(* ===== verification/NumericRound.v ===== *)
(** * Rounding, truncation and multiplication of numeric variables *)

From S2P Require Import Prelude Varlena Hashfn Numeric NumericValue.

(** The multiple of [u] nearest to [a], as a multiple; away from zero in the
    middle. *)
Definition round_half (a u : Z) : Z := (2 * a + u) / (2 * u).

Lemma round_half_split q y u : 0 < u -> 0 <= y < u -> round_half (q * u + y) u = q + (if 2 * y >=? u then 1 else 0).
Proof.
  intros Hu Hy. unfold round_half. symmetry. rewrite Z.geb_leb. destruct (Z.leb_spec u (2 * y)).
  - apply (Z.div_unique _ _ _ (2 * y - u)); [left; lia|lia].
  - apply (Z.div_unique _ _ _ (2 * y + u)); [left; lia|lia].
Qed.

Lemma round_half_add q a u : 0 < u -> round_half (q * u + a) u = q + round_half a u.
Proof.
  intros Hu. unfold round_half. replace (2 * (q * u + a) + u) with (q * (2 * u) + (2 * a + u)) by lia.
  apply Z.div_add_l. lia.
Qed.

Lemma round_half_exact q u : 0 < u -> round_half (q * u) u = q.
Proof.
  intros Hu. rewrite <- (Z.add_0_r (q * u)), round_half_split by lia. rewrite Z.geb_leb. destruct (Z.leb_spec u (2 * 0)); lia.
Qed.

Lemma pv_multiple k ds w : fits k ds w -> exists q, pv k ds w = q * NBASE ^ (k + w + 1 - Z.of_nat (length ds)).
Proof.
  revert w. induction ds as [|d ds IH]; intros w Hf; [by exists 0|].
  destruct (IH (w - 1) (fits_tail _ _ _ _ Hf)) as [q Hq]. cbn [pv length] in *. rewrite Hq.
  replace (k + (w - 1) + 1 - Z.of_nat (length ds)) with (k + w + 1 - Z.of_nat (S (length ds))) by lia.
  exists (d * NBASE ^ Z.of_nat (length ds) + q).
  replace (k + w) with (Z.of_nat (length ds) + (k + w + 1 - Z.of_nat (S (length ds)))) at 1 by lia.
  unfold fits in Hf. cbn [length] in Hf. rewrite Z.pow_add_r by lia. lia.
Qed.

(** ** The carry loop *)

Lemma carry_loop_spec k l w carry l' c' :
  Forall is_digit l -> 0 <= carry <= 1 -> Z.of_nat (length l) <= k + w + 1 -> carry_loop l carry = (l', c') ->
  length l' = length l /\ Forall is_digit l' /\ 0 <= c' <= 1 /\
  pv k (rev l') w + c' * NBASE ^ (k + w + 1) = pv k (rev l) w + carry * NBASE ^ (k + w + 1 - Z.of_nat (length l)).
Proof.
  intros Hl. revert w carry l' c'. induction Hl as [|d l Hd Hl IH]; intros w carry l' c' Hc Hk E; cbn [carry_loop] in E.
  - destruct (Z.eqb_spec carry 0) as [-> |]; injection E as <- <-; cbn; rewrite Z.sub_0_r; split_and!; auto; lia.
  - destruct (Z.eqb_spec carry 0) as [-> |Hne].
    { injection E as <- <-. split_and!; auto; lia. }
    assert (carry = 1) as -> by lia. rewrite Z.geb_leb in E. cbn [length] in *.
    assert (Hexp : k + w + 1 - Z.of_nat (S (length l)) = k + (w - Z.of_nat (length l))) by lia.
    destruct (Z.leb_spec NBASE (1 + d)) as [Hge|Hlt].
    + destruct (carry_loop l 1) as [l0 c0] eqn:E0. injection E as <- <-.
      destruct (IH w 1 l0 c0 ltac:(lia) ltac:(lia) E0) as (Hlen & Hd0 & Hc0 & Hv).
      assert (d = NBASE - 1) as -> by (unfold is_digit in Hd; lia).
      split_and!; [cbn; lia|constructor; [unfold is_digit, NBASE; lia|done]|lia..|].
      cbn [rev]. rewrite !pv_app, !length_rev. cbn [pv]. rewrite Hlen, Hexp.
      replace (k + w + 1 - Z.of_nat (length l)) with (k + (w - Z.of_nat (length l)) + 1) in Hv by lia.
      rewrite (NBASE_succ (k + (w - Z.of_nat (length l)))) in Hv by lia. unfold NBASE in *. lia.
    + injection E as <- <-. split_and!; [done|constructor; [unfold is_digit in *; lia|done]|lia..|].
      cbn [rev]. rewrite !pv_app, !length_rev. cbn [pv]. rewrite Hexp. lia.
Qed.

(** A leading zero absorbs the carry. *)
Lemma carry_loop_zero l carry : 0 <= carry <= 1 -> Forall is_digit l -> snd (carry_loop (l ++ [0]) carry) = 0.
Proof.
  intros Hc Hl. revert carry Hc. induction Hl as [|d l Hd Hl IH]; intros carry Hc; cbn [app carry_loop].
  - destruct (Z.eqb_spec carry 0); [done|]. rewrite Z.geb_leb. destruct (Z.leb_spec NBASE (carry + 0)); [unfold NBASE in *; lia|done].
  - destruct (Z.eqb_spec carry 0); [done|]. destruct (carry + d >=? NBASE); [|done].
    specialize (IH 1 ltac:(lia)). by destruct (carry_loop (l ++ [0]) 1).
Qed.

(** ** Rounding within a digit *)

Lemma round_powers_di di : 0 < di < 4 -> nth (Z.to_nat di) round_powers 0 = 10 ^ (4 - di).
Proof. intros H. assert (di = 1 \/ di = 2 \/ di = 3) as [-> |[-> | ->]] by lia; done. Qed.

Lemma round_powers_dvd di : 0 < di < 4 -> exists q, NBASE = q * 10 ^ (4 - di) /\ 10 ^ (4 - di) = 2 * (10 ^ (4 - di) / 2) /\ 0 < 10 ^ (4 - di) < NBASE.
Proof.
  intros H. assert (di = 1 \/ di = 2 \/ di = 3) as [-> |[-> | ->]] by lia;
    [exists 10|exists 100|exists 1000]; done.
Qed.

Lemma round_digit_spec d di r d' c :
  is_digit d -> 0 < di < 4 -> round_digit d di = (d', c) -> 0 < r ->
  is_digit d' /\ 0 <= c <= 1 /\
  forall R, 0 <= R < r -> d' + c * NBASE = round_half (d * r + R) (10 ^ (4 - di) * r) * 10 ^ (4 - di).
Proof.
  intros Hd Hdi E Hr. unfold round_digit in E. rewrite round_powers_di in E by done.
  destruct (round_powers_dvd di Hdi) as (q & Hq & Heven & Hp). set (P := 10 ^ (4 - di)) in *. clearbody P.
  assert (Hm : d = (d / P) * P + d mod P) by (rewrite Z.mul_comm; apply Z.div_mod; lia).
  pose proof (Z.mod_pos_bound d P ltac:(lia)) as Hmb. rewrite Z.geb_leb in E. unfold is_digit in *.
  assert (Hqd : d / P < q) by (apply Z.div_lt_upper_bound; lia).
  assert (Hup : d - d mod P + P <= NBASE) by nia.
  pose proof (Z.div_pos d P ltac:(lia) ltac:(lia)).
  assert (Hround : forall R, 0 <= R < r ->
    round_half (d * r + R) (P * r) = d / P + (if P / 2 <=? d mod P then 1 else 0)).
  { intros R HR. replace (d * r + R) with (d / P * (P * r) + (d mod P * r + R)) by nia.
    rewrite round_half_split by nia. f_equal. rewrite Z.geb_leb.
    destruct (Z.leb_spec (P / 2) (d mod P)), (Z.leb_spec (P * r) (2 * (d mod P * r + R))); try done; nia. }
  destruct (Z.leb_spec (P / 2) (d mod P)).
  - rewrite Z.geb_leb in E. destruct (Z.leb_spec NBASE (P + (d - d mod P))); injection E as <- <-; (split_and!; [lia..|]);
      intros R HR; rewrite Hround by done; nia.
  - injection E as <- <-. split_and!; [lia..|]. intros R HR. rewrite Hround by done. nia.
Qed.

(** ** Cutting digits *)

Lemma digit_at_lookup ds i : 0 <= i < Z.of_nat (length ds) -> ds !! Z.to_nat i = Some (digit_at ds i).
Proof.
  intros Hi. unfold digit_at. destruct (Z.leb_spec 0 i), (Z.ltb_spec i (Z.of_nat (length ds))); try lia. cbn [andb].
  destruct (nth_lookup_or_length ds (Z.to_nat i) 0); [done|lia].
Qed.

(** The value of digits around the one at index [i]. *)
Lemma pv_cut k ds w i :
  Forall is_digit ds -> fits k ds w -> 0 <= i < Z.of_nat (length ds) ->
  exists q R, 0 <= k + w - i /\ pv k (take (Z.to_nat i) ds) w = q * NBASE ^ (k + w - i + 1) /\ 0 <= R < NBASE ^ (k + w - i) /\
    pv k ds w = q * NBASE ^ (k + w - i + 1) + (digit_at ds i * NBASE ^ (k + w - i) + R).
Proof.
  intros Hd Hf Hi. unfold fits in Hf.
  assert (Hlen : length (take (Z.to_nat i) ds) = Z.to_nat i) by (rewrite length_take; lia).
  pose proof (take_drop_middle ds (Z.to_nat i) _ (digit_at_lookup ds i Hi)) as E.
  set (rest := drop (S (Z.to_nat i)) ds) in *.
  assert (Hr : length rest = (length ds - S (Z.to_nat i))%nat) by apply length_drop.
  assert (Hdr : Forall is_digit rest) by by apply Forall_drop.
  destruct (pv_multiple k (take (Z.to_nat i) ds) w) as [q Hq]; [unfold fits; lia|].
  rewrite Hlen in Hq. replace (k + w + 1 - Z.of_nat (Z.to_nat i)) with (k + w - i + 1) in Hq by lia.
  exists q, (pv k rest (w - i - 1)).
  pose proof (pv_bound k rest (w - i - 1) Hdr ltac:(unfold fits; lia) ltac:(lia)).
  pose proof (pv_nonneg k rest (w - i - 1) Hdr).
  replace (k + (w - i - 1) + 1) with (k + w - i) in * by lia.
  split_and!; [lia|done|lia|lia|].
  rewrite <- E at 1. rewrite pv_app, Hlen, Hq. cbn [pv].
  replace (k + (w - Z.of_nat (Z.to_nat i))) with (k + w - i) by lia.
  replace (w - Z.of_nat (Z.to_nat i) - 1) with (w - i - 1) by lia. lia.
Qed.

(** ** [round_var] *)

(** The digits that a rounding keeps, and the carry that leaves them; [r] is
    the scale. *)
Lemma round_carry k w high low carry l' c' :
  Forall is_digit high -> Forall is_digit low -> 0 <= carry <= 1 ->
  Z.of_nat (length high) <= k + w + 1 -> carry_loop (rev high) carry = (l', c') ->
  Forall is_digit (rev l' ++ low) /\ length (rev l' ++ low) = (length high + length low)%nat /\ 0 <= c' <= 1 /\
  pv k (rev l' ++ low) w + c' * NBASE ^ (k + w + 1) =
  pv k high w + carry * NBASE ^ (k + w + 1 - Z.of_nat (length high)) + pv k low (w - Z.of_nat (length high)).
Proof.
  intros Hh Hlo Hc Hk E. apply (carry_loop_spec k _ w) in E; [|by apply Forall_rev|done|by rewrite length_rev].
  destruct E as (Hlen & Hd & Hc' & Hv). rewrite length_rev, rev_involutive in *.
  split_and!; [apply Forall_app; split; [by apply Forall_rev|done]|rewrite length_app, length_rev; lia|lia..|].
  rewrite pv_app, length_rev, Hlen. lia.
Qed.

Record rounded (k r : Z) (var var' : NumericVar) : Prop := {
  rd_ok : var_ok var';
  rd_dscale : dscale var' = r;
  rd_covers : covers k var';
  rd_value : abs_value k var' = round_half (abs_value k var) (10 ^ (4 * k - r)) * 10 ^ (4 * k - r);
  rd_sign : sign var' = sign var \/ abs_value k var' = 0;
  rd_spare : spare var - 1 <= spare var';
  rd_room : no_lead (digits var) \/ spare var <= spare var'
}.

(** The carry of a rounding is put before the digits. *)
Lemma round_finish k r var high low carry y u :
  var_ok var -> 0 <= k -> covers k var -> r <= 4 * k -> 0 < spare var -> u = 10 ^ (4 * k - r) ->
  Forall is_digit high -> Forall is_digit low -> 0 <= carry <= 1 ->
  Z.of_nat (length high + length low) <= k + weight var + 1 ->
  no_lead (digits var) \/ (exists l, high = 0 :: l) \/ carry = 0 ->
  pv k high (weight var) + carry * NBASE ^ (k + weight var + 1 - Z.of_nat (length high)) + pv k low (weight var - Z.of_nat (length high)) = y ->
  y = round_half (abs_value k var) u * u ->
  exists var',
    (let '(ds, carry) := carry_loop (rev high) carry in
     if carry =? 0 then Ok (mkVar (weight var) (sign var) r (spare var) (rev ds ++ low))
     else if spare var <=? 0 then undefined "carry outside of the digit buffer"
     else Ok (mkVar (weight var + 1) (sign var) r (spare var - 1) (carry :: rev ds ++ low))) = Ok var' /\
    rounded k r var var'.
Proof.
  intros V Hk C Hr Hsp Hu Hh Hlo Hc Hlen Hlead Hy Hrd. destruct (carry_loop (rev high) carry) as [l' c'] eqn:E.
  destruct (round_carry k (weight var) high low carry l' c' Hh Hlo Hc ltac:(lia) E) as (Hd & Hn & Hc' & Hv).
  rewrite Hy in Hv. destruct (Z.eqb_spec c' 0) as [-> |Hne].
  - eexists. split; [done|]. split; cbn [sign spare dscale]; try done; try lia.
    + split; [done|apply V].
    + unfold covers, fits. cbn [digits weight]. rewrite Hn. lia.
    + rewrite <- Hu. unfold abs_value at 1. cbn [digits weight]. lia.
  - assert (c' = 1) as -> by lia. destruct (Z.leb_spec (spare var) 0); [lia|]. eexists. split; [done|].
    split; cbn [sign spare dscale]; try done; try lia.
    + split; [constructor; [unfold is_digit, NBASE; lia|done]|apply V].
    + unfold covers, fits. cbn [digits weight length]. rewrite Hn. lia.
    + unfold abs_value at 1. cbn [digits weight pv]. rewrite <- Hu, <- Hrd, <- Hv.
      replace (weight var + 1 - 1) with (weight var) by lia. replace (k + (weight var + 1)) with (k + weight var + 1) by lia. lia.
    + left. destruct Hlead as [?|[[l ->]|Hz]]; [done|exfalso..].
      * pose proof (carry_loop_zero (rev l) carry Hc) as Hz. cbn [rev] in E. rewrite E in Hz. cbn in Hz.
        inversion Hh; subst. discriminate Hz. by apply Forall_rev.
      * rewrite Hz in E. by destruct (rev high).
Qed.

Section RoundVar.
Context (k r : Z) (var : NumericVar).
Hypothesis V : var_ok var.
Hypothesis Hk : 0 <= k.
Hypothesis C : covers k var.
Hypothesis Hr : r <= 4 * k.

Notation u := (10 ^ (4 * k - r)).
Notation di := ((weight var + 1) * 4 + r).

Lemma unit_pos : 0 < u.
Proof. apply ten_pos. lia. Qed.

Lemma abs_nonneg : 0 <= abs_value k var.
Proof. apply pv_nonneg, V. Qed.

(** Less than the tenth of a unit, when no digit is wanted. *)
Lemma abs_tenth : di < 0 -> abs_value k var * 10 < u.
Proof.
  intros Hneg. pose proof unit_pos. destruct (Z.ltb_spec (k + weight var + 1) 0).
  - rewrite abs_value_nil by (apply length_zero_iff_nil; unfold covers, fits in C; lia). lia.
  - pose proof (pv_bound k _ _ (vo_digits _ V) C ltac:(lia)) as Hb. fold (abs_value k var) in Hb. rewrite <- pow10_NBASE in Hb by lia.
    assert (10 * 10 ^ (4 * (k + weight var + 1)) <= u); [|lia].
    rewrite <- Z.pow_succ_r by lia. apply Z.pow_le_mono_r; lia.
Qed.

(** The digits are multiples of the unit, when all of them are wanted. *)
Lemma abs_multiple : 4 * ndigits var <= di -> exists q, abs_value k var = q * u.
Proof.
  intros Hdi. destruct (pv_multiple k _ _ C) as [q Hq]. unfold abs_value, ndigits in *. rewrite Hq.
  unfold covers, fits in C. rewrite <- pow10_NBASE by lia.
  set (e := 4 * (k + weight var + 1 - Z.of_nat (length (digits var)))).
  exists (q * 10 ^ (e - (4 * k - r))). rewrite <- Z.mul_assoc, <- Z.pow_add_r by lia. do 2 f_equal. lia.
Qed.

(** Rounding at the end of a digit. *)
Lemma round_whole nd :
  0 < spare var -> di = 4 * nd -> 0 <= nd < ndigits var ->
  exists var',
    (let '(ds, carry) := carry_loop (rev (take (Z.to_nat nd) (digits var)))
       (if digit_at (digits var) nd >=? HALF_NBASE then 1 else 0) in
     if carry =? 0 then Ok (mkVar (weight var) (sign var) r (spare var) (rev ds ++ []))
     else if spare var <=? 0 then undefined "carry outside of the digit buffer"
     else Ok (mkVar (weight var + 1) (sign var) r (spare var - 1) (carry :: rev ds ++ []))) = Ok var' /\
    rounded k r var var'.
Proof.
  intros Hsp Edi Hnd. pose proof (vo_digits _ V) as Hd. destruct (pv_cut k (digits var) (weight var) nd Hd C Hnd) as (q & R & He & Hq & HR & Hv).
  assert (Eu : u = NBASE ^ (k + weight var - nd + 1)) by (rewrite <- pow10_NBASE by lia; f_equal; lia).
  pose proof (digit_at_digit (digits var) nd Hd) as Hx. set (x := digit_at (digits var) nd) in *.
  set (carry := if x >=? HALF_NBASE then 1 else 0).
  assert (Hlen : length (take (Z.to_nat nd) (digits var)) = Z.to_nat nd) by (rewrite length_take; unfold ndigits in *; lia).
  apply (round_finish k r var _ [] carry (q * u + carry * u) u); auto.
  - by apply Forall_take.
  - subst carry. destruct (_ >=? _); lia.
  - rewrite Hlen. unfold covers, fits, ndigits in *. cbn [length]. lia.
  - destruct (digits var) as [|d ds] eqn:Eds; [by left|]. destruct (decide (d = 0)) as [-> |]; [right|by left].
    destruct (Z.eqb_spec nd 0) as [En|]; [right; subst carry x; by rewrite En|left].
    replace (Z.to_nat nd) with (S (Z.to_nat (nd - 1))) by lia. by eexists.
  - rewrite Hlen, Hq, Eu. cbn [pv]. replace (k + weight var + 1 - Z.of_nat (Z.to_nat nd)) with (k + weight var - nd + 1) by lia. lia.
  - unfold abs_value. rewrite Hv, <- Eu. rewrite NBASE_succ in Eu by lia. unfold is_digit in Hx.
    set (B := NBASE ^ (k + weight var - nd)) in *. clearbody B.
    rewrite round_half_split by (unfold NBASE in *; nia). subst carry. rewrite !Z.geb_leb. unfold HALF_NBASE.
    destruct (Z.leb_spec 5000 x), (Z.leb_spec u (2 * (x * B + R))); unfold NBASE in *; nia.
Qed.

(** Rounding within a digit. *)
Lemma round_within nd i d carry :
  0 < spare var -> di = 4 * nd - 4 + i -> 0 < i < 4 -> 1 <= nd <= ndigits var ->
  round_digit (digit_at (digits var) (nd - 1)) i = (d, carry) ->
  exists var',
    (let '(ds, carry) := carry_loop (rev (take (Z.to_nat (nd - 1)) (digits var))) carry in
     if carry =? 0 then Ok (mkVar (weight var) (sign var) r (spare var) (rev ds ++ [d]))
     else if spare var <=? 0 then undefined "carry outside of the digit buffer"
     else Ok (mkVar (weight var + 1) (sign var) r (spare var - 1) (carry :: rev ds ++ [d]))) = Ok var' /\
    rounded k r var var'.
Proof.
  intros Hsp Edi Hi Hnd Erd. pose proof (vo_digits _ V) as Hd.
  destruct (pv_cut k (digits var) (weight var) (nd - 1) Hd C ltac:(unfold ndigits in *; lia)) as (q & R & He & Hq & HR & Hv).
  set (B := NBASE ^ (k + weight var - (nd - 1))) in *. assert (HB : 0 < B) by (apply NBASE_pos; lia).
  assert (Eu : u = 10 ^ (4 - i) * B).
  { subst B. rewrite <- pow10_NBASE, <- Z.pow_add_r by lia. f_equal. lia. }
  pose proof (digit_at_digit (digits var) (nd - 1) Hd) as Hx. set (x := digit_at (digits var) (nd - 1)) in *.
  destruct (round_digit_spec x i B d carry Hx Hi Erd HB) as (Hdd & Hc & Hrd). specialize (Hrd R HR). rewrite <- Eu in Hrd.
  assert (Hlen : length (take (Z.to_nat (nd - 1)) (digits var)) = Z.to_nat (nd - 1)) by (rewrite length_take; unfold ndigits in *; lia).
  rewrite NBASE_succ in Hq, Hv by lia. fold B in Hq, Hv.
  destruct (round_powers_dvd i Hi) as (z & Hz & _).
  apply (round_finish k r var _ [d] carry (q * (NBASE * B) + (d + carry * NBASE) * B) u); auto.
  - by apply Forall_take.
  - rewrite Hlen. unfold covers, fits, ndigits in *. cbn [length]. lia.
  - destruct (digits var) as [|d0 ds] eqn:Eds; [by left|]. destruct (decide (d0 = 0)) as [-> |]; [right|by left].
    destruct (Z.eqb_spec (nd - 1) 0) as [En|]; [right|left].
    + subst x. rewrite En in Erd. clear - Erd Hi.
      assert (i = 1 \/ i = 2 \/ i = 3) as [-> |[-> | ->]] by lia; by injection Erd.
    + replace (Z.to_nat (nd - 1)) with (S (Z.to_nat (nd - 2))) by lia. by eexists.
  - rewrite Hlen, Hq. cbn [pv].
    replace (k + weight var + 1 - Z.of_nat (Z.to_nat (nd - 1))) with (k + weight var - (nd - 1) + 1) by lia.
    rewrite NBASE_succ by lia. fold B.
    replace (k + (weight var - Z.of_nat (Z.to_nat (nd - 1)))) with (k + weight var - (nd - 1)) by lia. fold B. lia.
  - unfold abs_value. rewrite Hv, Hrd.
    replace (q * (NBASE * B)) with (q * z * u) by (rewrite Hz, Eu; lia).
    rewrite round_half_add by apply unit_pos. rewrite Eu. lia.
Qed.

Lemma round_var_spec : 0 < spare var -> exists var', round_var var r = Ok var' /\ rounded k r var var'.
Proof.
  intros Hsp. unfold round_var, DEC_DIGITS. pose proof unit_pos as Hu. destruct (Z.ltb_spec di 0) as [Hneg|Hpos].
  - eexists. split; [done|]. split; cbn [sign spare dscale]; try done; try lia; try by right.
    + split; cbn; auto.
    + unfold covers, fits. cbn. lia.
    + unfold abs_value at 1. cbn [digits pv].
      pose proof (abs_tenth Hneg). pose proof abs_nonneg.
      pose proof (round_half_split 0 (abs_value k var) u Hu ltac:(lia)) as E. rewrite Z.mul_0_l, !Z.add_0_l in E.
      rewrite E, Z.geb_leb. destruct (Z.leb_spec u (2 * abs_value k var)); lia.
  - set (nd := (di + 4 - 1) / 4). assert (Hnd : 4 * nd - 3 <= di <= 4 * nd) by (subst nd; zlia).
    destruct ((nd <? ndigits var) || ((nd =? ndigits var) && (di mod 4 >? 0))) eqn:Ecut.
    + apply orb_true_iff in Ecut. destruct (Z.eqb_spec (di mod 4) 0) as [E0|E0].
      * apply round_whole; [done|subst nd; zlia|]. destruct Ecut; zbool; lia.
      * destruct (round_digit _ _) as [d carry] eqn:Erd.
        apply (round_within nd (di mod 4)); [done|subst nd; zlia|pose proof (Z.mod_pos_bound di 4); lia| |done].
        assert (di <> 0) by (intros Ez; by rewrite Ez in E0). destruct Ecut; zbool; lia.
    + eexists. split; [done|]. apply orb_false_iff in Ecut as [E1 E2]. zbool.
      assert (Hall : 4 * ndigits var <= di).
      { destruct (Z.eqb_spec nd (ndigits var)); [|lia]. cbn [andb] in E2. zbool. pose proof (Z.mod_pos_bound di 4). subst nd. zlia. }
      destruct (abs_multiple Hall) as [q Hq].
      split; cbn [sign spare dscale with_dscale]; try done; try lia; try by left.
      * split; apply V.
      * change (abs_value k (with_dscale r var)) with (abs_value k var). rewrite Hq, round_half_exact by done. done.
Qed.

(** ** [trunc_var] *)

Lemma trunc_div q a : 0 <= a < u -> (q * u + a) / u = q.
Proof. intros. symmetry. apply (Z.div_unique _ _ _ a); lia. Qed.

Record truncated (var' : NumericVar) : Prop := {
  tr_ok : var_ok var';
  tr_dscale : dscale var' = r;
  tr_covers : covers k var';
  tr_value : abs_value k var' = abs_value k var / u * u;
  tr_sign : sign var' = sign var \/ (digits var' = [] /\ sign var' = NUMERIC_POS)
}.

Lemma trunc_within nd i (pow10 := 10 ^ (4 - i)) (x := digit_at (digits var) (nd - 1)) :
  di = 4 * nd - 4 + i -> 0 < i < 4 -> 1 <= nd <= ndigits var ->
  truncated (mkVar (weight var) (sign var) r (spare var) (take (Z.to_nat (nd - 1)) (digits var) ++ [x - x mod pow10])).
Proof.
  intros Edi Hi Hnd. pose proof (vo_digits _ V) as Hd.
  destruct (pv_cut k (digits var) (weight var) (nd - 1) Hd C ltac:(unfold ndigits in *; lia)) as (q & R & He & Hq & HR & Hv).
  fold x in Hv. set (B := NBASE ^ (k + weight var - (nd - 1))) in *. assert (HB : 0 < B) by (apply NBASE_pos; lia).
  assert (Eu : u = pow10 * B).
  { subst B pow10. rewrite <- pow10_NBASE, <- Z.pow_add_r by lia. f_equal. lia. }
  pose proof (digit_at_digit (digits var) (nd - 1) Hd) as Hx. fold x in Hx. unfold is_digit in Hx.
  assert (Hlen : length (take (Z.to_nat (nd - 1)) (digits var)) = Z.to_nat (nd - 1)) by (rewrite length_take; unfold ndigits in *; lia).
  rewrite NBASE_succ in Hq, Hv by lia. fold B in Hq, Hv.
  destruct (round_powers_dvd i Hi) as (z & Hz & _ & Hp). fold pow10 in Hz, Hp.
  pose proof (Z.mod_pos_bound x pow10 ltac:(lia)) as Hm.
  assert (Hdm : x = x / pow10 * pow10 + x mod pow10) by (rewrite Z.mul_comm; apply Z.div_mod; lia).
  assert (0 <= x / pow10) by (apply Z.div_pos; lia).
  split; cbn [dscale sign digits weight]; auto.
  - split; cbn [digits sign]; [|apply V]. apply Forall_app. split; [by apply Forall_take|].
    constructor; [unfold is_digit; nia|done].
  - unfold covers, fits in *. cbn [digits weight]. rewrite length_app, Hlen. cbn [length]. unfold ndigits in *. lia.
  - unfold abs_value. cbn [digits weight]. rewrite pv_app, Hlen, Hq, Hv. cbn [pv].
    replace (k + (weight var - Z.of_nat (Z.to_nat (nd - 1)))) with (k + weight var - (nd - 1)) by lia. fold B.
    replace (q * (NBASE * B) + (x * B + R)) with ((q * z + x / pow10) * u + (x mod pow10 * B + R)) by (rewrite Hz, Eu; nia).
    rewrite trunc_div by (rewrite Eu; nia). rewrite Hz, Eu. nia.
Qed.

Lemma trunc_whole nd :
  di = 4 * nd -> 0 <= nd <= ndigits var ->
  truncated (mkVar (weight var) (sign var) r (spare var) (take (Z.to_nat nd) (digits var))).
Proof.
  intros Edi Hnd. pose proof (vo_digits _ V) as Hd.
  assert (Hlen : length (take (Z.to_nat nd) (digits var)) = Z.to_nat nd) by (rewrite length_take; unfold ndigits in *; lia).
  split; cbn [dscale sign digits weight]; auto.
  - split; cbn [digits sign]; [by apply Forall_take|apply V].
  - unfold covers, fits, ndigits in *. cbn [digits weight]. lia.
  - unfold abs_value. cbn [digits weight].
    destruct (Z.eqb_spec nd (ndigits var)) as [En|Hne].
    { destruct (abs_multiple ltac:(lia)) as [q Hq]. unfold abs_value in Hq.
      rewrite take_ge by (unfold ndigits in *; lia). rewrite Hq, Z.div_mul by (pose proof unit_pos; lia). done. }
    destruct (pv_cut k (digits var) (weight var) nd Hd C ltac:(unfold ndigits in *; lia)) as (q & R & He & Hq & HR & Hv).
    assert (Eu : u = NBASE ^ (k + weight var - nd + 1)) by (rewrite <- pow10_NBASE by lia; f_equal; lia).
    pose proof (digit_at_digit (digits var) nd Hd) as Hx. unfold is_digit in Hx.
    rewrite Hv, Hq, <- Eu, trunc_div; [done|]. rewrite NBASE_succ in Eu by lia. rewrite Eu. nia.
Qed.

Lemma trunc_var_spec : truncated (trunc_var var r).
Proof.
  unfold trunc_var, DEC_DIGITS. pose proof unit_pos as Hu. pose proof abs_nonneg as Ha.
  destruct (Z.leb_spec di 0) as [Hneg|Hpos].
  - split; cbn [dscale sign digits weight]; auto.
    + split; cbn; auto.
    + unfold covers, fits. cbn. lia.
    + unfold abs_value at 1. cbn [digits pv]. rewrite Z.div_small; [done|]. split; [done|].
      destruct (Z.ltb_spec (k + weight var + 1) 0).
      * rewrite abs_value_nil by (apply length_zero_iff_nil; unfold covers, fits in C; lia). lia.
      * apply (Z.lt_le_trans _ _ _ (pv_bound k _ _ (vo_digits _ V) C ltac:(lia))).
        rewrite <- pow10_NBASE by lia. apply Z.pow_le_mono_r; lia.
  - set (nd := (di + 4 - 1) / 4). assert (Hnd : 4 * nd - 3 <= di <= 4 * nd) by (subst nd; zlia).
    destruct (Z.leb_spec nd (ndigits var)).
    + rewrite Z.gtb_ltb. destruct (Z.ltb_spec 0 (di mod 4)).
      * pose proof (Z.mod_pos_bound di 4 ltac:(lia)). rewrite round_powers_di by lia.
        apply trunc_within; [subst nd; zlia|lia|lia].
      * apply trunc_whole; [subst nd; zlia|lia].
    + destruct (abs_multiple ltac:(lia)) as [q Hq]. split; cbn [dscale sign digits weight with_dscale]; auto.
      * split; apply V.
      * change (abs_value k (with_dscale r var)) with (abs_value k var). rewrite Hq, Z.div_mul by lia. done.
Qed.
End RoundVar.

(** Truncation at the decimal point keeps the first digit. *)
Lemma trunc_var_led var : led var -> led (trunc_var var 0).
Proof.
  intros [Hl Hz]. unfold trunc_var, DEC_DIGITS. rewrite Z.add_0_r. destruct (Z.leb_spec ((weight var + 1) * 4) 0); [by split|].
  destruct (_ <=? _); [|by split]. rewrite Z.mod_mul by lia. cbn [Z.gtb Z.compare].
  replace (Z.to_nat (((weight var + 1) * 4 + 4 - 1) / 4)) with (S (Z.to_nat (weight var))) by zlia.
  split; cbn [digits sign]; destruct (digits var); [done..|by intros; apply Hz|done].
Qed.

(** ** Multiplication of numeric variables

    The accumulator of [mul_var] never overflows an int, and its value is the
    product. *)

(** ** The accumulator *)

(** Bound of [maxdig], and of the entries. *)
Definition MAXDIG : Z := (INT_MAX - INT_MAX / NBASE) / (NBASE - 1).

Definition entries (dig : list Z) (bound : Z) : Prop := Forall (fun d => 0 <= d <= bound) dig.

Lemma entries_mono dig a b : entries dig a -> a <= b -> entries dig b.
Proof. intros H Hab. eapply Forall_impl; [exact H|]. cbn. lia. Qed.

Lemma int32_small x : 0 <= x <= INT_MAX -> int32 x = x.
Proof. intros. apply swrap_small; [lia|]. unfold in_sint, INT_MAX in *. lia. Qed.

Lemma carry_pass_spec k l w carry :
  entries l (MAXDIG * (NBASE - 1)) -> 0 <= carry <= INT_MAX / NBASE -> Z.of_nat (length l) <= k + w + 1 ->
  length (carry_pass l carry) = length l /\ Forall is_digit (carry_pass l carry) /\
  exists c, 0 <= c /\
    pv k (rev (carry_pass l carry)) w + c * NBASE ^ (k + w + 1) =
    pv k (rev l) w + carry * NBASE ^ (k + w + 1 - Z.of_nat (length l)).
Proof.
  intros H. revert w carry. induction H as [|d l Hd H IH]; intros w carry Hc Hk; cbn [carry_pass].
  - split_and!; [done|done|]. exists carry. cbn. rewrite Z.sub_0_r. lia.
  - cbn [length] in Hk.
    assert (Hsum : 0 <= d + carry <= INT_MAX).
    { change (MAXDIG * (NBASE - 1)) with 2147265252 in Hd. change (INT_MAX / NBASE) with 214748 in Hc. unfold INT_MAX. lia. }
    rewrite (int32_small (d + carry)) by done.
    assert (exists d' c', (if d + carry >=? NBASE then
        int32 (d + carry - int32 ((d + carry) / NBASE * NBASE)) :: carry_pass l ((d + carry) / NBASE)
        else d + carry :: carry_pass l 0) = d' :: carry_pass l c' /\
      is_digit d' /\ 0 <= c' <= INT_MAX / NBASE /\ d' + c' * NBASE = d + carry) as (d' & c' & -> & Hd' & Hc' & Hsplit).
    { rewrite Z.geb_leb. destruct (Z.leb_spec NBASE (d + carry)).
      - pose proof (Z.div_mod (d + carry) NBASE ltac:(done)). pose proof (Z.mod_pos_bound (d + carry) NBASE ltac:(done)).
        assert (0 <= (d + carry) / NBASE) by (apply Z.div_pos; [lia|done]).
        rewrite !int32_small by (rewrite ?int32_small by lia; lia).
        eexists _, _. split; [done|]. unfold is_digit. split_and!; [lia..| |lia].
        apply Z.div_le_mono; [done|lia].
      - eexists _, 0. split; [done|]. unfold is_digit. split_and!; try lia; done. }
    destruct (IH w c' Hc' ltac:(lia)) as (Hl & Hdig & c & Hcp & Hv).
    split_and!; [cbn; lia|by constructor|]. exists c. split; [done|].
    cbn [rev]. rewrite !pv_app, !length_rev, Hl. cbn [pv].
    replace (k + w + 1 - Z.of_nat (length (d :: l))) with (k + (w - Z.of_nat (length l))) by (cbn [length]; lia).
    replace (k + w + 1 - Z.of_nat (length l)) with (k + (w - Z.of_nat (length l)) + 1) in Hv by lia.
    rewrite (NBASE_succ (k + (w - Z.of_nat (length l)))) in Hv by lia. nia.
Qed.

Lemma normalize_spec k dig w :
  entries dig (MAXDIG * (NBASE - 1)) -> fits k dig w -> 0 <= k + w + 1 -> pv k dig w < NBASE ^ (k + w + 1) ->
  length (normalize dig) = length dig /\ Forall is_digit (normalize dig) /\ pv k (normalize dig) w = pv k dig w.
Proof.
  intros H Hf Hk Hb. unfold normalize.
  destruct (carry_pass_spec k (rev dig) w 0) as (Hl & Hd & c & Hc & Hv);
    [by apply Forall_rev|done|by rewrite length_rev|].
  rewrite rev_involutive, Z.mul_0_l, Z.add_0_r in Hv. rewrite length_rev in Hl.
  split_and!; [by rewrite length_rev|by apply Forall_rev|].
  pose proof (pv_nonneg k (rev (carry_pass (rev dig) 0)) w (Forall_rev Hd)).
  assert (c = 0); [|subst; lia]. pose proof (NBASE_pos _ Hk). nia.
Qed.

Lemma pv_insert k ds w i x :
  (i < length ds)%nat -> pv k (<[i := x]> ds) w = pv k ds w + (x - nth i ds 0) * NBASE ^ (k + w - Z.of_nat i).
Proof.
  revert w i. induction ds as [|d ds IH]; intros w i Hi; cbn in Hi; [lia|].
  destruct i as [|i]; cbn [insert list_insert pv nth].
  - rewrite Z.sub_0_r. lia.
  - change (list_insert i x ds) with (<[i := x]> ds). rewrite IH by lia.
    replace (k + (w - 1) - Z.of_nat i) with (k + w - Z.of_nat (S i)) by lia. lia.
Qed.

Lemma pv_take_S k ds w n : (n < length ds)%nat ->
  pv k (take (S n) ds) w = pv k (take n ds) w + nth n ds 0 * NBASE ^ (k + w - Z.of_nat n).
Proof.
  intros Hn. destruct (nth_lookup_or_length ds n 0) as [E|]; [|lia].
  rewrite (take_S_r _ _ _ E), pv_app, length_take, Nat.min_l by lia. cbn [pv].
  replace (k + (w - Z.of_nat n)) with (k + w - Z.of_nat n) by lia. lia.
Qed.

Lemma nth_digit ds n : Forall is_digit ds -> is_digit (nth n ds 0).
Proof.
  intros H. destruct (decide (n < length ds)%nat) as [Hn|Hn].
  - eapply List.Forall_forall; [exact H|]. by apply nth_In.
  - rewrite nth_overflow by lia. done.
Qed.

(** Accesses within an array. *)
Lemma array_get_nth ds n : (n < length ds)%nat -> array_get ds (Z.of_nat n) = Ok (nth n ds 0).
Proof. intros Hn. apply array_get_lookup; [lia|]. rewrite Nat2Z.id. by destruct (nth_lookup_or_length ds n 0); [|lia]. Qed.

Lemma array_put_ok ds n x : (n < length ds)%nat -> array_put ds (Z.of_nat n) x = Ok (<[n := x]> ds).
Proof.
  intros Hn. unfold array_put. destruct (Z.leb_spec 0 (Z.of_nat n)), (Z.ltb_spec (Z.of_nat n) (Z.of_nat (length ds))); try lia. cbn [andb]. by rewrite Nat2Z.id.
Qed.

(** A row: the entries that are still to be changed have the old bound. *)
Lemma add_row_spec k d ds2 i1 n dig W a b :
  is_digit d -> Forall is_digit ds2 -> (n <= length ds2)%nat -> (i1 + n + 1 < length dig)%nat ->
  0 <= a -> a + d * (NBASE - 1) <= b -> b <= INT_MAX ->
  entries (take (i1 + n + 2) dig) a -> entries dig b ->
  exists row, add_row d ds2 i1 n dig = Ok row /\ length row = length dig /\ entries row b /\
  pv k row W = pv k dig W + d * pv k (take n ds2) (W - Z.of_nat i1 - 2).
Proof.
  intros Hd H2. revert dig. induction n as [|n IH]; intros dig Hn Hlen Ha Hab Hb Hlow Hall; cbn [add_row].
  - exists dig. split_and!; [done..|]. rewrite take_0. cbn [pv]. lia.
  - set (i := (i1 + n + 2)%nat). pose proof (nth_digit ds2 n H2) as Hx. unfold is_digit in Hd, Hx.
    assert (Hi : (i < length dig)%nat) by (subst i; lia).
    assert (Hold : 0 <= nth i dig 0 <= a).
    { assert (Hin : In (nth i dig 0) (take (i1 + S n + 2) dig)).
      { rewrite <- (take_drop (i1 + S n + 2) dig) at 1. rewrite app_nth1 by (rewrite length_take; lia).
        apply nth_In. rewrite length_take. lia. }
      by apply (proj1 (List.Forall_forall _ _) Hlow). }
    assert (Hprod : 0 <= d * nth n ds2 0 <= d * (NBASE - 1)) by nia.
    rewrite (array_get_nth dig i Hi), (array_get_nth ds2 n) by lia. cbn [mbind result_bind].
    rewrite (array_put_ok dig i) by lia. cbn [mbind result_bind].
    rewrite (int32_small (d * nth n ds2 0)) by lia. rewrite int32_small by lia.
    set (dig' := <[i := nth i dig 0 + d * nth n ds2 0]> dig).
    assert (Hl' : length dig' = length dig) by apply length_insert.
    destruct (IH dig') as (row & Er & L & E & P); try lia.
    + subst dig' i. rewrite take_insert_ge by lia. replace (i1 + n + 2)%nat with ((i1 + S n + 2) - 1)%nat by lia.
      eapply List.Forall_forall. intros x Hx'. eapply (proj1 (List.Forall_forall _ _) Hlow).
      replace (i1 + S n + 2)%nat with (S (i1 + S n + 2 - 1)) by lia.
      destruct (nth_lookup_or_length dig (i1 + S n + 2 - 1) 0) as [El|]; [|lia].
      rewrite (take_S_r _ _ _ El). apply in_or_app. by left.
    + apply Forall_insert; [done|lia].
    + exists row. rewrite Er, L, Hl'. split_and!; [done..|]. rewrite P. subst dig'. rewrite pv_insert by done.
      rewrite pv_take_S by lia.
      replace (k + (W - Z.of_nat i1 - 2) - Z.of_nat n) with (k + W - Z.of_nat i) by (subst i; lia). lia.
Qed.

Lemma pv_move k w k' w' ds : k + w = k' + w' -> pv k ds w = pv k' ds w'.
Proof.
  revert w w'. induction ds as [|d ds IH]; intros w w' E; [done|]. cbn [pv]. rewrite E. f_equal. apply IH. lia.
Qed.

Section Product.
Context (k1 k2 w1 w2 : Z) (ds1 ds2 : list Z).
Hypothesis H1 : Forall is_digit ds1.
Hypothesis H2 : Forall is_digit ds2.
Hypothesis F1 : fits k1 ds1 w1.
Hypothesis F2 : fits k2 ds2 w2.
Hypothesis N2 : ds2 <> [].

Notation W := (w1 + w2 + 2).
Notation k := (k1 + k2).

(** Normalization, when a row would not fit. *)
Lemma make_room maxdig d dig :
  0 < d < NBASE -> 0 <= maxdig <= MAXDIG -> fits k dig W -> 0 <= k + W -> pv k dig W < NBASE ^ (k + W) ->
  entries dig (maxdig * (NBASE - 1)) ->
  exists dig' maxdig',
    (if maxdig + d >? MAXDIG then (normalize dig, 1 + d) else (dig, maxdig + d)) = (dig', maxdig') /\
    length dig' = length dig /\ pv k dig' W = pv k dig W /\
    0 <= maxdig' - d /\ maxdig' <= MAXDIG /\ entries dig' ((maxdig' - d) * (NBASE - 1)).
Proof.
  intros Hd Hm Hf Hk Hb He. rewrite Z.gtb_ltb. destruct (Z.ltb_spec MAXDIG (maxdig + d)).
  - assert (Hb' : pv k dig W < NBASE ^ (k + W + 1)) by (rewrite NBASE_succ by lia; pose proof (NBASE_pos _ Hk); unfold NBASE at 1; lia).
    destruct (normalize_spec k dig W) as (L & D & P); [|done|lia|done|].
    { eapply entries_mono; [done|]. unfold NBASE. lia. }
    eexists _, _. split; [done|]. split_and!; [done|done|lia|change MAXDIG with 214748; unfold NBASE in Hd; lia|].
    eapply Forall_impl; [exact D|]. intros x [? ?]. lia.
  - eexists _, _. split; [done|]. split_and!; [done|done|lia|done|]. eapply entries_mono; [done|lia].
Qed.

(** The rows are added exactly: no entry overflows, and no normalization loses
    a carry. *)
Lemma mul_rows_spec n maxdig dig :
  (n <= length ds1)%nat -> length dig = (length ds1 + length ds2 + 1)%nat ->
  0 <= maxdig <= MAXDIG -> entries dig (maxdig * (NBASE - 1)) ->
  pv k dig W + pv k1 (take n ds1) w1 * pv k2 ds2 w2 < NBASE ^ (k + W) ->
  exists rows, mul_rows ds1 ds2 n maxdig dig = Ok rows /\ length rows = length dig /\ entries rows (MAXDIG * (NBASE - 1)) /\
  pv k rows W = pv k dig W + pv k1 (take n ds1) w1 * pv k2 ds2 w2.
Proof.
  pose proof (pv_nonneg k2 ds2 w2 H2) as Hp2.
  assert (Hl2 : (0 < length ds2)%nat) by (destruct ds2; [done|cbn; lia]).
  revert maxdig dig. induction n as [|i1 IH]; intros maxdig dig Hn Hlen Hm He Hb; cbn [mul_rows].
  { exists dig. rewrite take_0. split_and!; [done|done| |cbn [pv]; lia]. eapply entries_mono; [done|]. unfold NBASE. lia. }
  rewrite pv_take_S in * by lia. rewrite (array_get_nth ds1 i1) by lia. cbn [mbind result_bind].
  pose proof (nth_digit ds1 i1 H1) as Hd. set (d := nth i1 ds1 0) in *.
  pose proof (pv_nonneg k1 (take i1 ds1) w1 (Forall_take _ _ _ H1)) as Hp1.
  unfold fits in F1, F2. set (j := k1 + w1 - Z.of_nat i1) in *. assert (Hj : 0 <= j) by lia.
  pose proof (NBASE_pos j Hj) as HB.
  destruct (Z.eqb_spec d 0) as [Ed|Hd0].
  { rewrite Ed, Z.mul_0_l, Z.add_0_r in *. apply IH; done || lia. }
  unfold is_digit in Hd.
  destruct (make_room maxdig d dig) as (dig' & maxdig' & Eq & Hl' & Hv' & Hm0 & Hm' & He'); [lia|done|unfold fits; lia|lia| |done|].
  { assert (0 <= (pv k1 (take i1 ds1) w1 + d * NBASE ^ j) * pv k2 ds2 w2) by (apply Z.mul_nonneg_nonneg; nia). lia. }
  change ((INT_MAX - INT_MAX / NBASE) / (NBASE - 1)) with MAXDIG. rewrite Eq.
  replace (Z.to_nat (Z.min (Z.of_nat (length ds2) - 1) (Z.of_nat (length dig') - Z.of_nat i1 - 3) + 1)) with (length ds2) by lia.
  destruct (add_row_spec k d ds2 i1 (length ds2) dig' W ((maxdig' - d) * (NBASE - 1)) (maxdig' * (NBASE - 1)))
    as (row & -> & Lr & Er & Pr); try done; try lia.
  { unfold NBASE. lia. }
  { unfold NBASE, INT_MAX. change MAXDIG with 214748 in *. lia. }
  { by apply Forall_take. }
  { eapply entries_mono; [done|]. unfold NBASE. lia. }
  rewrite firstn_all in Pr. cbn [mbind result_bind].
  replace (pv k ds2 (W - Z.of_nat i1 - 2)) with (pv k2 ds2 w2 * NBASE ^ j) in Pr.
  2:{ rewrite <- pv_scale by (done || unfold fits; lia). apply pv_move. subst j. lia. }
  destruct (IH maxdig' _ ltac:(lia) (eq_trans Lr (eq_trans Hl' Hlen)) ltac:(lia) Er) as (rows & -> & L & E & P).
  { rewrite Pr, Hv'. lia. }
  exists rows. split_and!; [done|congruence|done|]. rewrite P, Pr, Hv'. lia.
Qed.
End Product.

(** ** [mul_var] *)

Lemma denotes_nil var m s : digits var = [] -> denotes var m s -> m = 0.
Proof.
  intros E D. set (k := unit_for var s). specialize (D k (unit_covers _ s _ (Z.le_refl _)) (unit_scale _ _ _ (Z.le_refl _))).
  unfold svalue in D. rewrite abs_value_nil in D by done. pose proof (unit_scale var s k (Z.le_refl _)).
  pose proof (ten_pos (4 * k - s) ltac:(lia)). nia.
Qed.

(** A variable has no more digits after the point than its scale needs. *)
Lemma denotes_digits var m s :
  var_ok var -> stripped var -> digits var <> [] -> denotes var m s -> 4 * nb_rscale var <= s + 3.
Proof.
  intros V St Hne D. destruct (Z.le_gt_cases (4 * nb_rscale var) (s + 3)) as [|Hgt]; [done|exfalso].
  set (k := nb_rscale var) in *. assert (C : covers k var) by (subst k; unfold covers, fits, nb_rscale, ndigits; lia).
  specialize (D k C ltac:(lia)).
  destruct (exists_last Hne) as (ds & d & E). pose proof (st_trail _ St) as Ht. rewrite E, rev_app_distr in Ht. cbn in Ht.
  assert (Hd : is_digit d) by (pose proof (vo_digits _ V) as Hd; rewrite E in Hd; apply Forall_app in Hd as [_ Hd]; by inversion Hd).
  assert (Hpos : k + (weight var - Z.of_nat (length ds)) = 0).
  { subst k. unfold nb_rscale, ndigits. rewrite E, length_app. cbn [length]. lia. }
  destruct (pv_multiple k ds (weight var)) as [q Hq]; [unfold fits; lia|].
  replace (k + weight var + 1 - Z.of_nat (length ds)) with 1 in Hq by lia.
  unfold svalue, abs_value in D. rewrite E, pv_app, Hq in D. cbn [pv] in D. rewrite Hpos in D.
  replace (4 * k - s) with (4 + (4 * k - s - 4)) in D by lia. rewrite Z.pow_add_r in D by lia.
  change (10 ^ 4) with NBASE in D. change (NBASE ^ 1) with NBASE in D. change (NBASE ^ 0) with 1 in D.
  set (z := 10 ^ (4 * k - s - 4)) in D. clearbody z. unfold is_digit, NBASE in *. unfold sgn in D.
  assert (Hdiv : d = 10000 * ((if sign var =? NUMERIC_NEG then -1 else 1) * m * z - q)) by (destruct (_ =? _); lia).
  set (t := (if sign var =? NUMERIC_NEG then -1 else 1) * m * z - q) in Hdiv. clearbody t. lia.
Qed.

Lemma svalue_abs k var : Z.abs (svalue k var) = Z.abs (abs_value k var).
Proof. unfold svalue, sgn. destruct (_ =? _); lia. Qed.

Section MulVar.
Context (var1 var2 : NumericVar) (m1 m2 s1 s2 : Z).
Hypothesis V1 : var_ok var1.
Hypothesis V2 : var_ok var2.
Hypothesis St1 : stripped var1.
Hypothesis St2 : stripped var2.
Hypothesis D1 : denotes var1 m1 s1.
Hypothesis D2 : denotes var2 m2 s2.
Hypothesis Hs1 : 0 <= s1.
Hypothesis Hs2 : 0 <= s2.
Hypothesis N1 : digits var1 <> [].
Hypothesis N2 : digits var2 <> [].

Notation k1 := (unit_for var1 s1).
Notation k2 := (unit_for var2 s2).
Notation W := (weight var1 + weight var2 + 2).

(** The digits of the exact product. *)
Lemma product_digits (n := Z.to_nat (ndigits var1 + ndigits var2 + 1)) :
  exists rows, mul_rows (digits var1) (digits var2) (length (digits var1)) 0 (replicate n 0) = Ok rows /\
  let dig := normalize rows in
  Forall is_digit dig /\ ~ no_lead dig /\ fits (k1 + k2) dig W /\
  pv (k1 + k2) dig W = abs_value k1 var1 * abs_value k2 var2.
Proof.
  pose proof (vo_digits _ V1) as G1. pose proof (vo_digits _ V2) as G2.
  assert (C1 : covers k1 var1) by by apply (unit_covers _ s1). assert (C2 : covers k2 var2) by by apply (unit_covers _ s2).
  unfold covers in C1, C2.
  assert (L1 : (0 < length (digits var1))%nat) by (destruct (digits var1); [done|cbn; lia]).
  assert (L2 : (0 < length (digits var2))%nat) by (destruct (digits var2); [done|cbn; lia]).
  pose proof (pv_bound _ _ _ G1 C1 ltac:(unfold fits in C1; lia)) as B1.
  pose proof (pv_bound _ _ _ G2 C2 ltac:(unfold fits in C2; lia)) as B2.
  pose proof (pv_nonneg k1 _ (weight var1) G1) as P1. pose proof (pv_nonneg k2 _ (weight var2) G2) as P2.
  assert (Hb : pv k1 (digits var1) (weight var1) * pv k2 (digits var2) (weight var2) < NBASE ^ (k1 + k2 + W)).
  { replace (k1 + k2 + W) with ((k1 + weight var1 + 1) + (k2 + weight var2 + 1)) by lia.
    unfold fits in C1, C2. rewrite Z.pow_add_r by lia. nia. }
  assert (Hn : n = (length (digits var1) + length (digits var2) + 1)%nat) by (subst n; unfold ndigits; lia).
  destruct (mul_rows_spec k1 k2 (weight var1) (weight var2) (digits var1) (digits var2) G1 G2 C1 C2 N2
    (length (digits var1)) 0 (replicate n 0)) as (rows & Er & Hl & He & Hv); [done|by rewrite length_replicate|done| |by rewrite pv_replicate, firstn_all|].
  { apply Forall_replicate. lia. }
  rewrite pv_replicate, firstn_all in Hv. cbn [Z.add] in Hv. rewrite length_replicate in Hl.
  exists rows. split; [done|]. cbv zeta. set (dig := normalize rows).
  assert (Hf : fits (k1 + k2) rows W).
  { unfold fits in *. rewrite Hl, Hn. lia. }
  assert (Hkw : 0 <= k1 + k2 + W) by (unfold fits in *; lia).
  destruct (normalize_spec (k1 + k2) _ W He Hf) as (L & D & P); [lia| |].
  { rewrite Hv, NBASE_succ by lia. pose proof (NBASE_pos _ Hkw). unfold NBASE at 1. lia. }
  fold dig in L, D, P. split_and!; [done| |unfold fits in *; lia|by rewrite P].
  intros Hlead. assert (dig <> []) by (intros Ed; rewrite Ed in L; cbn in L; lia).
  pose proof (pv_lead (k1 + k2) dig W D Hlead ltac:(done)). lia.
Qed.

(** No digit of the product is ignored. *)
Lemma product_ndigits :
  Z.min (ndigits var1 + ndigits var2 + 1) (W + 1 + Z.quot (s1 + s2 + DEC_DIGITS - 1) DEC_DIGITS + MUL_GUARD_DIGITS) =
  ndigits var1 + ndigits var2 + 1.
Proof.
  pose proof (denotes_digits var1 m1 s1 V1 St1 N1 D1). pose proof (denotes_digits var2 m2 s2 V2 St2 N2 D2).
  unfold DEC_DIGITS, MUL_GUARD_DIGITS, nb_rscale in *. rewrite Z.quot_div_nonneg by lia. zlia.
Qed.

Lemma product_denotes res_sign (n := Z.to_nat (ndigits var1 + ndigits var2 + 1)) :
  res_sign = (if sign var1 =? sign var2 then NUMERIC_POS else NUMERIC_NEG) ->
  exists rows res, mul_rows (digits var1) (digits var2) (length (digits var1)) 0 (replicate n 0) = Ok rows /\
    round_var (mkVar W res_sign 0 1 (normalize rows)) (s1 + s2) = Ok res /\
    var_ok (strip_var res) /\ stripped (strip_var res) /\ dscale (strip_var res) = s1 + s2 /\
    denotes (strip_var res) (m1 * m2) (s1 + s2) /\ 0 < spare (strip_var res).
Proof.
  intros Es. destruct product_digits as (rows & Er & G & Hlead & Hf & Hv). fold n in Er. set (dig := normalize rows) in *.
  set (k := k1 + k2). assert (Hk1 : s1 <= 4 * k1) by by apply (unit_scale var1). assert (Hk2 : s2 <= 4 * k2) by by apply (unit_scale var2).
  assert (Hk : 0 <= k) by (pose proof (unit_nonneg var1 s1 k1 (Z.le_refl _)); pose proof (unit_nonneg var2 s2 k2 (Z.le_refl _)); lia).
  set (v := mkVar W res_sign 0 1 dig).
  assert (Vv : var_ok v) by (split; cbn; [done|rewrite Es; destruct (_ =? _); auto]).
  destruct (round_var_spec k (s1 + s2) v Vv Hk Hf ltac:(lia) ltac:(done)) as (res & E & R).
  exists rows, res. split; [done|]. split; [done|]. destruct R as [Rok Rds Rcov Rval Rsign Rsp Rroom].
  split_and!; [by apply strip_var_ok|apply strip_var_stripped|by rewrite strip_var_dscale| |].
  - rewrite strip_var_denotes. apply (denotes_at k); [done|lia|].
    pose proof (D1 k1 (unit_covers _ s1 _ (Z.le_refl _)) Hk1) as E1. pose proof (D2 k2 (unit_covers _ s2 _ (Z.le_refl _)) Hk2) as E2.
    assert (Ev : abs_value k v = abs_value k1 var1 * abs_value k2 var2) by done.
    assert (Esv : svalue k v = m1 * m2 * 10 ^ (4 * k - (s1 + s2))).
    { replace (4 * k - (s1 + s2)) with ((4 * k1 - s1) + (4 * k2 - s2)) by (subst k; lia). rewrite Z.pow_add_r by lia.
      transitivity (svalue k1 var1 * svalue k2 var2); [|rewrite E1, E2; lia].
      unfold svalue. rewrite Ev. unfold sgn. subst v. cbn [sign]. rewrite Es.
      destruct (vo_sign _ V1) as [-> | ->], (vo_sign _ V2) as [-> | ->]; cbn; lia. }
    set (u := 10 ^ (4 * k - (s1 + s2))) in *. assert (Hu : 0 < u) by (apply ten_pos; subst k; lia).
    assert (Ea : abs_value k v = Z.abs (m1 * m2) * u).
    { pose proof (pv_nonneg k _ W G). pose proof (svalue_abs k v) as Habs. rewrite Esv in Habs.
      change (abs_value k v) with (pv k dig W) in *. rewrite Z.abs_mul, (Z.abs_eq u) in Habs by lia. lia. }
    rewrite Ea, round_half_exact in Rval by done.
    destruct Rsign as [Rs|Rz].
    + unfold svalue, sgn. rewrite Rval, Rs. rewrite <- Ea. exact Esv.
    + unfold svalue. rewrite Rz. rewrite Rval in Rz. nia.
  - assert (Hsp : spare v <= spare res) by (destruct Rroom; [by exfalso; apply Hlead|done]). cbn in Hsp.
    unfold strip_var. destruct (strip_leading _ _) as [ds w]. destruct (Nat.eqb _ _); cbn; lia.
Qed.
End MulVar.

(** The result of a multiplication, exact and ready for another rounding. *)
Definition product (res : NumericVar) (m s : Z) : Prop :=
  var_ok res /\ stripped res /\ dscale res = s /\ denotes res m s /\ (0 < spare res \/ digits res = []).

Lemma product_zero s : product (zero_var s) 0 s.
Proof. split_and!; [split; cbn; auto|split; cbn; auto|done|intros k _ _; by cbn|by right]. Qed.

Lemma mul_ordered_spec var1 var2 m1 m2 s1 s2 :
  var_ok var1 -> var_ok var2 -> stripped var1 -> stripped var2 -> denotes var1 m1 s1 -> denotes var2 m2 s2 ->
  0 <= s1 -> 0 <= s2 -> exists res, mul_ordered var1 var2 (s1 + s2) = Ok res /\ product res (m1 * m2) (s1 + s2).
Proof.
  intros V1 V2 St1 St2 D1 D2 Hs1 Hs2. unfold mul_ordered.
  assert (Hz : forall var m s, denotes var m s -> ndigits var = 0 -> m = 0).
  { intros var m s D E. apply (denotes_nil var m s); [|done]. apply length_zero_iff_nil. unfold ndigits in E. lia. }
  destruct (Z.eqb_spec (ndigits var1) 0) as [E1|E1].
  { eexists. split; [done|]. rewrite (Hz _ _ _ D1 E1), Z.mul_0_l. apply product_zero. }
  destruct (Z.eqb_spec (ndigits var2) 0) as [E2|E2].
  { eexists. split; [done|]. rewrite (Hz _ _ _ D2 E2), Z.mul_0_r. apply product_zero. }
  cbn [orb]. cbv zeta.
  assert (N1 : digits var1 <> []) by (intros E; unfold ndigits in E1; rewrite E in E1; done).
  assert (N2 : digits var2 <> []) by (intros E; unfold ndigits in E2; rewrite E in E2; done).
  rewrite (product_ndigits var1 var2 m1 m2 s1 s2) by done.
  destruct (Z.ltb_spec (ndigits var1 + ndigits var2 + 1) 3); [unfold ndigits in *; lia|].
  replace (Z.to_nat (Z.min (ndigits var1 - 1) (ndigits var1 + ndigits var2 + 1 - 3) + 1)) with (length (digits var1))
    by (unfold ndigits in *; lia).
  destruct (product_denotes var1 var2 m1 m2 s1 s2 V1 V2 D1 D2 Hs1 Hs2 N1 N2 _ eq_refl) as (rows & res & -> & Er & H1 & H2 & H3 & H4 & H5).
  cbn [mbind result_bind]. rewrite Er. exists (strip_var res). split; [done|]. split_and!; auto.
Qed.

Lemma mul_var_spec var1 var2 m1 m2 s1 s2 :
  var_ok var1 -> var_ok var2 -> stripped var1 -> stripped var2 -> denotes var1 m1 s1 -> denotes var2 m2 s2 ->
  0 <= s1 -> 0 <= s2 -> exists res, mul_var var1 var2 (s1 + s2) = Ok res /\ product res (m1 * m2) (s1 + s2).
Proof.
  intros. unfold mul_var. destruct (_ >? _); [|by apply mul_ordered_spec].
  rewrite Z.mul_comm, Z.add_comm. by apply mul_ordered_spec.
Qed.
