(* ===== verification/NumericStore.v ===== *)
(** * Packed numeric values

    What a packed value denotes, and that [make_result] stores exactly the
    numbers that the format can hold. *)

From S2P Require Import Prelude Varlena Hashfn Numeric NumericValue NumericRound.

(** ** Digits in memory *)

Lemma digit_bytes d : is_digit d -> le_bytes 2 d = [d mod 256; d / 256] /\ swrap 16 (d mod 256 + 256 * (d / 256)) = d.
Proof.
  intros [H1 H2]. unfold NBASE in H2. split.
  - cbn. by rewrite (Z.mod_small (d / 256)) by zlia.
  - rewrite <- (swrap_small 16 d) at 3 by (try lia; unfold in_sint; cbn; lia). f_equal. zlia.
Qed.

Lemma digits_bytes ds : Forall is_digit ds -> digits_of_bytes (bytes_of_digits ds) = ds.
Proof.
  induction 1 as [|d ds Hd _ IH]; [done|]. unfold bytes_of_digits in *. cbn [flat_map].
  destruct (digit_bytes d Hd) as [-> E]. cbn [app digits_of_bytes]. by rewrite E, IH.
Qed.

Lemma length_bytes_of_digits ds : length (bytes_of_digits ds) = (2 * length ds)%nat.
Proof. unfold bytes_of_digits. induction ds as [|d ds IH]; [done|]. cbn [flat_map length]. rewrite length_app, IH. cbn. lia. Qed.

Lemma length_digits_of_bytes bs : length (digits_of_bytes bs) = Nat.div2 (length bs).
Proof.
  revert bs. fix IH 1. intros [|b0 [|b1 bs]]; [done|done|]. cbn. f_equal. apply IH.
Qed.

(** ** Header words

    There are few enough of them to check the macros on each. *)

Definition header_fields (h : Z) : bool * bool * bool * Z * Z * Z :=
  (Z.land h NUMERIC_SIGN_MASK =? NUMERIC_NAN, Z.land h NUMERIC_SIGN_MASK =? NUMERIC_SHORT, bit_set h 0x8000,
   (if Z.land h NUMERIC_SIGN_MASK =? NUMERIC_SHORT then
      if bit_set h NUMERIC_SHORT_SIGN_MASK then NUMERIC_NEG else NUMERIC_POS
    else Z.land h NUMERIC_SIGN_MASK),
   (if bit_set h 0x8000 then Z.shiftr (Z.land h NUMERIC_SHORT_DSCALE_MASK) NUMERIC_SHORT_DSCALE_SHIFT
    else Z.land h NUMERIC_DSCALE_MASK),
   (if bit_set h 0x8000 then
      Z.lor (if bit_set h NUMERIC_SHORT_WEIGHT_SIGN_MASK then Z.lnot NUMERIC_SHORT_WEIGHT_MASK else 0)
            (Z.land h NUMERIC_SHORT_WEIGHT_MASK)
    else 0)).

Definition fields_eqb (x y : bool * bool * bool * Z * Z * Z) : bool := bool_decide (x = y).

(** The integers from [a] on. *)
Fixpoint zrange (a : Z) (n : nat) : list Z :=
  match n with O => [] | S n' => a :: zrange (a + 1) n' end.

Lemma forallb_zrange (P : Z -> bool) a n x : forallb P (zrange a n) = true -> a <= x < a + Z.of_nat n -> P x = true.
Proof.
  revert a. induction n as [|n IH]; intros a H Hx; [lia|]. cbn [zrange forallb] in H. apply andb_true_iff in H as [H1 H2].
  destruct (decide (x = a)) as [-> |]; [done|]. apply (IH (a + 1)); [done|lia].
Qed.

(** The fields of a header in short form. *)
Lemma short_header_fields s scale w :
  s = NUMERIC_POS \/ s = NUMERIC_NEG -> 0 <= scale <= 63 -> -64 <= w <= 63 ->
  0 <= short_form_header s scale w < 65536 /\
  header_fields (short_form_header s scale w) = (false, true, true, s, scale, w).
Proof.
  intros Hs Hsc Hw.
  assert (H : forall s, In s [NUMERIC_POS; NUMERIC_NEG] ->
    forallb (fun scale => forallb (fun w => let h := short_form_header s scale w in
      (0 <=? h) && (h <? 65536) && fields_eqb (header_fields h) (false, true, true, s, scale, w)) (zrange (-64) 128)) (zrange 0 64) = true).
  { intros s' [<-|[<-|[]]]; vm_compute; reflexivity. }
  specialize (H s ltac:(destruct Hs as [-> | ->]; cbn; auto)).
  apply (forallb_zrange _ _ _ scale) in H; [|lia]. apply (forallb_zrange _ _ _ w) in H; [|lia]. cbv zeta in H.
  apply andb_true_iff in H as [H1 H2]. zbool. unfold fields_eqb in H2. apply bool_decide_eq_true in H2. split; [lia|done].
Qed.

(** The fields of a header in long form; the weight is in the next word. *)
Lemma long_header_fields s scale :
  s = NUMERIC_POS \/ s = NUMERIC_NEG ->
  0 <= long_form_header s scale < 65536 /\
  header_fields (long_form_header s scale) = (false, false, false, s, Z.land scale NUMERIC_DSCALE_MASK, 0).
Proof.
  intros Hs. unfold long_form_header. set (sc := Z.land scale NUMERIC_DSCALE_MASK).
  assert (Hsc : 0 <= sc < 16384).
  { subst sc. change NUMERIC_DSCALE_MASK with (Z.ones 14). rewrite Z.land_ones by lia. apply Z.mod_pos_bound. done. }
  assert (H : forall s, In s [NUMERIC_POS; NUMERIC_NEG] ->
    forallb (fun sc => let h := Z.lor s sc in
      (0 <=? h) && (h <? 65536) && fields_eqb (header_fields h) (false, false, false, s, sc, 0)) (zrange 0 (Z.to_nat 16384)) = true).
  { intros s' [<-|[<-|[]]]; vm_compute; reflexivity. }
  specialize (H s ltac:(destruct Hs as [-> | ->]; cbn; auto)).
  apply (forallb_zrange _ _ _ sc) in H; [|lia]. cbv zeta in H.
  apply andb_true_iff in H as [H1 H2]. zbool. unfold fields_eqb in H2. apply bool_decide_eq_true in H2. split; [lia|done].
Qed.

(** ** Layout *)

(** The bytes of a packed value: size word, header word(s), digits. *)
Lemma layout_reads v choice rest :
  length v = 4%nat -> (2 <= length choice)%nat ->
  n_header (v ++ choice ++ rest) = le_value (take 2 choice) /\
  VARSIZE_4B (v ++ choice ++ rest) = VARSIZE_of_header (le_value v).
Proof.
  intros Hv Hc. destruct v as [|v0 [|v1 [|v2 [|v3 [|]]]]]; try done. destruct choice as [|c0 [|c1 choice]]; cbn in Hc; try lia. done.
Qed.

Lemma layout_weight v h wb rest :
  length v = 4%nat -> length h = 2%nat -> length wb = 2%nat -> n_weight (v ++ (h ++ wb) ++ rest) = swrap 16 (le_value wb).
Proof.
  intros Hv Hh Hw. destruct v as [|v0 [|v1 [|v2 [|v3 [|]]]]]; try done. destruct h as [|h0 [|h1 [|]]]; try done.
  by destruct wb as [|w0 [|w1 [|]]].
Qed.

Lemma layout_digits v choice ds num :
  num = v ++ choice ++ bytes_of_digits ds -> length v = 4%nat -> (2 <= length choice)%nat -> Forall is_digit ds ->
  VARSIZE_4B num = Z.of_nat (length num) -> NUMERIC_HEADER_SIZE num = 4 + Z.of_nat (length choice) ->
  NUMERIC_NDIGITS num = Z.of_nat (length ds) /\ NUMERIC_DIGITS num = ds.
Proof.
  intros E Hv Hc Hd Hsz Hh.
  assert (Hlen : Z.of_nat (length num) = 4 + Z.of_nat (length choice) + 2 * Z.of_nat (length ds)).
  { rewrite E, !length_app, length_bytes_of_digits. lia. }
  assert (Hn : NUMERIC_NDIGITS num = Z.of_nat (length ds)).
  { unfold NUMERIC_NDIGITS. rewrite Hsz, Hh, Hlen. zlia. }
  split; [done|]. unfold NUMERIC_DIGITS. rewrite Hn, Hh, E. unfold bytes_at.
  rewrite app_assoc, drop_app_length' by (rewrite length_app; lia).
  rewrite take_ge by (rewrite length_bytes_of_digits; lia). by apply digits_bytes.
Qed.

(** ** Values that are stored *)

Record num_ok (num : Numeric) : Prop := {
  no_size : VARSIZE_4B num = Z.of_nat (length num);
  no_header : 0 <= n_header num < 65536 /\ NUMERIC_HEADER_SIZE num <= Z.of_nat (length num);
  no_nan : NUMERIC_IS_NAN num = false;
  no_var : var_ok (init_var_from_num num);
  no_stripped : stripped (init_var_from_num num)
}.

(** The short form is used where it can be. *)
Definition canonical (num : Numeric) : Prop :=
  NUMERIC_IS_SHORT num = NUMERIC_CAN_BE_SHORT (NUMERIC_DSCALE num) (NUMERIC_WEIGHT num).

(** A number with [s] decimals, or not a number. *)
Inductive Dec : Type :=
| NaN
| Fin (m s : Z).

Definition numeric_is (num : Numeric) (d : Dec) : Prop :=
  match d with
  | NaN => NUMERIC_IS_NAN num = true
  | Fin m s => num_ok num /\ NUMERIC_DSCALE num = s /\ denotes (init_var_from_num num) m s
  end.

Definition fields (num : Numeric) : bool * bool * bool * Z * Z * Z := header_fields (n_header num).

(** The macros, from the fields of the header. *)
Lemma fields_macros num nan short hdr s sc w :
  fields num = (nan, short, hdr, s, sc, w) ->
  NUMERIC_IS_NAN num = nan /\ NUMERIC_IS_SHORT num = short /\ NUMERIC_HEADER_IS_SHORT num = hdr /\
  NUMERIC_SIGN num = s /\ NUMERIC_DSCALE num = sc /\ NUMERIC_WEIGHT num = if hdr then w else n_weight num.
Proof.
  unfold fields, header_fields. injection 1 as <- <- <- <- <- <-.
  unfold NUMERIC_WEIGHT, NUMERIC_HEADER_IS_SHORT. split_and!; try done. by destruct (bit_set (n_header num) 0x8000).
Qed.

Lemma dscale_range num : 0 <= NUMERIC_DSCALE num <= NUMERIC_DSCALE_MAX.
Proof.
  unfold NUMERIC_DSCALE. destruct (NUMERIC_HEADER_IS_SHORT num).
  - change NUMERIC_SHORT_DSCALE_MASK with (Z.shiftl (Z.ones 6) 7). unfold NUMERIC_SHORT_DSCALE_SHIFT.
    rewrite Z.shiftr_land, Z.shiftr_shiftl_l, Z.sub_diag, Z.shiftl_0_r, Z.land_ones by lia.
    pose proof (Z.mod_pos_bound (Z.shiftr (n_header num) 7) (2 ^ 6) ltac:(done)). unfold NUMERIC_DSCALE_MAX, NUMERIC_DSCALE_MASK. lia.
  - change NUMERIC_DSCALE_MASK with (Z.ones 14). rewrite Z.land_ones by lia.
    pose proof (Z.mod_pos_bound (n_header num) (2 ^ 14) ltac:(done)). unfold NUMERIC_DSCALE_MAX, NUMERIC_DSCALE_MASK. lia.
Qed.

Lemma pack_size choice ds :
  let num := pack choice ds in
  Z.of_nat (length num) = VARHDRSZ + Z.of_nat (length choice) + 2 * Z.of_nat (length ds) /\
  (Z.of_nat (length num) < 2 ^ 30 -> (2 <= length choice)%nat -> VARSIZE_4B num = Z.of_nat (length num)) .
Proof.
  cbv zeta. unfold pack. set (v := le_bytes 4 _).
  assert (Hv : length v = 4%nat) by apply length_le_bytes.
  assert (Hlen : Z.of_nat (length (v ++ choice ++ bytes_of_digits ds)) = VARHDRSZ + Z.of_nat (length choice) + 2 * Z.of_nat (length ds)).
  { rewrite !length_app, length_bytes_of_digits, Hv. unfold VARHDRSZ. lia. }
  split; [done|]. intros Hb Hc. rewrite (proj2 (layout_reads v choice _ Hv Hc)), Hlen. subst v. rewrite le_value_bytes.
  rewrite Z.mod_small by (pose proof (uwrap_range 32 (Z.shiftl (uwrap 32 (VARHDRSZ + Z.of_nat (length choice) + 2 * Z.of_nat (length ds))) 2)); unfold SET_VARSIZE, in_uint in *; cbn in *; lia).
  apply VARSIZE_of_SET_VARSIZE. unfold VARHDRSZ in *. lia.
Qed.

Definition small (ds : list Z) : Prop := Z.of_nat (length ds) < 2 ^ 28.

(** What is read back from a packed value. *)
Record reads (num : Numeric) (short : bool) (var : NumericVar) : Prop := {
  re_short : NUMERIC_IS_SHORT num = short;
  re_hdr : NUMERIC_HEADER_IS_SHORT num = short;
  re_nan : NUMERIC_IS_NAN num = false;
  re_dscale : NUMERIC_DSCALE num = dscale var;
  re_weight : NUMERIC_WEIGHT num = weight var;
  re_header : 0 <= n_header num < 65536;
  re_rest : Forall is_digit (digits var) -> small (digits var) ->
    VARSIZE_4B num = Z.of_nat (length num) /\ NUMERIC_HEADER_SIZE num <= Z.of_nat (length num) /\
    NUMERIC_NDIGITS num = ndigits var /\ init_var_from_num num = mkVar (weight var) (sign var) (dscale var) 0 (digits var)
}.

Lemma pack_reads choice ds short s sc w h :
  (2 <= length choice)%nat -> h = le_value (take 2 choice) -> 0 <= h < 65536 ->
  (exists w', header_fields h = (false, short, short, s, sc, w') /\ NUMERIC_WEIGHT (pack choice ds) = w) ->
  length choice = (if short then 2 else 4)%nat ->
  reads (pack choice ds) short (mkVar w s sc 0 ds).
Proof.
  intros Hc Eh Hh (w' & Hf & Hw) Hlen. set (num := pack choice ds).
  destruct (layout_reads (le_bytes 4 (SET_VARSIZE (VARHDRSZ + Z.of_nat (length choice) + 2 * Z.of_nat (length ds)))) choice
    (bytes_of_digits ds) (length_le_bytes _ _) Hc) as [Hn Hsz].
  fold (pack choice ds) in Hn, Hsz. fold num in Hn, Hsz. rewrite <- Eh in Hn.
  assert (Hfn : fields num = (false, short, short, s, sc, w')) by (unfold fields; by rewrite Hn).
  destruct (fields_macros _ _ _ _ _ _ _ Hfn) as (M1 & M2 & M3 & M4 & M5 & _).
  split; cbn [dscale weight]; try done.
  { rewrite Hn. lia. }
  cbn [digits sign]. intros Hd Hsm. destruct (pack_size choice ds) as [Hl Hv]. fold num in Hl, Hv.
  unfold small, VARHDRSZ in *.
  assert (Hv' : VARSIZE_4B num = Z.of_nat (length num)) by (apply Hv; [destruct short; lia|done]).
  assert (Hhs : NUMERIC_HEADER_SIZE num = 4 + Z.of_nat (length choice)).
  { unfold NUMERIC_HEADER_SIZE. rewrite M3, Hlen. by destruct short. }
  destruct (layout_digits (le_bytes 4 (SET_VARSIZE (VARHDRSZ + Z.of_nat (length choice) + 2 * Z.of_nat (length ds)))) choice ds num)
    as [N1 N2]; [done|apply length_le_bytes|done..|].
  split_and!; [done|lia|done|]. fold num in Hw. unfold init_var_from_num. by rewrite Hw, M4, M5, N2.
Qed.

Lemma pack_short s scale w ds :
  s = NUMERIC_POS \/ s = NUMERIC_NEG -> 0 <= scale <= 63 -> -64 <= w <= 63 ->
  reads (pack (le_bytes 2 (short_form_header s scale w)) ds) true (mkVar w s scale 0 ds).
Proof.
  intros Hs Hsc Hw. destruct (short_header_fields s scale w Hs Hsc Hw) as [Hh Hf].
  assert (Hv : le_value (le_bytes 2 (short_form_header s scale w)) = short_form_header s scale w).
  { rewrite le_value_bytes. apply Z.mod_small. exact Hh. }
  apply (pack_reads _ _ _ _ _ _ (short_form_header s scale w)); [by rewrite length_le_bytes| |done| |by rewrite length_le_bytes].
  - by rewrite take_ge by (by rewrite length_le_bytes).
  - exists w. split; [done|]. 
    set (num := pack _ _). assert (Hn : n_header num = short_form_header s scale w).
    { rewrite <- Hv. apply layout_reads; by rewrite length_le_bytes. }
    assert (Hfn : fields num = (false, true, true, s, scale, w)) by (unfold fields; by rewrite Hn).
    by apply fields_macros in Hfn as (_ & _ & _ & _ & _ & ?).
Qed.

Lemma pack_long s scale w ds :
  s = NUMERIC_POS \/ s = NUMERIC_NEG ->
  reads (pack (le_bytes 2 (long_form_header s scale) ++ le_bytes 2 w) ds) false
    (mkVar (swrap 16 w) s (Z.land scale NUMERIC_DSCALE_MASK) 0 ds).
Proof.
  intros Hs. destruct (long_header_fields s scale Hs) as [Hh Hf].
  assert (Hv : le_value (le_bytes 2 (long_form_header s scale)) = long_form_header s scale).
  { rewrite le_value_bytes. apply Z.mod_small. exact Hh. }
  apply (pack_reads _ _ _ _ _ _ (long_form_header s scale)); [rewrite length_app, !length_le_bytes; lia| |done| |by rewrite length_app, !length_le_bytes].
  - by rewrite take_app_le, take_ge by (by rewrite length_le_bytes).
  - exists 0. split; [done|].
    set (num := pack _ _). assert (Hn : n_header num = long_form_header s scale).
    { rewrite <- Hv. transitivity (le_value (take 2 (le_bytes 2 (long_form_header s scale) ++ le_bytes 2 w))).
      - apply layout_reads; [apply length_le_bytes|rewrite length_app, !length_le_bytes; lia].
      - by rewrite take_app_le, take_ge by (by rewrite length_le_bytes). }
    assert (Hfn : fields num = (false, false, false, s, Z.land scale NUMERIC_DSCALE_MASK, 0)) by (unfold fields; by rewrite Hn).
    apply fields_macros in Hfn as (_ & _ & _ & _ & _ & ->). subst num. unfold pack.
    rewrite layout_weight by apply length_le_bytes. rewrite le_value_bytes. change (8 * Z.of_nat 2) with 16. by rewrite swrap_mod.
Qed.

(** ** [make_result] *)

Definition storable (var : NumericVar) : bool :=
  (dscale var <=? NUMERIC_DSCALE_MAX) && (-32768 <=? weight (strip_var var)) && (weight (strip_var var) <=? 32767).

Definition packs (var : NumericVar) (num : Numeric) : Prop :=
  reads num (NUMERIC_CAN_BE_SHORT (dscale var) (weight (strip_var var))) (with_dscale (dscale var) (strip_var var)).

Lemma make_result_var var :
  var_ok var -> 0 <= dscale var ->
  if storable var then exists num, make_result_opt_error var = Some num /\ packs var num
  else make_result_opt_error var = None.
Proof.
  intros V Hsc. unfold make_result_opt_error.
  assert (Hnan : (sign var =? NUMERIC_NAN) = false) by (destruct (vo_sign _ V) as [-> | ->]; done). rewrite Hnan.
  destruct (strip_leading (digits var) (weight var)) as [ds w] eqn:E.
  assert (Hst : exists room, strip_var var = mkVar (if Nat.eqb (length (strip_trailing ds)) 0 then 0 else w)
    (if Nat.eqb (length (strip_trailing ds)) 0 then NUMERIC_POS else sign var) (dscale var) room (strip_trailing ds)).
  { unfold strip_var. rewrite E. eexists. by destruct (Nat.eqb _ _). }
  destruct Hst as [room Hst]. unfold packs, storable.
  set (w' := if Nat.eqb (length (strip_trailing ds)) 0 then 0 else w) in *.
  set (s' := if Nat.eqb (length (strip_trailing ds)) 0 then NUMERIC_POS else sign var) in *.
  replace (if Nat.eqb (length (strip_trailing ds)) 0 then (0, NUMERIC_POS) else (w, sign var)) with (w', s')
    by (subst w' s'; by destruct (Nat.eqb _ _)).
  rewrite Hst. cbn [weight with_dscale sign digits].
  assert (Hs' : s' = NUMERIC_POS \/ s' = NUMERIC_NEG) by (subst s'; destruct (Nat.eqb _ _); [auto|apply V]).
  destruct (NUMERIC_CAN_BE_SHORT (dscale var) w') eqn:Ec.
  - unfold NUMERIC_CAN_BE_SHORT in Ec. change NUMERIC_SHORT_DSCALE_MAX with 63 in Ec. change NUMERIC_SHORT_WEIGHT_MAX with 63 in Ec.
    change NUMERIC_SHORT_WEIGHT_MIN with (-64) in Ec. zbool.
    pose proof (pack_short s' (dscale var) w' (strip_trailing ds) Hs' ltac:(lia) ltac:(lia)) as R.
    rewrite (re_weight _ _ _ R), (re_dscale _ _ _ R). cbn [weight dscale]. rewrite !Z.eqb_refl. cbn [negb orb].
    unfold NUMERIC_DSCALE_MAX, NUMERIC_DSCALE_MASK.
    destruct (Z.leb_spec (dscale var) 16383), (Z.leb_spec (-32768) w'), (Z.leb_spec w' 32767); cbn [andb]; try lia.
    eexists. split; [done|]. by destruct R; split.
  - pose proof (pack_long s' (dscale var) w' (strip_trailing ds) Hs') as R.
    rewrite (re_weight _ _ _ R), (re_dscale _ _ _ R). cbn [weight dscale].
    assert (Hw16 : (swrap 16 w' =? w') = (-32768 <=? w') && (w' <=? 32767)).
    { pose proof (swrap_range 16 w' ltac:(lia)) as Hr. unfold in_sint in Hr. change (2 ^ (16 - 1)) with 32768 in Hr.
      destruct (Z.leb_spec (-32768) w'), (Z.leb_spec w' 32767); cbn [andb]; apply Z.eqb_eq || apply Z.eqb_neq; try lia.
      apply swrap_small; [lia|]. unfold in_sint. cbn. lia. }
    assert (Hd14 : (Z.land (dscale var) NUMERIC_DSCALE_MASK =? dscale var) = (dscale var <=? NUMERIC_DSCALE_MAX)).
    { change NUMERIC_DSCALE_MASK with (Z.ones 14). rewrite Z.land_ones by lia. unfold NUMERIC_DSCALE_MAX, NUMERIC_DSCALE_MASK.
      pose proof (Z.mod_pos_bound (dscale var) (2 ^ 14) ltac:(done)).
      destruct (Z.leb_spec (dscale var) 16383); apply Z.eqb_eq || apply Z.eqb_neq; [|lia]. apply Z.mod_small. lia. }
    rewrite Hw16, Hd14.
    destruct (Z.leb_spec (dscale var) NUMERIC_DSCALE_MAX), (Z.leb_spec (-32768) w'), (Z.leb_spec w' 32767); cbn [andb negb orb] in *; try done.
    zbool. eexists. split; [done|]. rewrite Hw16, Hd14 in R. by destruct R; split.
Qed.

(** ** The numbers that can be stored *)

Definition dec_fits (m s : Z) : Prop := s <= NUMERIC_DSCALE_MAX /\ Z.abs m < 10 ^ (4 * 32768 + s).

Lemma abs_value_denotes k var m s : var_ok var -> covers k var -> s <= 4 * k -> denotes var m s -> abs_value k var = Z.abs m * 10 ^ (4 * k - s).
Proof.
  intros V C Hk D. specialize (D k C Hk). pose proof (svalue_abs k var) as E. rewrite D, Z.abs_mul in E.
  pose proof (pv_nonneg k _ (weight var) (vo_digits _ V)). fold (abs_value k var) in *.
  pose proof (ten_pos (4 * k - s) ltac:(lia)). rewrite (Z.abs_eq (10 ^ _)) in E by lia. lia.
Qed.

(** The weight of a number. *)
Lemma weight_bound var m s W :
  var_ok var -> stripped var -> digits var <> [] -> denotes var m s -> 0 <= 4 * (W + 1) + s ->
  weight var <= W <-> Z.abs m < 10 ^ (4 * (W + 1) + s).
Proof.
  intros V St Hne D HW. set (k := Z.max (unit_for var s) (Z.max (- W) (- weight var))).
  assert (C : covers k var) by (apply (unit_covers _ s); lia). assert (Hk : s <= 4 * k) by (apply (unit_scale var); lia).
  pose proof (abs_value_denotes k var m s V C Hk D) as E.
  pose proof (pv_lead k _ (weight var) (vo_digits _ V) (st_lead _ St) Hne) as Hlo.
  pose proof (pv_bound k _ _ (vo_digits _ V) C ltac:(lia)) as Hhi. fold (abs_value k var) in Hlo, Hhi. rewrite E in Hlo, Hhi.
  pose proof (ten_pos (4 * k - s) ltac:(lia)) as Hp.
  assert (EW : NBASE ^ (k + W + 1) = 10 ^ (4 * (W + 1) + s) * 10 ^ (4 * k - s)).
  { rewrite <- pow10_NBASE, <- Z.pow_add_r by lia. f_equal. lia. }
  split; intros H.
  - assert (NBASE ^ (k + weight var + 1) <= NBASE ^ (k + W + 1)) by (apply NBASE_mono; lia). nia.
  - destruct (Z.le_gt_cases (weight var) W) as [|Hgt]; [done|exfalso].
    assert (NBASE ^ (k + W + 1) <= NBASE ^ (k + weight var)) by (apply NBASE_mono; lia). nia.
Qed.

Lemma weight_low var m s :
  var_ok var -> stripped var -> digits var <> [] -> denotes var m s -> 0 <= s -> - s <= 4 * (weight var + 1).
Proof.
  intros V St Hne D Hs. destruct (Z.le_gt_cases (- s) (4 * (weight var + 1))) as [|Hgt]; [done|exfalso].
  set (k := Z.max (unit_for var s) (- weight var)).
  assert (C : covers k var) by (apply (unit_covers _ s); lia). assert (Hk : s <= 4 * k) by (apply (unit_scale var); lia).
  pose proof (abs_value_denotes k var m s V C Hk D) as E.
  pose proof (abs_value_pos k var V C (st_lead _ St) Hne) as Hpos.
  pose proof (pv_bound k _ _ (vo_digits _ V) C ltac:(lia)) as Hhi. fold (abs_value k var) in Hhi. rewrite E in Hpos, Hhi.
  pose proof (ten_pos (4 * k - s) ltac:(lia)) as Hp. rewrite <- pow10_NBASE in Hhi by lia.
  assert (10 ^ (4 * (k + weight var + 1)) <= 10 ^ (4 * k - s)) by (apply Z.pow_le_mono_r; lia).
  assert (1 <= Z.abs m) by (destruct (Z.eqb_spec m 0) as [-> |]; lia). nia.
Qed.

Lemma storable_dec var m s :
  var_ok var -> denotes var m s -> dscale var = s -> 0 <= s -> storable var = true <-> dec_fits m s.
Proof.
  intros V D Hds Hs. unfold storable, dec_fits. rewrite Hds.
  pose proof (strip_var_ok _ V) as V'. pose proof (strip_var_stripped var) as St.
  assert (D' : denotes (strip_var var) m s) by by apply strip_var_denotes.
  rewrite !andb_true_iff, !Z.leb_le.
  destruct (decide (digits (strip_var var) = [])) as [En|Hne].
  - destruct (st_zero _ St En) as [-> _]. rewrite (denotes_nil _ _ _ En D'). cbn [Z.abs].
    pose proof (ten_pos (4 * 32768 + s) ltac:(lia)). lia.
  - pose proof (weight_bound _ m s 32767 V' St Hne D' ltac:(lia)) as Hw. change (4 * (32767 + 1)) with (4 * 32768) in Hw.
    pose proof (weight_low _ m s V' St Hne D' Hs). unfold NUMERIC_DSCALE_MAX, NUMERIC_DSCALE_MASK in *. intuition lia.
Qed.

Lemma small_digits var m s :
  var_ok var -> stripped var -> denotes var m s -> s <= NUMERIC_DSCALE_MAX -> weight var <= 32767 -> small (digits var).
Proof.
  intros V St D Hs Hw. unfold small. destruct (decide (digits var = [])) as [->|Hne]; [done|].
  pose proof (denotes_digits var m s V St Hne D). unfold nb_rscale, ndigits, NUMERIC_DSCALE_MAX, NUMERIC_DSCALE_MASK in *. lia.
Qed.

(** [make_result] stores the number, or the number does not fit. *)
Lemma make_result_dec var m s :
  var_ok var -> denotes var m s -> dscale var = s -> 0 <= s ->
  (dec_fits m s /\ exists num, make_result_opt_error var = Some num /\ numeric_is num (Fin m s) /\ canonical num) \/
  (~ dec_fits m s /\ make_result_opt_error var = None).
Proof.
  intros V D Hds Hs. pose proof (storable_dec var m s V D Hds Hs) as Hst.
  pose proof (make_result_var var V ltac:(lia)) as H. destruct (storable var) eqn:E; [left|right].
  2:{ split; [|done]. intros Hf. apply Hst in Hf. done. }
  split; [by apply Hst|]. destruct H as (num & En & R). exists num. split; [done|].
  unfold storable in E. zbool. unfold packs in R.
  assert (D' : denotes (strip_var var) m s) by by apply strip_var_denotes.
  pose proof (strip_var_ok _ V) as V'. pose proof (strip_var_stripped var) as St.
  pose proof (small_digits _ m s V' St D' ltac:(lia) ltac:(lia)) as Hsm.
  destruct R as [R1 R2 R3 R4 R5 R6 R7]. cbn [with_dscale digits weight dscale sign] in *.
  destruct (R7 (vo_digits _ V') Hsm) as (Hsz & Hhs & Hnd & Hinit).
  split; [|unfold canonical; by rewrite R1, R4, R5]. cbn [numeric_is]. split_and!.
  - split; [done|done|done|rewrite Hinit..].
    + split; apply V'.
    + destruct St. by split.
  - by rewrite R4.
  - rewrite Hinit. exact D'.
Qed.

Lemma make_nan_is : exists num, make_nan = Ok num /\ numeric_is num NaN.
Proof. eexists. split; [reflexivity|]. reflexivity. Qed.

(** A packed value denotes one number. *)
Lemma numeric_is_unique num d d' : numeric_is num d -> numeric_is num d' -> d = d'.
Proof.
  destruct d as [|m s], d' as [|m' s']; cbn; [done| | |].
  - intros H1 [[] _]. congruence.
  - intros [[] _] H1. congruence.
  - intros (_ & <- & D) (_ & <- & D'). by rewrite (denotes_unique _ _ _ _ D D').
Qed.

Lemma numeric_is_scale num m s : numeric_is num (Fin m s) -> 0 <= s <= NUMERIC_DSCALE_MAX.
Proof. intros (_ & <- & _). apply dscale_range. Qed.

(** ** One packed form for each number *)

Lemma no_lead_rev_tail d ds : no_lead (rev (d :: ds)) -> no_lead (rev ds).
Proof. cbn [rev]. by destruct (rev ds). Qed.

Lemma pv_inj k ds1 ds2 w :
  Forall is_digit ds1 -> Forall is_digit ds2 -> fits k ds1 w -> fits k ds2 w -> no_lead (rev ds1) -> no_lead (rev ds2) ->
  pv k ds1 w = pv k ds2 w -> ds1 = ds2.
Proof.
  assert (Hnil : forall ds w, Forall is_digit ds -> fits k ds w -> no_lead (rev ds) -> pv k ds w = 0 -> ds = []).
  { intros ds. induction ds as [|d ds IH]; intros w' Hd Hf Ht Hv; [done|exfalso]. cbn [pv] in Hv.
    inversion Hd as [|?? [Hd1 _] Hd2]; subst. unfold fits in *. cbn [length] in Hf.
    pose proof (pv_nonneg k ds (w' - 1) Hd2). pose proof (NBASE_pos (k + w') ltac:(lia)).
    assert (d = 0) as -> by nia.
    rewrite (IH (w' - 1)) in Ht; [done|done|lia|by eapply no_lead_rev_tail|lia]. }
  intros H1. revert ds2 w. induction H1 as [|d1 ds1 Hd1 H1 IH]; intros ds2 w H2 F1 F2 T1 T2 E.
  { symmetry. eapply (Hnil _ w); try done. }
  destruct H2 as [|d2 ds2 Hd2 H2]; [by eapply (Hnil _ w); [constructor|..]|].
  pose proof (fits_tail _ _ _ _ F1) as G1. pose proof (fits_tail _ _ _ _ F2) as G2.
  unfold fits in F1, F2. cbn [length] in F1, F2. cbn [pv] in E.
  pose proof (pv_nonneg k ds1 (w - 1) H1). pose proof (pv_bound k ds1 (w - 1) H1 G1 ltac:(lia)).
  pose proof (pv_nonneg k ds2 (w - 1) H2). pose proof (pv_bound k ds2 (w - 1) H2 G2 ltac:(lia)).
  replace (k + (w - 1) + 1) with (k + w) in * by lia.
  assert (d1 = d2) as -> by nia. f_equal. apply (IH ds2 (w - 1)); try done; [by eapply no_lead_rev_tail..|lia].
Qed.

(** Variables without zeroes at the ends that denote the same number are the
    same, up to the scale. *)
Lemma stripped_unique var1 var2 m1 m2 s1 s2 :
  var_ok var1 -> var_ok var2 -> stripped var1 -> stripped var2 -> denotes var1 m1 s1 -> denotes var2 m2 s2 ->
  0 <= s1 -> 0 <= s2 -> m1 * 10 ^ s2 = m2 * 10 ^ s1 ->
  digits var1 = digits var2 /\ weight var1 = weight var2 /\ sign var1 = sign var2.
Proof.
  intros V1 V2 St1 St2 D1 D2 H1 H2 E.
  set (k := Z.max (unit_for var1 (s1 + s2)) (Z.max (unit_for var2 (s1 + s2)) (Z.max (- weight var1) (- weight var2)))).
  assert (C1 : covers k var1) by (apply (unit_covers _ (s1 + s2)); lia). assert (C2 : covers k var2) by (apply (unit_covers _ (s1 + s2)); lia).
  assert (Hk : s1 + s2 <= 4 * k) by (apply (unit_scale var1); lia).
  assert (Ev : svalue k var1 = svalue k var2).
  { rewrite (D1 k C1 ltac:(lia)), (D2 k C2 ltac:(lia)).
    replace (4 * k - s1) with (s2 + (4 * k - (s1 + s2))) by lia. replace (4 * k - s2) with (s1 + (4 * k - (s1 + s2))) by lia.
    rewrite !Z.pow_add_r by lia. rewrite !Z.mul_assoc, E. done. }
  pose proof (pv_nonneg k _ (weight var1) (vo_digits _ V1)) as N1. pose proof (pv_nonneg k _ (weight var2) (vo_digits _ V2)) as N2.
  fold (abs_value k var1) in N1. fold (abs_value k var2) in N2.
  pose proof (abs_value_pos k var1 V1 C1 (st_lead _ St1)) as P1. pose proof (abs_value_pos k var2 V2 C2 (st_lead _ St2)) as P2.
  assert (Ea : abs_value k var1 = abs_value k var2) by (pose proof (svalue_abs k var1); pose proof (svalue_abs k var2); rewrite Ev in *; lia).
  destruct (decide (digits var1 = [])) as [Z1|Z1], (decide (digits var2 = [])) as [Z2|Z2].
  - destruct (st_zero _ St1 Z1), (st_zero _ St2 Z2). split_and!; congruence.
  - specialize (P2 Z2). rewrite (abs_value_nil k var1 Z1) in Ea. lia.
  - specialize (P1 Z1). rewrite (abs_value_nil k var2 Z2) in Ea. lia.
  - specialize (P1 Z1). specialize (P2 Z2).
    pose proof (pv_lead k _ (weight var1) (vo_digits _ V1) (st_lead _ St1) Z1) as Lo1.
    pose proof (pv_lead k _ (weight var2) (vo_digits _ V2) (st_lead _ St2) Z2) as Lo2.
    pose proof (pv_bound k _ _ (vo_digits _ V1) C1 ltac:(lia)) as Hi1. pose proof (pv_bound k _ _ (vo_digits _ V2) C2 ltac:(lia)) as Hi2.
    fold (abs_value k var1) in Lo1, Hi1. fold (abs_value k var2) in Lo2, Hi2.
    assert (Hw : weight var1 = weight var2).
    { destruct (Z.lt_trichotomy (weight var1) (weight var2)) as [Hlt|[?|Hlt]]; [exfalso|done|exfalso].
      - pose proof (NBASE_mono (k + weight var1 + 1) (k + weight var2) ltac:(lia)). lia.
      - pose proof (NBASE_mono (k + weight var2 + 1) (k + weight var1) ltac:(lia)). lia. }
    split_and!; [|done|].
    + unfold abs_value in Ea. rewrite Hw in Ea. unfold covers in C1. rewrite Hw in C1.
      eapply (pv_inj k _ _ (weight var2)); [apply V1|apply V2|done|done|apply St1|apply St2|done].
    + unfold svalue, sgn in Ev. rewrite Ea in Ev.
      destruct (vo_sign _ V1) as [E1|E1], (vo_sign _ V2) as [E2|E2]; rewrite E1, E2 in *; cbn in Ev; lia || done.
Qed.

(** ** Checking what a packed value denotes *)

Definition no_leadb (ds : list Z) : bool := match ds with d :: _ => negb (d =? 0) | [] => true end.

Definition numeric_check (num : Numeric) (m s k : Z) : bool :=
  let v := init_var_from_num num in
  (VARSIZE_4B num =? Z.of_nat (length num)) && (0 <=? n_header num) && (n_header num <? 65536) &&
  (NUMERIC_HEADER_SIZE num <=? Z.of_nat (length num)) && negb (NUMERIC_IS_NAN num) &&
  forallb (fun d => (0 <=? d) && (d <? NBASE)) (digits v) && ((sign v =? NUMERIC_POS) || (sign v =? NUMERIC_NEG)) &&
  no_leadb (digits v) && no_leadb (rev (digits v)) &&
  (negb (Nat.eqb (length (digits v)) 0) || ((weight v =? 0) && (sign v =? NUMERIC_POS))) &&
  (NUMERIC_DSCALE num =? s) && (s <=? 4 * k) && (Z.of_nat (length (digits v)) <=? k + weight v + 1) &&
  (svalue k v =? m * 10 ^ (4 * k - s)).

Lemma no_leadb_ok ds : no_leadb ds = true -> no_lead ds.
Proof. destruct ds as [|d ds]; [done|]. cbn. by destruct (Z.eqb_spec d 0). Qed.

Lemma numeric_check_is num m s k : numeric_check num m s k = true -> numeric_is num (Fin m s).
Proof.
  unfold numeric_check. cbv zeta. set (v := init_var_from_num num). rewrite !andb_true_iff.
  intros [[[[[[[[[[[[[H1 H2] H3] H4] H5] H6] H7] H8] H9] H10] H11] H12] H13] H14].
  apply negb_true_iff in H5. apply no_leadb_ok in H8, H9. rewrite forallb_forall in H6. zbool.
  split_and!; [|done|by apply (denotes_at k)]. split; [done|lia|done|split|split]; try done.
  - apply List.Forall_forall. intros d Hd. specialize (H6 d Hd). apply andb_true_iff in H6 as [Ha Hb]. zbool. done.
  - apply orb_true_iff in H7 as [H7|H7]; zbool; auto.
  - intros E. fold v in E. rewrite E in H10. cbn in H10. apply andb_true_iff in H10 as [Ha Hb]. zbool. done.
Qed.

(** 123.45 and -0.50, in short form. *)
Definition num_123_45 : Numeric := pack (le_bytes 2 (short_form_header NUMERIC_POS 2 0)) [123; 4500].
Definition num_neg_half : Numeric := pack (le_bytes 2 (short_form_header NUMERIC_NEG 2 (-1))) [5000].

Lemma num_123_45_is : numeric_is num_123_45 (Fin 12345 2).
Proof. apply (numeric_check_is _ _ _ 1). by vm_compute. Qed.

Lemma num_neg_half_is : numeric_is num_neg_half (Fin (-50) 2).
Proof. apply (numeric_check_is _ _ _ 1). by vm_compute. Qed.
