(* ===== verification/NumericTheorems.v ===== *)
(** * Theorems on numeric

    The functions of numeric.c on packed values, against decimal numbers:
    [Fin m s] is [m * 10^(-s)], with [s] decimals.  Comparison, arithmetic,
    rounding, hashing, sign, type modifiers and casts of integers. *)

From S2P Require Import Prelude Varlena Hashfn Numeric NumericValue NumericRound NumericStore.

(** ** Specification *)

(** NaN is equal to itself and greater than the numbers. *)
Definition dec_compare (d1 d2 : Dec) : Z :=
  match d1, d2 with
  | NaN, NaN => 0
  | NaN, Fin _ _ => 1
  | Fin _ _, NaN => -1
  | Fin m1 s1, Fin m2 s2 => Z.sgn (m1 * 10 ^ s2 - m2 * 10 ^ s1)
  end.


Definition dec_lift (f : Z -> Z -> Dec) (d : Dec) : Dec := match d with Fin m s => f m s | NaN => NaN end.



(** [m * 10^(-s)] rounded to [r] decimals (half away from zero), and cut, as
    multiples of [10^(-r)]. *)
Definition rounded_at (m s r : Z) : Z :=
  if s <=? r then m * 10 ^ (r - s) else Z.sgn m * round_half (Z.abs m) (10 ^ (s - r)).

Definition cut_at (m s r : Z) : Z :=
  if s <=? r then m * 10 ^ (r - s) else Z.quot m (10 ^ (s - r)).


(** No decimals when the scale is negative. *)
Definition with_scale (f : Z -> Z -> Z -> Z) (scale : Z) : Dec -> Dec :=
  dec_lift (fun m s =>
    let r := limit_scale scale in
    if r <? 0 then Fin (f m s r * 10 ^ (- r)) 0 else Fin (f m s r) r).

Definition dec_round : Z -> Dec -> Dec := with_scale rounded_at.
Definition dec_trunc : Z -> Dec -> Dec := with_scale cut_at.
Definition dec_ceil : Dec -> Dec := dec_lift (fun m s => Fin (- (- m / 10 ^ s)) 0).
Definition dec_floor : Dec -> Dec := dec_lift (fun m s => Fin (m / 10 ^ s) 0).

(** The function returns the number, unless it does not fit. *)
Definition returns (r : result Numeric) (d : Dec) : Prop :=
  match d with
  | NaN => exists num, r = Ok num /\ numeric_is num NaN
  | Fin m s =>
      (dec_fits m s /\ exists num, r = Ok num /\ numeric_is num (Fin m s) /\ canonical num) \/
      (~ dec_fits m s /\ r = value_overflows)
  end.

(** ** Lemmas *)

Lemma make_result_returns var m s :
  var_ok var -> denotes var m s -> dscale var = s -> 0 <= s -> returns (make_result var) (Fin m s).
Proof.
  intros V D Hs H0. unfold make_result. destruct (make_result_dec var m s V D Hs H0) as [(Hf & num & -> & Hn)|(Hf & ->)].
  - left. eauto.
  - by right.
Qed.

Lemma make_nan_returns : returns make_nan NaN.
Proof. exact make_nan_is. Qed.

Lemma numeric_is_NaN num d : numeric_is num d -> NUMERIC_IS_NAN num = match d with NaN => true | _ => false end.
Proof. destruct d; cbn; [done|]. by intros ([] & _). Qed.

(** A unit that covers two values. *)
Lemma common_unit var1 var2 s1 s2 :
  exists k, 0 <= k /\ covers k var1 /\ covers k var2 /\ s1 <= 4 * k /\ s2 <= 4 * k.
Proof.
  exists (Z.max (unit_for var1 s1) (unit_for var2 s2)). split_and!.
  - apply (unit_nonneg var1 s1). lia.
  - apply (unit_covers _ s1). lia.
  - apply (unit_covers _ s2). lia.
  - apply (unit_scale var1). lia.
  - apply (unit_scale var2). lia.
Qed.

Lemma pow10_join a b c : a <= b -> b <= c -> 10 ^ (b - a) * 10 ^ (c - b) = 10 ^ (c - a).
Proof. intros. rewrite <- Z.pow_add_r by lia. f_equal. lia. Qed.

(** Addition and subtraction of variables. *)
Lemma linear_denotes (op : NumericVar -> NumericVar -> NumericVar) (f : Z -> Z -> Z) var1 var2 m1 m2 s1 s2 :
  (forall k, covers k var1 -> covers k var2 ->
     computes k (op var1 var2) (Z.max (dscale var1) (dscale var2)) (f (svalue k var1) (svalue k var2))) ->
  (forall a b c, f (a * c) (b * c) = f a b * c) ->
  denotes var1 m1 s1 -> denotes var2 m2 s2 -> dscale var1 = s1 -> dscale var2 = s2 -> 0 <= s1 -> 0 <= s2 ->
  let s := Z.max s1 s2 in
  var_ok (op var1 var2) /\ stripped (op var1 var2) /\ dscale (op var1 var2) = s /\
  denotes (op var1 var2) (f (m1 * 10 ^ (s - s1)) (m2 * 10 ^ (s - s2))) s.
Proof.
  intros Hop Hf D1 D2 E1 E2 H1 H2 s. destruct (common_unit var1 var2 s1 s2) as (k0 & Hk0 & C1 & C2 & _).
  destruct (Hop k0 C1 C2) as [V St Hs _]. split_and!; [done|done|by rewrite Hs, E1, E2|].
  set (k := Z.max k0 (Z.max (unit_for var1 s1) (Z.max (unit_for var2 s2) (unit_for (op var1 var2) s)))).
  assert (C1' : covers k var1) by (apply (unit_covers _ s1); lia). assert (C2' : covers k var2) by (apply (unit_covers _ s2); lia).
  assert (Hk1 : s1 <= 4 * k) by (apply (unit_scale var1); lia). assert (Hk2 : s2 <= 4 * k) by (apply (unit_scale var2); lia).
  apply (denotes_at k); [apply (unit_covers _ s); lia|lia|].
  rewrite (cp_value _ _ _ _ (Hop k C1' C2')), (D1 k C1' Hk1), (D2 k C2' Hk2).
  rewrite <- (pow10_join s1 s (4 * k)), <- (pow10_join s2 s (4 * k)) by lia. rewrite !Z.mul_assoc. apply Hf.
Qed.

(** Rounding of variables. *)
Lemma round_pow m s r k :
  s <= 4 * k -> r <= 4 * k ->
  Z.sgn m * (round_half (Z.abs m * 10 ^ (4 * k - s)) (10 ^ (4 * k - r)) * 10 ^ (4 * k - r)) = rounded_at m s r * 10 ^ (4 * k - r).
Proof.
  intros Hs Hr. pose proof (ten_pos (4 * k - r) ltac:(lia)) as Hp. pose proof (ten_pos (4 * k - s) ltac:(lia)) as Hq.
  unfold rounded_at. destruct (Z.leb_spec s r).
  - rewrite <- (pow10_join s r (4 * k)), (Z.mul_assoc (Z.abs m)), round_half_exact by lia. pose proof (Z.sgn_abs m). nia.
  - rewrite <- (pow10_join r s (4 * k)) by lia. set (p := 10 ^ (4 * k - s)) in *. set (u := 10 ^ (s - r)).
    assert (Hu : 0 < u) by (apply ten_pos; lia). unfold round_half.
    replace (2 * (Z.abs m * p) + u * p) with ((2 * Z.abs m + u) * p) by lia.
    replace (2 * (u * p)) with (2 * u * p) by lia. rewrite Z.div_mul_cancel_r by lia. lia.
Qed.

Lemma cut_pow m s r k :
  s <= 4 * k -> r <= 4 * k ->
  Z.sgn m * (Z.abs m * 10 ^ (4 * k - s) / 10 ^ (4 * k - r) * 10 ^ (4 * k - r)) = cut_at m s r * 10 ^ (4 * k - r).
Proof.
  intros Hs Hr. pose proof (ten_pos (4 * k - r) ltac:(lia)) as Hp. pose proof (ten_pos (4 * k - s) ltac:(lia)) as Hq.
  unfold cut_at. destruct (Z.leb_spec s r).
  - rewrite <- (pow10_join s r (4 * k)), (Z.mul_assoc (Z.abs m)), Z.div_mul by lia. pose proof (Z.sgn_abs m). nia.
  - rewrite <- (pow10_join r s (4 * k)) by lia. set (p := 10 ^ (4 * k - s)) in *. set (u := 10 ^ (s - r)).
    assert (Hu : 0 < u) by (apply ten_pos; lia). rewrite Z.div_mul_cancel_r by lia.
    rewrite <- (Z.quot_div_nonneg (Z.abs m)) by lia.
    replace (Z.quot m u) with (Z.sgn m * Z.quot (Z.abs m) u); [lia|].
    destruct (Z.sgn_spec m) as [[? ->]|[[? ->]|[? ->]]].
    + rewrite Z.abs_eq by lia. lia.
    + by subst m; rewrite Z.quot_0_l by lia.
    + rewrite Z.abs_neq, Z.quot_opp_l by lia. lia.
Qed.

(** The value of a variable whose absolute value changes. *)
Lemma signed_denotes var var' k m s m' r :
  var_ok var -> covers k var -> s <= 4 * k -> denotes var m s ->
  covers k var' -> r <= 4 * k -> abs_value k var' * Z.sgn m = m' * 10 ^ (4 * k - r) -> 0 <= abs_value k var' ->
  (m = 0 -> abs_value k var' = 0) ->
  sign var' = sign var \/ abs_value k var' = 0 -> denotes var' m' r.
Proof.
  intros V C Hk D C' Hr Hv Hnn Hz Hs. apply (denotes_at k); [done|done|]. rewrite <- Hv. unfold svalue.
  destruct (Z.eqb_spec (abs_value k var') 0) as [-> |Hne]; [lia|].
  destruct Hs as [Hs|?]; [|done]. specialize (D k C Hk). unfold svalue, sgn in *. rewrite Hs.
  pose proof (ten_pos (4 * k - s) ltac:(lia)) as Hp. pose proof (pv_nonneg k _ (weight var) (vo_digits _ V)) as Hnn'.
  fold (abs_value k var) in Hnn'. assert (m <> 0) by (intros ->; auto).
  destruct (Z.sgn_spec m) as [[? ->]|[[? ->]|[? ->]]]; [|lia|]; destruct (sign var =? NUMERIC_NEG); nia.
Qed.

Lemma round_var_nil var r :
  var_ok var -> digits var = [] -> exists var', round_var var r = Ok var' /\ var_ok var' /\ dscale var' = r /\ digits var' = [].
Proof.
  intros V En. unfold round_var, ndigits, DEC_DIGITS. rewrite En. cbn [length].
  set (di := (weight var + 1) * 4 + r). destruct (Z.ltb_spec di 0).
  - eexists. split; [done|]. split_and!; [split; cbn; auto|done..].
  - destruct (Z.ltb_spec ((di + 4 - 1) / 4) (Z.of_nat 0)); [zlia|]. cbn [orb]. rewrite Z.gtb_ltb.
    destruct (Z.eqb_spec ((di + 4 - 1) / 4) (Z.of_nat 0)), (Z.ltb_spec 0 (di mod 4)); cbn [andb]; [zlia|..];
      (eexists; split; [done|]; split_and!; [split; apply V|done..]).
Qed.

Lemma rounded_at_0 s r : rounded_at 0 s r = 0.
Proof. unfold rounded_at. by destruct (s <=? r). Qed.

Lemma round_var_denotes var m s r :
  var_ok var -> denotes var m s -> 0 < spare var \/ digits var = [] ->
  exists var', round_var var r = Ok var' /\ var_ok var' /\ dscale var' = r /\ denotes var' (rounded_at m s r) r.
Proof.
  intros V D [Hsp|Hn].
  2:{ destruct (round_var_nil var r V Hn) as (var' & E & V' & Hs & Hn'). exists var'. split_and!; [done..|].
      rewrite (denotes_nil var m s Hn D), rounded_at_0. intros k _ _. unfold svalue. rewrite abs_value_nil by done. lia. }
  destruct (common_unit var var s r) as (k & Hk & C & _ & H1 & H2).
  destruct (round_var_spec k r var V Hk C H2 Hsp) as (var' & E & R). exists var'.
  destruct R as [Rok Rds Rcov Rval Rsign _ _]. split_and!; [done..|].
  rewrite (abs_value_denotes k var m s V C H1 D) in Rval.
  apply (signed_denotes var var' k m s); try done.
  - rewrite Rval, Z.mul_comm. by apply round_pow.
  - apply pv_nonneg, Rok.
  - intros ->. rewrite Rval. cbn [Z.abs]. rewrite Z.mul_0_l, <- (Z.mul_0_l (10 ^ (4 * k - r))) at 1.
    rewrite round_half_exact by (apply ten_pos; lia). lia.
Qed.

Lemma trunc_var_denotes var m s r :
  var_ok var -> denotes var m s ->
  var_ok (trunc_var var r) /\ dscale (trunc_var var r) = r /\ denotes (trunc_var var r) (cut_at m s r) r.
Proof.
  intros V D. destruct (common_unit var var s r) as (k & Hk & C & _ & H1 & H2).
  destruct (trunc_var_spec k r var V Hk C H2) as [Tok Tds Tcov Tval Tsign]. split_and!; [done..|].
  rewrite (abs_value_denotes k var m s V C H1 D) in Tval.
  apply (signed_denotes var (trunc_var var r) k m s); try done.
  - rewrite Tval, Z.mul_comm. by apply cut_pow.
  - apply pv_nonneg, Tok.
  - intros ->. by rewrite Tval.
  - destruct Tsign as [?|[? _]]; [by left|right]. by apply abs_value_nil.
Qed.

(** ** Comparison *)

Lemma cmp_var_dec var1 var2 m1 m2 s1 s2 :
  var_ok var1 -> var_ok var2 -> no_lead (digits var1) -> no_lead (digits var2) ->
  denotes var1 m1 s1 -> denotes var2 m2 s2 -> 0 <= s1 -> 0 <= s2 ->
  cmp_var var1 var2 = Z.sgn (m1 * 10 ^ s2 - m2 * 10 ^ s1).
Proof.
  intros V1 V2 L1 L2 D1 D2 H1 H2. destruct (common_unit var1 var2 (s1 + s2) (s1 + s2)) as (k & Hk & C1 & C2 & Hk1 & _).
  rewrite (cmp_var_spec k) by done. rewrite (D1 k C1 ltac:(lia)), (D2 k C2 ltac:(lia)).
  rewrite <- (pow10_join s1 (s1 + s2) (4 * k)), <- (pow10_join s2 (s1 + s2) (4 * k)) by lia.
  replace (s1 + s2 - s1) with s2 by lia. replace (s1 + s2 - s2) with s1 by lia.
  pose proof (ten_pos (4 * k - (s1 + s2)) ltac:(lia)) as Hp. set (p := 10 ^ (4 * k - (s1 + s2))) in *.
  replace (m1 * (10 ^ s2 * p) - m2 * (10 ^ s1 * p)) with ((m1 * 10 ^ s2 - m2 * 10 ^ s1) * p) by lia.
  rewrite Z.sgn_mul, (Z.sgn_pos p) by done. lia.
Qed.

Lemma cmp_numerics_dec num1 num2 d1 d2 :
  numeric_is num1 d1 -> numeric_is num2 d2 -> cmp_numerics num1 num2 = dec_compare d1 d2.
Proof.
  intros N1 N2. unfold cmp_numerics. rewrite (numeric_is_NaN _ _ N1), (numeric_is_NaN _ _ N2).
  destruct d1 as [|m1 s1], d2 as [|m2 s2]; try done. cbn [dec_compare].
  pose proof (numeric_is_scale _ _ _ N1). pose proof (numeric_is_scale _ _ _ N2).
  destruct N1 as ([_ _ _ V1 St1] & _ & D1), N2 as ([_ _ _ V2 St2] & _ & D2).
  apply (cmp_var_dec (init_var_from_num num1) (init_var_from_num num2)); try done; try lia; by destruct St1, St2.
Qed.

Lemma numeric_eq_dec num1 num2 d1 d2 :
  numeric_is num1 d1 -> numeric_is num2 d2 -> numeric_eq num1 num2 = (dec_compare d1 d2 =? 0).
Proof. intros N1 N2. unfold numeric_eq. by rewrite (cmp_numerics_dec _ _ _ _ N1 N2). Qed.

(** C27: [cmp_numerics], and with it the comparison operators, compares the
    numbers that packed values denote, whatever their scales and storage
    formats; NaN is equal to itself and greater than every number.
    [numeric_larger] and [numeric_smaller] return an argument that is not less,
    or not greater, than the other. *)
Theorem numeric_cmp_correct num1 num2 d1 d2 :
  numeric_is num1 d1 -> numeric_is num2 d2 ->
  numeric_cmp num1 num2 = dec_compare d1 d2 /\
  numeric_eq num1 num2 = (dec_compare d1 d2 =? 0) /\ numeric_ne num1 num2 = negb (dec_compare d1 d2 =? 0) /\
  numeric_lt num1 num2 = (dec_compare d1 d2 <? 0) /\ numeric_le num1 num2 = (dec_compare d1 d2 <=? 0) /\
  numeric_gt num1 num2 = (dec_compare d1 d2 >? 0) /\ numeric_ge num1 num2 = (dec_compare d1 d2 >=? 0) /\
  numeric_is (numeric_larger num1 num2) (if dec_compare d1 d2 >? 0 then d1 else d2) /\
  numeric_is (numeric_smaller num1 num2) (if dec_compare d1 d2 <? 0 then d1 else d2).
Proof.
  intros N1 N2.
  pose proof (cmp_numerics_dec _ _ _ _ N1 N2) as E.
  unfold numeric_cmp, numeric_eq, numeric_ne, numeric_lt, numeric_le, numeric_gt, numeric_ge, numeric_larger, numeric_smaller.
  rewrite E. split_and!; try done; by destruct (dec_compare d1 d2).
Qed.

Lemma numeric_cmp_correct_witness :
  numeric_cmp num_neg_half num_123_45 = -1 /\ numeric_ge num_neg_half num_123_45 = false.
Proof.
  destruct (numeric_cmp_correct num_neg_half num_123_45 (Fin (-50) 2) (Fin 12345 2)) as (H1 & _ & _ & _ & _ & _ & H2 & _);
    [apply (numeric_check_is _ _ _ 1); vm_compute; reflexivity..|].
  split; [exact H1|exact H2].
Defined.

(** ** Arithmetic *)








(** ** Rounding *)

Lemma set_var_denotes num m s : denotes (init_var_from_num num) m s -> denotes (set_var_from_num num) m s.
Proof. done. Qed.

(** The scale of a result is not negative. *)
Lemma scale_returns var m r :
  var_ok var -> denotes var m r -> dscale var = r ->
  returns (make_result (if r <? 0 then with_dscale 0 var else var)) (if r <? 0 then Fin (m * 10 ^ (- r)) 0 else Fin m r).
Proof.
  intros V D E. destruct (Z.ltb_spec r 0).
  - apply make_result_returns; [split; apply V| |done..].
    pose proof (denotes_rescale var m r 0 ltac:(lia) D) as D'. rewrite Z.sub_0_l in D'. exact D'.
  - by apply make_result_returns.
Qed.

Lemma lift_NaN num d f (r : result Numeric) :
  numeric_is num d -> (NUMERIC_IS_NAN num = true -> r = make_nan) ->
  (forall m s, numeric_is num (Fin m s) -> returns r (f m s)) -> returns r (dec_lift f d).
Proof.
  intros N Hnan Hfin. rewrite (numeric_is_NaN _ _ N) in Hnan.
  destruct d; cbn [dec_lift]; [|by apply Hfin]. rewrite Hnan by done. apply make_nan_returns.
Qed.

Lemma numeric_round_returns num d scale : numeric_is num d -> returns (numeric_round num scale) (dec_round scale d).
Proof.
  intros N. apply (lift_NaN num); [done|unfold numeric_round; by intros ->|]. clear N. intros m s N.
  unfold numeric_round. rewrite (numeric_is_NaN _ _ N). destruct N as ([_ _ _ V St] & E & D). cbv zeta.
  destruct (round_var_denotes (set_var_from_num num) m s (limit_scale scale)) as (var & -> & V' & E' & D');
    [split; apply V|done|by left|]. cbn. by apply scale_returns.
Qed.

Lemma numeric_trunc_returns num d scale : numeric_is num d -> returns (numeric_trunc num scale) (dec_trunc scale d).
Proof.
  intros N. apply (lift_NaN num); [done|unfold numeric_trunc; by intros ->|]. clear N. intros m s N.
  unfold numeric_trunc. rewrite (numeric_is_NaN _ _ N). destruct N as ([_ _ _ V St] & E & D). cbv zeta.
  destruct (trunc_var_denotes (set_var_from_num num) m s (limit_scale scale)) as (V' & E' & D'); [split; apply V|done|].
  by apply scale_returns.
Qed.

Lemma const_one_ok : var_ok const_one /\ led const_one /\ denotes const_one 1 0.
Proof.
  split_and!; [split; cbn; [constructor; [unfold is_digit, NBASE; lia|done]|auto]|by split|].
  apply (denotes_at 0); [unfold covers, fits; cbn; lia|lia|done].
Qed.

(** The integer part of a value, ready to be incremented. *)
Lemma integer_part num m s (tmp := trunc_var (set_var_from_var (init_var_from_num num)) 0) :
  numeric_is num (Fin m s) ->
  var_ok tmp /\ led tmp /\ dscale tmp = 0 /\ denotes tmp (Z.quot m (10 ^ s)) 0 /\
  cmp_var (init_var_from_num num) tmp = Z.sgn (m - Z.quot m (10 ^ s) * 10 ^ s).
Proof.
  intros N. pose proof (numeric_is_scale _ _ _ N) as Hs. destruct N as ([_ _ _ V St] & E & D). set (v := init_var_from_num num) in *.
  destruct (trunc_var_denotes (set_var_from_var v) m s 0) as (V' & E' & D'); [split; apply V|done|]. fold tmp in V', E', D'.
  assert (Hl : led tmp) by (apply trunc_var_led; destruct (stripped_led _ St); by split).
  assert (Ec : cut_at m s 0 = Z.quot m (10 ^ s)).
  { unfold cut_at. destruct (Z.leb_spec s 0); [|by rewrite Z.sub_0_r]. replace s with 0 by lia. cbn. by rewrite Z.mul_1_r, Z.quot_1_r. }
  rewrite Ec in D'. split_and!; [done..|].
  rewrite (cmp_var_dec v tmp m (Z.quot m (10 ^ s)) s 0); try done; try lia; [apply St|apply Hl].
Qed.

Lemma denotes_sign num m s : numeric_is num (Fin m s) -> if NUMERIC_SIGN num =? NUMERIC_NEG then m < 0 else 0 <= m.
Proof.
  intros N. pose proof (numeric_is_scale _ _ _ N) as Hs. destruct N as ([_ _ _ V St] & E & D). set (v := init_var_from_num num) in *.
  destruct (common_unit v v s s) as (k & Hk & C & _ & H1 & _). specialize (D k C H1).
  pose proof (ten_pos (4 * k - s) ltac:(lia)) as Hp. pose proof (neg_nonzero k v V (stripped_led _ St) C) as Hn.
  pose proof (pv_nonneg k _ (weight v) (vo_digits _ V)) as Hnn. fold (abs_value k v) in Hnn.
  unfold svalue, sgn in D. change (sign v) with (NUMERIC_SIGN num) in *.
  destruct (Z.eqb_spec (NUMERIC_SIGN num) NUMERIC_NEG) as [En|]; [specialize (Hn En)|]; nia.
Qed.

(** One step up or down from the integer part. *)
Lemma step_returns (op : NumericVar -> NumericVar -> NumericVar) (f : Z -> Z -> Z) tmp q (b : bool) :
  (forall k, covers k tmp -> covers k const_one ->
     computes k (op tmp const_one) (Z.max (dscale tmp) (dscale const_one)) (f (svalue k tmp) (svalue k const_one))) ->
  (forall a b c, f (a * c) (b * c) = f a b * c) ->
  var_ok tmp -> dscale tmp = 0 -> denotes tmp q 0 ->
  returns (make_result (set_var_from_var (if b then op tmp const_one else tmp))) (Fin (if b then f q 1 else q) 0).
Proof.
  intros Hop Hf V Hds D. destruct const_one_ok as (V1 & _ & D1). destruct b.
  - destruct (linear_denotes op f tmp const_one q 1 0 0) as (V' & _ & E & D'); try done.
    cbn in D'. rewrite !Z.mul_1_r in D'. apply make_result_returns; [split; apply V'|done..].
  - apply make_result_returns; [split; apply V|done..].
Qed.

Lemma ceil_div m p : 0 < p -> - (- m / p) = m / p + (if m mod p =? 0 then 0 else 1).
Proof.
  intros Hp. pose proof (Z.div_mod m p ltac:(lia)). pose proof (Z.mod_pos_bound m p Hp).
  destruct (Z.eqb_spec (m mod p) 0).
  - replace (- m) with (- (m / p) * p) by lia. rewrite Z.div_mul by lia. lia.
  - rewrite <- (Z.div_unique (- m) p (- (m / p) - 1) (p - m mod p)); lia.
Qed.

(** The integer part in terms of [floor], by sign. *)
Lemma quot_pos m p : 0 <= m -> 0 < p -> Z.quot m p = m / p /\ m - Z.quot m p * p = m mod p.
Proof. intros. rewrite Z.quot_div_nonneg by lia. split; [done|]. pose proof (Z.div_mod m p ltac:(lia)). lia. Qed.

Lemma quot_neg m p : m < 0 -> 0 < p -> Z.quot m p = - (- m / p) /\ (m - Z.quot m p * p = 0 <-> m mod p = 0).
Proof.
  intros. assert (E : Z.quot m p = - (- m / p)).
  { rewrite <- (Z.opp_involutive m) at 1. rewrite Z.quot_opp_l, Z.quot_div_nonneg by lia. done. }
  split; [done|]. rewrite E, ceil_div by lia. pose proof (Z.div_mod m p ltac:(lia)). pose proof (Z.mod_pos_bound m p ltac:(lia)).
  destruct (Z.eqb_spec (m mod p) 0); lia.
Qed.

Lemma sgn_eqb x : (Z.sgn x =? 0) = (x =? 0).
Proof. by destruct x. Qed.

Lemma numeric_ceil_returns num d : numeric_is num d -> returns (numeric_ceil num) (dec_ceil d).
Proof.
  intros N. apply (lift_NaN num); [done|unfold numeric_ceil; by intros ->|]. clear N. intros m s N.
  pose proof (numeric_is_scale _ _ _ N) as Hs. pose proof (denotes_sign _ _ _ N) as Hsg.
  unfold numeric_ceil. rewrite (numeric_is_NaN _ _ N). unfold ceil_var.
  destruct (integer_part num m s N) as (V & L & E & D & ->). pose proof (ten_pos s ltac:(lia)) as Hp.
  destruct const_one_ok as (V1 & L1 & _). rewrite sgn_eqb.
  eapply eq_ind; [apply (step_returns add_var Z.add _ (Z.quot m (10 ^ s))); try done; [|lia]|].
  { intros k C C1. by apply add_var_spec. }
  f_equal. change (sign (init_var_from_num num)) with (NUMERIC_SIGN num).
  destruct N as ([_ _ _ V0 _] & _ & _).
  destruct (vo_sign _ V0) as [Es|Es]; cbn in Es; rewrite Es in *; cbn [Z.eqb NUMERIC_POS NUMERIC_NEG andb] in *.
  - destruct (quot_pos m (10 ^ s) Hsg Hp) as [-> ->]. rewrite ceil_div by done. destruct (m mod 10 ^ s =? 0); cbn; lia.
  - by destruct (quot_neg m (10 ^ s) Hsg Hp) as [-> _].
Qed.

Lemma numeric_floor_returns num d : numeric_is num d -> returns (numeric_floor num) (dec_floor d).
Proof.
  intros N. apply (lift_NaN num); [done|unfold numeric_floor; by intros ->|]. clear N. intros m s N.
  pose proof (numeric_is_scale _ _ _ N) as Hs. pose proof (denotes_sign _ _ _ N) as Hsg.
  unfold numeric_floor. rewrite (numeric_is_NaN _ _ N). unfold floor_var.
  destruct (integer_part num m s N) as (V & L & E & D & ->). pose proof (ten_pos s ltac:(lia)) as Hp.
  destruct const_one_ok as (V1 & L1 & _). rewrite sgn_eqb.
  eapply eq_ind; [apply (step_returns sub_var Z.sub _ (Z.quot m (10 ^ s))); try done; [|lia]|].
  { intros k C C1. by apply sub_var_spec. }
  f_equal. change (sign (init_var_from_num num)) with (NUMERIC_SIGN num).
  destruct N as ([_ _ _ V0 _] & _ & _).
  destruct (vo_sign _ V0) as [Es|Es]; cbn in Es; rewrite Es in *; cbn [Z.eqb Pos.eqb NUMERIC_POS NUMERIC_NEG andb] in *.
  - by destruct (quot_pos m (10 ^ s) Hsg Hp) as [-> _].
  - destruct (quot_neg m (10 ^ s) Hsg Hp) as [-> Hz]. rewrite ceil_div in * by done.
    destruct (Z.eqb_spec (m mod 10 ^ s) 0), (Z.eqb_spec (m - (m / 10 ^ s + 0) * 10 ^ s) 0), (Z.eqb_spec (m - (m / 10 ^ s + 1) * 10 ^ s) 0); cbn [negb]; intuition lia.
Qed.

(** C30: rounding.  [round(x, n)] is the nearest number with [n] decimals (half
    away from zero), [trunc(x, n)] the number cut there, for [n] limited to
    +-2000; a negative [n] rounds before the decimal point, and the result then
    has scale 0.  [ceil] and [floor] are the least integer that is not less, and
    the greatest that is not greater.  The error is raised exactly when the
    number does not fit, and no digit buffer is overrun by the carry. *)
Theorem numeric_rounding_correct num d scale :
  numeric_is num d ->
  returns (numeric_round num scale) (dec_round scale d) /\
  returns (numeric_trunc num scale) (dec_trunc scale d) /\
  returns (numeric_ceil num) (dec_ceil d) /\ returns (numeric_floor num) (dec_floor d).
Proof.
  intros N. split_and!; [by apply numeric_round_returns|by apply numeric_trunc_returns|by apply numeric_ceil_returns|by apply numeric_floor_returns].
Qed.

Lemma numeric_rounding_correct_witness :
  returns (numeric_round num_123_45 1) (Fin 1235 1) /\ returns (numeric_floor num_123_45) (Fin 123 0).
Proof.
  destruct (numeric_rounding_correct num_123_45 (Fin 12345 2) 1) as (H1 & _ & _ & H2); [apply (numeric_check_is _ _ _ 1); vm_compute; reflexivity|].
  split; [exact H1|exact H2].
Defined.

(** ** Further theorems on numeric

    Type modifiers, conversions of integers, sign changes on the packed form,
    and hashing. *)

(** ** Hashing *)

Lemma strip_leading_led ds w : no_lead ds -> strip_leading ds w = (ds, w).
Proof. destruct ds as [|d ds]; [done|]. cbn. intros H. by destruct (Z.eqb_spec d 0). Qed.

Lemma drop_zeroes_led ds : no_lead ds -> drop_zeroes ds = ds.
Proof. destruct ds as [|d ds]; [done|]. cbn. intros H. by destruct (Z.eqb_spec d 0). Qed.

Lemma hash_digits_ok num : num_ok num -> hash_digits num = (NUMERIC_DIGITS num, NUMERIC_WEIGHT num).
Proof.
  intros [_ _ _ _ [Hl Ht _]]. cbn in Hl, Ht. unfold hash_digits. rewrite strip_leading_led by done.
  unfold strip_trailing. rewrite drop_zeroes_led by done. by rewrite rev_involutive.
Qed.

(** Hashing respects equality: two values that the [=] operator takes for
    equal, with whatever scales and storage formats, have the same hash, and the
    same extended hash for every seed. *)
Theorem numeric_hash_respects_eq aligned num1 num2 d1 d2 seed :
  numeric_is num1 d1 -> numeric_is num2 d2 -> numeric_eq num1 num2 = true ->
  hash_numeric aligned num1 = hash_numeric aligned num2 /\
  hash_numeric_extended aligned num1 seed = hash_numeric_extended aligned num2 seed.
Proof.
  intros N1 N2 E. rewrite (numeric_eq_dec _ _ _ _ N1 N2) in E. apply Z.eqb_eq in E.
  unfold hash_numeric, hash_numeric_extended. rewrite (numeric_is_NaN _ _ N1), (numeric_is_NaN _ _ N2).
  destruct d1 as [|m1 s1], d2 as [|m2 s2]; try done. cbn [dec_compare] in E. apply Z.sgn_null_iff in E.
  pose proof (numeric_is_scale _ _ _ N1). pose proof (numeric_is_scale _ _ _ N2).
  destruct N1 as (O1 & _ & D1), N2 as (O2 & _ & D2). rewrite (hash_digits_ok _ O1), (hash_digits_ok _ O2).
  destruct O1 as [_ _ _ V1 St1], O2 as [_ _ _ V2 St2].
  destruct (stripped_unique _ _ m1 m2 s1 s2 V1 V2 St1 St2 D1 D2) as (Ed & Ew & _); try lia.
  cbn in Ed, Ew. by rewrite Ed, Ew.
Qed.

(** 123.45 in long form, with three decimals. *)
Definition num_123_450 : Numeric := pack (le_bytes 2 (long_form_header NUMERIC_POS 3) ++ le_bytes 2 0) [123; 4500].

Lemma numeric_hash_respects_eq_witness : num_123_45 <> num_123_450 /\ hash_numeric true num_123_45 = hash_numeric true num_123_450.
Proof.
  split; [by vm_compute|].
  apply (numeric_hash_respects_eq true num_123_45 num_123_450 (Fin 12345 2) (Fin 123450 3) 0);
    [apply (numeric_check_is _ _ _ 1); vm_compute; reflexivity..|vm_compute; reflexivity].
Defined.

(** ** Changes of the header *)

(** The two flag bits. *)
Lemma land_flags h a : Z.land h (Z.shiftl a 14) = Z.shiftl (Z.land (h / 16384) a) 14.
Proof.
  change 16384 with (2 ^ 14). rewrite <- Z.shiftr_div_pow2 by lia. apply Z.bits_inj'. intros n Hn.
  rewrite Z.land_spec, !Z.shiftl_spec, Z.land_spec by lia.
  destruct (Z.ltb_spec (n - 14) 0) as [Hlt|]; [rewrite !(Z.testbit_neg_r _ (n - 14)) by lia; by rewrite andb_false_r|].
  rewrite Z.shiftr_spec by lia. by replace (n - 14 + 14) with n by lia.
Qed.

Lemma header_short h :
  0 <= h < 65536 -> (Z.land h NUMERIC_SIGN_MASK =? NUMERIC_NAN) = false ->
  bit_set h 0x8000 = (Z.land h NUMERIC_SIGN_MASK =? NUMERIC_SHORT).
Proof.
  intros Hh. unfold bit_set. change NUMERIC_SIGN_MASK with (Z.shiftl 3 14). change 0x8000 with (Z.shiftl 2 14). rewrite !land_flags.
  assert (Hq : h / 16384 = 0 \/ h / 16384 = 1 \/ h / 16384 = 2 \/ h / 16384 = 3) by zlia.
  by destruct Hq as [-> |[-> |[-> | ->]]].
Qed.

Lemma header_is_short h : 0 <= h < 65536 -> Z.land h NUMERIC_SIGN_MASK = NUMERIC_SHORT -> 32768 <= h < 49152.
Proof.
  intros Hh. change NUMERIC_SIGN_MASK with (Z.shiftl 3 14). rewrite land_flags.
  assert (Hq : h / 16384 = 0 \/ h / 16384 = 1 \/ h / 16384 = 2 \/ h / 16384 = 3) by zlia.
  intros E. destruct Hq as [Hq|[Hq|[Hq|Hq]]]; rewrite Hq in E; try done. zlia.
Qed.

(** A copy with another header in the same format. *)
Lemma with_header_reads num h s sc w :
  num_ok num -> 0 <= h < 65536 ->
  header_fields h = (false, NUMERIC_IS_SHORT num, NUMERIC_IS_SHORT num, s, sc, w) ->
  (NUMERIC_IS_SHORT num = true -> w = NUMERIC_WEIGHT num) ->
  let num' := with_header h num in
  VARSIZE_4B num' = Z.of_nat (length num') /\ NUMERIC_HEADER_SIZE num' <= Z.of_nat (length num') /\
  n_header num' = h /\ NUMERIC_IS_NAN num' = false /\ NUMERIC_IS_SHORT num' = NUMERIC_IS_SHORT num /\
  init_var_from_num num' = mkVar (NUMERIC_WEIGHT num) s sc 0 (NUMERIC_DIGITS num).
Proof.
  intros [Hsz [Hh Hhs] Hnan _ _] Hr Hf Hw num'.
  assert (Hlen : (6 <= length num)%nat) by (unfold NUMERIC_HEADER_SIZE, VARHDRSZ in Hhs; destruct (NUMERIC_HEADER_IS_SHORT num); lia).
  assert (Ebytes : bytes_at num 0 (VARSIZE_4B num) = num).
  { unfold bytes_at. rewrite Hsz, Nat2Z.id, drop_0. by rewrite take_ge. }
  destruct num as [|b0 [|b1 [|b2 [|b3 [|c0 [|c1 rest]]]]]]; cbn in Hlen; try lia.
  assert (Enum : num' = b0 :: b1 :: b2 :: b3 :: h mod 256 :: h / 256 mod 256 :: rest) by (subst num'; unfold with_header; by rewrite Ebytes).
  set (num := b0 :: b1 :: b2 :: b3 :: c0 :: c1 :: rest) in *.
  assert (Eh : n_header num' = h) by (rewrite Enum; change (h mod 256 + 256 * (h / 256 mod 256 + 256 * 0) = h); zlia).
  assert (Hfn : fields num' = (false, NUMERIC_IS_SHORT num, NUMERIC_IS_SHORT num, s, sc, w)) by (unfold fields; by rewrite Eh).
  destruct (fields_macros _ _ _ _ _ _ _ Hfn) as (M1 & M2 & M3 & M4 & M5 & M6).
  assert (Ehdr : NUMERIC_HEADER_IS_SHORT num = NUMERIC_IS_SHORT num).
  { clear - Hh Hnan. unfold NUMERIC_HEADER_IS_SHORT, NUMERIC_IS_SHORT, NUMERIC_IS_NAN, NUMERIC_FLAGBITS in *. by apply header_short. }
  assert (Ehs : NUMERIC_HEADER_SIZE num' = NUMERIC_HEADER_SIZE num) by (unfold NUMERIC_HEADER_SIZE; by rewrite M3, Ehdr).
  assert (Evs : VARSIZE_4B num' = VARSIZE_4B num) by by rewrite Enum.
  assert (El : length num' = length num) by by rewrite Enum.
  split_and!; [by rewrite Evs, El|by rewrite Ehs, El|done..|].
  unfold init_var_from_num. rewrite M4, M5, M6. f_equal.
  - unfold NUMERIC_WEIGHT at 1. rewrite Ehdr. destruct (NUMERIC_IS_SHORT num) eqn:Es.
    + rewrite Hw by done. unfold NUMERIC_WEIGHT. by rewrite Ehdr.
    + by rewrite Enum.
  - unfold NUMERIC_DIGITS, NUMERIC_NDIGITS. rewrite Ehs, Evs, Enum.
    assert (Hs : NUMERIC_HEADER_SIZE num = 6 \/ NUMERIC_HEADER_SIZE num = 8)
      by (unfold NUMERIC_HEADER_SIZE, VARHDRSZ; destruct (NUMERIC_HEADER_IS_SHORT num); auto).
    by destruct Hs as [-> | ->].
Qed.


(** Headers in short form are determined by their fields. *)
Lemma short_header_inv h nan hdr s sc w :
  0 <= h < 65536 -> header_fields h = (nan, true, hdr, s, sc, w) ->
  h = short_form_header s sc w /\ (s = NUMERIC_POS \/ s = NUMERIC_NEG) /\ 0 <= sc <= 63 /\ -64 <= w <= 63 /\
  Z.land h (Z.lnot NUMERIC_SHORT_SIGN_MASK) = short_form_header NUMERIC_POS sc w /\
  Z.lxor h NUMERIC_SHORT_SIGN_MASK = short_form_header (if s =? NUMERIC_POS then NUMERIC_NEG else NUMERIC_POS) sc w /\
  Z.land h (Z.lnot NUMERIC_SHORT_DSCALE_MASK) = short_form_header s 0 w.
Proof.
  intros Hh Hf.
  assert (Hr : 32768 <= h < 49152).
  { apply header_is_short; [done|]. unfold header_fields in Hf. injection Hf as _ Hs _ _ _ _. by apply Z.eqb_eq. }
  assert (H : forallb (fun h => let '(_, short, _, s, sc, w) := header_fields h in negb short ||
    ((h =? short_form_header s sc w) && ((s =? NUMERIC_POS) || (s =? NUMERIC_NEG)) && ((0 <=? sc) && (sc <=? 63)) && ((-64 <=? w) && (w <=? 63)) &&
     (Z.land h (Z.lnot NUMERIC_SHORT_SIGN_MASK) =? short_form_header NUMERIC_POS sc w) &&
     (Z.lxor h NUMERIC_SHORT_SIGN_MASK =? short_form_header (if s =? NUMERIC_POS then NUMERIC_NEG else NUMERIC_POS) sc w) &&
     (Z.land h (Z.lnot NUMERIC_SHORT_DSCALE_MASK) =? short_form_header s 0 w))) (zrange 32768 (Z.to_nat 16384)) = true) by (vm_compute; reflexivity).
  apply (forallb_zrange _ _ _ h) in H; [|lia]. cbv beta in H. rewrite Hf in H. cbn [negb orb] in H. zbool. split_and!; try done.
  match goal with H : _ || _ = true |- _ => apply orb_true_iff in H as [?|?] end; zbool; auto.
Qed.

Lemma short_header_scale s scale w :
  Z.lor (short_form_header s 0 w) (Z.shiftl scale NUMERIC_SHORT_DSCALE_SHIFT) = short_form_header s scale w.
Proof.
  unfold short_form_header. rewrite Z.shiftl_0_l, Z.lor_0_r.
  set (a := if s =? NUMERIC_NEG then _ else _). set (b := Z.shiftl scale _). set (c := if w <? 0 then _ else _). set (d := Z.land w _).
  apply Z.bits_inj'. intros n Hn. rewrite !Z.lor_spec. by destruct (Z.testbit a n), (Z.testbit b n), (Z.testbit c n), (Z.testbit d n).
Qed.

(** ** Sign *)

(** A copy with a header that has sign [s] and scale [sc]; the sign of zero is
    positive. *)
Lemma with_header_is num m s h sg sc :
  numeric_is num (Fin m s) -> 0 <= h < 65536 -> s <= sc ->
  (exists w, header_fields h = (false, NUMERIC_IS_SHORT num, NUMERIC_IS_SHORT num, sg, sc, w) /\
     (NUMERIC_IS_SHORT num = true -> w = NUMERIC_WEIGHT num)) ->
  sg = NUMERIC_POS \/ (sg = NUMERIC_NEG /\ m <> 0) ->
  numeric_is (with_header h num) (Fin ((if sg =? NUMERIC_NEG then -1 else 1) * Z.abs m * 10 ^ (sc - s)) sc) /\
  NUMERIC_IS_SHORT (with_header h num) = NUMERIC_IS_SHORT num /\ NUMERIC_WEIGHT (with_header h num) = NUMERIC_WEIGHT num.
Proof.
  intros N Hh Hsc (w & Hf & Hw) Hsg. pose proof (numeric_is_scale _ _ _ N) as Hs. destruct N as (O & E & D).
  destruct (with_header_reads num h sg sc w O Hh Hf Hw) as (R1 & R2 & R3 & R4 & R5 & R6).
  destruct O as [_ _ _ V St]. set (v := init_var_from_num num) in *.
  assert (Hz : digits v = [] -> m = 0) by (intros Hn; by apply (denotes_nil v m s)).
  split; [|split; [done|by injection R6]]. cbn [numeric_is]. split_and!.
  - split; [done|by rewrite R3|done|rewrite R6..].
    + split; [apply V|cbn; destruct Hsg as [?|[? _]]; auto].
    + destruct St as [Hl Ht Hz']. split; [done..|]. cbn. intros Hn. destruct (Hz' Hn) as [Hw0 _]. split; [exact Hw0|].
      destruct Hsg as [?|[_ Hm]]; [done|]. by destruct (Hm (Hz Hn)).
  - change (dscale (init_var_from_num (with_header h num)) = sc). by rewrite R6.
  - rewrite R6. destruct (common_unit v v s sc) as (k & Hk & C & _ & H1 & H2).
    apply (denotes_at k); [done|done|].
    pose proof (abs_value_denotes k v m s V C H1 D) as Ea. unfold svalue, sgn. cbn [sign].
    change (abs_value k (mkVar (NUMERIC_WEIGHT num) sg sc 0 (NUMERIC_DIGITS num))) with (abs_value k v). rewrite Ea.
    rewrite <- (pow10_join s sc (4 * k)) by lia. lia.
Qed.

(** The header of a value, in either form. *)
Lemma num_header num m s :
  numeric_is num (Fin m s) ->
  exists w, fields num = (false, NUMERIC_IS_SHORT num, NUMERIC_IS_SHORT num, NUMERIC_SIGN num, s, w) /\
    (NUMERIC_IS_SHORT num = true -> w = NUMERIC_WEIGHT num).
Proof.
  intros ([_ [Hh _] Hnan _ _] & E & _). destruct (fields num) as [[[[[nan short] hdr] sg] sc] w] eqn:Ef.
  destruct (fields_macros _ _ _ _ _ _ _ Ef) as (M1 & M2 & M3 & M4 & M5 & M6).
  assert (Eh : NUMERIC_HEADER_IS_SHORT num = NUMERIC_IS_SHORT num) by (by apply header_short).
  exists w. rewrite <- E, M2, M4, M5. rewrite M3, M2 in Eh. rewrite <- M1, Hnan, Eh. split; [done|]. intros ->. by rewrite M6, Eh.
Qed.

(** The headers that these functions make. *)
Lemma header_for num m s sg sc :
  numeric_is num (Fin m s) -> sg = NUMERIC_POS \/ sg = NUMERIC_NEG -> 0 <= sc <= (if NUMERIC_IS_SHORT num then 63 else NUMERIC_DSCALE_MAX) ->
  let h := if NUMERIC_IS_SHORT num then short_form_header sg sc (NUMERIC_WEIGHT num) else long_form_header sg sc in
  0 <= h < 65536 /\
  exists w, header_fields h = (false, NUMERIC_IS_SHORT num, NUMERIC_IS_SHORT num, sg, sc, w) /\
    (NUMERIC_IS_SHORT num = true -> w = NUMERIC_WEIGHT num).
Proof.
  intros N Hsg Hsc. destruct (num_header _ _ _ N) as (w & Hf & Hw). destruct N as ([_ [Hh _] _ _ _] & _ & _).
  destruct (NUMERIC_IS_SHORT num) eqn:Es; cbv zeta.
  - destruct (short_header_inv _ _ _ _ _ _ Hh Hf) as (_ & _ & _ & Hwr & _). rewrite Hw in Hwr by done.
    destruct (short_header_fields sg sc (NUMERIC_WEIGHT num) Hsg Hsc Hwr) as [H1 H2]. split; [done|]. eauto.
  - destruct (long_header_fields sg sc Hsg) as [H1 H2]. split; [done|]. exists 0. split; [|done]. rewrite H2.
    change NUMERIC_DSCALE_MASK with (Z.ones 14). rewrite Z.land_ones by lia.
    rewrite Z.mod_small; [done|]. unfold NUMERIC_DSCALE_MAX, NUMERIC_DSCALE_MASK in Hsc. lia.
Qed.

Lemma short_scale num m s : numeric_is num (Fin m s) -> 0 <= s <= (if NUMERIC_IS_SHORT num then 63 else NUMERIC_DSCALE_MAX).
Proof.
  intros N. destruct (num_header _ _ _ N) as (w & Hf & _). pose proof (numeric_is_scale _ _ _ N).
  destruct N as ([_ [Hh _] _ _ _] & _ & _). destruct (NUMERIC_IS_SHORT num); [|done].
  by apply short_header_inv in Hf as (_ & _ & ? & _).
Qed.

(** A change of sign and scale stays canonical. *)
Definition restored (num num' : Numeric) (d : Dec) : Prop := numeric_is num' d /\ (canonical num -> canonical num').

Lemma with_sign_restored num m s sg :
  numeric_is num (Fin m s) -> sg = NUMERIC_POS \/ (sg = NUMERIC_NEG /\ m <> 0) ->
  let h := if NUMERIC_IS_SHORT num then short_form_header sg s (NUMERIC_WEIGHT num) else long_form_header sg s in
  restored num (with_header h num) (Fin ((if sg =? NUMERIC_NEG then -1 else 1) * Z.abs m) s).
Proof.
  intros N Hsg h. destruct (header_for num m s sg s N) as [Hh Hf]; [destruct Hsg as [?|[? _]]; auto|by eapply short_scale|].
  destruct (with_header_is num m s h sg s N Hh ltac:(lia) Hf Hsg) as (N' & E1 & E2).
  rewrite Z.sub_diag, Z.mul_1_r in N'. split; [done|]. unfold canonical. rewrite E1, E2.
  destruct N as (_ & E & _), N' as (_ & E' & _). by rewrite E, E'.
Qed.

Lemma ndigits_ok num : num_ok num -> NUMERIC_NDIGITS num = Z.of_nat (length (NUMERIC_DIGITS num)).
Proof.
  intros [Hsz [_ Hhs] _ _ _]. unfold NUMERIC_DIGITS. rewrite length_digits_of_bytes. unfold bytes_at. rewrite length_take, length_drop.
  unfold NUMERIC_NDIGITS in *. rewrite Hsz in *. set (hs := NUMERIC_HEADER_SIZE num) in *.
  assert (0 <= hs) by (subst hs; unfold NUMERIC_HEADER_SIZE, VARHDRSZ; destruct (NUMERIC_HEADER_IS_SHORT num); lia).
  set (nd := (Z.of_nat (length num) - hs) / 2). assert (0 <= nd /\ 2 * nd <= Z.of_nat (length num) - hs) as [? ?] by (subst nd; zlia).
  replace (Nat.min (Z.to_nat (2 * nd)) (length num - Z.to_nat hs))%nat with (2 * Z.to_nat nd)%nat by lia.
  rewrite Nat.div2_double. lia.
Qed.

Lemma zero_iff num m s : numeric_is num (Fin m s) -> NUMERIC_NDIGITS num = 0 <-> m = 0.
Proof.
  intros (O & E & D). rewrite (ndigits_ok _ O). destruct O as [_ _ _ V St]. split.
  - intros Hn. apply (denotes_nil (init_var_from_num num) m s); [|done]. apply length_zero_iff_nil. cbn. lia.
  - intros ->. destruct (decide (NUMERIC_DIGITS num = [])) as [-> |Hne]; [done|exfalso].
    destruct (common_unit (init_var_from_num num) (init_var_from_num num) s s) as (k & Hk & C & _ & H1 & _).
    pose proof (abs_value_pos k _ V C (st_lead _ St) Hne). rewrite (abs_value_denotes k _ 0 s V C H1 D) in *. lia.
Qed.

Lemma long_header_lor num s m sg : numeric_is num (Fin m s) -> Z.lor sg (NUMERIC_DSCALE num) = long_form_header sg s.
Proof.
  intros N. pose proof (numeric_is_scale _ _ _ N) as Hs. destruct N as (_ & -> & _). unfold long_form_header. f_equal.
  change NUMERIC_DSCALE_MASK with (Z.ones 14). rewrite Z.land_ones by lia. symmetry. apply Z.mod_small.
  unfold NUMERIC_DSCALE_MAX, NUMERIC_DSCALE_MASK in Hs. lia.
Qed.

Lemma numeric_abs_ok num m s : numeric_is num (Fin m s) -> exists num', numeric_abs num = Ok num' /\ restored num num' (Fin (Z.abs m) s).
Proof.
  intros N. unfold numeric_abs. rewrite (numeric_is_NaN _ _ N).
  pose proof (with_sign_restored num m s NUMERIC_POS N ltac:(auto)) as R. cbv zeta in R. cbn [Z.eqb NUMERIC_POS NUMERIC_NEG] in R. rewrite Z.mul_1_l in R.
  destruct (num_header _ _ _ N) as (w & Hf & Hw). rewrite (long_header_lor num s m) by done.
  destruct (NUMERIC_IS_SHORT num); (eexists; split; [done|]); [|done].
  destruct N as ([_ [Hh _] _ _ _] & _ & _).
  apply short_header_inv in Hf as (_ & _ & _ & _ & -> & _); [|done]. by rewrite Hw.
Qed.

Lemma numeric_uminus_ok num m s : numeric_is num (Fin m s) -> exists num', numeric_uminus num = Ok num' /\ restored num num' (Fin (- m) s).
Proof.
  intros N. unfold numeric_uminus. rewrite (numeric_is_NaN _ _ N). pose proof (zero_iff _ _ _ N) as Hz.
  destruct (Z.eqb_spec (NUMERIC_NDIGITS num) 0) as [E0|E0]; cbn [negb].
  - apply Hz in E0 as ->. eexists. split; [done|]. 
    replace (bytes_at num 0 (VARSIZE_4B num)) with num; [by split|].
    destruct N as ([Hsz _ _ _ _] & _ & _). unfold bytes_at. rewrite Hsz, Nat2Z.id, drop_0. by rewrite take_ge.
  - assert (Hm : m <> 0) by tauto. pose proof (denotes_sign _ _ _ N) as Hsg.
    assert (Hsig : NUMERIC_SIGN num = NUMERIC_POS \/ NUMERIC_SIGN num = NUMERIC_NEG) by (destruct N as ([_ _ _ V _] & _); apply V).
    set (sg := if NUMERIC_SIGN num =? NUMERIC_POS then NUMERIC_NEG else NUMERIC_POS).
    assert (R : restored num (with_header (if NUMERIC_IS_SHORT num then short_form_header sg s (NUMERIC_WEIGHT num) else long_form_header sg s) num) (Fin (- m) s)).
    { pose proof (with_sign_restored num m s sg N) as R. cbv zeta in R. subst sg.
      replace (- m) with ((if (if NUMERIC_SIGN num =? NUMERIC_POS then NUMERIC_NEG else NUMERIC_POS) =? NUMERIC_NEG then -1 else 1) * Z.abs m);
        [apply R|]; destruct Hsig as [Es|Es]; rewrite Es in *; cbn in *; auto; lia. }
    rewrite !(long_header_lor num s m) by done.
    destruct (num_header _ _ _ N) as (w & Hf & Hw). destruct (NUMERIC_IS_SHORT num).
    + eexists. split; [done|]. destruct N as ([_ [Hh _] _ _ _] & _ & _).
      apply short_header_inv in Hf as (_ & _ & _ & _ & _ & -> & _); [|done]. by rewrite Hw.
    + subst sg. destruct (NUMERIC_SIGN num =? NUMERIC_POS); (eexists; split; [done|done]).
Qed.

Lemma numeric_sign_ok num m s : numeric_is num (Fin m s) -> returns (numeric_sign num) (Fin (Z.sgn m) 0).
Proof.
  intros N. unfold numeric_sign. rewrite (numeric_is_NaN _ _ N). pose proof (zero_iff _ _ _ N) as Hz.
  pose proof (denotes_sign _ _ _ N) as Hsg.
  assert (Hsig : NUMERIC_SIGN num = NUMERIC_POS \/ NUMERIC_SIGN num = NUMERIC_NEG) by (destruct N as ([_ _ _ V _] & _); apply V).
  destruct (Z.eqb_spec (NUMERIC_NDIGITS num) 0) as [E0|E0].
  - apply Hz in E0 as ->. apply make_result_returns; [split; cbn; auto|intros k _ _; by cbn|done..].
  - assert (Hm : m <> 0) by tauto. destruct const_one_ok as (V1 & _ & D1).
    apply make_result_returns; [split; [apply V1|done]| |done..].
    apply (denotes_at 0); [unfold covers, fits; cbn; lia|lia|].
    destruct Hsig as [Es|Es]; rewrite Es in *; cbn in Hsg.
    + rewrite Z.sgn_pos by lia. done.
    + rewrite Z.sgn_neg by lia. done.
Qed.

(** The functions that work on the packed form.  [abs] and unary minus
    change only the header, in either storage format, and return the absolute
    value and the opposite with the same scale, in canonical form if the argument
    is; [sign] returns -1, 0 or 1.  Unary minus never makes a negative zero. *)
Theorem numeric_sign_functions num m s :
  numeric_is num (Fin m s) ->
  (exists num', numeric_abs num = Ok num' /\ restored num num' (Fin (Z.abs m) s)) /\
  (exists num', numeric_uminus num = Ok num' /\ restored num num' (Fin (- m) s)) /\
  returns (numeric_sign num) (Fin (Z.sgn m) 0).
Proof. intros N. split_and!; [by apply numeric_abs_ok|by apply numeric_uminus_ok|by eapply numeric_sign_ok]. Qed.

Lemma numeric_sign_functions_witness : exists num', numeric_abs num_neg_half = Ok num' /\ restored num_neg_half num' (Fin 50 2).
Proof. apply (numeric_sign_functions num_neg_half (-50) 2). apply (numeric_check_is _ _ _ 1); vm_compute; reflexivity. Defined.

(** ** Type modifiers *)

(** [numeric(p, s)] *)
Definition valid_typmod (typmod p s : Z) : Prop :=
  1 <= p <= NUMERIC_MAX_PRECISION /\ 0 <= s <= p /\ typmod = VARHDRSZ + (p * 65536 + s).

Lemma typmod_fields typmod p s : valid_typmod typmod p s -> typmod_precision typmod = p /\ typmod_scale typmod = s /\ VARHDRSZ <= typmod.
Proof.
  unfold valid_typmod, NUMERIC_MAX_PRECISION. intros (Hp & Hs & ->). unfold typmod_precision, typmod_scale.
  replace (VARHDRSZ + (p * 65536 + s) - VARHDRSZ) with (p * 65536 + s) by lia. change 0xffff with (Z.ones 16).
  rewrite !Z.land_ones, Z.shiftr_div_pow2 by lia. change (2 ^ 16) with 65536. unfold VARHDRSZ. zlia.
Qed.

Definition field_overflow {A} : result A := ereport ERRCODE_NUMERIC_VALUE_OUT_OF_RANGE "numeric field overflow".

(** Decimal digits of a base-NBASE digit that is not zero. *)
Lemma digit_width d : 0 < d < NBASE ->
  let dd := if d <? 10 then -3 else if d <? 100 then -2 else if d <? 1000 then -1 else 0 in
  -3 <= dd <= 0 /\ 10 ^ (dd + 3) <= d < 10 ^ (dd + 4).
Proof.
  unfold NBASE. intros H. destruct (Z.ltb_spec d 10); [cbn; lia|]. destruct (Z.ltb_spec d 100); [cbn; lia|].
  destruct (Z.ltb_spec d 1000); cbn; lia.
Qed.

Lemma check_ddigits_spec k ds w maxdigits :
  Forall is_digit ds -> fits k ds w -> 0 <= 4 * k + maxdigits ->
  check_ddigits ds ((w + 1) * DEC_DIGITS) maxdigits = if pv k ds w <? 10 ^ (4 * k + maxdigits) then Ok tt else field_overflow.
Proof.
  intros H. revert w. induction H as [|d ds Hd H IH]; intros w Hf Hk; cbn [check_ddigits pv].
  - pose proof (ten_pos (4 * k + maxdigits) Hk). destruct (Z.ltb_spec 0 (10 ^ (4 * k + maxdigits))); [done|lia].
  - pose proof (fits_tail _ _ _ _ Hf) as Hf'. unfold fits in Hf. cbn [length] in Hf.
    destruct (Z.eqb_spec d 0) as [-> |Hne]; cbn [negb].
    { replace ((w + 1) * DEC_DIGITS - DEC_DIGITS) with ((w - 1 + 1) * DEC_DIGITS) by lia.
      rewrite IH by done. replace (0 * NBASE ^ (k + w) + pv k ds (w - 1)) with (pv k ds (w - 1)) by lia. done. }
    unfold is_digit in Hd. pose proof (digit_width d ltac:(lia)) as Hdw. cbv zeta in Hdw.
    set (dd := if d <? 10 then -3 else if d <? 100 then -2 else if d <? 1000 then -1 else 0) in *.
    replace (if d <? 10 then (w + 1) * DEC_DIGITS - 3 else if d <? 100 then (w + 1) * DEC_DIGITS - 2
      else if d <? 1000 then (w + 1) * DEC_DIGITS - 1 else (w + 1) * DEC_DIGITS) with ((w + 1) * DEC_DIGITS + dd)
      by (subst dd; destruct (d <? 10), (d <? 100), (d <? 1000); lia).
    destruct Hdw as (Hr & Hlo & Hhi). clearbody dd. unfold DEC_DIGITS.
    pose proof (pv_nonneg k ds (w - 1) H) as Hnn. pose proof (pv_bound k ds (w - 1) H Hf' ltac:(lia)) as Hb.
    replace (k + (w - 1) + 1) with (k + w) in Hb by lia. pose proof (NBASE_pos (k + w) ltac:(lia)) as Hp.
    assert (E1 : 10 ^ (dd + 3) * NBASE ^ (k + w) = 10 ^ (4 * (k + w) + dd + 3)).
    { rewrite <- pow10_NBASE, <- Z.pow_add_r by lia. f_equal. lia. }
    assert (E2 : 10 ^ (dd + 4) * NBASE ^ (k + w) = 10 ^ (4 * (k + w) + dd + 4)).
    { rewrite <- pow10_NBASE, <- Z.pow_add_r by lia. f_equal. lia. }
    rewrite Z.gtb_ltb. destruct (Z.ltb_spec maxdigits ((w + 1) * 4 + dd)), (Z.ltb_spec (d * NBASE ^ (k + w) + pv k ds (w - 1)) (10 ^ (4 * k + maxdigits))); try done; exfalso.
    + assert (10 ^ (4 * k + maxdigits) <= 10 ^ (4 * (k + w) + dd + 3)) by (apply Z.pow_le_mono_r; lia). nia.
    + assert (10 ^ (4 * (k + w) + dd + 4) <= 10 ^ (4 * k + maxdigits)) by (apply Z.pow_le_mono_r; lia). nia.
Qed.

(** A value of at most [p] digits, [s] of them after the point. *)
Lemma apply_typmod_denotes var m s typmod p sc :
  var_ok var -> denotes var m s -> 0 < spare var \/ digits var = [] -> valid_typmod typmod p sc ->
  if Z.abs (rounded_at m s sc) <? 10 ^ p then
    exists var', apply_typmod var typmod = Ok var' /\ var_ok var' /\ dscale var' = sc /\ denotes var' (rounded_at m s sc) sc
  else apply_typmod var typmod = field_overflow.
Proof.
  intros V D Hsp Ht. destruct (typmod_fields _ _ _ Ht) as (Ep & Es & Hge). destruct Ht as (Hp & Hs & _). unfold apply_typmod.
  destruct (Z.ltb_spec typmod VARHDRSZ); [lia|]. rewrite Ep, Es.
  destruct (round_var_denotes var m s sc V D Hsp) as (var' & -> & V' & E' & D'). cbn.
  destruct (common_unit var' var' sc (- weight var')) as (k & Hk & C & _ & H1 & H2).
  assert (Ha : (abs_value k var' <? 10 ^ (4 * k + (p - sc))) = (Z.abs (rounded_at m s sc) <? 10 ^ p)).
  { rewrite (abs_value_denotes k var' _ sc V' C H1 D'). replace (4 * k + (p - sc)) with (p + (4 * k - sc)) by lia.
    rewrite Z.pow_add_r by lia. pose proof (ten_pos (4 * k - sc) ltac:(lia)).
    destruct (Z.ltb_spec (Z.abs (rounded_at m s sc)) (10 ^ p)), (Z.ltb_spec (Z.abs (rounded_at m s sc) * 10 ^ (4 * k - sc)) (10 ^ p * 10 ^ (4 * k - sc))); try done; nia. }
  rewrite <- Ha. rewrite Z.gtb_ltb. destruct (Z.ltb_spec (p - sc) ((weight var' + 1) * DEC_DIGITS)) as [Hgt|Hle].
  - rewrite (check_ddigits_spec k) by (try apply V'; done || lia). fold (abs_value k var').
    destruct (abs_value k var' <? 10 ^ (4 * k + (p - sc))); cbn; [eauto|done].
  - unfold DEC_DIGITS in Hle.
    assert (Hlt : abs_value k var' < 10 ^ (4 * k + (p - sc))).
    { destruct (Z.ltb_spec (k + weight var' + 1) 0).
      - rewrite abs_value_nil by (apply length_zero_iff_nil; unfold covers, fits in C; lia). apply ten_pos. lia.
      - apply (Z.lt_le_trans _ _ _ (pv_bound k _ _ (vo_digits _ V') C ltac:(lia))).
        rewrite <- pow10_NBASE by lia. apply Z.pow_le_mono_r; lia. }
    apply Z.ltb_lt in Hlt. rewrite Hlt. eauto.
Qed.

Lemma precision_fits m p sc : 1 <= p <= NUMERIC_MAX_PRECISION -> 0 <= sc <= p -> Z.abs m < 10 ^ p -> dec_fits m sc.
Proof.
  unfold dec_fits, NUMERIC_MAX_PRECISION, NUMERIC_DSCALE_MAX, NUMERIC_DSCALE_MASK. intros Hp Hs Hm. split; [lia|].
  eapply Z.lt_le_trans; [exact Hm|]. apply Z.pow_le_mono_r; lia.
Qed.

(** A number whose weight leaves it fewer digits than the modifier allows. *)
Lemma weight_within num m s sc p :
  numeric_is num (Fin m s) -> (NUMERIC_WEIGHT num + 1) * DEC_DIGITS <= p - sc -> s <= sc <= p ->
  Z.abs (m * 10 ^ (sc - s)) < 10 ^ p.
Proof.
  intros N Hw Hs. pose proof (numeric_is_scale _ _ _ N) as Hsc. destruct N as ([_ _ _ V St] & E & D). unfold DEC_DIGITS in Hw.
  set (v := init_var_from_num num) in *. destruct (decide (digits v = [])) as [Hn|Hne].
  - rewrite (denotes_nil v m s Hn D). cbn. apply ten_pos. lia.
  - pose proof (weight_low v m s V St Hne D ltac:(lia)) as Hlow. change (weight v) with (NUMERIC_WEIGHT num) in Hlow.
    pose proof (proj1 (weight_bound v m s (weight v) V St Hne D ltac:(change (weight v) with (NUMERIC_WEIGHT num); lia)) (Z.le_refl _)) as Hb.
    change (weight v) with (NUMERIC_WEIGHT num) in Hb. pose proof (ten_pos (sc - s) ltac:(lia)).
    rewrite Z.abs_mul, (Z.abs_eq (10 ^ _)) by lia.
    apply (Z.lt_le_trans _ (10 ^ (4 * (NUMERIC_WEIGHT num + 1) + s) * 10 ^ (sc - s))); [nia|].
    rewrite <- Z.pow_add_r by lia. apply Z.pow_le_mono_r; lia.
Qed.

(** The copy that [numeric()] makes when there is nothing to round. *)
Lemma typmod_copy num m s sc :
  numeric_is num (Fin m s) -> s <= sc <= NUMERIC_MAX_PRECISION ->
  NUMERIC_CAN_BE_SHORT sc (NUMERIC_WEIGHT num) || negb (NUMERIC_IS_SHORT num) = true ->
  exists num',
    (if NUMERIC_IS_SHORT num then
       Ok (with_header (Z.lor (Z.land (n_header num) (Z.lnot NUMERIC_SHORT_DSCALE_MASK))
                              (Z.shiftl sc NUMERIC_SHORT_DSCALE_SHIFT)) num)
     else Ok (with_header (Z.lor (NUMERIC_SIGN num) (Z.land sc NUMERIC_DSCALE_MASK)) num)) = Ok num' /\
    numeric_is num' (Fin (m * 10 ^ (sc - s)) sc).
Proof.
  intros N Hsc Hfmt. pose proof (denotes_sign _ _ _ N) as Hsg. pose proof (numeric_is_scale _ _ _ N) as Hs.
  assert (Hsig : NUMERIC_SIGN num = NUMERIC_POS \/ NUMERIC_SIGN num = NUMERIC_NEG) by (destruct N as ([_ _ _ V _] & _); apply V).
  assert (Hlim : 0 <= sc <= (if NUMERIC_IS_SHORT num then 63 else NUMERIC_DSCALE_MAX)).
  { unfold NUMERIC_CAN_BE_SHORT, NUMERIC_MAX_PRECISION in *. change NUMERIC_SHORT_DSCALE_MAX with 63 in Hfmt.
    destruct (NUMERIC_IS_SHORT num); cbn [negb] in Hfmt; [rewrite orb_false_r in Hfmt; zbool; lia|].
    unfold NUMERIC_DSCALE_MAX, NUMERIC_DSCALE_MASK. lia. }
  destruct (header_for num m s (NUMERIC_SIGN num) sc N Hsig Hlim) as [Hh Hf].
  destruct (with_header_is num m s _ (NUMERIC_SIGN num) sc N Hh ltac:(lia) Hf) as (N' & _).
  { destruct Hsig as [Es|Es]; rewrite Es in Hsg; [by left|right]. cbn in Hsg. split; [done|lia]. }
  replace ((if NUMERIC_SIGN num =? NUMERIC_NEG then -1 else 1) * Z.abs m) with m in N'
    by (destruct (NUMERIC_SIGN num =? NUMERIC_NEG); lia).
  destruct (num_header _ _ _ N) as (w & Hfn & Hw). destruct (NUMERIC_IS_SHORT num); (eexists; split; [done|]); [|exact N'].
  destruct N as ([_ [Hhn _] _ _ _] & _ & _).
  apply short_header_inv in Hfn as (_ & _ & _ & _ & _ & _ & ->); [|done]. by rewrite short_header_scale, Hw.
Qed.

(** A value is rounded, checked and packed. *)
Lemma typmod_make_result var m s typmod p sc :
  var_ok var -> denotes var m s -> 0 < spare var \/ digits var = [] -> valid_typmod typmod p sc ->
  if Z.abs (rounded_at m s sc) <? 10 ^ p then
    exists num, (value ← apply_typmod var typmod; make_result value) = Ok num /\ numeric_is num (Fin (rounded_at m s sc) sc)
  else (value ← apply_typmod var typmod; make_result value) = field_overflow.
Proof.
  intros V D Hsp Ht. pose proof (apply_typmod_denotes var m s typmod p sc V D Hsp Ht) as Ha. destruct Ht as (Hp & Hsc & _).
  destruct (Z.ltb_spec (Z.abs (rounded_at m s sc)) (10 ^ p)) as [Hlt|]; [|by rewrite Ha].
  destruct Ha as (var' & -> & V' & E' & D'). cbn.
  destruct (make_result_returns var' _ sc V' D' E' ltac:(lia)) as [(_ & num' & -> & Hn & _)|[Hnf _]]; [eauto|].
  destruct Hnf. by eapply precision_fits.
Qed.

(** C31: [numeric(p, s)].  A value is rounded to [s] decimals, and the error is
    raised exactly when the result has more than [p] digits; values that need no
    rounding take the path that copies the packed form, with the same result. *)
Theorem numeric_typmod_correct num m s typmod p sc :
  numeric_is num (Fin m s) -> valid_typmod typmod p sc ->
  if Z.abs (rounded_at m s sc) <? 10 ^ p then
    exists num', numeric num typmod = Ok num' /\ numeric_is num' (Fin (rounded_at m s sc) sc)
  else numeric num typmod = field_overflow.
Proof.
  intros N Ht. unfold numeric. rewrite (numeric_is_NaN _ _ N).
  destruct (typmod_fields _ _ _ Ht) as (Ep & Es & Hge). destruct (Z.ltb_spec typmod VARHDRSZ); [lia|]. rewrite Ep, Es.
  destruct (_ && _ && _) eqn:Epath.
  - apply andb_true_iff in Epath as [Epath Hfmt]. zbool.
    assert (ED : NUMERIC_DSCALE num = s) by (by destruct N as (_ & ? & _)). rewrite ED in *.
    destruct Ht as (Hp & Hsc & _). unfold rounded_at. destruct (Z.leb_spec s sc); [|lia].
    pose proof (weight_within num m s sc p N ltac:(done) ltac:(lia)) as Hb. apply Z.ltb_lt in Hb. rewrite Hb.
    apply typmod_copy; [done|lia|done].
  - destruct N as ([_ _ _ V St] & E & D).
    apply (typmod_make_result (set_var_from_num num)); [split; apply V|done|by left|done].
Qed.

Lemma numeric_typmod_correct_witness :
  (exists num', numeric num_123_45 (4 + (4 * 65536 + 1)) = Ok num' /\ numeric_is num' (Fin 1235 1)) /\
  numeric num_123_45 (4 + (3 * 65536 + 1)) = field_overflow.
Proof.
  split.
  - apply (numeric_typmod_correct num_123_45 12345 2 _ 4 1); [apply (numeric_check_is _ _ _ 1); vm_compute; reflexivity|]. split_and!; vm_compute; (reflexivity || discriminate).
  - apply (numeric_typmod_correct num_123_45 12345 2 _ 3 1); [apply (numeric_check_is _ _ _ 1); vm_compute; reflexivity|]. split_and!; vm_compute; (reflexivity || discriminate).
Defined.

(** ** Integers *)

Lemma int64_digits_spec fuel uval ds :
  0 <= uval < NBASE ^ Z.of_nat fuel -> (0 < fuel)%nat ->
  exists new, int64_digits fuel uval ds = Ok (new ++ ds) /\ Forall is_digit new /\ (0 < length new)%nat /\
    pv 0 new (Z.of_nat (length new) - 1) = uval.
Proof.
  revert uval ds. induction fuel as [|fuel IH]; intros uval ds Hu Hf; [lia|]. cbn [int64_digits].
  pose proof (Z.div_mod uval NBASE ltac:(done)) as Hdm. pose proof (Z.mod_pos_bound uval NBASE ltac:(done)) as Hm.
  assert (Hd : is_digit (uval - uval / NBASE * NBASE)) by (unfold is_digit; lia).
  destruct (Z.eqb_spec (uval / NBASE) 0) as [Eq|Hq].
  - exists [uval - uval / NBASE * NBASE]. split_and!; [done|by constructor|cbn; lia|]. cbn [pv length]. rewrite Eq. cbn. lia.
  - destruct fuel as [|fuel].
    { change (NBASE ^ Z.of_nat 1) with NBASE in Hu. rewrite Z.div_small in Hq by lia. done. }
    destruct (IH (uval / NBASE) (uval - uval / NBASE * NBASE :: ds)) as (new & E & Hn & Hl & Hv); [|lia|].
    { replace (Z.of_nat (S (S fuel))) with (Z.of_nat (S fuel) + 1) in Hu by lia. rewrite NBASE_succ in Hu by lia.
      split; [apply Z.div_pos; [lia|done]|apply Z.div_lt_upper_bound; [done|lia]]. }
    exists (new ++ [uval - uval / NBASE * NBASE]). rewrite length_app. cbn [length].
    split_and!; [rewrite E, <- app_assoc; done|apply Forall_app; auto|lia|].
    replace (Z.of_nat (length new + 1) - 1) with (Z.of_nat (length new) - 1 + 1) by lia.
    rewrite pv_app. cbn [pv]. replace (0 + (Z.of_nat (length new) - 1 + 1 - Z.of_nat (length new))) with 0 by lia.
    rewrite (pv_move 0 (Z.of_nat (length new) - 1 + 1) (0 + 1) (Z.of_nat (length new) - 1)) by lia.
    rewrite pv_scale by (unfold fits; lia). rewrite Hv. change (NBASE ^ 1) with NBASE. change (NBASE ^ (0 + 0)) with 1.
    lia.
Qed.

Lemma int64_var val :
  -2 ^ 63 <= val < 2 ^ 63 ->
  exists var, int64_to_numericvar val = Ok var /\ var_ok var /\ dscale var = 0 /\ denotes var val 0.
Proof.
  intros Hv. unfold int64_to_numericvar.
  assert (Hu : (if val <? 0 then (NUMERIC_NEG, u64 (- val)) else (NUMERIC_POS, val)) = (if val <? 0 then NUMERIC_NEG else NUMERIC_POS, Z.abs val)).
  { destruct (Z.ltb_spec val 0); [|f_equal; lia]. unfold u64. rewrite uwrap_small by (unfold in_uint; lia). f_equal. lia. }
  rewrite Hu. destruct (Z.eqb_spec val 0) as [-> |Hne].
  { eexists. split; [done|]. split_and!; [split; cbn; auto|done|intros k _ _; by cbn]. }
  destruct (int64_digits_spec 5 (Z.abs val) []) as (new & -> & Hn & Hl & Hp); [change (NBASE ^ Z.of_nat 5) with (10 ^ 20); lia|lia|].
  rewrite app_nil_r. cbn. eexists. split; [done|].
  split_and!; [split; cbn; [done|destruct (val <? 0); auto]|done|].
  apply (denotes_at 0); [unfold covers, fits; cbn [digits weight]; lia|lia|].
  unfold svalue, sgn, abs_value. cbn [sign digits weight]. rewrite Hp. destruct (Z.ltb_spec val 0); cbn; lia.
Qed.

Lemma int64_loop_spec n ds val :
  Forall is_digit ds -> (length ds <= n)%nat -> -2 ^ 63 <= val <= 0 ->
  let v := val * NBASE ^ Z.of_nat n - pv 0 ds (Z.of_nat n - 1) in
  v <= val /\ int64_loop n ds val = if -2 ^ 63 <=? v then Some v else None.
Proof.
  intros Hd. revert ds val Hd. induction n as [|n IH]; intros ds val Hd Hl Hv; cbv zeta.
  - destruct ds as [|d ds]; [|cbn in Hl; lia]. cbn [pv int64_loop]. change (NBASE ^ Z.of_nat 0) with 1.
    replace (val * 1 - 0) with val by lia. split; [lia|]. destruct (Z.leb_spec (-2 ^ 63) val); [done|lia].
  - replace (Z.of_nat (S n) - 1) with (Z.of_nat n) by lia. replace (Z.of_nat (S n)) with (Z.of_nat n + 1) by lia.
    rewrite NBASE_succ by lia. pose proof (NBASE_pos (Z.of_nat n) ltac:(lia)) as HB.
    set (d := match ds with [] => 0 | d :: _ => d end). set (ds' := tail ds).
    assert (Hdd : is_digit d) by (subst d; destruct Hd; [unfold is_digit, NBASE; lia|done]). unfold is_digit in Hdd.
    assert (Hd' : Forall is_digit ds') by (subst ds'; by destruct Hd).
    assert (Hl' : (length ds' <= n)%nat) by (subst ds'; destruct ds; cbn in *; lia).
    assert (Epv : pv 0 ds (Z.of_nat n) = d * NBASE ^ Z.of_nat n + pv 0 ds' (Z.of_nat n - 1)) by (subst d ds'; by destruct ds).
    rewrite Epv. pose proof (pv_nonneg 0 ds' (Z.of_nat n - 1) Hd') as Hnn.
    replace (val * (NBASE * NBASE ^ Z.of_nat n) - (d * NBASE ^ Z.of_nat n + pv 0 ds' (Z.of_nat n - 1)))
      with ((val * NBASE - d) * NBASE ^ Z.of_nat n - pv 0 ds' (Z.of_nat n - 1)) by lia.
    set (v := (val * NBASE - d) * NBASE ^ Z.of_nat n - pv 0 ds' (Z.of_nat n - 1)).
    assert (Hv1 : v <= val * NBASE - d) by (subst v; unfold NBASE in *; nia).
    assert (Hv2 : val * NBASE - d <= val * NBASE /\ val * NBASE <= val) by (unfold NBASE in *; lia).
    split; [lia|]. cbn [int64_loop]. unfold in_int64.
    assert (Estep : (if negb ((-2 ^ 63 <=? val * NBASE) && (val * NBASE <? 2 ^ 63)) then None
      else match ds with [] => int64_loop n [] (val * NBASE) | d :: ds' =>
        if negb ((-2 ^ 63 <=? val * NBASE - d) && (val * NBASE - d <? 2 ^ 63)) then None else int64_loop n ds' (val * NBASE - d) end) =
      if -2 ^ 63 <=? val * NBASE - d then int64_loop n ds' (val * NBASE - d) else None).
    { destruct (Z.ltb_spec (val * NBASE) (2 ^ 63)), (Z.ltb_spec (val * NBASE - d) (2 ^ 63)); try lia.
      subst d ds'. destruct ds as [|d0 ds0]; cbn [tail].
      - rewrite Z.sub_0_r. by destruct (-2 ^ 63 <=? val * NBASE).
      - destruct (Z.leb_spec (-2 ^ 63) (val * NBASE)), (Z.leb_spec (-2 ^ 63) (val * NBASE - d0)); cbn [andb negb]; try lia;
          destruct (Z.ltb_spec (val * NBASE - d0) (2 ^ 63)); done || lia. }
    rewrite Estep. destruct (Z.leb_spec (-2 ^ 63) (val * NBASE - d)).
    + destruct (IH ds' (val * NBASE - d) Hd' Hl' ltac:(lia)) as [_ ->]. done.
    + destruct (Z.leb_spec (-2 ^ 63) v); [lia|done].
Qed.

Lemma numericvar_int64 var m s :
  var_ok var -> denotes var m s ->
  numericvar_to_int64 var = Ok (if in_int64 (rounded_at m s 0) then Some (rounded_at m s 0) else None).
Proof.
  intros V D. unfold numericvar_to_int64.
  destruct (round_var_denotes (set_var_from_var var) m s 0) as (v & -> & V' & E' & D'); [split; apply V|done|by left|]. cbn.
  set (r := rounded_at m s 0) in *. apply strip_var_denotes in D'. pose proof (strip_var_ok _ V') as Vs. pose proof (strip_var_stripped v) as St.
  clear V' E'. set (sv := strip_var v) in *. clearbody sv. clear v.
  destruct (digits sv) as [|d ds] eqn:Eds.
  { by rewrite (denotes_nil sv r 0 Eds D'). }
  assert (Hne : digits sv <> []) by by rewrite Eds.
  pose proof (denotes_digits sv r 0 Vs St Hne D') as Hn. unfold nb_rscale, ndigits in Hn. rewrite Eds in Hn. cbn [length] in Hn.
  assert (Hw : Z.of_nat (length ds) <= weight sv) by lia.
  pose proof (vo_digits _ Vs) as Hd. rewrite Eds in Hd. inversion Hd as [|?? Hd1 Hd2]; subst. unfold is_digit, NBASE in Hd1.
  destruct (int64_loop_spec (Z.to_nat (weight sv)) ds (- d) Hd2 ltac:(lia) ltac:(lia)) as [Hle Hloop]. rewrite Hloop.
  assert (Ev : - d * NBASE ^ Z.of_nat (Z.to_nat (weight sv)) - pv 0 ds (Z.of_nat (Z.to_nat (weight sv)) - 1) = - Z.abs r).
  { assert (C : covers 0 sv) by (unfold covers, fits; rewrite Eds; cbn [length]; lia).
    pose proof (abs_value_denotes 0 sv r 0 Vs C ltac:(lia) D') as Ea. change (10 ^ (4 * 0 - 0)) with 1 in Ea. rewrite Z.mul_1_r in Ea.
    rewrite <- Ea. unfold abs_value. rewrite Eds. cbn [pv]. rewrite Z2Nat.id by lia. rewrite Z.add_0_l. lia. }
  rewrite Ev. unfold PG_INT64_MIN, in_int64.
  assert (Hsg : if sign sv =? NUMERIC_NEG then r < 0 else 0 < r).
  { destruct (common_unit sv sv 0 0) as (k & Hk & C & _ & H1 & _). pose proof (D' k C H1) as Dk.
    pose proof (abs_value_pos k sv Vs C (st_lead _ St) Hne). pose proof (ten_pos (4 * k - 0) ltac:(lia)).
    unfold svalue, sgn in Dk. destruct (sign sv =? NUMERIC_NEG); nia. }
  destruct (sign sv =? NUMERIC_NEG).
  - rewrite Z.abs_neq, Z.opp_involutive by lia. destruct (Z.leb_spec (-2 ^ 63) r), (Z.ltb_spec r (2 ^ 63)); done || lia.
  - rewrite Z.abs_eq by lia. destruct (Z.leb_spec (-2 ^ 63) (- r)), (Z.leb_spec (-2 ^ 63) r), (Z.ltb_spec r (2 ^ 63)); cbn [andb]; try lia; try done.
    + destruct (Z.eqb_spec (- r) (-2 ^ 63)); [lia|]. by rewrite Z.opp_involutive.
    + destruct (Z.eqb_spec (- r) (-2 ^ 63)); [done|lia].
Qed.

(** The integer casts, with the range of the target type. *)
Definition cast_to (lo hi : Z) (msg : string) (m s : Z) : result Z :=
  let v := rounded_at m s 0 in
  if (lo <=? v) && (v <=? hi) then Ok v else ereport ERRCODE_NUMERIC_VALUE_OUT_OF_RANGE msg.

(** Conversions of integers.  Every int8 (int4, int2) is converted to the
    numeric of the same value; a numeric is converted to the nearest integer
    (half away from zero), and the error is raised exactly when that is out of
    the range of the type, -2^63 included. *)
Theorem numeric_integer_casts :
  (forall val, -2 ^ 63 <= val < 2 ^ 63 -> exists num, int8_numeric val = Ok num /\ numeric_is num (Fin val 0) /\
     numeric_int8 num = Ok val) /\
  (forall num m s, numeric_is num (Fin m s) ->
     numeric_int8 num = cast_to (-2 ^ 63) (2 ^ 63 - 1) "bigint out of range" m s /\
     numeric_int4 num = cast_to (-2 ^ 31) (2 ^ 31 - 1) "integer out of range" m s /\
     numeric_int2 num = cast_to (-2 ^ 15) (2 ^ 15 - 1) "smallint out of range" m s).
Proof.
  assert (Hcast : forall num m s, numeric_is num (Fin m s) ->
     numeric_int8 num = cast_to (-2 ^ 63) (2 ^ 63 - 1) "bigint out of range" m s /\
     numeric_int4 num = cast_to (-2 ^ 31) (2 ^ 31 - 1) "integer out of range" m s /\
     numeric_int2 num = cast_to (-2 ^ 15) (2 ^ 15 - 1) "smallint out of range" m s).
  { intros num m s N. pose proof (numeric_is_NaN _ _ N) as Hnan. destruct N as ([_ _ _ V _] & _ & D).
    unfold numeric_int8, numeric_int4, numeric_int2, numericvar_to_int32, cast_to. rewrite Hnan, (numericvar_int64 _ m s V D). cbn [mbind result_bind].
    set (r := rounded_at m s 0). unfold in_int64, PG_INT32_MIN, PG_INT32_MAX.
    destruct (Z.leb_spec (-2 ^ 63) r), (Z.ltb_spec r (2 ^ 63)), (Z.leb_spec r (2 ^ 63 - 1)), (Z.leb_spec (-2 ^ 31) r), (Z.leb_spec r (2 ^ 31 - 1)),
      (Z.leb_spec (-2 ^ 15) r), (Z.leb_spec r (2 ^ 15 - 1)); cbn [andb]; try lia;
      rewrite ?Z.gtb_ltb; repeat match goal with |- context [?a <? ?b] => destruct (Z.ltb_spec a b); try lia end; done. }
  split; [|done]. intros val Hv. destruct (int64_var val Hv) as (var & E & V & Hs & D). unfold int8_numeric. rewrite E. cbn.
  destruct (make_result_returns var val 0 V D Hs ltac:(lia)) as [(_ & num & -> & N & _)|[Hnf _]].
  - exists num. split; [done|]. split; [done|]. destruct (Hcast num val 0 N) as (-> & _). unfold cast_to.
    assert (Er : rounded_at val 0 0 = val) by (unfold rounded_at; cbn; lia). rewrite Er.
    destruct (Z.leb_spec (-2 ^ 63) val), (Z.leb_spec val (2 ^ 63 - 1)); done || lia.
  - destruct Hnf. unfold dec_fits, NUMERIC_DSCALE_MAX, NUMERIC_DSCALE_MASK. split; [lia|]. apply (Z.lt_le_trans _ (10 ^ 20)); [lia|]. apply Z.pow_le_mono_r; lia.
Qed.
