(* ===== verification/NumericIO.v ===== *)
(** * Text and binary forms of numeric

    [numeric_in], [numeric_out], [numeric_recv] and [numeric_send] of numeric.c,
    and their round trips. *)

From S2P Require Import Prelude Varlena RangeTypes RangeParse Numutils NumutilsProofs RangeFmgr RangeIO Hashfn.
From S2P Require Import Numeric NumericValue NumericRound NumericStore NumericTheorems.

(** ** Input *)

Definition invalid_numeric {A} : result A :=
  ereport ERRCODE_INVALID_TEXT_REPRESENTATION "invalid input syntax for type numeric".

(** The loop over digits and the decimal point: the decimal digits, [dweight],
    [dscale] and the rest of the string. *)
Fixpoint scan_decimal (cp : cstring) (have_dp : bool) (decdigits : list Z) (dweight dscale : Z)
  : result (list Z * Z * Z * cstring) :=
  match cp with
  | [] => Ok (decdigits, dweight, dscale, [])
  | c :: cp' =>
      if isdigit (chr c) then
        let decdigits := decdigits ++ [chr c - 48] in
        if have_dp then scan_decimal cp' have_dp decdigits dweight (dscale + 1)
        else scan_decimal cp' have_dp decdigits (dweight + 1) dscale
      else if chr c =? 46 then
        if have_dp then invalid_numeric else scan_decimal cp' true decdigits dweight dscale
      else Ok (decdigits, dweight, dscale, cp)
  end.

(** [strtol(cp, &endptr, 10)] of the C library: spaces, a sign and digits; the
    value is limited to the range of long, and [endptr] is the start when there
    is no number. *)
Fixpoint strtol_digits (cp : cstring) (acc : Z) : Z * cstring :=
  match cp with
  | c :: cp' => if isdigit (chr c) then strtol_digits cp' (acc * 10 + (chr c - 48)) else (acc, cp)
  | [] => (acc, [])
  end.

Definition strtol (cp : cstring) : option (Z * cstring) :=
  let p := skip_spaces cp in
  let '(neg, p) :=
    if deref p =? 45 then (true, advance p) else if deref p =? 43 then (false, advance p) else (false, p) in
  if isdigit (deref p) then
    let '(v, endptr) := strtol_digits p 0 in
    Some (if neg then Z.max (- v) (- 2 ^ 63) else Z.min v (2 ^ 63 - 1), endptr)
  else None.

(** The exponent, if any: the value and the rest of the string. *)
Definition scan_exponent (cp : cstring) : result (Z * cstring) :=
  if (deref cp =? 101) || (deref cp =? 69) then
    match strtol (advance cp) with
    | None => invalid_numeric
    | Some (exponent, cp) =>
        if (exponent >=? INT_MAX / 2) || (exponent <=? - (INT_MAX / 2)) then value_overflows
        else Ok (exponent, cp)
    end
  else Ok (0, cp).

(** Four decimal digits at a time. *)
Fixpoint group_digits (n : nat) (ds : list Z) : list Z :=
  match n with
  | O => []
  | S n' =>
      match ds with
      | d0 :: d1 :: d2 :: d3 :: ds' => (((d0 * 10 + d1) * 10 + d2) * 10 + d3) :: group_digits n' ds'
      | _ => []
      end
  end.

(** The second half of [set_var_from_str]: from decimal digits, of which the
    first has weight [dweight], to base NBASE. *)
Definition var_of_decdigits (sgn : Z) (decdigits : list Z) (dweight dscale : Z) : NumericVar :=
  let ddigits := Z.of_nat (length decdigits) in
  let padded := replicate 4 0 ++ decdigits ++ replicate 3 0 in
  let weight :=
    if dweight >=? 0 then Z.quot (dweight + 1 + DEC_DIGITS - 1) DEC_DIGITS - 1
    else - (Z.quot (- dweight - 1) DEC_DIGITS + 1) in
  let offset := (weight + 1) * DEC_DIGITS - (dweight + 1) in
  let ndigits := Z.quot (ddigits + offset + DEC_DIGITS - 1) DEC_DIGITS in
  strip_var (mkVar weight sgn dscale 1 (group_digits (Z.to_nat ndigits) (drop (Z.to_nat (DEC_DIGITS - offset)) padded))).

Definition set_var_from_str (cp : cstring) : result (NumericVar * cstring) :=
  let '(sgn, cp) :=
    if deref cp =? 43 then (NUMERIC_POS, advance cp)
    else if deref cp =? 45 then (NUMERIC_NEG, advance cp) else (NUMERIC_POS, cp) in
  let '(have_dp, cp) := if deref cp =? 46 then (true, advance cp) else (false, cp) in
  if negb (isdigit (deref cp)) then invalid_numeric
  else
    _ ← palloc0 (Z.of_nat (length cp) + DEC_DIGITS * 2);
    '(decdigits, dweight, dscale, cp) ← scan_decimal cp have_dp [] (-1) 0;
    '(exponent, cp) ← scan_exponent cp;
    let dweight := dweight + exponent in
    let dscale := Z.max 0 (dscale - exponent) in
    Ok (var_of_decdigits sgn decdigits dweight dscale, cp).

(** Nothing may be left but spaces. *)
Definition only_spaces (cp : cstring) : bool := forallb (fun c => isspace (chr c)) cp.

Definition numeric_in (str : cstring) (typmod : Z) : result Numeric :=
  let cp := skip_spaces str in
  if pg_strncasecmp cp (c_string "NaN") 3 =? 0 then
    res ← make_nan;
    if only_spaces (drop 3 cp) then Ok res else invalid_numeric
  else
    '(value, cp) ← set_var_from_str cp;
    if only_spaces cp then
      value ← apply_typmod value typmod;
      make_result value
    else invalid_numeric.

(** ** Output *)

Definition digit_chr (d : Z) : ascii := ascii_of_N (Z.to_N (d + 48)).

(** The four decimal digits of a digit. *)
Definition four_digits (dig : Z) : list Z :=
  let d1 := dig / 1000 in
  let dig := dig - d1 * 1000 in
  let d2 := dig / 100 in
  let dig := dig - d2 * 100 in
  let d3 := dig / 10 in
  let dig := dig - d3 * 10 in
  [d1; d2; d3; dig].

(** [putit]: the first digits are not written while they are zero, except the
    last one. *)
Definition put_first (dig : Z) : list Z :=
  match four_digits dig with
  | [d1; d2; d3; d4] =>
      let putit := d1 >? 0 in
      let out := if putit then [d1] else [] in
      let putit := putit || (d2 >? 0) in
      let out := if putit then out ++ [d2] else out in
      let putit := putit || (d3 >? 0) in
      let out := if putit then out ++ [d3] else out in
      out ++ [d4]
  | _ => []
  end.

(** The digits from index [d] on, [n] base-NBASE digits of them. *)
Fixpoint put_digits (ds : list Z) (n : nat) (d : Z) : list Z :=
  match n with
  | O => []
  | S n' => four_digits (digit_at ds d) ++ put_digits ds n' (d + 1)
  end.

(** The characters are stored in a buffer of the size that [get_str_from_var]
    computes, those after the last decimal and the final NUL included. *)
Definition get_str_from_var (var : NumericVar) : result cstring :=
  let i := (weight var + 1) * DEC_DIGITS in
  let i := if i <=? 0 then 1 else i in
  let size := i + dscale var + DEC_DIGITS + 2 in
  let minus := if sign var =? NUMERIC_NEG then ["-"%char] else [] in
  let before :=
    if weight var <? 0 then [0]
    else put_first (digit_at (digits var) 0) ++ put_digits (digits var) (Z.to_nat (weight var)) 1 in
  let d := weight var + 1 in
  let after :=
    if dscale var >? 0 then put_digits (digits var) (Z.to_nat (Z.quot (dscale var + DEC_DIGITS - 1) DEC_DIGITS)) d
    else [] in
  let point := if dscale var >? 0 then ["."%char] else [] in
  let written := minus ++ map digit_chr before ++ point in
  let used := Z.of_nat (length written) + Z.max (Z.of_nat (length after)) (dscale var + 1) in
  if used <=? size then
    Ok (written ++ map digit_chr (take (Z.to_nat (dscale var)) after))
  else undefined "store outside of the string buffer".

Definition numeric_out (num : Numeric) : result cstring :=
  if NUMERIC_IS_NAN num then Ok (c_string "NaN") else get_str_from_var (init_var_from_num num).

(** ** Binary form *)

Definition pq_getmsgint2 (msg : list Z) : result (Z * list Z) :=
  '(n16, msg) ← pq_copymsgbytes msg 2;
  Ok (le_value (rev n16), msg).

Definition pq_sendint16 (i : Z) : list Z := rev (le_bytes 2 i).

Fixpoint recv_digits (n : nat) (msg : list Z) : result (list Z * list Z) :=
  match n with
  | O => Ok ([], msg)
  | S n' =>
      '(d, msg) ← pq_getmsgint2 msg;
      let d := swrap 16 d in
      if (d <? 0) || (d >=? NBASE) then
        ereport ERRCODE_INVALID_BINARY_REPRESENTATION "invalid digit in external numeric value"
      else
        '(ds, msg) ← recv_digits n' msg;
        Ok (d :: ds, msg)
  end.

Definition numeric_recv (buf : list Z) (typmod : Z) : result (Numeric * list Z) :=
  '(len, buf) ← pq_getmsgint2 buf;
  '(w, buf) ← pq_getmsgint2 buf;
  '(sgn, buf) ← pq_getmsgint2 buf;
  if negb ((sgn =? NUMERIC_POS) || (sgn =? NUMERIC_NEG) || (sgn =? NUMERIC_NAN)) then
    ereport ERRCODE_INVALID_BINARY_REPRESENTATION "invalid sign in external numeric value"
  else
    '(scale, buf) ← pq_getmsgint2 buf;
    if negb (Z.land scale NUMERIC_DSCALE_MASK =? scale) then
      ereport ERRCODE_INVALID_BINARY_REPRESENTATION "invalid scale in external numeric value"
    else
      '(ds, buf) ← recv_digits (Z.to_nat len) buf;
      let value := trunc_var (mkVar (swrap 16 w) sgn scale 1 ds) scale in
      value ← apply_typmod value typmod;
      num ← make_result value;
      Ok (num, buf).

Definition numeric_send (num : Numeric) : list Z :=
  let x := init_var_from_num num in
  pq_sendint16 (ndigits x) ++ pq_sendint16 (weight x) ++ pq_sendint16 (sign x) ++ pq_sendint16 (dscale x) ++
  flat_map pq_sendint16 (digits x).

(** ** Decimal digits *)

Fixpoint decval (ds : list Z) : Z :=
  match ds with [] => 0 | d :: ds' => d * 10 ^ Z.of_nat (length ds') + decval ds' end.

Definition is_dec (d : Z) : Prop := 0 <= d <= 9.

Lemma decval_app a b : decval (a ++ b) = decval a * 10 ^ Z.of_nat (length b) + decval b.
Proof.
  induction a as [|d a IH]; cbn [app decval]; [lia|]. rewrite IH, length_app, Nat2Z.inj_add, Z.pow_add_r by lia. lia.
Qed.

Lemma decval_range ds : Forall is_dec ds -> 0 <= decval ds < 10 ^ Z.of_nat (length ds).
Proof.
  induction 1 as [|d ds Hd _ IH]; [cbn; lia|]. cbn [decval length].
  replace (Z.of_nat (S (length ds))) with (1 + Z.of_nat (length ds)) by lia. rewrite Z.pow_add_r by lia. unfold is_dec in Hd. nia.
Qed.

Lemma decval_zeros n : decval (replicate n 0) = 0.
Proof. induction n as [|n IH]; [done|]. cbn [replicate decval]. by rewrite IH. Qed.

Lemma four_digits_spec d : is_digit d -> Forall is_dec (four_digits d) /\ length (four_digits d) = 4%nat /\ decval (four_digits d) = d.
Proof.
  intros [H1 H2]. unfold NBASE in H2. unfold four_digits. cbv zeta. split_and!; [|done|].
  - repeat constructor; unfold is_dec; zlia.
  - cbn [decval length]. change (10 ^ Z.of_nat 3) with 1000. change (10 ^ Z.of_nat 2) with 100. change (10 ^ Z.of_nat 1) with 10. change (10 ^ Z.of_nat 0) with 1. lia.
Qed.

Lemma put_first_spec d :
  is_digit d -> Forall is_dec (put_first d) /\ (1 <= length (put_first d) <= 4)%nat /\ decval (put_first d) = d /\
  (no_lead (put_first d) \/ (put_first d = [0] /\ d = 0)).
Proof.
  intros Hd. destruct (four_digits_spec d Hd) as (Hf & Hl & Hv). unfold put_first.
  destruct (four_digits d) as [|d1 [|d2 [|d3 [|d4 [|]]]]]; try done.
  apply Forall_cons in Hf as [H1 Hf]. apply Forall_cons in Hf as [H2 Hf]. apply Forall_cons in Hf as [H3 Hf]. apply Forall_cons in Hf as [H4 _].
  cbn [decval length] in Hv. change (10 ^ Z.of_nat 3) with 1000 in Hv. change (10 ^ Z.of_nat 2) with 100 in Hv. change (10 ^ Z.of_nat 1) with 10 in Hv.
  change (10 ^ Z.of_nat 0) with 1 in Hv. unfold is_dec in *. rewrite !Z.gtb_ltb.
  destruct (Z.ltb_spec 0 d1), (Z.ltb_spec 0 d2), (Z.ltb_spec 0 d3); cbn [orb app length decval];
    change (10 ^ Z.of_nat 3) with 1000; change (10 ^ Z.of_nat 2) with 100; change (10 ^ Z.of_nat 1) with 10; change (10 ^ Z.of_nat 0) with 1;
    (split_and!; [repeat constructor; unfold is_dec; lia|lia|lia|lia|]); try (left; cbn; lia).
  destruct (decide (d4 = 0)) as [-> |]; [right; split; [done|lia]|by left].
Qed.

Lemma put_digits_app ds a b d : put_digits ds (a + b) d = put_digits ds a d ++ put_digits ds b (d + Z.of_nat a).
Proof.
  revert d. induction a as [|a IH]; intros d; cbn [Nat.add put_digits app]; [by rewrite Z.add_0_r|].
  rewrite IH, app_assoc. do 2 f_equal. lia.
Qed.

Lemma window_high k ds w p n :
  window k ds w p (S n) = window k ds w p n + digit_at ds (w - (p + Z.of_nat n)) * NBASE ^ (k + (p + Z.of_nat n)).
Proof.
  revert p. induction n as [|n IH]; intros p; [cbn [window]; rewrite !Z.add_0_r; lia|].
  change (window k ds w p (S (S n))) with (digit_at ds (w - p) * NBASE ^ (k + p) + window k ds w (p + 1) (S n)).
  rewrite IH. change (window k ds w p (S n)) with (digit_at ds (w - p) * NBASE ^ (k + p) + window k ds w (p + 1) n).
  replace (p + 1 + Z.of_nat n) with (p + Z.of_nat (S n)) by lia. lia.
Qed.

Lemma put_digits_spec ds n d :
  Forall is_digit ds ->
  Forall is_dec (put_digits ds n d) /\ length (put_digits ds n d) = (4 * n)%nat /\
  forall k w, k = d + Z.of_nat n - 1 - w -> decval (put_digits ds n d) = window k ds w (- k) n.
Proof.
  intros H. revert d. induction n as [|n IH]; intros d; cbn [put_digits]; [by split_and!|].
  destruct (IH (d + 1)) as (I1 & I2 & I3). destruct (four_digits_spec (digit_at ds d) (digit_at_digit ds d H)) as (F1 & F2 & F3).
  split_and!; [apply Forall_app; auto|rewrite length_app; lia|]. intros k w Hk.
  rewrite decval_app, F3, I2, window_high, (I3 k w) by lia.
  replace (Z.of_nat (4 * n)) with (4 * Z.of_nat n) by lia. rewrite pow10_NBASE by lia.
  replace (w - (- k + Z.of_nat n)) with d by lia. replace (k + (- k + Z.of_nat n)) with (Z.of_nat n) by lia. lia.
Qed.

(** ** Output *)

(** The text of [m * 10^(-s)]: a sign, digits without leading zeroes, and [s]
    decimals. *)
Definition point (s : Z) : cstring := if s >? 0 then ["."%char] else [].

Definition text_of (m s : Z) (str : cstring) : Prop :=
  exists before after,
    str = (if m <? 0 then ["-"%char] else []) ++ map digit_chr before ++ point s ++ map digit_chr after /\
    Forall is_dec before /\ Forall is_dec after /\ (no_lead before \/ before = [0]) /\ before <> [] /\
    Z.of_nat (length after) = s /\ decval (before ++ after) = Z.abs m.

(** The digits before and after the point, to a multiple of four decimals. *)
Lemma out_digits var (K := Z.to_nat (Z.quot (dscale var + DEC_DIGITS - 1) DEC_DIGITS))
  (before := if weight var <? 0 then [0]
             else put_first (digit_at (digits var) 0) ++ put_digits (digits var) (Z.to_nat (weight var)) 1) :
  var_ok var -> stripped var -> 0 <= dscale var -> covers (Z.of_nat K) var ->
  Forall is_dec before /\ (no_lead before \/ before = [0]) /\ before <> [] /\
  Z.of_nat (length before) <= (if (weight var + 1) * DEC_DIGITS <=? 0 then 1 else (weight var + 1) * DEC_DIGITS) /\
  decval (before ++ put_digits (digits var) K (weight var + 1)) = abs_value (Z.of_nat K) var.
Proof.
  intros [Hd _] St Hs C. unfold DEC_DIGITS in *.
  destruct (put_digits_spec (digits var) K (weight var + 1) Hd) as (P1 & P2 & P3).
  assert (Hall : forall n, digits var = [] \/ weight var < - Z.of_nat K + Z.of_nat n ->
    window (Z.of_nat K) (digits var) (weight var) (- Z.of_nat K) n = abs_value (Z.of_nat K) var).
  { intros n Hn. apply window_all. unfold covers, fits in C. destruct Hn as [?|?]; [by left|right; lia]. }
  subst before. destruct (Z.ltb_spec (weight var) 0) as [Hw|Hw].
  - split_and!; [repeat constructor; unfold is_dec; lia|by right|done|cbn [length]; destruct (Z.leb_spec ((weight var + 1) * 4) 0); lia|].
    rewrite decval_app. cbn [decval]. rewrite (P3 (Z.of_nat K) (weight var)) by lia. rewrite Hall by (right; lia). lia.
  - pose proof (digit_at_digit (digits var) 0 Hd) as H0. destruct (put_first_spec _ H0) as (F1 & F2 & F3 & F4).
    destruct (four_digits_spec _ H0) as (_ & G2 & G3).
    destruct (put_digits_spec (digits var) (Z.to_nat (weight var)) 1 Hd) as (Q1 & Q2 & _).
    split_and!.
    + apply Forall_app; auto.
    + destruct F4 as [F4|[F4 Ez]].
      * left. destruct (put_first _) eqn:Ef; [cbn in F2; lia|done].
      * right. assert (Hn : digits var = []).
        { pose proof (st_lead _ St) as Hl. destruct (digits var) as [|d ds] eqn:Eds; [done|]. cbn in Hl.
          unfold digit_at in Ez. cbn in Ez. done. }
        destruct (st_zero _ St Hn) as [-> _]. by rewrite F4.
    + destruct (put_first _); [cbn in F2; lia|done].
    + rewrite length_app, Q2. destruct (Z.leb_spec ((weight var + 1) * 4) 0); lia.
    + transitivity (decval (put_digits (digits var) (S (Z.to_nat (weight var)) + K) 0)).
      * rewrite put_digits_app. replace (0 + Z.of_nat (S (Z.to_nat (weight var)))) with (weight var + 1) by lia.
        rewrite !decval_app. f_equal. cbn [put_digits]. rewrite decval_app, F3, G3. done.
      * destruct (put_digits_spec (digits var) (S (Z.to_nat (weight var)) + K) 0 Hd) as (_ & _ & R3).
        rewrite (R3 (Z.of_nat K) (weight var)) by lia. apply Hall. right. lia.
Qed.

Lemma NUMERIC_WEIGHT_max num : NUMERIC_WEIGHT num <= 32767.
Proof.
  unfold NUMERIC_WEIGHT, n_weight. destruct (NUMERIC_HEADER_IS_SHORT num).
  - destruct (bit_set _ _).
    + assert (Z.lor (Z.lnot NUMERIC_SHORT_WEIGHT_MASK) (Z.land (n_header num) NUMERIC_SHORT_WEIGHT_MASK) < 0) by (apply Z.lor_neg; by left). lia.
    + rewrite Z.lor_0_l. change NUMERIC_SHORT_WEIGHT_MASK with (Z.ones 6). rewrite Z.land_ones by lia.
      pose proof (Z.mod_pos_bound (n_header num) (2 ^ 6) ltac:(done)). lia.
  - match goal with |- swrap 16 ?x <= _ => pose proof (swrap_range 16 x ltac:(lia)) as Hr end. unfold in_sint in Hr. cbn in Hr. lia.
Qed.

Lemma numeric_out_text num m s :
  numeric_is num (Fin m s) -> exists str, numeric_out num = Ok str /\ text_of m s str /\ Z.of_nat (length str) <= 4 * 32768 + s + 6.
Proof.
  intros N. pose proof (numeric_is_scale _ _ _ N) as Hs. pose proof (denotes_sign _ _ _ N) as Hsg. unfold numeric_out. rewrite (numeric_is_NaN _ _ N).
  destruct N as ([_ _ _ V St] & E & D). set (v := init_var_from_num num) in *. assert (Ev : dscale v = s) by done.
  set (K := Z.to_nat (Z.quot (dscale v + DEC_DIGITS - 1) DEC_DIGITS)).
  assert (HK : 4 * Z.of_nat K - 3 <= s <= 4 * Z.of_nat K).
  { subst K. unfold DEC_DIGITS. rewrite Ev, Z.quot_div_nonneg by lia. zlia. }
  assert (C : covers (Z.of_nat K) v).
  { destruct (decide (digits v = [])) as [En|Hne].
    - unfold covers, fits. rewrite En. destruct (st_zero _ St En) as [-> _]. cbn. lia.
    - pose proof (denotes_digits v m s V St Hne D). unfold covers, fits, nb_rscale, ndigits in *. lia. }
  destruct (out_digits v V St ltac:(lia) C) as (B1 & B2 & B3 & B4 & B5). fold K in B5.
  destruct (put_digits_spec (digits v) K (weight v + 1) (vo_digits _ V)) as (P1 & P2 & _).
  unfold get_str_from_var. fold K. set (before := if weight v <? 0 then _ else _) in *. rewrite Ev in *. rewrite Z.gtb_ltb in *.
  set (after := if 0 <? s then put_digits (digits v) K (weight v + 1) else []).
  assert (Ha : after = put_digits (digits v) K (weight v + 1)).
  { subst after. destruct (Z.ltb_spec 0 s); [done|]. by replace K with 0%nat by lia. }
  set (size := (if (weight v + 1) * DEC_DIGITS <=? 0 then 1 else (weight v + 1) * DEC_DIGITS) + s + DEC_DIGITS + 2).
  match goal with |- context [?a <=? size] => set (used := a) end.
  assert (Hu : used <= size).
  { subst used size. rewrite Ha, P2, !length_app, length_map. unfold DEC_DIGITS in *.
    destruct (sign v =? NUMERIC_NEG), (0 <? s); cbn [length]; lia. }
  destruct (Z.leb_spec used size); [|lia]. eexists. split; [done|].
  split; [|rewrite length_app, length_map, length_take; pose proof (NUMERIC_WEIGHT_max num) as Hw; change (NUMERIC_WEIGHT num) with (weight v) in Hw;
    subst used size; unfold DEC_DIGITS in *; destruct (Z.leb_spec ((weight v + 1) * 4) 0); lia].
  exists before, (take (Z.to_nat s) after).
  assert (Hlen : Z.of_nat (length (take (Z.to_nat s) after)) = s) by (rewrite length_take, Ha, P2; lia).
  split_and!; try done.
  - unfold point. rewrite <- !app_assoc, Z.gtb_ltb. f_equal. change (sign v) with (NUMERIC_SIGN num).
    destruct (NUMERIC_SIGN num =? NUMERIC_NEG), (Z.ltb_spec m 0); done || lia.
  - rewrite Ha. by apply Forall_take.
  - rewrite <- Ha in B5. rewrite (abs_value_denotes (Z.of_nat K) v m s V C ltac:(lia) D) in B5.
    rewrite <- (take_drop (Z.to_nat s) after) in B5 at 1. rewrite app_assoc, decval_app in B5.
    pose proof (decval_range (drop (Z.to_nat s) after) ltac:(apply Forall_drop; by rewrite Ha)) as Hr.
    rewrite length_drop, Ha, P2 in Hr, B5. rewrite <- Ha in *. replace (Z.of_nat (4 * K - Z.to_nat s)) with (4 * Z.of_nat K - s) in * by lia. nia.
Qed.

(** ** Input *)

Lemma group_digits_spec n l :
  Forall is_dec l -> (4 * n <= length l)%nat ->
  length (group_digits n l) = n /\ Forall is_digit (group_digits n l) /\
  forall k w, k + w = Z.of_nat n - 1 -> pv k (group_digits n l) w = decval (take (4 * n) l).
Proof.
  revert l. induction n as [|n IH]; intros l Hl Hn; [by cbn|].
  destruct l as [|d0 [|d1 [|d2 [|d3 l]]]]; cbn in Hn; try lia.
  apply Forall_cons in Hl as [H0 Hl]. apply Forall_cons in Hl as [H1 Hl]. apply Forall_cons in Hl as [H2 Hl]. apply Forall_cons in Hl as [H3 Hl].
  destruct (IH l Hl ltac:(lia)) as (I1 & I2 & I3). cbn [group_digits length]. unfold is_dec in *.
  split_and!; [lia|constructor; [unfold is_digit, NBASE; lia|done]|]. intros k w Hk.
  replace (4 * S n)%nat with (4 + 4 * n)%nat by lia. cbn [pv Nat.add firstn take].
  rewrite I3 by lia. change (firstn (4 * n) l) with (take (4 * n) l). rewrite Hk. replace (Z.of_nat (S n) - 1) with (Z.of_nat n) by lia.
  rewrite <- pow10_NBASE by lia. cbn [decval length]. rewrite length_take, Nat.min_l by lia.
  replace (Z.of_nat (S (S (S (4 * n))))) with (3 + 4 * Z.of_nat n) by lia. replace (Z.of_nat (S (S (4 * n)))) with (2 + 4 * Z.of_nat n) by lia.
  replace (Z.of_nat (S (4 * n))) with (1 + 4 * Z.of_nat n) by lia. replace (Z.of_nat (4 * n)) with (4 * Z.of_nat n) by lia.
  rewrite !Z.pow_add_r by lia. change (10 ^ 3) with 1000. change (10 ^ 2) with 100. change (10 ^ 1) with 10. lia.
Qed.

Definition signed (sg v : Z) : Z := (if sg =? NUMERIC_NEG then -1 else 1) * v.

Lemma signed_abs sg v : 0 <= v -> Z.abs (signed sg v) = v.
Proof. unfold signed. destruct (_ =? _); lia. Qed.

Lemma decdigits_denotes sg dd dweight scale :
  sg = NUMERIC_POS \/ sg = NUMERIC_NEG -> Forall is_dec dd -> 0 <= scale + dweight + 1 - Z.of_nat (length dd) ->
  let var := var_of_decdigits sg dd dweight scale in
  var_ok var /\ dscale var = scale /\
  denotes var (signed sg (decval dd * 10 ^ (scale + dweight + 1 - Z.of_nat (length dd)))) scale.
Proof.
  intros Hsg Hdd Hsc. cbv zeta. unfold var_of_decdigits, DEC_DIGITS. set (len := Z.of_nat (length dd)).
  set (W := if dweight >=? 0 then _ else _). set (offset := (W + 1) * 4 - (dweight + 1)).
  assert (Hoff : 0 <= offset <= 3).
  { subst offset W. rewrite Z.geb_leb. destruct (Z.leb_spec 0 dweight); rewrite Z.quot_div_nonneg by lia; zlia. }
  assert (EW : 4 * (W + 1) = dweight + 1 + offset) by (subst offset; lia). clearbody offset. clearbody W.
  rewrite Z.quot_div_nonneg by lia. set (nd := Z.to_nat ((len + offset + 4 - 1) / 4)).
  assert (Hnd : 4 * Z.of_nat nd - 3 <= len + offset <= 4 * Z.of_nat nd) by (subst nd; zlia). clearbody nd.
  set (l := drop (Z.to_nat (4 - offset)) (replicate 4 0 ++ dd ++ replicate 3 0)).
  assert (El : l = replicate (Z.to_nat offset) 0 ++ dd ++ replicate 3 0).
  { subst l. rewrite drop_app_le by (rewrite length_replicate; lia). rewrite drop_replicate. do 2 f_equal. lia. }
  assert (Hl : Forall is_dec l).
  { rewrite El. rewrite !Forall_app. split_and!; [|done|]; apply Forall_replicate; unfold is_dec; lia. }
  destruct (group_digits_spec nd l Hl) as (G1 & G2 & G3).
  { rewrite El, !length_app, !length_replicate. subst len. lia. }
  set (pad := (4 * Z.of_nat nd - offset - len)).
  assert (Etake : decval (take (4 * nd) l) = decval dd * 10 ^ pad).
  { rewrite El. rewrite take_app_ge, length_replicate by (rewrite length_replicate; lia).
    rewrite take_app_ge by (subst len; lia). rewrite take_replicate, !decval_app, !decval_zeros, length_replicate.
    replace (Z.of_nat (Nat.min (4 * nd - Z.to_nat offset - length dd) 3)) with pad by (subst pad len; lia). lia. }
  set (v := mkVar W sg scale 1 (group_digits nd l)).
  assert (V : var_ok v) by by split.
  split_and!; [by apply strip_var_ok|by rewrite strip_var_dscale|]. apply strip_var_denotes.
  set (k := unit_for v scale). assert (C : covers k v) by by apply (unit_covers _ scale). assert (Hk : scale <= 4 * k) by by apply (unit_scale v).
  apply (denotes_at k); [done|done|]. unfold svalue, abs_value, sgn, signed. cbn [sign digits weight v].
  unfold covers, fits in C. cbn [digits weight v] in C. rewrite G1 in C.
  rewrite (pv_move k W (Z.of_nat nd - 1 - W + (k + W - (Z.of_nat nd - 1))) W) by lia.
  rewrite pv_scale by (unfold fits; rewrite ?G1; lia). rewrite (G3 (Z.of_nat nd - 1 - W) W) by lia. rewrite Etake.
  rewrite <- pow10_NBASE by lia.
  replace (decval dd * 10 ^ pad * 10 ^ (4 * (k + W - (Z.of_nat nd - 1)))) with
    (decval dd * 10 ^ (scale + dweight + 1 - len) * 10 ^ (4 * k - scale)); [lia|].
  rewrite <- !Z.mul_assoc, <- !Z.pow_add_r by (subst pad; lia). do 2 f_equal. subst pad. lia.
Qed.

(** ** Literals *)

Lemma chr_digit d : is_dec d -> chr (digit_chr d) = d + 48 /\ isdigit (chr (digit_chr d)) = true.
Proof.
  intros [H1 H2]. assert (E : chr (digit_chr d) = d + 48) by (unfold chr, digit_chr; rewrite N_ascii_embedding; lia).
  rewrite E. split; [done|]. unfold isdigit. apply andb_true_iff. split; apply Z.leb_le; lia.
Qed.

(** What stops a number: the end of the string, or a character that is neither
    a digit nor a point. *)
Definition stops (cp : cstring) : Prop := isdigit (deref cp) = false /\ deref cp <> 46.

Lemma scan_decimal_digits D rest dp acc dw ds :
  Forall is_dec D ->
  scan_decimal (map digit_chr D ++ rest) dp acc dw ds =
  scan_decimal rest dp (acc ++ D) (if dp then dw else dw + Z.of_nat (length D)) (if dp then ds + Z.of_nat (length D) else ds).
Proof.
  intros H. revert acc dw ds. induction H as [|d D Hd H IH]; intros acc dw ds; cbn [map app scan_decimal length].
  - rewrite app_nil_r. by destruct dp; rewrite !Z.add_0_r.
  - destruct (chr_digit d Hd) as [E Ed]. rewrite Ed, E. replace (d + 48 - 48) with d by lia.
    destruct dp; rewrite IH, <- app_assoc; cbn [app]; f_equal; lia.
Qed.

Lemma scan_decimal_stops cp dp acc dw ds : stops cp -> scan_decimal cp dp acc dw ds = Ok (acc, dw, ds, cp).
Proof.
  intros [H1 H2]. destruct cp as [|c cp]; [done|]. cbn in *. rewrite H1. by destruct (Z.eqb_spec (chr c) 46).
Qed.

Lemma strtol_digits_spec D rest acc :
  Forall is_dec D -> isdigit (deref rest) = false ->
  strtol_digits (map digit_chr D ++ rest) acc = (acc * 10 ^ Z.of_nat (length D) + decval D, rest).
Proof.
  intros H Hr. revert acc. induction H as [|d D Hd H IH]; intros acc; cbn [map app].
  - cbn [decval length]. rewrite Z.mul_1_r, Z.add_0_r. destruct rest as [|c rest]; [done|]. cbn in *. by rewrite Hr.
  - cbn [strtol_digits]. destruct (chr_digit d Hd) as [E Ed]. rewrite Ed, E, IH. cbn [length decval].
    replace (Z.of_nat (S (length D))) with (1 + Z.of_nat (length D)) by lia. rewrite Z.pow_add_r by lia. f_equal. lia.
Qed.

(** A sign, and what it stands for. *)
Inductive sign_text : cstring -> Z -> Prop :=
| sign_none : sign_text [] NUMERIC_POS
| sign_plus : sign_text ["+"%char] NUMERIC_POS
| sign_minus : sign_text ["-"%char] NUMERIC_NEG.

Inductive exponent_text : cstring -> Z -> Prop :=
| exponent_none : exponent_text [] 0
| exponent_some e sgn sg E :
    e = "e"%char \/ e = "E"%char -> sign_text sgn sg -> Forall is_dec E -> E <> [] ->
    exponent_text (e :: sgn ++ map digit_chr E) (signed sg (decval E)).

Lemma digit_chr_deref D rest : Forall is_dec D -> D <> [] -> 48 <= deref (map digit_chr D ++ rest) <= 57.
Proof. intros H Hn. destruct H as [|d D Hd _]; [done|]. cbn. destruct (chr_digit d Hd) as [-> _]. unfold is_dec in Hd. lia. Qed.

Lemma deref_isdigit cp : 48 <= deref cp <= 57 -> isdigit (deref cp) = true /\ isspace (deref cp) = false.
Proof.
  intros H. unfold isdigit, isspace. split.
  - apply andb_true_iff. split; apply Z.leb_le; lia.
  - destruct (Z.eqb_spec (deref cp) 32); [lia|]. cbn [orb]. apply andb_false_iff. right. apply Z.leb_gt. lia.
Qed.

Lemma skip_nonspace cp : isspace (deref cp) = false -> skip_spaces cp = cp.
Proof. destruct cp as [|c cp]; [done|]. cbn. by intros ->. Qed.

Lemma strtol_spec sgn sg E rest :
  sign_text sgn sg -> Forall is_dec E -> E <> [] -> isdigit (deref rest) = false -> decval E < 2 ^ 63 ->
  strtol (sgn ++ map digit_chr E ++ rest) = Some (signed sg (decval E), rest).
Proof.
  intros Hs HE Hn Hr Hb. pose proof (digit_chr_deref E rest HE Hn) as Hd. destruct (deref_isdigit _ Hd) as [Hdig Hsp].
  pose proof (decval_range E HE) as Hv. unfold strtol, signed. set (digs := map digit_chr E ++ rest) in *.
  assert (Ed : strtol_digits digs 0 = (decval E, rest)) by (subst digs; rewrite strtol_digits_spec by done; f_equal).
  destruct Hs; cbn [app].
  - rewrite skip_nonspace by done. destruct (Z.eqb_spec (deref digs) 45), (Z.eqb_spec (deref digs) 43); try lia.
    rewrite Hdig, Ed. cbn. do 2 f_equal. lia.
  - rewrite skip_nonspace by done. cbn [deref advance]. change (chr "+"%char =? 45) with false. change (chr "+"%char =? 43) with true.
    cbv iota beta zeta. rewrite Hdig, Ed. change (NUMERIC_POS =? NUMERIC_NEG) with false. do 2 f_equal. lia.
  - rewrite skip_nonspace by done. cbn [deref advance]. change (chr "-"%char =? 45) with true.
    cbv iota beta zeta. rewrite Hdig, Ed. change (NUMERIC_NEG =? NUMERIC_NEG) with true. do 2 f_equal. lia.
Qed.

Lemma scan_exponent_spec ex x rest :
  exponent_text ex x -> isdigit (deref rest) = false -> deref rest <> 101 -> deref rest <> 69 -> Z.abs x < INT_MAX / 2 ->
  scan_exponent (ex ++ rest) = Ok (x, rest).
Proof.
  intros Hx Hr H1 H2 Hb. unfold scan_exponent. destruct Hx as [|e sgn sg E He Hs HE Hn].
  - cbn [app]. destruct (Z.eqb_spec (deref rest) 101), (Z.eqb_spec (deref rest) 69); done.
  - cbn [app]. rewrite <- app_assoc.
    assert (Ee : (deref (e :: sgn ++ map digit_chr E ++ rest) =? 101) || (deref (e :: sgn ++ map digit_chr E ++ rest) =? 69) = true)
      by (destruct He as [-> | ->]; done).
    rewrite Ee. cbn [advance]. pose proof (decval_range E HE) as Hv.
    pose proof (signed_abs sg (decval E) ltac:(lia)) as Habs.
    change (INT_MAX / 2) with 1073741823 in *. clear Ee. rewrite Habs in Hb.
    assert (Hlt : decval E < 2 ^ 63) by (change (2 ^ 63) with 9223372036854775808; lia).
    rewrite (strtol_spec sgn sg E rest) by done. rewrite Z.geb_leb. change (- (1073741823)) with (-1073741823).
    destruct (Z.leb_spec 1073741823 (signed sg (decval E))), (Z.leb_spec (signed sg (decval E)) (-1073741823)); done || lia.
Qed.

(** A numeric literal: spaces, a sign, digits with at most one point, an
    exponent, spaces. *)
Record literal (str : cstring) (sg : Z) (before after : list Z) (x : Z) : Prop := {
  lt_text : exists sp1 sgn pt ex sp2,
    str = sp1 ++ sgn ++ map digit_chr before ++ pt ++ map digit_chr after ++ ex ++ sp2 /\
    Forall is_space sp1 /\ Forall is_space sp2 /\ sign_text sgn sg /\
    (pt = ["."%char] \/ (pt = [] /\ after = [])) /\ exponent_text ex x;
  lt_before : Forall is_dec before;
  lt_after : Forall is_dec after;
  lt_some : before ++ after <> [];
  lt_exponent : Z.abs x < INT_MAX / 2;
  lt_length : Z.of_nat (length str) + DEC_DIGITS * 2 <= MaxAllocSize
}.

Lemma spaces_stop sp : Forall is_space sp -> stops sp /\ deref sp <> 101 /\ deref sp <> 69 /\ only_spaces sp = true.
Proof.
  intros H. assert (Ho : only_spaces sp = true) by (apply forallb_forall; intros c Hc; by eapply List.Forall_forall in H).
  assert (Hd : deref sp = 0 \/ isspace (deref sp) = true) by (destruct H; [by left|by right]).
  unfold stops, isdigit, isspace in *.
  assert (Hr : deref sp <= 32) by (destruct Hd as [->|Hd]; [done|]; apply orb_true_iff in Hd as [Hd|Hd]; zbool; lia).
  split_and!; [apply andb_false_iff; left; apply Z.leb_gt; lia|lia..|done].
Qed.

Lemma exponent_stops ex x sp : exponent_text ex x -> Forall is_space sp -> stops (ex ++ sp).
Proof. intros [|e sgn sg E [-> | ->] _ _ _] Hsp; [by apply spaces_stop|done|done]. Qed.

(** The digits and the point. *)
Lemma scan_mantissa before after pt rest :
  Forall is_dec before -> Forall is_dec after -> before ++ after <> [] -> pt = ["."%char] \/ (pt = [] /\ after = []) -> stops rest ->
  let cp := map digit_chr before ++ pt ++ map digit_chr after ++ rest in
  let '(have_dp, cp) := if deref cp =? 46 then (true, advance cp) else (false, cp) in
  isdigit (deref cp) = true /\
  scan_decimal cp have_dp [] (-1) 0 = Ok (before ++ after, Z.of_nat (length before) - 1, Z.of_nat (length after), rest).
Proof.
  intros Hb Ha Hne Hpt Hst. cbv zeta. destruct before as [|d before].
  - cbn [app map] in *. destruct Hpt as [-> |[-> ->]]; [|done]. cbn [app deref advance]. change (chr "."%char =? 46) with true. cbv iota.
    split; [by apply deref_isdigit, digit_chr_deref|]. rewrite scan_decimal_digits, scan_decimal_stops by done. done.
  - pose proof (digit_chr_deref (d :: before) (pt ++ map digit_chr after ++ rest) Hb ltac:(done)) as Hd.
    destruct (Z.eqb_spec (deref (map digit_chr (d :: before) ++ pt ++ map digit_chr after ++ rest)) 46); [lia|].
    split; [by apply deref_isdigit|]. rewrite scan_decimal_digits by done. destruct Hpt as [-> |[-> ->]].
    + cbn [app scan_decimal]. change (isdigit (chr "."%char)) with false. change (chr "."%char =? 46) with true. cbv iota.
      rewrite scan_decimal_digits, scan_decimal_stops by done. repeat f_equal; lia.
    + cbn [app map]. rewrite scan_decimal_stops, app_nil_r by done. repeat f_equal; lia.
Qed.

(** The number that a literal stands for: its scale, and its value in units of
    the last decimal. *)
Definition literal_scale (after : list Z) (x : Z) : Z := Z.max 0 (Z.of_nat (length after) - x).

Definition literal_value (sg : Z) (before after : list Z) (x : Z) : Z :=
  signed sg (decval (before ++ after) * 10 ^ (literal_scale after x + x - Z.of_nat (length after))).

Lemma sign_text_sign sgn sg : sign_text sgn sg -> sg = NUMERIC_POS \/ sg = NUMERIC_NEG.
Proof. intros []; auto. Qed.

(** The sign is the one read, and what follows it is not a sign. *)
Lemma sign_read sgn sg cp :
  sign_text sgn sg -> deref cp <> 43 -> deref cp <> 45 ->
  (if deref (sgn ++ cp) =? 43 then (NUMERIC_POS, advance (sgn ++ cp))
   else if deref (sgn ++ cp) =? 45 then (NUMERIC_NEG, advance (sgn ++ cp)) else (NUMERIC_POS, sgn ++ cp)) = (sg, cp).
Proof.
  intros [] H1 H2; [|done..]. cbn [app]. destruct (Z.eqb_spec (deref cp) 43), (Z.eqb_spec (deref cp) 45); done.
Qed.

Lemma mantissa_first before after pt rest :
  Forall is_dec before -> Forall is_dec after -> before ++ after <> [] -> pt = ["."%char] \/ (pt = [] /\ after = []) ->
  let cp := map digit_chr before ++ pt ++ map digit_chr after ++ rest in
  deref cp = 46 \/ 48 <= deref cp <= 57.
Proof.
  intros Hb Ha Hne Hpt. cbv zeta. destruct before as [|d before].
  - left. destruct Hpt as [-> |[-> ->]]; done.
  - right. by apply digit_chr_deref.
Qed.

(** Neither a space nor the beginning of NaN. *)
Lemma not_nan cp : deref cp = 43 \/ deref cp = 45 \/ deref cp = 46 \/ 48 <= deref cp <= 57 ->
  isspace (deref cp) = false /\ pg_strncasecmp cp (c_string "NaN") 3 <> 0.
Proof.
  intros H. split.
  - unfold isspace. destruct (Z.eqb_spec (deref cp) 32); [lia|]. cbn [orb]. apply andb_false_iff. right. apply Z.leb_gt. lia.
  - cbn [pg_strncasecmp]. change (deref (c_string "NaN")) with 78. destruct (Z.eqb_spec (deref cp) 78); [lia|]. cbn [negb].
    change (fold_lower 78) with 110. unfold fold_lower.
    destruct (Z.leb_spec 65 (deref cp)); [lia|]. cbn [andb]. destruct (Z.eqb_spec (deref cp) 110); [lia|]. cbn [negb]. lia.
Qed.

Lemma set_var_literal sgn sg before after pt ex x sp :
  sign_text sgn sg -> Forall is_dec before -> Forall is_dec after -> before ++ after <> [] ->
  pt = ["."%char] \/ (pt = [] /\ after = []) -> exponent_text ex x -> Z.abs x < INT_MAX / 2 -> Forall is_space sp ->
  Z.of_nat (length (sgn ++ map digit_chr before ++ pt ++ map digit_chr after ++ ex ++ sp)) + DEC_DIGITS * 2 <= MaxAllocSize ->
  set_var_from_str (sgn ++ map digit_chr before ++ pt ++ map digit_chr after ++ ex ++ sp) =
  Ok (var_of_decdigits sg (before ++ after) (Z.of_nat (length before) - 1 + x) (literal_scale after x), sp).
Proof.
  intros Hs Hb Ha Hne Hpt Hx Hxb Hsp Hlen. pose proof (exponent_stops ex x sp Hx Hsp) as Hst.
  pose proof (mantissa_first before after pt (ex ++ sp) Hb Ha Hne Hpt) as Hf. cbv zeta in Hf.
  unfold set_var_from_str. rewrite (sign_read sgn sg) by (done || lia).
  pose proof (scan_mantissa before after pt (ex ++ sp) Hb Ha Hne Hpt Hst) as Hm. cbv zeta in Hm.
  rewrite length_app in Hlen. set (cp0 := map digit_chr before ++ pt ++ map digit_chr after ++ ex ++ sp) in *.
  assert (Hcp : Z.of_nat (length (if deref cp0 =? 46 then (true, advance cp0) else (false, cp0)).2) <= Z.of_nat (length cp0))
    by (destruct (_ =? 46); cbn [snd]; [destruct cp0; cbn; lia|done]).
  destruct (if _ =? 46 then _ else _) as [have_dp cp]. destruct Hm as [-> Hm]. cbn [negb snd] in *. unfold palloc0.
  destruct (Z.gtb_spec (Z.of_nat (length cp) + DEC_DIGITS * 2) MaxAllocSize); [lia|]. cbn [mbind result_bind]. rewrite Hm. cbn [mbind result_bind].
  destruct (spaces_stop sp Hsp) as ([? _] & ? & ? & _). by rewrite (scan_exponent_spec ex x sp) by done.
Qed.

Lemma strip_var_spare var : 0 < spare var -> 0 < spare (strip_var var).
Proof. intros H. unfold strip_var. destruct (strip_leading _ _) as [ds w]. cbv zeta. destruct (Nat.eqb _ _); cbn [spare]; lia. Qed.

Lemma literal_denotes str sg before after x :
  literal str sg before after x ->
  exists var, var_ok var /\ dscale var = literal_scale after x /\ (0 < spare var \/ digits var = []) /\
    denotes var (literal_value sg before after x) (literal_scale after x) /\
    forall typmod, numeric_in str typmod = (value ← apply_typmod var typmod; make_result value).
Proof.
  intros [(sp1 & sgn & pt & ex & sp2 & -> & Hsp1 & Hsp2 & Hs & Hpt & Hx) Hb Ha Hne Hxb Hlen].
  pose proof (set_var_literal sgn sg before after pt ex x sp2 Hs Hb Ha Hne Hpt Hx Hxb Hsp2 ltac:(rewrite length_app in Hlen; lia)) as Hset.
  destruct (decdigits_denotes sg (before ++ after) (Z.of_nat (length before) - 1 + x) (literal_scale after x)) as (V & E & D).
  { by eapply sign_text_sign. }
  { by apply Forall_app. }
  { unfold literal_scale. rewrite length_app. lia. }
  eexists. split_and!; [exact V|exact E| | |].
  - left. apply strip_var_spare. cbn. lia.
  - unfold literal_value. rewrite length_app in D.
    by replace (literal_scale after x + x - Z.of_nat (length after)) with
      (literal_scale after x + (Z.of_nat (length before) - 1 + x) + 1 - Z.of_nat (length before + length after)) by lia.
  - intros typmod. unfold numeric_in.
    pose proof (mantissa_first before after pt (ex ++ sp2) Hb Ha Hne Hpt) as Hf. cbv zeta in Hf.
    set (cp := sgn ++ _) in *. destruct (not_nan cp) as [Hn1 Hn2]; [subst cp; destruct Hs; cbn [app]; auto; lia|].
    rewrite skip_spaces_app by done. destruct (Z.eqb_spec (pg_strncasecmp cp (c_string "NaN") 3) 0); [done|].
    rewrite Hset. cbn [mbind result_bind]. by destruct (spaces_stop sp2 Hsp2) as (_ & _ & _ & ->).
Qed.

(** C32: [numeric_in] on a numeric literal: the result is the number that the
    digits, the point and the exponent stand for, with as many decimals as are
    written (less the exponent), or the overflow error exactly when that does not
    fit; with a type modifier it is rounded, and the field overflow error is
    raised exactly when it has too many digits.  The literal is any text for
    which the buffer of decimal digits can be allocated. *)
Theorem numeric_in_literal str sg before after x (m := literal_value sg before after x) (s := literal_scale after x) :
  literal str sg before after x ->
  returns (numeric_in str (-1)) (Fin m s) /\
  forall typmod p sc, valid_typmod typmod p sc ->
    if Z.abs (rounded_at m s sc) <? 10 ^ p then
      exists num, numeric_in str typmod = Ok num /\ numeric_is num (Fin (rounded_at m s sc) sc)
    else numeric_in str typmod = field_overflow.
Proof.
  intros L. destruct (literal_denotes _ _ _ _ _ L) as (var & V & E & Hsp & D & Hin). split.
  - rewrite Hin. apply make_result_returns; [done..|]. unfold s, literal_scale. lia.
  - intros typmod p sc Ht. rewrite Hin. by apply typmod_make_result.
Qed.

Lemma numeric_in_literal_witness : returns (numeric_in (c_string " -12.50e1 ") (-1)) (Fin (-1250) 1).
Proof.
  apply (numeric_in_literal _ NUMERIC_NEG [1; 2] [5; 0] 1).
  split; [|repeat constructor; vm_compute; discriminate..|discriminate|vm_compute; reflexivity|vm_compute; discriminate].
  exists [" "%char], ["-"%char], ["."%char], ["e"; "1"]%char, [" "%char].
  split_and!; [reflexivity|repeat constructor; vm_compute; reflexivity..|constructor|left; reflexivity|].
  apply (exponent_some "e"%char [] NUMERIC_POS [1]); [left; reflexivity|constructor|repeat constructor; vm_compute; discriminate|discriminate].
Defined.

(** ** Round trip *)

Lemma numeric_is_fits num m s : numeric_is num (Fin m s) -> dec_fits m s.
Proof.
  intros N. pose proof (numeric_is_scale _ _ _ N) as Hs. split; [lia|]. destruct N as ([_ _ _ V St] & _ & D).
  set (v := init_var_from_num num) in *. destruct (decide (digits v = [])) as [En|Hne].
  - rewrite (denotes_nil v m s En D). cbn [Z.abs]. apply Z.pow_pos_nonneg; lia.
  - change (4 * 32768 + s) with (4 * (32767 + 1) + s). apply (weight_bound v m s 32767); try done; [lia|].
    apply NUMERIC_WEIGHT_max.
Qed.

Lemma text_literal m s str :
  text_of m s str -> Z.of_nat (length str) + DEC_DIGITS * 2 <= MaxAllocSize ->
  exists before after, literal str (if m <? 0 then NUMERIC_NEG else NUMERIC_POS) before after 0 /\
    literal_scale after 0 = s /\ literal_value (if m <? 0 then NUMERIC_NEG else NUMERIC_POS) before after 0 = m.
Proof.
  intros (before & after & -> & Hb & Ha & _ & Hne & Hlen & Hv) Hall. exists before, after.
  assert (Es : literal_scale after 0 = s) by (unfold literal_scale; lia). split_and!; [|done|].
  - split; [|done|done|destruct before; done|done|done].
    exists [], (if m <? 0 then ["-"%char] else []), (point s), [], []. rewrite !app_nil_r.
    split_and!; [done|constructor|constructor|destruct (m <? 0); constructor| |constructor].
    + unfold point. rewrite Z.gtb_ltb. destruct (Z.ltb_spec 0 s); [by left|]. right. split; [done|]. destruct after; [done|cbn in Hlen; lia].
  - unfold literal_value. rewrite Es, Hv. replace (s + 0 - Z.of_nat (length after)) with 0 by lia. unfold signed.
    destruct (Z.ltb_spec m 0); cbn; lia.
Qed.

(** C33: the text form of a value, with [s] decimals and without superfluous zeroes,
    is read back as the same number with the same scale, in canonical form. *)
Theorem numeric_text_roundtrip num d :
  numeric_is num d ->
  exists str num', numeric_out num = Ok str /\ numeric_in str (-1) = Ok num' /\ numeric_is num' d /\
    match d with NaN => str = c_string "NaN" | Fin m s => text_of m s str /\ canonical num' end.
Proof.
  intros N. destruct d as [|m s].
  - exists (c_string "NaN"). unfold numeric_out. rewrite (numeric_is_NaN _ _ N). eexists. split_and!; [done|by vm_compute|done..].
  - destruct (numeric_out_text num m s N) as (str & Eo & T & Hlen). pose proof (numeric_is_scale _ _ _ N) as Hsc.
    destruct (text_literal m s str T) as (before & after & L & Es & Em);
      [change NUMERIC_DSCALE_MAX with 16383 in Hsc; unfold DEC_DIGITS, MaxAllocSize; lia|].
    destruct (literal_denotes _ _ _ _ _ L) as (var & V & E & _ & D & Hin). rewrite Es, Em in *. specialize (Hin (-1)).
    pose proof (numeric_is_scale _ _ _ N) as Hs.
    destruct (make_result_returns var m s V D E ltac:(lia)) as [(_ & num' & Er & N' & Hc)|[Hf _]].
    + exists str, num'. split_and!; try done. by rewrite Hin.
    + destruct Hf. by eapply numeric_is_fits.
Qed.

Lemma numeric_text_roundtrip_witness :
  numeric_out num_neg_half = Ok (c_string "-0.50") /\
  exists str num', numeric_out num_neg_half = Ok str /\ numeric_in str (-1) = Ok num' /\ numeric_is num' (Fin (-50) 2) /\
    text_of (-50) 2 str /\ canonical num'.
Proof. split; [vm_compute; reflexivity|]. apply (numeric_text_roundtrip num_neg_half (Fin (-50) 2)). apply (numeric_check_is _ _ _ 1); vm_compute; reflexivity. Defined.

(** ** Binary round trip *)

Lemma getmsgint2_sendint16 i rest : pq_getmsgint2 (pq_sendint16 i ++ rest) = Ok (i mod 65536, rest).
Proof.
  assert (Hl : length (pq_sendint16 i) = 2%nat) by (unfold pq_sendint16; by rewrite length_rev, length_le_bytes).
  unfold pq_getmsgint2, pq_copymsgbytes. change 2 with (Z.of_nat 2). rewrite <- Hl, getmsgbytes_app. cbn [mbind result_bind].
  unfold pq_sendint16. by rewrite rev_involutive, le_value_bytes.
Qed.

Lemma recv_send_digits ds rest : Forall is_digit ds -> recv_digits (length ds) (flat_map pq_sendint16 ds ++ rest) = Ok (ds, rest).
Proof.
  induction 1 as [|d ds [H1 H2] _ IH]; [done|]. unfold NBASE in H2. cbn [flat_map length recv_digits].
  rewrite <- app_assoc, getmsgint2_sendint16. cbn [mbind result_bind].
  rewrite Z.mod_small, swrap_small by (try lia; unfold in_sint; cbn; lia). rewrite Z.geb_leb. unfold NBASE.
  destruct (Z.ltb_spec d 0), (Z.leb_spec 10000 d); try lia. cbn [orb]. rewrite IH. done.
Qed.

(** The binary form: the number of digits, the weight, the sign, the scale and
    the digits. *)
Definition binary_form (w sg sc : Z) (ds : list Z) : list Z :=
  pq_sendint16 (Z.of_nat (length ds)) ++ pq_sendint16 w ++ pq_sendint16 sg ++ pq_sendint16 sc ++ flat_map pq_sendint16 ds.

Lemma recv_binary_form w sg sc ds rest typmod :
  Forall is_digit ds -> Z.of_nat (length ds) < 65536 -> -32768 <= w < 32768 -> 0 <= sc <= NUMERIC_DSCALE_MAX ->
  sg = NUMERIC_POS \/ sg = NUMERIC_NEG \/ sg = NUMERIC_NAN ->
  numeric_recv (binary_form w sg sc ds ++ rest) typmod =
  (value ← apply_typmod (trunc_var (mkVar w sg sc 1 ds) sc) typmod; num ← make_result value; Ok (num, rest)).
Proof.
  intros Hd Hlen Hw Hsc Hsg. unfold NUMERIC_DSCALE_MAX, NUMERIC_DSCALE_MASK in Hsc. unfold numeric_recv, binary_form.
  rewrite <- !app_assoc. do 4 (rewrite getmsgint2_sendint16; cbn [mbind result_bind]).
  rewrite (Z.mod_small (Z.of_nat _)), (Z.mod_small sc) by lia.
  assert (Esg : sg mod 65536 = sg) by (destruct Hsg as [-> |[-> | ->]]; done). rewrite Esg.
  assert (Hok : (sg =? NUMERIC_POS) || (sg =? NUMERIC_NEG) || (sg =? NUMERIC_NAN) = true) by (destruct Hsg as [-> |[-> | ->]]; done).
  rewrite Hok. cbn [negb]. change NUMERIC_DSCALE_MASK with (Z.ones 14). rewrite Z.land_ones by lia.
  rewrite (Z.mod_small sc (2 ^ 14)), Z.eqb_refl by (change (2 ^ 14) with 16384; lia). cbn [negb].
  rewrite Nat2Z.id, recv_send_digits by done. cbn [mbind result_bind].
  assert (Ew : swrap 16 (w mod 65536) = w); [|by rewrite Ew].
  unfold swrap. change (2 ^ 16) with 65536. change (2 ^ (16 - 1)) with 32768. zlia.
Qed.

Lemma NUMERIC_WEIGHT_min num : -32768 <= NUMERIC_WEIGHT num.
Proof.
  unfold NUMERIC_WEIGHT, n_weight. destruct (NUMERIC_HEADER_IS_SHORT num).
  - change NUMERIC_SHORT_WEIGHT_MASK with (Z.ones 6).
    pose proof (Z.land_ones (n_header num) 6 ltac:(lia)) as E. pose proof (Z.mod_pos_bound (n_header num) (2 ^ 6) ltac:(done)) as Hm.
    rewrite <- E in Hm. set (x := Z.land (n_header num) (Z.ones 6)) in *.
    destruct (bit_set _ _); [|rewrite Z.lor_0_l; lia].
    assert (H : forallb (fun x => -64 <=? Z.lor (Z.lnot (Z.ones 6)) x) (zrange 0 64) = true) by by vm_compute.
    apply (forallb_zrange _ _ _ x) in H; [|cbn in Hm; lia]. apply Z.leb_le in H. etrans; [|exact H]. done.
  - match goal with |- _ <= swrap 16 ?x => pose proof (swrap_range 16 x ltac:(lia)) as Hr end. unfold in_sint in Hr. cbn in Hr. lia.
Qed.

(** What [numeric_send] writes is read back by [numeric_recv], to the end of
    the message, as the same number with the same scale, in canonical form. *)
Theorem numeric_binary_roundtrip num m s :
  numeric_is num (Fin m s) ->
  exists num', numeric_recv (numeric_send num) (-1) = Ok (num', []) /\ numeric_is num' (Fin m s) /\ canonical num'.
Proof.
  intros N. pose proof (numeric_is_scale _ _ _ N) as Hs. pose proof (numeric_is_fits _ _ _ N) as Hf.
  destruct N as ([_ _ _ V St] & Es & D).
  set (v := init_var_from_num num) in *. assert (Ev : dscale v = s) by done.
  assert (Hlen : Z.of_nat (length (digits v)) < 65536).
  { destruct (decide (digits v = [])) as [->|Hne]; [done|]. pose proof (denotes_digits v m s V St Hne D) as Hn.
    pose proof (NUMERIC_WEIGHT_max num) as Hw. change (NUMERIC_WEIGHT num) with (weight v) in Hw.
    unfold nb_rscale, ndigits, NUMERIC_DSCALE_MAX, NUMERIC_DSCALE_MASK in *. lia. }
  change (numeric_send num) with (binary_form (weight v) (sign v) (dscale v) (digits v)).
  rewrite <- (app_nil_r (binary_form _ _ _ _)), recv_binary_form.
  2: apply V. 2: done. 2:{ split; [apply NUMERIC_WEIGHT_min|]. pose proof (NUMERIC_WEIGHT_max num). cbn. lia. }
  2: by rewrite Ev. 2: destruct (vo_sign _ V) as [-> | ->]; auto.
  set (v' := mkVar _ _ _ 1 _). destruct (trunc_var_denotes v' m s s) as (V' & E' & D'); [split; apply V|exact D|].
  unfold cut_at in D'. rewrite Z.leb_refl, Z.sub_diag, Z.mul_1_r in D'. rewrite Ev.
  unfold apply_typmod. change (-1 <? VARHDRSZ) with true. cbn [mbind result_bind].
  destruct (make_result_returns _ m s V' D' E' ltac:(lia)) as [(_ & num' & -> & H)|[? _]]; [|done]. by exists num'.
Qed.

Lemma numeric_binary_roundtrip_witness :
  exists num', numeric_recv (numeric_send num_123_45) (-1) = Ok (num', []) /\ numeric_is num' (Fin 12345 2) /\ canonical num'.
Proof. apply numeric_binary_roundtrip. apply (numeric_check_is _ _ _ 1); vm_compute; reflexivity. Defined.

(** [numeric_recv] truncates before it looks at the sign: a NaN without digits
    and with weight -1 is read as zero, with weight 0 as NaN. *)
Lemma numeric_recv_NaN :
  (exists num, numeric_recv (binary_form (-1) NUMERIC_NAN 0 []) (-1) = Ok (num, []) /\ NUMERIC_IS_NAN num = false /\ numeric_out num = Ok (c_string "0")) /\
  (exists num, numeric_recv (binary_form 0 NUMERIC_NAN 0 []) (-1) = Ok (num, []) /\ NUMERIC_IS_NAN num = true).
Proof.
  split; eexists; (split; [vm_compute; reflexivity|]); [|vm_compute; reflexivity]. split; vm_compute; reflexivity.
Qed.
