(* ===== verification/NumericAccum.v ===== *)
(** * Aggregates of numeric

    The fast sum accumulator of numeric.c ([NumericSumAccum]) and the transition,
    inverse transition, combine and final functions of the sum aggregate, as a
    state machine over the multiset of the values aggregated so far. *)

From S2P Require Import Prelude Varlena Hashfn Numeric NumericValue NumericRound NumericStore NumericTheorems.

(** ** The accumulator *)

Record NumericSumAccum : Type := mkAccum {
  ac_weight : Z;
  ac_dscale : Z;
  num_uncarried : Z;
  have_carry_space : bool;
  pos_digits : list Z;
  neg_digits : list Z
}.

Definition ac_ndigits (accum : NumericSumAccum) : Z := Z.of_nat (length (pos_digits accum)).

(** All fields zero. *)
Definition accum_zero : NumericSumAccum := mkAccum 0 0 0 false [] [].

Definition accum_sum_reset (accum : NumericSumAccum) : NumericSumAccum :=
  mkAccum (ac_weight accum) 0 (num_uncarried accum) (have_carry_space accum)
    (replicate (length (pos_digits accum)) 0) (replicate (length (neg_digits accum)) 0).

(** The carry loop is the one of [mul_var]; the first digit is the last value of
    [newdig]. *)
Definition accum_sum_carry (accum : NumericSumAccum) : NumericSumAccum :=
  if num_uncarried accum =? 0 then accum
  else
    let pos := normalize (pos_digits accum) in
    let have := if hd 0 pos >? 0 then false else have_carry_space accum in
    let neg := normalize (neg_digits accum) in
    let have := if hd 0 neg >? 0 then false else have in
    mkAccum (ac_weight accum) (ac_dscale accum) 0 have pos neg.

(** [palloc0] and [memcpy] at offset [weightdiff]. *)
Definition enlarge (accum_ndigits weightdiff : Z) (dig : list Z) : list Z :=
  replicate (Z.to_nat weightdiff) 0 ++ dig ++ replicate (Z.to_nat (accum_ndigits - weightdiff - Z.of_nat (length dig))) 0.

Definition accum_sum_rescale (accum : NumericSumAccum) (val : NumericVar) : NumericSumAccum :=
  let old_weight := ac_weight accum in
  let old_ndigits := ac_ndigits accum in
  let '(accum_weight, accum_ndigits) :=
    if weight val >=? old_weight then (weight val + 1, old_ndigits + (weight val + 1 - old_weight))
    else if negb (have_carry_space accum) then (old_weight + 1, old_ndigits + 1)
    else (old_weight, old_ndigits) in
  let accum_rscale := accum_ndigits - accum_weight - 1 in
  let val_rscale := ndigits val - weight val - 1 in
  let accum_ndigits :=
    if val_rscale >? accum_rscale then accum_ndigits + (val_rscale - accum_rscale) else accum_ndigits in
  let accum_dscale := if dscale val >? ac_dscale accum then dscale val else ac_dscale accum in
  if negb (accum_ndigits =? old_ndigits) || negb (accum_weight =? old_weight) then
    let weightdiff := accum_weight - old_weight in
    mkAccum accum_weight accum_dscale (num_uncarried accum) true
      (enlarge accum_ndigits weightdiff (pos_digits accum)) (enlarge accum_ndigits weightdiff (neg_digits accum))
  else mkAccum (ac_weight accum) accum_dscale (num_uncarried accum) (have_carry_space accum) (pos_digits accum) (neg_digits accum).

Fixpoint add_digits (dig : list Z) (i : nat) (val_digits : list Z) : list Z :=
  match val_digits with
  | [] => dig
  | d :: val_digits' => add_digits (<[i := int32 (nth i dig 0 + d)]> dig) (S i) val_digits'
  end.

Definition accum_sum_add (accum : NumericSumAccum) (val : NumericVar) : result NumericSumAccum :=
  let accum := if num_uncarried accum =? NBASE - 1 then accum_sum_carry accum else accum in
  let accum := accum_sum_rescale accum val in
  let i := ac_weight accum - weight val in
  if (0 <? ndigits val) && ((i <? 0) || (i + ndigits val >? ac_ndigits accum)) then
    undefined "store outside of the accumulator"
  else
    let add dig := add_digits dig (Z.to_nat i) (digits val) in
    Ok (mkAccum (ac_weight accum) (ac_dscale accum) (num_uncarried accum + 1) (have_carry_space accum)
      (if sign val =? NUMERIC_POS then add (pos_digits accum) else pos_digits accum)
      (if sign val =? NUMERIC_POS then neg_digits accum else add (neg_digits accum))).

(** The accumulator after the final carry, and its value. *)
Definition accum_sum_final (accum : NumericSumAccum) : NumericSumAccum * NumericVar :=
  if ac_ndigits accum =? 0 then (accum, set_var_from_var const_zero)
  else
    let accum := accum_sum_carry accum in
    let pos_var := mkVar (ac_weight accum) NUMERIC_POS (ac_dscale accum) 0 (map (swrap 16) (pos_digits accum)) in
    let neg_var := mkVar (ac_weight accum) NUMERIC_NEG (ac_dscale accum) 0 (map (swrap 16) (neg_digits accum)) in
    (accum, strip_var (add_var pos_var neg_var)).

(** [have_carry_space] is not copied. *)
Definition accum_sum_copy (dst src : NumericSumAccum) : NumericSumAccum :=
  mkAccum (ac_weight src) (ac_dscale src) (num_uncarried src) (have_carry_space dst) (pos_digits src) (neg_digits src).

Definition accum_sum_combine (accum accum2 : NumericSumAccum) : result (NumericSumAccum * NumericSumAccum) :=
  let '(accum2, tmp_var) := accum_sum_final accum2 in
  accum ← accum_sum_add accum tmp_var;
  Ok (accum, accum2).

(** ** The aggregates *)

Record NumericAggState : Type := mkAgg {
  calcSumX2 : bool;
  N : Z;
  sumX : NumericSumAccum;
  sumX2 : NumericSumAccum;
  maxScale : Z;
  maxScaleCount : Z;
  NaNcount : Z
}.

Definition int64 (x : Z) : Z := swrap 64 x.

Definition makeNumericAggState (calcX2 : bool) : NumericAggState := mkAgg calcX2 0 accum_zero accum_zero 0 0 0.

(** [mul_var(&X, &X, &X2, X.dscale * 2)], if it is needed. *)
Definition square_if (calc : bool) (X : NumericVar) : result NumericVar :=
  if calc then mul_var X X (dscale X * 2) else Ok X.

Definition add_if (calc : bool) (accum : NumericSumAccum) (X2 : NumericVar) : result NumericSumAccum :=
  if calc then accum_sum_add accum X2 else Ok accum.

Definition do_numeric_accum (state : NumericAggState) (newval : Numeric) : result NumericAggState :=
  if NUMERIC_IS_NAN newval then
    Ok (mkAgg (calcSumX2 state) (N state) (sumX state) (sumX2 state) (maxScale state) (maxScaleCount state) (int64 (NaNcount state + 1)))
  else
    let X := init_var_from_num newval in
    let '(scale, count) :=
      if dscale X >? maxScale state then (dscale X, 1)
      else if dscale X =? maxScale state then (maxScale state, int64 (maxScaleCount state + 1))
      else (maxScale state, maxScaleCount state) in
    X2 ← square_if (calcSumX2 state) X;
    sum ← accum_sum_add (sumX state) X;
    sum2 ← add_if (calcSumX2 state) (sumX2 state) X2;
    Ok (mkAgg (calcSumX2 state) (int64 (N state + 1)) sum sum2 scale count (NaNcount state)).

(** [None] when the value cannot be removed; the state is then unchanged. *)
Definition do_numeric_discard (state : NumericAggState) (newval : Numeric) : result (option NumericAggState) :=
  if NUMERIC_IS_NAN newval then
    Ok (Some (mkAgg (calcSumX2 state) (N state) (sumX state) (sumX2 state) (maxScale state) (maxScaleCount state) (int64 (NaNcount state - 1))))
  else
    let X := init_var_from_num newval in
    let scales :=
      if dscale X =? maxScale state then
        if (maxScaleCount state >? 1) || (maxScale state =? 0) then Some (maxScale state, int64 (maxScaleCount state - 1))
        else if N state =? 1 then Some (0, 0)
        else None
      else Some (maxScale state, maxScaleCount state) in
    match scales with
    | None => Ok None
    | Some (scale, count) =>
        X2 ← square_if (calcSumX2 state) X;
        if N state >? 1 then
          sum ← accum_sum_add (sumX state) (with_sign (if sign X =? NUMERIC_POS then NUMERIC_NEG else NUMERIC_POS) X);
          sum2 ← add_if (calcSumX2 state) (sumX2 state) (with_sign NUMERIC_NEG X2);
          Ok (Some (mkAgg (calcSumX2 state) (int64 (N state - 1)) sum sum2 scale count (NaNcount state)))
        else
          Ok (Some (mkAgg (calcSumX2 state) (int64 (N state - 1)) (accum_sum_reset (sumX state))
            (if calcSumX2 state then accum_sum_reset (sumX2 state) else sumX2 state) scale count (NaNcount state)))
    end.

(** The transition functions: a null state is created, a null value ignored. *)
Definition agg_accum (calc : bool) (state : option NumericAggState) (newval : option Numeric) : result NumericAggState :=
  let state := match state with Some st => st | None => makeNumericAggState calc end in
  match newval with Some num => do_numeric_accum state num | None => Ok state end.

Definition numeric_accum : option NumericAggState -> option Numeric -> result NumericAggState := agg_accum true.
Definition numeric_avg_accum : option NumericAggState -> option Numeric -> result NumericAggState := agg_accum false.

Definition numeric_accum_inv (state : option NumericAggState) (newval : option Numeric) : result (option NumericAggState) :=
  match state with
  | None => elog "numeric_accum_inv called with NULL state"
  | Some st => match newval with Some num => do_numeric_discard st num | None => Ok (Some st) end
  end.

Definition combine_if (calc : bool) (accum accum2 : NumericSumAccum) : result (NumericSumAccum * NumericSumAccum) :=
  if calc then accum_sum_combine accum accum2 else Ok (accum, accum2).

(** The two combine functions differ in the sums of squares.  Both states are
    returned, since the carries of the second are propagated too. *)
Definition agg_combine (calc : bool) (state1 state2 : option NumericAggState) : result (option NumericAggState * option NumericAggState) :=
  match state2 with
  | None => Ok (state1, None)
  | Some st2 =>
      match state1 with
      | None =>
          let new := makeNumericAggState calc in
          Ok (Some (mkAgg calc (N st2) (accum_sum_copy (sumX new) (sumX st2))
                (if calc then accum_sum_copy (sumX2 new) (sumX2 st2) else sumX2 new)
                (maxScale st2) (maxScaleCount st2) (NaNcount st2)), Some st2)
      | Some st1 =>
          let n := int64 (N st1 + N st2) in
          let nan := int64 (NaNcount st1 + NaNcount st2) in
          if N st2 >? 0 then
            let '(scale, count) :=
              if maxScale st2 >? maxScale st1 then (maxScale st2, maxScaleCount st2)
              else if maxScale st2 =? maxScale st1 then (maxScale st1, int64 (maxScaleCount st1 + maxScaleCount st2))
              else (maxScale st1, maxScaleCount st1) in
            '(sum, sum') ← accum_sum_combine (sumX st1) (sumX st2);
            '(sum2, sum2') ← combine_if calc (sumX2 st1) (sumX2 st2);
            Ok (Some (mkAgg (calcSumX2 st1) n sum sum2 scale count nan),
                Some (mkAgg (calcSumX2 st2) (N st2) sum' sum2' (maxScale st2) (maxScaleCount st2) (NaNcount st2)))
          else
            Ok (Some (mkAgg (calcSumX2 st1) n (sumX st1) (sumX2 st1) (maxScale st1) (maxScaleCount st1) nan), Some st2)
      end
  end.

Definition numeric_combine : option NumericAggState -> option NumericAggState -> result (option NumericAggState * option NumericAggState) :=
  agg_combine true.
Definition numeric_avg_combine : option NumericAggState -> option NumericAggState -> result (option NumericAggState * option NumericAggState) :=
  agg_combine false.

(** The sum, [None] for null, and the state after the final carry. *)
Definition numeric_sum (state : option NumericAggState) : result (option Numeric * option NumericAggState) :=
  match state with
  | None => Ok (None, None)
  | Some st =>
      if int64 (N st + NaNcount st) =? 0 then Ok (None, Some st)
      else if NaNcount st >? 0 then num ← make_nan; Ok (Some num, Some st)
      else
        let '(sum, sumX_var) := accum_sum_final (sumX st) in
        num ← make_result sumX_var;
        Ok (Some num, Some (mkAgg (calcSumX2 st) (N st) sum (sumX2 st) (maxScale st) (maxScaleCount st) (NaNcount st)))
  end.

(** ** The value of an accumulator *)

(** The digits are the differences of the two sums. *)
Definition acc_var (a : NumericSumAccum) : NumericVar :=
  mkVar (ac_weight a) NUMERIC_POS (ac_dscale a) 0 (zip_with Z.sub (pos_digits a) (neg_digits a)).

(** The invariant: the digits are small enough for one more value, and there is
    a zero digit for the carry when it is needed. *)
Record acc_ok (a : NumericSumAccum) : Prop := {
  ao_length : length (neg_digits a) = length (pos_digits a);
  ao_uncarried : 0 <= num_uncarried a <= NBASE - 1;
  ao_pos : entries (pos_digits a) ((NBASE - 1) * (1 + num_uncarried a));
  ao_neg : entries (neg_digits a) ((NBASE - 1) * (1 + num_uncarried a));
  ao_room : 0 < num_uncarried a \/ have_carry_space a = true ->
    pos_digits a <> [] /\ hd 0 (pos_digits a) = 0 /\ hd 0 (neg_digits a) = 0;
  ao_dscale : 0 <= ac_dscale a
}.

Lemma pv_sub k ds1 ds2 w : length ds2 = length ds1 -> pv k (zip_with Z.sub ds1 ds2) w = pv k ds1 w - pv k ds2 w.
Proof.
  revert ds2 w. induction ds1 as [|d1 ds1 IH]; intros [|d2 ds2] w H; cbn in *; try done. rewrite IH by lia. lia.
Qed.

Lemma acc_value k a : acc_ok a -> svalue k (acc_var a) = pv k (pos_digits a) (ac_weight a) - pv k (neg_digits a) (ac_weight a).
Proof. intros [Hl]. unfold svalue, abs_value, sgn. cbn [sign digits weight acc_var]. rewrite pv_sub by done. cbn. lia. Qed.

Lemma acc_covers k a : acc_ok a -> covers k (acc_var a) <-> fits k (pos_digits a) (ac_weight a).
Proof. intros [Hl]. unfold covers, fits. cbn [digits weight acc_var]. rewrite length_zip_with. split; lia. Qed.

Lemma pv_entries k ds w c :
  entries ds ((NBASE - 1) * c) -> 0 <= c -> fits k ds w -> 0 <= k + w + 1 -> 0 <= pv k ds w <= c * (NBASE ^ (k + w + 1) - 1).
Proof.
  intros H Hc. revert w. induction H as [|d ds Hd _ IH]; intros w Hf Hk; cbn [pv].
  - pose proof (NBASE_pos _ Hk). nia.
  - pose proof Hf as Hf'. unfold fits in Hf'. cbn [length] in Hf'. specialize (IH (w - 1) (fits_tail _ _ _ _ Hf) ltac:(lia)).
    replace (k + (w - 1) + 1) with (k + w) in IH by lia. rewrite NBASE_succ by lia. pose proof (NBASE_pos (k + w) ltac:(lia)).
    set (P := NBASE ^ (k + w)) in *. unfold NBASE in Hd |- *. split; [nia|].
    assert (d * P <= 9999 * c * P) by (apply Z.mul_le_mono_nonneg_r; lia). lia.
Qed.

(** A carry pass over digits with room for the carry. *)
Lemma carry_digits k ds w u :
  entries ds ((NBASE - 1) * (1 + u)) -> 0 <= u <= NBASE - 1 -> ds <> [] -> hd 0 ds = 0 -> fits k ds w ->
  length (normalize ds) = length ds /\ Forall is_digit (normalize ds) /\ pv k (normalize ds) w = pv k ds w.
Proof.
  intros He Hu Hne Hd Hf. destruct ds as [|d ds]; [done|]. cbn in Hd. subst d. pose proof Hf as Hf'. unfold fits in Hf'. cbn [length] in Hf'.
  apply normalize_spec; [|done|lia|].
  - eapply entries_mono; [done|]. unfold NBASE in *. change (MAXDIG * (10000 - 1)) with 2147265252. lia.
  - cbn [pv]. inversion_clear He as [|?? _ He']. pose proof (pv_entries k ds (w - 1) (1 + u) He' ltac:(lia) (fits_tail _ _ _ _ Hf) ltac:(lia)) as Hb.
    replace (k + (w - 1) + 1) with (k + w) in Hb by lia. rewrite NBASE_succ by lia. pose proof (NBASE_pos (k + w) ltac:(lia)).
    set (P := NBASE ^ (k + w)) in *. unfold NBASE in Hu |- *. nia.
Qed.

(** Two accumulators of the same shape and value. *)
Record acc_same (a a' : NumericSumAccum) : Prop := {
  as_weight : ac_weight a' = ac_weight a;
  as_dscale : ac_dscale a' = ac_dscale a;
  as_length : length (pos_digits a') = length (pos_digits a);
  as_value : forall k, fits k (pos_digits a) (ac_weight a) ->
    pv k (pos_digits a') (ac_weight a) = pv k (pos_digits a) (ac_weight a) /\
    pv k (neg_digits a') (ac_weight a) = pv k (neg_digits a) (ac_weight a)
}.

Lemma acc_same_denotes a a' m s : acc_ok a -> acc_ok a' -> acc_same a a' -> denotes (acc_var a) m s -> denotes (acc_var a') m s.
Proof.
  intros O O' [Hw _ Hl Hv] D k C Hs. rewrite acc_covers in C by done. unfold fits in C. rewrite Hl, Hw in C.
  rewrite <- (D k); [|by apply acc_covers|done]. rewrite !acc_value, Hw by done. by destruct (Hv k C) as [-> ->].
Qed.

Lemma digits_entries ds : Forall is_digit ds <-> entries ds (NBASE - 1).
Proof. unfold entries. split; intros H; (eapply Forall_impl; [exact H|]); unfold is_digit; cbn; lia. Qed.

Lemma hd_entries ds c : entries ds c -> 0 <= hd 0 ds.
Proof. intros [|d ds' [? _] _]; cbn; lia. Qed.

Lemma accum_sum_carry_spec a (a' := accum_sum_carry a) :
  acc_ok a -> acc_ok a' /\ num_uncarried a' = 0 /\ acc_same a a'.
Proof.
  intros O. subst a'. unfold accum_sum_carry. destruct (Z.eqb_spec (num_uncarried a) 0) as [E|Hne].
  { split_and!; [done|done|]. by split. }
  destruct O as [Hl Hu Hp Hn Hr Hd]. destruct (Hr ltac:(left; lia)) as (Hne' & Hp0 & Hn0).
  assert (Hne2 : neg_digits a <> []) by (intros E; rewrite E in Hl; by destruct (pos_digits a)).
  assert (HP : forall k, fits k (pos_digits a) (ac_weight a) -> _) by (intros k Hf; exact (carry_digits k _ _ _ Hp Hu Hne' Hp0 Hf)).
  assert (HN : forall k, fits k (neg_digits a) (ac_weight a) -> _) by (intros k Hf; exact (carry_digits k _ _ _ Hn Hu Hne2 Hn0 Hf)).
  unfold fits in HN. rewrite Hl in HN. fold (fits) in HN.
  destruct (HP (Z.of_nat (length (pos_digits a)) - ac_weight a - 1) ltac:(unfold fits; lia)) as (L1 & D1 & _).
  destruct (HN (Z.of_nat (length (pos_digits a)) - ac_weight a - 1) ltac:(lia)) as (L2 & D2 & _).
  apply digits_entries in D1, D2.
  split_and!; [|done|].
  - split; cbn [neg_digits pos_digits num_uncarried have_carry_space ac_dscale]; try done; [lia|].
    intros [?|Hh]; [lia|]. pose proof (hd_entries _ _ D1). pose proof (hd_entries _ _ D2). rewrite !Z.gtb_ltb in Hh.
    destruct (Z.ltb_spec 0 (hd 0 (normalize (neg_digits a)))); [done|].
    destruct (Z.ltb_spec 0 (hd 0 (normalize (pos_digits a)))); [done|].
    split_and!; [|lia..]. intros E. rewrite E in L1. by destruct (pos_digits a).
  - split; cbn; try done. intros k Hf. split; [by apply HP|by apply HN].
Qed.

(** ** Making room *)

Lemma enlarge_spec n wd ds :
  0 <= wd -> wd + Z.of_nat (length ds) <= n ->
  Z.of_nat (length (enlarge n wd ds)) = n /\ (forall k w, pv k (enlarge n wd ds) (w + wd) = pv k ds w).
Proof.
  intros H1 H2. unfold enlarge. split; [rewrite !length_app, !length_replicate; lia|]. intros k w.
  rewrite !pv_app, !pv_replicate, length_replicate. replace (w + wd - Z.of_nat (Z.to_nat wd)) with w by lia. lia.
Qed.

Lemma enlarge_entries n wd ds b : 0 <= b -> entries ds b -> entries (enlarge n wd ds) b.
Proof. intros Hb H. unfold enlarge, entries. rewrite !Forall_app. split_and!; [|done|]; apply Forall_replicate; lia. Qed.

Lemma enlarge_hd n wd ds : 0 < wd \/ hd 0 ds = 0 -> hd 0 (enlarge n wd ds) = 0.
Proof.
  intros H. unfold enlarge. destruct (Z.to_nat wd) as [|m] eqn:E; [|done]. cbn [replicate app]. destruct H as [H|H]; [lia|].
  destruct ds as [|d ds]; [|done]. cbn [app]. by destruct (Z.to_nat (n - wd - _)).
Qed.

Record acc_room (a a' : NumericSumAccum) (val : NumericVar) : Prop := {
  ar_ok : acc_ok a';
  ar_uncarried : num_uncarried a' = num_uncarried a;
  ar_dscale : ac_dscale a' = Z.max (ac_dscale a) (dscale val);
  ar_space : have_carry_space a' = true;
  ar_weight : weight val < ac_weight a';
  ar_width : ac_weight a' - weight val + ndigits val <= ac_ndigits a';
  ar_fits : forall k, fits k (pos_digits a') (ac_weight a') -> fits k (pos_digits a) (ac_weight a);
  ar_value : forall k, pv k (pos_digits a') (ac_weight a') = pv k (pos_digits a) (ac_weight a) /\
    pv k (neg_digits a') (ac_weight a') = pv k (neg_digits a) (ac_weight a)
}.

Lemma max_if a b : (if b >? a then b else a) = Z.max a b.
Proof. rewrite Z.gtb_ltb. destruct (Z.ltb_spec a b); lia. Qed.

Lemma accum_sum_rescale_spec a val :
  acc_ok a -> acc_room a (accum_sum_rescale a val) val.
Proof.
  intros O. pose proof O as [Hl Hu Hp Hn Hr Hd]. unfold accum_sum_rescale. rewrite max_if.
  set (step := if weight val >=? ac_weight a then _ else _).
  assert (Hstep : exists w n, step = (w, n) /\ weight val < w /\ n - w = ac_ndigits a - ac_weight a /\ ac_weight a <= w /\
    (w = ac_weight a -> have_carry_space a = true)).
  { subst step. rewrite Z.geb_leb. destruct (Z.leb_spec (ac_weight a) (weight val)).
    - eexists _, _. split; [done|]. lia.
    - destruct (have_carry_space a); cbn [negb]; eexists _, _; (split; [done|]); split_and!; try done; lia. }
  clearbody step. destruct Hstep as (w & n & -> & Hw1 & Hn1 & Hw2 & Hspace).
  set (n' := if _ >? _ then _ else n).
  assert (Hn' : n <= n' /\ w - weight val + ndigits val <= n').
  { subst n'. rewrite Z.gtb_ltb. destruct (Z.ltb_spec (n - w - 1) (ndigits val - weight val - 1)); lia. }
  clearbody n'. unfold ac_ndigits in *. set (wd := w - ac_weight a).
  assert (Hfit : wd + Z.of_nat (length (pos_digits a)) <= n') by (subst wd; lia).
  destruct (negb (n' =? _) || negb (w =? _)) eqn:Ech.
  - destruct (enlarge_spec n' wd (pos_digits a) ltac:(subst wd; lia) Hfit) as [L1 V1].
    destruct (enlarge_spec n' wd (neg_digits a) ltac:(subst wd; lia) ltac:(lia)) as [L2 V2].
    assert (Hhd : 0 < wd \/ hd 0 (pos_digits a) = 0 /\ hd 0 (neg_digits a) = 0).
    { destruct (Z.eq_dec w (ac_weight a)) as [->|]; [right|left; subst wd; lia]. destruct Hr as (_ & ? & ?); auto. }
    assert (Hw : w = ac_weight a + wd) by (subst wd; lia). clearbody wd.
    split; cbn [ac_dscale num_uncarried have_carry_space pos_digits neg_digits ac_weight]; unfold ac_ndigits; cbn [pos_digits]; try done; try lia.
    + split; cbn [ac_dscale num_uncarried have_carry_space pos_digits neg_digits ac_weight]; try done; try lia.
      * apply enlarge_entries; [unfold NBASE; lia|done].
      * apply enlarge_entries; [unfold NBASE; lia|done].
      * intros _. split_and!.
        -- intros E. rewrite E in L1. cbn in L1. apply orb_true_iff in Ech as [Ech|Ech]; rewrite negb_true_iff, Z.eqb_neq in Ech; lia.
        -- apply enlarge_hd. tauto.
        -- apply enlarge_hd. tauto.
    + intros k. unfold fits. lia.
    + intros k. by rewrite Hw, V1, V2.
  - apply orb_false_iff in Ech as [E1 E2]. rewrite negb_false_iff, Z.eqb_eq in E1, E2. subst w.
    split; cbn [ac_dscale num_uncarried have_carry_space pos_digits neg_digits ac_weight]; unfold ac_ndigits; cbn [pos_digits]; try done; try lia; auto.
    split; cbn [ac_dscale num_uncarried have_carry_space pos_digits neg_digits ac_weight]; try done; lia.
Qed.

(** ** Adding a value *)

Lemma nth_entries ds b i : entries ds b -> (i < length ds)%nat -> 0 <= nth i ds 0 <= b.
Proof. intros H Hi. unfold entries in H. rewrite List.Forall_forall in H. by apply H, nth_In. Qed.

Lemma add_digits_spec vals ds i b1 b2 :
  Forall is_digit vals -> (i + length vals <= length ds)%nat -> entries ds b2 -> entries (drop i ds) b1 ->
  b1 + (NBASE - 1) <= b2 <= INT_MAX ->
  length (add_digits ds i vals) = length ds /\ entries (add_digits ds i vals) b2 /\
  (forall k w, pv k (add_digits ds i vals) w = pv k ds w + pv k vals (w - Z.of_nat i)) /\
  ((0 < i)%nat -> hd 0 (add_digits ds i vals) = hd 0 ds).
Proof.
  intros Hv. revert ds i. induction Hv as [|d vals [Hd1 Hd2] Hv IH]; intros ds i Hi He Hd Hb; cbn [add_digits length] in *.
  { split_and!; [done..|intros; cbn; lia|done]. }
  assert (Hx : 0 <= nth i ds 0 <= b1).
  { pose proof (nth_entries (drop i ds) b1 0 Hd ltac:(rewrite length_drop; lia)) as Hx.
    by rewrite nth_skipn, Nat.add_0_r in Hx. }
  rewrite int32_small by lia. set (x := nth i ds 0 + d).
  destruct (IH (<[i := x]> ds) (S i)) as (L & E & V & H0).
  { rewrite length_insert. lia. }
  { apply Forall_insert; [done|]. subst x. lia. }
  { rewrite drop_insert_lt by lia. replace (drop (S i) ds) with (drop 1 (drop i ds)) by (rewrite drop_drop; f_equal; lia).
    by apply Forall_drop. }
  { lia. }
  rewrite length_insert in L. split_and!; [done|done| |].
  - intros k w. rewrite V, pv_insert by lia. cbn [pv]. subst x.
    replace (w - Z.of_nat (S i)) with (w - Z.of_nat i - 1) by lia. replace (k + (w - Z.of_nat i)) with (k + w - Z.of_nat i) by lia. lia.
  - intros Hi0. rewrite H0 by lia. destruct i as [|i]; [lia|]. by destruct ds.
Qed.

Lemma acc_same_refl a : acc_same a a.
Proof. by split. Qed.

Lemma carry_when_full a (a' := if num_uncarried a =? NBASE - 1 then accum_sum_carry a else a) :
  acc_ok a -> acc_ok a' /\ num_uncarried a' < NBASE - 1 /\ acc_same a a'.
Proof.
  intros O. subst a'. destruct (Z.eqb_spec (num_uncarried a) (NBASE - 1)).
  - destruct (accum_sum_carry_spec a O) as (? & E & ?). split_and!; [done|rewrite E; done|done].
  - split_and!; [done| |apply acc_same_refl]. pose proof (ao_uncarried _ O). lia.
Qed.

Lemma room_denotes a a' val m s : acc_ok a -> acc_room a a' val -> denotes (acc_var a) m s -> denotes (acc_var a') m s.
Proof.
  intros O [O' _ _ _ _ _ Hfit Hval] D k C Hs. rewrite acc_covers in C by done. rewrite <- (D k); [|apply acc_covers; auto|done].
  rewrite !acc_value by done. by destruct (Hval k) as [-> ->].
Qed.

(** Adding the digits of a value to one of the sums. *)
Lemma add_side a ds val (i := ac_weight a - weight val) (ds' := add_digits ds (Z.to_nat i) (digits val)) :
  var_ok val -> 0 <= num_uncarried a < NBASE - 1 -> length ds = length (pos_digits a) ->
  entries ds ((NBASE - 1) * (1 + num_uncarried a)) -> weight val < ac_weight a -> i + ndigits val <= ac_ndigits a ->
  length ds' = length ds /\ entries ds' ((NBASE - 1) * (1 + (num_uncarried a + 1))) /\
  (forall k, pv k ds' (ac_weight a) = pv k ds (ac_weight a) + abs_value k val) /\ hd 0 ds' = hd 0 ds.
Proof.
  intros V Hu Hds He Hw Hwid. unfold ac_ndigits, ndigits in *.
  destruct (add_digits_spec (digits val) ds (Z.to_nat i) ((NBASE - 1) * (1 + num_uncarried a)) ((NBASE - 1) * (1 + (num_uncarried a + 1))))
    as (HL & HE & HV & HH); [apply V|lia| |by apply Forall_drop| |].
  - eapply entries_mono; [done|]. unfold NBASE. lia.
  - unfold NBASE, INT_MAX in *. lia.
  - split_and!; [done|done| |apply HH; lia]. intros k. subst ds'. rewrite HV. unfold abs_value. do 2 f_equal. lia.
Qed.

(** One more value. *)
Lemma accum_sum_add_spec a val m m' s :
  acc_ok a -> var_ok val -> denotes (acc_var a) m s -> denotes val m' s ->
  exists a', accum_sum_add a val = Ok a' /\ acc_ok a' /\ ac_dscale a' = Z.max (ac_dscale a) (dscale val) /\
    denotes (acc_var a') (m + m') s /\ ac_ndigits a' <> 0.
Proof.
  intros O V D D'. unfold accum_sum_add. destruct (carry_when_full a O) as (O1 & Hu & Hsame).
  set (a1 := if num_uncarried a =? NBASE - 1 then accum_sum_carry a else a) in *. clearbody a1.
  apply (acc_same_denotes a a1 m s O O1 Hsame) in D. rewrite <- (as_dscale _ _ Hsame). clear a O Hsame.
  pose proof (accum_sum_rescale_spec a1 val O1) as R. set (a2 := accum_sum_rescale a1 val) in *. clearbody a2.
  apply (room_denotes a1 a2 val m s O1 R) in D. destruct R as [O2 Eu Eds Hsp Hw Hwid _ _]. rewrite <- Eu in Hu. rewrite <- Eds. clear a1 O1 Eu Eds.
  pose proof O2 as [Hl Hu2 Hp Hn Hr Hd]. destruct (Hr (or_intror Hsp)) as (Hne & Hp0 & Hn0).
  destruct ((0 <? ndigits val) && _) eqn:Eout.
  { apply andb_true_iff in Eout as [_ Eout]. rewrite Z.gtb_ltb in Eout. apply orb_true_iff in Eout as [E|E]; zbool; lia. }
  destruct (add_side a2 (pos_digits a2) val V ltac:(lia) eq_refl Hp Hw Hwid) as (PL & PE & PV & PH).
  destruct (add_side a2 (neg_digits a2) val V ltac:(lia) Hl Hn Hw Hwid) as (NL & NE & NV & NH).
  assert (Hmono : forall ds, entries ds ((NBASE - 1) * (1 + num_uncarried a2)) -> entries ds ((NBASE - 1) * (1 + (num_uncarried a2 + 1))))
    by (intros ds He; eapply entries_mono; [done|]; unfold NBASE; lia).
  eexists. split; [done|]. split; [|split; [done|split]].
  - split; cbn [ac_dscale num_uncarried have_carry_space pos_digits neg_digits ac_weight]; try done; try (destruct (sign val =? NUMERIC_POS); auto; lia).
    intros _. destruct (sign val =? NUMERIC_POS); (split_and!; [intros E|..]); rewrite ?PH, ?NH; try done.
    rewrite E in PL. by destruct (pos_digits a2).
  - intros k C Hs. unfold covers, fits in C. cbn [acc_var digits weight pos_digits neg_digits ac_weight] in C. rewrite length_zip_with in C.
    assert (Hc : fits k (pos_digits a2) (ac_weight a2)) by (unfold fits; destruct (sign val =? NUMERIC_POS); lia).
    assert (Cv : covers k val) by (unfold covers, fits, ac_ndigits, ndigits in *; lia).
    pose proof (D k ltac:(by apply acc_covers) Hs) as E1. rewrite acc_value in E1 by done. specialize (D' k Cv Hs).
    rewrite Z.mul_add_distr_r, <- E1, <- D'. unfold svalue, sgn. unfold abs_value at 1. cbn [acc_var digits weight sign pos_digits neg_digits ac_weight].
    change (NUMERIC_POS =? NUMERIC_NEG) with false. cbv iota. rewrite pv_sub by (destruct (sign val =? NUMERIC_POS); lia).
    destruct (vo_sign _ V) as [-> | ->]; [change (NUMERIC_POS =? NUMERIC_POS) with true|change (NUMERIC_NEG =? NUMERIC_POS) with false];
      cbv iota; rewrite ?PV, ?NV; cbn; lia.
  - unfold ac_ndigits. cbn [pos_digits]. assert (length (pos_digits a2) <> 0%nat) by (by rewrite length_zero_iff_nil).
    destruct (sign val =? NUMERIC_POS); lia.
Qed.

(** ** The value at the end *)

Lemma swrap16_digits ds : Forall is_digit ds -> map (swrap 16) ds = ds.
Proof.
  induction 1 as [|d ds [H1 H2] _ IH]; [done|]. cbn [map]. rewrite IH, swrap_small; [done|lia|]. unfold NBASE in H2. unfold in_sint. cbn. lia.
Qed.

(** The difference of the two sums. *)
Lemma final_computes k a :
  acc_ok a -> num_uncarried a = 0 -> pos_digits a <> [] -> covers k (acc_var a) ->
  computes k (add_var (mkVar (ac_weight a) NUMERIC_POS (ac_dscale a) 0 (map (swrap 16) (pos_digits a)))
                      (mkVar (ac_weight a) NUMERIC_NEG (ac_dscale a) 0 (map (swrap 16) (neg_digits a))))
    (ac_dscale a) (svalue k (acc_var a)).
Proof.
  intros O Hu Hne C. rewrite acc_covers in C by done. rewrite acc_value by done. destruct O as [Hl _ Hp Hn _ _].
  rewrite Hu, Z.mul_1_r in Hp, Hn. apply digits_entries in Hp, Hn. rewrite !swrap16_digits by done.
  assert (Hne2 : neg_digits a <> []) by (intros E; rewrite E in Hl; by destruct (pos_digits a)).
  set (pvar := mkVar _ NUMERIC_POS _ _ _). set (nvar := mkVar _ NUMERIC_NEG _ _ _).
  unfold add_var. cbn [sign pvar nvar]. change (NUMERIC_POS =? NUMERIC_POS) with true. change (NUMERIC_NEG =? NUMERIC_POS) with false. cbv iota.
  eapply computes_eq.
  - rewrite <- (Z.max_id (ac_dscale a)). apply (diff_var_spec k pvar nvar NUMERIC_POS NUMERIC_NEG).
    + split; cbn; auto.
    + split; cbn; auto.
    + right. cbn. split; [lia|done].
    + right. cbn. split; [lia|done].
    + done.
    + unfold covers, fits in *. cbn [digits weight nvar]. lia.
    + by left.
  - cbn. unfold abs_value. cbn [digits weight pvar nvar]. lia.
Qed.

Lemma accum_sum_final_spec a m s :
  acc_ok a -> denotes (acc_var a) m s ->
  exists a' var, accum_sum_final a = (a', var) /\ acc_ok a' /\ denotes (acc_var a') m s /\ ac_dscale a' = ac_dscale a /\
    ac_ndigits a' = ac_ndigits a /\ var_ok var /\ denotes var m s /\ (dscale var = ac_dscale a \/ ac_ndigits a = 0).
Proof.
  intros O D. unfold accum_sum_final. destruct (Z.eqb_spec (ac_ndigits a) 0) as [E|Hne]; eexists _, _; (split; [done|]).
  - assert (Hnil : pos_digits a = []) by (apply length_zero_iff_nil; unfold ac_ndigits in E; lia).
    split_and!; [done|done|done|done|split; cbn; auto| |by right].
    assert (m = 0) as ->; [|by intros k _ _]. apply (denotes_nil (acc_var a) m s); [|done]. cbn. by rewrite Hnil.
  - destruct (accum_sum_carry_spec a O) as (O1 & Hu & Hsame). pose proof (acc_same_denotes a _ m s O O1 Hsame D) as D1.
    set (a1 := accum_sum_carry a) in *. clearbody a1. pose proof (as_length _ _ Hsame) as L.
    assert (Hne1 : pos_digits a1 <> []) by (intros E; rewrite E in L; unfold ac_ndigits in Hne; cbn in L; lia).
    set (var := add_var _ _). set (k0 := Z.max (unit_for (acc_var a1) s) (unit_for var s)).
    assert (C0 : covers k0 (acc_var a1)) by (apply (unit_covers _ s); lia). assert (Hk : s <= 4 * k0) by (apply (unit_scale (acc_var a1)); lia).
    destruct (final_computes k0 a1 O1 Hu Hne1 C0) as [H1 H2 H3 H4]. fold var in H1, H2, H3, H4.
    split_and!; [done|done|apply Hsame|unfold ac_ndigits; by rewrite L|by apply strip_var_ok| |].
    + apply strip_var_denotes, (denotes_at k0); [apply (unit_covers _ s); lia|done|]. rewrite H4. by apply D1.
    + left. rewrite strip_var_dscale, H3. apply Hsame.
Qed.

Lemma accum_zero_ok : acc_ok accum_zero.
Proof. split; cbn; try done; try lia; try constructor. Qed.

Lemma accum_zero_denotes s : denotes (acc_var accum_zero) 0 s.
Proof. intros k _ _. done. Qed.

Lemma accum_sum_reset_spec a s : acc_ok a -> acc_ok (accum_sum_reset a) /\ denotes (acc_var (accum_sum_reset a)) 0 s.
Proof.
  intros [Hl Hu Hp Hn Hr Hd].
  assert (O : acc_ok (accum_sum_reset a)).
  { split; cbn [accum_sum_reset ac_dscale num_uncarried have_carry_space pos_digits neg_digits ac_weight]; try done.
    - by rewrite !length_replicate.
    - apply Forall_replicate. unfold NBASE. lia.
    - apply Forall_replicate. unfold NBASE. lia.
    - intros H. destruct (Hr H) as (Hne & _ & _). split_and!; [by destruct (pos_digits a)|by destruct (pos_digits a)|by destruct (neg_digits a)]. }
  split; [done|]. intros k C _. rewrite acc_value by done. cbn [accum_sum_reset pos_digits neg_digits]. by rewrite !pv_replicate.
Qed.

Lemma accum_sum_copy_spec a m s :
  acc_ok a -> denotes (acc_var a) m s -> acc_ok (accum_sum_copy accum_zero a) /\ denotes (acc_var (accum_sum_copy accum_zero a)) m s.
Proof. intros [Hl Hu Hp Hn Hr Hd] D. split; [|exact D]. split; cbn; auto. intros [?|?]; [auto|done]. Qed.

Lemma accum_sum_combine_spec a a2 m m2 s :
  acc_ok a -> acc_ok a2 -> denotes (acc_var a) m s -> denotes (acc_var a2) m2 s ->
  exists a' a2', accum_sum_combine a a2 = Ok (a', a2') /\ acc_ok a' /\ denotes (acc_var a') (m + m2) s /\ ac_ndigits a' <> 0 /\
    (ac_ndigits a2 <> 0 -> ac_dscale a' = Z.max (ac_dscale a) (ac_dscale a2)).
Proof.
  intros O O2 D D2. unfold accum_sum_combine.
  destruct (accum_sum_final_spec a2 m2 s O2 D2) as (a2' & var & -> & _ & _ & _ & _ & V & Dv & Hs).
  destruct (accum_sum_add_spec a var m m2 s O V D Dv) as (a' & -> & O' & Hd & D' & Hne). exists a', a2'. split_and!; try done.
  intros H. destruct Hs as [Hs|?]; [|done]. by rewrite Hd, Hs.
Qed.

(** ** What is aggregated *)

Section Window.
Implicit Types ws : list Dec.

Definition is_fin (d : Dec) : bool := match d with Fin _ _ => true | NaN => false end.
Definition has_scale (S : Z) (d : Dec) : bool := match d with Fin _ s => s =? S | NaN => false end.

Definition count (P : Dec -> bool) ws : Z := Z.of_nat (length (List.filter P ws)).
Definition fin_count : list Dec -> Z := count is_fin.
Definition nan_count : list Dec -> Z := count (fun d => negb (is_fin d)).

Fixpoint max_scale ws : Z :=
  match ws with
  | [] => 0
  | Fin _ s :: ws' => Z.max s (max_scale ws')
  | NaN :: ws' => max_scale ws'
  end.

(** The sum of [f m], where [f m] has [e] times as many decimals as [m], in units
    of [10^(-e * S)]. *)
Fixpoint sum_of (e : Z) (f : Z -> Z) (S : Z) ws : Z :=
  match ws with
  | [] => 0
  | Fin m s :: ws' => f m * 10 ^ (e * (S - s)) + sum_of e f S ws'
  | NaN :: ws' => sum_of e f S ws'
  end.

Definition total : Z -> list Dec -> Z := sum_of 1 (fun m => m).
Definition squares : Z -> list Dec -> Z := sum_of 2 (fun m => m * m).

Lemma count_cons P d ws : count P (d :: ws) = (if P d then 1 else 0) + count P ws.
Proof. unfold count. cbn [List.filter]. destruct (P d); cbn [length]; lia. Qed.

Lemma count_app P ws1 ws2 : count P (ws1 ++ ws2) = count P ws1 + count P ws2.
Proof. unfold count. rewrite List.filter_app, length_app. lia. Qed.

Lemma count_bounds P ws : 0 <= count P ws <= Z.of_nat (length ws).
Proof. unfold count. pose proof (List.filter_length_le P ws). lia. Qed.

Lemma count_all ws : fin_count ws + nan_count ws = Z.of_nat (length ws).
Proof. induction ws as [|d ws IH]; [done|]. unfold fin_count, nan_count in *. rewrite !count_cons. destruct d; cbn [is_fin negb length]; lia. Qed.

Lemma max_scale_nonneg ws : 0 <= max_scale ws.
Proof. induction ws as [|[|m s] ws IH]; cbn; lia. Qed.

Lemma max_scale_app ws1 ws2 : max_scale (ws1 ++ ws2) = Z.max (max_scale ws1) (max_scale ws2).
Proof. pose proof (max_scale_nonneg ws2). induction ws1 as [|[|m s] ws1 IH]; cbn; lia. Qed.

Lemma sum_of_app e f S ws1 ws2 : sum_of e f S (ws1 ++ ws2) = sum_of e f S ws1 + sum_of e f S ws2.
Proof. induction ws1 as [|[|m s] ws1 IH]; cbn [app sum_of]; lia. Qed.

Lemma max_scale_le m s ws : In (Fin m s) ws -> s <= max_scale ws.
Proof. induction ws as [|[|m' s'] ws IH]; [done|..]; intros [[=]|H]; cbn; [auto|lia|]. specialize (IH H). lia. Qed.

Lemma sum_of_rescale e f S S' ws :
  0 <= e -> max_scale ws <= S -> S <= S' -> sum_of e f S' ws = sum_of e f S ws * 10 ^ (e * (S' - S)).
Proof.
  intros He. induction ws as [|[|m s] ws IH]; cbn [sum_of max_scale]; intros Hm HS; [done|auto|].
  rewrite IH by lia. rewrite Z.mul_add_distr_r, <- Z.mul_assoc, <- Z.pow_add_r by nia. do 3 f_equal. lia.
Qed.

(** Without numbers. *)
Lemma no_numbers ws : fin_count ws = 0 -> max_scale ws = 0 /\ forall e f S, sum_of e f S ws = 0.
Proof.
  unfold fin_count. induction ws as [|[|m s] ws IH]; [done|..]; rewrite count_cons; cbn [is_fin max_scale sum_of].
  - intros H. apply IH. lia.
  - pose proof (count_bounds is_fin ws). lia.
Qed.

Lemma scale_count_above S ws : max_scale ws < S -> count (has_scale S) ws = 0.
Proof.
  induction ws as [|[|m s] ws IH]; [done|..]; rewrite count_cons; cbn [has_scale max_scale]; intros H; [apply IH; lia|].
  destruct (Z.eqb_spec s S); [lia|]. rewrite IH by lia. done.
Qed.

(** The maximum is reached. *)
Lemma scale_count_max ws : 0 < max_scale ws -> 0 < count (has_scale (max_scale ws)) ws.
Proof.
  induction ws as [|[|m s] ws IH]; cbn [max_scale]; [lia|..]; rewrite count_cons; cbn [has_scale]; intros H.
  - specialize (IH H). lia.
  - pose proof (count_bounds (has_scale (Z.max s (max_scale ws))) ws). destruct (Z.eqb_spec s (Z.max s (max_scale ws))); [lia|].
    replace (Z.max s (max_scale ws)) with (max_scale ws) in * by lia. specialize (IH H). lia.
Qed.

Global Instance count_perm P : Proper ((≡ₚ) ==> (=)) (count P).
Proof. intros ws1 ws2 H. induction H; rewrite ?count_cons; lia. Qed.
Global Instance max_scale_perm : Proper ((≡ₚ) ==> (=)) max_scale.
Proof. intros ws1 ws2 H. induction H as [|[] | [] [] |]; cbn; lia. Qed.
Global Instance sum_of_perm e f S : Proper ((≡ₚ) ==> (=)) (sum_of e f S).
Proof. intros ws1 ws2 H. induction H as [|[] | [] [] |]; cbn [sum_of]; lia. Qed.
End Window.

(** ** The invariant of the aggregates *)

Definition sum_inv (e : Z) (f : Z -> Z) (a : NumericSumAccum) (ws : list Dec) : Prop :=
  acc_ok a /\ denotes (acc_var a) (sum_of e f (max_scale ws) ws) (e * max_scale ws).

Definition square (m : Z) : Z := m * m.

Record agg_inv (calc : bool) (st : NumericAggState) (ws : list Dec) : Prop := {
  ai_calc : calcSumX2 st = calc;
  ai_length : Z.of_nat (length ws) < 2 ^ 63;
  ai_N : N st = fin_count ws;
  ai_NaN : NaNcount st = nan_count ws;
  ai_max : maxScale st = max_scale ws;
  ai_count : maxScaleCount st = count (has_scale (max_scale ws)) ws;
  ai_sum : sum_inv 1 (fun m => m) (sumX st) ws;
  ai_dscale : ac_dscale (sumX st) = max_scale ws;
  ai_ndigits : 0 < fin_count ws -> ac_ndigits (sumX st) <> 0;
  ai_squares : calc = true -> sum_inv 2 square (sumX2 st) ws
}.

Lemma int64_small x : - 2 ^ 63 <= x < 2 ^ 63 -> int64 x = x.
Proof. intros. apply swrap_small; [lia|]. exact H. Qed.

Lemma sum_inv_rescale e f a ws S :
  0 <= e -> max_scale ws <= S -> sum_inv e f a ws -> denotes (acc_var a) (sum_of e f S ws) (e * S).
Proof.
  intros He HS [_ D]. rewrite (sum_of_rescale e f (max_scale ws) S) by lia.
  replace (e * (S - max_scale ws)) with (e * S - e * max_scale ws) by lia. apply denotes_rescale; [nia|done].
Qed.

Lemma value_rescale e (f : Z -> Z) X m s S : 0 <= e -> s <= S -> denotes X (f m) (e * s) -> denotes X (f m * 10 ^ (e * (S - s))) (e * S).
Proof. intros He HS D. replace (e * (S - s)) with (e * S - e * s) by lia. apply denotes_rescale; [nia|done]. Qed.

Lemma sum_inv_add e f a ws m s X :
  0 <= e -> sum_inv e f a ws -> var_ok X -> denotes X (f m) (e * s) ->
  exists a', accum_sum_add a X = Ok a' /\ sum_inv e f a' (Fin m s :: ws) /\ ac_dscale a' = Z.max (ac_dscale a) (dscale X) /\ ac_ndigits a' <> 0.
Proof.
  intros He I V D. set (S := Z.max s (max_scale ws)).
  pose proof (sum_inv_rescale e f a ws S He ltac:(lia) I) as D1. pose proof (value_rescale e f X m s S He ltac:(lia) D) as D2.
  destruct (accum_sum_add_spec a X _ _ (e * S) (proj1 I) V D1 D2) as (a' & E & O & Hs & D' & Hn).
  exists a'. split_and!; try done. split; [done|]. cbn [max_scale sum_of]. fold S. by rewrite Z.add_comm.
Qed.

Lemma sum_inv_remove e f a ws ws' m s X :
  0 <= e -> ws ≡ₚ Fin m s :: ws' -> max_scale ws' = max_scale ws -> sum_inv e f a ws -> var_ok X -> denotes X (- f m) (e * s) ->
  exists a', accum_sum_add a X = Ok a' /\ sum_inv e f a' ws' /\ ac_dscale a' = Z.max (ac_dscale a) (dscale X) /\ ac_ndigits a' <> 0.
Proof.
  intros He Hp Hmax I V D. assert (Hs : s <= max_scale ws) by (rewrite Hp; cbn; lia).
  pose proof (value_rescale e (fun m => - f m) X m s (max_scale ws) He Hs D) as D2.
  destruct (accum_sum_add_spec a X _ _ _ (proj1 I) V (proj2 I) D2) as (a' & E & O & Hd & D' & Hn).
  exists a'. split_and!; try done. split; [done|]. rewrite Hmax.
  rewrite (sum_of_perm e f (max_scale ws) ws (Fin m s :: ws') Hp) in D'. cbn [sum_of] in D'.
  intros k C Hk. rewrite (D' k C Hk). f_equal. lia.
Qed.

Lemma sum_inv_merge e f a1 a2 ws1 ws2 :
  0 <= e -> sum_inv e f a1 ws1 -> sum_inv e f a2 ws2 ->
  exists a' a2', accum_sum_combine a1 a2 = Ok (a', a2') /\ sum_inv e f a' (ws1 ++ ws2) /\ ac_ndigits a' <> 0 /\
    (ac_ndigits a2 <> 0 -> ac_dscale a' = Z.max (ac_dscale a1) (ac_dscale a2)).
Proof.
  intros He I1 I2. set (S := max_scale (ws1 ++ ws2)). pose proof (max_scale_app ws1 ws2) as HS. fold S in HS.
  destruct (accum_sum_combine_spec a1 a2 _ _ _ (proj1 I1) (proj1 I2) (sum_inv_rescale e f a1 ws1 S He ltac:(lia) I1)
    (sum_inv_rescale e f a2 ws2 S He ltac:(lia) I2)) as (a' & a2' & E & O & D & Hn & Hd).
  exists a', a2'. split_and!; try done. split; [done|]. fold S. by rewrite sum_of_app.
Qed.

(** Nothing but NaN. *)
Lemma sum_inv_reset e f a ws : acc_ok a -> fin_count ws = 0 -> sum_inv e f (accum_sum_reset a) ws.
Proof. intros O H. destruct (no_numbers ws H) as [_ Hs]. unfold sum_inv. rewrite Hs. by apply accum_sum_reset_spec. Qed.

(** ** The steps *)

Lemma agg_inv_start calc : agg_inv calc (makeNumericAggState calc) [].
Proof.
  split; cbn; try done; try lia; [|intros _]; (split; [apply accum_zero_ok|apply accum_zero_denotes]).
Qed.

(** The argument, and its square if it is needed. *)
Lemma argument_vars num m s calc :
  numeric_is num (Fin m s) ->
  let X := init_var_from_num num in
  var_ok X /\ denotes X m (1 * s) /\ dscale X = s /\
  exists X2, square_if calc X = Ok X2 /\ (calc = true -> var_ok X2 /\ denotes X2 (square m) (2 * s)).
Proof.
  intros Nm. pose proof (numeric_is_scale _ _ _ Nm) as Hs. destruct Nm as ([_ _ _ V St] & E & D). cbv zeta.
  split_and!; [done|by rewrite Z.mul_1_l|done|]. unfold square_if. destruct calc; [|by exists (init_var_from_num num)].
  destruct (mul_var_spec _ _ m m s s V V St St D D ltac:(lia) ltac:(lia)) as (X2 & EX & V2 & _ & _ & D2 & _).
  exists X2. cbn [init_var_from_num dscale]. rewrite E. replace (s * 2) with (s + s) by lia. split; [done|]. intros _. split; [done|].
  by replace (2 * s) with (s + s) by lia.
Qed.

Lemma agg_inv_accum calc st ws num d :
  agg_inv calc st ws -> numeric_is num d -> Z.of_nat (S (length ws)) < 2 ^ 63 ->
  exists st', do_numeric_accum st num = Ok st' /\ agg_inv calc st' (d :: ws).
Proof.
  intros [Ec Hlen HN Hnan Hmax Hcnt I Hds Hnd Hsq] Nm Hlen'. unfold do_numeric_accum. rewrite (numeric_is_NaN _ _ Nm).
  pose proof (count_all ws) as Hall. pose proof (count_bounds is_fin ws). pose proof (count_bounds (fun d => negb (is_fin d)) ws).
  fold (fin_count ws) in *. fold (nan_count ws) in *. pose proof (count_bounds (has_scale (max_scale ws)) ws).
  destruct d as [|m s].
  { eexists. split; [done|]. split; cbn [calcSumX2 N NaNcount maxScale maxScaleCount sumX sumX2 length]; try done.
    rewrite int64_small by lia. rewrite Hnan. unfold nan_count. rewrite count_cons. cbn. lia. }
  destruct (argument_vars num m s (calcSumX2 st) Nm) as (V & D & Es & X2 & -> & HX2). cbv zeta in *. rewrite Es, Hmax. cbn [mbind result_bind].
  set (scales := if s >? max_scale ws then _ else _).
  assert (Hsc : scales = (max_scale (Fin m s :: ws), count (has_scale (max_scale (Fin m s :: ws))) (Fin m s :: ws))).
  { subst scales. rewrite Hcnt, Z.gtb_ltb, count_cons. cbn [max_scale has_scale]. destruct (Z.ltb_spec (max_scale ws) s).
    - rewrite Z.max_l, Z.eqb_refl, scale_count_above by lia. done.
    - rewrite Z.max_r by lia. destruct (Z.eqb_spec s (max_scale ws)); [|done]. rewrite int64_small by lia. f_equal. lia. }
  rewrite Hsc. clear scales Hsc.
  destruct (sum_inv_add 1 (fun m => m) _ ws m s _ ltac:(lia) I V D) as (a' & -> & I' & Hd' & Hn'). cbn [mbind result_bind].
  assert (H2 : exists a2, add_if (calcSumX2 st) (sumX2 st) X2 = Ok a2 /\ (calc = true -> sum_inv 2 square a2 (Fin m s :: ws))).
  { unfold add_if. rewrite Ec in *. destruct calc; [|by exists (sumX2 st)]. destruct (HX2 eq_refl) as [V2 D2].
    destruct (sum_inv_add 2 square _ ws m s X2 ltac:(lia) (Hsq eq_refl) V2 D2) as (a2 & -> & ? & _). by exists a2. }
  destruct H2 as (a2 & -> & I2). cbn [mbind result_bind]. eexists. split; [done|].
  split; cbn [calcSumX2 N NaNcount maxScale maxScaleCount sumX sumX2 length]; try done.
  - rewrite int64_small by lia. rewrite HN. unfold fin_count. rewrite count_cons. cbn. lia.
  - rewrite Hd', Hds, Es. cbn. lia.
Qed.

Lemma flip_denotes X m s (X' := with_sign (if sign X =? NUMERIC_POS then NUMERIC_NEG else NUMERIC_POS) X) :
  var_ok X -> denotes X m s -> var_ok X' /\ denotes X' (- m) s.
Proof.
  intros [Hd Hs] D. split; [split; cbn; [done|destruct (_ =? _); auto]|]. intros k C Hk. specialize (D k C Hk).
  unfold svalue, sgn, abs_value in *. subst X'. cbn [with_sign sign digits weight] in *.
  destruct Hs as [E|E]; rewrite E in *; cbn [Z.eqb Pos.eqb NUMERIC_POS NUMERIC_NEG] in *; lia.
Qed.

Lemma negate_denotes X m s : var_ok X -> 0 <= m -> denotes X m s -> var_ok (with_sign NUMERIC_NEG X) /\ denotes (with_sign NUMERIC_NEG X) (- m) s.
Proof.
  intros V Hm D. split; [split; cbn; [apply V|auto]|]. intros k C Hk. pose proof (abs_value_denotes k X m s V C Hk D) as E.
  unfold svalue, sgn. cbn [with_sign sign]. change (NUMERIC_NEG =? NUMERIC_NEG) with true. cbv iota.
  change (abs_value k (with_sign NUMERIC_NEG X)) with (abs_value k X). rewrite E. lia.
Qed.

Lemma no_numbers_scale ws S : fin_count ws = 0 -> count (has_scale S) ws = 0.
Proof.
  unfold fin_count. induction ws as [|[|m s] ws IH]; [done|..]; rewrite !count_cons; cbn [is_fin has_scale]; intros H.
  - rewrite IH; lia.
  - pose proof (count_bounds is_fin ws). lia.
Qed.

(** Whether removing the value lowers the maximum scale while numbers are left. *)
Definition uncertain (ws ws' : list Dec) : bool := (max_scale ws' <? max_scale ws) && (0 <? fin_count ws').

(** What the scale fields become. *)
Lemma discard_scales st ws ws' m s :
  ws ≡ₚ Fin m s :: ws' -> 0 <= s -> Z.of_nat (length ws) < 2 ^ 63 ->
  N st = fin_count ws -> maxScale st = max_scale ws -> maxScaleCount st = count (has_scale (max_scale ws)) ws ->
  (if s =? maxScale st then
     if (maxScaleCount st >? 1) || (maxScale st =? 0) then Some (maxScale st, int64 (maxScaleCount st - 1))
     else if N st =? 1 then Some (0, 0) else None
   else Some (maxScale st, maxScaleCount st)) =
  (if uncertain ws ws' then None else Some (max_scale ws', count (has_scale (max_scale ws')) ws')) /\
  (N st >? 1) = (0 <? fin_count ws') /\ N st = 1 + fin_count ws' /\ (uncertain ws ws' = false -> 0 < fin_count ws' -> max_scale ws' = max_scale ws).
Proof.
  intros Hp Hs Hlen HN Hmax Hcnt. pose proof (count_bounds is_fin ws') as Hb. fold (fin_count ws') in Hb.
  assert (EN : N st = 1 + fin_count ws') by (rewrite HN; unfold fin_count; by rewrite Hp, count_cons).
  assert (ES : max_scale ws = Z.max s (max_scale ws')) by (by rewrite Hp).
  assert (EC : maxScaleCount st = (if s =? max_scale ws then 1 else 0) + count (has_scale (max_scale ws)) ws')
    by (rewrite Hcnt; rewrite Hp at 2; by rewrite count_cons).
  pose proof (max_scale_nonneg ws') as Hnn. rewrite Hmax. pose proof (count_bounds (has_scale (max_scale ws)) ws) as HB. rewrite <- Hcnt in HB.
  assert (Hnone : fin_count ws' = 0 -> max_scale ws' = 0) by (intros H; apply (no_numbers ws' H)).
  pose proof (count_bounds (has_scale (max_scale ws)) ws') as HB'.
  assert (Habove : max_scale ws' < max_scale ws -> count (has_scale (max_scale ws)) ws' = 0) by apply scale_count_above.
  assert (Hreach : max_scale ws' = max_scale ws -> 0 < max_scale ws -> 0 < count (has_scale (max_scale ws)) ws')
    by (intros <- H; by apply scale_count_max).
  unfold uncertain. split_and!; [|rewrite EN, Z.gtb_ltb; destruct (Z.ltb_spec 1 (1 + fin_count ws')), (Z.ltb_spec 0 (fin_count ws')); done || lia|done|].
  2: { intros Hu H. destruct (Z.ltb_spec (max_scale ws') (max_scale ws)), (Z.ltb_spec 0 (fin_count ws')); done || lia. }
  rewrite Z.gtb_ltb. destruct (Z.eqb_spec s (max_scale ws)) as [E|E].
  - destruct (Z.ltb_spec 1 (maxScaleCount st)), (Z.eqb_spec (max_scale ws) 0), (Z.eqb_spec (N st) 1),
      (Z.ltb_spec (max_scale ws') (max_scale ws)), (Z.ltb_spec 0 (fin_count ws')); cbn [orb andb]; try lia; try done;
      try (replace (max_scale ws') with (max_scale ws) by lia; rewrite int64_small by lia; f_equal; f_equal; lia).
    all: rewrite Hnone, no_numbers_scale by lia; done.
  - destruct (Z.ltb_spec (max_scale ws') (max_scale ws)); [lia|]. cbn [andb]. replace (max_scale ws') with (max_scale ws) by lia.
    do 2 f_equal. lia.
Qed.

Lemma agg_inv_discard_NaN calc st ws ws' :
  agg_inv calc st ws -> ws ≡ₚ NaN :: ws' ->
  agg_inv calc (mkAgg (calcSumX2 st) (N st) (sumX st) (sumX2 st) (maxScale st) (maxScaleCount st) (int64 (NaNcount st - 1))) ws'.
Proof.
  intros [Ec Hlen HN Hnan Hmax Hcnt I Hds Hnd Hsq] Hp. pose proof (Permutation_length Hp) as HL. cbn [length] in HL.
  pose proof (count_all ws') as Hall. pose proof (count_bounds is_fin ws'). pose proof (count_bounds (fun d => negb (is_fin d)) ws').
  fold (fin_count ws') in *. fold (nan_count ws') in *.
  assert (Enan : nan_count ws = 1 + nan_count ws') by (unfold nan_count; by rewrite Hp, count_cons).
  assert (ES : max_scale ws = max_scale ws') by (by rewrite Hp).
  assert (EF : fin_count ws = fin_count ws') by (unfold fin_count; by rewrite Hp, count_cons).
  split; cbn [calcSumX2 N NaNcount maxScale maxScaleCount sumX sumX2]; try lia; try done.
  - rewrite int64_small by lia. lia.
  - rewrite Hcnt, ES. rewrite Hp at 1. by rewrite count_cons.
  - destruct I as [O D]. split; [done|]. rewrite ES in D. by rewrite Hp in D.
  - intros Hc. destruct (Hsq Hc) as [O D]. split; [done|]. rewrite ES in D. by rewrite Hp in D.
Qed.

Lemma agg_inv_discard calc st ws ws' num d :
  agg_inv calc st ws -> ws ≡ₚ d :: ws' -> numeric_is num d ->
  if uncertain ws ws' then do_numeric_discard st num = Ok None
  else exists st', do_numeric_discard st num = Ok (Some st') /\ agg_inv calc st' ws'.
Proof.
  intros Inv Hp Nm. unfold do_numeric_discard. rewrite (numeric_is_NaN _ _ Nm). destruct d as [|m s].
  { assert (ES : max_scale ws = max_scale ws') by (by rewrite Hp). unfold uncertain. rewrite ES, Z.ltb_irrefl. cbn [andb].
    eexists. split; [done|]. by eapply agg_inv_discard_NaN. }
  destruct Inv as [Ec Hlen HN Hnan Hmax Hcnt I Hds Hnd Hsq].
  pose proof (Permutation_length Hp) as HL. cbn [length] in HL. pose proof (count_all ws') as Hall.
  pose proof (count_bounds is_fin ws'). fold (fin_count ws') in *. pose proof (count_bounds (fun d => negb (is_fin d)) ws'). fold (nan_count ws') in *.
  assert (Enan : nan_count ws = nan_count ws') by (unfold nan_count; by rewrite Hp, count_cons).
  destruct (argument_vars num m s (calcSumX2 st) Nm) as (V & D & Es & X2 & EX2 & HX2). cbv zeta in *. rewrite Es.
  pose proof (numeric_is_scale _ _ _ Nm) as Hs0.
  destruct (discard_scales st ws ws' m s Hp ltac:(lia) Hlen HN Hmax Hcnt) as (-> & -> & EN & HS).
  destruct (uncertain ws ws'); [done|]. specialize (HS eq_refl). rewrite EX2. cbn [mbind result_bind].
  destruct (Z.ltb_spec 0 (fin_count ws')) as [Hf|Hf].
  - specialize (HS Hf). destruct (flip_denotes _ _ _ V D) as [V' D'].
    destruct (sum_inv_remove 1 (fun m => m) (sumX st) ws ws' m s _ ltac:(lia) Hp HS I V' D') as (a' & -> & I' & Hd' & Hn').
    cbn [mbind result_bind].
    assert (H2 : exists a2, add_if (calcSumX2 st) (sumX2 st) (with_sign NUMERIC_NEG X2) = Ok a2 /\ (calc = true -> sum_inv 2 square a2 ws')).
    { unfold add_if. rewrite Ec in *. destruct calc; [|by exists (sumX2 st)]. destruct (HX2 eq_refl) as [V2 D2].
      destruct (negate_denotes _ _ _ V2 (Z.square_nonneg m) D2) as [V2' D2'].
      destruct (sum_inv_remove 2 square _ ws ws' m s _ ltac:(lia) Hp HS (Hsq eq_refl) V2' D2') as (a2 & -> & ? & _). by exists a2. }
    destruct H2 as (a2 & -> & I2). cbn [mbind result_bind]. eexists. split; [done|].
    split; cbn [calcSumX2 N NaNcount maxScale maxScaleCount sumX sumX2]; try done; try lia.
    + rewrite int64_small by lia. lia.
    + rewrite Hd', Hds. cbn [with_sign dscale]. rewrite Es, HS. assert (s <= max_scale ws) by (rewrite Hp; cbn; lia). lia.
  - assert (Hz : fin_count ws' = 0) by lia. eexists. split; [done|].
    split; cbn [calcSumX2 N NaNcount maxScale maxScaleCount sumX sumX2]; try done; try lia.
    + rewrite int64_small by lia. lia.
    + apply sum_inv_reset; [apply I|done].
    + cbn. symmetry. by apply (no_numbers ws').
    + intros Hc. rewrite Ec, Hc. apply sum_inv_reset; [by apply Hsq|done].
Qed.

Lemma agg_inv_combine calc st1 st2 ws1 ws2 :
  agg_inv calc st1 ws1 -> agg_inv calc st2 ws2 -> Z.of_nat (length (ws1 ++ ws2)) < 2 ^ 63 ->
  exists st st2', agg_combine calc (Some st1) (Some st2) = Ok (Some st, Some st2') /\ agg_inv calc st (ws1 ++ ws2).
Proof.
  intros [Ec1 Hl1 HN1 Hnan1 Hmax1 Hcnt1 I1 Hds1 Hnd1 Hsq1] [Ec2 Hl2 HN2 Hnan2 Hmax2 Hcnt2 I2 Hds2 Hnd2 Hsq2] Hlen. unfold agg_combine.
  rewrite length_app in Hlen. pose proof (count_all ws1). pose proof (count_all ws2).
  pose proof (count_bounds is_fin ws1). pose proof (count_bounds is_fin ws2).
  pose proof (count_bounds (fun d => negb (is_fin d)) ws1). pose proof (count_bounds (fun d => negb (is_fin d)) ws2).
  fold (fin_count ws1) (fin_count ws2) (nan_count ws1) (nan_count ws2) in *.
  assert (EF : int64 (N st1 + N st2) = fin_count (ws1 ++ ws2)) by (rewrite int64_small by lia; unfold fin_count in *; rewrite count_app; lia).
  assert (EN : int64 (NaNcount st1 + NaNcount st2) = nan_count (ws1 ++ ws2)) by (rewrite int64_small by lia; unfold nan_count in *; rewrite count_app; lia).
  rewrite EF, EN, HN2, Z.gtb_ltb. pose proof (max_scale_app ws1 ws2) as ES.
  destruct (Z.ltb_spec 0 (fin_count ws2)) as [Hf|Hf].
  - set (scales := if maxScale st2 >? maxScale st1 then _ else _).
    assert (Hsc : scales = (max_scale (ws1 ++ ws2), count (has_scale (max_scale (ws1 ++ ws2))) (ws1 ++ ws2))).
    { subst scales. rewrite ES, count_app, Hmax1, Hmax2, Hcnt1, Hcnt2, Z.gtb_ltb.
      pose proof (count_bounds (has_scale (max_scale ws1)) ws1). pose proof (count_bounds (has_scale (max_scale ws1)) ws2).
      destruct (Z.ltb_spec (max_scale ws1) (max_scale ws2)).
      - rewrite Z.max_r by lia. by rewrite (scale_count_above _ ws1) by lia.
      - rewrite Z.max_l by lia. destruct (Z.eqb_spec (max_scale ws2) (max_scale ws1)) as [E|E].
        + rewrite E. rewrite int64_small by lia. done.
        + rewrite (scale_count_above _ ws2) by lia. by rewrite Z.add_0_r. }
    rewrite Hsc. clear scales Hsc.
    destruct (sum_inv_merge 1 (fun m => m) _ _ ws1 ws2 ltac:(lia) I1 I2) as (a & a2 & -> & I & Hn & Hd). cbn [mbind result_bind].
    assert (H2' : exists b b2, combine_if calc (sumX2 st1) (sumX2 st2) = Ok (b, b2) /\ (calc = true -> sum_inv 2 square b (ws1 ++ ws2))).
    { unfold combine_if. destruct calc; [|by exists (sumX2 st1), (sumX2 st2)].
      destruct (sum_inv_merge 2 square _ _ ws1 ws2 ltac:(lia) (Hsq1 eq_refl) (Hsq2 eq_refl)) as (b & b2 & -> & ? & _). by exists b, b2. }
    destruct H2' as (b & b2 & -> & Isq). cbn [mbind result_bind]. eexists _, _. split; [done|].
    split; cbn [calcSumX2 N NaNcount maxScale maxScaleCount sumX sumX2]; try done; [rewrite length_app; lia|].
    rewrite Hd by auto. lia.
  - assert (Hz : fin_count ws2 = 0) by lia. destruct (no_numbers ws2 Hz) as [Hm2 Hs2]. eexists _, _. split; [done|].
    pose proof (max_scale_nonneg ws1) as Hnn. rewrite Hm2, Z.max_l in ES by lia.
    assert (Hkeep : forall e f a, sum_inv e f a ws1 -> sum_inv e f a (ws1 ++ ws2)).
    { intros e f a [O D]. split; [done|]. rewrite ES, sum_of_app, Hs2, Z.add_0_r. done. }
    split; cbn [calcSumX2 N NaNcount maxScale maxScaleCount sumX sumX2]; try done; auto; try (rewrite ES; done); try (rewrite length_app; lia).
    + rewrite ES, count_app, (no_numbers_scale ws2) by done. lia.
    + intros Hp. apply Hnd1. unfold fin_count in *. rewrite count_app in Hp. lia.
Qed.

Lemma agg_inv_copy calc st ws :
  agg_inv calc st ws -> exists st', agg_combine calc None (Some st) = Ok (Some st', Some st) /\ agg_inv calc st' ws.
Proof.
  intros [Ec Hl HN Hnan Hmax Hcnt I Hds Hnd Hsq]. eexists. split; [done|].
  split; cbn [calcSumX2 N NaNcount maxScale maxScaleCount sumX sumX2]; try done.
  - destruct I as [O D]. by apply accum_sum_copy_spec.
  - intros Hc. rewrite Hc. destruct (Hsq Hc) as [O D]. by apply accum_sum_copy_spec.
Qed.

(** The sum: null without values, NaN when one of them is, otherwise with as many
    decimals as the value that has most. *)
Definition sum_result (ws : list Dec) : option Dec :=
  match ws with
  | [] => None
  | _ => if forallb is_fin ws then Some (Fin (total (max_scale ws) ws) (max_scale ws)) else Some NaN
  end.

Definition returns_sum (st st' : NumericAggState) (d : option Dec) : Prop :=
  match d with
  | None => numeric_sum (Some st) = Ok (None, Some st) /\ st' = st
  | Some d => exists r, returns r d /\ numeric_sum (Some st) = (num ← r; Ok (Some num, Some st'))
  end.

Lemma nan_count_forallb ws : forallb is_fin ws = (nan_count ws =? 0).
Proof.
  induction ws as [|d ws IH]; [done|]. unfold nan_count in *. rewrite count_cons. cbn [forallb]. rewrite IH.
  pose proof (count_bounds (fun d => negb (is_fin d)) ws). destruct (is_fin d); cbn [andb negb]; [done|]. symmetry. apply Z.eqb_neq. lia.
Qed.

Lemma agg_inv_sum calc st ws : agg_inv calc st ws -> exists st', returns_sum st st' (sum_result ws) /\ agg_inv calc st' ws.
Proof.
  intros Inv. pose proof Inv as [Ec Hl HN Hnan Hmax Hcnt I Hds Hnd Hsq]. pose proof (count_all ws) as Hall.
  unfold sum_result, returns_sum, numeric_sum. rewrite HN, Hnan, Hall, int64_small by lia.
  destruct ws as [|d ws']; [by exists st|]. set (ws := d :: ws') in *.
  destruct (Z.eqb_spec (Z.of_nat (length ws)) 0); [subst ws; cbn [length] in *; lia|].
  rewrite nan_count_forallb, Z.gtb_ltb. pose proof (count_bounds (fun d => negb (is_fin d)) ws) as Hb. fold (nan_count ws) in Hb.
  destruct (Z.eqb_spec (nan_count ws) 0), (Z.ltb_spec 0 (nan_count ws)); try lia.
  - assert (Hf : 0 < fin_count ws) by lia. destruct I as [O D]. rewrite Z.mul_1_l in D.
    destruct (accum_sum_final_spec (sumX st) _ _ O D) as (a' & var & -> & O' & D' & Hd' & Hn' & V & Dv & Hs).
    eexists. split; [exists (make_result var); split; [|done]|].
    + apply make_result_returns; [done|exact Dv|destruct Hs as [->|Hz]; [done|by destruct (Hnd Hf)]|apply max_scale_nonneg].
    + split; cbn [calcSumX2 N NaNcount maxScale maxScaleCount sumX sumX2]; try done.
      * split; [done|]. by rewrite Z.mul_1_l.
      * by rewrite Hd'.
      * rewrite Hn'. auto.
  - exists st. split; [|done]. exists make_nan. split; [apply make_nan_returns|done].
Qed.

(** ** Aggregation as a state machine *)

(** The states that aggregate the values [ws]: the functions that the executor
    calls, in any order.  Fewer than 2^63 values. *)
Inductive aggregates (calc : bool) : list Dec -> NumericAggState -> Prop :=
| agg_start : aggregates calc [] (makeNumericAggState calc)
| agg_add ws st num d st' :
    aggregates calc ws st -> numeric_is num d -> Z.of_nat (S (length ws)) < 2 ^ 63 ->
    agg_accum calc (Some st) (Some num) = Ok st' -> aggregates calc (d :: ws) st'
| agg_remove ws ws' st num d st' :
    aggregates calc ws st -> ws ≡ₚ d :: ws' -> numeric_is num d ->
    numeric_accum_inv (Some st) (Some num) = Ok (Some st') -> aggregates calc ws' st'
| agg_copy ws st st' rest :
    aggregates calc ws st -> agg_combine calc None (Some st) = Ok (Some st', rest) -> aggregates calc ws st'
| agg_merge ws1 ws2 st1 st2 st rest :
    aggregates calc ws1 st1 -> aggregates calc ws2 st2 -> Z.of_nat (length (ws1 ++ ws2)) < 2 ^ 63 ->
    agg_combine calc (Some st1) (Some st2) = Ok (Some st, rest) -> aggregates calc (ws1 ++ ws2) st
| agg_final ws st r st' :
    aggregates calc ws st -> numeric_sum (Some st) = Ok (r, Some st') -> aggregates calc ws st'.

Lemma aggregates_inv calc ws st : aggregates calc ws st -> agg_inv calc st ws.
Proof.
  induction 1 as [|ws st num d st' _ IH Nm Hl E|ws ws' st num d st' _ IH Hp Nm E|ws st st' rest _ IH E|ws1 ws2 st1 st2 st rest _ IH1 _ IH2 Hl E|ws st r st' _ IH E].
  - apply agg_inv_start.
  - destruct (agg_inv_accum calc st ws num d IH Nm Hl) as (st'' & E' & I). cbn in E. congruence.
  - pose proof (agg_inv_discard calc st ws ws' num d IH Hp Nm) as H. cbn in E. destruct (uncertain ws ws'); [congruence|].
    destruct H as (st'' & E' & I). congruence.
  - destruct (agg_inv_copy calc st ws IH) as (st'' & E' & I). congruence.
  - destruct (agg_inv_combine calc st1 st2 ws1 ws2 IH1 IH2 Hl) as (st'' & rest' & E' & I). congruence.
  - destruct (agg_inv_sum calc st ws IH) as (st'' & R & I). unfold returns_sum in R. destruct (sum_result ws) as [d|].
    + destruct R as (r' & _ & E'). rewrite E in E'. destruct r'; cbn in E'; congruence.
    + destruct R as [E' ->]. congruence.
Qed.

(** C29: the sum aggregate, for ordinary, moving-window and parallel aggregation.
    In every state that the transition, inverse transition, combine and final
    functions reach, the final function returns the exact sum of the values that
    are aggregated, with the greatest of their scales (null for no value, NaN if
    one of them is, the overflow error only when the sum does not fit); the
    sum of squares, where it is kept, is exact as well.  The transition function
    never fails, no digit of the accumulator overflows, and the inverse
    transition function gives up exactly when the value removed is the last one
    of the greatest scale and other numbers are left. *)
Theorem numeric_sum_exact calc ws st :
  aggregates calc ws st ->
  (exists st', returns_sum st st' (sum_result ws)) /\
  (calc = true -> denotes (acc_var (sumX2 st)) (squares (max_scale ws) ws) (2 * max_scale ws)) /\
  (forall num d, numeric_is num d -> Z.of_nat (S (length ws)) < 2 ^ 63 ->
     exists st', agg_accum calc (Some st) (Some num) = Ok st' /\ aggregates calc (d :: ws) st') /\
  (forall num d ws', numeric_is num d -> ws ≡ₚ d :: ws' ->
     if uncertain ws ws' then numeric_accum_inv (Some st) (Some num) = Ok None
     else exists st', numeric_accum_inv (Some st) (Some num) = Ok (Some st') /\ aggregates calc ws' st').
Proof.
  intros A. pose proof (aggregates_inv _ _ _ A) as Inv. split_and!.
  - destruct (agg_inv_sum calc st ws Inv) as (st' & R & _). by exists st'.
  - intros Hc. by apply (ai_squares _ _ _ Inv).
  - intros num d Nm Hl. destruct (agg_inv_accum calc st ws num d Inv Nm Hl) as (st' & E & _). exists st'. split; [done|]. by eapply agg_add.
  - intros num d ws' Nm Hp. pose proof (agg_inv_discard calc st ws ws' num d Inv Hp Nm) as H.
    destruct (uncertain ws ws'); [done|]. destruct H as (st' & E & _). exists st'. split; [done|]. by eapply agg_remove.
Qed.

Lemma numeric_sum_exact_witness :
  exists st, aggregates true [Fin 12345 2; Fin (-50) 2] st /\ (exists st', returns_sum st st' (Some (Fin 12295 2))) /\
    numeric_accum_inv (Some st) (Some num_123_45) <> Ok None.
Proof.
  assert (A : exists st, aggregates true [Fin 12345 2; Fin (-50) 2] st).
  { eexists. eapply (agg_add true [Fin (-50) 2] _ num_123_45);
      [eapply (agg_add true [] _ num_neg_half); [apply agg_start|..]|..];
      [apply (numeric_check_is _ _ _ 1); vm_compute; reflexivity|reflexivity|vm_compute; reflexivity
      |apply (numeric_check_is _ _ _ 1); vm_compute; reflexivity|reflexivity|vm_compute; reflexivity]. }
  destruct A as (st & A). exists st. split; [exact A|].
  destruct (numeric_sum_exact true _ st A) as (H1 & _ & _ & H2). split; [exact H1|].
  specialize (H2 num_123_45 (Fin 12345 2) [Fin (-50) 2] (numeric_check_is num_123_45 12345 2 1 eq_refl) (Permutation_refl _)).
  change (uncertain [Fin 12345 2; Fin (-50) 2] [Fin (-50) 2]) with false in H2. destruct H2 as (st' & -> & _). discriminate.
Defined.
