(* ===== verification/RangeSqlTheorems.v ===== *)
(** * Properties of the SQL-level functions

    Text and binary formats, the type cache kept in [fn_extra], and hashing. *)

From S2P Require Import Prelude Floats Varlena RangeTypes RangeOrder RangeOps RangeStore Hashfn RangeCanon.
From S2P Require Import RangeParse RangeFmgr RangeIO Numutils NumutilsProofs IntIO RangeTheorems.

#[local] Existing Instance plain_toast.

(** ** Text *)

(** [range_parse] reads back what [range_deparse] writes, whatever
    characters (quotes, backslashes, brackets, commas, white space) the bound
    strings contain, empty strings included: the flags and both bound strings
    are recovered. *)
Theorem parse_deparse_roundtrip flags l u :
  text_flags flags ->
  (RANGE_HAS_LBOUND flags = false <-> l = None) -> (RANGE_HAS_UBOUND flags = false <-> u = None) ->
  range_parse (range_deparse flags l u) = Ok (flags, l, u).
Proof. apply parse_deparse. Qed.

(** A lower bound with a quote, a comma and a backslash. *)
Definition tricky : cstring := [QUOTE; ","%char; BACKSLASH; "a"%char; " "%char].

Lemma parse_deparse_roundtrip_witness :
  range_parse (range_deparse (Z.lor RANGE_LB_INC RANGE_UB_INF) (Some tricky) None) =
  Ok (Z.lor RANGE_LB_INC RANGE_UB_INF, Some tricky, None).
Proof.
  apply parse_deparse_roundtrip.
  - right. exists (mkBound (DWord 0) false true true), (mkBound (DWord 0) true false false). reflexivity.
  - split; intros E; discriminate E.
  - split; reflexivity.
Defined.

(** [range_parse_flags] accepts exactly the four strings "[]", "[)", "(]"
    and "()", with the inclusive flags they show, and rejects everything
    else. *)
Theorem parse_flags_exact s flags :
  range_parse_flags s = Ok flags <->
  (s = c_string "[]" /\ flags = Z.lor RANGE_LB_INC RANGE_UB_INC) \/
  (s = c_string "[)" /\ flags = RANGE_LB_INC) \/
  (s = c_string "(]" /\ flags = RANGE_UB_INC) \/ (s = c_string "()" /\ flags = 0).
Proof. apply parse_flags_spec. Qed.

(** C38: [range_in] gives back the very object that [range_out] printed, for
    every stored range that its canonical function leaves alone, whenever the
    element type's own text I/O preserves values. *)
Theorem range_text_roundtrip `{Toast} `{Catalog} tc (Hs : RangeSubtype tc) (Hio : TextIO tc) r typmod :
  stored_range tc r -> settled tc r ->
  exists s x, range_out r None = Ok (s, x) /\
    exists y, range_in s (type_id tc) typmod None = Ok (r, y).
Proof. by apply text_roundtrip. Qed.

(** C39: [range_recv] gives back the very object that [range_send] encoded,
    under the same conditions on the element type's binary I/O. *)
Theorem range_binary_roundtrip `{Toast} `{Catalog} tc (Hs : RangeSubtype tc) (Hio : BinaryIO tc) r typmod :
  stored_range tc r -> settled tc r ->
  exists bs x, range_send r None = Ok (bs, x) /\
    exists y, range_recv bs (type_id tc) typmod None = Ok (r, y).
Proof. by apply binary_roundtrip. Qed.

(** The catalog of int4range and int8range with their element types' own I/O
    functions. *)
#[local] Existing Instance int_catalog.

#[local] Instance int_catalog_ok : CatalogOk.
Proof.
  split. intros oid tc. cbn. destruct (Z.eqb_spec oid INT4RANGEOID) as [->|]; [by intros [= <-]|].
  destruct (Z.eqb_spec oid INT8RANGEOID) as [->|]; [|done]. by intros [= <-].
Qed.

Lemma r_1_10_stored : stored_range int4range r_1_10.
Proof.
  exists (int4_lower 1), (int4_upper 10), false.
  split_and!; [by apply int4_bound_ok|by apply int4_bound_ok|done|done|by vm_compute].
Qed.

Lemma r_1_10_settled : settled int4range r_1_10.
Proof. intros c [= <-] _. by vm_compute. Qed.

Lemma range_text_roundtrip_witness :
  exists s x, range_out r_1_10 None = Ok (s, x) /\
    exists y, range_in s (type_id int4range) (-1) None = Ok (r_1_10, y).
Proof. exact (range_text_roundtrip int4range _ _ r_1_10 (-1) r_1_10_stored r_1_10_settled). Defined.

Lemma range_binary_roundtrip_witness :
  exists bs x, range_send r_1_10 None = Ok (bs, x) /\
    exists y, range_recv bs (type_id int4range) (-1) None = Ok (r_1_10, y).
Proof. exact (range_binary_roundtrip int4range _ _ r_1_10 (-1) r_1_10_stored r_1_10_settled). Defined.

(** ** Integers *)

(** [int4out] and [int8out] print every value, the most negative ones
    included, as an optional minus sign and its decimal digits without leading
    zeros, inside the buffers they allocate, and [int4in] and [int8in] read the
    value back. *)
Theorem int_text_roundtrip :
  (forall v, in_sint 32 v -> exists s, int4out (Int32GetDatum v) = Ok s /\ int_text v s /\
     forall ioparam typmod, int4in ioparam typmod s = Ok (Int32GetDatum v)) /\
  (forall v, in_sint 64 v -> exists s, int8out (Int64GetDatum v) = Ok s /\ int_text v s /\
     forall ioparam typmod, int8in ioparam typmod s = Ok (Int64GetDatum v)).
Proof.
  split; intros v Hv.
  - destruct (int4out_ok v Hv) as (s & ? & ? & E). exists s. unfold int4in. by rewrite E.
  - destruct (int8out_ok v Hv) as (s & ? & ? & E). exists s. unfold int8in. by rewrite E.
Qed.

Lemma int_text_roundtrip_witness :
  exists s, int4out (Int32GetDatum (-2147483648)) = Ok s /\ s = c_string "-2147483648" /\
    int4in 23 (-1) s = Ok (Int32GetDatum (-2147483648)).
Proof.
  destruct (proj1 int_text_roundtrip (-2147483648) ltac:(unfold in_sint; cbn; lia)) as (s & Hs & _ & Hin). exists s.
  split; [exact Hs|]. split; [|apply Hin]. vm_compute in Hs. by injection Hs as <-.
Defined.

(** The scanners accept exactly the integer literals, spaces with an
    optional sign and digits and then only spaces, whose value fits in the
    type, and give that value: no overflow goes unnoticed, and none is
    reported for a value in range.  Otherwise they fail with one of two
    errors, out of range only after a literal whose value is; and [scanint8]
    with [errorOK] does not fail. *)
Theorem strtoint_exact s v :
  (pg_strtoint32 s = Ok v <-> exists rest, int_literal s v rest /\ Forall is_space rest /\ in_sint 32 v) /\
  (pg_strtoint16 s = Ok v <-> exists rest, int_literal s v rest /\ Forall is_space rest /\ in_sint 16 v) /\
  (forall errorOK, scanint8 s errorOK = Ok (Some v) <->
     exists rest, int_literal s v rest /\ Forall is_space rest /\ in_sint 64 v) /\
  is_Ok (scanint8 s true) /\
  (forall e, pg_strtoint32 s = Err e ->
     err_code e = ERRCODE_INVALID_TEXT_REPRESENTATION \/
     err_code e = ERRCODE_NUMERIC_VALUE_OUT_OF_RANGE /\ exists v rest, int_literal s v rest /\ ~ in_sint 32 v).
Proof.
  assert (Hres : forall sc, scan_result sc = Ok v <-> sc = Scanned v).
  { intros [x| |]; cbn; split; intros E; try done; by injection E as ->. }
  split_and!.
  - unfold pg_strtoint32. rewrite Hres. by apply scan_int_exact.
  - unfold pg_strtoint16. rewrite Hres. by apply scan_int_exact.
  - intros errorOK. rewrite <- scan_int_exact by lia. unfold scanint8.
    destruct (scan_int 64 s), errorOK; split; intros E; try done; by injection E as ->.
  - unfold scanint8. destruct (scan_int 64 s); by eexists.
  - intros e. unfold pg_strtoint32. destruct (scan_int 32 s) eqn:E; cbn; [done| |].
    + intros [= <-]. right. split; [done|]. by apply scan_int_range.
    + intros [= <-]. by left.
Qed.

Lemma strtoint_exact_witness :
  exists rest, int_literal (c_string " -12 ") (-12) rest /\ Forall is_space rest /\ in_sint 32 (-12).
Proof. apply (proj1 (proj1 (strtoint_exact (c_string " -12 ") (-12)))). vm_compute. reflexivity. Defined.

(** ** The type cache *)

(** The entry cached in [fn_extra] never shows: a sequence of calls of the
    range functions on one [FmgrInfo], on ranges of any mixture of types, has
    the outcomes of the same calls each on a fresh one (up to the first error,
    which ends it). *)
Theorem fn_extra_transparent `{Toast} `{Catalog} (Hc : CatalogOk) cs s :
  fn_extra_ok s -> run_calls cs s = until_error (map run_fresh cs).
Proof. by apply run_calls_fresh. Qed.

Lemma fn_extra_transparent_witness :
  run_calls [CallEq r_1_10 r_5_20; CallOverlaps r_1_10 r_5_20; CallLower r_5_20] None =
  until_error (map run_fresh [CallEq r_1_10 r_5_20; CallOverlaps r_1_10 r_5_20; CallLower r_5_20]).
Proof. apply (fn_extra_transparent int_catalog_ok). exact I. Defined.

(** ** Hashing *)

(** What the element type's hash functions promise: equal values have equal
    hash values. *)
Class HashOk (tc : TypeCacheEntry) : Prop := {
  hash_respects : forall h a b, hash_proc tc = Some h -> rng_cmp_proc tc a b = 0 -> h a = h b;
  hash_extended_respects : forall h a b seed,
    hash_extended_proc tc = Some h -> rng_cmp_proc tc a b = 0 -> h a seed = h b seed
}.

(** Equal bounds on the same side agree in everything the hash looks at. *)
Lemma cmp_bounds_zero tc b1 b2 :
  lower b1 = lower b2 -> range_cmp_bounds tc b1 b2 = 0 ->
  infinite b1 = infinite b2 /\
  (infinite b1 = false -> inclusive b1 = inclusive b2 /\ rng_cmp_proc tc (val b1) (val b2) = 0).
Proof.
  unfold range_cmp_bounds. intros ->. destruct (infinite b1), (infinite b2); cbn; try done.
  1,2: by destruct (lower b2).
  destruct (Z.eqb_spec (rng_cmp_proc tc (val b1) (val b2)) 0); [|done].
  by destruct (inclusive b1), (inclusive b2), (lower b2).
Qed.

(** Stored ranges that are equal have the same flags, and bound values that
    compare equal. *)
Lemma stored_eq_cases `{Toast} tc (Hs : RangeSubtype tc) r1 r2 :
  stored_range tc r1 -> stored_range tc r2 -> range_eq_internal tc r1 r2 = Ok true ->
  let '(l1, u1, _) := range_deserialize tc r1 in
  let '(l2, u2, _) := range_deserialize tc r2 in
  range_get_flags r1 = range_get_flags r2 /\
  (RANGE_HAS_LBOUND (range_get_flags r1) = true -> rng_cmp_proc tc (val l1) (val l2) = 0) /\
  (RANGE_HAS_UBOUND (range_get_flags r1) = true -> rng_cmp_proc tc (val u1) (val u2) = 0).
Proof.
  intros S1 S2. unfold range_eq_internal. destruct (types_differ r1 r2); [done|].
  destruct (stored_range_view tc r1 S1) as [->|(l1 & u1 & Hd1 & Hf1 & _)],
    (stored_range_view tc r2 S2) as [->|(l2 & u2 & Hd2 & Hf2 & _)].
  - done.
  - rewrite Hd2. done.
  - rewrite Hd1. done.
  - rewrite Hd1, Hd2. cbn [andb Bool.eqb negb].
    destruct (deserialize_sides _ _ _ _ _ Hd1) as (L1 & U1 & _).
    destruct (deserialize_sides _ _ _ _ _ Hd2) as (L2 & U2 & _).
    destruct (range_cmp_bounds tc l1 l2 =? 0) eqn:E1; [|done].
    destruct (range_cmp_bounds tc u1 u2 =? 0) eqn:E2; [|done]. zbool. intros _.
    destruct (cmp_bounds_zero tc l1 l2 ltac:(congruence) E1) as [Il Fl].
    destruct (cmp_bounds_zero tc u1 u2 ltac:(congruence) E2) as [Iu Fu].
    rewrite Hf1, Hf2. destruct (has_bounds_flags l1 u1) as [-> ->].
    split_and!.
    + unfold bound_flags. rewrite <- Il, <- Iu.
      destruct (infinite l1); [|destruct (Fl eq_refl) as [-> _]];
        (destruct (infinite u1); [|destruct (Fu eq_refl) as [-> _]]); done.
    + intros Hi. apply negb_true_iff in Hi. by apply Fl.
    + intros Hi. apply negb_true_iff in Hi. by apply Fu.
Qed.

(** C40: ranges that are equal under [range_eq] have equal hash values, for
    [hash_range] and for [hash_range_extended] with any seed, as hash indexes,
    hash joins and hash partitioning require. *)
Theorem hash_range_respects_eq `{Toast} `{Catalog} tc (Hs : RangeSubtype tc) (Hh : HashOk tc) r1 r2 seed :
  lookup_type_cache (type_id tc) = Some tc -> rangetypid r1 = type_id tc -> rangetypid r2 = type_id tc ->
  stored_range tc r1 -> stored_range tc r2 -> range_eq_internal tc r1 r2 = Ok true ->
  hash_range r1 None = hash_range r2 None /\
  hash_range_extended r1 seed None = hash_range_extended r2 seed None.
Proof.
  intros Hlk T1 T2 S1 S2 Heq. pose proof (stored_eq_cases tc Hs r1 r2 S1 S2 Heq) as Hc.
  unfold hash_range, hash_range_extended, range_get_typcache, RangeTypeGetOid, mbind, Fn_bind, lift.
  rewrite T1, T2, Hlk.
  destruct (range_deserialize tc r1) as [[l1 u1] e1], (range_deserialize tc r2) as [[l2 u2] e2].
  destruct Hc as (<- & HL & HU). split.
  - destruct (hash_proc tc) as [h|] eqn:Eh; unfold ereport; cbv beta iota; [|reflexivity].
    destruct (RANGE_HAS_LBOUND _), (RANGE_HAS_UBOUND _);
      rewrite ?(hash_respects h _ _ Eh (HL eq_refl)), ?(hash_respects h _ _ Eh (HU eq_refl)); reflexivity.
  - destruct (hash_extended_proc tc) as [h|] eqn:Eh; unfold ereport; cbv beta iota; [|reflexivity].
    destruct (RANGE_HAS_LBOUND _), (RANGE_HAS_UBOUND _);
      rewrite ?(hash_extended_respects h _ _ _ Eh (HL eq_refl)), ?(hash_extended_respects h _ _ _ Eh (HU eq_refl)); reflexivity.
Qed.

Lemma int4_hash_ok : HashOk int4range.
Proof.
  assert (Hk : forall a b, btint4cmp a b = 0 -> DatumGetInt32 a = DatumGetInt32 b)
    by (intros a b E; pose proof (btint4cmp_spec a b); lia).
  split.
  - intros h a b Hh E. change (Some hashint4 = Some h) in Hh. rewrite <- (Some_inj _ _ Hh).
    unfold hashint4. by rewrite (Hk a b E).
  - intros h a b seed Hh E. change (Some hashint4extended = Some h) in Hh. rewrite <- (Some_inj _ _ Hh).
    unfold hashint4extended. by rewrite (Hk a b E).
Qed.

(** A user-defined range type over int4 whose operator class ignores the last
    decimal digit: values that differ are equal, and so are ranges. *)
Definition tens (d : Datum) : Z := DatumGetInt32 d / 10.

Definition tensrange : TypeCacheEntry :=
  mkTypeCache 90000 23 int4_elem (fun a b => tens a - tens b) None None
    (Some (fun d => hashint4 (Int32GetDatum (tens d)))) (Some (fun d seed => hashint4extended (Int32GetDatum (tens d)) seed)).

Lemma tens_subtype : RangeSubtype tensrange.
Proof. apply (key_subtype _ tens); [by cbn; auto|done|done|]. intros d. unfold tens. by rewrite int4_stored. Qed.

Lemma tens_hash_ok : HashOk tensrange.
Proof.
  assert (Hk : forall a b, rng_cmp_proc tensrange a b = 0 -> tens a = tens b) by (intros a b E; change (tens a - tens b = 0) in E; lia).
  split.
  - intros h a b Hh E. change (Some (fun d => hashint4 (Int32GetDatum (tens d))) = Some h) in Hh. rewrite <- (Some_inj _ _ Hh). by rewrite (Hk a b E).
  - intros h a b seed Hh E. change (Some (fun d seed => hashint4extended (Int32GetDatum (tens d)) seed) = Some h) in Hh.
    rewrite <- (Some_inj _ _ Hh). by rewrite (Hk a b E).
Qed.

Definition tens_range (lo up : Z) : RangeType :=
  match range_serialize tensrange (mkBound (Int32GetDatum lo) false true true) (mkBound (Int32GetDatum up) false true false) false with
  | Ok r => r
  | Err _ => mkRange 0 0 []
  end.

Lemma tens_stored : stored_range tensrange (tens_range 11 25) /\ stored_range tensrange (tens_range 17 28).
Proof.
  split; [exists (mkBound (Int32GetDatum 11) false true true), (mkBound (Int32GetDatum 25) false true false), false
         |exists (mkBound (Int32GetDatum 17) false true true), (mkBound (Int32GetDatum 28) false true false), false];
    (split_and!; [by apply int4_bound_ok|by apply int4_bound_ok|done|done|by vm_compute]).
Qed.

Definition tens_catalog : Catalog := {|
  lookup_type_cache oid := if oid =? type_id tensrange then Some tensrange else None;
  get_type_io_data oid func := (0, None)
|}.

(** Two different objects that are equal as ranges. *)
Lemma hash_range_respects_eq_witness :
  tens_range 11 25 <> tens_range 17 28 /\
  @hash_range tens_catalog (tens_range 11 25) None = @hash_range tens_catalog (tens_range 17 28) None /\
  @hash_range_extended tens_catalog (tens_range 11 25) (Int64GetDatum 7) None =
  @hash_range_extended tens_catalog (tens_range 17 28) (Int64GetDatum 7) None.
Proof.
  split; [vm_compute; discriminate|].
  apply (@hash_range_respects_eq _ tens_catalog tensrange tens_subtype tens_hash_ok (tens_range 11 25) (tens_range 17 28) (Int64GetDatum 7)).
  - reflexivity.
  - reflexivity.
  - reflexivity.
  - exact (proj1 tens_stored).
  - exact (proj2 tens_stored).
  - vm_compute. reflexivity.
Defined.

(** [hashint8] and [hashint8extended] agree with [hashint4] and
    [hashint4extended] on every value that int4 can hold, as cross-type hash
    joins require. *)
Theorem hashint8_compatible x seed :
  in_sint 32 x ->
  hashint8 (Int64GetDatum x) = hashint4 (Int32GetDatum x) /\
  hashint8extended (Int64GetDatum x) seed = hashint4extended (Int32GetDatum x) seed.
Proof.
  intros Hx. unfold hashint8, hashint8extended, hashint4, hashint4extended.
  rewrite get_int64_wrap, get_int32_wrap by (unfold in_sint in *; lia). by rewrite int8_key_int4.
Qed.

Lemma hashint8_compatible_witness :
  hashint8 (Int64GetDatum (-5)) = hashint4 (Int32GetDatum (-5)).
Proof. apply (hashint8_compatible (-5) 0). unfold in_sint. lia. Defined.

(** [mix] loses no information: the three words before it can be
    recovered from the three words after it. *)
Theorem mix_reversible a b c a2 b2 c2 :
  in_uint 32 a -> in_uint 32 b -> in_uint 32 c -> in_uint 32 a2 -> in_uint 32 b2 -> in_uint 32 c2 ->
  mix a b c = mix a2 b2 c2 -> (a, b, c) = (a2, b2, c2).
Proof.
  intros Ha Hb Hc Ha2 Hb2 Hc2 E. pose proof (unmix_mix a b c Ha Hb Hc) as U1.
  pose proof (unmix_mix a2 b2 c2 Ha2 Hb2 Hc2) as U2. rewrite E in U1. congruence.
Qed.

Lemma mix_reversible_witness : (1, 2, 3) = (1, 2, 3).
Proof. apply (mix_reversible 1 2 3 1 2 3); unfold in_uint; (lia || reflexivity). Defined.
