(* ===== verification/QSort.v ===== *)
(** * The sort function of the backend

    [qsort_arg] of src/port/qsort_arg.c ([pg_qsort] of qsort.c is the same code
    without the extra argument): Bentley and McIlroy's quicksort with a check
    for presorted input, recursing on the smaller part and iterating on the
    larger one.

    The array is a list; a pointer into it is an index.  [swapfunc] moves
    elements bytewise, which exchanges two elements.  The function is shown to
    be a sorting function: it discharges the interface [Sorter]. *)

From Stdlib Require Import FinFun.
From S2P Require Import Prelude Sorting.

Section QSort.
Context {A : Type} (d : A) (cmp : A -> A -> Z).

(** The element at index [i] (every access is inside the array). *)
Definition get (l : list A) (i : nat) : A := nth i l d.

Definition swap (i j : nat) (l : list A) : list A := <[i := get l j]> (<[j := get l i]> l).

(** ** Insertion sort of fewer than 7 elements *)

(** The inner loop, with [pl] at [a + k]. *)
Fixpoint ins_inner (a k : nat) (l : list A) : list A :=
  match k with
  | O => l
  | S k' =>
      if cmp (get l (a + k')) (get l (a + k)) >? 0
      then ins_inner a k' (swap (a + k) (a + k') l)
      else l
  end.

(** The outer loop, with [pm] at [a + m] and [count] rounds to go. *)
Fixpoint ins_outer (a m count : nat) (l : list A) : list A :=
  match count with
  | O => l
  | S count' => ins_outer a (S m) count' (ins_inner a m l)
  end.

Fixpoint presorted (a m count : nat) (l : list A) : bool :=
  match count with
  | O => true
  | S count' =>
      if cmp (get l (a + m - 1)) (get l (a + m)) >? 0 then false
      else presorted a (S m) count' l
  end.

(** ** Choice of the pivot *)

Definition med3 (l : list A) (a b c : nat) : nat :=
  if cmp (get l a) (get l b) <? 0 then
    if cmp (get l b) (get l c) <? 0 then b else if cmp (get l a) (get l c) <? 0 then c else a
  else
    if cmp (get l b) (get l c) >? 0 then b else if cmp (get l a) (get l c) <? 0 then a else c.

Definition choose_pivot (a n : nat) (l : list A) : nat :=
  let pm := (a + n / 2)%nat in
  if (7 <? n)%nat then
    let pl := a in
    let pn := (a + (n - 1))%nat in
    let '(pl, pm, pn) :=
      if (40 <? n)%nat then
        let dd := (n / 8)%nat in
        (med3 l pl (pl + dd) (pl + 2 * dd), med3 l (pm - dd) pm (pm + dd), med3 l (pn - 2 * dd) (pn - dd) pn)
      else (pl, pm, pn) in
    med3 l pl pm pn
  else pm.

(** ** Three-way partition around the element at [a] *)

Fixpoint scan_up (fuel a pa pb pc : nat) (l : list A) : nat * nat * list A :=
  match fuel with
  | O => (pa, pb, l)
  | S fuel' =>
      if (pb <=? pc)%nat && (cmp (get l pb) (get l a) <=? 0) then
        if cmp (get l pb) (get l a) =? 0
        then scan_up fuel' a (S pa) (S pb) pc (swap pa pb l)
        else scan_up fuel' a pa (S pb) pc l
      else (pa, pb, l)
  end.

Fixpoint scan_down (fuel a pb pc pd : nat) (l : list A) : nat * nat * list A :=
  match fuel with
  | O => (pc, pd, l)
  | S fuel' =>
      if (pb <=? pc)%nat && (cmp (get l pc) (get l a) >=? 0) then
        if cmp (get l pc) (get l a) =? 0
        then scan_down fuel' a pb (pc - 1) (pd - 1) (swap pc pd l)
        else scan_down fuel' a pb (pc - 1) pd l
      else (pc, pd, l)
  end.

Fixpoint part_loop (fuel a pa pb pc pd : nat) (l : list A) : nat * nat * nat * nat * list A :=
  match fuel with
  | O => (pa, pb, pc, pd, l)
  | S fuel' =>
      let '(pa, pb, l) := scan_up (S pc - pb) a pa pb pc l in
      let '(pc, pd, l) := scan_down (S pc - pb) a pb pc pd l in
      if (pc <? pb)%nat then (pa, pb, pc, pd, l)
      else part_loop fuel' a pa (S pb) (pc - 1) pd (swap pb pc l)
  end.

Fixpoint vecswap (i j n : nat) (l : list A) : list A :=
  match n with
  | O => l
  | S n' => vecswap (S i) (S j) n' (swap i j l)
  end.

(** ** The sort of the [n] elements from index [a] on *)

Fixpoint qsort_loop (fuel a n : nat) (l : list A) : list A :=
  match fuel with
  | O => l
  | S fuel' =>
      if (n <? 7)%nat then ins_outer a 1 (n - 1) l
      else if presorted a 1 (n - 1) l then l
      else
        let pm := choose_pivot a n l in
        let l := swap a pm l in
        let '(pa, pb, pc, pd, l) := part_loop n a (a + 1) (a + 1) (a + (n - 1)) (a + (n - 1)) l in
        let pn := (a + n)%nat in
        let d1 := Nat.min (pa - a) (pb - pa) in
        let l := vecswap a (pb - d1) d1 l in
        let d1 := Nat.min (pd - pc) (pn - pd - 1) in
        let l := vecswap pb (pn - d1) d1 l in
        let d1 := (pb - pa)%nat in
        let d2 := (pd - pc)%nat in
        if (d1 <=? d2)%nat then
          let l := if (1 <? d1)%nat then qsort_loop fuel' a d1 l else l in
          if (1 <? d2)%nat then qsort_loop fuel' (pn - d2) d2 l else l
        else
          let l := if (1 <? d2)%nat then qsort_loop fuel' (pn - d2) d2 l else l in
          if (1 <? d1)%nat then qsort_loop fuel' a d1 l else l
  end.

End QSort.

(** [qsort_arg(a, n, ...)]; the depth of the recursion is at most [n]. *)
Definition pg_qsort_arg {A} (cmp : A -> A -> Z) (l : list A) : list A :=
  match l with
  | [] => []
  | x :: _ => qsort_loop x cmp (S (length l)) 0 (length l) l
  end.

(** ** Rearrangements inside a segment of the array *)

Section Lemmas.
Context {A : Type} (d : A) (cmp : A -> A -> Z).
Local Abbreviation rd := (get d).
Local Abbreviation exch := (swap d).
Local Open Scope nat_scope.

Lemma length_swap i j l : length (exch i j l) = length l.
Proof. unfold swap. by rewrite !length_insert. Qed.

Lemma get_insert l i x k : i < length l -> rd (<[i := x]> l) k = if k =? i then x else rd l k.
Proof.
  intros Hi. unfold get. rewrite !nth_lookup. destruct (Nat.eqb_spec k i) as [->|Hk].
  - by rewrite list_lookup_insert_eq.
  - by rewrite list_lookup_insert_ne.
Qed.

Lemma get_swap i j l k :
  i < length l -> j < length l ->
  rd (exch i j l) k = if k =? i then rd l j else if k =? j then rd l i else rd l k.
Proof.
  intros Hi Hj. unfold swap. rewrite get_insert by (by rewrite length_insert).
  destruct (k =? i); [done|]. by rewrite get_insert.
Qed.

Lemma swap_perm i j l : i < length l -> j < length l -> Permutation (exch i j l) l.
Proof.
  intros Hi Hj. symmetry. apply (Permutation_nth _ _ d). rewrite length_swap. split; [done|].
  exists (fun k => if k =? i then j else if k =? j then i else k).
  unfold FinFun.bFun, FinFun.bInjective. split_and!.
  - intros k Hk. destruct (k =? i); [done|]. by destruct (k =? j).
  - intros x y _ _. destruct (Nat.eqb_spec x i), (Nat.eqb_spec x j), (Nat.eqb_spec y i), (Nat.eqb_spec y j); lia.
  - intros k Hk. pose proof (get_swap i j l k Hi Hj) as Hg. unfold get in Hg. rewrite Hg.
    destruct (k =? i); [done|]. by destruct (k =? j).
Qed.

(** [l'] is [l] after exchanging elements at indices in [lo, hi). *)
Inductive swaps (lo hi : nat) : list A -> list A -> Prop :=
| swaps_nil l : swaps lo hi l l
| swaps_cons i j l l' : lo <= i < hi -> lo <= j < hi -> swaps lo hi (exch i j l) l' -> swaps lo hi l l'.

Lemma swaps_trans lo hi l1 l2 l3 : swaps lo hi l1 l2 -> swaps lo hi l2 l3 -> swaps lo hi l1 l3.
Proof.
  induction 1 as [|i j l l' Hi Hj _ IH]; intros Hs; [done|]. exact (swaps_cons _ _ i j l l3 Hi Hj (IH Hs)).
Qed.

Lemma swaps_one lo hi i j l : lo <= i < hi -> lo <= j < hi -> swaps lo hi l (exch i j l).
Proof. intros Hi Hj. exact (swaps_cons _ _ i j l _ Hi Hj (swaps_nil _ _ _)). Qed.

Lemma swaps_mono lo hi lo' hi' l l' : lo' <= lo -> hi <= hi' -> swaps lo hi l l' -> swaps lo' hi' l l'.
Proof.
  intros H1 H2. induction 1 as [|i j l l' Hi Hj _ IH]; [constructor|].
  apply (swaps_cons lo' hi' i j); [lia..|done].
Qed.

Lemma swaps_length lo hi l l' : swaps lo hi l l' -> length l' = length l.
Proof. induction 1 as [|i j l l' _ _ _ IH]; [done|]. by rewrite IH, length_swap. Qed.

Lemma swaps_perm lo hi l l' : hi <= length l -> swaps lo hi l l' -> Permutation l' l.
Proof.
  intros Hhi Hs. revert Hhi. induction Hs as [|i j l l' Hi Hj _ IH]; intros Hhi; [done|].
  rewrite IH by (by rewrite length_swap). apply swap_perm; lia.
Qed.

Lemma swaps_outside lo hi l l' k :
  hi <= length l -> swaps lo hi l l' -> k < lo \/ hi <= k -> rd l' k = rd l k.
Proof.
  intros Hhi Hs Hk. revert Hhi. induction Hs as [|i j l l' Hi Hj _ IH]; intros Hhi; [done|].
  rewrite IH by (by rewrite length_swap). rewrite get_swap by lia.
  destruct (Nat.eqb_spec k i), (Nat.eqb_spec k j); lia || done.
Qed.

(** What holds of all elements of the segment still does. *)
Lemma swaps_forall lo hi l l' (P : A -> Prop) :
  hi <= length l -> swaps lo hi l l' ->
  (forall k, lo <= k < hi -> P (rd l k)) -> forall k, lo <= k < hi -> P (rd l' k).
Proof.
  intros Hhi Hs. revert Hhi. induction Hs as [|i j l l' Hi Hj _ IH]; intros Hhi HP; [done|].
  apply IH; [by rewrite length_swap|]. intros k Hk. rewrite get_swap by lia.
  destruct (k =? i); [by apply HP|]. destruct (k =? j); by apply HP.
Qed.

(** ** The parts of the algorithm only rearrange *)

Lemma ins_inner_swaps a k l hi : a + k < hi -> swaps a hi l (ins_inner d cmp a k l).
Proof.
  revert l. induction k as [|k IH]; intros l Hk; [constructor|]. cbn [ins_inner].
  destruct (_ >? _)%Z; [|constructor].
  apply (swaps_cons _ _ (a + S k) (a + k)); [lia..|]. apply IH. lia.
Qed.

Lemma ins_outer_swaps a m count l hi : a + m + count <= hi -> swaps a hi l (ins_outer d cmp a m count l).
Proof.
  revert m l. induction count as [|c IH]; intros m l Hm; [constructor|]. cbn [ins_outer].
  eapply swaps_trans; [apply (ins_inner_swaps a m); lia|apply IH; lia].
Qed.

Lemma vecswap_swaps lo hi i j n l :
  lo <= i -> i + n <= hi -> lo <= j -> j + n <= hi -> swaps lo hi l (vecswap d i j n l).
Proof.
  revert i j l. induction n as [|n IH]; intros i j l ????; [constructor|]. cbn [vecswap].
  apply (swaps_cons _ _ i j); [lia..|]. apply IH; lia.
Qed.

Lemma med3_cases l a b c : med3 d cmp l a b c = a \/ med3 d cmp l a b c = b \/ med3 d cmp l a b c = c.
Proof. unfold med3. split_ifs; auto. Qed.

Lemma choose_pivot_range a n l : 0 < n -> a <= choose_pivot d cmp a n l < a + n.
Proof.
  intros Hn. assert (n / 2 < n) by (apply Nat.div_lt; lia).
  unfold choose_pivot. destruct (Nat.ltb_spec 7 n); [|lia].
  assert (Hd : 8 * (n / 8) <= n) by (apply Nat.Div0.mul_div_le).
  assert (Hh : 2 * (n / 2) <= n /\ n <= 2 * (n / 2) + 1)
    by (pose proof (Nat.div_mod n 2 ltac:(lia)); pose proof (Nat.mod_upper_bound n 2 ltac:(lia)); lia).
  destruct (40 <? n).
  - pose proof (med3_cases l a (a + n / 8) (a + 2 * (n / 8))).
    pose proof (med3_cases l (a + n / 2 - n / 8) (a + n / 2) (a + n / 2 + n / 8)).
    pose proof (med3_cases l (a + (n - 1) - 2 * (n / 8)) (a + (n - 1) - n / 8) (a + (n - 1))).
    set (x := med3 d cmp l a _ _) in *. set (y := med3 d cmp l (_ - _) (a + n / 2) _) in *.
    set (z := med3 d cmp l _ _ (a + (n - 1))) in *. pose proof (med3_cases l x y z). lia.
  - pose proof (med3_cases l a (a + n / 2) (a + (n - 1))). lia.
Qed.

(** ** Partition *)

(** The state of the partition loop: [v] is the pivot at index [a]; equal
    elements collect at both ends, smaller ones after those on the left,
    larger ones before those on the right; [pb..pc] is still to be looked at. *)
Record part_inv (a n : nat) (v : A) (pa pb pc pd : nat) (l : list A) : Prop := {
  pi_room : a + n <= length l;
  pi_ord : a < pa <= pb /\ pb <= S pc /\ pc <= pd < a + n;
  pi_piv : rd l a = v;
  pi_eq_l : forall k, a < k < pa -> cmp (rd l k) v = 0%Z;
  pi_lt : forall k, pa <= k < pb -> (cmp (rd l k) v < 0)%Z;
  pi_gt : forall k, pc < k <= pd -> (0 < cmp (rd l k) v)%Z;
  pi_eq_r : forall k, pd < k < a + n -> cmp (rd l k) v = 0%Z
}.

(** Case analysis on an element of an array after an exchange. *)
Ltac after_swap :=
  rewrite get_swap by lia;
  repeat match goal with |- context [?x =? ?y] => destruct (Nat.eqb_spec x y) end; subst.

Lemma scan_up_inv fuel a n v pa pb pc pd l pa' pb' l' :
  part_inv a n v pa pb pc pd l -> S pc - pb <= fuel ->
  scan_up d cmp fuel a pa pb pc l = (pa', pb', l') ->
  part_inv a n v pa' pb' pc pd l' /\ swaps a (a + n) l l' /\ pb <= pb' /\
  (pb' <= pc -> (0 < cmp (rd l' pb') v)%Z).
Proof.
  revert pa pb l. induction fuel as [|fuel IH]; intros pa pb l Hinv Hf Hs; cbn [scan_up] in Hs.
  { injection Hs as <- <- <-. split_and!; [done|constructor|lia|]. destruct Hinv. lia. }
  destruct Hinv as [Hr Ho Hp Hel Hlt Hgt Her]. rewrite Hp in Hs.
  destruct ((pb <=? pc) && (cmp (rd l pb) v <=? 0)%Z) eqn:Ec.
  - apply andb_true_iff in Ec as [E1 E2]. apply Nat.leb_le in E1. apply Z.leb_le in E2.
    destruct (cmp (rd l pb) v =? 0)%Z eqn:E0; [apply Z.eqb_eq in E0|apply Z.eqb_neq in E0].
    + apply IH in Hs as (Hi & Hsw & Hle & Hstop); [| |lia].
      * split_and!; [done| |lia|done]. apply (swaps_cons _ _ pa pb); [lia..|done].
      * split; rewrite ?length_swap; try lia.
        -- after_swap; lia || done.
        -- intros k Hk. after_swap; auto; apply Hel; lia.
        -- intros k Hk. after_swap; try lia; apply Hlt; lia.
        -- intros k Hk. after_swap; try lia; apply Hgt; lia.
        -- intros k Hk. after_swap; try lia; apply Her; lia.
    + apply IH in Hs as (Hi & Hsw & Hle & Hstop); [by split_and!; [|..|lia|]| |lia].
      split; try done; [lia|]. intros k Hk. destruct (decide (k = pb)) as [->|]; [lia|]. apply Hlt. lia.
  - injection Hs as <- <- <-. split_and!; [by split|constructor|lia|].
    intros Hle. apply andb_false_iff in Ec as [E|E]; [apply Nat.leb_gt in E; lia|]. apply Z.leb_gt in E. lia.
Qed.

Lemma scan_down_inv fuel a n v pa pb pc pd l pc' pd' l' :
  part_inv a n v pa pb pc pd l -> S pc - pb <= fuel ->
  scan_down d cmp fuel a pb pc pd l = (pc', pd', l') ->
  part_inv a n v pa pb pc' pd' l' /\ swaps a (a + n) l l' /\ pc' <= pc /\
  (forall k, pa <= k <= pc' -> rd l' k = rd l k) /\
  (pb <= pc' -> (cmp (rd l' pc') v < 0)%Z).
Proof.
  revert pc pd l. induction fuel as [|fuel IH]; intros pc pd l Hinv Hf Hs; cbn [scan_down] in Hs.
  { injection Hs as <- <- <-. split_and!; [done|constructor|lia|done|]. destruct Hinv. lia. }
  destruct Hinv as [Hr Ho Hp Hel Hlt Hgt Her]. rewrite Hp in Hs.
  destruct ((pb <=? pc) && (cmp (rd l pc) v >=? 0)%Z) eqn:Ec.
  - apply andb_true_iff in Ec as [E1 E2]. apply Nat.leb_le in E1. apply Z.geb_le in E2.
    destruct (cmp (rd l pc) v =? 0)%Z eqn:E0; [apply Z.eqb_eq in E0|apply Z.eqb_neq in E0].
    + apply IH in Hs as (Hi & Hsw & Hle & Hk0 & Hstop); [| |lia].
      * split_and!; [done| |lia| |done].
        -- apply (swaps_cons _ _ pc pd); [lia..|done].
        -- intros k Hk. rewrite Hk0 by lia. after_swap; lia || done.
      * split; rewrite ?length_swap; try lia.
        -- after_swap; lia || done.
        -- intros k Hk. after_swap; try lia; apply Hel; lia.
        -- intros k Hk. after_swap; try lia; apply Hlt; lia.
        -- intros k Hk. after_swap; try lia; apply Hgt; lia.
        -- intros k Hk. after_swap; auto; try lia;
             first [apply Her; lia|by replace pd with pc by lia].
    + apply IH in Hs as (Hi & Hsw & Hle & Hk0 & Hstop); [split_and!; [done..|lia|intros k Hk; apply Hk0; lia|done]| |lia].
      split; try done; [lia|]. intros k Hk. destruct (decide (k = pc)) as [->|]; [lia|]. apply Hgt. lia.
  - injection Hs as <- <- <-. split_and!; [by split|constructor|lia|done|].
    intros Hle. apply andb_false_iff in Ec as [E|E]; [apply Nat.leb_gt in E; lia|].
    rewrite Z.geb_leb in E. apply Z.leb_gt in E. lia.
Qed.

Lemma part_loop_inv fuel a n v pa pb pc pd l pa' pb' pc' pd' l' :
  part_inv a n v pa pb pc pd l -> S pc - pb <= fuel -> 0 < fuel ->
  part_loop d cmp fuel a pa pb pc pd l = (pa', pb', pc', pd', l') ->
  part_inv a n v pa' pb' pc' pd' l' /\ pb' = S pc' /\ swaps a (a + n) l l'.
Proof.
  revert pa pb pc pd l. induction fuel as [|fuel IH]; intros pa pb pc pd l Hinv Hf Hpos Hs; [lia|].
  cbn [part_loop] in Hs.
  destruct (scan_up d cmp (S pc - pb) a pa pb pc l) as [[pa1 pb1] l1] eqn:Eu.
  destruct (scan_up_inv _ _ _ _ _ _ _ _ _ _ _ _ Hinv (le_n _) Eu) as (Hi1 & Hs1 & Hle1 & Hstop1).
  destruct (scan_down d cmp (S pc - pb1) a pb1 pc pd l1) as [[pc1 pd1] l2] eqn:Ed.
  destruct (scan_down_inv _ _ _ _ _ _ _ _ _ _ _ _ Hi1 (le_n _) Ed) as (Hi2 & Hs2 & Hle2 & Hk2 & Hstop2).
  pose proof (swaps_trans _ _ _ _ _ Hs1 Hs2) as Hs12.
  destruct (Nat.ltb_spec pc1 pb1).
  - injection Hs as <- <- <- <- <-. destruct (pi_ord _ _ _ _ _ _ _ _ Hi2). split_and!; [done|lia|done].
  - specialize (Hstop2 ltac:(lia)). specialize (Hstop1 ltac:(lia)).
    destruct Hi2 as [Hr Ho Hp Hel Hlt Hgt Her].
    rewrite <- (Hk2 pb1) in Hstop1 by lia.
    assert (pb1 <> pc1) by (intros ->; lia).
    apply IH in Hs as (Hi3 & Heq & Hs3); [| |lia|].
    + split_and!; [done|done|]. apply (swaps_trans _ _ _ l2); [done|].
      apply (swaps_cons _ _ pb1 pc1); [lia..|done].
    + split; rewrite ?length_swap; try lia.
      -- after_swap; lia || done.
      -- intros k Hk. after_swap; try lia; apply Hel; lia.
      -- intros k Hk. after_swap; try lia; apply Hlt; lia.
      -- intros k Hk. after_swap; try lia; apply Hgt; lia.
      -- intros k Hk. after_swap; try lia; apply Her; lia.
    + lia.
Qed.

Lemma get_vecswap i j n l k :
  i + n <= j -> j + n <= length l ->
  rd (vecswap d i j n l) k =
  if (i <=? k) && (k <? i + n) then rd l (k - i + j)
  else if (j <=? k) && (k <? j + n) then rd l (k - j + i) else rd l k.
Proof.
  revert i j l. induction n as [|n IH]; intros i j l Hij Hj; cbn [vecswap].
  - rewrite !Nat.add_0_r. destruct (Nat.leb_spec i k), (Nat.ltb_spec k i), (Nat.leb_spec j k), (Nat.ltb_spec k j);
      cbn; lia || done.
  - rewrite IH by (rewrite ?length_swap; lia).
    destruct (Nat.leb_spec (S i) k), (Nat.ltb_spec k (S i + n)), (Nat.leb_spec (S j) k), (Nat.ltb_spec k (S j + n)),
      (Nat.leb_spec i k), (Nat.ltb_spec k (i + S n)), (Nat.leb_spec j k), (Nat.ltb_spec k (j + S n));
      cbn [andb]; try lia; rewrite get_swap by lia;
      repeat match goal with |- context [?x =? ?y] => destruct (Nat.eqb_spec x y) end;
      try lia; f_equal; lia.
Qed.

(** The array after the partition and the two block exchanges: smaller
    elements, then equal ones, then larger ones. *)
Definition split_at (a n d1 d2 : nat) (v : A) (l : list A) : Prop :=
  d1 + d2 < n /\
  (forall k, a <= k < a + d1 -> (cmp (rd l k) v < 0)%Z) /\
  (forall k, a + d1 <= k < a + n - d2 -> cmp (rd l k) v = 0%Z) /\
  (forall k, a + n - d2 <= k < a + n -> (0 < cmp (rd l k) v)%Z).

(** Exchanging the ends of two adjacent blocks exchanges the blocks. *)
Lemma vecswap_rotate i j k l (P Q : A -> Prop) :
  i <= j -> j <= k -> k <= length l ->
  (forall x, i <= x < j -> P (rd l x)) -> (forall x, j <= x < k -> Q (rd l x)) ->
  let m := Nat.min (j - i) (k - j) in
  let l' := vecswap d i (k - m) m l in
  (forall x, i <= x < i + (k - j) -> Q (rd l' x)) /\
  (forall x, i + (k - j) <= x < k -> P (rd l' x)) /\
  (forall x, x < i \/ k <= x -> rd l' x = rd l x).
Proof.
  intros Hij Hjk Hk HP HQ m l'.
  assert (G : forall x, rd l' x = if (i <=? x) && (x <? i + m) then rd l (x - i + (k - m))
    else if (k - m <=? x) && (x <? k - m + m) then rd l (x - (k - m) + i) else rd l x)
    by (intros x; apply get_vecswap; lia).
  split_and!; intros x Hx; rewrite G;
    destruct (Nat.leb_spec i x), (Nat.ltb_spec x (i + m)), (Nat.leb_spec (k - m) x), (Nat.ltb_spec x (k - m + m));
    cbn [andb]; try lia; first [apply HP; lia|apply HQ; lia|done].
Qed.

Lemma vecswap_both_swaps a n v pa pb pc pd l :
  part_inv a n v pa pb pc pd l -> pb = S pc ->
  let d1 := Nat.min (pa - a) (pb - pa) in
  let l1 := vecswap d a (pb - d1) d1 l in
  let d2 := Nat.min (pd - pc) (a + n - pd - 1) in
  swaps a (a + n) l (vecswap d pb (a + n - d2) d2 l1).
Proof.
  intros [Hr Ho Hp Hel Hlt Hgt Her] Hpb. cbv zeta.
  eapply swaps_trans; [|apply vecswap_swaps; lia]. apply vecswap_swaps; lia.
Qed.

Lemma vecswap_split a n v pa pb pc pd l :
  part_inv a n v pa pb pc pd l -> pb = S pc -> cmp v v = 0%Z ->
  let d1 := Nat.min (pa - a) (pb - pa) in
  let l1 := vecswap d a (pb - d1) d1 l in
  let d2 := Nat.min (pd - pc) (a + n - pd - 1) in
  split_at a n (pb - pa) (pd - pc) v (vecswap d pb (a + n - d2) d2 l1).
Proof.
  intros [Hr Ho Hp Hel Hlt Hgt Her] Hpb Hrefl. cbv zeta.
  set (d1 := Nat.min (pa - a) (pb - pa)). set (l1 := vecswap d a (pb - d1) d1 l).
  assert (Hs1 : swaps a (a + n) l l1) by (apply vecswap_swaps; lia).
  assert (Hlen : length l1 = length l) by (eapply swaps_length, Hs1).
  destruct (vecswap_rotate a pa pb l (fun x => cmp x v = 0%Z) (fun x => (cmp x v < 0)%Z)) as (L1 & L2 & L3);
    [lia..| |exact Hlt|].
  { intros x Hx. destruct (decide (x = a)) as [->|]; [by rewrite Hp|]. apply Hel. lia. }
  fold d1 l1 in L1, L2, L3.
  destruct (vecswap_rotate pb (S pd) (a + n) l1 (fun x => (0 < cmp x v)%Z) (fun x => cmp x v = 0%Z))
    as (R1 & R2 & R3); [lia..| | |].
  { intros x Hx. rewrite L3 by lia. apply Hgt. lia. }
  { intros x Hx. rewrite L3 by lia. apply Her. lia. }
  replace (S pd - pb) with (pd - pc) in R1, R2, R3 by lia.
  replace (a + n - S pd) with (a + n - pd - 1) in R1, R2, R3 by lia.
  split_and!; [lia|..]; intros k Hk.
  - rewrite R3 by lia. apply L1. lia.
  - destruct (decide (k < pb)); [rewrite R3 by lia; apply L2; lia|apply R1; lia].
  - apply R2. lia.
Qed.

(** One round of the sort, up to the recursion. *)
Lemma partition_step a n l :
  1 < n -> a + n <= length l ->
  let l0 := exch a (choose_pivot d cmp a n l) l in
  exists pa pb pc pd l1,
    part_loop d cmp n a (a + 1) (a + 1) (a + (n - 1)) (a + (n - 1)) l0 = (pa, pb, pc, pd, l1) /\
    part_inv a n (rd l0 a) pa pb pc pd l1 /\ pb = S pc /\ swaps a (a + n) l l1.
Proof.
  intros Hn Hlen l0. pose proof (choose_pivot_range a n l ltac:(lia)) as Hpm.
  assert (Hl0 : length l0 = length l) by apply length_swap.
  destruct (part_loop d cmp n a (a + 1) (a + 1) (a + (n - 1)) (a + (n - 1)) l0) as [[[[pa pb] pc] pd] l1] eqn:Epl.
  assert (Hinv : part_inv a n (rd l0 a) (a + 1) (a + 1) (a + (n - 1)) (a + (n - 1)) l0)
    by (split; try lia; done).
  destruct (part_loop_inv n a n (rd l0 a) (a + 1) (a + 1) (a + (n - 1)) (a + (n - 1)) l0 _ _ _ _ _
    Hinv ltac:(lia) ltac:(lia) Epl) as (Hi1 & Hpb & Hs1).
  exists pa, pb, pc, pd, l1. split_and!; [done..|].
  apply (swaps_trans _ _ _ l0); [|done]. apply swaps_one; lia.
Qed.

(** The sort only rearranges, whatever the comparison function does. *)
Lemma qsort_loop_swaps fuel a n l :
  a + n <= length l -> swaps a (a + n) l (qsort_loop d cmp fuel a n l).
Proof.
  revert a n l. induction fuel as [|fuel IH]; intros a n l Hlen; cbn [qsort_loop]; [constructor|].
  destruct (Nat.ltb_spec n 7).
  { destruct n as [|n]; [constructor|]. apply ins_outer_swaps. lia. }
  destruct (presorted d cmp a 1 (n - 1) l); [constructor|].
  destruct (partition_step a n l ltac:(lia) Hlen) as (pa & pb & pc & pd & l1 & -> & Hinv & Hpb & Hs1).
  pose proof (vecswap_both_swaps _ _ _ _ _ _ _ _ Hinv Hpb) as Hs2. cbv zeta in Hs2.
  set (l2 := vecswap d pb _ _ _) in *. pose proof (pi_ord _ _ _ _ _ _ _ _ Hinv) as Hord.
  pose proof (swaps_trans _ _ _ _ _ Hs1 Hs2) as Hs. pose proof (swaps_length _ _ _ _ Hs) as Hl2.
  assert (Hpart : forall x m t, a <= x -> x + m <= a + n -> length t = length l ->
    swaps a (a + n) t (if 1 <? m then qsort_loop d cmp fuel x m t else t)).
  { intros x m t Hx Hm Ht. destruct (1 <? m); [|constructor].
    apply (swaps_mono x (x + m)); [lia..|]. apply IH. lia. }
  destruct (_ <=? _).
  - eapply swaps_trans; [exact Hs|]. eapply swaps_trans; [apply (Hpart a (pb - pa)); lia|].
    apply Hpart; [lia|lia|]. erewrite (swaps_length _ _ l2); [done|]. apply Hpart; lia.
  - eapply swaps_trans; [exact Hs|]. eapply swaps_trans; [apply (Hpart (a + n - (pd - pc)) (pd - pc)); lia|].
    apply Hpart; [lia|lia|]. erewrite (swaps_length _ _ l2); [done|]. apply Hpart; lia.
Qed.

(** ** Sortedness *)

Context `{!Preorder_cmp cmp}.

Definition sorted_seg (lo hi : nat) (l : list A) : Prop :=
  forall i j, lo <= i -> i <= j -> j < hi -> (cmp (rd l i) (rd l j) <= 0)%Z.

Lemma ins_inner_sorted a m k l :
  a + m < length l -> k <= m ->
  (forall i j, a <= i -> i <= j -> j <= a + m -> i <> a + k -> j <> a + k -> (cmp (rd l i) (rd l j) <= 0)%Z) ->
  (forall j, a + k < j <= a + m -> (cmp (rd l (a + k)) (rd l j) <= 0)%Z) ->
  sorted_seg a (S (a + m)) (ins_inner d cmp a k l).
Proof.
  revert l. induction k as [|k IH]; intros l Hlen Hk H1 H2; cbn [ins_inner].
  - intros i j Hi Hij Hj. destruct (decide (i = a + 0)) as [->|].
    + destruct (decide (j = a + 0)) as [->|]; [rewrite (pcmp_refl cmp); lia|]. apply H2. lia.
    + apply H1; lia.
  - destruct (cmp (rd l (a + k)) (rd l (a + S k)) >? 0)%Z eqn:E.
    + apply Z.gtb_lt in E. pose proof (pcmp_total (rd l (a + k)) (rd l (a + S k))) as Ht.
      apply IH; rewrite ?length_swap; [lia|lia| |].
      * intros i j Hi Hij Hj Ni Nj. rewrite !get_swap by lia.
        destruct (Nat.eqb_spec i (a + S k)), (Nat.eqb_spec i (a + k)), (Nat.eqb_spec j (a + S k)), (Nat.eqb_spec j (a + k));
          try lia; first [rewrite (pcmp_refl cmp); lia|apply H1; lia].
      * intros j Hj. rewrite !get_swap by lia.
        destruct (Nat.eqb_spec (a + k) (a + S k)), (Nat.eqb_spec (a + k) (a + k)), (Nat.eqb_spec j (a + S k)),
          (Nat.eqb_spec j (a + k)); try lia; first [apply H2; lia|lia].
    + rewrite Z.gtb_ltb in E. apply Z.ltb_ge in E. intros i j Hi Hij Hj.
      destruct (decide (i = a + S k)) as [->|Ni].
      * destruct (decide (j = a + S k)) as [->|]; [rewrite (pcmp_refl cmp); lia|]. apply H2. lia.
      * destruct (decide (j = a + S k)) as [->|]; [|apply H1; lia].
        destruct (decide (i = a + k)) as [->|]; [done|].
        apply (pcmp_trans _ (rd l (a + k))); [apply H1; lia|done].
Qed.

Lemma ins_outer_sorted a m count l :
  a + m + count <= length l -> sorted_seg a (a + m) l ->
  sorted_seg a (a + m + count) (ins_outer d cmp a m count l).
Proof.
  revert m l. induction count as [|c IH]; intros m l Hlen Hs; cbn [ins_outer]; [by rewrite Nat.add_0_r|].
  replace (a + m + S c) with (a + S m + c) by lia.
  pose proof (swaps_length _ _ _ _ (ins_inner_swaps a m l (S (a + m)) ltac:(lia))) as Hl.
  apply IH; [lia|]. replace (a + S m) with (S (a + m)) by lia.
  apply ins_inner_sorted; [lia|lia| |intros; lia].
  intros i j Hi Hij Hj Ni Nj. apply Hs; lia.
Qed.

Lemma presorted_sorted a m count l :
  0 < m -> sorted_seg a (a + m) l -> presorted d cmp a m count l = true -> sorted_seg a (a + m + count) l.
Proof.
  revert m. induction count as [|c IH]; intros m Hm Hs Hp; cbn [presorted] in Hp; [by rewrite Nat.add_0_r|].
  destruct (_ >? 0)%Z eqn:E; [done|]. rewrite Z.gtb_ltb in E. apply Z.ltb_ge in E.
  replace (a + m + S c) with (a + S m + c) by lia. apply IH; [lia| |done].
  intros i j Hi Hij Hj. destruct (decide (j = a + m)) as [->|]; [|apply Hs; lia].
  destruct (decide (i = a + m)) as [->|]; [rewrite (pcmp_refl cmp); lia|].
  apply (pcmp_trans _ (rd l (a + m - 1))); [apply Hs; lia|done].
Qed.

(** Sorting the outer parts of a partitioned segment sorts it. *)
Lemma split_sorted a n d1 d2 v l l' :
  a + n <= length l -> split_at a n d1 d2 v l ->
  length l' = length l ->
  (forall k, a + d1 <= k < a + n - d2 -> rd l' k = rd l k) ->
  (forall P : A -> Prop, (forall k, a <= k < a + d1 -> P (rd l k)) -> forall k, a <= k < a + d1 -> P (rd l' k)) ->
  (forall P : A -> Prop, (forall k, a + n - d2 <= k < a + n -> P (rd l k)) ->
     forall k, a + n - d2 <= k < a + n -> P (rd l' k)) ->
  sorted_seg a (a + d1) l' -> sorted_seg (a + n - d2) (a + n) l' -> sorted_seg a (a + n) l'.
Proof.
  intros Hlen (Hd & H1 & H2 & H3) Hlen' Hmid HL HR SL SR i j Hi Hij Hj.
  specialize (HL (fun x => (cmp x v < 0)%Z) H1). specialize (HR (fun x => (0 < cmp x v)%Z) H3).
  cbv beta in HL, HR.
  assert (HM : forall k, a + d1 <= k < a + n - d2 -> cmp (rd l' k) v = 0%Z)
    by (intros k Hk; rewrite Hmid by done; by apply H2).
  assert (Hlow : forall k, a <= k < a + n - d2 -> (cmp (rd l' k) v <= 0)%Z).
  { intros k Hk. destruct (decide (k < a + d1)); [specialize (HL k)|specialize (HM k)]; lia. }
  assert (Hhigh : forall k, a + d1 <= k < a + n -> (cmp v (rd l' k) <= 0)%Z).
  { intros k Hk. pose proof (pcmp_total (rd l' k) v).
    destruct (decide (k < a + n - d2)); [specialize (HM k)|specialize (HR k)]; lia. }
  destruct (decide (j < a + d1)); [apply SL; lia|].
  destruct (decide (a + n - d2 <= i)); [apply SR; lia|].
  apply (pcmp_trans _ v); [apply Hlow|apply Hhigh]; lia.
Qed.

Lemma qsort_loop_sorted fuel a n l :
  n <= fuel -> a + n <= length l -> sorted_seg a (a + n) (qsort_loop d cmp fuel a n l).
Proof.
  revert a n l. induction fuel as [|fuel IH]; intros a n l Hf Hlen; cbn [qsort_loop].
  { intros i j. lia. }
  destruct (Nat.ltb_spec n 7).
  { destruct n as [|n]; [intros i j; lia|]. cbn [Nat.sub]. rewrite Nat.sub_0_r.
    replace (a + S n) with (a + 1 + n) by lia. apply ins_outer_sorted; [lia|].
    intros i j Hi Hij Hj. replace i with j by lia. rewrite (pcmp_refl cmp). lia. }
  destruct (presorted d cmp a 1 (n - 1) l) eqn:Ep.
  { replace (a + n) with (a + 1 + (n - 1)) by lia. apply presorted_sorted; [lia| |done].
    intros i j Hi Hij Hj. replace i with j by lia. rewrite (pcmp_refl cmp). lia. }
  destruct (partition_step a n l ltac:(lia) Hlen) as (pa & pb & pc & pd & l1 & -> & Hinv & Hpb & Hs1).
  pose proof (vecswap_both_swaps _ _ _ _ _ _ _ _ Hinv Hpb) as Hs2.
  pose proof (vecswap_split _ _ _ _ _ _ _ _ Hinv Hpb (pcmp_refl cmp _)) as Hsplit. cbv zeta in Hs2, Hsplit.
  set (l2 := vecswap d pb _ _ _) in *. set (v := rd (exch a _ l) a) in *.
  pose proof (swaps_trans _ _ _ _ _ Hs1 Hs2) as Hs. pose proof (swaps_length _ _ _ _ Hs) as Hl2.
  set (d1 := pb - pa) in *. set (d2 := pd - pc) in *.
  pose proof Hsplit as (Hd & _).
  assert (Hpart : forall x m t, m < n -> x + m <= length t ->
    swaps x (x + m) t (if 1 <? m then qsort_loop d cmp fuel x m t else t) /\
    sorted_seg x (x + m) (if 1 <? m then qsort_loop d cmp fuel x m t else t)).
  { intros x m t Hm Hx. destruct (Nat.ltb_spec 1 m); [split; [apply qsort_loop_swaps|apply IH]; lia|].
    split; [constructor|]. intros i j Hi Hij Hj. replace i with j by lia. rewrite (pcmp_refl cmp). lia. }
  replace (a + n - d2) with (a + (n - d2)) by lia.
  destruct (d1 <=? d2).
  - set (l3 := if 1 <? d1 then _ else _). set (l4 := if 1 <? d2 then _ else _).
    destruct (Hpart a d1 l2 ltac:(lia) ltac:(lia)) as [Sa Oa]. fold l3 in Sa, Oa.
    pose proof (swaps_length _ _ _ _ Sa) as Hl3.
    destruct (Hpart (a + (n - d2)) d2 l3 ltac:(lia) ltac:(lia)) as [Sb Ob]. fold l4 in Sb, Ob.
    pose proof (swaps_length _ _ _ _ Sb) as Hl4.
    assert (Ob' : forall k, k < a + (n - d2) -> rd l4 k = rd l3 k)
      by (intros k Hk; apply (swaps_outside (a + (n - d2)) (a + (n - d2) + d2)); [lia|done|lia]).
    assert (Oa' : forall k, a + d1 <= k -> rd l3 k = rd l2 k)
      by (intros k Hk; apply (swaps_outside a (a + d1)); [lia|done|lia]).
    apply (split_sorted a n d1 d2 v l2); [lia|done|lia|..].
    + intros k Hk. rewrite Ob', Oa' by lia. done.
    + intros P HP k Hk. rewrite Ob' by lia. by apply (swaps_forall a (a + d1) l2 l3 P); [lia|..].
    + intros P HP k Hk. apply (swaps_forall (a + (n - d2)) (a + (n - d2) + d2) l3 l4 P); [lia|done| |lia].
      intros x Hx. rewrite Oa' by lia. apply HP. lia.
    + intros i j Hi Hij Hj. rewrite !Ob' by lia. apply Oa; lia.
    + intros i j Hi Hij Hj. apply Ob; lia.
  - set (l3 := if 1 <? d2 then _ else _). set (l4 := if 1 <? d1 then _ else _).
    destruct (Hpart (a + (n - d2)) d2 l2 ltac:(lia) ltac:(lia)) as [Sa Oa]. fold l3 in Sa, Oa.
    pose proof (swaps_length _ _ _ _ Sa) as Hl3.
    destruct (Hpart a d1 l3 ltac:(lia) ltac:(lia)) as [Sb Ob]. fold l4 in Sb, Ob.
    pose proof (swaps_length _ _ _ _ Sb) as Hl4.
    assert (Oa' : forall k, k < a + (n - d2) -> rd l3 k = rd l2 k)
      by (intros k Hk; apply (swaps_outside (a + (n - d2)) (a + (n - d2) + d2)); [lia|done|lia]).
    assert (Ob' : forall k, a + d1 <= k -> rd l4 k = rd l3 k)
      by (intros k Hk; apply (swaps_outside a (a + d1)); [lia|done|lia]).
    apply (split_sorted a n d1 d2 v l2); [lia|done|lia|..].
    + intros k Hk. rewrite Ob', Oa' by lia. done.
    + intros P HP k Hk. apply (swaps_forall a (a + d1) l3 l4 P); [lia|done| |lia].
      intros x Hx. rewrite Oa' by lia. apply HP. lia.
    + intros P HP k Hk. rewrite Ob' by lia.
      apply (swaps_forall (a + (n - d2)) (a + (n - d2) + d2) l2 l3 P); [lia|done| |lia].
      intros x Hx. apply HP. lia.
    + intros i j Hi Hij Hj. apply Ob; lia.
    + intros i j Hi Hij Hj. rewrite !Ob' by lia. apply Oa; lia.
Qed.

End Lemmas.

(** ** The interface *)

Lemma pg_qsort_arg_perm A (cmp : A -> A -> Z) (l : list A) : Permutation (pg_qsort_arg cmp l) l.
Proof.
  unfold pg_qsort_arg. destruct l as [|x l]; [done|].
  apply (swaps_perm x 0 (length (x :: l))); [done|].
  by apply (qsort_loop_swaps x cmp _ 0 (length (x :: l))).
Qed.

Lemma sorted_seg_strongly A (d : A) (cmp : A -> A -> Z) (l : list A) :
  sorted_seg d cmp 0 (length l) l -> StronglySorted (cmp_le cmp) l.
Proof.
  induction l as [|x l IH]; intros Hs; constructor.
  - apply IH. intros i j Hi Hij Hj. apply (Hs (S i) (S j)); cbn; lia.
  - apply List.Forall_forall. intros y Hy. apply (In_nth _ _ d) in Hy as (k & Hk & <-).
    apply (Hs 0%nat (S k)); cbn; lia.
Qed.

Lemma pg_qsort_arg_sorted A (cmp : A -> A -> Z) (l : list A) :
  Preorder_cmp cmp -> StronglySorted (cmp_le cmp) (pg_qsort_arg cmp l).
Proof.
  intros Hc. unfold pg_qsort_arg. destruct l as [|x l]; [constructor|].
  apply (sorted_seg_strongly _ x).
  rewrite (swaps_length x 0 (length (x :: l)) (x :: l)) by (by apply (qsort_loop_swaps x cmp _ 0 (length (x :: l)))).
  apply (qsort_loop_sorted x cmp _ 0 (length (x :: l))); [lia|done].
Qed.

#[global] Instance pg_sorter : Sorter := {|
  qsort_arg := @pg_qsort_arg;
  qsort_arg_perm := pg_qsort_arg_perm;
  qsort_arg_sorted := pg_qsort_arg_sorted
|}.
