(* ===== verification/RangeGist.v ===== *)
(** * GiST support for ranges

    The functions of rangetypes_gist.c: consistent, union, penalty, picksplit
    and same, with their helpers.  Ranges are stored in the index as they are;
    the keys of internal pages are formed by [range_super_union], which also
    records in the flag [RANGE_CONTAIN_EMPTY] that an empty range was added. *)

From S2P Require Import Prelude Floats Varlena RangeTypes RangeOrder RangeOps RangeStore Hashfn RangeParse RangeFmgr Sorting.

(** ** Constants *)

Definition RANGESTRAT_BEFORE : Z := 1.
Definition RANGESTRAT_OVERLEFT : Z := 2.
Definition RANGESTRAT_OVERLAPS : Z := 3.
Definition RANGESTRAT_OVERRIGHT : Z := 4.
Definition RANGESTRAT_AFTER : Z := 5.
Definition RANGESTRAT_ADJACENT : Z := 6.
Definition RANGESTRAT_CONTAINS : Z := 7.
Definition RANGESTRAT_CONTAINED_BY : Z := 8.
Definition RANGESTRAT_CONTAINS_ELEM : Z := 16.
Definition RANGESTRAT_EQ : Z := 18.

Definition CLS_NORMAL : Z := 0.
Definition CLS_LOWER_INF : Z := 1.
Definition CLS_UPPER_INF : Z := 2.
Definition CLS_CONTAIN_EMPTY : Z := 4.
Definition CLS_EMPTY : Z := 8.
Definition CLS_COUNT : Z := 9.

Definition LIMIT_RATIO : float8 := f8_dec 3 10.
Definition INFINITE_BOUND_PENALTY : float8 := f8_of_Z 2.
Definition CONTAIN_EMPTY_PENALTY : float8 := f8_of_Z 1.
Definition DEFAULT_SUBTYPE_DIFF_PENALTY : float8 := f8_of_Z 1.

(** The query of a search: a range, or an element for [@> elem]. *)
Inductive IndexQuery : Type :=
| QRange (r : RangeType)
| QElem (v : Datum).

Definition query_range (q : IndexQuery) : result RangeType :=
  match q with QRange r => Ok r | QElem _ => undefined "query is not a range" end.

Definition query_elem (q : IndexQuery) : result Datum :=
  match q with QElem v => Ok v | QRange _ => undefined "query is not an element" end.

(** ** Helpers *)

Definition get_gist_range_class (range : RangeType) : Z :=
  let flags := range_get_flags range in
  if bit_set flags RANGE_EMPTY then CLS_EMPTY
  else
    let classNumber := 0 in
    let classNumber := if bit_set flags RANGE_LB_INF then Z.lor classNumber CLS_LOWER_INF else classNumber in
    let classNumber := if bit_set flags RANGE_UB_INF then Z.lor classNumber CLS_UPPER_INF else classNumber in
    if bit_set flags RANGE_CONTAIN_EMPTY then Z.lor classNumber CLS_CONTAIN_EMPTY else classNumber.

(** The caller has checked that there is a [subtype_diff] function; without
    one the call is through a null function pointer. *)
Definition call_subtype_diff (tc : TypeCacheEntry) (val1 val2 : Datum) : result float8 :=
  match rng_subdiff tc with
  | None => undefined "null function pointer"
  | Some subdiff =>
      value ← subdiff val1 val2;
      if fge value f8_zero then Ok value else Ok f8_zero
  end.

Definition has_subtype_diff (tc : TypeCacheEntry) : bool :=
  match rng_subdiff tc with Some _ => true | None => false end.

Section Gist.
Context `{Toast}.

(** [rangeCopy] copies the object before its flags byte is changed. *)
Definition range_super_union (tc : TypeCacheEntry) (r1 r2 : RangeType) : result RangeType :=
  let '(lower1, upper1, empty1) := range_deserialize tc r1 in
  let '(lower2, upper2, empty2) := range_deserialize tc r2 in
  let flags1 := range_get_flags r1 in
  let flags2 := range_get_flags r2 in
  if empty1 then
    if bit_set flags2 (Z.lor RANGE_EMPTY RANGE_CONTAIN_EMPTY) then Ok r2
    else Ok (range_set_contain_empty r2)
  else if empty2 then
    if bit_set flags1 (Z.lor RANGE_EMPTY RANGE_CONTAIN_EMPTY) then Ok r1
    else Ok (range_set_contain_empty r1)
  else
    let lower_is_1 := range_cmp_bounds tc lower1 lower2 <=? 0 in
    let upper_is_1 := range_cmp_bounds tc upper1 upper2 >=? 0 in
    let result_lower := if lower_is_1 then lower1 else lower2 in
    let result_upper := if upper_is_1 then upper1 else upper2 in
    if lower_is_1 && upper_is_1
       && (bit_set flags1 RANGE_CONTAIN_EMPTY || negb (bit_set flags2 RANGE_CONTAIN_EMPTY)) then Ok r1
    else if negb lower_is_1 && negb upper_is_1
       && (bit_set flags2 RANGE_CONTAIN_EMPTY || negb (bit_set flags1 RANGE_CONTAIN_EMPTY)) then Ok r2
    else
      result ← make_range tc result_lower result_upper false;
      if bit_set flags1 RANGE_CONTAIN_EMPTY || bit_set flags2 RANGE_CONTAIN_EMPTY
      then Ok (range_set_contain_empty result)
      else Ok result.

Definition range_gist_consistent_int (tc : TypeCacheEntry) (strategy : Z) (key : RangeType) (query : IndexQuery)
  : result bool :=
  if strategy =? RANGESTRAT_BEFORE then
    q ← query_range query;
    if RangeIsEmpty key || RangeIsEmpty q then Ok false
    else b ← range_overright_internal tc key q; Ok (negb b)
  else if strategy =? RANGESTRAT_OVERLEFT then
    q ← query_range query;
    if RangeIsEmpty key || RangeIsEmpty q then Ok false
    else b ← range_after_internal tc key q; Ok (negb b)
  else if strategy =? RANGESTRAT_OVERLAPS then
    q ← query_range query; range_overlaps_internal tc key q
  else if strategy =? RANGESTRAT_OVERRIGHT then
    q ← query_range query;
    if RangeIsEmpty key || RangeIsEmpty q then Ok false
    else b ← range_before_internal tc key q; Ok (negb b)
  else if strategy =? RANGESTRAT_AFTER then
    q ← query_range query;
    if RangeIsEmpty key || RangeIsEmpty q then Ok false
    else b ← range_overleft_internal tc key q; Ok (negb b)
  else if strategy =? RANGESTRAT_ADJACENT then
    q ← query_range query;
    if RangeIsEmpty key || RangeIsEmpty q then Ok false
    else
      a ← range_adjacent_internal tc key q;
      if (a : bool) then Ok true else range_overlaps_internal tc key q
  else if strategy =? RANGESTRAT_CONTAINS then
    q ← query_range query; range_contains_internal tc key q
  else if strategy =? RANGESTRAT_CONTAINED_BY then
    if RangeIsOrContainsEmpty key then Ok true
    else q ← query_range query; range_overlaps_internal tc key q
  else if strategy =? RANGESTRAT_CONTAINS_ELEM then
    v ← query_elem query; Ok (range_contains_elem_internal tc key v)
  else if strategy =? RANGESTRAT_EQ then
    q ← query_range query;
    if RangeIsEmpty q then Ok (RangeIsOrContainsEmpty key)
    else range_contains_internal tc key q
  else elog "unrecognized range strategy".

Definition range_gist_consistent_leaf (tc : TypeCacheEntry) (strategy : Z) (key : RangeType) (query : IndexQuery)
  : result bool :=
  if strategy =? RANGESTRAT_BEFORE then q ← query_range query; range_before_internal tc key q
  else if strategy =? RANGESTRAT_OVERLEFT then q ← query_range query; range_overleft_internal tc key q
  else if strategy =? RANGESTRAT_OVERLAPS then q ← query_range query; range_overlaps_internal tc key q
  else if strategy =? RANGESTRAT_OVERRIGHT then q ← query_range query; range_overright_internal tc key q
  else if strategy =? RANGESTRAT_AFTER then q ← query_range query; range_after_internal tc key q
  else if strategy =? RANGESTRAT_ADJACENT then q ← query_range query; range_adjacent_internal tc key q
  else if strategy =? RANGESTRAT_CONTAINS then q ← query_range query; range_contains_internal tc key q
  else if strategy =? RANGESTRAT_CONTAINED_BY then q ← query_range query; range_contained_by_internal tc key q
  else if strategy =? RANGESTRAT_CONTAINS_ELEM then
    v ← query_elem query; Ok (range_contains_elem_internal tc key v)
  else if strategy =? RANGESTRAT_EQ then q ← query_range query; range_eq_internal tc key q
  else elog "unrecognized range strategy".

Context `{Catalog}.

(** The result and the recheck flag. *)
Definition range_gist_consistent (is_leaf : bool) (key : RangeType) (query : IndexQuery) (strategy : Z)
  : Fn FnExtra (bool * bool) :=
  let recheck := false in
  typcache ← range_get_typcache (RangeTypeGetOid key);
  res ← lift (if is_leaf then range_gist_consistent_leaf typcache strategy key query
              else range_gist_consistent_int typcache strategy key query);
  mret (res, recheck).

Fixpoint union_loop (tc : TypeCacheEntry) (result_range : RangeType) (ents : list RangeType) : result RangeType :=
  match ents with
  | [] => Ok result_range
  | e :: ents' => r ← range_super_union tc result_range e; union_loop tc r ents'
  end.

(** [entryvec] has at least one entry. *)
Definition range_gist_union (entryvec : list RangeType) : Fn FnExtra RangeType :=
  match entryvec with
  | [] => lift (undefined "empty entry vector")
  | e0 :: ents =>
      typcache ← range_get_typcache (RangeTypeGetOid e0);
      lift (union_loop typcache e0 ents)
  end.

Definition range_gist_same (r1 r2 : RangeType) : Fn FnExtra bool :=
  if negb (range_get_flags r1 =? range_get_flags r2) then mret false
  else
    typcache ← range_get_typcache (RangeTypeGetOid r1);
    lift (range_eq_internal typcache r1 r2).

(** ** Penalty *)

(** Extension of the original range to reach a bound, as the new range has it:
    [call_subtype_diff], or a constant without [subtype_diff]. *)
Definition extension (tc : TypeCacheEntry) (v1 v2 : Datum) : result float8 :=
  if has_subtype_diff tc then call_subtype_diff tc v1 v2 else Ok DEFAULT_SUBTYPE_DIFF_PENALTY.

Definition penalty_empty (orig : RangeType) (orig_lower orig_upper : RangeBound) (orig_empty : bool) : float4 :=
  if orig_empty then f4_of_Z 0
  else if RangeIsOrContainsEmpty orig then f4_of_f8 CONTAIN_EMPTY_PENALTY
  else if infinite orig_lower && infinite orig_upper then f4_of_f8 (f8_mul (f8_of_Z 2) CONTAIN_EMPTY_PENALTY)
  else if infinite orig_lower || infinite orig_upper then f4_of_f8 (f8_mul (f8_of_Z 3) CONTAIN_EMPTY_PENALTY)
  else f4_of_f8 (f8_mul (f8_of_Z 4) CONTAIN_EMPTY_PENALTY).

Definition penalty_unbounded (orig : RangeType) (orig_lower orig_upper : RangeBound) : float4 :=
  let penalty :=
    if infinite orig_lower && infinite orig_upper then f4_of_Z 0
    else if infinite orig_lower || infinite orig_upper then f4_of_f8 INFINITE_BOUND_PENALTY
    else f4_of_f8 (f8_mul (f8_of_Z 2) INFINITE_BOUND_PENALTY) in
  if RangeIsOrContainsEmpty orig
  then f4_of_f8 (f8_add (f8_of_f4 penalty) CONTAIN_EMPTY_PENALTY)
  else penalty.

Definition penalty_lower_inf (tc : TypeCacheEntry) (orig_lower orig_upper : RangeBound) (orig_empty : bool)
    (new_upper : RangeBound) : result float4 :=
  if negb orig_empty && infinite orig_lower then
    if infinite orig_upper then Ok (f4_of_Z 0)
    else if range_cmp_bounds tc new_upper orig_upper >? 0
    then d ← extension tc (val new_upper) (val orig_upper); Ok (f4_of_f8 d)
    else Ok (f4_of_Z 0)
  else Ok f8_inf.

Definition penalty_upper_inf (tc : TypeCacheEntry) (orig_lower orig_upper : RangeBound) (orig_empty : bool)
    (new_lower : RangeBound) : result float4 :=
  if negb orig_empty && infinite orig_upper then
    if infinite orig_lower then Ok (f4_of_Z 0)
    else if range_cmp_bounds tc new_lower orig_lower <? 0
    then d ← extension tc (val orig_lower) (val new_lower); Ok (f4_of_f8 d)
    else Ok (f4_of_Z 0)
  else Ok f8_inf.

Definition penalty_normal (tc : TypeCacheEntry) (orig_lower orig_upper : RangeBound) (orig_empty : bool)
    (new_lower new_upper : RangeBound) : result float4 :=
  if orig_empty || infinite orig_lower || infinite orig_upper then Ok f8_inf
  else
    let diff := f8_zero in
    diff ← (if range_cmp_bounds tc new_lower orig_lower <? 0
            then d ← extension tc (val orig_lower) (val new_lower); Ok (f8_add diff d) else Ok diff);
    diff ← (if range_cmp_bounds tc new_upper orig_upper >? 0
            then d ← extension tc (val new_upper) (val orig_upper); Ok (f8_add diff d) else Ok diff);
    Ok (f4_of_f8 diff).

Definition range_gist_penalty_internal (tc : TypeCacheEntry) (orig new : RangeType) : result float4 :=
  let '(orig_lower, orig_upper, orig_empty) := range_deserialize tc orig in
  let '(new_lower, new_upper, new_empty) := range_deserialize tc new in
  if new_empty then Ok (penalty_empty orig orig_lower orig_upper orig_empty)
  else if infinite new_lower && infinite new_upper then Ok (penalty_unbounded orig orig_lower orig_upper)
  else if infinite new_lower then penalty_lower_inf tc orig_lower orig_upper orig_empty new_upper
  else if infinite new_upper then penalty_upper_inf tc orig_lower orig_upper orig_empty new_lower
  else penalty_normal tc orig_lower orig_upper orig_empty new_lower new_upper.

Definition range_gist_penalty (orig new : RangeType) : Fn FnExtra float4 :=
  _ ← lift (check_types orig new);
  typcache ← range_get_typcache (RangeTypeGetOid orig);
  lift (range_gist_penalty_internal typcache orig new).

End Gist.

(** ** The errors of [subtype_diff] *)

Lemma call_subtype_diff_error tc v1 v2 e :
  has_subtype_diff tc = true -> call_subtype_diff tc v1 v2 = Err e -> subdiff_failure tc e.
Proof.
  unfold has_subtype_diff, call_subtype_diff, subdiff_failure. destruct (rng_subdiff tc) as [subdiff|]; [|done].
  intros _ Hc. exists subdiff, v1, v2. split; [done|].
  destruct (subdiff v1 v2); cbn in Hc; [by destruct (fge _ _)|]. congruence.
Qed.

Lemma extension_error tc v1 v2 e : extension tc v1 v2 = Err e -> subdiff_failure tc e.
Proof.
  unfold extension. destruct (has_subtype_diff tc) eqn:E; [|done]. by apply call_subtype_diff_error.
Qed.

Lemma extension_bind_error {A} tc v1 v2 (f : float8 -> A) e :
  (d ← extension tc v1 v2; Ok (f d)) = Err e -> subdiff_failure tc e.
Proof.
  destruct (extension tc v1 v2) as [d|e'] eqn:E; cbn; [done|]. intros [= <-]. by apply extension_error in E.
Qed.

Lemma gist_penalty_error tc orig new e : range_gist_penalty_internal tc orig new = Err e -> subdiff_failure tc e.
Proof.
  unfold range_gist_penalty_internal.
  destruct (range_deserialize tc orig) as [[ol ou] oe], (range_deserialize tc new) as [[nl nu] ne].
  destruct ne; [done|]. destruct (_ && _); [done|].
  destruct (infinite nl); [|destruct (infinite nu)].
  - unfold penalty_lower_inf. repeat (case_match; try done). apply extension_bind_error.
  - unfold penalty_upper_inf. repeat (case_match; try done). apply extension_bind_error.
  - unfold penalty_normal. destruct (_ || _); [done|]. cbv zeta.
    destruct (if range_cmp_bounds tc nl ol <? 0 then _ else _) as [d|e1] eqn:E1; cbn [mbind result_bind].
    + destruct (if range_cmp_bounds tc nu ou >? 0 then _ else _) as [d'|e2] eqn:E2; cbn [mbind result_bind]; [done|].
      intros [= <-]. destruct (_ >? 0); [|done]. by apply extension_bind_error in E2.
    + intros [= <-]. destruct (_ <? 0); [|done]. by apply extension_bind_error in E1.
Qed.
