(* ===== verification/RangeGistSplit.v ===== *)
(** * GiST page splits for ranges

    [range_gist_picksplit] of rangetypes_gist.c and the split methods it
    chooses from: by class of range, by one sorted bound, by double sorting,
    and the trivial split.

    An entry vector is the list of the keys of its entries 1 .. [maxoff]
    (entry 0 is unused); an offset is a position in it, counted from 1. *)

From S2P Require Import Prelude Floats Varlena RangeTypes RangeOrder RangeOps RangeStore Hashfn RangeParse RangeFmgr Sorting RangeGist.

(** The left and right groups: offsets in order of placement, and the range
    that covers the group (NULL is [None]). *)
Record GIST_SPLITVEC : Type := mkSplit {
  spl_left : list Z;
  spl_ldatum : option RangeType;
  spl_right : list Z;
  spl_rdatum : option RangeType
}.

Definition empty_split : GIST_SPLITVEC := mkSplit [] None [] None.

Inductive SplitLR : Type := SPLIT_LEFT | SPLIT_RIGHT.

#[global] Instance SplitLR_eq_dec : EqDecision SplitLR.
Proof. solve_decision. Defined.

Record SingleBoundSortItem : Type := mkSortItem { sort_index : Z; sort_bound : RangeBound }.

Record NonEmptyRange : Type := mkNonEmpty { ne_lower : RangeBound; ne_upper : RangeBound }.

Record CommonEntry : Type := mkCommon { ce_index : Z; ce_delta : float8 }.

(** Context for [range_gist_consider_split]; the pointers [left_upper] and
    [right_lower] are NULL until a split is selected. *)
Record ConsiderSplitContext : Type := mkContext {
  entries_count : Z;
  first : bool;
  ctx_left_upper : option RangeBound;
  ctx_right_lower : option RangeBound;
  ctx_ratio : float4;
  ctx_overlap : float4;
  common_left : Z;
  common_right : Z
}.

(** [context] after [memset] and initialization. *)
Definition init_context (n : Z) : ConsiderSplitContext :=
  mkContext n true None None (f4_of_Z 0) (f4_of_Z 0) 0 0.

(** ** Comparison functions of the sorts *)

Definition single_bound_cmp (tc : TypeCacheEntry) (a b : SingleBoundSortItem) : Z :=
  range_cmp_bounds tc (sort_bound a) (sort_bound b).

Definition interval_cmp_lower (tc : TypeCacheEntry) (a b : NonEmptyRange) : Z :=
  range_cmp_bounds tc (ne_lower a) (ne_lower b).

Definition interval_cmp_upper (tc : TypeCacheEntry) (a b : NonEmptyRange) : Z :=
  range_cmp_bounds tc (ne_upper a) (ne_upper b).

Definition common_entry_cmp (i1 i2 : CommonEntry) : Z :=
  let delta1 := ce_delta i1 in
  let delta2 := ce_delta i2 in
  if flt delta1 delta2 then -1 else if fgt delta1 delta2 then 1 else 0.

Section Split.
Context `{Toast} `{Sorter}.

(** ** Placing entries *)

Definition PLACE_LEFT (tc : TypeCacheEntry) (v : GIST_SPLITVEC) (range : RangeType) (off : Z)
  : result GIST_SPLITVEC :=
  left_range ← (match spl_ldatum v with
                | Some left_range => range_super_union tc left_range range
                | None => Ok range
                end);
  Ok (mkSplit (spl_left v ++ [off]) (Some left_range) (spl_right v) (spl_rdatum v)).

Definition PLACE_RIGHT (tc : TypeCacheEntry) (v : GIST_SPLITVEC) (range : RangeType) (off : Z)
  : result GIST_SPLITVEC :=
  right_range ← (match spl_rdatum v with
                 | Some right_range => range_super_union tc right_range range
                 | None => Ok range
                 end);
  Ok (mkSplit (spl_left v) (spl_ldatum v) (spl_right v ++ [off]) (Some right_range)).

(** Entry [off] of the vector. *)
Definition entry_at (entryvec : list RangeType) (off : Z) : result RangeType :=
  match entryvec !! Z.to_nat (off - 1) with
  | Some r => Ok r
  | None => undefined "entry vector index out of range"
  end.

(** ** Trivial split *)

Fixpoint fallback_loop (tc : TypeCacheEntry) (split_idx : Z) (v : GIST_SPLITVEC) (i : Z) (ents : list RangeType)
  : result GIST_SPLITVEC :=
  match ents with
  | [] => Ok v
  | range :: ents' =>
      v ← (if i <? split_idx then PLACE_LEFT tc v range i else PLACE_RIGHT tc v range i);
      fallback_loop tc split_idx v (i + 1) ents'
  end.

Definition range_gist_fallback_split (tc : TypeCacheEntry) (entryvec : list RangeType) : result GIST_SPLITVEC :=
  let maxoff := Z.of_nat (length entryvec) in
  let split_idx := (maxoff - 1) / 2 + 1 in
  fallback_loop tc split_idx empty_split 1 entryvec.

(** ** Split by class *)

Fixpoint class_loop (tc : TypeCacheEntry) (classes_groups : Z -> SplitLR) (v : GIST_SPLITVEC) (i : Z)
    (ents : list RangeType) : result GIST_SPLITVEC :=
  match ents with
  | [] => Ok v
  | range :: ents' =>
      let class := get_gist_range_class range in
      v ← (if decide (classes_groups class = SPLIT_LEFT) then PLACE_LEFT tc v range i
           else PLACE_RIGHT tc v range i);
      class_loop tc classes_groups v (i + 1) ents'
  end.

Definition range_gist_class_split (tc : TypeCacheEntry) (entryvec : list RangeType) (classes_groups : Z -> SplitLR)
  : result GIST_SPLITVEC :=
  class_loop tc classes_groups empty_split 1 entryvec.

(** ** Split by one sorted bound *)

Definition sort_item (tc : TypeCacheEntry) (use_upper_bound : bool) (i : Z) (range : RangeType) : SingleBoundSortItem :=
  let '(lower, upper, empty) := range_deserialize tc range in
  mkSortItem i (if use_upper_bound then upper else lower).

Fixpoint sort_items (tc : TypeCacheEntry) (use_upper_bound : bool) (i : Z) (ents : list RangeType)
  : list SingleBoundSortItem :=
  match ents with
  | [] => []
  | range :: ents' => sort_item tc use_upper_bound i range :: sort_items tc use_upper_bound (i + 1) ents'
  end.

(** Place the entries with the given offsets, the first [split_idx] of them on
    the left. *)
Fixpoint place_sorted (tc : TypeCacheEntry) (entryvec : list RangeType) (split_idx : Z) (v : GIST_SPLITVEC) (i : Z)
    (idxs : list Z) : result GIST_SPLITVEC :=
  match idxs with
  | [] => Ok v
  | idx :: idxs' =>
      range ← entry_at entryvec idx;
      v ← (if i <? split_idx then PLACE_LEFT tc v range idx else PLACE_RIGHT tc v range idx);
      place_sorted tc entryvec split_idx v (i + 1) idxs'
  end.

Definition range_gist_single_sorting_split (tc : TypeCacheEntry) (entryvec : list RangeType) (use_upper_bound : bool)
  : result GIST_SPLITVEC :=
  let maxoff := Z.of_nat (length entryvec) in
  let sortItems := sort_items tc use_upper_bound 1 entryvec in
  let sortItems := qsort_arg (single_bound_cmp tc) sortItems in
  let split_idx := maxoff / 2 in
  place_sorted tc entryvec split_idx empty_split 0 (map sort_index sortItems).

(** ** Double sorting split *)

Definition range_gist_consider_split (tc : TypeCacheEntry) (context : ConsiderSplitContext)
    (right_lower : RangeBound) (min_left_count : Z) (left_upper : RangeBound) (max_left_count : Z)
  : result ConsiderSplitContext :=
  let n := entries_count context in
  let left_count :=
    if min_left_count >=? (n + 1) / 2 then min_left_count
    else if max_left_count <=? n / 2 then max_left_count
    else n / 2 in
  let right_count := n - left_count in
  let ratio := f4_div (f4_of_Z (Z.min left_count right_count)) (f4_of_Z n) in
  if fgt (f8_of_f4 ratio) LIMIT_RATIO then
    overlap ←
      (if has_subtype_diff tc
       then d ← call_subtype_diff tc (val left_upper) (val right_lower); Ok (f4_of_f8 d)
       else Ok (f4_of_Z (max_left_count - min_left_count)));
    let selectthis :=
      if first context then true
      else flt overlap (ctx_overlap context)
           || (feq overlap (ctx_overlap context) && fgt ratio (ctx_ratio context)) in
    if selectthis then
      Ok (mkContext n false (Some left_upper) (Some right_lower) ratio overlap
            (max_left_count - left_count) (left_count - min_left_count))
    else Ok context
  else Ok context.

(** [while (i1 < nentries && right_lower == by_lower[i1].lower)]: [rest] is
    [by_lower] from [i1] on. *)
Fixpoint skip_lower (tc : TypeCacheEntry) (right_lower left_upper : RangeBound) (i1 : Z) (rest : list NonEmptyRange)
  : RangeBound * Z * list NonEmptyRange :=
  match rest with
  | [] => (left_upper, i1, [])
  | e :: rest' =>
      if range_cmp_bounds tc right_lower (ne_lower e) =? 0 then
        let left_upper := if range_cmp_bounds tc (ne_upper e) left_upper >? 0 then ne_upper e else left_upper in
        skip_lower tc right_lower left_upper (i1 + 1) rest'
      else (left_upper, i1, rest)
  end.

(** [while (i2 < nentries && by_upper[i2].upper <= left_upper) i2++] *)
Fixpoint skip_upper (tc : TypeCacheEntry) (left_upper : RangeBound) (i2 : Z) (rest : list NonEmptyRange)
  : Z * list NonEmptyRange :=
  match rest with
  | [] => (i2, [])
  | e :: rest' =>
      if range_cmp_bounds tc (ne_upper e) left_upper <=? 0 then skip_upper tc left_upper (i2 + 1) rest'
      else (i2, rest)
  end.

(** The first loop; every round advances [i1], so one round per entry is
    enough fuel. *)
Fixpoint loop_lower (tc : TypeCacheEntry) (fuel : nat) (context : ConsiderSplitContext)
    (right_lower left_upper : RangeBound) (i1 i2 : Z) (rest1 rest2 : list NonEmptyRange)
  : result ConsiderSplitContext :=
  match fuel with
  | O => undefined "out of fuel"
  | S fuel' =>
      let '(left_upper, i1, rest1) := skip_lower tc right_lower left_upper i1 rest1 in
      match rest1 with
      | [] => Ok context
      | e :: _ =>
          let right_lower := ne_lower e in
          let '(i2, rest2) := skip_upper tc left_upper i2 rest2 in
          context ← range_gist_consider_split tc context right_lower i1 left_upper i2;
          loop_lower tc fuel' context right_lower left_upper i1 i2 rest1 rest2
      end
  end.

(** The mirror image: [rest] holds the entries [i2], [i2 - 1], ..., 0 of
    [by_upper]. *)
Fixpoint skip_upper_down (tc : TypeCacheEntry) (left_upper right_lower : RangeBound) (i2 : Z) (rest : list NonEmptyRange)
  : RangeBound * Z * list NonEmptyRange :=
  match rest with
  | [] => (right_lower, i2, [])
  | e :: rest' =>
      if range_cmp_bounds tc left_upper (ne_upper e) =? 0 then
        let right_lower := if range_cmp_bounds tc (ne_lower e) right_lower <? 0 then ne_lower e else right_lower in
        skip_upper_down tc left_upper right_lower (i2 - 1) rest'
      else (right_lower, i2, rest)
  end.

Fixpoint skip_lower_down (tc : TypeCacheEntry) (right_lower : RangeBound) (i1 : Z) (rest : list NonEmptyRange)
  : Z * list NonEmptyRange :=
  match rest with
  | [] => (i1, [])
  | e :: rest' =>
      if range_cmp_bounds tc (ne_lower e) right_lower >=? 0 then skip_lower_down tc right_lower (i1 - 1) rest'
      else (i1, rest)
  end.

Fixpoint loop_upper (tc : TypeCacheEntry) (fuel : nat) (context : ConsiderSplitContext)
    (right_lower left_upper : RangeBound) (i1 i2 : Z) (rest1 rest2 : list NonEmptyRange)
  : result ConsiderSplitContext :=
  match fuel with
  | O => undefined "out of fuel"
  | S fuel' =>
      let '(right_lower, i2, rest2) := skip_upper_down tc left_upper right_lower i2 rest2 in
      match rest2 with
      | [] => Ok context
      | e :: _ =>
          let left_upper := ne_upper e in
          let '(i1, rest1) := skip_lower_down tc right_lower i1 rest1 in
          context ← range_gist_consider_split tc context right_lower (i1 + 1) left_upper (i2 + 1);
          loop_upper tc fuel' context right_lower left_upper i1 i2 rest1 rest2
      end
  end.

Definition bounds_of (tc : TypeCacheEntry) (range : RangeType) : NonEmptyRange :=
  let '(lower, upper, empty) := range_deserialize tc range in mkNonEmpty lower upper.

(** The part of [range_gist_double_sorting_split] that selects the bounds of
    the groups. *)
Definition select_split (tc : TypeCacheEntry) (entryvec : list RangeType) : result ConsiderSplitContext :=
  let ents := map (bounds_of tc) entryvec in
  let nentries := Z.of_nat (length entryvec) in
  let by_lower := qsort_arg (interval_cmp_lower tc) ents in
  let by_upper := qsort_arg (interval_cmp_upper tc) ents in
  match by_lower, by_upper, rev by_lower, rev by_upper with
  | el :: _, eu :: _, el' :: _, eu' :: _ =>
      context ← loop_lower tc (S (length entryvec)) (init_context nentries)
                  (ne_lower el) (ne_lower eu) 0 0 by_lower by_upper;
      loop_upper tc (S (length entryvec)) context
        (ne_upper el') (ne_upper eu') (nentries - 1) (nentries - 1) (rev by_lower) (rev by_upper)
  | _, _, _, _ => undefined "no entries to split"
  end.

(** Distribute the entries that have one place only; the others are collected
    as common entries. *)
Fixpoint distribute (tc : TypeCacheEntry) (left_upper right_lower : RangeBound) (v : GIST_SPLITVEC)
    (common : list CommonEntry) (i : Z) (ents : list RangeType) : result (GIST_SPLITVEC * list CommonEntry) :=
  match ents with
  | [] => Ok (v, common)
  | range :: ents' =>
      let '(lower, upper, empty) := range_deserialize tc range in
      if range_cmp_bounds tc upper left_upper <=? 0 then
        if range_cmp_bounds tc lower right_lower >=? 0 then
          delta ←
            (if has_subtype_diff tc then
               d1 ← call_subtype_diff tc (val lower) (val right_lower);
               d2 ← call_subtype_diff tc (val left_upper) (val upper);
               Ok (f8_sub d1 d2)
             else Ok f8_zero);
          distribute tc left_upper right_lower v (common ++ [mkCommon i delta]) (i + 1) ents'
        else
          v ← PLACE_LEFT tc v range i;
          distribute tc left_upper right_lower v common (i + 1) ents'
      else
        v ← PLACE_RIGHT tc v range i;
        distribute tc left_upper right_lower v common (i + 1) ents'
  end.

Definition range_gist_double_sorting_split (tc : TypeCacheEntry) (entryvec : list RangeType) : result GIST_SPLITVEC :=
  context ← select_split tc entryvec;
  match ctx_left_upper context, ctx_right_lower context, first context with
  | Some left_upper, Some right_lower, false =>
      '(v, common_entries) ← distribute tc left_upper right_lower empty_split [] 1 entryvec;
      match common_entries with
      | [] => Ok v
      | _ =>
          let common_entries := qsort_arg common_entry_cmp common_entries in
          place_sorted tc entryvec (common_left context) v 0 (map ce_index common_entries)
      end
  | _, _, _ => range_gist_fallback_split tc entryvec
  end.

(** ** Choosing the split *)

Definition count_class (entryvec : list RangeType) (j : Z) : Z :=
  Z.of_nat (length (List.filter (fun r => get_gist_range_class r =? j) entryvec)).

(** One step of the loop that counts non-empty classes and finds the biggest:
    [(biggest_class, biggest_class_count, non_empty_classes_count)]. *)
Definition class_step (count_in_classes : Z -> Z) (acc : Z * Z * Z) (j : Z) : Z * Z * Z :=
  let '(biggest_class, biggest_class_count, non_empty_classes_count) := acc in
  if count_in_classes j >? 0 then
    if count_in_classes j >? biggest_class_count
    then (j, count_in_classes j, non_empty_classes_count + 1)
    else (biggest_class, biggest_class_count, non_empty_classes_count + 1)
  else acc.

Definition scan_classes (count_in_classes : Z -> Z) : Z * Z * Z :=
  fold_left (class_step count_in_classes) [0; 1; 2; 3; 4; 5; 6; 7; 8] (-1, 0, 0).

(** [classes_groups[class] = SPLIT_RIGHT] for the classes listed. *)
Definition groups_right (classes : list Z) (class : Z) : SplitLR :=
  if existsb (Z.eqb class) classes then SPLIT_RIGHT else SPLIT_LEFT.

Definition choose_groups (count_in_classes : Z -> Z) (total_count biggest_class : Z) : Z -> SplitLR :=
  if count_in_classes CLS_NORMAL >? 0 then groups_right [CLS_NORMAL]
  else
    let nonInfCount := count_in_classes CLS_NORMAL + count_in_classes CLS_CONTAIN_EMPTY + count_in_classes CLS_EMPTY in
    let infCount := total_count - nonInfCount in
    let nonEmptyCount :=
      count_in_classes CLS_NORMAL + count_in_classes CLS_LOWER_INF + count_in_classes CLS_UPPER_INF
      + count_in_classes (Z.lor CLS_LOWER_INF CLS_UPPER_INF) in
    let emptyCount := total_count - nonEmptyCount in
    if (infCount >? 0) && (nonInfCount >? 0)
       && (Z.abs (infCount - nonInfCount) <=? Z.abs (emptyCount - nonEmptyCount)) then
      groups_right [CLS_NORMAL; CLS_CONTAIN_EMPTY; CLS_EMPTY]
    else if (emptyCount >? 0) && (nonEmptyCount >? 0) then
      groups_right [CLS_NORMAL; CLS_LOWER_INF; CLS_UPPER_INF; Z.lor CLS_LOWER_INF CLS_UPPER_INF]
    else groups_right [biggest_class].

(** The split method for [entryvec], given the type cache entry. *)
Definition picksplit (tc : TypeCacheEntry) (entryvec : list RangeType) : result GIST_SPLITVEC :=
  let count_in_classes := count_class entryvec in
  let total_count := Z.of_nat (length entryvec) in
  let '(biggest_class, _, non_empty_classes_count) := scan_classes count_in_classes in
  if non_empty_classes_count =? 1 then
    let c := Z.land biggest_class (Z.lnot CLS_CONTAIN_EMPTY) in
    if c =? CLS_NORMAL then range_gist_double_sorting_split tc entryvec
    else if c =? CLS_LOWER_INF then range_gist_single_sorting_split tc entryvec true
    else if c =? CLS_UPPER_INF then range_gist_single_sorting_split tc entryvec false
    else range_gist_fallback_split tc entryvec
  else
    range_gist_class_split tc entryvec (choose_groups count_in_classes total_count biggest_class).

Definition range_gist_picksplit `{Catalog} (entryvec : list RangeType) : Fn FnExtra GIST_SPLITVEC :=
  match entryvec with
  | [] => lift (undefined "no entries to split")
  | pred_left :: _ =>
      typcache ← range_get_typcache (RangeTypeGetOid pred_left);
      lift (picksplit typcache entryvec)
  end.

End Split.
