(* ===== verification/RangeGistKeys.v ===== *)
(** * Keys of a GiST index on ranges: invariant and covering

    The invariant of index keys, what it means for a key to cover an entry,
    and the lemmas that [range_super_union] keeps both. *)

From S2P Require Import Prelude Floats Varlena RangeTypes RangeOrder RangeOps RangeStore Hashfn RangeCanon.
From S2P Require Import RangeParse RangeFmgr Sorting RangeGist.

(** ** The flag [RANGE_CONTAIN_EMPTY] *)

Section Flag.
Context `{Toast} (tc : TypeCacheEntry) `{!RangeSubtype tc}.

Lemma contain_empty_bits flags :
  RANGE_HAS_LBOUND (Z.lor flags RANGE_CONTAIN_EMPTY) = RANGE_HAS_LBOUND flags /\
  RANGE_HAS_UBOUND (Z.lor flags RANGE_CONTAIN_EMPTY) = RANGE_HAS_UBOUND flags /\
  (forall m, Z.land RANGE_CONTAIN_EMPTY m = 0 -> bit_set (Z.lor flags RANGE_CONTAIN_EMPTY) m = bit_set flags m) /\
  bit_set (Z.lor flags RANGE_CONTAIN_EMPTY) RANGE_CONTAIN_EMPTY = true.
Proof.
  assert (Hm : forall m, Z.land RANGE_CONTAIN_EMPTY m = 0 -> bit_set (Z.lor flags RANGE_CONTAIN_EMPTY) m = bit_set flags m).
  { intros m Hm. unfold bit_set. by rewrite Z.land_lor_distr_l, Hm, Z.lor_0_r. }
  split_and!; [unfold RANGE_HAS_LBOUND; by rewrite Hm|unfold RANGE_HAS_UBOUND; by rewrite Hm|done|].
  unfold bit_set. rewrite Z.land_lor_distr_l, Z.land_diag.
  destruct (Z.eqb_spec (Z.lor (Z.land flags RANGE_CONTAIN_EMPTY) RANGE_CONTAIN_EMPTY) 0) as [E|]; [|done].
  apply Z.lor_eq_0_iff in E as [_ E]. done.
Qed.

Lemma layout_contain_empty flags l u :
  exists pre, layout (rngelemtype tc) flags l u = pre ++ [flags] /\
    layout (rngelemtype tc) (Z.lor flags RANGE_CONTAIN_EMPTY) l u = pre ++ [Z.lor flags RANGE_CONTAIN_EMPTY].
Proof.
  destruct (contain_empty_bits flags) as (EL & EU & _).
  unfold layout, upper_off. rewrite EL, EU. eexists. rewrite !app_assoc. split; reflexivity.
Qed.

Lemma set_contain_layout flags l u :
  sizeof_RangeType + Z.of_nat (length (layout (rngelemtype tc) flags l u)) <= MaxAllocSize ->
  range_set_contain_empty (layout_range tc flags l u) = layout_range tc (Z.lor flags RANGE_CONTAIN_EMPTY) l u.
Proof.
  intros Hsz. destruct (layout_contain_empty flags l u) as (pre & E1 & E2).
  unfold range_set_contain_empty, layout_range. cbn [vl_len_ rangetypid rdata].
  unfold MaxAllocSize, sizeof_RangeType in *.
  rewrite VARSIZE_of_SET_VARSIZE by lia. rewrite E1, E2, !length_app. cbn [length].
  replace (8 + Z.of_nat (length pre + 1) - 1 - 8) with (Z.of_nat (length pre)) by lia.
  rewrite byte_at_app, Nat2Z.id. f_equal.
  rewrite <- (Nat.add_0_r (length pre)) at 1. by rewrite insert_app_r.
Qed.

(** A non-empty stored range, as bytes. *)
Lemma stored_layout r :
  stored_range tc r -> RangeIsEmpty r = false ->
  exists lo up l u, r = layout_range tc (bound_flags lo up) l u /\
    (infinite lo = false -> datum_ok (rngelemtype tc) l) /\ (infinite up = false -> datum_ok (rngelemtype tc) u) /\
    sizeof_RangeType + Z.of_nat (length (layout (rngelemtype tc) (bound_flags lo up) l u)) <= MaxAllocSize.
Proof.
  intros (lo & up & empty & Hl & Hu & El & Eu & Hs) He.
  rewrite range_serialize_layout, serialize_flags_spec in Hs by (done || apply rs_elem).
  destruct (_ && _) in Hs; [done|]. cbn [mbind result_bind] in Hs. cbv zeta in Hs.
  destruct (_ >? MaxAllocSize) eqn:Esz in Hs; [done|]. injection Hs as <-. zbool.
  destruct (makes_empty tc lo up empty).
  - unfold RangeIsEmpty in He. rewrite (get_flags_layout tc) in He by done. done.
  - exists lo, up. eexists _, _. split; [done|]. split_and!; [exact Hl|exact Hu|exact Esz].
Qed.

(** Setting the flag changes nothing but the flag. *)
Lemma set_contain_empty_spec r :
  stored_range tc r -> RangeIsEmpty r = false ->
  range_deserialize tc (range_set_contain_empty r) = range_deserialize tc r /\
  range_get_flags (range_set_contain_empty r) = Z.lor (range_get_flags r) RANGE_CONTAIN_EMPTY /\
  rangetypid (range_set_contain_empty r) = rangetypid r.
Proof.
  intros Hst He. destruct (stored_layout r Hst He) as (lo & up & l & u & -> & Hl & Hu & Hsz).
  rewrite set_contain_layout by done.
  destruct (bound_flags_bits lo up) as (HL & HU & _).
  assert (Hsz' : sizeof_RangeType + Z.of_nat (length (layout (rngelemtype tc) (Z.lor (bound_flags lo up) RANGE_CONTAIN_EMPTY) l u)) <= MaxAllocSize).
  { destruct (layout_contain_empty (bound_flags lo up) l u) as (pre & E1 & E2). rewrite E1 in Hsz. rewrite E2.
    rewrite length_app in *. done. }
  destruct (contain_empty_bits (bound_flags lo up)) as (EL & EU & Hm & _).
  split_and!; [|by rewrite !(get_flags_layout tc)|done].
  rewrite !(deserialize_layout tc rs_elem);
    [|try done; rewrite ?EL, ?EU, ?HL, ?HU; intros Hn%negb_true_iff; auto..].
  by rewrite EL, EU, !Hm.
Qed.

End Flag.

(** ** Interface: bounds that the canonical function leaves alone *)

(** [stable] bounds keep their place when a range is built from them, and the
    range is again stored with stable bounds.  Everything in an index was
    built by [make_range], so it has stable bounds. *)
Class StableBounds `{Toast} (tc : TypeCacheEntry) : Type := {
  stable : RangeBound -> Prop;
  stable_make : forall lo up r,
    bound_ok tc lo -> bound_ok tc up -> lower lo = true -> lower up = false ->
    stable lo -> stable up -> range_cmp_bounds tc lo up <= 0 -> make_range tc lo up false = Ok r ->
    stored_range tc r /\
    exists lo' up', range_deserialize tc r = (lo', up', false) /\
      range_cmp_bounds tc lo lo' = 0 /\ range_cmp_bounds tc up up' = 0 /\ stable lo' /\ stable up'
}.

Section NormCmp.
Context `{Toast} (tc : TypeCacheEntry) `{!RangeSubtype tc}.

Lemma stable_none : rng_canonical tc = None -> forall lo up r,
  bound_ok tc lo -> bound_ok tc up -> lower lo = true -> lower up = false ->
  range_cmp_bounds tc lo up <= 0 -> make_range tc lo up false = Ok r ->
  stored_range tc r /\
  exists lo' up', range_deserialize tc r = (lo', up', false) /\
    range_cmp_bounds tc lo lo' = 0 /\ range_cmp_bounds tc up up' = 0.
Proof.
  intros Hc lo up r Hl Hu El Eu Ho Hm. unfold make_range in Hm. rewrite Hc in Hm.
  apply bind_Ok in Hm as (r0 & Hs & [= <-]).
  split; [by exists lo, up, false|].
  destruct (serialize_bounds tc lo up r0 Hl Hu El Eu Ho Hs) as (Hd & Zl & Zu). by eexists _, _.
Qed.

End NormCmp.

(** Without a canonical function every bound is stable. *)
Definition stable_bounds_none `{Toast} (tc : TypeCacheEntry) `{!RangeSubtype tc} (Hc : rng_canonical tc = None)
  : StableBounds tc.
Proof.
  refine {| stable := fun _ => True |}. intros lo up r Hl Hu El Eu _ _ Ho Hm.
  destruct (stable_none tc Hc lo up r Hl Hu El Eu Ho Hm) as (Hst & lo' & up' & Hd & Zl & Zu).
  split; [done|]. exists lo', up'. auto.
Defined.

Section DiscreteStable.
Context `{Toast} (tc : TypeCacheEntry) `{!RangeSubtype tc}.
Context (skip : Datum -> bool) (succ : Datum -> result Datum) `{!Discrete tc skip succ}.
Context (canonical : RangeType -> result RangeType).
Hypothesis Hcanon : rng_canonical tc = Some canonical.
Hypothesis Hform : forall r, canonical r = discrete_canonical tc skip succ r.
Hypothesis skip_stored : forall d, skip (stored_datum (rngelemtype tc) d) = skip d.

(** The canonical function does not change the bound. *)
Definition discrete_stable (b : RangeBound) : Prop :=
  infinite b = true \/ skip (val b) = true \/ inclusive b = lower b.

Lemma stable_canon_lower b : lower b = true -> discrete_stable b -> canon_lower skip succ b = Ok b.
Proof.
  intros El Hs. unfold canon_lower. destruct Hs as [-> | [-> | -> ]]; [done| |].
  - cbn [negb]. by rewrite andb_false_r.
  - rewrite El. by rewrite andb_false_r.
Qed.

Lemma stable_canon_upper b : lower b = false -> discrete_stable b -> canon_upper skip succ b = Ok b.
Proof.
  intros El Hs. unfold canon_upper. destruct Hs as [-> | [-> | -> ]]; [done| |].
  - cbn [negb]. by rewrite andb_false_r.
  - rewrite El. by rewrite andb_false_r.
Qed.

Lemma stable_norm b : discrete_stable b -> discrete_stable (norm_bound tc b).
Proof.
  intros Hs. unfold discrete_stable, norm_bound. cbn [infinite val inclusive lower].
  destruct (infinite b) eqn:Ei; [by left|]. rewrite (detoast_byval tc skip succ), skip_stored, andb_true_r.
  destruct Hs as [Hs|[Hs|Hs]]; [congruence|auto..].
Qed.

Definition stable_bounds_discrete : StableBounds tc.
Proof.
  refine {| stable := discrete_stable |}. intros lo up r Hl Hu El Eu Sl Su Ho Hm.
  unfold make_range in Hm. apply bind_Ok in Hm as (r0 & Hs & Hr). rewrite Hcanon in Hr.
  destruct (serialize_bounds tc lo up r0 Hl Hu El Eu Ho Hs) as (Hd & Zl & Zu).
  destruct (deserialize_sides _ _ _ _ _ Hd) as (El' & Eu' & He). rewrite <- He in Hr. cbn [negb] in Hr.
  pose proof (stable_norm lo Sl) as Sl'. pose proof (stable_norm up Su) as Su'.
  rewrite Hform in Hr. unfold discrete_canonical in Hr.
  rewrite Hd, stable_canon_lower, stable_canon_upper in Hr by done. cbn [mbind result_bind] in Hr.
  assert (Hr0 : r = r0).
  { rewrite range_serialize_norm, Hs in Hr by done. by injection Hr. }
  subst r0. split; [by exists lo, up, false|].
  exists (norm_bound tc lo), (norm_bound tc up). auto.
Defined.

End DiscreteStable.

#[global] Instance int4_stable `{Toast} : StableBounds int4range :=
  stable_bounds_discrete int4range no_skip int4_succ _ eq_refl (int4_canonical_form int4_base) (fun _ => eq_refl).

#[global] Instance int8_stable `{Toast} : StableBounds int8range :=
  stable_bounds_discrete int8range no_skip int8_succ _ eq_refl (int8_canonical_form int8_base) (fun _ => eq_refl).

(** ** Keys *)

Section Keys.
Context `{Toast} (tc : TypeCacheEntry) `{!RangeSubtype tc} `{!RangeCanonical tc} `{!StableBounds tc}.

(** A key is a stored range with stable bounds, possibly with the flag set. *)
Definition gist_key (r : RangeType) : Prop :=
  exists r0, stored_range tc r0 /\ (r = r0 \/ (RangeIsEmpty r0 = false /\ r = range_set_contain_empty r0)) /\
    let '(lo, up, empty) := range_deserialize tc r0 in empty = false -> stable lo /\ stable up.

(** [key] covers [r]: it has all its points, and records empty ranges. *)
Definition covers (key r : RangeType) : Prop :=
  (forall p, pts tc r p -> pts tc key p) /\
  (RangeIsOrContainsEmpty r = true -> RangeIsOrContainsEmpty key = true).

Lemma stored_wf r : stored_range tc r -> range_wf tc r.
Proof.
  intros (lo & up & e & Hl & Hu & El & Eu & Hs). by apply (range_serialize_spec tc lo up e r Hl Hu El Eu Hs).
Qed.

(** What a key looks like to the functions that read it. *)
Lemma gist_key_view r :
  gist_key r ->
  range_wf tc r /\
  exists lo up e, range_deserialize tc r = (lo, up, e) /\ lower lo = true /\ lower up = false /\
    e = RangeIsEmpty r /\ e = bit_set (range_get_flags r) RANGE_EMPTY /\
    (e = true -> r = empty_range tc) /\
    (e = false -> bound_ok tc lo /\ bound_ok tc up /\ range_cmp_bounds tc lo up <= 0 /\ stable lo /\ stable up).
Proof.
  intros (r0 & Hst & Hr & Hstab). pose proof (stored_wf r0 Hst) as Hwf.
  destruct (wf_view tc r0 Hwf) as (lo & up & e & Hd & El & Eu & Hb). rewrite Hd in Hstab.
  destruct (deserialize_sides _ _ _ _ _ Hd) as (_ & _ & He).
  assert (Hall : e = false -> bound_ok tc lo /\ bound_ok tc up /\ range_cmp_bounds tc lo up <= 0 /\ stable lo /\ stable up)
    by (intros E; destruct (Hb E) as (? & ? & ?), (Hstab E); auto).
  destruct Hr as [->|[Hne ->]].
  - split; [done|]. exists lo, up, e. split_and!; try done.
    intros ->. destruct (stored_range_view tc r0 Hst) as [?|(l & u & Hd' & _)]; [done|]. congruence.
  - destruct (set_contain_empty_spec tc r0 Hst Hne) as (Hd' & Hf' & Hid').
    split; [split; [rewrite Hid'; by destruct Hwf|rewrite Hd', Hd; done]|].
    exists lo, up, e. rewrite Hd'. split_and!; try done.
    + rewrite He. unfold RangeIsEmpty. rewrite Hf'.
      destruct (contain_empty_bits (range_get_flags r0)) as (_ & _ & Hm & _). by rewrite Hm.
    + rewrite Hf'. destruct (contain_empty_bits (range_get_flags r0)) as (_ & _ & Hm & _). by rewrite Hm.
    + congruence.
Qed.

Lemma covers_refl r : covers r r.
Proof. split; auto. Qed.

Lemma covers_trans r1 r2 r3 : covers r1 r2 -> covers r2 r3 -> covers r1 r3.
Proof. intros [H1 H2] [H3 H4]. split; auto. Qed.

Lemma or_contains_flags r :
  RangeIsOrContainsEmpty r = RangeIsEmpty r || bit_set (range_get_flags r) RANGE_CONTAIN_EMPTY.
Proof.
  unfold RangeIsOrContainsEmpty, RangeIsEmpty, bit_set. set (f := range_get_flags r).
  rewrite Z.land_lor_distr_r.
  destruct (Z.eqb_spec (Z.land f RANGE_EMPTY) 0) as [->|H1], (Z.eqb_spec (Z.land f RANGE_CONTAIN_EMPTY) 0) as [->|H2];
    cbn [negb orb]; [done|by rewrite Z.lor_0_l; destruct (Z.eqb_spec (Z.land f RANGE_CONTAIN_EMPTY) 0)|..].
  - rewrite Z.lor_0_r. by destruct (Z.eqb_spec (Z.land f RANGE_EMPTY) 0).
  - destruct (Z.eqb_spec (Z.lor (Z.land f RANGE_EMPTY) (Z.land f RANGE_CONTAIN_EMPTY)) 0) as [E|]; [|done].
    apply Z.lor_eq_0_iff in E as [? _]. done.
Qed.

(** Setting the flag on a key gives a key that covers it and any empty range. *)
Lemma gist_key_set r :
  gist_key r -> RangeIsEmpty r = false -> RangeIsOrContainsEmpty r = false ->
  gist_key (range_set_contain_empty r) /\ covers (range_set_contain_empty r) r /\
  RangeIsOrContainsEmpty (range_set_contain_empty r) = true.
Proof.
  intros (r0 & Hst & Hr & Hstab) He Hc. destruct Hr as [->|[Hne ->]].
  - destruct (set_contain_empty_spec tc r0 Hst He) as (Hd' & Hf' & Hid').
    assert (Ho : RangeIsOrContainsEmpty (range_set_contain_empty r0) = true).
    { rewrite or_contains_flags, Hf'.
      destruct (contain_empty_bits (range_get_flags r0)) as (_ & _ & _ & ->). by rewrite orb_true_r. }
    split_and!; [exists r0; by auto| |done]. split; [|done]. intros p. unfold pts. by rewrite Hd'.
  - exfalso. destruct (set_contain_empty_spec tc r0 Hst Hne) as (_ & Hf' & _).
    rewrite or_contains_flags, Hf' in Hc.
    destruct (contain_empty_bits (range_get_flags r0)) as (_ & _ & _ & E). rewrite E, orb_true_r in Hc. done.
Qed.

Lemma pts_within r1 r2 l1 u1 l2 u2 :
  range_deserialize tc r1 = (l1, u1, false) -> range_deserialize tc r2 = (l2, u2, false) ->
  range_cmp_bounds tc l1 l2 <= 0 -> range_cmp_bounds tc u2 u1 <= 0 ->
  forall p, pts tc r2 p -> pts tc r1 p.
Proof.
  intros Hd1 Hd2 Hl Hu p. rewrite (pts_cmp _ _ _ _ _ _ Hd1), (pts_cmp _ _ _ _ _ _ Hd2).
  intros (_ & ? & ?). split_and!; [done|by apply (bounds_trans tc) with l2|by apply (bounds_trans tc) with u2].
Qed.

Lemma covers_empty r key :
  RangeIsEmpty r = true -> RangeIsOrContainsEmpty key = true -> covers key r.
Proof.
  intros He Hk. split; [|done]. intros p Hp. unfold pts in Hp.
  destruct (range_deserialize tc r) as [[lo up] e] eqn:Hd.
  destruct (deserialize_sides _ _ _ _ _ Hd) as (_ & _ & ->). rewrite He in Hp. by destruct Hp.
Qed.

(** Adding an empty range to a key. *)
Lemma super_union_empty r e :
  gist_key r -> RangeIsEmpty e = true ->
  exists r', (if bit_set (range_get_flags r) (Z.lor RANGE_EMPTY RANGE_CONTAIN_EMPTY) then Ok r
              else Ok (range_set_contain_empty r)) = Ok r' /\ gist_key r' /\ covers r' r /\ covers r' e.
Proof.
  intros Hk He. fold (RangeIsOrContainsEmpty r).
  destruct (RangeIsOrContainsEmpty r) eqn:Ec; eexists; (split; [done|]).
  - split_and!; [done|apply covers_refl|by apply covers_empty].
  - assert (Hne : RangeIsEmpty r = false) by (rewrite or_contains_flags in Ec; by destruct (RangeIsEmpty r)).
    destruct (gist_key_set r Hk Hne Ec) as (? & ? & ?). split_and!; [done..|by apply covers_empty].
Qed.

(** The range from the lesser lower to the greater upper bound. *)
Lemma super_union_make r1 r2 l1 u1 l2 u2 lo up :
  gist_key r1 -> gist_key r2 ->
  range_deserialize tc r1 = (l1, u1, false) -> range_deserialize tc r2 = (l2, u2, false) ->
  (lo = l1 \/ lo = l2) -> (up = u1 \/ up = u2) ->
  range_cmp_bounds tc lo l1 <= 0 -> range_cmp_bounds tc lo l2 <= 0 ->
  range_cmp_bounds tc u1 up <= 0 -> range_cmp_bounds tc u2 up <= 0 ->
  match make_range tc lo up false with
  | Ok r => gist_key r /\ RangeIsEmpty r = false /\ RangeIsOrContainsEmpty r = false /\
            (forall p, pts tc r1 p -> pts tc r p) /\ (forall p, pts tc r2 p -> pts tc r p)
  | Err e => make_failure tc e
  end.
Proof.
  intros Hk1 Hk2 Hd1 Hd2 Hlo Hup H1 H2 H3 H4.
  destruct (gist_key_view r1 Hk1) as (_ & ? & ? & ? & Hd1' & L1 & U1 & _ & _ & _ & Hw1).
  destruct (gist_key_view r2 Hk2) as (_ & ? & ? & ? & Hd2' & L2 & U2 & _ & _ & _ & Hw2).
  rewrite Hd1 in Hd1'. rewrite Hd2 in Hd2'.
  injection Hd1' as <- <- <-. injection Hd2' as <- <- <-.
  destruct (Hw1 eq_refl) as (? & ? & ? & ? & ?), (Hw2 eq_refl) as (? & ? & ? & ? & ?).
  assert (bound_ok tc lo /\ lower lo = true /\ stable lo) as (? & Llo & ?) by (destruct Hlo as [-> | -> ]; auto).
  assert (bound_ok tc up /\ lower up = false /\ stable up) as (? & Lup & ?) by (destruct Hup as [-> | -> ]; auto).
  assert (Ho : range_cmp_bounds tc lo up <= 0) by rank_lia tc [lo; up; l1; u1; l2; u2].
  destruct (make_range tc lo up false) as [r|e] eqn:Hm.
  - destruct (stable_make lo up r) as (Hst & lo' & up' & Hd & Zl & Zu & ? & ?); try done.
    destruct (deserialize_sides _ _ _ _ _ Hd) as (_ & _ & He).
    destruct (stored_range_view tc r Hst) as [-> |(? & ? & Hd' & Hf & _)]; [done|].
    rewrite Hd in Hd'. injection Hd' as <- <-.
    split_and!.
    + exists r. rewrite Hd. auto.
    + done.
    + rewrite or_contains_flags, <- He, Hf. unfold bound_flags, bit_set.
      by destruct (infinite lo'), (inclusive lo'), (infinite up'), (inclusive up').
    + apply (pts_within r r1 lo' up' l1 u1); [done..|rank_lia tc [lo; lo'; l1]|rank_lia tc [up; up'; u1]].
    + apply (pts_within r r2 lo' up' l2 u2); [done..|rank_lia tc [lo; lo'; l2]|rank_lia tc [up; up'; u2]].
  - eapply make_range_error; [..|exact Hm]; try done. apply cmp_values_bounds in Ho; [lia|done..].
Qed.

(** [range_super_union] of keys is a key that covers both, or building the
    range fails. *)
Lemma super_union_key r1 r2 :
  gist_key r1 -> gist_key r2 ->
  match range_super_union tc r1 r2 with
  | Ok r => gist_key r /\ covers r r1 /\ covers r r2
  | Err e => make_failure tc e
  end.
Proof.
  intros Hk1 Hk2.
  destruct (gist_key_view r1 Hk1) as (_ & l1 & u1 & e1 & Hd1 & L1 & U1 & He1 & Hb1 & _ & Hw1).
  destruct (gist_key_view r2 Hk2) as (_ & l2 & u2 & e2 & Hd2 & L2 & U2 & He2 & Hb2 & _ & Hw2).
  unfold range_super_union. rewrite Hd1, Hd2.
  destruct e1; [destruct (super_union_empty r2 r1) as (r & -> & ? & ? & ?); by auto|].
  destruct e2; [destruct (super_union_empty r1 r2) as (r & -> & ? & ? & ?); by auto|].
  pose proof (or_contains_flags r1) as Ho1. pose proof (or_contains_flags r2) as Ho2.
  rewrite <- He1 in Ho1. rewrite <- He2 in Ho2. cbn [orb] in Ho1, Ho2. rewrite <- Ho1, <- Ho2.
  set (il := range_cmp_bounds tc l1 l2 <=? 0). set (iu := range_cmp_bounds tc u1 u2 >=? 0).
  assert (Hil : if il then range_cmp_bounds tc l1 l2 <= 0 else range_cmp_bounds tc l2 l1 < 0)
    by (unfold il; pose proof (bounds_antisym tc l1 l2); destruct (Z.leb_spec (range_cmp_bounds tc l1 l2) 0); lia).
  assert (Hiu : if iu then range_cmp_bounds tc u2 u1 <= 0 else range_cmp_bounds tc u1 u2 < 0)
    by (unfold iu; pose proof (bounds_antisym tc u1 u2); destruct (Z.geb_spec (range_cmp_bounds tc u1 u2) 0); lia).
  pose proof (bounds_refl tc l1). pose proof (bounds_refl tc l2).
  pose proof (bounds_refl tc u1). pose proof (bounds_refl tc u2).
  destruct (il && iu && _) eqn:E1.
  { apply andb_true_iff in E1 as [[-> -> ]%andb_true_iff Hf]. split_and!; [done|apply covers_refl|].
    split; [by apply (pts_within r1 r2 l1 u1 l2 u2)|]. intros Hc. rewrite Hc in Hf.
    by rewrite orb_false_r in Hf. }
  destruct (negb il && negb iu && _) eqn:E2.
  { apply andb_true_iff in E2 as [[?%negb_true_iff ?%negb_true_iff]%andb_true_iff Hf].
    destruct il, iu; try done. split_and!; [done| |apply covers_refl].
    split; [apply (pts_within r2 r1 l2 u2 l1 u1); (done || lia)|]. intros Hc. rewrite Hc in Hf.
    by rewrite orb_false_r in Hf. }
  pose proof (super_union_make r1 r2 l1 u1 l2 u2 (if il then l1 else l2) (if iu then u1 else u2)
    Hk1 Hk2 Hd1 Hd2) as Hm.
  destruct (make_range tc _ _ false) as [r|e]; cbn [mbind result_bind].
  - destruct Hm as (Hk & Hne & Hnc & Hp1 & Hp2);
      [destruct il; auto|destruct iu; auto|destruct il; lia|destruct il; lia|destruct iu; lia|destruct iu; lia|].
    destruct (RangeIsOrContainsEmpty r1) eqn:C1, (RangeIsOrContainsEmpty r2) eqn:C2; cbn [orb].
    all: try (destruct (gist_key_set r Hk Hne Hnc) as (? & [? ?] & ?); split; [done|]; split; (split; [auto|by rewrite ?C1, ?C2])).
  - apply Hm; [destruct il; auto|destruct iu; auto|destruct il; lia|destruct il; lia|destruct iu; lia|destruct iu; lia].
Qed.

Lemma union_loop_key ents key :
  gist_key key -> Forall gist_key ents ->
  match union_loop tc key ents with
  | Ok r => gist_key r /\ covers r key /\ Forall (covers r) ents
  | Err e => make_failure tc e
  end.
Proof.
  intros Hk Hents. revert key Hk. induction Hents as [|e ents He Hents IH]; intros key Hk; cbn [union_loop].
  { split_and!; [done|apply covers_refl|constructor]. }
  pose proof (super_union_key key e Hk He) as Hu.
  destruct (range_super_union tc key e) as [r|err]; cbn [mbind result_bind]; [|done].
  destruct Hu as (Hr & Hc1 & Hc2). specialize (IH r Hr).
  destruct (union_loop tc r ents) as [r'|err]; [|done]. destruct IH as (? & ? & ?).
  split_and!; [done|by apply covers_trans with r|constructor; [by apply covers_trans with r|done]].
Qed.

End Keys.
