(* ===== verification/RangeGistSearch.v ===== *)
(** * Searching a GiST index on ranges

    An internal page is not skipped when it holds a matching entry:
    [range_gist_consistent_int] accepts every key that covers a range that
    [range_gist_consistent_leaf] accepts. *)

From S2P Require Import Prelude Floats Varlena RangeTypes RangeOrder RangeOps RangeStore Hashfn RangeCanon.
From S2P Require Import RangeParse RangeFmgr Sorting RangeGist RangeGistKeys.

(** ** Discrete types have a member between finite bounds *)

Section DiscreteTight.
Context `{Toast} (tc : TypeCacheEntry) `{!RangeSubtype tc}.
Context (succ : Datum -> result Datum) `{!Discrete tc no_skip succ}.
Hypothesis Hform : forall canonical, rng_canonical tc = Some canonical ->
  forall r, canonical r = discrete_canonical tc no_skip succ r.

(** A range with an inclusive finite lower bound has that bound as a member. *)
Lemma serialize_lower_member lo up r :
  bound_ok tc lo -> bound_ok tc up -> lower lo = true -> lower up = false ->
  infinite lo = false -> inclusive lo = true ->
  range_serialize tc lo up false = Ok r -> RangeIsEmpty r = false -> mem tc r (val lo).
Proof.
  intros Hl Hu El Eu Fl Il Hs He.
  destruct (range_serialize_spec tc lo up false r Hl Hu El Eu Hs) as [[_ Hwf] Hm].
  destruct (serialize_deserialize tc rs_elem lo up false r Hl Hu El Eu Hs) as (_ & _ & Hd).
  assert (Ho : range_cmp_bounds tc lo up <= 0).
  { destruct (makes_empty tc lo up false).
    - destruct (deserialize_sides _ _ _ _ _ Hd) as (_ & _ & E). congruence.
    - rewrite Hd in Hwf. destruct (Hwf eq_refl) as (_ & _ & ?).
      pose proof (norm_bound_zero tc lo Hl). pose proof (norm_bound_zero tc up Hu).
      rank_lia tc [lo; up; norm_bound tc lo; norm_bound tc up]. }
  assert (Hpt : range_cmp_bounds tc lo (pt (val lo)) = 0).
  { unfold range_cmp_bounds. cbn. rewrite Fl, Il, cmp_refl by apply _. by rewrite El. }
  apply Hm. split; [done|]. unfold between. split; [lia|rank_lia tc [lo; up; pt (val lo)]].
Qed.

Lemma discrete_tight : TightBounds tc.
Proof.
  constructor. intros canonical lo up r Hc Hl Hu El Eu Fl Fu Hm He.
  unfold make_range in Hm. apply bind_Ok in Hm as (r0 & Hs & Hr). rewrite Hc in Hr.
  destruct (RangeIsEmpty r0) eqn:E0; cbn [negb] in Hr; [injection Hr as <-; congruence|].
  destruct (range_serialize_spec tc lo up false r0 Hl Hu El Eu Hs) as [Hwf _].
  destruct (serialize_deserialize tc rs_elem lo up false r0 Hl Hu El Eu Hs) as (_ & _ & Hd).
  destruct (makes_empty tc lo up false); destruct (deserialize_sides _ _ _ _ _ Hd) as (El' & Eu' & E); [congruence|].
  destruct (wf_view tc r0 Hwf) as (? & ? & ? & Hd' & _ & _ & Hb).
  rewrite Hd in Hd'. injection Hd' as <- <- <-. destruct (Hb eq_refl) as (Hl' & Hu' & _).
  rewrite (Hform canonical Hc) in Hr. unfold discrete_canonical in Hr. rewrite Hd in Hr.
  apply bind_Ok in Hr as (lo' & Cl & Hr). apply bind_Ok in Hr as (up' & Cu & Hr).
  destruct (canon_lower_spec tc no_skip succ _ _ El' Hl' Cl) as (El2 & Hl2 & Fl2 & _).
  destruct (canon_upper_spec tc no_skip succ _ _ Eu' Hu' Cu) as (Eu2 & Hu2 & _).
  assert (Fl' : infinite lo' = false) by (rewrite Fl2; exact Fl).
  destruct (canon_bounds_canonical no_skip succ _ _ lo' up' (fun _ => eq_refl) (fun _ => eq_refl) Cl Cu) as [Ci _].
  exists (val lo'). by apply (serialize_lower_member lo' up'); auto.
Qed.

End DiscreteTight.

#[global] Instance int4_tight `{Toast} : TightBounds int4range.
Proof. apply (discrete_tight int4range int4_succ). intros ? [= <-] r. exact (int4_canonical_form int4_base r). Qed.

#[global] Instance int8_tight `{Toast} : TightBounds int8range.
Proof. apply (discrete_tight int8range int8_succ). intros ? [= <-] r. exact (int8_canonical_form int8_base r). Qed.

Lemma tight_none `{Toast} tc : rng_canonical tc = None -> TightBounds tc.
Proof. intros Hc. constructor. intros canonical * Hc'. congruence. Qed.

(** ** Adjacency of a wider range *)

(** No value lies between an upper bound [A] and a lower bound [B]. *)
Definition gap (tc : TypeCacheEntry) (A B : RangeBound) : Prop :=
  range_cmp_bounds tc A B < 0 /\
  forall v, 0 <= range_cmp_bounds tc A (pt v) \/ range_cmp_bounds tc B (pt v) <= 0.

Definition true_or_failure `{Toast} (tc : TypeCacheEntry) (res : result bool) : Prop :=
  match res with Ok b => b = true | Err e => make_failure tc e end.

Section Adjacency.
Context `{Toast} (tc : TypeCacheEntry) `{!RangeSubtype tc} `{!RangeCanonical tc} `{!TightBounds tc}.

Lemma gap_finite A B : lower A = false -> lower B = true -> gap tc A B -> infinite A = false /\ infinite B = false.
Proof.
  intros LA LB [Hlt _]. split; [|by apply (cmp_lower_finite tc A)].
  apply (cmp_upper_finite tc B); [done|]. pose proof (bounds_antisym tc A B). lia.
Qed.

(** Bounds of the same value with a gap between them. *)
Lemma gap_same_value A B :
  infinite A = false -> infinite B = false -> lower A = false -> lower B = true -> gap tc A B ->
  rng_cmp_proc tc (val A) (val B) = 0 -> inclusive A <> inclusive B.
Proof.
  intros FA FB LA LB [Hlt Hgap] Hv Hi. specialize (Hgap (val B)). revert Hlt Hgap.
  unfold range_cmp_bounds. cbn. rewrite FA, FB, LA, LB, Hi, Hv, cmp_refl by apply _. cbn.
  destruct (inclusive B); cbn; lia.
Qed.

(** With a canonical function, [bounds_adjacent] sees every gap. *)
Lemma gap_adjacent canonical A B :
  rng_canonical tc = Some canonical ->
  bound_ok tc A -> bound_ok tc B -> lower A = false -> lower B = true -> gap tc A B ->
  true_or_failure tc (bounds_adjacent tc A B).
Proof.
  intros Hc HA HB LA LB Hg. destruct (gap_finite A B LA LB Hg) as [FA FB].
  destruct (bounds_adjacent tc A B) as [b|e] eqn:Hadj; [|by apply (bounds_adjacent_error tc A B)].
  cbn. unfold bounds_adjacent in Hadj. rewrite Hc in Hadj.
  assert (EV : range_cmp_bound_values tc A B = rng_cmp_proc tc (val A) (val B))
    by (unfold range_cmp_bound_values; by rewrite FA, FB).
  rewrite EV in Hadj. destruct (rng_cmp_proc tc (val A) (val B) <? 0) eqn:Elt.
  - apply bind_Ok in Hadj as (r & Hm & Hr). injection Hr as <-.
    destruct (RangeIsEmpty r) eqn:He; [done|exfalso].
    assert (EA : mkBound (val A) (infinite A) (negb (inclusive A)) true = flip_bound A) by (unfold flip_bound; by rewrite LA).
    assert (EB : mkBound (val B) (infinite B) (negb (inclusive B)) false = flip_bound B) by (unfold flip_bound; by rewrite LB).
    rewrite EA, EB in Hm.
    assert (La : lower (flip_bound A) = true) by (cbn; by rewrite LA).
    assert (Lb : lower (flip_bound B) = false) by (cbn; by rewrite LB).
    destruct (tight_make canonical (flip_bound A) (flip_bound B) r Hc HA HB La Lb FA FB Hm He) as [v Hv].
    apply (make_range_spec tc (flip_bound A) (flip_bound B) false r HA HB La Lb Hm) in Hv as [_ [Hv1 Hv2]].
    pose proof (flip_upper tc A v FA LA). pose proof (flip_lower tc B v FB LB).
    destruct Hg as [_ Hg]. destruct (Hg v); lia.
  - zbool. destruct (Z.eqb_spec (rng_cmp_proc tc (val A) (val B)) 0) as [Eq|Ne]; injection Hadj as <-.
    + pose proof (gap_same_value A B FA FB LA LB Hg Eq). by destruct (inclusive A), (inclusive B).
    + exfalso. destruct Hg as [Hlt _]. unfold range_cmp_bounds in Hlt. rewrite FA, FB in Hlt. cbn [andb] in Hlt.
      destruct (Z.eqb_spec (rng_cmp_proc tc (val A) (val B)) 0); lia.
Qed.

(** Without one, adjacent bounds have the same value and nothing in between. *)
Lemma adjacent_none_between A B b :
  rng_canonical tc = None -> lower A = false -> lower B = true ->
  bounds_adjacent tc A B = Ok true -> range_cmp_bounds tc A b <= 0 -> range_cmp_bounds tc b B < 0 ->
  lower b = false -> bounds_adjacent tc b B = Ok true.
Proof.
  intros Hc LA LB Hadj H1 H2 Lb. unfold bounds_adjacent in *. rewrite Hc in *.
  revert Hadj H1 H2. unfold range_cmp_bound_values, range_cmp_bounds.
  destruct (infinite A) eqn:IA, (infinite B) eqn:IB, (infinite b) eqn:Ib; rewrite ?LA, ?LB, ?Lb; cbn; try done; try lia.
  pose proof (cmp_trans (val A) (val b) (val B)). pose proof (cmp_trans (val B) (val A) (val b)).
  pose proof (cmp_trans (val b) (val B) (val A)).
  pose proof (cmp_antisym (val A) (val b)). pose proof (cmp_antisym (val b) (val B)). pose proof (cmp_antisym (val A) (val B)).
  destruct (Z.ltb_spec (rng_cmp_proc tc (val A) (val B)) 0); [done|].
  destruct (Z.eqb_spec (rng_cmp_proc tc (val A) (val B)) 0); [|done]. intros [= Hi] Hx Hy.
  destruct (Z.eqb_spec (rng_cmp_proc tc (val A) (val b)) 0), (Z.eqb_spec (rng_cmp_proc tc (val b) (val B)) 0); try lia.
  destruct (Z.ltb_spec (rng_cmp_proc tc (val b) (val B)) 0); [lia|].
  destruct (inclusive A), (inclusive B), (inclusive b); cbn in *; try done; lia.
Qed.

Lemma adjacent_none_between_r A B b :
  rng_canonical tc = None -> lower A = false -> lower B = true ->
  bounds_adjacent tc A B = Ok true -> range_cmp_bounds tc A b < 0 -> range_cmp_bounds tc b B <= 0 ->
  lower b = true -> bounds_adjacent tc A b = Ok true.
Proof.
  intros Hc LA LB Hadj H1 H2 Lb. unfold bounds_adjacent in *. rewrite Hc in *.
  revert Hadj H1 H2. unfold range_cmp_bound_values, range_cmp_bounds.
  destruct (infinite A) eqn:IA, (infinite B) eqn:IB, (infinite b) eqn:Ib; rewrite ?LA, ?LB, ?Lb; cbn; try done; try lia.
  pose proof (cmp_trans (val A) (val b) (val B)). pose proof (cmp_trans (val B) (val A) (val b)).
  pose proof (cmp_trans (val b) (val B) (val A)).
  pose proof (cmp_antisym (val A) (val b)). pose proof (cmp_antisym (val b) (val B)). pose proof (cmp_antisym (val A) (val B)).
  destruct (Z.ltb_spec (rng_cmp_proc tc (val A) (val B)) 0); [done|].
  destruct (Z.eqb_spec (rng_cmp_proc tc (val A) (val B)) 0); [|done]. intros [= Hi] Hx Hy.
  destruct (Z.eqb_spec (rng_cmp_proc tc (val A) (val b)) 0), (Z.eqb_spec (rng_cmp_proc tc (val b) (val B)) 0); try lia.
  destruct (Z.ltb_spec (rng_cmp_proc tc (val A) (val b)) 0); [lia|].
  destruct (inclusive A), (inclusive B), (inclusive b); cbn in *; try done; lia.
Qed.

(** Moving the upper bound [A] towards [B], or [B] towards [A], keeps them
    adjacent. *)
Lemma adjacent_closer A B A' B' :
  bound_ok tc A -> bound_ok tc B -> bound_ok tc A' -> bound_ok tc B' ->
  lower A = false -> lower B = true -> lower A' = false -> lower B' = true ->
  bounds_adjacent tc A B = Ok true ->
  range_cmp_bounds tc A A' <= 0 -> range_cmp_bounds tc B' B <= 0 -> range_cmp_bounds tc A' B' < 0 ->
  true_or_failure tc (bounds_adjacent tc A' B').
Proof.
  intros HA HB HA' HB' LA LB LA' LB' Hadj H1 H2 H3.
  destruct (rng_canonical tc) as [canonical|] eqn:Hc.
  - apply (gap_adjacent canonical); [done..|]. split; [done|]. intros v.
    destruct (bounds_adjacent_spec tc A B HA HB LA LB Hadj) as [_ Hg].
    destruct (Hg v); [left; rank_lia tc [A; A'; pt v]|right; rank_lia tc [B; B'; pt v]].
  - assert (E : bounds_adjacent tc A' B = Ok true) by (apply (adjacent_none_between A); try done; rank_lia tc [A'; B; B']).
    rewrite (adjacent_none_between_r A' B B'); done.
Qed.

End Adjacency.

(** ** Completeness of the search *)

Section Complete.
Context `{Toast} (tc : TypeCacheEntry) `{!RangeSubtype tc} `{!RangeCanonical tc} `{!TightBounds tc}.

Lemma pts_nonempty r p : pts tc r p -> RangeIsEmpty r = false.
Proof.
  unfold pts. destruct (range_deserialize tc r) as [[lo up] e] eqn:Hd.
  destruct (deserialize_sides _ _ _ _ _ Hd) as (_ & _ & ->). by intros [].
Qed.

Lemma nonempty_pts r : range_wf tc r -> RangeIsEmpty r = false -> exists p, pts tc r p.
Proof.
  intros Hwf He. destruct (wf_view tc r Hwf) as (lo & up & e & Hd & _ & _ & Hb).
  destruct (deserialize_sides _ _ _ _ _ Hd) as (_ & _ & E). rewrite He in E. subst e.
  destruct (Hb eq_refl) as (_ & _ & Ho). destruct (pts_endpoints tc _ _ _ Hd Ho). by eexists.
Qed.

Variables (key r q : RangeType).
Hypothesis Hkey : range_wf tc key.
Hypothesis Hr : range_wf tc r.
Hypothesis Hq : range_wf tc q.
Hypothesis Hcov : covers tc key r.

Lemma ext_lt_not_le p p' :
  ext_cmp (rng_cmp_proc tc) p p' < 0 -> ext_cmp (rng_cmp_proc tc) p' p <= 0 -> False.
Proof. pose proof (ext_cmp_antisym (rng_cmp_proc tc) p p'). lia. Qed.

Lemma adjacent_error e : range_adjacent_internal tc key q = Err e -> make_failure tc e.
Proof.
  destruct (wf_view tc key Hkey) as (lk & uk & ek & Hdk & _), (wf_view tc q Hq) as (lq & uq & eq & Hdq & _).
  intros E. destruct ek, eq;
    [by unfold range_adjacent_internal in E; rewrite (types_match tc), Hdk, Hdq in E by done..|].
  pose proof (adjacent_cases tc key q _ _ _ _ Hkey Hq Hdk Hdq) as Hc. by rewrite E in Hc.
Qed.

Lemma adjacent_nonempty :
  range_adjacent_internal tc r q = Ok true -> RangeIsEmpty key || RangeIsEmpty q = true -> False.
Proof.
  unfold range_adjacent_internal. rewrite (types_match tc) by done.
  destruct (range_deserialize tc r) as [[l1 u1] e1] eqn:Hd1, (range_deserialize tc q) as [[l2 u2] e2] eqn:Hd2.
  destruct (deserialize_sides _ _ _ _ _ Hd1) as (_ & _ & ->), (deserialize_sides _ _ _ _ _ Hd2) as (_ & _ & ->).
  destruct (RangeIsEmpty r) eqn:E1, (RangeIsEmpty q) eqn:E2; cbn [orb]; try done. intros _.
  destruct (nonempty_pts r Hr E1) as [p Hp]. destruct Hcov as [Hc _].
  by rewrite (pts_nonempty key p (Hc p Hp)).
Qed.

(** The keys of an internal page are adjacent to, or overlap, every range
    adjacent to one of their entries. *)
Lemma adjacent_complete :
  range_adjacent_internal tc r q = Ok true ->
  true_or_failure tc (a ← range_adjacent_internal tc key q;
                      if (a : bool) then Ok true else range_overlaps_internal tc key q).
Proof.
  intros Hadj. destruct (overlaps_pts tc key q Hkey Hq) as (b & Eb & Hb). rewrite Eb.
  destruct b; [destruct (range_adjacent_internal tc key q) as [[]|e] eqn:E; (done || by apply adjacent_error)|].
  assert (Hno : forall p, pts tc key p -> ~ pts tc q p).
  { intros p Hp1 Hp2. assert (false = true) by (apply Hb; by exists p). done. }
  clear Eb Hb. revert Hadj. unfold range_adjacent_internal.
  rewrite !(types_match tc) by done.
  destruct (wf_view tc r Hr) as (l1 & u1 & e1 & Hd1 & L1 & U1 & W1).
  destruct (wf_view tc q Hq) as (l2 & u2 & e2 & Hd2 & L2 & U2 & W2).
  destruct (wf_view tc key Hkey) as (l3 & u3 & e3 & Hd3 & L3 & U3 & W3).
  rewrite Hd1, Hd2, Hd3. destruct e1, e2; cbn [orb]; try done.
  destruct (W1 eq_refl) as (Bl1 & Bu1 & O1), (W2 eq_refl) as (Bl2 & Bu2 & O2).
  destruct (pts_endpoints tc _ _ _ Hd1 O1) as [P1 P2]. destruct (pts_endpoints tc _ _ _ Hd2 O2) as [P3 P4].
  destruct Hcov as [Hc _]. pose proof (Hc _ P1) as K1. pose proof (Hc _ P2) as K2.
  pose proof (fun K => Hno _ K P3) as N3. pose proof (fun K => Hno _ K P4) as N4.
  apply (pts_bound _ _ _ _ _ _ Hd3) in K1, K2. rewrite (pts_bound _ _ l2 _ _ _ Hd3) in N3.
  rewrite (pts_bound _ _ u2 _ _ _ Hd3) in N4. destruct K1 as (-> & K1 & K1'), K2 as (_ & K2 & K2').
  destruct (W3 eq_refl) as (Bl3 & Bu3 & O3). cbn [orb].
  destruct (bounds_adjacent tc u1 l2) as [[]|e] eqn:A1; cbn [mbind result_bind]; [intros _| |done].
  - pose proof (bounds_adjacent_spec tc u1 l2 Bu1 Bl2 U1 L2 A1) as [G1 _].
    assert (Hlt : range_cmp_bounds tc u3 l2 < 0).
    { destruct (Z.lt_ge_cases (range_cmp_bounds tc u3 l2) 0); [done|]. destruct N3. pose proof (bounds_antisym tc u3 l2).
      split_and!; [done|rank_lia tc [l3; l1; u1; l2]|lia]. }
    pose proof (adjacent_closer tc u1 l2 u3 l2) as Hcl. rewrite bounds_refl in Hcl by apply _.
    specialize (Hcl Bu1 Bl2 Bu3 Bl2 U1 L2 U3 L2 A1 K2' ltac:(lia) Hlt).
    destruct (bounds_adjacent tc u3 l2) as [[]|e]; cbn in *; by auto.
  - intros A2. pose proof (bounds_adjacent_spec tc u2 l1 Bu2 Bl1 U2 L1 A2) as [G1 _].
    assert (Hlt : range_cmp_bounds tc u2 l3 < 0).
    { destruct (Z.lt_ge_cases (range_cmp_bounds tc u2 l3) 0); [done|]. destruct N4. pose proof (bounds_antisym tc u2 l3).
      split_and!; [done|lia|rank_lia tc [u2; l1; u1; u3]]. }
    pose proof (adjacent_closer tc u2 l1 u2 l3) as Hcl. rewrite bounds_refl in Hcl by apply _.
    specialize (Hcl Bu2 Bl1 Bu2 Bl3 U2 L1 U2 L3 A2 ltac:(lia) K1 Hlt).
    destruct (bounds_adjacent tc u3 l2) as [[]|e] eqn:A3; cbn [mbind result_bind]; [done| |].
    + destruct (bounds_adjacent tc u2 l3) as [[]|e]; cbn in *; by auto.
    + by apply (bounds_adjacent_error tc u3 l2).
Qed.

Lemma key_nonempty p : pts tc r p -> pts tc key p /\ RangeIsEmpty key = false.
Proof. intros Hp. destruct Hcov as [Hc _]. split; [auto|by apply (pts_nonempty key p), Hc]. Qed.

(** The guard of the positional strategies, and a test that must be false. *)
Lemma guarded_negb (test : result bool) p p' :
  pts tc r p -> pts tc q p' -> (exists b, test = Ok b /\ b = false) ->
  true_or_failure tc (if RangeIsEmpty key || RangeIsEmpty q then Ok false else b ← test; Ok (negb b)).
Proof.
  intros Hp Hp' (b & -> & ->). destruct (key_nonempty p Hp) as [_ ->]. by rewrite (pts_nonempty q p' Hp').
Qed.

Lemma before_complete :
  range_before_internal tc r q = Ok true -> exists b, range_overright_internal tc key q = Ok b /\ b = false.
Proof.
  intros Hb. destruct (before_pts tc r q Hr Hq) as (b & E & Hs). rewrite Hb in E. injection E as <-.
  destruct Hs as [Hs _]. destruct (Hs eq_refl) as ((p & Hp) & _ & Hlt).
  destruct (overright_pts tc key q Hkey Hq) as (b & E & Ho). exists b. split; [done|].
  destruct b; [|done]. destruct Ho as [Ho _]. destruct (Ho eq_refl) as (_ & p' & Hp' & Hall).
  destruct (ext_lt_not_le p p'); [by apply Hlt|by apply Hall, key_nonempty].
Qed.

Lemma after_complete :
  range_after_internal tc r q = Ok true -> exists b, range_overleft_internal tc key q = Ok b /\ b = false.
Proof.
  rewrite (after_before tc) by done. intros Hb. destruct (before_pts tc q r Hq Hr) as (b & E & Hs).
  rewrite Hb in E. injection E as <-. destruct Hs as [Hs _]. destruct (Hs eq_refl) as (_ & (p & Hp) & Hlt).
  destruct (overleft_pts tc key q Hkey Hq) as (b & E & Ho). exists b. split; [done|].
  destruct b; [|done]. destruct Ho as [Ho _]. destruct (Ho eq_refl) as (_ & p' & Hp' & Hall).
  destruct (ext_lt_not_le p' p); [by apply Hlt|by apply Hall, key_nonempty].
Qed.

Lemma overleft_complete :
  range_overleft_internal tc r q = Ok true -> exists b, range_after_internal tc key q = Ok b /\ b = false.
Proof.
  intros Hb. destruct (overleft_pts tc r q Hr Hq) as (b & E & Hs). rewrite Hb in E. injection E as <-.
  destruct Hs as [Hs _]. destruct (Hs eq_refl) as ((p & Hp) & p' & Hp' & Hall).
  rewrite (after_before tc) by done. destruct (before_pts tc q key Hq Hkey) as (b & E & Ho).
  exists b. split; [done|]. destruct b; [|done]. destruct Ho as [Ho _]. destruct (Ho eq_refl) as (_ & _ & Hlt).
  destruct (ext_lt_not_le p' p); [by apply Hlt; [|apply key_nonempty]|auto].
Qed.

Lemma overright_complete :
  range_overright_internal tc r q = Ok true -> exists b, range_before_internal tc key q = Ok b /\ b = false.
Proof.
  intros Hb. destruct (overright_pts tc r q Hr Hq) as (b & E & Hs). rewrite Hb in E. injection E as <-.
  destruct Hs as [Hs _]. destruct (Hs eq_refl) as ((p & Hp) & p' & Hp' & Hall).
  destruct (before_pts tc key q Hkey Hq) as (b & E & Ho).
  exists b. split; [done|]. destruct b; [|done]. destruct Ho as [Ho _]. destruct (Ho eq_refl) as (_ & _ & Hlt).
  destruct (ext_lt_not_le p p'); [by apply Hlt; [apply key_nonempty|]|auto].
Qed.

(** Both ranges of a positional operator that holds have points. *)
Lemma positional_nonempty test :
  test = range_before_internal tc r q \/ test = range_after_internal tc r q \/
  test = range_overleft_internal tc r q \/ test = range_overright_internal tc r q ->
  test = Ok true -> exists p p', pts tc r p /\ pts tc q p'.
Proof.
  intros [-> | [-> | [-> | -> ]]] Ht.
  - destruct (before_pts tc r q Hr Hq) as (b & E & Hs). rewrite Ht in E. injection E as <-.
    destruct Hs as [Hs _]. destruct (Hs eq_refl) as ((p & ?) & (p' & ?) & _). by exists p, p'.
  - rewrite (after_before tc) in Ht by done.
    destruct (before_pts tc q r Hq Hr) as (b & E & Hs). rewrite Ht in E. injection E as <-.
    destruct Hs as [Hs _]. destruct (Hs eq_refl) as ((p & ?) & (p' & ?) & _). by exists p', p.
  - destruct (overleft_pts tc r q Hr Hq) as (b & E & Hs). rewrite Ht in E. injection E as <-.
    destruct Hs as [Hs _]. destruct (Hs eq_refl) as ((p & ?) & p' & ? & _). by exists p, p'.
  - destruct (overright_pts tc r q Hr Hq) as (b & E & Hs). rewrite Ht in E. injection E as <-.
    destruct Hs as [Hs _]. destruct (Hs eq_refl) as ((p & ?) & p' & ? & _). by exists p, p'.
Qed.

Lemma overlaps_complete : range_overlaps_internal tc r q = Ok true -> range_overlaps_internal tc key q = Ok true.
Proof.
  intros Hb. destruct (overlaps_pts tc r q Hr Hq) as (b & E & Hs). rewrite Hb in E. injection E as <-.
  destruct Hs as [Hs _]. destruct (Hs eq_refl) as (p & Hp & Hp').
  destruct (overlaps_pts tc key q Hkey Hq) as (b & -> & Ho). f_equal. apply Ho. exists p.
  split; [by apply key_nonempty|done].
Qed.

Lemma contains_complete : range_contains_internal tc r q = Ok true -> range_contains_internal tc key q = Ok true.
Proof.
  intros Hb. destruct (contains_pts tc r q Hr Hq) as (b & E & Hs). rewrite Hb in E. injection E as <-.
  destruct (contains_pts tc key q Hkey Hq) as (b & -> & Ho). f_equal. apply Ho. intros p Hp.
  apply key_nonempty. by apply Hs.
Qed.

Lemma contained_by_complete :
  range_contained_by_internal tc r q = Ok true -> RangeIsOrContainsEmpty key = false ->
  range_overlaps_internal tc key q = Ok true.
Proof.
  intros Hb He. unfold range_contained_by_internal in Hb.
  destruct (contains_pts tc q r Hq Hr) as (b & E & Hs). rewrite Hb in E. injection E as <-.
  destruct (RangeIsEmpty r) eqn:Er.
  { destruct Hcov as [_ Hc]. rewrite Hc in He; [done|]. by rewrite or_contains_flags, Er. }
  destruct (nonempty_pts r Hr Er) as [p Hp].
  destruct (overlaps_pts tc key q Hkey Hq) as (b & -> & Ho). f_equal. apply Ho. exists p.
  split; [by apply key_nonempty|by apply Hs].
Qed.

Lemma eq_complete :
  range_eq_internal tc r q = Ok true ->
  (if RangeIsEmpty q then Ok (RangeIsOrContainsEmpty key) else range_contains_internal tc key q) = Ok true.
Proof.
  intros Hb. destruct (eq_pts tc r q Hr Hq) as (b & E & Hs). rewrite Hb in E. injection E as <-.
  destruct Hs as [Hs _]. specialize (Hs eq_refl). destruct (RangeIsEmpty q) eqn:Eq.
  - destruct (RangeIsEmpty r) eqn:Er.
    + destruct Hcov as [_ Hc]. rewrite Hc; [done|]. by rewrite or_contains_flags, Er.
    + destruct (nonempty_pts r Hr Er) as [p Hp]. apply Hs, pts_nonempty in Hp. congruence.
  - destruct (contains_pts tc key q Hkey Hq) as (b & -> & Ho). f_equal. apply Ho. intros p Hp.
    apply key_nonempty. by apply Hs.
Qed.

End Complete.

Definition query_ok `{Toast} (tc : TypeCacheEntry) (query : IndexQuery) : Prop :=
  match query with QRange q => range_wf tc q | QElem _ => True end.

(** For every strategy: a key that covers a matching entry is accepted. *)
Lemma consistent_complete `{Toast} (tc : TypeCacheEntry) `{!RangeSubtype tc} `{!RangeCanonical tc} `{!TightBounds tc}
    strategy key r query :
  range_wf tc key -> range_wf tc r -> query_ok tc query -> covers tc key r ->
  range_gist_consistent_leaf tc strategy r query = Ok true ->
  true_or_failure tc (range_gist_consistent_int tc strategy key query).
Proof.
  intros Hk Hr Hq Hc. unfold range_gist_consistent_leaf, range_gist_consistent_int.
  destruct query as [q|v]; cbn [query_range query_elem mbind result_bind query_ok] in *.
  - repeat destruct (strategy =? _); intros Hl; try done.
    + destruct (positional_nonempty tc r q Hr Hq _ (or_introl eq_refl) Hl) as (p & p' & Hp & Hp').
      by apply (guarded_negb tc key r q Hc _ p p'), (before_complete tc key r q).
    + destruct (positional_nonempty tc r q Hr Hq _ (or_intror (or_intror (or_introl eq_refl))) Hl) as (p & p' & Hp & Hp').
      by apply (guarded_negb tc key r q Hc _ p p'), (overleft_complete tc key r q).
    + by rewrite (overlaps_complete tc key r q).
    + destruct (positional_nonempty tc r q Hr Hq _ (or_intror (or_intror (or_intror eq_refl))) Hl) as (p & p' & Hp & Hp').
      by apply (guarded_negb tc key r q Hc _ p p'), (overright_complete tc key r q).
    + destruct (positional_nonempty tc r q Hr Hq _ (or_intror (or_introl eq_refl)) Hl) as (p & p' & Hp & Hp').
      by apply (guarded_negb tc key r q Hc _ p p'), (after_complete tc key r q).
    + pose proof (adjacent_complete tc key r q Hk Hr Hq Hc Hl) as Ha.
      destruct (RangeIsEmpty key || RangeIsEmpty q) eqn:E; [|exact Ha].
      exfalso. exact (adjacent_nonempty tc key r q Hr Hq Hc Hl E).
    + by rewrite (contains_complete tc key r q).
    + destruct (RangeIsOrContainsEmpty key) eqn:Ee; [done|]. by rewrite (contained_by_complete tc key r q).
    + by rewrite (eq_complete tc key r q).
  - repeat destruct (strategy =? _); intros Hl; try done.
    injection Hl as Hl. cbn. apply (mem_pts tc). apply (key_nonempty tc key r Hc). by apply (mem_pts tc).
Qed.
