(* ===== verification/RangeGistPart.v ===== *)
(** * What a GiST page split guarantees

    Every entry goes to exactly one group and the union range of each group
    covers its entries, whatever method [range_gist_picksplit] chooses. *)

From S2P Require Import Prelude Floats Varlena RangeTypes RangeOrder RangeOps RangeStore Hashfn RangeCanon.
From S2P Require Import RangeParse RangeFmgr Sorting RangeGist RangeGistSplit RangeGistKeys.

(** The errors of a page split: those of building a union range, and those of
    the [subtype_diff] function. *)
Definition picksplit_failure `{Toast} (tc : TypeCacheEntry) (e : PgError) : Prop :=
  make_failure tc e \/ subdiff_failure tc e.

Section Part.
Context `{Toast} `{Sorter} (tc : TypeCacheEntry) `{!RangeSubtype tc} `{!RangeCanonical tc} `{!StableBounds tc}.
Context (entryvec : list RangeType).
Hypothesis Hents : Forall (gist_key tc) entryvec.

(** A group and its union range. *)
Definition group_ok (offs : list Z) (datum : option RangeType) : Prop :=
  match datum with
  | None => offs = []
  | Some d => gist_key tc d /\ Forall (fun off => exists r, entry_at entryvec off = Ok r /\ covers tc d r) offs
  end.

(** The offsets in [placed] have been placed. *)
Definition split_inv (v : GIST_SPLITVEC) (placed : list Z) : Prop :=
  Permutation (spl_left v ++ spl_right v) placed /\
  group_ok (spl_left v) (spl_ldatum v) /\ group_ok (spl_right v) (spl_rdatum v).

Definition splits_to (res : result GIST_SPLITVEC) (placed : list Z) : Prop :=
  match res with Ok v => split_inv v placed | Err e => picksplit_failure tc e end.

Lemma empty_split_inv : split_inv empty_split [].
Proof. by split_and!. Qed.

Lemma split_inv_perm v p1 p2 : Permutation p1 p2 -> split_inv v p1 -> split_inv v p2.
Proof. intros Hp (Hq & ?). split; [|done]. by rewrite Hq. Qed.

Lemma entry_key off r : entry_at entryvec off = Ok r -> gist_key tc r.
Proof.
  unfold entry_at. destruct (entryvec !! Z.to_nat (off - 1)) eqn:E; [|done]. intros [= <-].
  by apply (Forall_lookup_1 _ _ _ _ Hents E).
Qed.

(** Adding an entry to a group. *)
Lemma group_add offs datum off r :
  group_ok offs datum -> entry_at entryvec off = Ok r ->
  match (match datum with Some d => range_super_union tc d r | None => Ok r end) with
  | Ok d => group_ok (offs ++ [off]) (Some d)
  | Err e => make_failure tc e
  end.
Proof.
  intros Hg He. pose proof (entry_key off r He) as Hk. destruct datum as [d|].
  - destruct Hg as [Hd Hall]. pose proof (super_union_key tc d r Hd Hk) as Hu.
    destruct (range_super_union tc d r) as [d'|e]; [|done]. destruct Hu as (Hk' & Hc1 & Hc2).
    split; [done|]. apply Forall_app. split; [|constructor; [by exists r|constructor]].
    eapply Forall_impl; [exact Hall|]. intros o (r' & Hr' & Hc). exists r'. split; [done|].
    by apply covers_trans with d.
  - cbn in Hg. subst offs. split; [done|]. constructor; [|constructor]. exists r. split; [done|apply covers_refl].
Qed.

Lemma place_left_ok v placed off r :
  split_inv v placed -> entry_at entryvec off = Ok r -> splits_to (PLACE_LEFT tc v r off) (placed ++ [off]).
Proof.
  intros (Hp & Hl & Hr) He. unfold PLACE_LEFT. pose proof (group_add _ _ _ _ Hl He) as Ha.
  destruct (match spl_ldatum v with Some d => _ | None => _ end); [|by left].
  cbn. split_and!; [cbn|done|done]. by rewrite <- Hp, <- !app_assoc, (Permutation_app_comm [off]).
Qed.

Lemma place_right_ok v placed off r :
  split_inv v placed -> entry_at entryvec off = Ok r -> splits_to (PLACE_RIGHT tc v r off) (placed ++ [off]).
Proof.
  intros (Hp & Hl & Hr) He. unfold PLACE_RIGHT. pose proof (group_add _ _ _ _ Hr He) as Ha.
  destruct (match spl_rdatum v with Some d => _ | None => _ end); [|by left].
  cbn. split_and!; [cbn|done|done]. by rewrite <- Hp, app_assoc.
Qed.

Lemma place_either_ok (b : bool) v placed off r :
  split_inv v placed -> entry_at entryvec off = Ok r ->
  splits_to (if b then PLACE_LEFT tc v r off else PLACE_RIGHT tc v r off) (placed ++ [off]).
Proof. destruct b; [apply place_left_ok|apply place_right_ok]. Qed.

(** [ents] is the entry vector from offset [i] on. *)
Definition from_offset (i : Z) (ents : list RangeType) : Prop :=
  1 <= i /\ ents = drop (Z.to_nat (i - 1)) entryvec.

Lemma from_offset_cons i r ents :
  from_offset i (r :: ents) -> entry_at entryvec i = Ok r /\ from_offset (i + 1) ents.
Proof.
  intros [Hi Hd]. split.
  - unfold entry_at. by rewrite <- (Nat.add_0_r (Z.to_nat (i - 1))), <- lookup_drop, <- Hd.
  - split; [lia|]. replace (Z.to_nat (i + 1 - 1)) with (Z.to_nat (i - 1) + 1)%nat by lia.
    by rewrite <- drop_drop, <- Hd.
Qed.

Lemma from_offset_all : from_offset 1 entryvec.
Proof. split; [lia|done]. Qed.

(** The offsets [i], [i + 1], ... of the entries [ents]. *)
Fixpoint offsets (i : Z) (ents : list RangeType) : list Z :=
  match ents with [] => [] | _ :: ents' => i :: offsets (i + 1) ents' end.

Lemma fallback_loop_ok split_idx ents i v placed :
  from_offset i ents -> split_inv v placed ->
  splits_to (fallback_loop tc split_idx v i ents) (placed ++ offsets i ents).
Proof.
  revert i v placed. induction ents as [|r ents IH]; intros i v placed Ho Hv; cbn [fallback_loop offsets];
    [by rewrite app_nil_r|].
  destruct (from_offset_cons _ _ _ Ho) as [He Ho']. pose proof (place_either_ok (i <? split_idx) v placed i r Hv He) as Hp.
  destruct (if i <? split_idx then _ else _) as [v'|e]; [|done]. cbn [mbind result_bind].
  specialize (IH (i + 1) v' (placed ++ [i]) Ho' Hp). by rewrite <- app_assoc in IH.
Qed.

Lemma class_loop_ok groups ents i v placed :
  from_offset i ents -> split_inv v placed ->
  splits_to (class_loop tc groups v i ents) (placed ++ offsets i ents).
Proof.
  revert i v placed. induction ents as [|r ents IH]; intros i v placed Ho Hv; cbn [class_loop offsets];
    [by rewrite app_nil_r|].
  destruct (from_offset_cons _ _ _ Ho) as [He Ho'].
  assert (Hp : splits_to (if decide (groups (get_gist_range_class r) = SPLIT_LEFT) then PLACE_LEFT tc v r i
                          else PLACE_RIGHT tc v r i) (placed ++ [i]))
    by (destruct (decide _); by auto using place_left_ok, place_right_ok).
  cbv zeta. destruct (if decide (groups (get_gist_range_class r) = SPLIT_LEFT) then _ else _) as [v'|e]; [|done].
  cbn [mbind result_bind]. specialize (IH (i + 1) v' (placed ++ [i]) Ho' Hp). by rewrite <- app_assoc in IH.
Qed.

Lemma place_sorted_ok split_idx idxs i v placed :
  split_inv v placed -> Forall (fun idx => exists r, entry_at entryvec idx = Ok r) idxs ->
  splits_to (place_sorted tc entryvec split_idx v i idxs) (placed ++ idxs).
Proof.
  intros Hv Hi. revert i v placed Hv. induction Hi as [|idx idxs [r Hr] Hi IH]; intros i v placed Hv; cbn [place_sorted];
    [by rewrite app_nil_r|].
  rewrite Hr. cbn [mbind result_bind]. pose proof (place_either_ok (i <? split_idx) v placed idx r Hv Hr) as Hp.
  destruct (if i <? split_idx then _ else _) as [v'|e]; [|done]. cbn [mbind result_bind].
  specialize (IH (i + 1) v' (placed ++ [idx]) Hp). by rewrite <- app_assoc in IH.
Qed.

(** Every entry has one place, or is a common entry. *)
(** The distance of a common entry from the two groups. *)
Lemma delta_error v1 v2 v3 v4 e :
  (if has_subtype_diff tc then
     d1 ← call_subtype_diff tc v1 v2; d2 ← call_subtype_diff tc v3 v4; Ok (f8_sub d1 d2)
   else Ok f8_zero) = Err e -> subdiff_failure tc e.
Proof.
  destruct (has_subtype_diff tc) eqn:Eh; [|done].
  destruct (call_subtype_diff tc v1 v2) as [d1|e1] eqn:E1; cbn [mbind result_bind];
    [|intros [= <-]; by apply call_subtype_diff_error in E1].
  destruct (call_subtype_diff tc v3 v4) as [d2|e2] eqn:E2; cbn [mbind result_bind]; [done|].
  intros [= <-]. by apply call_subtype_diff_error in E2.
Qed.

Lemma distribute_ok lu rl ents i v common placed :
  from_offset i ents -> split_inv v placed ->
  match distribute tc lu rl v common i ents with
  | Ok (v', common') => exists placed', split_inv v' placed' /\
      Permutation (placed' ++ map ce_index common') (placed ++ map ce_index common ++ offsets i ents)
  | Err e => picksplit_failure tc e
  end.
Proof.
  revert i v common placed. induction ents as [|r ents IH]; intros i v common placed Ho Hv; cbn [distribute offsets].
  { exists placed. by rewrite app_nil_r. }
  destruct (from_offset_cons _ _ _ Ho) as [He Ho']. destruct (range_deserialize tc r) as [[lo up] em].
  destruct (_ <=? 0); [destruct (_ >=? 0)|].
  - destruct (if has_subtype_diff tc then _ else _) as [delta|e] eqn:Ed; cbn [mbind result_bind];
      [|by right; apply (delta_error _ _ _ _ _ Ed)].
    specialize (IH (i + 1) v (common ++ [mkCommon i delta]) placed Ho' Hv).
    destruct (distribute tc lu rl v _ (i + 1) ents) as [[v' common']|e]; [|done].
    destruct IH as (placed' & ? & Hp). exists placed'. split; [done|]. rewrite Hp, map_app. cbn. by rewrite <- app_assoc.
  - pose proof (place_left_ok v placed i r Hv He) as Hp. destruct (PLACE_LEFT tc v r i) as [v1|e]; [|done].
    cbn [mbind result_bind]. specialize (IH (i + 1) v1 common _ Ho' Hp).
    destruct (distribute tc lu rl v1 _ (i + 1) ents) as [[v' common']|e]; [|done].
    destruct IH as (placed' & ? & Hq). exists placed'. split; [done|]. rewrite Hq, <- app_assoc. f_equiv. cbn.
    apply Permutation_middle.
  - pose proof (place_right_ok v placed i r Hv He) as Hp. destruct (PLACE_RIGHT tc v r i) as [v1|e]; [|done].
    cbn [mbind result_bind]. specialize (IH (i + 1) v1 common _ Ho' Hp).
    destruct (distribute tc lu rl v1 _ (i + 1) ents) as [[v' common']|e]; [|done].
    destruct IH as (placed' & ? & Hq). exists placed'. split; [done|]. rewrite Hq, <- app_assoc. f_equiv. cbn.
    apply Permutation_middle.
Qed.

(** ** The loops of the double sorting split end *)

Lemma skip_lower_length rl lu i rest :
  (length (skip_lower tc rl lu i rest).2 <= length rest)%nat /\
  (forall e rest', rest = e :: rest' -> range_cmp_bounds tc rl (ne_lower e) = 0 ->
   (length (skip_lower tc rl lu i rest).2 < length rest)%nat).
Proof.
  assert (Hle : forall rest lu i, (length (skip_lower tc rl lu i rest).2 <= length rest)%nat).
  { clear. induction rest as [|e rest IH]; intros lu i; cbn; [done|]. destruct (_ =? 0); [|done].
    specialize (IH (if range_cmp_bounds tc (ne_upper e) lu >? 0 then ne_upper e else lu) (i + 1)). lia. }
  split; [apply Hle|]. intros e rest' -> E. cbn. rewrite E. cbn.
  specialize (Hle rest' (if range_cmp_bounds tc (ne_upper e) lu >? 0 then ne_upper e else lu) (i + 1)). lia.
Qed.

Lemma skip_upper_down_length lu rl i rest :
  (length (skip_upper_down tc lu rl i rest).2 <= length rest)%nat /\
  (forall e rest', rest = e :: rest' -> range_cmp_bounds tc lu (ne_upper e) = 0 ->
   (length (skip_upper_down tc lu rl i rest).2 < length rest)%nat).
Proof.
  assert (Hle : forall rest rl i, (length (skip_upper_down tc lu rl i rest).2 <= length rest)%nat).
  { clear. induction rest as [|e rest IH]; intros rl i; cbn; [done|]. destruct (_ =? 0); [|done].
    specialize (IH (if range_cmp_bounds tc (ne_lower e) rl <? 0 then ne_lower e else rl) (i - 1)). lia. }
  split; [apply Hle|]. intros e rest' -> E. cbn. rewrite E. cbn.
  specialize (Hle rest' (if range_cmp_bounds tc (ne_lower e) rl <? 0 then ne_lower e else rl) (i - 1)). lia.
Qed.

Lemma consider_split_error context rl mn lu mx e :
  range_gist_consider_split tc context rl mn lu mx = Err e -> subdiff_failure tc e.
Proof.
  unfold range_gist_consider_split. cbv zeta. destruct (fgt _ _); [|done].
  destruct (has_subtype_diff tc) eqn:Eh; cbn [mbind result_bind]; [|by case_match].
  destruct (call_subtype_diff tc (val lu) (val rl)) as [d|e'] eqn:Ed; cbn [mbind result_bind]; [by case_match|].
  intros [= <-]. by apply call_subtype_diff_error in Ed.
Qed.

Lemma loop_lower_total fuel context rl lu i1 i2 rest1 rest2 :
  (length rest1 < fuel)%nat ->
  (forall e rest', rest1 = e :: rest' -> range_cmp_bounds tc rl (ne_lower e) = 0) ->
  match loop_lower tc fuel context rl lu i1 i2 rest1 rest2 with Ok _ => True | Err e => subdiff_failure tc e end.
Proof.
  revert context rl lu i1 i2 rest1 rest2. induction fuel as [|fuel IH]; intros context rl lu i1 i2 rest1 rest2 Hf Hh; [lia|].
  cbn [loop_lower]. destruct (skip_lower_length rl lu i1 rest1) as [Hle Hlt].
  destruct (skip_lower tc rl lu i1 rest1) as [[lu' i1'] rest1'] eqn:Es. cbn in Hle, Hlt.
  destruct rest1' as [|e rest1']; [done|]. destruct (skip_upper tc lu' i2 rest2) as [i2' rest2'].
  destruct (range_gist_consider_split _ _ _ _ _ _) as [context'|e'] eqn:Ec; cbn [mbind result_bind];
    [|by apply consider_split_error in Ec].
  apply IH.
  - destruct rest1 as [|e1 rest1]; [cbn in Hle; lia|]. specialize (Hlt e1 rest1 eq_refl (Hh _ _ eq_refl)). lia.
  - intros e' rest' [= <- <-]. by apply (bounds_refl tc).
Qed.

Lemma loop_upper_total fuel context rl lu i1 i2 rest1 rest2 :
  (length rest2 < fuel)%nat ->
  (forall e rest', rest2 = e :: rest' -> range_cmp_bounds tc lu (ne_upper e) = 0) ->
  match loop_upper tc fuel context rl lu i1 i2 rest1 rest2 with Ok _ => True | Err e => subdiff_failure tc e end.
Proof.
  revert context rl lu i1 i2 rest1 rest2. induction fuel as [|fuel IH]; intros context rl lu i1 i2 rest1 rest2 Hf Hh; [lia|].
  cbn [loop_upper]. destruct (skip_upper_down_length lu rl i2 rest2) as [Hle Hlt].
  destruct (skip_upper_down tc lu rl i2 rest2) as [[rl' i2'] rest2'] eqn:Es. cbn in Hle, Hlt.
  destruct rest2' as [|e rest2']; [done|]. destruct (skip_lower_down tc rl' i1 rest1) as [i1' rest1'].
  destruct (range_gist_consider_split _ _ _ _ _ _) as [context'|e'] eqn:Ec; cbn [mbind result_bind];
    [|by apply consider_split_error in Ec].
  apply IH.
  - destruct rest2 as [|e1 rest2]; [cbn in Hle; lia|]. specialize (Hlt e1 rest2 eq_refl (Hh _ _ eq_refl)). lia.
  - intros e' rest' [= <- <-]. by apply (bounds_refl tc).
Qed.

Lemma select_split_total :
  entryvec <> [] -> match select_split tc entryvec with Ok _ => True | Err e => subdiff_failure tc e end.
Proof.
  intros Hne. unfold select_split.
  pose proof (qsort_arg_perm _ (interval_cmp_lower tc) (map (bounds_of tc) entryvec)) as Pl.
  pose proof (qsort_arg_perm _ (interval_cmp_upper tc) (map (bounds_of tc) entryvec)) as Pu.
  apply Permutation_length in Pl, Pu. rewrite length_map in Pl, Pu.
  cbv zeta.
  set (by_lower := qsort_arg (interval_cmp_lower tc) (map (bounds_of tc) entryvec)) in *.
  set (by_upper := qsort_arg (interval_cmp_upper tc) (map (bounds_of tc) entryvec)) in *. clearbody by_lower by_upper.
  pose proof (length_rev by_lower) as Rl. pose proof (length_rev by_upper) as Ru.
  assert (length entryvec <> 0%nat) by (destruct entryvec; done).
  destruct by_lower as [|el by_lower], by_upper as [|eu by_upper]; cbn [length] in *; try lia.
  destruct (rev (el :: by_lower)) as [|el' rl] eqn:E3, (rev (eu :: by_upper)) as [|eu' ru] eqn:E4; cbn [length] in *; try lia.
  pose proof (loop_lower_total (S (length entryvec)) (init_context (Z.of_nat (length entryvec)))
    (ne_lower el) (ne_lower eu) 0 0 (el :: by_lower) (eu :: by_upper)) as Hl.
  destruct (loop_lower tc _ _ _ _ _ _ _ _) as [context|e]; cbn [mbind result_bind].
  2: { apply Hl; [cbn [length]; lia|]. intros e' rest' [= <- <-]. by apply (bounds_refl tc). }
  apply loop_upper_total; [cbn [length]; lia|].
  intros e rest' [= <- <-]. by apply (bounds_refl tc).
Qed.

(** ** Every method splits the page *)

Lemma offsets_entries i ents :
  from_offset i ents -> Forall (fun off => exists r, entry_at entryvec off = Ok r) (offsets i ents).
Proof.
  revert i. induction ents as [|r ents IH]; intros i Ho; cbn; [constructor|].
  destruct (from_offset_cons _ _ _ Ho) as [He Ho']. constructor; [by exists r|auto].
Qed.

Lemma fallback_split_ok : splits_to (range_gist_fallback_split tc entryvec) (offsets 1 entryvec).
Proof. apply (fallback_loop_ok _ entryvec 1 empty_split []); [apply from_offset_all|apply empty_split_inv]. Qed.

Lemma class_split_ok groups : splits_to (range_gist_class_split tc entryvec groups) (offsets 1 entryvec).
Proof. apply (class_loop_ok _ entryvec 1 empty_split []); [apply from_offset_all|apply empty_split_inv]. Qed.

Lemma sort_items_index use_upper i ents : map sort_index (sort_items tc use_upper i ents) = offsets i ents.
Proof.
  revert i. induction ents as [|r ents IH]; intros i; cbn; [done|]. rewrite IH. f_equal.
  unfold sort_item. by destruct (range_deserialize tc r) as [[lo up] e].
Qed.

Lemma single_split_ok use_upper :
  splits_to (range_gist_single_sorting_split tc entryvec use_upper) (offsets 1 entryvec).
Proof.
  unfold range_gist_single_sorting_split. cbv zeta.
  pose proof (Permutation_map sort_index (qsort_arg_perm _ (single_bound_cmp tc) (sort_items tc use_upper 1 entryvec))) as Hp.
  rewrite sort_items_index in Hp.
  pose proof (place_sorted_ok (Z.of_nat (length entryvec) / 2)
    (map sort_index (qsort_arg (single_bound_cmp tc) (sort_items tc use_upper 1 entryvec))) 0 empty_split [] empty_split_inv) as Hs.
  specialize (Hs ltac:(rewrite Hp; exact (offsets_entries _ _ from_offset_all))). cbn [app] in Hs.
  destruct (place_sorted tc entryvec _ _ _ _) as [v|e]; [|done]. by apply (split_inv_perm v _ _ Hp).
Qed.

Lemma double_split_ok :
  entryvec <> [] -> splits_to (range_gist_double_sorting_split tc entryvec) (offsets 1 entryvec).
Proof.
  intros Hne. unfold range_gist_double_sorting_split. pose proof (select_split_total Hne) as Hsel.
  destruct (select_split tc entryvec) as [context|e]; cbn [mbind result_bind]; [|by right].
  destruct (ctx_left_upper context) as [lu|], (ctx_right_lower context) as [rl|], (first context);
    try apply fallback_split_ok.
  pose proof (distribute_ok lu rl entryvec 1 empty_split [] [] from_offset_all empty_split_inv) as Hd.
  destruct (distribute tc lu rl empty_split [] 1 entryvec) as [[v common]|e]; [|done]. cbn [mbind result_bind].
  destruct Hd as (placed & Hv & Hp). cbn [map app] in Hp. destruct common as [|c common].
  { cbn [map] in Hp. rewrite app_nil_r in Hp. by apply (split_inv_perm v _ _ Hp). }
  pose proof (Permutation_map ce_index (qsort_arg_perm _ common_entry_cmp (c :: common))) as Hq.
  set (idxs := map ce_index (qsort_arg common_entry_cmp (c :: common))) in *.
  assert (Hi : Forall (fun idx => exists r, entry_at entryvec idx = Ok r) idxs).
  { rewrite Hq. pose proof (offsets_entries _ _ from_offset_all) as Ho. rewrite <- Hp in Ho.
    by apply Forall_app in Ho as [_ Ho]. }
  pose proof (place_sorted_ok (common_left context) idxs 0 v placed Hv Hi) as Hs. cbv zeta.
  destruct (place_sorted tc entryvec _ v 0 idxs) as [v'|e]; [|done].
  apply (split_inv_perm v' _ _) with (2 := Hs). by rewrite Hq.
Qed.

Lemma picksplit_ok : entryvec <> [] -> splits_to (picksplit tc entryvec) (offsets 1 entryvec).
Proof.
  intros Hne. unfold picksplit. destruct (scan_classes (count_class entryvec)) as [[big cnt] classes].
  destruct (classes =? 1); [|apply class_split_ok]. cbv zeta.
  destruct (_ =? CLS_NORMAL); [by apply double_split_ok|].
  destruct (_ =? CLS_LOWER_INF); [apply single_split_ok|].
  destruct (_ =? CLS_UPPER_INF); [apply single_split_ok|apply fallback_split_ok].
Qed.

(** ** The single sorting split *)

Lemma place_groups tce v r off (b : bool) v' :
  (if b then PLACE_LEFT tce v r off else PLACE_RIGHT tce v r off) = Ok v' ->
  spl_left v' = spl_left v ++ (if b then [off] else []) /\ spl_right v' = spl_right v ++ (if b then [] else [off]).
Proof.
  unfold PLACE_LEFT, PLACE_RIGHT.
  destruct b; intros (d & _ & [= <-])%bind_Ok; cbn; by rewrite app_nil_r.
Qed.

Lemma place_sorted_groups split_idx idxs i v v' :
  place_sorted tc entryvec split_idx v i idxs = Ok v' ->
  spl_left v' = spl_left v ++ take (Z.to_nat (split_idx - i)) idxs /\
  spl_right v' = spl_right v ++ drop (Z.to_nat (split_idx - i)) idxs.
Proof.
  revert i v. induction idxs as [|idx idxs IH]; intros i v; cbn [place_sorted].
  { intros [= <-]. by rewrite take_nil, drop_nil, !app_nil_r. }
  intros (r & _ & (v1 & Hp & Hl)%bind_Ok)%bind_Ok. destruct (IH _ _ Hl) as [-> ->].
  destruct (place_groups _ _ _ _ _ _ Hp) as [-> ->]. rewrite <- !app_assoc.
  destruct (Z.ltb_spec i split_idx).
  - replace (Z.to_nat (split_idx - i)) with (S (Z.to_nat (split_idx - (i + 1)))) by lia. done.
  - replace (Z.to_nat (split_idx - i)) with 0%nat by lia.
    replace (Z.to_nat (split_idx - (i + 1))) with 0%nat by lia. by rewrite !take_0, !drop_0.
Qed.

#[local] Instance single_bound_order : Preorder_cmp (single_bound_cmp tc).
Proof.
  split; unfold single_bound_cmp; intros; [by apply (bounds_antisym tc)|].
  by apply (bounds_trans tc) with (sort_bound b).
Qed.

(** A sort item holds the bound of its entry. *)
Lemma sort_items_bound use_upper i ents item r :
  from_offset i ents -> In item (sort_items tc use_upper i ents) -> entry_at entryvec (sort_index item) = Ok r ->
  sort_bound item = sort_bound (sort_item tc use_upper 0 r).
Proof.
  revert i. induction ents as [|r' ents IH]; intros i Ho; cbn [sort_items]; [done|].
  destruct (from_offset_cons _ _ _ Ho) as [He Ho']. intros [<-|Hin]; [|by apply (IH (i + 1))].
  unfold sort_item. destruct (range_deserialize tc r') as [[lo up] e] eqn:Hd. cbn. rewrite He. intros [= <-].
  by rewrite Hd.
Qed.

Lemma sorted_take_drop {A} (R : A -> A -> Prop) k (l : list A) a b :
  StronglySorted R l -> In a (take k l) -> In b (drop k l) -> R a b.
Proof.
  intros Hs. revert k. induction Hs as [|x l Hs IH Hx]; intros [|k]; cbn; try done.
  intros [<-|Ha] Hb; [|by apply (IH k)].
  rewrite List.Forall_forall in Hx. apply Hx. rewrite <- (take_drop k l). apply in_or_app. by right.
Qed.

(** The bound that the entry is sorted by. *)
Definition entry_bound (use_upper : bool) (r : RangeType) : RangeBound := sort_bound (sort_item tc use_upper 0 r).

Lemma single_split_separates use_upper v :
  range_gist_single_sorting_split tc entryvec use_upper = Ok v ->
  length (spl_left v) = (length entryvec / 2)%nat /\
  length (spl_right v) = (length entryvec - length entryvec / 2)%nat /\
  forall i j ri rj, In i (spl_left v) -> In j (spl_right v) ->
    entry_at entryvec i = Ok ri -> entry_at entryvec j = Ok rj ->
    range_cmp_bounds tc (entry_bound use_upper ri) (entry_bound use_upper rj) <= 0.
Proof.
  unfold range_gist_single_sorting_split. cbv zeta. intros Hp.
  apply place_sorted_groups in Hp as [-> ->]. cbn [spl_left spl_right empty_split app].
  set (items := qsort_arg (single_bound_cmp tc) (sort_items tc use_upper 1 entryvec)).
  pose proof (qsort_arg_perm _ (single_bound_cmp tc) (sort_items tc use_upper 1 entryvec)) as Hperm. fold items in Hperm.
  pose proof (qsort_arg_sorted _ (single_bound_cmp tc) (sort_items tc use_upper 1 entryvec) _) as Hsort. fold items in Hsort.
  assert (Hlen : length items = length entryvec).
  { rewrite Hperm, <- (length_map sort_index), sort_items_index. clear. generalize 1.
    induction entryvec as [|r l IH]; intros i; cbn; [done|]. by rewrite IH. }
  replace (Z.to_nat (Z.of_nat (length entryvec) / 2 - 0)) with (length entryvec / 2)%nat
    by (rewrite Z.sub_0_r, (Z2Nat.inj_div _ 2), Nat2Z.id by lia; done).
  rewrite length_take, length_drop, length_map, Hlen. split_and!; [|done|].
  { pose proof (Nat.Div0.div_le_upper_bound (length entryvec) 2 (length entryvec)). lia. }
  intros i j ri rj Hi Hj Ei Ej. rewrite <- !fmap_take, <- !fmap_drop in *.
  apply in_map_iff in Hi as (a & <- & Ha), Hj as (b & <- & Hb).
  pose proof (sorted_take_drop _ _ _ a b Hsort Ha Hb) as Hab.
  assert (Hin : forall x, In x (take (length entryvec / 2) items) \/ In x (drop (length entryvec / 2) items) ->
    In x (sort_items tc use_upper 1 entryvec)).
  { intros x Hx. apply (Permutation_in x Hperm). rewrite <- (take_drop (length entryvec / 2) items).
    by apply in_or_app. }
  unfold cmp_le, single_bound_cmp in Hab. unfold entry_bound.
  rewrite <- (sort_items_bound use_upper 1 entryvec a ri from_offset_all), <- (sort_items_bound use_upper 1 entryvec b rj from_offset_all);
    auto.
Qed.

End Part.
