(* ===== verification/RangeSpgist.v ===== *)
(** * SP-GiST support for ranges: rangetypes_spgist.c

    A quadtree over ranges seen as points: the lower bound is the horizontal
    and the upper bound the vertical coordinate.  An inner tuple has a centroid
    and a node per quadrant (and, at the root, one for empty ranges), or no
    centroid and a node each for empty and for non-empty ranges.

    The argument structs of access/spgist.h are records of the fields that the
    functions read and write; [hasPrefix] and [prefixDatum] are an [option].  A
    datum of the structs is a detoasted range value. *)

From S2P Require Import Prelude Floats Varlena RangeTypes RangeOrder RangeOps RangeStore Hashfn RangeParse RangeFmgr.
From S2P Require Import Sorting RangeGist.

(** ** Argument structs *)

Record spgConfigOut : Type := mkConfigOut {
  cfg_prefixType : Oid;
  cfg_labelType : Oid;
  cfg_canReturnData : bool;
  cfg_longValuesOK : bool
}.

Record spgChooseIn : Type := mkChooseIn {
  ci_datum : RangeType;
  ci_allTheSame : bool;
  ci_prefix : option RangeType
}.

(** The result is always [spgMatchNode]; [None] when the node is left to the
    access method. *)
Record spgChooseOut : Type := mkChooseOut {
  co_nodeN : option Z;
  co_levelAdd : Z;
  co_restDatum : RangeType
}.

Record spgPickSplitIn : Type := mkPickSplitIn {
  pi_datums : list RangeType;
  pi_level : Z
}.

Record spgPickSplitOut : Type := mkPickSplitOut {
  po_prefix : option RangeType;
  po_nNodes : Z;
  po_mapTuplesToNodes : list Z;
  po_leafTupleDatums : list RangeType
}.

Record ScanKey : Type := mkScanKey {
  sk_strategy : Z;
  sk_argument : IndexQuery
}.

Record spgInnerConsistentIn : Type := mkInnerIn {
  ii_scankeys : list ScanKey;
  ii_traversalValue : option RangeType;
  ii_allTheSame : bool;
  ii_prefix : option RangeType;
  ii_nNodes : Z
}.

(** [traversalValues] is [None] when the pointer is left NULL. *)
Record spgInnerConsistentOut : Type := mkInnerOut {
  io_nodeNumbers : list Z;
  io_traversalValues : option (list RangeType)
}.

Record spgLeafConsistentOut : Type := mkLeafOut {
  lo_leafValue : RangeType;
  lo_recheck : bool
}.

(** ** config *)

Definition ANYRANGEOID : Oid := 3831.
Definition VOIDOID : Oid := 2278.

Definition spg_range_quad_config : spgConfigOut := mkConfigOut ANYRANGEOID VOIDOID true false.

(** ** choose *)

Definition getQuadrant (tc : TypeCacheEntry) (centroid tst : RangeType) : Z :=
  let '(centroidLower, centroidUpper, centroidEmpty) := range_deserialize tc centroid in
  let '(lower, upper, empty) := range_deserialize tc tst in
  if (empty : bool) then 5
  else if range_cmp_bounds tc lower centroidLower >=? 0 then
    if range_cmp_bounds tc upper centroidUpper >=? 0 then 1 else 2
  else
    if range_cmp_bounds tc upper centroidUpper >=? 0 then 4 else 3.

(** The part of choose that follows the lookup of the type cache entry. *)
Definition choose_node (tc : TypeCacheEntry) (inRange : RangeType) (prefix : option RangeType) : spgChooseOut :=
  match prefix with
  | None => mkChooseOut (Some (if RangeIsEmpty inRange then 0 else 1)) 1 inRange
  | Some centroid =>
      let quadrant := getQuadrant tc centroid inRange in
      mkChooseOut (Some (quadrant - 1)) 1 inRange
  end.

Definition choose_all_the_same (inRange : RangeType) : spgChooseOut := mkChooseOut None 0 inRange.

(** ** picksplit *)

Definition bound_cmp (tc : TypeCacheEntry) (ba bb : RangeBound) : Z := range_cmp_bounds tc ba bb.

(** Bounds of the non-empty ranges. *)
Fixpoint nonempty_bounds (tc : TypeCacheEntry) (datums : list RangeType) : list RangeBound * list RangeBound :=
  match datums with
  | [] => ([], [])
  | r :: datums' =>
      let '(lower, upper, empty) := range_deserialize tc r in
      let '(lowerBounds, upperBounds) := nonempty_bounds tc datums' in
      if (empty : bool) then (lowerBounds, upperBounds) else (lower :: lowerBounds, upper :: upperBounds)
  end.

Section Spgist.
Context `{Toast} `{Sorter}.

Definition quad_picksplit (tc : TypeCacheEntry) (datums : list RangeType) (level : Z) : result spgPickSplitOut :=
  let '(lowerBounds, upperBounds) := nonempty_bounds tc datums in
  let nonEmptyCount := Z.of_nat (length lowerBounds) in
  if nonEmptyCount =? 0 then
    Ok (mkPickSplitOut None 2 (map (fun _ => 0) datums) datums)
  else
    let lowerBounds := qsort_arg (bound_cmp tc) lowerBounds in
    let upperBounds := qsort_arg (bound_cmp tc) upperBounds in
    lower ← array_get lowerBounds (nonEmptyCount / 2);
    upper ← array_get upperBounds (nonEmptyCount / 2);
    centroid ← range_serialize tc lower upper false;
    Ok (mkPickSplitOut (Some centroid) (if level =? 0 then 5 else 4)
          (map (fun range => getQuadrant tc centroid range - 1) datums) datums).

(** ** Adjacency in inner tuples *)

Definition adjacent_cmp_bounds (tc : TypeCacheEntry) (arg centroid : RangeBound) : result Z :=
  let cmp := range_cmp_bounds tc arg centroid in
  if lower centroid then
    if cmp <? 0 then
      adj ← bounds_adjacent tc arg centroid;
      if negb adj then Ok (-1) else Ok 1
    else Ok 1
  else if cmp <=? 0 then Ok (-1)
  else Ok 1.

Definition adjacent_inner_consistent (tc : TypeCacheEntry) (arg centroid : RangeBound) (prev : option RangeBound)
  : result Z :=
  match prev with
  | Some prev =>
      prevcmp ← adjacent_cmp_bounds tc arg prev;
      let cmp := range_cmp_bounds tc centroid prev in
      if ((prevcmp <? 0) && (cmp >=? 0)) || ((prevcmp >? 0) && (cmp <? 0)) then Ok 0
      else adjacent_cmp_bounds tc arg centroid
  | None => adjacent_cmp_bounds tc arg centroid
  end.

(** ** inner_consistent *)

(** [(1 << i) | (1 << j) | ...] *)
Definition bits (l : list Z) : Z := fold_right (fun i m => Z.lor (Z.shiftl 1 i) m) 0 l.

(** The switch for an inner tuple without centroid. *)
Definition empty_switch (strategy : Z) (empty : bool) (which : Z) : result Z :=
  if (strategy =? RANGESTRAT_BEFORE) || (strategy =? RANGESTRAT_OVERLEFT) || (strategy =? RANGESTRAT_OVERLAPS)
     || (strategy =? RANGESTRAT_OVERRIGHT) || (strategy =? RANGESTRAT_AFTER) || (strategy =? RANGESTRAT_ADJACENT)
  then Ok (if empty then 0 else Z.land which (bits [2]))
  else if strategy =? RANGESTRAT_CONTAINS then Ok (if negb empty then Z.land which (bits [2]) else which)
  else if strategy =? RANGESTRAT_CONTAINED_BY then Ok (if empty then Z.land which (bits [1]) else which)
  else if strategy =? RANGESTRAT_CONTAINS_ELEM then Ok (Z.land which (bits [2]))
  else if strategy =? RANGESTRAT_EQ then Ok (if empty then Z.land which (bits [1]) else Z.land which (bits [2]))
  else elog "unrecognized range strategy".

Fixpoint empty_keys (scankeys : list ScanKey) (which : Z) : result Z :=
  match scankeys with
  | [] => Ok which
  | key :: keys =>
      empty ← (if negb (sk_strategy key =? RANGESTRAT_CONTAINS_ELEM)
               then q ← query_range (sk_argument key); Ok (RangeIsEmpty q)
               else Ok false);
      which ← empty_switch (sk_strategy key) empty which;
      if which =? 0 then Ok which else empty_keys keys which
  end.

(** The restrictions that a scan key puts on the bounds of matching ranges,
    with the other variables that the switch sets. *)
Record Restrictions : Type := mkRestrictions {
  minLower : option RangeBound;
  maxLower : option RangeBound;
  minUpper : option RangeBound;
  maxUpper : option RangeBound;
  incl : bool;
  strictEmpty : bool;
  res_which : Z;
  needPrevious : bool
}.

(** The strategy and the bounds of the argument, [@> elem] taken as [@> range]. *)
Definition key_bounds (tc : TypeCacheEntry) (key : ScanKey) : result (Z * (RangeBound * RangeBound * bool)) :=
  if sk_strategy key =? RANGESTRAT_CONTAINS_ELEM then
    v ← query_elem (sk_argument key);
    Ok (RANGESTRAT_CONTAINS, (mkBound v false true true, mkBound v false true false, false))
  else
    range ← query_range (sk_argument key);
    Ok (sk_strategy key, range_deserialize tc range).

Definition adjacent_which (tc : TypeCacheEntry) (centroid : RangeType) (traversalValue : option RangeType)
    (lower upper : RangeBound) (which : Z) : result Z :=
  let '(centroidLower, centroidUpper, _) := range_deserialize tc centroid in
  let prevUpper := upper_of tc <$> traversalValue in
  let prevLower := lower_of tc <$> traversalValue in
  cmp ← adjacent_inner_consistent tc lower centroidUpper prevUpper;
  let which1 := if cmp >? 0 then bits [1; 4] else if cmp <? 0 then bits [2; 3] else 0 in
  cmp ← adjacent_inner_consistent tc upper centroidLower prevLower;
  let which2 := if cmp >? 0 then bits [1; 2] else if cmp <? 0 then bits [3; 4] else 0 in
  Ok (Z.land which (Z.lor which1 which2)).

(** The switch for an inner tuple with a centroid. *)
Definition key_switch (tc : TypeCacheEntry) (centroid : RangeType) (traversalValue : option RangeType)
    (key : ScanKey) (strategy : Z) (lower upper : RangeBound) (empty : bool) (which : Z) (need : bool)
  : result Restrictions :=
  if strategy =? RANGESTRAT_BEFORE then
    Ok (mkRestrictions None None None (Some lower) false true which need)
  else if strategy =? RANGESTRAT_OVERLEFT then
    Ok (mkRestrictions None None None (Some upper) true true which need)
  else if strategy =? RANGESTRAT_OVERLAPS then
    Ok (mkRestrictions None (Some upper) (Some lower) None true true which need)
  else if strategy =? RANGESTRAT_OVERRIGHT then
    Ok (mkRestrictions (Some lower) None None None true true which need)
  else if strategy =? RANGESTRAT_AFTER then
    Ok (mkRestrictions (Some upper) None None None false true which need)
  else if strategy =? RANGESTRAT_ADJACENT then
    if empty then Ok (mkRestrictions None None None None true true which need)
    else
      which ← adjacent_which tc centroid traversalValue lower upper which;
      Ok (mkRestrictions None None None None true true which true)
  else if strategy =? RANGESTRAT_CONTAINS then
    if negb empty
    then Ok (mkRestrictions None (Some lower) (Some upper) None true false (Z.land which (bits [1; 2; 3; 4])) need)
    else Ok (mkRestrictions None None None None true false which need)
  else if strategy =? RANGESTRAT_CONTAINED_BY then
    if empty then Ok (mkRestrictions None None None None true false (Z.land which (bits [5])) need)
    else Ok (mkRestrictions (Some lower) None None (Some upper) true false which need)
  else if strategy =? RANGESTRAT_EQ then
    range ← query_range (sk_argument key);
    Ok (mkRestrictions None None None None true false
          (Z.land which (Z.shiftl 1 (getQuadrant tc centroid range))) need)
  else elog "unrecognized range strategy".

(** A test of the bounding box against a lower limit [b] (an upper limit) of a
    bound: when the centroid's bound is not above (not below) it, only the
    quadrants [keep] remain. *)
Definition min_test (tc : TypeCacheEntry) (centroidBound : RangeBound) (b : option RangeBound) (keep : list Z) (which : Z) : Z :=
  match b with
  | Some b => if range_cmp_bounds tc centroidBound b <=? 0 then Z.land which (bits keep) else which
  | None => which
  end.

Definition max_test (tc : TypeCacheEntry) (centroidBound : RangeBound) (b : option RangeBound) (inclusive : bool)
    (keep : list Z) (which : Z) : Z :=
  match b with
  | Some b =>
      let cmp := range_cmp_bounds tc centroidBound b in
      if (cmp >? 0) || (negb inclusive && (cmp =? 0)) then Z.land which (bits keep) else which
  | None => which
  end.

(** The four tests of the bounding box. *)
Definition box_which (tc : TypeCacheEntry) (centroidLower centroidUpper : RangeBound) (R : Restrictions) (which : Z) : Z :=
  let which := min_test tc centroidLower (minLower R) [1; 2; 5] which in
  let which := max_test tc centroidLower (maxLower R) (incl R) [3; 4; 5] which in
  let which := min_test tc centroidUpper (minUpper R) [1; 4; 5] which in
  max_test tc centroidUpper (maxUpper R) (incl R) [2; 3; 5] which.

(** One turn of the loop over the scan keys, for an inner tuple with a centroid. *)
Definition centroid_key (tc : TypeCacheEntry) (centroid : RangeType) (traversalValue : option RangeType)
    (key : ScanKey) (which : Z) (need : bool) : result (Z * bool) :=
  let '(centroidLower, centroidUpper, _) := range_deserialize tc centroid in
  '(strategy, (lower, upper, empty)) ← key_bounds tc key;
  R ← key_switch tc centroid traversalValue key strategy lower upper empty which need;
  if strictEmpty R && empty then Ok (0, needPrevious R)
  else
    let which := if strictEmpty R then Z.land (res_which R) (bits [1; 2; 3; 4]) else res_which R in
    Ok (box_which tc centroidLower centroidUpper R which, needPrevious R).

(** The loop; [which == 0] ends it. *)
Fixpoint centroid_keys (tc : TypeCacheEntry) (centroid : RangeType) (traversalValue : option RangeType)
    (scankeys : list ScanKey) (which : Z) (need : bool) : result (Z * bool) :=
  match scankeys with
  | [] => Ok (which, need)
  | key :: keys =>
      '(which, need) ← centroid_key tc centroid traversalValue key which need;
      if which =? 0 then Ok (which, need)
      else centroid_keys tc centroid traversalValue keys which need
  end.

(** The nodes whose bit is set; [i] counts from 1. *)
Definition selected (which nNodes : Z) : list Z :=
  map (fun i => i - 1) (List.filter (fun i => bit_set which (Z.shiftl 1 i)) (seqZ 1 nNodes)).

Definition all_nodes (nNodes : Z) : spgInnerConsistentOut := mkInnerOut (seqZ 0 nNodes) None.

(** inner_consistent for an inner tuple without centroid. *)
Definition inner_no_prefix (scankeys : list ScanKey) (nNodes : Z) : result spgInnerConsistentOut :=
  which ← empty_keys scankeys (bits [1; 2]);
  Ok (mkInnerOut (selected which nNodes) None).

(** inner_consistent for an inner tuple with a centroid. *)
Definition inner_centroid (tc : TypeCacheEntry) (centroid : RangeType) (traversalValue : option RangeType)
    (scankeys : list ScanKey) (nNodes : Z) : result spgInnerConsistentOut :=
  '(which, need) ← centroid_keys tc centroid traversalValue scankeys (bits [1; 2; 3; 4; 5]) false;
  let nodeNumbers := selected which nNodes in
  Ok (mkInnerOut nodeNumbers (if (need : bool) then Some (map (fun _ => centroid) nodeNumbers) else None)).

(** ** leaf_consistent *)

(** The switch is that of [range_gist_consistent_leaf]. *)
Definition leaf_key (tc : TypeCacheEntry) (leafRange : RangeType) (key : ScanKey) : result bool :=
  range_gist_consistent_leaf tc (sk_strategy key) leafRange (sk_argument key).

Fixpoint leaf_keys (tc : TypeCacheEntry) (leafRange : RangeType) (scankeys : list ScanKey) : result bool :=
  match scankeys with
  | [] => Ok true
  | key :: keys =>
      res ← leaf_key tc leafRange key;
      if negb res then Ok false else leaf_keys tc leafRange keys
  end.

(** ** The SQL-callable functions *)

Context `{Catalog}.

Definition spg_range_quad_choose (ci : spgChooseIn) : Fn FnExtra spgChooseOut :=
  let inRange := ci_datum ci in
  if ci_allTheSame ci then mret (choose_all_the_same inRange)
  else
    typcache ← range_get_typcache (RangeTypeGetOid inRange);
    mret (choose_node typcache inRange (ci_prefix ci)).

(** There is at least one tuple. *)
Definition spg_range_quad_picksplit (pin : spgPickSplitIn) : Fn FnExtra spgPickSplitOut :=
  match pi_datums pin with
  | [] => lift (undefined "no tuples")
  | datum0 :: _ =>
      typcache ← range_get_typcache (RangeTypeGetOid datum0);
      lift (quad_picksplit typcache (pi_datums pin) (pi_level pin))
  end.

Definition spg_range_quad_inner_consistent (ii : spgInnerConsistentIn) : Fn FnExtra spgInnerConsistentOut :=
  if ii_allTheSame ii then mret (all_nodes (ii_nNodes ii))
  else
    match ii_prefix ii with
    | None => lift (inner_no_prefix (ii_scankeys ii) (ii_nNodes ii))
    | Some centroid =>
        typcache ← range_get_typcache (RangeTypeGetOid centroid);
        lift (inner_centroid typcache centroid (ii_traversalValue ii) (ii_scankeys ii) (ii_nNodes ii))
    end.

Definition spg_range_quad_leaf_consistent (scankeys : list ScanKey) (leafDatum : RangeType)
  : Fn FnExtra (bool * spgLeafConsistentOut) :=
  typcache ← range_get_typcache (RangeTypeGetOid leafDatum);
  res ← lift (leaf_keys typcache leafDatum scankeys);
  mret (res, mkLeafOut leafDatum false).

End Spgist.
