(* ===== verification/RangeSpgistSearch.v ===== *)
(** * Searching an SP-GiST index on ranges: one inner tuple

    [inner_centroid] and [inner_no_prefix] select the node that holds a
    matching range, for every strategy and every number of scan keys.  For the
    adjacency strategy this takes the previous centroid into account, and
    relies on bounds that are stored in canonical form. *)

From S2P Require Import Prelude Sorting Floats Varlena RangeTypes RangeOrder RangeOps RangeStore Hashfn RangeCanon.
From S2P Require Import RangeParse RangeFmgr RangeGist RangeGistKeys RangeGistSearch RangeSpgist.

(** ** Interface: no stable bound lies between adjacent ones *)

Class UniqueBounds `{Toast} (tc : TypeCacheEntry) `{!StableBounds tc} : Prop := {
  stable_normal : forall b, stable b -> stable (norm_bound tc b);
  stable_unique : forall A B b,
    bound_ok tc A -> bound_ok tc B -> stable A -> stable B -> stable b -> lower A = false -> lower B = true ->
    bounds_adjacent tc A B = Ok true ->
    range_cmp_bounds tc A b < 0 -> range_cmp_bounds tc b B < 0 -> False
}.

Lemma cmp_finite tc b1 b2 :
  infinite b1 = false -> infinite b2 = false ->
  range_cmp_bounds tc b1 b2 =
  (if rng_cmp_proc tc (val b1) (val b2) =? 0
   then if negb (inclusive b1) && negb (inclusive b2) then
          if Bool.eqb (lower b1) (lower b2) then 0 else if lower b1 then 1 else -1
        else if negb (inclusive b1) then if lower b1 then 1 else -1
        else if negb (inclusive b2) then if lower b2 then -1 else 1
        else 0
   else rng_cmp_proc tc (val b1) (val b2)).
Proof. unfold range_cmp_bounds. by intros -> ->. Qed.

Section Unique.
Context `{Toast} (tc : TypeCacheEntry) `{!RangeSubtype tc} `{!RangeCanonical tc}.

(** Two bounds that a third one separates strictly are finite on the inner side. *)
Lemma between_finite A B b :
  lower A = false -> lower B = true -> range_cmp_bounds tc A b < 0 -> range_cmp_bounds tc b B < 0 ->
  infinite A = false /\ infinite B = false /\ infinite b = false.
Proof.
  intros LA LB. unfold range_cmp_bounds. rewrite LA, LB.
  destruct (infinite A), (infinite B), (infinite b), (lower b); cbn; lia || done.
Qed.

Lemma unique_none A B b :
  rng_canonical tc = None -> lower A = false -> lower B = true ->
  bounds_adjacent tc A B = Ok true ->
  range_cmp_bounds tc A b < 0 -> range_cmp_bounds tc b B < 0 -> False.
Proof.
  intros Hc LA LB Hadj H1 H2. destruct (between_finite A B b LA LB H1 H2) as (FA & FB & Fb).
  unfold bounds_adjacent, range_cmp_bound_values in Hadj. rewrite Hc, FA, FB in Hadj. cbn [andb] in Hadj.
  rewrite cmp_finite, LA in H1 by done. rewrite cmp_finite, LB in H2 by done.
  pose proof (cmp_trans (val A) (val b) (val B)). pose proof (cmp_trans (val B) (val A) (val b)).
  pose proof (cmp_trans (val b) (val B) (val A)).
  pose proof (cmp_antisym (val A) (val b)). pose proof (cmp_antisym (val b) (val B)). pose proof (cmp_antisym (val A) (val B)).
  destruct (Z.ltb_spec (rng_cmp_proc tc (val A) (val B)) 0); [done|].
  destruct (Z.eqb_spec (rng_cmp_proc tc (val A) (val B)) 0); [|done]. injection Hadj as Hi.
  destruct (Z.eqb_spec (rng_cmp_proc tc (val A) (val b)) 0), (Z.eqb_spec (rng_cmp_proc tc (val b) (val B)) 0); try lia.
  destruct (inclusive A), (inclusive B), (inclusive b), (lower b); cbn in *; lia || done.
Qed.

(** Discrete types: a finite stable bound is inclusive if and only if it is a
    lower bound. *)
Lemma unique_discrete A B b :
  bound_ok tc A -> bound_ok tc B ->
  discrete_stable no_skip A -> discrete_stable no_skip B -> discrete_stable no_skip b ->
  lower A = false -> lower B = true -> bounds_adjacent tc A B = Ok true ->
  range_cmp_bounds tc A b < 0 -> range_cmp_bounds tc b B < 0 -> False.
Proof.
  intros HA HB SA SB Sb LA LB Hadj H1 H2. destruct (between_finite A B b LA LB H1 H2) as (FA & FB & Fb).
  destruct (bounds_adjacent_spec tc A B HA HB LA LB Hadj) as [_ Hg].
  assert (Hinc : forall x, discrete_stable no_skip x -> infinite x = false -> inclusive x = lower x).
  { intros x [Hx|[Hx|Hx]] Hf; [congruence|done|done]. }
  apply Hinc in SA, SB, Sb; [|done..]. clear Hinc. rewrite LA in SA. rewrite LB in SB.
  assert (Hpt : forall x v, infinite x = false -> infinite (pt v) = false) by done.
  pose proof (Hg (val A)) as GA. pose proof (Hg (val b)) as Gb. clear Hg.
  rewrite !cmp_finite in GA, Gb by done. rewrite cmp_finite in H1, H2 by done. cbn [pt inclusive lower val] in *.
  rewrite SA, SB, ?LA, ?LB, ?Sb in *. rewrite !cmp_refl in * by apply _.
  pose proof (cmp_trans (val A) (val b) (val B)). pose proof (cmp_trans (val B) (val A) (val b)).
  pose proof (cmp_trans (val b) (val B) (val A)).
  pose proof (cmp_antisym (val A) (val b)). pose proof (cmp_antisym (val b) (val B)). pose proof (cmp_antisym (val A) (val B)).
  destruct (Z.eqb_spec (rng_cmp_proc tc (val A) (val b)) 0), (Z.eqb_spec (rng_cmp_proc tc (val b) (val B)) 0),
    (Z.eqb_spec (rng_cmp_proc tc (val B) (val A)) 0), (Z.eqb_spec (rng_cmp_proc tc (val B) (val b)) 0),
    (lower b); cbn in *; lia.
Qed.

End Unique.

#[global] Instance int4_unique `{Toast} : UniqueBounds int4range.
Proof.
  split; [intros b Hb; by apply (stable_norm int4range no_skip int4_succ)|].
  intros A B b HA HB SA SB Sb. by apply (unique_discrete int4range).
Qed.

#[global] Instance int8_unique `{Toast} : UniqueBounds int8range.
Proof.
  split; [intros b Hb; by apply (stable_norm int8range no_skip int8_succ)|].
  intros A B b HA HB SA SB Sb. by apply (unique_discrete int8range).
Qed.

(** Range types without canonical function, such as numrange. *)
Lemma unique_bounds_none `{Toast} (tc : TypeCacheEntry) `{!RangeSubtype tc} (Hc : rng_canonical tc = None) :
  @UniqueBounds _ tc (stable_bounds_none tc Hc).
Proof.
  split; [done|]. intros A B b _ _ _ _ _ LA LB. by apply (unique_none tc).
Qed.

(** ** Bit sets of quadrants *)

Lemma testbit_bits l q : 0 <= q -> Forall (fun i => 0 <= i) l -> Z.testbit (bits l) q = bool_decide (q ∈ l).
Proof.
  intros Hq Hl. induction Hl as [|i l Hi Hl IH]; cbn [bits fold_right].
  - rewrite Z.testbit_0_l. symmetry. apply bool_decide_eq_false. set_solver.
  - rewrite Z.lor_spec. unfold bits in IH. rewrite IH, Z.shiftl_spec by done.
    destruct (decide (q = i)) as [->|Hne].
    + rewrite Z.sub_diag. cbn [Z.testbit orb]. symmetry. apply bool_decide_eq_true. set_solver.
    + assert (E : Z.testbit 1 (q - i) = false).
      { destruct (Z.lt_ge_cases (q - i) 0); [by apply Z.testbit_neg_r|].
        rewrite (Z.testbit_odd 1), Z.shiftr_div_pow2 by lia. rewrite Z.div_small; [done|].
        split; [lia|]. apply Z.pow_gt_1; lia. }
      rewrite E. cbn [orb]. apply bool_decide_ext. set_solver.
Qed.

(** Keep bit [q] through [which &= bits l]. *)
Lemma keep_bits which l q :
  0 <= q -> Forall (fun i => 0 <= i) l -> q ∈ l -> Z.testbit which q = true -> Z.testbit (Z.land which (bits l)) q = true.
Proof. intros Hq Hl Hin Hw. rewrite Z.land_spec, Hw, testbit_bits by done. by apply bool_decide_eq_true. Qed.

Lemma testbit_nonzero which q : Z.testbit which q = true -> (which =? 0) = false.
Proof. intros Hw. apply Z.eqb_neq. intros ->. by rewrite Z.testbit_0_l in Hw. Qed.

Lemma bit_set_shift which i : 0 <= i -> bit_set which (Z.shiftl 1 i) = Z.testbit which i.
Proof.
  intros Hi. unfold bit_set. rewrite Z.shiftl_1_l.
  destruct (Z.testbit which i) eqn:E; [apply negb_true_iff, Z.eqb_neq|apply negb_false_iff, Z.eqb_eq].
  - intros H0. assert (Hb : Z.testbit (Z.land which (2 ^ i)) i = false) by (rewrite H0; apply Z.testbit_0_l).
    rewrite Z.land_spec, E, Z.pow2_bits_true in Hb by done. done.
  - apply Z.bits_inj'. intros n Hn. rewrite Z.land_spec, Z.testbit_0_l.
    destruct (decide (n = i)) as [->|]; [by rewrite E|]. by rewrite Z.pow2_bits_false, andb_false_r by congruence.
Qed.

(** The nodes that inner_consistent reports. *)
Lemma selected_spec which nNodes n :
  n ∈ selected which nNodes <-> 0 <= n < nNodes /\ Z.testbit which (n + 1) = true.
Proof.
  unfold selected. rewrite list_elem_of_In, in_map_iff. split.
  - intros (i & <- & Hi). apply filter_In in Hi as [Hi Hb]. apply list_elem_of_In, elem_of_seqZ in Hi.
    rewrite bit_set_shift in Hb by lia. replace (i - 1 + 1) with i by lia. split; [lia|done].
  - intros [Hn Hb]. exists (n + 1). split; [lia|]. apply filter_In. split; [apply list_elem_of_In, elem_of_seqZ; lia|].
    rewrite bit_set_shift by lia. done.
Qed.

(** ** Ranges in an index *)

(** Everything in an index was built by [make_range]. *)
Definition index_range `{Toast} (tc : TypeCacheEntry) `{!StableBounds tc} (r : RangeType) : Prop :=
  range_wf tc r /\
  let '(lo, up, empty) := range_deserialize tc r in empty = false -> stable lo /\ stable up.

(** The strategies with a range argument, one by one. *)
Ltac strategies Hs :=
  rewrite list_elem_of_In in Hs; cbn [In] in Hs;
  repeat (destruct Hs as [<- | Hs]; [|]); [..|done].

(** The strategy is a number: follow it through the switches. *)
Ltac switch :=
  unfold RANGESTRAT_BEFORE, RANGESTRAT_OVERLEFT, RANGESTRAT_OVERLAPS, RANGESTRAT_OVERRIGHT, RANGESTRAT_AFTER,
    RANGESTRAT_ADJACENT, RANGESTRAT_CONTAINS, RANGESTRAT_CONTAINED_BY, RANGESTRAT_CONTAINS_ELEM, RANGESTRAT_EQ in *;
  cbn [Z.eqb Pos.eqb sk_strategy sk_argument query_range query_elem mbind result_bind orb andb negb
       strictEmpty res_which needPrevious fst snd] in *.

Section Inner.
Context `{Toast} (tc : TypeCacheEntry) `{!RangeSubtype tc} `{!RangeCanonical tc} `{!StableBounds tc} `{!UniqueBounds tc}.
Context `{!TightBounds tc}.

(** What is known of a non-empty range of the index. *)
Record bounds_view (r : RangeType) (lo up : RangeBound) : Prop := {
  bv_deserialize : range_deserialize tc r = (lo, up, false);
  bv_lower : lower lo = true;
  bv_upper : lower up = false;
  bv_lower_ok : bound_ok tc lo;
  bv_upper_ok : bound_ok tc up;
  bv_order : range_cmp_bounds tc lo up <= 0;
  bv_lower_stable : stable lo;
  bv_upper_stable : stable up
}.

Lemma index_range_view r : index_range tc r -> RangeIsEmpty r = false -> exists lo up, bounds_view r lo up.
Proof.
  intros [Hwf Hst] He. destruct (wf_view tc r Hwf) as (lo & up & e & Hd & El & Eu & Hb).
  destruct (deserialize_sides _ _ _ _ _ Hd) as (_ & _ & E). rewrite He in E. subst e.
  rewrite Hd in Hst. destruct (Hb eq_refl) as (? & ? & ?), (Hst eq_refl). exists lo, up. by split.
Qed.

(** The quadrant of a non-empty range says on which side of the centroid its
    bounds are. *)
Lemma quadrant_sides c r lc uc lr ur :
  bounds_view c lc uc -> bounds_view r lr ur ->
  let q := getQuadrant tc c r in
  1 <= q <= 4 /\ (0 <= range_cmp_bounds tc lr lc <-> q ∈ [1; 2]) /\ (0 <= range_cmp_bounds tc ur uc <-> q ∈ [1; 4]).
Proof.
  intros Hc Hr. unfold getQuadrant. rewrite (bv_deserialize _ _ _ Hc), (bv_deserialize _ _ _ Hr). cbv zeta.
  destruct (Z.geb_spec (range_cmp_bounds tc lr lc) 0), (Z.geb_spec (range_cmp_bounds tc ur uc) 0);
    (split; [lia|]); rewrite !list_elem_of_In; cbn; lia.
Qed.

Lemma quadrant_empty c r : RangeIsEmpty r = true -> getQuadrant tc c r = 5.
Proof.
  intros He. unfold getQuadrant. destruct (range_deserialize tc c) as [[? ?] ?].
  destruct (range_deserialize tc r) as [[lo up] e] eqn:Hd.
  destruct (deserialize_sides _ _ _ _ _ Hd) as (_ & _ & ->). by rewrite He.
Qed.

(** ** The bounding box *)

(** A range meets the restrictions of a scan key. *)
Definition meets (R : Restrictions) (lr ur : RangeBound) : Prop :=
  (forall b, minLower R = Some b -> range_cmp_bounds tc b lr <= 0) /\
  (forall b, maxLower R = Some b -> range_cmp_bounds tc lr b <= 0 /\ (incl R = false -> range_cmp_bounds tc lr b < 0)) /\
  (forall b, minUpper R = Some b -> range_cmp_bounds tc b ur <= 0) /\
  (forall b, maxUpper R = Some b -> range_cmp_bounds tc ur b <= 0 /\ (incl R = false -> range_cmp_bounds tc ur b < 0)).

Lemma min_keeps cb rb b l q which :
  0 <= q -> Forall (fun i => 0 <= i) l -> (0 <= range_cmp_bounds tc rb cb -> q ∈ l) ->
  (forall x, b = Some x -> range_cmp_bounds tc x rb <= 0) ->
  Z.testbit which q = true -> Z.testbit (min_test tc cb b l which) q = true.
Proof.
  intros Hq Hl Hin Hb Hw. unfold min_test. destruct b as [x|]; [|done]. specialize (Hb x eq_refl).
  destruct (Z.leb_spec (range_cmp_bounds tc cb x) 0); [|done]. apply keep_bits; try done.
  apply Hin. rank_lia tc [rb; cb; x].
Qed.

Lemma max_keeps cb rb b inc l q which :
  0 <= q -> Forall (fun i => 0 <= i) l -> (range_cmp_bounds tc rb cb < 0 -> q ∈ l) ->
  (forall x, b = Some x -> range_cmp_bounds tc rb x <= 0 /\ (inc = false -> range_cmp_bounds tc rb x < 0)) ->
  Z.testbit which q = true -> Z.testbit (max_test tc cb b inc l which) q = true.
Proof.
  intros Hq Hl Hin Hb Hw. unfold max_test. destruct b as [x|]; [|done]. destruct (Hb x eq_refl) as [Ha Hs]. cbv zeta.
  destruct (_ || _) eqn:E; [|done]. apply keep_bits; try done. apply Hin.
  apply orb_true_iff in E as [E|E]; zbool; [rank_lia tc [rb; cb; x]|].
  destruct inc; [done|]. specialize (Hs eq_refl). rank_lia tc [rb; cb; x].
Qed.

Lemma box_keeps c r lc uc lr ur R which :
  bounds_view c lc uc -> bounds_view r lr ur -> meets R lr ur ->
  Z.testbit which (getQuadrant tc c r) = true ->
  Z.testbit (box_which tc lc uc R which) (getQuadrant tc c r) = true.
Proof.
  intros Hc Hr (M1 & M2 & M3 & M4) Hw.
  destruct (quadrant_sides c r lc uc lr ur Hc Hr) as (Hq & Hl & Hu). cbv zeta in Hq, Hl, Hu.
  rewrite !list_elem_of_In in Hl, Hu. cbn in Hl, Hu. unfold box_which.
  apply (max_keeps uc ur), (min_keeps uc ur), (max_keeps lc lr), (min_keeps lc lr);
    try done; try lia; try (repeat constructor; lia); intros; rewrite list_elem_of_In; cbn; lia.
Qed.

(** ** Adjacency *)

(** On which side of [c] the bound [b] is: 1 for right (or equal), -1 for left. *)
Definition side (b c : RangeBound) : Z := if 0 <=? range_cmp_bounds tc b c then 1 else -1.

Definition Ok_or_failure {A} (P : A -> Prop) (res : result A) : Prop :=
  match res with Ok a => P a | Err e => make_failure tc e end.

(** Looking for an upper bound adjacent to the lower bound [arg]. *)
Lemma adjacent_cmp_upper arg b c :
  bound_ok tc b -> bound_ok tc arg -> stable b -> stable arg -> stable c ->
  lower b = false -> lower arg = true -> lower c = false -> bounds_adjacent tc b arg = Ok true ->
  Ok_or_failure (eq (side b c)) (adjacent_cmp_bounds tc arg c).
Proof.
  intros Hb Ha Sb Sa Sc Lb La Lc Hadj. unfold adjacent_cmp_bounds. rewrite Lc.
  destruct (bounds_adjacent_spec tc b arg Hb Ha Lb La Hadj) as [Hlt _]. unfold side.
  destruct (Z.leb_spec (range_cmp_bounds tc arg c) 0), (Z.leb_spec 0 (range_cmp_bounds tc b c)); cbn; try done; exfalso.
  - rank_lia tc [b; arg; c].
  - apply (stable_unique b arg c); try done. rank_lia tc [arg; c].
Qed.

(** Looking for a lower bound adjacent to the upper bound [arg]. *)
Lemma adjacent_cmp_lower arg b c :
  bound_ok tc b -> bound_ok tc arg -> bound_ok tc c -> stable b -> stable arg -> stable c ->
  lower b = true -> lower arg = false -> lower c = true -> bounds_adjacent tc arg b = Ok true ->
  Ok_or_failure (eq (side b c)) (adjacent_cmp_bounds tc arg c).
Proof.
  intros Hb Ha Hc Sb Sa Sc Lb La Lc Hadj. unfold adjacent_cmp_bounds. rewrite Lc.
  destruct (bounds_adjacent_spec tc arg b Ha Hb La Lb Hadj) as [Hlt _]. unfold side.
  destruct (Z.ltb_spec (range_cmp_bounds tc arg c) 0) as [Hac|Hac].
  - destruct (Z.leb_spec 0 (range_cmp_bounds tc b c)) as [Hbc|Hbc].
    + pose proof (adjacent_closer tc arg b arg c Ha Hb Ha Hc La Lb La Lc Hadj) as Hcl.
      destruct (bounds_adjacent tc arg c) as [x|e] eqn:E; cbn in *; [|apply Hcl; rank_lia tc [arg; b; c]].
      rewrite Hcl by rank_lia tc [arg; b; c]. done.
    + destruct (bounds_adjacent tc arg c) as [[]|e] eqn:E; cbn; [exfalso|done|by apply (bounds_adjacent_error tc arg c)].
      by apply (stable_unique arg c b).
  - cbn. destruct (Z.leb_spec 0 (range_cmp_bounds tc b c)); [done|exfalso]. rank_lia tc [arg; b; c].
Qed.

(** Whatever the bounds, only [bounds_adjacent] can fail. *)
Lemma adjacent_cmp_failure arg c :
  bound_ok tc arg -> bound_ok tc c -> (lower c = true -> lower arg = false) ->
  Ok_or_failure (fun _ => True) (adjacent_cmp_bounds tc arg c).
Proof.
  intros Ha Hc Hl. unfold adjacent_cmp_bounds. destruct (lower c) eqn:Lc; [|by destruct (_ <=? _)].
  destruct (_ <? _); [|done]. destruct (bounds_adjacent tc arg c) as [[]|e] eqn:E; cbn; try done.
  by apply (bounds_adjacent_error tc arg c), E; try apply Hl.
Qed.

Lemma adjacent_inner_failure arg c prev :
  bound_ok tc arg -> bound_ok tc c -> (lower c = true -> lower arg = false) ->
  (forall p, prev = Some p -> bound_ok tc p /\ lower p = lower c) ->
  Ok_or_failure (fun _ => True) (adjacent_inner_consistent tc arg c prev).
Proof.
  intros Ha Hc Hl Hp. pose proof (adjacent_cmp_failure arg c Ha Hc Hl) as Hf. destruct prev as [p|]; cbn; [|done].
  destruct (Hp p eq_refl) as [Hpo Hpl]. pose proof (adjacent_cmp_failure arg p Ha Hpo) as Hf'. rewrite Hpl in Hf'.
  destruct (adjacent_cmp_bounds tc arg p) as [x|e]; cbn; [|by apply Hf']. by destruct (_ || _).
Qed.

(** The previous centroid does not exclude the branch that holds [b]. *)
Lemma adjacent_inner_side arg c prev b :
  Ok_or_failure (eq (side b c)) (adjacent_cmp_bounds tc arg c) ->
  (forall p, prev = Some p -> Ok_or_failure (eq (side b p)) (adjacent_cmp_bounds tc arg p) /\
                              (0 <= range_cmp_bounds tc c p <-> 0 <= range_cmp_bounds tc b p)) ->
  Ok_or_failure (eq (side b c)) (adjacent_inner_consistent tc arg c prev).
Proof.
  intros Hc Hp. destruct prev as [p|]; cbn; [|done]. destruct (Hp p eq_refl) as [Hs Hi].
  destruct (adjacent_cmp_bounds tc arg p) as [x|e]; cbn in Hs |- *; [|done]. subst x.
  assert (E : ((side b p <? 0) && (range_cmp_bounds tc c p >=? 0)) || ((side b p >? 0) && (range_cmp_bounds tc c p <? 0)) = false).
  { unfold side. destruct (Z.leb_spec 0 (range_cmp_bounds tc b p)), (Z.ltb_spec (range_cmp_bounds tc c p) 0),
      (Z.geb_spec (range_cmp_bounds tc c p) 0); lia || done. }
  by rewrite E.
Qed.

(** The centroid of the parent, when the search passes it on, has the range and
    the current centroid in the same quadrant. *)
Definition prev_ok (prev : option RangeType) (c r : RangeType) : Prop :=
  forall p, prev = Some p -> index_range tc p /\ RangeIsEmpty p = false /\ getQuadrant tc p c = getQuadrant tc p r.

Lemma prev_ok_sides prev c r lc uc lr ur p :
  bounds_view c lc uc -> bounds_view r lr ur -> prev_ok prev c r -> prev = Some p ->
  exists lp up, bounds_view p lp up /\
    (0 <= range_cmp_bounds tc lc lp <-> 0 <= range_cmp_bounds tc lr lp) /\
    (0 <= range_cmp_bounds tc uc up <-> 0 <= range_cmp_bounds tc ur up).
Proof.
  intros Hc Hr Hp E. destruct (Hp p E) as (Hi & He & Hq). destruct (index_range_view p Hi He) as (lp & up & Hv).
  exists lp, up. split; [done|].
  destruct (quadrant_sides p c lp up lc uc Hv Hc) as (_ & C1 & C2).
  destruct (quadrant_sides p r lp up lr ur Hv Hr) as (_ & R1 & R2).
  rewrite C1, C2, R1, R2, Hq. done.
Qed.

(** The quadrants that the answer of [adjacent_inner_consistent] selects. *)
Lemma side_bits x l1 l2 q :
  0 <= q -> (x = 1 -> q ∈ l1) -> (x = -1 -> q ∈ l2) -> x = 1 \/ x = -1 ->
  Forall (fun i => 0 <= i) l1 -> Forall (fun i => 0 <= i) l2 ->
  Z.testbit (if x >? 0 then bits l1 else if x <? 0 then bits l2 else 0) q = true.
Proof.
  intros Hq H1 H2 [-> | -> ] F1 F2; cbn; rewrite testbit_bits by done; apply bool_decide_eq_true; auto.
Qed.

Lemma adjacent_which_keeps c r q lc uc lr ur lq uq prev which :
  bounds_view c lc uc -> bounds_view r lr ur -> bounds_view q lq uq -> prev_ok prev c r ->
  bounds_adjacent tc ur lq = Ok true \/ bounds_adjacent tc uq lr = Ok true ->
  Z.testbit which (getQuadrant tc c r) = true ->
  Ok_or_failure (fun w => Z.testbit w (getQuadrant tc c r) = true) (adjacent_which tc c prev lq uq which).
Proof.
  intros Hc Hr Hq Hp Hadj Hw. unfold adjacent_which. rewrite (bv_deserialize _ _ _ Hc).
  pose proof (fun p => prev_ok_sides prev c r lc uc lr ur p Hc Hr Hp) as Hps.
  destruct (quadrant_sides c r lc uc lr ur Hc Hr) as (Hqd & Hl & Hu). cbv zeta in Hqd, Hl, Hu.
  cbv zeta. set (prevU := upper_of tc <$> prev). set (prevL := lower_of tc <$> prev).
  assert (HpU : forall p, prevU = Some p -> exists lp, bounds_view (default c prev) lp p /\
    (0 <= range_cmp_bounds tc uc p <-> 0 <= range_cmp_bounds tc ur p)).
  { intros p E. subst prevU. destruct prev as [pc|]; [|done]. cbn in E. injection E as <-.
    unfold upper_of, lower_of. destruct (Hps pc eq_refl) as (lp & up & Hv & _ & Hs). rewrite (bv_deserialize _ _ _ Hv). exists lp. split; [exact Hv|exact Hs]. }
  assert (HpL : forall p, prevL = Some p -> exists up, bounds_view (default c prev) p up /\
    (0 <= range_cmp_bounds tc lc p <-> 0 <= range_cmp_bounds tc lr p)).
  { intros p E. subst prevL. destruct prev as [pc|]; [|done]. cbn in E. injection E as <-.
    unfold upper_of, lower_of. destruct (Hps pc eq_refl) as (lp & up & Hv & Hs & _). rewrite (bv_deserialize _ _ _ Hv). exists up. split; [exact Hv|exact Hs]. }
  clearbody prevU prevL. clear Hps Hp.
  assert (F1 : Ok_or_failure (fun _ => True) (adjacent_inner_consistent tc lq uc prevU)).
  { destruct Hc, Hq. apply adjacent_inner_failure; [done..|by rewrite bv_upper0|].
    intros p E. destruct (HpU p E) as (lp & [] & _). split; [done|congruence]. }
  assert (F2 : Ok_or_failure (fun _ => True) (adjacent_inner_consistent tc uq lc prevL)).
  { destruct Hc, Hq. apply adjacent_inner_failure; [done..|].
    intros p E. destruct (HpL p E) as (lp & [] & _). split; [done|congruence]. }
  assert (Hside : Ok_or_failure (eq (side ur uc)) (adjacent_inner_consistent tc lq uc prevU) \/
                  Ok_or_failure (eq (side lr lc)) (adjacent_inner_consistent tc uq lc prevL)).
  { destruct Hc, Hr, Hq. destruct Hadj as [Ha|Ha]; [left|right].
    - apply adjacent_inner_side; [by apply adjacent_cmp_upper|]. intros p E. destruct (HpU p E) as (lp & [] & Hs).
      split; [by apply adjacent_cmp_upper|done].
    - apply adjacent_inner_side; [by apply adjacent_cmp_lower|]. intros p E. destruct (HpL p E) as (up & [] & Hs).
      split; [by apply adjacent_cmp_lower|done]. }
  rewrite !list_elem_of_In in Hl, Hu. cbn in Hl, Hu.
  destruct (adjacent_inner_consistent tc lq uc prevU) as [x1|e]; cbn [mbind result_bind Ok_or_failure] in *; [|done].
  destruct (adjacent_inner_consistent tc uq lc prevL) as [x2|e]; cbn [mbind result_bind Ok_or_failure] in *; [|done].
  rewrite Z.land_spec, Z.lor_spec, Hw. cbn [andb].
  destruct Hside as [<- | <- ].
  - rewrite side_bits; [done|lia|..]; try (repeat constructor; lia); unfold side; rewrite ?list_elem_of_In; cbn;
      destruct (Z.leb_spec 0 (range_cmp_bounds tc ur uc)); lia.
  - rewrite (side_bits (side lr lc)); [by rewrite orb_true_r|lia|..]; try (repeat constructor; lia); unfold side; rewrite ?list_elem_of_In; cbn;
      destruct (Z.leb_spec 0 (range_cmp_bounds tc lr lc)); lia.
Qed.

(** ** One scan key *)

(** A scan key with a known strategy and an argument of its type. *)
Definition key_ok (key : ScanKey) : Prop :=
  match sk_argument key with
  | QRange q => sk_strategy key ∈ [1; 2; 3; 4; 5; 6; 7; 8; 18] /\ index_range tc q
  | QElem _ => sk_strategy key = RANGESTRAT_CONTAINS_ELEM
  end.

(** The quadrant of a non-empty range is among the first four. *)
Lemma keep_nonempty c r lc uc lr ur which :
  bounds_view c lc uc -> bounds_view r lr ur -> Z.testbit which (getQuadrant tc c r) = true ->
  Z.testbit (Z.land which (bits [1; 2; 3; 4])) (getQuadrant tc c r) = true.
Proof.
  intros Hc Hr Hw. destruct (quadrant_sides c r lc uc lr ur Hc Hr) as (Hq & _). cbv zeta in Hq.
  apply keep_bits; [lia|repeat constructor; lia| |done]. rewrite list_elem_of_In. cbn. lia.
Qed.

(** Equal ranges are in the same quadrant. *)
Lemma quadrant_eq c r q lc uc lr ur lq uq :
  bounds_view c lc uc -> bounds_view r lr ur -> bounds_view q lq uq ->
  range_cmp_bounds tc lr lq = 0 -> range_cmp_bounds tc ur uq = 0 -> getQuadrant tc c q = getQuadrant tc c r.
Proof.
  intros Hc Hr Hq El Eu. unfold getQuadrant.
  rewrite (bv_deserialize _ _ _ Hc), (bv_deserialize _ _ _ Hr), (bv_deserialize _ _ _ Hq).
  destruct (Z.geb_spec (range_cmp_bounds tc lq lc) 0), (Z.geb_spec (range_cmp_bounds tc lr lc) 0);
    destruct (Z.geb_spec (range_cmp_bounds tc uq uc) 0), (Z.geb_spec (range_cmp_bounds tc ur uc) 0);
    try done; exfalso; rank_lia tc [lq; lr; lc; uq; ur; uc].
Qed.

Lemma testbit_shift which q : 0 <= q -> Z.testbit which q = true -> Z.testbit (Z.land which (Z.shiftl 1 q)) q = true.
Proof. intros Hq Hw. by rewrite Z.land_spec, Hw, Z.shiftl_1_l, Z.pow2_bits_true. Qed.

(** A range argument; the argument and the matching range are not empty. *)
Lemma key_step_nonempty c r q lc uc lr ur lq uq prev s which need :
  bounds_view c lc uc -> bounds_view r lr ur -> bounds_view q lq uq ->
  rangetypid r = type_id tc -> rangetypid q = type_id tc -> prev_ok prev c r ->
  s ∈ [1; 2; 3; 4; 5; 6; 7; 8; 18] -> leaf_key tc r (mkScanKey s (QRange q)) = Ok true ->
  Z.testbit which (getQuadrant tc c r) = true ->
  Ok_or_failure (fun res => Z.testbit (fst res) (getQuadrant tc c r) = true)
    (centroid_key tc c prev (mkScanKey s (QRange q)) which need).
Proof.
  intros Hc Hr Hq Tr Tq Hp Hs Hleaf Hw.
  assert (Ht : types_differ r q = false) by (unfold types_differ, RangeTypeGetOid; by rewrite Tr, Tq, Z.eqb_refl).
  assert (Ht' : types_differ q r = false) by (unfold types_differ, RangeTypeGetOid; by rewrite Tr, Tq, Z.eqb_refl).
  pose proof (keep_nonempty c r lc uc lr ur which Hc Hr Hw) as Hw4.
  unfold leaf_key, range_gist_consistent_leaf in Hleaf. unfold centroid_key, key_bounds, key_switch.
  rewrite (bv_deserialize _ _ _ Hc).
  strategies Hs; switch; rewrite (bv_deserialize _ _ _ Hq); switch;
    unfold range_before_internal, range_overleft_internal, range_overlaps_internal, range_overright_internal,
      range_after_internal, range_adjacent_internal, range_contained_by_internal, range_contains_internal,
      range_eq_internal in Hleaf; rewrite ?Ht, ?Ht', (bv_deserialize _ _ _ Hr), (bv_deserialize _ _ _ Hq) in Hleaf;
    cbn [orb andb negb Bool.eqb] in Hleaf.
  1-5: cbn [Ok_or_failure fst]; apply (box_keeps c r lc uc lr ur); try done;
    split_and!; cbn [minLower maxLower minUpper maxUpper incl]; intros b [= <-].
  - injection Hleaf as Hlt. zbool. split; [lia|done].
  - split; [|done]. destruct (_ <=? _) eqn:E in Hleaf; [by zbool|done].
  - split; [|done]. destruct Hr, Hq.
    destruct (_ && _) eqn:E1 in Hleaf; [zbool; done|]. destruct (_ && _) eqn:E2 in Hleaf; [zbool|done].
    rank_lia tc [lr; lq; ur; uq].
  - destruct Hr, Hq.
    destruct (_ && _) eqn:E1 in Hleaf; [zbool; rank_lia tc [lr; lq; ur; uq]|].
    destruct (_ && _) eqn:E2 in Hleaf; [zbool; done|done].
  - destruct (_ >=? _) eqn:E in Hleaf; [zbool; rank_lia tc [lr; lq]|done].
  - injection Hleaf as Hlt. zbool. rank_lia tc [uq; lr].
  - pose proof (adjacent_which_keeps c r q lc uc lr ur lq uq prev which Hc Hr Hq Hp) as Hk.
    assert (Hadj : bounds_adjacent tc ur lq = Ok true \/ bounds_adjacent tc uq lr = Ok true).
    { destruct (bounds_adjacent tc ur lq) as [[]|e]; cbn in Hleaf; [by left|by right|done]. }
    specialize (Hk Hadj Hw). destruct (adjacent_which tc c prev lq uq which) as [w|e]; cbn in *; [|done].
    by apply (keep_nonempty c r lc uc lr ur).
  - cbn [Ok_or_failure fst]. apply (box_keeps c r lc uc lr ur); try done.
    split_and!; cbn [minLower maxLower minUpper maxUpper incl]; intros b [= <-];
      (destruct (_ >? 0) eqn:E1 in Hleaf; [done|]; destruct (_ <? 0) eqn:E2 in Hleaf; [done|]; zbool).
    + by split.
    + rank_lia tc [ur; uq].
  - cbn [Ok_or_failure fst]. apply (box_keeps c r lc uc lr ur); try done.
    split_and!; cbn [minLower maxLower minUpper maxUpper incl]; intros b [= <-];
      (destruct (_ >? 0) eqn:E1 in Hleaf; [done|]; destruct (_ <? 0) eqn:E2 in Hleaf; [done|]; zbool).
    + done.
    + split; [rank_lia tc [ur; uq]|done].
  - cbn [Ok_or_failure fst]. destruct (quadrant_sides c r lc uc lr ur Hc Hr) as (Hqd & _). cbv zeta in Hqd.
    destruct (Z.eqb_spec (range_cmp_bounds tc lr lq) 0) as [El|]; [|done].
    destruct (Z.eqb_spec (range_cmp_bounds tc ur uq) 0) as [Eu|]; [|done].
    rewrite (quadrant_eq c r q lc uc lr ur lq uq) by done. apply testbit_shift; [lia|done].
Qed.

(** An element argument is taken for a range with that element only. *)
Lemma key_step_elem c r v lc uc lr ur prev which need :
  bounds_view c lc uc -> bounds_view r lr ur ->
  leaf_key tc r (mkScanKey RANGESTRAT_CONTAINS_ELEM (QElem v)) = Ok true ->
  Z.testbit which (getQuadrant tc c r) = true ->
  Ok_or_failure (fun res => Z.testbit (fst res) (getQuadrant tc c r) = true)
    (centroid_key tc c prev (mkScanKey RANGESTRAT_CONTAINS_ELEM (QElem v)) which need).
Proof.
  intros Hc Hr Hleaf Hw. pose proof (keep_nonempty c r lc uc lr ur which Hc Hr Hw) as Hw4.
  unfold leaf_key, range_gist_consistent_leaf in Hleaf. unfold centroid_key, key_bounds, key_switch.
  rewrite (bv_deserialize _ _ _ Hc). switch. injection Hleaf as Hm.
  apply (mem_between tc r v lr ur false (bv_deserialize _ _ _ Hr)) in Hm as [_ [M1 M2]].
  cbn [Ok_or_failure fst]. apply (box_keeps c r lc uc lr ur); try done.
  assert (E : range_cmp_bounds tc (mkBound v false true false) (pt v) = 0)
    by (unfold range_cmp_bounds; cbn; by rewrite cmp_refl by apply _).
  assert (E' : range_cmp_bounds tc (mkBound v false true true) (pt v) = 0)
    by (unfold range_cmp_bounds; cbn; by rewrite cmp_refl by apply _).
  split_and!; cbn [minLower maxLower minUpper maxUpper incl]; intros b [= <-].
  - split; [rank_lia tc [lr; pt v; mkBound v false true true]|done].
  - rank_lia tc [ur; pt v; mkBound v false true false].
Qed.

(** Only an empty range, or an empty argument, on one side. *)
Lemma box_empty lc uc R which : Z.testbit which 5 = true -> Z.testbit (box_which tc lc uc R which) 5 = true.
Proof.
  intros Hw. unfold box_which, min_test, max_test.
  repeat match goal with
  | |- context [match ?b with Some _ => _ | None => _ end] => destruct b
  | |- context [if ?b then _ else _] => destruct b
  end; rewrite ?Z.land_spec, Hw; done.
Qed.

(** Which operators hold when a range is empty. *)
Lemma leaf_empty r q s :
  rangetypid r = type_id tc -> rangetypid q = type_id tc -> s ∈ [1; 2; 3; 4; 5; 6; 7; 8; 18] ->
  leaf_key tc r (mkScanKey s (QRange q)) = Ok true ->
  (RangeIsEmpty r = false /\ RangeIsEmpty q = false) \/ (s = 7 /\ RangeIsEmpty q = true) \/
  (s = 8 /\ RangeIsEmpty r = true) \/ (s = 18 /\ RangeIsEmpty r = true /\ RangeIsEmpty q = true).
Proof.
  intros Tr Tq Hs Hleaf.
  assert (Ht : types_differ r q = false) by (unfold types_differ, RangeTypeGetOid; by rewrite Tr, Tq, Z.eqb_refl).
  assert (Ht' : types_differ q r = false) by (unfold types_differ, RangeTypeGetOid; by rewrite Tr, Tq, Z.eqb_refl).
  unfold leaf_key, range_gist_consistent_leaf in Hleaf.
  destruct (range_deserialize tc r) as [[lr ur] er] eqn:Hdr, (range_deserialize tc q) as [[lq uq] eq] eqn:Hdq.
  destruct (deserialize_sides _ _ _ _ _ Hdr) as (_ & _ & <-), (deserialize_sides _ _ _ _ _ Hdq) as (_ & _ & <-).
  strategies Hs; switch;
    unfold range_before_internal, range_overleft_internal, range_overlaps_internal, range_overright_internal,
      range_after_internal, range_adjacent_internal, range_contained_by_internal, range_contains_internal,
      range_eq_internal in Hleaf; rewrite ?Ht, ?Ht', Hdr, Hdq in Hleaf;
    destruct er, eq; cbn in Hleaf; try done; tauto.
Qed.

Lemma key_step_empty c r q prev s which need :
  RangeIsEmpty r || RangeIsEmpty q = true -> rangetypid r = type_id tc -> rangetypid q = type_id tc ->
  s ∈ [1; 2; 3; 4; 5; 6; 7; 8; 18] -> leaf_key tc r (mkScanKey s (QRange q)) = Ok true ->
  Z.testbit which (getQuadrant tc c r) = true ->
  Ok_or_failure (fun res => Z.testbit (fst res) (getQuadrant tc c r) = true)
    (centroid_key tc c prev (mkScanKey s (QRange q)) which need).
Proof.
  intros He Tr Tq Hs Hleaf Hw. pose proof (leaf_empty r q s Tr Tq Hs Hleaf) as Hcases.
  unfold centroid_key, key_bounds, key_switch. destruct (range_deserialize tc c) as [[lc uc] ec].
  destruct (range_deserialize tc q) as [[lq uq] eq] eqn:Hdq.
  destruct (deserialize_sides _ _ _ _ _ Hdq) as (_ & _ & Eq). rewrite <- Eq in *.
  destruct Hcases as [[Er ->]|[[-> ->]|[[-> Er]|(-> & Er & ->)]]]; switch; rewrite ?Hdq; switch.
  - by rewrite Er in He.
  - done.
  - rewrite quadrant_empty in * by done. destruct eq; switch; cbn [Ok_or_failure fst]; apply box_empty; [|done].
    apply keep_bits; [lia|repeat constructor; lia|set_solver|done].
  - cbn. rewrite !quadrant_empty in * by done. by apply testbit_shift.
Qed.

Lemma index_range_oid r : index_range tc r -> rangetypid r = type_id tc.
Proof. by intros [[? _] _]. Qed.

(** ** All scan keys *)

Section Keys.
Variables (c : RangeType) (prev : option RangeType).
Hypothesis Hc : index_range tc c.
Hypothesis Hne : RangeIsEmpty c = false.

Lemma centroid_key_step r key which need :
  index_range tc r -> key_ok key -> (RangeIsEmpty r = false -> prev_ok prev c r) ->
  leaf_key tc r key = Ok true -> Z.testbit which (getQuadrant tc c r) = true ->
  Ok_or_failure (fun res => Z.testbit (fst res) (getQuadrant tc c r) = true) (centroid_key tc c prev key which need).
Proof.
  intros Hr Hk Hp Hleaf Hw. destruct (index_range_view c Hc Hne) as (lc & uc & Vc).
  destruct key as [s [q|v]]; cbn in Hk.
  - destruct Hk as [Hs Hq]. destruct (RangeIsEmpty r || RangeIsEmpty q) eqn:He.
    + apply key_step_empty; auto using index_range_oid.
    + apply orb_false_iff in He as [Er Eq]. destruct (index_range_view r Hr Er) as (lr & ur & Vr).
      destruct (index_range_view q Hq Eq) as (lq & uq & Vq).
      apply (key_step_nonempty c r q lc uc lr ur lq uq); auto using index_range_oid.
  - subst s. destruct (RangeIsEmpty r) eqn:Er.
    + unfold leaf_key, range_gist_consistent_leaf in Hleaf. switch. injection Hleaf as Hm.
      apply (mem_pts tc), (pts_nonempty tc) in Hm. congruence.
    + destruct (index_range_view r Hr Er) as (lr & ur & Vr). by apply (key_step_elem c r v lc uc lr ur).
Qed.

Lemma centroid_keys_keep r keys which need :
  index_range tc r -> Forall key_ok keys -> (RangeIsEmpty r = false -> prev_ok prev c r) ->
  leaf_keys tc r keys = Ok true -> Z.testbit which (getQuadrant tc c r) = true ->
  Ok_or_failure (fun res => Z.testbit (fst res) (getQuadrant tc c r) = true) (centroid_keys tc c prev keys which need).
Proof.
  intros Hr Hk Hp. revert which need. induction Hk as [|key keys Hkey Hk IH]; intros which need Hleaf Hw; [done|].
  cbn [leaf_keys centroid_keys] in *. destruct (leaf_key tc r key) as [[]|] eqn:E; cbn in Hleaf; try done.
  pose proof (centroid_key_step r key which need Hr Hkey Hp E Hw) as Hs.
  destruct (centroid_key tc c prev key which need) as [[w n]|e]; cbn in *; [|done].
  rewrite (testbit_nonzero _ _ Hs). by apply IH.
Qed.

(** Whether or not there is a match, only the canonical function (or memory)
    can fail. *)
Hypothesis Hprev : forall p, prev = Some p -> index_range tc p /\ RangeIsEmpty p = false.

Lemma adjacent_which_failure q lq uq which :
  bounds_view q lq uq -> Ok_or_failure (fun _ => True) (adjacent_which tc c prev lq uq which).
Proof.
  intros [] . destruct (index_range_view c Hc Hne) as (lc & uc & Vc). unfold adjacent_which.
  rewrite (bv_deserialize _ _ _ Vc). cbv zeta. destruct Vc.
  assert (Hp : forall p, prev = Some p -> exists lp up, bounds_view p lp up /\ lower_of tc p = lp /\ upper_of tc p = up).
  { intros p E. destruct (Hprev p E) as [Hi He]. destruct (index_range_view p Hi He) as (lp & up & Hv).
    exists lp, up. unfold lower_of, upper_of. by rewrite (bv_deserialize _ _ _ Hv). }
  assert (F1 : Ok_or_failure (fun _ => True) (adjacent_inner_consistent tc lq uc (upper_of tc <$> prev))).
  { apply adjacent_inner_failure; [done..|congruence|]. intros b Hb. apply fmap_Some in Hb as (p & E & ->).
    destruct (Hp p E) as (lp & up & [] & _ & ->). split; [done|congruence]. }
  assert (F2 : Ok_or_failure (fun _ => True) (adjacent_inner_consistent tc uq lc (lower_of tc <$> prev))).
  { apply adjacent_inner_failure; [done..|]. intros b Hb. apply fmap_Some in Hb as (p & E & ->).
    destruct (Hp p E) as (lp & up & [] & -> & _). split; [done|congruence]. }
  destruct (adjacent_inner_consistent tc lq uc _) as [x1|e]; cbn [mbind result_bind Ok_or_failure] in *; [|done].
  by destruct (adjacent_inner_consistent tc uq lc _).
Qed.

Lemma centroid_key_failure key which need :
  key_ok key -> Ok_or_failure (fun _ => True) (centroid_key tc c prev key which need).
Proof.
  intros Hk. unfold centroid_key. destruct (range_deserialize tc c) as [[lc uc] ec].
  destruct key as [s [q|v]]; cbn in Hk; unfold key_bounds, key_switch.
  - destruct Hk as [Hs Hq]. destruct (range_deserialize tc q) as [[lq uq] eq] eqn:Hd.
    destruct (deserialize_sides _ _ _ _ _ Hd) as (_ & _ & Eq).
    strategies Hs; switch; rewrite ?Hd; switch; try (by destruct eq).
    destruct eq; [done|]. destruct (index_range_view q Hq (eq_sym Eq)) as (lq' & uq' & Vq).
    pose proof (bv_deserialize _ _ _ Vq) as Hd'. rewrite Hd in Hd'. injection Hd' as <- <-.
    pose proof (adjacent_which_failure q lq uq which Vq) as Hf.
    by destruct (adjacent_which tc c prev lq uq which).
  - subst s. switch. done.
Qed.

Lemma centroid_keys_failure keys which need :
  Forall key_ok keys -> Ok_or_failure (fun _ => True) (centroid_keys tc c prev keys which need).
Proof.
  intros Hk. revert which need. induction Hk as [|key keys Hkey Hk IH]; intros which need; [done|].
  cbn [centroid_keys]. pose proof (centroid_key_failure key which need Hkey) as Hf.
  destruct (centroid_key tc c prev key which need) as [[w n]|e]; cbn in *; [|done]. by destruct (w =? 0).
Qed.

End Keys.

(** An inner tuple without centroid: node 0 holds the empty ranges, node 1 the
    others. *)
Lemma empty_keys_keep r keys which :
  index_range tc r -> Forall key_ok keys -> leaf_keys tc r keys = Ok true ->
  let b := if RangeIsEmpty r then 1 else 2 in
  Z.testbit which b = true -> exists w, empty_keys keys which = Ok w /\ Z.testbit w b = true.
Proof.
  intros Hr Hk. cbv zeta. revert which. induction Hk as [|key keys Hkey Hk IH]; intros which Hleaf Hw; [by exists which|].
  cbn [leaf_keys empty_keys] in *. destruct (leaf_key tc r key) as [[]|] eqn:El; cbn in Hleaf; try done.
  enough (Hs : exists e w, (if negb (sk_strategy key =? RANGESTRAT_CONTAINS_ELEM)
            then q ← query_range (sk_argument key); Ok (RangeIsEmpty q) else Ok false) = Ok e /\
          empty_switch (sk_strategy key) e which = Ok w /\ Z.testbit w (if RangeIsEmpty r then 1 else 2) = true).
  { destruct Hs as (e & w & -> & Hsw & Hb). cbn [mbind result_bind]. rewrite Hsw. cbn [mbind result_bind].
    rewrite (testbit_nonzero _ _ Hb). by apply IH. }
  clear IH Hleaf. destruct key as [s [q|v]]; cbn in Hkey.
  - destruct Hkey as [Hs Hq]. unfold empty_switch.
    pose proof (leaf_empty r q s (index_range_oid _ Hr) (index_range_oid _ Hq) Hs El) as Hcases. clear El.
    destruct Hcases as [[Er Eq]|[[-> Eq]|[[-> Er]|(-> & Er & Eq)]]].
    + rewrite Er in *. strategies Hs; switch; rewrite Eq; eexists _, _; (split_and!; [done..|]);
        cbn [negb]; rewrite ?Z.land_spec, Hw; done.
    + switch. rewrite Eq. by eexists _, _.
    + switch. rewrite Er in *. eexists _, _. split_and!; [done..|]. by destruct (RangeIsEmpty q); rewrite ?Z.land_spec, Hw.
    + switch. rewrite Eq, Er in *. eexists _, _. split_and!; [done..|]. by rewrite Z.land_spec, Hw.
  - subst s. unfold leaf_key, range_gist_consistent_leaf in El. unfold empty_switch. switch. injection El as Hm.
    apply (mem_pts tc), (pts_nonempty tc) in Hm. rewrite Hm in *. eexists _, _. split_and!; [done..|]. by rewrite Z.land_spec, Hw.
Qed.

Lemma empty_keys_total keys which : Forall key_ok keys -> is_Ok (empty_keys keys which).
Proof.
  intros Hk. revert which. induction Hk as [|key keys Hkey Hk IH]; intros which; [by eexists|]. cbn [empty_keys].
  destruct key as [s [q|v]]; cbn in Hkey; unfold empty_switch.
  - destruct Hkey as [Hs _]. strategies Hs; switch; destruct (_ =? 0); (done || by eexists).
  - subst s. switch. destruct (_ =? 0); (done || by eexists).
Qed.

(** ** inner_consistent selects the node of every matching range *)

Lemma inner_centroid_complete c prev keys nNodes r :
  index_range tc c -> RangeIsEmpty c = false -> index_range tc r -> Forall key_ok keys ->
  (RangeIsEmpty r = false -> prev_ok prev c r) -> leaf_keys tc r keys = Ok true -> getQuadrant tc c r <= nNodes ->
  Ok_or_failure (fun out => getQuadrant tc c r - 1 ∈ io_nodeNumbers out) (inner_centroid tc c prev keys nNodes).
Proof.
  intros Hc Hne Hr Hk Hp Hleaf Hn. unfold inner_centroid.
  assert (Hq : 1 <= getQuadrant tc c r <= 5).
  { destruct (RangeIsEmpty r) eqn:Er; [rewrite quadrant_empty by done; lia|].
    destruct (index_range_view c Hc Hne) as (lc & uc & Vc), (index_range_view r Hr Er) as (lr & ur & Vr).
    destruct (quadrant_sides c r lc uc lr ur Vc Vr) as (? & _). lia. }
  assert (Hw : Z.testbit (bits [1; 2; 3; 4; 5]) (getQuadrant tc c r) = true).
  { rewrite testbit_bits by (lia || (repeat constructor; lia)). apply bool_decide_eq_true, list_elem_of_In. cbn. lia. }
  pose proof (centroid_keys_keep c prev Hc Hne r keys _ false Hr Hk Hp Hleaf Hw) as Hs.
  destruct (centroid_keys tc c prev keys _ false) as [[w n]|e]; cbn [Ok_or_failure mbind result_bind fst] in *; [|done].
  cbn [io_nodeNumbers]. apply selected_spec. split; [lia|]. by replace (getQuadrant tc c r - 1 + 1) with (getQuadrant tc c r) by lia.
Qed.

Lemma inner_centroid_failure c prev keys nNodes :
  index_range tc c -> RangeIsEmpty c = false -> Forall key_ok keys ->
  (forall p, prev = Some p -> index_range tc p /\ RangeIsEmpty p = false) ->
  Ok_or_failure (fun out => forall l, io_traversalValues out = Some l -> l = map (fun _ => c) (io_nodeNumbers out))
    (inner_centroid tc c prev keys nNodes).
Proof.
  intros Hc Hne Hk Hp. unfold inner_centroid.
  pose proof (centroid_keys_failure c prev Hc Hne Hp keys (bits [1; 2; 3; 4; 5]) false Hk) as Hf.
  destruct (centroid_keys tc c prev keys _ false) as [[w n]|e]; cbn [Ok_or_failure mbind result_bind] in *; [|done].
  cbn. by destruct n; intros l [= <-].
Qed.

Lemma inner_no_prefix_complete keys nNodes r :
  index_range tc r -> Forall key_ok keys -> leaf_keys tc r keys = Ok true -> 2 <= nNodes ->
  exists out, inner_no_prefix keys nNodes = Ok out /\ (if RangeIsEmpty r then 0 else 1) ∈ io_nodeNumbers out.
Proof.
  intros Hr Hk Hleaf Hn. unfold inner_no_prefix.
  destruct (empty_keys_keep r keys (bits [1; 2]) Hr Hk Hleaf) as (w & -> & Hb); [by destruct (RangeIsEmpty r)|].
  cbn [mbind result_bind]. eexists. split; [done|]. cbn [io_nodeNumbers]. apply selected_spec.
  destruct (RangeIsEmpty r); split; (lia || done).
Qed.

End Inner.
