(* ===== verification/RangeSpgistTree.v ===== *)
(** * An SP-GiST index on ranges

    The tree that the SP-GiST access method (src/backend/access/spgist) keeps,
    as it is seen by the operator class: leaf tuple sets and inner tuples.
    Pages, buffers and locks are left out; where the access method decides by
    free space, or at random, the relation allows every choice.

    [spg_insert] follows spgdoinsert: it descends by [choose], adds the tuple to
    a leaf tuple set, or splits the set by [picksplit] and [checkAllTheSame] and
    goes on from the new inner tuple when the new tuple did not fit.
    [spg_scan] follows the search of spgscan.c: it visits the nodes that
    inner_consistent reports, with their traversal values, and tests leaf
    tuples with leaf_consistent. *)

From S2P Require Import Prelude Sorting Floats Varlena RangeTypes RangeOrder RangeOps RangeStore Hashfn RangeCanon.
From S2P Require Import RangeParse RangeFmgr RangeGist RangeGistKeys RangeGistSearch RangeSpgist RangeSpgistSearch.

(** A node without downlink is an empty leaf tuple set. *)
Inductive spg_tree : Type :=
| SpgLeaf (tuples : list RangeType)
| SpgInner (allTheSame : bool) (prefix : option RangeType) (nodes : list spg_tree).

Fixpoint entries (t : spg_tree) : list RangeType :=
  match t with
  | SpgLeaf tuples => tuples
  | SpgInner _ _ nodes => concat (map entries nodes)
  end.

(** ** Insertion *)

(** [allTheSame], [includeNew] and the possibly changed output of picksplit;
    the new tuple is the last one. *)
Definition checkAllTheSame (out : spgPickSplitOut) (tooBig : bool) : bool * bool * spgPickSplitOut :=
  let map_ := po_mapTuplesToNodes out in
  let nTuples := length map_ in
  if (nTuples <=? 1)%nat then (false, true, out)
  else
    let limit := if tooBig then (nTuples - 1)%nat else nTuples in
    let theNode := nth 0 map_ 0 in
    if negb (forallb (fun n => n =? theNode) (take limit map_)) then (false, true, out)
    else
      let includeNew := negb (tooBig && negb (nth (nTuples - 1) map_ 0 =? theNode)) in
      let nNodes := 8 in
      (true, includeNew,
       mkPickSplitOut (po_prefix out) nNodes (map (fun i => i mod nNodes) (seqZ 0 (Z.of_nat nTuples)))
         (po_leafTupleDatums out)).

(** The tuples that go to a node. *)
Definition node_tuples (assigned : list (Z * RangeType)) (node : Z) : list RangeType :=
  map snd (List.filter (fun a => fst a =? node) assigned).

(** The new inner tuple, with the first [n] tuples distributed to its nodes. *)
Definition form_inner (allTheSame : bool) (out : spgPickSplitOut) (n : nat) : spg_tree :=
  let assigned := take n (zip (po_mapTuplesToNodes out) (po_leafTupleDatums out)) in
  SpgInner allTheSame (po_prefix out)
    (map (fun node => SpgLeaf (node_tuples assigned node)) (seqZ 0 (po_nNodes out))).

Section Insert.
Context `{Toast} `{Sorter} (tc : TypeCacheEntry).

Definition choose (allTheSame : bool) (prefix : option RangeType) (r : RangeType) : spgChooseOut :=
  if allTheSame then choose_all_the_same r else choose_node tc r prefix.

Inductive spg_insert : Z -> RangeType -> spg_tree -> spg_tree -> Prop :=
| ins_leaf level r l : spg_insert level r (SpgLeaf l) (SpgLeaf (l ++ [r]))
| ins_node level r same prefix nodes n t t' :
    (forall k, co_nodeN (choose same prefix r) = Some k -> k = Z.of_nat n) ->
    nodes !! n = Some t ->
    spg_insert (level + co_levelAdd (choose same prefix r)) (co_restDatum (choose same prefix r)) t t' ->
    spg_insert level r (SpgInner same prefix nodes) (SpgInner same prefix (<[n := t']> nodes))
| ins_split level r l tooBig out same out' :
    quad_picksplit tc (l ++ [r]) level = Ok out -> checkAllTheSame out tooBig = (same, true, out') ->
    spg_insert level r (SpgLeaf l) (form_inner same out' (S (length l)))
| ins_split_again level r l tooBig out same includeNew out' t' :
    quad_picksplit tc (l ++ [r]) level = Ok out -> checkAllTheSame out tooBig = (same, includeNew, out') ->
    spg_insert level r (form_inner same out' (length l)) t' ->
    spg_insert level r (SpgLeaf l) t'.

(** An index after inserting ranges into an empty one. *)
Inductive spg_index (ok : RangeType -> Prop) : spg_tree -> list RangeType -> Prop :=
| index_empty : spg_index ok (SpgLeaf []) []
| index_insert t l r t' : spg_index ok t l -> ok r -> spg_insert 0 r t t' -> spg_index ok t' (r :: l).

(** ** Search *)

(** Whether node [n] is visited, and the traversal value it is visited with. *)
Definition visit (out : spgInnerConsistentOut) (n : Z) : option (option RangeType) :=
  match list_find (fun m => m = n) (io_nodeNumbers out) with
  | None => None
  | Some (i, _) => Some (values ← io_traversalValues out; values !! i)
  end.

Definition inner_test (scankeys : list ScanKey) (traversalValue : option RangeType)
    (allTheSame : bool) (prefix : option RangeType) (nNodes : Z) : result spgInnerConsistentOut :=
  if allTheSame then Ok (all_nodes nNodes)
  else
    match prefix with
    | None => inner_no_prefix scankeys nNodes
    | Some centroid => inner_centroid tc centroid traversalValue scankeys nNodes
    end.

Fixpoint leaf_scan (scankeys : list ScanKey) (tuples : list RangeType) : result (list RangeType) :=
  match tuples with
  | [] => Ok []
  | r :: tuples' =>
      res ← leaf_keys tc r scankeys;
      found ← leaf_scan scankeys tuples';
      Ok (if (res : bool) then r :: found else found)
  end.

(** The nodes of an inner tuple, from number [n] on. *)
Definition scan_nodes (scan : option RangeType -> spg_tree -> result (list RangeType)) (out : spgInnerConsistentOut)
  : Z -> list spg_tree -> result (list RangeType) :=
  fix go n nodes :=
    match nodes with
    | [] => Ok []
    | t :: nodes' =>
        found ← (match visit out n with None => Ok [] | Some value => scan value t end);
        more ← go (n + 1) nodes';
        Ok (found ++ more)
    end.

Fixpoint spg_scan (scankeys : list ScanKey) (traversalValue : option RangeType) (t : spg_tree) : result (list RangeType) :=
  match t with
  | SpgLeaf tuples => leaf_scan scankeys tuples
  | SpgInner same prefix nodes =>
      out ← inner_test scankeys traversalValue same prefix (Z.of_nat (length nodes));
      scan_nodes (spg_scan scankeys) out 0 nodes
  end.

End Insert.

(** ** Distribution of tuples to nodes *)

Lemma concat_insert {A} (x : Z) (y : A) (f : Z -> list A) ks :
  NoDup ks -> x ∈ ks -> Permutation (concat (map (fun k => if x =? k then y :: f k else f k) ks)) (y :: concat (map f ks)).
Proof.
  induction 1 as [|k ks Hn Hnd IH]; intros Hin; [by apply not_elem_of_nil in Hin|]. cbn.
  destruct (Z.eqb_spec x k) as [->|Hne].
  - cbn. apply perm_skip, Permutation_app_head.
    enough (E : map (fun k0 => if k =? k0 then y :: f k0 else f k0) ks = map f ks) by by rewrite E.
    apply map_ext_in. intros k' Hk'. destruct (Z.eqb_spec k k') as [->|]; [|done]. by apply list_elem_of_In in Hk'.
  - apply elem_of_cons in Hin as [->|Hin]; [done|]. rewrite (IH Hin). by rewrite Permutation_middle.
Qed.

Lemma distribute_perm assigned n :
  Forall (fun a => 0 <= fst a < n) assigned ->
  Permutation (concat (map (node_tuples assigned) (seqZ 0 n))) (map snd assigned).
Proof.
  induction 1 as [|a assigned Ha Hall IH]; cbn [map].
  - unfold node_tuples. cbn. induction (seqZ 0 n); [constructor|done].
  - rewrite <- IH, <- (concat_insert (fst a) (snd a)); [|apply NoDup_seqZ|by apply elem_of_seqZ].
    apply Permutation_refl'. f_equal. apply map_ext. intros k. unfold node_tuples. cbn. by destruct (fst a =? k).
Qed.

Lemma node_tuples_in assigned k r : In r (node_tuples assigned k) -> In (k, r) assigned.
Proof.
  unfold node_tuples. rewrite in_map_iff. intros ([k' r'] & <- & Hin). apply filter_In in Hin as [Hin E].
  cbn in *. by apply Z.eqb_eq in E as ->.
Qed.

Lemma in_zip_map {A B} (f : A -> B) l b a : In (b, a) (zip (map f l) l) -> In a l /\ b = f a.
Proof. induction l as [|x l IH]; cbn; [done|]. intros [[= <- <-]|Hin]; [auto|]. destruct (IH Hin). auto. Qed.

(** What checkAllTheSame leaves alone. *)
Lemma checkAllTheSame_spec out tooBig same includeNew out' :
  checkAllTheSame out tooBig = (same, includeNew, out') ->
  po_prefix out' = po_prefix out /\ po_leafTupleDatums out' = po_leafTupleDatums out /\
  length (po_mapTuplesToNodes out') = length (po_mapTuplesToNodes out) /\
  (same = false -> out' = out) /\
  (same = true -> po_nNodes out' = 8 /\ Forall (fun n => 0 <= n < 8) (po_mapTuplesToNodes out')).
Proof.
  unfold checkAllTheSame. destruct (_ <=? _)%nat; [intros [= <- <- <-]; by split_and!|].
  destruct (negb _); [intros [= <- <- <-]; by split_and!|]. intros [= <- <- <-]. cbn. split_and!; try done.
  - rewrite length_map, length_seqZ. lia.
  - intros _. split; [done|]. apply List.Forall_forall. intros n Hn. apply in_map_iff in Hn as (i & <- & _). apply Z.mod_pos_bound. lia.
Qed.

Lemma form_inner_entries same out n :
  length (po_mapTuplesToNodes out) = length (po_leafTupleDatums out) ->
  Forall (fun k => 0 <= k < po_nNodes out) (po_mapTuplesToNodes out) ->
  Permutation (entries (form_inner same out n)) (take n (po_leafTupleDatums out)).
Proof.
  intros Hlen Hall. unfold form_inner. cbn [entries]. rewrite map_map. cbn [entries].
  rewrite (distribute_perm _ (po_nNodes out)).
  - apply Permutation_refl'. etransitivity; [apply (fmap_take snd)|].
    f_equal. apply (snd_zip (po_mapTuplesToNodes out)). lia.
  - apply Forall_take, List.Forall_forall. intros [k r] Hin. apply in_combine_l in Hin.
    rewrite List.Forall_forall in Hall. by apply Hall.
Qed.

(** ** The invariant of the tree *)

Section Invariant.
Context `{Toast} `{Sorter} (tc : TypeCacheEntry) `{!RangeSubtype tc} `{!RangeCanonical tc} `{!StableBounds tc}.
Context `{!UniqueBounds tc} `{!TightBounds tc}.

(** The node for empty ranges in a tuple without centroid is 0. *)
Definition empty_node (r : RangeType) : Z := if RangeIsEmpty r then 0 else 1.

(** [placed level P parent t]: the ranges below [t], at the given level, are
    in the region [P] and where the functions of the operator class expect
    them; [parent] is the centroid above and the quadrant that leads here. *)
Inductive placed : Z -> (RangeType -> Prop) -> option (RangeType * Z) -> spg_tree -> Prop :=
| placed_leaf level P parent l :
    Forall (fun r => index_range tc r /\ P r) l -> placed level P parent (SpgLeaf l)
| placed_same level P parent prefix nodes :
    nodes <> [] -> (forall n t, nodes !! n = Some t -> placed level P None t) ->
    placed level P parent (SpgInner true prefix nodes)
| placed_empties level P parent nodes :
    length nodes = 2%nat ->
    (forall n t, nodes !! n = Some t -> placed (level + 1) (fun r => P r /\ empty_node r = Z.of_nat n) None t) ->
    placed level P parent (SpgInner false None nodes)
| placed_quads level P parent c nodes :
    index_range tc c -> RangeIsEmpty c = false ->
    (forall p k, parent = Some (p, k) -> getQuadrant tc p c = k) ->
    Z.of_nat (length nodes) = (if level =? 0 then 5 else 4) ->
    (level <> 0 -> forall r, P r -> RangeIsEmpty r = false) ->
    (forall n t, nodes !! n = Some t ->
       placed (level + 1) (fun r => P r /\ getQuadrant tc c r = Z.of_nat n + 1) (Some (c, Z.of_nat n + 1)) t) ->
    placed level P parent (SpgInner false (Some c) nodes).

(** Below the root, empty ranges are on their own. *)
Definition unmixed (level : Z) (P : RangeType -> Prop) : Prop :=
  level <> 0 -> (forall r, P r -> RangeIsEmpty r = false) \/ (forall r, P r -> RangeIsEmpty r = true).

(** The ranges of the region are in the quadrant that leads here. *)
Definition below_parent (P : RangeType -> Prop) (parent : option (RangeType * Z)) : Prop :=
  forall p k, parent = Some (p, k) -> index_range tc p /\ RangeIsEmpty p = false /\ forall r, P r -> getQuadrant tc p r = k.

Lemma quadrant_range c r : index_range tc c -> RangeIsEmpty c = false -> index_range tc r -> RangeIsEmpty r = false ->
  1 <= getQuadrant tc c r <= 4.
Proof.
  intros Hc Hce Hr Hre. destruct (index_range_view tc c Hc Hce) as (lc & uc & Vc), (index_range_view tc r Hr Hre) as (lr & ur & Vr).
  destruct (quadrant_sides tc c r lc uc lr ur Vc Vr) as (? & _). lia.
Qed.

(** The children of the tuples have the same properties. *)
Lemma unmixed_empties level P n : 0 <= level -> unmixed (level + 1) (fun r => P r /\ empty_node r = Z.of_nat n).
Proof.
  intros _ _. destruct n as [|n]; [right|left]; intros r [_ Hr]; revert Hr; unfold empty_node; by destruct (RangeIsEmpty r).
Qed.

Lemma quadrant_five c r : getQuadrant tc c r = 5 <-> RangeIsEmpty r = true.
Proof.
  split; [|apply quadrant_empty]. unfold getQuadrant. destruct (range_deserialize tc c) as [[lc uc] ec].
  destruct (range_deserialize tc r) as [[lr ur] er] eqn:Hd. destruct (deserialize_sides _ _ _ _ _ Hd) as (_ & _ & <-).
  destruct er; [done|]. by destruct (_ >=? 0), (_ >=? 0).
Qed.

Lemma unmixed_quads level P c k : unmixed (level + 1) (fun r => P r /\ getQuadrant tc c r = k).
Proof.
  intros _. destruct (decide (k = 5)) as [->|Hk]; [right|left]; intros r [_ Hr]; [by apply (quadrant_five c)|].
  destruct (RangeIsEmpty r) eqn:E; [|done]. apply (quadrant_five c) in E. congruence.
Qed.

(** ** picksplit *)

Lemma nonempty_bounds_spec datums :
  Forall (index_range tc) datums ->
  let '(lbs, ubs) := nonempty_bounds tc datums in
  Forall2 (pair_ok tc) lbs ubs /\
  (forall b, In b lbs -> exists r, In r datums /\ RangeIsEmpty r = false /\ b = lower_of tc r) /\
  (forall b, In b ubs -> exists r, In r datums /\ RangeIsEmpty r = false /\ b = upper_of tc r) /\
  (lbs = [] -> Forall (fun r => RangeIsEmpty r = true) datums).
Proof.
  induction 1 as [|r datums Hr Hall IH]; cbn [nonempty_bounds]; [by split_and!|].
  destruct (range_deserialize tc r) as [[lo up] e] eqn:Hd.
  destruct (nonempty_bounds tc datums) as [lbs ubs]. destruct IH as (Hp & Hl & Hu & He).
  destruct (deserialize_sides _ _ _ _ _ Hd) as (_ & _ & ->). destruct (RangeIsEmpty r) eqn:Er.
  - split_and!; [done|..|by auto]; intros b Hb;
      [destruct (Hl b Hb) as (r' & ? & ?)|destruct (Hu b Hb) as (r' & ? & ?)]; exists r'; split; (done || by right).
  - destruct (index_range_view tc r Hr Er) as (lo' & up' & [Bd]). rewrite Hd in Bd. injection Bd as <- <-.
    split_and!; [by constructor|..|done]; intros b [<-|Hb].
    + exists r. unfold lower_of. rewrite Hd. split; [by left|done].
    + destruct (Hl b Hb) as (r' & ? & ?). exists r'. split; [by right|done].
    + exists r. unfold upper_of. rewrite Hd. split; [by left|done].
    + destruct (Hu b Hb) as (r' & ? & ?). exists r'. split; [by right|done].
Qed.

#[local] Instance bound_cmp_preorder : Preorder_cmp (bound_cmp tc) := bounds_preorder tc.

(** The centroid has its bounds from ranges of the set. *)
Definition centroid_of (c : RangeType) (datums : list RangeType) : Prop :=
  index_range tc c /\ RangeIsEmpty c = false /\
  (exists r, In r datums /\ RangeIsEmpty r = false /\ range_cmp_bounds tc (lower_of tc r) (lower_of tc c) = 0) /\
  (exists r, In r datums /\ RangeIsEmpty r = false /\ range_cmp_bounds tc (upper_of tc r) (upper_of tc c) = 0).

Lemma picksplit_spec datums level :
  Forall (index_range tc) datums ->
  match quad_picksplit tc datums level with
  | Ok out =>
      po_leafTupleDatums out = datums /\
      match po_prefix out with
      | None => Forall (fun r => RangeIsEmpty r = true) datums /\ po_nNodes out = 2 /\
                po_mapTuplesToNodes out = map empty_node datums
      | Some c => centroid_of c datums /\ po_nNodes out = (if level =? 0 then 5 else 4) /\
                  po_mapTuplesToNodes out = map (fun r => getQuadrant tc c r - 1) datums
      end
  | Err e => e = alloc_error
  end.
Proof.
  intros Hall. pose proof (nonempty_bounds_spec datums Hall) as Hs. unfold quad_picksplit.
  destruct (nonempty_bounds tc datums) as [lbs ubs]. destruct Hs as (Hp & Hl & Hu & He).
  destruct (Z.eqb_spec (Z.of_nat (length lbs)) 0) as [E|E].
  { destruct lbs; [|cbn in E; lia]. cbn. split; [done|]. specialize (He eq_refl). split_and!; [done..|].
    apply map_ext_in. intros r Hr. unfold empty_node. rewrite List.Forall_forall in He. by rewrite (He r Hr). }
  cbv zeta. set (k := (Z.of_nat (length lbs) / 2)).
  assert (Hk : (Z.to_nat k < length lbs)%nat) by (unfold k; zlia).
  assert (Hk0 : 0 <= k) by (apply Z.div_pos; lia).
  pose proof (Forall2_length _ _ _ Hp) as Hlen.
  pose proof (qsort_arg_perm _ (bound_cmp tc) lbs) as Pl. pose proof (qsort_arg_perm _ (bound_cmp tc) ubs) as Pu.
  destruct (lookup_lt_is_Some_2 (qsort_arg (bound_cmp tc) lbs) (Z.to_nat k)) as [lo Hlo]; [by rewrite (Permutation_length Pl)|].
  destruct (lookup_lt_is_Some_2 (qsort_arg (bound_cmp tc) ubs) (Z.to_nat k)) as [up Hup]; [by rewrite (Permutation_length Pu), <- Hlen|].
  rewrite (array_get_lookup _ k lo Hk0 Hlo), (array_get_lookup _ k up Hk0 Hup). cbn [mbind result_bind].
  assert (Inl : In lo lbs) by (apply (Permutation_in _ Pl), list_elem_of_In, list_elem_of_lookup; eauto).
  assert (Inu : In up ubs) by (apply (Permutation_in _ Pu), list_elem_of_In, list_elem_of_lookup; eauto).
  destruct (Hl lo Inl) as (rl & Irl & Erl & ->), (Hu up Inu) as (ru & Iru & Eru & ->).
  rewrite List.Forall_forall in Hall.
  destruct (index_range_view tc rl (Hall _ Irl) Erl) as (l1 & u1 & V1), (index_range_view tc ru (Hall _ Iru) Eru) as (l2 & u2 & V2).
  assert (E1 : lower_of tc rl = l1) by (unfold lower_of; by rewrite (bv_deserialize _ _ _ _ V1)).
  assert (E2 : upper_of tc ru = u2) by (unfold upper_of; by rewrite (bv_deserialize _ _ _ _ V2)).
  assert (Hok : pair_ok tc l1 u2).
  { rewrite E1 in Hlo. rewrite E2 in Hup. destruct V1, V2. split_and!; try done.
    refine (sorted_pairs (bound_cmp tc) lbs ubs _ _ (Z.to_nat k) l1 u2 _ Pl Pu _ _ Hlo Hup); [|by apply qsort_arg_sorted, _..].
    eapply Forall2_impl; [exact Hp|]. by intros a b (_ & _ & _ & _ & ?). }
  rewrite E1, E2. pose proof (serialize_pair tc l1 u2 Hok) as Hs.
  destruct (range_serialize tc l1 u2 false) as [c|e] eqn:Hc; [|done]. cbn. split; [done|].
  destruct Hs as (Hwf & Hne & Zl & Zu). split; [|done]. destruct Hok as (? & ? & ? & ? & ?).
  split_and!; [split; [done|]|done|exists rl; rewrite E1; done|exists ru; rewrite E2; done].
  destruct (serialize_bounds tc l1 u2 c) as (-> & _ & _); try done. intros _. destruct V1, V2. by split; apply stable_normal.
Qed.

(** The centroid is in the quadrant that the ranges it comes from are in. *)
Lemma centroid_quadrant p k c datums :
  index_range tc p -> RangeIsEmpty p = false -> Forall (index_range tc) datums -> centroid_of c datums ->
  (forall r, In r datums -> getQuadrant tc p r = k) -> getQuadrant tc p c = k.
Proof.
  intros Hp Hpe Hall (Hc & Hce & (rl & Irl & Erl & Zl) & ru & Iru & Eru & Zu) Hq. rewrite List.Forall_forall in Hall.
  destruct (index_range_view tc p Hp Hpe) as (lp & up & Vp), (index_range_view tc c Hc Hce) as (lc & uc & Vc).
  destruct (index_range_view tc rl (Hall _ Irl) Erl) as (l1 & u1 & V1), (index_range_view tc ru (Hall _ Iru) Eru) as (l2 & u2 & V2).
  destruct (quadrant_sides tc p c lp up lc uc Vp Vc) as (Q0 & Q1 & Q2).
  destruct (quadrant_sides tc p rl lp up l1 u1 Vp V1) as (R0 & R1 & _).
  destruct (quadrant_sides tc p ru lp up l2 u2 Vp V2) as (_ & _ & R2).
  rewrite (Hq _ Irl) in R0, R1. rewrite (Hq _ Iru) in R2.
  unfold lower_of, upper_of in Zl, Zu.
  rewrite (bv_deserialize _ _ _ _ V1), (bv_deserialize _ _ _ _ Vc) in Zl. rewrite (bv_deserialize _ _ _ _ V2), (bv_deserialize _ _ _ _ Vc) in Zu.
  cbn [fst snd] in Zl, Zu.
  assert (E1 : 0 <= range_cmp_bounds tc lc lp <-> 0 <= range_cmp_bounds tc l1 lp) by rank_lia tc [lc; lp; l1].
  assert (E2 : 0 <= range_cmp_bounds tc uc up <-> 0 <= range_cmp_bounds tc u2 up) by rank_lia tc [uc; up; u2].
  rewrite !list_elem_of_In in *. cbn in *. lia.
Qed.

(** The leaves of a new inner tuple. *)
Lemma node_lookup (assigned : list (Z * RangeType)) nNodes n t :
  map (fun node => SpgLeaf (node_tuples assigned node)) (seqZ 0 nNodes) !! n = Some t ->
  Z.of_nat n < nNodes /\ t = SpgLeaf (node_tuples assigned (Z.of_nat n)).
Proof.
  intros Ht. apply list_lookup_fmap_Some in Ht as (k & -> & Hk). apply lookup_seqZ in Hk as [-> Hn]. split; [lia|done].
Qed.

Lemma take_in {A} n (l : list A) x : In x (take n l) -> In x l.
Proof. intros Hin. rewrite <- (take_drop n l). apply in_app_iff. by left. Qed.

Section Split.
Variables (level : Z) (P : RangeType -> Prop) (parent : option (RangeType * Z)) (datums : list RangeType).
Hypothesis Hlevel : 0 <= level.
Hypothesis Hmix : unmixed level P.
Hypothesis Hparent : below_parent P parent.
Hypothesis Hall : forall r, In r datums -> index_range tc r /\ P r.

Lemma datums_index : Forall (index_range tc) datums.
Proof. apply List.Forall_forall. intros r Hr. by apply Hall. Qed.

Lemma form_same_placed out n :
  po_nNodes out = 8 -> po_leafTupleDatums out = datums -> placed level P parent (form_inner true out n).
Proof.
  intros E8 Ed. unfold form_inner. rewrite E8. constructor; [done|]. intros m t Ht. apply node_lookup in Ht as [_ ->].
  constructor. apply List.Forall_forall. intros r Hr. apply node_tuples_in, take_in, in_combine_r in Hr. rewrite Ed in Hr. by apply Hall.
Qed.

Lemma form_empties_placed n :
  Forall (fun r => RangeIsEmpty r = true) datums ->
  placed level P parent (form_inner false (mkPickSplitOut None 2 (map empty_node datums) datums) n).
Proof.
  intros He. unfold form_inner. cbn [po_prefix po_nNodes]. constructor; [done|].
  intros m t Ht. apply node_lookup in Ht as [_ ->]. constructor. apply List.Forall_forall. intros r Hr.
  apply node_tuples_in, take_in, in_zip_map in Hr as [Hr ->]. destruct (Hall r Hr). by split_and!.
Qed.

(** With a centroid, some range is not empty; below the root, then none is. *)
Lemma centroid_nonempty c : centroid_of c datums -> level <> 0 -> forall r, P r -> RangeIsEmpty r = false.
Proof.
  intros (_ & _ & (r0 & Ir0 & Er0 & _) & _) Hlv. destruct (Hmix Hlv) as [Hn|He]; [done|].
  destruct (Hall r0 Ir0) as [_ HP]. rewrite (He r0 HP) in Er0. done.
Qed.

Lemma form_quads_placed c n :
  centroid_of c datums ->
  placed level P parent (form_inner false
    (mkPickSplitOut (Some c) (if level =? 0 then 5 else 4) (map (fun r => getQuadrant tc c r - 1) datums) datums) n).
Proof.
  intros Hc. pose proof (centroid_nonempty c Hc) as Hne. unfold form_inner. cbn [po_prefix po_nNodes].
  constructor; [apply Hc..| | |done|].
  - intros p k E. destruct (Hparent p k E) as (Hp & Hpe & Hq).
    apply (centroid_quadrant p k c datums Hp Hpe datums_index Hc). intros r Hr. by apply Hq, Hall.
  - rewrite length_map, length_seqZ. destruct (level =? 0); lia.
  - intros m t Ht. apply node_lookup in Ht as [_ ->]. constructor. apply List.Forall_forall. intros r Hr.
    apply node_tuples_in, take_in, in_zip_map in Hr as [Hr Em]. destruct (Hall r Hr). split_and!; [done..|lia].
Qed.

(** The nodes that picksplit assigns exist. *)
Lemma quads_in_range c : centroid_of c datums ->
  Forall (fun k => 0 <= k < (if level =? 0 then 5 else 4)) (map (fun r => getQuadrant tc c r - 1) datums).
Proof.
  intros Hc. apply List.Forall_forall. intros k Hk. apply in_map_iff in Hk as (r & <- & Hr). destruct (Hall r Hr) as [Hi HP].
  destruct (RangeIsEmpty r) eqn:Er.
  - rewrite quadrant_empty by done. destruct (Z.eqb_spec level 0) as [|Hlv]; [lia|].
    rewrite (centroid_nonempty c Hc Hlv r HP) in Er. done.
  - destruct Hc as (Hc & Hce & _). pose proof (quadrant_range c r Hc Hce Hi Er). destruct (level =? 0); lia.
Qed.

(** Splitting a leaf tuple set gives a well-placed inner tuple with its tuples. *)
Lemma form_inner_placed tooBig out same includeNew out' n :
  quad_picksplit tc datums level = Ok out -> checkAllTheSame out tooBig = (same, includeNew, out') ->
  placed level P parent (form_inner same out' n) /\ Permutation (entries (form_inner same out' n)) (take n datums).
Proof.
  intros Hps Hsame. pose proof (picksplit_spec datums level datums_index) as Hspec. rewrite Hps in Hspec.
  destruct Hspec as [Hd Hpre]. destruct (checkAllTheSame_spec _ _ _ _ _ Hsame) as (Epre & Edat & Elen & Hfalse & Htrue).
  rewrite Hd in Edat.
  assert (Hlen : length (po_mapTuplesToNodes out') = length (po_leafTupleDatums out')).
  { rewrite Elen, Edat. destruct (po_prefix out) as [c|]; destruct Hpre as (_ & _ & ->); by rewrite length_map. }
  destruct same.
  - destruct (Htrue eq_refl) as [E8 H8]. split; [by apply form_same_placed|].
    rewrite <- Edat. apply form_inner_entries; [done|by rewrite E8].
  - rewrite (Hfalse eq_refl) in *. clear Hfalse Htrue Epre Edat Elen. destruct out as [pre nN mp dt].
    cbn [po_prefix po_nNodes po_mapTuplesToNodes po_leafTupleDatums] in *. subst dt.
    destruct pre as [c|]; destruct Hpre as (Hc & -> & ->).
    + split; [by apply form_quads_placed|]. etransitivity; [apply form_inner_entries; [done|by apply quads_in_range]|done].
    + split; [by apply form_empties_placed|]. etransitivity; [apply form_inner_entries; [done|]|done]. cbn.
      apply List.Forall_forall. intros k Hk. apply in_map_iff in Hk as (r & <- & _). unfold empty_node. destruct (RangeIsEmpty r); lia.
Qed.

End Split.

(** ** Insertion keeps the invariant *)

Lemma insert_entries (nodes : list spg_tree) n t t' r :
  nodes !! n = Some t -> Permutation (entries t') (r :: entries t) ->
  Permutation (concat (map entries (<[n := t']> nodes))) (r :: concat (map entries nodes)).
Proof.
  revert n. induction nodes as [|x nodes IH]; intros n Hn Hp; [done|]. destruct n as [|n]; cbn in *.
  - injection Hn as ->. by rewrite Hp.
  - rewrite (IH n Hn Hp). by rewrite Permutation_middle.
Qed.

Lemma insert_children (Q : nat -> spg_tree -> Prop) (nodes : list spg_tree) n t' :
  (forall m t, nodes !! m = Some t -> Q m t) -> Q n t' -> forall m t, <[n := t']> nodes !! m = Some t -> Q m t.
Proof.
  intros Hall Hn m t Hm. apply list_lookup_insert_Some in Hm as [(<- & <- & _)|[_ Hm]]; [done|by apply Hall].
Qed.

(** The node that choose selects is the one where the range belongs. *)
Lemma choose_empties r : co_nodeN (choose tc false None r) = Some (empty_node r).
Proof. done. Qed.

Lemma choose_quads c r : co_nodeN (choose tc false (Some c) r) = Some (getQuadrant tc c r - 1).
Proof. done. Qed.

Lemma insert_placed level r t t' :
  spg_insert tc level r t t' -> forall P parent,
  0 <= level -> unmixed level P -> below_parent P parent -> index_range tc r -> P r -> placed level P parent t ->
  placed level P parent t' /\ Permutation (entries t') (r :: entries t).
Proof.
  induction 1 as [level r l|level r same prefix nodes n t t' Hch Hn Hins IH|level r l tooBig out same out' Hps Hsame|
                  level r l tooBig out same includeNew out' t' Hps Hsame Hins IH];
    intros P parent Hlv Hmix Hpar Hr HP Ht.
  - inversion Ht; subst. split; [|apply Permutation_sym, Permutation_cons_append].
    constructor. apply Forall_app. split; [done|by constructor].
  - inversion Ht as [|? ? ? ? ? Hne Hall|? ? ? ? Hlen Hall|? ? ? c ? Hc Hce Hpq Hlen Hne Hall]; subst.
    + destruct (IH P None) as [Hp Hperm]; cbn [choose co_levelAdd choose_all_the_same co_restDatum]; rewrite ?Z.add_0_r;
        [done..|by intros ? ?|done|done|by apply (Hall n)|].
      cbn in Hp. rewrite Z.add_0_r in Hp. split; [|by apply (insert_entries nodes n t)].
      constructor; [by destruct nodes, n|]. by apply (insert_children (fun _ => placed level P None)).
    + specialize (Hch _ (choose_empties r)).
      destruct (IH (fun r => P r /\ empty_node r = Z.of_nat n) None) as [Hp Hperm];
        cbn [choose co_levelAdd choose_node co_restDatum]; [lia|by apply unmixed_empties|by intros ? ?|done|done|by apply Hall|].
      split; [|by apply (insert_entries nodes n t)]. constructor; [by rewrite length_insert|].
      by apply (insert_children (fun m => placed (level + 1) (fun r => P r /\ empty_node r = Z.of_nat m) None)).
    + specialize (Hch _ (choose_quads c r)).
      destruct (IH (fun r => P r /\ getQuadrant tc c r = Z.of_nat n + 1) (Some (c, Z.of_nat n + 1))) as [Hp Hperm];
        cbn [choose co_levelAdd choose_node co_restDatum]; [lia|apply unmixed_quads| |done|split; [done|lia]|by apply Hall|].
      { intros p k [= <- <-]. by split_and!; [..|intros x []]. }
      split; [|by apply (insert_entries nodes n t)]. constructor; [done..|by rewrite length_insert|done|].
      by apply (insert_children (fun m => placed (level + 1) (fun r => P r /\ getQuadrant tc c r = Z.of_nat m + 1) (Some (c, Z.of_nat m + 1)))).
  - inversion Ht as [? ? ? ? Hl| | |]; subst.
    assert (Hall : forall x, In x (l ++ [r]) -> index_range tc x /\ P x).
    { intros x Hx. rewrite List.Forall_forall in Hl. apply in_app_iff in Hx as [Hx|[<-|[]]]; [by apply Hl|done]. }
    destruct (form_inner_placed level P parent (l ++ [r]) Hmix Hpar Hall tooBig out same true out' (S (length l)) Hps Hsame) as [Hp Hperm].
    split; [done|]. rewrite Hperm, take_ge by (rewrite length_app; cbn; lia). apply Permutation_sym, Permutation_cons_append.
  - inversion Ht as [? ? ? ? Hl| | |]; subst.
    assert (Hall : forall x, In x (l ++ [r]) -> index_range tc x /\ P x).
    { intros x Hx. rewrite List.Forall_forall in Hl. apply in_app_iff in Hx as [Hx|[<-|[]]]; [by apply Hl|done]. }
    destruct (form_inner_placed level P parent (l ++ [r]) Hmix Hpar Hall tooBig out same includeNew out' (length l) Hps Hsame) as [Hp Hperm].
    destruct (IH P parent Hlv Hmix Hpar Hr HP Hp) as [Hp' Hperm']. split; [done|].
    rewrite Hperm', Hperm, take_app_le, take_ge by lia. done.
Qed.

(** The node that choose selects exists: every insertion can go on to a leaf. *)
Lemma insert_possible level P parent t :
  placed level P parent t -> forall r, 0 <= level -> index_range tc r -> P r -> exists t', spg_insert tc level r t t'.
Proof.
  induction 1 as [level P parent l Hl|level P parent prefix nodes Hne Hall IH|level P parent nodes Hlen Hall IH|
                  level P parent c nodes Hc Hce Hpq Hlen Hne Hall IH]; intros r Hlv Hr HP.
  - eexists. apply ins_leaf.
  - destruct nodes as [|t nodes]; [done|]. destruct (IH 0%nat t eq_refl r Hlv Hr HP) as [t' Ht'].
    eexists. apply (ins_node tc level r true prefix (t :: nodes) 0 t t'); [done|done|]. cbn. by rewrite Z.add_0_r.
  - assert (Hk : 0 <= empty_node r < 2) by (unfold empty_node; destruct (RangeIsEmpty r); lia).
    destruct (lookup_lt_is_Some_2 nodes (Z.to_nat (empty_node r)) ltac:(lia)) as [t Ht].
    destruct (IH _ t Ht r) as [t' Ht']; [lia|done|split; [done|lia]|].
    eexists. apply (ins_node tc level r false None nodes (Z.to_nat (empty_node r)) t t'); [|done|done]. intros k. rewrite choose_empties. intros [= <-]. lia.
  - assert (Hk : 0 <= getQuadrant tc c r - 1 < Z.of_nat (length nodes)).
    { rewrite Hlen. destruct (RangeIsEmpty r) eqn:Er.
      - rewrite quadrant_empty by done. destruct (Z.eqb_spec level 0) as [|Hl]; [lia|]. by rewrite (Hne Hl r HP) in Er.
      - pose proof (quadrant_range c r Hc Hce Hr Er). destruct (level =? 0); lia. }
    destruct (lookup_lt_is_Some_2 nodes (Z.to_nat (getQuadrant tc c r - 1)) ltac:(lia)) as [t Ht].
    destruct (IH _ t Ht r) as [t' Ht']; [lia|done|split; [done|lia]|].
    eexists. apply (ins_node tc level r false (Some c) nodes (Z.to_nat (getQuadrant tc c r - 1)) t t'); [|done|done]. intros k. rewrite choose_quads. intros [= <-]. lia.
Qed.


(** ** The search finds the matching ranges *)

Definition leaf_match (keys : list ScanKey) (r : RangeType) : bool :=
  match leaf_keys tc r keys with Ok b => b | Err _ => false end.

Lemma placed_entries level P parent t : placed level P parent t -> forall r, In r (entries t) -> index_range tc r /\ P r.
Proof.
  induction 1 as [level P parent l Hl|level P parent prefix nodes Hne Hall IH|level P parent nodes Hlen Hall IH|
                  level P parent c nodes Hc Hce Hpq Hlen Hne Hall IH]; cbn [entries]; intros r Hr.
  1: rewrite List.Forall_forall in Hl; by apply Hl.
  all: apply in_concat in Hr as (l & Hl & Hr); apply in_map_iff in Hl as (t & <- & Ht);
    apply list_elem_of_In, list_elem_of_lookup in Ht as [n Hn]; destruct (IH n t Hn r Hr) as [? Hp].
  - done.
  - by destruct Hp.
  - by destruct Hp.
Qed.

(** Of the operators, only adjacency can fail. *)
Lemma leaf_key_failure key r : key_ok tc key -> index_range tc r -> Ok_or_failure tc (fun _ => True) (leaf_key tc r key).
Proof.
  intros Hk [Hr _]. destruct key as [s [q|v]]; cbn in Hk; unfold leaf_key, range_gist_consistent_leaf.
  - destruct Hk as [Hs [Hq _]]. strategies Hs; switch.
    + by destruct (before_pts tc r q Hr Hq) as (? & -> & _).
    + by destruct (overleft_pts tc r q Hr Hq) as (? & -> & _).
    + by destruct (overlaps_pts tc r q Hr Hq) as (? & -> & _).
    + by destruct (overright_pts tc r q Hr Hq) as (? & -> & _).
    + rewrite (after_before tc) by done. by destruct (before_pts tc q r Hq Hr) as (? & -> & _).
    + destruct (range_adjacent_internal tc r q) as [b|e] eqn:E; [done|]. by apply (adjacent_error tc r q).
    + by destruct (contains_pts tc r q Hr Hq) as (? & -> & _).
    + unfold range_contained_by_internal. by destruct (contains_pts tc q r Hq Hr) as (? & -> & _).
    + by destruct (eq_pts tc r q Hr Hq) as (? & -> & _).
  - subst s. done.
Qed.

Lemma leaf_keys_failure keys r :
  Forall (key_ok tc) keys -> index_range tc r -> Ok_or_failure tc (fun _ => True) (leaf_keys tc r keys).
Proof.
  intros Hk Hr. induction Hk as [|key keys Hkey Hk IH]; [done|]. cbn [leaf_keys].
  pose proof (leaf_key_failure key r Hkey Hr) as Hf. destruct (leaf_key tc r key) as [[]|e]; cbn in *; done.
Qed.

Section Scan.
Variable (keys : list ScanKey).
Hypothesis Hkeys : Forall (key_ok tc) keys.

Lemma leaf_scan_spec l :
  (forall r, In r l -> index_range tc r) ->
  Ok_or_failure tc (fun rs => rs = List.filter (leaf_match keys) l) (leaf_scan tc keys l).
Proof.
  induction l as [|r l IH]; intros Hl; cbn [leaf_scan List.filter]; [done|].
  pose proof (leaf_keys_failure keys r Hkeys (Hl r (or_introl eq_refl))) as Hf. unfold leaf_match at 1.
  destruct (leaf_keys tc r keys) as [b|e]; cbn [mbind result_bind Ok_or_failure] in *; [|done].
  specialize (IH (fun x Hx => Hl x (or_intror Hx))). destruct (leaf_scan tc keys l) as [rs|e]; cbn in *; [|done].
  subst rs. by destruct b.
Qed.

Lemma scan_nodes_spec scan out nodes n :
  (forall m t, nodes !! m = Some t ->
     match visit out (n + Z.of_nat m) with
     | None => List.filter (leaf_match keys) (entries t) = []
     | Some value => Ok_or_failure tc (fun rs => rs = List.filter (leaf_match keys) (entries t)) (scan value t)
     end) ->
  Ok_or_failure tc (fun rs => rs = List.filter (leaf_match keys) (concat (map entries nodes))) (scan_nodes scan out n nodes).
Proof.
  revert n. induction nodes as [|t nodes IH]; intros n Hall; cbn [scan_nodes map concat]; [done|].
  pose proof (Hall 0%nat t eq_refl) as Hn0. cbn [Z.of_nat] in Hn0. rewrite Z.add_0_r in Hn0.
  assert (Hrest : Ok_or_failure tc (fun rs => rs = List.filter (leaf_match keys) (concat (map entries nodes))) (scan_nodes scan out (n + 1) nodes)).
  { apply IH. intros m t' Ht'. specialize (Hall (S m) t' Ht'). by replace (n + 1 + Z.of_nat m) with (n + Z.of_nat (S m)) by lia. }
  fold (scan_nodes scan out). rewrite List.filter_app. destruct (visit out n) as [value|].
  - destruct (scan value t) as [rs|e]; cbn [mbind result_bind Ok_or_failure] in *; [|done]. subst rs.
    destruct (scan_nodes scan out (n + 1) nodes) as [rs|e]; cbn in *; [by subst|done].
  - cbn [mbind result_bind]. destruct (scan_nodes scan out (n + 1) nodes) as [rs|e]; cbn in *; [by rewrite Hn0; subst|done].
Qed.

(** A node that is not visited holds no match. *)
Lemma visit_none out n : visit out n = None <-> n ∉ io_nodeNumbers out.
Proof.
  unfold visit. destruct (list_find (fun m => m = n) (io_nodeNumbers out)) as [[i m]|] eqn:E.
  - apply list_find_Some in E as (Hm & -> & _). split; [done|]. intros Hn. destruct Hn. by eapply list_elem_of_lookup_2.
  - split; [|done]. intros _ Hin. apply list_find_None in E. rewrite List.Forall_forall in E.
    by apply (E n (proj1 (list_elem_of_In _ _) Hin)).
Qed.

Lemma no_match_filter l : (forall r, In r l -> leaf_keys tc r keys = Ok true -> False) -> List.filter (leaf_match keys) l = [].
Proof.
  induction l as [|r l IH]; intros Hl; [done|]. cbn. unfold leaf_match at 1.
  destruct (leaf_keys tc r keys) as [[]|] eqn:E; [by destruct (Hl r (or_introl eq_refl))|..];
    apply IH; intros x Hx; apply Hl; by right.
Qed.

(** The traversal value of a visited node. *)
Lemma visit_value out n value c :
  visit out n = Some value ->
  (forall l, io_traversalValues out = Some l -> l = map (fun _ => c) (io_nodeNumbers out)) ->
  value = None \/ value = Some c.
Proof.
  unfold visit. destruct (list_find _ _) as [[i m]|] eqn:E; [|done]. intros [= <-] Hv.
  destruct (io_traversalValues out) as [l|]; [|by left]. cbn. rewrite (Hv l eq_refl).
  apply list_find_Some in E as (Hm & _). right. rewrite list_lookup_fmap, Hm. done.
Qed.

Lemma visit_all n (m : nat) : Z.of_nat m < n -> visit (all_nodes n) (Z.of_nat m) = Some None.
Proof.
  intros Hm. unfold visit, all_nodes. cbn [io_nodeNumbers io_traversalValues].
  destruct (list_find (fun k => k = Z.of_nat m) (seqZ 0 n)) as [[i k]|] eqn:E; [done|].
  apply list_find_None in E. rewrite List.Forall_forall in E. destruct (E (Z.of_nat m)); [|done].
  apply list_elem_of_In, elem_of_seqZ. lia.
Qed.

Lemma scan_placed level P parent t :
  placed level P parent t -> forall traversalValue, 0 <= level -> below_parent P parent ->
  (forall p, traversalValue = Some p -> exists k, parent = Some (p, k)) ->
  Ok_or_failure tc (fun rs => rs = List.filter (leaf_match keys) (entries t)) (spg_scan tc keys traversalValue t).
Proof.
  induction 1 as [level P parent l Hl|level P parent prefix nodes Hne Hall IH|level P parent nodes Hlen Hall IH|
                  level P parent c nodes Hc Hce Hpq Hlen Hne Hall IH]; intros tv Hlv Hpar Htv; cbn [spg_scan entries].
  - apply leaf_scan_spec. intros r Hr. rewrite List.Forall_forall in Hl. by apply Hl.
  - cbn [inner_test mbind result_bind]. apply scan_nodes_spec. intros m t Ht. pose proof (lookup_lt_Some _ _ _ Ht).
    rewrite Z.add_0_l, visit_all by lia. by apply (IH m t Ht); [..|intros ? ?].
  - unfold inner_test. rewrite Hlen. unfold inner_no_prefix.
    destruct (empty_keys_total tc keys (bits [1; 2]) Hkeys) as [w Hw]. rewrite Hw. cbn [mbind result_bind].
    apply scan_nodes_spec. intros m t Ht. rewrite Z.add_0_l. pose proof (lookup_lt_Some _ _ _ Ht).
    destruct (visit _ (Z.of_nat m)) as [value|] eqn:Ev.
    + assert (value = None) as -> by (unfold visit in Ev; destruct (list_find _ _) as [[]|]; [by injection Ev|done]).
      apply (IH m t Ht); [lia|by intros ? ?|done].
    + apply no_match_filter. intros r Hr Hmatch. destruct (placed_entries _ _ _ _ (Hall m t Ht) r Hr) as [Hi [_ Hm]].
      destruct (inner_no_prefix_complete tc keys 2 r Hi Hkeys Hmatch ltac:(lia)) as (out & Ho & Hin).
      unfold inner_no_prefix in Ho. rewrite Hw in Ho. injection Ho as <-. apply visit_none in Ev. apply Ev. by rewrite <- Hm.
  - cbn [inner_test].
    assert (Hprev : forall p, tv = Some p -> index_range tc p /\ RangeIsEmpty p = false).
    { intros p E. destruct (Htv p E) as [k Ek]. by destruct (Hpar p k Ek) as (? & ? & _). }
    pose proof (inner_centroid_failure tc c tv keys (Z.of_nat (length nodes)) Hc Hce Hkeys Hprev) as Hf.
    assert (Hcomp : forall r, index_range tc r -> P r -> leaf_keys tc r keys = Ok true ->
      getQuadrant tc c r <= Z.of_nat (length nodes) ->
      Ok_or_failure tc (fun out => getQuadrant tc c r - 1 ∈ io_nodeNumbers out) (inner_centroid tc c tv keys (Z.of_nat (length nodes)))).
    { intros r Hr HP Hm Hq. apply (inner_centroid_complete tc c tv keys _ r Hc Hce Hr Hkeys); [|exact Hm|exact Hq].
      intros _ p E. destruct (Htv p E) as [k Ek].
      destruct (Hpar p k Ek) as (? & ? & Hpk). split; [done|]. split; [done|]. by rewrite (Hpq p k Ek), (Hpk r HP). }
    destruct (inner_centroid tc c tv keys (Z.of_nat (length nodes))) as [out|e]; cbn [mbind result_bind Ok_or_failure] in *; [|done].
    apply scan_nodes_spec. intros m t Ht. rewrite Z.add_0_l. pose proof (lookup_lt_Some _ _ _ Ht).
    destruct (visit out (Z.of_nat m)) as [value|] eqn:Ev.
    + apply (IH m t Ht); [lia|intros p k [= <- <-]; by split_and!; [..|intros x []]|].
      destruct (visit_value _ _ _ c Ev Hf) as [-> | -> ]; [done|]. intros p [= <-]. by eexists.
    + apply no_match_filter. intros r Hr Hmatch. destruct (placed_entries _ _ _ _ (Hall m t Ht) r Hr) as [Hi [HP Hq]].
      apply visit_none in Ev. apply Ev. specialize (Hcomp r Hi HP Hmatch ltac:(lia)).
      by replace (Z.of_nat m) with (getQuadrant tc c r - 1) by lia.
Qed.

End Scan.

(** ** The index *)

Lemma index_placed t l : spg_index tc (index_range tc) t l -> placed 0 (fun _ => True) None t /\ Permutation (entries t) l.
Proof.
  induction 1 as [|t l r t' Hix IH Hr Hins]; [by split; constructor|]. destruct IH as [Hp Hperm].
  destruct (insert_placed 0 r t t' Hins (fun _ => True) None) as [Hp' Hperm'];
    [lia|by intros Hz|by intros ? ?|done..|].
  split; [done|]. by rewrite Hperm', Hperm.
Qed.

Lemma filter_perm {A} (f : A -> bool) (l l' : list A) : Permutation l l' -> Permutation (List.filter f l) (List.filter f l').
Proof.
  induction 1 as [|a l l' Hp IH|a b l|]; cbn; [done| | |by etransitivity].
  - destruct (f a); [by constructor|done].
  - destruct (f a), (f b); (done || apply perm_swap).
Qed.

Lemma index_scan t l keys :
  spg_index tc (index_range tc) t l -> Forall (key_ok tc) keys ->
  Ok_or_failure tc (fun rs => Permutation rs (List.filter (leaf_match keys) l)) (spg_scan tc keys None t).
Proof.
  intros Hix Hk. destruct (index_placed t l Hix) as [Hp Hperm].
  pose proof (scan_placed keys Hk 0 _ _ t Hp None ltac:(lia)) as Hs.
  destruct (spg_scan tc keys None t) as [rs|e]; cbn [Ok_or_failure] in *; [|by apply Hs].
  rewrite Hs by done. by apply filter_perm.
Qed.

End Invariant.
