(* ===== verification/RangeSpgistTheorems.v ===== *)
(** * Properties of the SP-GiST support for ranges *)

From S2P Require Import Prelude Sorting Floats Varlena RangeTypes RangeOrder RangeOps RangeStore Hashfn RangeCanon.
From S2P Require Import RangeParse RangeFmgr RangeTheorems QSort RangeGist RangeGistKeys RangeGistSearch.
From S2P Require Import RangeGistTheorems RangeSpgist RangeSpgistSearch RangeSpgistTree.

#[local] Existing Instance plain_toast.

(** ** Splitting a set of leaf tuples *)

Lemma node_shrinks (assigned : list (Z * RangeType)) k a :
  In a assigned -> fst a <> k -> (length (node_tuples assigned k) < length assigned)%nat.
Proof.
  intros Hin Hne. unfold node_tuples. rewrite length_map.
  pose proof (length_filter_lt (fun x => fst x =? k) (fun _ => true) assigned a (fun _ _ => eq_refl) Hin) as Hlt.
  specialize (Hlt (proj2 (Z.eqb_neq _ _) Hne) eq_refl).
  enough (E : List.filter (fun _ => true) assigned = assigned) by by rewrite E in Hlt.
  clear. induction assigned as [|x l IH]; cbn; congruence.
Qed.

(** After checkAllTheSame two tuples are in different nodes. *)
Lemma checkAllTheSame_separates out tooBig same includeNew out' :
  (2 <= length (po_mapTuplesToNodes out))%nat -> checkAllTheSame out tooBig = (same, includeNew, out') ->
  exists a b, a <> b /\ In a (po_mapTuplesToNodes out') /\ In b (po_mapTuplesToNodes out').
Proof.
  intros Hn. unfold checkAllTheSame. destruct (Nat.leb_spec (length (po_mapTuplesToNodes out)) 1); [lia|].
  destruct (negb (forallb _ _)) eqn:E; intros [= <- <- <-].
  - apply negb_true_iff in E. destruct (po_mapTuplesToNodes out) as [|x l] eqn:Em; [cbn in Hn; lia|]. cbn [nth] in E.
    assert (Hex : exists b, In b (x :: l) /\ (b =? x) = false).
    { apply not_true_iff_false in E. rewrite forallb_forall in E.
      destruct (existsb (fun b => negb (b =? x)) (x :: l)) eqn:Ex.
      - apply existsb_exists in Ex as (b & Hb & Hx). exists b. split; [done|by apply negb_true_iff].
      - exfalso. apply E. intros b Hb. apply take_in in Hb. destruct (b =? x) eqn:Eb; [done|].
        apply not_true_iff_false in Ex. exfalso. apply Ex, existsb_exists. exists b. by rewrite Eb. }
    destruct Hex as (b & Hb & Hne). exists x, b. apply Z.eqb_neq in Hne. split_and!; [congruence|by left|done].
  - exists 0, 1. cbn [po_mapTuplesToNodes]. split_and!; [done|..]; apply in_map_iff; [exists 0|exists 1];
      (split; [done|apply list_elem_of_In, elem_of_seqZ; lia]).
Qed.

(** A split of two or more leaf tuples makes progress: whatever the centroid
    and whether or not the tuples could be told apart, every node of the new
    inner tuple holds fewer tuples than were split, so that repeated splits
    end (the comment of doPickSplit relies on it). *)
Theorem spg_split_shrinks `{Toast} `{Sorter} tc datums level tooBig out same includeNew out' prefix nodes node :
  (2 <= length datums)%nat -> quad_picksplit tc datums level = Ok out ->
  checkAllTheSame out tooBig = (same, includeNew, out') ->
  form_inner same out' (length datums) = SpgInner same prefix nodes -> In node nodes ->
  (length (entries node) < length datums)%nat.
Proof.
  intros Hn Hps Hsame Hform Hin.
  assert (Hd : po_leafTupleDatums out = datums /\ length (po_mapTuplesToNodes out) = length datums).
  { unfold quad_picksplit in Hps. destruct (nonempty_bounds tc datums) as [lbs ubs].
    destruct (_ =? 0); [injection Hps as <-; cbn; by rewrite length_map|].
    apply bind_Ok in Hps as (lo & _ & Hps). apply bind_Ok in Hps as (up & _ & Hps). apply bind_Ok in Hps as (c & _ & Hps).
    injection Hps as <-. cbn. by rewrite length_map. }
  destruct Hd as [Hd Hl]. destruct (checkAllTheSame_spec _ _ _ _ _ Hsame) as (_ & Ed & El & _).
  rewrite Hd in Ed. rewrite Hl in El. unfold form_inner in Hform. injection Hform as _ <-.
  apply in_map_iff in Hin as (k & <- & _). cbn [entries].
  destruct (checkAllTheSame_separates out tooBig same includeNew out') as (a & b & Hab & Ha & Hb); [lia|done|].
  assert (Hex : exists x, In x (po_mapTuplesToNodes out') /\ x <> k).
  { destruct (decide (a = k)) as [->|]; [exists b|exists a]; split; congruence || done. }
  destruct Hex as (x & Hx & Hxk). rewrite Ed. apply list_elem_of_In, list_elem_of_lookup in Hx as [i Hi].
  destruct (lookup_lt_is_Some_2 datums i) as [r Hr]; [rewrite <- El; by eapply lookup_lt_Some|].
  assert (Hz : zip (po_mapTuplesToNodes out') datums !! i = Some (x, r)) by (apply lookup_zip_with_Some; eauto).
  assert (Hlen : length (zip (po_mapTuplesToNodes out') datums) = length datums) by (rewrite length_zip_with; lia).
  rewrite take_ge by lia. rewrite <- Hlen.
  apply (node_shrinks _ k (x, r)); [|done]. apply list_elem_of_In, list_elem_of_lookup. by exists i.
Qed.

(** Two ranges, as they are split at the root. *)
Definition demo_datums : list RangeType := [r_1_10; r_5_20].

Definition demo_out : spgPickSplitOut :=
  match quad_picksplit int4range demo_datums 0 with Ok out => out | Err _ => mkPickSplitOut None 0 [] [] end.

Lemma demo_picksplit : quad_picksplit int4range demo_datums 0 = Ok demo_out.
Proof.
  unfold demo_out. destruct (quad_picksplit int4range demo_datums 0) as [out|e] eqn:E; [done|].
  assert (Hok : match quad_picksplit int4range demo_datums 0 with Ok _ => true | Err _ => false end = true)
    by (vm_compute; reflexivity).
  by rewrite E in Hok.
Qed.

Lemma demo_separated : checkAllTheSame demo_out false = (false, true, demo_out).
Proof. vm_compute. reflexivity. Qed.

Definition demo_tree : spg_tree := form_inner false demo_out 2.

Lemma spg_split_shrinks_witness :
  (length (entries (SpgLeaf (node_tuples (zip (po_mapTuplesToNodes demo_out) demo_datums) 0))) < 2)%nat.
Proof.
  eapply (spg_split_shrinks int4range demo_datums 0 false demo_out false true demo_out);
    [cbn; lia|exact demo_picksplit|exact demo_separated|vm_compute; reflexivity|vm_compute; auto 6].
Defined.

(** The split of a set of leaf tuples agrees with choose: each tuple is
    assigned to the node that choose selects for it under the new prefix, and
    that node exists.  The medians make a valid non-empty centroid although
    its bounds come from different ranges, so that picksplit fails only for
    lack of memory.  Below the root the set is either all empty or has no
    empty range, as [spg_index_progress] shows. *)
Theorem spg_picksplit_agrees `{Toast} `{Sorter} (tc : TypeCacheEntry) (Hs : RangeSubtype tc) (Hc : RangeCanonical tc)
    (Hst : StableBounds tc) (Hu : UniqueBounds tc) (Ht : TightBounds tc) datums level :
  Forall (index_range tc) datums -> 0 <= level ->
  (level <> 0 -> Forall (fun r => RangeIsEmpty r = false) datums \/ Forall (fun r => RangeIsEmpty r = true) datums) ->
  match quad_picksplit tc datums level with
  | Ok out =>
      po_leafTupleDatums out = datums /\
      map Some (po_mapTuplesToNodes out) = map (fun r => co_nodeN (choose_node tc r (po_prefix out))) datums /\
      Forall (fun k => 0 <= k < po_nNodes out) (po_mapTuplesToNodes out) /\
      (forall c, po_prefix out = Some c -> index_range tc c /\ RangeIsEmpty c = false)
  | Err e => e = mkError ERRCODE_INTERNAL_ERROR "invalid memory alloc request size"
  end.
Proof.
  intros Hall Hlv Hmix. pose proof (picksplit_spec tc datums level Hall) as Hspec.
  destruct (quad_picksplit tc datums level) as [[pre nN mp dt]|e]; [|exact Hspec].
  cbn [po_prefix po_nNodes po_mapTuplesToNodes po_leafTupleDatums] in *. destruct Hspec as [-> Hpre].
  split; [done|]. destruct pre as [c|]; destruct Hpre as (Hcen & -> & ->); rewrite map_map.
  - split; [done|]. split; [|by intros c' [= <-]; split; apply Hcen].
    apply (quads_in_range tc level (fun r => In r datums) datums); [|by rewrite List.Forall_forall in Hall; auto|done].
    intros Hl. destruct (Hmix Hl) as [Hm|Hm]; rewrite List.Forall_forall in Hm; [by left|by right].
  - split; [done|]. split; [|done]. apply List.Forall_forall. intros k Hk. apply in_map_iff in Hk as (r & <- & _).
    unfold empty_node. destruct (RangeIsEmpty r); lia.
Qed.

(** Concrete ranges of an index. *)
Lemma key_index_range r : gist_key int4range r -> index_range int4range r.
Proof.
  intros Hk. destruct (gist_key_view int4range r Hk) as (Hwf & lo & up & e & Hd & _ & _ & _ & _ & _ & Hs).
  split; [done|]. rewrite Hd. intros E. by destruct (Hs E) as (_ & _ & _ & ? & ?).
Qed.

Lemma demo_datums_index : Forall (index_range int4range) demo_datums.
Proof. constructor; [exact (key_index_range _ r_1_10_key)|]. constructor; [exact (key_index_range _ r_5_20_key)|constructor]. Qed.

Lemma spg_picksplit_agrees_witness :
  po_leafTupleDatums demo_out = demo_datums /\
  map Some (po_mapTuplesToNodes demo_out) = map (fun r => co_nodeN (choose_node int4range r (po_prefix demo_out))) demo_datums.
Proof.
  pose proof (spg_picksplit_agrees int4range _ _ _ _ _ demo_datums 0 demo_datums_index ltac:(lia) ltac:(intros []; reflexivity)) as Hp.
  rewrite demo_picksplit in Hp. destruct Hp as (H1 & H2 & _). split; [exact H1|exact H2].
Defined.

(** ** The index *)

(** The first [n] tuples that were assigned node [k] are fewer than [n] when
    one of them was assigned another node. *)
Lemma taken_shrinks {A} (nodes : list Z) (datums : list A) n k x i :
  length nodes = length datums -> (n <= length datums)%nat -> nodes !! i = Some x -> (i < n)%nat -> x <> k ->
  (length (map snd (List.filter (fun a => Z.eqb (fst a) k) (take n (zip nodes datums)))) < n)%nat.
Proof.
  intros Hl Hn Hi Hin Hne. destruct (lookup_lt_is_Some_2 datums i ltac:(lia)) as [r Hr].
  assert (Hz : take n (zip nodes datums) !! i = Some (x, r)).
  { rewrite lookup_take_lt by done. apply lookup_zip_with_Some. eauto. }
  assert (Hlen : length (take n (zip nodes datums)) = n) by (rewrite length_take, length_zip_with; lia).
  rewrite length_map. rewrite <- Hlen at 2.
  pose proof (length_filter_lt (fun a => Z.eqb (fst a) k) (fun _ => true) (take n (zip nodes datums)) (x, r) (fun _ _ => eq_refl)
    ltac:(apply list_elem_of_In, list_elem_of_lookup; by exists i) (proj2 (Z.eqb_neq _ _) Hne) eq_refl) as Hlt.
  enough (E : List.filter (fun _ => true) (take n (zip nodes datums)) = take n (zip nodes datums)) by by rewrite E in Hlt.
  clear. induction (take n (zip nodes datums)) as [|y l IH]; cbn; congruence.
Qed.

(** The assignment that checkAllTheSame makes up. *)
Lemma same_assignment out tooBig includeNew out' i :
  checkAllTheSame out tooBig = (true, includeNew, out') -> (i < length (po_mapTuplesToNodes out))%nat ->
  po_mapTuplesToNodes out' !! i = Some (Z.of_nat i mod 8).
Proof.
  unfold checkAllTheSame. destruct (_ <=? _)%nat; [done|]. destruct (negb _); [done|]. intros [= <- <-] Hi.
  cbn [po_mapTuplesToNodes]. rewrite list_lookup_fmap, lookup_seqZ_lt by lia. cbn. by rewrite Z.add_0_l.
Qed.

(** Tuples that were told apart: one of them is in another node than the
    last one. *)
Lemma told_apart out tooBig out' includeNew l k :
  (2 <= length (po_mapTuplesToNodes out))%nat ->
  checkAllTheSame out tooBig = (false, includeNew, out') -> po_mapTuplesToNodes out = l ++ [k] ->
  out' = out /\ exists i x, l !! i = Some x /\ x <> k.
Proof.
  intros Hn Hc Hm. destruct (checkAllTheSame_separates _ _ _ _ _ Hn Hc) as (a & b & Hab & Ha & Hb).
  destruct (checkAllTheSame_spec _ _ _ _ _ Hc) as (_ & _ & _ & Hout & _). rewrite (Hout eq_refl) in Ha, Hb.
  split; [by apply Hout|]. rewrite Hm in Ha, Hb.
  assert (Hex : exists x, In x (l ++ [k]) /\ x <> k)
    by (destruct (decide (a = k)) as [->|]; [exists b|exists a]; split; congruence || done).
  destruct Hex as (x & Hx & Hne). apply in_app_iff in Hx as [Hx|[->|[]]]; [|done].
  apply list_elem_of_In, list_elem_of_lookup in Hx as [i Hi]. by exists i, x.
Qed.

(** A set of leaf tuples is split and the new tuple goes on from the new inner
    tuple: the node it comes to holds fewer of the old tuples than were
    split, except that a single old tuple that could not be told apart from
    the new one has a node of its own, with seven empty ones beside it. *)
Lemma resplit_shrinks `{Toast} `{Sorter} (tc : TypeCacheEntry) (Hs : RangeSubtype tc) (Hc : RangeCanonical tc)
    (Hst : StableBounds tc) (Hu : UniqueBounds tc) (Ht : TightBounds tc) l r level tooBig out same includeNew out' prefix nodes n t :
  l <> [] -> Forall (index_range tc) (l ++ [r]) ->
  quad_picksplit tc (l ++ [r]) level = Ok out -> checkAllTheSame out tooBig = (same, includeNew, out') ->
  form_inner same out' (length l) = SpgInner same prefix nodes ->
  (forall k, co_nodeN (choose tc same prefix r) = Some k -> k = Z.of_nat n) -> nodes !! n = Some t ->
  (length (entries t) < length l)%nat \/
  (same = true /\ length l = 1%nat /\ length nodes = 8%nat /\ n = 0%nat /\
   forall m u, nodes !! m = Some u -> m <> 0%nat -> entries u = []).
Proof.
  intros Hne Hall Hps Hsame Hform Hch Hnode.
  pose proof (picksplit_spec tc (l ++ [r]) level Hall) as Hspec. rewrite Hps in Hspec.
  destruct (checkAllTheSame_spec _ _ _ _ _ Hsame) as (Epre & Edat & Elen & _ & Hnodes).
  destruct out as [pre nN mp dt]. cbn [po_prefix po_leafTupleDatums po_mapTuplesToNodes po_nNodes] in *.
  destruct Hspec as [-> Hpre].
  assert (Hmp : map Some mp = map (fun x => co_nodeN (choose_node tc x pre)) (l ++ [r])).
  { destruct pre as [c|]; destruct Hpre as (_ & _ & ->); by rewrite map_map. }
  pose proof (f_equal length Hmp) as Hlm. rewrite !length_map, length_app in Hlm. cbn [length] in Hlm.
  assert (Hl1 : (1 <= length l)%nat) by (destruct l; [done|cbn; lia]).
  unfold form_inner in Hform. injection Hform as <- <-. rewrite list_lookup_fmap in Hnode.
  apply fmap_Some in Hnode as (z & Hz & ->). apply lookup_seqZ in Hz as [-> Hzn]. cbn [entries]. rewrite Z.add_0_l.
  unfold node_tuples. rewrite Edat. destruct same.
  - pose proof (same_assignment _ _ _ _ 0 Hsame ltac:(cbn; lia)) as Ha0.
    pose proof (same_assignment _ _ _ _ 1 Hsame ltac:(cbn; lia)) as Ha1. cbn in Ha0, Ha1.
    destruct (decide (n = 0%nat)) as [->|Hn].
    + destruct (decide (length l = 1%nat)) as [E1|E1]; [|left; apply (taken_shrinks _ _ _ _ 1 1); rewrite ?length_app; cbn; lia || done].
      right. destruct (Hnodes eq_refl) as [En _]. rewrite length_map, length_seqZ, En. split_and!; try done.
      intros m u Hm Hm0. rewrite list_lookup_fmap in Hm. apply fmap_Some in Hm as (z & Hz & ->).
      apply lookup_seqZ in Hz as [-> _]. cbn [entries]. destruct l as [|a [|? ?]]; [done| |done].
      destruct (po_mapTuplesToNodes out') as [|y ys]; [done|]. injection Ha0 as ->.
      change (Z.of_nat 0 mod 8) with 0. cbn [length app zip_with take List.filter fst].
      by destruct (Z.eqb_spec 0 (0 + Z.of_nat m)); [lia|].
    + left. apply (taken_shrinks _ _ _ _ 0 0); rewrite ?length_app; cbn; lia || done.
  - left. assert (Hlast : exists k mp0, mp = mp0 ++ [k] /\ length mp0 = length l).
    { destruct (rev mp) as [|k rm] eqn:Er; [apply (f_equal length) in Er; rewrite length_rev in Er; cbn in Er; lia|].
      exists k, (rev rm). rewrite <- (rev_involutive mp), Er. cbn. split; [done|].
      apply (f_equal length) in Er. rewrite length_rev in Er. cbn in Er. rewrite length_rev. lia. }
    destruct Hlast as (k & mp0 & -> & Hl0).
    rewrite length_app in Hlm. cbn [length] in Hlm.
    assert (Hlen2 : (2 <= length (mp0 ++ [k]))%nat) by (rewrite length_app; cbn [length]; lia).
    destruct (told_apart (mkPickSplitOut pre nN (mp0 ++ [k]) (l ++ [r])) _ _ _ mp0 k Hlen2 Hsame eq_refl)
      as (-> & i & x & Hi & Hx).
    cbn [po_mapTuplesToNodes po_prefix] in *.
    rewrite !map_app in Hmp. apply app_inj_2 in Hmp as [_ Hk]; [|done]. injection Hk as Hk.
    specialize (Hch k). unfold choose in Hch. rewrite <- Hk in Hch. specialize (Hch eq_refl).
    pose proof (lookup_lt_Some _ _ _ Hi).
    apply (taken_shrinks _ _ _ _ x i); rewrite ?length_app; cbn [length]; try lia.
    rewrite lookup_app_l by done. done.
Qed.

(** C13: in every index that insertions build from an empty one, whatever the
    sizes of pages and the random choices, the ranges are where the operator
    class expects them and nothing is lost; a further range can always be
    inserted: choose never selects a node that does not exist.  Whenever a set
    of leaf tuples has to be split and the new tuple goes on from the new inner
    tuple, whichever node it may go to, that node holds fewer of the old
    tuples than were split, so that an insertion does not split the same set
    over and over; the only exception is a single old tuple that could not be
    told apart from the new one, which is alone in the first of eight nodes,
    the others being empty. *)
Theorem spg_index_progress `{Toast} `{Sorter} (tc : TypeCacheEntry) (Hs : RangeSubtype tc) (Hc : RangeCanonical tc)
    (Hst : StableBounds tc) (Hu : UniqueBounds tc) (Ht : TightBounds tc) t l r :
  spg_index tc (index_range tc) t l -> index_range tc r ->
  placed tc 0 (fun _ => True) None t /\ Permutation (entries t) l /\
  (exists t', spg_insert tc 0 r t t' /\ spg_index tc (index_range tc) t' (r :: l)) /\
  (forall tuples level tooBig out same includeNew out' prefix nodes n node,
     tuples <> [] -> Forall (index_range tc) tuples ->
     quad_picksplit tc (tuples ++ [r]) level = Ok out -> checkAllTheSame out tooBig = (same, includeNew, out') ->
     form_inner same out' (length tuples) = SpgInner same prefix nodes ->
     (forall k, co_nodeN (choose tc same prefix r) = Some k -> k = Z.of_nat n) -> nodes !! n = Some node ->
     (length (entries node) < length tuples)%nat \/
     (same = true /\ length tuples = 1%nat /\ length nodes = 8%nat /\ n = 0%nat /\
      forall m other, nodes !! m = Some other -> m <> 0%nat -> entries other = [])).
Proof.
  intros Hix Hr. destruct (index_placed tc t l Hix) as [Hp Hperm]. split_and!; [done|done| |].
  - destruct (insert_possible tc 0 _ _ t Hp r ltac:(lia) Hr I) as [t' Ht']. exists t'. split; [done|].
    by apply (index_insert tc _ t l r t').
  - intros tuples level tooBig out same includeNew out' prefix nodes n node Hne Hall.
    apply (resplit_shrinks tc _ _ _ _ _ tuples r level tooBig out same includeNew out'); [done|].
    apply Forall_app. split; [done|by constructor].
Qed.

(** The index with [[1,10)] and [[5,20)], whose root was split. *)
Lemma demo_index : spg_index int4range (index_range int4range) demo_tree [r_5_20; r_1_10].
Proof.
  apply (index_insert int4range _ (SpgLeaf [r_1_10]) [r_1_10]).
  - apply (index_insert int4range _ (SpgLeaf []) []); [constructor|by apply key_index_range, r_1_10_key|].
    exact (ins_leaf int4range 0 r_1_10 []).
  - by apply key_index_range, r_5_20_key.
  - exact (ins_split int4range 0 r_5_20 [r_1_10] false demo_out false demo_out demo_picksplit demo_separated).
Qed.

Definition demo_nodes : list spg_tree := match form_inner false demo_out 1 with SpgInner _ _ nodes => nodes | _ => [] end.

(** [[3,4)] can be inserted; and when [[1,10)] has to be split to insert
    [[5,20)], the node for the latter holds fewer than one tuple. *)
Lemma spg_index_progress_witness :
  (exists t', spg_insert int4range 0 r_3_4 demo_tree t') /\
  exists n node, co_nodeN (choose int4range false (po_prefix demo_out) r_5_20) = Some (Z.of_nat n) /\
    demo_nodes !! n = Some node /\ (length (entries node) < 1)%nat.
Proof.
  destruct (spg_index_progress int4range _ _ _ _ _ demo_tree _ r_3_4 demo_index (key_index_range _ r_3_4_key))
    as (_ & _ & (t' & Ht' & _) & _).
  split; [exists t'; exact Ht'|].
  destruct (spg_index_progress int4range _ _ _ _ _ demo_tree _ r_5_20 demo_index (key_index_range _ r_5_20_key))
    as (_ & _ & _ & Hsplit).
  set (k := co_nodeN (choose int4range false (po_prefix demo_out) r_5_20)).
  assert (Ek : match k with Some z => (0 <=? z) && (z <? Z.of_nat (length demo_nodes)) | None => false end = true)
    by (vm_compute; reflexivity).
  destruct k as [z|] eqn:Ez; [|discriminate Ek]. apply andb_true_iff in Ek as [E1 E2]. apply Z.leb_le in E1. apply Z.ltb_lt in E2.
  destruct (lookup_lt_is_Some_2 demo_nodes (Z.to_nat z) ltac:(lia)) as [node Hnode].
  exists (Z.to_nat z), node. rewrite Z2Nat.id by exact E1. split; [reflexivity|]. split; [exact Hnode|].
  destruct (Hsplit [r_1_10] 0 false demo_out false true demo_out (po_prefix demo_out) demo_nodes (Z.to_nat z) node) as [Hlt|[E _]].
  - discriminate.
  - constructor; [exact (key_index_range _ r_1_10_key)|constructor].
  - exact demo_picksplit.
  - exact demo_separated.
  - reflexivity.
  - intros k' Hk. unfold k in Ez. rewrite Ez in Hk. injection Hk as <-. rewrite Z2Nat.id by exact E1. reflexivity.
  - exact Hnode.
  - exact Hlt.
  - discriminate E.
Defined.

(** C11: a search of such an index with any scan keys returns exactly the ranges
    inserted that satisfy all keys, each as often as it was inserted: pruning
    quadrants, and for adjacency also by the previous centroid, loses no match.
    It fails only if the range type's canonical function does (adjacency
    builds a range), or for lack of memory. *)
Theorem spg_index_search `{Toast} `{Sorter} (tc : TypeCacheEntry) (Hs : RangeSubtype tc) (Hc : RangeCanonical tc)
    (Hst : StableBounds tc) (Hu : UniqueBounds tc) (Ht : TightBounds tc) t l keys :
  spg_index tc (index_range tc) t l -> Forall (key_ok tc) keys ->
  match spg_scan tc keys None t with
  | Ok rs => Permutation rs (List.filter (leaf_match tc keys) l)
  | Err e => make_failure tc e
  end.
Proof. intros Hix Hk. exact (index_scan tc t l keys Hix Hk). Qed.

Definition demo_keys : list ScanKey := [mkScanKey RANGESTRAT_ADJACENT (QRange (int4_stored_range 10 11))].

Lemma demo_keys_ok : Forall (key_ok int4range) demo_keys.
Proof.
  constructor; [|constructor]. split; [set_solver|]. apply key_index_range. int4_gist_key 10 11.
Qed.

(** [[1,10)] is adjacent to [[10,11)], [[5,20)] is not. *)
Lemma spg_index_search_witness :
  match spg_scan int4range demo_keys None demo_tree with
  | Ok rs => rs = [r_1_10] /\ Permutation rs (List.filter (leaf_match int4range demo_keys) [r_5_20; r_1_10])
  | Err e => False
  end.
Proof.
  pose proof (spg_index_search int4range _ _ _ _ _ demo_tree _ demo_keys demo_index demo_keys_ok) as Hsearch.
  assert (E : spg_scan int4range demo_keys None demo_tree = Ok [r_1_10]) by (vm_compute; reflexivity).
  rewrite E in *. split; [reflexivity|exact Hsearch].
Defined.
