(* ===== verification/GistChoose.v ===== *)
(** * The choice of a subtree of a GiST page

    gistchoose and gistpenalty (gistutil.c), for an index on one range column
    without NULLs.  The outcomes of random() are a parameter: [coin k] is
    whether the [k]-th call of the choice is at most half of its maximum. *)

From Stdlib Require Import SpecFloat.
From S2P Require Import Prelude Sorting Floats Varlena RangeTypes RangeOrder RangeOps RangeStore Hashfn RangeCanon.
From S2P Require Import RangeParse RangeFmgr RangeGist.

Section Choose.
Context `{Toast} (tc : TypeCacheEntry).

(** Negative and NaN penalties count as zero. *)
Definition gistpenalty (orig add : RangeType) : result float4 :=
  penalty ← range_gist_penalty_internal tc orig add;
  if isnan penalty || flt penalty f8_zero then Ok (f4_of_Z 0) else Ok penalty.

(** The variables of the loop; [calls] counts the calls of random(). *)
Record choice : Type := mkChoice {
  ch_result : Z;
  ch_best_penalty : float4;
  ch_keep_current_best : Z;
  ch_calls : nat
}.

Variable (coin : nat -> bool).

(** [keep_current_best = (random() <= ...) ? 1 : 0], unless it is decided. *)
Definition decide_keep (c : choice) : choice :=
  if ch_keep_current_best c =? -1 then
    mkChoice (ch_result c) (ch_best_penalty c) (if coin (ch_calls c) then 1 else 0) (S (ch_calls c))
  else c.

(** The only column: the new state, whether the loop over the columns was
    completed, and whether the penalty is zero. *)
Definition choose_column (i : Z) (usize : float4) (c : choice) : choice * bool * bool :=
  let zero_penalty := negb (fgt usize (f4_of_Z 0)) in
  if flt (ch_best_penalty c) (f4_of_Z 0) || flt usize (ch_best_penalty c) then
    (mkChoice i usize (-1) (ch_calls c), true, zero_penalty)
  else if feq (ch_best_penalty c) usize then (c, true, zero_penalty)
  else (c, false, false).

(** A tuple exactly as good as the best one. *)
Definition choose_tie (i : Z) (c : choice) : choice :=
  let c := decide_keep c in
  if ch_keep_current_best c =? 0 then mkChoice i (ch_best_penalty c) (-1) (ch_calls c) else c.

Fixpoint choose_loop (it : RangeType) (i : Z) (page : list RangeType) (c : choice) : result choice :=
  match page with
  | [] => Ok c
  | itup :: page' =>
      usize ← gistpenalty itup it;
      let '(c, completed, zero_penalty) := choose_column i usize c in
      let c := if completed && negb (ch_result c =? i) then choose_tie i c else c in
      if zero_penalty then
        let c := decide_keep c in
        if ch_keep_current_best c =? 1 then Ok c else choose_loop it (i + 1) page' c
      else choose_loop it (i + 1) page' c
  end.

Definition gistchoose (page : list RangeType) (it : RangeType) : result Z :=
  c ← choose_loop it 1 page (mkChoice 1 (f4_of_Z (-1)) (-1) 0);
  Ok (ch_result c).

End Choose.

(** ** The choice is minimal *)

Section Minimal.
Context `{Toast} (tc : TypeCacheEntry) (coin : nat -> bool) (it : RangeType).

Lemma gistpenalty_nonneg orig u : gistpenalty tc orig it = Ok u -> fle (f4_of_Z 0) u = true.
Proof.
  unfold gistpenalty. intros (p & _ & Hp)%bind_Ok.
  destruct (isnan p) eqn:En; cbn [orb] in Hp; [by injection Hp as <-|].
  destruct (flt p f8_zero) eqn:El; injection Hp as <-; [done|]. by apply (flt_fle_total _ f8_zero).
Qed.

Lemma gistpenalty_error orig e : gistpenalty tc orig it = Err e -> subdiff_failure tc e.
Proof.
  unfold gistpenalty. destruct (range_gist_penalty_internal tc orig it) as [p|e'] eqn:E; cbn; [by case_match|].
  intros [= <-]. by apply gist_penalty_error in E.
Qed.

(** The tuple's penalty, when there is one, is at least [p]. *)
Definition penalty_ge (p : float4) (o : RangeType) : Prop :=
  forall q, gistpenalty tc o it = Ok q -> fle p q = true.

(** The state after the tuples [seen]: the chosen tuple has the best penalty,
    and no tuple has a lower one. *)
Definition best_of (seen : list RangeType) (c : choice) : Prop :=
  exists orig p, 1 <= ch_result c /\ seen !! Z.to_nat (ch_result c - 1) = Some orig /\
    gistpenalty tc orig it = Ok p /\ fle p (ch_best_penalty c) = true /\
    Forall (penalty_ge (ch_best_penalty c)) seen.

Lemma decide_keep_same c : ch_result (decide_keep coin c) = ch_result c /\ ch_best_penalty (decide_keep coin c) = ch_best_penalty c.
Proof. unfold decide_keep. by destruct (_ =? -1). Qed.

Lemma best_of_same seen c c' :
  ch_result c' = ch_result c -> ch_best_penalty c' = ch_best_penalty c -> best_of seen c -> best_of seen c'.
Proof. unfold best_of. by intros -> ->. Qed.

Lemma best_of_new seen itup u k n :
  gistpenalty tc itup it = Ok u -> Forall (penalty_ge u) seen ->
  best_of (seen ++ [itup]) (mkChoice (Z.of_nat (length seen) + 1) u k n).
Proof.
  intros Eu Hall. pose proof (fle_not_nan _ _ (gistpenalty_nonneg itup u Eu)) as [_ Hn].
  exists itup, u. cbn [ch_result ch_best_penalty]. split_and!; [lia| |done|by apply fle_refl|].
  - replace (Z.to_nat _) with (length seen) by lia. by apply list_lookup_middle.
  - apply Forall_app. split; [done|]. constructor; [|constructor]. intros q Eq. rewrite Eu in Eq. injection Eq as <-.
    by apply fle_refl.
Qed.

(** One tuple: the state stays the best one, and a zero penalty is the best. *)
Lemma choose_column_best seen itup u c c' completed zero :
  seen = [] /\ ch_best_penalty c = f4_of_Z (-1) \/ best_of seen c ->
  gistpenalty tc itup it = Ok u ->
  choose_column (Z.of_nat (length seen) + 1) u c = (c', completed, zero) ->
  let c'' := if completed && negb (ch_result c' =? Z.of_nat (length seen) + 1)
             then choose_tie coin (Z.of_nat (length seen) + 1) c' else c' in
  best_of (seen ++ [itup]) c'' /\ (zero = true -> fle (ch_best_penalty c'') (f4_of_Z 0) = true).
Proof.
  intros Hinv Eu. pose proof (gistpenalty_nonneg itup u Eu) as Hu.
  destruct (fle_not_nan _ _ Hu) as [_ Hn].
  assert (Hz : fgt u (f4_of_Z 0) = false -> fle u (f4_of_Z 0) = true) by (intros; by apply flt_fle_total).
  assert (Hb : seen <> [] \/ flt (ch_best_penalty c) (f4_of_Z 0) = false -> best_of seen c).
  { destruct Hinv as [[-> ->]|]; [|done]. intros [?|E]; [done|]. vm_compute in E. discriminate E. }
  unfold choose_column. destruct (flt (ch_best_penalty c) (f4_of_Z 0) || flt u (ch_best_penalty c)) eqn:Enew.
  - intros [= <- <- <-]. cbn [ch_result andb]. rewrite Z.eqb_refl. cbn [negb ch_best_penalty]. split.
    + apply best_of_new; [done|]. destruct Hinv as [[-> _]|(orig & p & _ & _ & Ep & Ho & Hall)]; [constructor|].
      eapply Forall_impl; [exact Hall|]. intros o Hle q Eq. specialize (Hle q Eq). apply orb_true_iff in Enew as [E|E].
      * exfalso. pose proof (fle_trans _ _ _ (gistpenalty_nonneg orig p Ep) Ho) as H0. by rewrite (flt_irrefl_le _ _ H0) in E.
      * by apply (fle_trans _ (ch_best_penalty c)); [apply flt_le|].
    + intros Ezero. apply negb_true_iff in Ezero. by apply Hz.
  - apply orb_false_iff in Enew as [E1 E2]. destruct (Hb (or_intror E1)) as (orig & p & H1 & Hl & Ep0 & Ho & Hall).
    destruct (fle_not_nan _ _ Ho) as [_ Hbn].
    assert (Hle : fle (ch_best_penalty c) u = true) by (by apply flt_fle_total).
    assert (Hold : best_of (seen ++ [itup]) c).
    { exists orig, p. split_and!; [done|by apply lookup_app_l_Some|done..|]. apply Forall_app. split; [done|].
      constructor; [|constructor]. intros q Eq. rewrite Eu in Eq. by injection Eq as <-. }
    destruct (feq (ch_best_penalty c) u) eqn:Eq; intros [= <- <- <-]; cbn [andb negb]; [|by split].
    assert (Hge : fle u (ch_best_penalty c) = true).
    { apply flt_fle_total; [done..|]. revert Eq. unfold feq, flt, SFeqb, SFltb. by destruct (SFcompare _ _) as [[]|]. }
    split.
    + destruct (negb _); [|done]. unfold choose_tie. destruct (decide_keep_same c) as [Er Ep].
      destruct (ch_keep_current_best _ =? 0); [|by eapply best_of_same].
      destruct Hold as (_ & _ & _ & _ & _ & _ & Hall'). exists itup, u. cbn [ch_result ch_best_penalty]. rewrite Ep. split_and!; [lia| |done..].
      replace (Z.to_nat _) with (length seen) by lia. by apply list_lookup_middle.
    + intros Ezero. apply negb_true_iff in Ezero. apply Hz in Ezero. apply (fle_trans _ u); [|done].
      destruct (negb _); [|done]. unfold choose_tie. destruct (decide_keep_same c) as [Er Ep].
      destruct (ch_keep_current_best _ =? 0); cbn [ch_best_penalty]; by rewrite ?Ep.
Qed.

(** A choice that is at least as good as every tuple of the page. *)
Definition minimal (page : list RangeType) (result : Z) : Prop :=
  exists orig p, 1 <= result /\ page !! Z.to_nat (result - 1) = Some orig /\
    gistpenalty tc orig it = Ok p /\ Forall (penalty_ge p) page.

Lemma best_of_minimal seen rest c :
  best_of seen c -> (rest = [] \/ fle (ch_best_penalty c) (f4_of_Z 0) = true) -> minimal (seen ++ rest) (ch_result c).
Proof.
  intros (orig & p & H1 & Hl & Ep & Ho & Hall) Hrest. exists orig, p. split_and!; [done|by apply lookup_app_l_Some|done|].
  apply Forall_app. split; [eapply Forall_impl; [exact Hall|]; intros o Hq q Eq; exact (fle_trans _ _ _ Ho (Hq q Eq))|].
  destruct Hrest as [->|Hz]; [constructor|]. apply List.Forall_forall. intros o _ q Eq.
  exact (fle_trans _ _ _ Ho (fle_trans _ _ _ Hz (gistpenalty_nonneg o q Eq))).
Qed.

Lemma choose_loop_minimal page seen c :
  seen = [] /\ page <> [] /\ ch_best_penalty c = f4_of_Z (-1) \/ best_of seen c ->
  match choose_loop tc coin it (Z.of_nat (length seen) + 1) page c with
  | Ok c' => minimal (seen ++ page) (ch_result c')
  | Err e => subdiff_failure tc e
  end.
Proof.
  revert seen c. induction page as [|itup page IH]; intros seen c Hinv; cbn [choose_loop].
  { destruct Hinv as [(_ & ? & _)|Hb]; [done|]. by apply best_of_minimal; [|left]. }
  destruct (gistpenalty tc itup it) as [u|e] eqn:Eu; cbn [mbind result_bind]; [|by apply gistpenalty_error in Eu].
  destruct (choose_column _ _ c) as [[c' completed] zero] eqn:Ec.
  assert (Hinv' : seen = [] /\ ch_best_penalty c = f4_of_Z (-1) \/ best_of seen c)
    by (destruct Hinv as [(? & _ & ?)|]; [by left|by right]).
  destruct (choose_column_best seen itup u c c' completed zero Hinv' Eu Ec) as [Hbest Hzero].
  set (c'' := if completed && _ then _ else c') in *.
  assert (Hnext : forall d, best_of (seen ++ [itup]) d ->
    match choose_loop tc coin it (Z.of_nat (length seen) + 1 + 1) page d with
    | Ok c' => minimal (seen ++ itup :: page) (ch_result c')
    | Err e => subdiff_failure tc e
    end).
  { intros d Hd. specialize (IH (seen ++ [itup]) d (or_intror Hd)). rewrite <- app_assoc, length_app in IH. cbn [app length] in IH.
    by replace (Z.of_nat (length seen) + 1 + 1) with (Z.of_nat (length seen + 1) + 1) by lia. }
  destruct zero; [|by apply Hnext]. destruct (decide_keep_same c'') as [Er Ep].
  destruct (ch_keep_current_best _ =? 1); [|by apply Hnext; eapply best_of_same].
  rewrite Er. change (itup :: page) with ([itup] ++ page). rewrite app_assoc.
  apply best_of_minimal; [done|right; by apply Hzero].
Qed.

End Minimal.
