(* ===== verification/RangeGistTree.v ===== *)
(** * A GiST index on ranges

    The parts of the GiST access method (src/backend/access/gist) that compose
    the support functions of the operator class, for an index on one column
    without NULLs: union keys, adjusting the key of a downlink, page splits,
    and the tree that insertions build with them.  Pages, buffers, WAL and
    concurrency are left out; [fitpage] is what decides whether tuples fit on
    a page, and an insertion may descend into any subtree (the choice of the
    code is in GistChoose.v). *)

From S2P Require Import Prelude Sorting Floats Varlena RangeTypes RangeOrder RangeOps RangeStore Hashfn RangeCanon.
From S2P Require Import RangeParse RangeFmgr RangeGist RangeGistSplit RangeGistKeys RangeGistSearch RangeGistPart.
From S2P Require Import RangeSpgist.

Section Gist.
Context `{Toast} `{Sorter} (tc : TypeCacheEntry).

(** ** Keys *)

(** The union function on two keys; [None] is NULL. *)
Definition gistMakeUnionKey (entry1 entry2 : option RangeType) : result (option RangeType) :=
  match entry1, entry2 with
  | None, None => Ok None
  | Some e1, Some e2 => dst ← union_loop tc e1 [e2]; Ok (Some dst)
  | Some e1, None => dst ← union_loop tc e1 [e1]; Ok (Some dst)
  | None, Some e2 => dst ← union_loop tc e2 [e2]; Ok (Some dst)
  end.

(** The equality function is [range_gist_same]. *)
Definition gistKeyIsEQ (a b : RangeType) : result bool :=
  if negb (range_get_flags a =? range_get_flags b) then Ok false else range_eq_internal tc a b.

(** The new key of a downlink, [None] when it need not change. *)
Definition gistgetadjusted (oldtup addtup : option RangeType) : result (option RangeType) :=
  attr ← gistMakeUnionKey oldtup addtup;
  match attr, addtup with
  | Some a, Some _ =>
      neednew ← (match oldtup with None => Ok true | Some o => eq ← gistKeyIsEQ o a; Ok (negb eq) end);
      Ok (if (neednew : bool) then Some a else None)
  | _, _ => Ok None
  end.

(** ** Page splits *)

(** The first half of the entries goes to the left. *)
Definition genericPickSplit (entryvec : list RangeType) : result GIST_SPLITVEC :=
  let maxoff := Z.of_nat (length entryvec) in
  let nleft := Z.to_nat (maxoff / 2) in
  let union ents := match ents with [] => undefined "empty entry vector" | e :: ents' => union_loop tc e ents' end in
  ldatum ← union (take nleft entryvec);
  rdatum ← union (drop nleft entryvec);
  Ok (mkSplit (seqZ 1 (maxoff / 2)) (Some ldatum) (seqZ (maxoff / 2 + 1) (maxoff - maxoff / 2)) (Some rdatum)).

(** Offsets are never [InvalidOffsetNumber], so the hack for old picksplit
    functions has no effect; with one column there is no secondary split. *)
Definition gistUserPicksplit (entryvec : list RangeType) : result GIST_SPLITVEC :=
  sv ← picksplit tc entryvec;
  if (length (spl_left sv) =? 0)%nat || (length (spl_right sv) =? 0)%nat then genericPickSplit entryvec
  else Ok sv.

Section Split.
Context {A : Type} (key : A -> RangeType) (fitpage : list A -> bool).

(** [itup[off - 1]] for each offset. *)
Fixpoint tuples_at (itup : list A) (offs : list Z) : result (list A) :=
  match offs with
  | [] => Ok []
  | off :: offs' => t ← array_get itup (off - 1); ts ← tuples_at itup offs'; Ok (t :: ts)
  end.

Definition union_datum (datum : option RangeType) : result RangeType :=
  match datum with Some d => Ok d | None => undefined "no union key" end.

(** The pages and their downlink keys. *)
Fixpoint gistSplit (fuel : nat) (itup : list A) : result (list (RangeType * list A)) :=
  match fuel with
  | O => undefined "out of fuel"
  | S fuel' =>
      if (length itup =? 1)%nat then ereport ERRCODE_PROGRAM_LIMIT_EXCEEDED "index row size exceeds maximum"
      else
        v ← gistUserPicksplit (map key itup);
        lvectup ← tuples_at itup (spl_left v);
        rvectup ← tuples_at itup (spl_right v);
        rres ← (if negb (fitpage rvectup) then gistSplit fuel' rvectup
                else d ← union_datum (spl_rdatum v); Ok [(d, rvectup)]);
        lres ← (if negb (fitpage lvectup) then gistSplit fuel' lvectup
                else d ← union_datum (spl_ldatum v); Ok [(d, lvectup)]);
        Ok (lres ++ rres)
  end.

End Split.

(** ** The tree *)

Inductive gist_tree : Type :=
| GistLeaf (tuples : list RangeType)
| GistInner (items : list (RangeType * gist_tree)).

Fixpoint gist_tuples (t : gist_tree) : list RangeType :=
  match t with
  | GistLeaf tuples => tuples
  | GistInner items => concat (map (fun item => gist_tuples (snd item)) items)
  end.

(** What becomes of a page: it keeps its place, or it was split and its
    downlink is replaced by those of the parts. *)
Inductive page_result : Type :=
| Fits (t : gist_tree)
| Splits (parts : list (RangeType * gist_tree)).

Definition downlinks (key : RangeType) (res : page_result) : list (RangeType * gist_tree) :=
  match res with Fits t => [(key, t)] | Splits parts => parts end.

(** The way of an insertion of [r] below a page.  Keys are adjusted on the way
    down, which can already split a page; then the insertion starts over, with
    flag [false]. *)
Inductive gist_insert (r : RangeType) : bool -> gist_tree -> page_result -> Prop :=
| gi_restart t : gist_insert r false t (Fits t)
| gi_leaf l : gist_insert r true (GistLeaf l) (Fits (GistLeaf (l ++ [r])))
| gi_leaf_split fitpage l parts :
    gistSplit id fitpage (S (length l)) (l ++ [r]) = Ok parts ->
    gist_insert r true (GistLeaf l) (Splits (map (fun p => (fst p, GistLeaf (snd p))) parts))
| gi_inner inserted items i k t adj res :
    items !! i = Some (k, t) -> gistgetadjusted (Some k) (Some r) = Ok adj -> gist_insert r inserted t res ->
    gist_insert r inserted (GistInner items)
      (Fits (GistInner (take i items ++ downlinks (default k adj) res ++ drop (S i) items)))
| gi_inner_split inserted items i k t adj res fitpage fuel parts :
    items !! i = Some (k, t) -> gistgetadjusted (Some k) (Some r) = Ok adj -> gist_insert r inserted t res ->
    gistSplit fst fitpage fuel (take i items ++ downlinks (default k adj) res ++ drop (S i) items) = Ok parts ->
    gist_insert r inserted (GistInner items) (Splits (map (fun p => (fst p, GistInner (snd p))) parts)).

(** A root split puts the downlinks of the parts on a new root. *)
Definition new_root (res : page_result) : gist_tree :=
  match res with Fits t => t | Splits parts => GistInner parts end.

Inductive gist_index (ok : RangeType -> Prop) : gist_tree -> list RangeType -> Prop :=
| gist_index_empty : gist_index ok (GistLeaf []) []
| gist_index_insert t l r inserted res :
    gist_index ok t l -> ok r -> gist_insert r inserted t res ->
    gist_index ok (new_root res) (if inserted : bool then r :: l else l).

(** ** Search *)

(** gistindex_keytest on a page. *)
Fixpoint keytest (is_leaf : bool) (scankeys : list ScanKey) (key : RangeType) : result bool :=
  match scankeys with
  | [] => Ok true
  | k :: keys =>
      test ← (if is_leaf then range_gist_consistent_leaf tc (sk_strategy k) key (sk_argument k)
              else range_gist_consistent_int tc (sk_strategy k) key (sk_argument k));
      if negb test then Ok false else keytest is_leaf keys key
  end.

Fixpoint scan_leaf (scankeys : list ScanKey) (tuples : list RangeType) : result (list RangeType) :=
  match tuples with
  | [] => Ok []
  | r :: tuples' =>
      match_ ← keytest true scankeys r;
      found ← scan_leaf scankeys tuples';
      Ok (if (match_ : bool) then r :: found else found)
  end.

Definition scan_items (scankeys : list ScanKey) (scan : gist_tree -> result (list RangeType))
  : list (RangeType * gist_tree) -> result (list RangeType) :=
  fix go items :=
    match items with
    | [] => Ok []
    | item :: items' =>
        match_ ← keytest false scankeys (fst item);
        found ← (if (match_ : bool) then scan (snd item) else Ok []);
        more ← go items';
        Ok (found ++ more)
    end.

Fixpoint gist_scan (scankeys : list ScanKey) (t : gist_tree) : result (list RangeType) :=
  match t with
  | GistLeaf tuples => scan_leaf scankeys tuples
  | GistInner items => scan_items scankeys (gist_scan scankeys) items
  end.

End Gist.

(** ** What splits guarantee *)

Definition row_too_big : PgError := mkError ERRCODE_PROGRAM_LIMIT_EXCEEDED "index row size exceeds maximum".

Lemma offsets_seqZ i ents : offsets i ents = seqZ i (Z.of_nat (length ents)).
Proof.
  revert i. induction ents as [|e ents IH]; intros i; [done|]. cbn [offsets length].
  rewrite IH, (seqZ_cons i) by lia. f_equal. f_equal; lia.
Qed.

Section Offsets.
Context {A : Type}.

Definition at_offset (itup : list A) (off : Z) : option A := itup !! Z.to_nat (off - 1).

Lemma tuples_at_omap (itup : list A) offs ts : tuples_at itup offs = Ok ts -> ts = omap (at_offset itup) offs.
Proof.
  revert ts. induction offs as [|off offs IH]; intros ts; cbn [tuples_at omap list_omap]; [by intros [= <-]|].
  intros (t & Ht & (ts' & Hts & [= <-])%bind_Ok)%bind_Ok. unfold array_get in Ht.
  destruct (off - 1 <? 0); [done|]. unfold at_offset at 1. destruct (itup !! Z.to_nat (off - 1)) as [t'|]; [|done].
  injection Ht as ->. f_equal. by apply IH.
Qed.

Lemma omap_all (itup : list A) : omap (at_offset itup) (seqZ 1 (Z.of_nat (length itup))) = itup.
Proof.
  assert (Hgen : forall pre l, itup = pre ++ l ->
    omap (at_offset itup) (seqZ (1 + Z.of_nat (length pre)) (Z.of_nat (length l))) = l).
  { intros pre l. revert pre. induction l as [|x l IH]; intros pre E; [done|].
    cbn [length]. rewrite seqZ_cons by lia. cbn [omap list_omap].
    assert (Hx : at_offset itup (1 + Z.of_nat (length pre)) = Some x).
    { unfold at_offset. replace (Z.to_nat (1 + Z.of_nat (length pre) - 1)) with (length pre) by lia. subst itup.
      by apply list_lookup_middle. }
    rewrite Hx. f_equal. specialize (IH (pre ++ [x])). rewrite <- app_assoc in IH. specialize (IH E).
    rewrite length_app in IH. cbn [length] in IH. rewrite <- IH at 2. f_equal. f_equal; lia. }
  exact (Hgen [] itup eq_refl).
Qed.

Lemma tuples_at_total (itup : list A) offs :
  Forall (fun off => 1 <= off <= Z.of_nat (length itup)) offs -> is_Ok (tuples_at itup offs).
Proof.
  induction 1 as [|off offs Ho Hall IH]; [by eexists|]. destruct IH as [ts Hts]. cbn [tuples_at].
  destruct (lookup_lt_is_Some_2 itup (Z.to_nat (off - 1)) ltac:(lia)) as [t Ht].
  rewrite (array_get_lookup itup (off - 1) t ltac:(lia) Ht). cbn [mbind result_bind]. rewrite Hts. by eexists.
Qed.

End Offsets.

Section SplitOk.
Context `{Toast} `{Sorter} (tc : TypeCacheEntry) `{!RangeSubtype tc} `{!RangeCanonical tc} `{!StableBounds tc}.

(** What a split vector guarantees: a partition of the page into two groups
    with an entry each and union keys that cover them. *)
Definition split_ok (entryvec : list RangeType) (v : GIST_SPLITVEC) : Prop :=
  Permutation (spl_left v ++ spl_right v) (offsets 1 entryvec) /\
  group_ok tc entryvec (spl_left v) (spl_ldatum v) /\ group_ok tc entryvec (spl_right v) (spl_rdatum v) /\
  spl_left v <> [] /\ spl_right v <> [].

(** A union key, for the entries at consecutive offsets. *)
Lemma union_group entryvec (k n : nat) d :
  (k + n <= length entryvec)%nat -> gist_key tc d -> Forall (covers tc d) (take n (drop k entryvec)) ->
  group_ok tc entryvec (seqZ (Z.of_nat k + 1) (Z.of_nat n)) (Some d).
Proof.
  intros Hlen Hd Hc. split; [done|]. apply List.Forall_forall. intros off Ho. apply list_elem_of_In, elem_of_seqZ in Ho.
  unfold entry_at. destruct (lookup_lt_is_Some_2 entryvec (Z.to_nat (off - 1)) ltac:(lia)) as [r Hr]. rewrite Hr.
  exists r. split; [done|]. rewrite List.Forall_forall in Hc.
  apply Hc, list_elem_of_In, (list_elem_of_lookup_2 _ (Z.to_nat (off - 1 - Z.of_nat k))).
  rewrite lookup_take_lt, lookup_drop by lia. rewrite <- Hr. f_equal. lia.
Qed.

Lemma genericPickSplit_ok entryvec :
  (2 <= length entryvec)%nat -> Forall (gist_key tc) entryvec ->
  match genericPickSplit tc entryvec with Ok v => split_ok entryvec v | Err e => make_failure tc e end.
Proof.
  intros Hlen Hk. unfold genericPickSplit. cbv zeta. set (n := Z.of_nat (length entryvec)). set (nl := Z.to_nat (n / 2)).
  assert (Hnl : (1 <= nl < length entryvec)%nat) by (unfold nl, n; zlia).
  assert (Hunion : forall l, l <> [] -> Forall (gist_key tc) l ->
    match (match l with [] => undefined "empty entry vector" | e :: ents => union_loop tc e ents end) with
    | Ok d => gist_key tc d /\ Forall (covers tc d) l
    | Err e => make_failure tc e
    end).
  { intros [|e ents] Hne Hl; [done|]. apply Forall_cons in Hl as [He Hents].
    pose proof (union_loop_key tc ents e He Hents) as Hu. destruct (union_loop tc e ents); [|done].
    destruct Hu as (? & ? & ?). split; [done|by constructor]. }
  pose proof (Hunion (take nl entryvec)) as H1. pose proof (Hunion (drop nl entryvec)) as H2.
  assert (Hd : length (drop nl entryvec) = (length entryvec - nl)%nat) by apply length_drop.
  assert (Htk : length (take nl entryvec) = nl) by (rewrite length_take; lia).
  destruct (match take nl entryvec with [] => _ | _ => _ end) as [d1|e1]; cbn [mbind result_bind].
  2: { apply H1; [intros E; rewrite E in Htk; cbn in Htk; lia|by apply Forall_take]. }
  destruct (match drop nl entryvec with [] => _ | _ => _ end) as [d2|e2]; cbn [mbind result_bind].
  2: { apply H2; [intros E; rewrite E in Hd; cbn in Hd; lia|by apply Forall_drop]. }
  destruct H1 as [K1 C1]; [intros E; rewrite E in Htk; cbn in Htk; lia|by apply Forall_take|].
  destruct H2 as [K2 C2]; [intros E; rewrite E in Hd; cbn in Hd; lia|by apply Forall_drop|].
  assert (En : n / 2 = Z.of_nat nl) by (unfold nl; rewrite Z2Nat.id; [done|apply Z.div_pos; unfold n; lia]).
  unfold split_ok. cbn [spl_left spl_right spl_ldatum spl_rdatum]. rewrite En. split_and!.
  - rewrite offsets_seqZ, (Z.add_comm (Z.of_nat nl) 1). rewrite <- seqZ_app by (unfold n; lia). by rewrite Zplus_minus.
  - apply (union_group entryvec 0 nl d1); [lia|done|by rewrite drop_0].
  - replace (n - Z.of_nat nl) with (Z.of_nat (length entryvec - nl)) by (unfold n; lia).
    apply (union_group entryvec nl (length entryvec - nl) d2); [lia|done|]. by rewrite take_ge by lia.
  - intros E. apply (f_equal length) in E. rewrite length_seqZ in E. cbn in E. lia.
  - intros E. apply (f_equal length) in E. rewrite length_seqZ in E. cbn in E. unfold n in E. lia.
Qed.

Lemma gistUserPicksplit_ok entryvec :
  (2 <= length entryvec)%nat -> Forall (gist_key tc) entryvec ->
  match gistUserPicksplit tc entryvec with Ok v => split_ok entryvec v | Err e => picksplit_failure tc e end.
Proof.
  intros Hlen Hk. unfold gistUserPicksplit. assert (Hne : entryvec <> []) by (intros ->; cbn in Hlen; lia).
  pose proof (picksplit_ok tc entryvec Hk Hne) as Hp. unfold splits_to in Hp.
  destruct (picksplit tc entryvec) as [v|e]; cbn [mbind result_bind]; [|done].
  pose proof (genericPickSplit_ok entryvec Hlen Hk) as Hgen.
  assert (Hg : match genericPickSplit tc entryvec with Ok v => split_ok entryvec v | Err e => picksplit_failure tc e end)
    by (destruct (genericPickSplit tc entryvec); [done|by left]).
  destruct (Nat.eqb_spec (length (spl_left v)) 0); cbn [orb]; [done|].
  destruct (Nat.eqb_spec (length (spl_right v)) 0); [done|].
  destruct Hp as (? & ? & ?). split_and!; try done; by intros E; rewrite E in *.
Qed.

(** ** gistSplit *)

Section Pages.
Context {A : Type} (key : A -> RangeType) (fitpage : list A -> bool).

(** A page of tuples and the key of its downlink. *)
Definition page_ok (p : RangeType * list A) : Prop :=
  gist_key tc (fst p) /\ Forall (fun t => covers tc (fst p) (key t)) (snd p).

Lemma group_page itup offs datum ts d :
  group_ok tc (map key itup) offs datum -> tuples_at itup offs = Ok ts -> union_datum datum = Ok d -> page_ok (d, ts).
Proof.
  intros Hg Hts Hd. destruct datum as [d'|]; [|done]. injection Hd as ->. destruct Hg as [Hk Hc]. split; [done|]. cbn [fst snd].
  apply tuples_at_omap in Hts as ->. apply List.Forall_forall. intros t Ht. apply list_elem_of_In, list_elem_of_omap in Ht as (off & Ho & Ht).
  rewrite List.Forall_forall in Hc. destruct (Hc off (proj1 (list_elem_of_In _ _) Ho)) as (r & Hr & Hcov).
  unfold entry_at in Hr. unfold at_offset in Ht. rewrite list_lookup_fmap, Ht in Hr. cbn in Hr. by injection Hr as <-.
Qed.

(** The two sides of a split, as tuples. *)
Lemma split_sides itup v :
  split_ok (map key itup) v ->
  exists l r, tuples_at itup (spl_left v) = Ok l /\ tuples_at itup (spl_right v) = Ok r /\ Permutation (l ++ r) itup /\
    (0 < length l < length itup)%nat /\ (0 < length r < length itup)%nat.
Proof.
  intros (Hp & _ & _ & Hl & Hr). rewrite offsets_seqZ, length_map in Hp.
  assert (Hall : Forall (fun off => 1 <= off <= Z.of_nat (length itup)) (spl_left v ++ spl_right v)).
  { rewrite Hp. apply List.Forall_forall. intros off Ho. apply list_elem_of_In, elem_of_seqZ in Ho. lia. }
  apply Forall_app in Hall as [Al Ar]. destruct (tuples_at_total itup _ Al) as [l El], (tuples_at_total itup _ Ar) as [r Er].
  exists l, r. pose proof (tuples_at_omap _ _ _ El) as Ol. pose proof (tuples_at_omap _ _ _ Er) as Or.
  assert (Hperm : Permutation (l ++ r) itup).
  { subst l r. rewrite <- omap_app, Hp. by rewrite omap_all. }
  assert (Hlen : forall offs ts, tuples_at itup offs = Ok ts -> length ts = length offs).
  { clear. induction offs as [|o offs IH]; intros ts; cbn [tuples_at]; [by intros [= <-]|].
    intros (t & _ & (ts' & Hts & [= <-])%bind_Ok)%bind_Ok. cbn. f_equal. by apply IH. }
  pose proof (Permutation_length Hperm) as HL. rewrite length_app in HL.
  pose proof (Hlen _ _ El). pose proof (Hlen _ _ Er).
  destruct (spl_left v); [done|]. destruct (spl_right v); [done|]. cbn in *. split_and!; try done; lia.
Qed.

(** What the pages of a split guarantee. *)
Definition pages_ok (itup : list A) (parts : list (RangeType * list A)) : Prop :=
  Permutation (concat (map snd parts)) itup /\ Forall page_ok parts /\
  Forall (fun p => fitpage (snd p) = true /\ snd p <> []) parts.

(** How a split can fail: building a key or the [subtype_diff] function
    fails, or a tuple fits on no page. *)
Definition split_failure (itup : list A) (e : PgError) : Prop :=
  picksplit_failure tc e \/ e = row_too_big /\ exists t, In t itup /\ (itup = [t] \/ fitpage [t] = false).

(** One side of a split: it is split again, or it is a page. *)
Lemma side_pages fuel itup side offs datum :
  (forall itup, itup <> [] -> Forall (fun t => gist_key tc (key t)) itup ->
     match gistSplit tc key fitpage fuel itup with
     | Ok parts => pages_ok itup parts
     | Err e => (length itup <= fuel)%nat -> split_failure itup e
     end) ->
  tuples_at itup offs = Ok side -> group_ok tc (map key itup) offs datum ->
  Forall (fun t => gist_key tc (key t)) side -> (0 < length side < length itup)%nat -> (forall t, In t side -> In t itup) ->
  match (if negb (fitpage side) then gistSplit tc key fitpage fuel side else d ← union_datum datum; Ok [(d, side)]) with
  | Ok parts => pages_ok side parts
  | Err e => (length itup <= S fuel)%nat -> split_failure itup e
  end.
Proof.
  intros IH Hts Hg Hks Hls Hsub. assert (Hse : side <> []) by (intros ->; cbn in Hls; lia).
  destruct (fitpage side) eqn:Ef; cbn [negb].
  - destruct (union_datum datum) as [d|e] eqn:Ed; cbn [mbind result_bind].
    + split_and!; [cbn; by rewrite app_nil_r| |by constructor]. constructor; [by eapply group_page|constructor].
    + exfalso. destruct datum; [done|]. cbn in Hg. subst offs. cbn in Hts. by injection Hts as <-.
  - specialize (IH side Hse Hks). destruct (gistSplit tc key fitpage fuel side); [done|]. intros Hf.
    destruct IH as [|(-> & t & Ht & Hbig)]; [lia|by left|]. right. split; [done|]. exists t. split; [by apply Hsub|].
    right. by destruct Hbig as [->|].
Qed.

Lemma gistSplit_ok fuel itup :
  itup <> [] -> Forall (fun t => gist_key tc (key t)) itup ->
  match gistSplit tc key fitpage fuel itup with
  | Ok parts => pages_ok itup parts
  | Err e => (length itup <= fuel)%nat -> split_failure itup e
  end.
Proof.
  revert itup. induction fuel as [|fuel IH]; intros itup Hne Hk; cbn [gistSplit].
  { intros Hl. by destruct itup; cbn in Hl; [|lia]. }
  destruct (Nat.eqb_spec (length itup) 1) as [Hl1|Hl1].
  { intros _. right. split; [done|]. destruct itup as [|t [|? ?]]; [done| |done]. exists t. split; [by left|by left]. }
  assert (Hl2 : (2 <= length (map key itup))%nat) by (rewrite length_map; destruct itup as [|? [|? ?]]; cbn in *; (done || lia)).
  pose proof (gistUserPicksplit_ok (map key itup) Hl2) as Hu.
  assert (Hk' : Forall (gist_key tc) (map key itup)) by (by apply Forall_map). specialize (Hu Hk').
  destruct (gistUserPicksplit tc (map key itup)) as [v|e]; cbn [mbind result_bind]; [|by left].
  destruct (split_sides itup v Hu) as (l & r & El & Er & Hperm & Hll & Hlr). destruct Hu as (_ & Gl & Gr & _).
  rewrite El, Er. cbn [mbind result_bind].
  assert (Hkl : Forall (fun t => gist_key tc (key t)) l /\ Forall (fun t => gist_key tc (key t)) r).
  { apply Forall_app. by rewrite Hperm. }
  pose proof (side_pages fuel itup r _ _ IH Er Gr (proj2 Hkl) Hlr) as Hr.
  pose proof (side_pages fuel itup l _ _ IH El Gl (proj1 Hkl) Hll) as Hl.
  assert (Hsub : forall t, In t l \/ In t r -> In t itup) by (intros t; rewrite <- in_app_iff; by rewrite Hperm).
  specialize (Hr ltac:(auto)). specialize (Hl ltac:(auto)).
  destruct (if negb (fitpage r) then _ else _) as [rres|e]; cbn [mbind result_bind]; [|done].
  destruct (if negb (fitpage l) then _ else _) as [lres|e]; cbn [mbind result_bind]; [|done].
  destruct Hr as (Pr & Or & Fr), Hl as (Pl & Ol & Fl). split_and!; [|by apply Forall_app..].
  by rewrite map_app, concat_app, Pl, Pr.
Qed.

End Pages.

(** ** The invariant of the tree *)

Lemma gistKeyIsEQ_covers a b r :
  gist_key tc a -> gist_key tc b -> gistKeyIsEQ tc a b = Ok true -> covers tc b r -> covers tc a r.
Proof.
  intros Ha Hb Heq [Hp He]. destruct (gist_key_view tc a Ha) as (Wa & _), (gist_key_view tc b Hb) as (Wb & _).
  unfold gistKeyIsEQ in Heq. destruct (Z.eqb_spec (range_get_flags a) (range_get_flags b)) as [Ef|]; [|done]. cbn [negb] in Heq.
  destruct (eq_pts tc a b Wa Wb) as (x & E & Hpts). rewrite Heq in E. injection E as <-. destruct Hpts as [Hpts _].
  specialize (Hpts eq_refl). split; [intros p Hr; by apply Hpts, Hp|]. unfold RangeIsOrContainsEmpty in *. by rewrite Ef.
Qed.

(** The adjusted key covers what the old one covered and the new tuple. *)
Lemma gistgetadjusted_ok k r adj :
  gist_key tc k -> gist_key tc r -> gistgetadjusted tc (Some k) (Some r) = Ok adj ->
  gist_key tc (default k adj) /\ covers tc (default k adj) r /\ forall x, covers tc k x -> covers tc (default k adj) x.
Proof.
  intros Hk Hr Ha. unfold gistgetadjusted, gistMakeUnionKey in Ha.
  pose proof (union_loop_key tc [r] k Hk ltac:(by constructor)) as Hu.
  apply bind_Ok in Ha as (attr' & (attr & Eu & [= <-])%bind_Ok & Ha). rewrite Eu in Hu. destruct Hu as (Hat & Hck & Hcr). apply Forall_cons in Hcr as [Hcr _].
  apply bind_Ok in Ha as (neednew & (eq & Eeq & [= <-])%bind_Ok & [= <-]). destruct eq; cbn [negb default].
  - split; [done|]. split; [|done]. by apply (gistKeyIsEQ_covers k attr).
  - split; [done|]. split; [done|]. intros x Hx. by apply (covers_trans tc attr k).
Qed.

Definition item_ok (item : RangeType * gist_tree) : Prop :=
  gist_key tc (fst item) /\ forall r, In r (gist_tuples (snd item)) -> covers tc (fst item) r.

Inductive covered : gist_tree -> Prop :=
| covered_leaf l : Forall (gist_key tc) l -> covered (GistLeaf l)
| covered_inner items :
    Forall item_ok items -> (forall item, In item items -> covered (snd item)) -> covered (GistInner items).

Definition items_covered (items : list (RangeType * gist_tree)) : Prop :=
  Forall item_ok items /\ forall item, In item items -> covered (snd item).

Definition item_tuples (items : list (RangeType * gist_tree)) : list RangeType :=
  concat (map (fun item => gist_tuples (snd item)) items).

(** The outcome for a page: its tuples, and [r] when it was inserted. *)
Definition result_ok (res : page_result) (tuples : list RangeType) : Prop :=
  match res with
  | Fits t => covered t /\ Permutation (gist_tuples t) tuples
  | Splits parts => items_covered parts /\ Permutation (item_tuples parts) tuples
  end.

Lemma covered_tuples t : covered t -> Forall (gist_key tc) (gist_tuples t).
Proof.
  induction 1 as [l Hl|items Hi Hc IH]; cbn [gist_tuples]; [done|]. apply List.Forall_forall. intros r Hr.
  apply in_concat in Hr as (l & Hl & Hr). apply in_map_iff in Hl as (item & <- & Hitem).
  specialize (IH item Hitem). rewrite List.Forall_forall in IH. by apply IH.
Qed.

Lemma items_covered_perm items items' : Permutation items items' -> items_covered items -> items_covered items'.
Proof.
  intros Hp [Hi Hc]. split; [by rewrite <- Hp|]. intros item Hin. apply Hc. by rewrite Hp.
Qed.

Lemma items_covered_app items items' : items_covered (items ++ items') <-> items_covered items /\ items_covered items'.
Proof.
  unfold items_covered. rewrite Forall_app. setoid_rewrite in_app_iff. naive_solver.
Qed.

(** A split of the tuples of a leaf page. *)
Lemma leaf_parts_ok parts :
  Forall (page_ok id) parts -> (forall p, In p parts -> Forall (gist_key tc) (snd p)) ->
  items_covered (map (fun p => (fst p, GistLeaf (snd p))) parts).
Proof.
  intros Hp Hk. split.
  - apply Forall_map. apply List.Forall_forall. intros p Hin. rewrite List.Forall_forall in Hp. destruct (Hp p Hin) as [? Hc].
    split; [done|]. cbn. by rewrite List.Forall_forall in Hc.
  - intros item Hin. apply in_map_iff in Hin as (p & <- & Hin). constructor. by apply Hk.
Qed.

(** A split of the downlinks of an inner page. *)
Lemma inner_parts_ok items parts :
  items_covered items -> Forall (page_ok fst) parts -> Permutation (concat (map snd parts)) items ->
  items_covered (map (fun p => (fst p, GistInner (snd p))) parts).
Proof.
  intros [Hi Hc] Hp Hperm. rewrite List.Forall_forall in Hi, Hp.
  assert (Hin : forall p item, In p parts -> In item (snd p) -> In item items).
  { intros p item Hpi Hit. rewrite <- Hperm. apply in_concat. exists (snd p). split; [by apply in_map|done]. }
  split.
  - apply Forall_map, List.Forall_forall. intros p Hpi. destruct (Hp p Hpi) as [Hk Hcov]. split; [done|]. cbn [fst snd].
    intros r Hr. cbn [gist_tuples] in Hr. apply in_concat in Hr as (l & Hl & Hr). apply in_map_iff in Hl as (item & <- & Hit).
    rewrite List.Forall_forall in Hcov. apply (covers_trans tc _ (fst item)); [by apply Hcov|].
    by apply (Hi item (Hin p item Hpi Hit)).
  - intros it Hit. apply in_map_iff in Hit as (p & <- & Hpi). constructor.
    + apply List.Forall_forall. intros item Hit. by apply Hi, (Hin p).
    + intros item Hit. by apply Hc, (Hin p).
Qed.

Lemma item_tuples_app items items' : item_tuples (items ++ items') = item_tuples items ++ item_tuples items'.
Proof. unfold item_tuples. by rewrite map_app, concat_app. Qed.

Lemma item_tuples_perm items items' : Permutation items items' -> Permutation (item_tuples items) (item_tuples items').
Proof.
  induction 1 as [|x l l' Hp IH|x y l|]; [done| | |by etransitivity]; unfold item_tuples in *; cbn.
  - by rewrite IH.
  - by rewrite !app_assoc, (Permutation_app_comm (gist_tuples _)).
Qed.

Lemma leaf_parts_tuples parts :
  item_tuples (map (fun p : RangeType * list RangeType => (fst p, GistLeaf (snd p))) parts) = concat (map snd parts).
Proof. unfold item_tuples. by rewrite map_map. Qed.

Lemma inner_parts_tuples parts :
  item_tuples (map (fun p => (fst p, GistInner (snd p))) parts) = item_tuples (concat (map snd parts)).
Proof.
  induction parts as [|p parts IH]; [done|]. cbn [map concat]. rewrite item_tuples_app, <- IH. done.
Qed.

Lemma items_keys items : items_covered items -> Forall (fun item => gist_key tc (fst item)) items.
Proof. intros [Hi _]. eapply Forall_impl; [exact Hi|]. by intros item []. Qed.

(** The items of an inner page after an insertion below it. *)
Lemma replace_ok items i k t adj res r tuples :
  items !! i = Some (k, t) -> gistgetadjusted tc (Some k) (Some r) = Ok adj -> gist_key tc r -> items_covered items ->
  result_ok res tuples -> (forall x, In x tuples -> x = r \/ In x (gist_tuples t)) ->
  items_covered (take i items ++ downlinks (default k adj) res ++ drop (S i) items) /\
  Permutation (item_tuples (take i items ++ downlinks (default k adj) res ++ drop (S i) items))
    (tuples ++ item_tuples (take i items ++ drop (S i) items)).
Proof.
  intros Hi Hadj Hr Hc Hres Hsub.
  assert (Hsplit : items = take i items ++ (k, t) :: drop (S i) items) by (symmetry; by apply take_drop_middle).
  pose proof Hc as Hc'. rewrite Hsplit in Hc'. apply items_covered_app in Hc' as [C1 C2].
  change ((k, t) :: drop (S i) items) with ([(k, t)] ++ drop (S i) items) in C2. apply items_covered_app in C2 as [[C2 _] C3].
  apply Forall_cons in C2 as [[Hk Hkt] _]. cbn [fst snd] in Hk, Hkt.
  destruct (gistgetadjusted_ok k r adj Hk Hr Hadj) as (Hk' & Hcr & Hmono).
  assert (Hd : items_covered (downlinks (default k adj) res) /\ Permutation (item_tuples (downlinks (default k adj) res)) tuples).
  { destruct res as [t'|parts]; cbn [downlinks]; [|done]. destruct Hres as [Ht' Hperm]. split.
    - split.
      + constructor; [|constructor]. split; [done|]. cbn [snd fst]. intros x Hx. rewrite Hperm in Hx.
        destruct (Hsub x Hx) as [->|Hxt]; [done|]. by apply Hmono, Hkt.
      + by intros item [<-|[]].
    - unfold item_tuples. cbn. by rewrite app_nil_r. }
  destruct Hd as [Hd Hdt]. split.
  - rewrite !items_covered_app. done.
  - rewrite !item_tuples_app, Hdt, !app_assoc. apply Permutation_app_tail, Permutation_app_comm.
Qed.

(** The tuples below an inner page after an insertion below it. *)
Lemma replace_result items i k t adj res r (inserted : bool) :
  items !! i = Some (k, t) -> gistgetadjusted tc (Some k) (Some r) = Ok adj -> gist_key tc r -> items_covered items ->
  result_ok res (if inserted then r :: gist_tuples t else gist_tuples t) ->
  let items' := take i items ++ downlinks (default k adj) res ++ drop (S i) items in
  items_covered items' /\
  Permutation (item_tuples items') (if inserted then r :: item_tuples items else item_tuples items).
Proof.
  intros Hi Hadj Hr Hc Hres items'.
  destruct (replace_ok items i k t adj res r _ Hi Hadj Hr Hc Hres) as [Hok Hperm].
  { intros x. destruct inserted; [|by right]. intros [<-|Hx]; [by left|by right]. }
  split; [done|]. unfold items'. rewrite Hperm, item_tuples_app.
  assert (Hmid : Permutation (gist_tuples t ++ item_tuples (take i items) ++ item_tuples (drop (S i) items))
                   (item_tuples items)).
  { rewrite <- (take_drop_middle items i (k, t) Hi) at 3. rewrite item_tuples_app, !app_assoc, (Permutation_app_comm (gist_tuples t)), <- app_assoc. done. }
  destruct inserted; [|done]. cbn [app]. by rewrite Hmid.
Qed.

Lemma gist_insert_ok r inserted t res :
  gist_insert tc r inserted t res -> gist_key tc r -> covered t ->
  result_ok res (if inserted then r :: gist_tuples t else gist_tuples t).
Proof.
  intros Hins Hr. induction Hins as [t|l|fitpage l parts Hs|inserted items i k t adj res Hi Hadj Hins IH|
      inserted items i k t adj res fitpage fuel parts Hi Hadj Hins IH Hs]; intros Hc.
  - by split.
  - inversion Hc; subst. split; [|apply Permutation_sym, Permutation_cons_append].
    constructor. apply Forall_app. split; [done|by constructor].
  - inversion Hc as [? Hl|]; subst.
    assert (Hk : Forall (gist_key tc) (l ++ [r])) by (apply Forall_app; split; [done|by constructor]).
    pose proof (gistSplit_ok id fitpage (S (length l)) (l ++ [r]) ltac:(by destruct l) Hk) as Hok. rewrite Hs in Hok.
    destruct Hok as (Hperm & Hpages & _). split; [|rewrite leaf_parts_tuples, Hperm; apply Permutation_sym, Permutation_cons_append].
    apply leaf_parts_ok; [done|]. intros p Hp. rewrite <- Hperm in Hk. apply List.Forall_forall. intros x Hx.
    rewrite List.Forall_forall in Hk. apply Hk, in_concat. exists (snd p). split; [by apply in_map|done].
  - inversion Hc as [|? H1 H2]; subst. pose proof (conj H1 H2 : items_covered items) as Hci.
    specialize (IH (H2 _ (proj1 (list_elem_of_In _ _) (list_elem_of_lookup_2 _ _ _ Hi)))).
    destruct (replace_result items i k t adj res r inserted Hi Hadj Hr Hci IH) as [[Hk Hcc] Hperm]. split; [|exact Hperm].
    by constructor.
  - inversion Hc as [|? H1 H2]; subst. pose proof (conj H1 H2 : items_covered items) as Hci.
    specialize (IH (H2 _ (proj1 (list_elem_of_In _ _) (list_elem_of_lookup_2 _ _ _ Hi)))).
    destruct (replace_result items i k t adj res r inserted Hi Hadj Hr Hci IH) as [Hok Hperm].
    set (items' := take i items ++ _) in *.
    assert (Hne : items' <> []) by (intros E; rewrite E in Hs; by destruct fuel).
    pose proof (gistSplit_ok fst fitpage fuel items' Hne (items_keys _ Hok)) as Hsp. rewrite Hs in Hsp. destruct Hsp as (Hpp & Hpages & _).
    split; [by eapply inner_parts_ok|]. rewrite inner_parts_tuples, (item_tuples_perm _ _ Hpp). exact Hperm.
Qed.

End SplitOk.
