(* ===== verification/RangeGistTreeTheorems.v ===== *)
(** * Properties of a GiST index on ranges

    The search of a tree that insertions built, and the claims about the
    index. *)

From S2P Require Import Prelude Sorting Floats Varlena RangeTypes RangeOrder RangeOps RangeStore Hashfn RangeCanon.
From S2P Require Import RangeParse RangeFmgr RangeTheorems QSort RangeGist RangeGistSplit RangeGistKeys RangeGistSearch.
From S2P Require Import RangeGistPart RangeGistTheorems RangeSpgist RangeSpgistSearch RangeSpgistTree GistChoose RangeGistTree.

#[local] Existing Instance plain_toast.

Section Search.
Context `{Toast} `{Sorter} (tc : TypeCacheEntry) `{!RangeSubtype tc} `{!RangeCanonical tc} `{!StableBounds tc} `{!TightBounds tc}.

Lemma gist_index_range r : gist_key tc r -> index_range tc r.
Proof.
  intros Hk. destruct (gist_key_view tc r Hk) as (Hwf & lo & up & e & Hd & _ & _ & _ & _ & _ & Hs).
  split; [done|]. rewrite Hd. intros E. by destruct (Hs E) as (_ & _ & _ & ? & ?).
Qed.

(** Leaf tuples are tested as those of an SP-GiST index. *)
Lemma keytest_leaf keys r : keytest tc true keys r = leaf_keys tc r keys.
Proof. induction keys as [|k keys IH]; [done|]. cbn [keytest leaf_keys]. by rewrite IH. Qed.

Lemma scan_leaf_scan keys l : scan_leaf tc keys l = leaf_scan tc keys l.
Proof.
  induction l as [|r l IH]; [done|]. cbn [scan_leaf leaf_scan]. rewrite keytest_leaf, IH.
  by destruct (leaf_keys tc r keys) as [[]|].
Qed.

(** An internal key covering a match is accepted, and any error is one of
    building a range. *)
Lemma consistent_int_failure key r : key_ok tc key -> index_range tc r ->
  Ok_or_failure tc (fun _ => True) (range_gist_consistent_int tc (sk_strategy key) r (sk_argument key)).
Proof.
  intros Hk [Hr _]. destruct key as [s [q|v]]; cbn in Hk; unfold range_gist_consistent_int; cbn [sk_strategy sk_argument].
  - destruct Hk as [Hs [Hq _]].
    destruct (overright_pts tc r q Hr Hq) as (b1 & E1 & _), (before_pts tc q r Hq Hr) as (b2 & E2 & _),
      (overlaps_pts tc r q Hr Hq) as (b3 & E3 & _), (before_pts tc r q Hr Hq) as (b4 & E4 & _),
      (overleft_pts tc r q Hr Hq) as (b5 & E5 & _), (contains_pts tc r q Hr Hq) as (b7 & E7 & _).
    strategies Hs; switch; rewrite ?(after_before tc) by done; rewrite ?E1, ?E2, ?E3, ?E4, ?E5, ?E7;
      try (by destruct (_ || _)); try (by destruct (RangeIsOrContainsEmpty _)); try done; [|by destruct (RangeIsEmpty q)].
    destruct (RangeIsEmpty r || RangeIsEmpty q); [done|].
    destruct (range_adjacent_internal tc r q) as [[]|e] eqn:E; cbn; [done..|by apply (adjacent_error tc r q)].
  - subst s. done.
Qed.

Lemma keytest_int_failure keys r :
  Forall (key_ok tc) keys -> index_range tc r -> Ok_or_failure tc (fun _ => True) (keytest tc false keys r).
Proof.
  intros Hk Hr. induction Hk as [|k keys Hkey Hk IH]; [done|]. cbn [keytest].
  pose proof (consistent_int_failure k r Hkey Hr) as Hf.
  destruct (range_gist_consistent_int _ _ _ _) as [[]|e]; cbn in *; done.
Qed.

(** A downlink that is not followed leads to no match. *)
Lemma keytest_complete keys key r :
  Forall (key_ok tc) keys -> index_range tc key -> index_range tc r -> covers tc key r ->
  leaf_keys tc r keys = Ok true -> keytest tc false keys key = Ok false -> False.
Proof.
  intros Hk Hkey [Hr _] Hc. induction Hk as [|k keys Hok Hk IH]; [done|]. cbn [keytest leaf_keys].
  unfold leaf_key. destruct (range_gist_consistent_leaf tc (sk_strategy k) r (sk_argument k)) as [[]|e] eqn:El; cbn; [|done..].
  assert (Hq : query_ok tc (sk_argument k)) by (unfold key_ok in Hok; destruct (sk_argument k); cbn; [apply Hok|done]).
  pose proof (consistent_complete tc (sk_strategy k) key r (sk_argument k) (proj1 Hkey) Hr Hq Hc El) as Ht.
  destruct (range_gist_consistent_int tc (sk_strategy k) key (sk_argument k)) as [b|e]; cbn in *; [|done]. by subst b.
Qed.

Lemma scan_items_spec keys items :
  Forall (key_ok tc) keys -> items_covered tc items ->
  (forall item, In item items ->
     Ok_or_failure tc (fun rs => rs = List.filter (leaf_match tc keys) (gist_tuples (snd item))) (gist_scan tc keys (snd item))) ->
  Ok_or_failure tc (fun rs => rs = List.filter (leaf_match tc keys) (item_tuples items)) (scan_items tc keys (gist_scan tc keys) items).
Proof.
  intros Hk. induction items as [|item items IH]; intros Hc Hscan; [done|].
  change (item :: items) with ([item] ++ items) in Hc. apply items_covered_app in Hc as [[Hitem Hsub] Hc].
  apply Forall_cons in Hitem as [[Hkey Hcov] _]. specialize (Hsub item (or_introl eq_refl)).
  specialize (IH Hc (fun x Hx => Hscan x (or_intror Hx))). specialize (Hscan item (or_introl eq_refl)).
  change (item_tuples (item :: items)) with (gist_tuples (snd item) ++ item_tuples items). rewrite List.filter_app.
  cbn [scan_items]. fold (scan_items tc keys (gist_scan tc keys)).
  pose proof (keytest_int_failure keys (fst item) Hk (gist_index_range _ Hkey)) as Hf.
  destruct (keytest tc false keys (fst item)) as [[]|e] eqn:Et; cbn [mbind result_bind Ok_or_failure] in *; [| |done].
  - destruct (gist_scan tc keys (snd item)) as [rs|e]; cbn [mbind result_bind Ok_or_failure] in *; [|done].
    destruct (scan_items _ _ _ _) as [rs'|e]; cbn in *; [by subst|done].
  - destruct (scan_items _ _ _ _) as [rs'|e]; cbn in *; [|done]. subst rs'.
    rewrite (no_match_filter tc keys (gist_tuples (snd item))); [reflexivity|]. intros r Hr Hm. pose proof (covered_tuples tc _ Hsub) as Hall.
    rewrite List.Forall_forall in Hall. apply (keytest_complete keys (fst item) r Hk); auto using gist_index_range.
Qed.

Lemma gist_scan_ok keys t :
  Forall (key_ok tc) keys -> covered tc t ->
  Ok_or_failure tc (fun rs => rs = List.filter (leaf_match tc keys) (gist_tuples t)) (gist_scan tc keys t).
Proof.
  intros Hk Hc. induction Hc as [l Hl|items Hi Hc IH]; cbn [gist_scan].
  - rewrite scan_leaf_scan. apply (leaf_scan_spec tc keys Hk). rewrite List.Forall_forall in Hl. intros r Hr. by apply gist_index_range, Hl.
  - by apply scan_items_spec.
Qed.

Lemma gist_index_ok t l : gist_index tc (gist_key tc) t l -> covered tc t /\ Permutation (gist_tuples t) l.
Proof.
  induction 1 as [|t l r inserted res Hix [Hc Hp] Hr Hins]; [by split; [constructor|]|].
  pose proof (gist_insert_ok tc r inserted t res Hins Hr Hc) as Hok.
  assert (Hl : Permutation (if inserted then r :: gist_tuples t else gist_tuples t) (if inserted then r :: l else l))
    by (destruct inserted; by rewrite Hp).
  destruct res as [t'|parts]; destruct Hok as [Ht' Hp']; cbn [new_root]; rewrite <- Hl; [done|].
  split; [|done]. destruct Ht'. by constructor.
Qed.

End Search.

(** ** The choice of a subtree *)

(** Whatever the outcomes of random(), [gistchoose] selects an entry of the
    page whose penalty for the new key is the lowest of the page: neither the
    choice among equally good entries nor leaving the loop at an entry with
    zero penalty gives up a better one.  It fails only as the [subtype_diff]
    function can. *)
Theorem gistchoose_minimal `{Toast} (tc : TypeCacheEntry) coin page it :
  page <> [] ->
  match gistchoose tc coin page it with
  | Ok n => exists orig p, 1 <= n /\ page !! Z.to_nat (n - 1) = Some orig /\ gistpenalty tc orig it = Ok p /\
      Forall (fun o => forall q, gistpenalty tc o it = Ok q -> fle p q = true) page
  | Err e => subdiff_failure tc e
  end.
Proof.
  intros Hne. pose proof (choose_loop_minimal tc coin it page [] (mkChoice 1 (f4_of_Z (-1)) (-1) 0)) as Hm.
  unfold gistchoose. cbn [length app] in Hm. change (Z.of_nat 0 + 1) with 1 in Hm.
  destruct (choose_loop tc coin it 1 page _); cbn [mbind result_bind]; apply Hm; by left.
Qed.

(** [[3,4)] goes below [[1,10)]. *)
Lemma gistchoose_minimal_witness :
  gistchoose int4range (fun _ => true) [r_5_20; r_1_10] r_3_4 = Ok 2 /\
  exists p, gistpenalty int4range r_1_10 r_3_4 = Ok p /\
    Forall (fun o => forall q, gistpenalty int4range o r_3_4 = Ok q -> fle p q = true) [r_5_20; r_1_10].
Proof.
  assert (E : gistchoose int4range (fun _ => true) [r_5_20; r_1_10] r_3_4 = Ok 2) by (vm_compute; reflexivity).
  pose proof (gistchoose_minimal int4range (fun _ => true) [r_5_20; r_1_10] r_3_4 ltac:(discriminate)) as Hm.
  rewrite E in Hm. destruct Hm as (orig & p & _ & Ho & Hp & Hall). injection Ho as <-.
  split; [exact E|]. exists p. split; [exact Hp|exact Hall].
Defined.

(** ** Page splits *)

(** C14: the split of a page ends, with as much fuel as it has tuples, although
    the picksplit function may put all entries on one side and a side that is
    still too big is split again.  Every tuple is on exactly one of the new
    pages; each page fits, is not empty and its downlink key covers its tuples.
    It fails only when a key cannot be built, when the type's [subtype_diff]
    function raises an error, or when some tuple fits on no page. *)
Theorem gistSplit_pages `{Toast} `{Sorter} (tc : TypeCacheEntry) (Hs : RangeSubtype tc) (Hc : RangeCanonical tc)
    (Hst : StableBounds tc) A (key : A -> RangeType) (fitpage : list A -> bool) (itup : list A) :
  itup <> [] -> Forall (fun t => gist_key tc (key t)) itup ->
  match gistSplit tc key fitpage (length itup) itup with
  | Ok parts =>
      Permutation (concat (map snd parts)) itup /\
      Forall (fun p => gist_key tc (fst p) /\ Forall (fun t => covers tc (fst p) (key t)) (snd p)) parts /\
      Forall (fun p => fitpage (snd p) = true /\ snd p <> []) parts
  | Err e => make_failure tc e \/ subdiff_failure tc e \/
      e = row_too_big /\ exists t, In t itup /\ (itup = [t] \/ fitpage [t] = false)
  end.
Proof.
  intros Hne Hk. pose proof (gistSplit_ok tc key fitpage (length itup) itup Hne Hk) as Hok.
  destruct (gistSplit tc key fitpage (length itup) itup); [exact Hok|]. apply or_assoc. by apply Hok.
Qed.

(** A page that holds one tuple only. *)
Definition page_of_one (l : list RangeType) : bool := (length l <=? 1)%nat.

Definition demo_page : list RangeType := [r_1_10; r_5_20; r_3_4].

Lemma demo_page_keys : Forall (fun t => gist_key int4range (id t)) demo_page.
Proof. repeat constructor; [exact r_1_10_key|exact r_5_20_key|exact r_3_4_key]. Qed.

Lemma gistSplit_pages_witness :
  match gistSplit int4range id page_of_one 3 demo_page with
  | Ok parts => length parts = 3%nat /\ Permutation (concat (map snd parts)) demo_page
  | Err e => False
  end.
Proof.
  pose proof (gistSplit_pages int4range _ _ _ RangeType id page_of_one demo_page ltac:(discriminate) demo_page_keys) as Hok.
  change (length demo_page) with 3%nat in Hok.
  assert (E : match gistSplit int4range id page_of_one 3 demo_page with Ok parts => (length parts =? 3)%nat | Err _ => false end = true)
    by (vm_compute; reflexivity).
  destruct (gistSplit int4range id page_of_one 3 demo_page) as [parts|e]; [|discriminate E].
  split; [by apply Nat.eqb_eq|exact (proj1 Hok)].
Defined.

(** ** The index *)

(** An index whose root was split by the second insertion. *)
Definition demo_parts : list (RangeType * list RangeType) :=
  match gistSplit int4range id page_of_one 2 [r_1_10; r_5_20] with Ok parts => parts | Err _ => [] end.

Definition demo_gist : gist_tree := GistInner (map (fun p => (fst p, GistLeaf (snd p))) demo_parts).

Lemma demo_gist_split : gistSplit int4range id page_of_one 2 [r_1_10; r_5_20] = Ok demo_parts.
Proof.
  unfold demo_parts. destruct (gistSplit int4range id page_of_one 2 [r_1_10; r_5_20]) as [parts|e] eqn:E; [done|].
  assert (Hok : match gistSplit int4range id page_of_one 2 [r_1_10; r_5_20] with Ok _ => true | Err _ => false end = true)
    by (vm_compute; reflexivity).
  by rewrite E in Hok.
Qed.

Lemma demo_gist_index : gist_index int4range (gist_key int4range) demo_gist [r_5_20; r_1_10].
Proof.
  apply (gist_index_insert int4range _ (GistLeaf [r_1_10]) [r_1_10] r_5_20 true
           (Splits (map (fun p => (fst p, GistLeaf (snd p))) demo_parts))).
  - apply (gist_index_insert int4range _ (GistLeaf []) [] r_1_10 true (Fits (GistLeaf [r_1_10]))); [constructor|exact r_1_10_key|].
    exact (gi_leaf int4range r_1_10 []).
  - exact r_5_20_key.
  - exact (gi_leaf_split int4range r_5_20 page_of_one [r_1_10] demo_parts demo_gist_split).
Qed.

(** C12: in every index that insertions build from an empty one, whatever pages
    hold, whichever subtrees are chosen and however often an insertion starts
    over after splitting a page on the way down, the keys of downlinks cover
    what is below them and the tuples are those inserted.  A search with any
    scan keys returns exactly the tuples inserted that satisfy all keys, each
    as often as it was inserted; it fails only as building a range can, which
    testing adjacency does. *)
Theorem gist_index_search `{Toast} `{Sorter} (tc : TypeCacheEntry) (Hs : RangeSubtype tc) (Hc : RangeCanonical tc)
    (Hst : StableBounds tc) (Ht : TightBounds tc) t l keys :
  gist_index tc (gist_key tc) t l -> Forall (key_ok tc) keys ->
  covered tc t /\ Permutation (gist_tuples t) l /\
  match gist_scan tc keys t with
  | Ok rs => Permutation rs (List.filter (leaf_match tc keys) l)
  | Err e => make_failure tc e
  end.
Proof.
  intros Hix Hk. destruct (gist_index_ok tc t l Hix) as [Hcov Hp]. split_and!; [done..|].
  pose proof (gist_scan_ok tc keys t Hk Hcov) as Hsc.
  destruct (gist_scan tc keys t) as [rs|e]; [|exact Hsc]. cbn in Hsc. subst rs. by apply filter_perm.
Qed.

Definition gist_demo_keys : list ScanKey := [mkScanKey RANGESTRAT_CONTAINS_ELEM (QElem (Int32GetDatum 12))].

(** 12 is in [[5,20)] and not in [[1,10)]. *)
Lemma gist_index_search_witness :
  match gist_scan int4range gist_demo_keys demo_gist with
  | Ok rs => rs = [r_5_20] /\ Permutation rs (List.filter (leaf_match int4range gist_demo_keys) [r_5_20; r_1_10])
  | Err e => False
  end.
Proof.
  pose proof (gist_index_search int4range _ _ _ _ demo_gist _ gist_demo_keys demo_gist_index
                ltac:(constructor; [reflexivity|constructor])) as (_ & _ & Hsearch).
  assert (E : gist_scan int4range gist_demo_keys demo_gist = Ok [r_5_20]) by (vm_compute; reflexivity).
  rewrite E in *. split; [reflexivity|exact Hsearch].
Defined.
