(* ===== verification/RangeTypanalyze.v ===== *)
(** * Statistics of range columns: rangetypes_typanalyze.c

    ANALYZE hands a sample of a range column to [compute_range_stats], which
    stores up to three slots: a histogram of bounds, a histogram of lengths
    (with the fraction of empty ranges) and a histogram of frequencies over
    intervals of equal length.

    C [int] arithmetic wraps around (the code is built with -fwrapv); a
    [Datum] is an unsigned 64-bit number. *)

From S2P Require Import Prelude Floats Varlena RangeTypes RangeOrder RangeOps RangeStore Hashfn RangeParse RangeFmgr Sorting.

(** ** Integer helpers *)

Definition int32 (z : Z) : Z := swrap 32 z.
Definition uint64 (z : Z) : Z := uwrap 64 z.

(** [numerator / divider] rounded away from zero when the remainder is not
    zero; the hardware traps a division by zero. *)
Definition roundUpDivision (numerator divider : Z) : result Z :=
  if divider =? 0 then undefined "division by zero"
  else
    let div := Z.quot numerator divider in
    Ok (if negb (Z.rem numerator divider =? 0) then int32 (div + 1) else div).

(** Conversion of a [double] to [int]; a value out of range has no defined
    result. *)
Definition f8_to_int (x : float8) : result Z :=
  match f8_trunc x with
  | Some z => if (PG_INT32_MIN <=? z) && (z <=? PG_INT32_MAX) then Ok z else undefined "conversion to int out of range"
  | None => undefined "conversion to int out of range"
  end.

(** ** Sorting *)

Definition float8_qsort_cmp (f1 f2 : float8) : Z :=
  if flt f1 f2 then -1 else if feq f1 f2 then 0 else 1.

Definition range_bound_qsort_cmp (tc : TypeCacheEntry) (b1 b2 : RangeBound) : Z := range_cmp_bounds tc b1 b2.

(** ** The frequency histogram *)

Section Frequencies.

(** The address that a by-reference [Datum] holds. *)
Context (address : list Z -> Z).

Definition datum_bits (d : Datum) : Z := match d with DWord w => uint64 w | DPtr bs => uint64 (address bs) end.

Section Count.
Context (lowers uppers : list RangeBound).
Context (rows interval_length : Z).

(** What is read one past the end of the arrays: the loops read the bound at
    [l] (at [u]) before they compare the index with [rows]. *)
Context (beyond_lower beyond_upper : RangeBound).

Definition lower_val (k : Z) : Z := datum_bits (val (nth (Z.to_nat k) lowers beyond_lower)).
Definition upper_val (k : Z) : Z := datum_bits (val (nth (Z.to_nat k) uppers beyond_upper)).

(** [(float) mult / ((uppers+k)->val - (lowers+k)->val)] *)
Definition share (mult k : Z) : float4 := f4_div (f4_of_Z mult) (f4_of_Z (uint64 (upper_val k - lower_val k))).

(** [for (k=u; k < l; k++)]: the ranges that began in an earlier interval. *)
Fixpoint count_open (n : nat) (k sup : Z) (count : float4) : float4 :=
  match n with
  | O => count
  | S n' =>
      let mult :=
        if upper_val k <? uint64 sup then int32 (upper_val k - uint64 (int32 (int32 (sup - interval_length) + 1)))
        else interval_length in
      count_open n' (k + 1) sup (f4_add count (share mult k))
  end.

(** The ranges that begin in the current interval; [fuel] is [rows - l]. *)
Fixpoint count_starting (fuel : nat) (l sup : Z) (count : float4) : Z * float4 :=
  if (int32 (lower_val l) <=? sup) && (l <? rows) then
    match fuel with
    | O => (l, count)
    | S fuel' =>
        let mult :=
          if uint64 sup <=? upper_val l then int32 (uint64 (int32 (1 + sup)) - lower_val l)
          else int32 (upper_val l - lower_val l) in
        count_starting fuel' (l + 1) sup (f4_add count (share mult l))
    end
  else (l, count).

(** Skip the ranges that end in the current interval; [fuel] is [rows - u]. *)
Fixpoint skip_ended (fuel : nat) (u sup : Z) : Z :=
  if (int32 (upper_val u) <=? int32 (sup + 1)) && (u <? rows) then
    match fuel with O => u | S fuel' => skip_ended fuel' (u + 1) sup end
  else u.

(** The loop over the [n] intervals that are left. *)
Fixpoint count_intervals (n : nat) (l u sup : Z) : list float8 :=
  match n with
  | O => []
  | S n' =>
      let count := f4_of_Z 0 in
      let sup := int32 (sup + interval_length) in
      let count := count_open (Z.to_nat (l - u)) u sup count in
      let '(l, count) := count_starting (Z.to_nat (rows - l)) l sup count in
      f8_of_f4 count :: count_intervals n' l (skip_ended (Z.to_nat (rows - u)) u sup) sup
  end.

Definition count_frequencies (nb_of_intervals min : Z) : list float8 :=
  count_intervals (Z.to_nat nb_of_intervals) 0 0 (int32 (min - 1)).

End Count.

Definition WEIGHT : float8 := f8_dec 5 100.

(** The interval length and the number of intervals for values from [min] to
    [max]. *)
Definition choose_intervals (min max : Z) : result (Z * Z) :=
  let length := int32 (int32 (max - min) + 1) in
  divider ← f8_to_int (f8_add (f8_of_Z 1) (f8_mul WEIGHT (f8_of_Z length)));
  nb_of_intervals ← roundUpDivision length divider;
  interval_length ← roundUpDivision length nb_of_intervals;
  Ok (nb_of_intervals, interval_length).

(** The values of the frequency histogram. *)
Definition ComputeFrequencyHistogram (lowers uppers : list RangeBound) (rows : Z) (beyond_lower beyond_upper : RangeBound)
  : result (list float8) :=
  first ← array_get lowers 0;
  last ← array_get uppers (rows - 1);
  let min := int32 (datum_bits (val first)) in
  let max := int32 (datum_bits (val last)) in
  '(nb_of_intervals, interval_length) ← choose_intervals min max;
  if nb_of_intervals <? 0 then elog "invalid memory alloc request size"
  else Ok (count_frequencies lowers uppers rows interval_length beyond_lower beyond_upper nb_of_intervals min).

End Frequencies.

(** ** Sampling *)

(** One row of the sample: NULL, or the size of the datum and the range. *)
Definition SampleRow : Type := option (Z * RangeType).

Record SampleCounts : Type := mkCounts {
  null_cnt : Z;
  non_null_cnt : Z;
  non_empty_cnt : Z;
  empty_cnt : Z;
  total_width : float8;
  smp_lowers : list RangeBound;
  smp_uppers : list RangeBound;
  smp_lengths : list float8
}.

Definition no_rows : SampleCounts := mkCounts 0 0 0 0 (f8_of_Z 0) [] [] [].

(** The length of a non-empty range. *)
Definition range_length (tc : TypeCacheEntry) (lower upper : RangeBound) : result float8 :=
  if infinite lower || infinite upper then Ok f8_inf
  else match rng_subdiff tc with
       | Some subdiff => subdiff (val upper) (val lower)
       | None => Ok (f8_of_Z 1)
       end.

(** One round of the loop over the sample. *)
Definition sample_row (tc : TypeCacheEntry) (c : SampleCounts) (row : SampleRow) : result SampleCounts :=
  match row with
  | None =>
      Ok (mkCounts (null_cnt c + 1) (non_null_cnt c) (non_empty_cnt c) (empty_cnt c) (total_width c)
            (smp_lowers c) (smp_uppers c) (smp_lengths c))
  | Some (size, range) =>
      let width := f8_add (total_width c) (f8_of_Z size) in
      let '(lower, upper, empty) := range_deserialize tc range in
      if negb empty then
        length ← range_length tc lower upper;
        Ok (mkCounts (null_cnt c) (non_null_cnt c + 1) (non_empty_cnt c + 1) (empty_cnt c) width
              (smp_lowers c ++ [lower]) (smp_uppers c ++ [upper]) (smp_lengths c ++ [length]))
      else
        Ok (mkCounts (null_cnt c) (non_null_cnt c + 1) (non_empty_cnt c) (empty_cnt c + 1) width
              (smp_lowers c) (smp_uppers c) (smp_lengths c))
  end.

Fixpoint sample_rows (tc : TypeCacheEntry) (c : SampleCounts) (sample : list SampleRow) : result SampleCounts :=
  match sample with
  | [] => Ok c
  | row :: sample' => c ← sample_row tc c row; sample_rows tc c sample'
  end.

Definition scan_sample (tc : TypeCacheEntry) (sample : list SampleRow) : result SampleCounts :=
  sample_rows tc no_rows sample.

(** ** Histograms *)

(** The subscripts that the histogram loops visit: [n] rounds are left. *)
Fixpoint hist_positions (n : nat) (delta deltafrac bins pos posfrac : Z) : list Z :=
  match n with
  | O => []
  | S n' =>
      let posfrac' := posfrac + deltafrac in
      pos :: (if posfrac' >=? bins
              then hist_positions n' delta deltafrac bins (pos + delta + 1) (posfrac' - bins)
              else hist_positions n' delta deltafrac bins (pos + delta) posfrac')
  end.

Definition num_hist (non_empty_cnt num_bins : Z) : Z :=
  if non_empty_cnt >? num_bins then num_bins + 1 else non_empty_cnt.

Definition sample_positions (non_empty_cnt num_bins : Z) : list Z :=
  let h := num_hist non_empty_cnt num_bins in
  hist_positions (Z.to_nat h) ((non_empty_cnt - 1) / (h - 1)) ((non_empty_cnt - 1) mod (h - 1)) (h - 1) 0 0.

Fixpoint pick {A} (arr : list A) (positions : list Z) : result (list A) :=
  match positions with
  | [] => Ok []
  | p :: ps => a ← array_get arr p; rest ← pick arr ps; Ok (a :: rest)
  end.

Section Stats.
Context `{Toast} `{Sorter} (address : list Z -> Z).

Fixpoint serialize_bounds_hist (tc : TypeCacheEntry) (lowers uppers : list RangeBound) : result (list RangeType) :=
  match lowers, uppers with
  | l :: ls, u :: us =>
      r ← range_serialize tc l u false;
      rest ← serialize_bounds_hist tc ls us;
      Ok (r :: rest)
  | _, _ => Ok []
  end.

(** A slot of [pg_statistic]: its kind with the values and numbers it holds. *)
Inductive StatSlot : Type :=
| BOUNDS_HISTOGRAM (values : list RangeType)
| RANGE_LENGTH_HISTOGRAM (values : list float8) (emptyfrac : float4)
| FREQUENCY_HISTOGRAM (values : list float8).

Record VacAttrStats : Type := mkStats {
  stats_valid : bool;
  stanullfrac : float4;
  stawidth : Z;
  stadistinct : float4;
  slots : list StatSlot
}.

(** The statistics before the computation. *)
Definition initial_stats : VacAttrStats := mkStats false (f4_of_Z 0) 0 (f4_of_Z 0) [].

(** The bounds of the histogram and the histogram of ranges that they make. *)
Definition build_bounds_hist (tc : TypeCacheEntry) (num_bins : Z) (c : SampleCounts)
  : result (list RangeBound * list RangeBound * list RangeType) :=
  let lowers := qsort_arg (range_bound_qsort_cmp tc) (smp_lowers c) in
  let uppers := qsort_arg (range_bound_qsort_cmp tc) (smp_uppers c) in
  if num_hist (non_empty_cnt c) num_bins =? 1 then undefined "division by zero"
  else
    let positions := sample_positions (non_empty_cnt c) num_bins in
    temp_lowers ← pick lowers positions;
    temp_uppers ← pick uppers positions;
    bound_hist_values ← serialize_bounds_hist tc temp_lowers temp_uppers;
    Ok (temp_lowers, temp_uppers, bound_hist_values).

Definition build_length_hist (num_bins : Z) (c : SampleCounts) : result (list float8) :=
  let lengths := qsort_arg float8_qsort_cmp (smp_lengths c) in
  pick lengths (sample_positions (non_empty_cnt c) num_bins).

(** [beyond] are the bounds found past the ends of [temp_lowers] and
    [temp_uppers]; those arrays are uninitialized pointers unless the bounds
    histogram was made. *)
Definition compute_range_stats (tc : TypeCacheEntry) (num_bins : Z) (beyond : RangeBound * RangeBound)
    (sample : list SampleRow) : result VacAttrStats :=
  let samplerows := Z.of_nat (List.length sample) in
  c ← scan_sample tc sample;
  if non_null_cnt c >? 0 then
    let nullfrac := f4_of_f8 (f8_div (f8_of_Z (null_cnt c)) (f8_of_Z samplerows)) in
    width ← f8_to_int (f8_div (total_width c) (f8_of_Z (non_null_cnt c)));
    let distinct := f4_of_f8 (f8_mul (f8_of_Z (-1)) (f8_sub (f8_of_Z 1) (f8_of_f4 nullfrac))) in
    let emptyfrac := f4_of_f8 (f8_div (f8_of_Z (empty_cnt c)) (f8_of_Z (non_null_cnt c))) in
    if non_empty_cnt c >=? 2 then
      '(temp_lowers, temp_uppers, bound_hist_values) ← build_bounds_hist tc num_bins c;
      length_hist_values ← build_length_hist num_bins c;
      freqs ← ComputeFrequencyHistogram address temp_lowers temp_uppers (num_hist (non_empty_cnt c) num_bins)
                (fst beyond) (snd beyond);
      Ok (mkStats true nullfrac width distinct
            [BOUNDS_HISTOGRAM bound_hist_values; RANGE_LENGTH_HISTOGRAM length_hist_values emptyfrac;
             FREQUENCY_HISTOGRAM freqs])
    else
      (* ComputeFrequencyHistogram reads through temp_lowers *)
      undefined "uninitialized pointer"
  else if null_cnt c >? 0 then Ok (mkStats true (f4_of_Z 1) 0 (f4_of_Z 0) [])
  else Ok initial_stats.

End Stats.

(** [attstattarget] as used, and [minrows]. *)
Definition range_typanalyze (attstattarget default_statistics_target : Z) : Z * Z :=
  let target := if attstattarget <? 0 then default_statistics_target else attstattarget in
  (target, int32 (300 * target)).
