(* ===== verification/RangeHist.v ===== *)
(** * The histograms that ANALYZE builds

    The histogram loops visit the subscripts that their comment states,
    without forming the product that could overflow; and the k-th lower bound
    in order is never above the k-th upper bound, so that every pair of them
    makes a valid range. *)

From S2P Require Import Prelude Floats Varlena RangeTypes RangeOrder RangeOps RangeStore Hashfn RangeCanon.
From S2P Require Import RangeParse RangeFmgr Sorting RangeTypanalyze.

(** ** Subscripts *)

Section Positions.
Context (N M : Z).
Hypothesis HM : 0 < M.

(** One step of the loop: add [N / M], carrying the fraction. *)
Lemma position_step i :
  0 <= i ->
  (if (i * N) mod M + N mod M >=? M
   then ((i * N) / M + N / M + 1, (i * N) mod M + N mod M - M)
   else ((i * N) / M + N / M, (i * N) mod M + N mod M)) =
  (((i + 1) * N) / M, ((i + 1) * N) mod M).
Proof.
  intros Hi. pose proof (Z.div_mod (i * N) M) as E1. pose proof (Z.div_mod N M) as E2.
  pose proof (Z.mod_pos_bound (i * N) M HM). pose proof (Z.mod_pos_bound N M HM).
  destruct (Z.geb_spec ((i * N) mod M + N mod M) M).
  - f_equal.
    + apply Z.div_unique with ((i * N) mod M + N mod M - M); [lia|]. lia.
    + apply Z.mod_unique with ((i * N) / M + N / M + 1); [lia|]. lia.
  - f_equal.
    + apply Z.div_unique with ((i * N) mod M + N mod M); [lia|]. lia.
    + apply Z.mod_unique with ((i * N) / M + N / M); [lia|]. lia.
Qed.

Lemma hist_positions_from n i :
  0 <= i ->
  hist_positions n (N / M) (N mod M) M ((i * N) / M) ((i * N) mod M) =
  map (fun k => ((i + Z.of_nat k) * N) / M) (seq 0 n).
Proof.
  revert i. induction n as [|n IH]; intros i Hi; cbn [hist_positions seq map]; [done|].
  rewrite Z.add_0_r. f_equal. pose proof (position_step i Hi) as Hs. cbv zeta.
  rewrite <- seq_shift, map_map.
  assert (E : map (fun x => (i + Z.of_nat (S x)) * N / M) (seq 0 n) = map (fun k => (i + 1 + Z.of_nat k) * N / M) (seq 0 n))
    by (apply map_ext; intros k; do 2 f_equal; lia).
  rewrite E, <- (IH (i + 1)) by lia.
  destruct ((i * N) mod M + N mod M >=? M); by injection Hs as <- <-.
Qed.

End Positions.

(** The subscripts, for a histogram of [h] values out of [n]. *)
Lemma sample_positions_spec n num_bins :
  2 <= n -> 1 <= num_bins ->
  let h := num_hist n num_bins in
  2 <= h <= n /\
  sample_positions n num_bins = map (fun k => (Z.of_nat k * (n - 1)) / (h - 1)) (seq 0 (Z.to_nat h)).
Proof.
  intros Hn Hb. cbv zeta. assert (Hh : 2 <= num_hist n num_bins <= n)
    by (unfold num_hist; destruct (Z.gtb_spec n num_bins); lia).
  split; [done|]. unfold sample_positions.
  pose proof (hist_positions_from (n - 1) (num_hist n num_bins - 1) ltac:(lia)
    (Z.to_nat (num_hist n num_bins)) 0 ltac:(lia)) as E.
  rewrite Z.mul_0_l, Z.div_0_l, Z.mod_0_l in E by lia. exact E.
Qed.

Lemma position_bounds n h k :
  2 <= h <= n -> 0 <= k < h -> 0 <= (k * (n - 1)) / (h - 1) <= n - 1.
Proof.
  intros Hh Hk. split; [apply Z.div_pos; nia|].
  apply Z.div_le_upper_bound; nia.
Qed.

Lemma position_last n h : 2 <= h <= n -> ((h - 1) * (n - 1)) / (h - 1) = n - 1.
Proof. intros Hh. rewrite Z.mul_comm. apply Z.div_mul. lia. Qed.

Lemma position_mono n h j k :
  2 <= h <= n -> 0 <= j <= k -> (j * (n - 1)) / (h - 1) <= (k * (n - 1)) / (h - 1).
Proof. intros Hh Hjk. apply Z.div_le_mono; nia. Qed.

(** ** The sample *)

Section Sample.
Context `{Toast} (tc : TypeCacheEntry) `{!RangeSubtype tc}.

Definition row_wf (row : SampleRow) : Prop :=
  match row with Some (_, r) => range_wf tc r | None => True end.

Record counts_ok (n : nat) (c : SampleCounts) : Prop := {
  cnt_rows : null_cnt c + non_null_cnt c = Z.of_nat n;
  cnt_non_null : non_empty_cnt c + empty_cnt c = non_null_cnt c;
  cnt_nonneg : 0 <= null_cnt c /\ 0 <= empty_cnt c;
  cnt_pairs : Forall2 (pair_ok tc) (smp_lowers c) (smp_uppers c);
  cnt_lowers : non_empty_cnt c = Z.of_nat (length (smp_lowers c));
  cnt_lengths : length (smp_lengths c) = length (smp_lowers c)
}.

Lemma range_length_error lo up e : range_length tc lo up = Err e -> subdiff_failure tc e.
Proof.
  unfold range_length. destruct (_ || _); [done|]. destruct (rng_subdiff tc) as [subdiff|] eqn:Es; [|done].
  intros Hc. by exists subdiff, (val up), (val lo).
Qed.

Lemma sample_row_ok n c row :
  counts_ok n c -> row_wf row ->
  match sample_row tc c row with Ok c' => counts_ok (S n) c' | Err e => subdiff_failure tc e end.
Proof.
  intros [H1 H2 [H3 H4] H5 H6 H7] Hrow. destruct row as [[size r]|]; cbn [sample_row].
  - cbn in Hrow. destruct (wf_view tc r Hrow) as (lo & up & e & Hd & El & Eu & Hb). rewrite Hd.
    destruct e; cbn [negb]; [|destruct (range_length tc lo up) as [len|e] eqn:El'; cbn [mbind result_bind];
      [|by apply (range_length_error _ _ _ El')]]; split; cbn; try lia; try done.
    + destruct (Hb eq_refl) as (? & ? & ?). apply Forall2_app; [done|]. repeat constructor; done.
    + rewrite length_app. cbn. lia.
    + rewrite !length_app. cbn. lia.
  - split; cbn; (lia || done).
Qed.

Lemma scan_sample_ok sample :
  Forall row_wf sample ->
  match scan_sample tc sample with Ok c => counts_ok (length sample) c | Err e => subdiff_failure tc e end.
Proof.
  unfold scan_sample. intros Hall.
  assert (Hgen : forall n c, counts_ok n c ->
    match sample_rows tc c sample with Ok c' => counts_ok (n + length sample) c' | Err e => subdiff_failure tc e end).
  { induction Hall as [|row sample Hr Hall IH]; intros n c Hc; cbn; [by rewrite Nat.add_0_r|].
    pose proof (sample_row_ok n c row Hc Hr) as Hrow. destruct (sample_row tc c row) as [c'|e]; cbn [mbind result_bind]; [|done].
    rewrite Nat.add_succ_r, <- Nat.add_succ_l. by apply IH. }
  apply (Hgen 0%nat). split; cbn; (lia || constructor).
Qed.

(** Every non-empty range of the sample is among the bounds collected. *)
Lemma scan_sample_in sample c size r lo up :
  scan_sample tc sample = Ok c ->
  In (Some (size, r)) sample -> range_deserialize tc r = (lo, up, false) ->
  In lo (smp_lowers c) /\ In up (smp_uppers c).
Proof.
  unfold scan_sample. intros Hsc Hin Hd.
  assert (Hrow : forall c1 row c2, sample_row tc c1 row = Ok c2 ->
    In lo (smp_lowers c1) /\ In up (smp_uppers c1) \/ row = Some (size, r) -> In lo (smp_lowers c2) /\ In up (smp_uppers c2)).
  { intros c1 [[sz r']|] c2; cbn [sample_row]; [|intros [= <-] [?|[=]]; done].
    destruct (range_deserialize tc r') as [[l u] e] eqn:Hd'. destruct e; cbn [negb].
    - intros [= <-] [?|[= -> ->]]; [done|]. congruence.
    - intros (len & _ & [= <-])%bind_Ok; cbn. rewrite !in_app_iff. intros [[? ?]|[= -> ->]]; [auto|].
      rewrite Hd in Hd'. injection Hd' as <- <-. cbn. auto. }
  assert (Hkeep : forall rows c1 c2, sample_rows tc c1 rows = Ok c2 ->
    In lo (smp_lowers c1) /\ In up (smp_uppers c1) \/ In (Some (size, r)) rows -> In lo (smp_lowers c2) /\ In up (smp_uppers c2)).
  { induction rows as [|row rows IH]; intros c1 c2; cbn [sample_rows]; [intros [= <-] [?|[]]; done|].
    intros (c' & Hr & Hrs)%bind_Ok Hcase. apply (IH c' c2 Hrs).
    destruct Hcase as [?|[->|?]]; [left; apply (Hrow _ _ _ Hr); auto..|auto]. }
  apply (Hkeep _ _ _ Hsc). by right.
Qed.

End Sample.

(** ** The bounds histogram *)

(** What the selectivity functions find in a bounds histogram. *)
Record bounds_histogram `{Toast} (tc : TypeCacheEntry) (values : list RangeType) : Prop := {
  bh_length : (2 <= length values)%nat;
  bh_wf : Forall (range_wf tc) values;
  bh_nonempty : Forall (fun r => RangeIsEmpty r = false) values;
  bh_lowers : StronglySorted (cmp_le (range_cmp_bounds tc)) (map (lower_of tc) values);
  bh_uppers : StronglySorted (cmp_le (range_cmp_bounds tc)) (map (upper_of tc) values)
}.

Section Pick.
Context {A : Type}.

Lemma pick_ok (arr : list A) positions :
  Forall (fun p => 0 <= p < Z.of_nat (length arr)) positions ->
  exists l, pick arr positions = Ok l /\ Forall2 (fun p a => arr !! Z.to_nat p = Some a) positions l.
Proof.
  induction 1 as [|p ps Hp Hps IH]; cbn [pick]; [by exists []; auto|].
  destruct (lookup_lt_is_Some_2 arr (Z.to_nat p) ltac:(lia)) as [a Ha].
  destruct IH as (l & El & Hl). rewrite (array_get_lookup arr p a ltac:(lia) Ha). cbn [mbind result_bind]. rewrite El.
  exists (a :: l). auto.
Qed.

Lemma sorted_by_lookup (R : A -> A -> Prop) l :
  (forall i j a b, (i < j)%nat -> l !! i = Some a -> l !! j = Some b -> R a b) -> StronglySorted R l.
Proof.
  induction l as [|x l IH]; intros Hr; constructor.
  - apply IH. intros i j a b Hij Ha Hb. apply (Hr (S i) (S j)); [lia|done..].
  - apply List.Forall_forall. intros y Hy. apply list_elem_of_In, list_elem_of_lookup in Hy as [j Hj].
    apply (Hr 0%nat (S j)); [lia|done..].
Qed.

End Pick.

Section BoundsHist.
Context `{Toast} `{Sorter} (tc : TypeCacheEntry) `{!RangeSubtype tc}.

#[local] Instance range_bound_order : Preorder_cmp (range_bound_qsort_cmp tc) := bounds_preorder tc.

Lemma serialize_bounds_hist_ok tl tu :
  Forall2 (pair_ok tc) tl tu ->
  match serialize_bounds_hist tc tl tu with
  | Ok values =>
      Forall (range_wf tc) values /\ Forall (fun r => RangeIsEmpty r = false) values /\
      Forall2 (fun lo r => range_cmp_bounds tc lo (lower_of tc r) = 0) tl values /\
      Forall2 (fun up r => range_cmp_bounds tc up (upper_of tc r) = 0) tu values
  | Err e => e = alloc_error
  end.
Proof.
  induction 1 as [|lo up tl tu Hp Hall IH]; cbn [serialize_bounds_hist]; [split_and!; constructor|].
  pose proof (serialize_pair tc lo up Hp) as Hs. destruct (range_serialize tc lo up false) as [r|e]; [|done].
  cbn [mbind result_bind]. destruct (serialize_bounds_hist tc tl tu) as [values|e]; [|done].
  cbn [mbind result_bind]. destruct Hs as (? & ? & ? & ?), IH as (? & ? & ? & ?). split_and!; by constructor.
Qed.

(** Bounds equal to a sorted array of bounds are sorted. *)
Lemma sorted_equal (f : RangeType -> RangeBound) bs values :
  StronglySorted (cmp_le (range_cmp_bounds tc)) bs ->
  Forall2 (fun b r => range_cmp_bounds tc b (f r) = 0) bs values ->
  StronglySorted (cmp_le (range_cmp_bounds tc)) (map f values).
Proof.
  intros Hs Hz. induction Hz as [|b r bs values Hb Hz IH]; cbn; [constructor|].
  apply StronglySorted_inv in Hs as [Hs Hall]. constructor; [by apply IH|].
  clear IH Hs. induction Hz as [|b' r' bs values Hb' Hz IH]; cbn; constructor.
  - apply Forall_inv in Hall. unfold cmp_le in *. rank_lia tc [b; b'; f r; f r'].
  - apply IH. by apply Forall_inv_tail in Hall.
Qed.

(** The subscripts are in range, and ascending. *)
Lemma positions_range n num_bins :
  2 <= n -> 1 <= num_bins -> Forall (fun p => 0 <= p < n) (sample_positions n num_bins).
Proof.
  intros Hn Hb. destruct (sample_positions_spec n num_bins Hn Hb) as [Hh ->].
  apply List.Forall_forall. intros p Hp. apply in_map_iff in Hp as (k & <- & Hk). apply in_seq in Hk.
  pose proof (position_bounds n (num_hist n num_bins) (Z.of_nat k) Hh). lia.
Qed.

(** Sorted values picked at the subscripts are sorted. *)
Lemma picked_sorted {A} (cmp : A -> A -> Z) `{!Preorder_cmp cmp} n num_bins (arr l : list A) :
  2 <= n -> 1 <= num_bins -> StronglySorted (cmp_le cmp) arr ->
  Forall2 (fun p a => arr !! Z.to_nat p = Some a) (sample_positions n num_bins) l ->
  StronglySorted (cmp_le cmp) l.
Proof.
  intros Hn Hb Hs Hp. destruct (sample_positions_spec n num_bins Hn Hb) as [Hh E]. rewrite E in Hp.
  apply sorted_by_lookup. intros i j a b Hij Ha Hb'. unfold cmp_le.
  apply Forall2_flip in Hp. destruct (Forall2_lookup_l _ _ _ _ _ Hp Ha) as (p & Ep & Hpa).
  destruct (Forall2_lookup_l _ _ _ _ _ Hp Hb') as (q & Eq & Hqb). cbn in Hpa, Hqb.
  rewrite list_lookup_fmap in Ep, Eq. apply fmap_Some in Ep as (i' & Ei & ->), Eq as (j' & Ej & ->).
  apply lookup_seq in Ei as [-> Hi], Ej as [-> Hj].
  apply (sorted_lookup cmp arr _ _ a b Hs) with (2 := Hpa) (3 := Hqb).
  apply Z2Nat.inj_le; [apply position_bounds; lia..|]. apply position_mono; lia.
Qed.

Lemma pick_sample {A} (arr : list A) n num_bins :
  2 <= n -> 1 <= num_bins -> Z.of_nat (length arr) = n ->
  exists l, pick arr (sample_positions n num_bins) = Ok l /\
    Forall2 (fun p a => arr !! Z.to_nat p = Some a) (sample_positions n num_bins) l /\
    Z.of_nat (length l) = num_hist n num_bins /\
    (exists first, l !! 0%nat = Some first /\ arr !! 0%nat = Some first) /\
    (exists last, l !! (length l - 1)%nat = Some last /\ arr !! (length arr - 1)%nat = Some last).
Proof.
  intros Hn Hb Hl. destruct (pick_ok arr (sample_positions n num_bins)) as (l & El & Hp).
  { pose proof (positions_range n num_bins Hn Hb) as Hr. eapply Forall_impl; [exact Hr|]. cbn. lia. }
  exists l. split; [done|]. split; [done|].
  destruct (sample_positions_spec n num_bins Hn Hb) as [Hh E].
  pose proof (Forall2_length _ _ _ Hp) as Hlen. rewrite E, length_map, length_seq in Hlen.
  assert (Hlh : Z.of_nat (length l) = num_hist n num_bins) by lia. split; [done|].
  assert (Hat : forall k, (k < length l)%nat -> exists a, l !! k = Some a /\
    arr !! Z.to_nat (Z.of_nat k * (n - 1) / (num_hist n num_bins - 1)) = Some a).
  { intros k Hk. rewrite E in Hp. apply Forall2_flip in Hp.
    destruct (lookup_lt_is_Some_2 l k Hk) as [a Ha].
    destruct (Forall2_lookup_l _ _ _ _ _ Hp Ha) as (p & Ep & Hpa). cbn in Hpa.
    rewrite list_lookup_fmap in Ep. apply fmap_Some in Ep as (k' & Ek & ->). apply lookup_seq in Ek as [-> _]. eauto. }
  split.
  - destruct (Hat 0%nat ltac:(lia)) as (a & Ha & Hra). exists a. split; [done|].
    by rewrite Z.mul_0_l, Z.div_0_l in Hra by lia.
  - destruct (Hat (length l - 1)%nat ltac:(lia)) as (a & Ha & Hra). exists a. split; [done|].
    replace (Z.of_nat (length l - 1)) with (num_hist n num_bins - 1) in Hra by lia.
    rewrite position_last in Hra by lia. by replace (length arr - 1)%nat with (Z.to_nat (n - 1)) by lia.
Qed.

Lemma Forall2_pick {A B} (R : A -> B -> Prop) (P : nat -> A -> Prop) (Q : nat -> B -> Prop) (ps : list Z) l l' :
  (forall k a b, P k a -> Q k b -> R a b) ->
  Forall2 (fun p a => P (Z.to_nat p) a) ps l -> Forall2 (fun p b => Q (Z.to_nat p) b) ps l' -> Forall2 R l l'.
Proof.
  intros HR Hl. revert l'. induction Hl as [|p a ps l Ha Hl IH]; intros l' Hl'; inversion Hl'; subst; constructor; eauto.
Qed.

(** The least (greatest) element of a sorted array. *)
Lemma sorted_first arr first b :
  StronglySorted (cmp_le (range_bound_qsort_cmp tc)) arr -> arr !! 0%nat = Some first -> In b arr ->
  range_cmp_bounds tc first b <= 0.
Proof.
  intros Hs Hf Hb. apply list_elem_of_In, list_elem_of_lookup in Hb as [j Hj].
  exact (sorted_lookup (range_bound_qsort_cmp tc) arr 0 j first b Hs ltac:(lia) Hf Hj).
Qed.

Lemma sorted_last arr last b :
  StronglySorted (cmp_le (range_bound_qsort_cmp tc)) arr -> arr !! (length arr - 1)%nat = Some last -> In b arr ->
  range_cmp_bounds tc b last <= 0.
Proof.
  intros Hs Hf Hb. apply list_elem_of_In, list_elem_of_lookup in Hb as [j Hj].
  pose proof (lookup_lt_Some _ _ _ Hj).
  exact (sorted_lookup (range_bound_qsort_cmp tc) arr j (length arr - 1) b last Hs ltac:(lia) Hj Hf).
Qed.

(** The pairs that the histogram is made of. *)
Lemma sorted_pair_ok c n k lo up :
  counts_ok tc n c ->
  qsort_arg (range_bound_qsort_cmp tc) (smp_lowers c) !! k = Some lo ->
  qsort_arg (range_bound_qsort_cmp tc) (smp_uppers c) !! k = Some up -> pair_ok tc lo up.
Proof.
  intros Hc Hlo Hup. pose proof (cnt_pairs _ _ _ Hc) as Hp.
  pose proof (qsort_arg_perm _ (range_bound_qsort_cmp tc) (smp_lowers c)) as Pl.
  pose proof (qsort_arg_perm _ (range_bound_qsort_cmp tc) (smp_uppers c)) as Pu.
  assert (Inl : In lo (smp_lowers c))
    by (apply (Permutation_in _ Pl), list_elem_of_In, list_elem_of_lookup; by exists k).
  assert (Inu : In up (smp_uppers c))
    by (apply (Permutation_in _ Pu), list_elem_of_In, list_elem_of_lookup; by exists k).
  assert (Hl : bound_ok tc lo /\ lower lo = true).
  { apply list_elem_of_In, list_elem_of_lookup in Inl as [i Hi].
    destruct (Forall2_lookup_l _ _ _ _ _ Hp Hi) as (b & _ & (? & _ & ? & _)). done. }
  assert (Hu : bound_ok tc up /\ lower up = false).
  { apply list_elem_of_In, list_elem_of_lookup in Inu as [i Hi].
    destruct (Forall2_lookup_r _ _ _ _ _ Hp Hi) as (b & _ & (_ & ? & _ & ? & _)). done. }
  destruct Hl, Hu. split_and!; try done.
  refine (sorted_pairs (range_bound_qsort_cmp tc) (smp_lowers c) (smp_uppers c) _ _ k lo up _ Pl Pu _ _ Hlo Hup);
    [|by apply qsort_arg_sorted, _..].
  eapply Forall2_impl; [exact Hp|]. by intros a b (_ & _ & _ & _ & ?).
Qed.

Lemma build_bounds_hist_ok c n num_bins :
  counts_ok tc n c -> 2 <= non_empty_cnt c -> 1 <= num_bins ->
  match build_bounds_hist tc num_bins c with
  | Ok (tl, tu, values) =>
      Z.of_nat (length values) = num_hist (non_empty_cnt c) num_bins /\ bounds_histogram tc values /\
      (exists first last, values !! 0%nat = Some first /\ values !! (length values - 1)%nat = Some last /\
         (forall lo, In lo (smp_lowers c) -> range_cmp_bounds tc (lower_of tc first) lo <= 0) /\
         (forall up, In up (smp_uppers c) -> range_cmp_bounds tc up (upper_of tc last) <= 0))
  | Err e => e = alloc_error
  end.
Proof.
  intros Hc Hn Hb. pose proof (cnt_lowers _ _ _ Hc) as Ll. pose proof (Forall2_length _ _ _ (cnt_pairs _ _ _ Hc)) as Lu.
  unfold build_bounds_hist. set (ls := qsort_arg _ (smp_lowers c)). set (us := qsort_arg _ (smp_uppers c)).
  pose proof (qsort_arg_perm _ (range_bound_qsort_cmp tc) (smp_lowers c) : Permutation ls _) as Pl.
  pose proof (qsort_arg_perm _ (range_bound_qsort_cmp tc) (smp_uppers c) : Permutation us _) as Pu.
  pose proof (qsort_arg_sorted _ (range_bound_qsort_cmp tc) (smp_lowers c) _ : StronglySorted _ ls) as Sl.
  pose proof (qsort_arg_sorted _ (range_bound_qsort_cmp tc) (smp_uppers c) _ : StronglySorted _ us) as Su.
  pose proof (Permutation_length Pl). pose proof (Permutation_length Pu).
  destruct (pick_sample ls _ num_bins Hn Hb ltac:(lia)) as (tl & -> & Htl & Lenl & (fl & Fl & Fl') & _).
  destruct (pick_sample us _ num_bins Hn Hb ltac:(lia)) as (tu & -> & Htu & Lenu & _ & (lu & Lu1 & Lu2)).
  destruct (sample_positions_spec _ num_bins Hn Hb) as [Hh _].
  destruct (Z.eqb_spec (num_hist (non_empty_cnt c) num_bins) 1); [lia|]. cbn [mbind result_bind].
  assert (Hpairs : Forall2 (pair_ok tc) tl tu).
  { apply (Forall2_pick _ (fun k a => ls !! k = Some a) (fun k b => us !! k = Some b) _ _ _
      (fun k a b => sorted_pair_ok c n k a b Hc) Htl Htu). }
  pose proof (serialize_bounds_hist_ok tl tu Hpairs) as Hs.
  destruct (serialize_bounds_hist tc tl tu) as [values|e]; [|done]. cbn [mbind result_bind].
  destruct Hs as (Hwf & Hne & Zl & Zu). pose proof (Forall2_length _ _ _ Zl) as Lv. pose proof (Forall2_length _ _ _ Zu) as Lv'.
  split; [lia|]. split; [split; [lia|done|done| |]|].
  - apply (sorted_equal _ tl); [|done]. exact (picked_sorted _ _ _ ls tl Hn Hb Sl Htl).
  - apply (sorted_equal _ tu); [|done]. exact (picked_sorted _ _ _ us tu Hn Hb Su Htu).
  - destruct (Forall2_lookup_l _ _ _ _ _ Zl Fl) as (first & E1 & Z1).
    destruct (Forall2_lookup_l _ _ _ _ _ Zu Lu1) as (last & E2 & Z2). rewrite Lv' in E2.
    exists first, last. split_and!; [done|done| |].
    + intros lo Hlo. apply (Permutation_in _ (Permutation_sym Pl)) in Hlo.
      pose proof (sorted_first ls fl lo Sl Fl' Hlo). rank_lia tc [fl; lo; lower_of tc first].
    + intros up Hup. apply (Permutation_in _ (Permutation_sym Pu)) in Hup.
      pose proof (sorted_last us lu up Su Lu2 Hup). rank_lia tc [lu; up; upper_of tc last].
Qed.

End BoundsHist.

(** ** Reading past the end of the arrays *)

Section Beyond.
Context (address : list Z -> Z) (lowers uppers : list RangeBound) (rows interval_length : Z).
Hypothesis Hl : Z.of_nat (length lowers) = rows.
Hypothesis Hu : Z.of_nat (length uppers) = rows.
Context (b1 b2 c1 c2 : RangeBound).

Abbreviation lv := (lower_val address lowers).
Abbreviation uv := (upper_val address uppers).

Lemma lower_val_in k : 0 <= k < rows -> lv b1 k = lv b2 k.
Proof. intros Hk. unfold lower_val. do 2 f_equal. apply nth_indep. lia. Qed.

Lemma upper_val_in k : 0 <= k < rows -> uv c1 k = uv c2 k.
Proof. intros Hk. unfold upper_val. do 2 f_equal. apply nth_indep. lia. Qed.

Lemma share_in mult k :
  0 <= k < rows -> share address lowers uppers b1 c1 mult k = share address lowers uppers b2 c2 mult k.
Proof. intros Hk. unfold share. by rewrite (lower_val_in k), (upper_val_in k). Qed.

Lemma count_open_beyond n k sup count :
  0 <= k -> k + Z.of_nat n <= rows ->
  count_open address lowers uppers interval_length b1 c1 n k sup count =
  count_open address lowers uppers interval_length b2 c2 n k sup count.
Proof.
  revert k count. induction n as [|n IH]; intros k count Hk Hn; cbn [count_open]; [done|].
  rewrite (upper_val_in k), IH by lia. cbv zeta. by rewrite share_in by lia.
Qed.

Lemma count_starting_beyond fuel l sup count :
  0 <= l <= rows ->
  count_starting address lowers uppers rows b1 c1 fuel l sup count =
  count_starting address lowers uppers rows b2 c2 fuel l sup count /\
  0 <= fst (count_starting address lowers uppers rows b2 c2 fuel l sup count) <= rows.
Proof.
  revert l count. induction fuel as [|fuel IH]; intros l count Hlr; cbn [count_starting];
    (destruct (Z.ltb_spec l rows); [|rewrite !andb_false_r; cbn; split; [done|lia]]);
    rewrite !andb_true_r, (lower_val_in l) by lia; (destruct (_ <=? sup); [|cbn; split; [done|lia]]).
  - cbn. split; [done|lia].
  - cbv zeta. rewrite (upper_val_in l), share_in by lia. apply IH. lia.
Qed.

Lemma skip_ended_beyond fuel u sup :
  0 <= u <= rows ->
  skip_ended address uppers rows c1 fuel u sup = skip_ended address uppers rows c2 fuel u sup /\
  0 <= skip_ended address uppers rows c2 fuel u sup <= rows.
Proof.
  revert u. induction fuel as [|fuel IH]; intros u Hur; cbn [skip_ended];
    (destruct (Z.ltb_spec u rows); [|rewrite !andb_false_r; split; [done|lia]]);
    rewrite !andb_true_r, (upper_val_in u) by lia; (destruct (_ <=? int32 _); [|split; [done|lia]]).
  - split; [done|lia].
  - apply IH. lia.
Qed.

Lemma count_intervals_beyond n l u sup :
  0 <= l <= rows -> 0 <= u <= rows ->
  count_intervals address lowers uppers rows interval_length b1 c1 n l u sup =
  count_intervals address lowers uppers rows interval_length b2 c2 n l u sup.
Proof.
  revert l u sup. induction n as [|n IH]; intros l u sup Hlr Hur; cbn [count_intervals]; [done|]. cbv zeta.
  rewrite count_open_beyond by lia.
  set (sup' := int32 (sup + interval_length)). set (count := count_open _ _ _ _ b2 c2 _ _ _ _).
  destruct (count_starting_beyond (Z.to_nat (rows - l)) l sup' count Hlr) as [-> Hl'].
  destruct (count_starting address lowers uppers rows b2 c2 _ l sup' count) as [l' count'].
  destruct (skip_ended_beyond (Z.to_nat (rows - u)) u sup' Hur) as [-> Hu']. by rewrite IH.
Qed.

End Beyond.
