(* ===== verification/RangeSelfuncs.v ===== *)
(** * Selectivity of range operators: rangetypes_selfuncs.c

    [rangesel] estimates restriction clauses from the bounds and length
    histograms; [rangerestsel] estimates [<<] and [&&] from the frequency
    histogram.  A statistics tuple is the set of its slots; what the planner
    says about the clause is a parameter. *)

From S2P Require Import Prelude Floats Varlena RangeTypes RangeOrder RangeOps RangeStore Hashfn RangeParse RangeFmgr Sorting RangeTypanalyze.

(** ** Operators and constants *)

Definition OID_RANGE_LESS_OP : Oid := 3884.
Definition OID_RANGE_LESS_EQUAL_OP : Oid := 3885.
Definition OID_RANGE_GREATER_EQUAL_OP : Oid := 3886.
Definition OID_RANGE_GREATER_OP : Oid := 3887.
Definition OID_RANGE_OVERLAP_OP : Oid := 3888.
Definition OID_RANGE_CONTAINS_ELEM_OP : Oid := 3889.
Definition OID_RANGE_CONTAINS_OP : Oid := 3890.
Definition OID_RANGE_ELEM_CONTAINED_OP : Oid := 3891.
Definition OID_RANGE_CONTAINED_OP : Oid := 3892.
Definition OID_RANGE_LEFT_OP : Oid := 3893.
Definition OID_RANGE_RIGHT_OP : Oid := 3894.
Definition OID_RANGE_OVERLAPS_LEFT_OP : Oid := 3895.
Definition OID_RANGE_OVERLAPS_RIGHT_OP : Oid := 3896.

Definition DEFAULT_INEQ_SEL : float8 := f8_dec 3333333333333333 10000000000000000.
Definition DEFAULT_RANGE_INEQ_SEL : float8 := f8_dec 5 1000.

Definition is_op (operator : Oid) (ops : list Oid) : bool := existsb (Z.eqb operator) ops.

Definition default_range_selectivity (operator : Oid) : float8 :=
  if is_op operator [OID_RANGE_OVERLAP_OP] then f8_dec 1 100
  else if is_op operator [OID_RANGE_CONTAINS_OP; OID_RANGE_CONTAINED_OP] then f8_dec 5 1000
  else if is_op operator [OID_RANGE_CONTAINS_ELEM_OP; OID_RANGE_ELEM_CONTAINED_OP] then DEFAULT_RANGE_INEQ_SEL
  else if is_op operator [OID_RANGE_LESS_OP; OID_RANGE_LESS_EQUAL_OP; OID_RANGE_GREATER_OP; OID_RANGE_GREATER_EQUAL_OP;
                          OID_RANGE_LEFT_OP; OID_RANGE_RIGHT_OP; OID_RANGE_OVERLAPS_LEFT_OP; OID_RANGE_OVERLAPS_RIGHT_OP]
  then DEFAULT_INEQ_SEL
  else f8_dec 1 100.

(** ** Binary searches *)

(** [while (lower < upper)]: [below middle] decides the side; the distance of
    [lower] and [upper] shrinks in every round. *)
Fixpoint bsearch_loop (below : Z -> result bool) (fuel : nat) (lower upper : Z) : result Z :=
  match fuel with
  | O => undefined "out of fuel"
  | S fuel' =>
      if lower <? upper then
        let middle := Z.quot (lower + upper + 1) 2 in
        b ← below middle;
        if (b : bool) then bsearch_loop below fuel' middle upper
        else bsearch_loop below fuel' lower (middle - 1)
      else Ok lower
  end.

Definition rbound_bsearch (tc : TypeCacheEntry) (value : RangeBound) (hist : list RangeBound) (equal : bool) : result Z :=
  bsearch_loop (fun middle =>
      h ← array_get hist middle;
      let cmp := range_cmp_bounds tc h value in
      Ok ((cmp <? 0) || (equal && (cmp =? 0))))
    (S (length hist)) (-1) (Z.of_nat (length hist) - 1).

Definition length_hist_bsearch (length_hist_values : list float8) (value : float8) (equal : bool) : result Z :=
  bsearch_loop (fun middle =>
      middleval ← array_get length_hist_values middle;
      Ok (flt middleval value || (equal && fle middleval value)))
    (S (length length_hist_values)) (-1) (Z.of_nat (length length_hist_values) - 1).

(** ** Interpolation *)

Definition get_position (tc : TypeCacheEntry) (value hist1 hist2 : RangeBound) : result float8 :=
  if negb (infinite hist1) && negb (infinite hist2) then
    if infinite value then Ok (f8_dec 1 2)
    else match rng_subdiff tc with
         | None => Ok (f8_dec 1 2)
         | Some subdiff =>
             bin_width ← subdiff (val hist2) (val hist1);
             if isnan bin_width || fle bin_width f8_zero then Ok (f8_dec 1 2)
             else
               diff ← subdiff (val value) (val hist1);
               let position := f8_div diff bin_width in
               if isnan position then Ok (f8_dec 1 2)
               else
                 let position := fMax position f8_zero in
                 Ok (fMin position f8_one)
         end
  else if infinite hist1 && negb (infinite hist2) then
    if infinite value && lower value then Ok f8_zero else Ok f8_one
  else if negb (infinite hist1) && infinite hist2 then
    if infinite value && negb (lower value) then Ok f8_one else Ok f8_zero
  else Ok (f8_dec 1 2).

Definition get_len_position (value hist1 hist2 : float8) : float8 :=
  if negb (isinf hist1) && negb (isinf hist2) then
    if isinf value then f8_dec 1 2
    else f8_sub f8_one (f8_div (f8_sub hist2 value) (f8_sub hist2 hist1))
  else if isinf hist1 && negb (isinf hist2) then f8_one
  else if isinf hist1 && isinf hist2 then f8_zero
  else f8_dec 1 2.

Definition get_distance (tc : TypeCacheEntry) (bound1 bound2 : RangeBound) : result float8 :=
  if negb (infinite bound1) && negb (infinite bound2) then
    match rng_subdiff tc with
    | Some subdiff =>
        res ← subdiff (val bound2) (val bound1);
        if isnan res || flt res f8_zero then Ok f8_one else Ok res
    | None => Ok f8_one
    end
  else if infinite bound1 && infinite bound2 then
    if Bool.eqb (lower bound1) (lower bound2) then Ok f8_zero else Ok f8_inf
  else Ok f8_inf.

(** ** Estimates from the histograms *)

Definition calc_hist_selectivity_scalar (tc : TypeCacheEntry) (constbound : RangeBound) (hist : list RangeBound)
    (equal : bool) : result float8 :=
  let hist_nvalues := Z.of_nat (length hist) in
  index ← rbound_bsearch tc constbound hist equal;
  let selec := f8_div (f8_of_Z (Z.max index 0)) (f8_of_Z (hist_nvalues - 1)) in
  if (0 <=? index) && (index <? hist_nvalues - 1) then
    h1 ← array_get hist index;
    h2 ← array_get hist (index + 1);
    position ← get_position tc constbound h1 h2;
    Ok (f8_add selec (f8_div position (f8_of_Z (hist_nvalues - 1))))
  else Ok selec.

(** [0.5 * (PB + PA) * (B - A)], left out when both heights are zero. *)
Definition add_area (area PA PB A B : float8) : float8 :=
  if fgt PA f8_zero || fgt PB f8_zero
  then f8_add area (f8_mul (f8_mul (f8_dec 1 2) (f8_add PB PA)) (f8_sub B A)) else area.

(** The loop over whole bins; the results are [i], [B], [PB] and [area]. *)
Fixpoint length_bins (values : list float8) (length2 : float8) (equal : bool) (fuel : nat) (i : Z) (B PB area : float8)
  : result (Z * float8 * float8 * float8) :=
  let n := Z.of_nat (length values) in
  if i <? n - 1 then
    match fuel with
    | O => undefined "out of fuel"
    | S fuel' =>
        bin_upper ← array_get values (i + 1);
        if negb (flt bin_upper length2 || (equal && fle bin_upper length2)) then Ok (i, B, PB, area)
        else
          let A := B in
          let PA := PB in
          let B := bin_upper in
          let PB := f8_div (f8_of_Z i) (f8_of_Z (n - 1)) in
          length_bins values length2 equal fuel' (i + 1) B PB (add_area area PA PB A B)
    end
  else Ok (i, B, PB, area).

(** [Assert(length2 >= length1)] is compiled out, as in any build without
    assertion checks. *)
Definition calc_length_hist_frac (values : list float8) (length1 length2 : float8) (equal : bool) : result float8 :=
  let n := Z.of_nat (length values) in
  if flt length2 f8_zero then Ok f8_zero
  else if isinf length2 && equal then Ok f8_one
  else
    i ← length_hist_bsearch values length1 equal;
    if i >=? n - 1 then Ok f8_one
    else
      '(i, pos) ← (if i <? 0 then Ok (0, f8_zero)
                   else
                     v1 ← array_get values i;
                     v2 ← array_get values (i + 1);
                     Ok (i, get_len_position length1 v1 v2));
      let PB := f8_div (f8_add (f8_of_Z i) pos) (f8_of_Z (n - 1)) in
      let B := length1 in
      if feq length2 length1 then Ok PB
      else
        '(i, B, PB, area) ← length_bins values length2 equal (length values) i B PB f8_zero;
        let A := B in
        let PA := PB in
        let B := length2 in
        pos ← (if i >=? n - 1 then Ok f8_zero
               else
                 v1 ← array_get values i;
                 v2 ← array_get values (i + 1);
                 Ok (if feq v1 v2 then f8_zero else get_len_position length2 v1 v2));
        let PB := f8_div (f8_add (f8_of_Z i) pos) (f8_of_Z (n - 1)) in
        let area := add_area area PA PB A B in
        if isinf area && isinf length2 then Ok (f8_dec 1 2)
        else Ok (f8_div area (f8_sub length2 length1)).

(** The loop over the bins from [i] down to 0 ([fuel] is [i + 1]). *)
Fixpoint contained_bins (tc : TypeCacheEntry) (lower upper : RangeBound) (hist_lower : list RangeBound)
    (lengths : list float8) (fuel : nat) (i : Z) (prev_dist bin_width sum_frac : float8) : result float8 :=
  match fuel with
  | O => Ok sum_frac
  | S fuel' =>
      h ← array_get hist_lower i;
      '(dist, bin_width, final_bin) ←
        (if range_cmp_bounds tc h lower <? 0 then
           dist ← get_distance tc lower upper;
           h' ← array_get hist_lower (i + 1);
           position ← get_position tc lower h h';
           let bin_width := f8_sub bin_width position in
           Ok (dist, if flt bin_width f8_zero then f8_zero else bin_width, true)
         else
           dist ← get_distance tc h upper;
           Ok (dist, bin_width, false));
      length_hist_frac ← calc_length_hist_frac lengths prev_dist dist true;
      let sum_frac := f8_add sum_frac (f8_div (f8_mul length_hist_frac bin_width)
                                              (f8_of_Z (Z.of_nat (length hist_lower) - 1))) in
      if (final_bin : bool) then Ok sum_frac
      else contained_bins tc lower upper hist_lower lengths fuel' (i - 1) dist f8_one sum_frac
  end.

Definition calc_hist_selectivity_contained (tc : TypeCacheEntry) (lower upper : RangeBound) (hist_lower : list RangeBound)
    (lengths : list float8) : result float8 :=
  let hist_nvalues := Z.of_nat (length hist_lower) in
  let upper := mkBound (val upper) (infinite upper) (negb (inclusive upper)) true in
  upper_index ← rbound_bsearch tc upper hist_lower false;
  if upper_index <? 0 then Ok f8_zero
  else
    let upper_index := Z.min upper_index (hist_nvalues - 2) in
    h1 ← array_get hist_lower upper_index;
    h2 ← array_get hist_lower (upper_index + 1);
    upper_bin_width ← get_position tc upper h1 h2;
    contained_bins tc lower upper hist_lower lengths (Z.to_nat (upper_index + 1)) upper_index f8_zero upper_bin_width f8_zero.

Fixpoint contains_bins (tc : TypeCacheEntry) (upper : RangeBound) (hist_lower : list RangeBound)
    (lengths : list float8) (fuel : nat) (i : Z) (prev_dist bin_width sum_frac : float8) : result float8 :=
  match fuel with
  | O => Ok sum_frac
  | S fuel' =>
      h ← array_get hist_lower i;
      dist ← get_distance tc h upper;
      frac ← calc_length_hist_frac lengths prev_dist dist false;
      let length_hist_frac := f8_sub f8_one frac in
      let sum_frac := f8_add sum_frac (f8_div (f8_mul length_hist_frac bin_width)
                                              (f8_of_Z (Z.of_nat (length hist_lower) - 1))) in
      contains_bins tc upper hist_lower lengths fuel' (i - 1) dist f8_one sum_frac
  end.

Definition calc_hist_selectivity_contains (tc : TypeCacheEntry) (lower upper : RangeBound) (hist_lower : list RangeBound)
    (lengths : list float8) : result float8 :=
  let hist_nvalues := Z.of_nat (length hist_lower) in
  lower_index ← rbound_bsearch tc lower hist_lower true;
  if lower_index <? 0 then Ok f8_zero
  else
    let lower_index := Z.min lower_index (hist_nvalues - 2) in
    h1 ← array_get hist_lower lower_index;
    h2 ← array_get hist_lower (lower_index + 1);
    lower_bin_width ← get_position tc lower h1 h2;
    prev_dist ← get_distance tc lower upper;
    contains_bins tc upper hist_lower lengths (Z.to_nat (lower_index + 1)) lower_index
      prev_dist lower_bin_width f8_zero.

(** ** Statistics *)

(** The functions whose use on statistics [statistic_proc_security_check]
    decides. *)
Inductive SupportProc : Type := RngCmpProc | RngSubdiffProc | OperatorProc.

(** A row of [pg_statistic] for the column, by slot kind. *)
Record StatsTuple : Type := mkStatsTuple {
  st_nullfrac : float4;
  st_bounds : option (list RangeType);
  st_lengths : option (list float8 * list float4);
  st_frequencies : option (list float8)
}.

Record VariableStatData : Type := mkVardata {
  statsTuple : option StatsTuple;
  vartype : Oid;
  statistic_proc_security_check : SupportProc -> bool
}.

Definition stats_slot {A} (vardata : VariableStatData) (slot : StatsTuple -> option A) : option A :=
  match statsTuple vardata with Some t => slot t | None => None end.

Section Selectivity.
Context `{Toast}.

Fixpoint deserialize_hist (tc : TypeCacheEntry) (values : list RangeType) : result (list RangeBound * list RangeBound) :=
  match values with
  | [] => Ok ([], [])
  | r :: rs =>
      let '(lower, upper, empty) := range_deserialize tc r in
      if (empty : bool) then elog "bounds histogram contains an empty range"
      else '(ls, us) ← deserialize_hist tc rs; Ok (lower :: ls, upper :: us)
  end.

(** The [switch] over the operator. *)
Definition hist_selectivity_op (tc : TypeCacheEntry) (const_lower const_upper : RangeBound)
    (hist_lower hist_upper : list RangeBound) (lengths : list float8) (operator : Oid) : result float8 :=
  if operator =? OID_RANGE_LESS_OP then calc_hist_selectivity_scalar tc const_lower hist_lower false
  else if operator =? OID_RANGE_LESS_EQUAL_OP then calc_hist_selectivity_scalar tc const_lower hist_lower true
  else if operator =? OID_RANGE_GREATER_OP then
    s ← calc_hist_selectivity_scalar tc const_lower hist_lower false; Ok (f8_sub f8_one s)
  else if operator =? OID_RANGE_GREATER_EQUAL_OP then
    s ← calc_hist_selectivity_scalar tc const_lower hist_lower true; Ok (f8_sub f8_one s)
  else if operator =? OID_RANGE_LEFT_OP then calc_hist_selectivity_scalar tc const_lower hist_upper false
  else if operator =? OID_RANGE_RIGHT_OP then
    s ← calc_hist_selectivity_scalar tc const_upper hist_lower true; Ok (f8_sub f8_one s)
  else if operator =? OID_RANGE_OVERLAPS_RIGHT_OP then
    s ← calc_hist_selectivity_scalar tc const_lower hist_lower false; Ok (f8_sub f8_one s)
  else if operator =? OID_RANGE_OVERLAPS_LEFT_OP then calc_hist_selectivity_scalar tc const_upper hist_upper true
  else if is_op operator [OID_RANGE_OVERLAP_OP; OID_RANGE_CONTAINS_ELEM_OP] then
    s1 ← calc_hist_selectivity_scalar tc const_lower hist_upper false;
    s2 ← calc_hist_selectivity_scalar tc const_upper hist_lower true;
    Ok (f8_sub f8_one (f8_add s1 (f8_sub f8_one s2)))
  else if operator =? OID_RANGE_CONTAINS_OP then
    calc_hist_selectivity_contains tc const_lower const_upper hist_lower lengths
  else if operator =? OID_RANGE_CONTAINED_OP then
    if infinite const_lower then calc_hist_selectivity_scalar tc const_upper hist_upper true
    else if infinite const_upper then
      s ← calc_hist_selectivity_scalar tc const_lower hist_lower false; Ok (f8_sub f8_one s)
    else calc_hist_selectivity_contained tc const_lower const_upper hist_lower lengths
  else elog "unknown range operator".

Definition calc_hist_selectivity (tc : TypeCacheEntry) (vardata : VariableStatData) (constval : RangeType) (operator : Oid)
  : result float8 :=
  let failure := Ok (f8_of_Z (-1)) in
  if negb (statistic_proc_security_check vardata RngCmpProc) then failure
  else if match rng_subdiff tc with Some _ => true | None => false end
          && negb (statistic_proc_security_check vardata RngSubdiffProc) then failure
  else
    match stats_slot vardata st_bounds with
    | None => failure
    | Some values =>
        if Z.of_nat (length values) <? 2 then failure
        else
          '(hist_lower, hist_upper) ← deserialize_hist tc values;
          let needs_lengths := is_op operator [OID_RANGE_CONTAINS_OP; OID_RANGE_CONTAINED_OP] in
          let lslot := if needs_lengths then stats_slot vardata st_lengths else Some ([], []) in
          match lslot with
          | None => failure
          | Some (lengths, _) =>
              if needs_lengths && (Z.of_nat (length lengths) <? 2) then failure
              else
                let '(const_lower, const_upper, empty) := range_deserialize tc constval in
                hist_selectivity_op tc const_lower const_upper hist_lower hist_upper lengths operator
          end
    end.

(** The estimate for an empty constant. *)
Definition empty_const_selectivity (operator : Oid) (empty_frac : float4) : result float8 :=
  if is_op operator [OID_RANGE_OVERLAP_OP; OID_RANGE_OVERLAPS_LEFT_OP; OID_RANGE_OVERLAPS_RIGHT_OP;
                     OID_RANGE_LEFT_OP; OID_RANGE_RIGHT_OP; OID_RANGE_LESS_OP] then Ok f8_zero
  else if is_op operator [OID_RANGE_CONTAINED_OP; OID_RANGE_LESS_EQUAL_OP] then Ok (f8_of_f4 empty_frac)
  else if is_op operator [OID_RANGE_CONTAINS_OP; OID_RANGE_GREATER_EQUAL_OP] then Ok f8_one
  else if operator =? OID_RANGE_GREATER_OP then Ok (f8_sub f8_one (f8_of_f4 empty_frac))
  else elog "unexpected operator".

(** The fractions of NULLs and of empty ranges. *)
Definition stat_fractions (vardata : VariableStatData) : result (float4 * float4) :=
  match statsTuple vardata with
  | None => Ok (f4_of_Z 0, f4_of_Z 0)
  | Some t =>
      match st_lengths t with
      | Some (_, [empty_frac]) => Ok (st_nullfrac t, empty_frac)
      | Some _ => elog "invalid empty fraction statistic"
      | None => Ok (st_nullfrac t, f4_of_Z 0)
      end
  end.

Definition calc_rangesel (tc : TypeCacheEntry) (vardata : VariableStatData) (constval : RangeType) (operator : Oid)
  : result float8 :=
  '(null_frac, empty_frac) ← stat_fractions vardata;
  selec ← (if RangeIsEmpty constval then empty_const_selectivity operator empty_frac
           else
             hist_selec ← calc_hist_selectivity tc vardata constval operator;
             let hist_selec := if flt hist_selec f8_zero then default_range_selectivity operator else hist_selec in
             let non_empty := f8_sub f8_one (f8_of_f4 empty_frac) in
             Ok (if operator =? OID_RANGE_CONTAINED_OP
                 then f8_add (f8_mul non_empty hist_selec) (f8_of_f4 empty_frac)
                 else f8_mul non_empty hist_selec));
  let selec := f8_mul selec (f8_sub f8_one (f8_of_f4 null_frac)) in
  Ok (CLAMP_PROBABILITY selec).

(** ** Restriction clauses *)

(** A constant of the clause: NULL, a range or an element. *)
Inductive ConstValue : Type := CNull | CRange (r : RangeType) | CElem (v : Datum).

Inductive OtherNode : Type :=
| Const (consttype : Oid) (constvalue : ConstValue)
| NotConst.

(** [get_restriction_variable]: the column, the other side, and whether the
    column is on the left; [None] when the clause is not of that form. *)
Definition Clause : Type := option (VariableStatData * OtherNode * bool).

Context `{Catalog}.

(** [get_commutator]: [None] for [InvalidOid]. *)
Context (get_commutator : Oid -> option Oid).

Definition const_is_null (c : ConstValue) : bool := match c with CNull => true | _ => false end.

(** The constant range to compare with, if there is one; a type mismatch
    leaves it NULL. *)
Definition const_range (vardata : VariableStatData) (consttype : Oid) (c : ConstValue) (operator : Oid)
  : Fn FnExtra (option (TypeCacheEntry * RangeType)) :=
  if operator =? OID_RANGE_CONTAINS_ELEM_OP then
    typcache ← range_get_typcache (vartype vardata);
    if consttype =? elem_type_id typcache then
      match c with
      | CElem v =>
          constrange ← lift (range_serialize typcache (mkBound v false true true) (mkBound v false true false) false);
          mret (Some (typcache, constrange))
      | _ => lift (undefined "constant is not an element")
      end
    else mret None
  else if operator =? OID_RANGE_ELEM_CONTAINED_OP then mret None
  else if consttype =? vartype vardata then
    typcache ← range_get_typcache (vartype vardata);
    match c with
    | CRange r => mret (Some (typcache, r))
    | _ => lift (undefined "constant is not a range")
    end
  else mret None.

Definition rangesel (clause : Clause) (operator : Oid) : Fn FnExtra float8 :=
  match clause with
  | None => mret (default_range_selectivity operator)
  | Some (vardata, other, varonleft) =>
      match other with
      | NotConst => mret (default_range_selectivity operator)
      | Const consttype c =>
          if const_is_null c then mret f8_zero
          else
            match (if (varonleft : bool) then Some operator else get_commutator operator) with
            | None => mret (default_range_selectivity 0)
            | Some operator =>
                constrange ← const_range vardata consttype c operator;
                selec ← lift (match constrange with
                              | Some (typcache, r) => calc_rangesel typcache vardata r operator
                              | None => Ok (default_range_selectivity operator)
                              end);
                mret (CLAMP_PROBABILITY selec)
            end
      end
  end.

(** ** [rangerestsel] *)

Context (address : list Z -> Z).

Definition IsInRange (challenge_low challenge_up low_bound up_bound : Z) : bool :=
  negb ((challenge_up <? low_bound) || (challenge_low >? up_bound)).

Section RestSel.
Context (min1 interval_length a b : Z).

(** The [i]-th interval: [[x, y]]. *)
Definition interval_low (i : Z) : Z := int32 (min1 + int32 (i * interval_length)).
Definition interval_high (i : Z) : Z := int32 (min1 + int32 (int32 (i + 1) * interval_length)).
Definition hits (i : Z) : bool := IsInRange (interval_low i) (interval_high i) a b.

(** Add up the frequencies of the intervals before the first that the
    constant touches. *)
Fixpoint sum_left (freqs : list float8) (i : Z) (sum : float8) : float8 :=
  match freqs with
  | [] => sum
  | f :: freqs' => if hits i then sum else sum_left freqs' (i + 1) (f8_add sum f)
  end.

(** Add up the frequencies of the intervals that the constant touches; stop
    after the last of them. *)
Fixpoint sum_overlap (freqs : list float8) (i : Z) (out : bool) (sum : float8) : float8 :=
  match freqs with
  | [] => sum
  | f :: freqs' =>
      if hits i then sum_overlap freqs' (i + 1) true (f8_add sum f)
      else if out then sum
      else sum_overlap freqs' (i + 1) out sum
  end.

End RestSel.

Definition rangerestsel_inner (freq_values1 : list float8) (rows1 min1 max1 : Z) (const_lower const_upper : RangeBound)
    (operator : Oid) : result float8 :=
  interval_length ← roundUpDivision (int32 (max1 - min1)) (Z.of_nat (length freq_values1));
  let a := int32 (datum_bits address (val const_lower)) in
  let b := int32 (datum_bits address (val const_upper)) in
  sum ← (if operator =? OID_RANGE_LEFT_OP then
           let sum := sum_left min1 interval_length a b freq_values1 0 f8_zero in
           if flt sum f8_one then
             first ← array_get freq_values1 0;
             Ok (f8_mul first (f8_div (f8_of_Z a) (f8_of_Z interval_length)))
           else Ok sum
         else if operator =? OID_RANGE_OVERLAP_OP then
           Ok (sum_overlap min1 interval_length a b freq_values1 0 false f8_zero)
         else Ok f8_zero);
  Ok (f8_div sum (f8_of_Z rows1)).

(** The bounds and frequency histograms, if both are there. *)
Definition histograms (vardata : VariableStatData) : option (list RangeType * list float8) :=
  match stats_slot vardata st_bounds, stats_slot vardata st_frequencies with
  | Some bounds, Some freqs => Some (bounds, freqs)
  | _, _ => None
  end.

(** The least lower bound and the greatest upper bound of the histogram, as
    integers, and the number of its values. *)
Definition hist_extent (tc : TypeCacheEntry) (bounds : list RangeType) : result (Z * Z * Z) :=
  let nhist := Z.of_nat (length bounds) in
  r0 ← array_get bounds 0;
  let '(r_min, _, empty) := range_deserialize tc r0 in
  if (empty : bool) then elog "bounds histogram contains an empty range"
  else
    r1 ← array_get bounds (nhist - 1);
    let '(_, r_max, empty) := range_deserialize tc r1 in
    if (empty : bool) then elog "bounds histogram contains an empty range"
    else Ok (int32 (datum_bits address (val r_min)), int32 (datum_bits address (val r_max)), nhist).

Definition rangerestsel_default : float8 := f8_dec 5 1000.

Definition rangerestsel (clause : Clause) (operator : Oid) : Fn FnExtra float8 :=
  if negb (operator =? OID_RANGE_LEFT_OP) && negb (operator =? OID_RANGE_OVERLAP_OP) then mret rangerestsel_default
  else
    match clause with
    | None => mret (default_range_selectivity operator)
    | Some (vardata1, other, varonleft) =>
        typcache ← range_get_typcache (vartype vardata1);
        match other with
        | NotConst => mret (default_range_selectivity OID_RANGE_LEFT_OP)
        | Const consttype c =>
            if const_is_null c || negb varonleft then mret (default_range_selectivity OID_RANGE_LEFT_OP)
            else if negb (consttype =? vartype vardata1) then mret (default_range_selectivity OID_RANGE_LEFT_OP)
            else
              constrange ← lift (match c with CRange r => Ok r | _ => undefined "constant is not a range" end);
              if RangeIsEmpty constrange then mret f8_zero
              else if negb (statistic_proc_security_check vardata1 OperatorProc) then mret rangerestsel_default
              else
                match histograms vardata1 with
                | None => mret rangerestsel_default
                | Some (bounds, freq_values1) =>
                    '(min1, max1, nhist1) ← lift (hist_extent typcache bounds);
                    let '(const_lower, const_upper, empty) := range_deserialize typcache constrange in
                    selec ← lift (rangerestsel_inner freq_values1 nhist1 min1 max1 const_lower const_upper operator);
                    mret (CLAMP_PROBABILITY selec)
                end
        end
    end.

End Selectivity.
