(* ===== verification/RangeSelProofs.v ===== *)
(** * Searching and interpolating in histograms

    The binary searches are correct and stay inside their arrays, and the
    estimates that walk over histogram bins always return. *)

From S2P Require Import Prelude Floats Varlena RangeTypes RangeOrder RangeOps RangeStore Hashfn RangeCanon.
From S2P Require Import RangeParse RangeFmgr Sorting RangeTypanalyze RangeHist RangeSelfuncs.

(** ** Binary search *)

Section BSearch.
Context (below : Z -> result bool) (p : Z -> bool) (n : Z).
Hypothesis Hbelow : forall i, 0 <= i < n -> below i = Ok (p i).

(** The loop ends at an index where the test changes from true to false. *)
Lemma bsearch_loop_spec fuel lower upper :
  -1 <= lower <= upper -> upper <= n - 1 -> upper - lower < Z.of_nat fuel ->
  (0 <= lower -> p lower = true) -> (upper < n - 1 -> p (upper + 1) = false) ->
  exists r, bsearch_loop below fuel lower upper = Ok r /\ -1 <= r <= n - 1 /\
    (0 <= r -> p r = true) /\ (r < n - 1 -> p (r + 1) = false).
Proof.
  revert lower upper. induction fuel as [|fuel IH]; intros lower upper Hlu Hun Hf Hl Hu; [lia|].
  cbn [bsearch_loop]. destruct (Z.ltb_spec lower upper) as [Hlt|Hge].
  - cbv zeta. pose proof (Z.quot_div_nonneg (lower + upper + 1) 2 ltac:(lia) ltac:(lia)) as ->.
    pose proof (Z.div_mod (lower + upper + 1) 2). pose proof (Z.mod_pos_bound (lower + upper + 1) 2).
    set (middle := (lower + upper + 1) / 2) in *.
    rewrite Hbelow by lia. cbn [mbind result_bind].
    destruct (p middle) eqn:Hm; apply IH; try lia; try done. intros _. by replace (middle - 1 + 1) with middle by lia.
  - assert (lower = upper) as -> by lia. exists upper. split_and!; (done || lia).
Qed.

End BSearch.

Lemma array_get_in {A} (arr : list A) i :
  0 <= i < Z.of_nat (length arr) -> exists a, arr !! Z.to_nat i = Some a /\ array_get arr i = Ok a.
Proof.
  intros Hi. destruct (lookup_lt_is_Some_2 arr (Z.to_nat i) ltac:(lia)) as [a Ha].
  exists a. split; [done|]. by apply array_get_lookup; [lia|].
Qed.

(** A search whose test reads one element. *)
Lemma bsearch_array {A} (arr : list A) (test : A -> bool) :
  exists r, bsearch_loop (fun i => a ← array_get arr i; Ok (test a)) (S (length arr)) (-1) (Z.of_nat (length arr) - 1) = Ok r /\
    -1 <= r <= Z.of_nat (length arr) - 1 /\
    (forall a, 0 <= r -> arr !! Z.to_nat r = Some a -> test a = true) /\
    (forall a, arr !! Z.to_nat (r + 1) = Some a -> test a = false).
Proof.
  set (n := Z.of_nat (length arr)).
  set (p := fun i => match arr !! Z.to_nat i with Some a => test a | None => false end).
  destruct (bsearch_loop_spec (fun i => a ← array_get arr i; Ok (test a)) p n) with (fuel := S (length arr)) (lower := -1) (upper := n - 1)
    as (r & -> & Hr & H1 & H2); try lia.
  - intros i Hi. destruct (array_get_in arr i ltac:(lia)) as (a & Ha & ->). cbn. unfold p. by rewrite Ha.
  - exists r. split; [done|]. split; [done|]. split.
    + intros a Hr0 Ha. specialize (H1 Hr0). unfold p in H1. by rewrite Ha in H1.
    + intros a Ha. pose proof (lookup_lt_Some _ _ _ Ha). specialize (H2 ltac:(lia)). unfold p in H2. by rewrite Ha in H2.
Qed.

(** On an array where the test is true up to some point only. *)
Lemma bsearch_monotone {A} (arr : list A) (test : A -> bool) :
  (forall i j a b, (i <= j)%nat -> arr !! i = Some a -> arr !! j = Some b -> test b = true -> test a = true) ->
  exists r, bsearch_loop (fun i => a ← array_get arr i; Ok (test a)) (S (length arr)) (-1) (Z.of_nat (length arr) - 1) = Ok r /\
    -1 <= r <= Z.of_nat (length arr) - 1 /\
    forall i a, arr !! i = Some a -> test a = true <-> Z.of_nat i <= r.
Proof.
  intros Hmono. destruct (bsearch_array arr test) as (r & -> & Hr & H1 & H2). exists r. split; [done|]. split; [done|].
  intros i a Ha. split.
  - intros Ht. destruct (Z.le_gt_cases (Z.of_nat i) r) as [|Hgt]; [done|exfalso].
    pose proof (lookup_lt_Some _ _ _ Ha).
    destruct (lookup_lt_is_Some_2 arr (Z.to_nat (r + 1)) ltac:(lia)) as [b Hb].
    pose proof (H2 b Hb). pose proof (Hmono (Z.to_nat (r + 1)) i b a ltac:(lia) Hb Ha Ht). congruence.
  - intros Hle. destruct (lookup_lt_is_Some_2 arr (Z.to_nat r) ltac:(lia)) as [b Hb].
    apply (Hmono i (Z.to_nat r) a b ltac:(lia) Ha Hb). apply H1; [lia|done].
Qed.

(** ** The two searches *)

Section Bounds.
Context `{Toast} (tc : TypeCacheEntry) `{!RangeSubtype tc}.

Definition below_bound (value : RangeBound) (equal : bool) (h : RangeBound) : bool :=
  (range_cmp_bounds tc h value <? 0) || (equal && (range_cmp_bounds tc h value =? 0)).

Lemma rbound_bsearch_total value hist equal :
  exists r, rbound_bsearch tc value hist equal = Ok r /\ -1 <= r <= Z.of_nat (length hist) - 1.
Proof.
  destruct (bsearch_array hist (below_bound value equal)) as (r & E & Hr & _). by exists r.
Qed.

Lemma rbound_bsearch_sorted value hist equal :
  StronglySorted (cmp_le (range_cmp_bounds tc)) hist ->
  exists r, rbound_bsearch tc value hist equal = Ok r /\ -1 <= r <= Z.of_nat (length hist) - 1 /\
    forall i h, hist !! i = Some h -> below_bound value equal h = true <-> Z.of_nat i <= r.
Proof.
  intros Hs. apply (bsearch_monotone hist (below_bound value equal)).
  intros i j a b Hij Ha Hb. unfold below_bound.
  assert (Hab : range_cmp_bounds tc a b <= 0).
  { exact (sorted_lookup (range_cmp_bounds tc) hist i j a b Hs Hij Ha Hb). }
  destruct equal; cbn [andb]; rewrite ?orb_false_r, ?orb_true_iff, ?Z.ltb_lt, ?Z.eqb_eq.
  - intros Hbv. assert (range_cmp_bounds tc b value <= 0) by lia.
    assert (range_cmp_bounds tc a value <= 0) by rank_lia tc [a; b; value]. lia.
  - intros Hbv. rank_lia tc [a; b; value].
Qed.

End Bounds.

(** ** The estimates return *)

Lemma length_hist_bsearch_total values value equal :
  exists r, length_hist_bsearch values value equal = Ok r /\ -1 <= r <= Z.of_nat (length values) - 1.
Proof.
  destruct (bsearch_array values (fun v => flt v value || (equal && fle v value))) as (r & E & Hr & _). by exists r.
Qed.

Lemma length_bins_total values length2 equal fuel i B PB area :
  0 <= i <= Z.of_nat (length values) - 1 -> Z.of_nat (length values) - 1 - i <= Z.of_nat fuel ->
  exists i' B' PB' area', length_bins values length2 equal fuel i B PB area = Ok (i', B', PB', area') /\
    0 <= i' <= Z.of_nat (length values) - 1.
Proof.
  revert i B PB area. induction fuel as [|fuel IH]; intros i B PB area Hi Hf; cbn [length_bins]; cbv zeta;
    (destruct (Z.ltb_spec i (Z.of_nat (length values) - 1)); [|by eexists _, _, _, _]).
  - lia.
  - destruct (array_get_in values (i + 1) ltac:(lia)) as (v & _ & ->). cbn [mbind result_bind].
    destruct (negb _); [by eexists _, _, _, _|]. apply IH; lia.
Qed.

Lemma calc_length_hist_frac_total values length1 length2 equal :
  (2 <= length values)%nat -> exists f, calc_length_hist_frac values length1 length2 equal = Ok f.
Proof.
  intros Hn. unfold calc_length_hist_frac. cbv zeta. destruct (flt _ _); [by eexists|]. destruct (_ && equal); [by eexists|].
  destruct (length_hist_bsearch_total values length1 equal) as (i & -> & Hi). cbn [mbind result_bind].
  destruct (Z.geb_spec i (Z.of_nat (length values) - 1)); [by eexists|].
  assert (Hpos : exists i' pos, (if i <? 0 then Ok (0, f8_zero)
     else v1 ← array_get values i; v2 ← array_get values (i + 1); Ok (i, get_len_position length1 v1 v2)) = Ok (i', pos) /\
     0 <= i' <= Z.of_nat (length values) - 1).
  { destruct (Z.ltb_spec i 0); [eexists _, _; split; [done|lia]|].
    destruct (array_get_in values i ltac:(lia)) as (v1 & _ & ->), (array_get_in values (i + 1) ltac:(lia)) as (v2 & _ & ->).
    eexists _, _. split; [done|lia]. }
  destruct Hpos as (i' & pos & -> & Hi'). cbn [mbind result_bind]. destruct (feq _ _); [by eexists|].
  destruct (length_bins_total values length2 equal (length values) i' length1
    (f8_div (f8_add (f8_of_Z i') pos) (f8_of_Z (Z.of_nat (length values) - 1))) f8_zero) as (j & B & PB & area & -> & Hj); [lia..|].
  cbn [mbind result_bind].
  assert (Hlast : exists pos, (if j >=? Z.of_nat (length values) - 1 then Ok f8_zero
     else v1 ← array_get values j; v2 ← array_get values (j + 1);
          Ok (if feq v1 v2 then f8_zero else get_len_position length2 v1 v2)) = Ok pos).
  { destruct (Z.geb_spec j (Z.of_nat (length values) - 1)); [by eexists|].
    destruct (array_get_in values j ltac:(lia)) as (v1 & _ & ->), (array_get_in values (j + 1) ltac:(lia)) as (v2 & _ & ->).
    by eexists. }
  destruct Hlast as (pos' & ->). cbn [mbind result_bind]. destruct (_ && _); by eexists.
Qed.

Section Totality.
Context `{Toast} (tc : TypeCacheEntry) `{!RangeSubtype tc}.

(** The computation returns, unless the [subtype_diff] function fails. *)
Definition returns {A} (res : result A) : Prop :=
  match res with Ok _ => True | Err e => subdiff_failure tc e end.

Lemma returns_bind {A B} (m : result A) (f : A -> result B) :
  returns m -> (forall a, m = Ok a -> returns (f a)) -> returns (m ≫= f).
Proof. intros Hm Hf. destruct m as [a|e]; cbn; [by apply Hf|done]. Qed.

Lemma returns_subdiff subdiff v1 v2 : rng_subdiff tc = Some subdiff -> returns (subdiff v1 v2).
Proof. intros Hs. destruct (subdiff v1 v2) as [d|e] eqn:E; [done|]. by exists subdiff, v1, v2. Qed.

Lemma get_position_returns value h1 h2 : returns (get_position tc value h1 h2).
Proof.
  unfold get_position. destruct (_ && _); [|repeat case_match; done]. destruct (infinite value); [done|].
  destruct (rng_subdiff tc) as [subdiff|] eqn:Es; [|done].
  apply returns_bind; [by apply returns_subdiff|]. intros w _. destruct (_ || _); [done|].
  apply returns_bind; [by apply returns_subdiff|]. intros d _. cbv zeta. by case_match.
Qed.

Lemma get_distance_returns b1 b2 : returns (get_distance tc b1 b2).
Proof.
  unfold get_distance. destruct (_ && _); [|repeat case_match; done].
  destruct (rng_subdiff tc) as [subdiff|] eqn:Es; [|done].
  apply returns_bind; [by apply returns_subdiff|]. intros w _. by destruct (_ || _).
Qed.

Lemma array_get_returns {A} (arr : list A) i : 0 <= i < Z.of_nat (length arr) -> returns (array_get arr i).
Proof. intros Hi. by destruct (array_get_in arr i Hi) as (a & _ & ->). Qed.

Lemma rbound_bsearch_returns value hist equal : returns (rbound_bsearch tc value hist equal).
Proof. by destruct (rbound_bsearch_total tc value hist equal) as (r & -> & _). Qed.

Lemma rbound_bsearch_range value hist equal r :
  rbound_bsearch tc value hist equal = Ok r -> -1 <= r <= Z.of_nat (length hist) - 1.
Proof. destruct (rbound_bsearch_total tc value hist equal) as (r' & -> & Hr). by intros [= <-]. Qed.

Lemma length_frac_returns values length1 length2 equal :
  (2 <= length values)%nat -> returns (calc_length_hist_frac values length1 length2 equal).
Proof. intros Hn. by destruct (calc_length_hist_frac_total values length1 length2 equal Hn) as [f ->]. Qed.

Ltac returns_tac :=
  repeat first
    [ apply returns_bind; [|intros ? ?]
    | apply get_position_returns | apply get_distance_returns | apply rbound_bsearch_returns
    | apply array_get_returns; lia | apply length_frac_returns; lia | done ].

Lemma scalar_returns constbound hist equal : returns (calc_hist_selectivity_scalar tc constbound hist equal).
Proof.
  unfold calc_hist_selectivity_scalar. cbv zeta. apply returns_bind; [returns_tac|]. intros r Hr.
  apply rbound_bsearch_range in Hr. destruct (_ && _) eqn:E; [|done].
  apply andb_true_iff in E as [E1%Z.leb_le E2%Z.ltb_lt]. returns_tac.
Qed.

Lemma contained_bins_returns lower upper hist lengths fuel i prev_dist bin_width sum :
  (2 <= length lengths)%nat -> Z.of_nat fuel = i + 1 -> i <= Z.of_nat (length hist) - 2 ->
  returns (contained_bins tc lower upper hist lengths fuel i prev_dist bin_width sum).
Proof.
  intros Hn. revert i prev_dist bin_width sum.
  induction fuel as [|fuel IH]; intros i prev_dist bin_width sum Hf Hi; cbn [contained_bins]; [done|].
  apply returns_bind; [returns_tac|]. intros h _.
  apply returns_bind; [destruct (_ <? 0); returns_tac|]. intros [[dist bw] final] _.
  apply returns_bind; [returns_tac|]. intros frac _. cbv zeta. destruct final; [done|]. apply IH; lia.
Qed.

Lemma contains_bins_returns upper hist lengths fuel i prev_dist bin_width sum :
  (2 <= length lengths)%nat -> Z.of_nat fuel = i + 1 -> i <= Z.of_nat (length hist) - 2 ->
  returns (contains_bins tc upper hist lengths fuel i prev_dist bin_width sum).
Proof.
  intros Hn. revert i prev_dist bin_width sum.
  induction fuel as [|fuel IH]; intros i prev_dist bin_width sum Hf Hi; cbn [contains_bins]; [done|].
  do 3 (apply returns_bind; [returns_tac|]; intros ? _). cbv zeta. apply IH; lia.
Qed.

Lemma contained_returns lower upper hist lengths :
  (2 <= length hist)%nat -> (2 <= length lengths)%nat ->
  returns (calc_hist_selectivity_contained tc lower upper hist lengths).
Proof.
  intros Hh Hl. unfold calc_hist_selectivity_contained. cbv zeta.
  apply returns_bind; [returns_tac|]. intros r Hr. apply rbound_bsearch_range in Hr.
  destruct (Z.ltb_spec r 0); [done|]. do 3 (apply returns_bind; [returns_tac|]; intros ? _).
  apply contained_bins_returns; lia.
Qed.

Lemma contains_returns lower upper hist lengths :
  (2 <= length hist)%nat -> (2 <= length lengths)%nat ->
  returns (calc_hist_selectivity_contains tc lower upper hist lengths).
Proof.
  intros Hh Hl. unfold calc_hist_selectivity_contains. cbv zeta.
  apply returns_bind; [returns_tac|]. intros r Hr. apply rbound_bsearch_range in Hr.
  destruct (Z.ltb_spec r 0); [done|]. do 4 (apply returns_bind; [returns_tac|]; intros ? _).
  apply contains_bins_returns; lia.
Qed.

(** The operators that [calc_hist_selectivity] knows. *)
Definition estimated_ops : list Oid :=
  [OID_RANGE_LESS_OP; OID_RANGE_LESS_EQUAL_OP; OID_RANGE_GREATER_OP; OID_RANGE_GREATER_EQUAL_OP; OID_RANGE_LEFT_OP;
   OID_RANGE_RIGHT_OP; OID_RANGE_OVERLAPS_RIGHT_OP; OID_RANGE_OVERLAPS_LEFT_OP; OID_RANGE_OVERLAP_OP;
   OID_RANGE_CONTAINS_ELEM_OP; OID_RANGE_CONTAINS_OP; OID_RANGE_CONTAINED_OP].

Lemma hist_op_returns cl cu hl hu lengths operator :
  In operator estimated_ops -> (2 <= length hl)%nat ->
  (is_op operator [OID_RANGE_CONTAINS_OP; OID_RANGE_CONTAINED_OP] = true -> (2 <= length lengths)%nat) ->
  returns (hist_selectivity_op tc cl cu hl hu lengths operator).
Proof.
  intros Hop Hh Hl. pose proof scalar_returns as Hs.
  cbn in Hop. destruct_or! Hop; try done; subst operator;
    cbn -[calc_hist_selectivity_scalar calc_hist_selectivity_contains calc_hist_selectivity_contained f8_sub f8_add f8_one returns mbind];
    try apply Hs; repeat (apply returns_bind; [apply Hs|intros ? _]); try done.
  - apply contains_returns; [done|by apply Hl].
  - destruct (infinite cl); [apply Hs|]. destruct (infinite cu); [by apply returns_bind; [apply Hs|]|].
    apply contained_returns; [done|by apply Hl].
Qed.

Lemma deserialize_hist_ok values :
  Forall (fun r => RangeIsEmpty r = false) values ->
  deserialize_hist tc values = Ok (map (lower_of tc) values, map (upper_of tc) values).
Proof.
  induction 1 as [|r rs Hr Hrs IH]; cbn [deserialize_hist map]; [done|].
  unfold lower_of at 1, upper_of at 1.
  destruct (range_deserialize tc r) as [[lo up] e] eqn:Hd. destruct (deserialize_sides _ _ _ _ _ Hd) as (_ & _ & He).
  rewrite Hr in He. subst e. by rewrite IH.
Qed.

(** With a bounds histogram as ANALYZE makes it, no estimate raises an error
    of its own. *)
Lemma calc_hist_selectivity_returns vardata constval operator :
  In operator estimated_ops ->
  (forall values, stats_slot vardata st_bounds = Some values -> bounds_histogram tc values) ->
  returns (calc_hist_selectivity tc vardata constval operator).
Proof.
  intros Hop Hb. unfold calc_hist_selectivity. cbv zeta. destruct (negb _); [done|]. destruct (_ && _); [done|].
  destruct (stats_slot vardata st_bounds) as [values|]; [|done]. destruct (Hb values eq_refl) as [Hn _ Hne _ _].
  destruct (_ <? 2); [done|]. rewrite (deserialize_hist_ok values Hne). cbn [mbind result_bind].
  destruct (range_deserialize tc constval) as [[cl cu] e].
  destruct (is_op operator [OID_RANGE_CONTAINS_OP; OID_RANGE_CONTAINED_OP]) eqn:Eop; cbn [andb].
  - destruct (stats_slot vardata st_lengths) as [[lengths nums]|]; [|done].
    destruct (Z.ltb_spec (Z.of_nat (length lengths)) 2); [done|].
    apply hist_op_returns; [done|rewrite length_map; lia|lia].
  - apply hist_op_returns; [done|rewrite length_map; lia|]. by rewrite Eop.
Qed.

End Totality.

(** ** Counting in the histogram *)

(** The elements that satisfy a test that holds up to some index only. *)
Lemma filter_prefix_count {A} (test : A -> bool) (l : list A) r :
  -1 <= r <= Z.of_nat (length l) - 1 ->
  (forall i a, l !! i = Some a -> test a = true <-> Z.of_nat i <= r) ->
  Z.of_nat (length (List.filter test l)) = r + 1.
Proof.
  revert r. induction l as [|x l IH]; intros r Hr Ht; cbn [List.filter length] in *; [lia|].
  pose proof (Ht 0%nat x eq_refl) as Hx. destruct (Z.le_gt_cases 0 r) as [H0|H0].
  - rewrite (proj2 Hx) by lia. cbn [length]. specialize (IH (r - 1)).
    enough (Z.of_nat (length (List.filter test l)) = r - 1 + 1) by lia. apply IH; [lia|].
    intros i a Ha. rewrite (Ht (S i) a Ha). lia.
  - assert (E : test x = false) by (apply not_true_iff_false; rewrite Hx; lia). rewrite E.
    destruct (List.filter test l) as [|a l'] eqn:Ef; [cbn; lia|]. exfalso.
    assert (Ha : In a (List.filter test l)) by (rewrite Ef; by left). apply filter_In in Ha as [Ha Hta].
    apply list_elem_of_In, list_elem_of_lookup in Ha as [i Hi]. apply (Ht (S i) a Hi) in Hta. lia.
Qed.

(** The fraction of a histogram that [count] of its [n] bounds stand for: the
    [count - 1] bins between them, and the part of the next bin up to the
    constant. *)
Definition interpolated (tc : TypeCacheEntry) (constbound : RangeBound) (hist : list RangeBound) (count : nat)
  : result float8 :=
  let bins := f8_of_Z (Z.of_nat (length hist) - 1) in
  match count with
  | O => Ok (f8_div (f8_of_Z 0) bins)
  | S k =>
      match hist !! k, hist !! S k with
      | Some h1, Some h2 =>
          position ← get_position tc constbound h1 h2;
          Ok (f8_add (f8_div (f8_of_Z (Z.of_nat k)) bins) (f8_div position bins))
      | _, _ => Ok (f8_div (f8_of_Z (Z.of_nat k)) bins)
      end
  end.

(** The answer of a boolean operator that raised no error. *)
Definition holds (res : result bool) : bool := match res with Ok b => b | Err _ => false end.

(** The number of ranges of the histogram for which the operator holds. *)
Definition count_ranges (op : RangeType -> result bool) (values : list RangeType) : nat :=
  length (List.filter (fun r => holds (op r)) values).

Lemma get_position_prob tc value h1 h2 p : get_position tc value h1 h2 = Ok p -> is_prob p.
Proof.
  unfold get_position. destruct (_ && _); [|repeat case_match; intros [= <-]; by vm_compute].
  destruct (infinite value); [intros [= <-]; by vm_compute|].
  destruct (rng_subdiff tc) as [subdiff|]; [|intros [= <-]; by vm_compute].
  intros (w & _ & Hp)%bind_Ok. destruct (_ || _); [injection Hp as <-; by vm_compute|].
  apply bind_Ok in Hp as (d & _ & Hp). cbv zeta in Hp. destruct (isnan (f8_div d w)) eqn:En; injection Hp as <-; [by vm_compute|].
  by apply fMin_fMax_prob.
Qed.

Section Count.
Context `{Toast} (tc : TypeCacheEntry) `{!RangeSubtype tc}.

Lemma scalar_interpolated constbound hist equal :
  StronglySorted (cmp_le (range_cmp_bounds tc)) hist ->
  calc_hist_selectivity_scalar tc constbound hist equal =
  interpolated tc constbound hist (length (List.filter (below_bound tc constbound equal) hist)).
Proof.
  intros Hs. destruct (rbound_bsearch_sorted tc constbound hist equal Hs) as (r & Er & Hr & Hi).
  pose proof (filter_prefix_count _ hist r Hr Hi) as Hc. unfold calc_hist_selectivity_scalar. cbv zeta. rewrite Er.
  cbn [mbind result_bind]. unfold interpolated.
  destruct (length (List.filter (below_bound tc constbound equal) hist)) as [|k].
  - assert (r = -1) as -> by lia. done.
  - assert (r = Z.of_nat k) as -> by lia. rewrite Z.max_l by lia.
    destruct (Z.leb_spec 0 (Z.of_nat k)); [|lia]. cbn [andb].
    destruct (lookup_lt_is_Some_2 hist k ltac:(lia)) as [h1 Hh1]. rewrite Hh1.
    destruct (Z.ltb_spec (Z.of_nat k) (Z.of_nat (length hist) - 1)).
    + destruct (lookup_lt_is_Some_2 hist (S k) ltac:(lia)) as [h2 Hh2]. rewrite Hh2.
      rewrite (array_get_lookup hist (Z.of_nat k) h1), (array_get_lookup hist (Z.of_nat k + 1) h2);
        [done|lia| |lia|by rewrite Nat2Z.id].
      by replace (Z.to_nat (Z.of_nat k + 1)) with (S k) by lia.
    + by rewrite (lookup_ge_None_2 hist (S k)) by lia.
Qed.

Lemma filter_map_length {A B} (f : A -> B) (p : B -> bool) l :
  length (List.filter p (map f l)) = length (List.filter (fun a => p (f a)) l).
Proof. induction l as [|a l IH]; cbn; [done|]. destruct (p (f a)); cbn; by rewrite IH. Qed.

Lemma filter_length_ext {A} (p q : A -> bool) l :
  Forall (fun a => p a = q a) l -> length (List.filter p l) = length (List.filter q l).
Proof. induction 1 as [|a l E Hl IH]; cbn; [done|]. rewrite E. destruct (q a); cbn; by rewrite IH. Qed.

Lemma filter_negb_length {A} (p : A -> bool) l :
  length (List.filter (fun a => negb (p a)) l) = (length l - length (List.filter p l))%nat.
Proof.
  assert (Hle : (length (List.filter p l) <= length l)%nat) by apply filter_length_le.
  pose proof (filter_length p l). lia.
Qed.

Context (values : list RangeType) (constval : RangeType) (cl cu : RangeBound).
Hypothesis Hv : bounds_histogram tc values.
Hypothesis Hwf : range_wf tc constval.
Hypothesis Hd : range_deserialize tc constval = (cl, cu, false).

(** The operators, on a range of the histogram. *)
Lemma hist_operators r :
  In r values ->
  range_before_internal tc r constval = Ok (range_cmp_bounds tc (upper_of tc r) cl <? 0) /\
  range_after_internal tc r constval = Ok (range_cmp_bounds tc (lower_of tc r) cu >? 0) /\
  range_overleft_internal tc r constval = Ok (range_cmp_bounds tc (upper_of tc r) cu <=? 0) /\
  range_overright_internal tc r constval = Ok (range_cmp_bounds tc (lower_of tc r) cl >=? 0).
Proof.
  intros Hin. destruct Hv as [_ Hw Hne _ _]. rewrite List.Forall_forall in Hw, Hne. specialize (Hw r Hin). specialize (Hne r Hin).
  pose proof (types_match tc r constval Hw Hwf) as Ht. unfold lower_of, upper_of.
  unfold range_before_internal, range_after_internal, range_overleft_internal, range_overright_internal. rewrite Ht, Hd.
  destruct (range_deserialize tc r) as [[lo up] e] eqn:Er. destruct (deserialize_sides _ _ _ _ _ Er) as (_ & _ & ->).
  rewrite Hne. cbn [orb fst snd].
  by destruct (range_cmp_bounds tc up cu <=? 0), (range_cmp_bounds tc lo cl >=? 0).
Qed.

Lemma count_uppers op constbound equal :
  (forall r, In r values -> holds (op r) = below_bound tc constbound equal (upper_of tc r)) ->
  calc_hist_selectivity_scalar tc constbound (map (upper_of tc) values) equal =
  interpolated tc constbound (map (upper_of tc) values) (count_ranges op values).
Proof.
  intros Hop. rewrite scalar_interpolated by apply Hv. f_equal. unfold count_ranges. rewrite filter_map_length.
  apply filter_length_ext, List.Forall_forall. intros r Hr. by rewrite Hop.
Qed.

Lemma count_lowers op constbound equal :
  (forall r, In r values -> holds (op r) = negb (below_bound tc constbound equal (lower_of tc r))) ->
  calc_hist_selectivity_scalar tc constbound (map (lower_of tc) values) equal =
  interpolated tc constbound (map (lower_of tc) values) (length values - count_ranges op values).
Proof.
  intros Hop. rewrite scalar_interpolated by apply Hv. f_equal. unfold count_ranges. rewrite filter_map_length.
  rewrite <- filter_negb_length. apply filter_length_ext, List.Forall_forall. intros r Hr. by rewrite (Hop r Hr), negb_involutive.
Qed.

End Count.
