(* ===== verification/GeoSelfuncs.v ===== *)
(** * Join selectivity of range overlap: geo_selfuncs.c

    [rangeoverlapsjoinsel] estimates [&&] join clauses from the frequency
    histograms of the two columns.  The other functions of the file return
    constants.  Then lemmas on the loops. *)

From S2P Require Import Prelude Floats Varlena RangeTypes RangeOrder RangeOps RangeStore Hashfn RangeParse RangeFmgr Sorting.
From S2P Require Import RangeTypanalyze RangeSelfuncs.
From S2P Require Import RangeCanon RangeHist RangeSelProofs.

(** ** The product of two frequency histograms *)

(** [while(idx_1 < size1 && idx_2 < size2)]: the two arrays are read at
    [idx_1] and [idx_2]; every round advances one of them. *)
Fixpoint selectivity_loop (freq1 freq2 : list float8) (size1 size2 interval_length1 interval_length2 : Z) (fuel : nat)
    (idx_1 idx_2 min1 min2 : Z) (total : float8) : result float8 :=
  if (idx_1 <? size1) && (idx_2 <? size2) then
    match fuel with
    | O => undefined "out of fuel"
    | S fuel' =>
        f1 ← array_get freq1 idx_1;
        f2 ← array_get freq2 idx_2;
        let total := f8_add total (f8_mul f1 f2) in
        let next := selectivity_loop freq1 freq2 size1 size2 interval_length1 interval_length2 fuel' in
        if min1 <? min2 then next (idx_1 + 1) idx_2 (int32 (min1 + interval_length1)) min2 total
        else if min1 >? min2 then next idx_1 (idx_2 + 1) min1 (int32 (min2 + interval_length2)) total
        else next (idx_1 + 1) (idx_2 + 1) (int32 (min1 + interval_length1)) (int32 (min2 + interval_length2)) total
    end
  else Ok total.

Definition computeSelectivity (trunc_freq1 trunc_freq2 : list float8)
    (size1 size2 interval_length1 interval_length2 min1 min2 : Z) : result float8 :=
  selectivity_loop trunc_freq1 trunc_freq2 size1 size2 interval_length1 interval_length2
    (Z.to_nat size1 + Z.to_nat size2) 0 0 min1 min2 (f8_of_Z 0).

(** ** Aligning the histograms *)

Definition values_in_range : result (Z * Z * Z * Z) :=
  elog "rangeoverlapsjoinsel_inner: values in range. Slowly quitting the loop.".

Definition not_found : result (Z * Z * Z * Z) := elog "rangeoverlapsjoinsel_inner: Overlap not found. Stopping".

(** Skip the leading intervals of either histogram that end before the other
    begins: the results are [min_val1], [min_val2], [x_low] and [y_low]. *)
Fixpoint align_low (n1 n2 interval_length1 interval_length2 : Z) (fuel : nat) (min_val1 min_val2 x_low y_low : Z)
  : result (Z * Z * Z * Z) :=
  if negb (IsInRange min_val1 (int32 (min_val1 + interval_length1)) min_val2 (int32 (min_val2 + interval_length2))) then
    match fuel with
    | O => undefined "out of fuel"
    | S fuel' =>
        let again min_val1 min_val2 x_low y_low :=
          if (x_low =? n1) || (y_low =? n2) then not_found
          else align_low n1 n2 interval_length1 interval_length2 fuel' min_val1 min_val2 x_low y_low in
        if min_val1 <? min_val2 then again (int32 (min_val1 + interval_length1)) min_val2 (x_low + 1) y_low
        else if min_val2 <? min_val1 then again min_val1 (int32 (min_val2 + interval_length2)) x_low (y_low + 1)
        else values_in_range
    end
  else Ok (min_val1, min_val2, x_low, y_low).

(** The same from the other end: [max_val1], [max_val2], [x_high], [y_high]. *)
Fixpoint align_high (interval_length1 interval_length2 : Z) (fuel : nat) (max_val1 max_val2 x_high y_high : Z)
  : result (Z * Z * Z * Z) :=
  if negb (IsInRange (int32 (max_val1 - interval_length1)) max_val1 (int32 (max_val2 - interval_length2)) max_val2) then
    match fuel with
    | O => undefined "out of fuel"
    | S fuel' =>
        let again max_val1 max_val2 x_high y_high :=
          if (x_high =? 0) || (y_high =? 0) then not_found
          else align_high interval_length1 interval_length2 fuel' max_val1 max_val2 x_high y_high in
        if max_val1 >? max_val2 then again (int32 (max_val1 - interval_length1)) max_val2 (x_high - 1) y_high
        else if max_val2 >? max_val1 then again max_val1 (int32 (max_val2 - interval_length2)) x_high (y_high - 1)
        else values_in_range
    end
  else Ok (max_val1, max_val2, x_high, y_high).

Definition rangeoverlapsjoinsel_inner (freq_values1 freq_values2 : list float8) (rows1 rows2 min1 min2 max1 max2 : Z)
  : result float8 :=
  let n1 := Z.of_nat (length freq_values1) in
  let n2 := Z.of_nat (length freq_values2) in
  interval_length1 ← roundUpDivision (int32 (int32 (max1 - min1) + 1)) n1;
  interval_length2 ← roundUpDivision (int32 (int32 (max2 - min2) + 1)) n2;
  '(min_val1, min_val2, x_low, y_low) ←
    align_low n1 n2 interval_length1 interval_length2 (length freq_values1 + length freq_values2) min1 min2 0 0;
  '(max_val1, max_val2, x_high, y_high) ←
    align_high interval_length1 interval_length2 (length freq_values1 + length freq_values2) max1 max2 (n1 - 1) (n2 - 1);
  result ← computeSelectivity (drop (Z.to_nat x_low) freq_values1) (drop (Z.to_nat y_low) freq_values2)
             (x_high - x_low + 1) (y_high - y_low + 1) interval_length1 interval_length2 min_val1 min_val2;
  Ok (f8_div result (f8_of_Z (int32 (rows1 * rows2)))).

(** ** The function called by the planner *)

Section JoinSel.
Context `{Toast} `{Catalog} (address : list Z -> Z).

Definition joinsel_default : float8 := f8_dec 5 1000.

(** [vardata1] and [vardata2] are what [get_join_variables] found. *)
Definition rangeoverlapsjoinsel (vardata1 vardata2 : VariableStatData) (operator : Oid) : Fn FnExtra float8 :=
  typcache ← range_get_typcache (vartype vardata1);
  if negb (operator =? OID_RANGE_OVERLAP_OP) then mret joinsel_default
  else if negb (statistic_proc_security_check vardata1 OperatorProc) then mret joinsel_default
  else if negb (statistic_proc_security_check vardata2 OperatorProc) then mret joinsel_default
  else
    match histograms vardata1, histograms vardata2 with
    | Some (bounds1, freq_values1), Some (bounds2, freq_values2) =>
        '(min1, max1, nhist1) ← lift (hist_extent address typcache bounds1);
        '(min2, max2, nhist2) ← lift (hist_extent address typcache bounds2);
        selec ← lift (if IsInRange min1 max1 min2 max2
                      then rangeoverlapsjoinsel_inner freq_values1 freq_values2 nhist1 nhist2 min1 min2 max1 max2
                      else Ok joinsel_default);
        mret (CLAMP_PROBABILITY selec)
    | _, _ => mret joinsel_default
    end.

End JoinSel.

(** ** Constant estimates *)

Definition areasel : float8 := f8_dec 5 1000.
Definition areajoinsel : float8 := f8_dec 5 1000.
Definition positionsel : float8 := f8_dec 1 10.
Definition positionjoinsel : float8 := f8_dec 1 10.
Definition contsel : float8 := f8_dec 1 1000.
Definition contjoinsel : float8 := f8_dec 1 1000.

(** ** The frequency histogram estimates: intervals, loops and errors *)

Lemma int32_id z : - 2 ^ 31 <= z < 2 ^ 31 -> int32 z = z.
Proof. intros Hz. unfold int32. apply swrap_small; [lia|]. unfold in_sint. lia. Qed.

(** ** Rounding up *)

Lemma roundUpDivision_pos n d :
  0 <= n < 2 ^ 31 -> 0 < d ->
  exists q, roundUpDivision n d = Ok q /\ n <= q * d < n + d /\ 0 <= q <= n.
Proof.
  intros Hn Hd. unfold roundUpDivision. destruct (Z.eqb_spec d 0); [lia|].
  pose proof (Z.quot_div_nonneg n d ltac:(lia) Hd) as Eq. pose proof (Z.rem_mod_nonneg n d ltac:(lia) Hd) as Er.
  pose proof (Z.div_mod n d). pose proof (Z.mod_pos_bound n d Hd).
  assert (0 <= n / d) by (apply Z.div_pos; lia).
  cbv zeta. rewrite Eq, Er. destruct (Z.eqb_spec (n mod d) 0) as [E|E]; cbn [negb].
  - exists (n / d). split; [done|]. split; nia.
  - rewrite int32_id by nia. exists (n / d + 1). split; [done|]. split; nia.
Qed.

(** ** Overlap with a constant *)

Section Overlap.
Context (min1 interval_length a b : Z).

(** All frequencies of intervals that the constant touches. *)
Fixpoint sum_hits (freqs : list float8) (i : Z) (sum : float8) : float8 :=
  match freqs with
  | [] => sum
  | f :: freqs' => sum_hits freqs' (i + 1) (if hits min1 interval_length a b i then f8_add sum f else sum)
  end.

(** The intervals from [i] on, [n] of them, lie in the range of [int]. *)
Definition in_int (n : Z) : Prop :=
  0 <= interval_length /\ - 2 ^ 31 <= min1 /\ 0 <= n < 2 ^ 31 - 1 /\ min1 + n * interval_length < 2 ^ 31 /\ n * interval_length < 2 ^ 31.

Lemma hits_spec n i :
  in_int n -> 0 <= i < n ->
  hits min1 interval_length a b i = true <->
  a <= min1 + (i + 1) * interval_length /\ min1 + i * interval_length <= b.
Proof.
  intros (Hl & Hm & Hn & Hs & Hp) Hi. unfold hits, IsInRange, interval_low, interval_high.
  assert (0 <= i * interval_length <= n * interval_length) by nia.
  assert (0 <= (i + 1) * interval_length <= n * interval_length) by nia.
  rewrite (int32_id (i + 1)) by lia. rewrite !(int32_id (_ * _)) by lia. rewrite !int32_id by lia.
  rewrite negb_true_iff, orb_false_iff, Z.ltb_ge, Z.gtb_ltb, Z.ltb_ge. lia.
Qed.

Lemma no_hits_after n freqs i sum :
  in_int n -> 0 <= i -> i + Z.of_nat (length freqs) <= n -> b < min1 + i * interval_length ->
  sum_hits freqs i sum = sum.
Proof.
  intros Hn. revert i sum. induction freqs as [|f freqs IH]; intros i sum Hi Hlen Hb; cbn [sum_hits length] in *; [done|].
  destruct (hits min1 interval_length a b i) eqn:E.
  { apply (hits_spec n) in E; [lia|done|lia]. }
  apply IH; [lia|lia|]. destruct Hn as (? & _). nia.
Qed.

(** Stopping after the last touched interval loses nothing. *)
Lemma sum_overlap_hits n freqs i out sum :
  in_int n -> 0 <= i -> i + Z.of_nat (length freqs) <= n ->
  (out = true -> 0 < i /\ a <= min1 + i * interval_length) ->
  sum_overlap min1 interval_length a b freqs i out sum = sum_hits freqs i sum.
Proof.
  intros Hn. revert i out sum. induction freqs as [|f freqs IH]; intros i out sum Hi Hlen Hout; cbn [sum_overlap sum_hits length] in *; [done|].
  pose proof (hits_spec n i Hn ltac:(lia)) as Hs.
  destruct (hits min1 interval_length a b i).
  - apply IH; [lia|lia|]. intros _. destruct Hs as [Hs _]. specialize (Hs eq_refl). lia.
  - destruct out; [|apply IH; [lia|lia|done]].
    destruct (Hout eq_refl) as [_ Ha].
    assert (Hb : b < min1 + i * interval_length).
    { destruct (Z.lt_ge_cases b (min1 + i * interval_length)); [done|]. destruct Hs as [_ Hs].
      destruct Hn as (? & _). specialize (Hs ltac:(nia)). done. }
    destruct Hn as (Hl & Hn'). symmetry. apply (no_hits_after n); [done|lia|lia|nia].
Qed.

(** A constant that touches no interval lets the sum run over all of them. *)
Lemma sum_left_all n freqs i sum :
  in_int n -> 0 <= i -> i + Z.of_nat (length freqs) <= n -> b < min1 ->
  sum_left min1 interval_length a b freqs i sum = fold_left f8_add freqs sum.
Proof.
  intros Hn. revert i sum. induction freqs as [|f freqs IH]; intros i sum Hi Hlen Hb; cbn [sum_left fold_left length] in *; [done|].
  destruct (hits min1 interval_length a b i) eqn:E; [|apply IH; lia].
  apply (hits_spec n) in E; [|done|lia]. destruct Hn as (? & _). nia.
Qed.

End Overlap.

(** ** Aligning two histograms *)

Section Align.
Context (n1 n2 il1 il2 min1 max1 min2 max2 : Z).

(** The intervals of each histogram cover its values, and nothing leaves the
    range of [int]. *)
Hypothesis Hn : 0 < n1 /\ 0 < n2.
Hypothesis Hil : 0 < il1 < 2 ^ 30 /\ 0 < il2 < 2 ^ 30.
Hypothesis Hmin : - 2 ^ 29 < min1 /\ - 2 ^ 29 < min2.
Hypothesis Hmax : max1 < 2 ^ 29 /\ max2 < 2 ^ 29.
Hypothesis Hcover1 : max1 < min1 + n1 * il1.
Hypothesis Hcover2 : max2 < min2 + n2 * il2.
Hypothesis Hmeet : min1 <= max2 /\ min2 <= max1.

Lemma align_low_x fuel k :
  0 <= k < n1 -> min1 + k * il1 <= min2 -> n1 - k <= Z.of_nat fuel ->
  exists k', align_low n1 n2 il1 il2 fuel (min1 + k * il1) min2 k 0 = Ok (min1 + k' * il1, min2, k', 0) /\ k <= k' < n1.
Proof.
  revert k. induction fuel as [|fuel IH]; intros k Hk Hm Hf; [lia|]. cbn [align_low]. unfold IsInRange.
  assert (0 <= k * il1) by nia. rewrite !int32_id by lia.
  destruct (Z.ltb_spec (min1 + k * il1 + il1) min2) as [Hlt|Hge]; cbn [negb orb].
  - destruct (Z.ltb_spec (min1 + k * il1) min2); [|lia].
    destruct (Z.eqb_spec (k + 1) n1) as [E|]; [exfalso; nia|]. destruct (Z.eqb_spec 0 n2); [lia|]. cbn [orb].
    replace (min1 + k * il1 + il1) with (min1 + (k + 1) * il1) by lia.
    destruct (IH (k + 1)) as (k' & -> & Hk'); [lia..|]. exists k'. split; [done|lia].
  - destruct (Z.gtb_spec (min1 + k * il1) (min2 + il2)); [lia|]. cbn [negb]. exists k. split; [done|lia].
Qed.

Lemma align_low_y fuel k :
  0 <= k < n2 -> min2 + k * il2 <= min1 -> n2 - k <= Z.of_nat fuel ->
  exists k', align_low n1 n2 il1 il2 fuel min1 (min2 + k * il2) 0 k = Ok (min1, min2 + k' * il2, 0, k') /\ k <= k' < n2.
Proof.
  revert k. induction fuel as [|fuel IH]; intros k Hk Hm Hf; [lia|]. cbn [align_low]. unfold IsInRange.
  assert (0 <= k * il2) by nia. rewrite !int32_id by lia.
  destruct (Z.ltb_spec (min1 + il1) (min2 + k * il2)); [lia|]. cbn [orb].
  destruct (Z.gtb_spec min1 (min2 + k * il2 + il2)) as [Hlt|Hge]; cbn [negb].
  - destruct (Z.ltb_spec min1 (min2 + k * il2)); [lia|]. destruct (Z.ltb_spec (min2 + k * il2) min1); [|lia].
    destruct (Z.eqb_spec 0 n1); [lia|]. destruct (Z.eqb_spec (k + 1) n2) as [E|]; [exfalso; nia|]. cbn [orb].
    replace (min2 + k * il2 + il2) with (min2 + (k + 1) * il2) by lia.
    destruct (IH (k + 1)) as (k' & -> & Hk'); [lia..|]. exists k'. split; [done|lia].
  - exists k. split; [done|lia].
Qed.

(** The search from the low end always succeeds. *)
Lemma align_low_ok fuel :
  n1 + n2 <= Z.of_nat fuel ->
  exists mv1 mv2 x y, align_low n1 n2 il1 il2 fuel min1 min2 0 0 = Ok (mv1, mv2, x, y) /\ 0 <= x < n1 /\ 0 <= y < n2.
Proof.
  intros Hf. destruct (Z.le_ge_cases min1 min2).
  - destruct (align_low_x fuel 0) as (k' & E & Hk'); [lia..|]. rewrite Z.mul_0_l, Z.add_0_r in E. rewrite E.
    eexists _, _, _, _. split; [done|]. lia.
  - destruct (align_low_y fuel 0) as (k' & E & Hk'); [lia..|]. rewrite Z.mul_0_l, Z.add_0_r in E. rewrite E.
    eexists _, _, _, _. split; [done|]. lia.
Qed.

(** Where the search from the high end gives up: it has to move away from the
    last interval of the first histogram, and either the second histogram has
    one interval only, or it reaches the first interval of the first one. *)
Definition gives_up_x : bool := (max2 <? max1 - il1) && ((n2 =? 1) || (max2 <? max1 - (n1 - 1) * il1)).
Definition gives_up_y : bool := (max1 <? max2 - il2) && ((n1 =? 1) || (max1 <? max2 - (n2 - 1) * il2)).

Lemma align_high_x fuel k :
  0 <= k < n1 -> max2 <= max1 - k * il1 -> n1 - k <= Z.of_nat fuel ->
  if (max2 <? max1 - (k + 1) * il1) && ((n2 =? 1) || (max2 <? max1 - (n1 - 1) * il1)) then
    align_high il1 il2 fuel (max1 - k * il1) max2 (n1 - 1 - k) (n2 - 1) = not_found
  else exists k', align_high il1 il2 fuel (max1 - k * il1) max2 (n1 - 1 - k) (n2 - 1) =
         Ok (max1 - k' * il1, max2, n1 - 1 - k', n2 - 1) /\ k <= k' < n1.
Proof.
  revert k. induction fuel as [|fuel IH]; intros k Hk Hm Hf; [lia|]. cbn [align_high]. unfold IsInRange.
  assert (0 <= k * il1) by nia. rewrite !int32_id by lia.
  replace (max1 - (k + 1) * il1) with (max1 - k * il1 - il1) by lia.
  destruct (Z.ltb_spec (max1 - k * il1) (max2 - il2)); [lia|]. cbn [orb].
  destruct (Z.gtb_spec (max1 - k * il1 - il1) max2) as [Hgt|Hle];
    (destruct (Z.ltb_spec max2 (max1 - k * il1 - il1)); [|try lia]); try lia; cbn [negb andb].
  - destruct (Z.gtb_spec (max1 - k * il1) max2); [|lia].
    assert (Hk1 : k + 1 < n1) by nia.
    destruct (Z.eqb_spec n2 1) as [E2|N2]; cbn [orb].
    { destruct (Z.eqb_spec (n2 - 1) 0); [|lia]. by rewrite orb_true_r. }
    destruct (Z.eqb_spec (n2 - 1) 0); [lia|]. rewrite orb_false_r.
    destruct (Z.eqb_spec (n1 - 1 - k - 1) 0) as [E1|N1].
    { destruct (Z.ltb_spec max2 (max1 - (n1 - 1) * il1)); [done|]. exfalso. nia. }
    specialize (IH (k + 1)). replace (max1 - k * il1 - il1) with (max1 - (k + 1) * il1) in * by lia.
    replace (n1 - 1 - k - 1) with (n1 - 1 - (k + 1)) by lia.
    specialize (IH ltac:(lia) ltac:(lia) ltac:(lia)).
    destruct (Z.eqb_spec n2 1); [lia|]. cbn [orb] in IH.
    destruct (Z.ltb_spec max2 (max1 - (n1 - 1) * il1)) as [Hb|Hb].
    + destruct (Z.ltb_spec max2 (max1 - (k + 1 + 1) * il1)); [exact IH|]. exfalso. nia.
    + rewrite andb_false_r in IH. destruct IH as (k' & -> & Hk'). exists k'. split; [done|lia].
  - exists k. split; [done|lia].
Qed.

Lemma align_high_y fuel k :
  0 <= k < n2 -> max1 <= max2 - k * il2 -> n2 - k <= Z.of_nat fuel ->
  if (max1 <? max2 - (k + 1) * il2) && ((n1 =? 1) || (max1 <? max2 - (n2 - 1) * il2)) then
    align_high il1 il2 fuel max1 (max2 - k * il2) (n1 - 1) (n2 - 1 - k) = not_found
  else exists k', align_high il1 il2 fuel max1 (max2 - k * il2) (n1 - 1) (n2 - 1 - k) =
         Ok (max1, max2 - k' * il2, n1 - 1, n2 - 1 - k') /\ k <= k' < n2.
Proof.
  revert k. induction fuel as [|fuel IH]; intros k Hk Hm Hf; [lia|]. cbn [align_high]. unfold IsInRange.
  assert (0 <= k * il2) by nia. rewrite !int32_id by lia.
  replace (max2 - (k + 1) * il2) with (max2 - k * il2 - il2) by lia.
  destruct (Z.gtb_spec (max1 - il1) (max2 - k * il2)); [lia|]. rewrite orb_false_r.
  destruct (Z.ltb_spec max1 (max2 - k * il2 - il2)) as [Hgt|Hle]; cbn [negb andb].
  - destruct (Z.gtb_spec max1 (max2 - k * il2)); [lia|]. destruct (Z.gtb_spec (max2 - k * il2) max1); [|lia].
    assert (Hk1 : k + 1 < n2) by nia.
    destruct (Z.eqb_spec n1 1) as [E2|N2]; cbn [orb].
    { destruct (Z.eqb_spec (n1 - 1) 0); [|lia]. done. }
    destruct (Z.eqb_spec (n1 - 1) 0); [lia|]. cbn [orb].
    destruct (Z.eqb_spec (n2 - 1 - k - 1) 0) as [E1|N1].
    { destruct (Z.ltb_spec max1 (max2 - (n2 - 1) * il2)); [done|]. exfalso. nia. }
    specialize (IH (k + 1)). replace (max2 - k * il2 - il2) with (max2 - (k + 1) * il2) in * by lia.
    replace (n2 - 1 - k - 1) with (n2 - 1 - (k + 1)) by lia.
    specialize (IH ltac:(lia) ltac:(lia) ltac:(lia)).
    destruct (Z.eqb_spec n1 1); [lia|]. cbn [orb] in IH.
    destruct (Z.ltb_spec max1 (max2 - (n2 - 1) * il2)) as [Hb|Hb].
    + destruct (Z.ltb_spec max1 (max2 - (k + 1 + 1) * il2)); [exact IH|]. exfalso. nia.
    + rewrite andb_false_r in IH. destruct IH as (k' & -> & Hk'). exists k'. split; [done|lia].
  - exists k. split; [done|lia].
Qed.

Lemma align_high_cases fuel :
  n1 + n2 <= Z.of_nat fuel ->
  if gives_up_x || gives_up_y then align_high il1 il2 fuel max1 max2 (n1 - 1) (n2 - 1) = not_found
  else exists mv1 mv2 x y, align_high il1 il2 fuel max1 max2 (n1 - 1) (n2 - 1) = Ok (mv1, mv2, x, y) /\ x < n1 /\ y < n2.
Proof.
  intros Hf. unfold gives_up_x, gives_up_y. destruct (Z.le_ge_cases max2 max1).
  - pose proof (align_high_x fuel 0 ltac:(lia) ltac:(lia) ltac:(lia)) as Hx.
    rewrite Z.mul_0_l, !Z.sub_0_r, Z.add_0_l, Z.mul_1_l in Hx.
    destruct (Z.ltb_spec max1 (max2 - il2)); [lia|]. rewrite orb_false_r.
    destruct (_ && _); [exact Hx|]. destruct Hx as (k' & -> & Hk'). eexists _, _, _, _. split; [done|lia].
  - pose proof (align_high_y fuel 0 ltac:(lia) ltac:(lia) ltac:(lia)) as Hy.
    rewrite Z.mul_0_l, !Z.sub_0_r, Z.add_0_l, Z.mul_1_l in Hy.
    destruct (Z.ltb_spec max2 (max1 - il1)); [lia|]. cbn [andb orb].
    destruct (_ && _); [exact Hy|]. destruct Hy as (k' & -> & Hk'). eexists _, _, _, _. split; [done|lia].
Qed.

End Align.

(** ** The product returns, and reads inside the arrays *)

Lemma selectivity_loop_total freq1 freq2 size1 size2 il1 il2 fuel idx_1 idx_2 min1 min2 total :
  0 <= idx_1 -> 0 <= idx_2 -> size1 <= Z.of_nat (length freq1) -> size2 <= Z.of_nat (length freq2) ->
  Z.max 0 (size1 - idx_1) + Z.max 0 (size2 - idx_2) <= Z.of_nat fuel ->
  exists s, selectivity_loop freq1 freq2 size1 size2 il1 il2 fuel idx_1 idx_2 min1 min2 total = Ok s.
Proof.
  revert idx_1 idx_2 min1 min2 total. induction fuel as [|fuel IH]; intros idx_1 idx_2 min1 min2 total H1 H2 Hs1 Hs2 Hf;
    cbn [selectivity_loop]; (destruct ((idx_1 <? size1) && (idx_2 <? size2)) eqn:E; [|by eexists]);
    apply andb_true_iff in E as [E1%Z.ltb_lt E2%Z.ltb_lt]; [lia|].
  destruct (array_get_in freq1 idx_1 ltac:(lia)) as (f1 & _ & ->), (array_get_in freq2 idx_2 ltac:(lia)) as (f2 & _ & ->).
  cbn [mbind result_bind]. cbv zeta. destruct (min1 <? min2); [apply IH; lia|]. destruct (min1 >? min2); apply IH; lia.
Qed.

(** ** The join estimate *)

Lemma joinsel_inner_cases freq1 freq2 rows1 rows2 min1 min2 max1 max2 :
  let n1 := Z.of_nat (length freq1) in
  let n2 := Z.of_nat (length freq2) in
  0 < n1 -> 0 < n2 -> - 2 ^ 28 < min1 <= max1 -> max1 < 2 ^ 28 -> - 2 ^ 28 < min2 <= max2 -> max2 < 2 ^ 28 ->
  IsInRange min1 max1 min2 max2 = true ->
  exists il1 il2, roundUpDivision (max1 - min1 + 1) n1 = Ok il1 /\ roundUpDivision (max2 - min2 + 1) n2 = Ok il2 /\
    if gives_up_x n1 n2 il1 max1 max2 || gives_up_y n1 n2 il2 max1 max2
    then rangeoverlapsjoinsel_inner freq1 freq2 rows1 rows2 min1 min2 max1 max2 =
           elog "rangeoverlapsjoinsel_inner: Overlap not found. Stopping"
    else exists s, rangeoverlapsjoinsel_inner freq1 freq2 rows1 rows2 min1 min2 max1 max2 = Ok s.
Proof.
  cbv zeta. intros Hn1 Hn2 Hm1 Hx1 Hm2 Hx2 Hin.
  unfold IsInRange in Hin. rewrite negb_true_iff, orb_false_iff, Z.ltb_ge, Z.gtb_ltb, Z.ltb_ge in Hin.
  destruct (roundUpDivision_pos (max1 - min1 + 1) (Z.of_nat (length freq1)) ltac:(lia) Hn1) as (il1 & E1 & C1 & B1).
  destruct (roundUpDivision_pos (max2 - min2 + 1) (Z.of_nat (length freq2)) ltac:(lia) Hn2) as (il2 & E2 & C2 & B2).
  exists il1, il2. split; [done|]. split; [done|].
  assert (P1 : 0 < il1) by nia. assert (P2 : 0 < il2) by nia.
  unfold rangeoverlapsjoinsel_inner. cbv zeta. 
  rewrite (int32_id (max1 - min1)), (int32_id (max2 - min2)), (int32_id (max1 - min1 + 1)), (int32_id (max2 - min2 + 1)) by lia.
  rewrite E1, E2. cbn [mbind result_bind].
  set (n1 := Z.of_nat (length freq1)) in *. set (n2 := Z.of_nat (length freq2)) in *.
  edestruct (align_low_ok n1 n2 il1 il2 min1 max1 min2 max2) with (fuel := (length freq1 + length freq2)%nat)
    as (mv1 & mv2 & x & y & -> & Hx & Hy); [lia..|]. cbn [mbind result_bind].
  assert (Hh := align_high_cases n1 n2 il1 il2 min1 max1 min2 max2).
  repeat match type of Hh with ?P -> _ => specialize (Hh ltac:(lia)) end. specialize (Hh (length freq1 + length freq2)%nat ltac:(lia)).
  destruct (_ || _); [by rewrite Hh|]. destruct Hh as (xv1 & xv2 & xh & yh & -> & Hxh & Hyh). cbn [mbind result_bind].
  unfold computeSelectivity.
  destruct (selectivity_loop_total (drop (Z.to_nat x) freq1) (drop (Z.to_nat y) freq2) (xh - x + 1) (yh - y + 1) il1 il2
    (Z.to_nat (xh - x + 1) + Z.to_nat (yh - y + 1)) 0 0 mv1 mv2 (f8_of_Z 0)) as [s ->];
    rewrite ?length_drop; try lia. by eexists.
Qed.
