(* ===== verification/RangeStatTheorems.v ===== *)
(** * Properties of the statistics and selectivity functions *)

From S2P Require Import Prelude Floats Varlena RangeTypes RangeOrder RangeOps RangeStore Hashfn RangeCanon.
From S2P Require Import RangeParse RangeFmgr RangeTheorems Sorting QSort.
From S2P Require Import RangeTypanalyze RangeHist RangeSelfuncs RangeSelProofs GeoSelfuncs.

#[local] Existing Instance plain_toast.

(** ** ANALYZE *)

(** The histogram loops visit the subscripts [(i * (n - 1)) / (h - 1)] that
    their comment states, from 0 to [n - 1], all inside the sorted sample, by
    adding quotient and remainder separately (the product is never formed). *)
Theorem hist_subscripts_exact n num_bins :
  2 <= n -> 1 <= num_bins ->
  let h := num_hist n num_bins in
  2 <= h <= n /\
  sample_positions n num_bins = map (fun i => (Z.of_nat i * (n - 1)) / (h - 1)) (seq 0 (Z.to_nat h)) /\
  Forall (fun p => 0 <= p < n) (sample_positions n num_bins) /\
  sample_positions n num_bins !! 0%nat = Some 0 /\ sample_positions n num_bins !! Z.to_nat (h - 1) = Some (n - 1).
Proof.
  intros Hn Hb. cbv zeta. destruct (sample_positions_spec n num_bins Hn Hb) as [Hh E].
  split; [done|]. split; [done|]. split; [by apply positions_range|]. rewrite E. split.
  - rewrite list_lookup_fmap, lookup_seq_lt by lia. cbn. by rewrite Z.div_0_l by lia.
  - rewrite list_lookup_fmap, lookup_seq_lt by lia. cbn [fmap option_fmap option_map]. f_equal.
    rewrite Nat.add_0_l, Z2Nat.id by lia. by apply position_last.
Qed.

Lemma hist_subscripts_exact_witness : sample_positions 10 3 = [0; 3; 6; 9].
Proof. exact (proj1 (proj2 (hist_subscripts_exact 10 3 ltac:(lia) ltac:(lia)))). Defined.

(** The sample of the witnesses: NULL and three ranges. *)
Definition demo_sample : list SampleRow := [Some (17, r_1_10); None; Some (17, r_5_20); Some (17, r_3_4)].

Lemma demo_sample_wf : Forall (row_wf int4range) demo_sample.
Proof.
  constructor; [exact r_1_10_wf|]. constructor; [exact I|]. constructor; [exact r_5_20_wf|].
  constructor; [exact r_3_4_wf|constructor].
Qed.

(** C36: the bounds histogram of a sample with at least two non-empty ranges is
    one of valid ranges: although lower and upper bounds come from different
    rows, each pair is in order, so that serializing it can only fail for lack
    of memory; no histogram range is empty, their lower bounds and their upper
    bounds ascend, and they span all ranges of the sample.  Reading the sample
    fails only as the [subtype_diff] function can. *)
Theorem bounds_histogram_valid `{Toast} `{Sorter} tc (Hs : RangeSubtype tc) num_bins sample :
  Forall (row_wf tc) sample -> 1 <= num_bins ->
  match scan_sample tc sample with
  | Ok c => 2 <= non_empty_cnt c ->
      match build_bounds_hist tc num_bins c with
      | Ok (_, _, values) =>
          Z.of_nat (length values) = num_hist (non_empty_cnt c) num_bins /\
          bounds_histogram tc values /\
          exists first last, values !! 0%nat = Some first /\ values !! (length values - 1)%nat = Some last /\
            forall size r lo up, In (Some (size, r)) sample -> range_deserialize tc r = (lo, up, false) ->
              range_cmp_bounds tc (lower_of tc first) lo <= 0 /\ range_cmp_bounds tc up (upper_of tc last) <= 0
      | Err e => e = mkError ERRCODE_INTERNAL_ERROR "invalid memory alloc request size"
      end
  | Err e => subdiff_failure tc e
  end.
Proof.
  intros Hwf Hb. pose proof (scan_sample_ok tc sample Hwf) as Hc.
  destruct (scan_sample tc sample) as [c|e] eqn:Ec; [|done]. intros Hn.
  pose proof (build_bounds_hist_ok tc _ _ num_bins Hc Hn Hb) as Hh.
  destruct (build_bounds_hist tc num_bins c) as [[[tl tu] values]|e]; [|done].
  destruct Hh as (? & ? & first & last & ? & ? & Hlo & Hup). split_and!; [done|done|].
  exists first, last. split_and!; [done|done|]. intros size r lo up Hin Hd.
  destruct (scan_sample_in tc sample c size r lo up Ec Hin Hd). split; [by apply Hlo|by apply Hup].
Qed.

Lemma bounds_histogram_valid_witness :
  match scan_sample int4range demo_sample with
  | Ok c => 
      match build_bounds_hist int4range 100 c with
      | Ok (_, _, values) => Z.of_nat (length values) = 3 /\ bounds_histogram int4range values
      | Err e => False
      end
  | Err e => False
  end.
Proof.
  pose proof (bounds_histogram_valid int4range _ 100 demo_sample demo_sample_wf ltac:(lia)) as Hh.
  assert (E : match scan_sample int4range demo_sample with
              | Ok c => (2 <=? non_empty_cnt c) &&
                  match build_bounds_hist int4range 100 c with Ok (_, _, v) => (length v =? 3)%nat | Err _ => false end
              | Err _ => false
              end = true) by (vm_compute; reflexivity).
  destruct (scan_sample int4range demo_sample) as [c|e]; [|discriminate E].
  apply andb_true_iff in E as [E1 E2]. specialize (Hh (proj1 (Z.leb_le _ _) E1)).
  destruct (build_bounds_hist int4range 100 c) as [[[tl tu] values]|e]; [|discriminate E2].
  destruct Hh as (_ & H2 & _). split; [|exact H2]. apply Nat.eqb_eq in E2. lia.
Defined.

(** The counting loops of the frequency histogram read one element past
    the end of the arrays of bounds before they test the index, but what they
    find there has no influence on the histogram. *)
Theorem count_frequencies_overread address lowers uppers interval_length nb min b1 b2 c1 c2 :
  length uppers = length lowers ->
  count_frequencies address lowers uppers (Z.of_nat (length lowers)) interval_length b1 c1 nb min =
  count_frequencies address lowers uppers (Z.of_nat (length lowers)) interval_length b2 c2 nb min.
Proof. intros Hl. apply count_intervals_beyond; lia. Qed.

Lemma count_frequencies_overread_witness :
  count_frequencies (fun _ => 0) [int4_lower 1] [int4_upper 10] 1 1 (int4_lower 7) (int4_upper 7) 9 1 =
  count_frequencies (fun _ => 0) [int4_lower 1] [int4_upper 10] 1 1 (int4_lower (-7)) (int4_upper 0) 9 1.
Proof. exact (count_frequencies_overread (fun _ => 0) [int4_lower 1] [int4_upper 10] 1 9 1 _ _ _ _ eq_refl). Defined.

(** With fewer than two non-empty ranges in a sample that is not all NULL,
    [compute_range_stats] runs into undefined behaviour: it passes the
    uninitialized pointers [temp_lowers] and [temp_uppers] to
    [ComputeFrequencyHistogram], which reads through them. *)
Theorem analyze_few_ranges_undefined `{Toast} `{Sorter} tc address num_bins beyond sample c width :
  scan_sample tc sample = Ok c -> 0 < non_null_cnt c -> non_empty_cnt c < 2 ->
  f8_to_int (f8_div (total_width c) (f8_of_Z (non_null_cnt c))) = Ok width ->
  exists msg, compute_range_stats address tc num_bins beyond sample = undefined msg.
Proof.
  intros Hc Hnn Hne Hw. unfold compute_range_stats. rewrite Hc. cbn [mbind result_bind]. cbv zeta.
  destruct (Z.gtb_spec (non_null_cnt c) 0); [|lia]. rewrite Hw. cbn [mbind result_bind].
  destruct (Z.geb_spec (non_empty_cnt c) 2); [lia|]. by eexists.
Qed.

Definition one_row_counts : SampleCounts :=
  Eval vm_compute in match scan_sample int4range [Some (17, r_1_10)] with Ok c => c | Err _ => no_rows end.

Lemma analyze_few_ranges_undefined_witness :
  exists msg, compute_range_stats (fun _ => 0) int4range 100 (int4_lower 0, int4_upper 0) [Some (17, r_1_10)] = undefined msg.
Proof.
  apply (analyze_few_ranges_undefined int4range (fun _ => 0) 100 _ [Some (17, r_1_10)] one_row_counts 17); vm_compute; reflexivity.
Defined.

(** [[5,)] twice: the greatest upper bound is infinite, and counts as 0. *)
Definition unbounded_range : RangeType :=
  mkRange (SET_VARSIZE 13) INT4RANGEOID (le_bytes 4 5 ++ [Z.lor RANGE_LB_INC RANGE_UB_INF]).

(** ANALYZE divides by zero on a column of ranges without upper bound, because
    [ComputeFrequencyHistogram] takes the value of an infinite bound for a
    number. *)
Theorem analyze_infinite_bounds_divides_by_zero :
  compute_range_stats (fun _ => 0) int4range 100 (int4_lower 0, int4_upper 0)
    [Some (13, unbounded_range); Some (13, unbounded_range)] = undefined "division by zero".
Proof. vm_compute. reflexivity. Qed.

(** ** Estimates *)

(** The row of [pg_statistic] that holds the slots. *)
Definition slot_bounds (l : list StatSlot) : option (list RangeType) :=
  match l with BOUNDS_HISTOGRAM values :: _ => Some values | _ => None end.
Definition slot_lengths (l : list StatSlot) : option (list float8 * list float4) :=
  match l with _ :: RANGE_LENGTH_HISTOGRAM values e :: _ => Some (values, [e]) | _ => None end.
Definition slot_frequencies (l : list StatSlot) : option (list float8) :=
  match l with _ :: _ :: FREQUENCY_HISTOGRAM values :: _ => Some values | _ => None end.

Definition stored_stats (v : VacAttrStats) : StatsTuple :=
  mkStatsTuple (stanullfrac v) (slot_bounds (slots v)) (slot_lengths (slots v)) (slot_frequencies (slots v)).

(** A selectivity, unless arithmetic on infinities gave NaN. *)
Definition clamped (s : float8) : Prop := isnan s = true \/ is_prob s.

Lemma clamp_clamped p : clamped (CLAMP_PROBABILITY p).
Proof.
  destruct (isnan p) eqn:E; [left|right; by apply clamp_is_prob].
  unfold CLAMP_PROBABILITY. by destruct p.
Qed.

(** What [compute_range_stats] stores, when it returns. *)
Lemma analyze_slots `{Toast} `{Sorter} tc (Hs : RangeSubtype tc) address num_bins beyond sample stats :
  Forall (row_wf tc) sample -> 1 <= num_bins ->
  compute_range_stats address tc num_bins beyond sample = Ok stats ->
  slots stats = [] \/
  exists bounds lengths e freqs, bounds_histogram tc bounds /\
    slots stats = [BOUNDS_HISTOGRAM bounds; RANGE_LENGTH_HISTOGRAM lengths e; FREQUENCY_HISTOGRAM freqs].
Proof.
  intros Hwf Hb. unfold compute_range_stats. cbv zeta. pose proof (scan_sample_ok tc sample Hwf) as Hc.
  destruct (scan_sample tc sample) as [c|e]; [|done]. cbn [mbind result_bind]. destruct (_ >? 0).
  - intros (w & _ & Hr)%bind_Ok. destruct (Z.geb_spec (non_empty_cnt c) 2) as [Hn|]; [|done].
    apply bind_Ok in Hr as ([[tl tu] values] & Hv & Hr).
    apply bind_Ok in Hr as (lengths & _ & Hr). apply bind_Ok in Hr as (freqs & _ & [= <-]). cbn [slots].
    right. pose proof (build_bounds_hist_ok tc _ _ num_bins Hc ltac:(lia) Hb) as Hok.
    rewrite Hv in Hok. destruct Hok as (_ & Hok & _). by eexists _, _, _, _.
  - destruct (_ >? 0); intros [= <-]; by left.
Qed.

(** The checks that let the estimate use the column's statistics. *)
Definition stats_usable (tc : TypeCacheEntry) (security : SupportProc -> bool) : bool :=
  security RngCmpProc && match rng_subdiff tc with Some _ => security RngSubdiffProc | None => true end.

Lemma calc_hist_unusable `{Toast} tc vardata constval operator :
  stats_usable tc (statistic_proc_security_check vardata) = false ->
  calc_hist_selectivity tc vardata constval operator = Ok (f8_of_Z (-1)).
Proof.
  unfold stats_usable, calc_hist_selectivity. cbv zeta.
  destruct (statistic_proc_security_check vardata RngCmpProc); cbn [andb negb]; [|done].
  destruct (rng_subdiff tc); cbn [andb]; [|done]. by intros ->.
Qed.

Lemma calc_hist_usable `{Toast} tc vardata constval operator values cl cu :
  bounds_histogram tc values -> stats_usable tc (statistic_proc_security_check vardata) = true ->
  stats_slot vardata st_bounds = Some values -> range_deserialize tc constval = (cl, cu, false) ->
  is_op operator [OID_RANGE_CONTAINS_OP; OID_RANGE_CONTAINED_OP] = false ->
  calc_hist_selectivity tc vardata constval operator =
  hist_selectivity_op tc cl cu (map (lower_of tc) values) (map (upper_of tc) values) [] operator.
Proof.
  intros [Hn _ Hne _ _] Hu Hb Hd Hop. unfold stats_usable in Hu. unfold calc_hist_selectivity. cbv zeta.
  apply andb_true_iff in Hu as [-> Hu]. cbn [negb]. rewrite Hb, Hd, Hop, (deserialize_hist_ok tc values Hne).
  replace (match rng_subdiff tc with Some _ => true | None => false end &&
     negb (statistic_proc_security_check vardata RngSubdiffProc)) with false
    by (destruct (rng_subdiff tc); [by rewrite Hu|done]).
  destruct (Z.ltb_spec (Z.of_nat (length values)) 2); [lia|]. done.
Qed.

(** The test of the binary search against the operator. *)
Ltac hist_op_tac Hops :=
  let r := fresh in let Hr := fresh in intros r Hr;
  let E1 := fresh in let E2 := fresh in let E3 := fresh in let E4 := fresh in
  destruct (Hops r Hr) as (E1 & E2 & E3 & E4); rewrite ?E1, ?E2, ?E3, ?E4; cbn [holds]; unfold below_bound; cbn [andb];
  match goal with |- context [range_cmp_bounds ?tc ?a ?b] => generalize (range_cmp_bounds tc a b) end; intros;
  apply eq_bool_prop_intro; rewrite ?orb_false_r, ?Is_true_true, ?negb_true_iff, ?orb_false_iff, ?orb_true_iff; lia.

(** C37: the estimates for [<<], [>>], [&<], [&>] and [&&] on a column that
    ANALYZE has processed count in the histogram: the fraction for [<<] and
    [&<] is that of the histogram ranges for which the operator holds, with
    the part of the next bin up to the constant's bound added; those for [>>]
    and [&>] are one minus the fraction of the ranges for which it does not
    hold; that for [&&] is one minus those of [<<] and [>>].  The part of a bin
    is between 0 and 1.  The estimate is -1, for no estimate, when the user may
    not apply the comparison function or the [subtype_diff] function to the
    statistics.  It fails, for all operators, only as [subtype_diff] can. *)
Theorem hist_selectivity_counts `{Toast} `{Sorter} tc (Hs : RangeSubtype tc) address num_bins beyond sample stats values
    vtype security constval cl cu :
  Forall (row_wf tc) sample -> 1 <= num_bins ->
  compute_range_stats address tc num_bins beyond sample = Ok stats ->
  slot_bounds (slots stats) = Some values ->
  range_wf tc constval -> range_deserialize tc constval = (cl, cu, false) ->
  let estimate := calc_hist_selectivity tc (mkVardata (Some (stored_stats stats)) vtype security) constval in
  let lowers := map (lower_of tc) values in
  let uppers := map (upper_of tc) values in
  let count op := count_ranges (fun r => op tc r constval) values in
  let n := length values in
  (if stats_usable tc security then
     estimate OID_RANGE_LEFT_OP = interpolated tc cl uppers (count range_before_internal) /\
     estimate OID_RANGE_OVERLAPS_LEFT_OP = interpolated tc cu uppers (count range_overleft_internal) /\
     estimate OID_RANGE_RIGHT_OP =
       (s ← interpolated tc cu lowers (n - count range_after_internal); Ok (f8_sub f8_one s)) /\
     estimate OID_RANGE_OVERLAPS_RIGHT_OP =
       (s ← interpolated tc cl lowers (n - count range_overright_internal); Ok (f8_sub f8_one s)) /\
     estimate OID_RANGE_OVERLAP_OP =
       (s1 ← interpolated tc cl uppers (count range_before_internal);
        s2 ← interpolated tc cu lowers (n - count range_after_internal);
        Ok (f8_sub f8_one (f8_add s1 (f8_sub f8_one s2))))
   else forall operator, estimate operator = Ok (f8_of_Z (-1))) /\
  (forall value h1 h2 p, get_position tc value h1 h2 = Ok p -> is_prob p) /\
  (forall operator e, In operator estimated_ops -> estimate operator = Err e -> subdiff_failure tc e).
Proof.
  intros Hwf Hb Hst Hsl Hcw Hd. cbv zeta. set (vardata := mkVardata _ _ _).
  assert (Hh : bounds_histogram tc values).
  { destruct (analyze_slots tc Hs _ _ _ _ _ Hwf Hb Hst) as [E|(bs & ? & ? & ? & Hh & E)]; rewrite E in Hsl; [done|].
    by injection Hsl as <-. }
  split; [|split; [intros value h1 h2 p; apply get_position_prob|]].
  - destruct (stats_usable tc security) eqn:Eu; [|intros operator; by apply calc_hist_unusable].
    pose proof (hist_operators tc values constval cl cu Hh Hcw Hd) as Hops.
    assert (E1 : calc_hist_selectivity_scalar tc cl (map (upper_of tc) values) false =
      interpolated tc cl (map (upper_of tc) values) (count_ranges (fun r => range_before_internal tc r constval) values))
      by (apply (count_uppers tc values Hh); hist_op_tac Hops).
    assert (E2 : calc_hist_selectivity_scalar tc cu (map (upper_of tc) values) true =
      interpolated tc cu (map (upper_of tc) values) (count_ranges (fun r => range_overleft_internal tc r constval) values))
      by (apply (count_uppers tc values Hh); hist_op_tac Hops).
    assert (E3 : calc_hist_selectivity_scalar tc cu (map (lower_of tc) values) true =
      interpolated tc cu (map (lower_of tc) values)
        (length values - count_ranges (fun r => range_after_internal tc r constval) values))
      by (apply (count_lowers tc values Hh); hist_op_tac Hops).
    assert (E4 : calc_hist_selectivity_scalar tc cl (map (lower_of tc) values) false =
      interpolated tc cl (map (lower_of tc) values)
        (length values - count_ranges (fun r => range_overright_internal tc r constval) values))
      by (apply (count_lowers tc values Hh); hist_op_tac Hops).
    rewrite <- E1, <- E2, <- E3, <- E4.
    split_and!; by rewrite (calc_hist_usable tc vardata constval _ values cl cu Hh Eu Hsl Hd).
  - intros operator e Hop He.
    pose proof (calc_hist_selectivity_returns tc vardata constval operator Hop) as Hr. rewrite He in Hr. apply Hr.
    intros vs Hvs. cbn in Hvs. rewrite Hsl in Hvs. by injection Hvs as <-.
Qed.

Definition demo_stats : VacAttrStats :=
  Eval vm_compute in
    match compute_range_stats (fun _ => 0) int4range 100 (int4_lower 0, int4_upper 0) demo_sample with
    | Ok stats => stats
    | Err _ => initial_stats
    end.

Definition demo_values : list RangeType :=
  [int4_stored_range 1 4; int4_stored_range 3 10; int4_stored_range 5 20].

Lemma demo_stats_computed :
  compute_range_stats (fun _ => 0) int4range 100 (int4_lower 0, int4_upper 0) demo_sample = Ok demo_stats.
Proof. vm_compute. reflexivity. Qed.

Lemma demo_stats_bounds : slot_bounds (slots demo_stats) = Some demo_values.
Proof. vm_compute. reflexivity. Qed.

Lemma r_5_20_bounds : range_deserialize int4range r_5_20 = (int4_lower 5, int4_upper 20, false).
Proof. vm_compute. reflexivity. Qed.

(** One of the three ranges of the histogram is left of [[5,20)], and 5 is a
    sixth of the way from its upper bound 4 to the next one, 10. *)
Lemma hist_selectivity_counts_witness :
  count_ranges (fun r => range_before_internal int4range r r_5_20) demo_values = 1%nat /\
  calc_hist_selectivity int4range (mkVardata (Some (stored_stats demo_stats)) INT4RANGEOID (fun _ => true)) r_5_20
    OID_RANGE_LEFT_OP =
  Ok (f8_add (f8_div (f8_of_Z 0) (f8_of_Z 2)) (f8_div (f8_div (f8_of_Z 1) (f8_of_Z 6)) (f8_of_Z 2))) /\
  calc_hist_selectivity int4range (mkVardata (Some (stored_stats demo_stats)) INT4RANGEOID (fun _ => false)) r_5_20
    OID_RANGE_LEFT_OP = Ok (f8_of_Z (-1)).
Proof.
  split; [vm_compute; reflexivity|]. split.
  - destruct (hist_selectivity_counts int4range _ (fun _ => 0) 100 (int4_lower 0, int4_upper 0) demo_sample demo_stats
      demo_values INT4RANGEOID (fun _ => true) r_5_20 (int4_lower 5) (int4_upper 20) demo_sample_wf ltac:(lia)
      demo_stats_computed demo_stats_bounds r_5_20_wf r_5_20_bounds)
      as [[E _] _].
    rewrite E. vm_compute. reflexivity.
  - exact (proj1 (hist_selectivity_counts int4range _ (fun _ => 0) 100 (int4_lower 0, int4_upper 0) demo_sample demo_stats
      demo_values INT4RANGEOID (fun _ => false) r_5_20 (int4_lower 5) (int4_upper 20) demo_sample_wf ltac:(lia)
      demo_stats_computed demo_stats_bounds r_5_20_wf r_5_20_bounds)
      OID_RANGE_LEFT_OP).
Defined.

(** [rbound_bsearch] finds, in a histogram in order, the greatest index
    whose bound is less than (or, with [equal], at most) the given one, and -1
    when there is none; it always ends and never reads outside the array. *)
Theorem rbound_bsearch_correct `{Toast} tc (Hs : RangeSubtype tc) value hist equal :
  StronglySorted (cmp_le (range_cmp_bounds tc)) hist ->
  exists r, rbound_bsearch tc value hist equal = Ok r /\ -1 <= r <= Z.of_nat (length hist) - 1 /\
    forall i h, hist !! i = Some h ->
      (range_cmp_bounds tc h value < 0 \/ equal = true /\ range_cmp_bounds tc h value = 0) <-> Z.of_nat i <= r.
Proof.
  intros Hsort. destruct (rbound_bsearch_sorted tc value hist equal Hsort) as (r & E & Hr & Hi).
  exists r. split; [done|]. split; [done|]. intros i h Hh. rewrite <- (Hi i h Hh). unfold below_bound.
  rewrite orb_true_iff, andb_true_iff, Z.ltb_lt, Z.eqb_eq. done.
Qed.

Lemma rbound_bsearch_correct_witness :
  exists r, rbound_bsearch int4range (int4_lower 4) [int4_lower 1; int4_lower 3; int4_lower 5] false = Ok r /\
    -1 <= r <= 2.
Proof.
  destruct (rbound_bsearch_correct int4range _ (int4_lower 4) [int4_lower 1; int4_lower 3; int4_lower 5] false)
    as (r & E & Hr & _); [|exists r; split; [exact E|exact Hr]].
  repeat constructor; unfold cmp_le; vm_compute; discriminate.
Defined.

(** Every default estimate is a probability. *)
Lemma default_prob operator : is_prob (default_range_selectivity operator).
Proof. unfold default_range_selectivity. repeat destruct (is_op _ _); split; vm_compute; reflexivity. Qed.

Lemma Fn_bind_Ok {S A B} (m : Fn S A) (f : A -> Fn S B) s b s' :
  (m ≫= f) s = Ok (b, s') -> exists a s1, m s = Ok (a, s1) /\ f a s1 = Ok (b, s').
Proof. unfold mbind, Fn_bind. destruct (m s) as [[a s1]|]; [|done]. intros Hf. by exists a, s1. Qed.

(** A computation whose results are all clamped. *)
Definition gives_clamped {S} (m : Fn S float8) : Prop := forall s x s', m s = Ok (x, s') -> clamped x.

Lemma clamped_ret {S} x : clamped x -> gives_clamped (S := S) (mret x).
Proof. intros Hx s y s' [= <- _]. done. Qed.

Lemma clamped_bind {S A} (m : Fn S A) f : (forall a, gives_clamped (f a)) -> gives_clamped (m ≫= f).
Proof. intros Hf s x s' (a & s1 & _ & E)%Fn_bind_Ok. by apply (Hf a s1 x s'). Qed.

Lemma clamped_clamp {S} x : gives_clamped (S := S) (mret (CLAMP_PROBABILITY x)).
Proof. apply clamped_ret, clamp_clamped. Qed.

Lemma clamped_default {S} operator : gives_clamped (S := S) (mret (default_range_selectivity operator)).
Proof. apply clamped_ret. right. apply default_prob. Qed.

Lemma clamped_const {S} x : is_prob x -> gives_clamped (S := S) (mret x).
Proof. intros Hx. apply clamped_ret. by right. Qed.

(** Whatever the statistics say, the estimates that [rangesel],
    [rangerestsel] and [rangeoverlapsjoinsel] hand to the planner are between
    0 and 1 (or NaN, which the clamp lets through). *)
Theorem selectivities_clamped `{Toast} `{Catalog} commutator address clause vardata1 vardata2 operator s x s' :
  rangesel commutator clause operator s = Ok (x, s') \/ rangerestsel address clause operator s = Ok (x, s') \/
  rangeoverlapsjoinsel address vardata1 vardata2 operator s = Ok (x, s') -> clamped x.
Proof.
  assert (H1 : gives_clamped (rangesel commutator clause operator)).
  { unfold rangesel. destruct clause as [[[vardata [ct c|]] left]|]; [|apply clamped_default..].
    destruct (const_is_null c); [by apply clamped_const|].
    destruct (if left then Some operator else commutator operator); [|apply clamped_default].
    apply clamped_bind. intros cr. apply clamped_bind. intros y. apply clamped_clamp. }
  assert (H2 : gives_clamped (rangerestsel address clause operator)).
  { unfold rangerestsel. destruct (_ && _); [by apply clamped_const|].
    destruct clause as [[[vardata [ct c|]] left]|]; [| |apply clamped_default]; apply clamped_bind; intros tc;
      [|apply clamped_default].
    destruct (_ || _); [apply clamped_default|]. destruct (negb (ct =? _)); [apply clamped_default|].
    apply clamped_bind. intros r. destruct (RangeIsEmpty r); [by apply clamped_const|].
    destruct (negb _); [by apply clamped_const|]. destruct (histograms vardata) as [[bounds freqs]|]; [|by apply clamped_const].
    apply clamped_bind. intros [[mn mx] nh]. destruct (range_deserialize tc r) as [[cl cu] e].
    apply clamped_bind. intros y. apply clamped_clamp. }
  assert (H3 : gives_clamped (rangeoverlapsjoinsel address vardata1 vardata2 operator)).
  { unfold rangeoverlapsjoinsel. apply clamped_bind. intros tc.
    destruct (negb (operator =? _)); [by apply clamped_const|]. destruct (negb _); [by apply clamped_const|].
    destruct (negb _); [by apply clamped_const|].
    destruct (histograms vardata1) as [[b1 f1]|], (histograms vardata2) as [[b2 f2]|]; try by apply clamped_const.
    apply clamped_bind. intros [[mn1 mx1] nh1]. apply clamped_bind. intros [[mn2 mx2] nh2].
    apply clamped_bind. intros y. apply clamped_clamp. }
  intros [E|[E|E]]; [exact (H1 _ _ _ E)|exact (H2 _ _ _ E)|exact (H3 _ _ _ E)].
Qed.

#[local] Instance stat_catalog : Catalog := {|
  lookup_type_cache oid := if oid =? INT4RANGEOID then Some int4range else None;
  get_type_io_data oid func := (0, None)
|}.

Lemma selectivities_clamped_witness : clamped (f8_dec 1 100).
Proof.
  apply (selectivities_clamped (fun _ => None) (fun _ => 0) None (mkVardata None 0 (fun _ => true))
    (mkVardata None 0 (fun _ => true)) OID_RANGE_OVERLAP_OP None _ None).
  left. vm_compute. reflexivity.
Defined.

(** The loop of [rangerestsel_inner] for [&&] stops after the last interval
    that the constant touches, and still adds up the frequencies of all the
    intervals it touches. *)
Theorem rangerest_overlap_correct address freqs rows min1 max1 const_lower const_upper interval_length :
  roundUpDivision (int32 (max1 - min1)) (Z.of_nat (length freqs)) = Ok interval_length ->
  in_int min1 interval_length (Z.of_nat (length freqs)) ->
  rangerestsel_inner address freqs rows min1 max1 const_lower const_upper OID_RANGE_OVERLAP_OP =
  Ok (f8_div (sum_hits min1 interval_length (int32 (datum_bits address (val const_lower)))
                (int32 (datum_bits address (val const_upper))) freqs 0 f8_zero) (f8_of_Z rows)).
Proof.
  intros Hd Hin. unfold rangerestsel_inner. rewrite Hd. cbn [mbind result_bind]. cbv zeta.
  change (OID_RANGE_OVERLAP_OP =? OID_RANGE_LEFT_OP) with false.
  change (OID_RANGE_OVERLAP_OP =? OID_RANGE_OVERLAP_OP) with true. cbn [mbind result_bind].
  by rewrite (sum_overlap_hits _ _ _ _ (Z.of_nat (length freqs))) by (done || lia).
Qed.

Lemma rangerest_overlap_correct_witness :
  rangerestsel_inner (fun _ => 0) [f8_of_Z 1; f8_of_Z 2; f8_of_Z 3] 6 0 30 (int4_lower 12) (int4_upper 25) OID_RANGE_OVERLAP_OP =
  Ok (f8_div (sum_hits 0 10 12 25 [f8_of_Z 1; f8_of_Z 2; f8_of_Z 3] 0 f8_zero) (f8_of_Z 6)).
Proof.
  apply (rangerest_overlap_correct (fun _ => 0) [f8_of_Z 1; f8_of_Z 2; f8_of_Z 3] 6 0 30 (int4_lower 12) (int4_upper 25) 10).
  - vm_compute. reflexivity.
  - unfold in_int. cbn. lia.
Defined.

(** [rangerestsel_inner] for [<<] takes a constant to the left of every range of
    the column for one to their right: it then adds up all the frequencies,
    although no range of the column is left of the constant. *)
Theorem rangerest_left_of_all address freqs rows min1 max1 const_lower const_upper interval_length :
  roundUpDivision (int32 (max1 - min1)) (Z.of_nat (length freqs)) = Ok interval_length ->
  in_int min1 interval_length (Z.of_nat (length freqs)) ->
  int32 (datum_bits address (val const_upper)) < min1 -> flt (fold_left f8_add freqs f8_zero) f8_one = false ->
  rangerestsel_inner address freqs rows min1 max1 const_lower const_upper OID_RANGE_LEFT_OP =
  Ok (f8_div (fold_left f8_add freqs f8_zero) (f8_of_Z rows)).
Proof.
  intros Hd Hin Hb Hsum. unfold rangerestsel_inner. rewrite Hd. cbn [mbind result_bind]. cbv zeta.
  change (OID_RANGE_LEFT_OP =? OID_RANGE_LEFT_OP) with true.
  rewrite (sum_left_all _ _ _ _ (Z.of_nat (length freqs))) by (done || lia). by rewrite Hsum.
Qed.

(** The outcome of the join estimate on two columns whose values meet: it
    searches both ends of the frequency histograms for the intervals where
    they meet, always ending and reading inside the arrays; and it raises the
    error "Overlap not found" exactly when, at the high end, it reaches the
    first interval of a histogram (or has to move at all while the other
    histogram has a single interval), although the columns do meet. *)
Theorem joinsel_outcome freq1 freq2 rows1 rows2 min1 min2 max1 max2 :
  0 < Z.of_nat (length freq1) -> 0 < Z.of_nat (length freq2) ->
  - 2 ^ 28 < min1 <= max1 -> max1 < 2 ^ 28 -> - 2 ^ 28 < min2 <= max2 -> max2 < 2 ^ 28 ->
  IsInRange min1 max1 min2 max2 = true ->
  exists il1 il2,
    roundUpDivision (max1 - min1 + 1) (Z.of_nat (length freq1)) = Ok il1 /\
    roundUpDivision (max2 - min2 + 1) (Z.of_nat (length freq2)) = Ok il2 /\
    if gives_up_x (Z.of_nat (length freq1)) (Z.of_nat (length freq2)) il1 max1 max2
       || gives_up_y (Z.of_nat (length freq1)) (Z.of_nat (length freq2)) il2 max1 max2
    then rangeoverlapsjoinsel_inner freq1 freq2 rows1 rows2 min1 min2 max1 max2 =
           elog "rangeoverlapsjoinsel_inner: Overlap not found. Stopping"
    else exists s, rangeoverlapsjoinsel_inner freq1 freq2 rows1 rows2 min1 min2 max1 max2 = Ok s.
Proof. apply joinsel_inner_cases. Qed.

(** Values 0 to 99 in ten intervals, and values 0 to 4. *)
Lemma joinsel_outcome_witness :
  rangeoverlapsjoinsel_inner (repeat (f8_of_Z 1) 10) (repeat (f8_of_Z 1) 2) 10 2 0 0 99 4 =
  elog "rangeoverlapsjoinsel_inner: Overlap not found. Stopping".
Proof.
  destruct (joinsel_outcome (repeat (f8_of_Z 1) 10) (repeat (f8_of_Z 1) 2) 10 2 0 0 99 4)
    as (il1 & il2 & E1 & E2 & Hc); [cbn; lia..|reflexivity|].
  vm_compute in E1, E2. injection E1 as <-. injection E2 as <-. exact Hc.
Defined.

(** ANALYZE cuts the values 0 to 380 into 20 intervals of length 20, but
    [rangerestsel_inner] reads the histogram as intervals of length 19. *)
Theorem interval_lengths_disagree :
  choose_intervals 0 380 = Ok (20, 20) /\ roundUpDivision (int32 (380 - 0)) 20 = Ok 19.
Proof. split; vm_compute; reflexivity. Qed.

(** [get_len_position] for a bin with an infinite upper end gives one half, and
    zero when both ends are infinite; its comments say the reverse. *)
Theorem len_position_infinite value hist1 :
  isinf hist1 = false ->
  get_len_position value hist1 f8_inf = f8_dec 1 2 /\ get_len_position value f8_inf f8_inf = f8_zero.
Proof. intros Hi. unfold get_len_position. rewrite Hi. by vm_compute. Qed.
