(* ===== verification/PgLz.v ===== *)
(** * The compressor of TOAST: src/common/pg_lzcompress.c

    [pglz_compress] and [pglz_decompress].  A pointer into the input is an
    offset.  The work arrays of the history are finite maps: the lists of
    [hist_start] are emptied at the start of a call, and an entry of
    [hist_entries] that the call has not written yet is absent.  Pointers to
    entries are their indexes, with 0 for [INVALID_ENTRY_PTR] and [None] for
    NULL.  Reads and stores outside of a buffer are undefined behaviour. *)

From stdpp Require Import gmap.
From S2P Require Import Prelude.

Definition PGLZ_HISTORY_SIZE : Z := 4096.
Definition PGLZ_MAX_MATCH : Z := 273.
Definition INVALID_ENTRY : Z := 0.
Definition PGLZ_MAX_OUTPUT (dlen : Z) : Z := dlen + 4.

Record PGLZ_HistEntry : Type := mkHistEntry {
  he_next : Z;
  he_prev : option Z;
  he_hindex : Z;
  he_pos : Z
}.

Record PGLZ_Strategy : Type := mkStrategy {
  min_input_size : Z;
  max_input_size : Z;
  min_comp_rate : Z;
  first_success_by : Z;
  match_size_good : Z;
  match_size_drop : Z
}.

Definition strategy_default_data : PGLZ_Strategy := mkStrategy 32 PG_INT32_MAX 25 1024 128 10.
Definition strategy_always_data : PGLZ_Strategy := mkStrategy 0 PG_INT32_MAX 0 PG_INT32_MAX 128 6.

(** ** The history *)

Record History : Type := mkHistory {
  hist_start : gmap Z Z;
  hist_entries : gmap Z PGLZ_HistEntry;
  hist_next : Z;
  hist_recycle : bool
}.

Definition set_next (n : Z) (e : PGLZ_HistEntry) : PGLZ_HistEntry := mkHistEntry n (he_prev e) (he_hindex e) (he_pos e).
Definition set_prev (p : option Z) (e : PGLZ_HistEntry) : PGLZ_HistEntry := mkHistEntry (he_next e) p (he_hindex e) (he_pos e).

(** [hist_start[h]], zero after the memset. *)
Definition list_start (hs : gmap Z Z) (h : Z) : Z := default INVALID_ENTRY (hs !! h).

Definition get_entry (he : gmap Z PGLZ_HistEntry) (i : Z) : result PGLZ_HistEntry :=
  match he !! i with Some e => Ok e | None => undefined "history entry is not initialized" end.

(** A [char] is signed; the input ends at [s]'s end. *)
Definition source_char (s : list Z) (i : Z) : result Z :=
  b ← array_get s i;
  Ok (swrap 8 b).

Definition pglz_hist_idx (s : list Z) (dp mask : Z) : result Z :=
  if Z.of_nat (length s) - dp <? 4 then
    c0 ← source_char s dp;
    Ok (Z.land c0 mask)
  else
    c0 ← source_char s dp;
    c1 ← source_char s (dp + 1);
    c2 ← source_char s (dp + 2);
    c3 ← source_char s (dp + 3);
    Ok (Z.land (Z.lxor (Z.lxor (Z.lxor (Z.shiftl c0 6) (Z.shiftl c1 4)) (Z.shiftl c2 2)) c3) mask).

(** [&hist_start[hindex]]: the call has cleared [mask + 1] lists. *)
Definition list_index (hindex mask : Z) : result Z :=
  if (0 <=? hindex) && (hindex <=? mask) then Ok hindex else undefined "history list out of range".

(** Delinking an entry that is recycled. *)
Definition delink (hs : gmap Z Z) (he : gmap Z PGLZ_HistEntry) (hn : Z)
  : result (gmap Z Z * gmap Z PGLZ_HistEntry) :=
  e ← get_entry he hn;
  let '(hs, he) :=
    match he_prev e with
    | None => (<[he_hindex e := he_next e]> hs, he)
    | Some p => (hs, alter (set_next (he_next e)) p he)
    end in
  Ok (hs, alter (set_prev (he_prev e)) (he_next e) he).

Definition pglz_hist_add (h : History) (s : list Z) (dp mask : Z) : result History :=
  hindex ← pglz_hist_idx s dp mask;
  hindex ← list_index hindex mask;
  let hn := hist_next h in
  '(hs, he) ← (if hist_recycle h then delink (hist_start h) (hist_entries h) hn
               else Ok (hist_start h, hist_entries h));
  let first := list_start hs hindex in
  let he := <[hn := mkHistEntry first None hindex dp]> he in
  let he := alter (set_prev (Some hn)) first he in
  let hs := <[hindex := hn]> hs in
  if hn + 1 >=? PGLZ_HISTORY_SIZE + 1 then Ok (mkHistory hs he 1 true)
  else Ok (mkHistory hs he (hn + 1) (hist_recycle h)).

(** ** Finding a match *)

(** The loop that compares characters: [s1] is the input from [ip] to the end
    and [s2] from [hp]. *)
Fixpoint match_loop (s1 s2 : list Z) (thislen : Z) : Z :=
  match s1, s2 with
  | c1 :: s1', c2 :: s2' =>
      if (c1 =? c2) && (thislen <? PGLZ_MAX_MATCH) then match_loop s1' s2' (thislen + 1) else thislen
  | _, _ => thislen
  end.

(** [memcmp(s1, s2, len) == 0] *)
Definition memcmp_eq (s1 s2 : list Z) (len : Z) : result bool :=
  if (len <=? Z.of_nat (length s1)) && (len <=? Z.of_nat (length s2)) then
    Ok (bool_decide (take (Z.to_nat len) s1 = take (Z.to_nat len) s2))
  else undefined "memcmp past the end".

Definition match_length (s : list Z) (ip hp len : Z) : result Z :=
  let s1 := drop (Z.to_nat ip) s in
  let s2 := drop (Z.to_nat hp) s in
  if len >=? 16 then
    eq ← memcmp_eq s1 s2 len;
    if (eq : bool) then Ok (match_loop (drop (Z.to_nat len) s1) (drop (Z.to_nat len) s2) len) else Ok 0
  else Ok (match_loop s1 s2 0).

(** The walk over a list of the history; the best length and its offset. *)
Fixpoint find_loop (fuel : nat) (he : gmap Z PGLZ_HistEntry) (s : list Z) (input hent len off good_match good_drop : Z)
  : result (Z * Z) :=
  match fuel with
  | O => undefined "out of fuel"
  | S fuel' =>
      if hent =? INVALID_ENTRY then Ok (len, off)
      else
        e ← get_entry he hent;
        let hp := he_pos e in
        let thisoff := input - hp in
        if thisoff >=? 0x0fff then Ok (len, off)
        else
          thislen ← match_length s input hp len;
          let '(len, off) := if thislen >? len then (thislen, thisoff) else (len, off) in
          let hent := he_next e in
          if negb (hent =? INVALID_ENTRY) then
            if len >=? good_match then Ok (len, off)
            else find_loop fuel' he s input hent len off (good_match - (good_match * good_drop) ÷ 100) good_drop
          else find_loop fuel' he s input hent len off good_match good_drop
  end.

(** The fuel is more than the number of earlier positions. *)
Definition pglz_find_match (h : History) (s : list Z) (input good_match good_drop mask : Z) : result (option (Z * Z)) :=
  hindex ← pglz_hist_idx s input mask;
  hindex ← list_index hindex mask;
  let hentno := list_start (hist_start h) hindex in
  '(len, off) ← find_loop (Z.to_nat input + 2) (hist_entries h) s input hentno 0 0 good_match good_drop;
  Ok (if len >? 2 then Some (len, off) else None).

(** ** Output *)

(** The output: the buffer up to [bp], the place of the current control byte
    ([None] is the dummy), and the control byte with its next bit. *)
Record Output : Type := mkOutput {
  out_buf : list Z;
  out_ctrlp : option Z;
  out_ctrlb : Z;
  out_ctrl : Z
}.

Section Output.
Variable (cap : Z).

(** [*bp++ = ...] in a buffer of [cap] bytes. *)
Definition emit (buf bs : list Z) : result (list Z) :=
  if Z.of_nat (length buf + length bs) <=? cap then Ok (buf ++ bs) else undefined "store past the output buffer".

(** [*ctrlp = ctrlb] *)
Definition write_ctrl (o : Output) : result (list Z) :=
  match out_ctrlp o with
  | None => Ok (out_buf o)
  | Some p =>
      if (0 <=? p) && (p <? Z.of_nat (length (out_buf o))) then Ok (<[Z.to_nat p := out_ctrlb o]> (out_buf o))
      else undefined "store outside of the output"
  end.

Definition pglz_out_ctrl (o : Output) : result Output :=
  if Z.land (out_ctrl o) 0xff =? 0 then
    buf ← write_ctrl o;
    let ctrlp := Z.of_nat (length buf) in
    buf ← emit buf [0];
    Ok (mkOutput buf (Some ctrlp) 0 1)
  else Ok o.

Definition shift_ctrl (ctrl : Z) : Z := uwrap 8 (Z.shiftl ctrl 1).

Definition pglz_out_literal (o : Output) (byte : Z) : result Output :=
  o ← pglz_out_ctrl o;
  buf ← emit (out_buf o) [byte];
  Ok (mkOutput buf (out_ctrlp o) (out_ctrlb o) (shift_ctrl (out_ctrl o))).

(** The bytes of a tag. *)
Definition tag_bytes (len off : Z) : list Z :=
  if len >? 17 then
    [uwrap 8 (Z.lor (Z.shiftr (Z.land off 0xf00) 4) 0x0f); uwrap 8 (Z.land off 0xff); uwrap 8 (len - 18)]
  else [uwrap 8 (Z.lor (Z.shiftr (Z.land off 0xf00) 4) (len - 3)); uwrap 8 (Z.land off 0xff)].

Definition pglz_out_tag (o : Output) (len off : Z) : result Output :=
  o ← pglz_out_ctrl o;
  let ctrlb := Z.lor (out_ctrlb o) (out_ctrl o) in
  buf ← emit (out_buf o) (tag_bytes len off);
  Ok (mkOutput buf (out_ctrlp o) ctrlb (shift_ctrl (out_ctrl o))).

End Output.

(** ** Compression *)

Record Params : Type := mkParams {
  p_good_match : Z;
  p_good_drop : Z;
  p_result_max : Z;
  p_mask : Z;
  p_first_success_by : Z
}.

Definition hash_size (slen : Z) : Z :=
  if slen <? 128 then 512 else if slen <? 256 then 1024 else if slen <? 512 then 2048 else if slen <? 1024 then 4096 else 8192.

(** The parameters, limited to the supported range; the quotients are of
    nonnegative integers. *)
Definition compress_params (strategy : PGLZ_Strategy) (slen : Z) : Params :=
  let good_match := match_size_good strategy in
  let good_match := if good_match >? PGLZ_MAX_MATCH then PGLZ_MAX_MATCH else if good_match <? 17 then 17 else good_match in
  let good_drop := match_size_drop strategy in
  let good_drop := if good_drop <? 0 then 0 else if good_drop >? 100 then 100 else good_drop in
  let need_rate := min_comp_rate strategy in
  let need_rate := if need_rate <? 0 then 0 else if need_rate >? 99 then 99 else need_rate in
  let result_max := if slen >? PG_INT32_MAX / 100 then (slen / 100) * (100 - need_rate) else (slen * (100 - need_rate)) / 100 in
  mkParams good_match good_drop result_max (hash_size slen - 1) (first_success_by strategy).

(** History entries for [n] characters. *)
Fixpoint add_entries (n : nat) (h : History) (s : list Z) (dp mask : Z) : result History :=
  match n with
  | O => Ok h
  | S n' => h ← pglz_hist_add h s dp mask; add_entries n' h s (dp + 1) mask
  end.

(** The main loop; [None] when compression fails. *)
Fixpoint compress_loop (fuel : nat) (p : Params) (s : list Z) (dp : Z) (h : History) (o : Output) (found_match : bool)
  : result (option Output) :=
  match fuel with
  | O => undefined "out of fuel"
  | S fuel' =>
      if dp <? Z.of_nat (length s) then
        if Z.of_nat (length (out_buf o)) >=? p_result_max p then Ok None
        else if negb found_match && (Z.of_nat (length (out_buf o)) >=? p_first_success_by p) then Ok None
        else
          let cap := PGLZ_MAX_OUTPUT (Z.of_nat (length s)) in
          m ← pglz_find_match h s dp (p_good_match p) (p_good_drop p) (p_mask p);
          match m with
          | Some (match_len, match_off) =>
              o ← pglz_out_tag cap o match_len match_off;
              h ← add_entries (Z.to_nat match_len) h s dp (p_mask p);
              compress_loop fuel' p s (dp + match_len) h o true
          | None =>
              c ← array_get s dp;
              o ← pglz_out_literal cap o c;
              h ← pglz_hist_add h s dp (p_mask p);
              compress_loop fuel' p s (dp + 1) h o found_match
          end
      else Ok (Some o)
  end.

(** The bytes written, or [None] for the return value -1. *)
Definition pglz_compress (source : list Z) (strategy : PGLZ_Strategy) : result (option (list Z)) :=
  let slen := Z.of_nat (length source) in
  if (match_size_good strategy <=? 0) || (slen <? min_input_size strategy) || (slen >? max_input_size strategy) then Ok None
  else
    let p := compress_params strategy slen in
    o ← compress_loop (S (length source)) p source 0 (mkHistory ∅ ∅ 1 false) (mkOutput [] None 0 0) false;
    match o with
    | None => Ok None
    | Some o =>
        dest ← write_ctrl o;
        if Z.of_nat (length dest) >=? p_result_max p then Ok None else Ok (Some dest)
    end.

(** ** Decompression *)

(** [memcpy(dp, dp - off, n)] within the output; the areas may not overlap. *)
Definition copy_back (dest : list Z) (off n : Z) : result (list Z) :=
  let dp := Z.of_nat (length dest) in
  if dp - off <? 0 then undefined "read before the output buffer"
  else if off <? n then undefined "overlapping memcpy"
  else Ok (dest ++ take (Z.to_nat n) (drop (Z.to_nat (dp - off)) dest)).

(** The copy of a match in parts that do not overlap. *)
Fixpoint copy_match (fuel : nat) (dest : list Z) (off len : Z) : result (list Z) :=
  match fuel with
  | O => undefined "out of fuel"
  | S fuel' =>
      if off <? len then
        dest ← copy_back dest off off;
        copy_match fuel' dest (off + off) (len - off)
      else copy_back dest off len
  end.

(** [*sp++] *)
Definition next_byte (sp : list Z) : result (Z * list Z) :=
  match sp with [] => undefined "read past the end of the input" | b :: sp' => Ok (b, sp') end.

(** One tag: the rest of the input and the output, or [None] for corrupt data.
    Reading the tag past the end of the input is undefined, so that
    [sp > srcend] cannot be seen. *)
Definition read_tag (sp dest : list Z) (rawsize : Z) : result (option (list Z * list Z)) :=
  '(b0, sp) ← next_byte sp;
  '(b1, sp) ← next_byte sp;
  let len := Z.land b0 0x0f + 3 in
  let off := Z.lor (Z.shiftl (Z.land b0 0xf0) 4) b1 in
  '(len, sp) ← (if len =? 18 then '(b, sp) ← next_byte sp; Ok (len + b, sp) else Ok (len, sp));
  if off =? 0 then Ok None
  else
    let len := Z.min len (rawsize - Z.of_nat (length dest)) in
    dest ← copy_match (S (Z.to_nat len)) dest off len;
    Ok (Some (sp, dest)).

(** The items of a control byte. *)
Fixpoint read_items (ctrlc : nat) (ctrl : Z) (sp dest : list Z) (rawsize : Z) : result (option (list Z * list Z)) :=
  match ctrlc with
  | O => Ok (Some (sp, dest))
  | S ctrlc' =>
      if negb (length sp =? 0)%nat && (Z.of_nat (length dest) <? rawsize) then
        res ← (if bit_set ctrl 1 then read_tag sp dest rawsize
               else '(b, sp) ← next_byte sp; Ok (Some (sp, dest ++ [b])));
        match res with
        | None => Ok None
        | Some (sp, dest) => read_items ctrlc' (Z.shiftr ctrl 1) sp dest rawsize
        end
      else Ok (Some (sp, dest))
  end.

Fixpoint decompress_loop (fuel : nat) (sp dest : list Z) (rawsize : Z) : result (option (list Z * list Z)) :=
  match fuel with
  | O => undefined "out of fuel"
  | S fuel' =>
      if negb (length sp =? 0)%nat && (Z.of_nat (length dest) <? rawsize) then
        '(ctrl, sp) ← next_byte sp;
        res ← read_items 8 ctrl sp dest rawsize;
        match res with
        | None => Ok None
        | Some (sp, dest) => decompress_loop fuel' sp dest rawsize
        end
      else Ok (Some (sp, dest))
  end.

(** The bytes decompressed, or [None] for the return value -1. *)
Definition pglz_decompress (source : list Z) (rawsize : Z) (check_complete : bool) : result (option (list Z)) :=
  res ← decompress_loop (S (length source)) source [] rawsize;
  match res with
  | None => Ok None
  | Some (sp, dest) =>
      if check_complete && (negb (Z.of_nat (length dest) =? rawsize) || negb (length sp =? 0)%nat) then Ok None
      else Ok (Some dest)
  end.

Definition pglz_maximum_compressed_size (rawsize total_compressed_size : Z) : Z :=
  let compressed_size := (rawsize * 9 + 7) / 8 in
  let compressed_size := compressed_size + 2 in
  Z.min compressed_size total_compressed_size.
