(* ===== verification/PgLzDecode.v ===== *)
(** * Decompression reads what the compressor writes

    The format as a list of tokens in groups of eight, what a list of tokens
    says about the input, and the decoder on encoded tokens: it gives the first
    [rawsize] bytes of the input. *)

From S2P Require Import Prelude PgLz.

(** ** Tokens *)

Inductive token : Type :=
| Lit (b : Z)
| Tag (len off : Z).

Definition is_tag (t : token) : bool := match t with Tag _ _ => true | Lit _ => false end.
Definition tok_len (t : token) : nat := match t with Lit _ => 1 | Tag len _ => Z.to_nat len end.
Definition item_bytes (t : token) : list Z := match t with Lit b => [b] | Tag len off => tag_bytes len off end.

Fixpoint toks_len (ts : list token) : nat := match ts with [] => 0 | t :: ts' => tok_len t + toks_len ts' end.
Definition items_bytes (ts : list token) : list Z := concat (map item_bytes ts).

(** The control byte: the bit of a token is set for a tag. *)
Fixpoint ctrl_of (ts : list token) : Z :=
  match ts with
  | [] => 0
  | t :: ts' => (if is_tag t then 1 else 0) + 2 * ctrl_of ts'
  end.

Definition group_bytes (g : list token) : list Z := ctrl_of g :: items_bytes g.

(** All groups but the last one are full. *)
Fixpoint groups_ok (gs : list (list token)) : Prop :=
  match gs with
  | [] => True
  | [g] => (1 <= length g <= 8)%nat
  | g :: gs' => length g = 8%nat /\ groups_ok gs'
  end.

(** The token describes the bytes of [s] at [p]. *)
Definition tok_ok (s : list Z) (p : nat) (t : token) : Prop :=
  match t with
  | Lit b => s !! p = Some b
  | Tag len off =>
      3 <= len <= 273 /\ 1 <= off <= 0xffe /\ off <= Z.of_nat p /\ Z.of_nat p + len <= Z.of_nat (length s) /\
      forall i, (i < Z.to_nat len)%nat -> s !! (p + i)%nat = s !! (p + i - Z.to_nat off)%nat
  end.

Fixpoint toks_ok (s : list Z) (p : nat) (ts : list token) : Prop :=
  match ts with
  | [] => True
  | t :: ts' => tok_ok s p t /\ toks_ok s (p + tok_len t) ts'
  end.

Lemma toks_len_app ts ts' : toks_len (ts ++ ts') = (toks_len ts + toks_len ts')%nat.
Proof. induction ts as [|t ts IH]; cbn; [done|]. lia. Qed.

Lemma toks_ok_app s p ts ts' : toks_ok s p (ts ++ ts') <-> toks_ok s p ts /\ toks_ok s (p + toks_len ts) ts'.
Proof.
  revert p. induction ts as [|t ts IH]; intros p; cbn; [rewrite Nat.add_0_r; tauto|]. rewrite IH, Nat.add_assoc. tauto.
Qed.

Lemma tok_len_pos s p t : tok_ok s p t -> (1 <= tok_len t)%nat.
Proof. destruct t as [b|len off]; cbn; [lia|]. intros ([? ?] & _). lia. Qed.

Lemma tok_ok_end s p t : tok_ok s p t -> (p + tok_len t <= length s)%nat.
Proof.
  destruct t as [b|len off]; cbn; [intros Hl%lookup_lt_Some; lia|]. intros (? & ? & ? & ? & _). lia.
Qed.

Lemma toks_ok_end s p ts : (p <= length s)%nat -> toks_ok s p ts -> (p + toks_len ts <= length s)%nat.
Proof.
  revert p. induction ts as [|t ts IH]; intros p Hp; cbn; [lia|]. intros [Ht Hok]. rewrite Nat.add_assoc.
  apply IH; [by apply tok_ok_end|done].
Qed.

(** ** Copying a match *)

(** [s] repeats every [o] bytes between [lo] and [hi]. *)
Definition periodic (s : list Z) (o lo hi : nat) : Prop :=
  forall q, (lo + o <= q < hi)%nat -> s !! q = s !! (q - o)%nat.

Lemma periodic_mult s o lo hi k q :
  periodic s o lo hi -> (lo + k * o <= q < hi)%nat -> s !! q = s !! (q - k * o)%nat.
Proof.
  intros Hp. revert q. induction k as [|k IH]; intros q Hq; [f_equal; lia|].
  rewrite (IH q) by lia. rewrite Hp by lia. f_equal. lia.
Qed.

Lemma take_extend (s : list Z) (dp n lo : nat) :
  (dp + n <= length s)%nat -> (lo + n <= dp)%nat -> (forall i, (i < n)%nat -> s !! (dp + i)%nat = s !! (lo + i)%nat) ->
  take dp s ++ take n (drop lo (take dp s)) = take (dp + n) s.
Proof.
  intros Hs Hlo Heq. rewrite <- (take_drop dp (take (dp + n) s)), take_take, Nat.min_l by lia. f_equal.
  apply list_eq. intros i. destruct (Nat.lt_ge_cases i n) as [Hi|Hi].
  - rewrite lookup_take_lt, lookup_drop, lookup_take_lt by lia. rewrite lookup_drop, lookup_take_lt by lia. symmetry. by apply Heq.
  - rewrite !lookup_ge_None_2; [done|rewrite length_drop, length_take; lia|rewrite length_take; lia].
Qed.

Lemma copy_back_ok s (dp off n : nat) :
  (dp + n <= length s)%nat -> (n <= off <= dp)%nat -> (forall i, (i < n)%nat -> s !! (dp + i)%nat = s !! (dp + i - off)%nat) ->
  copy_back (take dp s) (Z.of_nat off) (Z.of_nat n) = Ok (take (dp + n) s).
Proof.
  intros Hs Hn Heq. unfold copy_back. rewrite length_take, Nat.min_l by lia. cbv zeta.
  destruct (Z.ltb_spec (Z.of_nat dp - Z.of_nat off) 0); [lia|].
  destruct (Z.ltb_spec (Z.of_nat off) (Z.of_nat n)); [lia|]. f_equal. rewrite Nat2Z.id.
  replace (Z.to_nat (Z.of_nat dp - Z.of_nat off)) with (dp - off)%nat by lia.
  apply take_extend; [done|lia|]. intros i Hi. rewrite Heq by done. f_equal. lia.
Qed.

(** The doubling of the offset copies whole repetitions. *)
Lemma copy_match_ok s o fuel (dp off len : nat) k :
  (0 < o)%nat -> off = (k * o)%nat -> (0 < off <= dp)%nat -> (dp + len <= length s)%nat ->
  periodic s o (dp - off) (dp + len) -> (len < fuel)%nat ->
  copy_match fuel (take dp s) (Z.of_nat off) (Z.of_nat len) = Ok (take (dp + len) s).
Proof.
  intros Ho. revert dp off len k. induction fuel as [|fuel IH]; intros dp off len k Hk Hoff Hs Hp Hf; [lia|]. cbn [copy_match].
  assert (Heq : forall i, (i < len)%nat -> s !! (dp + i)%nat = s !! (dp + i - off)%nat).
  { intros i Hi. rewrite (periodic_mult s o (dp - off) (dp + len) k) by (done || lia). by subst off. }
  destruct (Z.ltb_spec (Z.of_nat off) (Z.of_nat len)) as [Hlt|Hge].
  - rewrite copy_back_ok by (lia || (intros; apply Heq; lia)). cbn [mbind result_bind].
    replace (Z.of_nat off + Z.of_nat off) with (Z.of_nat (off + off)) by lia.
    replace (Z.of_nat len - Z.of_nat off) with (Z.of_nat (len - off)) by lia.
    rewrite (IH (dp + off)%nat (off + off)%nat (len - off)%nat (k + k)%nat); [f_equal; f_equal; lia|lia|lia|lia| |lia].
    intros q Hq. apply Hp. lia.
  - apply copy_back_ok; [lia|lia|done].
Qed.

(** ** Tags *)

(** The bit operations on a tag, checked for every offset and length. *)
Definition first_byte (off x : Z) : Z := uwrap 8 (Z.lor (Z.shiftr (Z.land off 0xf00) 4) x).

Definition tag_bits_ok (off x : Z) : bool :=
  (Z.land (first_byte off x) 0x0f =? x) &&
  (Z.lor (Z.shiftl (Z.land (first_byte off x) 0xf0) 4) (uwrap 8 (Z.land off 0xff)) =? off).

Lemma tag_bits_checked : forallb (fun off => forallb (tag_bits_ok off) (seqZ 0 16)) (seqZ 0 4096) = true.
Proof. vm_compute. reflexivity. Qed.

Lemma forallb_seqZ f n x : forallb f (seqZ 0 n) = true -> 0 <= x < n -> f x = true.
Proof. intros Hf Hx. rewrite forallb_forall in Hf. apply Hf, list_elem_of_In, elem_of_seqZ. lia. Qed.

Lemma tag_bits off x :
  0 <= off < 4096 -> 0 <= x < 16 ->
  Z.land (first_byte off x) 0x0f = x /\
  Z.lor (Z.shiftl (Z.land (first_byte off x) 0xf0) 4) (uwrap 8 (Z.land off 0xff)) = off.
Proof.
  intros Ho Hx. pose proof (forallb_seqZ _ _ off tag_bits_checked Ho) as H1.
  pose proof (forallb_seqZ _ _ x H1 Hx) as H2. unfold tag_bits_ok in H2.
  apply andb_true_iff in H2 as [E1 E2]. apply Z.eqb_eq in E1, E2. split; [exact E1|exact E2].
Qed.

Lemma tag_decode len off rest :
  3 <= len <= 273 -> 1 <= off <= 0xffe ->
  exists b0 b1 q, tag_bytes len off ++ rest = b0 :: b1 :: q /\
    Z.lor (Z.shiftl (Z.land b0 0xf0) 4) b1 = off /\
    (if Z.land b0 0x0f + 3 =? 18 then '(b, sp) ← next_byte q; Ok (Z.land b0 0x0f + 3 + b, sp) else Ok (Z.land b0 0x0f + 3, q))
    = Ok (len, rest).
Proof.
  intros Hlen Hoff. unfold tag_bytes. destruct (Z.gtb_spec len 17) as [Hbig|Hsmall].
  - destruct (tag_bits off 0x0f ltac:(lia) ltac:(lia)) as [El Eo]. eexists _, _, _. split; [done|].
    split; [exact Eo|]. fold (first_byte off 0x0f). rewrite El. change (15 + 3 =? 18) with true. cbn [next_byte mbind result_bind app]. do 2 f_equal.
    rewrite uwrap_small by (unfold in_uint; lia). lia.
  - destruct (tag_bits off (len - 3) ltac:(lia) ltac:(lia)) as [El Eo]. eexists _, _, _. split; [done|].
    split; [exact Eo|]. fold (first_byte off (len - 3)). rewrite El. destruct (Z.eqb_spec (len - 3 + 3) 18); [lia|]. cbn [app]. do 2 f_equal. lia.
Qed.

(** ** One token *)

Lemma read_tag_ok s p len off rest (n : nat) :
  tok_ok s p (Tag len off) -> (p < n)%nat ->
  read_tag (tag_bytes len off ++ rest) (take p s) (Z.of_nat n) =
  Ok (Some (rest, take (Nat.min n (p + Z.to_nat len)) s)).
Proof.
  intros (Hlen & Hoff & Hop & Hend & Heq) Hn. unfold read_tag.
  destruct (tag_decode len off rest Hlen Hoff) as (b0 & b1 & q & -> & Eo & El). cbn [next_byte mbind result_bind].
  rewrite El. cbn [mbind result_bind]. rewrite Eo. destruct (Z.eqb_spec off 0); [lia|].
  rewrite length_take, Nat.min_l by lia. set (m := Nat.min (Z.to_nat len) (n - p)).
  replace (Z.min len (Z.of_nat n - Z.of_nat p)) with (Z.of_nat m) by (unfold m; lia).
  rewrite <- (Z2Nat.id off) by lia. rewrite Nat2Z.id.
  rewrite (copy_match_ok s (Z.to_nat off) (S m) p (Z.to_nat off) m 1).
  - cbn [mbind result_bind]. do 4 f_equal. unfold m. lia.
  - lia.
  - lia.
  - lia.
  - unfold m. lia.
  - intros j Hj. replace j with (p + (j - p))%nat by lia. rewrite Heq by (unfold m in Hj; lia). f_equal.
  - lia.
Qed.

(** The decoder on one token. *)
Lemma read_token s p t rest (n : nat) :
  tok_ok s p t -> (p < n)%nat ->
  (if is_tag t then read_tag (item_bytes t ++ rest) (take p s) (Z.of_nat n)
   else '(b, sp) ← next_byte (item_bytes t ++ rest); Ok (Some (sp, take p s ++ [b])))
  = Ok (Some (rest, take (Nat.min n (p + tok_len t)) s)).
Proof.
  intros Ht Hn. destruct t as [b|len off]; cbn [is_tag item_bytes tok_len]; [|by apply read_tag_ok].
  cbn [app next_byte mbind result_bind]. cbn in Ht. do 4 f_equal. rewrite Nat.min_r, Nat.add_1_r by lia.
  symmetry. by apply take_S_r.
Qed.

Lemma item_bytes_nonempty t : item_bytes t <> [].
Proof. destruct t as [b|len off]; [done|]. cbn. unfold tag_bytes. by destruct (len >? 17). Qed.

Lemma ctrl_head t ts : bit_set (ctrl_of (t :: ts)) 1 = is_tag t /\ Z.shiftr (ctrl_of (t :: ts)) 1 = ctrl_of ts.
Proof.
  cbn [ctrl_of]. unfold bit_set. split.
  - rewrite (Z.land_ones _ 1) by lia. change (2 ^ 1) with 2.
    replace (_ + 2 * ctrl_of ts) with ((if is_tag t then 1 else 0) + ctrl_of ts * 2) by lia. rewrite Z.mod_add by lia. by destruct (is_tag t).
  - rewrite Z.shiftr_div_pow2 by lia. change (2 ^ 1) with 2.
    replace (_ + 2 * ctrl_of ts) with ((if is_tag t then 1 else 0) + ctrl_of ts * 2) by lia. rewrite Z.div_add by lia. by destruct (is_tag t).
Qed.

(** ** A group *)

(** Where the decoder is after tokens that end at [e]: everything up to [e] or
    [n], and the tokens are read unless the output is full. *)
Definition decoded (s : list Z) (n e : nat) (rest : list Z) (res : result (option (list Z * list Z))) : Prop :=
  exists sp, res = Ok (Some (sp, take (Nat.min n e) s)) /\ ((e <= n)%nat -> sp = rest).

Lemma read_items_ok s n g c p rest :
  toks_ok s p g -> (length g <= c)%nat -> (length g = c \/ rest = []) -> (p <= n)%nat -> (p <= length s)%nat ->
  decoded s n (p + toks_len g) rest (read_items c (ctrl_of g) (items_bytes g ++ rest) (take p s) (Z.of_nat n)).
Proof.
  revert c p. induction g as [|t g IH]; intros c p Hok Hc Hr Hn Hp.
  - cbn [toks_len]. rewrite Nat.add_0_r. unfold items_bytes. cbn [map concat app]. destruct c as [|c].
    { exists rest. cbn [read_items]. by rewrite Nat.min_r by lia. }
    destruct Hr as [| -> ]; [done|]. exists []. cbn [read_items length Nat.eqb negb andb]. by rewrite Nat.min_r by lia.
  - destruct Hok as [Ht Hok]. destruct c as [|c]; [cbn in Hc; lia|]. cbn [read_items length] in *.
    change (items_bytes (t :: g)) with (item_bytes t ++ items_bytes g). rewrite <- app_assoc.
    assert (Hsp : negb (length (item_bytes t ++ items_bytes g ++ rest) =? 0)%nat = true).
    { apply negb_true_iff, Nat.eqb_neq. rewrite length_app. pose proof (item_bytes_nonempty t). destruct (item_bytes t); [done|]. cbn. lia. }
    rewrite Hsp, length_take, Nat.min_l by lia. cbn [andb]. pose proof (tok_len_pos s p t Ht) as Hpos. pose proof (tok_ok_end s p t Ht) as Hend. cbn [toks_len].
    destruct (Z.ltb_spec (Z.of_nat p) (Z.of_nat n)) as [Hlt|Hge].
    2: { assert (p = n) by lia. subst p. eexists. rewrite Nat.min_l by lia. split; [done|lia]. }
    destruct (ctrl_head t g) as [ -> -> ]. rewrite (read_token s p t (items_bytes g ++ rest) n Ht ltac:(lia)). cbn [mbind result_bind].
    destruct (Nat.le_gt_cases (p + tok_len t) n) as [Hle|Hgt].
    + rewrite Nat.min_r by lia. rewrite Nat.add_assoc. apply IH; [done|lia|destruct Hr; [left; lia|by right]|lia|lia].
    + rewrite Nat.min_l by lia. exists (items_bytes g ++ rest). rewrite Nat.min_l by lia. split; [|lia].
      destruct c; cbn [read_items]; [done|]. rewrite length_take, Nat.min_l by lia.
      destruct (Z.ltb_spec (Z.of_nat n) (Z.of_nat n)); [lia|]. by rewrite andb_false_r.
Qed.

Lemma decompress_full fuel sp s n : (n <= length s)%nat -> decompress_loop (S fuel) sp (take n s) (Z.of_nat n) = Ok (Some (sp, take n s)).
Proof.
  intros Hn. cbn [decompress_loop]. rewrite length_take, Nat.min_l by lia.
  destruct (Z.ltb_spec (Z.of_nat n) (Z.of_nat n)); [lia|]. by rewrite andb_false_r.
Qed.

(** All groups. *)
Lemma decompress_groups s n gs fuel p :
  toks_ok s p (concat gs) -> groups_ok gs -> (p <= n)%nat -> (p <= length s)%nat -> (length gs < fuel)%nat ->
  decoded s n (p + toks_len (concat gs)) [] (decompress_loop fuel (concat (map group_bytes gs)) (take p s) (Z.of_nat n)).
Proof.
  revert fuel p. induction gs as [|g gs IH]; intros fuel p Hok Hg Hn Hp Hf.
  - destruct fuel; [lia|]. exists []. cbn. by rewrite Nat.add_0_r, Nat.min_r by lia.
  - destruct fuel as [|fuel]; [lia|]. cbn [concat map] in *. rewrite toks_ok_app in Hok. destruct Hok as [Hgok Hok].
    rewrite toks_len_app, Nat.add_assoc. cbn [decompress_loop group_bytes app length Nat.eqb negb andb].
    rewrite length_take, Nat.min_l by lia. destruct (Z.ltb_spec (Z.of_nat p) (Z.of_nat n)) as [Hlt|Hge].
    2: { assert (p = n) by lia. subst p. eexists. rewrite Nat.min_l by lia. split; [done|]. intros He. exfalso.
         assert (Hg1 : (1 <= length g)%nat) by (destruct gs; cbn in Hg; lia). destruct g as [|t g]; [cbn in Hg1; lia|].
         destruct Hgok as [Ht _]. pose proof (tok_len_pos _ _ _ Ht). cbn in He. lia. }
    cbn [next_byte mbind result_bind]. set (rest := concat (map group_bytes gs)).
    assert (Hlen : (length g <= 8)%nat /\ (length g = 8%nat \/ rest = [])).
    { destruct gs as [|g' gs]; cbn in Hg; [split; [lia|by right]|split; [lia|left; lia]]. }
    destruct (read_items_ok s n g 8 p rest Hgok (proj1 Hlen) (proj2 Hlen) Hn Hp) as (sp & -> & Hsp). cbn [mbind result_bind].
    pose proof (toks_ok_end s p g Hp Hgok) as Hend. destruct (Nat.le_gt_cases (p + toks_len g) n) as [Hle|Hgt].
    + rewrite (Hsp Hle), Nat.min_r by lia. apply IH; [done|by destruct gs; [|apply Hg]|lia|lia|cbn in Hf; lia].
    + rewrite Nat.min_l by lia. destruct fuel; [cbn in Hf; lia|]. rewrite decompress_full by lia.
      exists sp. rewrite Nat.min_l by lia. split; [done|lia].
Qed.

(** Encoded tokens that describe all of [s]. *)
Lemma decompress_encoded s gs n check :
  toks_ok s 0 (concat gs) -> toks_len (concat gs) = length s -> groups_ok gs -> (check = true -> n = length s) ->
  pglz_decompress (concat (map group_bytes gs)) (Z.of_nat n) check = Ok (Some (take n s)).
Proof.
  intros Hok Hlen Hg Hcheck. unfold pglz_decompress.
  assert (Hfuel : (length gs <= length (concat (map group_bytes gs)))%nat).
  { clear. induction gs as [|g gs IH]; cbn; [lia|]. rewrite length_app. lia. }
  destruct (decompress_groups s n gs (S (length (concat (map group_bytes gs)))) 0 Hok Hg) as (sp & E & Hsp); [lia|lia|lia|].
  change (take 0 s) with (@nil Z) in E. rewrite E, Hlen, Nat.add_0_l. cbn [mbind result_bind].
  rewrite <- take_take, firstn_all. destruct check; [|done]. specialize (Hcheck eq_refl). rewrite Hsp by lia.
  rewrite length_take, Nat.min_l, Z.eqb_refl by lia. done.
Qed.
