(* ===== verification/PgLzHistory.v ===== *)
(** * The history of the compressor

    The lists of the history table stay doubly linked lists of earlier
    positions, in decreasing order, when an entry is added or recycled.  So the
    walk over a list ends, and what it finds is a match. *)

From stdpp Require Import gmap.
From S2P Require Import Prelude PgLz PgLzDecode.

(** ** Linked lists *)

Section Links.
Implicit Types (U : Z -> Prop) (hs : gmap Z Z) (he : gmap Z PGLZ_HistEntry).

(** An entry in use. *)
Definition entry U he (i : Z) (e : PGLZ_HistEntry) : Prop := U i /\ he !! i = Some e.

(** The links of the entries in use: [prev] and [next] are inverse to each
    other, the lists start at [hist_start], and positions decrease. *)
Record linked U hs he (dp : Z) : Prop := {
  lk_zero : ~ U 0;
  lk_present : forall i, U i -> exists e, he !! i = Some e;
  lk_start : forall x, list_start hs x = 0 \/
    exists e, entry U he (list_start hs x) e /\ he_prev e = None /\ he_hindex e = x;
  lk_pos : forall i e, entry U he i e -> 0 <= he_pos e < dp;
  lk_next : forall i e, entry U he i e -> he_next e = 0 \/
    exists e', entry U he (he_next e) e' /\ he_prev e' = Some i /\ he_hindex e' = he_hindex e /\ he_pos e' < he_pos e;
  lk_prev : forall i e, entry U he i e ->
    match he_prev e with
    | None => list_start hs (he_hindex e) = i
    | Some j => exists e', entry U he j e' /\ he_next e' = i
    end
}.

Lemma list_start_insert hs x y i : list_start (<[x := i]> hs) y = if decide (x = y) then i else list_start hs y.
Proof. unfold list_start. destruct (decide (x = y)) as [->|]; [by rewrite lookup_insert_eq|by rewrite lookup_insert_ne]. Qed.

Lemma entry_inj U he i e e' : entry U he i e -> entry U he i e' -> e = e'.
Proof. intros [_ H1] [_ H2]. congruence. Qed.

(** What delinking [e] does to the entry [i]. *)
Definition delinked (e : PGLZ_HistEntry) (i : Z) (x : PGLZ_HistEntry) : PGLZ_HistEntry :=
  let x := if decide (he_prev e = Some i) then set_next (he_next e) x else x in
  if decide (he_next e = i) then set_prev (he_prev e) x else x.

Lemma delink_eval hs he r e :
  he !! r = Some e -> exists hs' he', delink hs he r = Ok (hs', he') /\
    (forall x, list_start hs' x = if decide (he_prev e = None /\ he_hindex e = x) then he_next e else list_start hs x) /\
    (forall i, he' !! i = delinked e i <$> he !! i).
Proof.
  intros He. unfold delink, get_entry. rewrite He. cbn [mbind result_bind].
  assert (Halter : forall (f : PGLZ_HistEntry -> PGLZ_HistEntry) (k : Z) (m : gmap Z PGLZ_HistEntry) (i : Z),
    alter f k m !! i = (if decide (k = i) then f else id) <$> m !! i).
  { intros f k m i. destruct (decide (k = i)) as [->|].
    - by rewrite lookup_alter_eq.
    - rewrite lookup_alter_ne by done. by destruct (m !! i). }
  destruct (he_prev e) as [p|] eqn:Ep; eexists _, _; (split; [reflexivity|]); split.
  - intros x. by rewrite decide_False by (by intros [? _]).
  - intros i. unfold delinked. rewrite !Halter, Ep. destruct (he !! i); [|done]. cbn.
    by destruct (decide (p = i)), (decide (Some p = Some i)), (decide (he_next e = i)); simplify_eq.
  - intros x. rewrite list_start_insert. destruct (decide (he_hindex e = x)); [by rewrite decide_True|by rewrite decide_False by (by intros [_ ?])].
  - intros i. unfold delinked. rewrite Halter, Ep. destruct (he !! i); [|done]. cbn.
    by destruct (decide (None = Some i)), (decide (he_next e = i)).
Qed.

Lemma delinked_fields e i x :
  he_pos (delinked e i x) = he_pos x /\ he_hindex (delinked e i x) = he_hindex x /\
  he_next (delinked e i x) = (if decide (he_prev e = Some i) then he_next e else he_next x) /\
  he_prev (delinked e i x) = (if decide (he_next e = i) then he_prev e else he_prev x).
Proof. unfold delinked. destruct (decide (he_prev e = Some i)), (decide (he_next e = i)); done. Qed.

End Links.

(** ** Delinking an entry *)

Section Delink.
Context (U : Z -> Prop) (hs : gmap Z Z) (he : gmap Z PGLZ_HistEntry) (dp r : Z) (e : PGLZ_HistEntry).
Hypothesis L : linked U hs he dp.
Hypothesis Er : entry U he r e.
Context (hs' : gmap Z Z) (he' : gmap Z PGLZ_HistEntry).
Hypothesis Hs : forall x, list_start hs' x = if decide (he_prev e = None /\ he_hindex e = x) then he_next e else list_start hs x.
Hypothesis Hl : forall i, he' !! i = delinked e i <$> he !! i.

Definition others (i : Z) : Prop := U i /\ i <> r.

Lemma others_in i x : entry U he i x -> i <> r -> entry others he' i (delinked e i x).
Proof. intros [Hu Hi] Hne. split; [done|]. by rewrite Hl, Hi. Qed.

Lemma others_out i y : entry others he' i y -> exists x, entry U he i x /\ i <> r /\ y = delinked e i x.
Proof. intros [[Hu Hne] Hi]. rewrite Hl in Hi. destruct (he !! i) as [x|] eqn:Ex; [|done]. injection Hi as <-. by exists x. Qed.

Lemma not_entry_zero x : ~ entry U he 0 x.
Proof. intros [Hu _]. by apply (lk_zero _ _ _ _ L). Qed.

(** The neighbours of the entry. *)
Lemma after_entry :
  he_next e = 0 \/ exists e', entry U he (he_next e) e' /\ he_prev e' = Some r /\
    he_hindex e' = he_hindex e /\ he_pos e' < he_pos e /\ he_next e <> r.
Proof.
  destruct (lk_next _ _ _ _ L r e Er) as [|(e' & Ee' & ? & ? & Hp)]; [by left|right]. exists e'. split_and!; try done.
  intros E. rewrite E in Ee'. pose proof (entry_inj _ _ _ _ _ Er Ee'). subst e'. lia.
Qed.

Lemma before_entry p :
  he_prev e = Some p -> exists ep, entry U he p ep /\ he_next ep = r /\
    he_hindex e = he_hindex ep /\ he_pos e < he_pos ep /\ p <> r.
Proof.
  intros Ep. pose proof (lk_prev _ _ _ _ L r e Er) as Hp. rewrite Ep in Hp. destruct Hp as (ep & Eep & En).
  destruct (lk_next _ _ _ _ L p ep Eep) as [E0|(e' & Ee' & ? & ? & Hp)].
  { rewrite En in E0. exfalso. apply (not_entry_zero e). by rewrite <- E0. }
  rewrite En in Ee'. pose proof (entry_inj _ _ _ _ _ Er Ee'). subst e'. exists ep. split_and!; try done.
  intros ->. pose proof (entry_inj _ _ _ _ _ Er Eep). subst ep. lia.
Qed.

(** Only the entry after [e] has [e] as its predecessor. *)
Lemma next_unique i x : entry U he i x -> he_next e = i -> he_prev x = Some r /\ he_hindex x = he_hindex e.
Proof.
  intros Ex E. destruct after_entry as [E0|(e' & Ee' & Hp & Hh & _)].
  - rewrite <- E, E0 in Ex. exfalso. by apply (not_entry_zero x).
  - rewrite E in Ee'. pose proof (entry_inj _ _ _ _ _ Ex Ee'). by subst e'.
Qed.

Lemma delinked_start x :
  list_start hs' x = 0 \/ exists y, entry others he' (list_start hs' x) y /\ he_prev y = None /\ he_hindex y = x.
Proof.
  rewrite Hs. destruct (decide (he_prev e = None /\ he_hindex e = x)) as [[En Ex]|Hn].
  - destruct after_entry as [E0|(e' & Ee' & Hp' & Hh' & _ & Hne)]; [by left|right]. exists (delinked e (he_next e) e').
    destruct (delinked_fields e (he_next e) e') as (_ & Fh & _ & Fp). rewrite decide_True in Fp by done.
    split_and!; [by apply others_in|congruence|congruence].
  - destruct (lk_start _ _ _ _ L x) as [E0|(y & Ey & Hp & Hh)]; [by left|right]. exists (delinked e (list_start hs x) y).
    destruct (delinked_fields e (list_start hs x) y) as (_ & Fh & _ & Fp). split_and!; [|rewrite Fp|congruence].
    + apply others_in; [done|]. intros E. rewrite E in Ey. pose proof (entry_inj _ _ _ _ _ Er Ey). subst y. by apply Hn.
    + destruct (decide (he_next e = list_start hs x)) as [E|]; [|done]. destruct (next_unique _ _ Ey E). congruence.
Qed.

Lemma delinked_next i y :
  entry others he' i y -> he_next y = 0 \/
  exists y', entry others he' (he_next y) y' /\ he_prev y' = Some i /\ he_hindex y' = he_hindex y /\ he_pos y' < he_pos y.
Proof.
  intros Hy. destruct (others_out i y Hy) as (x & Ex & Hne & ->). destruct (delinked_fields e i x) as (Fpos & Fh & Fn & _).
  rewrite Fn, Fh, Fpos. destruct (decide (he_prev e = Some i)) as [Ep|Hnp].
  - destruct (before_entry i Ep) as (ep & Eep & _ & Hhi & Hps & _). pose proof (entry_inj _ _ _ _ _ Ex Eep). subst ep.
    destruct after_entry as [|(e' & Ee' & Hp' & Hh' & Hps' & Hner)]; [by left|right]. exists (delinked e (he_next e) e').
    destruct (delinked_fields e (he_next e) e') as (Gpos & Gh & _ & Gp). rewrite decide_True in Gp by done.
    split_and!; [by apply others_in|congruence|congruence|rewrite Gpos; lia].
  - destruct (lk_next _ _ _ _ L i x Ex) as [|(e' & Ee' & Hp' & Hh' & Hps')]; [by left|right]. exists (delinked e (he_next x) e').
    destruct (delinked_fields e (he_next x) e') as (Gpos & Gh & _ & Gp).
    assert (Hjr : he_next x <> r).
    { intros E. rewrite E in Ee'. pose proof (entry_inj _ _ _ _ _ Er Ee'). subst e'. by apply Hnp. }
    rewrite decide_False in Gp; [split_and!; [by apply others_in|congruence|congruence|lia]|].
    intros E. destruct (next_unique _ _ Ee' E). congruence.
Qed.

Lemma delinked_prev i y :
  entry others he' i y ->
  match he_prev y with
  | None => list_start hs' (he_hindex y) = i
  | Some j => exists y', entry others he' j y' /\ he_next y' = i
  end.
Proof.
  intros Hy. destruct (others_out i y Hy) as (x & Ex & Hne & ->). destruct (delinked_fields e i x) as (_ & Fh & _ & Fp).
  rewrite Fp, Fh. destruct (decide (he_next e = i)) as [En|Hnn].
  - destruct (next_unique i x Ex En) as [_ Hh]. destruct (he_prev e) as [p|] eqn:Ep.
    + destruct (before_entry p Ep) as (ep & Eep & _ & _ & _ & Hpr). exists (delinked e p ep).
      destruct (delinked_fields e p ep) as (_ & _ & Gn & _). rewrite decide_True in Gn by congruence. split; [by apply others_in|congruence].
    + rewrite Hs, decide_True by (split; congruence). done.
  - pose proof (lk_prev _ _ _ _ L i x Ex) as Hp. destruct (he_prev x) as [j|].
    + destruct Hp as (ej & Eej & Enj). exists (delinked e j ej). destruct (delinked_fields e j ej) as (_ & _ & Gn & _).
      assert (Hjr : j <> r) by (intros ->; pose proof (entry_inj _ _ _ _ _ Er Eej); congruence).
      rewrite decide_False in Gn; [split; [by apply others_in|congruence]|].
      intros Ep. destruct (before_entry j Ep) as (ep & Eep & Enr & _). pose proof (entry_inj _ _ _ _ _ Eej Eep). subst ep. congruence.
    + rewrite Hs. destruct (decide _) as [[En Eh]|]; [|done]. exfalso. pose proof (lk_prev _ _ _ _ L r e Er) as Hpr. rewrite En in Hpr.
      rewrite Eh in Hpr. congruence.
Qed.

Lemma delinked_linked : linked others hs' he' dp.
Proof.
  split.
  - intros [Hu _]. by apply (lk_zero _ _ _ _ L).
  - intros i [Hu Hne]. destruct (lk_present _ _ _ _ L i Hu) as [x Hx]. exists (delinked e i x). by rewrite Hl, Hx.
  - exact delinked_start.
  - intros i y Hy. destruct (others_out i y Hy) as (x & Ex & _ & ->). destruct (delinked_fields e i x) as (-> & _).
    by apply (lk_pos _ _ _ _ L i).
  - exact delinked_next.
  - exact delinked_prev.
Qed.

End Delink.

Lemma delink_linked U hs he dp r :
  linked U hs he dp -> U r -> exists hs' he', delink hs he r = Ok (hs', he') /\ linked (others U r) hs' he' dp.
Proof.
  intros L Hr. destruct (lk_present _ _ _ _ L r Hr) as [e He]. destruct (delink_eval hs he r e He) as (hs' & he' & Ed & Hs & Hl).
  exists hs', he'. split; [done|]. by apply (delinked_linked U hs he dp r e L).
Qed.

(** ** Adding an entry *)

Lemma link_linked U hs he dp r x0 :
  linked U hs he dp -> ~ U r -> r <> 0 -> 0 <= dp ->
  let first := list_start hs x0 in
  linked (fun i => U i \/ i = r) (<[x0 := r]> hs) (alter (set_prev (Some r)) first (<[r := mkHistEntry first None x0 dp]> he)) (dp + 1).
Proof.
  intros L Hr Hr0 Hdp first. set (U' := fun i => U i \/ i = r). set (new := mkHistEntry first None x0 dp).
  set (he' := alter _ _ _). set (hs' := <[x0 := r]> hs).
  pose proof (lk_start _ _ _ _ L x0) as Hst. change (list_start hs x0) with first in Hst.
  assert (Hfr : first <> r).
  { destruct Hst as [E|(y & [Hu _] & _)]; congruence. }
  assert (Hnew : entry U' he' r new).
  { split; [by right|]. unfold he'. by rewrite lookup_alter_ne, lookup_insert_eq. }
  assert (Hin : forall i x, entry U he i x -> entry U' he' i (if decide (i = first) then set_prev (Some r) x else x)).
  { intros i x [Hu Hi]. split; [by left|]. unfold he'. assert (i <> r) by congruence.
    destruct (decide (i = first)) as [->|]; [rewrite lookup_alter_eq|rewrite lookup_alter_ne by done];
      rewrite lookup_insert_ne by done; by rewrite Hi. }
  assert (Hout : forall i y, entry U' he' i y -> (i = r /\ y = new) \/
                   exists x, entry U he i x /\ y = (if decide (i = first) then set_prev (Some r) x else x)).
  { intros i y Hy. destruct (decide (i = r)) as [->|Hne]; [left; split; [done|by eapply entry_inj]|right].
    destruct Hy as [[Hu|] Hi]; [|done]. destruct (lk_present _ _ _ _ L i Hu) as [x Hx]. exists x. split; [done|].
    destruct (Hin i x (conj Hu Hx)) as [_ Hi']. congruence. }
  assert (Hfirst : forall x, entry U he first x -> he_prev x = None /\ he_hindex x = x0).
  { intros x Ex. destruct Hst as [E|(y & Ey & Hp & Hh)].
    - rewrite E in Ex. by destruct (lk_zero _ _ _ _ L (proj1 Ex)).
    - pose proof (entry_inj _ _ _ _ _ Ex Ey). by subst y. }
  split.
  - intros [Hu|]; [by apply (lk_zero _ _ _ _ L)|congruence].
  - intros i [Hu| ->]; [|by exists new; apply Hnew]. destruct (lk_present _ _ _ _ L i Hu) as [x Hx].
    destruct (Hin i x (conj Hu Hx)) as [_ ?]. by eexists.
  - intros x. unfold hs'. rewrite list_start_insert. destruct (decide (x0 = x)) as [->|Hx]; [right; exists new; by split_and!|].
    destruct (lk_start _ _ _ _ L x) as [|(y & Ey & Hp & Hh)]; [by left|right]. pose proof (Hin _ _ Ey) as Hi.
    destruct (decide (list_start hs x = first)) as [E|]; [|by exists y]. rewrite E in Ey. destruct (Hfirst y Ey). congruence.
  - intros i y Hy. destruct (Hout i y Hy) as [[-> ->]|(x & Ex & ->)]; [cbn; lia|].
    pose proof (lk_pos _ _ _ _ L i x Ex). destruct (decide (i = first)); cbn; lia.
  - intros i y Hy. destruct (Hout i y Hy) as [[-> ->]|(x & Ex & ->)].
    + cbn [he_next new he_hindex he_pos]. destruct Hst as [E|(y & Ey & Hp & Hh)]; [by left|right].
      pose proof (Hin _ _ Ey) as Hi. rewrite decide_True in Hi by done. eexists. split; [exact Hi|]. cbn.
      pose proof (lk_pos _ _ _ _ L _ _ Ey). split_and!; [done|done|lia].
    + assert (Hf : he_next (if decide (i = first) then set_prev (Some r) x else x) = he_next x /\
                   he_hindex (if decide (i = first) then set_prev (Some r) x else x) = he_hindex x /\
                   he_pos (if decide (i = first) then set_prev (Some r) x else x) = he_pos x) by (by destruct (decide (i = first))).
      destruct Hf as (-> & -> & ->). destruct (lk_next _ _ _ _ L i x Ex) as [|(e' & Ee' & Hp & Hh & Hps)]; [by left|right].
      pose proof (Hin _ _ Ee') as Hi. rewrite decide_False in Hi; [by exists e'|]. intros E. rewrite E in Ee'. destruct (Hfirst _ Ee'). congruence.
  - intros i y Hy. destruct (Hout i y Hy) as [[-> ->]|(x & Ex & ->)].
    + cbn. unfold hs'. by rewrite list_start_insert, decide_True.
    + destruct (decide (i = first)) as [E|Hne]; cbn [set_prev he_prev].
      * exists new. by split.
      * pose proof (lk_prev _ _ _ _ L i x Ex) as Hp. destruct (he_prev x) as [j|].
        -- destruct Hp as (e' & Ee' & En). eexists. split; [by apply Hin|]. by destruct (decide (j = first)).
        -- unfold hs'. rewrite list_start_insert. destruct (decide (x0 = he_hindex x)) as [E|]; [|done]. rewrite <- E in Hp. by destruct Hne.
Qed.

(** ** The history *)

(** The entries that the current call has written. *)
Definition in_use (h : History) (i : Z) : Prop :=
  1 <= i <= PGLZ_HISTORY_SIZE /\ (hist_recycle h = true \/ i < hist_next h).

Definition hist_ok (h : History) (dp : Z) : Prop :=
  1 <= hist_next h <= PGLZ_HISTORY_SIZE /\ linked (in_use h) (hist_start h) (hist_entries h) dp.

Lemma linked_iff U U' hs he dp : (forall i, U i <-> U' i) -> linked U hs he dp -> linked U' hs he dp.
Proof.
  intros HU L. assert (He : forall i e, entry U he i e <-> entry U' he i e) by (intros i e; unfold entry; by rewrite HU).
  split.
  - rewrite <- HU. apply (lk_zero _ _ _ _ L).
  - intros i Hi. apply (lk_present _ _ _ _ L). by rewrite HU.
  - intros x. destruct (lk_start _ _ _ _ L x) as [|(e & Ee & ?)]; [by left|right]. exists e. by rewrite <- He.
  - intros i e Ee. apply (lk_pos _ _ _ _ L i). by rewrite He.
  - intros i e Ee. rewrite <- He in Ee. destruct (lk_next _ _ _ _ L i e Ee) as [|(e' & Ee' & ?)]; [by left|right]. exists e'. by rewrite <- He.
  - intros i e Ee. rewrite <- He in Ee. pose proof (lk_prev _ _ _ _ L i e Ee) as Hp. destruct (he_prev e) as [j|]; [|done].
    destruct Hp as (e' & Ee' & ?). exists e'. by rewrite <- He.
Qed.

Lemma hist_ok_empty : hist_ok (mkHistory ∅ ∅ 1 false) 0.
Proof.
  assert (Hno : forall i, ~ in_use (mkHistory ∅ ∅ 1 false) i) by (intros i [? [[=]|?]]; cbn in *; lia).
  split; [cbn; unfold PGLZ_HISTORY_SIZE; lia|]. split; cbn [hist_start hist_entries].
  - apply Hno.
  - intros i Hi. by destruct (Hno i).
  - intros x. left. unfold list_start. by rewrite lookup_empty.
  - intros i e [Hi _]. by destruct (Hno i).
  - intros i e [Hi _]. by destruct (Hno i).
  - intros i e [Hi _]. by destruct (Hno i).
Qed.

Lemma land_le_mask c mask : 0 <= mask -> Z.land c mask <= mask.
Proof.
  intros Hm. assert (Hz : Z.land (Z.ldiff mask c) (Z.land mask c) = 0).
  { rewrite (Z.land_comm mask c), Z.land_assoc, Z.land_ldiff. apply Z.land_0_l. }
  pose proof (Z.lor_ldiff_and mask c) as Ho. rewrite <- (Z.lxor_lor _ _ Hz), <- (Z.add_nocarry_lxor _ _ Hz) in Ho.
  assert (0 <= Z.ldiff mask c) by (apply Z.ldiff_nonneg; auto). rewrite (Z.land_comm c mask). lia.
Qed.

(** The list of a position: its bytes are in the input. *)
Lemma hist_idx_ok s dp mask :
  0 <= dp < Z.of_nat (length s) -> 0 <= mask ->
  exists x, pglz_hist_idx s dp mask = Ok x /\ list_index x mask = Ok x.
Proof.
  intros Hdp Hm.
  assert (Hget : forall i, 0 <= i < Z.of_nat (length s) -> exists c, source_char s i = Ok c).
  { intros i Hi. unfold source_char. destruct (lookup_lt_is_Some_2 s (Z.to_nat i) ltac:(lia)) as [c Hc].
    rewrite (array_get_lookup s i c ltac:(lia) Hc). by eexists. }
  assert (Hland : forall c, list_index (Z.land c mask) mask = Ok (Z.land c mask)).
  { intros c. unfold list_index. assert (0 <= Z.land c mask) by (apply Z.land_nonneg; auto).
    assert (Z.land c mask <= mask) by (by apply land_le_mask).
    destruct (Z.leb_spec 0 (Z.land c mask)), (Z.leb_spec (Z.land c mask) mask); (done || lia). }
  unfold pglz_hist_idx. destruct (Z.ltb_spec (Z.of_nat (length s) - dp) 4).
  - destruct (Hget dp Hdp) as [c0 ->]. cbn [mbind result_bind]. eexists. split; [done|apply Hland].
  - destruct (Hget dp ltac:(lia)) as [c0 ->], (Hget (dp + 1) ltac:(lia)) as [c1 ->], (Hget (dp + 2) ltac:(lia)) as [c2 ->],
      (Hget (dp + 3) ltac:(lia)) as [c3 ->]. cbn [mbind result_bind]. eexists. split; [done|apply Hland].
Qed.

Lemma hist_add_ok h s dp mask :
  hist_ok h dp -> 0 <= dp < Z.of_nat (length s) -> 0 <= mask -> exists h', pglz_hist_add h s dp mask = Ok h' /\ hist_ok h' (dp + 1).
Proof.
  intros [Hn L] Hdp Hm. unfold pglz_hist_add. destruct (hist_idx_ok s dp mask Hdp Hm) as (hindex & -> & Hix).
  cbn [mbind result_bind]. rewrite Hix. cbn [mbind result_bind]. set (hn := hist_next h) in *.
  assert (Hfree : exists hs he, (if hist_recycle h then delink (hist_start h) (hist_entries h) hn
                                 else Ok (hist_start h, hist_entries h)) = Ok (hs, he) /\
                    linked (others (in_use h) hn) hs he dp).
  { destruct (hist_recycle h) eqn:Er.
    - apply delink_linked; [done|]. split; [done|]. by left.
    - eexists _, _. split; [done|]. eapply linked_iff; [|exact L]. intros i. unfold others, in_use. rewrite Er. fold hn.
      split; [|tauto]. intros [Hi [|Hlt]]; [done|]. split; [split; [done|by right]|lia]. }
  destruct Hfree as (hs & he & -> & L'). cbn [mbind result_bind].
  pose proof (link_linked _ _ _ _ hn hindex L') as Hlink.
  specialize (Hlink ltac:(intros [_ ?]; done) ltac:(lia) ltac:(lia)). cbv zeta in Hlink.
  destruct (Z.geb_spec (hn + 1) (PGLZ_HISTORY_SIZE + 1)) as [Hge|Hlt].
  - eexists. split; [done|]. split; [cbn; unfold PGLZ_HISTORY_SIZE; lia|]. cbn [hist_start hist_entries].
    eapply linked_iff; [|exact Hlink]. intros i. unfold others, in_use. cbn [hist_recycle hist_next]. fold hn.
    destruct (decide (i = hn)) as [->|]; [split; [intros _; split; [lia|by left]|by right]|].
    split; [|intros [? _]; left; split; [split; [done|]|done]]; [intros [[[? _] _]|]; [split; [done|by left]|done]|].
    right. lia.
  - eexists. split; [done|]. split; [cbn; lia|]. cbn [hist_start hist_entries].
    eapply linked_iff; [|exact Hlink]. intros i. unfold others, in_use. cbn [hist_recycle hist_next]. fold hn.
    destruct (decide (i = hn)) as [->|]; [split; [intros _; split; [lia|right; lia]|by right]|].
    split; [intros [[[? [?|?]] _]|]; [split; [done|by left]|split; [done|right; lia]|done]|].
    intros [? [?|?]]; left; (split; [|done]); (split; [done|]); [by left|right; lia].
Qed.

Lemma add_entries_ok n h s dp mask :
  hist_ok h dp -> 0 <= dp -> dp + Z.of_nat n <= Z.of_nat (length s) -> 0 <= mask ->
  exists h', add_entries n h s dp mask = Ok h' /\ hist_ok h' (dp + Z.of_nat n).
Proof.
  intros Hok Hdp Hend Hm. revert h dp Hok Hdp Hend. induction n as [|n IH]; intros h dp Hok Hdp Hend; cbn [add_entries].
  - exists h. by rewrite Z.add_0_r.
  - destruct (hist_add_ok h s dp mask Hok ltac:(lia) Hm) as (h1 & -> & H1). cbn [mbind result_bind].
    destruct (IH h1 (dp + 1) H1 ltac:(lia) ltac:(lia)) as (h2 & -> & H2). exists h2. split; [done|].
    by replace (dp + Z.of_nat (S n)) with (dp + 1 + Z.of_nat n) by lia.
Qed.

(** ** Matches *)

(** The loop that compares characters finds the length of a common prefix. *)
Lemma match_loop_ok s1 s2 t :
  0 <= t <= PGLZ_MAX_MATCH ->
  exists k : nat, match_loop s1 s2 t = t + Z.of_nat k /\ t + Z.of_nat k <= PGLZ_MAX_MATCH /\ (k <= length s1)%nat /\
    forall i, (i < k)%nat -> s1 !! i = s2 !! i.
Proof.
  revert s2 t. induction s1 as [|c1 s1 IH]; intros s2 t Ht; cbn [match_loop].
  { exists 0%nat. split_and!; [lia|lia|lia|lia]. }
  destruct s2 as [|c2 s2]; [exists 0%nat; split_and!; (lia || (intros; lia))|].
  destruct (Z.eqb_spec c1 c2) as [->|]; cbn [andb]; [|exists 0%nat; split_and!; (lia || (intros; lia))].
  destruct (Z.ltb_spec t PGLZ_MAX_MATCH); [|exists 0%nat; split_and!; (lia || (intros; lia))].
  destruct (IH s2 (t + 1) ltac:(lia)) as (k & -> & Hmax & Hlen & Heq). exists (S k). split_and!; [lia|lia|cbn; lia|].
  intros [|i] Hi; [done|]. cbn. apply Heq. lia.
Qed.

(** [s] has the same [len] bytes at [ip] and at [hp]. *)
Definition same_bytes (s : list Z) (ip hp : Z) (len : Z) : Prop :=
  0 <= len <= PGLZ_MAX_MATCH /\ ip + len <= Z.of_nat (length s) /\
  forall i, (i < Z.to_nat len)%nat -> s !! (Z.to_nat ip + i)%nat = s !! (Z.to_nat hp + i)%nat.

(** The best match so far: none, or one at an offset that fits a tag. *)
Definition best_ok (s : list Z) (ip len off : Z) : Prop :=
  len = 0 \/ 1 <= off <= 0xffe /\ off <= ip /\ same_bytes s ip (ip - off) len.

Lemma best_len s ip len off : ip <= Z.of_nat (length s) -> best_ok s ip len off -> 0 <= len <= PGLZ_MAX_MATCH /\ ip + len <= Z.of_nat (length s).
Proof. intros Hip [->|(_ & _ & ? & ? & _)]; unfold PGLZ_MAX_MATCH in *; lia. Qed.

Lemma match_length_ok s ip hp len off :
  0 <= hp < ip -> ip <= Z.of_nat (length s) -> best_ok s ip len off ->
  exists thislen, match_length s ip hp len = Ok thislen /\ same_bytes s ip hp thislen.
Proof.
  intros Hhp Hip Hbest. destruct (best_len s ip len off Hip Hbest) as [Hlen Hend]. unfold match_length. cbv zeta.
  set (s1 := drop (Z.to_nat ip) s). set (s2 := drop (Z.to_nat hp) s).
  assert (Hl1 : length s1 = (length s - Z.to_nat ip)%nat) by apply length_drop.
  assert (Hl2 : length s2 = (length s - Z.to_nat hp)%nat) by apply length_drop.
  assert (Hat : forall i, s1 !! i = s !! (Z.to_nat ip + i)%nat /\ s2 !! i = s !! (Z.to_nat hp + i)%nat)
    by (intros i; unfold s1, s2; by rewrite !lookup_drop).
  destruct (Z.geb_spec len 16) as [Hge|Hlt].
  - unfold memcmp_eq. destruct (Z.leb_spec len (Z.of_nat (length s1))); [|lia]. destruct (Z.leb_spec len (Z.of_nat (length s2))); [|lia].
    cbn [andb mbind result_bind]. case_bool_decide as Heq; [|exists 0; split; [done|unfold same_bytes, PGLZ_MAX_MATCH; split_and!; lia]].
    destruct (match_loop_ok (drop (Z.to_nat len) s1) (drop (Z.to_nat len) s2) len Hlen) as (k & -> & Hmax & Hk & Hsame).
    rewrite length_drop in Hk. exists (len + Z.of_nat k). split; [done|]. split_and!; [lia|done|lia|]. intros i Hi.
    destruct (Hat i) as [<- <-]. destruct (Nat.lt_ge_cases i (Z.to_nat len)) as [Hil|Hil].
    + rewrite <- (lookup_take_lt s1 (Z.to_nat len)), <- (lookup_take_lt s2 (Z.to_nat len)) by done. by rewrite Heq.
    + specialize (Hsame (i - Z.to_nat len)%nat ltac:(lia)). rewrite !lookup_drop in Hsame.
      by replace (Z.to_nat len + (i - Z.to_nat len))%nat with i in Hsame by lia.
  - destruct (match_loop_ok s1 s2 0 ltac:(unfold PGLZ_MAX_MATCH; lia)) as (k & -> & Hmax & Hk & Hsame). exists (0 + Z.of_nat k). split; [done|].
    split_and!; [lia|done|lia|]. intros i Hi. destruct (Hat i) as [<- <-]. apply Hsame. lia.
Qed.

(** The walk over a list ends and gives the best match. *)
Lemma find_loop_ok h s ip fuel hent len off good_match good_drop :
  hist_ok h ip -> ip <= Z.of_nat (length s) -> best_ok s ip len off ->
  (hent = 0 \/ exists e, entry (in_use h) (hist_entries h) hent e /\ (Z.to_nat (he_pos e) + 2 <= fuel)%nat) -> (1 <= fuel)%nat ->
  exists len' off', find_loop fuel (hist_entries h) s ip hent len off good_match good_drop = Ok (len', off') /\ best_ok s ip len' off'.
Proof.
  intros [Hn L] Hip. revert hent len off good_match. induction fuel as [|fuel IH]; intros hent len off good_match Hbest Hent Hf; [lia|].
  cbn [find_loop]. unfold INVALID_ENTRY. destruct (Z.eqb_spec hent 0) as [|Hne]; [by exists len, off|].
  destruct Hent as [|(e & Ee & Hfe)]; [done|]. unfold get_entry. rewrite (proj2 Ee). cbn [mbind result_bind].
  pose proof (lk_pos _ _ _ _ L _ _ Ee) as Hpos. destruct (Z.geb_spec (ip - he_pos e) 0x0fff) as [|Hoff]; [by exists len, off|].
  destruct (match_length_ok s ip (he_pos e) len off ltac:(lia) Hip Hbest) as (tl & -> & Htl). cbn [mbind result_bind].
  assert (Hbest' : exists len' off', (if tl >? len then (tl, ip - he_pos e) else (len, off)) = (len', off') /\ best_ok s ip len' off').
  { destruct (tl >? len); eexists _, _; (split; [done|]); [|done]. right. split_and!; [lia|lia|lia|].
    by replace (ip - (ip - he_pos e)) with (he_pos e) by lia. }
  destruct Hbest' as (len' & off' & -> & Hb). 
  assert (Hnext : he_next e = 0 \/ exists e', entry (in_use h) (hist_entries h) (he_next e) e' /\ (Z.to_nat (he_pos e') + 2 <= fuel)%nat).
  { destruct (lk_next _ _ _ _ L _ _ Ee) as [|(e' & Ee' & _ & _ & Hlt)]; [by left|right]. exists e'. split; [done|].
    pose proof (lk_pos _ _ _ _ L _ _ Ee'). lia. }
  destruct (negb (he_next e =? 0)); [destruct (len' >=? good_match); [by exists len', off'|]|]; apply IH; (done || lia).
Qed.

Lemma find_match_ok h s (p : nat) good_match good_drop mask :
  hist_ok h (Z.of_nat p) -> (p < length s)%nat -> 0 <= mask ->
  exists m, pglz_find_match h s (Z.of_nat p) good_match good_drop mask = Ok m /\
    match m with Some (len, off) => tok_ok s p (Tag len off) | None => True end.
Proof.
  intros Hok Hp Hm. unfold pglz_find_match. cbv zeta.
  destruct (hist_idx_ok s (Z.of_nat p) mask ltac:(lia) Hm) as (hindex & -> & Hix). cbn [mbind result_bind]. rewrite Hix.
  cbn [mbind result_bind].
  destruct (find_loop_ok h s (Z.of_nat p) (Z.to_nat (Z.of_nat p) + 2) (list_start (hist_start h) hindex)
              0 0 good_match good_drop Hok) as (len & off & -> & Hbest); [lia|by left| |lia|].
  { destruct (lk_start _ _ _ _ (proj2 Hok) hindex) as [|(e & Ee & _)]; [by left|right]. exists e. split; [done|].
    pose proof (lk_pos _ _ _ _ (proj2 Hok) _ _ Ee). lia. }
  cbn [mbind result_bind]. eexists. split; [done|]. destruct (Z.gtb_spec len 2) as [Hlen|]; [|done].
  destruct Hbest as [->|(Hoff & Hop & [? ?] & Hend & Heq)]; [lia|]. cbn [tok_ok]. unfold PGLZ_MAX_MATCH in *.
  split_and!; [lia|lia|lia|lia|lia|done|]. intros i Hi. specialize (Heq i Hi). rewrite Nat2Z.id in Heq. rewrite Heq. f_equal. lia.
Qed.
