(* ===== verification/PgLzTheorems.v ===== *)
(** * What the compressor writes

    The output buffer is always an encoding of tokens that describe the input
    read so far, so that decompression gives the input back, in full and for
    every prefix, also when only the first
    [pglz_maximum_compressed_size] bytes are there. *)

From stdpp Require Import gmap.
From S2P Require Import Prelude PgLz PgLzDecode PgLzHistory.

(** ** The output *)

(** The full groups before the current control byte. *)
Definition groups_bytes (gs : list (list token)) : list Z := concat (map group_bytes gs).
Definition full (g : list token) : Prop := length g = 8%nat.

Definition output_of (gs : list (list token)) (g : list token) : Output :=
  mkOutput (groups_bytes gs ++ 0 :: items_bytes g) (Some (Z.of_nat (length (groups_bytes gs)))) (ctrl_of g)
    (uwrap 8 (2 ^ Z.of_nat (length g))).

(** The output holds the tokens [ts]. *)
Definition out_ok (o : Output) (ts : list token) : Prop :=
  (o = mkOutput [] None 0 0 /\ ts = []) \/
  exists gs g, o = output_of gs g /\ ts = concat gs ++ g /\ Forall full gs /\ (1 <= length g <= 8)%nat.

Lemma groups_bytes_app gs g : groups_bytes (gs ++ [g]) = groups_bytes gs ++ group_bytes g.
Proof. unfold groups_bytes. by rewrite map_app, concat_app; cbn; rewrite app_nil_r. Qed.

Lemma items_bytes_app ts ts' : items_bytes (ts ++ ts') = items_bytes ts ++ items_bytes ts'.
Proof. unfold items_bytes. by rewrite map_app, concat_app. Qed.

Lemma groups_full gs g : Forall full gs -> (1 <= length g <= 8)%nat -> groups_ok (gs ++ [g]).
Proof.
  intros Hgs Hg. induction Hgs as [|g' gs Hg' Hgs IH]; [done|]. cbn [app]. destruct gs; by split.
Qed.

Lemma write_ctrl_ok gs g : write_ctrl (output_of gs g) = Ok (groups_bytes (gs ++ [g])).
Proof.
  unfold write_ctrl, output_of. cbn [out_ctrlp out_buf out_ctrlb]. rewrite length_app. cbn [length].
  destruct (Z.leb_spec 0 (Z.of_nat (length (groups_bytes gs)))); [|lia].
  destruct (Z.ltb_spec (Z.of_nat (length (groups_bytes gs))) (Z.of_nat (length (groups_bytes gs) + S (length (items_bytes g)))));
    [|lia]. cbn [andb]. f_equal. rewrite Nat2Z.id, groups_bytes_app. unfold group_bytes.
  replace (length (groups_bytes gs)) with (length (groups_bytes gs) + 0)%nat by lia. by rewrite insert_app_r.
Qed.

(** ** The control byte *)

Lemma ctrl_of_bound g : 0 <= ctrl_of g < 2 ^ Z.of_nat (length g).
Proof.
  induction g as [|t g IH]; cbn [ctrl_of length]; [lia|]. rewrite Nat2Z.inj_succ, Z.pow_succ_r by lia.
  destruct (is_tag t); lia.
Qed.

Lemma ctrl_of_app g g' : ctrl_of (g ++ g') = ctrl_of g + 2 ^ Z.of_nat (length g) * ctrl_of g'.
Proof.
  induction g as [|t g IH]; cbn [ctrl_of length app]; [lia|]. rewrite IH, Nat2Z.inj_succ, Z.pow_succ_r by lia. lia.
Qed.

Lemma lor_high a n : 0 <= n -> 0 <= a < 2 ^ n -> Z.lor a (2 ^ n) = a + 2 ^ n.
Proof.
  intros Hn Ha. assert (Hl : Z.land a (2 ^ n) = 0); [|by rewrite (Z.add_nocarry_lxor _ _ Hl), (Z.lxor_lor _ _ Hl)].
  apply Z.bits_inj'. intros i Hi.
  rewrite Z.land_spec, Z.bits_0, Z.pow2_bits_eqb by done.
  destruct (Z.eqb_spec n i) as [<-|]; [|by rewrite andb_false_r].
  rewrite <- (Z.mod_small a (2 ^ n)) by done. by rewrite Z.mod_pow2_bits_high by lia.
Qed.

Lemma shift_ctrl_pow n : 0 <= n < 8 -> shift_ctrl (2 ^ n) = uwrap 8 (2 ^ (n + 1)).
Proof. intros Hn. unfold shift_ctrl. rewrite Z.shiftl_mul_pow2 by lia. by rewrite <- Z.pow_add_r by lia. Qed.

Lemma pow_byte n : 0 <= n < 8 -> uwrap 8 (2 ^ n) = 2 ^ n /\ (Z.land (2 ^ n) 0xff =? 0) = false.
Proof.
  intros Hn. assert (Hc : forallb (fun n => (uwrap 8 (2 ^ n) =? 2 ^ n) && negb (Z.land (2 ^ n) 0xff =? 0)) (seqZ 0 8) = true)
    by reflexivity. pose proof (forallb_seqZ _ _ n Hc Hn) as H. cbv beta in H.
  apply andb_true_iff in H as [H1%Z.eqb_eq H2%negb_true_iff]. done.
Qed.

(** ** Writing a token *)

Definition pglz_out (cap : Z) (o : Output) (t : token) : result Output :=
  match t with Lit b => pglz_out_literal cap o b | Tag len off => pglz_out_tag cap o len off end.

Lemma emit_ok cap buf bs : Z.of_nat (length buf + length bs) <= cap -> emit cap buf bs = Ok (buf ++ bs).
Proof. intros H. unfold emit. by destruct (Z.leb_spec (Z.of_nat (length buf + length bs)) cap); [|lia]. Qed.

(** After [pglz_out_ctrl] the current group has room for a token. *)
Lemma out_ctrl_ok cap o ts :
  out_ok o ts -> Z.of_nat (length (out_buf o)) + 4 <= cap ->
  exists gs g, pglz_out_ctrl cap o = Ok (output_of gs g) /\ ts = concat gs ++ g /\ Forall full gs /\ (length g < 8)%nat /\
    (length (out_buf (output_of gs g)) <= length (out_buf o) + 1)%nat.
Proof.
  intros [[-> ->]|(gs & g & -> & -> & Hgs & Hg)] Hcap; unfold pglz_out_ctrl.
  - cbn in Hcap |- *. rewrite emit_ok by (cbn; lia). exists [], []. cbn. split_and!; (done || lia || constructor).
  - cbn [out_ctrl output_of]. destruct (decide (length g = 8%nat)) as [E|Hne].
    + rewrite E. change (Z.land (uwrap 8 (2 ^ Z.of_nat 8)) 0xff =? 0) with true. cbv iota. fold (output_of gs g). rewrite write_ctrl_ok.
      cbn [mbind result_bind].
      assert (Hlen : length (groups_bytes (gs ++ [g])) = length (out_buf (output_of gs g)))
        by (rewrite groups_bytes_app; cbn; rewrite !length_app; done).
      rewrite emit_ok by (rewrite Hlen; cbn [length]; lia). exists (gs ++ [g]), []. cbn [mbind result_bind].
      split_and!; [done|by rewrite concat_app; cbn; rewrite !app_nil_r|apply Forall_app_2; [done|by constructor]|cbn; lia|].
      rewrite <- Hlen. cbn. rewrite length_app. cbn. lia.
    + destruct (pow_byte (Z.of_nat (length g)) ltac:(lia)) as [-> ->]. exists gs, g. split_and!; (done || lia).
Qed.

Lemma tag_bytes_length len off : (length (tag_bytes len off) <= 3)%nat.
Proof. unfold tag_bytes. destruct (len >? 17); cbn; lia. Qed.

Lemma out_token_ok cap o ts t :
  out_ok o ts -> Z.of_nat (length (out_buf o)) + 4 <= cap ->
  exists o', pglz_out cap o t = Ok o' /\ out_ok o' (ts ++ [t]).
Proof.
  intros Ho Hcap. destruct (out_ctrl_ok cap o ts Ho Hcap) as (gs & g & Ec & -> & Hgs & Hg & Hlen).
  exists (output_of gs (g ++ [t])). split.
  2: { right. exists gs, (g ++ [t]). split_and!; [done|by rewrite app_assoc|done| |]; rewrite length_app; cbn; lia. }
  assert (Hctrl : uwrap 8 (2 ^ Z.of_nat (length (g ++ [t]))) = shift_ctrl (uwrap 8 (2 ^ Z.of_nat (length g)))).
  { rewrite (proj1 (pow_byte (Z.of_nat (length g)) ltac:(lia))), shift_ctrl_pow by lia. rewrite length_app. cbn [length]. do 2 f_equal. lia. }
  assert (Hemit : emit cap (out_buf (output_of gs g)) (item_bytes t) = Ok (groups_bytes gs ++ 0 :: items_bytes (g ++ [t]))).
  { rewrite emit_ok.
    - cbn. rewrite items_bytes_app, <- app_assoc. unfold items_bytes at 3. cbn. by rewrite app_nil_r.
    - assert (length (item_bytes t) <= 3)%nat by (destruct t; [cbn; lia|apply tag_bytes_length]). lia. }
  destruct t as [b|len off]; cbn [pglz_out item_bytes] in *; [unfold pglz_out_literal|unfold pglz_out_tag];
    rewrite Ec; cbn [mbind result_bind]; rewrite Hemit; cbn [mbind result_bind]; unfold output_of; rewrite Hctrl; do 2 f_equal.
  - rewrite ctrl_of_app. cbn. lia.
  - cbn [output_of out_ctrlb out_ctrl]. rewrite (proj1 (pow_byte (Z.of_nat (length g)) ltac:(lia))).
    rewrite lor_high by (lia || apply ctrl_of_bound). rewrite ctrl_of_app. cbn. lia.
Qed.

(** ** The main loop *)

(** What the loop has after the first [p] bytes. *)
Definition compressed (s : list Z) (p : nat) (h : History) (o : Output) (ts : list token) : Prop :=
  toks_ok s 0 ts /\ toks_len ts = p /\ hist_ok h (Z.of_nat p) /\ out_ok o ts.

Lemma compressed_step s p h h' o o' ts t :
  compressed s p h o ts -> tok_ok s p t -> hist_ok h' (Z.of_nat p + Z.of_nat (tok_len t)) -> out_ok o' (ts ++ [t]) ->
  compressed s (p + tok_len t) h' o' (ts ++ [t]).
Proof.
  intros (Hok & Hlen & _ & _) Ht Hh Ho. split_and!; [|rewrite toks_len_app; cbn; lia|by rewrite Nat2Z.inj_add|done].
  rewrite toks_ok_app. split; [done|]. rewrite Hlen. by split.
Qed.

Lemma byte_at_lookup s (p : nat) : (p < length s)%nat -> s !! p = Some (byte_at s (Z.of_nat p)).
Proof.
  intros Hp. unfold byte_at. rewrite Nat2Z.id. destruct (lookup_lt_is_Some_2 s p Hp) as [x Hx]. rewrite Hx.
  by rewrite (nth_lookup_Some s p 0 x Hx).
Qed.

Lemma compress_loop_ok fuel pr s p h o ts found :
  compressed s p h o ts -> (p <= length s < p + fuel)%nat -> p_result_max pr <= Z.of_nat (length s) -> 0 <= p_mask pr ->
  compress_loop fuel pr s (Z.of_nat p) h o found = Ok None \/
  exists o' ts' h', compress_loop fuel pr s (Z.of_nat p) h o found = Ok (Some o') /\ compressed s (length s) h' o' ts'.
Proof.
  revert p h o ts found. induction fuel as [|fuel IH]; intros p h o ts found Hc Hp Hmax Hmask; [lia|]. cbn [compress_loop].
  destruct (Z.ltb_spec (Z.of_nat p) (Z.of_nat (length s))) as [Hlt|Hge].
  2: { right. exists o, ts, h. split; [done|]. by replace (length s) with p by lia. }
  destruct (Z.geb_spec (Z.of_nat (length (out_buf o))) (p_result_max pr)) as [|Hroom]; [by left|].
  destruct (negb found && _); [by left|]. destruct Hc as (Hok & Hlen & Hh & Ho).
  destruct (find_match_ok h s p (p_good_match pr) (p_good_drop pr) (p_mask pr) Hh ltac:(lia) Hmask) as (m & -> & Hm). cbn [mbind result_bind].
  assert (Hcap : Z.of_nat (length (out_buf o)) + 4 <= PGLZ_MAX_OUTPUT (Z.of_nat (length s))) by (unfold PGLZ_MAX_OUTPUT; lia).
  destruct m as [[len off]|].
  - destruct (out_token_ok _ o ts (Tag len off) Ho Hcap) as (o1 & E1 & Ho1). cbn [pglz_out] in E1. rewrite E1. cbn [mbind result_bind].
    pose proof (tok_len_pos _ _ _ Hm). pose proof (tok_ok_end _ _ _ Hm). cbn [tok_len] in *.
    destruct (add_entries_ok (Z.to_nat len) h s (Z.of_nat p) (p_mask pr) Hh ltac:(lia) ltac:(lia) Hmask) as (h1 & -> & Hh1). cbn [mbind result_bind].
    replace (Z.of_nat p + len) with (Z.of_nat (p + Z.to_nat len)) by lia.
    apply (IH _ _ _ (ts ++ [Tag len off])); [|lia|done|done]. by apply (compressed_step s p h h1 o o1 ts (Tag len off)).
  - rewrite (array_get_lookup s (Z.of_nat p) (byte_at s (Z.of_nat p))) by (lia || (rewrite Nat2Z.id; apply byte_at_lookup; lia)).
    cbn [mbind result_bind].
    destruct (out_token_ok _ o ts (Lit (byte_at s (Z.of_nat p))) Ho Hcap) as (o1 & E1 & Ho1). cbn [pglz_out] in E1. rewrite E1.
    cbn [mbind result_bind]. destruct (hist_add_ok h s (Z.of_nat p) (p_mask pr) Hh ltac:(lia) Hmask) as (h1 & -> & Hh1). cbn [mbind result_bind].
    replace (Z.of_nat p + 1) with (Z.of_nat (p + 1)) by lia.
    apply (IH _ _ _ (ts ++ [Lit (byte_at s (Z.of_nat p))])); [|lia|done|done].
    apply (compressed_step s p h h1 o o1 ts); try done. apply byte_at_lookup. lia.
Qed.

Lemma result_max_le strategy slen : 0 <= slen -> p_result_max (compress_params strategy slen) <= slen.
Proof.
  intros Hs. cbn [p_result_max compress_params].
  set (r := if min_comp_rate strategy <? 0 then 0 else if min_comp_rate strategy >? 99 then 99 else min_comp_rate strategy).
  assert (Hr : 0 <= r <= 99)
    by (unfold r; destruct (Z.ltb_spec (min_comp_rate strategy) 0); [lia|]; destruct (Z.gtb_spec (min_comp_rate strategy) 99); lia).
  clearbody r. destruct (slen >? PG_INT32_MAX / 100).
  - pose proof (Z.mul_div_le slen 100 ltac:(lia)). pose proof (Z.div_pos slen 100 Hs ltac:(lia)). nia.
  - apply Z.div_le_upper_bound; [lia|]. nia.
Qed.

(** What a successful call has written. *)
Definition encodes (source c : list Z) : Prop :=
  exists gs, c = groups_bytes gs /\ toks_ok source 0 (concat gs) /\ toks_len (concat gs) = length source /\ groups_ok gs.

(** The output consists of bytes. *)
Lemma toks_bytes s p ts : Forall is_byte s -> toks_ok s p ts -> Forall is_byte (items_bytes ts).
Proof.
  intros Hs. revert p. induction ts as [|t ts IH]; intros p Hok; [constructor|]. destruct Hok as [Ht Hok].
  change (items_bytes (t :: ts)) with (item_bytes t ++ items_bytes ts). apply Forall_app. split; [|by eapply IH].
  destruct t as [b|len off]; cbn [item_bytes tok_ok] in *; [apply Forall_singleton; by eapply Forall_lookup_1|].
  unfold tag_bytes. destruct (_ >? _); repeat constructor; unfold is_byte, uwrap; apply Z.mod_pos_bound; lia.
Qed.

Lemma groups_short gs : groups_ok gs -> Forall (fun g => (length g <= 8)%nat) gs.
Proof.
  induction gs as [|g [|g' gs] IH]; intros Hg; [constructor|constructor; [cbn in Hg; lia|constructor]|].
  destruct Hg as [Hl Hg]. constructor; [lia|by apply IH].
Qed.

Lemma encodes_bytes source c : Forall is_byte source -> encodes source c -> Forall is_byte c.
Proof.
  intros Hs (gs & -> & Hok & _ & Hg). apply groups_short in Hg. unfold groups_bytes. revert Hok. generalize 0%nat.
  induction Hg as [|g gs Hl _ IH]; intros p Hok; cbn [map concat] in *; [constructor|]. apply toks_ok_app in Hok as [Hok1 Hok2].
  apply Forall_app. split; [|by eapply IH]. constructor; [|by eapply toks_bytes].
  pose proof (ctrl_of_bound g). pose proof (Z.pow_le_mono_r 2 (Z.of_nat (length g)) 8 ltac:(lia) ltac:(lia)). unfold is_byte. lia.
Qed.

Lemma hash_size_mask strategy slen : 0 <= p_mask (compress_params strategy slen).
Proof. cbn. unfold hash_size. repeat case_match; lia. Qed.

Lemma compress_encodes source strategy :
  exists r, pglz_compress source strategy = Ok r /\
    forall c, r = Some c -> Z.of_nat (length c) < p_result_max (compress_params strategy (Z.of_nat (length source))) /\ encodes source c.
Proof.
  unfold pglz_compress. destruct (_ || _); [by eexists; split; [done|]|]. cbv zeta. set (pr := compress_params _ _).
  pose proof (result_max_le strategy (Z.of_nat (length source)) ltac:(lia)) as Hmax. fold pr in Hmax.
  destruct (compress_loop_ok (S (length source)) pr source 0 (mkHistory ∅ ∅ 1 false) (mkOutput [] None 0 0) [] false)
    as [E|(o & ts & h & E & Hok & Hlen & _ & Ho)]; [|lia|done|apply hash_size_mask| |].
  - split_and!; [done|done|apply hist_ok_empty|by left].
  - change (Z.of_nat 0) with 0 in E. rewrite E. by eexists.
  - change (Z.of_nat 0) with 0 in E. rewrite E. cbn [mbind result_bind].
    assert (Hd : exists dest, write_ctrl o = Ok dest /\ encodes source dest).
    { destruct Ho as [[-> ->]|(gs & g & -> & -> & Hgs & Hg)].
      - exists []. split; [done|]. exists []. by split_and!.
      - exists (groups_bytes (gs ++ [g])). split; [apply write_ctrl_ok|].
        exists (gs ++ [g]). rewrite concat_app. cbn [concat]. rewrite app_nil_r. split_and!; [done|done|done|by apply groups_full]. }
    destruct Hd as (dest & -> & Hd). cbn [mbind result_bind].
    destruct (Z.geb_spec (Z.of_nat (length dest)) (p_result_max pr)) as [|Hres]; eexists; (split; [done|]); [done|].
    intros c [= <-]. split; [lia|done].
Qed.

(** ** Prefixes *)

(** The decoder on tokens that fill the output, whatever follows them. *)
Lemma read_items_prefix s n g g' c p junk :
  toks_ok s p g -> (length g <= c)%nat -> (p <= n <= p + toks_len g)%nat -> (n <= length s)%nat ->
  exists sp, read_items c (ctrl_of (g ++ g')) (items_bytes g ++ junk) (take p s) (Z.of_nat n) = Ok (Some (sp, take n s)).
Proof.
  revert c p. induction g as [|t g IH]; intros c p Hok Hc Hn Hs.
  - cbn [toks_len] in Hn. replace p with n by lia. exists (items_bytes [] ++ junk). destruct c; cbn [read_items]; [done|].
    rewrite length_take, Nat.min_l by lia. destruct (Z.ltb_spec (Z.of_nat n) (Z.of_nat n)); [lia|]. by rewrite andb_false_r.
  - destruct Hok as [Ht Hok]. destruct c as [|c]; [cbn in Hc; lia|]. cbn [read_items length toks_len] in *.
    change (items_bytes (t :: g)) with (item_bytes t ++ items_bytes g). rewrite <- app_assoc.
    rewrite length_take, Nat.min_l by lia. destruct (Z.ltb_spec (Z.of_nat p) (Z.of_nat n)) as [Hlt|Hge].
    2: { replace p with n by lia. rewrite andb_false_r. by eexists. }
    assert (Hsp : negb (length (item_bytes t ++ items_bytes g ++ junk) =? 0)%nat = true).
    { apply negb_true_iff, Nat.eqb_neq. rewrite length_app. pose proof (item_bytes_nonempty t). destruct (item_bytes t); [done|]. cbn. lia. }
    rewrite Hsp. cbn [andb]. change ((t :: g) ++ g') with (t :: g ++ g'). destruct (ctrl_head t (g ++ g')) as [ -> -> ].
    rewrite (read_token s p t (items_bytes g ++ junk) n Ht ltac:(lia)). cbn [mbind result_bind].
    destruct (Nat.le_gt_cases (p + tok_len t) n) as [Hle|Hgt].
    + rewrite Nat.min_r by lia. apply IH; [done|lia|lia|done].
    + rewrite Nat.min_l by lia. exists (items_bytes g ++ junk). destruct c; cbn [read_items]; [done|].
      rewrite length_take, Nat.min_l by lia. destruct (Z.ltb_spec (Z.of_nat n) (Z.of_nat n)); [lia|]. by rewrite andb_false_r.
Qed.

Lemma decompress_prefix s n gs g g' junk fuel p :
  Forall full gs -> (1 <= length g <= 8)%nat -> toks_ok s p (concat gs ++ g) ->
  (p <= n <= p + toks_len (concat gs ++ g))%nat -> (n <= length s)%nat -> (length gs + 1 < fuel)%nat ->
  exists sp, decompress_loop fuel (groups_bytes gs ++ ctrl_of (g ++ g') :: items_bytes g ++ junk) (take p s) (Z.of_nat n) =
    Ok (Some (sp, take n s)).
Proof.
  intros Hgs Hg. revert fuel p. induction Hgs as [|g1 gs Hg1 Hgs IH]; intros fuel p Hok Hn Hs Hf; (destruct fuel as [|fuel]; [lia|]).
  - cbn [concat app groups_bytes map decompress_loop length Nat.eqb negb andb] in *. rewrite length_take, Nat.min_l by lia.
    destruct (Z.ltb_spec (Z.of_nat p) (Z.of_nat n)) as [Hlt|Hge]; [|replace p with n by lia; by eexists].
    cbn [next_byte mbind result_bind]. destruct (read_items_prefix s n g g' 8 p junk Hok ltac:(lia) Hn Hs) as [sp ->].
    cbn [mbind result_bind]. exists sp. destruct fuel; [lia|]. by rewrite decompress_full.
  - cbn [concat] in *. rewrite <- app_assoc in Hok, Hn. apply toks_ok_app in Hok as [Hok1 Hok]. rewrite toks_len_app in Hn.
    unfold groups_bytes. cbn [map concat decompress_loop group_bytes app length Nat.eqb negb andb]. fold (groups_bytes gs).
    rewrite length_take, Nat.min_l by lia.
    destruct (Z.ltb_spec (Z.of_nat p) (Z.of_nat n)) as [Hlt|Hge]; [|replace p with n by lia; by eexists].
    cbn [next_byte mbind result_bind]. rewrite <- app_assoc.
    set (rest := groups_bytes gs ++ _). unfold full in Hg1.
    destruct (read_items_ok s n g1 8 p rest Hok1 ltac:(lia) ltac:(by left) ltac:(lia) ltac:(lia)) as (sp & -> & Hsp). cbn [mbind result_bind].
    destruct (Nat.le_gt_cases (p + toks_len g1) n) as [Hle|Hgt].
    + rewrite (Hsp Hle), Nat.min_r by lia. apply IH; [done|lia|done|cbn in Hf; lia].
    + rewrite Nat.min_l by lia. destruct fuel; [cbn in Hf; lia|]. exists sp. by apply decompress_full.
Qed.

(** An encoded token is not longer than what it stands for. *)
Lemma items_bytes_le s p ts : toks_ok s p ts -> (length (items_bytes ts) <= toks_len ts)%nat /\ (length ts <= toks_len ts)%nat.
Proof.
  revert p. induction ts as [|t ts IH]; intros p Hok; [cbn; lia|]. destruct Hok as [Ht Hok]. destruct (IH _ Hok) as [IH1 IH2].
  change (items_bytes (t :: ts)) with (item_bytes t ++ items_bytes ts). rewrite length_app. cbn [length toks_len].
  assert (length (item_bytes t) <= tok_len t /\ 1 <= tok_len t)%nat; [|lia].
  destruct t as [b|len off]; cbn [item_bytes tok_len length]; [lia|]. pose proof (tag_bytes_length len off). destruct Ht as [? _]. lia.
Qed.

(** The shortest list of tokens that covers [n] bytes. *)
Lemma shortest_prefix ts n :
  (1 <= n <= toks_len ts)%nat -> exists ts1 t ts2, ts = ts1 ++ t :: ts2 /\ (toks_len ts1 < n <= toks_len ts1 + tok_len t)%nat.
Proof.
  revert n. induction ts as [|t ts IH]; intros n Hn; [cbn in Hn; lia|]. cbn [toks_len] in Hn.
  destruct (Nat.le_gt_cases n (tok_len t)) as [Hle|Hgt]; [exists [], t, ts; cbn; split; [done|lia]|].
  destruct (IH (n - tok_len t)%nat ltac:(lia)) as (ts1 & t1 & ts2 & -> & Hb). exists (t :: ts1), t1, ts2. cbn. split; [done|lia].
Qed.

(** The same in groups: the tokens end in a group [g ++ g']. *)
Lemma split_groups gs ts1 t ts2 :
  groups_ok gs -> concat gs = ts1 ++ t :: ts2 ->
  exists gs1 g1 g' gs2, gs = gs1 ++ (g1 ++ [t] ++ g') :: gs2 /\ ts1 = concat gs1 ++ g1 /\ Forall full gs1 /\ (length (g1 ++ [t]) <= 8)%nat.
Proof.
  revert ts1. induction gs as [|g gs IH]; intros ts1 Hg E; [by destruct ts1|]. cbn [concat] in E.
  assert (Hlen : (length g <= 8)%nat) by (destruct gs; cbn in Hg; lia).
  destruct (Nat.lt_ge_cases (length ts1) (length g)) as [Hlt|Hge].
  - assert (Etake : take (length ts1 + 1) g = ts1 ++ [t]).
    { rewrite <- (take_app_le _ (concat gs)) by lia. rewrite E. change (t :: ts2) with ([t] ++ ts2). rewrite app_assoc.
      rewrite take_app_le by (rewrite length_app; cbn; lia). apply take_ge. rewrite length_app. cbn. lia. }
    exists [], ts1, (drop (length ts1 + 1) g), gs. split_and!; [|done|constructor|].
    + rewrite (app_assoc ts1 [t]). by rewrite <- Etake, take_drop.
    + rewrite <- Etake, length_take. lia.
  - assert (Es : ts1 = g ++ drop (length g) ts1).
    { rewrite <- (take_drop (length g) ts1) at 1. f_equal. rewrite <- (take_app_le _ (t :: ts2)) by lia. rewrite <- E. apply take_app_length. }
    destruct gs as [|g2 gs].
    { exfalso. apply (f_equal length) in E. rewrite Es in E. cbn in E. rewrite !length_app in E. cbn in E. lia. }
    destruct Hg as [Hfull Hg]. rewrite Es, <- app_assoc in E. apply app_inv_head in E.
    destruct (IH _ Hg E) as (gs1 & g1 & g' & gs2 & -> & Ets & Hgs1 & Hl). exists (g :: gs1), g1, g', gs2. cbn [app concat].
    split_and!; [done|by rewrite Es, Ets, app_assoc|by constructor|done].
Qed.

Lemma groups_length gs : Forall full gs -> length (groups_bytes gs) = (length gs + length (items_bytes (concat gs)))%nat /\ length (concat gs) = (8 * length gs)%nat.
Proof.
  induction 1 as [|g gs Hg Hgs [IH1 IH2]]; [done|]. unfold groups_bytes in *. cbn [map concat length group_bytes app].
  rewrite items_bytes_app, !length_app. cbn [length]. unfold full in Hg. lia.
Qed.

(** The bytes of the tokens that cover [n] bytes fit into
    [pglz_maximum_compressed_size]. *)
Lemma encodes_prefix source c n total :
  encodes source c -> (length c <= length source)%nat -> Z.of_nat (length c) <= total ->
  pglz_decompress (take (Z.to_nat (pglz_maximum_compressed_size (Z.of_nat n) total)) c) (Z.of_nat n) false =
  Ok (Some (take n source)).
Proof.
  intros (gs & -> & Hok & Hall & Hg) Hc Htotal. set (m := Z.to_nat _).
  destruct (Nat.lt_ge_cases (length source) n) as [Hbig|Hn].
  { rewrite take_ge; [by apply decompress_encoded|]. unfold m, pglz_maximum_compressed_size. cbv zeta.
    pose proof (Z.div_le_lower_bound (Z.of_nat n * 9 + 7) 8 (Z.of_nat n) ltac:(lia) ltac:(lia)). lia. }
  unfold pglz_decompress.
  destruct (decide (n = 0%nat)) as [->|Hn0]; [change (@nil Z) with (take 0 source); by rewrite decompress_full by lia|].
  destruct (shortest_prefix (concat gs) n ltac:(lia)) as (ts1 & t & ts2 & Ec & Hb).
  destruct (split_groups gs ts1 t ts2 Hg Ec) as (gs1 & g1 & g' & gs2 & Egs & Ets & Hfull & Hl8).
  rewrite Ec in Hok. change (t :: ts2) with ([t] ++ ts2) in Hok. rewrite app_assoc, toks_ok_app in Hok. destruct Hok as [Hok _].
  pose proof (proj1 (proj1 (toks_ok_app _ _ _ _) Hok)) as Hok1. destruct (items_bytes_le _ _ _ Hok1) as [Hbytes Hcount].
  assert (Ebytes : groups_bytes gs = (groups_bytes gs1 ++ ctrl_of ((g1 ++ [t]) ++ g') :: items_bytes (g1 ++ [t])) ++ items_bytes g' ++ groups_bytes gs2).
  { rewrite Egs, (app_assoc g1). unfold groups_bytes. rewrite map_app, concat_app. cbn [map concat]. unfold group_bytes at 2.
    rewrite (items_bytes_app (g1 ++ [t])). cbn [app]. rewrite <- !app_assoc. done. }
  set (enc := groups_bytes gs1 ++ _) in Ebytes.
  assert (Henc : (length enc <= m)%nat).
  { destruct (groups_length gs1 Hfull) as [Hgl Hcl]. rewrite Ets, items_bytes_app, length_app in Hbytes. rewrite Ets, length_app in Hcount.
    assert (Ht3 : (length (items_bytes [t]) <= 3)%nat)
      by (unfold items_bytes; cbn; rewrite app_nil_r; destruct t; [cbn; lia|apply tag_bytes_length]).
    assert (He : length enc = (length (groups_bytes gs1) + 1 + length (items_bytes g1) + length (items_bytes [t]))%nat)
      by (unfold enc; rewrite length_app; cbn [length]; rewrite items_bytes_app, length_app; lia).
    assert ((length enc <= length (groups_bytes gs))%nat) by (rewrite Ebytes, length_app; lia).
    unfold m, pglz_maximum_compressed_size. cbv zeta. rewrite Ets in Hb.
    assert (Hdiv : (Z.of_nat n * 9 + 7) / 8 = Z.of_nat n + (Z.of_nat n + 7) / 8)
      by (replace (Z.of_nat n * 9 + 7) with (Z.of_nat n + 7 + Z.of_nat n * 8) by lia; rewrite Z.div_add by lia; lia).
    rewrite Hdiv. pose proof (Z.div_le_lower_bound (Z.of_nat n + 7) 8 (Z.of_nat (length gs1) + 1) ltac:(lia) ltac:(lia)). lia. }
  rewrite Ebytes, take_app_ge by done. set (junk := take _ (_ ++ _)).
  destruct (decompress_prefix source n gs1 (g1 ++ [t]) g' junk (S (length (enc ++ junk))) 0 Hfull) as [sp E].
  - rewrite length_app in *. cbn in *. lia.
  - by rewrite app_assoc, <- Ets.
  - rewrite app_assoc, <- Ets, toks_len_app. cbn [toks_len]. lia.
  - done.
  - unfold enc. rewrite !length_app. cbn [length]. pose proof (groups_length gs1 Hfull). lia.
  - change (take 0 source) with (@nil Z) in E. unfold enc at 2. rewrite <- app_assoc. cbn [app]. rewrite E. done.
Qed.




(** A slice can be decompressed from a prefix. When [pglz_compress] has
    reported success, the first [pglz_maximum_compressed_size n] bytes of the
    result are enough to decompress the first [n] bytes of the input. *)
Theorem pglz_slice_roundtrip source strategy :
  exists r, pglz_compress source strategy = Ok r /\
    forall c n total, r = Some c -> Z.of_nat (length c) <= total ->
      let m := pglz_maximum_compressed_size (Z.of_nat n) total in
      pglz_decompress (take (Z.to_nat m) c) (Z.of_nat n) false = Ok (Some (take n source)).
Proof.
  destruct (compress_encodes source strategy) as (r & -> & Hr). exists r. split; [done|]. intros c n total Hc Ht.
  destruct (Hr c Hc) as [Hlen Henc]. pose proof (result_max_le strategy (Z.of_nat (length source)) ltac:(lia)).
  apply encodes_prefix; [done|lia|done].
Qed.
