(* ===== verification/Toast.v ===== *)
(** * TOAST: compressed and out-of-line values

    detoast.c, toast_internals.c and heap_fetch_toast_slice (heaptoast.c).  A
    varlena is the list of its bytes.  A TOAST table is its heap rows, numbered
    by their place, and its indexes; an index is the sequence of its entries
    (value id, chunk number, row) in key order, which stands for the btree.  Of the
    heap only what the toaster sees is there: whether a row is live, deleted,
    or killed by an aborted speculative insertion.  Objects in memory that
    indirect and expanded datums point to are found by their address; the
    flattened form of an expanded object comes from its type's methods. *)

From stdpp Require Import gmap.
From S2P Require Import Prelude Varlena PgLz.

(** ** Headers (postgres.h) *)

Definition VARTAG_INDIRECT : Z := 1.
Definition VARTAG_ONDISK : Z := 18.

Definition VARTAG_IS_EXPANDED (tag : Z) : bool := Z.land tag (Z.lnot 1) =? 2.

Definition VARATT_IS_EXTERNAL (p : list Z) : bool := VARATT_IS_1B_E p.
Definition VARATT_IS_COMPRESSED (p : list Z) : bool := VARATT_IS_4B_C p.
Definition VARATT_IS_SHORT (p : list Z) : bool := VARATT_IS_1B p.
Definition VARATT_IS_EXTENDED (p : list Z) : bool := negb (VARATT_IS_4B_U p).
Definition VARATT_IS_EXTERNAL_ONDISK (p : list Z) : bool := VARATT_IS_EXTERNAL p && (VARTAG_1B_E p =? VARTAG_ONDISK).
Definition VARATT_IS_EXTERNAL_INDIRECT (p : list Z) : bool := VARATT_IS_EXTERNAL p && (VARTAG_1B_E p =? VARTAG_INDIRECT).
Definition VARATT_IS_EXTERNAL_EXPANDED (p : list Z) : bool := VARATT_IS_EXTERNAL p && VARTAG_IS_EXPANDED (VARTAG_1B_E p).

Definition VARDATA_SHORT (p : list Z) : list Z := drop 1 p.
Definition VARDATA_EXTERNAL (p : list Z) : list Z := drop 2 p.
Definition VARDATA_ANY (p : list Z) : list Z := if VARATT_IS_1B p then VARDATA_SHORT p else VARDATA p.

Definition VARSIZE_ANY_EXHDR (p : list Z) : Z :=
  if VARATT_IS_1B_E p then VARSIZE_EXTERNAL p - VARHDRSZ_EXTERNAL
  else if VARATT_IS_1B p then VARSIZE_1B p - VARHDRSZ_SHORT
  else VARSIZE_4B p - VARHDRSZ.

Definition SET_VARSIZE_COMPRESSED (len : Z) : Z := Z.lor (uwrap 32 (Z.shiftl (uwrap 32 len) 2)) 2.

(** An [int32] field at an offset. *)
Definition int32_at (p : list Z) (off : Z) : Z := swrap 32 (le_value (bytes_at p off 4)).
Definition uint32_at (p : list Z) (off : Z) : Z := le_value (bytes_at p off 4).

Definition VARRAWSIZE_4B_C (p : list Z) : Z := uint32_at p 4.

(** A fresh varlena of [len] data bytes. *)
Definition varlena (data : list Z) (len : Z) : list Z := le_bytes 4 (SET_VARSIZE (len + VARHDRSZ)) ++ data.
Definition varlena_c (data : list Z) (len : Z) : list Z := le_bytes 4 (SET_VARSIZE_COMPRESSED (len + VARHDRSZ)) ++ data.

(** [palloc] of a signed size: a negative one is a huge [Size]. *)
Definition palloc (size : Z) : result (list Z) :=
  if size <? 0 then elog "invalid memory alloc request size" else palloc0 size.

(** ** TOAST pointers *)

Record varatt_external : Type := mkExternal {
  va_rawsize : Z;
  va_extsize : Z;
  va_valueid : Z;
  va_toastrelid : Z
}.

Definition VARATT_EXTERNAL_GET_POINTER (attr : list Z) : varatt_external :=
  let p := VARDATA_EXTERNAL attr in
  mkExternal (int32_at p 0) (int32_at p 4) (uint32_at p 8) (uint32_at p 12).

(** The TOAST pointer datum that [toast_save_datum] builds. *)
Definition toast_pointer_datum (tp : varatt_external) : list Z :=
  [1; VARTAG_ONDISK] ++ le_bytes 4 (va_rawsize tp) ++ le_bytes 4 (va_extsize tp) ++
  le_bytes 4 (va_valueid tp) ++ le_bytes 4 (va_toastrelid tp).

Definition VARATT_EXTERNAL_IS_COMPRESSED (tp : varatt_external) : bool := va_extsize tp <? va_rawsize tp - VARHDRSZ.

(** The address in an indirect or expanded datum. *)
Definition pointer_at (attr : list Z) : Z := le_value (bytes_at (VARDATA_EXTERNAL attr) 0 8).

(** ** TOAST tables *)

Inductive RowState : Type := RowLive | RowDeleted | RowKilled.

#[global] Instance RowState_eq_dec : EqDecision RowState.
Proof. solve_decision. Defined.

Record ToastRow : Type := mkRow {
  chunk_id : Z;
  chunk_seq : Z;
  chunk_data : list Z;
  row_state : RowState
}.

(** An index entry: the value id, the chunk number and the row. *)
Definition Entry : Type := Z * Z * nat.

Record ToastIndex : Type := mkIndex {
  indisvalid : bool;
  indisready : bool;
  indisunique : bool;
  idx_entries : list Entry
}.

Record ToastRelation : Type := mkToastRel {
  rd_id : Z;
  att_storage : TypStorage;   (* of chunk_data *)
  rd_indexes : list ToastIndex;
  rd_rows : list ToastRow
}.

(** The main relation: its TOAST table, and the OID to use instead while the
    table is rewritten (0 is [InvalidOid]). *)
Record Relation : Type := mkRelation { reltoastrelid : Z; rd_toastoid : Z }.

Definition InvalidOid : Z := 0.

Record World : Type := mkWorld {
  nextOid : Z;
  active_snapshot : bool;
  toast_rels : gmap Z ToastRelation;
  objects : gmap Z (list Z);
  expanded : gmap Z (list Z)
}.

Definition table_open (w : World) (oid : Z) : result ToastRelation :=
  match toast_rels w !! oid with Some r => Ok r | None => elog "could not open relation with OID" end.

(** [toast_open_indexes]: the first valid index. *)
Fixpoint first_valid (idxs : list ToastIndex) : option ToastIndex :=
  match idxs with
  | [] => None
  | i :: idxs' => if indisvalid i then Some i else first_valid idxs'
  end.

Definition toast_open_indexes (r : ToastRelation) : result ToastIndex :=
  match first_valid (rd_indexes r) with
  | Some i => Ok i
  | None => elog "no valid index found for toast relation with Oid"
  end.

(** Rows that [SnapshotToast] sees (HeapTupleSatisfiesToast): deleted ones too. *)
Definition HeapTupleSatisfiesToast (row : ToastRow) : bool := negb (bool_decide (row_state row = RowKilled)).

(** An ordered index scan: the visible rows whose entries satisfy the keys. *)
Definition index_scan (idx : ToastIndex) (keys : Z -> Z -> bool) : list nat :=
  map snd (List.filter (fun e : Entry => keys e.1.1 e.1.2) (idx_entries idx)).

Definition systable_scan (r : ToastRelation) (idx : ToastIndex) (keys : Z -> Z -> bool) : list (nat * ToastRow) :=
  omap (fun tid => match rd_rows r !! tid with
                   | Some row => if HeapTupleSatisfiesToast row then Some (tid, row) else None
                   | None => None
                   end) (index_scan idx keys).

Definition init_toast_snapshot (w : World) : result unit :=
  if active_snapshot w then Ok tt else elog "cannot fetch toast data without an active snapshot".

(** ** Fetching (heaptoast.c) *)

Definition TOAST_MAX_CHUNK_SIZE : Z :=
  let MaximumBytesPerTuple := Z.land ((8192 - TYPEALIGN 8 (24 + 4 * 4)) ÷ 4) (Z.lnot 7) in
  MaximumBytesPerTuple - TYPEALIGN 8 23 - 4 - 4 - VARHDRSZ.

(** The size and data of a chunk. *)
Definition chunk_content (chunk : list Z) : result (Z * list Z) :=
  if negb (VARATT_IS_EXTENDED chunk) then Ok (VARSIZE_4B chunk - VARHDRSZ, VARDATA chunk)
  else if VARATT_IS_SHORT chunk then Ok (VARSIZE_1B chunk - VARHDRSZ_SHORT, VARDATA_SHORT chunk)
  else elog "found toasted toast chunk for toast value".

(** [memcpy(dst + off, src + start, n)] *)
Definition memcpy_at (dst : list Z) (off : Z) (src : list Z) (start n : Z) : result (list Z) :=
  if (n <? 0) || (start <? 0) || (Z.of_nat (length src) <? start + n) then undefined "memcpy outside of the source"
  else buf_write 0 dst off (bytes_at src start n).

Section Fetch.
Variable (attrsize sliceoffset slicelength totalchunks startchunk endchunk : Z).

Fixpoint fetch_chunks (rows : list (nat * ToastRow)) (expectedchunk : Z) (buf : list Z) : result (Z * list Z) :=
  match rows with
  | [] => Ok (expectedchunk, buf)
  | (_, row) :: rows' =>
      let curchunk := chunk_seq row in
      '(chunksize, chunkdata) ← chunk_content (chunk_data row);
      if negb (curchunk =? expectedchunk) then ereport ERRCODE_DATA_CORRUPTED "unexpected chunk number"
      else if curchunk >? endchunk then ereport ERRCODE_DATA_CORRUPTED "unexpected chunk number (out of range)"
      else
        let expected_size := if curchunk <? totalchunks - 1 then TOAST_MAX_CHUNK_SIZE
                             else attrsize - (totalchunks - 1) * TOAST_MAX_CHUNK_SIZE in
        if negb (chunksize =? expected_size) then ereport ERRCODE_DATA_CORRUPTED "unexpected chunk size"
        else
          let chcpystrt := if curchunk =? startchunk then Z.rem sliceoffset TOAST_MAX_CHUNK_SIZE else 0 in
          let chcpyend := if curchunk =? endchunk then Z.rem (sliceoffset + slicelength - 1) TOAST_MAX_CHUNK_SIZE else chunksize - 1 in
          buf ← memcpy_at buf (curchunk * TOAST_MAX_CHUNK_SIZE - sliceoffset + chcpystrt) chunkdata chcpystrt (chcpyend - chcpystrt + 1);
          fetch_chunks rows' (expectedchunk + 1) buf
  end.

End Fetch.

(** [buf] is the data area of the result datum. *)
Definition heap_fetch_toast_slice (w : World) (toastrel : ToastRelation) (valueid attrsize sliceoffset slicelength : Z)
  (buf : list Z) : result (list Z) :=
  let totalchunks := (attrsize - 1) ÷ TOAST_MAX_CHUNK_SIZE + 1 in
  validIndex ← toast_open_indexes toastrel;
  let startchunk := sliceoffset ÷ TOAST_MAX_CHUNK_SIZE in
  let endchunk := (sliceoffset + slicelength - 1) ÷ TOAST_MAX_CHUNK_SIZE in
  let toastkey (id seq : Z) : bool :=
    (id =? valueid) &&
    (if (startchunk =? 0) && (endchunk =? totalchunks - 1) then true
     else if startchunk =? endchunk then seq =? startchunk
     else (startchunk <=? seq) && (seq <=? endchunk)) in
  _ ← init_toast_snapshot w;
  '(expectedchunk, buf) ← fetch_chunks attrsize sliceoffset slicelength totalchunks startchunk endchunk
                               (systable_scan toastrel validIndex toastkey) startchunk buf;
  if negb (expectedchunk =? endchunk + 1) then ereport ERRCODE_DATA_CORRUPTED "missing chunk number"
  else Ok buf.

(** ** Compression (toast_internals.c, detoast.c) *)

Definition TOAST_COMPRESS_HDRSZ : Z := 8.
Definition TOAST_COMPRESS_RAWSIZE (p : list Z) : Z := int32_at p 4.
Definition TOAST_COMPRESS_SIZE (p : list Z) : Z := VARSIZE_ANY p - TOAST_COMPRESS_HDRSZ.
Definition TOAST_COMPRESS_RAWDATA (p : list Z) : list Z := drop 8 p.

(** [None] is NULL. *)
Definition toast_compress_datum (value : list Z) : result (option (list Z)) :=
  let valsize := VARSIZE_ANY_EXHDR value in
  if (valsize <? min_input_size strategy_default_data) || (valsize >? max_input_size strategy_default_data) then Ok None
  else
    _ ← palloc (PGLZ_MAX_OUTPUT valsize + TOAST_COMPRESS_HDRSZ);
    c ← pglz_compress (bytes_at (VARDATA_ANY value) 0 valsize) strategy_default_data;
    match c with
    | Some c =>
        let len := Z.of_nat (length c) in
        if len + TOAST_COMPRESS_HDRSZ <? valsize - 2 then
          Ok (Some (le_bytes 4 (SET_VARSIZE_COMPRESSED (len + TOAST_COMPRESS_HDRSZ)) ++ le_bytes 4 valsize ++ c))
        else Ok None
    | None => Ok None
    end.

Definition toast_decompress_datum (attr : list Z) : result (list Z) :=
  let rawsize := TOAST_COMPRESS_RAWSIZE attr in
  _ ← palloc (swrap 32 (rawsize + VARHDRSZ));
  d ← pglz_decompress (bytes_at (TOAST_COMPRESS_RAWDATA attr) 0 (TOAST_COMPRESS_SIZE attr)) rawsize true;
  match d with
  | None => elog "compressed data is corrupted"
  | Some d => Ok (varlena d rawsize)
  end.

Definition toast_decompress_datum_slice (attr : list Z) (slicelength : Z) : result (list Z) :=
  _ ← palloc (swrap 32 (slicelength + VARHDRSZ));
  d ← pglz_decompress (bytes_at (TOAST_COMPRESS_RAWDATA attr) 0 (VARSIZE_4B attr - TOAST_COMPRESS_HDRSZ)) slicelength false;
  match d with
  | None => elog "compressed data is corrupted"
  | Some d => Ok (varlena d (Z.of_nat (length d)))
  end.

(** ** Detoasting (detoast.c) *)

Section Detoast.
Variable (w : World).

Definition toast_fetch_datum (attr : list Z) : result (list Z) :=
  if negb (VARATT_IS_EXTERNAL_ONDISK attr) then elog "toast_fetch_datum shouldn't be called for non-ondisk datums"
  else
    let tp := VARATT_EXTERNAL_GET_POINTER attr in
    let attrsize := va_extsize tp in
    buf ← palloc (swrap 32 (attrsize + VARHDRSZ));
    let finish data := if VARATT_EXTERNAL_IS_COMPRESSED tp then varlena_c data attrsize else varlena data attrsize in
    if attrsize =? 0 then Ok (finish [])
    else
      toastrel ← table_open w (va_toastrelid tp);
      data ← heap_fetch_toast_slice w toastrel (va_valueid tp) attrsize 0 attrsize (drop 4 buf);
      Ok (finish data).

Definition toast_fetch_datum_slice (attr : list Z) (sliceoffset slicelength : Z) : result (list Z) :=
  if negb (VARATT_IS_EXTERNAL_ONDISK attr) then elog "toast_fetch_datum_slice shouldn't be called for non-ondisk datums"
  else
    let tp := VARATT_EXTERNAL_GET_POINTER attr in
    let attrsize := va_extsize tp in
    let '(sliceoffset, slicelength) := if sliceoffset >=? attrsize then (0, 0) else (sliceoffset, slicelength) in
    let slicelength := if VARATT_EXTERNAL_IS_COMPRESSED tp && (slicelength >? 0) then swrap 32 (slicelength + 4) else slicelength in
    let slicelength := if (swrap 32 (sliceoffset + slicelength) >? attrsize) || (slicelength <? 0) then attrsize - sliceoffset
                       else slicelength in
    buf ← palloc (swrap 32 (slicelength + VARHDRSZ));
    let finish data := if VARATT_EXTERNAL_IS_COMPRESSED tp then varlena_c data slicelength else varlena data slicelength in
    if slicelength =? 0 then Ok (finish [])
    else
      toastrel ← table_open w (va_toastrelid tp);
      data ← heap_fetch_toast_slice w toastrel (va_valueid tp) attrsize sliceoffset slicelength (drop 4 buf);
      Ok (finish data).

(** The object that an indirect datum points to. *)
Definition indirect_object (attr : list Z) : result (list Z) :=
  match objects w !! pointer_at attr with Some o => Ok o | None => undefined "dangling pointer" end.

(** The flat format of an expanded object. *)
Definition flatten_object (attr : list Z) : result (list Z) :=
  match expanded w !! pointer_at attr with Some o => Ok o | None => undefined "dangling pointer" end.

(** A copy of the object. *)
Definition copy_varlena (attr : list Z) : list Z := bytes_at attr 0 (VARSIZE_ANY attr).

(** [detoast_external_attr] on a datum that is not indirect. *)
Definition detoast_external_direct (attr : list Z) : result (list Z) :=
  if VARATT_IS_EXTERNAL_ONDISK attr then toast_fetch_datum attr
  else if VARATT_IS_EXTERNAL_EXPANDED attr then flatten_object attr
  else Ok attr.

(** Nested indirect datums are not allowed. *)
Definition detoast_external_attr (attr : list Z) : result (list Z) :=
  if VARATT_IS_EXTERNAL_INDIRECT attr then
    attr ← indirect_object attr;
    if VARATT_IS_EXTERNAL_INDIRECT attr then undefined "nested indirect datum"
    else if VARATT_IS_EXTERNAL attr then detoast_external_direct attr
    else Ok (copy_varlena attr)
  else detoast_external_direct attr.

(** [detoast_attr] on a datum that is not indirect. *)
Definition detoast_direct (attr : list Z) : result (list Z) :=
  if VARATT_IS_EXTERNAL_ONDISK attr then
    attr ← toast_fetch_datum attr;
    if VARATT_IS_COMPRESSED attr then toast_decompress_datum attr else Ok attr
  else if VARATT_IS_EXTERNAL_EXPANDED attr then detoast_external_direct attr
  else if VARATT_IS_COMPRESSED attr then toast_decompress_datum attr
  else if VARATT_IS_SHORT attr then
    let data_size := VARSIZE_1B attr - VARHDRSZ_SHORT in
    Ok (varlena (bytes_at (VARDATA_SHORT attr) 0 data_size) data_size)
  else Ok attr.

(** The copy is made when the object was returned as it is. *)
Definition detoast_attr (attr : list Z) : result (list Z) :=
  if VARATT_IS_EXTERNAL_INDIRECT attr then
    object ← indirect_object attr;
    if VARATT_IS_EXTERNAL_INDIRECT object then undefined "nested indirect datum"
    else
      attr ← detoast_direct object;
      Ok (if VARATT_IS_EXTENDED object then attr else copy_varlena attr)
  else detoast_direct attr.

(** [pg_add_s32_overflow] *)
Definition pg_add_s32_overflow (a b : Z) : option Z :=
  let r := a + b in if (r <? PG_INT32_MIN) || (r >? PG_INT32_MAX) then None else Some r.

(** The slice limit and the slice length, -1 when everything is fetched. *)
Definition slice_limit (sliceoffset slicelength : Z) : Z * Z :=
  if slicelength <? 0 then (-1, slicelength)
  else match pg_add_s32_overflow sliceoffset slicelength with
       | None => (-1, -1)
       | Some l => (l, slicelength)
       end.

(** The slice of a value that is in memory. *)
Definition slice_datum (preslice : list Z) (sliceoffset slicelength slicelimit : Z) : result (list Z) :=
  let '(attrdata, attrsize) :=
    if VARATT_IS_SHORT preslice then (VARDATA_SHORT preslice, VARSIZE_1B preslice - VARHDRSZ_SHORT)
    else (VARDATA preslice, VARSIZE_4B preslice - VARHDRSZ) in
  let '(sliceoffset, slicelength) :=
    if sliceoffset >=? attrsize then (0, 0)
    else if (slicelength <? 0) || (slicelimit >? attrsize) then (sliceoffset, attrsize - sliceoffset)
    else (sliceoffset, slicelength) in
  _ ← palloc (swrap 32 (slicelength + VARHDRSZ));
  if (slicelength <? 0) || (sliceoffset <? 0) || (sliceoffset + slicelength >? Z.of_nat (length attrdata))
  then undefined "memcpy past the end of the value"
  else Ok (varlena (bytes_at attrdata sliceoffset slicelength) slicelength).

(** The last part of [detoast_attr_slice]. *)
Definition finish_slice (preslice : list Z) (sliceoffset slicelength slicelimit : Z) : result (list Z) :=
  preslice ← (if VARATT_IS_COMPRESSED preslice then
                if slicelimit >=? 0 then toast_decompress_datum_slice preslice slicelimit else toast_decompress_datum preslice
              else Ok preslice);
  slice_datum preslice sliceoffset slicelength slicelimit.

(** [detoast_attr_slice] on a datum that is not indirect. *)
Definition detoast_slice_direct (attr : list Z) (sliceoffset slicelength : Z) : result (list Z) :=
  if sliceoffset <? 0 then elog "invalid sliceoffset"
  else
    let '(slicelimit, slicelength) := slice_limit sliceoffset slicelength in
    if VARATT_IS_EXTERNAL_ONDISK attr then
      let tp := VARATT_EXTERNAL_GET_POINTER attr in
      if negb (VARATT_EXTERNAL_IS_COMPRESSED tp) then toast_fetch_datum_slice attr sliceoffset slicelength
      else
        preslice ← (if slicelimit >=? 0 then
                      toast_fetch_datum_slice attr 0 (pglz_maximum_compressed_size slicelimit (va_extsize tp))
                    else toast_fetch_datum attr);
        finish_slice preslice sliceoffset slicelength slicelimit
    else if VARATT_IS_EXTERNAL_EXPANDED attr then
      preslice ← detoast_external_direct attr;
      finish_slice preslice sliceoffset slicelength slicelimit
    else finish_slice attr sliceoffset slicelength slicelimit.

Definition detoast_attr_slice (attr : list Z) (sliceoffset slicelength : Z) : result (list Z) :=
  if sliceoffset <? 0 then elog "invalid sliceoffset"
  else if VARATT_IS_EXTERNAL_INDIRECT attr then
    object ← indirect_object attr;
    if VARATT_IS_EXTERNAL_INDIRECT object then undefined "nested indirect datum"
    else detoast_slice_direct object sliceoffset (slice_limit sliceoffset slicelength).2
  else detoast_slice_direct attr sliceoffset slicelength.

Definition raw_size_direct (attr : list Z) : result Z :=
  if VARATT_IS_EXTERNAL_ONDISK attr then Ok (va_rawsize (VARATT_EXTERNAL_GET_POINTER attr))
  else if VARATT_IS_EXTERNAL_EXPANDED attr then flat ← flatten_object attr; Ok (Z.of_nat (length flat))
  else if VARATT_IS_COMPRESSED attr then Ok (VARRAWSIZE_4B_C attr + VARHDRSZ)
  else if VARATT_IS_SHORT attr then Ok (VARSIZE_1B attr - VARHDRSZ_SHORT + VARHDRSZ)
  else Ok (VARSIZE_4B attr).

Definition toast_raw_datum_size (attr : list Z) : result Z :=
  if VARATT_IS_EXTERNAL_INDIRECT attr then
    object ← indirect_object attr;
    if VARATT_IS_EXTERNAL_INDIRECT object then undefined "nested indirect datum" else raw_size_direct object
  else raw_size_direct attr.

Definition datum_size_direct (attr : list Z) : result Z :=
  if VARATT_IS_EXTERNAL_ONDISK attr then Ok (va_extsize (VARATT_EXTERNAL_GET_POINTER attr))
  else if VARATT_IS_EXTERNAL_EXPANDED attr then flat ← flatten_object attr; Ok (Z.of_nat (length flat))
  else if VARATT_IS_SHORT attr then Ok (VARSIZE_1B attr)
  else Ok (VARSIZE_4B attr).

(** The assertion of this function is on [attr] instead of the object, so that
    it fails on every indirect datum; what follows is the code without it. *)
Definition toast_datum_size (attr : list Z) : result Z :=
  if VARATT_IS_EXTERNAL_INDIRECT attr then
    object ← indirect_object attr;
    if VARATT_IS_EXTERNAL_INDIRECT object then undefined "nested indirect datum" else datum_size_direct object
  else datum_size_direct attr.

End Detoast.

(** ** Choosing a value id (catalog.c, varsup.c) *)

Definition FirstNormalObjectId : Z := 16384.

(** The OID and the new counter, in normal operation; writing the counter to
    WAL ahead of its use is left out. *)
Definition GetNewObjectId (nextOid : Z) : Z * Z :=
  let nextOid := if nextOid <? FirstNormalObjectId then FirstNormalObjectId else nextOid in
  (nextOid, uwrap 32 (nextOid + 1)).

(** A row with the value id, live or dead ([SnapshotAny]). *)
Definition valueid_in_index (idx : ToastIndex) (valueid : Z) : bool :=
  negb (Nat.eqb (length (index_scan idx (fun id _ => id =? valueid))) 0).

Fixpoint new_oid_loop (fuel : nat) (idx : ToastIndex) (nextOid : Z) : result (Z * Z) :=
  match fuel with
  | O => undefined "out of fuel"
  | S fuel' =>
      let '(newOid, nextOid) := GetNewObjectId nextOid in
      if valueid_in_index idx newOid then new_oid_loop fuel' idx nextOid else Ok (newOid, nextOid)
  end.

Definition GetNewOidWithIndex (idx : ToastIndex) (nextOid : Z) : result (Z * Z) :=
  new_oid_loop (S (length (idx_entries idx))) idx nextOid.

Definition toastrel_valueid_exists (toastrel : ToastRelation) (valueid : Z) : result bool :=
  validIndex ← toast_open_indexes toastrel;
  Ok (valueid_in_index validIndex valueid).

Definition toastid_valueid_exists (w : World) (toastrelid valueid : Z) : result bool :=
  toastrel ← table_open w toastrelid;
  toastrel_valueid_exists toastrel valueid.

(** The loop that avoids the OIDs of the old TOAST table too. *)
Fixpoint rewrite_oid_loop (fuel : nat) (w : World) (idx : ToastIndex) (toastoid nextOid : Z) : result (Z * Z) :=
  match fuel with
  | O => undefined "out of fuel"
  | S fuel' =>
      '(valueid, nextOid) ← GetNewOidWithIndex idx nextOid;
      exists_ ← toastid_valueid_exists w toastoid valueid;
      if (exists_ : bool) then rewrite_oid_loop fuel' w idx toastoid nextOid else Ok (valueid, nextOid)
  end.

(** The number of entries of the old TOAST table's index bounds the loop. *)
Definition rewrite_fuel (w : World) (toastoid : Z) : nat :=
  match table_open w toastoid with
  | Ok r => match toast_open_indexes r with Ok idx => S (length (idx_entries idx)) | Err _ => 1 end
  | Err _ => 1
  end.

(** The value id, the new OID counter, and whether the data is there already. *)
Definition choose_valueid (w : World) (rel : Relation) (toastrel : ToastRelation) (idx : ToastIndex) (oldexternal : option (list Z))
  : result (Z * Z * bool) :=
  if rd_toastoid rel =? InvalidOid then
    '(valueid, nextOid) ← GetNewOidWithIndex idx (nextOid w);
    Ok (valueid, nextOid, false)
  else
    '(valueid, short_circuit) ←
      match oldexternal with
      | Some old =>
          let old_toast_pointer := VARATT_EXTERNAL_GET_POINTER old in
          if va_toastrelid old_toast_pointer =? rd_toastoid rel then
            exists_ ← toastrel_valueid_exists toastrel (va_valueid old_toast_pointer);
            Ok (va_valueid old_toast_pointer, exists_)
          else Ok (InvalidOid, false)
      | None => Ok (InvalidOid, false)
      end;
    if valueid =? InvalidOid then
      '(valueid, nextOid) ← rewrite_oid_loop (rewrite_fuel w (rd_toastoid rel)) w idx (rd_toastoid rel) (nextOid w);
      Ok (valueid, nextOid, short_circuit)
    else Ok (valueid, nextOid w, short_circuit).

(** ** Storing (toast_internals.c) *)

(** Key order of an index: value id, chunk number, row. *)
Definition entry_lt (a b : Entry) : bool :=
  (a.1.1 <? b.1.1) || ((a.1.1 =? b.1.1) && ((a.1.2 <? b.1.2) || ((a.1.2 =? b.1.2) && (a.2 <? b.2)%nat))).

Fixpoint insert_entry (e : Entry) (l : list Entry) : list Entry :=
  match l with
  | [] => [e]
  | a :: l' => if entry_lt e a then e :: l else a :: insert_entry e l'
  end.

(** A live row with the same key. *)
Definition unique_conflict (rows : list ToastRow) (idx : ToastIndex) (e : Entry) : bool :=
  existsb (fun tid => match rows !! tid with Some row => bool_decide (row_state row = RowLive) | None => false end)
    (index_scan idx (fun id seq => (id =? e.1.1) && (seq =? e.1.2))).

Definition index_insert (rows : list ToastRow) (e : Entry) (idx : ToastIndex) : result ToastIndex :=
  if indisunique idx && unique_conflict rows idx e then
    ereport ERRCODE_UNIQUE_VIOLATION "duplicate key value violates unique constraint"
  else Ok (mkIndex (indisvalid idx) (indisready idx) (indisunique idx) (insert_entry e (idx_entries idx))).

Fixpoint insert_ready (rows : list ToastRow) (e : Entry) (idxs : list ToastIndex) : result (list ToastIndex) :=
  match idxs with
  | [] => Ok []
  | i :: idxs' =>
      i ← (if indisready i then index_insert rows e i else Ok i);
      idxs' ← insert_ready rows e idxs';
      Ok (i :: idxs')
  end.

(** How [heap_form_tuple] stores the chunk: [fill_val] (heaptuple.c) on a value
    with a four-byte header, which a chunk has. *)
Definition fill_chunk (st : TypStorage) (val : list Z) : list Z :=
  if TYPE_IS_PACKABLE (-1) st && VARATT_CAN_MAKE_SHORT val then
    let data_length := VARATT_CONVERTED_SHORT_SIZE val in
    SET_VARSIZE_SHORT data_length :: bytes_at (VARDATA val) 0 (data_length - 1)
  else bytes_at val 0 (VARSIZE_4B val).

(** [heap_insert] and the index entries of a chunk. *)
Definition insert_chunk (r : ToastRelation) (valueid seq : Z) (chunk : list Z) : result ToastRelation :=
  let tid := length (rd_rows r) in
  let row := mkRow valueid seq (fill_chunk (att_storage r) chunk) RowLive in
  let rows := rd_rows r ++ [row] in
  idxs ← insert_ready (rd_rows r) (valueid, seq, tid) (rd_indexes r);
  Ok (mkToastRel (rd_id r) (att_storage r) idxs rows).

(** The loop that splits up the item. *)
Fixpoint save_chunks (fuel : nat) (r : ToastRelation) (valueid seq data_todo : Z) (data_p : list Z) : result ToastRelation :=
  match fuel with
  | O => undefined "out of fuel"
  | S fuel' =>
      if data_todo >? 0 then
        let chunk_size := Z.min TOAST_MAX_CHUNK_SIZE data_todo in
        r ← insert_chunk r valueid seq (varlena (bytes_at data_p 0 chunk_size) chunk_size);
        save_chunks fuel' r valueid (seq + 1) (data_todo - chunk_size) (drop (Z.to_nat chunk_size) data_p)
      else Ok r
  end.

(** The data to store with its length, and the sizes for the TOAST pointer. *)
Definition data_to_save (dval : list Z) : list Z * Z * Z * Z :=
  if VARATT_IS_SHORT dval then
    let data_todo := VARSIZE_1B dval - VARHDRSZ_SHORT in
    (VARDATA_SHORT dval, data_todo, data_todo + VARHDRSZ, data_todo)
  else if VARATT_IS_COMPRESSED dval then
    let data_todo := VARSIZE_4B dval - VARHDRSZ in
    (VARDATA dval, data_todo, VARRAWSIZE_4B_C dval + VARHDRSZ, data_todo)
  else
    let data_todo := VARSIZE_4B dval - VARHDRSZ in
    (VARDATA dval, data_todo, VARSIZE_4B dval, data_todo).

Definition set_rel (w : World) (oid : Z) (r : ToastRelation) : World :=
  mkWorld (nextOid w) (active_snapshot w) (<[oid := r]> (toast_rels w)) (objects w) (expanded w).

Definition set_next_oid (w : World) (n : Z) : World :=
  mkWorld n (active_snapshot w) (toast_rels w) (objects w) (expanded w).

Definition toast_save_datum (w : World) (rel : Relation) (dval : list Z) (oldexternal : option (list Z)) : result (World * list Z) :=
  toastrel ← table_open w (reltoastrelid rel);
  validIndex ← toast_open_indexes toastrel;
  let '(data_p, data_todo, rawsize, extsize) := data_to_save dval in
  let toastrelid := if negb (rd_toastoid rel =? InvalidOid) then rd_toastoid rel else rd_id toastrel in
  '(valueid, nextOid, short_circuit) ← choose_valueid w rel toastrel validIndex oldexternal;
  let data_todo := if (short_circuit : bool) then 0 else data_todo in
  toastrel ← save_chunks (S (Z.to_nat data_todo)) toastrel valueid 0 data_todo data_p;
  Ok (set_rel (set_next_oid w nextOid) (reltoastrelid rel) toastrel,
      toast_pointer_datum (mkExternal (swrap 32 rawsize) (swrap 32 extsize) valueid toastrelid)).

(** ** Deleting *)

Definition set_state (st : RowState) (row : ToastRow) : ToastRow :=
  mkRow (chunk_id row) (chunk_seq row) (chunk_data row) st.

(** [simple_heap_delete] reports a row that is deleted already;
    [heap_abort_speculative] kills the row. *)
Definition delete_row (is_speculative : bool) (rows : list ToastRow) (tid : nat) : result (list ToastRow) :=
  match rows !! tid with
  | None => undefined "no such row"
  | Some row =>
      if is_speculative then Ok (<[tid := set_state RowKilled row]> rows)
      else if bool_decide (row_state row = RowLive) then Ok (<[tid := set_state RowDeleted row]> rows)
      else elog "tuple already updated by self or concurrently"
  end.

Fixpoint delete_rows (is_speculative : bool) (tids : list nat) (rows : list ToastRow) : result (list ToastRow) :=
  match tids with
  | [] => Ok rows
  | tid :: tids' => rows ← delete_row is_speculative rows tid; delete_rows is_speculative tids' rows
  end.

Definition toast_delete_datum (w : World) (attr : list Z) (is_speculative : bool) : result World :=
  if negb (VARATT_IS_EXTERNAL_ONDISK attr) then Ok w
  else
    let tp := VARATT_EXTERNAL_GET_POINTER attr in
    toastrel ← table_open w (va_toastrelid tp);
    validIndex ← toast_open_indexes toastrel;
    _ ← init_toast_snapshot w;
    rows ← delete_rows is_speculative (map fst (systable_scan toastrel validIndex (fun id _ => id =? va_valueid tp))) (rd_rows toastrel);
    Ok (set_rel w (va_toastrelid tp) (mkToastRel (rd_id toastrel) (att_storage toastrel) (rd_indexes toastrel) rows)).
