(* ===== verification/ToastInline.v ===== *)
(** * In-line values

    Plain, short and compressed varlenas that hold some data: [detoast_attr]
    gives the plain form, and compressing is inverse to it. *)

From stdpp Require Import gmap.
From S2P Require Import Prelude Varlena PgLz PgLzDecode PgLzTheorems Toast.

(** ** Headers *)

Lemma land_3_mod h : Z.land h 3 = h mod 4.
Proof. apply (Z.land_ones h 2). lia. Qed.

(** The header word of four bytes. *)
Lemma VARSIZE_4B_header h rest : in_uint 32 h -> VARSIZE_4B (le_bytes 4 h ++ rest) = h / 4.
Proof.
  intros [Hh1 Hh2]. unfold VARSIZE_4B. rewrite (bytes_at_app0 (le_bytes 4 h)) by (by rewrite length_le_bytes).
  rewrite le_value_bytes. change (2 ^ (8 * Z.of_nat 4)) with (2 ^ 32). rewrite Z.mod_small by lia.
  rewrite Z.shiftr_div_pow2 by lia. change 1073741823 with (Z.ones 30). rewrite Z.land_ones by lia. apply Z.mod_small. zlia.
Qed.

Lemma header_mod4 h rest : va_header_1b (le_bytes 4 h ++ rest) mod 4 = h mod 4.
Proof. change (va_header_1b (le_bytes 4 h ++ rest)) with (h mod 256). apply Z.mod_mod_divide. by exists 64. Qed.

(** What the header says about a value. *)
Record header_facts (p : list Z) (ext short comp plain : bool) : Prop := {
  hf_ext : VARATT_IS_1B_E p = ext;
  hf_short : VARATT_IS_1B p = short;
  hf_comp : VARATT_IS_4B_C p = comp;
  hf_plain : VARATT_IS_4B_U p = plain
}.

Lemma header_4B h rest : h mod 4 = 0 \/ h mod 4 = 2 -> header_facts (le_bytes 4 h ++ rest) false false (h mod 4 =? 2) (h mod 4 =? 0).
Proof.
  intros Hm. pose proof (header_mod4 h rest) as E. split.
  - unfold VARATT_IS_1B_E. apply Z.eqb_neq. intros E1. rewrite E1 in E. change (1 mod 4) with 1 in E. lia.
  - unfold VARATT_IS_1B. apply Z.eqb_neq. rewrite land_1_mod. intros E1. zlia.
  - unfold VARATT_IS_4B_C. by rewrite land_3_mod, E.
  - unfold VARATT_IS_4B_U. by rewrite land_3_mod, E.
Qed.

(** The header words. *)
Lemma SET_VARSIZE_eq len : 0 <= len < 2 ^ 30 -> SET_VARSIZE len = len * 4.
Proof.
  intros H. unfold SET_VARSIZE. rewrite (uwrap_small 32 len) by (unfold in_uint; lia). rewrite Z.shiftl_mul_pow2 by lia.
  apply uwrap_small. unfold in_uint. lia.
Qed.

Lemma SET_VARSIZE_COMPRESSED_eq len : 0 <= len < 2 ^ 30 -> SET_VARSIZE_COMPRESSED len = len * 4 + 2.
Proof.
  intros H. unfold SET_VARSIZE_COMPRESSED. fold (SET_VARSIZE len). rewrite SET_VARSIZE_eq by done.
  assert (Hl : Z.land (len * 4) 2 = 0).
  { change (Z.land (len * 2 ^ 2) (2 ^ 1) = 0). apply Z.bits_inj'. intros i Hi. rewrite Z.land_spec, Z.bits_0, Z.pow2_bits_eqb by lia.
    destruct (Z.eqb_spec 1 i) as [<-|]; [|by rewrite andb_false_r]. by rewrite Z.mul_pow2_bits_low by lia. }
  by rewrite (Z.add_nocarry_lxor _ _ Hl), (Z.lxor_lor _ _ Hl).
Qed.

Definition plain (data : list Z) : list Z := varlena data (Z.of_nat (length data)).

(** Sizes that fit a varlena. *)
Definition fits (data : list Z) : Prop := Z.of_nat (length data) + VARHDRSZ <= MaxAllocSize.

Lemma varlena_facts data len :
  0 <= len + VARHDRSZ <= MaxAllocSize ->
  header_facts (varlena data len) false false false true /\ VARSIZE_4B (varlena data len) = len + VARHDRSZ /\
  VARDATA (varlena data len) = data.
Proof.
  unfold MaxAllocSize. intros H. unfold varlena. rewrite SET_VARSIZE_eq by lia.
  assert (Hm : (len + VARHDRSZ) * 4 mod 4 = 0) by (rewrite Z.mod_mul; lia).
  split_and!; [|rewrite VARSIZE_4B_header by (unfold in_uint; lia); rewrite Z.div_mul; lia|done].
  pose proof (header_4B _ data (or_introl Hm)) as F. by rewrite Hm in F.
Qed.

Lemma varlena_c_facts data len :
  0 <= len + VARHDRSZ <= MaxAllocSize ->
  header_facts (varlena_c data len) false false true false /\ VARSIZE_4B (varlena_c data len) = len + VARHDRSZ /\
  VARDATA (varlena_c data len) = data.
Proof.
  unfold MaxAllocSize. intros H. unfold varlena_c. rewrite SET_VARSIZE_COMPRESSED_eq by lia.
  assert (Hm : ((len + VARHDRSZ) * 4 + 2) mod 4 = 2) by zlia.
  split_and!; [|rewrite VARSIZE_4B_header by (unfold in_uint; lia); zlia|done].
  pose proof (header_4B _ data (or_intror Hm)) as F. by rewrite Hm in F.
Qed.

(** A value under a one-byte header. *)
Definition short_form (data : list Z) : list Z := SET_VARSIZE_SHORT (Z.of_nat (length data) + 1) :: data.

Lemma short_facts data :
  (length data <= 126)%nat ->
  header_facts (short_form data) false true false false /\ VARSIZE_1B (short_form data) = Z.of_nat (length data) + 1.
Proof.
  intros H. unfold short_form. rewrite SET_VARSIZE_SHORT_spec by lia. set (h := 2 * _ + 1).
  assert (E : va_header_1b (h :: data) = h) by done. split; [split|].
  - unfold VARATT_IS_1B_E. rewrite E. apply Z.eqb_neq. lia.
  - unfold VARATT_IS_1B. rewrite E, land_1_mod. apply Z.eqb_eq. zlia.
  - unfold VARATT_IS_4B_C. rewrite E, land_3_mod. apply Z.eqb_neq. zlia.
  - unfold VARATT_IS_4B_U. rewrite E, land_3_mod. apply Z.eqb_neq. zlia.
  - rewrite VARSIZE_1B_spec, E. zlia.
Qed.

(** A compressed value; [c] is the output of the compressor. *)
Definition comp_data (data c : list Z) : list Z := le_bytes 4 (Z.of_nat (length data)) ++ c.
Definition comp_form (data c : list Z) : list Z := varlena_c (comp_data data c) (Z.of_nat (length c) + 4).

(** ** The forms of a value *)

Inductive inline_form (data : list Z) : list Z -> Prop :=
| Plain : inline_form data (plain data)
| Short : (length data <= 126)%nat -> inline_form data (short_form data)
| Compressed c : encodes data c -> Z.of_nat (length c) + TOAST_COMPRESS_HDRSZ < Z.of_nat (length data) - 2 ->
    inline_form data (comp_form data c).

Lemma is_external_false p : VARATT_IS_1B_E p = false ->
  VARATT_IS_EXTERNAL_ONDISK p = false /\ VARATT_IS_EXTERNAL_INDIRECT p = false /\ VARATT_IS_EXTERNAL_EXPANDED p = false.
Proof.
  intros H. unfold VARATT_IS_EXTERNAL_ONDISK, VARATT_IS_EXTERNAL_INDIRECT, VARATT_IS_EXTERNAL_EXPANDED, VARATT_IS_EXTERNAL.
  by rewrite H.
Qed.

Lemma palloc_ok n : 0 <= n <= MaxAllocSize -> palloc n = Ok (replicate (Z.to_nat n) 0).
Proof.
  intros H. unfold palloc, palloc0. destruct (Z.ltb_spec n 0); [lia|]. destruct (Z.gtb_spec n MaxAllocSize); [lia|done].
Qed.

Lemma swrap32_small n : 0 <= n <= MaxAllocSize -> swrap 32 n = n.
Proof. unfold MaxAllocSize. intros H. apply swrap_small; [lia|]. unfold in_sint. lia. Qed.

Lemma comp_facts data c :
  fits data -> Z.of_nat (length c) + TOAST_COMPRESS_HDRSZ < Z.of_nat (length data) - 2 ->
  header_facts (comp_form data c) false false true false /\
  VARSIZE_4B (comp_form data c) = Z.of_nat (length c) + TOAST_COMPRESS_HDRSZ /\
  TOAST_COMPRESS_RAWSIZE (comp_form data c) = Z.of_nat (length data) /\
  VARRAWSIZE_4B_C (comp_form data c) = Z.of_nat (length data) /\
  TOAST_COMPRESS_RAWDATA (comp_form data c) = c.
Proof.
  intros Hfit Hc. unfold fits, TOAST_COMPRESS_HDRSZ in *. 
  destruct (varlena_c_facts (comp_data data c) (Z.of_nat (length c) + 4)) as (F & Es & _); [unfold VARHDRSZ in *; lia|].
  assert (Er : bytes_at (comp_form data c) 4 4 = le_bytes 4 (Z.of_nat (length data))) by done.
  assert (Ev : le_value (le_bytes 4 (Z.of_nat (length data))) = Z.of_nat (length data)).
  { rewrite le_value_bytes. apply Z.mod_small. unfold VARHDRSZ, MaxAllocSize in *. lia. }
  split_and!; [done|unfold comp_form; rewrite Es; unfold VARHDRSZ; lia| | |done].
  - unfold TOAST_COMPRESS_RAWSIZE, int32_at. rewrite Er, Ev. apply swrap32_small. unfold VARHDRSZ in *. lia.
  - unfold VARRAWSIZE_4B_C, uint32_at. by rewrite Er, Ev.
Qed.

(** ** Decompressing *)

Lemma comp_size data c :
  fits data -> Z.of_nat (length c) + TOAST_COMPRESS_HDRSZ < Z.of_nat (length data) - 2 ->
  TOAST_COMPRESS_SIZE (comp_form data c) = Z.of_nat (length c).
Proof.
  intros Hfit Hc. destruct (comp_facts data c Hfit Hc) as (F & Es & _). unfold TOAST_COMPRESS_SIZE, VARSIZE_ANY.
  rewrite (hf_ext _ _ _ _ _ F), (hf_short _ _ _ _ _ F), Es. lia.
Qed.

Lemma encodes_decompress data c : encodes data c -> pglz_decompress c (Z.of_nat (length data)) true = Ok (Some data).
Proof.
  intros (gs & -> & Hok & Hall & Hg). unfold groups_bytes.
  rewrite (decompress_encoded data gs (length data) true) by done. by rewrite firstn_all.
Qed.

Lemma encodes_slice data c n : encodes data c -> pglz_decompress c (Z.of_nat n) false = Ok (Some (take n data)).
Proof. intros (gs & -> & Hok & Hall & Hg). by apply decompress_encoded. Qed.

Lemma toast_decompress_ok data c :
  fits data -> encodes data c -> Z.of_nat (length c) + TOAST_COMPRESS_HDRSZ < Z.of_nat (length data) - 2 ->
  toast_decompress_datum (comp_form data c) = Ok (plain data).
Proof.
  intros Hfit He Hc. unfold toast_decompress_datum. destruct (comp_facts data c Hfit Hc) as (_ & _ & -> & _ & ->).
  unfold fits, VARHDRSZ in Hfit. rewrite swrap32_small, palloc_ok, comp_size by (done || unfold VARHDRSZ; lia). cbn [mbind result_bind].
  rewrite bytes_at_all by done. by rewrite encodes_decompress.
Qed.

(** The data of a compressed value, or of a prefix of one. *)
Lemma toast_decompress_slice_ok data c m n :
  fits data -> (length (take m c) + 8 <= length data)%nat -> Z.of_nat n + VARHDRSZ <= MaxAllocSize ->
  pglz_decompress (take m c) (Z.of_nat n) false = Ok (Some (take n data)) ->
  toast_decompress_datum_slice (varlena_c (comp_data data (take m c)) (Z.of_nat (length (take m c)) + 4)) (Z.of_nat n) =
  Ok (plain (take n data)).
Proof.
  intros Hfit Hm Hn E. unfold toast_decompress_datum_slice. unfold fits in Hfit.
  destruct (varlena_c_facts (comp_data data (take m c)) (Z.of_nat (length (take m c)) + 4)) as (_ & -> & _); [unfold VARHDRSZ in *; lia|].
  rewrite swrap32_small, palloc_ok by (unfold VARHDRSZ in *; lia). cbn [mbind result_bind].
  change (TOAST_COMPRESS_RAWDATA _) with (take m c). rewrite bytes_at_all by (unfold VARHDRSZ, TOAST_COMPRESS_HDRSZ; lia).
  by rewrite E.
Qed.

(** ** [detoast_attr] *)

Lemma detoast_inline w data p : fits data -> inline_form data p -> detoast_attr w p = Ok (plain data).
Proof.
  intros Hfit Hp. assert (Hx : VARATT_IS_1B_E p = false /\ detoast_direct w p = Ok (plain data)).
  2: { destruct Hx as [Hx Hd]. unfold detoast_attr. by destruct (is_external_false p Hx) as (_ & -> & _). }
  unfold detoast_direct. destruct Hp as [|Hl|c He Hc].
  - destruct (varlena_facts data (Z.of_nat (length data))) as (F & _ & _); [unfold fits, VARHDRSZ in *; lia|].
    pose proof (hf_ext _ _ _ _ _ F) as Hx. destruct (is_external_false _ Hx) as (E1 & _ & E3). unfold plain, VARATT_IS_COMPRESSED, VARATT_IS_SHORT.
    by rewrite E1, E3, (hf_comp _ _ _ _ _ F), (hf_short _ _ _ _ _ F).
  - destruct (short_facts data Hl) as (F & Es). pose proof (hf_ext _ _ _ _ _ F) as Hx. destruct (is_external_false _ Hx) as (E1 & _ & E3).
    unfold VARATT_IS_COMPRESSED, VARATT_IS_SHORT. rewrite E1, E3, (hf_comp _ _ _ _ _ F), (hf_short _ _ _ _ _ F), Es. split; [done|].
    unfold VARHDRSZ_SHORT. replace (Z.of_nat (length data) + 1 - 1) with (Z.of_nat (length data)) by lia.
    change (VARDATA_SHORT (short_form data)) with data. by rewrite bytes_at_all.
  - destruct (comp_facts data c Hfit Hc) as (F & _). pose proof (hf_ext _ _ _ _ _ F) as Hx. destruct (is_external_false _ Hx) as (E1 & _ & E3).
    unfold VARATT_IS_COMPRESSED. rewrite E1, E3, (hf_comp _ _ _ _ _ F). split; [done|]. by apply toast_decompress_ok.
Qed.

(** ** Compressing *)

Lemma VARSIZE_ANY_EXHDR_inline data p :
  fits data -> p = plain data \/ p = short_form data /\ (length data <= 126)%nat ->
  VARSIZE_ANY_EXHDR p = Z.of_nat (length data) /\ bytes_at (VARDATA_ANY p) 0 (Z.of_nat (length data)) = data.
Proof.
  intros Hfit Hp. unfold VARSIZE_ANY_EXHDR, VARDATA_ANY. destruct Hp as [-> |[-> Hl]].
  - destruct (varlena_facts data (Z.of_nat (length data))) as (F & Es & Ed); [unfold fits, VARHDRSZ in *; lia|]. unfold plain.
    rewrite (hf_ext _ _ _ _ _ F), (hf_short _ _ _ _ _ F), Es, Ed. split; [lia|by apply bytes_at_all].
  - destruct (short_facts data Hl) as (F & Es). rewrite (hf_ext _ _ _ _ _ F), (hf_short _ _ _ _ _ F), Es. unfold VARHDRSZ_SHORT.
    split; [lia|]. change (VARDATA_SHORT (short_form data)) with data. by apply bytes_at_all.
Qed.

(** Compressing an uncompressed value fails, or gives a shorter compressed
    form of the same data. *)
Lemma toast_compress_result data p :
  Z.of_nat (length data) + 12 <= MaxAllocSize -> p = plain data \/ p = short_form data /\ (length data <= 126)%nat ->
  exists r, toast_compress_datum p = Ok r /\
    forall q, r = Some q -> exists c, q = comp_form data c /\ encodes data c /\
      Z.of_nat (length c) + TOAST_COMPRESS_HDRSZ < Z.of_nat (length data) - 2.
Proof.
  intros Hfit Hp. destruct (VARSIZE_ANY_EXHDR_inline data p) as [Es Ed]; [unfold fits, VARHDRSZ; lia|done|].
  unfold toast_compress_datum. rewrite Es, Ed. destruct (_ || _); [by eexists|].
  rewrite palloc_ok by (unfold PGLZ_MAX_OUTPUT, TOAST_COMPRESS_HDRSZ; lia). cbn [mbind result_bind].
  destruct (compress_encodes data strategy_default_data) as (r & -> & Hr). cbn [mbind result_bind]. destruct r as [c|]; [|by eexists].
  assert (Eq : le_bytes 4 (SET_VARSIZE_COMPRESSED (Z.of_nat (length c) + TOAST_COMPRESS_HDRSZ)) ++ le_bytes 4 (Z.of_nat (length data)) ++ c =
               comp_form data c).
  { unfold comp_form, varlena_c, comp_data. unfold VARHDRSZ, TOAST_COMPRESS_HDRSZ. do 3 f_equal. lia. }
  rewrite Eq. destruct (Hr c eq_refl) as [_ He].
  destruct (Z.ltb_spec (Z.of_nat (length c) + TOAST_COMPRESS_HDRSZ) (Z.of_nat (length data) - 2)) as [Hc|];
    eexists; (split; [done|]); [|done]. intros q Hq. injection Hq as <-. by exists c.
Qed.

Lemma toast_compress_comp data p q :
  Z.of_nat (length data) + 12 <= MaxAllocSize -> p = plain data \/ p = short_form data /\ (length data <= 126)%nat ->
  toast_compress_datum p = Ok (Some q) ->
  exists c, q = comp_form data c /\ encodes data c /\ Z.of_nat (length c) + TOAST_COMPRESS_HDRSZ < Z.of_nat (length data) - 2.
Proof.
  intros Hfit Hp Hq. destruct (toast_compress_result data p Hfit Hp) as (r & E & Hr). rewrite E in Hq. injection Hq as ->. by apply Hr.
Qed.

Lemma comp_form_length data c : length (comp_form data c) = (8 + length c)%nat.
Proof. unfold comp_form, varlena_c, comp_data. rewrite !length_app, !length_le_bytes. lia. Qed.

(** ** Slices *)

(** The data that a slice asks for; a negative length or one that overflows
    [int32] asks for the rest. *)
Definition slice (data : list Z) (sliceoffset slicelength : Z) : list Z :=
  if (slicelength <? 0) || (sliceoffset + slicelength >? PG_INT32_MAX) then drop (Z.to_nat sliceoffset) data
  else bytes_at data sliceoffset slicelength.

Lemma slice_limit_cases off len :
  0 <= off <= PG_INT32_MAX -> len <= PG_INT32_MAX ->
  (exists len', slice_limit off len = (-1, len') /\ len' < 0 /\ forall data, slice data off len = drop (Z.to_nat off) data) \/
  (0 <= len /\ slice_limit off len = (off + len, len) /\ off + len <= PG_INT32_MAX /\ forall data, slice data off len = bytes_at data off len).
Proof.
  intros Hoff Hlen. unfold slice_limit, slice, pg_add_s32_overflow. destruct (Z.ltb_spec len 0); cbn [orb].
  { left. exists len. by split_and!. }
  destruct (Z.ltb_spec (off + len) PG_INT32_MIN); [unfold PG_INT32_MIN in *; lia|]. cbn [orb].
  destruct (Z.gtb_spec (off + len) PG_INT32_MAX); [left; exists (-1); by split_and!|right]. split_and!; (done || lia).
Qed.

Lemma drop_as_bytes d off : 0 <= off -> drop (Z.to_nat off) d = bytes_at d off (Z.of_nat (length d) - off).
Proof. intros H. unfold bytes_at. rewrite take_ge; [done|]. rewrite length_drop. lia. Qed.

Lemma length_bytes_at d off n : 0 <= off -> 0 <= n -> off + n <= Z.of_nat (length d) -> Z.of_nat (length (bytes_at d off n)) = n.
Proof. intros H1 H2 H3. unfold bytes_at. rewrite length_take, length_drop. lia. Qed.

(** The slice of an uncompressed value. *)
Lemma slice_datum_ok d p off len :
  fits d -> p = plain d \/ p = short_form d /\ (length d <= 126)%nat -> 0 <= off <= PG_INT32_MAX -> len <= PG_INT32_MAX ->
  slice_datum p off (slice_limit off len).2 (slice_limit off len).1 = Ok (plain (slice d off len)).
Proof.
  intros Hfit Hp Hoff Hlen. unfold slice_datum.
  assert (Hsrc : (if VARATT_IS_SHORT p then (VARDATA_SHORT p, VARSIZE_1B p - VARHDRSZ_SHORT) else (VARDATA p, VARSIZE_4B p - VARHDRSZ)) =
                 (d, Z.of_nat (length d))).
  { unfold VARATT_IS_SHORT. destruct Hp as [-> |[-> Hl]].
    - destruct (varlena_facts d (Z.of_nat (length d))) as (F & Es & Ed); [unfold fits, VARHDRSZ in *; lia|]. unfold plain.
      rewrite (hf_short _ _ _ _ _ F), Es, Ed. f_equal. lia.
    - destruct (short_facts d Hl) as (F & Es). rewrite (hf_short _ _ _ _ _ F), Es. unfold VARHDRSZ_SHORT. f_equal. lia. }
  rewrite Hsrc. clear Hsrc Hp p.
  assert (Hfin : forall o n, 0 <= o -> 0 <= n -> o + n <= Z.of_nat (length d) ->
            (_ ← palloc (swrap 32 (n + VARHDRSZ));
             if (n <? 0) || (o <? 0) || (o + n >? Z.of_nat (length d)) then undefined "memcpy past the end of the value"
             else Ok (varlena (bytes_at d o n) n)) = Ok (plain (bytes_at d o n))).
  { intros o n Ho Hn Hon. unfold fits in Hfit. rewrite swrap32_small, palloc_ok by (unfold VARHDRSZ in *; lia). cbn [mbind result_bind].
    destruct (Z.ltb_spec n 0), (Z.ltb_spec o 0), (Z.gtb_spec (o + n) (Z.of_nat (length d))); try lia. cbn [orb]. unfold plain. by rewrite length_bytes_at. }
  destruct (Z.geb_spec off (Z.of_nat (length d))) as [Hge|Hlt].
  { rewrite Hfin by lia. f_equal. f_equal. unfold slice. 
    assert (Hd : drop (Z.to_nat off) d = []) by (apply drop_ge; lia). rewrite Hd. unfold bytes_at. rewrite Hd. 
    cbn [take]. by rewrite take_nil; destruct (_ || _). }
  destruct (slice_limit_cases off len Hoff Hlen) as [(len' & -> & Hl & ->)|(Hl & -> & Hmax & ->)]; cbn [fst snd].
  - destruct (Z.ltb_spec len' 0); [|lia]. cbn [orb]. rewrite Hfin by lia. by rewrite <- drop_as_bytes by lia.
  - destruct (Z.ltb_spec len 0); [lia|]. cbn [orb]. destruct (Z.gtb_spec (off + len) (Z.of_nat (length d))); rewrite Hfin by lia; [|done].
    f_equal. f_equal. unfold bytes_at. rewrite !take_ge; [done|rewrite length_drop; lia|rewrite length_drop; lia].
Qed.

(** Only a prefix is needed. *)
Lemma slice_take d off len :
  0 <= off <= PG_INT32_MAX -> len <= PG_INT32_MAX -> 0 <= (slice_limit off len).1 ->
  slice (take (Z.to_nat (slice_limit off len).1) d) off len = slice d off len.
Proof.
  intros Hoff Hlen H. destruct (slice_limit_cases off len Hoff Hlen) as [(len' & E & _)|(Hl & E & Hmax & Hs)]; rewrite E in *; cbn [fst] in *; [lia|].
  rewrite !Hs. unfold bytes_at. rewrite skipn_firstn_comm, take_take. f_equal. lia.
Qed.

(** The space for a compressed value is reserved up to the end of the slice. *)
Definition slice_fits (compressed : bool) (off len : Z) : Prop :=
  compressed = true -> (slice_limit off len).1 + VARHDRSZ <= MaxAllocSize.

(** The end of [detoast_attr_slice], on a compressed value of which at least
    the bytes for the slice are there. *)
Lemma finish_slice_comp data c m off len :
  fits data -> (length (take m c) + 8 <= length data)%nat -> 0 <= off <= PG_INT32_MAX -> len <= PG_INT32_MAX -> slice_fits true off len ->
  (if (slice_limit off len).1 >=? 0 then
     pglz_decompress (take m c) (slice_limit off len).1 false = Ok (Some (take (Z.to_nat (slice_limit off len).1) data))
   else take m c = c /\ encodes data c /\ Z.of_nat (length c) + TOAST_COMPRESS_HDRSZ < Z.of_nat (length data) - 2) ->
  finish_slice (varlena_c (comp_data data (take m c)) (Z.of_nat (length (take m c)) + 4)) off (slice_limit off len).2 (slice_limit off len).1 =
  Ok (plain (slice data off len)).
Proof.
  intros Hfit Hm Hoff Hlen Hsf Hd. specialize (Hsf eq_refl). unfold finish_slice, VARATT_IS_COMPRESSED.
  destruct (varlena_c_facts (comp_data data (take m c)) (Z.of_nat (length (take m c)) + 4)) as (F & _ & _);
    [unfold fits, VARHDRSZ in *; lia|]. rewrite (hf_comp _ _ _ _ _ F).
  destruct (Z.geb_spec (slice_limit off len).1 0) as [Hge|Hlt].
  - rewrite <- (Z2Nat.id (slice_limit off len).1) in Hd at 1 by lia. rewrite <- (Z2Nat.id (slice_limit off len).1) at 1 by lia.
    rewrite toast_decompress_slice_ok by (done || lia). cbn [mbind result_bind].
    rewrite (slice_datum_ok (take (Z.to_nat (slice_limit off len).1) data)); [by rewrite slice_take|unfold fits in *; rewrite length_take; lia|by left|done|done].
  - destruct Hd as (-> & He & Hc). fold (comp_form data c). rewrite toast_decompress_ok by done. cbn [mbind result_bind].
    apply (slice_datum_ok data); [done|by left|done|done].
Qed.

(** [detoast_attr_slice] on a value in memory. *)
Lemma detoast_slice_inline w data p off len :
  fits data -> inline_form data p -> 0 <= off <= PG_INT32_MAX -> len <= PG_INT32_MAX -> slice_fits (VARATT_IS_COMPRESSED p) off len ->
  detoast_attr_slice w p off len = Ok (plain (slice data off len)).
Proof.
  intros Hfit Hp Hoff Hlen Hsf.
  assert (Hx : VARATT_IS_1B_E p = false).
  { destruct Hp as [|Hl|c He Hc]; [destruct (varlena_facts data (Z.of_nat (length data))) as (F & _); [unfold fits, VARHDRSZ in *; lia|]
      |destruct (short_facts data Hl) as (F & _)|destruct (comp_facts data c Hfit Hc) as (F & _)]; apply (hf_ext _ _ _ _ _ F). }
  destruct (is_external_false p Hx) as (E1 & E2 & E3). unfold detoast_attr_slice, detoast_slice_direct. rewrite E1, E2, E3.
  destruct (Z.ltb_spec off 0); [lia|]. rewrite (surjective_pairing (slice_limit off len)).
  destruct Hp as [|Hl|c He Hc].
  - destruct (varlena_facts data (Z.of_nat (length data))) as (F & _); [unfold fits, VARHDRSZ in *; lia|].
    unfold finish_slice, VARATT_IS_COMPRESSED. unfold plain at 1. rewrite (hf_comp _ _ _ _ _ F). cbn [mbind result_bind].
    apply (slice_datum_ok data); [done|by left|done|done].
  - destruct (short_facts data Hl) as (F & _). unfold finish_slice, VARATT_IS_COMPRESSED. rewrite (hf_comp _ _ _ _ _ F). cbn [mbind result_bind].
    apply (slice_datum_ok data); [done|by right|done|done].
  - destruct (comp_facts data c Hfit Hc) as (F & _). unfold VARATT_IS_COMPRESSED in Hsf. rewrite (hf_comp _ _ _ _ _ F) in Hsf.
    unfold TOAST_COMPRESS_HDRSZ in Hc. unfold comp_form. rewrite <- (firstn_all c).
    apply finish_slice_comp; try done; [rewrite firstn_all; lia|]. destruct (Z.geb_spec (slice_limit off len).1 0).
    + rewrite firstn_all. rewrite <- (Z2Nat.id (slice_limit off len).1) at 1 by lia. by apply encodes_slice.
    + by rewrite firstn_all.
Qed.
