(* ===== verification/ToastTable.v ===== *)
(** * TOAST tables

    The invariant of a TOAST table and its indexes, storing a value in chunks,
    and fetching any slice of it. *)

From stdpp Require Import gmap.
From Stdlib Require Import Sorting.Sorted.
From S2P Require Import Prelude Varlena PgLz PgLzTheorems Toast ToastInline.

(** ** Index entries *)

Definition entry_before (a b : Entry) : Prop := entry_lt a b = true.

Lemma entry_lt_spec a b :
  entry_lt a b = true <-> a.1.1 < b.1.1 \/ a.1.1 = b.1.1 /\ (a.1.2 < b.1.2 \/ a.1.2 = b.1.2 /\ (a.2 < b.2)%nat).
Proof. unfold entry_lt. rewrite !orb_true_iff, !andb_true_iff, orb_true_iff, andb_true_iff, !Z.ltb_lt, !Z.eqb_eq, Nat.ltb_lt. done. Qed.

Lemma entry_before_trans a b c : entry_before a b -> entry_before b c -> entry_before a c.
Proof. unfold entry_before. rewrite !entry_lt_spec. lia. Qed.

Lemma entry_before_total a b : a <> b -> entry_lt a b = false -> entry_before b a.
Proof.
  intros Hne H. unfold entry_before. destruct (entry_lt b a) eqn:E; [done|exfalso]. apply not_true_iff_false in H, E.
  rewrite entry_lt_spec in H, E. apply Hne. destruct a as [[a1 a2] a3], b as [[b1 b2] b3]. cbn in *. repeat f_equal; lia.
Qed.

Lemma insert_entry_in e l x : In x (insert_entry e l) <-> x = e \/ In x l.
Proof.
  induction l as [|a l IH]; cbn; [intuition congruence|]. destruct (entry_lt e a); cbn; [intuition congruence|]. rewrite IH. intuition congruence.
Qed.

Lemma insert_entry_sorted e l : StronglySorted entry_before l -> ~ In e l -> StronglySorted entry_before (insert_entry e l).
Proof.
  induction 1 as [|a l Hs IH Ha]; intros Hin; cbn; [repeat constructor|]. destruct (entry_lt e a) eqn:E.
  - constructor; [by constructor|]. constructor; [done|]. eapply Forall_impl; [exact Ha|]. intros x Hx. by eapply entry_before_trans.
  - constructor; [apply IH; intros Hx; apply Hin; by right|]. apply List.Forall_forall. intros x [-> |Hx]%insert_entry_in.
    + apply entry_before_total; [|done]. intros ->. apply Hin. by left.
    + rewrite List.Forall_forall in Ha. by apply Ha.
Qed.

Lemma insert_entry_end e l : Forall (fun a => entry_lt e a = false) l -> insert_entry e l = l ++ [e].
Proof. induction 1 as [|a l Ha Hl IH]; cbn; [done|]. by rewrite Ha, IH. Qed.

Lemma insert_entry_first e l : Forall (entry_before e) l -> insert_entry e l = e :: l.
Proof. destruct 1 as [|a l Ha Hl]; cbn; [done|]. by rewrite Ha. Qed.

Lemma filter_insert (P : Entry -> bool) e l :
  StronglySorted entry_before l ->
  List.filter P (insert_entry e l) = if P e then insert_entry e (List.filter P l) else List.filter P l.
Proof.
  induction 1 as [|a l Hs IH Ha]; cbn; [by destruct (P e)|]. destruct (entry_lt e a) eqn:E.
  - cbn. destruct (P e) eqn:Ee; [|done].
    assert (Hall : Forall (entry_before e) (List.filter P (a :: l))).
    { apply List.Forall_forall. intros x [Hx _]%filter_In. destruct Hx as [<-|Hx]; [done|].
      rewrite List.Forall_forall in Ha. by eapply entry_before_trans, Ha. }
    symmetry. by apply insert_entry_first.
  - cbn. rewrite IH. destruct (P a) eqn:Pa; [|done]. destruct (P e) eqn:Ee; cbn; [|done]. by rewrite E.
Qed.

(** ** The invariant *)

(** The entries of an index are in order and lead to rows with their keys. *)
Record index_ok (rows : list ToastRow) (idx : ToastIndex) : Prop := {
  ix_sorted : StronglySorted entry_before (idx_entries idx);
  ix_rows : forall e, In e (idx_entries idx) -> exists row, rows !! e.2 = Some row /\ chunk_id row = e.1.1 /\ chunk_seq row = e.1.2
}.

(** The table has a valid index, which new rows are entered into, with an entry
    for every row. *)
Record rel_ok (r : ToastRelation) (idx : ToastIndex) : Prop := {
  ro_valid : first_valid (rd_indexes r) = Some idx;
  ro_ready : indisready idx = true;
  ro_complete : forall tid row, rd_rows r !! tid = Some row -> In (chunk_id row, chunk_seq row, tid) (idx_entries idx);
  ro_indexes : Forall (fun i => indisready i = true -> index_ok (rd_rows r) i) (rd_indexes r)
}.

Lemma first_valid_in idxs idx : first_valid idxs = Some idx -> In idx idxs.
Proof.
  induction idxs as [|i idxs IH]; cbn; [done|]. destruct (indisvalid i); [intros [= ->]; by left|]. intros H. right. by apply IH.
Qed.

Lemma rel_valid_ok r idx : rel_ok r idx -> index_ok (rd_rows r) idx.
Proof.
  intros H. pose proof (ro_indexes _ _ H) as Hi. rewrite List.Forall_forall in Hi. apply Hi; [|apply H].
  apply first_valid_in, (ro_valid _ _ H).
Qed.

(** ** Adding a row *)

Definition add_entry (e : Entry) (i : ToastIndex) : ToastIndex :=
  if indisready i then mkIndex (indisvalid i) (indisready i) (indisunique i) (insert_entry e (idx_entries i)) else i.

Definition no_row (rows : list ToastRow) (v seq : Z) : Prop :=
  forall tid row, rows !! tid = Some row -> chunk_id row = v -> chunk_seq row = seq -> False.

Lemma no_conflict rows idx v seq tid : index_ok rows idx -> no_row rows v seq -> unique_conflict rows idx (v, seq, tid) = false.
Proof.
  intros Hi Hno. unfold unique_conflict, index_scan. destruct (List.filter _ _) as [|e l] eqn:E; [done|exfalso].
  assert (Hin : In e (e :: l)) by (by left). rewrite <- E in Hin. apply filter_In in Hin as [Hin Hk]. cbn in Hk. zbool.
  destruct (ix_rows _ _ Hi e Hin) as (row & Hr & E1 & E2). apply (Hno e.2 row Hr); congruence.
Qed.

Lemma insert_ready_ok rows idxs v seq tid :
  Forall (fun i => indisready i = true -> index_ok rows i) idxs -> no_row rows v seq ->
  insert_ready rows (v, seq, tid) idxs = Ok (map (add_entry (v, seq, tid)) idxs).
Proof.
  intros Hok Hno. induction Hok as [|i idxs Hi Hok IH]; cbn [insert_ready map]; [done|]. unfold add_entry at 1.
  destruct (indisready i) eqn:Er; cbn [mbind result_bind]; [|by rewrite IH].
  unfold index_insert. rewrite (no_conflict rows i v seq tid (Hi eq_refl) Hno), andb_false_r. cbn [mbind result_bind]. rewrite IH.
  cbn [mbind result_bind]. by rewrite Er.
Qed.

Lemma first_valid_add e idxs idx : first_valid idxs = Some idx -> first_valid (map (add_entry e) idxs) = Some (add_entry e idx).
Proof.
  induction idxs as [|i idxs IH]; cbn; [done|].
  assert (E : indisvalid (add_entry e i) = indisvalid i) by (unfold add_entry; by destruct (indisready i)).
  rewrite E. destruct (indisvalid i); [by intros [= ->]|exact IH].
Qed.

Lemma add_entry_ok rows i v seq c st :
  index_ok rows i -> index_ok (rows ++ [mkRow v seq c st]) (add_entry (v, seq, length rows) i) \/ indisready i = false.
Proof.
  intros Hi. unfold add_entry. destruct (indisready i) eqn:Er; [left|by right].
  assert (Hnew : ~ In (v, seq, length rows) (idx_entries i)).
  { intros Hin. destruct (ix_rows _ _ Hi _ Hin) as (row & Hr & _). cbn in Hr. apply lookup_lt_Some in Hr. lia. }
  split; cbn [idx_entries].
  - apply insert_entry_sorted; [apply Hi|done].
  - intros e [-> |Hin]%insert_entry_in.
    + eexists. cbn [fst snd]. by rewrite list_lookup_middle.
    + destruct (ix_rows _ _ Hi e Hin) as (row & Hr & E). exists row. split; [|done]. by apply lookup_app_l_Some.
Qed.

Lemma insert_chunk_ok r idx v seq chunk :
  rel_ok r idx -> no_row (rd_rows r) v seq ->
  exists r', insert_chunk r v seq chunk = Ok r' /\
    rel_ok r' (add_entry (v, seq, length (rd_rows r)) idx) /\ rd_id r' = rd_id r /\ att_storage r' = att_storage r /\
    rd_rows r' = rd_rows r ++ [mkRow v seq (fill_chunk (att_storage r) chunk) RowLive].
Proof.
  intros Hok Hno. unfold insert_chunk. rewrite (insert_ready_ok _ _ v seq _ (ro_indexes _ _ Hok) Hno). cbn [mbind result_bind].
  eexists. split; [done|]. split; [|done]. split; cbn [rd_indexes rd_rows].
  - apply first_valid_add, (ro_valid _ _ Hok).
  - unfold add_entry. by rewrite (ro_ready _ _ Hok).
  - intros tid row Hr. unfold add_entry. rewrite (ro_ready _ _ Hok). cbn [idx_entries]. apply insert_entry_in.
    destruct (decide (tid = length (rd_rows r))) as [-> |Hne].
    + left. rewrite list_lookup_middle in Hr by done. by injection Hr as <-.
    + right. apply (ro_complete _ _ Hok). rewrite lookup_app_l in Hr; [done|]. apply lookup_lt_Some in Hr. rewrite length_app in Hr. cbn in Hr. lia.
  - apply List.Forall_map. eapply Forall_impl; [apply (ro_indexes _ _ Hok)|]. intros i Hi Hri. cbn beta in *.
    assert (Hr : indisready i = true) by (unfold add_entry in Hri; destruct (indisready i) eqn:?; congruence).
    destruct (add_entry_ok _ i v seq (fill_chunk (att_storage r) chunk) RowLive (Hi Hr)) as [H|H]; [exact H|congruence].
Qed.

(** ** Chunks *)

Definition chunk_len : nat := Z.to_nat TOAST_MAX_CHUNK_SIZE.

Lemma chunk_len_eq : TOAST_MAX_CHUNK_SIZE = Z.of_nat chunk_len.
Proof. reflexivity. Qed.

Lemma chunk_len_bounds : (8 < chunk_len)%nat /\ Z.of_nat chunk_len + VARHDRSZ <= MaxAllocSize.
Proof. rewrite <- chunk_len_eq. split; [unfold chunk_len; vm_compute; lia|vm_compute; discriminate]. Qed.

#[global] Opaque chunk_len TOAST_MAX_CHUNK_SIZE.

Definition chunk (data : list Z) (i : nat) : list Z := take chunk_len (drop (i * chunk_len) data).
Definition nchunks (len : nat) : nat := (len + chunk_len - 1) / chunk_len.

Lemma chunk_length data i : (length (chunk data i) <= chunk_len)%nat.
Proof. unfold chunk. rewrite length_take. lia. Qed.

(** [n] chunks of the data are stored under the value id [v]. *)
Definition stores (r : ToastRelation) (idx : ToastIndex) (v : Z) (data : list Z) (n : nat) : Prop :=
  exists (tid : nat -> nat) (row : nat -> ToastRow),
    List.filter (fun e : Entry => e.1.1 =? v) (idx_entries idx) = map (fun i => (v, Z.of_nat i, tid i)) (seq 0 n) /\
    forall i, (i < n)%nat -> rd_rows r !! tid i = Some (row i) /\ chunk_seq (row i) = Z.of_nat i /\
      HeapTupleSatisfiesToast (row i) = true /\
      chunk_content (chunk_data (row i)) = Ok (Z.of_nat (length (chunk data i)), chunk data i).

(** A chunk is stored under a four-byte or a one-byte header. *)
Lemma fill_chunk_content st c :
  fits c -> chunk_content (fill_chunk st (plain c)) = Ok (Z.of_nat (length c), c).
Proof.
  intros Hfit. destruct (varlena_facts c (Z.of_nat (length c))) as (F & Es & Ed); [unfold fits, VARHDRSZ in *; lia|].
  fold (plain c) in F, Es, Ed. unfold fill_chunk.
  destruct (TYPE_IS_PACKABLE (-1) st && VARATT_CAN_MAKE_SHORT (plain c)) eqn:Ep.
  - apply andb_true_iff in Ep as [_ Ep]. unfold VARATT_CAN_MAKE_SHORT in Ep. apply andb_true_iff in Ep as [_ Ep]. zbool.
    unfold VARATT_CONVERTED_SHORT_SIZE in *. rewrite Es in *. unfold VARATT_SHORT_MAX, VARHDRSZ, VARHDRSZ_SHORT in *. rewrite Ed.
    replace (Z.of_nat (length c) + 4 - 4 + 1 - 1) with (Z.of_nat (length c)) by lia. rewrite bytes_at_all by done.
    replace (Z.of_nat (length c) + 4 - 4 + 1) with (Z.of_nat (length c) + 1) in * by lia. fold (short_form c).
    destruct (short_facts c ltac:(lia)) as (Fs & Ess). unfold chunk_content, VARATT_IS_EXTENDED, VARATT_IS_SHORT.
    rewrite (hf_plain _ _ _ _ _ Fs), (hf_short _ _ _ _ _ Fs), Ess. unfold VARHDRSZ_SHORT. cbn [negb]. do 2 f_equal. lia.
  - rewrite bytes_at_all; [|rewrite Es; unfold plain, varlena; rewrite length_app, length_le_bytes; unfold VARHDRSZ; lia].
    unfold chunk_content, VARATT_IS_EXTENDED. rewrite (hf_plain _ _ _ _ _ F), Es, Ed. cbn [negb]. do 2 f_equal. lia.
Qed.

(** ** Storing a value *)

(** What saving chunks of the value [v] does to a table. *)
Record extends (v : Z) (r : ToastRelation) (idx : ToastIndex) (r' : ToastRelation) (idx' : ToastIndex) : Prop := {
  ex_id : rd_id r' = rd_id r;
  ex_storage : att_storage r' = att_storage r;
  ex_rows : exists new, rd_rows r' = rd_rows r ++ new /\ Forall (fun row => chunk_id row = v /\ row_state row = RowLive) new;
  ex_entries : forall P : Entry -> bool, (forall e, e.1.1 = v -> P e = false) -> List.filter P (idx_entries idx') = List.filter P (idx_entries idx)
}.

Lemma ex_scan v r idx r' idx' : extends v r idx r' idx' ->
  forall keys, (forall seq, keys v seq = false) -> index_scan idx' keys = index_scan idx keys.
Proof. intros H keys Hk. unfold index_scan. rewrite (ex_entries _ _ _ _ _ H); [done|]. intros e ->. apply Hk. Qed.

Lemma extends_refl v r idx : extends v r idx r idx.
Proof. split; try done. exists []. by rewrite app_nil_r. Qed.

Lemma extends_trans v r idx r1 idx1 r2 idx2 : extends v r idx r1 idx1 -> extends v r1 idx1 r2 idx2 -> extends v r idx r2 idx2.
Proof.
  intros [A1 A2 (n1 & A3 & A4) A5] [B1 B2 (n2 & B3 & B4) B5]. split; [congruence|congruence| |].
  - exists (n1 ++ n2). rewrite B3, A3, app_assoc. split; [done|by apply Forall_app_2].
  - intros P HP. by rewrite B5, A5.
Qed.

(** The rows of the value are the first [j] chunks. *)
Definition only_below (rows : list ToastRow) (v : Z) (j : nat) : Prop :=
  forall tid row, rows !! tid = Some row -> chunk_id row = v -> chunk_seq row < Z.of_nat j.

Lemma insert_chunk_stores r idx v data j :
  rel_ok r idx -> stores r idx v data j -> only_below (rd_rows r) v j ->
  exists r' idx', insert_chunk r v (Z.of_nat j) (plain (chunk data j)) = Ok r' /\
    rel_ok r' idx' /\ stores r' idx' v data (S j) /\ only_below (rd_rows r') v (S j) /\ extends v r idx r' idx'.
Proof.
  intros Hok (tid & row & Hf & Hrows) Hb.
  destruct (insert_chunk_ok r idx v (Z.of_nat j) (plain (chunk data j)) Hok) as (r' & E & Hok' & Hid & Hst & Hr').
  { intros t x Hx E1 E2. pose proof (Hb t x Hx E1). lia. }
  set (e := (v, Z.of_nat j, length (rd_rows r))) in *. set (idx' := add_entry e idx) in *. set (new := mkRow _ _ _ _) in Hr'.
  assert (Hent : idx_entries idx' = insert_entry e (idx_entries idx)) by (unfold idx', add_entry; by rewrite (ro_ready _ _ Hok)).
  pose proof (ix_sorted _ _ (rel_valid_ok _ _ Hok)) as Hsort.
  exists r', idx'. split_and!; [done|done| | |].
  - exists (fun i => if decide (i = j) then length (rd_rows r) else tid i), (fun i => if decide (i = j) then new else row i). split.
    + rewrite Hent, (filter_insert (fun e : Entry => e.1.1 =? v)) by done. cbn [e fst snd]. rewrite Z.eqb_refl, Hf.
      rewrite seq_S, map_app. cbn [map Nat.add]. rewrite decide_True by done. rewrite insert_entry_end.
      * f_equal. apply map_ext_in. intros i Hi%in_seq. by rewrite decide_False by lia.
      * apply List.Forall_map, List.Forall_forall. intros i Hi%in_seq. apply not_true_iff_false. rewrite entry_lt_spec. cbn. lia.
    + intros i Hi. destruct (decide (i = j)) as [-> |Hne].
      * rewrite Hr', list_lookup_middle by done. split_and!; [done|done|done|]. apply fill_chunk_content.
        pose proof (chunk_length data j). pose proof chunk_len_bounds. unfold fits. lia.
      * destruct (Hrows i ltac:(lia)) as (H1 & H2 & H3 & H4). rewrite Hr'. split_and!; try done. by apply lookup_app_l_Some.
  - intros t x Hx E1. rewrite Hr' in Hx. apply lookup_app_Some in Hx as [Hx|[_ Hx]].
    + pose proof (Hb t x Hx E1). lia.
    + apply list_lookup_singleton_Some in Hx as [_ <-]. cbn. lia.
  - split; [done|done|exists [new]; split; [done|by repeat constructor]|]. intros P HP.
    rewrite Hent, filter_insert by done. by rewrite HP.
Qed.

Lemma save_chunks_ok fuel r idx v data j :
  rel_ok r idx -> stores r idx v data j -> only_below (rd_rows r) v j -> (j <= nchunks (length data))%nat ->
  (nchunks (length data) < j + fuel)%nat ->
  exists r' idx', save_chunks fuel r v (Z.of_nat j) (Z.of_nat (length data) - Z.of_nat (j * chunk_len)) (drop (j * chunk_len) data) = Ok r' /\
    rel_ok r' idx' /\ stores r' idx' v data (nchunks (length data)) /\ extends v r idx r' idx'.
Proof.
  pose proof chunk_len_bounds as [HC _].
  revert r idx j. induction fuel as [|fuel IH]; intros r idx j Hok Hst Hb Hj Hf; [lia|]. cbn [save_chunks].
  assert (Hdiv : (j < nchunks (length data) <-> j * chunk_len < length data)%nat).
  { unfold nchunks. pose proof (Nat.div_mod (length data + chunk_len - 1) chunk_len ltac:(lia)).
    pose proof (Nat.mod_upper_bound (length data + chunk_len - 1) chunk_len ltac:(lia)). nia. }
  destruct (Z.gtb_spec (Z.of_nat (length data) - Z.of_nat (j * chunk_len)) 0) as [Hgt|Hle].
  2: { exists r, idx. assert (j = nchunks (length data)) as -> by lia. split_and!; [done|done|done|apply extends_refl]. }
  set (size := Z.min _ _).
  assert (Hsize : size = Z.of_nat (length (chunk data j))).
  { unfold size, chunk. rewrite length_take, length_drop, chunk_len_eq. lia. }
  assert (Hbytes : bytes_at (drop (j * chunk_len) data) 0 size = chunk data j).
  { rewrite Hsize. unfold bytes_at, chunk. rewrite Nat2Z.id. change (Z.to_nat 0) with 0%nat. rewrite drop_0, length_take, length_drop.
    destruct (Nat.le_gt_cases chunk_len (length data - j * chunk_len)); [by rewrite Nat.min_l by lia|].
    rewrite Nat.min_r by lia. rewrite !take_ge; [done|rewrite length_drop; lia|rewrite length_drop; lia]. }
  rewrite Hbytes, Hsize. fold (plain (chunk data j)).
  destruct (insert_chunk_stores r idx v data j Hok Hst Hb) as (r1 & idx1 & -> & Hok1 & Hst1 & Hb1 & Hx1). cbn [mbind result_bind].
  destruct (IH r1 idx1 (S j) Hok1 Hst1 Hb1 ltac:(lia) ltac:(lia)) as (r2 & idx2 & E2 & Hok2 & Hst2 & Hx2).
  exists r2, idx2. split_and!; [|done|done|by eapply extends_trans]. rewrite Nat2Z.id.
  assert (Hlen : length (chunk data j) = Nat.min chunk_len (length data - j * chunk_len)) by (unfold chunk; by rewrite length_take, length_drop).
  replace (Z.of_nat j + 1) with (Z.of_nat (S j)) by lia. rewrite drop_drop.
  destruct (Nat.le_gt_cases chunk_len (length data - j * chunk_len)) as [Hfull|Hlast].
  - rewrite Hlen, Nat.min_l by lia. rewrite <- E2. f_equal; [lia|f_equal; lia].
  - assert (HS : (S j = nchunks (length data))%nat).
    { unfold nchunks in *. pose proof (Nat.div_mod (length data + chunk_len - 1) chunk_len ltac:(lia)).
      pose proof (Nat.mod_upper_bound (length data + chunk_len - 1) chunk_len ltac:(lia)). nia. }
    assert (Hend : forall f x d y, x <= 0 -> save_chunks (S f) r1 v y x d = Ok r1)
      by (intros f x d y Hx; cbn [save_chunks]; destruct (Z.gtb_spec x 0); [lia|done]).
    destruct fuel as [|fuel]; [lia|]. rewrite Hend in E2 by lia. injection E2 as <-. apply Hend. lia.
Qed.

(** ** Fetching a slice *)

Lemma filter_andb {A} (f g : A -> bool) l : List.filter (fun x => f x && g x) l = List.filter g (List.filter f l).
Proof. induction l as [|a l IH]; cbn; [done|]. destruct (f a); cbn; by rewrite IH. Qed.

Lemma filter_map {A B} (f : A -> B) (P : B -> bool) l : List.filter P (map f l) = map f (List.filter (fun x => P (f x)) l).
Proof. induction l as [|a l IH]; cbn; [done|]. destruct (P (f a)); cbn; by rewrite IH. Qed.

Lemma filter_none {A} (P : A -> bool) l : (forall x, In x l -> P x = false) -> List.filter P l = [].
Proof. induction l as [|a l IH]; intros H; cbn; [done|]. rewrite (H a) by (by left). apply IH. intros x Hx. apply H. by right. Qed.

Lemma filter_all {A} (P : A -> bool) l : (forall x, In x l -> P x = true) -> List.filter P l = l.
Proof. induction l as [|a l IH]; intros H; cbn; [done|]. rewrite (H a) by (by left). f_equal. apply IH. intros x Hx. apply H. by right. Qed.

(** The numbers of an interval. *)
Lemma filter_seq (P : nat -> bool) (s k n : nat) :
  (s + k <= n)%nat -> (forall i, (i < n)%nat -> P i = true <-> (s <= i < s + k)%nat) -> List.filter P (seq 0 n) = seq s k.
Proof.
  intros Hn HP. replace n with (s + (k + (n - (s + k))))%nat at 1 by lia. rewrite !seq_app, !List.filter_app. cbn [Nat.add].
  rewrite (filter_none P (seq 0 s)), (filter_all P (seq s k)), (filter_none P (seq (s + k) _)), app_nil_r; [done| | |];
    intros i Hi%in_seq; [apply not_true_iff_false|apply HP; lia|apply not_true_iff_false]; rewrite HP by lia; lia.
Qed.

Lemma systable_scan_stores r idx v data n (K : Z -> bool) (s k : nat) :
  stores r idx v data n -> (s + k <= n)%nat -> (forall i, (i < n)%nat -> K (Z.of_nat i) = true <-> (s <= i < s + k)%nat) ->
  exists tid row, systable_scan r idx (fun id seq => (id =? v) && K seq) = map (fun i => (tid i, row i)) (seq s k) /\
    forall i, (s <= i < s + k)%nat -> chunk_seq (row i) = Z.of_nat i /\
      chunk_content (chunk_data (row i)) = Ok (Z.of_nat (length (chunk data i)), chunk data i).
Proof.
  intros (tid & row & Hf & Hrows) Hsk HK. exists tid, row. split; [|intros i Hi; by destruct (Hrows i ltac:(lia)) as (_ & ? & _ & ?)].
  unfold systable_scan, index_scan. rewrite (filter_andb (fun e : Entry => e.1.1 =? v) (fun e : Entry => K e.1.2)), Hf, filter_map.
  cbn [fst snd]. rewrite (filter_seq _ s k n) by done. rewrite map_map. cbn [snd].
  assert (Hall : forall i, In i (seq s k) -> rd_rows r !! tid i = Some (row i) /\ HeapTupleSatisfiesToast (row i) = true).
  { intros i Hi%in_seq. destruct (Hrows i ltac:(lia)) as (? & _ & ? & _). done. }
  induction (seq s k) as [|i l IH]; [done|]. cbn [map omap list_omap]. destruct (Hall i ltac:(by left)) as [-> ->].
  f_equal. apply IH. intros x Hx. apply Hall. by right.
Qed.

Lemma bytes_at_chunk data (cur : nat) (a n : nat) :
  (a + n <= chunk_len)%nat -> bytes_at (chunk data cur) (Z.of_nat a) (Z.of_nat n) = take n (drop (cur * chunk_len + a) data).
Proof.
  intros H. unfold bytes_at, chunk. rewrite !Nat2Z.id, skipn_firstn_comm, take_take, drop_drop, Nat.min_l by lia. done.
Qed.

Lemma take_extend_drop (l : list Z) p n : take p l ++ take n (drop p l) = take (p + n) l.
Proof. by rewrite take_take_drop. Qed.

(** [buf] holds the first [p] bytes of the slice. *)
Definition filled (sl : list Z) (p : nat) : list Z := take p sl ++ replicate (length sl - p) 0.

Lemma fill_next sl p bs :
  (p <= length sl)%nat -> bs = take (length bs) (drop p sl) -> (p + length bs <= length sl)%nat ->
  buf_write 0 (filled sl p) (Z.of_nat p) bs = Ok (filled sl (p + length bs)).
Proof.
  intros Hp Hbs Hlen. unfold filled. assert (Hl : length (take p sl) = p) by (rewrite length_take; lia).
  rewrite buf_write_zeros by (rewrite Hl; lia). rewrite Hl. f_equal. rewrite <- (take_extend_drop sl p (length bs)), <- Hbs, <- app_assoc.
  replace (Z.to_nat (Z.of_nat p - 0)) with p by lia. rewrite Nat.sub_diag. cbn [replicate app]. do 3 f_equal. lia.
Qed.

Lemma quot_nat (a : nat) : Z.of_nat a ÷ TOAST_MAX_CHUNK_SIZE = Z.of_nat (a / chunk_len).
Proof. pose proof chunk_len_bounds. rewrite chunk_len_eq, Z.quot_div_nonneg by lia. by rewrite Nat2Z.inj_div. Qed.

Lemma rem_nat (a : nat) : Z.rem (Z.of_nat a) TOAST_MAX_CHUNK_SIZE = Z.of_nat (a mod chunk_len).
Proof. pose proof chunk_len_bounds. rewrite chunk_len_eq, Z.rem_mod_nonneg by lia. by rewrite Nat2Z.inj_mod. Qed.

(** The number of slice bytes before the chunk [i], and the part of the chunk
    that belongs to the slice. *)
Definition slice_pos (off len i : nat) : nat :=
  if decide (i = (off / chunk_len)%nat) then 0%nat else Nat.min len (i * chunk_len - off).
Definition slice_from (off i : nat) : nat := if decide (i = (off / chunk_len)%nat) then (off mod chunk_len)%nat else 0%nat.
Definition slice_upto (off len i : nat) : nat :=
  if decide (i = ((off + len - 1) / chunk_len)%nat) then ((off + len - 1) mod chunk_len + 1)%nat else chunk_len.

Section FetchOk.
Context (data : list Z) (off len : nat) (tid : nat -> nat) (row : nat -> ToastRow).
Hypothesis Hlen : (0 < len)%nat.
Hypothesis Hin : (off + len <= length data)%nat.

Let s := (off / chunk_len)%nat.
Let e := ((off + len - 1) / chunk_len)%nat.
Let sl := take len (drop off data).

Hypothesis Hrow : forall i, (s <= i < s + (e + 1 - s))%nat -> chunk_seq (row i) = Z.of_nat i /\
  chunk_content (chunk_data (row i)) = Ok (Z.of_nat (length (chunk data i)), chunk data i).

Let pos := slice_pos off len.
Let from := slice_from off.
Let upto := slice_upto off len.

Lemma slice_length : length sl = len.
Proof. unfold sl. rewrite length_take, length_drop. lia. Qed.

Lemma chunk_arith : exists q q', off = (s * chunk_len + q)%nat /\ (q < chunk_len)%nat /\
  (off + len - 1 = e * chunk_len + q')%nat /\ (q' < chunk_len)%nat /\ (s <= e)%nat.
Proof.
  pose proof chunk_len_bounds as [HC _]. exists (off mod chunk_len)%nat, ((off + len - 1) mod chunk_len)%nat.
  pose proof (Nat.div_mod off chunk_len ltac:(lia)). pose proof (Nat.div_mod (off + len - 1) chunk_len ltac:(lia)).
  pose proof (Nat.mod_upper_bound off chunk_len ltac:(lia)). pose proof (Nat.mod_upper_bound (off + len - 1) chunk_len ltac:(lia)).
  assert (s <= e)%nat by (apply Nat.Div0.div_le_mono; lia). unfold s, e in *. split_and!; lia.
Qed.

Lemma copy_chunk i :
  (s <= i <= e)%nat ->
  (from i <= upto i)%nat /\ (upto i <= length (chunk data i))%nat /\ (i < e -> length (chunk data i) = chunk_len)%nat /\
  (off + pos i = i * chunk_len + from i)%nat /\ pos (S i) = (pos i + (upto i - from i))%nat /\ (pos (S i) <= len)%nat.
Proof.
  intros Hi. pose proof chunk_len_bounds as [HC _]. destruct chunk_arith as (q & q' & Eq & Hq & Eq' & Hq' & Hse).
  assert (Eoff : (off mod chunk_len = q)%nat) by (symmetry; apply (Nat.mod_unique _ _ s); lia).
  assert (Eend : ((off + len - 1) mod chunk_len = q')%nat) by (symmetry; apply (Nat.mod_unique _ _ e); lia).
  assert (Hcl : length (chunk data i) = Nat.min chunk_len (length data - i * chunk_len)) by (unfold chunk; by rewrite length_take, length_drop).
  unfold from, upto, pos, slice_from, slice_upto, slice_pos. fold s e. rewrite Eoff, Eend, Hcl.
  clear Hcl Eoff Eend Hrow pos from upto. clearbody s e.
  destruct (decide (i = s)) as [Es|Hns], (decide (i = e)) as [Ee|Hne], (decide (S i = s)) as [|_]; try lia.
  - subst i. assert ((s + 1) * chunk_len <= e * chunk_len)%nat by nia. split_and!; nia.
  - subst i. assert ((s + 1) * chunk_len <= e * chunk_len)%nat by nia. split_and!; nia.
  - assert ((s + 1) * chunk_len <= i * chunk_len)%nat by nia. assert ((i + 1) * chunk_len <= e * chunk_len)%nat by nia. split_and!; nia.
Qed.

Lemma expected_chunk_size i :
  (i < nchunks (length data))%nat ->
  (if Z.of_nat i <? Z.of_nat (nchunks (length data)) - 1 then TOAST_MAX_CHUNK_SIZE
   else Z.of_nat (length data) - (Z.of_nat (nchunks (length data)) - 1) * TOAST_MAX_CHUNK_SIZE) = Z.of_nat (length (chunk data i)).
Proof.
  intros Hi. pose proof chunk_len_bounds as [HC _]. rewrite chunk_len_eq.
  assert (Hcl : length (chunk data i) = Nat.min chunk_len (length data - i * chunk_len)) by (unfold chunk; by rewrite length_take, length_drop).
  rewrite Hcl. clear Hcl Hrow. unfold nchunks in *.
  pose proof (Nat.div_mod (length data + chunk_len - 1) chunk_len ltac:(lia)).
  pose proof (Nat.mod_upper_bound (length data + chunk_len - 1) chunk_len ltac:(lia)).
  generalize dependent ((length data + chunk_len - 1) / chunk_len)%nat. intros n Hi Hn.
  destruct (Z.ltb_spec (Z.of_nat i) (Z.of_nat n - 1)).
  - assert ((i + 2) * chunk_len <= n * chunk_len)%nat by nia. nia.
  - assert (n = S i) as -> by lia. nia.
Qed.

Lemma end_chunk : (e < nchunks (length data))%nat.
Proof.
  pose proof chunk_len_bounds as [HC _]. unfold e, nchunks.
  replace (length data + chunk_len - 1)%nat with (length data - 1 + 1 * chunk_len)%nat by lia. rewrite Nat.div_add by lia.
  pose proof (Nat.Div0.div_le_mono (off + len - 1) (length data - 1) chunk_len ltac:(lia)). lia.
Qed.

Lemma fetch_chunks_ok k i :
  (s <= i)%nat -> (i + k = e + 1)%nat ->
  fetch_chunks (Z.of_nat (length data)) (Z.of_nat off) (Z.of_nat len) (Z.of_nat (nchunks (length data))) (Z.of_nat s) (Z.of_nat e)
    (map (fun i => (tid i, row i)) (seq i k)) (Z.of_nat i) (filled sl (pos i)) = Ok (Z.of_nat e + 1, filled sl (pos (e + 1))).
Proof.
  revert i. induction k as [|k IH]; intros i Hi Hk; cbn [seq map fetch_chunks].
  { replace i with (e + 1)%nat by lia. do 2 f_equal. lia. }
  destruct (Hrow i ltac:(lia)) as [-> ->]. cbn [mbind result_bind].
  destruct (copy_chunk i ltac:(lia)) as (Hfu & Hul & Hfull & Hoff & Hnext & Hle). pose proof end_chunk.
  rewrite Z.eqb_refl. cbn [negb]. destruct (Z.gtb_spec (Z.of_nat i) (Z.of_nat e)); [lia|].
  rewrite expected_chunk_size, Z.eqb_refl by lia. cbn [negb].
  assert (Hstrt : (if Z.of_nat i =? Z.of_nat s then Z.rem (Z.of_nat off) TOAST_MAX_CHUNK_SIZE else 0) = Z.of_nat (from i)).
  { unfold from, slice_from. rewrite rem_nat. fold s. by destruct (Z.eqb_spec (Z.of_nat i) (Z.of_nat s)), (decide (i = s)); try lia. }
  assert (Hend : (if Z.of_nat i =? Z.of_nat e then Z.rem (Z.of_nat off + Z.of_nat len - 1) TOAST_MAX_CHUNK_SIZE
                  else Z.of_nat (length (chunk data i)) - 1) = Z.of_nat (upto i) - 1).
  { replace (Z.of_nat off + Z.of_nat len - 1) with (Z.of_nat (off + len - 1)) by lia. unfold upto, slice_upto. rewrite rem_nat. fold e.
    destruct (Z.eqb_spec (Z.of_nat i) (Z.of_nat e)), (decide (i = e)); lia. }
  rewrite Hstrt, Hend. replace (Z.of_nat (upto i) - 1 - Z.of_nat (from i) + 1) with (Z.of_nat (upto i - from i)) by lia.
  replace (Z.of_nat i * TOAST_MAX_CHUNK_SIZE - Z.of_nat off + Z.of_nat (from i)) with (Z.of_nat (pos i)) by (rewrite chunk_len_eq; lia).
  unfold memcpy_at. destruct (Z.ltb_spec (Z.of_nat (upto i - from i)) 0); [lia|]. destruct (Z.ltb_spec (Z.of_nat (from i)) 0); [lia|].
  destruct (Z.ltb_spec (Z.of_nat (length (chunk data i))) (Z.of_nat (from i) + Z.of_nat (upto i - from i))); [lia|]. cbn [orb].
  pose proof (chunk_length data i). rewrite bytes_at_chunk by lia. rewrite <- Hoff, <- drop_drop.
  assert (Hbs : take (upto i - from i) (drop (pos i) (drop off data)) = take (upto i - from i) (drop (pos i) sl)).
  { unfold sl. rewrite skipn_firstn_comm, take_take, Nat.min_l by lia. done. }
  assert (Hbl : length (take (upto i - from i) (drop (pos i) sl)) = (upto i - from i)%nat)
    by (rewrite length_take, length_drop, slice_length; lia).
  rewrite Hbs, fill_next by (rewrite ?Hbl, ?slice_length; (done || lia)). cbn [mbind result_bind]. rewrite Hbl, <- Hnext.
  replace (Z.of_nat i + 1) with (Z.of_nat (S i)) by lia. apply IH; lia.
Qed.

Lemma fetch_all : pos s = 0%nat /\ pos (e + 1) = len.
Proof.
  destruct chunk_arith as (q & q' & Eq & Hq & Eq' & Hq' & Hse). unfold pos, slice_pos. rewrite decide_True by done. split; [done|].
  rewrite decide_False by lia. assert (off + len <= (e + 1) * chunk_len)%nat by nia. lia.
Qed.

End FetchOk.

(** The scan keys of a slice. *)
Lemma fetch_ok w r idx v data (off len : nat) :
  rel_ok r idx -> stores r idx v data (nchunks (length data)) -> active_snapshot w = true ->
  (0 < len)%nat -> (off + len <= length data)%nat ->
  heap_fetch_toast_slice w r v (Z.of_nat (length data)) (Z.of_nat off) (Z.of_nat len) (replicate len 0) = Ok (take len (drop off data)).
Proof.
  intros Hok Hst Hsnap Hlen Hin. unfold heap_fetch_toast_slice, toast_open_indexes. rewrite (ro_valid _ _ Hok). cbn [mbind result_bind].
  unfold init_toast_snapshot. rewrite Hsnap. cbn [mbind result_bind]. pose proof chunk_len_bounds as [HC _].
  set (s := (off / chunk_len)%nat). set (e := ((off + len - 1) / chunk_len)%nat). set (n := nchunks (length data)).
  replace (Z.of_nat off + Z.of_nat len - 1) with (Z.of_nat (off + len - 1)) by lia.
  replace (Z.of_nat (length data) - 1) with (Z.of_nat (length data - 1)) by lia. rewrite !quot_nat. fold s e.
  assert (Hn : Z.of_nat ((length data - 1) / chunk_len) + 1 = Z.of_nat n).
  { unfold n, nchunks. replace (length data + chunk_len - 1)%nat with (length data - 1 + 1 * chunk_len)%nat by lia. rewrite Nat.div_add; lia. }
  rewrite Hn. pose proof (end_chunk data off len Hlen Hin) as He. fold e n in He.
  destruct (chunk_arith data off len Hlen Hin) as (q & q' & _ & _ & _ & _ & Hse). fold s e in Hse.
  set (K := fun seq : Z => if (Z.of_nat s =? 0) && (Z.of_nat e =? Z.of_nat n - 1) then true
                           else if Z.of_nat s =? Z.of_nat e then seq =? Z.of_nat s else (Z.of_nat s <=? seq) && (seq <=? Z.of_nat e)).
  destruct (systable_scan_stores r idx v data n K s (e + 1 - s) Hst) as (tid & row & Escan & Hrow); [lia| |].
  { intros i Hi. unfold K. destruct (_ && _) eqn:E1; zbool; [split; [intros _; lia|done]|].
    destruct (Z.eqb_spec (Z.of_nat s) (Z.of_nat e)); [rewrite Z.eqb_eq; lia|]. rewrite andb_true_iff, !Z.leb_le. lia. }
  change (fun id seq => (id =? v) && _) with (fun id seq : Z => (id =? v) && K seq). rewrite Escan.
  destruct (fetch_all data off len Hlen Hin) as [Ep0 Ep1]. fold s e in Ep0, Ep1.
  pose proof (slice_length data off len Hlen Hin) as Hsl.
  pose proof (fetch_chunks_ok data off len tid row Hlen Hin Hrow (e + 1 - s) s (le_n s) ltac:(fold e; lia)) as Hfetch. fold s e n in Hfetch.
  rewrite Ep0, Ep1 in Hfetch. unfold filled in Hfetch. rewrite Hsl, Nat.sub_diag, Nat.sub_0_r, take_0 in Hfetch. cbn [app replicate] in Hfetch.
  rewrite Hfetch. cbn [mbind result_bind]. rewrite Z.eqb_refl. cbn [negb]. by rewrite app_nil_r, take_ge by lia.
Qed.
