(* ===== verification/ToastStore.v ===== *)
(** * Storing and deleting values out of line

    Choosing a value id, [toast_save_datum], reading the value back in full or
    in slices, what stays as it was, and [toast_delete_datum]. *)

From stdpp Require Import gmap.
From Stdlib Require Import Sorting.Sorted FinFun.
From S2P Require Import Prelude Varlena PgLz PgLzTheorems Toast ToastInline ToastTable.

(** ** Value ids *)

(** The number of OIDs that are handed out in normal operation. *)
Definition oid_count : Z := 2 ^ 32 - FirstNormalObjectId.

(** The OID that is handed out [k] calls later. *)
Definition nth_oid (next : Z) (k : nat) : Z :=
  FirstNormalObjectId + ((GetNewObjectId next).1 - FirstNormalObjectId + Z.of_nat k) mod oid_count.

Lemma GetNewObjectId_range next : in_uint 32 next ->
  FirstNormalObjectId <= (GetNewObjectId next).1 < 2 ^ 32 /\ in_uint 32 (GetNewObjectId next).2.
Proof.
  unfold in_uint, FirstNormalObjectId. intros H. unfold GetNewObjectId, FirstNormalObjectId. split; [|apply Z.mod_pos_bound; lia].
  cbn [fst]. destruct (Z.ltb_spec next 16384); lia.
Qed.

Lemma nth_oid_0 next : in_uint 32 next -> nth_oid next 0 = (GetNewObjectId next).1.
Proof.
  intros H. pose proof (GetNewObjectId_range next H) as [Hr _]. unfold nth_oid. rewrite Z.mod_small; [lia|].
  unfold oid_count, FirstNormalObjectId in *. lia.
Qed.

Lemma nth_oid_S next k : in_uint 32 next -> nth_oid (GetNewObjectId next).2 k = nth_oid next (S k).
Proof.
  intros H. pose proof (GetNewObjectId_range next H) as [Hr _]. unfold nth_oid. f_equal.
  set (a := (GetNewObjectId next).1) in *. change (GetNewObjectId next).2 with (uwrap 32 (a + 1)).
  assert (E : (GetNewObjectId (uwrap 32 (a + 1))).1 = if a =? 2 ^ 32 - 1 then FirstNormalObjectId else a + 1).
  { unfold GetNewObjectId, FirstNormalObjectId, uwrap in *. cbn [fst]. destruct (Z.eqb_spec a (2 ^ 32 - 1)) as [-> |Hne]; [done|].
    rewrite Z.mod_small by lia. destruct (Z.ltb_spec (a + 1) 16384); lia. }
  rewrite E. destruct (Z.eqb_spec a (2 ^ 32 - 1)) as [-> |Hne]; [|f_equal; lia].
  replace (2 ^ 32 - 1 - FirstNormalObjectId + Z.of_nat (S k)) with (FirstNormalObjectId - FirstNormalObjectId + Z.of_nat k + 1 * oid_count)
    by (unfold oid_count; lia). rewrite Z.mod_add; [done|done].
Qed.

Lemma nth_oid_inj next j k : Z.of_nat j < oid_count -> Z.of_nat k < oid_count -> nth_oid next j = nth_oid next k -> j = k.
Proof.
  unfold nth_oid. intros Hj Hk E%Z.add_cancel_l. assert (HM : 0 < oid_count) by done.
  revert Hj Hk HM E. generalize oid_count. generalize ((GetNewObjectId next).1 - FirstNormalObjectId). intros x M Hj Hk HM E.
  pose proof (Z.div_mod (x + Z.of_nat j) M ltac:(lia)) as Ej. pose proof (Z.div_mod (x + Z.of_nat k) M ltac:(lia)) as Ek.
  rewrite E in Ej. assert ((x + Z.of_nat j) / M = (x + Z.of_nat k) / M) as Eq by nia. rewrite Eq in Ej. lia.
Qed.

Lemma valueid_in_index_spec idx v : valueid_in_index idx v = true <-> In v (map (fun e : Entry => e.1.1) (idx_entries idx)).
Proof.
  unfold valueid_in_index, index_scan. rewrite negb_true_iff, Nat.eqb_neq, length_map, in_map_iff. split.
  - destruct (List.filter _ _) as [|e l] eqn:E; [done|]. intros _. exists e.
    assert (Hin : In e (e :: l)) by (by left). rewrite <- E in Hin. apply filter_In in Hin as [? ?%Z.eqb_eq]. done.
  - intros (e & E & Hin). assert (Hf : In e (List.filter (fun e : Entry => e.1.1 =? v) (idx_entries idx)))
      by (apply filter_In; split; [done|by apply Z.eqb_eq]). by destruct (List.filter _ _).
Qed.

Lemma new_oid_loop_ok fuel idx next j :
  in_uint 32 next -> (j < fuel)%nat -> valueid_in_index idx (nth_oid next j) = false ->
  exists v n, new_oid_loop fuel idx next = Ok (v, n) /\ valueid_in_index idx v = false /\ FirstNormalObjectId <= v < 2 ^ 32 /\ in_uint 32 n.
Proof.
  revert next j. induction fuel as [|fuel IH]; intros next j Hn Hj Hfree; [lia|]. cbn [new_oid_loop].
  destruct (GetNewObjectId_range next Hn) as [Hr Hn']. rewrite (surjective_pairing (GetNewObjectId next)).
  destruct (valueid_in_index idx (GetNewObjectId next).1) eqn:E; [|by eexists _, _].
  destruct j as [|j]; [rewrite nth_oid_0 in Hfree by done; congruence|].
  apply (IH (GetNewObjectId next).2 j); [done|lia|]. by rewrite nth_oid_S.
Qed.

(** There is a free OID among the first ones, since they are distinct. *)
Lemma GetNewOidWithIndex_ok idx next :
  in_uint 32 next -> Z.of_nat (length (idx_entries idx)) < oid_count ->
  exists v n, GetNewOidWithIndex idx next = Ok (v, n) /\ valueid_in_index idx v = false /\ FirstNormalObjectId <= v < 2 ^ 32 /\ in_uint 32 n.
Proof.
  intros Hn Hlen. unfold GetNewOidWithIndex. set (m := length (idx_entries idx)) in *.
  destruct (existsb (fun j => negb (valueid_in_index idx (nth_oid next j))) (seq 0 (S m))) eqn:E.
  - apply existsb_exists in E as (j & Hj%in_seq & Hfree%negb_true_iff). apply (new_oid_loop_ok _ idx next j); [done|lia|done].
  - exfalso. assert (Hnd : List.NoDup (map (nth_oid next) (seq 0 (S m)))).
    { apply Injective_map_NoDup_in; [|apply seq_NoDup]. intros x y Hx%in_seq Hy%in_seq. apply nth_oid_inj; lia. }
    apply (List.NoDup_incl_length (l' := map (fun e : Entry => e.1.1) (idx_entries idx))) in Hnd.
    + rewrite !length_map, length_seq in Hnd. fold m in Hnd. lia.
    + intros v (j & <- & Hj)%in_map_iff. apply valueid_in_index_spec. apply not_false_iff_true. intros Hf.
      assert (Ht : existsb (fun j => negb (valueid_in_index idx (nth_oid next j))) (seq 0 (S m)) = true)
        by (apply existsb_exists; exists j; split; [done|by rewrite Hf]). congruence.
Qed.

(** ** TOAST pointers *)

Definition pointer_ok (tp : varatt_external) : Prop :=
  0 <= va_rawsize tp <= MaxAllocSize /\ 0 <= va_extsize tp /\ va_extsize tp + VARHDRSZ <= MaxAllocSize /\
  in_uint 32 (va_valueid tp) /\ in_uint 32 (va_toastrelid tp).

Lemma toast_pointer_facts tp :
  pointer_ok tp ->
  VARATT_IS_EXTERNAL_ONDISK (toast_pointer_datum tp) = true /\ VARATT_IS_EXTERNAL_INDIRECT (toast_pointer_datum tp) = false /\
  VARATT_EXTERNAL_GET_POINTER (toast_pointer_datum tp) = tp.
Proof.
  intros (Hr & He1 & He2 & Hv & Ht). split_and!; [done|done|]. unfold VARATT_EXTERNAL_GET_POINTER, VARDATA_EXTERNAL.
  change (drop 2 (toast_pointer_datum tp)) with (le_bytes 4 (va_rawsize tp) ++ le_bytes 4 (va_extsize tp) ++
    le_bytes 4 (va_valueid tp) ++ le_bytes 4 (va_toastrelid tp)).
  assert (Hval : forall x, in_uint 32 x -> le_value (le_bytes 4 x) = x)
    by (intros x Hx; rewrite le_value_bytes; by apply Z.mod_small).
  set (a := le_bytes 4 (va_rawsize tp)). set (b := le_bytes 4 (va_extsize tp)). set (c := le_bytes 4 (va_valueid tp)).
  set (d := le_bytes 4 (va_toastrelid tp)).
  assert (E0 : bytes_at (a ++ b ++ c ++ d) 0 4 = a) by done. assert (E4 : bytes_at (a ++ b ++ c ++ d) 4 4 = b) by done.
  assert (E8 : bytes_at (a ++ b ++ c ++ d) 8 4 = c) by done. assert (E12 : bytes_at (a ++ b ++ c ++ d) 12 4 = d) by done.
  unfold int32_at, uint32_at. rewrite E0, E4, E8, E12. unfold MaxAllocSize, VARHDRSZ in *.
  unfold a, b, c, d. rewrite !Hval by (done || unfold in_uint; lia). rewrite !swrap32_small by (unfold MaxAllocSize; lia). by destruct tp.
Qed.

(** A value [d] that is stored out of line, with a pointer to it. *)
Record stored_value (w : World) (tp : varatt_external) (d : list Z) : Prop := {
  sv_pointer : pointer_ok tp;
  sv_size : va_extsize tp = Z.of_nat (length d);
  sv_snapshot : active_snapshot w = true;
  sv_table : exists r idx, toast_rels w !! va_toastrelid tp = Some r /\ rel_ok r idx /\
    stores r idx (va_valueid tp) d (nchunks (length d))
}.

Section StoredValue.
Context (w : World) (tp : varatt_external) (d : list Z) (Hsv : stored_value w tp d).

(** Any part of it can be fetched. *)
Lemma fetch_part (off len : nat) :
  (0 < len)%nat -> (off + len <= length d)%nat ->
  (toastrel ← table_open w (va_toastrelid tp);
   heap_fetch_toast_slice w toastrel (va_valueid tp) (va_extsize tp) (Z.of_nat off) (Z.of_nat len) (replicate len 0)) =
  Ok (take len (drop off d)).
Proof.
  intros Hlen Hin. destruct Hsv as [_ Hs Hsnap (r & idx & Hr & Hok & Hst)]. unfold table_open. rewrite Hr. cbn [mbind result_bind].
  rewrite Hs. by apply (fetch_ok w r idx).
Qed.

Definition finish_fetch (data : list Z) : list Z :=
  if VARATT_EXTERNAL_IS_COMPRESSED tp then varlena_c data (Z.of_nat (length data)) else varlena data (Z.of_nat (length data)).

Lemma alloc_part (n : nat) : (n <= length d)%nat ->
  palloc (swrap 32 (Z.of_nat n + VARHDRSZ)) = Ok (replicate 4 0 ++ replicate n 0).
Proof.
  intros Hn. pose proof (sv_size _ _ _ Hsv). destruct (sv_pointer _ _ _ Hsv) as (_ & _ & He & _). unfold VARHDRSZ in *.
  rewrite swrap32_small, palloc_ok by lia. f_equal. rewrite <- replicate_add. f_equal. lia.
Qed.

Lemma toast_fetch_ok : toast_fetch_datum w (toast_pointer_datum tp) = Ok (finish_fetch d).
Proof.
  unfold toast_fetch_datum. destruct (toast_pointer_facts tp (sv_pointer _ _ _ Hsv)) as (-> & _ & ->). cbn [negb].
  rewrite (sv_size _ _ _ Hsv), alloc_part by lia. cbn [mbind result_bind].
  destruct (Z.eqb_spec (Z.of_nat (length d)) 0) as [E|Hne]; [by destruct d|].
  pose proof (fetch_part 0 (length d) ltac:(lia) ltac:(lia)) as Hf. rewrite (sv_size _ _ _ Hsv) in Hf.
  change (drop 4 (replicate 4 0 ++ replicate (length d) 0)) with (replicate (length d) 0). change (Z.of_nat 0) with 0 in Hf.
  destruct (table_open w (va_toastrelid tp)); [|done]. cbn [mbind result_bind] in *. rewrite Hf, drop_0, firstn_all. done.
Qed.

(** [toast_fetch_datum_slice], when the length is adjusted to [len']. *)
Lemma toast_fetch_slice_ok (off : Z) (len : Z) (off' len' : nat) :
  0 <= off ->
  (let '(o, n) := if off >=? Z.of_nat (length d) then (0, 0) else (off, len) in
   let n := if VARATT_EXTERNAL_IS_COMPRESSED tp && (n >? 0) then swrap 32 (n + 4) else n in
   let n := if (swrap 32 (o + n) >? Z.of_nat (length d)) || (n <? 0) then Z.of_nat (length d) - o else n in
   (o, n)) = (Z.of_nat off', Z.of_nat len') ->
  (off' + len' <= length d)%nat ->
  toast_fetch_datum_slice w (toast_pointer_datum tp) off len = Ok (finish_fetch (take len' (drop off' d))).
Proof.
  intros Hoff Hadj Hin. unfold toast_fetch_datum_slice. destruct (toast_pointer_facts tp (sv_pointer _ _ _ Hsv)) as (-> & _ & ->). cbn [negb].
  rewrite (sv_size _ _ _ Hsv). destruct (if off >=? Z.of_nat (length d) then (0, 0) else (off, len)) as [o n]. injection Hadj as Eo En.
  rewrite En, Eo, alloc_part by lia. cbn [mbind result_bind].
  change (drop 4 (replicate 4 0 ++ replicate len' 0)) with (replicate len' 0).
  assert (Hl : length (take len' (drop off' d)) = len') by (rewrite length_take, length_drop; lia).
  destruct (Z.eqb_spec (Z.of_nat len') 0) as [E|Hne].
  { assert (len' = 0%nat) as -> by lia. rewrite take_0. done. }
  pose proof (fetch_part off' len' ltac:(lia) Hin) as Hf. rewrite (sv_size _ _ _ Hsv) in Hf.
  destruct (table_open w (va_toastrelid tp)); [|done]. cbn [mbind result_bind] in *. rewrite Hf. cbn [mbind result_bind].
  unfold finish_fetch. by rewrite Hl.
Qed.

End StoredValue.

(** ** Reading a stored value *)

(** What is stored for the data: the data itself, or its compressed form. *)
Definition stored_as (data : list Z) (compressed : bool) (d : list Z) : Prop :=
  if compressed then exists c, d = comp_data data c /\ encodes data c /\ Z.of_nat (length c) + TOAST_COMPRESS_HDRSZ < Z.of_nat (length data) - 2
  else d = data.

Definition external_value (w : World) (data : list Z) (compressed : bool) (tp : varatt_external) : Prop :=
  exists d, stored_value w tp d /\ stored_as data compressed d /\ va_rawsize tp = Z.of_nat (length data) + VARHDRSZ.

Lemma length_comp_data data c : length (comp_data data c) = (4 + length c)%nat.
Proof. unfold comp_data. by rewrite length_app, length_le_bytes. Qed.

Lemma external_compressed w data compressed tp d :
  stored_value w tp d -> stored_as data compressed d -> va_rawsize tp = Z.of_nat (length data) + VARHDRSZ ->
  VARATT_EXTERNAL_IS_COMPRESSED tp = compressed.
Proof.
  intros Hsv Hs Hr. unfold VARATT_EXTERNAL_IS_COMPRESSED. rewrite Hr, (sv_size _ _ _ Hsv). unfold stored_as in Hs. destruct compressed.
  - destruct Hs as (c & -> & _ & Hc). unfold TOAST_COMPRESS_HDRSZ in Hc. rewrite length_comp_data. apply Z.ltb_lt. lia.
  - subst d. apply Z.ltb_ge. lia.
Qed.

Lemma external_fits w data compressed tp : external_value w data compressed tp -> fits data.
Proof. intros (d & Hsv & _ & Hr). destruct (sv_pointer _ _ _ Hsv) as ([_ H] & _). unfold fits. lia. Qed.

Lemma detoast_external w data compressed tp :
  external_value w data compressed tp -> detoast_attr w (toast_pointer_datum tp) = Ok (plain data).
Proof.
  intros Hx. pose proof (external_fits _ _ _ _ Hx) as Hfit. destruct Hx as (d & Hsv & Hs & Hr).
  destruct (toast_pointer_facts tp (sv_pointer _ _ _ Hsv)) as (E1 & E2 & _). unfold detoast_attr, detoast_direct. rewrite E1, E2.
  rewrite (toast_fetch_ok w tp d Hsv). cbn [mbind result_bind]. unfold finish_fetch.
  rewrite (external_compressed w data compressed tp d Hsv Hs Hr). unfold VARATT_IS_COMPRESSED. unfold stored_as in Hs. destruct compressed.
  - destruct Hs as (c & -> & He & Hc).
    assert (Ec : varlena_c (comp_data data c) (Z.of_nat (length (comp_data data c))) = comp_form data c)
      by (unfold comp_form; rewrite length_comp_data; f_equal; lia). rewrite Ec.
    destruct (comp_facts data c Hfit Hc) as (F & _). rewrite (hf_comp _ _ _ _ _ F). by apply toast_decompress_ok.
  - subst d. destruct (varlena_facts data (Z.of_nat (length data))) as (F & _); [unfold fits, VARHDRSZ in *; lia|].
    by rewrite (hf_comp _ _ _ _ _ F).
Qed.

(** The fast path: a slice of a value that is not compressed. *)
Lemma slice_uncompressed w tp data off len :
  stored_value w tp data -> VARATT_EXTERNAL_IS_COMPRESSED tp = false -> 0 <= off <= PG_INT32_MAX -> len <= PG_INT32_MAX ->
  toast_fetch_datum_slice w (toast_pointer_datum tp) off (slice_limit off len).2 = Ok (plain (slice data off len)).
Proof.
  intros Hsv Hu Hoff Hlen. pose proof (sv_size _ _ _ Hsv) as Hsz. destruct (sv_pointer _ _ _ Hsv) as (_ & _ & He & _).
  assert (Hgo : forall o' l' : nat, (o' + l' <= length data)%nat -> take l' (drop o' data) = slice data off len ->
            (let '(o, n) := if off >=? Z.of_nat (length data) then (0, 0) else (off, (slice_limit off len).2) in
             let n := if VARATT_EXTERNAL_IS_COMPRESSED tp && (n >? 0) then swrap 32 (n + 4) else n in
             let n := if (swrap 32 (o + n) >? Z.of_nat (length data)) || (n <? 0) then Z.of_nat (length data) - o else n in
             (o, n)) = (Z.of_nat o', Z.of_nat l') ->
            toast_fetch_datum_slice w (toast_pointer_datum tp) off (slice_limit off len).2 = Ok (plain (slice data off len))).
  { intros o' l' Hin Heq Hadj. rewrite (toast_fetch_slice_ok w tp data Hsv off _ o' l') by (done || lia). unfold finish_fetch. rewrite Hu.
    by rewrite Heq. }
  unfold MaxAllocSize, VARHDRSZ in He. rewrite Hu in Hgo. cbn [andb] in Hgo.
  destruct (Z.geb_spec off (Z.of_nat (length data))) as [Hge|Hlt].
  { apply (Hgo 0%nat 0%nat); [lia| |].
    - unfold slice, bytes_at. rewrite take_0, drop_ge by lia. rewrite take_nil. by destruct (len <? 0), (off + len >? PG_INT32_MAX).
    - cbn [negb]. rewrite swrap_small by (lia || unfold in_sint; lia). destruct (Z.gtb_spec (0 + 0) (Z.of_nat (length data))); [lia|done]. }
  destruct (slice_limit_cases off len Hoff Hlen) as [(len' & El & Hl & Hs)|(Hl & El & Hmax & Hs)]; rewrite El, Hs in *; cbn [fst snd] in *.
  - apply (Hgo (Z.to_nat off) (length data - Z.to_nat off)%nat); [lia|apply take_ge; rewrite length_drop; lia|].
    destruct (Z.ltb_spec len' 0); [|lia]. rewrite orb_true_r. f_equal; lia.
  - unfold PG_INT32_MAX in *. rewrite swrap_small in Hgo by (lia || unfold in_sint; lia).
    destruct (Z.gtb_spec (off + len) (Z.of_nat (length data))).
    + apply (Hgo (Z.to_nat off) (length data - Z.to_nat off)%nat); [lia| |cbn [orb]; f_equal; lia].
      unfold bytes_at. rewrite !take_ge; [done|rewrite length_drop; lia|rewrite length_drop; lia].
    + apply (Hgo (Z.to_nat off) (Z.to_nat len)); [lia|done|]. destruct (Z.ltb_spec len 0); [lia|]. cbn [orb]. f_equal; lia.
Qed.

Lemma max_compressed_pos n total : 0 <= n -> 4 <= total -> 2 <= pglz_maximum_compressed_size n total <= total.
Proof.
  intros Hn Ht. unfold pglz_maximum_compressed_size. cbv zeta. pose proof (Z.div_pos (n * 9 + 7) 8 ltac:(lia) ltac:(lia)). lia.
Qed.

(** A slice of a compressed value: only a prefix is fetched. *)
Lemma slice_compressed w tp data c off len :
  stored_value w tp (comp_data data c) -> VARATT_EXTERNAL_IS_COMPRESSED tp = true -> fits data -> encodes data c ->
  Z.of_nat (length c) + TOAST_COMPRESS_HDRSZ < Z.of_nat (length data) - 2 ->
  0 <= off <= PG_INT32_MAX -> len <= PG_INT32_MAX -> slice_fits true off len ->
  (preslice ← (if (slice_limit off len).1 >=? 0 then
                 toast_fetch_datum_slice w (toast_pointer_datum tp) 0 (pglz_maximum_compressed_size (slice_limit off len).1 (va_extsize tp))
               else toast_fetch_datum w (toast_pointer_datum tp));
   finish_slice preslice off (slice_limit off len).2 (slice_limit off len).1) = Ok (plain (slice data off len)).
Proof.
  intros Hsv Hcomp Hfit He Hc Hoff Hlen Hsf. pose proof (sv_size _ _ _ Hsv) as Hsz. rewrite length_comp_data in Hsz.
  unfold TOAST_COMPRESS_HDRSZ in Hc. set (limit := (slice_limit off len).1) in *.
  set (m := if limit >=? 0 then Z.to_nat (pglz_maximum_compressed_size limit (va_extsize tp)) else length c).
  assert (Hfetch : (if limit >=? 0 then
                      toast_fetch_datum_slice w (toast_pointer_datum tp) 0 (pglz_maximum_compressed_size limit (va_extsize tp))
                    else toast_fetch_datum w (toast_pointer_datum tp)) =
                   Ok (varlena_c (comp_data data (take m c)) (Z.of_nat (length (take m c)) + 4))).
  { assert (Hfin : forall k, finish_fetch tp (comp_data data k) = varlena_c (comp_data data k) (Z.of_nat (length k) + 4))
      by (intros k; unfold finish_fetch; rewrite Hcomp, length_comp_data; f_equal; lia).
    rewrite <- Hfin. unfold m. destruct (Z.geb_spec limit 0) as [Hge|Hlt].
    2: { rewrite (toast_fetch_ok w tp _ Hsv). by rewrite firstn_all. }
    pose proof (max_compressed_pos limit (va_extsize tp) Hge ltac:(lia)) as Hm. set (mm := pglz_maximum_compressed_size _ _) in *.
    rewrite (toast_fetch_slice_ok w tp _ Hsv 0 mm 0 (4 + length (take (Z.to_nat mm) c))).
    - rewrite drop_0. do 2 f_equal. unfold comp_data. rewrite take_app_ge, length_le_bytes by (rewrite length_le_bytes; lia). f_equal.
      rewrite length_take. destruct (Nat.le_gt_cases (Z.to_nat mm) (length c)); [f_equal; lia|rewrite !take_ge; (done || lia)].
    - lia.
    - rewrite length_comp_data, length_take, Hcomp. destruct (Z.geb_spec 0 (Z.of_nat (4 + length c))); [lia|].
      destruct (Z.gtb_spec mm 0); [|lia]. cbn [andb]. unfold fits, VARHDRSZ, MaxAllocSize in *.
      rewrite (swrap_small 32 (mm + 4)) by (lia || unfold in_sint; lia). rewrite swrap_small by (lia || unfold in_sint; lia).
      destruct (Z.ltb_spec (mm + 4) 0); [lia|]. rewrite orb_false_r.
      destruct (Z.gtb_spec (0 + (mm + 4)) (Z.of_nat (4 + length c))); f_equal; lia.
    - rewrite length_comp_data, length_take. lia. }
  rewrite Hfetch. cbn [mbind result_bind]. apply finish_slice_comp; try done; [rewrite length_take; lia|].
  fold limit. unfold m. destruct (Z.geb_spec limit 0) as [Hge|Hlt].
  - rewrite <- (Z2Nat.id limit) at 1 2 by lia. apply encodes_prefix; [done|lia|lia].
  - rewrite firstn_all. unfold TOAST_COMPRESS_HDRSZ. by split_and!.
Qed.

Lemma detoast_slice_external w data compressed tp off len :
  external_value w data compressed tp -> 0 <= off <= PG_INT32_MAX -> len <= PG_INT32_MAX -> slice_fits compressed off len ->
  detoast_attr_slice w (toast_pointer_datum tp) off len = Ok (plain (slice data off len)).
Proof.
  intros Hx Hoff Hlen Hsf. pose proof (external_fits _ _ _ _ Hx) as Hfit. destruct Hx as (d & Hsv & Hs & Hr).
  destruct (toast_pointer_facts tp (sv_pointer _ _ _ Hsv)) as (E1 & E2 & E3). unfold detoast_attr_slice, detoast_slice_direct. rewrite E1, E2, E3.
  destruct (Z.ltb_spec off 0); [lia|]. rewrite (surjective_pairing (slice_limit off len)).
  pose proof (external_compressed w data compressed tp d Hsv Hs Hr) as Hc. rewrite Hc. unfold stored_as in Hs. destruct compressed; cbn [negb].
  - destruct Hs as (c & -> & He & Hb). by apply (slice_compressed w tp data c).
  - subst d. by apply slice_uncompressed.
Qed.

(** ** [toast_save_datum] *)

Lemma data_to_save_ok data p :
  fits data -> inline_form data p ->
  exists d, data_to_save p = (d, Z.of_nat (length d), Z.of_nat (length data) + VARHDRSZ, Z.of_nat (length d)) /\
    stored_as data (VARATT_IS_COMPRESSED p) d /\ (length d <= length data)%nat.
Proof.
  intros Hfit Hp. unfold data_to_save, stored_as, VARATT_IS_SHORT, VARATT_IS_COMPRESSED. destruct Hp as [|Hl|c He Hc].
  - destruct (varlena_facts data (Z.of_nat (length data))) as (F & Es & Ed); [unfold fits, VARHDRSZ in *; lia|]. fold (plain data) in F, Es, Ed.
    rewrite (hf_short _ _ _ _ _ F), (hf_comp _ _ _ _ _ F), Es, Ed. exists data. split_and!; [|done|done]. do 2 f_equal; [f_equal|]; lia.
  - destruct (short_facts data Hl) as (F & Es). rewrite (hf_short _ _ _ _ _ F), (hf_comp _ _ _ _ _ F), Es. unfold VARHDRSZ_SHORT.
    change (VARDATA_SHORT (short_form data)) with data. exists data. split_and!; [|done|done].
    replace (Z.of_nat (length data) + 1 - 1) with (Z.of_nat (length data)) by lia. done.
  - destruct (comp_facts data c Hfit Hc) as (F & Es & _ & Er & _). rewrite (hf_short _ _ _ _ _ F), (hf_comp _ _ _ _ _ F), Es, Er.
    exists (comp_data data c). rewrite length_comp_data. unfold TOAST_COMPRESS_HDRSZ, VARHDRSZ in *.
    split_and!; [|by exists c|lia]. replace (Z.of_nat (length c) + 8 - 4) with (Z.of_nat (4 + length c)) by lia. done.
Qed.

Lemma fresh_stores r idx v d :
  rel_ok r idx -> valueid_in_index idx v = false -> stores r idx v d 0 /\ only_below (rd_rows r) v 0.
Proof.
  intros Hok Hfree. split.
  - exists (fun _ => 0%nat), (fun _ => mkRow 0 0 [] RowLive). split; [|lia]. cbn [seq map]. unfold valueid_in_index, index_scan in Hfree.
    rewrite length_map in Hfree. by destruct (List.filter _ _).
  - intros tid row Hr E. exfalso. apply not_true_iff_false in Hfree. apply Hfree, valueid_in_index_spec.
    apply in_map_iff. exists (chunk_id row, chunk_seq row, tid). split; [done|]. by apply (ro_complete _ _ Hok).
Qed.

(** The TOAST table of a relation, in a state in which values can be stored. *)
Record toast_table (w : World) (rel : Relation) (r : ToastRelation) (idx : ToastIndex) : Prop := {
  tt_normal : rd_toastoid rel = InvalidOid;
  tt_rel : toast_rels w !! reltoastrelid rel = Some r;
  tt_id : rd_id r = reltoastrelid rel;
  tt_oid : in_uint 32 (reltoastrelid rel);
  tt_ok : rel_ok r idx;
  tt_next : in_uint 32 (nextOid w);
  tt_room : Z.of_nat (length (idx_entries idx)) < oid_count;
  tt_snapshot : active_snapshot w = true
}.

Lemma nchunks_le n : (nchunks n <= n)%nat.
Proof.
  unfold nchunks. pose proof chunk_len_bounds as [HC _]. pose proof (Nat.div_mod (n + chunk_len - 1) chunk_len ltac:(lia)).
  pose proof (Nat.mod_upper_bound (n + chunk_len - 1) chunk_len ltac:(lia)).
  destruct (decide (n = 0%nat)) as [-> |]; [rewrite Nat.div_small; lia|]. nia.
Qed.

Lemma toast_save_ok w rel r idx data p oldexternal :
  toast_table w rel r idx -> fits data -> inline_form data p ->
  exists n tp r' idx',
    toast_save_datum w rel p oldexternal = Ok (set_rel (set_next_oid w n) (reltoastrelid rel) r', toast_pointer_datum tp) /\
    external_value (set_rel (set_next_oid w n) (reltoastrelid rel) r') data (VARATT_IS_COMPRESSED p) tp /\
    valueid_in_index idx (va_valueid tp) = false /\ va_toastrelid tp = reltoastrelid rel /\ in_uint 32 n /\
    rel_ok r' idx' /\ extends (va_valueid tp) r idx r' idx'.
Proof.
  intros [Hnorm Hrel Hid Hoid Hok Hnext Hroom Hsnap] Hfit Hp. unfold toast_save_datum, table_open, toast_open_indexes.
  rewrite Hrel. cbn [mbind result_bind]. rewrite (ro_valid _ _ Hok). cbn [mbind result_bind].
  destruct (data_to_save_ok data p Hfit Hp) as (d & -> & Hst & Hlen). rewrite Hnorm, Z.eqb_refl. cbn [negb].
  unfold choose_valueid. rewrite Hnorm, Z.eqb_refl.
  destruct (GetNewOidWithIndex_ok idx (nextOid w) Hnext Hroom) as (v & n & -> & Hfree & Hv & Hn). cbn [mbind result_bind].
  destruct (fresh_stores r idx v d Hok Hfree) as [Hs0 Hb0]. pose proof (nchunks_le (length d)).
  destruct (save_chunks_ok (S (length d)) r idx v d 0 Hok Hs0 Hb0 ltac:(lia) ltac:(lia)) as (r' & idx' & E & Hok' & Hs' & Hx).
  rewrite Nat.mul_0_l, drop_0, Z.sub_0_r in E. change (Z.of_nat 0) with 0 in E. rewrite Nat2Z.id, E. cbn [mbind result_bind].
  unfold fits, FirstNormalObjectId, VARHDRSZ in *.
  exists n, (mkExternal (Z.of_nat (length data) + VARHDRSZ) (Z.of_nat (length d)) v (reltoastrelid rel)), r', idx'.
  split_and!; try done.
  - do 3 f_equal. rewrite Hid. f_equal; apply swrap32_small; unfold VARHDRSZ; lia.
  - exists d. split_and!; [|done|done]. split; [|done|done|].
    + unfold pointer_ok, VARHDRSZ. cbn [va_rawsize va_extsize va_valueid va_toastrelid]. unfold in_uint in *. split_and!; (done || lia).
    + exists r', idx'. cbn. rewrite lookup_insert_eq. by split_and!.
Qed.

(** ** What a change of one value leaves as it was *)

Lemma systable_scan_frame v r idx r' idx' keys :
  rel_ok r idx -> extends v r idx r' idx' -> (forall seq, keys v seq = false) -> systable_scan r' idx' keys = systable_scan r idx keys.
Proof.
  intros Hok Hx Hk. unfold systable_scan. rewrite (ex_scan _ _ _ _ _ Hx keys Hk). destruct (ex_rows _ _ _ _ _ Hx) as (new & -> & _).
  assert (Hin : forall tid, In tid (index_scan idx keys) -> is_Some (rd_rows r !! tid)).
  { intros tid (e & <- & [He _]%filter_In)%in_map_iff. destruct (ix_rows _ _ (rel_valid_ok _ _ Hok) e He) as (row & Hr & _). by exists row. }
  induction (index_scan idx keys) as [|tid l IH]; [done|]. cbn [omap list_omap]. destruct (Hin tid ltac:(by left)) as [row Hr].
  rewrite (lookup_app_l_Some _ _ _ _ Hr), Hr. rewrite IH by (intros x Hx'; apply Hin; by right). done.
Qed.

(** A value that could be fetched is not the new one. *)
Lemma fetch_frame w w' v r idx r' idx' v' size buf x :
  rel_ok r idx -> rel_ok r' idx' -> extends v r idx r' idx' -> valueid_in_index idx v = false -> active_snapshot w' = active_snapshot w ->
  - 4 <= size -> size <> 0 ->
  heap_fetch_toast_slice w r v' size 0 size buf = Ok x -> heap_fetch_toast_slice w' r' v' size 0 size buf = Ok x.
Proof.
  intros Hok Hok' Hx Hfree Hsn Hsize Hne. unfold heap_fetch_toast_slice, toast_open_indexes, init_toast_snapshot.
  rewrite (ro_valid _ _ Hok), (ro_valid _ _ Hok'), Hsn. cbn [mbind result_bind].
  set (K := fun id seq => (id =? v') && _). destruct (active_snapshot w); [|done]. cbn [mbind result_bind].
  destruct (decide (v' = v)) as [-> |Hv].
  - assert (Hempty : systable_scan r idx K = []).
    { unfold systable_scan, index_scan, K. cbv beta. rewrite (filter_andb (fun e : Entry => e.1.1 =? v)). unfold valueid_in_index, index_scan in Hfree.
      rewrite length_map in Hfree. by destruct (List.filter _ _). }
    rewrite Hempty. cbn [fetch_chunks mbind result_bind]. pose proof chunk_len_bounds as [HC _]. rewrite Z.quot_0_l by (rewrite chunk_len_eq; lia).
    assert (Hend : 0 <= (0 + size - 1) ÷ TOAST_MAX_CHUNK_SIZE).
    { destruct (Z_lt_le_dec size 1); [|apply Z.quot_pos; rewrite ?chunk_len_eq; lia].
      replace (0 + size - 1) with (- (1 - size)) by lia. rewrite Z.quot_opp_l, Z.quot_small by (rewrite ?chunk_len_eq; lia). lia. }
    destruct (Z.eqb_spec 0 ((0 + size - 1) ÷ TOAST_MAX_CHUNK_SIZE + 1)); [lia|done].
  - by rewrite (systable_scan_frame v r idx r' idx' K Hok Hx) by (intros seq; unfold K; by destruct (Z.eqb_spec v v')).
Qed.

Lemma toast_fetch_frame w n oid v r idx r' idx' q d :
  toast_rels w !! oid = Some r -> rel_ok r idx -> rel_ok r' idx' -> extends v r idx r' idx' -> valueid_in_index idx v = false ->
  toast_fetch_datum w q = Ok d -> toast_fetch_datum (set_rel (set_next_oid w n) oid r') q = Ok d.
Proof.
  intros Hr Hok Hok' Hx Hfree. unfold toast_fetch_datum. destruct (negb _); [done|]. set (tp := VARATT_EXTERNAL_GET_POINTER q).
  intros H. apply bind_Ok in H as (buf & Ebuf & H). rewrite Ebuf. cbn [mbind result_bind].
  destruct (Z.eqb_spec (va_extsize tp) 0) as [|Hne]; [done|]. unfold table_open in *. set (w' := set_rel _ _ _).
  change (toast_rels w') with (<[oid := r']> (toast_rels w)).
  assert (Hsize : - 4 <= va_extsize tp).
  { unfold palloc in Ebuf. destruct (Z.ltb_spec (swrap 32 (va_extsize tp + VARHDRSZ)) 0) as [|Hge]; [done|].
    assert (Hin : in_sint 32 (va_extsize tp)) by (apply swrap_range; lia). unfold in_sint, VARHDRSZ in *.
    destruct (Z_lt_le_dec (va_extsize tp) (-4)); [|done]. rewrite swrap_small in Hge by (lia || unfold in_sint; lia). lia. }
  destruct (decide (va_toastrelid tp = oid)) as [E|Hoid].
  - rewrite E in *. rewrite lookup_insert_eq. rewrite Hr in H. cbn [mbind result_bind] in *. apply bind_Ok in H as (data & Ef & H).
    rewrite (fetch_frame w w' v r idx r' idx' _ _ _ data Hok Hok' Hx Hfree eq_refl Hsize Hne Ef). exact H.
  - rewrite lookup_insert_ne by done. destruct (toast_rels w !! va_toastrelid tp); [|done]. exact H.
Qed.

Lemma detoast_frame w w' q d :
  objects w' = objects w -> expanded w' = expanded w ->
  (forall q d, toast_fetch_datum w q = Ok d -> toast_fetch_datum w' q = Ok d) ->
  detoast_attr w q = Ok d -> detoast_attr w' q = Ok d.
Proof.
  intros Ho He Hf.
  assert (Hdir : forall q d, detoast_direct w q = Ok d -> detoast_direct w' q = Ok d).
  { intros q1 d1. unfold detoast_direct, detoast_external_direct, flatten_object. rewrite He. destruct (VARATT_IS_EXTERNAL_ONDISK q1); [|done].
    intros H. apply bind_Ok in H as (a & Ea & H). by rewrite (Hf _ _ Ea). }
  unfold detoast_attr, indirect_object. rewrite Ho. destruct (VARATT_IS_EXTERNAL_INDIRECT q); [|apply Hdir].
  intros H. apply bind_Ok in H as (a & -> & H). cbn [mbind result_bind]. destruct (VARATT_IS_EXTERNAL_INDIRECT a); [done|].
  apply bind_Ok in H as (b & Eb & H). by rewrite (Hdir _ _ Eb).
Qed.

(** ** [toast_delete_datum] *)

Definition gone (is_speculative : bool) : RowState := if is_speculative then RowKilled else RowDeleted.

(** The rows of a value, marked. *)
Definition mark (v : Z) (st : RowState) (row : ToastRow) : ToastRow := if chunk_id row =? v then set_state st row else row.

Lemma delete_rows_ok b tids rows :
  List.NoDup tids -> (forall tid, In tid tids -> exists row, rows !! tid = Some row /\ row_state row = RowLive) ->
  exists rows', delete_rows b tids rows = Ok rows' /\
    forall i, rows' !! i = if decide (i ∈ tids) then set_state (gone b) <$> rows !! i else rows !! i.
Proof.
  revert rows. induction tids as [|t tids IH]; intros rows Hnd Hlive; cbn [delete_rows].
  - exists rows. split; [done|]. intros i. by rewrite decide_False by set_solver.
  - inversion Hnd as [|? ? Hnot Hnd']; subst. destruct (Hlive t ltac:(by left)) as (row & Hr & Hst).
    assert (Hdel : delete_row b rows t = Ok (<[t := set_state (gone b) row]> rows)).
    { unfold delete_row. rewrite Hr. destruct b; [done|]. by rewrite bool_decide_true. }
    rewrite Hdel. cbn [mbind result_bind]. destruct (IH (<[t := set_state (gone b) row]> rows) Hnd') as (rows' & E & Hrows).
    { intros x Hx. destruct (Hlive x ltac:(by right)) as (row' & Hr' & Hs'). exists row'. split; [|done].
      rewrite list_lookup_insert_ne; [done|]. intros ->. done. }
    exists rows'. split; [done|]. intros i. rewrite Hrows. rewrite <- list_elem_of_In in Hnot.
    destruct (decide (i = t)) as [-> |Hne].
    + rewrite decide_False by done. rewrite decide_True by set_solver. rewrite list_lookup_insert_eq by (by eapply lookup_lt_Some). by rewrite Hr.
    + rewrite list_lookup_insert_ne by done. destruct (decide (i ∈ tids)); [by rewrite decide_True by set_solver|by rewrite decide_False by set_solver].
Qed.

(** The rows that a scan for a value id visits, each of them once. *)
Lemma scan_value_tids r idx v :
  rel_ok r idx -> (forall tid row, rd_rows r !! tid = Some row -> chunk_id row = v -> row_state row = RowLive) ->
  let tids := map fst (systable_scan r idx (fun id _ => id =? v)) in
  List.NoDup tids /\ forall tid, In tid tids <-> exists row, rd_rows r !! tid = Some row /\ chunk_id row = v.
Proof.
  intros Hok Hlive. pose proof (rel_valid_ok _ _ Hok) as Hi. cbv zeta.
  assert (Hscan : map fst (systable_scan r idx (fun id _ => id =? v)) = map snd (List.filter (fun e : Entry => e.1.1 =? v) (idx_entries idx))).
  { unfold systable_scan, index_scan.
    assert (Hall : forall e, In e (List.filter (fun e : Entry => e.1.1 =? v) (idx_entries idx)) ->
              exists row, rd_rows r !! e.2 = Some row /\ HeapTupleSatisfiesToast row = true).
    { intros e [He Ev%Z.eqb_eq]%filter_In. destruct (ix_rows _ _ Hi e He) as (row & Hr & E1 & _). exists row. split; [done|].
      unfold HeapTupleSatisfiesToast. rewrite (Hlive _ _ Hr) by congruence. done. }
    induction (List.filter _ _) as [|e l IH]; [done|]. cbn [map omap list_omap]. destruct (Hall e ltac:(by left)) as (row & -> & ->).
    cbn [map fst]. f_equal. apply IH. intros x Hx. apply Hall. by right. }
  rewrite Hscan. split.
  - apply Injective_map_NoDup_in.
    + intros [[a1 a2] a3] [[b1 b2] b3] [Ha _]%filter_In [Hb _]%filter_In E. cbn in E. subst b3.
      destruct (ix_rows _ _ Hi _ Ha) as (row & Hr & E1 & E2), (ix_rows _ _ Hi _ Hb) as (row' & Hr' & E1' & E2'). cbn in *.
      rewrite Hr in Hr'. injection Hr' as <-. congruence.
    + apply List.NoDup_filter. pose proof (ix_sorted _ _ Hi) as Hs. clear Hscan. induction Hs as [|a l Hs IH Ha]; [constructor|constructor; [|done]].
      intros Hin. rewrite List.Forall_forall in Ha. specialize (Ha a Hin). unfold entry_before in Ha. rewrite entry_lt_spec in Ha. lia.
  - intros tid. rewrite in_map_iff. split.
    + intros (e & <- & [He Ev%Z.eqb_eq]%filter_In). destruct (ix_rows _ _ Hi e He) as (row & Hr & E1 & _). exists row. split; [done|congruence].
    + intros (row & Hr & Hv). exists (chunk_id row, chunk_seq row, tid). split; [done|]. apply filter_In.
      split; [by apply (ro_complete _ _ Hok)|]. cbn. by apply Z.eqb_eq.
Qed.

Lemma mark_rel_ok r idx v st : rel_ok r idx -> rel_ok (mkToastRel (rd_id r) (att_storage r) (rd_indexes r) (map (mark v st) (rd_rows r))) idx.
Proof.
  assert (Hkey : forall row, chunk_id (mark v st row) = chunk_id row /\ chunk_seq (mark v st row) = chunk_seq row)
    by (intros row; unfold mark; by destruct (chunk_id row =? v)).
  intros [H1 H2 H3 H4]. split; cbn [rd_indexes rd_rows]; try done.
  - intros tid row Hr. rewrite list_lookup_fmap in Hr. destruct (rd_rows r !! tid) as [row0|] eqn:E; [|done]. injection Hr as <-.
    destruct (Hkey row0) as [-> ->]. by apply H3.
  - eapply Forall_impl; [exact H4|]. intros i Hi Hr. destruct (Hi Hr) as [S1 S2]. split; [done|]. intros e He.
    destruct (S2 e He) as (row & Er & E1 & E2). exists (mark v st row). destruct (Hkey row) as [-> ->].
    rewrite list_lookup_fmap, Er. done.
Qed.

Lemma toast_delete_ok w tp r idx b :
  pointer_ok tp -> toast_rels w !! va_toastrelid tp = Some r -> rel_ok r idx -> active_snapshot w = true ->
  (forall tid row, rd_rows r !! tid = Some row -> chunk_id row = va_valueid tp -> row_state row = RowLive) ->
  toast_delete_datum w (toast_pointer_datum tp) b =
  Ok (set_rel w (va_toastrelid tp) (mkToastRel (rd_id r) (att_storage r) (rd_indexes r) (map (mark (va_valueid tp) (gone b)) (rd_rows r)))).
Proof.
  intros Hp Hr Hok Hsn Hlive. unfold toast_delete_datum. destruct (toast_pointer_facts tp Hp) as (-> & _ & ->). cbn [negb].
  unfold table_open, toast_open_indexes, init_toast_snapshot. rewrite Hr. cbn [mbind result_bind]. rewrite (ro_valid _ _ Hok), Hsn.
  cbn [mbind result_bind]. destruct (scan_value_tids r idx _ Hok Hlive) as [Hnd Hin]. set (tids := map fst _) in *.
  destruct (delete_rows_ok b tids (rd_rows r) Hnd) as (rows' & -> & Hrows).
  { intros tid Ht. apply Hin in Ht as (row & Er & Ev). exists row. split; [done|by apply (Hlive tid)]. }
  cbn [mbind result_bind]. do 3 f_equal. apply list_eq. intros i. rewrite Hrows, list_lookup_fmap.
  destruct (rd_rows r !! i) as [row|] eqn:E; [|by destruct (decide _)]. cbn [fmap option_fmap option_map]. unfold mark.
  destruct (decide (i ∈ tids)) as [Hi|Hi]; rewrite list_elem_of_In, Hin in Hi.
  - destruct Hi as (row' & Er & Ev). rewrite E in Er. injection Er as <-. apply Z.eqb_eq in Ev. by rewrite Ev.
  - destruct (Z.eqb_spec (chunk_id row) (va_valueid tp)); [|done]. destruct Hi. by exists row.
Qed.
