(* ===== verification/ToastTheorems.v ===== *)
(** * Correctness of TOAST

    Compressing in line, storing out of line, reading in full and in slices,
    and deleting; how range values with toasted bounds see it; and values that
    are stored while their table is rewritten. *)

From stdpp Require Import gmap.
From S2P Require Import Prelude Varlena Floats RangeTypes PgLz PgLzTheorems Toast ToastInline ToastTable ToastStore.
From Stdlib Require Import Sorting.Sorted FinFun.

(** ** Compressed values *)

(** Compressing in line is transparent. On an uncompressed value
    [toast_compress_datum] never fails; when it returns a value, that is more
    than two bytes shorter than the data, [detoast_attr] gives the plain value
    back, and every slice whose end fits into an allocation is the slice of the
    data. *)
Theorem toast_compress_roundtrip data p :
  p = plain data \/ p = short_form data /\ (length data <= 126)%nat ->
  Z.of_nat (length data) + 12 <= MaxAllocSize ->
  exists r, toast_compress_datum p = Ok r /\
    forall q, r = Some q ->
      (length q + 2 < length data)%nat /\
      forall w, detoast_attr w q = Ok (plain data) /\
        forall off len, 0 <= off <= PG_INT32_MAX -> len <= PG_INT32_MAX -> slice_fits true off len ->
          detoast_attr_slice w q off len = Ok (plain (slice data off len)).
Proof.
  intros Hp Hfit. assert (fits data) by (unfold fits, VARHDRSZ; lia).
  destruct (toast_compress_result data p Hfit Hp) as (r & -> & Hr). exists r. split; [done|]. intros q Hq.
  destruct (Hr q Hq) as (c & -> & He & Hc). assert (Hform : inline_form data (comp_form data c)) by (by constructor).
  split; [rewrite comp_form_length; unfold TOAST_COMPRESS_HDRSZ in Hc; lia|]. intros w. split; [by apply detoast_inline|].
  intros off len Hoff Hl Hs. apply detoast_slice_inline; try done. intros _. by apply Hs.
Qed.

(** Fifty times the same byte. *)
Lemma toast_compress_roundtrip_witness :
  exists r, toast_compress_datum (plain (replicate 50 7)) = Ok r /\
    forall q, r = Some q ->
      (length q + 2 < length (replicate 50 7))%nat /\
      forall w, detoast_attr w q = Ok (plain (replicate 50 7)) /\
        forall off len, 0 <= off <= PG_INT32_MAX -> len <= PG_INT32_MAX -> slice_fits true off len ->
          detoast_attr_slice w q off len = Ok (plain (slice (replicate 50 7) off len)).
Proof.
  apply (toast_compress_roundtrip (replicate 50 7) (plain (replicate 50 7))).
  - by left.
  - vm_compute. discriminate.
Defined.

(** A slice of the compressed value, evaluated. *)
Example compressed_slice w :
  (q ← toast_compress_datum (plain (replicate 50 7));
   match q with Some q => detoast_attr_slice w q 10 5 | None => elog "not compressed" end) = Ok (plain (replicate 5 7)).
Proof. vm_compute. reflexivity. Qed.

Lemma slice_limit_fails w data c off len :
  fits data -> encodes data c -> Z.of_nat (length c) + TOAST_COMPRESS_HDRSZ < Z.of_nat (length data) - 2 ->
  0 <= off -> 0 <= len -> off + len <= PG_INT32_MAX -> MaxAllocSize < off + len + VARHDRSZ ->
  detoast_attr_slice w (comp_form data c) off len = Err (mkError ERRCODE_INTERNAL_ERROR "invalid memory alloc request size").
Proof.
  intros Hfit He Hc Hoff Hlen Hmax Hbig. destruct (comp_facts data c Hfit Hc) as (F & _).
  destruct (is_external_false _ (hf_ext _ _ _ _ _ F)) as (E1 & E2 & E3). unfold detoast_attr_slice, detoast_slice_direct. rewrite E1, E2, E3.
  destruct (Z.ltb_spec off 0); [lia|]. destruct (slice_limit_cases off len ltac:(lia) ltac:(lia)) as [(l & E & _)|(_ & E & _)].
  { unfold slice_limit, pg_add_s32_overflow in E. destruct (Z.ltb_spec len 0); [lia|].
    destruct (Z.ltb_spec (off + len) PG_INT32_MIN); [unfold PG_INT32_MIN in *; lia|]. destruct (Z.gtb_spec (off + len) PG_INT32_MAX); [lia|].
    cbn in E. injection E. lia. }
  rewrite E. unfold finish_slice, VARATT_IS_COMPRESSED. rewrite (hf_comp _ _ _ _ _ F). destruct (Z.geb_spec (off + len) 0); [|lia].
  unfold toast_decompress_datum_slice. set (n := swrap 32 _).
  assert (Hn : n < 0 \/ MaxAllocSize < n).
  { unfold n, VARHDRSZ, MaxAllocSize, PG_INT32_MAX in *. destruct (Z_le_gt_dec (off + len + 4) 2147483647).
    - rewrite swrap_small by (lia || unfold in_sint; lia). lia.
    - left. unfold swrap. change (2 ^ (32 - 1)) with 2147483648. change (2 ^ 32) with 4294967296. zlia. }
  unfold palloc, palloc0. destruct (Z.ltb_spec n 0); [done|]. destruct (Z.gtb_spec n MaxAllocSize); [done|lia].
Qed.

(** The space for a slice is reserved before the size of the value is
    looked at: a slice of a compressed value whose end is beyond the largest
    allocation fails, however short the value is. *)
Theorem slice_limit_error w data p q off len :
  p = plain data \/ p = short_form data /\ (length data <= 126)%nat -> Z.of_nat (length data) + 12 <= MaxAllocSize ->
  toast_compress_datum p = Ok (Some q) ->
  0 <= off -> 0 <= len -> off + len <= PG_INT32_MAX -> MaxAllocSize < off + len + VARHDRSZ ->
  detoast_attr_slice w q off len = Err (mkError ERRCODE_INTERNAL_ERROR "invalid memory alloc request size").
Proof.
  intros Hp Hfit Hq. destruct (toast_compress_comp data p q Hfit Hp Hq) as (c & -> & He & Hc).
  apply slice_limit_fails; [unfold fits, VARHDRSZ; lia|done|done].
Qed.

Lemma slice_limit_error_witness :
  detoast_attr_slice (mkWorld 16384 true ∅ ∅ ∅) (comp_form (replicate 50 7) [2; 7; 15; 1; 31]) 0 1073741824 =
  Err (mkError ERRCODE_INTERNAL_ERROR "invalid memory alloc request size").
Proof.
  apply (slice_limit_error _ (replicate 50 7) (plain (replicate 50 7)) _ 0 1073741824).
  - by left.
  - vm_compute. discriminate.
  - vm_compute. reflexivity.
  - lia.
  - lia.
  - vm_compute. discriminate.
  - vm_compute. reflexivity.
Defined.

(** ** Values out of line *)

(** C16: Storing out of line is transparent. [toast_save_datum] stores a plain,
    short or compressed value in a TOAST table in good order, under an unused
    value id; afterwards [detoast_attr] of the pointer it returns gives the
    plain value, every slice is the slice of the data, also when only the
    needed chunks of a compressed value are read; the recorded raw size is the size
    of the plain value; the table is still in good order; and
    everything that could be detoasted before gives the same value as before. *)
Theorem toast_save_roundtrip w rel r idx data p oldexternal :
  toast_table w rel r idx -> fits data -> inline_form data p ->
  exists w' ptr r' idx', toast_save_datum w rel p oldexternal = Ok (w', ptr) /\
    detoast_attr w' ptr = Ok (plain data) /\
    (forall off len, 0 <= off <= PG_INT32_MAX -> len <= PG_INT32_MAX -> slice_fits (VARATT_IS_COMPRESSED p) off len ->
       detoast_attr_slice w' ptr off len = Ok (plain (slice data off len))) /\
    toast_raw_datum_size w' ptr = Ok (Z.of_nat (length data) + VARHDRSZ) /\
    toast_rels w' !! reltoastrelid rel = Some r' /\ rel_ok r' idx' /\
    (forall q d, detoast_attr w q = Ok d -> detoast_attr w' q = Ok d).
Proof.
  intros Ht Hfit Hp.
  destruct (toast_save_ok w rel r idx data p oldexternal Ht Hfit Hp) as (n & tp & r' & idx' & -> & Hx & Hfree & Hoid & _ & Hok' & Hext).
  set (w' := set_rel _ _ _) in *. exists w', (toast_pointer_datum tp), r', idx'. split; [done|].
  split; [by eapply detoast_external|]. split; [intros off len; by apply detoast_slice_external|]. split.
  { destruct Hx as (d & Hsv & _ & Hr). destruct (toast_pointer_facts tp (sv_pointer _ _ _ Hsv)) as (E1 & E2 & E3).
    unfold toast_raw_datum_size, raw_size_direct. by rewrite E1, E2, E3, Hr. }
  split; [apply lookup_insert_eq|]. split; [done|]. intros q d. apply detoast_frame; [done|done|].
  intros q' d'. apply (toast_fetch_frame w n _ (va_valueid tp) r idx r' idx'); try done; apply Ht.
Qed.

(** An empty TOAST table with one index. *)
Definition empty_index : ToastIndex := mkIndex true true true [].
Definition empty_table : ToastRelation := mkToastRel 20000 TYPSTORAGE_PLAIN [empty_index] [].
Definition empty_world : World := mkWorld 16384 true {[ 20000 := empty_table ]} ∅ ∅.

Lemma empty_table_ok : toast_table empty_world (mkRelation 20000 0) empty_table empty_index.
Proof.
  split; try done. split; try done. constructor; [|constructor]. intros _. split; [constructor|done].
Qed.

Lemma toast_save_roundtrip_witness :
  exists w' ptr r' idx', toast_save_datum empty_world (mkRelation 20000 0) (plain [1; 2; 3]) None = Ok (w', ptr) /\
    detoast_attr w' ptr = Ok (plain [1; 2; 3]) /\
    (forall off len, 0 <= off <= PG_INT32_MAX -> len <= PG_INT32_MAX -> slice_fits (VARATT_IS_COMPRESSED (plain [1; 2; 3])) off len ->
       detoast_attr_slice w' ptr off len = Ok (plain (slice [1; 2; 3] off len))) /\
    toast_raw_datum_size w' ptr = Ok (Z.of_nat (length [1; 2; 3]) + VARHDRSZ) /\
    toast_rels w' !! reltoastrelid (mkRelation 20000 0) = Some r' /\ rel_ok r' idx' /\
    (forall q d, detoast_attr empty_world q = Ok d -> detoast_attr w' q = Ok d).
Proof.
  apply (toast_save_roundtrip empty_world (mkRelation 20000 0) empty_table empty_index [1; 2; 3] (plain [1; 2; 3]) None).
  - exact empty_table_ok.
  - vm_compute. discriminate.
  - constructor.
Defined.

(** A value of three chunks, and a slice that crosses a chunk boundary. *)
Example three_chunks :
  ('(w', ptr) ← toast_save_datum empty_world (mkRelation 20000 0) (plain (replicate 1995 1 ++ replicate 3000 2)) None;
   detoast_attr_slice w' ptr 1993 5) = Ok (plain [1; 1; 2; 2; 2]).
Proof. vm_compute. reflexivity. Qed.

(** [toast_delete_datum] marks exactly the rows of the value, as deleted or,
    for a speculative insertion, as killed: no other row and no index entry
    changes, so that the table stays in good order, and every other table is
    left alone. *)
Theorem toast_delete_exact w tp r idx is_speculative :
  pointer_ok tp -> toast_rels w !! va_toastrelid tp = Some r -> rel_ok r idx -> active_snapshot w = true ->
  (forall tid row, rd_rows r !! tid = Some row -> chunk_id row = va_valueid tp -> row_state row = RowLive) ->
  exists w' r', toast_delete_datum w (toast_pointer_datum tp) is_speculative = Ok w' /\
    toast_rels w' = <[va_toastrelid tp := r']> (toast_rels w) /\ rel_ok r' idx /\
    rd_rows r' = map (fun row => if chunk_id row =? va_valueid tp then set_state (gone is_speculative) row else row) (rd_rows r).
Proof.
  intros Hp Hr Hok Hsn Hlive. eexists _, _. split; [by eapply toast_delete_ok|]. split; [done|]. split; [by apply mark_rel_ok|done].
Qed.

(** Deleting the value that the empty table got. *)
Definition stored_world : World := match toast_save_datum empty_world (mkRelation 20000 0) (plain [1; 2; 3]) None with Ok (w, _) => w | Err _ => empty_world end.
Definition stored_table : ToastRelation := mkToastRel 20000 TYPSTORAGE_PLAIN [mkIndex true true true [(16384, 0, 0%nat)]] [mkRow 16384 0 (plain [1; 2; 3]) RowLive].

Lemma toast_delete_exact_witness :
  exists w' r', toast_delete_datum stored_world (toast_pointer_datum (mkExternal 7 3 16384 20000)) false = Ok w' /\
    toast_rels w' = <[20000 := r']> (toast_rels stored_world) /\ rel_ok r' (mkIndex true true true [(16384, 0, 0%nat)]) /\
    rd_rows r' = map (fun row => if chunk_id row =? 16384 then set_state (gone false) row else row) (rd_rows stored_table).
Proof.
  apply (toast_delete_exact stored_world (mkExternal 7 3 16384 20000) stored_table (mkIndex true true true [(16384, 0, 0%nat)]) false).
  - unfold pointer_ok, in_uint, MaxAllocSize, VARHDRSZ. cbn. lia.
  - vm_compute. reflexivity.
  - split; [done|done| |].
    + intros [|tid] row Hr; [|done]. injection Hr as <-. by left.
    + constructor; [|constructor]. intros _. split; [repeat constructor|]. intros e [<-|[]]. by eexists.
  - vm_compute. reflexivity.
  - intros [|tid] row Hr _; [|done]. by injection Hr as <-.
Defined.

(** ** Toasted range bounds *)

(** The TOAST access method that the range functions use. *)
Definition world_toast (w : World) : Toast :=
  {| Varlena.detoast_attr p := match Toast.detoast_attr w p with Ok q => q | Err _ => [] end |}.

(** A compressed value or a pointer to a stored one. *)
Definition toasted_value (w : World) (data p : list Z) : Prop :=
  fits data /\
  ((exists c, p = comp_form data c /\ encodes data c /\ Z.of_nat (length c) + TOAST_COMPRESS_HDRSZ < Z.of_nat (length data) - 2) \/
   (exists compressed tp, p = toast_pointer_datum tp /\ external_value w data compressed tp)).

(** C17: A bound whose value is toasted is serialized as the plain value: with
    this TOAST access method [range_serialize] gets the plain value from a
    compressed one and from a pointer to a stored one. *)
Theorem toasted_bound w et data p :
  typlen et = -1 -> toasted_value w data p -> @detoast_bound (world_toast w) et (DPtr p) = DPtr (plain data).
Proof.
  intros Hl [Hfit Ht]. unfold detoast_bound, pg_detoast_datum_packed. rewrite Hl. cbn [Z.eqb Pos.eqb DatumGetPointer].
  assert (Hp : Toast.detoast_attr w p = Ok (plain data) /\ VARATT_IS_4B_C p || VARATT_IS_1B_E p = true).
  { destruct Ht as [(c & -> & He & Hc)|(b & tp & -> & Hx)]; (split; [|]).
    - by apply detoast_inline; [|constructor].
    - destruct (comp_facts data c Hfit Hc) as (F & _). by rewrite (hf_comp _ _ _ _ _ F).
    - by eapply detoast_external.
    - done. }
  destruct Hp as [E ->]. cbn. by rewrite E.
Qed.

Definition text_like : ElemType := mkElemType (-1) false TYPALIGN_INT TYPSTORAGE_EXTENDED.

Lemma toasted_bound_witness :
  @detoast_bound (world_toast empty_world) text_like (DPtr (comp_form (replicate 50 7) [2; 7; 15; 1; 31])) = DPtr (plain (replicate 50 7)).
Proof.
  apply (toasted_bound empty_world text_like (replicate 50 7)).
  - reflexivity.
  - split; [vm_compute; discriminate|]. left.
    apply (toast_compress_comp (replicate 50 7) (plain (replicate 50 7))); [vm_compute; discriminate|by left|vm_compute; reflexivity].
Defined.

(** ** Storing values while a table is rewritten

    During a rewrite values go to a new TOAST table while their pointers name
    the old one, whose OID the new table takes in the end.  The value id is that
    of the old value, or one that is free in both tables. *)

(** ** A value id that is free in both tables *)

Definition ids (idx : ToastIndex) : list Z := map (fun e : Entry => e.1.1) (idx_entries idx).

(** The search for a free id goes through the OIDs in order. *)
Lemma new_oid_loop_position fuel idx next v n :
  in_uint 32 next -> new_oid_loop fuel idx next = Ok (v, n) ->
  exists j, v = nth_oid next j /\ (forall i, (i < j)%nat -> In (nth_oid next i) (ids idx)) /\
    in_uint 32 n /\ forall k, nth_oid n k = nth_oid next (S j + k).
Proof.
  revert next. induction fuel as [|fuel IH]; intros next Hn; cbn [new_oid_loop]; [done|].
  destruct (GetNewObjectId_range next Hn) as [_ Hn']. rewrite (surjective_pairing (GetNewObjectId next)).
  destruct (valueid_in_index idx (GetNewObjectId next).1) eqn:E.
  - intros H. destruct (IH _ Hn' H) as (j & -> & Hbelow & Hn2 & Hk). exists (S j). split_and!; [by rewrite nth_oid_S| |done|].
    + intros [|i] Hi; [rewrite nth_oid_0 by done; by apply valueid_in_index_spec|]. rewrite <- nth_oid_S by done. apply Hbelow. lia.
    + intros k. rewrite Hk. by rewrite nth_oid_S.
  - intros H. apply Ok_inj, pair_equal_spec in H as [<- <-]. exists 0%nat. split_and!; [by rewrite nth_oid_0|lia|done|]. intros k. by rewrite nth_oid_S.
Qed.

(** As many OIDs as there are ids cannot all be in use. *)
Lemma positions_bounded next (l : list Z) q :
  Z.of_nat (length l) < oid_count -> (forall i, (i < q)%nat -> In (nth_oid next i) l) -> (q <= length l)%nat.
Proof.
  intros Hl Hall. destruct (Nat.le_gt_cases q (length l)) as [|Hgt]; [done|exfalso].
  assert (Hnd : List.NoDup (map (nth_oid next) (seq 0 (S (length l))))).
  { apply Injective_map_NoDup_in; [|apply seq_NoDup]. intros x y Hx%in_seq Hy%in_seq. apply nth_oid_inj; lia. }
  apply (List.NoDup_incl_length (l' := l)) in Hnd; [rewrite length_map, length_seq in Hnd; lia|].
  intros v (i & <- & Hi%in_seq)%in_map_iff. apply Hall. lia.
Qed.

Section Rewrite.
Context (w : World) (idx : ToastIndex) (toastoid : Z) (old : ToastRelation) (oldidx : ToastIndex).
Hypothesis Hold : toast_rels w !! toastoid = Some old.
Hypothesis Hvalid : first_valid (rd_indexes old) = Some oldidx.
Hypothesis Hroom : Z.of_nat (length (idx_entries idx) + length (idx_entries oldidx)) < oid_count.

(** What the loop has found: [found] are the ids that it has passed over
    because of the old table, in the first [p] OIDs. *)
Lemma rewrite_oid_loop_ok fuel next0 next p found :
  in_uint 32 next -> (forall k, nth_oid next k = nth_oid next0 (p + k)) ->
  List.NoDup found -> incl found (ids oldidx) -> (forall x, In x found -> exists i, (i < p)%nat /\ x = nth_oid next0 i) ->
  (forall i, (i < p)%nat -> In (nth_oid next0 i) (ids idx ++ found)) -> (length (idx_entries oldidx) < length found + fuel)%nat ->
  exists v n, rewrite_oid_loop fuel w idx toastoid next = Ok (v, n) /\
    valueid_in_index idx v = false /\ valueid_in_index oldidx v = false /\ FirstNormalObjectId <= v < 2 ^ 32 /\ in_uint 32 n.
Proof.
  revert next p found. induction fuel as [|fuel IH]; intros next p found Hn Hpos Hnd Hincl Hin Hall Hf.
  { pose proof (List.NoDup_incl_length Hnd Hincl) as Hle. unfold ids in Hle. rewrite length_map in Hle. lia. }
  cbn [rewrite_oid_loop].
  destruct (GetNewOidWithIndex_ok idx next Hn ltac:(lia)) as (v & n & E & Hfree & Hv & Hn'). rewrite E. cbn [mbind result_bind].
  unfold toastid_valueid_exists, table_open. rewrite Hold. cbn [mbind result_bind].
  unfold toastrel_valueid_exists, toast_open_indexes. rewrite Hvalid. cbn [mbind result_bind].
  destruct (valueid_in_index oldidx v) eqn:Eold; [|by exists v, n].
  destruct (new_oid_loop_position _ idx next v n Hn E) as (j & Ev & Hbelow & _ & Hk).
  assert (Hbelow' : forall i, (i < p + j)%nat -> In (nth_oid next0 i) (ids idx ++ found)).
  { intros i Hi. destruct (Nat.lt_ge_cases i p); [by apply Hall|]. apply in_or_app. left.
    replace i with (p + (i - p))%nat by lia. rewrite <- Hpos. apply Hbelow. lia. }
  assert (Hlen : (length (ids idx ++ found) <= length (idx_entries idx) + length (idx_entries oldidx))%nat).
  { rewrite length_app. pose proof (List.NoDup_incl_length Hnd Hincl) as Hle. unfold ids in *. rewrite length_map in *. lia. }
  assert (Hpj : (p + j <= length (ids idx ++ found))%nat) by (apply (positions_bounded next0); [lia|done]).
  apply (IH n (p + S j)%nat (v :: found)); [done| | | | | |cbn [length]; lia].
  - intros k. rewrite Hk, Hpos. f_equal. lia.
  - constructor; [|done]. intros Hvf. destruct (Hin v Hvf) as (i & Hi & Ei). rewrite Ev, Hpos in Ei. apply nth_oid_inj in Ei; lia.
  - intros x [<-|Hx]; [by apply valueid_in_index_spec|by apply Hincl].
  - intros x [<-|Hx]; [exists (p + j)%nat; split; [lia|by rewrite Ev, Hpos]|].
    destruct (Hin x Hx) as (i & Hi & ->). exists i. split; [lia|done].
  - intros i Hi. destruct (Nat.lt_ge_cases i (p + j)) as [Hlt|Hge].
    + apply in_or_app. destruct (in_app_or _ _ _ (Hbelow' i Hlt)) as [|]; [by left|right; by right].
    + apply in_or_app. right. left. rewrite Ev, Hpos. f_equal. lia.
Qed.

(** The search ends with the fuel that [choose_valueid] gives it. *)
Lemma rewrite_search_ok next :
  in_uint 32 next ->
  exists v n, rewrite_oid_loop (rewrite_fuel w toastoid) w idx toastoid next = Ok (v, n) /\
    valueid_in_index idx v = false /\ valueid_in_index oldidx v = false /\ FirstNormalObjectId <= v < 2 ^ 32 /\ in_uint 32 n.
Proof.
  intros Hn. unfold rewrite_fuel, table_open, toast_open_indexes. rewrite Hold, Hvalid.
  apply (rewrite_oid_loop_ok _ next next 0 []); try done; [apply List.NoDup_nil|intros x []|lia|cbn [length]; lia].
Qed.

End Rewrite.

(** ** Saving a value *)

(** A relation that is being rewritten. *)
Record rewrite_table (w : World) (rel : Relation) (r : ToastRelation) (idx : ToastIndex) : Prop := {
  rt_oid : 0 < rd_toastoid rel < 2 ^ 32;
  rt_rel : toast_rels w !! reltoastrelid rel = Some r;
  rt_ok : rel_ok r idx;
  rt_next : in_uint 32 (nextOid w);
  rt_old : exists old oldidx, toast_rels w !! rd_toastoid rel = Some old /\ first_valid (rd_indexes old) = Some oldidx /\
    Z.of_nat (length (idx_entries idx) + length (idx_entries oldidx)) < oid_count;
  rt_snapshot : active_snapshot w = true
}.

(** The old value, when there was one, is from some TOAST table; if it is from
    this relation's and was copied already, then with the same stored bytes. *)
Definition old_value (rel : Relation) (r : ToastRelation) (idx : ToastIndex) (d : list Z) (oldexternal : option (list Z)) : Prop :=
  match oldexternal with
  | None => True
  | Some o => exists tp, o = toast_pointer_datum tp /\ pointer_ok tp /\ va_valueid tp <> InvalidOid /\
      (va_toastrelid tp = rd_toastoid rel -> valueid_in_index idx (va_valueid tp) = true ->
       stores r idx (va_valueid tp) d (nchunks (length d)))
  end.

Lemma choose_valueid_rewrite w rel r idx d oldexternal :
  rewrite_table w rel r idx -> old_value rel r idx d oldexternal ->
  exists v n b, choose_valueid w rel r idx oldexternal = Ok (v, n, b) /\ in_uint 32 v /\
    if (b : bool) then stores r idx v d (nchunks (length d)) else valueid_in_index idx v = false.
Proof.
  intros [Hoid _ Hok Hnext (old & oldidx & Hold & Hvalid & Hroom) _] Hov. unfold choose_valueid.
  destruct (Z.eqb_spec (rd_toastoid rel) InvalidOid) as [E|_]; [unfold InvalidOid in E; lia|].
  assert (Hfresh : exists v n, ('(valueid, nextOid) ← rewrite_oid_loop (rewrite_fuel w (rd_toastoid rel)) w idx (rd_toastoid rel) (nextOid w);
                                Ok (valueid, nextOid, false)) = Ok (v, n, false) /\ in_uint 32 v /\ valueid_in_index idx v = false).
  { destruct (rewrite_search_ok w idx _ old oldidx Hold Hvalid Hroom (nextOid w) Hnext) as (v & n & -> & Hfree & _ & Hv & _).
    exists v, n. split_and!; [done|unfold in_uint, FirstNormalObjectId in *; lia|done]. }
  destruct Hfresh as (v & n & Ef & Hv & Hfree). destruct oldexternal as [o|]; [|by exists v, n, false].
  destruct Hov as (tp & -> & Hp & Hid & Hcopied). destruct (toast_pointer_facts tp Hp) as (_ & _ & ->).
  destruct (Z.eqb_spec (va_toastrelid tp) (rd_toastoid rel)) as [E|]; [|by exists v, n, false].
  unfold toastrel_valueid_exists, toast_open_indexes. rewrite (ro_valid _ _ Hok). cbn [mbind result_bind].
  destruct (Z.eqb_spec (va_valueid tp) InvalidOid); [done|].
  exists (va_valueid tp), (nextOid w), (valueid_in_index idx (va_valueid tp)). split; [done|]. split; [by destruct Hp as (_ & _ & _ & ? & _)|].
  destruct (valueid_in_index idx (va_valueid tp)); [by apply Hcopied|done].
Qed.

(** The pointer that [toast_save_datum] returns during a rewrite reads the value
    once the new table has taken the OID of the old one. *)
Theorem toast_rewrite_roundtrip w rel r idx data p oldexternal :
  rewrite_table w rel r idx -> fits data -> inline_form data p ->
  old_value rel r idx (data_to_save p).1.1.1 oldexternal ->
  exists w' ptr r', toast_save_datum w rel p oldexternal = Ok (w', ptr) /\ toast_rels w' !! reltoastrelid rel = Some r' /\
    detoast_attr (set_rel w' (rd_toastoid rel) r') ptr = Ok (plain data).
Proof.
  intros Hrt Hfit Hp Hov. pose proof Hrt as [Hoid Hrel Hok Hnext _ Hsnap]. unfold toast_save_datum, table_open, toast_open_indexes.
  rewrite Hrel. cbn [mbind result_bind]. rewrite (ro_valid _ _ Hok). cbn [mbind result_bind].
  destruct (data_to_save_ok data p Hfit Hp) as (d & Ed & Hst & Hlen). rewrite Ed in Hov. cbn [fst] in Hov. rewrite Ed.
  destruct (Z.eqb_spec (rd_toastoid rel) InvalidOid) as [E|_]; [unfold InvalidOid in E; lia|]. cbn [negb].
  destruct (choose_valueid_rewrite w rel r idx d oldexternal Hrt Hov) as (v & n & b & -> & Hv & Hb). cbn [mbind result_bind].
  assert (Hsave : exists r' idx', save_chunks (S (Z.to_nat (if b then 0 else Z.of_nat (length d)))) r v 0 (if b then 0 else Z.of_nat (length d)) d = Ok r' /\
                    rel_ok r' idx' /\ stores r' idx' v d (nchunks (length d))).
  { destruct b; [by exists r, idx|]. destruct (fresh_stores r idx v d Hok Hb) as [Hs0 Hb0]. pose proof (nchunks_le (length d)).
    destruct (save_chunks_ok (S (length d)) r idx v d 0 Hok Hs0 Hb0 ltac:(lia) ltac:(lia)) as (r' & idx' & E & Hok' & Hs' & _).
    rewrite Nat.mul_0_l, drop_0, Z.sub_0_r in E. change (Z.of_nat 0) with 0 in E. rewrite Nat2Z.id, E. by exists r', idx'. }
  destruct Hsave as (r' & idx' & -> & Hok' & Hs'). cbn [mbind result_bind].
  eexists _, _, r'. split; [done|]. split; [apply lookup_insert_eq|]. unfold fits, VARHDRSZ in Hfit.
  rewrite !swrap32_small by (unfold VARHDRSZ; lia). apply (detoast_external _ data (VARATT_IS_COMPRESSED p)).
  exists d. split_and!; [|done|done]. split; [|done|done|].
  - unfold pointer_ok, VARHDRSZ. cbn [va_rawsize va_extsize va_valueid va_toastrelid]. unfold in_uint in *. split_and!; (done || lia).
  - exists r', idx'. cbn [va_toastrelid va_valueid]. split_and!; [apply lookup_insert_eq|done|done].
Qed.
