(* ===== verification/HeapTuple.v ===== *)
(** * Heap tuples

    heaptuple.c, with the macros of access/htup_details.h and
    access/tupmacs.h: forming a tuple from values, taking it apart again, in
    full or one attribute at a time, changing attributes, and expanding a
    tuple with the missing values of columns added later.

    A NULL is [None].  A tuple is its header fields and its bytes from
    [t_bits] on, at offset [SizeofHeapTupleHeader] of the header: the null
    bitmap when there is one, padding, and from offset [t_hoff] the data.
    Tuples start at maximally aligned addresses, so that addresses are aligned
    as offsets in the tuple are. *)

From S2P Require Import Prelude Varlena PgLz Toast.

(** ** Tuple descriptors (access/tupdesc.h) *)

(** An attribute: the storage properties, the cached offset (negative when
    unknown), and the entry of the missing-values array with the flag that
    says to look there. *)
Record Attr : Type := mkAttr {
  att_type : ElemType;
  attcacheoff : Z;
  atthasmissing : bool;
  am_value : option Datum
}.

(** [td_missing]: whether [constr->missing] is there. *)
Record TupleDesc : Type := mkTupleDesc {
  tdtypeid : Z;
  tdtypmod : Z;
  td_missing : bool;
  td_attrs : list Attr
}.

Definition attlen (a : Attr) : Z := typlen (att_type a).
Definition attalign (a : Attr) : TypAlign := typalign (att_type a).
Definition td_natts (td : TupleDesc) : Z := Z.of_nat (length (td_attrs td)).
Definition td_types (td : TupleDesc) : list ElemType := map att_type (td_attrs td).

Definition set_cacheoff (a : Attr) (off : Z) : Attr := mkAttr (att_type a) off (atthasmissing a) (am_value a).
Definition set_attrs (td : TupleDesc) (attrs : list Attr) : TupleDesc :=
  mkTupleDesc (tdtypeid td) (tdtypmod td) (td_missing td) attrs.

(** ** Tuples (access/htup_details.h) *)

Definition ItemPointer : Type := Z * Z.

Definition InvalidItemPointer : ItemPointer := (0xFFFFFFFF, 0).

Record HeapTuple : Type := mkTuple {
  t_len : Z;
  t_self : ItemPointer;
  t_tableOid : Z;
  t_choice : Z * Z * Z;     (* datum_len_, datum_typmod, datum_typeid *)
  t_ctid : ItemPointer;
  t_infomask2 : Z;
  t_infomask : Z;
  t_hoff : Z;
  t_bits : list Z
}.

Definition HEAP_HASNULL : Z := 1.
Definition HEAP_HASVARWIDTH : Z := 2.
Definition HEAP_HASEXTERNAL : Z := 4.
Definition HEAP_NATTS_MASK : Z := 0x07FF.
Definition MaxTupleAttributeNumber : Z := 1664.
Definition SizeofHeapTupleHeader : Z := 23.
Definition HEAPTUPLESIZE : Z := 24.
Definition HIGHBIT : Z := 0x80.

Definition MAXALIGN (len : Z) : Z := TYPEALIGN 8 len.
Definition BITMAPLEN (natts : Z) : Z := (natts + 7) ÷ 8.

Definition HeapTupleHeaderGetNatts (tup : HeapTuple) : Z := Z.land (t_infomask2 tup) HEAP_NATTS_MASK.
Definition HeapTupleHeaderSetNatts (infomask2 natts : Z) : Z := Z.lor (Z.land infomask2 (Z.lnot HEAP_NATTS_MASK)) natts.
Definition HeapTupleHasNulls (tup : HeapTuple) : bool := bit_set (t_infomask tup) HEAP_HASNULL.
Definition HeapTupleNoNulls (tup : HeapTuple) : bool := negb (bit_set (t_infomask tup) HEAP_HASNULL).
Definition HeapTupleHasVarWidth (tup : HeapTuple) : bool := bit_set (t_infomask tup) HEAP_HASVARWIDTH.
Definition HeapTupleHasExternal (tup : HeapTuple) : bool := bit_set (t_infomask tup) HEAP_HASEXTERNAL.

(** The data of the tuple. *)
Definition t_data (tup : HeapTuple) : list Z := drop (Z.to_nat (t_hoff tup - SizeofHeapTupleHeader)) (t_bits tup).

Definition att_isnull (att : Z) (bits : list Z) : bool :=
  Z.land (byte_at bits (Z.shiftr att 3)) (Z.shiftl 1 (Z.land att 7)) =? 0.

Definition fetchatt (a : ElemType) (p : list Z) : Datum := fetch_att p (typbyval a) (typlen a).

(** ** The size of the data *)

Section Form.
Variable (w : World).

Definition att_data_size (data_length : Z) (att : ElemType) (val : Datum) : result Z :=
  let p := DatumGetPointer val in
  if TYPE_IS_PACKABLE (typlen att) (typstorage att) && VARATT_CAN_MAKE_SHORT p then
    Ok (data_length + VARATT_CONVERTED_SHORT_SIZE p)
  else if (typlen att =? -1) && VARATT_IS_EXTERNAL_EXPANDED p then
    flat ← flatten_object w p;
    Ok (att_align_nominal data_length (typalign att) + Z.of_nat (length flat))
  else
    let data_length := att_align_datum data_length (typalign att) (typlen att) val in
    Ok (att_addlength_datum data_length (typlen att) val).

Fixpoint compute_data_size (atts : list ElemType) (values : list (option Datum)) (data_length : Z) : result Z :=
  match atts, values with
  | [], _ => Ok data_length
  | att :: atts', v :: values' =>
      data_length ← match v with None => Ok data_length | Some val => att_data_size data_length att val end;
      compute_data_size atts' values' data_length
  | _ :: _, [] => undefined "values array too short"
  end.

Definition heap_compute_data_size (atts : list ElemType) (values : list (option Datum)) : result Z :=
  compute_data_size atts values 0.

(** ** Filling in values *)

(** The position in the null bitmap ([None] is NULL) and the mask of the last
    attribute, the bytes of the tuple, the position for data, the infomask. *)
Record FillState : Type := mkFill {
  f_bit : option Z;
  f_bitmask : Z;
  f_buf : list Z;
  f_data : Z;
  f_infomask : Z
}.

Variable (base : Z).

(** The first part of [fill_val]: the bit of the attribute, and whether that
    is all. *)
Definition fill_bit (st : FillState) (isnull : bool) : result (FillState * bool) :=
  match f_bit st with
  | None => Ok (st, false)
  | Some bit =>
      '(bit, bitmask, buf) ←
        (if negb (f_bitmask st =? HIGHBIT) then Ok (bit, Z.shiftl (f_bitmask st) 1, f_buf st)
         else buf ← buf_write base (f_buf st) (base + (bit + 1)) [0]; Ok (bit + 1, 1, buf));
      if isnull then
        Ok (mkFill (Some bit) bitmask buf (f_data st) (Z.lor (f_infomask st) HEAP_HASNULL), true)
      else
        buf ← buf_write base buf (base + bit) [Z.lor (byte_at buf bit) bitmask];
        Ok (mkFill (Some bit) bitmask buf (f_data st) (f_infomask st), false)
  end.

(** Copy [bs] to the position [data] and advance. *)
Definition fill_copy (st : FillState) (data : Z) (bs : list Z) (infomask : Z) : result FillState :=
  buf ← buf_write base (f_buf st) data bs;
  Ok (mkFill (f_bit st) (f_bitmask st) buf (data + Z.of_nat (length bs)) infomask).

(** The second part: the value. *)
Definition fill_data (att : ElemType) (st : FillState) (datum : Datum) : result FillState :=
  let data := f_data st in
  let infomask := f_infomask st in
  let val := DatumGetPointer datum in
  if typbyval att then
    bs ← store_att_byval datum (typlen att);
    fill_copy st (att_align_nominal data (typalign att)) bs infomask
  else if typlen att =? -1 then
    let infomask := Z.lor infomask HEAP_HASVARWIDTH in
    if VARATT_IS_EXTERNAL val then
      if VARATT_IS_EXTERNAL_EXPANDED val then
        flat ← flatten_object w val;
        fill_copy st (att_align_nominal data (typalign att)) flat infomask
      else fill_copy st data (bytes_at val 0 (VARSIZE_EXTERNAL val)) (Z.lor infomask HEAP_HASEXTERNAL)
    else if VARATT_IS_SHORT val then fill_copy st data (bytes_at val 0 (VARSIZE_1B val)) infomask
    else if bool_decide (typstorage att <> TYPSTORAGE_PLAIN) && VARATT_CAN_MAKE_SHORT val then
      let data_length := VARATT_CONVERTED_SHORT_SIZE val in
      fill_copy st data (SET_VARSIZE_SHORT data_length :: bytes_at (VARDATA val) 0 (data_length - 1)) infomask
    else fill_copy st (att_align_nominal data (typalign att)) (bytes_at val 0 (VARSIZE_4B val)) infomask
  else if typlen att =? -2 then
    fill_copy st data (bytes_at val 0 (strlen val + 1)) (Z.lor infomask HEAP_HASVARWIDTH)
  else fill_copy st (att_align_nominal data (typalign att)) (bytes_at val 0 (typlen att)) infomask.

(** No caller passes a NULL without a bitmap. *)
Definition fill_val (att : ElemType) (st : FillState) (datum : option Datum) : result FillState :=
  '(st, stop) ← fill_bit st (bool_decide (datum = None));
  if (stop : bool) then Ok st
  else match datum with
       | Some d => fill_data att st d
       | None => undefined "NULL without a null bitmap"
       end.

Fixpoint fill_loop (atts : list ElemType) (values : list (option Datum)) (st : FillState) : result FillState :=
  match atts, values with
  | [], _ => Ok st
  | att :: atts', v :: values' => st ← fill_val att st v; fill_loop atts' values' st
  | _ :: _, [] => undefined "values array too short"
  end.

(** [buf] holds the tuple from the bitmap on; [data] is the position of the
    data and [bit] says whether there is a bitmap. *)
Definition heap_fill_tuple (atts : list ElemType) (values : list (option Datum)) (buf : list Z) (data infomask : Z) (bit : bool)
  : result FillState :=
  let infomask := Z.land infomask (Z.lnot (Z.lor (Z.lor HEAP_HASNULL HEAP_HASVARWIDTH) HEAP_HASEXTERNAL)) in
  fill_loop atts values
    (mkFill (if bit then Some (-1) else None) (if bit then HIGHBIT else 0) buf data infomask).

End Form.

(** ** Forming *)

Definition has_null (values : list (option Datum)) : bool := existsb (fun v => bool_decide (v = None)) values.

Definition heap_form_tuple (w : World) (td : TupleDesc) (values : list (option Datum)) : result HeapTuple :=
  let natts := td_natts td in
  if natts >? MaxTupleAttributeNumber then ereport ERRCODE_TOO_MANY_COLUMNS "number of columns exceeds limit"
  else
    let hasnull := has_null (take (length (td_attrs td)) values) in
    let len := SizeofHeapTupleHeader + (if hasnull then BITMAPLEN natts else 0) in
    let hoff := MAXALIGN len in
    data_len ← heap_compute_data_size w (td_types td) values;
    let len := hoff + data_len in
    _ ← palloc0 (HEAPTUPLESIZE + len);
    st ← heap_fill_tuple w SizeofHeapTupleHeader (td_types td) values
           (replicate (Z.to_nat (len - SizeofHeapTupleHeader)) 0) hoff 0 hasnull;
    Ok (mkTuple (uwrap 32 len) InvalidItemPointer InvalidOid (SET_VARSIZE len, tdtypmod td, tdtypeid td) InvalidItemPointer
          (HeapTupleHeaderSetNatts 0 natts) (f_infomask st) (uwrap 8 hoff) (f_buf st)).

(** ** Taking apart *)

(** The entry of the missing-values array, for an attribute that is not in the
    tuple. *)
Definition missing_value (a : Attr) : option Datum := if atthasmissing a then am_value a else None.

Definition getmissingattr (td : TupleDesc) (attnum : Z) : option Datum :=
  match td_attrs td !! Z.to_nat (attnum - 1) with Some a => missing_value a | None => None end.

(** The offset of an attribute that is not NULL, from the end of the one before
    it: the attribute with its cached offset, the offset, and whether the walk
    has to go on without the cache. *)
Definition attr_offset (tp : list Z) (a : Attr) (off : Z) (slow : bool) : Attr * Z * bool :=
  if negb slow && (attcacheoff a >=? 0) then (a, attcacheoff a, slow)
  else if attlen a =? -1 then
    if negb slow && (off =? att_align_nominal off (attalign a)) then (set_cacheoff a off, off, slow)
    else (a, att_align_pointer off (attalign a) (-1) (drop (Z.to_nat off) tp), true)
  else
    let off := att_align_nominal off (attalign a) in
    (if slow then a else set_cacheoff a off, off, slow).

Section Deform.
Variable (hasnulls : bool) (bp tp : list Z).

Fixpoint deform_loop (attrs : list Attr) (attnum off : Z) (slow : bool) : list (option Datum) * list Attr :=
  match attrs with
  | [] => ([], [])
  | a :: attrs' =>
      if hasnulls && att_isnull attnum bp then
        let '(values, attrs') := deform_loop attrs' (attnum + 1) off true in
        (None :: values, a :: attrs')
      else
        let '(a, off, slow) := attr_offset tp a off slow in
        let p := drop (Z.to_nat off) tp in
        let value := fetchatt (att_type a) p in
        let '(values, attrs') :=
          deform_loop attrs' (attnum + 1) (att_addlength_pointer off (attlen a) p) (slow || (attlen a <=? 0)) in
        (Some value :: values, a :: attrs')
  end.

(** The walk of [nocachegetattr] to the attribute [target]: its offset. *)
Fixpoint getattr_walk (attrs : list Attr) (i off : Z) (slow : bool) (target : Z) : result (Z * list Attr) :=
  match attrs with
  | [] => undefined "no such attribute"
  | a :: attrs' =>
      if hasnulls && att_isnull i bp then
        '(o, attrs') ← getattr_walk attrs' (i + 1) off true target;
        Ok (o, a :: attrs')
      else
        let '(a, off, slow) := attr_offset tp a off slow in
        if i =? target then Ok (off, a :: attrs')
        else
          '(o, attrs') ← getattr_walk attrs' (i + 1) (att_addlength_pointer off (attlen a) (drop (Z.to_nat off) tp))
                           (slow || (attlen a <=? 0)) target;
          Ok (o, a :: attrs')
  end.

End Deform.

(** The values, and the descriptor with the offsets that got cached. *)
Definition heap_deform_tuple (tup : HeapTuple) (td : TupleDesc) : list (option Datum) * TupleDesc :=
  let natts := Z.to_nat (Z.min (HeapTupleHeaderGetNatts tup) (td_natts td)) in
  let '(values, attrs) := deform_loop (HeapTupleHasNulls tup) (t_bits tup) (t_data tup) (take natts (td_attrs td)) 0 0 false in
  let rest := drop natts (td_attrs td) in
  (values ++ map missing_value rest, set_attrs td (attrs ++ rest)).

(** Is there a null before the attribute? *)
Definition nulls_before (bp : list Z) (attnum : Z) : bool :=
  let byte := Z.shiftr attnum 3 in
  let finalbit := Z.land attnum 7 in
  if negb (Z.land (Z.lnot (byte_at bp byte)) (Z.shiftl 1 finalbit - 1) =? 0) then true
  else existsb (fun i => negb (byte_at bp i =? 0xFF)) (seqZ 0 byte).

(** Cache the offsets of the leading fixed-width columns, past those that are
    cached already; [off] is the end of the attribute before. *)
Fixpoint init_offsets (off : Z) (skipping : bool) (attrs : list Attr) : list Attr :=
  match attrs with
  | [] => []
  | a :: attrs' =>
      if skipping && (attcacheoff a >? 0) then a :: init_offsets (attcacheoff a + attlen a) true attrs'
      else if attlen a <=? 0 then a :: attrs'
      else
        let off := att_align_nominal off (attalign a) in
        set_cacheoff a off :: init_offsets (off + attlen a) false attrs'
  end.

Definition init_all_offsets (attrs : list Attr) : list Attr :=
  match attrs with
  | [] => []
  | a :: attrs' => set_cacheoff a 0 :: init_offsets (0 + attlen a) true attrs'
  end.

(** An attribute that is in the tuple and not NULL; [attnum] counts from 1. *)
Definition nocachegetattr (tup : HeapTuple) (attnum : Z) (td : TupleDesc) : result (Datum * TupleDesc) :=
  let attnum := attnum - 1 in
  let bp := t_bits tup in
  let tp := t_data tup in
  att ← array_get (td_attrs td) attnum;
  let slow := negb (HeapTupleNoNulls tup) && nulls_before bp attnum in
  if negb slow && (attcacheoff att >=? 0) then
    Ok (fetchatt (att_type att) (drop (Z.to_nat (attcacheoff att)) tp), td)
  else
    let slow := slow || (HeapTupleHasVarWidth tup
                         && existsb (fun a => attlen a <=? 0) (take (S (Z.to_nat attnum)) (td_attrs td))) in
    if negb slow then
      let attrs := init_all_offsets (td_attrs td) in
      att ← array_get attrs attnum;
      Ok (fetchatt (att_type att) (drop (Z.to_nat (attcacheoff att)) tp), set_attrs td attrs)
    else
      '(off, attrs) ← getattr_walk (HeapTupleHasNulls tup) bp tp (td_attrs td) 0 0 false attnum;
      Ok (fetchatt (att_type att) (drop (Z.to_nat off) tp), set_attrs td attrs).

Definition fastgetattr (tup : HeapTuple) (attnum : Z) (td : TupleDesc) : result (option Datum * TupleDesc) :=
  if HeapTupleNoNulls tup then
    att ← array_get (td_attrs td) (attnum - 1);
    if attcacheoff att >=? 0 then
      Ok (Some (fetchatt (att_type att) (drop (Z.to_nat (attcacheoff att)) (t_data tup))), td)
    else '(d, td) ← nocachegetattr tup attnum td; Ok (Some d, td)
  else if att_isnull (attnum - 1) (t_bits tup) then Ok (None, td)
  else '(d, td) ← nocachegetattr tup attnum td; Ok (Some d, td).

(** [heap_getattr] of a user attribute. *)
Definition heap_getattr (tup : HeapTuple) (attnum : Z) (td : TupleDesc) : result (option Datum * TupleDesc) :=
  if attnum >? HeapTupleHeaderGetNatts tup then Ok (getmissingattr td attnum, td)
  else fastgetattr tup attnum td.

(** The system attributes, -6 to -1, are never null. *)
Definition heap_attisnull (tup : HeapTuple) (attnum : Z) (td : option TupleDesc) : result bool :=
  if attnum >? HeapTupleHeaderGetNatts tup then
    match td with
    | Some td => att ← array_get (td_attrs td) (attnum - 1); Ok (negb (atthasmissing att))
    | None => Ok true
    end
  else if attnum >? 0 then Ok (if HeapTupleNoNulls tup then false else att_isnull (attnum - 1) (t_bits tup))
  else if (-6 <=? attnum) && (attnum <=? -1) then Ok false
  else elog "invalid attnum".

(** ** Changing attributes *)

Fixpoint replace_values (values replValues : list (option Datum)) (doReplace : list bool) : list (option Datum) :=
  match values, replValues, doReplace with
  | v :: vs, r :: rs, b :: bs => (if b : bool then r else v) :: replace_values vs rs bs
  | _, _, _ => values
  end.

(** The new tuple takes over the identification of the old one. *)
Definition copy_identity (newTuple tuple : HeapTuple) : HeapTuple :=
  mkTuple (t_len newTuple) (t_self tuple) (t_tableOid tuple) (t_choice newTuple) (t_ctid tuple)
    (t_infomask2 newTuple) (t_infomask newTuple) (t_hoff newTuple) (t_bits newTuple).

Definition heap_modify_tuple (w : World) (tuple : HeapTuple) (td : TupleDesc) (replValues : list (option Datum)) (doReplace : list bool)
  : result (HeapTuple * TupleDesc) :=
  let '(values, td) := heap_deform_tuple tuple td in
  newTuple ← heap_form_tuple w td (replace_values values replValues doReplace);
  Ok (copy_identity newTuple tuple, td).

Fixpoint replace_cols (natts : Z) (values : list (option Datum)) (repl : list (Z * option Datum)) : result (list (option Datum)) :=
  match repl with
  | [] => Ok values
  | (attnum, v) :: repl' =>
      if (attnum <=? 0) || (attnum >? natts) then elog "invalid column number"
      else replace_cols natts (<[Z.to_nat (attnum - 1) := v]> values) repl'
  end.

Definition heap_modify_tuple_by_cols (w : World) (tuple : HeapTuple) (td : TupleDesc) (repl : list (Z * option Datum))
  : result (HeapTuple * TupleDesc) :=
  let '(values, td) := heap_deform_tuple tuple td in
  values ← replace_cols (td_natts td) values repl;
  newTuple ← heap_form_tuple w td values;
  Ok (copy_identity newTuple tuple, td).

(** ** Minimal tuples

    A minimal tuple lacks the header fields before [t_infomask2]; its [t_hoff]
    counts them all the same. *)

Record MinimalTuple : Type := mkMinimal {
  m_len : Z;
  m_infomask2 : Z;
  m_infomask : Z;
  m_hoff : Z;
  m_bits : list Z
}.

Definition SizeofMinimalTupleHeader : Z := 15.

Definition MINIMAL_TUPLE_OFFSET : Z := (18 - 4) ÷ 8 * 8.

Definition heap_form_minimal_tuple (w : World) (td : TupleDesc) (values : list (option Datum)) : result MinimalTuple :=
  let natts := td_natts td in
  if natts >? MaxTupleAttributeNumber then ereport ERRCODE_TOO_MANY_COLUMNS "number of columns exceeds limit"
  else
    let hasnull := has_null (take (length (td_attrs td)) values) in
    let len := SizeofMinimalTupleHeader + (if hasnull then BITMAPLEN natts else 0) in
    let hoff := MAXALIGN len in
    data_len ← heap_compute_data_size w (td_types td) values;
    let len := hoff + data_len in
    _ ← palloc0 len;
    st ← heap_fill_tuple w SizeofMinimalTupleHeader (td_types td) values
           (replicate (Z.to_nat (len - SizeofMinimalTupleHeader)) 0) hoff 0 hasnull;
    Ok (mkMinimal (uwrap 32 len) (HeapTupleHeaderSetNatts 0 natts) (f_infomask st) (uwrap 8 (hoff + MINIMAL_TUPLE_OFFSET)) (f_buf st)).

(** The system columns are zero. *)
Definition heap_tuple_from_minimal_tuple (mtup : MinimalTuple) : HeapTuple :=
  mkTuple (uwrap 32 (m_len mtup + MINIMAL_TUPLE_OFFSET)) InvalidItemPointer InvalidOid (0, 0, 0) (0, 0)
    (m_infomask2 mtup) (m_infomask mtup) (m_hoff mtup) (m_bits mtup).

Definition minimal_tuple_from_heap_tuple (htup : HeapTuple) : MinimalTuple :=
  mkMinimal (uwrap 32 (t_len htup - MINIMAL_TUPLE_OFFSET)) (t_infomask2 htup) (t_infomask htup) (t_hoff htup) (t_bits htup).

(** ** Expanding

    The attributes that a tuple lacks get their missing value, or NULL. *)

(** The entry of an attribute in [attrmiss]. *)
Definition attr_missing (td : TupleDesc) (a : Attr) : option Datum := if td_missing td then am_value a else None.

(** The size of the data with the missing values, and whether one is NULL. *)
Fixpoint expand_size (attrs : list Attr) (targetDataLen : Z) (hasNulls : bool) : Z * bool :=
  match attrs with
  | [] => (targetDataLen, hasNulls)
  | a :: attrs' =>
      match am_value a with
      | Some v =>
          let targetDataLen := att_align_datum targetDataLen (attalign a) (attlen a) v in
          expand_size attrs' (att_addlength_datum targetDataLen (attlen a) v) hasNulls
      | None => expand_size attrs' targetDataLen true
      end
  end.

(** The bitmap of the source, made up when it has none. *)
Definition expand_bits (sourceTuple : HeapTuple) (sourceNatts sourceNullLen : Z) : list Z :=
  if sourceNullLen >? 0 then bytes_at (t_bits sourceTuple) 0 sourceNullLen
  else
    let bits := replicate (Z.to_nat (BITMAPLEN sourceNatts)) 0xFF in
    if Z.land sourceNatts 7 =? 0 then bits
    else <[Z.to_nat (BITMAPLEN sourceNatts - 1) := uwrap 8 (Z.lnot (Z.shiftl 0xFF (Z.land sourceNatts 7)))]> bits.

(** [hdrsz] is the size of the fixed part of the target's header; [alloc] what
    is allocated before it.  Returns the length, [hoff], the infomask and the
    bytes from the bitmap on. *)
Definition expand_body (w : World) (hdrsz alloc : Z) (sourceTuple : HeapTuple) (td : TupleDesc) : result (Z * Z * Z * list Z) :=
  let hasNulls := HeapTupleHasNulls sourceTuple in
  let sourceNatts := HeapTupleHeaderGetNatts sourceTuple in
  let natts := td_natts td in
  let sourceNullLen := if hasNulls then BITMAPLEN sourceNatts else 0 in
  let sourceDataLen := t_len sourceTuple - t_hoff sourceTuple in
  let absent := drop (Z.to_nat sourceNatts) (td_attrs td) in
  let '(targetDataLen, hasNulls) :=
    if td_missing td then expand_size absent sourceDataLen hasNulls else (sourceDataLen, true) in
  let targetNullLen := if hasNulls then BITMAPLEN natts else 0 in
  let hoff := MAXALIGN (targetNullLen + hdrsz) in
  let len := hoff + targetDataLen in
  _ ← palloc0 (alloc + len);
  let buf := replicate (Z.to_nat (len - hdrsz)) 0 in
  '(nullBits, bitMask, buf) ←
    (if targetNullLen >? 0 then
       let bits := expand_bits sourceTuple sourceNatts sourceNullLen in
       buf ← buf_write hdrsz buf hdrsz bits;
       Ok (Some (Z.of_nat (length bits) - 1), Z.shiftl 1 (Z.land (sourceNatts - 1) 7), buf)
     else Ok (None, 0, buf));
  buf ← buf_write hdrsz buf hoff (bytes_at (t_data sourceTuple) 0 sourceDataLen);
  st ← fill_loop w hdrsz (map att_type absent) (map (attr_missing td) absent)
         (mkFill nullBits bitMask buf (hoff + sourceDataLen) (t_infomask sourceTuple));
  Ok (len, hoff, f_infomask st, f_buf st).

Definition heap_expand_tuple (w : World) (sourceTuple : HeapTuple) (td : TupleDesc) : result HeapTuple :=
  '(len, hoff, infomask, bits) ← expand_body w SizeofHeapTupleHeader HEAPTUPLESIZE sourceTuple td;
  Ok (mkTuple (uwrap 32 len) (t_self sourceTuple) (t_tableOid sourceTuple) (SET_VARSIZE len, tdtypmod td, tdtypeid td) InvalidItemPointer
        (HeapTupleHeaderSetNatts 0 (td_natts td)) infomask (uwrap 8 hoff) bits).

Definition minimal_expand_tuple (w : World) (sourceTuple : HeapTuple) (td : TupleDesc) : result MinimalTuple :=
  '(len, hoff, infomask, bits) ← expand_body w SizeofMinimalTupleHeader 0 sourceTuple td;
  Ok (mkMinimal (uwrap 32 len) (HeapTupleHeaderSetNatts 0 (td_natts td)) infomask (uwrap 8 (hoff + MINIMAL_TUPLE_OFFSET)) bits).
