(* ===== verification/HeapTupleFill.v ===== *)
(** * How a tuple is laid out

    Every legal value occupies a cell: padding when it needs alignment, then its
    stored bytes.  The data of a tuple is the cells of its values one after the
    other, and [heap_fill_tuple] writes exactly them, with a bit per attribute
    in the bitmap. *)

From S2P Require Import Prelude Varlena PgLz Toast HeapTuple.

(** ** Legal attribute values *)

(** What the flattening method of an expanded object has to produce. *)
Definition flat_ok (flat : list Z) : Prop :=
  Forall is_byte flat /\ VARATT_IS_4B_U flat = true /\ VARSIZE_4B flat = Z.of_nat (length flat) /\ 4 <= Z.of_nat (length flat).

Inductive toasted_ok (w : World) (bs : list Z) : Prop :=
| TO_external :
    VARATT_IS_EXTERNAL bs = true -> VARATT_IS_EXTERNAL_EXPANDED bs = false ->
    VARSIZE_EXTERNAL bs = Z.of_nat (length bs) -> toasted_ok w bs
| TO_expanded flat :
    VARATT_IS_EXTERNAL_EXPANDED bs = true -> flatten_object w bs = Ok flat -> flat_ok flat -> toasted_ok w bs
| TO_compressed :
    VARATT_IS_COMPRESSED bs = true -> VARSIZE_4B bs = Z.of_nat (length bs) -> 4 <= Z.of_nat (length bs) -> toasted_ok w bs.

Definition att_datum_ok (w : World) (et : ElemType) (d : Datum) : Prop :=
  datum_ok et d \/ (typbyval et = false /\ typlen et = -1 /\ exists bs, d = DPtr bs /\ toasted_ok w bs).

(** ** Cells *)

Definition cell_expanded (et : ElemType) (d : Datum) : bool :=
  (typlen et =? -1) && VARATT_IS_EXTERNAL_EXPANDED (DatumGetPointer d).

Definition cell_short (et : ElemType) (d : Datum) : bool := negb (cell_expanded et d) && stored_short et d.

Definition cell_bytes (w : World) (et : ElemType) (d : Datum) : list Z :=
  if cell_expanded et d then
    match flatten_object w (DatumGetPointer d) with Ok flat => flat | Err _ => [] end
  else stored_bytes et d.

Definition cell_off (et : ElemType) (d : Datum) (off : Z) : Z :=
  if cell_short et d then off else att_align_nominal off (typalign et).

(** What is read back. *)
Definition cell_datum (w : World) (et : ElemType) (d : Datum) : Datum :=
  if typbyval et then stored_datum et d else DPtr (cell_bytes w et d).

Definition fill_mask (et : ElemType) (d : Datum) (im : Z) : Z :=
  if typbyval et then im
  else if typlen et =? -1 then
    if VARATT_IS_EXTERNAL (DatumGetPointer d) && negb (VARATT_IS_EXTERNAL_EXPANDED (DatumGetPointer d)) then
      Z.lor (Z.lor im HEAP_HASVARWIDTH) HEAP_HASEXTERNAL
    else Z.lor im HEAP_HASVARWIDTH
  else if typlen et =? -2 then Z.lor im HEAP_HASVARWIDTH
  else im.

Lemma header_class bs :
  (VARATT_IS_4B_C bs = true -> VARATT_IS_1B bs = false /\ VARATT_IS_1B_E bs = false /\ VARATT_IS_4B_U bs = false) /\
  (VARATT_IS_4B_U bs = true -> VARATT_IS_1B bs = false /\ VARATT_IS_1B_E bs = false /\ VARATT_IS_4B_C bs = false) /\
  (VARATT_IS_1B_E bs = true -> VARATT_IS_1B bs = true /\ VARATT_IS_4B_U bs = false /\ VARATT_IS_4B_C bs = false).
Proof.
  unfold VARATT_IS_4B_C, VARATT_IS_4B_U, VARATT_IS_1B, VARATT_IS_1B_E.
  rewrite !(Z.land_ones _ 2), land_1_mod by lia. change (2 ^ 2) with 4.
  split_and!; intros H; zbool; repeat split; rewrite ?Z.eqb_neq, ?Z.eqb_eq; zlia.
Qed.

Lemma datum_ok_expanded et d : elem_ok et -> datum_ok et d -> cell_expanded et d = false.
Proof.
  intros He Hd. unfold cell_expanded, VARATT_IS_EXTERNAL_EXPANDED, VARATT_IS_EXTERNAL.
  destruct (typlen et =? -1) eqn:E; [|done]. cbn [andb].
  unfold datum_ok, elem_ok in *. destruct (typbyval et).
  - apply Z.eqb_eq in E. rewrite E in He. cbn in He. lia.
  - destruct Hd as (bs & -> & _ & Hd). rewrite E in Hd. cbn [DatumGetPointer]. by destruct Hd as (-> & _).
Qed.

(** The cases of a legal value: plain, or one of the three toasted forms. *)
Inductive cell_view (w : World) (et : ElemType) : Datum -> bool -> list Z -> Prop :=
| CV_plain d : datum_ok et d -> cell_expanded et d = false -> cell_view w et d (stored_short et d) (stored_bytes et d)
| CV_external bs :
    typbyval et = false -> typlen et = -1 -> VARATT_IS_1B_E bs = true -> VARATT_IS_1B bs = true ->
    VARATT_IS_EXTERNAL_EXPANDED bs = false -> VARATT_CAN_MAKE_SHORT bs = false ->
    VARSIZE_EXTERNAL bs = Z.of_nat (length bs) -> cell_view w et (DPtr bs) true bs
| CV_expanded bs flat :
    typbyval et = false -> typlen et = -1 -> VARATT_IS_1B_E bs = true -> VARATT_IS_EXTERNAL_EXPANDED bs = true ->
    VARATT_CAN_MAKE_SHORT bs = false ->
    flatten_object w bs = Ok flat -> VARATT_IS_1B flat = false -> VARATT_IS_1B_E flat = false ->
    VARSIZE_4B flat = Z.of_nat (length flat) -> 4 <= Z.of_nat (length flat) ->
    cell_view w et (DPtr bs) false flat
| CV_compressed bs :
    typbyval et = false -> typlen et = -1 -> VARATT_IS_1B bs = false -> VARATT_IS_1B_E bs = false ->
    VARATT_CAN_MAKE_SHORT bs = false -> VARSIZE_4B bs = Z.of_nat (length bs) -> 4 <= Z.of_nat (length bs) ->
    cell_view w et (DPtr bs) false bs.

Lemma cell_viewP w et d :
  elem_ok et -> att_datum_ok w et d -> cell_view w et d (cell_short et d) (cell_bytes w et d).
Proof.
  intros He [Hd|(Hb & Hl & bs & -> & Ht)].
  - pose proof (datum_ok_expanded et d He Hd) as E. unfold cell_short, cell_bytes. rewrite E. by apply CV_plain.
  - pose proof (header_class bs) as (HC & HU & HE).
    unfold cell_short, cell_bytes, stored_bytes, stored_short, cell_expanded. rewrite Hl, Hb. cbn [DatumGetPointer].
    change (-1 =? -1) with true. cbn [andb].
    destruct Ht as [E1 E2 E3|flat E1 E2 (_ & F1 & F2 & F3)|E1 E2 E3].
    + unfold VARATT_IS_EXTERNAL in E1. destruct (HE E1) as (H1 & H2 & H3).
      rewrite E2, H1. cbn. apply CV_external; try done. unfold VARATT_CAN_MAKE_SHORT. by rewrite H2.
    + assert (E0 : VARATT_IS_1B_E bs = true).
      { unfold VARATT_IS_EXTERNAL_EXPANDED, VARATT_IS_EXTERNAL in E1. by apply andb_true_iff in E1 as [? _]. }
      rewrite E1, E2. cbn. pose proof (header_class flat) as (_ & HU' & _). destruct (HU' F1) as (? & ? & _).
      apply CV_expanded; try done. unfold VARATT_CAN_MAKE_SHORT. by destruct (HE E0) as (_ & -> & _).
    + unfold VARATT_IS_COMPRESSED in E1. destruct (HC E1) as (H1 & H2 & H3).
      assert (HM : VARATT_CAN_MAKE_SHORT bs = false) by (unfold VARATT_CAN_MAKE_SHORT; by rewrite H3).
      unfold VARATT_IS_EXTERNAL_EXPANDED, VARATT_IS_EXTERNAL.
      rewrite H2, H1, HM, andb_false_r. cbn. by apply CV_compressed.
Qed.

(** ** Sizes, reading and writing of a cell *)

Lemma VARSIZE_ANY_4B bs q :
  VARATT_IS_1B bs = false -> 4 <= Z.of_nat (length bs) -> VARSIZE_ANY (bs ++ q) = VARSIZE_4B bs.
Proof. intros. apply VARSIZE_ANY_full; [|done|done]. by intros ->. Qed.

Lemma VARSIZE_ANY_external bs q :
  VARATT_IS_1B_E bs = true -> VARSIZE_EXTERNAL bs = Z.of_nat (length bs) ->
  VARSIZE_ANY (bs ++ q) = Z.of_nat (length bs).
Proof.
  intros E H. destruct bs as [|a [|b bs]]; [done| |].
  - exfalso. revert H. unfold VARSIZE_EXTERNAL, VARHDRSZ_EXTERNAL, VARTAG_SIZE. cbn [length]. intros H.
    repeat case_match; lia.
  - rewrite <- H. unfold VARSIZE_ANY. by change (VARATT_IS_1B_E ((a :: b :: bs) ++ q)) with (VARATT_IS_1B_E (a :: b :: bs)); rewrite E.
Qed.

Lemma att_data_size_cell w et d off :
  elem_ok et -> att_datum_ok w et d ->
  att_data_size w off et d = Ok (cell_off et d off + Z.of_nat (length (cell_bytes w et d))).
Proof.
  intros He Hd. pose proof (cell_viewP w et d He Hd) as V. unfold cell_off.
  remember (cell_short et d) as s eqn:Es. remember (cell_bytes w et d) as cb eqn:Eb. unfold att_data_size.
  destruct V as [d Hd' Hx|bs Hb Hl E1 E2 E3 E4 E5|bs flat Hb Hl E1 E2 E3 E4 E5 E6 E7 E8|bs Hb Hl E1 E2 E3 E4 E5].
  - pose proof (datum_compute_size_stored et d off He Hd') as H. unfold datum_compute_size, stored_off in H.
    unfold cell_expanded in Hx. rewrite Hx. destruct (TYPE_IS_PACKABLE _ _ && _); by rewrite H.
  - rewrite Hl. cbn [DatumGetPointer]. rewrite E3, E4, !andb_false_r.
    unfold att_align_datum, att_addlength_datum, att_addlength_pointer. cbn [DatumGetPointer]. rewrite E2.
    change (-1 =? -1) with true. cbn [andb]. change (0 <? -1) with false. cbv iota.
    rewrite <- (app_nil_r bs) at 1. by rewrite VARSIZE_ANY_external.
  - rewrite Hl. cbn [DatumGetPointer]. rewrite E3, andb_false_r, E2. cbn. by rewrite E4.
  - rewrite Hl. cbn [DatumGetPointer]. unfold VARATT_IS_EXTERNAL_EXPANDED, VARATT_IS_EXTERNAL.
    rewrite E3, E2, !andb_false_r. unfold att_align_datum, att_addlength_datum, att_addlength_pointer.
    cbn [DatumGetPointer]. rewrite E1, andb_false_r. change (0 <? -1) with false. cbv iota. change (-1 =? -1) with true. cbv iota.
    rewrite <- (app_nil_r bs) at 1. by rewrite VARSIZE_ANY_4B, E4.
Qed.

Lemma cell_addlength w et d off q :
  elem_ok et -> att_datum_ok w et d ->
  att_addlength_pointer off (typlen et) (cell_bytes w et d ++ q) = off + Z.of_nat (length (cell_bytes w et d)).
Proof.
  intros He Hd. pose proof (cell_viewP w et d He Hd) as V.
  remember (cell_short et d) as s eqn:Es. remember (cell_bytes w et d) as cb eqn:Eb.
  destruct V as [d Hd' Hx|bs Hb Hl E1 E2 E3 E4 E5|bs flat Hb Hl E1 E2 E3 E4 E5 E6 E7 E8|bs Hb Hl E1 E2 E3 E4 E5].
  - by apply att_addlength_stored.
  - unfold att_addlength_pointer. rewrite Hl. cbn. by rewrite VARSIZE_ANY_external.
  - unfold att_addlength_pointer. rewrite Hl. cbn. by rewrite VARSIZE_ANY_4B, E7.
  - unfold att_addlength_pointer. rewrite Hl. cbn. by rewrite VARSIZE_ANY_4B, E4.
Qed.

Lemma cell_fetch w et d q :
  elem_ok et -> att_datum_ok w et d -> fetchatt et (cell_bytes w et d ++ q) = cell_datum w et d.
Proof.
  intros He Hd. unfold fetchatt, cell_datum. destruct (typbyval et) eqn:Hb.
  - destruct Hd as [Hd|(Hb' & _)]; [|congruence]. unfold cell_bytes. rewrite datum_ok_expanded by done.
    rewrite <- Hb. by apply fetch_att_stored.
  - unfold fetch_att. f_equal. rewrite cell_addlength by done. by apply bytes_at_app0.
Qed.

Lemma cell_short_nonzero w et d :
  elem_ok et -> att_datum_ok w et d -> cell_short et d = true ->
  typlen et = -1 /\ exists b bs, cell_bytes w et d = b :: bs /\ b <> 0.
Proof.
  intros He Hd Hs. pose proof (cell_viewP w et d He Hd) as V.
  remember (cell_short et d) as s eqn:Es. remember (cell_bytes w et d) as cb eqn:Eb.
  destruct V as [d Hd' Hx|bs Hb Hl E1 E2 E3 E4 E5| |]; try done.
  - split; [|by apply stored_short_nonzero]. unfold stored_short in Hs. apply andb_true_iff in Hs as [Hs _]. by zbool.
  - split; [done|]. destruct bs as [|b bs]; [done|]. exists b, bs. split; [done|]. intros ->. by vm_compute in E2.
Qed.

(** Reading finds a cell behind its padding. *)
Lemma cell_align_pointer w et d off q :
  elem_ok et -> att_datum_ok w et d ->
  att_align_pointer off (typalign et) (typlen et)
    (replicate (Z.to_nat (cell_off et d off - off)) 0 ++ cell_bytes w et d ++ q) = cell_off et d off.
Proof.
  intros He Hd. unfold att_align_pointer, cell_off. destruct (cell_short et d) eqn:Hs.
  - rewrite Z.sub_diag. change (Z.to_nat 0) with O. cbn [replicate app].
    destruct (cell_short_nonzero w et d He Hd Hs) as (Hl & b & bs & -> & Hb). rewrite Hl.
    unfold VARATT_NOT_PAD_BYTE, byte_at. change (Z.to_nat 0) with O. cbn [app nth].
    apply Z.eqb_neq in Hb. by rewrite Hb.
  - pose proof (att_align_nominal_bound off (typalign et)) as Hb.
    destruct (_ && _) eqn:E; [|done].
    destruct (decide (att_align_nominal off (typalign et) = off)) as [->|Hne]; [done|].
    apply andb_true_iff in E as [_ E]. unfold VARATT_NOT_PAD_BYTE in E.
    destruct (Z.to_nat _) eqn:En; [lia|]. by vm_compute in E.
Qed.

Lemma cell_off_bound et d off : off <= cell_off et d off < off + 8.
Proof.
  unfold cell_off. destruct (cell_short et d); [lia|].
  pose proof (att_align_nominal_bound off (typalign et)). assert (alignof (typalign et) <= 8) by (by destruct (typalign et)). lia.
Qed.

(** A value that is not short starts where alignment puts it. *)
Lemma cell_off_aligned et d off : att_align_nominal off (typalign et) = off -> cell_off et d off = off.
Proof. unfold cell_off. by destruct (cell_short et d). Qed.

(** [fill_data] copies the cell. *)
Lemma fill_data_cell w base et st d :
  elem_ok et -> att_datum_ok w et d ->
  fill_data w base et st d =
  fill_copy base st (cell_off et d (f_data st)) (cell_bytes w et d) (fill_mask et d (f_infomask st)).
Proof.
  intros He Hd. pose proof (cell_viewP w et d He Hd) as V. unfold cell_off, fill_data, fill_mask.
  remember (cell_short et d) as s eqn:Es. remember (cell_bytes w et d) as cb eqn:Eb.
  destruct V as [d Hd' Hx|bs Hb Hl E1 E2 E3 E4 E5|bs flat Hb Hl E1 E2 E3 E4 E5 E6 E7 E8|bs Hb Hl E1 E2 E3 E4 E5].
  - destruct (stored_viewP et d He Hd') as [v Hbv Hl|bs Hbv Hl Hb|bs Hbv Hl Hb H1 HE HP H4|bs Hbv Hl Hb H1 HE HP H4|s' Hbv Hl Ha|bs Hbv Hl Hb];
      rewrite Hbv.
    + rewrite store_att_byval_stored by done. cbn [mbind result_bind]. f_equal. view_simp.
      by rewrite pos_eqb_neg by (cbn in *; lia).
    + unfold VARATT_IS_EXTERNAL, VARATT_IS_SHORT. view_simp. by rewrite bytes_at_all.
    + unfold VARATT_IS_EXTERNAL, VARATT_IS_SHORT. view_simp. unfold TYPE_IS_PACKABLE in HP.
      change (-1 =? -1) with true in HP. cbn [andb] in HP. rewrite HP.
      rewrite bytes_at_all; [done|]. pose proof (length_short_bytes bs). lia.
    + unfold VARATT_IS_EXTERNAL, VARATT_IS_SHORT. view_simp. unfold TYPE_IS_PACKABLE in HP.
      change (-1 =? -1) with true in HP. cbn [andb] in HP. rewrite HP.
      by rewrite bytes_at_all.
    + view_simp. rewrite (strlen_app s' []) by done. rewrite bytes_at_all by (rewrite length_app; cbn; lia). done.
    + view_simp. rewrite !pos_eqb_neg by done. cbn [andb]. by rewrite bytes_at_all.
  - rewrite Hb, Hl. cbn [DatumGetPointer]. unfold VARATT_IS_EXTERNAL. rewrite E1, E3. cbn.
    by rewrite bytes_at_all.
  - rewrite Hb, Hl. cbn [DatumGetPointer]. unfold VARATT_IS_EXTERNAL. rewrite E1, E2, E4. done.
  - rewrite Hb, Hl. cbn [DatumGetPointer]. unfold VARATT_IS_EXTERNAL, VARATT_IS_SHORT. rewrite E1, E2, E3, andb_false_r. cbn.
    by rewrite bytes_at_all.
Qed.

(** ** The null bitmap *)

Definition bit_at (bm : list Z) (i : Z) : bool := Z.testbit (byte_at bm (i / 8)) (i mod 8).

Lemma land_pow2_testbit b m : 0 <= m -> (Z.land b (2 ^ m) =? 0) = negb (Z.testbit b m).
Proof.
  intros Hm. destruct (Z.testbit b m) eqn:E; cbn [negb].
  - apply Z.eqb_neq. intros H. apply (f_equal (fun x => Z.testbit x m)) in H.
    rewrite Z.land_spec, E, Z.pow2_bits_true, Z.bits_0 in H by done. done.
  - apply Z.eqb_eq, Z.bits_inj'. intros n Hn. rewrite Z.land_spec, Z.bits_0.
    destruct (decide (n = m)) as [->|Hne]; [by rewrite E|]. by rewrite Z.pow2_bits_false, andb_false_r by done.
Qed.

Lemma att_isnull_spec i bm : 0 <= i -> att_isnull i bm = negb (bit_at bm i).
Proof.
  intros Hi. unfold att_isnull, bit_at. rewrite Z.shiftr_div_pow2, (Z.land_ones _ 3), Z.shiftl_1_l by lia.
  apply land_pow2_testbit. change (2 ^ 3) with 8. zlia.
Qed.

Lemma bit_set_testbit f m : 0 <= m -> bit_set f (2 ^ m) = Z.testbit f m.
Proof. intros. unfold bit_set. by rewrite land_pow2_testbit, negb_involutive. Qed.

Lemma byte_at_insert bm i j b :
  0 <= j -> (i < length bm)%nat -> byte_at (<[i := b]> bm) j = if j =? Z.of_nat i then b else byte_at bm j.
Proof.
  intros Hj Hi. unfold byte_at. rewrite !nth_lookup. destruct (j =? Z.of_nat i) eqn:E; zbool.
  - subst. by rewrite Nat2Z.id, list_lookup_insert_eq.
  - rewrite list_lookup_insert_ne by lia. done.
Qed.

Lemma buf_write_byte base bm rest i b :
  (i < length bm)%nat -> buf_write base (bm ++ rest) (base + Z.of_nat i) [b] = Ok (<[i := b]> bm ++ rest).
Proof.
  intros Hi. rewrite (buf_write_in _ _ _ _ i) by (rewrite ?length_app; cbn; lia). f_equal.
  rewrite take_app_le by lia. cbn [length]. rewrite drop_app_le by lia.
  rewrite insert_take_drop by done. rewrite <- !app_assoc. by replace (i + 1)%nat with (S i) by lia.
Qed.

Lemma lor_byte b n m : 0 <= b < 2 ^ n -> 0 <= m < n -> 0 <= Z.lor b (2 ^ m) < 2 ^ n.
Proof.
  intros Hb Hm. assert (H0 : 0 <= Z.lor b (2 ^ m)) by (apply Z.lor_nonneg; lia).
  split; [done|]. destruct (decide (Z.lor b (2 ^ m) = 0)) as [->|Hne]; [lia|].
  apply Z.log2_lt_pow2; [lia|]. rewrite Z.log2_lor, Z.log2_pow2 by lia.
  destruct (decide (b = 0)) as [->|]; [cbn; lia|]. assert (Z.log2 b < n) by (apply Z.log2_lt_pow2; lia). lia.
Qed.

(** The bits of the attributes [vs] are there; the rest of the last byte is
    clear; the bytes are bytes. *)
Definition bits_inv (bm : list Z) (vs : list (option Datum)) : Prop :=
  (forall i v, vs !! i = Some v -> bit_at bm (Z.of_nat i) = negb (bool_decide (v = None))) /\
  (forall i, Z.of_nat (length vs) <= i < 8 * ((Z.of_nat (length vs) + 7) / 8) -> bit_at bm i = false) /\
  (forall i, 0 <= i < (Z.of_nat (length vs) + 7) / 8 -> is_byte (byte_at bm i)).

Lemma bits_inv_snoc bm vs v b0 :
  let k := Z.of_nat (length vs) in
  bits_inv bm vs -> (Z.to_nat (k / 8) < length bm)%nat ->
  b0 = (if k mod 8 =? 0 then 0 else byte_at bm (k / 8)) ->
  bits_inv (<[Z.to_nat (k / 8) := if bool_decide (v = None) then b0 else Z.lor b0 (2 ^ (k mod 8))]> bm) (vs ++ [v]).
Proof.
  intros k (H1 & H2 & H3) Hlen Hb0.
  assert (Hold : forall i, 0 <= i < k -> i / 8 = k / 8 -> Z.testbit b0 (i mod 8) = bit_at bm i).
  { intros i Hi Hd. rewrite Hb0. destruct (k mod 8 =? 0) eqn:E; zbool; [exfalso; zlia|]. unfold bit_at. by rewrite Hd. }
  assert (Hnew : forall i, k <= i < 8 * (k / 8) + 8 -> Z.testbit b0 (i mod 8) = false).
  { intros i Hi. rewrite Hb0. destruct (k mod 8 =? 0) eqn:E; zbool; [apply Z.bits_0|].
    rewrite <- (H2 i) by (subst k; zlia). unfold bit_at. f_equal. f_equal. zlia. }
  assert (Hbit : forall i, 0 <= i -> bit_at (<[Z.to_nat (k / 8) := if bool_decide (v = None) then b0 else Z.lor b0 (2 ^ (k mod 8))]> bm) i =
    if i / 8 =? k / 8 then Z.testbit b0 (i mod 8) || (negb (bool_decide (v = None)) && (i =? k)) else bit_at bm i).
  { intros i Hi. unfold bit_at. rewrite byte_at_insert by (try done; zlia).
    replace (Z.of_nat (Z.to_nat (k / 8))) with (k / 8) by (subst k; zlia).
    destruct (i / 8 =? k / 8) eqn:E; [|done]. zbool. case_bool_decide; [by rewrite orb_false_r|].
    rewrite Z.lor_spec. f_equal. cbn [negb andb]. rewrite Z.pow2_bits_eqb by zlia.
    destruct (i =? k) eqn:Ek; zbool; [subst; by rewrite Z.eqb_refl|]. apply Z.eqb_neq. zlia. }
  assert (Hbyte : is_byte b0).
  { rewrite Hb0. destruct (k mod 8 =? 0) eqn:E; zbool; [done|]. apply H3. subst k. zlia. }
  split_and!.
  - intros i u Hu. rewrite Hbit by lia. destruct (decide (i < length vs)%nat) as [Hi|Hi].
    + rewrite lookup_app_l in Hu by done. rewrite <- (H1 i u Hu).
      destruct (Z.of_nat i / 8 =? k / 8) eqn:E; [|done]. zbool. rewrite Hold by lia.
      replace (Z.of_nat i =? k) with false by (symmetry; apply Z.eqb_neq; lia). by rewrite andb_false_r, orb_false_r.
    + apply lookup_app_Some in Hu as [Hu|[_ Hu]]; [apply lookup_lt_Some in Hu; lia|].
      apply list_lookup_singleton_Some in Hu as [Hu <-]. replace (Z.of_nat i) with k by lia.
      rewrite !Z.eqb_refl, Hnew, andb_true_r by zlia. done.
  - rewrite length_app. cbn [length]. intros i Hi. rewrite Hbit by lia.
    replace (i / 8 =? k / 8) with true by (symmetry; apply Z.eqb_eq; subst k; zlia).
    rewrite Hnew by (subst k; zlia). replace (i =? k) with false by (symmetry; apply Z.eqb_neq; lia). by rewrite andb_false_r.
  - rewrite length_app. cbn [length]. intros i Hi. rewrite byte_at_insert by lia.
    destruct (i =? _) eqn:E; [|apply H3; zbool; subst k; zlia].
    case_bool_decide; [done|]. apply (lor_byte _ 8); [done|zlia].
Qed.

(** The state of the bitmap after the attributes [vs], with [todo] to come. *)
Inductive bit_state : option Z -> Z -> list Z -> list (option Datum) -> list (option Datum) -> Prop :=
| BS_none m vs todo : Forall (fun v => v <> None) todo -> bit_state None m [] vs todo
| BS_some bm vs todo :
    bits_inv bm vs -> Z.of_nat (length vs) + Z.of_nat (length todo) <= 8 * Z.of_nat (length bm) ->
    bit_state (Some ((Z.of_nat (length vs) - 1) / 8)) (2 ^ ((Z.of_nat (length vs) - 1) mod 8)) bm vs todo.

Lemma fill_bit_step base st bm rest vs v todo :
  bit_state (f_bit st) (f_bitmask st) bm vs (v :: todo) -> f_buf st = bm ++ rest ->
  exists bit m bm',
    fill_bit base st (bool_decide (v = None)) =
      Ok (mkFill bit m (bm' ++ rest) (f_data st) (if bool_decide (v = None) then Z.lor (f_infomask st) HEAP_HASNULL else f_infomask st),
          bool_decide (v = None)) /\
    bit_state bit m bm' (vs ++ [v]) todo /\ length bm' = length bm.
Proof.
  destruct st as [bit m buf data im]. cbn [f_bit f_bitmask f_buf f_data f_infomask]. intros H ->.
  inversion H as [? ? ? Hall|? ? ? Hb Hlen]; subst; unfold fill_bit; cbn [f_bit f_bitmask f_buf f_data f_infomask].
  - apply Forall_cons_1 in Hall as [Hv Hall]. rewrite bool_decide_eq_false_2 by done.
    eexists None, m, []. split; [done|]. split; [by constructor|done].
  - set (k := Z.of_nat (length vs)) in *. cbn [length] in Hlen.
    assert (Hk : (Z.to_nat (k / 8) < length bm)%nat) by (subst k; zlia).
    assert (Hk' : base + k / 8 = base + Z.of_nat (Z.to_nat (k / 8))) by (subst k; zlia).
    set (b0 := if k mod 8 =? 0 then 0 else byte_at bm (k / 8)).
    assert (Hs : exists bm0, length bm0 = length bm /\ byte_at bm0 (k / 8) = b0 /\
      (forall b, <[Z.to_nat (k / 8) := b]> bm0 = <[Z.to_nat (k / 8) := b]> bm) /\
      (if negb (2 ^ ((k - 1) mod 8) =? HIGHBIT) then Ok ((k - 1) / 8, Z.shiftl (2 ^ ((k - 1) mod 8)) 1, bm ++ rest)
       else buf ← buf_write base (bm ++ rest) (base + ((k - 1) / 8 + 1)) [0]; Ok ((k - 1) / 8 + 1, 1, buf)) =
      Ok (k / 8, 2 ^ (k mod 8), bm0 ++ rest)).
    { destruct (k mod 8 =? 0) eqn:E; zbool.
      - exists (<[Z.to_nat (k / 8) := 0]> bm). split; [apply length_insert|]. split_and!.
        + rewrite byte_at_insert by (try done; subst k; zlia). replace (Z.of_nat (Z.to_nat (k / 8))) with (k / 8) by (subst k; zlia). by rewrite Z.eqb_refl.
        + intros b. by rewrite list_insert_insert_eq.
        + replace ((k - 1) mod 8) with 7 by zlia. change (2 ^ 7 =? HIGHBIT) with true. cbn [negb].
          replace ((k - 1) / 8 + 1) with (k / 8) by zlia. rewrite Hk', buf_write_byte, E by done. done.
      - exists bm. split_and!; [done|done|done|].
        replace (2 ^ ((k - 1) mod 8) =? HIGHBIT) with false.
        2: { symmetry. apply Z.eqb_neq. change HIGHBIT with (2 ^ 7). intros Hp. apply Z.pow_inj_r in Hp; zlia. }
        cbn [negb]. rewrite Z.shiftl_mul_pow2, <- Z.pow_add_r by zlia. do 3 f_equal; [zlia|f_equal; zlia]. }
    destruct Hs as (bm0 & Hl0 & Hb0 & Hi0 & Hs). rewrite Hs. cbn [mbind result_bind].
    set (bm' := <[Z.to_nat (k / 8) := if bool_decide (v = None) then b0 else Z.lor b0 (2 ^ (k mod 8))]> bm).
    exists (Some (k / 8)), (2 ^ (k mod 8)), bm'. split; [|split].
    + subst bm'. case_bool_decide.
      * rewrite <- Hi0, list_insert_id; [done|]. rewrite <- Hb0. unfold byte_at. rewrite nth_lookup.
        destruct (lookup_lt_is_Some_2 bm0 (Z.to_nat (k / 8))) as [y Hy]; [lia|]. by rewrite Hy.
      * rewrite Hk', buf_write_byte by lia. cbn [mbind result_bind]. rewrite Hi0. do 4 f_equal. do 2 f_equal.
        rewrite <- Hb0. unfold byte_at. by rewrite app_nth1 by lia.
    + replace (k / 8) with ((Z.of_nat (length (vs ++ [v])) - 1) / 8) at 1 by (rewrite length_app; cbn [length]; subst k; f_equal; lia).
      replace (k mod 8) with ((Z.of_nat (length (vs ++ [v])) - 1) mod 8) at 1 by (rewrite length_app; cbn [length]; subst k; f_equal; lia).
      apply BS_some; [by apply bits_inv_snoc|]. subst bm'. rewrite length_app, length_insert. cbn [length]. lia.
    + subst bm'. apply length_insert.
Qed.

(** ** The data *)

Fixpoint layout (w : World) (atts : list ElemType) (values : list (option Datum)) (off : Z) : list Z :=
  match atts, values with
  | et :: atts', Some d :: values' =>
      let o := cell_off et d off in
      replicate (Z.to_nat (o - off)) 0 ++ cell_bytes w et d ++
      layout w atts' values' (o + Z.of_nat (length (cell_bytes w et d)))
  | _ :: atts', None :: values' => layout w atts' values' off
  | _, _ => []
  end.

Definition values_ok (w : World) (atts : list ElemType) (values : list (option Datum)) : Prop :=
  Forall elem_ok atts /\ Forall2 (fun et v => match v with Some d => att_datum_ok w et d | None => True end) atts values.

Fixpoint fill_masks (atts : list ElemType) (values : list (option Datum)) (im : Z) : Z :=
  match atts, values with
  | et :: atts', v :: values' =>
      fill_masks atts' values' (match v with Some d => fill_mask et d im | None => Z.lor im HEAP_HASNULL end)
  | _, _ => im
  end.

Lemma compute_data_size_layout w atts values off :
  values_ok w atts values ->
  compute_data_size w atts values off = Ok (off + Z.of_nat (length (layout w atts values off))).
Proof.
  intros [He Hv]. revert off. induction Hv as [|et v atts values Hv _ IH]; intros off; cbn [compute_data_size layout length].
  - f_equal. lia.
  - apply Forall_cons_1 in He as [He Hes]. destruct v as [d|]; cbn [mbind result_bind]; [|by apply IH].
    rewrite att_data_size_cell by done. cbn [mbind result_bind]. rewrite IH by done.
    rewrite !length_app, length_replicate. pose proof (cell_off_bound et d off). f_equal. lia.
Qed.

Lemma att_align_shift hoff off a : hoff mod 8 = 0 -> att_align_nominal (hoff + off) a = hoff + att_align_nominal off a.
Proof.
  intros H. rewrite !att_align_nominal_spec. apply Z.div_exact in H; [|done].
  revert H. generalize (hoff / 8). intros h ->.
  assert (Ha : exists c, 8 = alignof a * c) by (destruct a; [by exists 8|by exists 4|by exists 2|by exists 1]).
  destruct Ha as [c Hc]. assert (0 < alignof a) by (by destruct a).
  replace (8 * h) with (alignof a * (c * h)) by (rewrite Hc; ring).
  replace (alignof a * (c * h) + off + (alignof a - 1)) with (off + (alignof a - 1) + (c * h) * alignof a) by ring.
  rewrite Z.div_add by lia. ring.
Qed.

Lemma fill_loop_layout w base hoff bm pre n st atts todo vs off :
  values_ok w atts todo -> hoff mod 8 = 0 ->
  bit_state (f_bit st) (f_bitmask st) bm vs todo ->
  f_buf st = bm ++ pre ++ replicate n 0 -> f_data st = hoff + off ->
  base + Z.of_nat (length bm) + Z.of_nat (length pre) = hoff + off ->
  (length (layout w atts todo off) <= n)%nat ->
  exists st' bm',
    fill_loop w base atts todo st = Ok st' /\
    f_buf st' = bm' ++ pre ++ layout w atts todo off ++ replicate (n - length (layout w atts todo off)) 0 /\
    length bm' = length bm /\ bit_state (f_bit st') (f_bitmask st') bm' (vs ++ todo) [] /\
    f_infomask st' = fill_masks atts todo (f_infomask st).
Proof.
  intros [He Hv] Hh. revert st bm pre n vs off He.
  induction Hv as [|et v atts todo Hv _ IH]; intros st bm pre n vs off He Hbs Hbuf Hdata Hpos Hroom.
  { exists st, bm. cbn [fill_loop layout fill_masks length app]. rewrite Nat.sub_0_r, app_nil_r. done. }
  apply Forall_cons_1 in He as [He Hes]. cbn [fill_loop].
  destruct (fill_bit_step base st bm (pre ++ replicate n 0) vs v todo Hbs Hbuf) as (bit & m & bm1 & Hfb & Hbs1 & Hl1).
  unfold fill_val. rewrite Hfb. cbn [mbind result_bind].
  destruct v as [d|]; [rewrite bool_decide_eq_false_2 by done|rewrite bool_decide_eq_true_2 by done].
  2: { cbn [mbind result_bind].
       edestruct (IH (mkFill bit m (bm1 ++ pre ++ replicate n 0) (f_data st) (Z.lor (f_infomask st) HEAP_HASNULL)) bm1 pre n (vs ++ [None]) off)
         as (st' & bm' & E & Hb' & Hl' & Hbs' & Him'); try done; [by rewrite Hl1|].
       exists st', bm'. cbn [layout fill_masks]. rewrite E, Hl', <- app_assoc in *. done. }
  cbn [layout] in Hroom |- *. set (o := cell_off et d off) in *. set (cb := cell_bytes w et d) in *.
  rewrite !length_app, length_replicate in Hroom. pose proof (cell_off_bound et d off) as Ho.
  rewrite fill_data_cell by done. fold cb. cbn [f_data f_infomask].
  assert (Hoff : cell_off et d (f_data st) = hoff + o).
  { subst o. rewrite Hdata. unfold cell_off. destruct (cell_short et d); [done|]. by apply att_align_shift. }
  rewrite Hoff. unfold fill_copy. cbn [f_buf f_bit f_bitmask].
  rewrite (app_assoc bm1 pre), buf_write_zeros by (rewrite length_app; lia). cbn [mbind result_bind].
  rewrite <- app_assoc.
  set (pad := replicate (Z.to_nat (o - off)) 0) in *.
  replace (replicate (Z.to_nat (hoff + o - base) - length (bm1 ++ pre)) 0) with pad
    by (subst pad; f_equal; rewrite length_app; lia).
  set (n' := (length (bm1 ++ pre) + n - (Z.to_nat (hoff + o - base) + length cb))%nat).
  assert (Hn' : n' = (n - (length pad + length cb))%nat) by (subst n' pad; rewrite length_app, length_replicate; lia).
  edestruct (IH (mkFill bit m (bm1 ++ pre ++ pad ++ cb ++ replicate n' 0) (hoff + o + Z.of_nat (length cb)) (fill_mask et d (f_infomask st)))
    bm1 (pre ++ pad ++ cb) n' (vs ++ [Some d]) (o + Z.of_nat (length cb)))
    as (st' & bm' & E & Hb' & Hl' & Hbs' & Him'); try done.
  - cbn [f_buf]. by rewrite <- !app_assoc.
  - cbn [f_data]. lia.
  - rewrite !length_app. subst pad. rewrite length_replicate. lia.
  - rewrite Hn'. subst pad. rewrite length_replicate. lia.
  - exists st', bm'. cbn [fill_masks]. rewrite E, Hb', Hl', <- !app_assoc in *. cbn [app] in *. split_and!; try done.
    do 5 f_equal. f_equal. rewrite !length_app, Hn'. lia.
Qed.
