(* ===== verification/HeapTupleProofs.v ===== *)
(** * Reading heap tuples

    What [heap_form_tuple] builds is the image of its values; every way to read
    an image gives the values back in their stored form.  The cached offsets
    are an invariant of the descriptor: they depend on the columns only, and
    each reader keeps them so. *)

From S2P Require Import Prelude Varlena PgLz Toast HeapTuple HeapTupleFill.

(** ** The infomask *)

Definition var_width (et : ElemType) (v : option Datum) : bool :=
  match v with Some _ => negb (typbyval et) && (typlen et <? 0) | None => false end.

Definition is_external (et : ElemType) (v : option Datum) : bool :=
  match v with
  | Some d => negb (typbyval et) && (typlen et =? -1) && VARATT_IS_EXTERNAL (DatumGetPointer d)
              && negb (VARATT_IS_EXTERNAL_EXPANDED (DatumGetPointer d))
  | None => false
  end.

Definition any2 (f : ElemType -> option Datum -> bool) (atts : list ElemType) (values : list (option Datum)) : bool :=
  existsb (fun p => f p.1 p.2) (zip atts values).

Lemma fill_mask_bits et d im :
  elem_ok et ->
  Z.testbit (fill_mask et d im) 0 = Z.testbit im 0 /\
  Z.testbit (fill_mask et d im) 1 = Z.testbit im 1 || var_width et (Some d) /\
  Z.testbit (fill_mask et d im) 2 = Z.testbit im 2 || is_external et (Some d).
Proof.
  intros He. unfold fill_mask, var_width, is_external, elem_ok in *.
  destruct (typbyval et); cbn [negb andb]; [by rewrite !orb_false_r|].
  destruct He as [He|[[He _]|He]].
  - rewrite He. change (-1 <? 0) with true. cbn [Z.eqb Pos.eqb andb].
    destruct (VARATT_IS_EXTERNAL _ && _) eqn:E; [cbn [andb] in E|]; rewrite !Z.lor_spec; cbn; by rewrite ?orb_false_r, ?orb_true_r.
  - rewrite He. cbn [Z.eqb Pos.eqb andb]. rewrite !Z.lor_spec. cbn. by rewrite !orb_false_r.
  - rewrite !pos_eqb_neg by done. replace (typlen et <? 0) with false by (symmetry; apply Z.ltb_ge; lia).
    cbn [andb]. by rewrite !orb_false_r.
Qed.

Lemma fill_masks_bits w atts values im :
  values_ok w atts values ->
  Z.testbit (fill_masks atts values im) 0 = Z.testbit im 0 || has_null values /\
  Z.testbit (fill_masks atts values im) 1 = Z.testbit im 1 || any2 var_width atts values /\
  Z.testbit (fill_masks atts values im) 2 = Z.testbit im 2 || any2 is_external atts values.
Proof.
  intros [He Hv]. revert im. induction Hv as [|et v atts values _ _ IH]; intros im; cbn [fill_masks].
  { by rewrite !orb_false_r. }
  apply Forall_cons_1 in He as [He Hes]. unfold has_null, any2 in *. cbn [zip zip_with existsb fst snd].
  edestruct (IH Hes) as (-> & -> & ->). destruct v as [d|].
  - destruct (fill_mask_bits et d im He) as (-> & -> & ->). by rewrite <- !orb_assoc.
  - rewrite !Z.lor_spec, <- !orb_assoc. cbn. by rewrite ?orb_true_r.
Qed.

(** ** Images *)

Record tuple_image (w : World) (atts : list ElemType) (values : list (option Datum)) (tup : HeapTuple) : Prop := {
  ti_ok : values_ok w atts values;
  ti_natts : HeapTupleHeaderGetNatts tup = Z.of_nat (length atts);
  ti_data : exists n, t_data tup = layout w atts values 0 ++ replicate n 0;
  ti_len : t_len tup = SizeofHeapTupleHeader + Z.of_nat (length (t_bits tup)) /\
           SizeofHeapTupleHeader <= t_hoff tup <= t_len tup /\ t_hoff tup mod 8 = 0;
  ti_nulls : Z.testbit (t_infomask tup) 0 = has_null values;
  ti_var : Z.testbit (t_infomask tup) 1 = any2 var_width atts values;
  ti_ext : Z.testbit (t_infomask tup) 2 = any2 is_external atts values;
  ti_bits : has_null values = true -> bits_inv (t_bits tup) values /\
            Z.of_nat (length atts) <= 8 * Z.of_nat (length (t_bits tup));
}.

Lemma MAXALIGN_spec len : len <= MAXALIGN len < len + 8 /\ MAXALIGN len mod 8 = 0.
Proof.
  unfold MAXALIGN. pose proof (TYPEALIGN_spec 3 len ltac:(lia)) as H. change (2 ^ 3) with 8 in H. rewrite H. zlia.
Qed.

Lemma BITMAPLEN_spec n : 0 <= n -> n <= 8 * BITMAPLEN n < n + 8.
Proof. unfold BITMAPLEN. intros. rewrite Z.quot_div_nonneg by lia. zlia. Qed.

Lemma byte_at_app_l bm q i : 0 <= i < Z.of_nat (length bm) -> byte_at (bm ++ q) i = byte_at bm i.
Proof. intros. unfold byte_at. apply app_nth1. lia. Qed.

Lemma bits_inv_app bm q vs :
  Z.of_nat (length vs) <= 8 * Z.of_nat (length bm) -> bits_inv bm vs -> bits_inv (bm ++ q) vs.
Proof.
  intros Hl (H1 & H2 & H3). unfold bits_inv, bit_at in *. split_and!.
  - intros i v Hv. pose proof (lookup_lt_Some _ _ _ Hv). rewrite byte_at_app_l by zlia. by apply H1.
  - intros i Hi. rewrite byte_at_app_l by zlia. by apply H2.
  - intros i Hi. rewrite byte_at_app_l by zlia. by apply H3.
Qed.

Lemma has_null_false values : has_null values = false -> Forall (fun v => v <> None) values.
Proof.
  unfold has_null. induction values as [|v values IH]; [constructor|]. cbn [existsb]. intros H.
  apply orb_false_iff in H as [H1 H2]. constructor; [by apply bool_decide_eq_false in H1|by apply IH].
Qed.

Lemma values_ok_length w atts values : values_ok w atts values -> length values = length atts.
Proof. intros [_ H]. symmetry. by eapply Forall2_length. Qed.

(** [heap_fill_tuple] on a zeroed tuple with room for the bitmap and the data,
    and [k] bytes more. *)
Lemma heap_fill_tuple_room w base atts values hoff im (hasnull : bool) n k :
  values_ok w atts values -> hoff mod 8 = 0 -> has_null values = hasnull ->
  base + (if hasnull then BITMAPLEN (Z.of_nat (length atts)) else 0) <= hoff ->
  base + Z.of_nat n = hoff + Z.of_nat (length (layout w atts values 0)) + Z.of_nat k ->
  exists st bm pad,
    heap_fill_tuple w base atts values (replicate n 0) hoff im hasnull = Ok st /\
    f_buf st = bm ++ pad ++ layout w atts values 0 ++ replicate k 0 /\
    base + Z.of_nat (length bm) + Z.of_nat (length pad) = hoff /\
    f_infomask st = fill_masks atts values (Z.land im (Z.lnot 7)) /\
    (hasnull = true -> bits_inv bm values /\ Z.of_nat (length bm) = BITMAPLEN (Z.of_nat (length atts))).
Proof.
  intros Hok Hh Hn Hroom Hlen. pose proof (values_ok_length _ _ _ Hok) as Hvl.
  set (nb := if hasnull then Z.to_nat (BITMAPLEN (Z.of_nat (length atts))) else O).
  pose proof (BITMAPLEN_spec (Z.of_nat (length atts)) ltac:(lia)) as HB.
  set (np := (Z.to_nat (hoff - base) - nb)%nat).
  assert (Hn' : n = (nb + (np + (length (layout w atts values 0) + k)))%nat) by (subst nb np; destruct hasnull; lia).
  unfold heap_fill_tuple. change (Z.lor (Z.lor HEAP_HASNULL HEAP_HASVARWIDTH) HEAP_HASEXTERNAL) with 7.
  edestruct (fill_loop_layout w base hoff (replicate nb 0) (replicate np 0) (length (layout w atts values 0) + k)
    (mkFill (if hasnull then Some (-1) else None) (if hasnull then HIGHBIT else 0) (replicate n 0) hoff (Z.land im (Z.lnot 7)))
    atts values [] 0) as (st & bm & E & Hbuf & Hl & Hbs & Him); try done.
  - cbn [f_bit f_bitmask]. destruct hasnull; subst nb.
    + apply (BS_some _ []); [|cbn [length]; rewrite length_replicate; lia].
      split_and!; [done|cbn [length]; intros; zlia|cbn [length]; intros; zlia].
    + constructor. by apply has_null_false.
  - cbn [f_buf]. by rewrite Hn', (replicate_add nb), (replicate_add np).
  - cbn [f_data]. lia.
  - rewrite !length_replicate. subst np nb. destruct hasnull; lia.
  - lia.
  - exists st, bm, (replicate np 0). rewrite E, Hbuf, Hl, !length_replicate, Nat.add_comm, Nat.add_sub.
    split_and!; try done; [subst np nb; destruct hasnull; lia|].
    intros ->. cbn [app] in Hbs. rewrite length_replicate in Hl. split; [|subst nb; lia].
    inversion Hbs as [? ? ? ? E1 E2 E3|]; subst; [|done].
    cbn [length] in Hl. subst nb. destruct values; [done|cbn [length] in Hvl; lia].
Qed.

(** The same, with nothing to spare. *)
Lemma heap_fill_tuple_image w base atts values hoff im (hasnull : bool) n :
  values_ok w atts values -> hoff mod 8 = 0 -> has_null values = hasnull ->
  base + (if hasnull then BITMAPLEN (Z.of_nat (length atts)) else 0) <= hoff ->
  base + Z.of_nat n = hoff + Z.of_nat (length (layout w atts values 0)) ->
  exists st bm pad,
    heap_fill_tuple w base atts values (replicate n 0) hoff im hasnull = Ok st /\
    f_buf st = bm ++ pad ++ layout w atts values 0 /\
    base + Z.of_nat (length bm) + Z.of_nat (length pad) = hoff /\
    f_infomask st = fill_masks atts values (Z.land im (Z.lnot 7)) /\
    (hasnull = true -> bits_inv bm values /\ Z.of_nat (length bm) = BITMAPLEN (Z.of_nat (length atts))).
Proof.
  intros Hok Hh Hn Hroom Hlen. destruct (heap_fill_tuple_room w base atts values hoff im hasnull n 0 Hok Hh Hn Hroom) as (st & bm & pad & E & Hbuf & H); [lia|].
  cbn [replicate] in Hbuf. rewrite app_nil_r in Hbuf. by exists st, bm, pad.
Qed.

(** A buffer with the bitmap, padding and the cells is an image. *)
Lemma image_of_buf w atts values tup bm pad n :
  values_ok w atts values -> HeapTupleHeaderGetNatts tup = Z.of_nat (length atts) ->
  t_bits tup = bm ++ pad ++ layout w atts values 0 ++ replicate n 0 ->
  SizeofHeapTupleHeader + Z.of_nat (length bm) + Z.of_nat (length pad) = t_hoff tup -> t_hoff tup mod 8 = 0 ->
  t_len tup = t_hoff tup + Z.of_nat (length (layout w atts values 0)) + Z.of_nat n ->
  Z.testbit (t_infomask tup) 0 = has_null values ->
  Z.testbit (t_infomask tup) 1 = any2 var_width atts values ->
  Z.testbit (t_infomask tup) 2 = any2 is_external atts values ->
  (has_null values = true -> bits_inv bm values /\ Z.of_nat (length bm) = BITMAPLEN (Z.of_nat (length atts))) ->
  tuple_image w atts values tup /\ t_data tup = layout w atts values 0 ++ replicate n 0.
Proof.
  intros Hok Hnatts Hbits Hpos Hh Hlen M0 M1 M2 Hbm.
  assert (Hdata : t_data tup = layout w atts values 0 ++ replicate n 0).
  { unfold t_data. rewrite Hbits, app_assoc. apply drop_app_length'. rewrite length_app. lia. }
  split; [|done]. pose proof (values_ok_length _ _ _ Hok) as Hl. constructor; try done.
  - by exists n.
  - rewrite Hbits, !length_app, length_replicate. split_and!; lia.
  - intros Hn. destruct (Hbm Hn) as [H1 H2]. pose proof (BITMAPLEN_spec (Z.of_nat (length atts)) ltac:(lia)).
    rewrite Hbits. split; [apply bits_inv_app; [lia|done]|rewrite length_app; lia].
Qed.

Lemma natts_roundtrip n : 0 <= n <= MaxTupleAttributeNumber -> Z.land (HeapTupleHeaderSetNatts 0 n) HEAP_NATTS_MASK = n.
Proof.
  intros H. unfold HeapTupleHeaderSetNatts, MaxTupleAttributeNumber in *. rewrite Z.land_0_l, Z.lor_0_l.
  change HEAP_NATTS_MASK with (Z.ones 11). rewrite Z.land_ones, Z.mod_small by lia. done.
Qed.

(** The header fits its length byte. *)
Lemma hoff_bounds hdrsz natts (hasnull : bool) :
  0 <= natts <= MaxTupleAttributeNumber -> 0 <= hdrsz <= 23 ->
  let nb := if hasnull then BITMAPLEN natts else 0 in
  let hoff := MAXALIGN (hdrsz + nb) in
  0 <= nb /\ hdrsz + nb <= hoff <= 232 /\ hoff mod 8 = 0.
Proof.
  intros Hn Hs nb hoff. pose proof (MAXALIGN_spec (hdrsz + nb)) as [H1 H2]. fold hoff in H1, H2.
  pose proof (BITMAPLEN_spec natts ltac:(lia)) as HB. unfold MaxTupleAttributeNumber in *.
  subst nb. destruct hasnull; split_and!; try lia; zlia.
Qed.

Definition tuple_size (w : World) (atts : list ElemType) (values : list (option Datum)) : Z :=
  MAXALIGN (SizeofHeapTupleHeader + (if has_null values then BITMAPLEN (Z.of_nat (length atts)) else 0)) +
  Z.of_nat (length (layout w atts values 0)).

(** The form functions, as far as they are the same. *)
Lemma form_body w atts values hdrsz (hasnull : bool) :
  let hoff := MAXALIGN (hdrsz + (if hasnull then BITMAPLEN (Z.of_nat (length atts)) else 0)) in
  let L := Z.of_nat (length (layout w atts values 0)) in
  values_ok w atts values -> 0 <= hdrsz <= 23 -> Z.of_nat (length atts) <= MaxTupleAttributeNumber -> hasnull = has_null values ->
  heap_compute_data_size w atts values = Ok L /\
  exists st bm pad,
    heap_fill_tuple w hdrsz atts values (replicate (Z.to_nat (hoff + L - hdrsz)) 0) hoff 0 hasnull = Ok st /\
    f_buf st = bm ++ pad ++ layout w atts values 0 ++ replicate 0 0 /\
    hdrsz + Z.of_nat (length bm) + Z.of_nat (length pad) = hoff /\
    (Z.testbit (f_infomask st) 0 = has_null values /\ Z.testbit (f_infomask st) 1 = any2 var_width atts values /\
     Z.testbit (f_infomask st) 2 = any2 is_external atts values) /\
    (has_null values = true -> bits_inv bm values /\ Z.of_nat (length bm) = BITMAPLEN (Z.of_nat (length atts))).
Proof.
  intros hoff L Hok Hs Hn ->. split; [unfold heap_compute_data_size; by rewrite compute_data_size_layout|].
  destruct (hoff_bounds hdrsz (Z.of_nat (length atts)) (has_null values) ltac:(lia) Hs) as (H0 & H1 & H2). fold hoff in H1, H2.
  edestruct (heap_fill_tuple_image w hdrsz atts values hoff 0 (has_null values) (Z.to_nat (hoff + L - hdrsz)))
    as (st & bm & pad & E & Hbuf & Hpos & Him & Hbm); try done; [lia|lia|].
  exists st, bm, pad. cbn [replicate]. rewrite app_nil_r, Him. split_and!; try done; by apply (fill_masks_bits w atts values 0).
Qed.

Lemma heap_form_tuple_image w td values :
  values_ok w (td_types td) values -> td_natts td <= MaxTupleAttributeNumber ->
  HEAPTUPLESIZE + tuple_size w (td_types td) values <= MaxAllocSize ->
  exists tup, heap_form_tuple w td values = Ok tup /\ tuple_image w (td_types td) values tup /\
    t_data tup = layout w (td_types td) values 0 /\ t_len tup = tuple_size w (td_types td) values.
Proof.
  intros Hok Hnatts Hsize. unfold tuple_size in *. pose proof (values_ok_length _ _ _ Hok) as Hl.
  assert (Ha : Z.of_nat (length (td_types td)) = td_natts td) by (unfold td_types, td_natts; by rewrite length_map).
  rewrite Ha in Hsize |- *.
  destruct (form_body w (td_types td) values SizeofHeapTupleHeader (has_null values)) as (E1 & st & bm & pad & E2 & Hbuf & Hpos & (M0 & M1 & M2) & Hbm);
    try done; [lia|]. rewrite Ha in E2, Hpos.
  destruct (hoff_bounds SizeofHeapTupleHeader (td_natts td) (has_null values)) as (H0 & H1 & H2); [unfold td_natts in *; lia|done|].
  set (hoff := MAXALIGN _) in *. set (L := Z.of_nat (length (layout w (td_types td) values 0))) in *.
  unfold heap_form_tuple. replace (_ >? _) with false by (symmetry; rewrite Z.gtb_ltb; apply Z.ltb_ge; lia).
  replace (take (length (td_attrs td)) values) with values by (symmetry; apply take_ge; unfold td_types in Hl; rewrite length_map in Hl; lia).
  rewrite E1. cbn [mbind result_bind]. fold hoff.
  unfold palloc0. replace (_ >? _) with false by (symmetry; rewrite Z.gtb_ltb; apply Z.ltb_ge; lia). cbn [mbind result_bind].
  rewrite E2. cbn [mbind result_bind]. unfold HEAPTUPLESIZE, MaxAllocSize, SizeofHeapTupleHeader in *.
  assert (U8 : uwrap 8 hoff = hoff) by (apply uwrap_small; unfold in_uint; lia).
  assert (U32 : uwrap 32 (hoff + L) = hoff + L) by (apply uwrap_small; unfold in_uint; lia).
  rewrite U8, U32. eexists. split; [reflexivity|].
  match goal with |- context [tuple_image _ _ _ ?t] => set (tup := t) end.
  destruct (image_of_buf w (td_types td) values tup bm pad 0) as [I1 I2]; subst tup; cbn [t_hoff t_len t_bits t_infomask]; try done; try lia.
  { unfold HeapTupleHeaderGetNatts. cbn [t_infomask2]. rewrite natts_roundtrip; unfold td_natts in *; lia. }
  split_and!; [done|by rewrite I2, app_nil_r|done].
Qed.

(** ** Cached offsets *)

(** The offset that an attribute has in every tuple, if there is one, when
    [off] is where the attribute before it always ends. *)
Definition canon_off (a : Attr) (off : option Z) : option Z :=
  match off with
  | None => None
  | Some off =>
      if attlen a =? -1 then if off =? att_align_nominal off (attalign a) then Some off else None
      else Some (att_align_nominal off (attalign a))
  end.

Definition canon_next (a : Attr) (o : option Z) : option Z :=
  match o with Some o => if 0 <? attlen a then Some (o + attlen a) else None | None => None end.

(** The cached offsets are right, and they are a prefix of the columns. *)
Fixpoint caches_ok (attrs : list Attr) (off : option Z) : Prop :=
  match attrs with
  | [] => True
  | a :: attrs' =>
      if attcacheoff a <? 0 then Forall (fun a => attcacheoff a < 0) attrs'
      else canon_off a off = Some (attcacheoff a) /\ caches_ok attrs' (canon_next a (canon_off a off))
  end.

Definition desc_ok (td : TupleDesc) : Prop := Forall elem_ok (td_types td) /\ caches_ok (td_attrs td) (Some 0).

(** Descriptors that differ in cached offsets only. *)
Definition same_attrs (attrs attrs' : list Attr) : Prop := map (fun a => set_cacheoff a 0) attrs = map (fun a => set_cacheoff a 0) attrs'.

Lemma caches_ok_none attrs off : Forall (fun a => attcacheoff a < 0) attrs -> caches_ok attrs off.
Proof.
  intros H. destruct H as [|a attrs Ha H]; [done|]. cbn [caches_ok].
  by replace (attcacheoff a <? 0) with true by (symmetry; by apply Z.ltb_lt).
Qed.

(** Once the offsets are not canonical, nothing is cached. *)
Lemma caches_ok_stop attrs : caches_ok attrs None -> Forall (fun a => attcacheoff a < 0) attrs.
Proof.
  destruct attrs as [|a attrs]; [done|]. cbn [caches_ok canon_off].
  destruct (attcacheoff a <? 0) eqn:E; [|by intros []]. zbool. by constructor.
Qed.

Lemma caches_ok_tail a attrs off : caches_ok (a :: attrs) off -> caches_ok attrs (canon_next a (canon_off a off)).
Proof. cbn [caches_ok]. destruct (attcacheoff a <? 0); [apply caches_ok_none|by intros []]. Qed.

Lemma same_attrs_types attrs attrs' : same_attrs attrs attrs' -> map att_type attrs = map att_type attrs'.
Proof.
  unfold same_attrs. revert attrs'. induction attrs as [|a attrs IH]; intros [|a' attrs']; try done.
  cbn. intros [= H1 H2 H3 H4]. by rewrite H1, (IH attrs').
Qed.

Lemma canon_cell w a off o d :
  elem_ok (att_type a) -> att_datum_ok w (att_type a) d -> canon_off a (Some off) = Some o -> o = cell_off (att_type a) d off.
Proof.
  intros He Hd. cbn [canon_off]. unfold attlen, attalign.
  destruct (typlen (att_type a) =? -1) eqn:E.
  - destruct (off =? _) eqn:E2; [|done]. zbool. intros H. apply (f_equal (default 0)) in H. cbn in H. subst o.
    symmetry. by apply cell_off_aligned.
  - intros H. apply (f_equal (default 0)) in H. cbn in H. subst o. unfold cell_off.
    destruct (cell_short (att_type a) d) eqn:Es; [|done].
    destruct (cell_short_nonzero w _ _ He Hd Es) as [Hl _]. rewrite Hl in E. done.
Qed.

Lemma drop_cell {A} (tp pad cb rest : list A) (off o : nat) :
  drop off tp = pad ++ cb ++ rest -> (o = off + length pad)%nat ->
  drop o tp = cb ++ rest /\ drop (o + length cb) tp = rest.
Proof.
  intros H ->. split.
  - by rewrite <- drop_drop, H, drop_app_length.
  - rewrite <- drop_drop, <- drop_drop, H, drop_app_length. apply drop_app_length.
Qed.

(** One step of a walk over the attributes. *)
Lemma attr_offset_spec w tp a off slow d rest canon :
  elem_ok (att_type a) -> att_datum_ok w (att_type a) d -> 0 <= off ->
  let o := cell_off (att_type a) d off in
  drop (Z.to_nat off) tp = replicate (Z.to_nat (o - off)) 0 ++ cell_bytes w (att_type a) d ++ rest ->
  (slow = false -> canon = Some off) -> (0 <= attcacheoff a -> canon_off a canon = Some (attcacheoff a)) ->
  (attr_offset tp a off slow = (set_cacheoff a o, o, false) /\ slow = false /\ canon_off a canon = Some o) \/
  attr_offset tp a off slow = (a, o, true).
Proof.
  intros He Hd Hoff o Htp Hs Hc. unfold attr_offset.
  assert (Hp : att_align_pointer off (attalign a) (attlen a) (drop (Z.to_nat off) tp) = o).
  { rewrite Htp. by apply cell_align_pointer. }
  destruct (negb slow && (attcacheoff a >=? 0)) eqn:E.
  { apply andb_true_iff in E as [E1 E2]. apply negb_true_iff in E1. rewrite Z.geb_leb in E2. zbool. subst slow.
    specialize (Hs eq_refl). subst canon. specialize (Hc E2). left.
    assert (Ho : attcacheoff a = o) by (by apply (canon_cell w) with (d := d) in Hc).
    split_and!; [|done|congruence]. rewrite <- Ho. by destruct a. }
  destruct (attlen a =? -1) eqn:El.
  - zbool. rewrite El in Hp.
    destruct (negb slow && (off =? att_align_nominal off (attalign a))) eqn:E2.
    + apply andb_true_iff in E2 as [E1 E2]. apply negb_true_iff in E1. subst slow. left.
      assert (Hcn : canon_off a canon = Some off).
      { rewrite (Hs eq_refl). cbn [canon_off]. rewrite El, E2. done. }
      assert (Ho : off = o) by (rewrite (Hs eq_refl) in Hcn; by apply (canon_cell w) with (d := d) in Hcn).
      rewrite <- Ho. done.
    + right. by rewrite Hp.
  - assert (Hcn : canon_off a (Some off) = Some o).
    { cbn [canon_off]. rewrite El. f_equal. pose proof (canon_cell w a off (att_align_nominal off (attalign a)) d He Hd) as H.
      cbn [canon_off] in H. rewrite El in H. by apply H. }
    assert (Ho : att_align_nominal off (attalign a) = o) by (cbn [canon_off] in Hcn; rewrite El in Hcn; by injection Hcn).
    rewrite Ho. destruct slow; [by right|left]. by rewrite (Hs eq_refl).
Qed.

(** The rest of the data, after an attribute that is not NULL. *)
Lemma layout_step w tp et d atts values off q :
  0 <= off -> let o := cell_off et d off in
  drop (Z.to_nat off) tp = layout w (et :: atts) (Some d :: values) off ++ q ->
  drop (Z.to_nat off) tp = replicate (Z.to_nat (o - off)) 0 ++ cell_bytes w et d ++
    layout w atts values (o + Z.of_nat (length (cell_bytes w et d))) ++ q /\
  drop (Z.to_nat o) tp = cell_bytes w et d ++ layout w atts values (o + Z.of_nat (length (cell_bytes w et d))) ++ q /\
  drop (Z.to_nat (o + Z.of_nat (length (cell_bytes w et d)))) tp =
    layout w atts values (o + Z.of_nat (length (cell_bytes w et d))) ++ q.
Proof.
  intros Hoff o Htp. cbn [layout] in Htp. fold o in Htp. rewrite <- !app_assoc in Htp. split; [done|].
  pose proof (cell_off_bound et d off) as Ho. fold o in Ho.
  destruct (drop_cell _ _ _ _ _ (Z.to_nat o) Htp) as [H1 H2]; [rewrite length_replicate; lia|].
  split; [done|]. rewrite <- H2. f_equal. lia.
Qed.

Lemma canon_next_cell w a off o d rest :
  elem_ok (att_type a) -> att_datum_ok w (att_type a) d -> canon_off a off = Some o ->
  (false || (attlen a <=? 0)) = false ->
  canon_next a (canon_off a off) = Some (att_addlength_pointer o (attlen a) (cell_bytes w (att_type a) d ++ rest)).
Proof.
  intros He Hd Ho Hl. cbn [orb] in Hl. zbool. rewrite Ho. cbn [canon_next]. rewrite pos_ltb by lia.
  unfold att_addlength_pointer. by rewrite pos_ltb by lia.
Qed.

(** What is read back. *)
Definition read_back (w : World) (atts : list ElemType) (values : list (option Datum)) : list (option Datum) :=
  zip_with (fun et v => cell_datum w et <$> v) atts values.

Section Walk.
Variable (w : World) (hasnulls : bool) (bp tp : list Z).

(** The bitmap from attribute [n] on. *)
Definition nulls_from (n : Z) (values : list (option Datum)) : Prop :=
  forall i v, values !! i = Some v -> hasnulls && att_isnull (n + Z.of_nat i) bp = bool_decide (v = None).

Lemma nulls_from_tail n v values : nulls_from n (v :: values) -> nulls_from (n + 1) values.
Proof. intros H i u Hu. rewrite <- (H (S i) u Hu). do 2 f_equal. lia. Qed.

Lemma nulls_from_head n v values : nulls_from n (v :: values) -> hasnulls && att_isnull n bp = bool_decide (v = None).
Proof. intros H. rewrite <- (H O v eq_refl). do 2 f_equal. lia. Qed.

Lemma deform_loop_spec rest attrs values n off slow canon q :
  values_ok w (map att_type attrs) values -> nulls_from n values -> 0 <= off ->
  drop (Z.to_nat off) tp = layout w (map att_type attrs) values off ++ q ->
  caches_ok (attrs ++ rest) canon -> (slow = false -> canon = Some off) ->
  exists attrs', deform_loop hasnulls bp tp attrs n off slow = (read_back w (map att_type attrs) values, attrs') /\
    caches_ok (attrs' ++ rest) canon /\ same_attrs attrs attrs' /\ (slow = true -> attrs' = attrs).
Proof.
  revert values n off slow canon.
  induction attrs as [|a attrs IH]; intros values n off slow canon [He Hv] Hn Hoff Htp Hc Hs.
  { exists []. inversion Hv. done. }
  cbn [map] in He, Hv. apply Forall_cons_1 in He as [He Hes].
  apply Forall2_cons_inv_l in Hv as (v & values' & Hv & Hvs & ->). cbn [deform_loop map].
  rewrite (nulls_from_head _ _ _ Hn). apply nulls_from_tail in Hn.
  destruct v as [d|]; [rewrite bool_decide_eq_false_2 by done|rewrite bool_decide_eq_true_2 by done].
  2: { destruct (IH values' (n + 1) off true (canon_next a (canon_off a canon)) (conj Hes Hvs) Hn Hoff Htp) as (attrs' & E & Hc' & Hsame & Heq);
         [by apply caches_ok_tail|done|].
       rewrite E. exists (a :: attrs'). rewrite (Heq eq_refl). done. }
  destruct (layout_step w tp (att_type a) d _ _ off q Hoff Htp) as (Hp & Hat & Hrest).
  pose proof (cell_off_bound (att_type a) d off) as Hob.
  set (o := cell_off (att_type a) d off) in *.
  set (off' := o + Z.of_nat (length (cell_bytes w (att_type a) d))) in *.
  assert (Hcached : 0 <= attcacheoff a -> canon_off a canon = Some (attcacheoff a)).
  { intros Ha. cbn [app caches_ok] in Hc. replace (attcacheoff a <? 0) with false in Hc by (symmetry; by apply Z.ltb_ge). by destruct Hc. }
  destruct (attr_offset_spec w tp a off slow d _ canon He Hv Hoff Hp Hs Hcached) as [(-> & -> & Hco)| ->]; cbv iota beta zeta.
  - fold o. change (attlen (set_cacheoff a o)) with (attlen a). change (att_type (set_cacheoff a o)) with (att_type a).
    destruct (IH values' (n + 1) off' (false || (attlen a <=? 0)) (canon_next a (canon_off a canon)) (conj Hes Hvs) Hn ltac:(lia) Hrest) as (attrs' & E & Hc' & Hsame & Heq).
    { by apply caches_ok_tail. }
    { intros Hsl. rewrite (canon_next_cell w a canon o d [] He Hv Hco Hsl). f_equal. by apply cell_addlength. }
    unfold attlen at 1. rewrite Hat, cell_addlength, cell_fetch by done. fold off'. rewrite E.
    eexists. split; [reflexivity|]. split_and!; try done.
    + cbn [app caches_ok]. change (attcacheoff (set_cacheoff a o)) with o.
      replace (o <? 0) with false by (symmetry; apply Z.ltb_ge; lia). split; [done|]. exact Hc'.
    + unfold same_attrs. cbn [map]. by f_equal.
  - fold o.
    destruct (IH values' (n + 1) off' true (canon_next a (canon_off a canon)) (conj Hes Hvs) Hn ltac:(lia) Hrest) as (attrs' & E & Hc' & Hsame & Heq).
    { by apply caches_ok_tail. }
    { done. }
    unfold attlen at 1. rewrite Hat, cell_addlength, cell_fetch by done. fold off'. cbn [orb]. rewrite E.
    rewrite (Heq eq_refl). by exists (a :: attrs).
Qed.

(** The walk to attribute [k], which is not NULL. *)
Lemma getattr_walk_spec rest attrs values n off slow canon q k a d :
  values_ok w (map att_type attrs) values -> nulls_from n values -> 0 <= off ->
  drop (Z.to_nat off) tp = layout w (map att_type attrs) values off ++ q ->
  caches_ok (attrs ++ rest) canon -> (slow = false -> canon = Some off) ->
  attrs !! k = Some a -> values !! k = Some (Some d) ->
  exists o attrs' q', getattr_walk hasnulls bp tp (attrs ++ rest) n off slow (n + Z.of_nat k) = Ok (o, attrs') /\
    drop (Z.to_nat o) tp = cell_bytes w (att_type a) d ++ q' /\
    caches_ok attrs' canon /\ same_attrs (attrs ++ rest) attrs' /\ (slow = true -> attrs' = attrs ++ rest).
Proof.
  revert values n off slow canon k.
  induction attrs as [|b attrs IH]; intros values n off slow canon k [He Hv] Hn Hoff Htp Hc Hs Hk Hd.
  { done. }
  cbn [map] in He, Hv. apply Forall_cons_1 in He as [He Hes].
  apply Forall2_cons_inv_l in Hv as (v & values' & Hv & Hvs & ->). cbn [getattr_walk map app].
  rewrite (nulls_from_head _ _ _ Hn). pose proof (nulls_from_tail _ _ _ Hn) as Hn'.
  destruct v as [u|]; [rewrite bool_decide_eq_false_2 by done|rewrite bool_decide_eq_true_2 by done].
  2: { destruct k as [|k]; [done|].
       destruct (IH values' (n + 1) off true (canon_next b (canon_off b canon)) k (conj Hes Hvs) Hn' Hoff Htp) as (o & attrs' & q' & E & Hq & Hc' & Hsame & Heq);
         [by apply caches_ok_tail|done|done|done|].
       replace (n + Z.of_nat (S k)) with (n + 1 + Z.of_nat k) by lia. rewrite E. cbn [mbind result_bind].
       exists o, (b :: attrs'), q'. rewrite (Heq eq_refl). done. }
  destruct (layout_step w tp (att_type b) u _ _ off q Hoff Htp) as (Hp & Hat & Hrest).
  pose proof (cell_off_bound (att_type b) u off) as Hob.
  set (o := cell_off (att_type b) u off) in *.
  set (off' := o + Z.of_nat (length (cell_bytes w (att_type b) u))) in *.
  assert (Hcached : 0 <= attcacheoff b -> canon_off b canon = Some (attcacheoff b)).
  { intros Ha. cbn [app caches_ok] in Hc. replace (attcacheoff b <? 0) with false in Hc by (symmetry; by apply Z.ltb_ge). by destruct Hc. }
  destruct (attr_offset_spec w tp b off slow u _ canon He Hv Hoff Hp Hs Hcached) as [(-> & -> & Hco)| ->]; cbv iota beta zeta; fold o.
  - assert (Hne : forall l, caches_ok l (canon_next b (canon_off b canon)) -> caches_ok (set_cacheoff b o :: l) canon).
    { intros l Hl. cbn [caches_ok]. change (attcacheoff (set_cacheoff b o)) with o.
      replace (o <? 0) with false by (symmetry; apply Z.ltb_ge; lia). split; [done|]. exact Hl. }
    destruct k as [|k].
    { replace (n =? _) with true by (symmetry; apply Z.eqb_eq; lia). injection Hk as ->. injection Hd as ->.
      eexists o, _, _. split; [reflexivity|]. split; [exact Hat|]. split_and!; [apply Hne; by apply caches_ok_tail|done|done]. }
    replace (n =? _) with false by (symmetry; apply Z.eqb_neq; lia).
    change (attlen (set_cacheoff b o)) with (attlen b).
    replace (n + Z.of_nat (S k)) with (n + 1 + Z.of_nat k) by lia.
    destruct (IH values' (n + 1) off' (false || (attlen b <=? 0)) (canon_next b (canon_off b canon)) k (conj Hes Hvs) Hn' ltac:(lia) Hrest) as (o' & attrs' & q' & E & Hq & Hc' & Hsame & Heq);
      [by apply caches_ok_tail| |done|done|].
    { intros Hsl. rewrite (canon_next_cell w b canon o u [] He Hv Hco Hsl). f_equal. by apply cell_addlength. }
    unfold attlen at 1. rewrite Hat, cell_addlength by done. fold off'. rewrite E. cbn [mbind result_bind].
    eexists _, _, _. split; [reflexivity|]. split; [exact Hq|]. split_and!; [by apply Hne| |done].
    unfold same_attrs. cbn [map]. by f_equal.
  - destruct k as [|k].
    { replace (n =? _) with true by (symmetry; apply Z.eqb_eq; lia). injection Hk as ->. injection Hd as ->.
      eexists o, _, _. split; [reflexivity|]. by split; [exact Hat|]. }
    replace (n =? _) with false by (symmetry; apply Z.eqb_neq; lia).
    replace (n + Z.of_nat (S k)) with (n + 1 + Z.of_nat k) by lia.
    destruct (IH values' (n + 1) off' true (canon_next b (canon_off b canon)) k (conj Hes Hvs) Hn' ltac:(lia) Hrest) as (o' & attrs' & q' & E & Hq & Hc' & Hsame & Heq);
      [by apply caches_ok_tail|done|done|done|].
    unfold attlen at 1. rewrite Hat, cell_addlength by done. fold off'. cbn [orb]. rewrite E. cbn [mbind result_bind].
    rewrite (Heq eq_refl). by eexists _, _, _.
Qed.

(** A cached offset is right in every tuple whose attributes before it are
    not NULL. *)
Lemma cached_position rest attrs values off q k a d :
  values_ok w (map att_type attrs) values -> 0 <= off ->
  drop (Z.to_nat off) tp = layout w (map att_type attrs) values off ++ q ->
  caches_ok (attrs ++ rest) (Some off) -> Forall (fun v => v <> None) (take k values) ->
  attrs !! k = Some a -> values !! k = Some (Some d) -> 0 <= attcacheoff a ->
  exists q', drop (Z.to_nat (attcacheoff a)) tp = cell_bytes w (att_type a) d ++ q'.
Proof.
  revert values off k. induction attrs as [|b attrs IH]; intros values off k [He Hv] Hoff Htp Hc Hnn Hk Hd Ha; [done|].
  cbn [map] in He, Hv. apply Forall_cons_1 in He as [He Hes].
  apply Forall2_cons_inv_l in Hv as (v & values' & Hv & Hvs & ->).
  assert (Hb : 0 <= attcacheoff b).
  { destruct (decide (0 <= attcacheoff b)) as [|Hb]; [done|]. exfalso. cbn [app caches_ok] in Hc.
    replace (attcacheoff b <? 0) with true in Hc by (symmetry; apply Z.ltb_lt; lia).
    destruct k as [|k]; [injection Hk as ->; lia|]. cbn in Hk.
    rewrite Forall_lookup in Hc. specialize (Hc k a). rewrite lookup_app_l in Hc by (by apply lookup_lt_Some in Hk). by apply Hc in Hk; lia. }
  cbn [app caches_ok] in Hc. replace (attcacheoff b <? 0) with false in Hc by (symmetry; by apply Z.ltb_ge).
  destruct Hc as [Hc1 Hc2].
  assert (Hu : exists u, v = Some u).
  { destruct v as [u|]; [by exists u|]. exfalso. destruct k; [done|]. cbn in Hnn. by apply Forall_cons_1 in Hnn as [? _]. }
  destruct Hu as [u ->].
  pose proof (canon_cell w b off (attcacheoff b) u He Hv Hc1) as Ho.
  destruct (layout_step w tp (att_type b) u _ _ off q Hoff Htp) as (Hp & Hat & Hrest).
  destruct k as [|k].
  { injection Hk as ->. injection Hd as ->. rewrite Ho. eauto. }
  change (attrs !! k = Some a) in Hk.
  destruct (attlen b <=? 0) eqn:El.
  { exfalso. rewrite Hc1 in Hc2. cbn [canon_next] in Hc2. zbool.
    replace (0 <? attlen b) with false in Hc2 by (symmetry; apply Z.ltb_ge; lia).
    apply caches_ok_stop in Hc2. rewrite Forall_lookup in Hc2. specialize (Hc2 k a).
    rewrite lookup_app_l in Hc2 by (by apply lookup_lt_Some in Hk). apply Hc2 in Hk; lia. }
  rewrite (canon_next_cell w b (Some off) (attcacheoff b) u [] He Hv Hc1 El), Ho in Hc2. unfold attlen in Hc2.
  rewrite cell_addlength in Hc2 by done. pose proof (cell_off_bound (att_type b) u off).
  apply (IH values' (cell_off (att_type b) u off + Z.of_nat (length (cell_bytes w (att_type b) u))) k); try done; [lia|].
  cbn in Hnn. by apply Forall_cons_1 in Hnn as [_ ?].
Qed.

End Walk.
