(* ===== verification/HeapTupleRead.v ===== *)
(** * Attributes of heap tuples: the readers agree

    The claims on heaptuple.c: a formed tuple reads back as its values, the
    offsets that get cached do not change what is read, and replacing and
    expanding have their meaning on the values. *)

From S2P Require Import Prelude Varlena PgLz Toast HeapTuple HeapTupleFill HeapTupleProofs.

(** ** Nulls before an attribute *)

Lemma land_lnot_ones b f :
  0 <= f -> (Z.land (Z.lnot b) (Z.shiftl 1 f - 1) =? 0) = forallb (fun m => Z.testbit b m) (seqZ 0 f).
Proof.
  intros Hf. rewrite Z.shiftl_1_l. replace (2 ^ f - 1) with (Z.ones f) by (rewrite Z.ones_equiv; lia).
  apply eq_true_iff_eq. rewrite Z.eqb_eq, forallb_forall. split.
  - intros H m Hm. apply list_elem_of_In, elem_of_seqZ in Hm.
    apply (f_equal (fun x => Z.testbit x m)) in H.
    rewrite Z.land_spec, Z.lnot_spec, Z.ones_spec_low, Z.bits_0, andb_true_r in H by lia. by apply negb_false_iff.
  - intros H. apply Z.bits_inj'. intros m Hm. rewrite Z.land_spec, Z.lnot_spec, Z.bits_0 by done.
    destruct (decide (m < f)).
    + rewrite H; [done|]. apply list_elem_of_In, elem_of_seqZ. lia.
    + by rewrite Z.ones_spec_high, andb_false_r by lia.
Qed.

Lemma byte_255 b : is_byte b -> (b =? 0xFF) = forallb (fun m => Z.testbit b m) (seqZ 0 8).
Proof.
  intros Hb. rewrite <- land_lnot_ones by done. change (Z.shiftl 1 8 - 1) with (Z.ones 8).
  rewrite Z.land_ones by lia. unfold Z.lnot, is_byte in *. change (2 ^ 8) with 256.
  apply eq_true_iff_eq. rewrite !Z.eqb_eq. zlia.
Qed.

(** [existsb] and [forallb] over attribute numbers, as a statement. *)
Lemma nulls_before_spec bits values k :
  bits_inv bits values -> (k < length values)%nat ->
  nulls_before bits (Z.of_nat k) = has_null (take k values).
Proof.
  intros (H1 & _ & H3) Hk.
  assert (Hbit : forall i, (i < k)%nat -> bit_at bits (Z.of_nat i) = true <-> values !! i <> Some None).
  { intros i Hi. destruct (lookup_lt_is_Some_2 values i) as [v Hv]; [lia|]. rewrite (H1 i v Hv), Hv.
    rewrite negb_true_iff, bool_decide_eq_false. naive_solver. }
  assert (Hnull : has_null (take k values) = false <-> forall i, (i < k)%nat -> bit_at bits (Z.of_nat i) = true).
  { unfold has_null. split.
    - intros H i Hi. apply Hbit; [done|]. intros Hv. apply not_true_iff_false in H. apply H. apply existsb_exists. exists None.
      split; [|done]. apply list_elem_of_In, list_elem_of_lookup. exists i. by rewrite lookup_take_lt.
    - intros H. apply not_true_iff_false. intros E. apply existsb_exists in E as (v & Hv & Hb). apply bool_decide_eq_true in Hb. subst v.
      apply list_elem_of_In, list_elem_of_lookup in Hv as [i Hi]. apply lookup_take_Some in Hi as [Hi Hik]. by apply (Hbit i Hik); [apply H|]. }
  unfold nulls_before. rewrite Z.shiftr_div_pow2, (Z.land_ones _ 3) by lia. change (2 ^ 3) with 8.
  rewrite land_lnot_ones by zlia.
  apply eq_true_iff_eq. rewrite <- !not_false_iff_true, Hnull. apply not_iff_compat. split.
  - destruct (forallb _ _) eqn:E; cbn [negb]; [|done]. intros Hex i Hi.
    destruct (decide (Z.of_nat i / 8 = Z.of_nat k / 8)) as [Ed|Ed].
    + rewrite forallb_forall in E. unfold bit_at. rewrite Ed. apply E. apply list_elem_of_In, elem_of_seqZ. zlia.
    + assert (Hb : (byte_at bits (Z.of_nat i / 8) =? 0xFF) = true).
      { apply negb_false_iff. apply not_true_iff_false. intros Hb. apply not_true_iff_false in Hex. apply Hex.
        apply existsb_exists. eexists. split; [|exact Hb]. apply list_elem_of_In, elem_of_seqZ. zlia. }
      rewrite byte_255, forallb_forall in Hb by (apply H3; zlia). apply Hb. apply list_elem_of_In, elem_of_seqZ. zlia.
  - intros H. replace (forallb _ _) with true; cbn [negb].
    + apply not_true_iff_false. intros E. apply existsb_exists in E as (i & Hi & Hb). apply list_elem_of_In, elem_of_seqZ in Hi.
      apply negb_true_iff in Hb. apply not_true_iff_false in Hb. apply Hb. rewrite byte_255 by (apply H3; zlia).
      apply forallb_forall. intros m Hm. apply list_elem_of_In, elem_of_seqZ in Hm.
      specialize (H (Z.to_nat (8 * i + m)) ltac:(zlia)). unfold bit_at in H.
      replace (Z.of_nat (Z.to_nat (8 * i + m))) with (8 * i + m) in H by lia.
      replace ((8 * i + m) / 8) with i in H by zlia. by replace ((8 * i + m) mod 8) with m in H by zlia.
    + symmetry. apply forallb_forall. intros m Hm. apply list_elem_of_In, elem_of_seqZ in Hm.
      specialize (H (Z.to_nat (8 * (Z.of_nat k / 8) + m)) ltac:(zlia)). unfold bit_at in H.
      replace (Z.of_nat (Z.to_nat (8 * (Z.of_nat k / 8) + m))) with (8 * (Z.of_nat k / 8) + m) in H by zlia.
      replace ((8 * (Z.of_nat k / 8) + m) / 8) with (Z.of_nat k / 8) in H by zlia.
      by replace ((8 * (Z.of_nat k / 8) + m) mod 8) with m in H by zlia.
Qed.

(** ** Initialising the cache *)

Lemma att_align_pos off a : 0 < off -> 0 < att_align_nominal off a.
Proof. pose proof (att_align_nominal_bound off a). lia. Qed.

(** The cached columns are of fixed width, so that the offsets that are added
    are those of every tuple. *)
Lemma init_offsets_ok off attrs (skipping : bool) :
  0 < off -> caches_ok attrs (Some off) -> Forall (fun a => 0 <= attcacheoff a -> 0 < attlen a) attrs ->
  (skipping = false -> Forall (fun a => attcacheoff a < 0) attrs) ->
  caches_ok (init_offsets off skipping attrs) (Some off) /\ same_attrs attrs (init_offsets off skipping attrs).
Proof.
  revert off skipping. induction attrs as [|a attrs IH]; intros off skipping Hoff Hc Hf Hs; [done|].
  cbn [init_offsets]. apply Forall_cons_1 in Hf as [Hf Hfs].
  destruct (skipping && (attcacheoff a >? 0)) eqn:E.
  - apply andb_true_iff in E as [-> E]. rewrite Z.gtb_ltb in E. zbool. specialize (Hf ltac:(lia)).
    cbn [caches_ok] in Hc |- *. replace (attcacheoff a <? 0) with false in Hc |- * by (symmetry; apply Z.ltb_ge; lia).
    destruct Hc as [Hc1 Hc2]. rewrite Hc1 in Hc2 |- *. cbn [canon_next] in Hc2 |- *. rewrite pos_ltb in Hc2 |- * by done.
    destruct (IH (attcacheoff a + attlen a) true) as [I1 I2]; try done; [lia|].
    split; [by split|]. unfold same_attrs. cbn [map]. by f_equal.
  - assert (Ha : attcacheoff a < 0).
    { destruct (decide (attcacheoff a < 0)) as [|Hge]; [done|]. exfalso.
      destruct skipping; [|by apply Forall_cons_1 in Hs as [? _]]. cbn [andb] in E. rewrite Z.gtb_ltb in E. zbool.
      cbn [caches_ok] in Hc. replace (attcacheoff a <? 0) with false in Hc by (symmetry; apply Z.ltb_ge; lia).
      destruct Hc as [Hc _]. cbn [canon_off] in Hc. pose proof (att_align_pos off (attalign a) Hoff).
      repeat case_match; try done; injection Hc as Hc; lia. }
    assert (Hrest : Forall (fun a => attcacheoff a < 0) attrs).
    { cbn [caches_ok] in Hc. by replace (attcacheoff a <? 0) with true in Hc by (symmetry; by apply Z.ltb_lt). }
    destruct (attlen a <=? 0) eqn:El; [done|]. zbool.
    pose proof (att_align_pos off (attalign a) Hoff).
    destruct (IH (att_align_nominal off (attalign a) + attlen a) false) as [I1 I2]; try done; [lia|by apply caches_ok_none|].
    split; [|unfold same_attrs; cbn [map]; by f_equal].
    cbn [caches_ok]. change (attcacheoff (set_cacheoff a (att_align_nominal off (attalign a)))) with (att_align_nominal off (attalign a)).
    replace (att_align_nominal off (attalign a) <? 0) with false by (symmetry; apply Z.ltb_ge; lia).
    assert (Hco : canon_off (set_cacheoff a (att_align_nominal off (attalign a))) (Some off) = Some (att_align_nominal off (attalign a))).
    { cbn [canon_off]. change (attlen (set_cacheoff _ _)) with (attlen a). by rewrite pos_eqb_neg. }
    rewrite Hco. split; [done|]. cbn [canon_next]. change (attlen (set_cacheoff _ _)) with (attlen a). by rewrite pos_ltb.
Qed.

(** Every leading fixed-width column gets an offset. *)
Lemma init_offsets_cached off attrs skipping k a :
  0 < off -> Forall (fun a => 0 < attlen a) (take (S k) attrs) -> attrs !! k = Some a ->
  exists a', init_offsets off skipping attrs !! k = Some a' /\ 0 <= attcacheoff a' /\ att_type a' = att_type a.
Proof.
  revert off skipping k. induction attrs as [|b attrs IH]; intros off skipping k Hoff Hf Hk; [done|].
  cbn [init_offsets]. cbn [firstn] in Hf. apply Forall_cons_1 in Hf as [Hb Hf].
  pose proof (att_align_pos off (attalign b) Hoff).
  destruct (skipping && (attcacheoff b >? 0)) eqn:E.
  - apply andb_true_iff in E as [_ E]. rewrite Z.gtb_ltb in E. zbool.
    destruct k as [|k]; [injection Hk as ->; exists a; split_and!; [done|lia|done]|]. cbn.
    apply IH; try done; lia.
  - replace (attlen b <=? 0) with false by (symmetry; apply Z.leb_gt; lia).
    destruct k as [|k]; [injection Hk as ->; eexists; split; [reflexivity|]; cbn; split; [lia|done]|]. cbn.
    apply IH; try done; lia.
Qed.

Lemma caches_prefix attrs off i j b c :
  caches_ok attrs off -> attrs !! i = Some b -> 0 <= attcacheoff b -> (j <= i)%nat -> attrs !! j = Some c -> 0 <= attcacheoff c.
Proof.
  revert off i j. induction attrs as [|a attrs IH]; intros off i j Hc Hi Hb Hj Hjc; [done|].
  cbn [caches_ok] in Hc. destruct (attcacheoff a <? 0) eqn:E; zbool.
  - exfalso. destruct i as [|i]; [injection Hi as ->; lia|]. rewrite Forall_lookup in Hc. specialize (Hc i b Hi). lia.
  - destruct j as [|j]; [by injection Hjc as ->|]. destruct i as [|i]; [lia|]. destruct Hc as [_ Hc].
    apply (IH _ i j Hc); try done. lia.
Qed.

Lemma init_all_offsets_spec attrs k a :
  caches_ok attrs (Some 0) -> Forall (fun a => 0 < attlen a) (take (S k) attrs) -> attrs !! k = Some a -> attcacheoff a < 0 ->
  caches_ok (init_all_offsets attrs) (Some 0) /\ same_attrs attrs (init_all_offsets attrs) /\
  exists a', init_all_offsets attrs !! k = Some a' /\ 0 <= attcacheoff a' /\ att_type a' = att_type a.
Proof.
  intros Hc Hf Hk Ha.
  assert (Hfix : Forall (fun a => 0 <= attcacheoff a -> 0 < attlen a) attrs).
  { apply Forall_lookup. intros i b Hi Hb. rewrite Forall_lookup in Hf. apply (Hf i). rewrite lookup_take_lt; [done|].
    destruct (decide (i < S k)%nat) as [|Hik]; [done|]. exfalso. pose proof (caches_prefix _ _ i k b a Hc Hi Hb ltac:(lia) Hk). lia. }
  destruct attrs as [|b attrs]; [done|]. cbn [init_all_offsets]. cbn [firstn] in Hf.
  apply Forall_cons_1 in Hf as [Hb Hf]. apply Forall_cons_1 in Hfix as [_ Hfix].
  assert (Hco : forall c, canon_off (set_cacheoff b c) (Some 0) = Some 0).
  { intros c. cbn [canon_off]. change (attlen (set_cacheoff b c)) with (attlen b). rewrite pos_eqb_neg by done.
    by destruct (attalign (set_cacheoff b c)). }
  assert (Hnext : canon_next b (canon_off b (Some 0)) = Some (0 + attlen b)).
  { specialize (Hco (attcacheoff b)). destruct b as [t c h v]. unfold set_cacheoff in Hco. cbn [attcacheoff att_type atthasmissing am_value] in Hco.
    rewrite Hco. cbn [canon_next]. by rewrite pos_ltb. }
  assert (Hc' : caches_ok attrs (Some (0 + attlen b))) by (rewrite <- Hnext; by apply caches_ok_tail).
  destruct (init_offsets_ok (0 + attlen b) attrs true) as [I1 I2]; try done; try lia.
  split_and!.
  - cbn [caches_ok]. change (attcacheoff (set_cacheoff b 0)) with 0. change (0 <? 0) with false. cbv iota.
    rewrite Hco. split; [done|]. cbn [canon_next]. change (attlen (set_cacheoff b 0)) with (attlen b). by rewrite pos_ltb.
  - unfold same_attrs. cbn [map]. by f_equal.
  - destruct k as [|k]; [injection Hk as ->; by eexists|].
    destruct (init_offsets_cached (0 + attlen b) attrs true k a) as (a' & H1 & H2 & H3); try done; try lia. by exists a'.
Qed.

(** ** Images and descriptors *)

(** The columns that the tuple and the descriptor have in common are the same:
    a tuple may have more columns than the descriptor, or fewer. *)
Definition desc_matches (td : TupleDesc) (atts : list ElemType) : Prop :=
  map att_type (take (length atts) (td_attrs td)) = take (length (td_attrs td)) atts.

(** The row that a tuple with the values [values] stands for. *)
Definition row_of (w : World) (td : TupleDesc) (atts : list ElemType) (values : list (option Datum)) : list (option Datum) :=
  take (length (td_attrs td)) (read_back w atts values) ++ map missing_value (drop (length atts) (td_attrs td)).

Definition same_desc (td td' : TupleDesc) : Prop :=
  tdtypeid td = tdtypeid td' /\ tdtypmod td = tdtypmod td' /\ td_missing td = td_missing td' /\
  same_attrs (td_attrs td) (td_attrs td').

Lemma layout_take w atts values off k :
  exists q, layout w atts values off = layout w (take k atts) (take k values) off ++ q.
Proof.
  revert values off k. induction atts as [|et atts IH]; intros values off k; [by exists []; destruct k|].
  destruct k as [|k]; [by eexists|]. cbn [firstn layout].
  destruct values as [|[d|] values]; cbn [firstn]; [by exists []| |apply IH].
  destruct (IH values (cell_off et d off + Z.of_nat (length (cell_bytes w et d))) k) as [q ->].
  exists q. by rewrite <- !app_assoc.
Qed.

Lemma values_ok_take w atts values k : values_ok w atts values -> values_ok w (take k atts) (take k values).
Proof. intros [H1 H2]. split; [by apply Forall_take|by apply Forall2_take]. Qed.

Lemma image_nulls w atts values tup :
  tuple_image w atts values tup -> nulls_from (HeapTupleHasNulls tup) (t_bits tup) 0 values.
Proof.
  intros H i v Hv. unfold HeapTupleHasNulls. rewrite (bit_set_testbit _ 0), (ti_nulls _ _ _ _ H) by done.
  destruct (has_null values) eqn:E.
  - destruct (ti_bits _ _ _ _ H E) as [(H1 & _) _]. cbn [andb].
    rewrite att_isnull_spec, Z.add_0_l, (H1 i v Hv) by lia. by rewrite negb_involutive.
  - apply has_null_false in E. rewrite Forall_lookup in E. symmetry. apply bool_decide_eq_false_2. by eapply E.
Qed.

Lemma nulls_from_take hn bits n values k : nulls_from hn bits n values -> nulls_from hn bits n (take k values).
Proof. intros H i v Hv. apply lookup_take_Some in Hv as [Hv _]. by apply H. Qed.

Lemma image_prefix w td atts values tup :
  tuple_image w atts values tup -> desc_matches td atts ->
  let as1 := take (length atts) (td_attrs td) in
  let vs1 := take (length (td_attrs td)) values in
  values_ok w (map att_type as1) vs1 /\ nulls_from (HeapTupleHasNulls tup) (t_bits tup) 0 vs1 /\
  exists q, drop (Z.to_nat 0) (t_data tup) = layout w (map att_type as1) vs1 0 ++ q.
Proof.
  intros H Hm as1 vs1. unfold as1, desc_matches in *. rewrite !Hm. split_and!.
  - apply values_ok_take, H.
  - by apply nulls_from_take, image_nulls with (w := w) (atts := atts).
  - destruct (ti_data _ _ _ _ H) as [n ->]. destruct (layout_take w atts values 0 (length (td_attrs td))) as [q ->].
    rewrite <- app_assoc. by eexists.
Qed.

Lemma same_attrs_app l l' r : same_attrs l l' -> same_attrs (l ++ r) (l' ++ r).
Proof. unfold same_attrs. rewrite !map_app. by intros ->. Qed.

Lemma zip_with_take {A B C} (f : A -> B -> C) l k n : take n (zip_with f l k) = zip_with f (take n l) (take n k).
Proof. revert l k. induction n as [|n IH]; intros [|a l] [|b k]; cbn; try done. by rewrite IH. Qed.

Lemma heap_deform_tuple_image w td atts values tup :
  tuple_image w atts values tup -> desc_ok td -> desc_matches td atts ->
  exists td', heap_deform_tuple tup td = (row_of w td atts values, td') /\ desc_ok td' /\ same_desc td td'.
Proof.
  intros H [Hd Hc] Hm. unfold heap_deform_tuple, td_natts. rewrite (ti_natts _ _ _ _ H).
  destruct (image_prefix w td atts values tup H Hm) as (Hok & Hn & q & Hq).
  set (k := Z.to_nat (Z.min _ _)).
  assert (Ht : take k (td_attrs td) = take (length atts) (td_attrs td)).
  { destruct (decide (length atts <= length (td_attrs td))%nat); [f_equal; lia|]. rewrite !take_ge by lia. done. }
  assert (Hdr : drop k (td_attrs td) = drop (length atts) (td_attrs td)).
  { destruct (decide (length atts <= length (td_attrs td))%nat); [f_equal; lia|]. rewrite !drop_ge by lia. done. }
  rewrite Ht, Hdr.
  destruct (deform_loop_spec w _ _ (t_data tup) (drop (length atts) (td_attrs td)) _ _ 0 0 false (Some 0) q Hok Hn ltac:(lia) Hq)
    as (attrs' & E & Hc' & Hsame & _); [by rewrite take_drop|done|].
  rewrite E. eexists. split; [|split].
  - unfold row_of. rewrite Hm. unfold read_back at 2. rewrite zip_with_take. reflexivity.
  - split; [|done]. unfold td_types in *. cbn [td_attrs set_attrs].
    rewrite <- (same_attrs_types (td_attrs td)); [done|]. rewrite <- (take_drop (length atts) (td_attrs td)) at 1. by apply same_attrs_app.
  - split_and!; try done. cbn [td_attrs set_attrs]. rewrite <- (take_drop (length atts) (td_attrs td)) at 1. by apply same_attrs_app.
Qed.

(** ** One attribute *)

Lemma image_value w td atts values tup k d :
  tuple_image w atts values tup -> desc_matches td atts -> (k < length atts)%nat ->
  take (length (td_attrs td)) values !! k = Some (Some d) ->
  exists a, take (length atts) (td_attrs td) !! k = Some a /\ td_attrs td !! k = Some a /\
    elem_ok (att_type a) /\ att_datum_ok w (att_type a) d.
Proof.
  intros H Hm Hk Hv. destruct (image_prefix w td atts values tup H Hm) as ([He Hok] & _).
  destruct (Forall2_lookup_r _ _ _ _ _ Hok Hv) as (et & Het & Hd).
  apply list_lookup_fmap_Some in Het as (a & -> & Ha). pose proof Ha as Ha'. apply lookup_take_Some in Ha' as [Ha' _].
  exists a. split_and!; try done. rewrite Forall_lookup in He. apply (He k). by apply list_lookup_fmap_Some; eauto.
Qed.

Lemma no_var_width et d : elem_ok et -> var_width et (Some d) = false -> 0 < typlen et.
Proof.
  unfold var_width, elem_ok. intros He H. destruct (typbyval et); cbn in He, H.
  - lia.
  - apply Z.ltb_ge in H. lia.
Qed.

(** A tuple without variable-width values has only fixed-width columns before
    an attribute that is preceded by no NULL. *)
Lemma image_fixed w td atts values tup k d :
  tuple_image w atts values tup -> desc_matches td atts -> (k < length atts)%nat ->
  take (length (td_attrs td)) values !! k = Some (Some d) ->
  Forall (fun v => v <> None) (take k (take (length (td_attrs td)) values)) ->
  HeapTupleHasVarWidth tup && existsb (fun a => attlen a <=? 0) (take (S k) (td_attrs td)) = false ->
  Forall (fun a => 0 < attlen a) (take (S k) (td_attrs td)).
Proof.
  intros H Hm Hk Hv Hnn E. apply andb_false_iff in E as [E|E].
  - unfold HeapTupleHasVarWidth in E. rewrite (bit_set_testbit _ 1), (ti_var _ _ _ _ H) in E by done.
    apply Forall_lookup. intros i a Hi. apply lookup_take_Some in Hi as [Hi Hik].
    assert (Hu : exists u, take (length (td_attrs td)) values !! i = Some (Some u)).
    { destruct (decide (i = k)) as [->|]; [by exists d|]. rewrite Forall_lookup in Hnn.
      destruct (lookup_lt_is_Some_2 (take (length (td_attrs td)) values) i) as [[u|] Hu]; [apply lookup_lt_Some in Hv; lia|by exists u|].
      exfalso. apply (Hnn i None); [|done]. rewrite lookup_take_lt by lia. done. }
    destruct Hu as [u Hu]. destruct (image_value w td atts values tup i u H Hm ltac:(lia) Hu) as (a' & Ha1 & Ha2 & He & _).
    assert (a' = a) by congruence. subst a'. apply (no_var_width _ u); [done|].
    apply not_true_iff_false. intros Hw. apply not_true_iff_false in E. apply E. unfold any2. apply existsb_exists.
    exists (att_type a, Some u). split; [|done]. apply list_elem_of_In, list_elem_of_lookup. exists i.
    apply lookup_zip_with_Some. exists (att_type a), (Some u). split; [done|]. split.
    + assert (Hx : take (length (td_attrs td)) atts !! i = Some (att_type a)).
      { rewrite <- Hm. apply list_lookup_fmap_Some. by exists a. }
      by apply lookup_take_Some in Hx as [? _].
    + by apply lookup_take_Some in Hu as [? _].
  - apply Forall_lookup. intros i a Hi. apply not_true_iff_false in E. destruct (decide (0 < attlen a)); [done|]. exfalso. apply E.
    apply existsb_exists. exists a. split; [by apply list_elem_of_In, list_elem_of_lookup; exists i|]. apply Z.leb_le. lia.
Qed.

Lemma nocachegetattr_image w td atts values tup k d :
  tuple_image w atts values tup -> desc_ok td -> desc_matches td atts -> (k < length atts)%nat ->
  take (length (td_attrs td)) values !! k = Some (Some d) ->
  exists a td', td_attrs td !! k = Some a /\
    nocachegetattr tup (Z.of_nat k + 1) td = Ok (cell_datum w (att_type a) d, td') /\ desc_ok td' /\ same_desc td td'.
Proof.
  intros H [Hd Hc] Hm Hk Hv. destruct (image_prefix w td atts values tup H Hm) as (Hok & Hn & q & Hq).
  destruct (image_value w td atts values tup k d H Hm Hk Hv) as (a & Ha1 & Ha & He & Hda).
  assert (Hkv : values !! k = Some (Some d)) by (by apply lookup_take_Some in Hv as [? _]).
  exists a. unfold nocachegetattr. replace (Z.of_nat k + 1 - 1) with (Z.of_nat k) by lia.
  rewrite (array_get_lookup (td_attrs td) _ a) by (rewrite ?Nat2Z.id; done || lia). cbn [mbind result_bind].
  set (slow := negb (HeapTupleNoNulls tup) && nulls_before (t_bits tup) (Z.of_nat k)).
  assert (Hslow : slow = has_null (take k values)).
  { unfold slow, HeapTupleNoNulls. rewrite (bit_set_testbit _ 0), (ti_nulls _ _ _ _ H), negb_involutive by done.
    destruct (has_null values) eqn:E.
    - destruct (ti_bits _ _ _ _ H E) as [Hb _]. apply nulls_before_spec; [done|]. by apply lookup_lt_Some in Hkv.
    - cbn [andb]. apply has_null_false in E. symmetry. apply not_true_iff_false. intros E'. apply existsb_exists in E' as (v & Hin & Hb).
      apply bool_decide_eq_true in Hb. subst v. apply list_elem_of_In, list_elem_of_lookup in Hin as [i Hi].
      apply lookup_take_Some in Hi as [Hi _]. rewrite Forall_lookup in E. by eapply E. }
  assert (Hnn : slow = false -> Forall (fun v => v <> None) (take k (take (length (td_attrs td)) values))).
  { intros E. rewrite Hslow in E. apply has_null_false in E. rewrite take_take. rewrite Forall_lookup in E |- *.
    intros i v Hi. apply lookup_take_Some in Hi as [Hi1 Hi2]. apply (E i). rewrite lookup_take_lt by lia. done. }
  set (rest := drop (length atts) (td_attrs td)).
  assert (Hsplit : td_attrs td = take (length atts) (td_attrs td) ++ rest) by (symmetry; apply take_drop).
  destruct (negb slow && (attcacheoff a >=? 0)) eqn:E1.
  { apply andb_true_iff in E1 as [E1 E2]. apply negb_true_iff in E1. rewrite Z.geb_leb in E2. zbool.
    destruct (cached_position w (t_data tup) rest _ _ 0 q k a d Hok ltac:(lia) Hq) as [q' Hq']; try done; [by rewrite <- Hsplit|by apply Hnn|].
    rewrite Hq', cell_fetch by done. eexists. done. }
  match goal with |- context [negb ?s] => set (slow2 := s) end.
  destruct slow2 eqn:E2; cbn [negb].
  - destruct (getattr_walk_spec w _ _ (t_data tup) rest _ _ 0 0 false (Some 0) q k a d Hok Hn ltac:(lia) Hq)
      as (o & attrs' & q' & E & Hq' & Hc' & Hsame & _); try done; [by rewrite <- Hsplit|].
    rewrite <- Hsplit in E, Hsame. rewrite Z.add_0_l in E. rewrite E. cbn [mbind result_bind]. rewrite Hq', cell_fetch by done.
    eexists. split; [done|]. split; [done|]. split; [|done]. split; [|done].
    unfold td_types in *. cbn [td_attrs set_attrs]. by rewrite <- (same_attrs_types (td_attrs td)).
  - unfold slow2 in E2. apply orb_false_iff in E2 as [E2 E3]. specialize (Hnn E2). rewrite E2 in E1. cbn [negb andb] in E1.
    rewrite Z.geb_leb in E1. zbool. rewrite Nat2Z.id in E3.
    assert (Hfix : Forall (fun a => 0 < attlen a) (take (S k) (td_attrs td))) by (by eapply image_fixed).
    destruct (init_all_offsets_spec (td_attrs td) k a Hc Hfix Ha ltac:(lia)) as (I1 & I2 & a' & Ha' & Hca' & Hta').
    rewrite (array_get_lookup _ _ a') by (rewrite ?Nat2Z.id; done || lia). cbn [mbind result_bind].
    set (attrs' := init_all_offsets (td_attrs td)) in *.
    assert (Hl : map att_type (take (length atts) attrs') = map att_type (take (length atts) (td_attrs td))).
    { rewrite <- !firstn_map. f_equal. symmetry. by apply same_attrs_types. }
    rewrite <- Hl in Hok, Hq.
    destruct (cached_position w (t_data tup) (drop (length atts) attrs') _ _ 0 q k a' d Hok ltac:(lia) Hq) as [q' Hq']; try done.
    { by rewrite take_drop. }
    { by rewrite lookup_take_lt. }
    rewrite Hq', Hta', cell_fetch by done. eexists. split; [done|]. split; [done|]. split; [|done]. split; [|done].
    unfold td_types in *. cbn [td_attrs set_attrs]. by rewrite <- (same_attrs_types (td_attrs td)).
Qed.
