(* ===== verification/HeapTupleExpand.v ===== *)
(** * Single attributes, minimal tuples and expansion

    [heap_getattr] and [heap_attisnull] on an image, the images that minimal
    tuples and expanded tuples are. *)

From S2P Require Import Prelude Varlena PgLz Toast HeapTuple HeapTupleFill HeapTupleProofs HeapTupleRead.

(** ** [heap_getattr] and [heap_attisnull] *)

Lemma row_of_lookup w td atts values k :
  length values = length atts -> desc_matches td atts -> (k < length (td_attrs td))%nat ->
  row_of w td atts values !! k =
  if decide (k < length atts)%nat then
    match td_attrs td !! k, values !! k with Some a, Some v => Some (cell_datum w (att_type a) <$> v) | _, _ => None end
  else missing_value <$> td_attrs td !! k.
Proof.
  intros Hl Hm Hk. unfold row_of.
  assert (Hr : length (take (length (td_attrs td)) (read_back w atts values)) = Nat.min (length (td_attrs td)) (length atts)).
  { unfold read_back. rewrite length_take, length_zip_with. lia. }
  destruct (decide (k < length atts)%nat) as [Hka|Hka].
  - rewrite lookup_app_l, lookup_take_lt by lia. unfold read_back. rewrite lookup_zip_with.
    destruct (lookup_lt_is_Some_2 (td_attrs td) k Hk) as [a Ha]. rewrite Ha.
    destruct (lookup_lt_is_Some_2 atts k Hka) as [et Het]. rewrite Het.
    assert (Hx : take (length (td_attrs td)) atts !! k = Some (att_type a)).
    { rewrite <- Hm. apply list_lookup_fmap_Some. exists a. by rewrite lookup_take_lt. }
    rewrite lookup_take_lt, Het in Hx by lia. injection Hx as ->. by destruct (values !! k).
  - rewrite lookup_app_r by lia. rewrite list_lookup_fmap, lookup_drop. do 2 f_equal. lia.
Qed.

(** Every reader of one attribute agrees with the row. *)
Lemma heap_getattr_image w td atts values tup k v :
  tuple_image w atts values tup -> desc_ok td -> desc_matches td atts ->
  row_of w td atts values !! k = Some v ->
  exists td', heap_getattr tup (Z.of_nat k + 1) td = Ok (v, td') /\ desc_ok td' /\ same_desc td td'.
Proof.
  intros H Hd Hm Hv. pose proof (values_ok_length _ _ _ (ti_ok _ _ _ _ H)) as Hl.
  assert (Hk : (k < length (td_attrs td))%nat).
  { apply lookup_lt_Some in Hv. unfold row_of, read_back in Hv.
    rewrite length_app, length_take, length_zip_with, length_map, length_drop in Hv. lia. }
  rewrite row_of_lookup in Hv by done.
  unfold heap_getattr. rewrite (ti_natts _ _ _ _ H).
  destruct (lookup_lt_is_Some_2 (td_attrs td) k Hk) as [a Ha]. rewrite Ha in Hv.
  assert (Hk1 : Z.of_nat k + 1 - 1 = Z.of_nat k) by lia.
  destruct (decide (k < length atts)%nat) as [Hka|Hka].
  - replace (_ >? _) with false by (symmetry; rewrite Z.gtb_ltb; apply Z.ltb_ge; lia).
    destruct (lookup_lt_is_Some_2 values k ltac:(lia)) as [u Hu]. rewrite Hu in Hv. cbn in Hv. injection Hv as <-.
    pose proof (image_nulls _ _ _ _ H k u Hu) as Hnull. rewrite Z.add_0_l in Hnull. unfold HeapTupleHasNulls in Hnull.
    assert (Hno : forall d, u = Some d -> exists td', nocachegetattr tup (Z.of_nat k + 1) td = Ok (cell_datum w (att_type a) d, td') /\ desc_ok td' /\ same_desc td td').
    { intros d ->. edestruct (nocachegetattr_image w td atts values tup k d) as (a' & td' & Ha' & E & Hr); try done;
        [by rewrite lookup_take_lt|]. assert (a' = a) by congruence. subst a'. by exists td'. }
    unfold fastgetattr, HeapTupleNoNulls. rewrite Hk1.
    destruct (bit_set (t_infomask tup) HEAP_HASNULL) eqn:E; cbn [negb andb] in Hnull |- *.
    + rewrite Hnull. destruct u as [d|].
      * rewrite bool_decide_eq_false_2 by done. destruct (Hno d eq_refl) as (td' & -> & Hr). cbn [mbind result_bind]. by exists td'.
      * rewrite bool_decide_eq_true_2 by done. by exists td.
    + destruct u as [d|]; [|by rewrite bool_decide_eq_true_2 in Hnull].
      rewrite (array_get_lookup (td_attrs td) (Z.of_nat k) a) by (rewrite ?Nat2Z.id; done || lia). cbn [mbind result_bind].
      destruct (Hno d eq_refl) as (td' & E' & Hr).
      destruct (attcacheoff a >=? 0) eqn:Ec; [|rewrite E'; cbn [mbind result_bind]; by exists td'].
      revert E'. unfold nocachegetattr. rewrite Hk1.
      rewrite (array_get_lookup (td_attrs td) (Z.of_nat k) a) by (rewrite ?Nat2Z.id; done || lia). cbn [mbind result_bind].
      unfold HeapTupleNoNulls. rewrite E. cbn [negb andb]. rewrite Ec. intros E'. apply Ok_inj, pair_equal_spec in E' as [-> ->].
      by exists td'.
  - replace (_ >? _) with true by (symmetry; rewrite Z.gtb_ltb; apply Z.ltb_lt; lia).
    cbn in Hv. injection Hv as <-. exists td. unfold getmissingattr. rewrite Hk1, Nat2Z.id, Ha. done.
Qed.

(** The flags say what the missing-values array holds. *)
Definition missing_ok (td : TupleDesc) : Prop :=
  Forall (fun a => atthasmissing a = negb (bool_decide (am_value a = None)) /\
                   (td_missing td = false -> am_value a = None) /\
                   (forall v, am_value a = Some v -> datum_ok (att_type a) v)) (td_attrs td).

Lemma heap_attisnull_image w td atts values tup k v :
  tuple_image w atts values tup -> missing_ok td -> desc_matches td atts ->
  row_of w td atts values !! k = Some v ->
  heap_attisnull tup (Z.of_nat k + 1) (Some td) = Ok (bool_decide (v = None)).
Proof.
  intros H Hmiss Hm Hv. pose proof (values_ok_length _ _ _ (ti_ok _ _ _ _ H)) as Hl.
  assert (Hk : (k < length (td_attrs td))%nat).
  { apply lookup_lt_Some in Hv. unfold row_of, read_back in Hv.
    rewrite length_app, length_take, length_zip_with, length_map, length_drop in Hv. lia. }
  rewrite row_of_lookup in Hv by done. unfold heap_attisnull. rewrite (ti_natts _ _ _ _ H).
  destruct (lookup_lt_is_Some_2 (td_attrs td) k Hk) as [a Ha]. rewrite Ha in Hv.
  replace (Z.of_nat k + 1 - 1) with (Z.of_nat k) by lia.
  destruct (decide (k < length atts)%nat) as [Hka|Hka].
  - replace (_ >? _) with false by (symmetry; rewrite Z.gtb_ltb; apply Z.ltb_ge; lia).
    replace (_ >? 0) with true by (symmetry; rewrite Z.gtb_ltb; apply Z.ltb_lt; lia). f_equal.
    destruct (lookup_lt_is_Some_2 values k ltac:(lia)) as [u Hu]. rewrite Hu in Hv. cbn in Hv. injection Hv as <-.
    pose proof (image_nulls _ _ _ _ H k u Hu) as Hnull. rewrite Z.add_0_l in Hnull. unfold HeapTupleHasNulls, HeapTupleNoNulls in *.
    transitivity (bool_decide (u = None)); [|by destruct u].
    destruct (bit_set (t_infomask tup) HEAP_HASNULL); done.
  - replace (_ >? _) with true by (symmetry; rewrite Z.gtb_ltb; apply Z.ltb_lt; lia).
    rewrite (array_get_lookup (td_attrs td) (Z.of_nat k) a) by (rewrite ?Nat2Z.id; done || lia). cbn [mbind result_bind].
    cbn in Hv. injection Hv as <-. unfold missing_ok in Hmiss. rewrite Forall_lookup in Hmiss. destruct (Hmiss k a Ha) as (Hh & _ & _).
    rewrite Hh, negb_involutive. unfold missing_value. rewrite Hh. by destruct (am_value a).
Qed.

(** ** Minimal tuples *)

Lemma MAXALIGN_shift n : MAXALIGN (15 + n) + 8 = MAXALIGN (23 + n).
Proof.
  unfold MAXALIGN. pose proof (TYPEALIGN_spec 3) as H. change (2 ^ 3) with 8 in H. rewrite !H by lia.
  replace (23 + n + (8 - 1)) with (15 + n + (8 - 1) + 1 * 8) by lia. rewrite Z.div_add by lia. lia.
Qed.

Lemma heap_form_minimal_tuple_image w td values :
  values_ok w (td_types td) values -> td_natts td <= MaxTupleAttributeNumber ->
  tuple_size w (td_types td) values <= MaxAllocSize ->
  exists mtup, heap_form_minimal_tuple w td values = Ok mtup /\
    tuple_image w (td_types td) values (heap_tuple_from_minimal_tuple mtup) /\
    t_data (heap_tuple_from_minimal_tuple mtup) = layout w (td_types td) values 0 /\
    m_len mtup = tuple_size w (td_types td) values - MINIMAL_TUPLE_OFFSET.
Proof.
  intros Hok Hnatts Hsize. unfold tuple_size in *. pose proof (values_ok_length _ _ _ Hok) as Hl.
  assert (Ha : Z.of_nat (length (td_types td)) = td_natts td) by (unfold td_types, td_natts; by rewrite length_map).
  rewrite Ha in Hsize |- *.
  destruct (form_body w (td_types td) values SizeofMinimalTupleHeader (has_null values)) as (E1 & st & bm & pad & E2 & Hbuf & Hpos & (M0 & M1 & M2) & Hbm);
    try done; [lia|]. rewrite Ha in E2, Hpos.
  destruct (hoff_bounds SizeofMinimalTupleHeader (td_natts td) (has_null values)) as (H0 & H1 & H2); [unfold td_natts in *; lia|done|].
  unfold SizeofHeapTupleHeader in *. rewrite <- MAXALIGN_shift in Hsize |- *. fold SizeofMinimalTupleHeader in Hsize |- *.
  set (hoff := MAXALIGN _) in *. set (L := Z.of_nat (length (layout w (td_types td) values 0))) in *.
  unfold heap_form_minimal_tuple. replace (_ >? _) with false by (symmetry; rewrite Z.gtb_ltb; apply Z.ltb_ge; lia).
  replace (take (length (td_attrs td)) values) with values by (symmetry; apply take_ge; unfold td_types in Hl; rewrite length_map in Hl; lia).
  rewrite E1. cbn [mbind result_bind]. fold hoff.
  unfold palloc0. replace (_ >? _) with false by (symmetry; rewrite Z.gtb_ltb; apply Z.ltb_ge; lia). cbn [mbind result_bind].
  rewrite E2. cbn [mbind result_bind]. change MINIMAL_TUPLE_OFFSET with 8. unfold MaxAllocSize, SizeofMinimalTupleHeader in *.
  assert (U8 : uwrap 8 (hoff + 8) = hoff + 8) by (apply uwrap_small; unfold in_uint; lia).
  assert (U32 : uwrap 32 (hoff + L) = hoff + L) by (apply uwrap_small; unfold in_uint; lia).
  assert (U32' : uwrap 32 (hoff + L + 8) = hoff + L + 8) by (apply uwrap_small; unfold in_uint; lia).
  rewrite U8, U32. eexists. split; [reflexivity|]. unfold heap_tuple_from_minimal_tuple. cbn [m_len m_infomask2 m_infomask m_hoff m_bits].
  change MINIMAL_TUPLE_OFFSET with 8. rewrite U32'.
  match goal with |- context [tuple_image _ _ _ ?t] => set (tup := t) end.
  destruct (image_of_buf w (td_types td) values tup bm pad 0) as [I1 I2]; subst tup; cbn [t_hoff t_len t_bits t_infomask];
    unfold SizeofHeapTupleHeader; try done; try lia; try zlia.
  { unfold HeapTupleHeaderGetNatts. cbn [t_infomask2]. rewrite natts_roundtrip; unfold td_natts in *; lia. }
  split_and!; [done|by rewrite I2, app_nil_r|lia].
Qed.

(** ** Expanding *)

Lemma att_align_mono off off' a : off <= off' -> att_align_nominal off a <= att_align_nominal off' a.
Proof.
  intros H. rewrite !att_align_nominal_spec. assert (0 < alignof a) by (by destruct a).
  apply Z.mul_le_mono_nonneg_l; [lia|]. apply Z.div_le_mono; lia.
Qed.

Lemma att_addlength_shift off len d : att_addlength_datum off len d = off + att_addlength_datum 0 len d.
Proof. unfold att_addlength_datum, att_addlength_pointer. repeat case_match; lia. Qed.

Lemma can_make_short_size et d :
  elem_ok et -> datum_ok et d -> TYPE_IS_PACKABLE (typlen et) (typstorage et) && VARATT_CAN_MAKE_SHORT (DatumGetPointer d) = true ->
  VARATT_CONVERTED_SHORT_SIZE (DatumGetPointer d) <= att_addlength_datum 0 (typlen et) d.
Proof.
  intros He Hd H. apply andb_true_iff in H as [H1 H2]. unfold TYPE_IS_PACKABLE in H1. apply andb_true_iff in H1 as [H1 _]. zbool.
  apply can_make_short_4B in H2 as [H2 _]. unfold att_addlength_datum, att_addlength_pointer. rewrite H1. cbn [Z.ltb Z.eqb Z.compare Pos.eqb].
  unfold VARSIZE_ANY, VARATT_CONVERTED_SHORT_SIZE, VARHDRSZ, VARHDRSZ_SHORT. rewrite H2.
  pose proof (header_class (DatumGetPointer d)) as (_ & _ & HE). destruct (VARATT_IS_1B_E (DatumGetPointer d)) eqn:E; [|lia].
  by destruct (HE eq_refl) as [? _]; congruence.
Qed.

(** The size that is set aside for a value is enough. *)
Lemma expand_size_cell w et d off off' :
  elem_ok et -> datum_ok et d -> off <= off' ->
  cell_off et d off + Z.of_nat (length (cell_bytes w et d)) <=
  att_addlength_datum (att_align_datum off' (typalign et) (typlen et) d) (typlen et) d.
Proof.
  intros He Hd Hoff.
  pose proof (att_data_size_cell w et d off He (or_introl Hd)) as E. unfold att_data_size in E.
  pose proof (datum_ok_expanded et d He Hd) as Hx. unfold cell_expanded in Hx. rewrite Hx in E.
  rewrite att_addlength_shift.
  assert (Hal : forall o, o <= att_align_datum o (typalign et) (typlen et) d).
  { intros o. unfold att_align_datum. pose proof (att_align_nominal_bound o (typalign et)).
    destruct ((typlen et =? -1) && VARATT_IS_1B _); lia. }
  destruct (TYPE_IS_PACKABLE _ _ && _) eqn:Ep; apply Ok_inj in E; rewrite <- E.
  - pose proof (can_make_short_size et d He Hd Ep). pose proof (Hal off'). lia.
  - rewrite (att_addlength_shift (att_align_datum off _ _ _)). apply Z.add_le_mono_r.
    unfold att_align_datum. destruct ((typlen et =? -1) && VARATT_IS_1B _); [done|]. by apply att_align_mono.
Qed.

Lemma expand_size_room w attrs off off' hn :
  Forall elem_ok (map att_type attrs) -> Forall (fun a => forall v, am_value a = Some v -> datum_ok (att_type a) v) attrs -> off <= off' ->
  off + Z.of_nat (length (layout w (map att_type attrs) (map am_value attrs) off)) <= (expand_size attrs off' hn).1 /\
  (expand_size attrs off' hn).2 = hn || has_null (map am_value attrs).
Proof.
  intros He Hv. revert off off' hn. induction attrs as [|a attrs IH]; intros off off' hn Hoff; cbn [expand_size map layout length].
  { cbn. rewrite orb_false_r. split; [lia|done]. }
  cbn [map] in He. apply Forall_cons_1 in He as [He Hes]. apply Forall_cons_1 in Hv as [Hv Hvs].
  unfold has_null. cbn [existsb]. fold (has_null (map am_value attrs)). destruct (am_value a) as [d|] eqn:Ea.
  - pose proof (expand_size_cell w (att_type a) d off off' He (Hv d eq_refl) Hoff) as Hc.
    destruct (IH Hes Hvs _ _ hn Hc) as [I1 I2]. split; [|exact I2].
    rewrite !length_app, length_replicate. pose proof (cell_off_bound (att_type a) d off). unfold attalign, attlen. lia.
  - destruct (IH Hes Hvs off off' true Hoff) as [I1 I2]. split; [done|]. rewrite I2. cbn. by rewrite orb_true_r.
Qed.

Lemma layout_app w atts atts' values values' off :
  length values = length atts ->
  layout w (atts ++ atts') (values ++ values') off =
  layout w atts values off ++ layout w atts' values' (off + Z.of_nat (length (layout w atts values off))).
Proof.
  revert values off. induction atts as [|et atts IH]; intros [|v values] off Hl; try done; cbn [layout app length] in *.
  { by rewrite Z.add_0_r. }
  destruct v as [d|]; [|apply IH; lia]. rewrite IH by lia. rewrite <- !app_assoc. do 4 f_equal.
  pose proof (cell_off_bound et d off). rewrite !length_app, length_replicate. lia.
Qed.

Lemma byte_at_take bits n i : 0 <= i < Z.of_nat n -> byte_at (take n bits) i = byte_at bits i.
Proof. intros H. unfold byte_at. rewrite !nth_lookup, lookup_take_lt by lia. done. Qed.

(** The bits of a tuple without nulls. *)
Lemma full_bits_byte n i :
  0 <= n -> 0 <= i < BITMAPLEN n ->
  let bits := replicate (Z.to_nat (BITMAPLEN n)) 0xFF in
  byte_at (if Z.land n 7 =? 0 then bits
           else <[Z.to_nat (BITMAPLEN n - 1) := uwrap 8 (Z.lnot (Z.shiftl 0xFF (Z.land n 7)))]> bits) i =
  if (i =? BITMAPLEN n - 1) && negb (n mod 8 =? 0) then uwrap 8 (Z.lnot (Z.shiftl 0xFF (n mod 8))) else 0xFF.
Proof.
  intros Hn Hi bits. rewrite (Z.land_ones _ 3) by lia. change (2 ^ 3) with 8.
  assert (Hf : byte_at bits i = 0xFF).
  { unfold byte_at, bits. rewrite nth_lookup, lookup_replicate_2 by lia. done. }
  destruct (n mod 8 =? 0); cbn [negb]; [by rewrite andb_false_r|]. rewrite andb_true_r.
  rewrite byte_at_insert by (unfold bits; rewrite ?length_replicate; lia).
  replace (Z.of_nat (Z.to_nat (BITMAPLEN n - 1))) with (BITMAPLEN n - 1) by lia. by destruct (i =? _).
Qed.

Lemma last_byte_bit r m : 0 < r < 8 -> 0 <= m < 8 -> Z.testbit (uwrap 8 (Z.lnot (Z.shiftl 0xFF r))) m = (m <? r).
Proof.
  intros Hr Hm. unfold uwrap. rewrite Z.mod_pow2_bits_low, Z.lnot_spec, Z.shiftl_spec by lia.
  destruct (m <? r) eqn:E; zbool.
  - by rewrite Z.testbit_neg_r by lia.
  - change 0xFF with (Z.ones 8). by rewrite Z.ones_spec_low by lia.
Qed.

Lemma expand_bits_spec w atts values tup :
  tuple_image w atts values tup ->
  let n := Z.of_nat (length atts) in
  let bits := expand_bits tup n (if has_null values then BITMAPLEN n else 0) in
  bits_inv bits values /\ Z.of_nat (length bits) = BITMAPLEN n.
Proof.
  intros H n bits. pose proof (values_ok_length _ _ _ (ti_ok _ _ _ _ H)) as Hl.
  pose proof (BITMAPLEN_spec n ltac:(lia)) as HB. subst bits. unfold expand_bits.
  destruct (has_null values) eqn:E.
  - destruct (ti_bits _ _ _ _ H E) as [(H1 & H2 & H3) Hlen].
    assert (0 < n) by (destruct values; [done|cbn [length] in Hl; lia]).
    replace (_ >? 0) with true by (symmetry; rewrite Z.gtb_ltb; apply Z.ltb_lt; lia).
    unfold bytes_at. rewrite drop_0. split; [|rewrite length_take; lia]. unfold bits_inv, bit_at in *. rewrite Hl in *. fold n in H2, H3 |- *. split_and!.
    + intros i v Hv. pose proof (lookup_lt_Some _ _ _ Hv). rewrite byte_at_take by zlia. by apply H1.
    + intros i Hi. rewrite byte_at_take by zlia. by apply H2.
    + intros i Hi. rewrite byte_at_take by zlia. by apply H3.
  - apply has_null_false in E. cbn [Z.gtb Z.compare]. pose proof (full_bits_byte n) as Hbyte. cbn zeta in Hbyte.
    match goal with |- bits_inv ?b _ /\ _ => set (bits := b) end. fold bits in Hbyte.
    split; [|subst bits; destruct (Z.land n 7 =? 0); rewrite ?length_insert, length_replicate; lia].
    unfold bits_inv, bit_at. rewrite Hl. fold n.
    assert (Hbit : forall i, 0 <= i < 8 * ((n + 7) / 8) -> Z.testbit (byte_at bits (i / 8)) (i mod 8) = (i <? n)).
    { intros i Hi. rewrite Hbyte by zlia. destruct ((i / 8 =? BITMAPLEN n - 1) && negb (n mod 8 =? 0)) eqn:Eb.
      - apply andb_true_iff in Eb as [Eb1 Eb2]. apply negb_true_iff in Eb2. zbool. rewrite last_byte_bit by zlia.
        apply eq_true_iff_eq. rewrite !Z.ltb_lt. zlia.
      - change 0xFF with (Z.ones 8). rewrite Z.ones_spec_low by zlia. symmetry. apply Z.ltb_lt.
        apply andb_false_iff in Eb as [Eb|Eb]; [|apply negb_false_iff in Eb]; zbool; zlia. }
    split_and!.
    + intros i v Hv. pose proof (lookup_lt_Some _ _ _ Hv). rewrite Hbit by zlia. rewrite Forall_lookup in E.
      rewrite bool_decide_eq_false_2 by (by eapply E). apply Z.ltb_lt. lia.
    + intros i Hi. rewrite Hbit by zlia. apply Z.ltb_ge. lia.
    + intros i Hi. rewrite Hbyte by zlia. case_match; [by apply uwrap_range|done].
Qed.

Lemma expand_size_flag attrs off hn hn' : (expand_size attrs off hn).1 = (expand_size attrs off hn').1.
Proof.
  revert off hn hn'. induction attrs as [|a attrs IH]; intros off hn hn'; cbn [expand_size]; [done|].
  destruct (am_value a); apply IH.
Qed.

Lemma has_null_app l l' : has_null (l ++ l') = has_null l || has_null l'.
Proof. apply existsb_app. Qed.

Lemma any2_app f atts atts' values values' :
  length atts = length values -> any2 f (atts ++ atts') (values ++ values') = any2 f atts values || any2 f atts' values'.
Proof. intros H. unfold any2. rewrite zip_with_app by done. apply existsb_app. Qed.

Lemma image_data_len w atts values tup :
  tuple_image w atts values tup -> t_len tup - t_hoff tup = Z.of_nat (length (t_data tup)).
Proof.
  intros H. destruct (ti_len _ _ _ _ H) as (H1 & H2 & _). unfold t_data. rewrite length_drop. lia.
Qed.

(** The columns that the tuple lacks. *)
Definition absent (td : TupleDesc) (atts : list ElemType) : list Attr := drop (length atts) (td_attrs td).

Definition expanded_values (td : TupleDesc) (atts : list ElemType) (values : list (option Datum)) : list (option Datum) :=
  values ++ map am_value (absent td atts).

(** The room that [expand_tuple] asks for, at most. *)
Definition expand_bound (w : World) (td : TupleDesc) (atts : list ElemType) (values : list (option Datum)) : Z :=
  MAXALIGN (BITMAPLEN (td_natts td) + SizeofHeapTupleHeader) +
  (expand_size (absent td atts) (Z.of_nat (length (layout w atts values 0))) false).1.

Record expandable (w : World) (td : TupleDesc) (atts : list ElemType) (values : list (option Datum)) (tup : HeapTuple) : Prop := {
  ex_image : tuple_image w atts values tup;
  ex_data : t_data tup = layout w atts values 0;
  ex_desc : desc_ok td;
  ex_missing : missing_ok td;
  ex_match : desc_matches td atts;
  ex_fewer : (length atts < length (td_attrs td))%nat;
  ex_natts : td_natts td <= MaxTupleAttributeNumber;
  ex_room : HEAPTUPLESIZE + expand_bound w td atts values <= MaxAllocSize
}.

Section Expand.
Variable (w : World) (td : TupleDesc) (atts : list ElemType) (values : list (option Datum)) (tup : HeapTuple).
Hypothesis HX : expandable w td atts values tup.

Let n := Z.of_nat (length atts).
Let L := Z.of_nat (length (layout w atts values 0)).
Let M := map am_value (absent td atts).
Let rest := map att_type (absent td atts).

Lemma expand_types : td_types td = atts ++ rest.
Proof.
  destruct HX. unfold td_types, rest, absent. rewrite <- (take_drop (length atts) (td_attrs td)) at 1.
  rewrite map_app, ex_match0, take_ge by lia. done.
Qed.

Lemma expand_missing : map (attr_missing td) (absent td atts) = M.
Proof.
  unfold M. apply map_ext_in. intros a Ha. unfold attr_missing. destruct (td_missing td) eqn:E; [done|].
  pose proof (ex_missing _ _ _ _ _ HX) as Hm. unfold missing_ok in Hm. rewrite Forall_forall in Hm.
  symmetry. apply Hm; [|done]. apply list_elem_of_In. rewrite <- (take_drop (length atts) (td_attrs td)).
  apply in_or_app. by right.
Qed.

Lemma absent_ok : Forall elem_ok rest /\ Forall (fun a => forall v, am_value a = Some v -> datum_ok (att_type a) v) (absent td atts).
Proof.
  destruct HX as [_ _ [Hd _] Hm _ _ _ _]. rewrite expand_types in Hd. apply Forall_app in Hd as [_ Hd]. split; [done|].
  apply Forall_drop. eapply Forall_impl; [exact Hm|]. intros a (_ & _ & H). done.
Qed.

Lemma expanded_ok : values_ok w (td_types td) (expanded_values td atts values).
Proof.
  destruct absent_ok as [H1 H2]. destruct HX as [[Hok _ _ _ _ _ _ _] _ _ _ _ _ _ _]. destruct Hok as [He Hv].
  rewrite expand_types. split; [by apply Forall_app|]. apply Forall2_app; [done|]. unfold rest.
  clear -H2. induction H2 as [|a l Ha _ IH]; [constructor|]. cbn [map]. constructor; [|done].
  destruct (am_value a) as [v|]; [|done]. left. by apply Ha.
Qed.

(** The size and the flag that the code computes. *)
Lemma expand_room :
  exists tdl, (if td_missing td then expand_size (absent td atts) L (has_null values) else (L, true)) = (tdl, has_null (expanded_values td atts values)) /\
    L + Z.of_nat (length (layout w rest M L)) <= tdl <= (expand_size (absent td atts) L false).1.
Proof.
  destruct absent_ok as [H1 H2]. unfold expanded_values. rewrite has_null_app.
  destruct (expand_size_room w (absent td atts) L L (has_null values) H1 H2 ltac:(lia)) as [R1 R2].
  fold rest M in R1. destruct (td_missing td) eqn:E.
  - destruct (expand_size (absent td atts) L (has_null values)) as [tdl hn] eqn:Es. cbn in R1, R2. subst hn. exists tdl.
    split; [done|]. split; [done|]. rewrite (expand_size_flag _ _ _ (has_null values)), Es. done.
  - assert (HM : Forall (fun v => v = None) M).
    { rewrite <- expand_missing. apply Forall_map, Forall_true. intros a. unfold attr_missing. by rewrite E. }
    assert (Hlen : length M = length (absent td atts)) by (unfold M; apply length_map).
    assert (Hpos : (0 < length M)%nat).
    { rewrite Hlen. unfold absent. rewrite length_drop. pose proof (ex_fewer _ _ _ _ _ HX). lia. }
    assert (Hhn : has_null M = true) by (destruct HM as [|v M' -> _]; [cbn in Hpos; lia|done]).
    fold M. rewrite Hhn, orb_true_r. exists L. split; [done|].
    assert (Hno : layout w rest M L = []).
    { clear -HM. revert HM. generalize rest as r. induction M as [|v M' IH]; intros [|et r] HM; try done.
      apply Forall_cons_1 in HM as [-> HM]. by apply IH. }
    rewrite Hno in R1 |- *. cbn [length] in R1 |- *. rewrite (expand_size_flag _ _ _ (has_null values)). lia.
Qed.

Lemma expand_natts : 0 <= n < td_natts td /\ td_natts td = Z.of_nat (length (td_types td)).
Proof. destruct HX. unfold n, td_natts, td_types. rewrite length_map. lia. Qed.

Lemma expand_start hoff tdl hdrsz (hn : bool) :
  hn = has_null (expanded_values td atts values) ->
  let nb := if hn then BITMAPLEN (td_natts td) else 0 in
  hdrsz + nb <= hoff -> L <= tdl ->
  exists bit m bm pad,
    ('(nullBits, bitMask, buf) ←
      (if nb >? 0 then
         let bits := expand_bits tup n (if has_null values then BITMAPLEN n else 0) in
         buf ← buf_write hdrsz (replicate (Z.to_nat (hoff + tdl - hdrsz)) 0) hdrsz bits;
         Ok (Some (Z.of_nat (length bits) - 1), Z.shiftl 1 (Z.land (n - 1) 7), buf)
       else Ok (None, 0, replicate (Z.to_nat (hoff + tdl - hdrsz)) 0));
     buf ← buf_write hdrsz buf hoff (layout w atts values 0);
     Ok (nullBits, bitMask, buf)) =
    Ok (bit, m, bm ++ (pad ++ layout w atts values 0) ++ replicate (Z.to_nat (tdl - L)) 0) /\
    hdrsz + Z.of_nat (length bm) + Z.of_nat (length pad) = hoff /\ Z.of_nat (length bm) = nb /\
    bit_state bit m bm values M.
Proof.
  intros Hhn nb Hroom HL. destruct expand_natts as [Hn Hn2].
  pose proof (values_ok_length _ _ _ (ti_ok _ _ _ _ (ex_image _ _ _ _ _ HX))) as Hl.
  pose proof (BITMAPLEN_spec (td_natts td) ltac:(lia)) as HB. pose proof (BITMAPLEN_spec n ltac:(lia)) as HBn.
  assert (HM : (length values + length M)%nat = length (td_types td)).
  { rewrite expand_types, length_app. unfold M, rest. rewrite !length_map. lia. }
  destruct hn; subst nb.
  - replace (BITMAPLEN (td_natts td) >? 0) with true by (symmetry; rewrite Z.gtb_ltb; apply Z.ltb_lt; lia).
    destruct (expand_bits_spec w atts values tup (ex_image _ _ _ _ _ HX)) as [Hb Hbl]. fold n in Hb, Hbl. cbn zeta in Hb, Hbl |- *.
    set (bits := expand_bits tup n _) in *.
    pose proof (buf_write_zeros hdrsz [] (Z.to_nat (hoff + tdl - hdrsz)) hdrsz bits) as W. cbn [length app] in W.
    rewrite W by lia. clear W. cbn [mbind result_bind]. rewrite Z.sub_diag. change (Z.to_nat 0) with O. cbn [Nat.sub replicate app Nat.add].
    rewrite buf_write_zeros by lia. cbn [mbind result_bind].
    eexists _, _, (bits ++ replicate (Z.to_nat (BITMAPLEN (td_natts td)) - length bits) 0),
      (replicate (Z.to_nat (hoff - hdrsz - BITMAPLEN (td_natts td))) 0).
    split; [|split; [|split]].
    + do 2 f_equal. rewrite <- !app_assoc. f_equal. rewrite (app_assoc (replicate _ 0) (replicate _ 0)), <- replicate_add.
      f_equal; [f_equal; lia|]. do 2 f_equal. fold L. lia.
    + rewrite length_app, !length_replicate. lia.
    + rewrite length_app, length_replicate. lia.
    + replace (Z.of_nat (length bits) - 1) with ((Z.of_nat (length values) - 1) / 8) by zlia.
      replace (Z.shiftl 1 (Z.land (n - 1) 7)) with (2 ^ ((Z.of_nat (length values) - 1) mod 8)).
      2: { rewrite Z.shiftl_1_l, (Z.land_ones _ 3) by lia. subst n. by rewrite Hl. }
      apply BS_some; [apply bits_inv_app; [lia|done]|]. rewrite length_app, length_replicate. lia.
  - cbn [Z.gtb Z.compare mbind result_bind].
    pose proof (buf_write_zeros hdrsz [] (Z.to_nat (hoff + tdl - hdrsz)) hoff (layout w atts values 0)) as W. cbn [length app] in W.
    rewrite W by (fold L; lia). clear W. cbn [mbind result_bind].
    eexists _, _, [], (replicate (Z.to_nat (hoff - hdrsz)) 0). split; [|split; [|split]].
    + do 2 f_equal. cbn [app]. rewrite Nat.sub_0_r, <- app_assoc. do 3 f_equal. fold L. lia.
    + rewrite length_replicate. cbn [length]. lia.
    + done.
    + constructor. apply has_null_false. unfold expanded_values in Hhn. rewrite has_null_app in Hhn. symmetry in Hhn.
      by apply orb_false_iff in Hhn as [_ ?].
Qed.

Lemma expand_body_image hdrsz alloc :
  0 <= hdrsz <= SizeofHeapTupleHeader -> 0 <= alloc <= HEAPTUPLESIZE ->
  let hn := has_null (expanded_values td atts values) in
  let hoff := MAXALIGN ((if hn then BITMAPLEN (td_natts td) else 0) + hdrsz) in
  let new := expanded_values td atts values in
  exists im bm pad k,
    expand_body w hdrsz alloc tup td =
      Ok (hoff + Z.of_nat (length (layout w (td_types td) new 0)) + Z.of_nat k, hoff, im,
          bm ++ pad ++ layout w (td_types td) new 0 ++ replicate k 0) /\
    hdrsz + Z.of_nat (length bm) + Z.of_nat (length pad) = hoff /\
    hoff + Z.of_nat (length (layout w (td_types td) new 0)) + Z.of_nat k <= MaxAllocSize - alloc /\
    (Z.testbit im 0 = has_null new /\ Z.testbit im 1 = any2 var_width (td_types td) new /\ Z.testbit im 2 = any2 is_external (td_types td) new) /\
    (hn = true -> bits_inv bm new /\ Z.of_nat (length bm) = BITMAPLEN (td_natts td)).
Proof.
  intros Hs Ha hn hoff new. destruct expand_natts as [Hn Hn2]. destruct expand_room as (tdl & Eroom & Hroom1 & Hroom2).
  pose proof (ex_image _ _ _ _ _ HX) as HI. pose proof (ex_natts _ _ _ _ _ HX) as Hmax.
  pose proof (ex_room _ _ _ _ _ HX) as Hbound. unfold expand_bound in Hbound. fold L in Hbound.
  destruct (hoff_bounds hdrsz (td_natts td) hn ltac:(lia) Hs) as (H0 & H1 & H2). rewrite Z.add_comm in H1, H2. fold hoff in H1, H2.
  assert (Hhoff : hoff <= MAXALIGN (BITMAPLEN (td_natts td) + SizeofHeapTupleHeader)).
  { unfold hoff, MAXALIGN. apply (att_align_mono _ _ TYPALIGN_DOUBLE). pose proof (BITMAPLEN_spec (td_natts td) ltac:(lia)). destruct hn; lia. }
  unfold expand_body. rewrite (ti_natts _ _ _ _ HI), (image_data_len _ _ _ _ HI), (ex_data _ _ _ _ _ HX).
  unfold HeapTupleHasNulls. rewrite (bit_set_testbit _ 0), (ti_nulls _ _ _ _ HI), Nat2Z.id by done.
  fold (absent td atts) n L. rewrite Eroom. fold hn. fold hoff.
  unfold palloc0. replace (_ >? MaxAllocSize) with false by (symmetry; rewrite Z.gtb_ltb; apply Z.ltb_ge; lia). cbn [mbind result_bind].
  destruct (expand_start hoff tdl hdrsz hn eq_refl ltac:(lia) ltac:(lia)) as (bit & m & bm & pad & E & Hpos & Hbm & Hbs).
  rewrite bytes_at_all by done.
  match type of E with mbind ?f ?x = _ => destruct x as [[[nullBits bitMask] buf]|e] eqn:Ex; [|done] end.
  cbn [mbind result_bind] in E |- *. destruct (buf_write hdrsz buf hoff _) as [buf'|e]; [|done]. cbn [mbind result_bind] in E |- *.
  apply Ok_inj, pair_equal_spec in E as [E ->]. apply pair_equal_spec in E as [-> ->].
  rewrite expand_missing. fold rest.
  assert (Hvals : values_ok w rest M).
  { pose proof expanded_ok as [V1 V2]. rewrite expand_types in V1, V2. apply Forall_app in V1 as [_ V1]. split; [done|].
    unfold expanded_values in V2. fold M in V2. apply Forall2_app_inv in V2 as [_ ?]; [done|].
    symmetry. by apply (values_ok_length w), HI. }
  set (L2 := length (layout w rest M L)) in *.
  edestruct (fill_loop_layout w hdrsz hoff bm (pad ++ layout w atts values 0) (Z.to_nat (tdl - L))
    (mkFill bit m (bm ++ (pad ++ layout w atts values 0) ++ replicate (Z.to_nat (tdl - L)) 0) (hoff + L) (t_infomask tup)) rest M values L)
    as (st & bm' & Ef & Hbuf & Hl & Hbs' & Him); try done.
  { rewrite length_app. fold L. lia. }
  { fold L2. lia. }
  cbn [f_infomask] in Him. rewrite Ef. cbn [mbind result_bind].
  assert (Hlay : layout w (td_types td) new 0 = layout w atts values 0 ++ layout w rest M L).
  { rewrite expand_types. unfold new, expanded_values. fold M. apply layout_app. by apply (values_ok_length w), HI. }
  fold L2 in Hbuf. exists (f_infomask st), bm', pad, (Z.to_nat (tdl - L) - L2)%nat.
  rewrite Hlay, length_app, Hbuf, Hl. fold L2.
  split_and!.
  - do 2 f_equal; [do 2 f_equal; fold L; lia|]. by rewrite <- !app_assoc.
  - done.
  - fold L. lia.
  - rewrite Him. pose proof (fill_masks_bits w rest M (t_infomask tup) Hvals) as (M0 & M1 & M2).
    rewrite M0, (ti_nulls _ _ _ _ HI). unfold new, expanded_values. by rewrite has_null_app.
  - rewrite Him. pose proof (fill_masks_bits w rest M (t_infomask tup) Hvals) as (M0 & M1 & M2).
    rewrite M1, (ti_var _ _ _ _ HI), expand_types. symmetry. apply any2_app. symmetry. by apply (values_ok_length w), HI.
  - rewrite Him. pose proof (fill_masks_bits w rest M (t_infomask tup) Hvals) as (M0 & M1 & M2).
    rewrite M2, (ti_ext _ _ _ _ HI), expand_types. symmetry. apply any2_app. symmetry. by apply (values_ok_length w), HI.
  - intros Hhn. rewrite Hhn in Hbm. split; [|lia]. inversion Hbs' as [|? ? ? Hb]; subst; [|done].
    cbn [length] in Hl. pose proof (BITMAPLEN_spec (td_natts td) ltac:(lia)). lia.
Qed.

End Expand.
