(* ===== verification/HeapTupleTheorems.v ===== *)
(** * Heap tuples: the claims

    Forming a tuple and reading it back in every way the backend has, changing
    attributes, and filling in the missing values of added columns. *)

From S2P Require Import Prelude Varlena PgLz Toast HeapTuple HeapTupleFill HeapTupleProofs HeapTupleRead HeapTupleExpand.

(** ** What is read back is legal again *)

Lemma toasted_cell w et bs :
  typbyval et = false -> typlen et = -1 -> toasted_ok w bs -> att_datum_ok w et (cell_datum w et (DPtr bs)).
Proof.
  intros Hb Hl Ht. pose proof (header_class bs) as (HC & _ & HE). unfold cell_datum, cell_bytes, cell_expanded. rewrite Hb, Hl.
  change (-1 =? -1) with true. cbn [andb DatumGetPointer].
  assert (Hs : stored_bytes et (DPtr bs) = bs \/ VARATT_IS_4B_U bs = true).
  { unfold stored_bytes, stored_short. rewrite Hb, Hl. change (-1 =? -1) with true. cbn [andb DatumGetPointer].
    destruct (VARATT_IS_1B bs); [by left; rewrite andb_false_r|]. unfold VARATT_CAN_MAKE_SHORT.
    destruct (VARATT_IS_4B_U bs); [by right|]. left. by rewrite andb_false_l, andb_false_r. }
  destruct Ht as [E1 E2 E3|flat E1 E2 (F0 & F1 & F2 & F3)|E1 E2 E3].
  - rewrite E2. destruct Hs as [-> |Hs]; [|destruct (HE E1) as (_ & HU & _); congruence].
    right. split_and!; try done. exists bs. split; [done|]. by apply TO_external.
  - rewrite E1, E2. left. pose proof (header_class flat) as (_ & HU & _). destruct (HU F1) as (U1 & U2 & U3).
    unfold datum_ok. rewrite Hb, Hl. exists flat. split; [done|]. split; [done|]. cbn. unfold VARSIZE_ANY. by rewrite U1, U2.
  - destruct (HC E1) as (C1 & C2 & C3). unfold VARATT_IS_EXTERNAL_EXPANDED, VARATT_IS_EXTERNAL. rewrite C2. cbn [andb].
    destruct Hs as [-> |Hs]; [|congruence]. right. split_and!; try done. exists bs. split; [done|]. by apply TO_compressed.
Qed.

Lemma cell_datum_ok w et d : elem_ok et -> att_datum_ok w et d -> att_datum_ok w et (cell_datum w et d).
Proof.
  intros He [Hd|(Hb & Hl & bs & -> & Ht)]; [|by apply toasted_cell]. left.
  assert (Hc : cell_datum w et d = stored_datum et d).
  { unfold cell_datum, cell_bytes. rewrite datum_ok_expanded by done. unfold stored_datum. by destruct (typbyval et). }
  rewrite Hc. by apply stored_datum_ok.
Qed.

Lemma read_back_ok w atts values : values_ok w atts values -> values_ok w atts (read_back w atts values).
Proof.
  intros [He Hv]. split; [done|]. induction Hv as [|et v atts values Hv _ IH]; [constructor|].
  apply Forall_cons_1 in He as [He Hes]. unfold read_back. cbn [zip_with]. constructor; [|by apply IH].
  destruct v as [d|]; [|done]. by apply cell_datum_ok.
Qed.

Lemma desc_matches_self td : desc_matches td (td_types td).
Proof. unfold desc_matches, td_types. by rewrite length_map, !take_ge by (rewrite ?length_map; lia). Qed.

Lemma row_of_self w td values : row_of w td (td_types td) values = read_back w (td_types td) values.
Proof.
  unfold row_of, td_types. rewrite drop_ge, app_nil_r by (rewrite length_map; lia). apply take_ge.
  unfold read_back. rewrite length_zip_with, length_map. lia.
Qed.

Lemma same_desc_types td td' : same_desc td td' -> td_types td = td_types td'.
Proof. intros (_ & _ & _ & H). by apply same_attrs_types. Qed.

(** C18: a tuple that [heap_form_tuple] builds from legal values reads back as
    them: [heap_deform_tuple] gives the stored form of each value,
    [heap_getattr] gives every single one, by the cached offset, the fast
    initialisation of the cache or the careful walk, [heap_attisnull] agrees,
    and the tuple is as long as its parts; whatever got cached in the
    descriptor stays right for every tuple.  Missing values are not involved:
    the tuple has all the columns. *)
Theorem heap_tuple_roundtrip w td values :
  desc_ok td -> missing_ok td -> values_ok w (td_types td) values -> td_natts td <= MaxTupleAttributeNumber ->
  HEAPTUPLESIZE + tuple_size w (td_types td) values <= MaxAllocSize ->
  exists tup, heap_form_tuple w td values = Ok tup /\ t_len tup = tuple_size w (td_types td) values /\
    (exists td', heap_deform_tuple tup td = (read_back w (td_types td) values, td') /\ desc_ok td' /\ same_desc td td') /\
    (forall k v, read_back w (td_types td) values !! k = Some v ->
       heap_attisnull tup (Z.of_nat k + 1) (Some td) = Ok (bool_decide (v = None)) /\
       exists td', heap_getattr tup (Z.of_nat k + 1) td = Ok (v, td') /\ desc_ok td' /\ same_desc td td').
Proof.
  intros Hd Hmiss Hok Hn Hs. destruct (heap_form_tuple_image w td values Hok Hn Hs) as (tup & E & HI & _ & Hlen).
  exists tup. pose proof (desc_matches_self td) as Hm. rewrite <- (row_of_self w td values). split_and!; try done.
  - by apply heap_deform_tuple_image.
  - intros k v Hk. split; [by eapply heap_attisnull_image|by eapply heap_getattr_image].
Qed.

Definition td_example : TupleDesc :=
  mkTupleDesc 2249 (-1) false
    [mkAttr (mkElemType 4 true TYPALIGN_INT TYPSTORAGE_PLAIN) (-1) false None;
     mkAttr (mkElemType (-1) false TYPALIGN_INT TYPSTORAGE_EXTENDED) (-1) false None;
     mkAttr (mkElemType 8 true TYPALIGN_DOUBLE TYPSTORAGE_PLAIN) (-1) false None].

Definition w_example : World := mkWorld 16384 true ∅ ∅ ∅.

Lemma td_example_types : Forall elem_ok (td_types td_example).
Proof. repeat (apply List.Forall_cons); try apply List.Forall_nil; cbn; first [lia|auto]. Qed.

Lemma heap_tuple_roundtrip_witness :
  exists tup, heap_form_tuple w_example td_example [Some (DWord 7); Some (DPtr [24; 0; 0; 0; 97; 98]); None] = Ok tup.
Proof.
  destruct (heap_tuple_roundtrip w_example td_example [Some (DWord 7); Some (DPtr [24; 0; 0; 0; 97; 98]); None]) as (tup & E & _).
  - split; [exact td_example_types|cbn; repeat constructor].
  - repeat constructor; intros v Hv; discriminate Hv.
  - split; [exact td_example_types|]. repeat (apply List.Forall2_cons); try apply List.Forall2_nil; try done.
    + left. exists 7. done.
    + left. exists [24; 0; 0; 0; 97; 98]. split; [done|]. split; [repeat constructor; done|]. vm_compute. split_and!; done.
  - done.
  - vm_compute. done.
  - by exists tup.
Defined.

(** ** Changing attributes *)

Lemma heap_modify_tuple_correct w td atts values tup repl doReplace :
  tuple_image w atts values tup -> desc_ok td -> desc_matches td atts -> td_natts td <= MaxTupleAttributeNumber ->
  let row := replace_values (row_of w td atts values) repl doReplace in
  values_ok w (td_types td) row -> HEAPTUPLESIZE + tuple_size w (td_types td) row <= MaxAllocSize ->
  exists tup' td', heap_modify_tuple w tup td repl doReplace = Ok (tup', td') /\ desc_ok td' /\ same_desc td td' /\
    t_self tup' = t_self tup /\ t_ctid tup' = t_ctid tup /\ t_tableOid tup' = t_tableOid tup /\
    exists td'', heap_deform_tuple tup' td' = (read_back w (td_types td) row, td'').
Proof.
  intros HI Hd Hm Hn row Hok Hs. unfold heap_modify_tuple.
  destruct (heap_deform_tuple_image w td atts values tup HI Hd Hm) as (td' & -> & Hd' & Hsame). fold row.
  pose proof (same_desc_types _ _ Hsame) as Ht.
  assert (Hn' : td_natts td' <= MaxTupleAttributeNumber).
  { unfold td_natts. rewrite <- (length_map att_type). fold (td_types td'). rewrite <- Ht. unfold td_types. by rewrite length_map. }
  rewrite Ht in Hok, Hs |- *. destruct (heap_form_tuple_image w td' row Hok Hn' Hs) as (tup' & -> & HI' & _ & _).
  cbn [mbind result_bind]. exists (copy_identity tup' tup), td'. split_and!; try done.
  assert (HI2 : tuple_image w (td_types td') row (copy_identity tup' tup)) by (by destruct HI').
  destruct (heap_deform_tuple_image w td' _ _ _ HI2 Hd' (desc_matches_self td')) as (td'' & -> & _).
  exists td''. by rewrite row_of_self.
Qed.

(** A column number that is out of range is refused. *)
Lemma heap_modify_tuple_by_cols_error w td tup repl :
  Exists (fun p => p.1 <= 0 \/ td_natts td < p.1) repl -> td_natts (heap_deform_tuple tup td).2 = td_natts td ->
  heap_modify_tuple_by_cols w tup td repl = elog "invalid column number".
Proof.
  intros H Hn. unfold heap_modify_tuple_by_cols. destruct (heap_deform_tuple tup td) as [values td']. cbn [snd] in Hn. rewrite Hn.
  assert (E : forall vs, replace_cols (td_natts td) vs repl = elog "invalid column number").
  { induction H as [[a v] repl H|[a v] repl H IH]; intros vs; cbn [replace_cols].
    - cbn in H. replace ((a <=? 0) || (a >? td_natts td)) with true; [done|]. symmetry. apply orb_true_iff.
      rewrite Z.gtb_ltb, Z.leb_le, Z.ltb_lt. lia.
    - destruct (_ || _); [done|]. apply IH. }
  by rewrite E.
Qed.

(** ** Missing values *)

Lemma expanded_length w td atts values tup :
  expandable w td atts values tup -> Z.of_nat (length (td_types td)) = td_natts td.
Proof. intros _. unfold td_types, td_natts. by rewrite length_map. Qed.

(** [expand_tuple] on a tuple with fewer columns than the descriptor, for
    both kinds of target: it stays inside the memory it allocates although
    values get packed that it counted unpacked, the present columns read as
    before, with the bitmap extended or made up, and the missing ones read as
    the missing values in stored form, or NULL. *)
Theorem expand_tuple_correct w td atts values tup :
  expandable w td atts values tup ->
  let row := read_back w atts values ++ read_back w (map att_type (absent td atts)) (map missing_value (absent td atts)) in
  (exists td1, heap_deform_tuple tup td = (read_back w atts values ++ map missing_value (absent td atts), td1)) /\
  (exists tup' td', heap_expand_tuple w tup td = Ok tup' /\ heap_deform_tuple tup' td = (row, td') /\ desc_ok td' /\
     HeapTupleHeaderGetNatts tup' = td_natts td /\ t_self tup' = t_self tup /\ t_tableOid tup' = t_tableOid tup) /\
  (exists mtup td', minimal_expand_tuple w tup td = Ok mtup /\
     heap_deform_tuple (heap_tuple_from_minimal_tuple mtup) td = (row, td') /\ desc_ok td').
Proof.
  intros HX row.
  assert (Hmv : map missing_value (absent td atts) = map am_value (absent td atts)).
  { apply map_ext_in. intros a Ha. unfold missing_value. pose proof (ex_missing _ _ _ _ _ HX) as Hm. unfold missing_ok in Hm.
    rewrite Forall_forall in Hm. destruct (Hm a) as (-> & _).
    { apply list_elem_of_In. rewrite <- (take_drop (length atts) (td_attrs td)). apply in_or_app. by right. }
    by destruct (am_value a). }
  pose proof (ex_image _ _ _ _ _ HX) as HI. pose proof (ex_desc _ _ _ _ _ HX) as Hd. pose proof (ex_match _ _ _ _ _ HX) as Hm.
  pose proof (values_ok_length _ _ _ (ti_ok _ _ _ _ HI)) as Hl. pose proof (ex_fewer _ _ _ _ _ HX) as Hf.
  pose proof (ex_natts _ _ _ _ _ HX) as Hn. pose proof (expanded_ok _ _ _ _ _ HX) as Hok.
  pose proof (expanded_length _ _ _ _ _ HX) as Hlen.
  assert (Hrow : read_back w (td_types td) (expanded_values td atts values) = row).
  { subst row. rewrite (expand_types w td atts values tup HX), Hmv. unfold read_back, expanded_values. by rewrite zip_with_app. }
  assert (Hread : forall t, tuple_image w (td_types td) (expanded_values td atts values) t ->
    exists td', heap_deform_tuple t td = (row, td') /\ desc_ok td').
  { intros t Ht. destruct (heap_deform_tuple_image w td _ _ _ Ht Hd (desc_matches_self td)) as (td' & E & Hd' & _).
    exists td'. by rewrite E, row_of_self, Hrow. }
  pose proof (fun h H => hoff_bounds h (td_natts td) (has_null (expanded_values td atts values)) ltac:(unfold td_natts in *; lia) H) as Hhb.
  assert (Hhb' : forall h, 0 <= h <= 23 -> h <= MAXALIGN (h + (if has_null (expanded_values td atts values) then BITMAPLEN (td_natts td) else 0)) <= 232 /\
    MAXALIGN (h + (if has_null (expanded_values td atts values) then BITMAPLEN (td_natts td) else 0)) mod 8 = 0).
  { intros h Hh. destruct (Hhb h Hh) as (? & ? & ?). split; [lia|done]. }
  clear Hhb. rename Hhb' into Hhb. assert (HS : SizeofHeapTupleHeader = 23 /\ SizeofMinimalTupleHeader = 15) by done. split_and!.
  - destruct (heap_deform_tuple_image w td _ _ _ HI Hd Hm) as (td1 & E & _). exists td1. rewrite E. unfold row_of.
    rewrite take_ge; [done|]. unfold read_back. rewrite length_zip_with. lia.
  - destruct (expand_body_image _ _ _ _ _ HX SizeofHeapTupleHeader HEAPTUPLESIZE ltac:(done) ltac:(done)) as (im & bm & pad & k & E & Hpos & Hsz & (M0 & M1 & M2) & Hbm).
    set (hoff := MAXALIGN _) in E, Hpos, Hsz. unfold heap_expand_tuple. rewrite E. cbn [mbind result_bind].
    destruct (Hhb SizeofHeapTupleHeader ltac:(done)) as (B1 & B2). rewrite Z.add_comm in B1, B2. fold hoff in B1, B2.
    rewrite (uwrap_small 8 hoff) by (unfold in_uint; lia). unfold MaxAllocSize, HEAPTUPLESIZE in *. rewrite (uwrap_small 32) by (unfold in_uint; lia).
    match goal with |- context [Ok ?t = _] => set (tup' := t) end.
    destruct (image_of_buf w (td_types td) (expanded_values td atts values) tup' bm pad k) as [HI' _];
      subst tup'; cbn [t_hoff t_len t_bits t_infomask]; rewrite ?Hlen; try done; try lia.
    { apply natts_roundtrip. unfold td_natts in *. lia. }
    destruct (Hread _ HI') as (td' & Er & Hdr). eexists _, td'. split; [reflexivity|]. split; [exact Er|]. split_and!; try done.
    etransitivity; [apply HI'|exact Hlen].
  - destruct (expand_body_image _ _ _ _ _ HX SizeofMinimalTupleHeader 0 ltac:(done) ltac:(done)) as (im & bm & pad & k & E & Hpos & Hsz & (M0 & M1 & M2) & Hbm).
    set (hoff := MAXALIGN _) in E, Hpos, Hsz. unfold minimal_expand_tuple. rewrite E. cbn [mbind result_bind].
    destruct (Hhb SizeofMinimalTupleHeader ltac:(done)) as (B1 & B2). rewrite Z.add_comm in B1, B2. fold hoff in B1, B2.
    change MINIMAL_TUPLE_OFFSET with 8. rewrite (uwrap_small 8) by (unfold in_uint; lia). unfold MaxAllocSize, SizeofMinimalTupleHeader in *.
    rewrite (uwrap_small 32) by (unfold in_uint; lia).
    match goal with |- context [Ok ?t = _] => set (mtup := t) end.
    destruct (image_of_buf w (td_types td) (expanded_values td atts values) (heap_tuple_from_minimal_tuple mtup) bm pad k) as [HI' _];
      subst mtup; unfold heap_tuple_from_minimal_tuple; cbn [t_hoff t_len t_bits t_infomask m_len m_infomask m_infomask2 m_hoff m_bits];
      change MINIMAL_TUPLE_OFFSET with 8; rewrite ?Hlen, ?(uwrap_small 32) by (unfold in_uint; lia); unfold SizeofHeapTupleHeader; try done; try lia; try zlia.
    { apply natts_roundtrip. unfold td_natts in *. lia. }
    destruct (Hread _ HI') as (td' & Er & Hdr). eexists _, td'. split; [reflexivity|]. by split; [exact Er|].
Qed.

(** The table of [td_example], when the last two columns were added later, one
    with a default. *)
Definition td_added : TupleDesc :=
  mkTupleDesc 2249 (-1) true
    [mkAttr (mkElemType 4 true TYPALIGN_INT TYPSTORAGE_PLAIN) (-1) false None;
     mkAttr (mkElemType (-1) false TYPALIGN_INT TYPSTORAGE_EXTENDED) (-1) true (Some (DPtr [24; 0; 0; 0; 97; 98]));
     mkAttr (mkElemType 8 true TYPALIGN_DOUBLE TYPSTORAGE_PLAIN) (-1) false None].

Definition td_before : TupleDesc := set_attrs td_example (take 1 (td_attrs td_example)).

Lemma text_example_ok : datum_ok (mkElemType (-1) false TYPALIGN_INT TYPSTORAGE_EXTENDED) (DPtr [24; 0; 0; 0; 97; 98]).
Proof. exists [24; 0; 0; 0; 97; 98]. split; [done|]. split; [repeat constructor; done|]. vm_compute. split_and!; done. Qed.

Lemma expand_tuple_correct_witness :
  exists tup, heap_form_tuple w_example td_before [Some (DWord 7)] = Ok tup /\ exists tup', heap_expand_tuple w_example tup td_added = Ok tup'.
Proof.
  destruct (heap_form_tuple_image w_example td_before [Some (DWord 7)]) as (tup & E & HI & Hdata & _).
  - split; [repeat (apply List.Forall_cons); try apply List.Forall_nil; cbn; lia|].
    repeat (apply List.Forall2_cons); try apply List.Forall2_nil. left. by exists 7.
  - done.
  - done.
  - exists tup. split; [done|].
    destruct (expand_tuple_correct w_example td_added (td_types td_before) [Some (DWord 7)] tup) as (_ & (tup' & _ & Et & _) & _);
      [|by exists tup'].
    constructor; try done.
    + split; [exact td_example_types|cbn; repeat constructor].
    + repeat (apply List.Forall_cons); try apply List.Forall_nil; split_and!; try done. intros v Hv. cbn in Hv. injection Hv as <-.
      exact text_example_ok.
    + cbn. lia.
Defined.
