(* ===== verification/ToastTuple.v ===== *)
(** * Toasting tuples

    toast_helper.c and the functions of heaptoast.c that work on whole tuples:
    making a new tuple fit by compressing attributes and moving them out of
    line, deleting the out-of-line values of an old one, and flattening.  What
    is freed is not modelled; the flags that say so are. *)

From stdpp Require Import gmap.
From S2P Require Import Prelude Varlena PgLz Toast HeapTuple.

(** ** State (access/toast_helper.h) *)

Record ToastAttrInfo : Type := mkAttrInfo {
  tai_oldexternal : option (list Z);
  tai_size : Z;              (* of a varlena *)
  tai_colflags : Z
}.

Record ToastTupleContext : Type := mkTtc {
  ttc_values : list (option Datum);
  ttc_flags : Z;
  ttc_attr : list ToastAttrInfo
}.

Definition TOAST_NEEDS_DELETE_OLD : Z := 0x0001.
Definition TOAST_NEEDS_FREE : Z := 0x0002.
Definition TOAST_HAS_NULLS : Z := 0x0004.
Definition TOAST_NEEDS_CHANGE : Z := 0x0008.
Definition TOASTCOL_NEEDS_DELETE_OLD : Z := TOAST_NEEDS_DELETE_OLD.
Definition TOASTCOL_NEEDS_FREE : Z := TOAST_NEEDS_FREE.
Definition TOASTCOL_IGNORE : Z := 0x0010.
Definition TOASTCOL_INCOMPRESSIBLE : Z := 0x0020.

Definition TOAST_POINTER_SIZE : Z := VARHDRSZ_EXTERNAL + 16.

Definition MaximumBytesPerTuple (tuplesPerPage : Z) : Z :=
  Z.land ((8192 - MAXALIGN (24 + tuplesPerPage * 4)) ÷ tuplesPerPage) (Z.lnot 7).

Definition TOAST_TUPLE_THRESHOLD : Z := MaximumBytesPerTuple 4.
Definition TOAST_TUPLE_TARGET : Z := TOAST_TUPLE_THRESHOLD.
Definition TOAST_TUPLE_TARGET_MAIN : Z := MaximumBytesPerTuple 1.

(** A table: its TOAST table, its columns, and the option toast_tuple_target
    when options are set. *)
Record HeapRelation : Type := mkHeapRel {
  hr_rel : Relation;
  rd_att : TupleDesc;
  toast_tuple_target : option Z
}.

Definition RelationGetToastTupleTarget (rel : HeapRelation) (defaulttarg : Z) : Z :=
  match toast_tuple_target rel with Some t => t | None => defaulttarg end.

Definition set_att (rel : HeapRelation) (td : TupleDesc) : HeapRelation := mkHeapRel (hr_rel rel) td (toast_tuple_target rel).

Definition value_ptr (v : option Datum) : list Z := match v with Some d => DatumGetPointer d | None => [] end.

Definition set_flag (info : ToastAttrInfo) (f : Z) : ToastAttrInfo :=
  mkAttrInfo (tai_oldexternal info) (tai_size info) (Z.lor (tai_colflags info) f).

(** ** Preparing (toast_helper.c) *)

(** Is the old value stored on disk, and is it not needed any more ([Some
    true]) or kept by the new tuple ([Some false])? *)
Definition old_external (att : ElemType) (value : option Datum) (oldvalue : option Datum) : option bool :=
  match oldvalue with
  | Some old =>
      let old_value := DatumGetPointer old in
      if (typlen att =? -1) && VARATT_IS_EXTERNAL_ONDISK old_value then
        Some (bool_decide (value = None) || negb (VARATT_IS_EXTERNAL_ONDISK (value_ptr value))
              || negb (bool_decide (bytes_at old_value 0 (VARSIZE_EXTERNAL old_value) =
                                    bytes_at (value_ptr value) 0 (VARSIZE_EXTERNAL old_value))))
      else None
  | None => None
  end.

(** The part of the loop after the old value: the value, its state and the
    flags. *)
Definition init_value (w : World) (att : ElemType) (value : option Datum) (colflags flags : Z)
  : result (option Datum * ToastAttrInfo * Z) :=
  match value with
  | None => Ok (None, mkAttrInfo None 0 (Z.lor colflags TOASTCOL_IGNORE), Z.lor flags TOAST_HAS_NULLS)
  | Some d =>
      if typlen att =? -1 then
        let new_value := DatumGetPointer d in
        let plain := bool_decide (typstorage att = TYPSTORAGE_PLAIN) in
        let colflags := if plain then Z.lor colflags TOASTCOL_IGNORE else colflags in
        if VARATT_IS_EXTERNAL new_value then
          fetched ← (if plain then Toast.detoast_attr w new_value else detoast_external_attr w new_value);
          Ok (Some (DPtr fetched), mkAttrInfo (Some new_value) (VARSIZE_ANY fetched) (Z.lor colflags TOASTCOL_NEEDS_FREE),
              Z.lor flags (Z.lor TOAST_NEEDS_CHANGE TOAST_NEEDS_FREE))
        else Ok (value, mkAttrInfo None (VARSIZE_ANY new_value) colflags, flags)
      else Ok (value, mkAttrInfo None 0 (Z.lor colflags TOASTCOL_IGNORE), flags)
  end.

(** One attribute; [oldvalue] is [None] for an INSERT. *)
Definition init_attr (w : World) (att : ElemType) (value : option Datum) (oldvalue : option (option Datum)) (flags : Z)
  : result (option Datum * ToastAttrInfo * Z) :=
  match oldvalue with
  | Some oldvalue =>
      match old_external att value oldvalue with
      | Some true => init_value w att value TOASTCOL_NEEDS_DELETE_OLD (Z.lor flags TOAST_NEEDS_DELETE_OLD)
      | Some false => Ok (value, mkAttrInfo None 0 TOASTCOL_IGNORE, flags)
      | None => init_value w att value 0 flags
      end
  | None => init_value w att value 0 flags
  end.

(** The old value of attribute [i]. *)
Definition old_value (oldvalues : option (list (option Datum))) (i : nat) : option (option Datum) :=
  match oldvalues with Some vs => Some (default None (vs !! i)) | None => None end.

Fixpoint init_loop (w : World) (atts : list ElemType) (values : list (option Datum)) (oldvalues : option (list (option Datum))) (i : nat) (flags : Z)
  : result (list (option Datum) * list ToastAttrInfo * Z) :=
  match atts, values with
  | att :: atts', v :: values' =>
      '(v, info, flags) ← init_attr w att v (old_value oldvalues i) flags;
      '(values', infos, flags) ← init_loop w atts' values' oldvalues (S i) flags;
      Ok (v :: values', info :: infos, flags)
  | _, _ => Ok ([], [], flags)
  end.

Definition toast_tuple_init (w : World) (atts : list ElemType) (values : list (option Datum)) (oldvalues : option (list (option Datum)))
  : result ToastTupleContext :=
  '(values, infos, flags) ← init_loop w atts values oldvalues 0 0;
  Ok (mkTtc values flags infos).

(** ** One attribute at a time *)

(** May attribute be chosen? *)
Definition is_candidate (for_compression check_main : bool) (att : ElemType) (v : option Datum) (info : ToastAttrInfo) : bool :=
  let skip_colflags := if for_compression then Z.lor TOASTCOL_IGNORE TOASTCOL_INCOMPRESSIBLE else TOASTCOL_IGNORE in
  if negb (Z.land (tai_colflags info) skip_colflags =? 0) then false
  else if VARATT_IS_EXTERNAL (value_ptr v) then false
  else if for_compression && VARATT_IS_COMPRESSED (value_ptr v) then false
  else if check_main && negb (bool_decide (typstorage att = TYPSTORAGE_MAIN)) then false
  else if negb check_main && negb (bool_decide (typstorage att = TYPSTORAGE_EXTENDED))
          && negb (bool_decide (typstorage att = TYPSTORAGE_EXTERNAL)) then false
  else true.

Fixpoint find_biggest (for_compression check_main : bool) (atts : list ElemType) (values : list (option Datum)) (infos : list ToastAttrInfo)
  (i biggest_attno biggest_size : Z) : Z :=
  match atts, values, infos with
  | att :: atts', v :: values', info :: infos' =>
      if is_candidate for_compression check_main att v info && (tai_size info >? biggest_size) then
        find_biggest for_compression check_main atts' values' infos' (i + 1) i (tai_size info)
      else find_biggest for_compression check_main atts' values' infos' (i + 1) biggest_attno biggest_size
  | _, _, _ => biggest_attno
  end.

Definition toast_tuple_find_biggest_attribute (atts : list ElemType) (ttc : ToastTupleContext) (for_compression check_main : bool) : Z :=
  find_biggest for_compression check_main atts (ttc_values ttc) (ttc_attr ttc) 0 (-1) (MAXALIGN TOAST_POINTER_SIZE).

Definition set_value (ttc : ToastTupleContext) (attribute : nat) (v : option Datum) (info : ToastAttrInfo) (flags : Z) : ToastTupleContext :=
  mkTtc (<[attribute := v]> (ttc_values ttc)) (Z.lor (ttc_flags ttc) flags) (<[attribute := info]> (ttc_attr ttc)).

Definition set_info (ttc : ToastTupleContext) (attribute : nat) (info : ToastAttrInfo) : ToastTupleContext :=
  mkTtc (ttc_values ttc) (ttc_flags ttc) (<[attribute := info]> (ttc_attr ttc)).

Definition toast_tuple_try_compression (ttc : ToastTupleContext) (attribute : Z) : result ToastTupleContext :=
  value ← array_get (ttc_values ttc) attribute;
  attr ← array_get (ttc_attr ttc) attribute;
  new_value ← toast_compress_datum (value_ptr value);
  match new_value with
  | Some p =>
      let attr := mkAttrInfo (tai_oldexternal attr) (VARSIZE_4B p) (Z.lor (tai_colflags attr) TOASTCOL_NEEDS_FREE) in
      Ok (set_value ttc (Z.to_nat attribute) (Some (DPtr p)) attr (Z.lor TOAST_NEEDS_CHANGE TOAST_NEEDS_FREE))
  | None => Ok (set_info ttc (Z.to_nat attribute) (set_flag attr TOASTCOL_INCOMPRESSIBLE))
  end.

Definition toast_tuple_externalize (w : World) (rel : Relation) (ttc : ToastTupleContext) (attribute : Z)
  : result (World * ToastTupleContext) :=
  value ← array_get (ttc_values ttc) attribute;
  attr ← array_get (ttc_attr ttc) attribute;
  let attr := set_flag attr TOASTCOL_IGNORE in
  '(w, p) ← toast_save_datum w rel (value_ptr value) (tai_oldexternal attr);
  Ok (w, set_value ttc (Z.to_nat attribute) (Some (DPtr p)) (set_flag attr TOASTCOL_NEEDS_FREE)
           (Z.lor TOAST_NEEDS_CHANGE TOAST_NEEDS_FREE)).

(** The second part of the cleanup: delete what is not needed any more. *)
Fixpoint delete_old (w : World) (infos : list ToastAttrInfo) (oldvalues : list (option Datum)) : result World :=
  match infos, oldvalues with
  | info :: infos', old :: oldvalues' =>
      w ← (if negb (Z.land (tai_colflags info) TOASTCOL_NEEDS_DELETE_OLD =? 0)
           then toast_delete_datum w (value_ptr old) false else Ok w);
      delete_old w infos' oldvalues'
  | _, _ => Ok w
  end.

Definition toast_tuple_cleanup (w : World) (ttc : ToastTupleContext) (oldvalues : option (list (option Datum))) : result World :=
  if negb (Z.land (ttc_flags ttc) TOAST_NEEDS_DELETE_OLD =? 0) then
    match oldvalues with
    | Some oldvalues => delete_old w (ttc_attr ttc) oldvalues
    | None => undefined "no old values"
    end
  else Ok w.

Fixpoint toast_delete_external (w : World) (atts : list ElemType) (values : list (option Datum)) (is_speculative : bool) : result World :=
  match atts, values with
  | att :: atts', v :: values' =>
      w ← (if typlen att =? -1 then
             match v with
             | Some d => if VARATT_IS_EXTERNAL_ONDISK (DatumGetPointer d) then toast_delete_datum w (DatumGetPointer d) is_speculative else Ok w
             | None => Ok w
             end
           else Ok w);
      toast_delete_external w atts' values' is_speculative
  | _, _ => Ok w
  end.

(** ** Making a tuple fit (heaptoast.c) *)

Definition heap_toast_delete (w : World) (rel : HeapRelation) (oldtup : HeapTuple) (is_speculative : bool) : result (World * HeapRelation) :=
  let '(values, td) := heap_deform_tuple oldtup (rd_att rel) in
  w ← toast_delete_external w (td_types (rd_att rel)) values is_speculative;
  Ok (w, set_att rel td).

Section Rounds.
Variable (rel : Relation) (atts : list ElemType) (maxDataLen : Z).

(** Too long still? *)
Definition too_long (w : World) (ttc : ToastTupleContext) : result bool :=
  size ← heap_compute_data_size w atts (ttc_values ttc);
  Ok (size >? maxDataLen).

(** The body of the first loop, for the attribute that was found. *)
Definition round1_step (w : World) (ttc : ToastTupleContext) (biggest_attno : Z) : result (World * ToastTupleContext) :=
  att ← array_get atts biggest_attno;
  ttc ← (if bool_decide (typstorage att = TYPSTORAGE_EXTENDED) then toast_tuple_try_compression ttc biggest_attno
         else
           attr ← array_get (ttc_attr ttc) biggest_attno;
           Ok (set_info ttc (Z.to_nat biggest_attno) (set_flag attr TOASTCOL_INCOMPRESSIBLE)));
  attr ← array_get (ttc_attr ttc) biggest_attno;
  if (uwrap 64 (tai_size attr) >? maxDataLen) && negb (reltoastrelid rel =? InvalidOid)
  then toast_tuple_externalize w rel ttc biggest_attno
  else Ok (w, ttc).

(** Compress attributes with storage EXTENDED, and move very long ones out. *)
Fixpoint round1 (fuel : nat) (w : World) (ttc : ToastTupleContext) : result (World * ToastTupleContext) :=
  match fuel with
  | O => undefined "out of fuel"
  | S fuel' =>
      long ← too_long w ttc;
      if (long : bool) then
        let biggest_attno := toast_tuple_find_biggest_attribute atts ttc true false in
        if biggest_attno <? 0 then Ok (w, ttc)
        else '(w, ttc) ← round1_step w ttc biggest_attno; round1 fuel' w ttc
      else Ok (w, ttc)
  end.

(** Move attributes out: with storage EXTENDED or EXTERNAL, or with MAIN. *)
Fixpoint round_externalize (fuel : nat) (check_main : bool) (w : World) (ttc : ToastTupleContext) : result (World * ToastTupleContext) :=
  match fuel with
  | O => undefined "out of fuel"
  | S fuel' =>
      long ← too_long w ttc;
      if (long : bool) && negb (reltoastrelid rel =? InvalidOid) then
        let biggest_attno := toast_tuple_find_biggest_attribute atts ttc false check_main in
        if biggest_attno <? 0 then Ok (w, ttc)
        else '(w, ttc) ← toast_tuple_externalize w rel ttc biggest_attno; round_externalize fuel' check_main w ttc
      else Ok (w, ttc)
  end.

(** Compress attributes with storage MAIN. *)
Fixpoint round3 (fuel : nat) (w : World) (ttc : ToastTupleContext) : result ToastTupleContext :=
  match fuel with
  | O => undefined "out of fuel"
  | S fuel' =>
      long ← too_long w ttc;
      if (long : bool) then
        let biggest_attno := toast_tuple_find_biggest_attribute atts ttc true true in
        if biggest_attno <? 0 then Ok ttc
        else ttc ← toast_tuple_try_compression ttc biggest_attno; round3 fuel' w ttc
      else Ok ttc
  end.

End Rounds.

(** The four rounds; [hoff] is the size of the header. *)
Definition toast_rounds (w : World) (rel : HeapRelation) (hoff : Z) (ttc : ToastTupleContext) : result (World * ToastTupleContext) :=
  let atts := td_types (rd_att rel) in
  let fuel := S (length atts) in
  let maxDataLen := uwrap 64 (RelationGetToastTupleTarget rel TOAST_TUPLE_TARGET - hoff) in
  '(w, ttc) ← round1 (hr_rel rel) atts maxDataLen fuel w ttc;
  '(w, ttc) ← round_externalize (hr_rel rel) atts maxDataLen fuel false w ttc;
  ttc ← round3 atts maxDataLen fuel w ttc;
  let maxDataLen := uwrap 64 (TOAST_TUPLE_TARGET_MAIN - hoff) in
  round_externalize (hr_rel rel) atts maxDataLen fuel true w ttc.

(** The new tuple: the header of the old one, and the changed values. *)
Definition rebuild_tuple (w : World) (atts : list ElemType) (ttc : ToastTupleContext) (newtup : HeapTuple) : result HeapTuple :=
  let natts := Z.of_nat (length atts) in
  let has_nulls := negb (Z.land (ttc_flags ttc) TOAST_HAS_NULLS =? 0) in
  let new_header_len := MAXALIGN (SizeofHeapTupleHeader + (if has_nulls then BITMAPLEN natts else 0)) in
  new_data_len ← heap_compute_data_size w atts (ttc_values ttc);
  let new_tuple_len := new_header_len + new_data_len in
  _ ← palloc0 (HEAPTUPLESIZE + new_tuple_len);
  st ← heap_fill_tuple w SizeofHeapTupleHeader atts (ttc_values ttc)
         (replicate (Z.to_nat (new_tuple_len - SizeofHeapTupleHeader)) 0) new_header_len (t_infomask newtup) has_nulls;
  Ok (mkTuple (uwrap 32 new_tuple_len) (t_self newtup) (t_tableOid newtup) (t_choice newtup) (t_ctid newtup)
        (HeapTupleHeaderSetNatts (t_infomask2 newtup) natts) (f_infomask st) (uwrap 8 new_header_len) (f_buf st)).

(** [oldtup] is [None] for an INSERT.  The descriptor gets offsets cached. *)
Definition heap_toast_insert_or_update (w : World) (rel : HeapRelation) (newtup : HeapTuple) (oldtup : option HeapTuple)
  : result (World * HeapTuple * HeapRelation) :=
  let '(values, td) := heap_deform_tuple newtup (rd_att rel) in
  let rel := set_att rel td in
  let '(oldvalues, rel) :=
    match oldtup with
    | Some oldtup => let '(vs, td) := heap_deform_tuple oldtup (rd_att rel) in (Some vs, set_att rel td)
    | None => (None, rel)
    end in
  let atts := td_types (rd_att rel) in
  ttc ← toast_tuple_init w atts values oldvalues;
  let has_nulls := negb (Z.land (ttc_flags ttc) TOAST_HAS_NULLS =? 0) in
  let hoff := MAXALIGN (SizeofHeapTupleHeader + (if has_nulls then BITMAPLEN (td_natts (rd_att rel)) else 0)) in
  '(w, ttc) ← toast_rounds w rel hoff ttc;
  result_tuple ← (if negb (Z.land (ttc_flags ttc) TOAST_NEEDS_CHANGE =? 0) then rebuild_tuple w atts ttc newtup else Ok newtup);
  w ← toast_tuple_cleanup w ttc oldvalues;
  Ok (w, result_tuple, rel).

(** The choice that [heap_prepare_insert] (heapam.c) makes for a table. *)
Definition toast_on_insert (w : World) (rel : HeapRelation) (tup : HeapTuple) : result (World * HeapTuple * HeapRelation) :=
  if HeapTupleHasExternal tup || (t_len tup >? TOAST_TUPLE_THRESHOLD) then heap_toast_insert_or_update w rel tup None
  else Ok (w, tup, rel).

(** ** Flattening (heaptoast.c) *)

Definition HEAP_XACT_MASK : Z := 0xFFF0.
Definition HEAP2_XACT_MASK : Z := 0xE000.

(** Fetch every out-of-line attribute, without decompressing. *)
Fixpoint flatten_values (w : World) (atts : list ElemType) (values : list (option Datum)) : result (list (option Datum)) :=
  match atts, values with
  | att :: atts', v :: values' =>
      v ← match v with
          | Some d =>
              if (typlen att =? -1) && VARATT_IS_EXTERNAL (DatumGetPointer d) then
                p ← detoast_external_attr w (DatumGetPointer d); Ok (Some (DPtr p))
              else Ok v
          | None => Ok v
          end;
      values' ← flatten_values w atts' values';
      Ok (v :: values')
  | _, _ => Ok []
  end.

Definition toast_build_flattened_tuple (w : World) (td : TupleDesc) (values : list (option Datum)) : result HeapTuple :=
  new_values ← flatten_values w (td_types td) values;
  heap_form_tuple w td new_values.

Definition toast_flatten_tuple (w : World) (tup : HeapTuple) (td : TupleDesc) : result (HeapTuple * TupleDesc) :=
  let '(values, td) := heap_deform_tuple tup td in
  values ← flatten_values w (td_types td) values;
  new_tuple ← heap_form_tuple w td values;
  let infomask := Z.lor (Z.land (t_infomask new_tuple) (Z.lnot HEAP_XACT_MASK)) (Z.land (t_infomask tup) HEAP_XACT_MASK) in
  let infomask2 := Z.lor (Z.land (t_infomask2 new_tuple) (Z.lnot HEAP2_XACT_MASK)) (Z.land (t_infomask2 tup) HEAP2_XACT_MASK) in
  Ok (mkTuple (t_len new_tuple) (t_self tup) (t_tableOid tup) (t_choice tup) (t_ctid tup) infomask2 infomask (t_hoff new_tuple) (t_bits new_tuple), td).

(** Fetch and decompress. *)
Fixpoint detoast_values (w : World) (atts : list ElemType) (values : list (option Datum)) : result (list (option Datum)) :=
  match atts, values with
  | att :: atts', v :: values' =>
      v ← match v with
          | Some d =>
              if (typlen att =? -1) && (VARATT_IS_EXTERNAL (DatumGetPointer d) || VARATT_IS_COMPRESSED (DatumGetPointer d)) then
                p ← Toast.detoast_attr w (DatumGetPointer d); Ok (Some (DPtr p))
              else Ok v
          | None => Ok v
          end;
      values' ← detoast_values w atts' values';
      Ok (v :: values')
  | _, _ => Ok []
  end.

(** The composite datum: its header fields and its bytes from the bitmap on. *)
Definition toast_flatten_tuple_to_datum (w : World) (tup : HeapTuple) (td : TupleDesc) : result (HeapTuple * TupleDesc) :=
  let '(values, td) := heap_deform_tuple tup td in
  values ← detoast_values w (td_types td) values;
  let natts := td_natts td in
  let has_nulls := has_null values in
  let new_header_len := MAXALIGN (SizeofHeapTupleHeader + (if has_nulls then BITMAPLEN natts else 0)) in
  new_data_len ← heap_compute_data_size w (td_types td) values;
  let new_tuple_len := new_header_len + new_data_len in
  _ ← palloc0 new_tuple_len;
  st ← heap_fill_tuple w SizeofHeapTupleHeader (td_types td) values
         (replicate (Z.to_nat (new_tuple_len - SizeofHeapTupleHeader)) 0) new_header_len (t_infomask tup) has_nulls;
  Ok (mkTuple new_tuple_len InvalidItemPointer InvalidOid (SET_VARSIZE new_tuple_len, tdtypmod td, tdtypeid td) (t_ctid tup)
        (HeapTupleHeaderSetNatts (t_infomask2 tup) natts) (f_infomask st) (uwrap 8 new_header_len) (f_buf st), td).

(** [heap_copy_tuple_as_datum] (heaptuple.c). *)
Definition heap_copy_tuple_as_datum (w : World) (tup : HeapTuple) (td : TupleDesc) : result (HeapTuple * TupleDesc) :=
  if HeapTupleHasExternal tup then toast_flatten_tuple_to_datum w tup td
  else
    Ok (mkTuple (t_len tup) (t_self tup) (t_tableOid tup) (SET_VARSIZE (t_len tup), tdtypmod td, tdtypeid td) (t_ctid tup)
          (t_infomask2 tup) (t_infomask tup) (t_hoff tup) (t_bits tup), td).
