(* ===== verification/ToastTupleInv.v ===== *)
(** * What toasting keeps

    The logical value of an attribute, the forms it may take in a tuple, and
    how worlds with TOAST tables develop without changing what values mean. *)

From stdpp Require Import gmap.
From S2P Require Import Prelude Varlena PgLz PgLzTheorems Toast ToastInline ToastTable ToastStore.
From S2P Require Import HeapTuple HeapTupleFill HeapTupleProofs.

(** ** Logical values *)

Inductive Lval : Type :=
| LNull
| LFixed (d : Datum)        (* not a varlena: the stored form *)
| LData (data : list Z).    (* the data of a varlena *)

Definition data_ok (data : list Z) : Prop := Forall is_byte data /\ Z.of_nat (length data) + 12 <= MaxAllocSize.

Lemma data_ok_fits data : data_ok data -> fits data.
Proof. intros [_ H]. unfold fits, VARHDRSZ. lia. Qed.

(** The data of a varlena is in line, or in a TOAST table. *)
Inductive value_form (w : World) (data : list Z) : list Z -> Prop :=
| VF_inline p : inline_form data p -> value_form w data p
| VF_external c tp : external_value w data c tp -> 0 < va_extsize tp -> value_form w data (toast_pointer_datum tp).

Inductive represents (w : World) (et : ElemType) : option Datum -> Lval -> Prop :=
| R_null : represents w et None LNull
| R_fixed d : typlen et <> -1 -> datum_ok et d -> represents w et (Some d) (LFixed (stored_datum et d))
| R_data p data :
    typbyval et = false -> typlen et = -1 -> data_ok data -> value_form w data p ->
    represents w et (Some (DPtr p)) (LData data).

(** ** Forms are legal and survive storage *)

Lemma length_plain data : Z.of_nat (length (plain data)) = Z.of_nat (length data) + 4.
Proof. unfold plain, varlena. rewrite length_app, length_le_bytes. lia. Qed.

Lemma plain_header data : fits data ->
  VARATT_IS_1B_E (plain data) = false /\ VARATT_IS_1B (plain data) = false /\ VARATT_IS_4B_C (plain data) = false /\
  VARATT_IS_4B_U (plain data) = true /\ VARSIZE_4B (plain data) = Z.of_nat (length (plain data)) /\ VARDATA (plain data) = data.
Proof.
  intros Hfit. destruct (varlena_facts data (Z.of_nat (length data))) as (F & Es & Ed); [unfold fits, VARHDRSZ in *; lia|].
  fold (plain data) in *. destruct F as [F1 F2 F3 F4]. unfold VARATT_IS_EXTERNAL, VARATT_IS_SHORT, VARATT_IS_COMPRESSED, VARATT_IS_EXTENDED in *.
  rewrite length_plain. unfold VARHDRSZ in Es. split_and!; done.
Qed.

Lemma short_header_facts data : (length data <= 126)%nat ->
  VARATT_IS_1B_E (short_form data) = false /\ VARATT_IS_1B (short_form data) = true /\ VARATT_IS_4B_C (short_form data) = false /\
  VARSIZE_1B (short_form data) = Z.of_nat (length (short_form data)).
Proof.
  intros Hl. destruct (short_header (Z.of_nat (length data) + 1) data) as (H1 & H2 & H3 & H4); [lia|]. fold (short_form data) in *.
  split_and!; try done. rewrite H3. unfold short_form. cbn [length]. lia.
Qed.

Lemma comp_header data c : fits data -> Z.of_nat (length c) + TOAST_COMPRESS_HDRSZ < Z.of_nat (length data) - 2 ->
  VARATT_IS_4B_C (comp_form data c) = true /\ VARSIZE_4B (comp_form data c) = Z.of_nat (length (comp_form data c)).
Proof.
  intros Hfit Hc. destruct (comp_facts data c Hfit Hc) as (F & Es & _). destruct F as [F1 F2 F3 F4].
  rewrite comp_form_length. unfold TOAST_COMPRESS_HDRSZ in *. split; [done|]. rewrite Es. unfold VARHDRSZ. lia.
Qed.

Lemma inline_size data p : fits data -> inline_form data p -> VARSIZE_ANY p = Z.of_nat (length p) /\ VARATT_IS_1B_E p = false.
Proof.
  intros Hfit Hp. unfold VARSIZE_ANY. destruct Hp as [|Hl|c He Hc].
  - destruct (plain_header data Hfit) as (-> & -> & _ & _ & -> & _). done.
  - destruct (short_header_facts data Hl) as (-> & -> & _ & ->). done.
  - destruct (comp_header data c Hfit Hc) as (E1 & ->). pose proof (header_class (comp_form data c)) as (HC & _ & _).
    by destruct (HC E1) as (-> & -> & _).
Qed.

Lemma plain_bytes data : Forall is_byte data -> Forall is_byte (plain data).
Proof. intros H. unfold plain, varlena. apply Forall_app. split; [apply le_bytes_is_byte|done]. Qed.

Lemma inline_att_ok w et data p :
  typbyval et = false -> typlen et = -1 -> Forall is_byte data -> fits data -> inline_form data p -> att_datum_ok w et (DPtr p).
Proof.
  intros Hb Hl Hby Hfit Hp. destruct (inline_size data p Hfit Hp) as [Hsz HE]. destruct Hp as [|Hs|c He Hc].
  - left. unfold datum_ok. rewrite Hb, Hl. exists (plain data). split; [done|]. split; [by apply plain_bytes|]. change (-1 =? -1) with true. cbv iota.
    destruct (plain_header data Hfit) as (H1 & H2 & H3 & _ & _ & _). split_and!; try done. intros _. rewrite length_plain. lia.
  - left. unfold datum_ok. rewrite Hb, Hl. exists (short_form data). split; [done|]. split.
    + constructor; [|done]. rewrite SET_VARSIZE_SHORT_spec by lia. unfold is_byte. lia.
    + change (-1 =? -1) with true. cbv iota. destruct (short_header_facts data Hs) as (H1 & H2 & H3 & _). split_and!; try done. by rewrite H2.
  - right. split_and!; try done. exists (comp_form data c). split; [done|]. destruct (comp_header data c Hfit Hc) as [E1 E2].
    apply TO_compressed; [done|done|]. rewrite comp_form_length. lia.
Qed.

Lemma inline_legal w et data p :
  typbyval et = false -> typlen et = -1 -> data_ok data -> inline_form data p -> att_datum_ok w et (DPtr p).
Proof. intros Hb Hl Hd Hp. apply (inline_att_ok w et data); [done|done|apply Hd|by apply data_ok_fits|done]. Qed.

Lemma pointer_legal w et tp : typbyval et = false -> typlen et = -1 -> att_datum_ok w et (DPtr (toast_pointer_datum tp)).
Proof. intros Hb Hl. right. split_and!; try done. eexists. split; [done|]. by apply TO_external. Qed.

Lemma represents_legal w et d lv : represents w et (Some d) lv -> att_datum_ok w et d.
Proof.
  inversion 1 as [|? Hl Hd|p data Hb Hl Hd Hf]; subst; [by left|]. destruct Hf as [p Hp|c tp Hx _].
  - by eapply inline_legal.
  - by apply pointer_legal.
Qed.

(** Storing packs a short plain value. *)
Lemma inline_cell w et data p :
  elem_ok et -> typbyval et = false -> typlen et = -1 -> fits data -> inline_form data p -> inline_form data (cell_bytes w et (DPtr p)).
Proof.
  intros He Hb Hl Hfit Hp. destruct (inline_size data p Hfit Hp) as [_ HE]. unfold cell_bytes, cell_expanded.
  unfold VARATT_IS_EXTERNAL_EXPANDED, VARATT_IS_EXTERNAL. cbn [DatumGetPointer]. rewrite HE. cbn [andb]. rewrite andb_false_r.
  unfold stored_bytes, stored_short. rewrite Hb, Hl. cbn [DatumGetPointer]. change (-1 =? -1) with true. cbn [andb].
  destruct Hp as [|Hs|c Hen Hc].
  - destruct (plain_header data Hfit) as (_ & -> & _ & HU & Hsz & Hda). cbn [orb negb andb].
    destruct (TYPE_IS_PACKABLE (-1) (typstorage et) && VARATT_CAN_MAKE_SHORT (plain data)) eqn:E; cbn [andb]; [|constructor].
    apply andb_true_iff in E as [_ E]. apply can_make_short_4B in E as [_ E]. rewrite Hsz, length_plain in E. rewrite Hda.
    unfold VARATT_CONVERTED_SHORT_SIZE, VARHDRSZ, VARHDRSZ_SHORT. rewrite Hsz, length_plain.
    replace (Z.of_nat (length data) + 4 - 4 + 1) with (Z.of_nat (length data) + 1) by lia. apply Short. lia.
  - destruct (short_header_facts data Hs) as (_ & -> & _). cbn [negb]. rewrite andb_false_r. by constructor.
  - destruct (comp_header data c Hfit Hc) as [E1 _]. pose proof (header_class (comp_form data c)) as (HC & _ & _).
    destruct (HC E1) as (-> & _ & HU). unfold VARATT_CAN_MAKE_SHORT. rewrite HU. cbn [andb orb negb]. rewrite !andb_false_r. by constructor.
Qed.

Lemma pointer_cell w et tp : typbyval et = false -> typlen et = -1 -> cell_bytes w et (DPtr (toast_pointer_datum tp)) = toast_pointer_datum tp.
Proof.
  intros Hb Hl. unfold cell_bytes, cell_expanded, stored_bytes. rewrite Hb, Hl. cbn [DatumGetPointer].
  change (VARATT_IS_EXTERNAL_EXPANDED (toast_pointer_datum tp)) with false. change (VARATT_IS_1B (toast_pointer_datum tp)) with true.
  cbn [negb]. by rewrite !andb_false_r.
Qed.

Lemma represents_cell w et v lv : elem_ok et -> represents w et v lv -> represents w et (cell_datum w et <$> v) lv.
Proof.
  intros He. inversion 1 as [|d Hl Hd|p data Hb Hl Hd Hf]; subst; cbn [fmap option_fmap option_map]; [constructor| |].
  - assert (Hc : cell_datum w et d = stored_datum et d).
    { unfold cell_datum, cell_bytes. rewrite datum_ok_expanded by done. unfold stored_datum. by destruct (typbyval et). }
    pose proof (R_fixed w et (stored_datum et d) Hl (stored_datum_ok et d He Hd)) as R. rewrite stored_datum_idem in R by done. by rewrite Hc.
  - unfold cell_datum. rewrite Hb. constructor; try done. destruct Hf as [p Hp|c tp Hx Hpos].
    + constructor. apply inline_cell; try done. by apply data_ok_fits.
    + rewrite pointer_cell by done. by econstructor.
Qed.

(** ** How worlds develop *)

(** Nothing that could be read is lost. *)
Record keeps (w w' : World) : Prop := {
  kp_objects : objects w' = objects w;
  kp_expanded : expanded w' = expanded w;
  kp_external : forall data c tp, external_value w data c tp -> 0 < va_extsize tp -> external_value w' data c tp
}.

Lemma keeps_refl w : keeps w w.
Proof. by split. Qed.

Lemma keeps_trans w1 w2 w3 : keeps w1 w2 -> keeps w2 w3 -> keeps w1 w3.
Proof. intros [A1 A2 A3] [B1 B2 B3]. split; [congruence|congruence|]. intros data c tp H Hp. apply B3; [by apply A3|done]. Qed.

Lemma keeps_represents w w' et v lv : keeps w w' -> represents w et v lv -> represents w' et v lv.
Proof.
  intros Hk. inversion 1 as [|d Hl Hd|p data Hb Hl Hd Hf]; subst; [constructor|by constructor|].
  constructor; try done. destruct Hf as [p Hp|c tp Hx Hpos]; [by constructor|]. econstructor; [by apply (kp_external _ _ Hk)|done].
Qed.

Lemma stores_frame v r idx r' idx' v0 d n :
  extends v r idx r' idx' -> v0 <> v -> stores r idx v0 d n -> stores r' idx' v0 d n.
Proof.
  intros Hx Hne (tid & row & Hf & Hrows). exists tid, row. split.
  - rewrite (ex_entries _ _ _ _ _ Hx); [done|]. intros e He. apply Z.eqb_neq. congruence.
  - intros i Hi. destruct (Hrows i Hi) as (H1 & H2). split; [|done]. destruct (ex_rows _ _ _ _ _ Hx) as (new & -> & _).
    by apply lookup_app_l_Some.
Qed.

Lemma nchunks_pos n : (0 < n)%nat -> (0 < nchunks n)%nat.
Proof.
  intros H. unfold nchunks. pose proof chunk_len_bounds as [HC _]. apply Nat.div_str_pos. lia.
Qed.

Lemma stores_in_index r idx v d n : (0 < n)%nat -> stores r idx v d n -> valueid_in_index idx v = true.
Proof.
  intros Hn (tid & row & Hf & _). unfold valueid_in_index, index_scan. rewrite length_map, Hf, length_map, length_seq.
  destruct n; [lia|done].
Qed.

Lemma save_keeps w n oid v r idx r' idx' :
  toast_rels w !! oid = Some r -> rel_ok r idx -> rel_ok r' idx' -> extends v r idx r' idx' -> valueid_in_index idx v = false ->
  keeps w (set_rel (set_next_oid w n) oid r').
Proof.
  intros Hr Hok Hok' Hx Hfree. split; [done|done|]. intros data c tp (d & [Hp Hs Hsn (r0 & idx0 & Hr0 & Hok0 & Hst)] & Hsa & Hraw) Hpos.
  exists d. split_and!; try done. split; try done. set (w' := set_rel _ _ _). change (toast_rels w') with (<[oid := r']> (toast_rels w)).
  destruct (decide (va_toastrelid tp = oid)) as [E|Hne].
  - rewrite E in *. rewrite lookup_insert_eq. exists r', idx'. split_and!; try done.
    assert (r0 = r) by congruence. subst r0. assert (idx0 = idx) by (pose proof (ro_valid _ _ Hok0); pose proof (ro_valid _ _ Hok); congruence). subst idx0.
    apply (stores_frame v r idx); try done. intros Hv. pose proof (nchunks_pos (length d) ltac:(lia)) as Hn.
    pose proof (stores_in_index _ _ _ _ _ Hn Hst). congruence.
  - rewrite lookup_insert_ne by done. by exists r0, idx0.
Qed.

(** Every new row is a chunk of the value. *)
Lemma save_entries r idx r' idx' v d :
  extends v r idx r' idx' -> stores r' idx' v d (nchunks (length d)) ->
  (length (idx_entries idx') <= length (idx_entries idx) + nchunks (length d))%nat.
Proof.
  intros Hx (tid & row & Hf & _).
  rewrite <- (filter_length (fun e : Entry => e.1.1 =? v) (idx_entries idx')), Hf, length_map, length_seq.
  rewrite (ex_entries _ _ _ _ _ Hx) by (intros e He; apply negb_false_iff; by apply Z.eqb_eq).
  pose proof (filter_length_le (fun e : Entry => negb (e.1.1 =? v)) (idx_entries idx)). lia.
Qed.

Lemma nchunks_mono a b : (a <= b)%nat -> (nchunks a <= nchunks b)%nat.
Proof. intros H. unfold nchunks. apply Nat.Div0.div_le_mono. lia. Qed.

(** Saving a value, with what it does to the table. *)
Lemma toast_save_step w rel r idx data p oldexternal :
  toast_table w rel r idx -> fits data -> inline_form data p -> (0 < length data)%nat ->
  exists w' tp r' idx', toast_save_datum w rel p oldexternal = Ok (w', toast_pointer_datum tp) /\
    external_value w' data (VARATT_IS_COMPRESSED p) tp /\ 0 < va_extsize tp /\ keeps w w' /\
    toast_rels w' !! reltoastrelid rel = Some r' /\ rel_ok r' idx' /\ rd_id r' = reltoastrelid rel /\ in_uint 32 (nextOid w') /\
    active_snapshot w' = true /\
    (length (idx_entries idx') <= length (idx_entries idx) + nchunks (length data))%nat /\
    toast_rels w' = <[reltoastrelid rel := r']> (toast_rels w) /\ extends (va_valueid tp) r idx r' idx' /\
    valueid_in_index idx (va_valueid tp) = false /\ va_toastrelid tp = reltoastrelid rel.
Proof.
  intros Ht Hfit Hp Hpos.
  destruct (toast_save_ok w rel r idx data p oldexternal Ht Hfit Hp) as (n & tp & r' & idx' & -> & Hx & Hfree & Hoid & Hn & Hok' & Hext).
  eexists _, tp, r', idx'. split; [done|]. set (w' := set_rel _ _ _) in *.
  assert (Hrel : toast_rels w' !! reltoastrelid rel = Some r') by apply lookup_insert_eq.
  pose proof Hx as (d & Hsv & Hsa & Hraw).
  assert (Hd : (0 < length d <= length data)%nat).
  { unfold stored_as in Hsa. destruct (VARATT_IS_COMPRESSED p); [|by subst d]. destruct Hsa as (c & -> & _ & Hc). rewrite length_comp_data.
    unfold TOAST_COMPRESS_HDRSZ in Hc. lia. }
  split; [done|]. split; [rewrite (sv_size _ _ _ Hsv); lia|]. split; [by apply (save_keeps _ _ _ (va_valueid tp) r idx r' idx'); try apply Ht|].
  split_and!; try done.
  - rewrite (ex_id _ _ _ _ _ Hext). apply Ht.
  - apply Ht.
  - destruct (sv_table _ _ _ Hsv) as (r0 & idx0 & Hr0 & Hok0 & Hst). rewrite Hoid, Hrel in Hr0. injection Hr0 as <-.
    assert (idx0 = idx') by (pose proof (ro_valid _ _ Hok0); pose proof (ro_valid _ _ Hok'); congruence). subst idx0.
    pose proof (save_entries _ _ _ _ _ _ Hext Hst). pose proof (nchunks_mono (length d) (length data)). lia.
Qed.

(** ** Live values *)

(** A value that is stored in chunks none of which is deleted. *)
Definition live_value (w : World) (tp : varatt_external) : Prop :=
  pointer_ok tp /\ active_snapshot w = true /\
  exists r idx, toast_rels w !! va_toastrelid tp = Some r /\ rel_ok r idx /\ valueid_in_index idx (va_valueid tp) = true /\
    forall tid row, rd_rows r !! tid = Some row -> chunk_id row = va_valueid tp -> row_state row = RowLive.

(** Values are added, and nothing else happens. *)
Record grows (w w' : World) : Prop := {
  gr_keeps : keeps w w';
  gr_live : forall tp, live_value w tp -> live_value w' tp
}.

Lemma grows_refl w : grows w w.
Proof. split; [apply keeps_refl|done]. Qed.

Lemma grows_trans w1 w2 w3 : grows w1 w2 -> grows w2 w3 -> grows w1 w3.
Proof. intros [A1 A2] [B1 B2]. split; [by eapply keeps_trans|]. intros tp H. by apply B2, A2. Qed.

Lemma live_frame w w' oid v r idx r' idx' tp :
  toast_rels w !! oid = Some r -> rel_ok r idx -> rel_ok r' idx' -> extends v r idx r' idx' -> valueid_in_index idx v = false ->
  toast_rels w' = <[oid := r']> (toast_rels w) -> active_snapshot w' = true -> live_value w tp -> live_value w' tp.
Proof.
  intros Hr Hok Hok' Hx Hfree Hw' Hsn (Hp & _ & r0 & idx0 & Hr0 & Hok0 & Hin & Hlive). split; [done|]. split; [done|]. rewrite Hw'.
  destruct (decide (va_toastrelid tp = oid)) as [E|Hne]; [|rewrite lookup_insert_ne by done; by exists r0, idx0].
  rewrite E in *. rewrite lookup_insert_eq. assert (r0 = r) by congruence. subst r0.
  assert (idx0 = idx) by (pose proof (ro_valid _ _ Hok0); pose proof (ro_valid _ _ Hok); congruence). subst idx0.
  assert (Hv : va_valueid tp <> v) by congruence.
  exists r', idx'. split_and!; try done.
  - unfold valueid_in_index, index_scan in *. rewrite length_map in *. rewrite (ex_entries _ _ _ _ _ Hx); [done|].
    intros e ->. apply Z.eqb_neq. congruence.
  - intros tid row Hrow Hid. destruct (ex_rows _ _ _ _ _ Hx) as (new & E' & Hnew). rewrite E' in Hrow.
    apply lookup_app_Some in Hrow as [Hrow|[_ Hrow]]; [by eapply Hlive|]. rewrite Forall_lookup in Hnew. destruct (Hnew _ _ Hrow). congruence.
Qed.

(** What was just saved is live, and its identity is new. *)
Definition toast_key (tp : varatt_external) : Z * Z := (va_toastrelid tp, va_valueid tp).

Lemma saved_live w w' data c r idx r' idx' tp :
  toast_rels w !! va_toastrelid tp = Some r -> rel_ok r idx -> rel_ok r' idx' -> extends (va_valueid tp) r idx r' idx' ->
  valueid_in_index idx (va_valueid tp) = false -> toast_rels w' = <[va_toastrelid tp := r']> (toast_rels w) ->
  external_value w' data c tp -> 0 < va_extsize tp ->
  live_value w' tp /\ forall tq, live_value w tq -> toast_key tq <> toast_key tp.
Proof.
  intros Hr Hok Hok' Hx Hfree Hw' (d & [Hp Hs Hsn (r0 & idx0 & Hr0 & Hok0 & Hst)] & _ & _) Hpos.
  assert (r0 = r') by (rewrite Hw', lookup_insert_eq in Hr0; congruence). subst r0.
  assert (idx0 = idx') by (pose proof (ro_valid _ _ Hok0); pose proof (ro_valid _ _ Hok'); congruence). subst idx0.
  split.
  - split; [done|]. split; [done|]. exists r', idx'. split_and!; try done.
    + eapply stores_in_index; [|done]. apply nchunks_pos. lia.
    + intros tid row Hrow Hid. destruct (ex_rows _ _ _ _ _ Hx) as (new & E & Hnew). rewrite E in Hrow.
      apply lookup_app_Some in Hrow as [Hrow|[_ Hrow]]; [|rewrite Forall_lookup in Hnew; by destruct (Hnew _ _ Hrow)].
      exfalso. pose proof (ro_complete _ _ Hok _ _ Hrow) as Hin. rewrite Hid in Hin. unfold valueid_in_index, index_scan in Hfree.
      rewrite length_map in Hfree. destruct (List.filter _ _) eqn:Ef; [|done].
      apply (List.in_nil (A := Entry) (a := (va_valueid tp, chunk_seq row, tid))). rewrite <- Ef. apply List.filter_In. split; [done|]. cbn. by rewrite Z.eqb_refl.
  - intros tq (_ & _ & rq & iq & Hrq & Hokq & Hin & _) [= E1 E2]. rewrite E1, Hr in Hrq. injection Hrq as <-.
    assert (iq = idx) by (pose proof (ro_valid _ _ Hokq); pose proof (ro_valid _ _ Hok); congruence). subst iq. congruence.
Qed.

(** How the value of an attribute may develop: not at all, to one in line, or
    to one that was saved. *)
Inductive value_step (w w' : World) : option Datum -> option Datum -> Prop :=
| VS_same v : value_step w w' v v
| VS_inline v p : VARATT_IS_EXTERNAL p = false -> value_step w w' v (Some (DPtr p))
| VS_saved v tp : live_value w' tp -> (forall tq, live_value w tq -> toast_key tq <> toast_key tp) ->
    value_step w w' v (Some (DPtr (toast_pointer_datum tp))).

Lemma value_step_trans w1 w2 w3 v1 v2 v3 :
  grows w1 w2 -> grows w2 w3 -> value_step w1 w2 v1 v2 -> value_step w2 w3 v2 v3 -> value_step w1 w3 v1 v3.
Proof.
  intros G1 G2 H1 H2. destruct H2 as [v|v p Hp|v tp Hl Hf]; [|by apply VS_inline|].
  - destruct H1 as [v|v p Hp|v tp Hl Hf]; [apply VS_same|by apply VS_inline|]. apply VS_saved; [|done]. by apply (gr_live _ _ G2).
  - apply VS_saved; [done|]. intros tq Hq. apply Hf. by apply (gr_live _ _ G1).
Qed.

Lemma value_steps_trans w1 w2 w3 vs1 vs2 vs3 :
  grows w1 w2 -> grows w2 w3 -> Forall2 (value_step w1 w2) vs1 vs2 -> Forall2 (value_step w2 w3) vs2 vs3 -> Forall2 (value_step w1 w3) vs1 vs3.
Proof.
  intros G1 G2 H1. revert vs3. induction H1 as [|v1 v2 vs1 vs2 H1 _ IH]; intros vs3 H2; inversion H2; subst; constructor; [|by apply IH].
  by eapply value_step_trans.
Qed.

Lemma value_steps_refl w w' vs : Forall2 (value_step w w') vs vs.
Proof. apply Forall_Forall2_diag, Forall_true. intros v. apply VS_same. Qed.
