(* ===== verification/ToastTupleRounds.v ===== *)
(** * The four rounds

    Every turn of a loop of [heap_toast_insert_or_update] takes an attribute
    out of the set of candidates, so that the loops end; the logical values of
    all attributes stay as they are. *)

From stdpp Require Import gmap.
From S2P Require Import Prelude Varlena PgLz PgLzTheorems Toast ToastInline ToastTable ToastStore.
From S2P Require Import HeapTuple HeapTupleFill HeapTupleProofs ToastTuple ToastTupleInv.

(** ** Flags *)

Definition ignored (info : ToastAttrInfo) : bool := Z.testbit (tai_colflags info) 4.
Definition incompressible (info : ToastAttrInfo) : bool := Z.testbit (tai_colflags info) 5.

Definition storage_ok (check_main : bool) (et : ElemType) : bool :=
  if check_main then bool_decide (typstorage et = TYPSTORAGE_MAIN)
  else bool_decide (typstorage et = TYPSTORAGE_EXTENDED) || bool_decide (typstorage et = TYPSTORAGE_EXTERNAL).

Lemma flag_clear f m : 0 <= m -> (Z.land f (2 ^ m) =? 0) = negb (Z.testbit f m).
Proof. apply land_pow2_testbit. Qed.

Lemma is_candidate_spec fc cm et v info :
  is_candidate fc cm et v info =
  negb (ignored info) && negb (fc && incompressible info) && negb (VARATT_IS_EXTERNAL (value_ptr v)) &&
  negb (fc && VARATT_IS_COMPRESSED (value_ptr v)) && storage_ok cm et.
Proof.
  assert (Hf : (Z.land (tai_colflags info) (if fc then Z.lor TOASTCOL_IGNORE TOASTCOL_INCOMPRESSIBLE else TOASTCOL_IGNORE) =? 0) =
    negb (ignored info) && negb (fc && incompressible info)).
  { unfold ignored, incompressible. pose proof (flag_clear (tai_colflags info) 4 ltac:(lia)) as H4. pose proof (flag_clear (tai_colflags info) 5 ltac:(lia)) as H5.
    change (2 ^ 4) with TOASTCOL_IGNORE in H4. change (2 ^ 5) with TOASTCOL_INCOMPRESSIBLE in H5. destruct fc; cbn [andb negb]; [|by rewrite H4, andb_true_r].
    rewrite Z.land_lor_distr_r, <- H4, <- H5. apply eq_true_iff_eq. rewrite andb_true_iff, !Z.eqb_eq, Z.lor_eq_0_iff. done. }
  unfold is_candidate. rewrite Hf. unfold storage_ok.
  destruct (negb (ignored info) && negb (fc && incompressible info)); cbn [negb andb]; [|done].
  destruct (VARATT_IS_EXTERNAL _); cbn [negb andb]; [done|].
  destruct (fc && VARATT_IS_COMPRESSED _); cbn [negb andb]; [done|].
  destruct cm; cbn [negb andb]; [by destruct (bool_decide _)|]. by destruct (bool_decide _), (bool_decide _).
Qed.

(** ** The biggest attribute *)

Section Find.
Variable (fc cm : bool).

Lemma find_biggest_spec atts values infos i b0 s0 :
  (find_biggest fc cm atts values infos i b0 s0 = b0 /\
   forall j et v info, atts !! j = Some et -> values !! j = Some v -> infos !! j = Some info ->
     is_candidate fc cm et v info = true -> tai_size info <= s0) \/
  (exists j et v info, find_biggest fc cm atts values infos i b0 s0 = i + Z.of_nat j /\
     atts !! j = Some et /\ values !! j = Some v /\ infos !! j = Some info /\
     is_candidate fc cm et v info = true /\ s0 < tai_size info).
Proof.
  revert values infos i b0 s0. induction atts as [|et atts IH]; intros [|v values] [|info infos] i b0 s0; cbn [find_biggest];
    try (left; split; [done|]; intros; done).
  destruct (is_candidate fc cm et v info && (tai_size info >? s0)) eqn:E.
  - apply andb_true_iff in E as [Ec Es]. rewrite Z.gtb_ltb in Es. zbool. right.
    destruct (IH values infos (i + 1) i (tai_size info)) as [[-> _]|(j & et' & v' & info' & -> & H1 & H2 & H3 & H4 & H5)].
    + exists O, et, v, info. split_and!; try done. lia.
    + exists (S j), et', v', info'. split_and!; try done; lia.
  - destruct (IH values infos (i + 1) b0 s0) as [[-> Hall]|(j & et' & v' & info' & -> & H1 & H2 & H3 & H4 & H5)].
    + left. split; [done|]. intros [|j] et' v' info' H1 H2 H3 Hc; [|by eapply Hall].
      injection H1 as <-. injection H2 as <-. injection H3 as <-. rewrite Hc in E. cbn [andb] in E. rewrite Z.gtb_ltb in E. zbool. lia.
    + right. exists (S j), et', v', info'. split_and!; try done; lia.
Qed.

End Find.

(** ** The invariant *)

Inductive att_inv (w : World) (et : ElemType) : option Datum -> ToastAttrInfo -> Lval -> Prop :=
| A_null info : ignored info = true -> att_inv w et None info LNull
| A_fixed d info :
    typlen et <> -1 -> datum_ok et d -> ignored info = true -> att_inv w et (Some d) info (LFixed (stored_datum et d))
| A_inline p data info :
    typbyval et = false -> typlen et = -1 -> data_ok data -> inline_form data p ->
    tai_size info = Z.of_nat (length p) -> ignored info = bool_decide (typstorage et = TYPSTORAGE_PLAIN) ->
    att_inv w et (Some (DPtr p)) info (LData data)
| A_saved c tp data info :
    typbyval et = false -> typlen et = -1 -> data_ok data -> external_value w data c tp -> 0 < va_extsize tp ->
    ignored info = true -> att_inv w et (Some (DPtr (toast_pointer_datum tp))) info (LData data).

Lemma att_inv_represents w et v info lv : att_inv w et v info lv -> represents w et v lv.
Proof. intros []; constructor; try done; by econstructor. Qed.

Lemma att_inv_keeps w w' et v info lv : keeps w w' -> att_inv w et v info lv -> att_inv w' et v info lv.
Proof. intros Hk []; [by constructor|by constructor|by constructor|]. eapply A_saved; try done. by apply (kp_external _ _ Hk). Qed.

Record ctx_inv (w : World) (atts : list ElemType) (ttc : ToastTupleContext) (lvs : list Lval) : Prop := {
  ci_values : length (ttc_values ttc) = length atts;
  ci_attr : length (ttc_attr ttc) = length atts;
  ci_lvs : length lvs = length atts;
  ci_inv : forall i et v info lv, atts !! i = Some et -> ttc_values ttc !! i = Some v -> ttc_attr ttc !! i = Some info ->
    lvs !! i = Some lv -> att_inv w et v info lv
}.

Lemma ctx_lookup w atts ttc lvs i et :
  ctx_inv w atts ttc lvs -> atts !! i = Some et ->
  exists v info lv, ttc_values ttc !! i = Some v /\ ttc_attr ttc !! i = Some info /\ lvs !! i = Some lv /\ att_inv w et v info lv.
Proof.
  intros H Hi. pose proof (lookup_lt_Some _ _ _ Hi) as Hlt. destruct H as [H1 H2 H3 H4].
  destruct (lookup_lt_is_Some_2 (ttc_values ttc) i ltac:(lia)) as [v Hv].
  destruct (lookup_lt_is_Some_2 (ttc_attr ttc) i ltac:(lia)) as [info Hinfo].
  destruct (lookup_lt_is_Some_2 lvs i ltac:(lia)) as [lv Hlv]. exists v, info, lv. split_and!; try done. by eapply H4.
Qed.

Lemma ctx_inv_keeps w w' atts ttc lvs : keeps w w' -> ctx_inv w atts ttc lvs -> ctx_inv w' atts ttc lvs.
Proof. intros Hk [H1 H2 H3 H4]. split; try done. intros i et v info lv A B C D. eapply att_inv_keeps; [done|]. by eapply H4. Qed.

(** The tuple can be sized at any time. *)
Lemma ctx_values_ok w atts ttc lvs : Forall elem_ok atts -> ctx_inv w atts ttc lvs -> values_ok w atts (ttc_values ttc).
Proof.
  intros He H. split; [done|]. apply Forall2_same_length_lookup_2; [by rewrite (ci_values _ _ _ _ H)|].
  intros i et v Hi Hv. destruct (ctx_lookup _ _ _ _ i et H Hi) as (v' & info & lv & Hv' & _ & _ & Ha).
  assert (v' = v) by congruence. subst v'. destruct v as [d|]; [|done]. eapply represents_legal. by eapply att_inv_represents.
Qed.

Lemma too_long_ok w atts maxDataLen ttc lvs :
  Forall elem_ok atts -> ctx_inv w atts ttc lvs ->
  too_long atts maxDataLen w ttc = Ok (Z.of_nat (length (layout w atts (ttc_values ttc) 0)) >? maxDataLen).
Proof.
  intros He H. unfold too_long, heap_compute_data_size. by rewrite compute_data_size_layout by (by eapply ctx_values_ok).
Qed.

(** ** Room in the TOAST table *)

(** The chunks that attributes may still need. *)
Definition pending1 (info : ToastAttrInfo) (lv : Lval) : nat :=
  if ignored info then 0%nat else match lv with LData data => nchunks (length data) | _ => 0%nat end.

Definition pending (ttc : ToastTupleContext) (lvs : list Lval) : nat := sum_list (zip_with pending1 (ttc_attr ttc) lvs).

(** There is no TOAST table, or one in good order with room. *)
Definition table_inv (w : World) (rel : Relation) (ttc : ToastTupleContext) (lvs : list Lval) : Prop :=
  reltoastrelid rel <> InvalidOid ->
  exists r idx, toast_table w rel r idx /\ Z.of_nat (length (idx_entries idx) + pending ttc lvs) < oid_count.

Lemma sum_zip_insert {A B} (f : A -> B -> nat) (l : list A) (k : list B) i a a' b :
  l !! i = Some a -> k !! i = Some b ->
  (sum_list (zip_with f (<[i := a']> l) k) + f a b = sum_list (zip_with f l k) + f a' b)%nat.
Proof.
  revert l k. induction i as [|i IH]; intros [|x l] [|y k] Hl Hk; try done.
  - injection Hl as ->. injection Hk as ->. cbn. lia.
  - specialize (IH l k Hl Hk). change (<[S i := a']> (x :: l)) with (x :: <[i := a']> l). cbn [zip_with sum_list_with]. lia.
Qed.

(** ** Sets of candidates *)

Fixpoint candidates (fc cm : bool) (atts : list ElemType) (values : list (option Datum)) (infos : list ToastAttrInfo) : list bool :=
  match atts, values, infos with
  | et :: atts', v :: values', info :: infos' => is_candidate fc cm et v info :: candidates fc cm atts' values' infos'
  | _, _, _ => []
  end.

Definition count (l : list bool) : nat := length (List.filter id l).

Lemma candidates_lookup fc cm atts values infos j et v info :
  atts !! j = Some et -> values !! j = Some v -> infos !! j = Some info ->
  candidates fc cm atts values infos !! j = Some (is_candidate fc cm et v info).
Proof.
  revert values infos j. induction atts as [|a atts IH]; intros [|b values] [|c infos] [|j] H1 H2 H3; try done.
  - injection H1 as ->. injection H2 as ->. injection H3 as ->. done.
  - by apply IH.
Qed.

Lemma length_candidates fc cm atts values infos :
  length values = length atts -> length infos = length atts -> length (candidates fc cm atts values infos) = length atts.
Proof.
  revert values infos. induction atts as [|a atts IH]; intros [|b values] [|c infos] H1 H2; try done. cbn in *. f_equal. apply IH; lia.
Qed.

Lemma count_le l : (count l <= length l)%nat.
Proof. apply filter_length_le. Qed.

Lemma count_decreases l l' i :
  length l' = length l -> (forall j, l' !! j = Some true -> l !! j = Some true) -> l !! i = Some true -> l' !! i = Some false ->
  (count l' < count l)%nat.
Proof.
  assert (Hle : forall l l', length l' = length l -> (forall j, l' !! j = Some true -> l !! j = Some true) -> (count l' <= count l)%nat).
  { clear. induction l as [|b l IH]; intros [|b' l'] Hl Hj; try done. unfold count in *. cbn in *.
    specialize (IH l' ltac:(lia) (fun j => Hj (S j))). pose proof (Hj O) as H0. cbn in H0. destruct b, b'; cbn; try lia. by specialize (H0 eq_refl). }
  revert l' i. induction l as [|b l IH]; intros [|b' l'] [|i] Hl Hj Hi Hi'; try done; unfold count in *; cbn in *.
  - injection Hi as ->. injection Hi' as ->. cbn. specialize (Hle l l' ltac:(lia) (fun j => Hj (S j))). unfold count in Hle. lia.
  - specialize (IH l' i ltac:(lia) (fun j => Hj (S j)) Hi Hi'). pose proof (Hj O) as H0. cbn in H0. destruct b, b'; cbn; try lia. by specialize (H0 eq_refl).
Qed.

Definition cands (fc cm : bool) (atts : list ElemType) (ttc : ToastTupleContext) : nat :=
  count (candidates fc cm atts (ttc_values ttc) (ttc_attr ttc)).

(** Changing one attribute so that it is no candidate any more. *)
Lemma cands_decrease fc cm w atts ttc lvs i et v info v' info' flags :
  ctx_inv w atts ttc lvs -> atts !! i = Some et -> ttc_values ttc !! i = Some v -> ttc_attr ttc !! i = Some info ->
  is_candidate fc cm et v info = true -> is_candidate fc cm et v' info' = false ->
  (cands fc cm atts (mkTtc (<[i := v']> (ttc_values ttc)) flags (<[i := info']> (ttc_attr ttc))) < cands fc cm atts ttc)%nat.
Proof.
  intros H Hi Hv Hinfo Hc Hc'. unfold cands. cbn [ttc_values ttc_attr].
  pose proof (lookup_lt_Some _ _ _ Hv). pose proof (lookup_lt_Some _ _ _ Hinfo).
  apply (count_decreases _ _ i).
  - rewrite !length_candidates; try done; rewrite ?length_insert; apply H.
  - intros j Hj. destruct (decide (j = i)) as [->|Hne].
    + erewrite candidates_lookup in Hj; [|done|by rewrite list_lookup_insert_eq|by rewrite list_lookup_insert_eq]. congruence.
    + destruct (atts !! j) as [etj|] eqn:Ej.
      * destruct (ctx_lookup _ _ _ _ j etj H Ej) as (vj & infoj & lvj & E1 & E2 & E3 & _).
        erewrite candidates_lookup in Hj; [|done|by rewrite list_lookup_insert_ne|by rewrite list_lookup_insert_ne].
        by erewrite candidates_lookup.
      * exfalso. apply lookup_lt_Some in Hj. rewrite length_candidates in Hj by (rewrite ?length_insert; apply H).
        apply lookup_ge_None in Ej. lia.
  - by erewrite candidates_lookup; [rewrite Hc|..].
  - by erewrite candidates_lookup; [rewrite Hc'|done|rewrite list_lookup_insert_eq|rewrite list_lookup_insert_eq].
Qed.

(** ** Steps *)

(** What a number of turns on attributes with the storage of [cm] does. *)
Record evolves (rel : Relation) (atts : list ElemType) (lvs : list Lval) (cm : bool)
  (w : World) (ttc : ToastTupleContext) (w' : World) (ttc' : ToastTupleContext) : Prop := {
  ev_grows : grows w w';
  ev_ctx : ctx_inv w' atts ttc' lvs;
  ev_table : table_inv w' rel ttc' lvs;
  ev_nulls : Z.testbit (ttc_flags ttc') 2 = Z.testbit (ttc_flags ttc) 2;
  ev_delete : Z.testbit (ttc_flags ttc') 0 = Z.testbit (ttc_flags ttc) 0;
  ev_change : Z.testbit (ttc_flags ttc') 3 = false -> Z.testbit (ttc_flags ttc) 3 = false /\ ttc_values ttc' = ttc_values ttc /\ w' = w;
  ev_coldelete : forall i info, ttc_attr ttc !! i = Some info ->
    exists info', ttc_attr ttc' !! i = Some info' /\ Z.testbit (tai_colflags info') 0 = Z.testbit (tai_colflags info) 0;
  ev_untouched : forall i et, atts !! i = Some et -> storage_ok cm et = false ->
    ttc_values ttc' !! i = ttc_values ttc !! i /\ ttc_attr ttc' !! i = ttc_attr ttc !! i;
  ev_values : Forall2 (value_step w w') (ttc_values ttc) (ttc_values ttc')
}.

Lemma evolves_refl rel atts lvs cm w ttc : ctx_inv w atts ttc lvs -> table_inv w rel ttc lvs -> evolves rel atts lvs cm w ttc w ttc.
Proof. intros H1 H2. split; try done; [|apply value_steps_refl]. intros i info Hi. by exists info. Qed.

Lemma evolves_trans rel atts lvs cm w1 t1 w2 t2 w3 t3 :
  evolves rel atts lvs cm w1 t1 w2 t2 -> evolves rel atts lvs cm w2 t2 w3 t3 -> evolves rel atts lvs cm w1 t1 w3 t3.
Proof.
  intros [A1 A2 A3 A4 A5 A6 A7 A8 A9] [B1 B2 B3 B4 B5 B6 B7 B8 B9]. split; try done; try congruence.
  - by eapply grows_trans.
  - intros H. destruct (B6 H) as (H1 & H2 & H3). destruct (A6 H1) as (H4 & H5 & H6). split_and!; congruence.
  - intros i info Hi. destruct (A7 i info Hi) as (info' & Hi' & E'). destruct (B7 i info' Hi') as (info'' & Hi'' & E''). exists info''. split; congruence.
  - intros i et Hi Hs. destruct (A8 i et Hi Hs) as [E1 E2], (B8 i et Hi Hs) as [E3 E4]. split; congruence.
  - by eapply value_steps_trans.
Qed.

(** One attribute is replaced. *)
Lemma evolves_one rel atts lvs cm w ttc w' i et v info lv v' info' fl :
  ctx_inv w atts ttc lvs -> grows w w' ->
  atts !! i = Some et -> ttc_values ttc !! i = Some v -> ttc_attr ttc !! i = Some info -> lvs !! i = Some lv ->
  att_inv w' et v' info' lv -> storage_ok cm et = true -> value_step w w' v v' ->
  Z.testbit (tai_colflags info') 0 = Z.testbit (tai_colflags info) 0 ->
  Z.testbit fl 2 = Z.testbit (ttc_flags ttc) 2 -> Z.testbit fl 0 = Z.testbit (ttc_flags ttc) 0 ->
  (Z.testbit fl 3 = false -> Z.testbit (ttc_flags ttc) 3 = false /\ v' = v /\ w' = w) ->
  let ttc' := mkTtc (<[i := v']> (ttc_values ttc)) fl (<[i := info']> (ttc_attr ttc)) in
  table_inv w' rel ttc' lvs ->
  evolves rel atts lvs cm w ttc w' ttc'.
Proof.
  intros H Hg Hi Hv Hinfo Hlv Ha Hs Hvs F0 F1 F2 F3 ttc' Ht.
  pose proof (lookup_lt_Some _ _ _ Hv) as L1. pose proof (lookup_lt_Some _ _ _ Hinfo) as L2.
  pose proof (ctx_inv_keeps _ _ _ _ _ (gr_keeps _ _ Hg) H) as H'.
  subst ttc'. split; cbn [ttc_flags ttc_values ttc_attr]; try done.
  - split; cbn [ttc_values ttc_attr]; [rewrite length_insert; apply H|rewrite length_insert; apply H|apply H|].
    intros j etj vj infoj lvj Ej Evj Einfoj Elvj. destruct (decide (j = i)) as [->|Hne].
    + rewrite list_lookup_insert_eq in Evj by done. rewrite list_lookup_insert_eq in Einfoj by done. congruence.
    + rewrite list_lookup_insert_ne in Evj by done. rewrite list_lookup_insert_ne in Einfoj by done. by eapply (ci_inv _ _ _ _ H').
  - intros Hf. destruct (F3 Hf) as (E1 & -> & E3). split_and!; try done. by apply list_insert_id.
  - intros j infoj Hj. destruct (decide (j = i)) as [->|Hne].
    + exists info'. rewrite list_lookup_insert_eq by done. split; congruence.
    + exists infoj. by rewrite list_lookup_insert_ne.
  - intros j etj Ej Hsj. destruct (decide (j = i)) as [->|Hne]; [congruence|]. by rewrite !list_lookup_insert_ne.
  - rewrite <- (list_insert_id (ttc_values ttc) i v) at 1 by done. apply Forall2_insert; [apply value_steps_refl|done].
Qed.

(** A candidate is in line, and is long enough to be worth it. *)
Lemma candidate_inline fc cm w et v info lv :
  att_inv w et v info lv -> is_candidate fc cm et v info = true ->
  ignored info = false /\ storage_ok cm et = true /\ (fc = true -> incompressible info = false) /\
  exists p data, v = Some (DPtr p) /\ lv = LData data /\ typbyval et = false /\ typlen et = -1 /\ data_ok data /\ inline_form data p /\
    tai_size info = Z.of_nat (length p) /\ (fc = true -> VARATT_IS_COMPRESSED p = false).
Proof.
  intros Ha Hc. rewrite is_candidate_spec in Hc. repeat (apply andb_true_iff in Hc as [Hc ?]).
  rewrite negb_true_iff in *. split; [done|]. split; [done|]. split; [intros ->; done|].
  destruct Ha as [info Hi|d info _ _ Hi|p data info Hb Hl Hd Hf Hs _|c tp data info _ _ _ _ _ Hi]; [congruence|congruence| |congruence].
  exists p, data. split_and!; try done. by intros ->.
Qed.

Lemma testbit_set_flag info f m : Z.testbit (tai_colflags (set_flag info f)) m = Z.testbit (tai_colflags info) m || Z.testbit f m.
Proof. apply Z.lor_spec. Qed.

Lemma inline_not_comp data p :
  fits data -> inline_form data p -> VARATT_IS_COMPRESSED p = false -> p = plain data \/ p = short_form data /\ (length data <= 126)%nat.
Proof.
  intros Hfit Hp Hc. destruct Hp as [|Hl|c He Hs]; [by left|by right|]. destruct (comp_header data c Hfit Hs) as [E _].
  unfold VARATT_IS_COMPRESSED in Hc. congruence.
Qed.

Lemma insert_id_pair ttc i v : ttc_values ttc !! i = Some v -> <[i := v]> (ttc_values ttc) = ttc_values ttc.
Proof. apply list_insert_id. Qed.

(** [toast_tuple_try_compression] on a candidate: the new value and its
    state. *)
Lemma try_compression_ok w atts ttc lvs cm i et v info lv :
  ctx_inv w atts ttc lvs -> atts !! i = Some et -> ttc_values ttc !! i = Some v -> ttc_attr ttc !! i = Some info -> lvs !! i = Some lv ->
  is_candidate true cm et v info = true ->
  exists v' info' fl, toast_tuple_try_compression ttc (Z.of_nat i) = Ok (mkTtc (<[i := v']> (ttc_values ttc)) fl (<[i := info']> (ttc_attr ttc))) /\
    att_inv w et v' info' lv /\ ignored info' = false /\ is_candidate true cm et v' info' = false /\
    (exists p, v' = Some (DPtr p) /\ VARATT_IS_EXTERNAL p = false) /\
    Z.testbit (tai_colflags info') 0 = Z.testbit (tai_colflags info) 0 /\
    Z.testbit fl 2 = Z.testbit (ttc_flags ttc) 2 /\ Z.testbit fl 0 = Z.testbit (ttc_flags ttc) 0 /\
    (Z.testbit fl 3 = false -> Z.testbit (ttc_flags ttc) 3 = false /\ v' = v).
Proof.
  intros H Hi Hv Hinfo Hlv Hc. pose proof (ci_inv _ _ _ _ H _ _ _ _ _ Hi Hv Hinfo Hlv) as Ha.
  destruct (candidate_inline _ _ _ _ _ _ _ Ha Hc) as (Hign & Hst & Hinc & p & data & -> & -> & Hb & Hl & Hd & Hf & Hsz & Hnc).
  pose proof (data_ok_fits _ Hd) as Hfit. specialize (Hinc eq_refl). specialize (Hnc eq_refl).
  assert (Hpl : typstorage et <> TYPSTORAGE_PLAIN).
  { intros E. unfold storage_ok in Hst. rewrite E in Hst. by destruct cm. }
  destruct (toast_compress_result data p ltac:(apply Hd) (inline_not_comp data p Hfit Hf Hnc)) as (r & E & Hr).
  destruct (inline_size data p Hfit Hf) as [_ HE].
  unfold toast_tuple_try_compression. rewrite (array_get_lookup (ttc_values ttc) _ (Some (DPtr p))) by (rewrite ?Nat2Z.id; done || lia).
  rewrite (array_get_lookup (ttc_attr ttc) _ info) by (rewrite ?Nat2Z.id; done || lia). cbn [mbind result_bind value_ptr DatumGetPointer].
  rewrite E. cbn [mbind result_bind]. rewrite Nat2Z.id. destruct r as [q|].
  - destruct (Hr q eq_refl) as (c & -> & He & Hcs). destruct (comp_header data c Hfit Hcs) as [Ec Es].
    assert (Hq : inline_form data (comp_form data c)) by (by constructor).
    destruct (inline_size data _ Hfit Hq) as [_ HEq].
    eexists _, _, _. split; [reflexivity|]. rewrite is_candidate_spec. cbn [value_ptr DatumGetPointer]. unfold VARATT_IS_COMPRESSED. rewrite Ec.
    unfold incompressible in *. cbn [tai_colflags tai_size].
    match goal with |- context [ignored ?x] => assert (Hig1 : ignored x = false) by (unfold ignored in *; cbn [tai_colflags]; by rewrite Z.lor_spec, Hign) end.
    rewrite Hig1, !Z.lor_spec, Hinc.
    split; [apply A_inline; try done; by rewrite bool_decide_eq_false_2|]. split; [done|].
    split; [cbn [andb negb]; by rewrite andb_false_r, ?andb_false_l|]. split; [by eexists|]. split; [by rewrite orb_false_r|].
    split; [by rewrite orb_false_r|]. split; [by rewrite orb_false_r|]. by rewrite orb_true_r.
  - unfold set_info. eexists (Some (DPtr p)), _, (ttc_flags ttc). split; [by rewrite insert_id_pair|]. rewrite is_candidate_spec.
    assert (Hig1 : ignored (set_flag info TOASTCOL_INCOMPRESSIBLE) = false) by (unfold ignored in *; by rewrite testbit_set_flag, Hign).
    unfold incompressible in *. rewrite Hig1, !testbit_set_flag.
    split; [apply A_inline; try done; by rewrite bool_decide_eq_false_2|]. split; [done|].
    split; [cbn [andb negb]; rewrite orb_true_r; cbn; by rewrite ?andb_false_r|]. split; [by eexists|]. split; [by rewrite orb_false_r|]. done.
Qed.

Lemma pending_ignore ttc lvs i info info' lv values fl :
  ttc_attr ttc !! i = Some info -> lvs !! i = Some lv ->
  (pending (mkTtc values fl (<[i := info']> (ttc_attr ttc))) lvs + pending1 info lv = pending ttc lvs + pending1 info' lv)%nat.
Proof. intros. unfold pending. cbn [ttc_attr]. by apply sum_zip_insert. Qed.

(** [toast_tuple_externalize] on a value in line that is not empty. *)
Lemma externalize_ok w rel atts ttc lvs cm i et p info data :
  ctx_inv w atts ttc lvs -> table_inv w rel ttc lvs -> reltoastrelid rel <> InvalidOid ->
  atts !! i = Some et -> ttc_values ttc !! i = Some (Some (DPtr p)) -> ttc_attr ttc !! i = Some info -> lvs !! i = Some (LData data) ->
  ignored info = false -> storage_ok cm et = true -> VARATT_IS_EXTERNAL p = false -> (0 < length data)%nat ->
  exists w' tp info' fl, toast_tuple_externalize w rel ttc (Z.of_nat i) =
      Ok (w', mkTtc (<[i := Some (DPtr (toast_pointer_datum tp))]> (ttc_values ttc)) fl (<[i := info']> (ttc_attr ttc))) /\
    evolves rel atts lvs cm w ttc w' (mkTtc (<[i := Some (DPtr (toast_pointer_datum tp))]> (ttc_values ttc)) fl (<[i := info']> (ttc_attr ttc))) /\
    ignored info' = true /\ Z.testbit fl 3 = true.
Proof.
  intros H Ht Hrel Hi Hv Hinfo Hlv Hign Hst Hext Hpos. pose proof (ci_inv _ _ _ _ H _ _ _ _ _ Hi Hv Hinfo Hlv) as Ha.
  inversion Ha as [| |? ? ? Hb Hl Hd Hf Hsz Hpl|]; subst; [|congruence]. pose proof (data_ok_fits _ Hd) as Hfit.
  destruct (Ht Hrel) as (r & idx & Htab & Hroom).
  destruct (toast_save_step w rel r idx data p (tai_oldexternal info) Htab Hfit Hf Hpos)
    as (w' & tp & r' & idx' & E & Hx & Hxpos & Hkeep & Hr' & Hok' & Hid' & Hnext' & Hsn' & Hent & Hrels & Hexts & Hfree & Hoid).
  unfold toast_tuple_externalize. rewrite (array_get_lookup (ttc_values ttc) _ (Some (DPtr p))) by (rewrite ?Nat2Z.id; done || lia).
  rewrite (array_get_lookup (ttc_attr ttc) _ info) by (rewrite ?Nat2Z.id; done || lia). cbn [mbind result_bind value_ptr DatumGetPointer].
  change (tai_oldexternal (set_flag info TOASTCOL_IGNORE)) with (tai_oldexternal info). rewrite E. cbn [mbind result_bind]. rewrite Nat2Z.id.
  set (info' := set_flag (set_flag info TOASTCOL_IGNORE) TOASTCOL_NEEDS_FREE).
  assert (Hign' : ignored info' = true) by (unfold ignored, info'; rewrite !testbit_set_flag; cbn; by rewrite orb_true_r).
  set (fl := Z.lor (ttc_flags ttc) (Z.lor TOAST_NEEDS_CHANGE TOAST_NEEDS_FREE)).
  exists w', tp, info', fl. split; [done|]. split_and!; [|done|unfold fl; rewrite Z.lor_spec; cbn; by rewrite orb_true_r].
  assert (Hg : grows w w').
  { split; [done|]. intros tp0. apply (live_frame w w' (reltoastrelid rel) (va_valueid tp) r idx r' idx'); try done; apply Htab. }
  eapply (evolves_one rel atts lvs cm w ttc w' i et _ info (LData data)); try done.
  - by eapply A_saved.
  - destruct (saved_live w w' data (VARATT_IS_COMPRESSED p) r idx r' idx' tp) as [H1 H2]; try done; rewrite ?Hoid; try done; try apply Htab. by apply VS_saved.
  - unfold info'. rewrite !testbit_set_flag. cbn. by rewrite !orb_false_r.
  - unfold fl. rewrite Z.lor_spec. cbn. by rewrite orb_false_r.
  - unfold fl. rewrite Z.lor_spec. cbn. by rewrite orb_false_r.
  - unfold fl. rewrite Z.lor_spec. cbn. by rewrite orb_true_r.
  - intros _. exists r', idx'. destruct Htab as [T1 T2 T3 T4 T5 T6 T7 T8].
    pose proof (pending_ignore ttc lvs i info info' (LData data) (<[i := Some (DPtr (toast_pointer_datum tp))]> (ttc_values ttc)) fl Hinfo Hlv) as Hp.
    unfold pending1 in Hp. rewrite Hign, Hign' in Hp. split; [|lia]. split; try done. lia.
Qed.

Lemma inline_nonempty data p : inline_form data p -> 24 < Z.of_nat (length p) -> (0 < length data)%nat.
Proof.
  intros Hf Hl. destruct Hf as [|Hs|c He Hc].
  - rewrite length_plain in Hl. lia.
  - unfold short_form in Hl. cbn [length] in Hl. lia.
  - unfold TOAST_COMPRESS_HDRSZ in Hc. lia.
Qed.

Lemma table_inv_pending w rel ttc ttc' lvs : pending ttc' lvs = pending ttc lvs -> table_inv w rel ttc lvs -> table_inv w rel ttc' lvs.
Proof. intros E H Hr. rewrite E. by apply H. Qed.

(** Compressing as a step. *)
Lemma compression_step w rel atts ttc lvs cm i et v info lv :
  ctx_inv w atts ttc lvs -> table_inv w rel ttc lvs ->
  atts !! i = Some et -> ttc_values ttc !! i = Some v -> ttc_attr ttc !! i = Some info -> lvs !! i = Some lv ->
  is_candidate true cm et v info = true ->
  exists p info' fl, let ttc' := mkTtc (<[i := Some (DPtr p)]> (ttc_values ttc)) fl (<[i := info']> (ttc_attr ttc)) in
    toast_tuple_try_compression ttc (Z.of_nat i) = Ok ttc' /\ evolves rel atts lvs cm w ttc w ttc' /\
    ignored info' = false /\ VARATT_IS_EXTERNAL p = false /\ is_candidate true cm et (Some (DPtr p)) info' = false.
Proof.
  intros H Ht Hi Hv Hinfo Hlv Hc.
  destruct (try_compression_ok w atts ttc lvs cm i et v info lv H Hi Hv Hinfo Hlv Hc)
    as (v' & info' & fl & E & Ha & Hig & Hno & (p & -> & HE) & F0 & F1 & F2 & F3).
  destruct (candidate_inline _ _ _ _ _ _ _ (ci_inv _ _ _ _ H _ _ _ _ _ Hi Hv Hinfo Hlv) Hc) as (Hig0 & Hst & _ & _).
  exists p, info', fl. split; [done|]. split; [|done].
  eapply (evolves_one rel atts lvs cm w ttc w i et v info lv); try done.
  - by apply VS_inline.
  - intros Hf. destruct (F3 Hf). done.
  - eapply table_inv_pending; [|done].
    pose proof (pending_ignore ttc lvs i info info' lv (<[i := Some (DPtr p)]> (ttc_values ttc)) fl Hinfo Hlv) as Hp.
    unfold pending1 in Hp. rewrite Hig, Hig0 in Hp. lia.
Qed.

(** Marking an attribute with storage EXTERNAL. *)
Lemma incompressible_step w rel atts ttc lvs cm i et p info data :
  ctx_inv w atts ttc lvs -> table_inv w rel ttc lvs ->
  atts !! i = Some et -> ttc_values ttc !! i = Some (Some (DPtr p)) -> ttc_attr ttc !! i = Some info -> lvs !! i = Some (LData data) ->
  is_candidate true cm et (Some (DPtr p)) info = true ->
  let info' := set_flag info TOASTCOL_INCOMPRESSIBLE in
  let ttc' := mkTtc (<[i := Some (DPtr p)]> (ttc_values ttc)) (ttc_flags ttc) (<[i := info']> (ttc_attr ttc)) in
  set_info ttc i info' = ttc' /\ evolves rel atts lvs cm w ttc w ttc' /\ ignored info' = false /\ is_candidate true cm et (Some (DPtr p)) info' = false.
Proof.
  intros H Ht Hi Hv Hinfo Hlv Hc info' ttc'. pose proof (ci_inv _ _ _ _ H _ _ _ _ _ Hi Hv Hinfo Hlv) as Ha.
  destruct (candidate_inline _ _ _ _ _ _ _ Ha Hc) as (Hig0 & Hst & _ & p' & data' & Ep & Ed & Hb & Hl & Hd & Hf & Hsz & _).
  injection Ep as <-. injection Ed as <-.
  assert (Hig : ignored info' = false) by (unfold ignored, info' in *; rewrite testbit_set_flag, Hig0; done).
  split; [unfold set_info, ttc'; by rewrite insert_id_pair|]. split_and!; [|done|].
  - eapply (evolves_one rel atts lvs cm w ttc w i et _ info (LData data)); try done.
    + apply A_inline; try done. rewrite Hig. symmetry. apply bool_decide_eq_false_2. intros E. unfold storage_ok in Hst. rewrite E in Hst. by destruct cm.
    + apply VS_same.
    + unfold info'. rewrite testbit_set_flag. by rewrite orb_false_r.
    + eapply table_inv_pending; [|done].
      pose proof (pending_ignore ttc lvs i info info' (LData data) (<[i := Some (DPtr p)]> (ttc_values ttc)) (ttc_flags ttc) Hinfo Hlv) as Hp.
      unfold pending1 in Hp. rewrite Hig, Hig0 in Hp. subst ttc'. lia.
  - rewrite is_candidate_spec. unfold incompressible, info'. rewrite testbit_set_flag, orb_true_r. cbn. by rewrite andb_false_r.
Qed.

Lemma list_insert_twice {A} (l : list A) i a b : <[i := a]> (<[i := b]> l) = <[i := a]> l.
Proof. apply list_insert_insert_eq. Qed.

Section Round1.
Variable (rel : Relation) (atts : list ElemType) (maxDataLen : Z) (lvs : list Lval).

Lemma round1_step_ok w ttc i et v info lv :
  ctx_inv w atts ttc lvs -> table_inv w rel ttc lvs ->
  atts !! i = Some et -> ttc_values ttc !! i = Some v -> ttc_attr ttc !! i = Some info -> lvs !! i = Some lv ->
  is_candidate true false et v info = true -> 24 < tai_size info ->
  exists w' ttc', round1_step rel atts maxDataLen w ttc (Z.of_nat i) = Ok (w', ttc') /\ evolves rel atts lvs false w ttc w' ttc' /\
    (cands true false atts ttc' < cands true false atts ttc)%nat.
Proof.
  intros H Ht Hi Hv Hinfo Hlv Hc Hsize. pose proof (ci_inv _ _ _ _ H _ _ _ _ _ Hi Hv Hinfo Hlv) as Ha.
  destruct (candidate_inline _ _ _ _ _ _ _ Ha Hc) as (Hig0 & Hst & _ & p0 & data & -> & -> & Hb & Hl & Hd & Hf & Hsz & _).
  assert (Hpos : (0 < length data)%nat) by (apply (inline_nonempty data p0); [done|lia]).
  pose proof (lookup_lt_Some _ _ _ Hv) as L1. pose proof (lookup_lt_Some _ _ _ Hinfo) as L2.
  unfold round1_step. rewrite (array_get_lookup atts _ et) by (rewrite ?Nat2Z.id; done || lia). cbn [mbind result_bind].
  assert (Hstep : exists p info' fl, let ttc' := mkTtc (<[i := Some (DPtr p)]> (ttc_values ttc)) fl (<[i := info']> (ttc_attr ttc)) in
    (if bool_decide (typstorage et = TYPSTORAGE_EXTENDED) then toast_tuple_try_compression ttc (Z.of_nat i)
     else attr ← array_get (ttc_attr ttc) (Z.of_nat i); Ok (set_info ttc (Z.to_nat (Z.of_nat i)) (set_flag attr TOASTCOL_INCOMPRESSIBLE))) = Ok ttc' /\
    evolves rel atts lvs false w ttc w ttc' /\ ignored info' = false /\ VARATT_IS_EXTERNAL p = false /\
    is_candidate true false et (Some (DPtr p)) info' = false).
  { case_bool_decide as Hext; [by eapply compression_step|].
    rewrite (array_get_lookup (ttc_attr ttc) _ info) by (rewrite ?Nat2Z.id; done || lia). cbn [mbind result_bind]. rewrite Nat2Z.id.
    destruct (incompressible_step w rel atts ttc lvs false i et p0 info data H Ht Hi Hv Hinfo Hlv Hc) as (E & Hev & Hig & Hno).
    exists p0, (set_flag info TOASTCOL_INCOMPRESSIBLE), (ttc_flags ttc). rewrite E. split_and!; try done.
    destruct (inline_size data p0 (data_ok_fits _ Hd) Hf) as [_ HE]. done. }
  destruct Hstep as (p & info1 & fl & -> & Hev & Hig & HE & Hno). set (ttc1 := mkTtc _ _ _) in *. cbn [mbind result_bind].
  rewrite (array_get_lookup (ttc_attr ttc1) _ info1) by (rewrite ?Nat2Z.id; subst ttc1; cbn; rewrite ?list_lookup_insert_eq; done || lia).
  cbn [mbind result_bind].
  destruct ((uwrap 64 (tai_size info1) >? maxDataLen) && negb (reltoastrelid rel =? InvalidOid)) eqn:Ex.
  - apply andb_true_iff in Ex as [_ Ex]. apply negb_true_iff, Z.eqb_neq in Ex.
    destruct (externalize_ok w rel atts ttc1 lvs false i et p info1 data) as (w' & tp & info2 & fl2 & -> & Hev2 & Hig2 & _); try done.
    { apply Hev. }
    { apply Hev. }
    { subst ttc1. cbn. by rewrite list_lookup_insert_eq. }
    { subst ttc1. cbn. by rewrite list_lookup_insert_eq. }
    eexists _, _. split; [done|]. split; [by eapply evolves_trans|]. subst ttc1. cbn [ttc_values ttc_attr].
    rewrite !list_insert_twice. eapply cands_decrease; try done. rewrite is_candidate_spec, Hig2. done.
  - eexists _, _. split; [done|]. split; [done|]. by eapply cands_decrease.
Qed.

(** The first loop ends, with nothing to do or nothing that can be done. *)
Lemma round1_ok fuel w ttc :
  Forall elem_ok atts -> ctx_inv w atts ttc lvs -> table_inv w rel ttc lvs -> (cands true false atts ttc < fuel)%nat ->
  exists w' ttc', round1 rel atts maxDataLen fuel w ttc = Ok (w', ttc') /\ evolves rel atts lvs false w ttc w' ttc'.
Proof.
  intros He. revert w ttc. induction fuel as [|fuel IH]; intros w ttc H Ht Hfuel; [lia|]. cbn [round1].
  rewrite (too_long_ok w atts maxDataLen ttc lvs He H). cbn [mbind result_bind].
  destruct (_ >? maxDataLen) eqn:Elong; [|eexists _, _; split; [done|by apply evolves_refl]].
  unfold toast_tuple_find_biggest_attribute.
  destruct (find_biggest_spec true false atts (ttc_values ttc) (ttc_attr ttc) 0 (-1) (MAXALIGN TOAST_POINTER_SIZE))
    as [[-> _]|(j & et & v & info & -> & H1 & H2 & H3 & Hc & Hs)]; [eexists _, _; split; [done|by apply evolves_refl]|].
  rewrite Z.add_0_l. replace (Z.of_nat j <? 0) with false by (symmetry; apply Z.ltb_ge; lia).
  destruct (ctx_lookup _ _ _ _ j et H H1) as (v' & info' & lv & E1 & E2 & Hlv & _).
  destruct (round1_step_ok w ttc j et v info lv H Ht H1 H2 H3 Hlv Hc) as (w' & ttc' & -> & Hev & Hdec).
  { change (MAXALIGN TOAST_POINTER_SIZE) with 24 in Hs. lia. }
  cbn [mbind result_bind]. destruct (IH w' ttc') as (w'' & ttc'' & E & Hev'); [apply Hev|apply Hev|lia|].
  exists w'', ttc''. split; [done|]. by eapply evolves_trans.
Qed.

(** Nothing is left that could be moved out. *)
Definition all_out (cm : bool) (ttc : ToastTupleContext) : Prop :=
  forall j et v info, atts !! j = Some et -> ttc_values ttc !! j = Some v -> ttc_attr ttc !! j = Some info ->
    is_candidate false cm et v info = true -> tai_size info <= 24.

Lemma round_externalize_ok cm fuel w ttc :
  Forall elem_ok atts -> ctx_inv w atts ttc lvs -> table_inv w rel ttc lvs -> (cands false cm atts ttc < fuel)%nat ->
  exists w' ttc', round_externalize rel atts maxDataLen fuel cm w ttc = Ok (w', ttc') /\ evolves rel atts lvs cm w ttc w' ttc' /\
    (reltoastrelid rel <> InvalidOid ->
     Z.of_nat (length (layout w' atts (ttc_values ttc') 0)) <= maxDataLen \/ all_out cm ttc') /\
    (Z.of_nat (length (layout w atts (ttc_values ttc) 0)) <= maxDataLen -> w' = w /\ ttc' = ttc).
Proof.
  intros He. revert w ttc. induction fuel as [|fuel IH]; intros w ttc H Ht Hfuel; [lia|]. cbn [round_externalize].
  rewrite (too_long_ok w atts maxDataLen ttc lvs He H). cbn [mbind result_bind].
  destruct (_ >? maxDataLen) eqn:Elong; rewrite Z.gtb_ltb in Elong; zbool; cbn [andb].
  2: { eexists _, _; split; [done|]. split; [by apply evolves_refl|]. split; [by left|done]. }
  destruct (reltoastrelid rel =? InvalidOid) eqn:Er; cbn [negb]; zbool.
  { eexists _, _; split; [done|]. split; [by apply evolves_refl|]. split; [done|lia]. }
  unfold toast_tuple_find_biggest_attribute.
  destruct (find_biggest_spec false cm atts (ttc_values ttc) (ttc_attr ttc) 0 (-1) (MAXALIGN TOAST_POINTER_SIZE))
    as [[-> Hall]|(j & et & v & info & -> & H1 & H2 & H3 & Hc & Hs)].
  { eexists _, _; split; [done|]. split; [by apply evolves_refl|]. split; [|lia]. intros _. right. intros j et v info.
    change 24 with (MAXALIGN TOAST_POINTER_SIZE). apply Hall. }
  rewrite Z.add_0_l. replace (Z.of_nat j <? 0) with false by (symmetry; apply Z.ltb_ge; lia).
  change (MAXALIGN TOAST_POINTER_SIZE) with 24 in Hs.
  destruct (ctx_lookup _ _ _ _ j et H H1) as (v' & info' & lv & E1 & E2 & Hlv & Ha).
  assert (v' = v) by congruence. assert (info' = info) by congruence. subst v' info'.
  destruct (candidate_inline _ _ _ _ _ _ _ Ha Hc) as (Hig0 & Hst & _ & p & data & -> & -> & Hb & Hl & Hd & Hf & Hsz & _).
  destruct (inline_size data p (data_ok_fits _ Hd) Hf) as [_ HE].
  destruct (externalize_ok w rel atts ttc lvs cm j et p info data) as (w' & tp & info2 & fl2 & -> & Hev & Hig2 & _); try done.
  { apply (inline_nonempty data p); [done|lia]. }
  cbn [mbind result_bind]. edestruct (IH w') as (w'' & ttc'' & E & Hev' & Hout & _); [apply Hev|apply Hev| |].
  { eapply Nat.lt_le_trans; [eapply cands_decrease; try done; rewrite is_candidate_spec, Hig2; done|lia]. }
  exists w'', ttc''. split; [done|]. split; [by eapply evolves_trans|]. split; [done|lia].
Qed.

Lemma round3_ok fuel w ttc :
  Forall elem_ok atts -> ctx_inv w atts ttc lvs -> table_inv w rel ttc lvs -> (cands true true atts ttc < fuel)%nat ->
  exists ttc', round3 atts maxDataLen fuel w ttc = Ok ttc' /\ evolves rel atts lvs true w ttc w ttc' /\
    (Z.of_nat (length (layout w atts (ttc_values ttc) 0)) <= maxDataLen -> ttc' = ttc).
Proof.
  intros He. revert ttc. induction fuel as [|fuel IH]; intros ttc H Ht Hfuel; [lia|]. cbn [round3].
  rewrite (too_long_ok w atts maxDataLen ttc lvs He H). cbn [mbind result_bind].
  destruct (_ >? maxDataLen) eqn:Elong; rewrite Z.gtb_ltb in Elong; zbool; [|eexists; split; [done|]; split; [by apply evolves_refl|done]].
  unfold toast_tuple_find_biggest_attribute.
  destruct (find_biggest_spec true true atts (ttc_values ttc) (ttc_attr ttc) 0 (-1) (MAXALIGN TOAST_POINTER_SIZE))
    as [[-> _]|(j & et & v & info & -> & H1 & H2 & H3 & Hc & Hs)]; [eexists; split; [done|]; split; [by apply evolves_refl|lia]|].
  rewrite Z.add_0_l. replace (Z.of_nat j <? 0) with false by (symmetry; apply Z.ltb_ge; lia).
  destruct (ctx_lookup _ _ _ _ j et H H1) as (v' & info' & lv & E1 & E2 & Hlv & Ha).
  destruct (compression_step w rel atts ttc lvs true j et v info lv H Ht H1 H2 H3 Hlv Hc) as (p & info1 & fl & -> & Hev & _ & _ & Hno).
  cbn [mbind result_bind]. edestruct IH as (ttc'' & E & Hev' & _); [apply Hev|apply Hev| |].
  { eapply Nat.lt_le_trans; [by apply (cands_decrease _ _ w atts ttc lvs j et v info)|lia]. }
  exists ttc''. split; [done|]. split; [by eapply evolves_trans|lia].
Qed.

End Round1.
