(* ===== verification/ToastTupleInsert.v ===== *)
(** * Toasting a tuple: the parts put together

    The preparation of the context, the four rounds one after the other, the
    deletion of old values, and the new tuple. *)

From stdpp Require Import gmap.
From S2P Require Import Prelude Varlena PgLz PgLzTheorems Toast ToastInline ToastTable ToastStore.
From S2P Require Import HeapTuple HeapTupleFill HeapTupleProofs HeapTupleRead ToastTuple ToastTupleInv ToastTupleRounds.
From S2P Require Import HeapTupleTheorems.

(** ** Preparation *)

(** Every attribute stands for its logical value. *)
Definition represents_all (w : World) (atts : list ElemType) (values : list (option Datum)) (lvs : list Lval) : Prop :=
  length values = length atts /\ length lvs = length atts /\
  forall i et v lv, atts !! i = Some et -> values !! i = Some v -> lvs !! i = Some lv -> represents w et v lv.

Lemma represents_all_cons w et atts v values lv lvs :
  represents_all w (et :: atts) (v :: values) (lv :: lvs) -> represents w et v lv /\ represents_all w atts values lvs.
Proof.
  intros (H1 & H2 & H3). cbn [length] in *. split; [by apply (H3 O)|]. split_and!; [lia|lia|]. intros i. apply (H3 (S i)).
Qed.

Lemma detoast_external_attr_ok w data c tp :
  external_value w data c tp -> exists p, detoast_external_attr w (toast_pointer_datum tp) = Ok p /\ inline_form data p.
Proof.
  intros (d & Hsv & Hs & Hr). destruct (toast_pointer_facts tp (sv_pointer _ _ _ Hsv)) as (E1 & E2 & _).
  unfold detoast_external_attr, detoast_external_direct. rewrite E1, E2, (toast_fetch_ok w tp d Hsv). eexists. split; [done|].
  unfold finish_fetch. rewrite (external_compressed w data c tp d Hsv Hs Hr). unfold stored_as in Hs. destruct c.
  - destruct Hs as (c & -> & He & Hc).
    replace (varlena_c _ _) with (comp_form data c) by (unfold comp_form; rewrite length_comp_data; f_equal; lia). by constructor.
  - subst d. constructor.
Qed.

(** Is the old value to be deleted? *)
Definition deletes_old (et : ElemType) (v : option Datum) (old : option (option Datum)) : bool :=
  match old with Some o => bool_decide (old_external et v o = Some true) | None => false end.

Lemma init_value_ok w et v lv cf fl :
  Z.testbit cf 4 = false -> represents w et v lv ->
  exists v' info fl', init_value w et v cf fl = Ok (v', info, fl') /\ att_inv w et v' info lv /\
    Z.testbit fl' 2 = Z.testbit fl 2 || bool_decide (v = None) /\ Z.testbit fl' 0 = Z.testbit fl 0 /\
    (Z.testbit fl' 3 = false -> Z.testbit fl 3 = false /\ v' = v) /\ Z.testbit (tai_colflags info) 0 = Z.testbit cf 0 /\
    (typlen et = -1 -> VARATT_IS_EXTERNAL (value_ptr v') = false).
Proof.
  intros Hcf Hr. unfold init_value. destruct Hr as [|d Hl Hd|p data Hb Hl Hd Hf].
  - eexists _, _, _. split; [done|]. cbn [tai_colflags]. rewrite !Z.lor_spec. cbn. rewrite !orb_false_r, orb_true_r. split_and!; try done.
    constructor. unfold ignored. cbn [tai_colflags]. by rewrite Z.lor_spec, orb_true_r.
  - apply Z.eqb_neq in Hl as Hl'. rewrite Hl'. eexists _, _, _. split; [done|]. cbn [tai_colflags]. rewrite Z.lor_spec. cbn. rewrite !orb_false_r.
    split_and!; try done. constructor; try done. unfold ignored. cbn [tai_colflags]. by rewrite Z.lor_spec, orb_true_r.
  - rewrite Hl. change (-1 =? -1) with true. cbn [DatumGetPointer]. cbv iota zeta. set (pl := bool_decide _).
    set (cf' := if pl then Z.lor cf TOASTCOL_IGNORE else cf).
    assert (Hc4 : Z.testbit cf' 4 = pl) by (subst cf'; destruct pl; [by rewrite Z.lor_spec, orb_true_r|done]).
    assert (Hc0 : Z.testbit cf' 0 = Z.testbit cf 0) by (subst cf'; destruct pl; [by rewrite Z.lor_spec, orb_false_r|done]).
    pose proof (data_ok_fits _ Hd) as Hfit. destruct Hf as [p Hp|c tp Hx Hpos].
    + destruct (inline_size data p Hfit Hp) as [Hs HE]. unfold VARATT_IS_EXTERNAL. rewrite HE. eexists _, _, _. split; [done|].
      rewrite orb_false_r. split_and!; try done. by apply A_inline.
    + change (VARATT_IS_EXTERNAL (toast_pointer_datum tp)) with true. cbv iota.
      assert (Hfetch : exists q, (if pl then Toast.detoast_attr w (toast_pointer_datum tp) else detoast_external_attr w (toast_pointer_datum tp)) = Ok q /\ inline_form data q).
      { destruct pl; [|by eapply detoast_external_attr_ok]. exists (plain data). split; [by eapply detoast_external|constructor]. }
      destruct Hfetch as (q & -> & Hq). cbn [mbind result_bind]. destruct (inline_size data q Hfit Hq) as [Hs HEq].
      eexists _, _, _. split; [done|]. cbn [tai_colflags]. rewrite !Z.lor_spec. cbn [orb]. cbn. rewrite !orb_false_r, orb_true_r. split_and!; try done.
      apply A_inline; try done. unfold ignored. cbn [tai_colflags]. rewrite Z.lor_spec, Hc4. cbn. by rewrite orb_false_r.
Qed.

(** Does the new tuple keep the old value? *)
Definition keeps_old (et : ElemType) (v : option Datum) (old : option (option Datum)) : bool :=
  match old with Some o => bool_decide (old_external et v o = Some false) | None => false end.

Lemma init_attr_ok w et v lv old fl :
  represents w et v lv ->
  exists v' info fl', init_attr w et v old fl = Ok (v', info, fl') /\ att_inv w et v' info lv /\
    Z.testbit fl' 2 = Z.testbit fl 2 || bool_decide (v = None) /\ Z.testbit fl' 0 = Z.testbit fl 0 || deletes_old et v old /\
    (Z.testbit fl' 3 = false -> Z.testbit fl 3 = false /\ v' = v) /\ Z.testbit (tai_colflags info) 0 = deletes_old et v old /\
    (typlen et = -1 -> VARATT_IS_EXTERNAL (value_ptr v') = true -> v' = v /\ keeps_old et v old = true).
Proof.
  intros Hr. unfold init_attr, deletes_old, keeps_old. destruct old as [o|].
  2: { destruct (init_value_ok w et v lv 0 fl ltac:(done) Hr) as (v' & info & fl' & E & Ha & F2 & F0 & F3 & C0 & Hx). exists v', info, fl'.
       rewrite E, F0, C0, orb_false_r. split_and!; try done. intros Hl. by rewrite Hx. }
  destruct (old_external et v o) as [[]|] eqn:Eo.
  - destruct (init_value_ok w et v lv TOASTCOL_NEEDS_DELETE_OLD (Z.lor fl TOAST_NEEDS_DELETE_OLD) ltac:(done) Hr) as (v' & info & fl' & E & Ha & F2 & F0 & F3 & C0 & Hx).
    change (bool_decide (Some true = Some true)) with true. exists v', info, fl'. rewrite E, F0, C0. rewrite Z.lor_spec in F2, F3 |- *. cbn in F2, F3 |- *.
    rewrite orb_false_r in F2, F3. split_and!; try done. intros Hl. by rewrite Hx.
  - change (bool_decide (Some false = Some true)) with false. unfold old_external in Eo. destruct o as [o|]; [|done].
    destruct ((typlen et =? -1) && VARATT_IS_EXTERNAL_ONDISK (DatumGetPointer o)) eqn:E1; [|done]. injection Eo as Eo.
    apply orb_false_iff in Eo as [Eo _]. apply orb_false_iff in Eo as [En Eo]. apply andb_true_iff in E1 as [El _]. zbool.
    destruct Hr as [|d Hl Hd|p data Hb Hl Hd Hf]; [done|done|]. cbn [value_ptr DatumGetPointer] in Eo. apply negb_false_iff in Eo.
    eexists _, _, fl. split; [done|]. rewrite !orb_false_r. split_and!; try done.
    destruct Hf as [p Hp|c tp Hx Hpos].
    + destruct (inline_size data p (data_ok_fits _ Hd) Hp) as [_ HE]. unfold VARATT_IS_EXTERNAL_ONDISK, VARATT_IS_EXTERNAL in Eo. by rewrite HE in Eo.
    + by eapply A_saved.
  - change (bool_decide (None = Some true)) with false. destruct (init_value_ok w et v lv 0 fl ltac:(done) Hr) as (v' & info & fl' & E & Ha & F2 & F0 & F3 & C0 & Hx).
    exists v', info, fl'. rewrite E, F0, C0, orb_false_r. split_and!; try done. intros Hl. by rewrite Hx.
Qed.

(** The attributes whose old values are deleted. *)
Definition deleted_at (atts : list ElemType) (values : list (option Datum)) (olds : option (list (option Datum))) (i : nat) : bool :=
  match atts !! i, values !! i with Some et, Some v => deletes_old et v (old_value olds i) | _, _ => false end.

Lemma init_loop_ok w atts values lvs olds k fl :
  represents_all w atts values lvs ->
  exists values' infos fl', init_loop w atts values olds k fl = Ok (values', infos, fl') /\
    ctx_inv w atts (mkTtc values' fl' infos) lvs /\
    Z.testbit fl' 2 = Z.testbit fl 2 || has_null values /\
    (Z.testbit fl' 3 = false -> Z.testbit fl 3 = false /\ values' = values) /\
    (forall i et v info, atts !! i = Some et -> values !! i = Some v -> infos !! i = Some info ->
       Z.testbit (tai_colflags info) 0 = deletes_old et v (old_value olds (k + i))) /\
    (forall i et v v', atts !! i = Some et -> values !! i = Some v -> values' !! i = Some v' -> typlen et = -1 ->
       VARATT_IS_EXTERNAL (value_ptr v') = true -> v' = v /\ keeps_old et v (old_value olds (k + i)) = true) /\
    (Z.testbit fl' 0 = false -> Z.testbit fl 0 = false /\ forall i info, infos !! i = Some info -> Z.testbit (tai_colflags info) 0 = false) /\
    (olds = None -> Z.testbit fl' 0 = Z.testbit fl 0).
Proof.
  revert values lvs k fl. induction atts as [|et atts IH]; intros values lvs k fl Hr.
  { destruct Hr as (H1 & H2 & _). destruct values; [|done]. destruct lvs; [|done]. eexists [], [], fl. cbn. rewrite orb_false_r. split_and!; try done. }
  pose proof Hr as (L1 & L2 & _). destruct values as [|v values]; [done|]. destruct lvs as [|lv lvs]; [done|].
  apply represents_all_cons in Hr as [Hr Hrs]. cbn [init_loop].
  destruct (init_attr_ok w et v lv (old_value olds k) fl Hr) as (v' & info & fl1 & E & Ha & F2 & F0 & F3 & C0 & Hk). rewrite E. cbn [mbind result_bind].
  destruct (IH values lvs (S k) fl1 Hrs) as (values' & infos & fl' & E' & [C1 C2 C3 C4] & G2 & G3 & GC & GK & G0 & GI). rewrite E'. cbn [mbind result_bind].
  eexists _, _, fl'. split; [done|]. cbn [ttc_values ttc_attr] in *. split_and!.
  - split; cbn [ttc_values ttc_attr length]; try lia. intros [|i] et' v0 info0 lv0 H1 H2 H3 H4; [|by eapply (C4 i)].
    injection H1 as <-. injection H2 as <-. injection H3 as <-. injection H4 as <-. done.
  - rewrite G2, F2. unfold has_null. cbn [existsb]. by rewrite orb_assoc.
  - intros Hf. destruct (G3 Hf) as [Hf1 ->]. destruct (F3 Hf1) as [Hf0 ->]. done.
  - intros [|i] et' v0 info0 H1 H2 H3.
    + injection H1 as <-. injection H2 as <-. injection H3 as <-. by rewrite Nat.add_0_r.
    + replace (k + S i)%nat with (S k + i)%nat by lia. by eapply (GC i).
  - intros [|i] et' v0 v1 H1 H2 H3.
    + injection H1 as <-. injection H2 as <-. injection H3 as <-. by rewrite Nat.add_0_r.
    + replace (k + S i)%nat with (S k + i)%nat by lia. by eapply (GK i).
  - intros Hf. destruct (G0 Hf) as [Hf1 Hall]. rewrite F0 in Hf1. apply orb_false_iff in Hf1 as [Hf0 Hdel]. split; [done|].
    intros [|i] info0 Hi; [|by apply (Hall i)]. injection Hi as <-. congruence.
  - intros ->. rewrite GI by done. rewrite F0. cbn. by rewrite orb_false_r.
Qed.

(** ** The rounds *)

Lemma cands_bound fc cm w atts ttc lvs : ctx_inv w atts ttc lvs -> (cands fc cm atts ttc < S (length atts))%nat.
Proof.
  intros H. unfold cands. pose proof (count_le (candidates fc cm atts (ttc_values ttc) (ttc_attr ttc))).
  rewrite length_candidates in H0 by apply H. lia.
Qed.

(** Rounds on MAIN attributes leave the others out of line. *)
Lemma all_out_kept rel atts lvs w ttc w' ttc' :
  evolves rel atts lvs true w ttc w' ttc' -> all_out atts false ttc -> all_out atts false ttc'.
Proof.
  intros Hev Ho j et v info Hj Hv Hi Hc. destruct (storage_ok true et) eqn:Es.
  - exfalso. rewrite is_candidate_spec in Hc. apply andb_true_iff in Hc as [_ Hc]. cbn in Hc, Es. apply bool_decide_eq_true in Es. rewrite Es in Hc. done.
  - destruct (ev_untouched _ _ _ _ _ _ _ _ Hev j et Hj Es) as [E1 E2]. rewrite E1 in Hv. rewrite E2 in Hi. by eapply Ho.
Qed.

(** What several rounds do, whatever the storage. *)
Record toasts (rel : Relation) (atts : list ElemType) (lvs : list Lval) (w : World) (ttc : ToastTupleContext) (w' : World) (ttc' : ToastTupleContext) : Prop := {
  to_grows : grows w w';
  to_ctx : ctx_inv w' atts ttc' lvs;
  to_table : table_inv w' rel ttc' lvs;
  to_nulls : Z.testbit (ttc_flags ttc') 2 = Z.testbit (ttc_flags ttc) 2;
  to_delete : Z.testbit (ttc_flags ttc') 0 = Z.testbit (ttc_flags ttc) 0;
  to_change : Z.testbit (ttc_flags ttc') 3 = false -> Z.testbit (ttc_flags ttc) 3 = false /\ ttc_values ttc' = ttc_values ttc /\ w' = w;
  to_coldelete : forall i info, ttc_attr ttc !! i = Some info ->
    exists info', ttc_attr ttc' !! i = Some info' /\ Z.testbit (tai_colflags info') 0 = Z.testbit (tai_colflags info) 0;
  to_values : Forall2 (value_step w w') (ttc_values ttc) (ttc_values ttc')
}.

Lemma evolves_toasts rel atts lvs cm w ttc w' ttc' : evolves rel atts lvs cm w ttc w' ttc' -> toasts rel atts lvs w ttc w' ttc'.
Proof. intros []. by split. Qed.

Lemma toasts_trans rel atts lvs w1 t1 w2 t2 w3 t3 :
  toasts rel atts lvs w1 t1 w2 t2 -> toasts rel atts lvs w2 t2 w3 t3 -> toasts rel atts lvs w1 t1 w3 t3.
Proof.
  intros [A1 A2 A3 A4 A5 A6 A7 A8] [B1 B2 B3 B4 B5 B6 B7 B8]. split; try done; try congruence.
  - by eapply grows_trans.
  - intros H. destruct (B6 H) as (H1 & H2 & H3). destruct (A6 H1) as (H4 & H5 & H6). split_and!; congruence.
  - intros i info Hi. destruct (A7 i info Hi) as (info' & Hi' & E'). destruct (B7 i info' Hi') as (info'' & Hi'' & E''). exists info''. split; congruence.
  - by eapply value_steps_trans.
Qed.

(** The target of the last round, when the header leaves room. *)
Definition data_fits (w : World) (atts : list ElemType) (hoff : Z) (ttc : ToastTupleContext) : Prop :=
  hoff + Z.of_nat (length (layout w atts (ttc_values ttc) 0)) <= TOAST_TUPLE_TARGET_MAIN.

Lemma toast_rounds_ok w rel hoff ttc lvs :
  let atts := td_types (rd_att rel) in
  let target := RelationGetToastTupleTarget rel TOAST_TUPLE_TARGET in
  Forall elem_ok atts -> ctx_inv w atts ttc lvs -> table_inv w (hr_rel rel) ttc lvs ->
  0 <= hoff -> hoff <= target <= TOAST_TUPLE_TARGET_MAIN ->
  exists w' ttc', toast_rounds w rel hoff ttc = Ok (w', ttc') /\ toasts (hr_rel rel) atts lvs w ttc w' ttc' /\
    (reltoastrelid (hr_rel rel) <> InvalidOid ->
     data_fits w' atts hoff ttc' \/ all_out atts false ttc' /\ all_out atts true ttc').
Proof.
  intros atts target He H Ht Hhoff Htarget. unfold toast_rounds. fold atts target.
  assert (Hmain : TOAST_TUPLE_TARGET_MAIN < 2 ^ 64) by done.
  rewrite !uwrap_small by (unfold in_uint; lia).
  destruct (round1_ok (hr_rel rel) atts (target - hoff) lvs (S (length atts)) w ttc He H Ht (cands_bound _ _ _ _ _ _ H)) as (w1 & t1 & -> & Ev1).
  cbn [mbind result_bind]. pose proof (ev_ctx _ _ _ _ _ _ _ _ Ev1) as C1. pose proof (ev_table _ _ _ _ _ _ _ _ Ev1) as T1.
  destruct (round_externalize_ok (hr_rel rel) atts (target - hoff) lvs false (S (length atts)) w1 t1 He C1 T1 (cands_bound _ _ _ _ _ _ C1))
    as (w2 & t2 & -> & Ev2 & Ho2 & _).
  cbn [mbind result_bind]. pose proof (ev_ctx _ _ _ _ _ _ _ _ Ev2) as C2. pose proof (ev_table _ _ _ _ _ _ _ _ Ev2) as T2.
  destruct (round3_ok (hr_rel rel) atts (target - hoff) lvs (S (length atts)) w2 t2 He C2 T2 (cands_bound _ _ _ _ _ _ C2)) as (t3 & -> & Ev3 & Hs3).
  cbn [mbind result_bind]. pose proof (ev_ctx _ _ _ _ _ _ _ _ Ev3) as C3. pose proof (ev_table _ _ _ _ _ _ _ _ Ev3) as T3.
  destruct (round_externalize_ok (hr_rel rel) atts (TOAST_TUPLE_TARGET_MAIN - hoff) lvs true (S (length atts)) w2 t3 He C3 T3 (cands_bound _ _ _ _ _ _ C3))
    as (w4 & t4 & -> & Ev4 & Ho4 & Hs4).
  exists w4, t4. split; [done|]. split.
  { eapply toasts_trans; [by eapply evolves_toasts|]. eapply toasts_trans; [by eapply evolves_toasts|].
    eapply toasts_trans; by eapply evolves_toasts. }
  intros Hrel. destruct (Ho2 Hrel) as [Hfit|Hout].
  - left. specialize (Hs3 Hfit). subst t3. destruct (Hs4 ltac:(lia)) as [-> ->]. unfold data_fits. lia.
  - destruct (Ho4 Hrel) as [Hfit|Hout4]; [left; unfold data_fits; lia|]. right. split; [|done].
    eapply all_out_kept; [exact Ev4|]. by eapply all_out_kept.
Qed.

(** ** Deleting the values of an old tuple

    [toast_tuple_cleanup] deletes the out-of-line values that an UPDATE does
    not keep, and [toast_delete_external] those of a deleted tuple. *)

(** ** One value *)

(** All chunks of a value have the state that deletion leaves. *)
Definition gone_value (b : bool) (w : World) (tp : varatt_external) : Prop :=
  exists r, toast_rels w !! va_toastrelid tp = Some r /\
    forall tid row, rd_rows r !! tid = Some row -> chunk_id row = va_valueid tp -> row_state row = gone b.

(** What deleting values does to a world; [D] says which. *)
Record deletes (b : bool) (D : varatt_external -> Prop) (w w' : World) : Prop := {
  dl_objects : objects w' = objects w;
  dl_expanded : expanded w' = expanded w;
  dl_keeps : b = false -> keeps w w';
  dl_live : forall tq, live_value w tq -> (forall tp, D tp -> toast_key tq <> toast_key tp) -> live_value w' tq;
  dl_gone : forall tq, gone_value b w tq -> gone_value b w' tq;
  dl_done : forall tp, D tp -> gone_value b w' tp
}.

Lemma deletes_nothing b w : deletes b (fun _ => False) w w.
Proof. by split. Qed.

Lemma deletes_weaken b (D D' : varatt_external -> Prop) w w' : (forall tp, D tp <-> D' tp) -> deletes b D w w' -> deletes b D' w w'.
Proof.
  intros H [A1 A2 A3 A4 A5 A6]. split; try done.
  - intros tq Hq Hd. apply A4; [done|]. intros tp Hp. by apply Hd, H.
  - intros tp Hp. by apply A6, H.
Qed.

Lemma deletes_trans b (D1 D2 : varatt_external -> Prop) w1 w2 w3 : deletes b D1 w1 w2 -> deletes b D2 w2 w3 -> deletes b (fun tp => D1 tp \/ D2 tp) w1 w3.
Proof.
  intros [A1 A2 A3 A4 A5 A6] [B1 B2 B3 B4 B5 B6]. split; try congruence.
  - intros Hb. eapply keeps_trans; [by apply A3|by apply B3].
  - intros tq Hq Hd. apply B4; [apply A4; [done|]|]; intros tp Hp; apply Hd; tauto.
  - intros tq Hq. by apply B5, A5.
  - intros tp [Hp|Hp]; [by apply B5, A6|by apply B6].
Qed.

Lemma mark_spec v st row : chunk_id (mark v st row) = chunk_id row /\ row_state (mark v st row) = (if chunk_id row =? v then st else row_state row).
Proof. unfold mark. by destruct (chunk_id row =? v). Qed.

Lemma delete_one_ok b w tp :
  live_value w tp -> exists w', toast_delete_datum w (toast_pointer_datum tp) b = Ok w' /\ deletes b (fun tq => tq = tp) w w'.
Proof.
  intros (Hp & Hsn & r & idx & Hr & Hok & Hin & Hlive).
  pose proof (mark_rel_ok r idx (va_valueid tp) (gone b) Hok) as Hok'.
  eexists. split; [by apply (toast_delete_ok w tp r idx b)|]. set (r' := mkToastRel _ _ _ _) in *.
  assert (Hrow : forall tid row', rd_rows r' !! tid = Some row' -> exists row, rd_rows r !! tid = Some row /\ row' = mark (va_valueid tp) (gone b) row).
  { intros tid row'. cbn [rd_rows r']. rewrite list_lookup_fmap. intros H. by apply fmap_Some in H. }
  assert (Hw' : toast_rels (set_rel w (va_toastrelid tp) r') = <[va_toastrelid tp := r']> (toast_rels w)) by done.
  set (w' := set_rel _ _ _) in *. split; [done|done| | | |].
  - intros ->. split; [done|done|]. intros data c tq (d & [Hpq Hs Hsnq (r0 & idx0 & Hr0 & Hok0 & Hst)] & Hsa & Hraw) _.
    exists d. split_and!; try done. split; try done. rewrite Hw'.
    destruct (decide (va_toastrelid tq = va_toastrelid tp)) as [E|Hne]; [|rewrite lookup_insert_ne by done; by exists r0, idx0].
    rewrite E in *. rewrite lookup_insert_eq. assert (r0 = r) by congruence. subst r0. exists r', idx0.
    assert (idx0 = idx) by (pose proof (ro_valid _ _ Hok0); pose proof (ro_valid _ _ Hok); congruence). subst idx0.
    split_and!; try done. destruct Hst as (tid & row & Hf & Hrows). exists tid, (fun i => mark (va_valueid tp) RowDeleted (row i)). split; [done|].
    intros i Hi. destruct (Hrows i Hi) as (H1 & H2 & H3 & H4). cbn [rd_rows r' gone]. rewrite list_lookup_fmap, H1. split; [done|].
    unfold mark. destruct (chunk_id (row i) =? va_valueid tp); done.
  - intros tq (Hpq & _ & rq & iq & Hrq & Hokq & Hinq & Hlq) Hd. split; [done|]. split; [done|]. rewrite Hw'.
    destruct (decide (va_toastrelid tq = va_toastrelid tp)) as [E|Hne]; [|rewrite lookup_insert_ne by done; by exists rq, iq].
    rewrite E in *. rewrite lookup_insert_eq. assert (rq = r) by congruence. subst rq. exists r', iq.
    assert (iq = idx) by (pose proof (ro_valid _ _ Hokq); pose proof (ro_valid _ _ Hok); congruence). subst iq.
    split_and!; try done. intros tid row' Hrow'. apply Hrow in Hrow' as (row & Hrow' & ->).
    destruct (mark_spec (va_valueid tp) (gone b) row) as [-> ->]. intros Hid. destruct (Z.eqb_spec (chunk_id row) (va_valueid tp)) as [E2|_]; [|by eapply Hlq].
    exfalso. apply (Hd tp eq_refl). unfold toast_key. congruence.
  - intros tq (rq & Hrq & Hgq). unfold gone_value. rewrite Hw'.
    destruct (decide (va_toastrelid tq = va_toastrelid tp)) as [E|Hne]; [|rewrite lookup_insert_ne by done; by exists rq].
    rewrite E in *. rewrite lookup_insert_eq. assert (rq = r) by congruence. subst rq. exists r'. split; [done|].
    intros tid row' Hrow'. apply Hrow in Hrow' as (row & Hrow' & ->). destruct (mark_spec (va_valueid tp) (gone b) row) as [-> ->].
    intros Hid. destruct (_ =? _); [done|by eapply Hgq].
  - intros tq ->. exists r'. rewrite Hw', lookup_insert_eq. split; [done|].
    intros tid row' Hrow'. apply Hrow in Hrow' as (row & Hrow' & ->). destruct (mark_spec (va_valueid tp) (gone b) row) as [-> ->].
    intros ->. by rewrite Z.eqb_refl.
Qed.

(** ** Many values *)

(** The value of an attribute that is out of line. *)
Definition pointer_of (et : ElemType) (v : option Datum) : option varatt_external :=
  match v with
  | Some d => if (typlen et =? -1) && VARATT_IS_EXTERNAL_ONDISK (DatumGetPointer d) then Some (VARATT_EXTERNAL_GET_POINTER (DatumGetPointer d)) else None
  | None => None
  end.

(** Deleting, one after the other, the values of a list that are all live and
    different. *)
Fixpoint delete_all (b : bool) (w : World) (tps : list (option varatt_external)) : result World :=
  match tps with
  | [] => Ok w
  | None :: tps' => delete_all b w tps'
  | Some tp :: tps' => w ← toast_delete_datum w (toast_pointer_datum tp) b; delete_all b w tps'
  end.

Definition live_list (w : World) (tps : list (option varatt_external)) : Prop :=
  forall i tp, tps !! i = Some (Some tp) -> live_value w tp /\ forall j tq, tps !! j = Some (Some tq) -> i <> j -> toast_key tp <> toast_key tq.

Lemma live_list_cons w o tps : live_list w (o :: tps) ->
  live_list w tps /\ forall tp, o = Some tp -> live_value w tp /\ forall j tq, tps !! j = Some (Some tq) -> toast_key tp <> toast_key tq.
Proof.
  intros H. split.
  - intros i tp Hi. destruct (H (S i) tp Hi) as [H1 H2]. split; [done|]. intros j tq Hj Hne. apply (H2 (S j)); [done|lia].
  - intros tp ->. destruct (H O tp eq_refl) as [H1 H2]. split; [done|]. intros j tq Hj. by apply (H2 (S j)).
Qed.

Lemma delete_all_ok b w tps :
  live_list w tps -> exists w', delete_all b w tps = Ok w' /\ deletes b (fun tp => exists i, tps !! i = Some (Some tp)) w w'.
Proof.
  revert w. induction tps as [|[tp|] tps IH]; intros w H; cbn [delete_all].
  - exists w. split; [done|]. eapply deletes_weaken; [|apply deletes_nothing]. intros tp. split; [done|]. by intros [i Hi].
  - apply live_list_cons in H as [H Htp]. destruct (Htp tp eq_refl) as [Hl Hne].
    destruct (delete_one_ok b w tp Hl) as (w1 & -> & D1). cbn [mbind result_bind]. destruct (IH w1) as (w2 & E & D2).
    { intros i tq Hi. destruct (H i tq Hi) as [H1 H2]. split; [|done]. apply (dl_live _ _ _ _ D1); [done|]. intros ? ->. intros E. by apply (Hne i tq Hi). }
    exists w2. split; [done|]. eapply deletes_weaken; [|by eapply deletes_trans]. intros tq. cbn. split.
    + intros [->|[i Hi]]; [by exists O|by exists (S i)].
    + intros [[|i] Hi]; [left; by injection Hi|right; by exists i].
  - apply live_list_cons in H as [H _]. destruct (IH w H) as (w' & E & D). exists w'. split; [done|]. eapply deletes_weaken; [|exact D].
    intros tp. split; [intros [i Hi]; by exists (S i)|]. intros [[|i] Hi]; [done|by exists i].
Qed.

(** ** The loops *)

(** What a value that is out of line looks like. *)
Lemma pointer_of_represents w et v lv tp :
  represents w et v lv -> pointer_of et v = Some tp ->
  v = Some (DPtr (toast_pointer_datum tp)) /\ typlen et = -1 /\ pointer_ok tp /\ exists data c, lv = LData data /\ external_value w data c tp /\ 0 < va_extsize tp.
Proof.
  intros Hr. unfold pointer_of. destruct Hr as [|d Hl Hd|p data Hb Hl Hd Hf]; [done| |].
  - apply Z.eqb_neq in Hl. by rewrite Hl.
  - rewrite Hl. change (-1 =? -1) with true. cbn [andb DatumGetPointer]. destruct Hf as [p Hp|c tq Hx Hpos].
    + destruct (inline_size data p (data_ok_fits _ Hd) Hp) as [_ HE]. unfold VARATT_IS_EXTERNAL_ONDISK, VARATT_IS_EXTERNAL. by rewrite HE.
    + pose proof Hx as (d & Hsv & _). pose proof (sv_pointer _ _ _ Hsv) as Hok. destruct (toast_pointer_facts tq Hok) as (-> & _ & ->).
      intros [= <-]. split_and!; try done. by exists data, c.
Qed.

Lemma pointer_of_saved et tp : typlen et = -1 -> pointer_ok tp -> pointer_of et (Some (DPtr (toast_pointer_datum tp))) = Some tp.
Proof. intros Hl Hp. unfold pointer_of. rewrite Hl. cbn [DatumGetPointer]. destruct (toast_pointer_facts tp Hp) as (-> & _ & ->). done. Qed.

Lemma toast_delete_external_all b w0 w atts values lvs :
  represents_all w0 atts values lvs -> toast_delete_external w atts values b = delete_all b w (zip_with pointer_of atts values).
Proof.
  revert w values lvs. induction atts as [|et atts IH]; intros w values lvs Hr; [done|].
  pose proof Hr as (L1 & L2 & _). destruct values as [|v values]; [done|]. destruct lvs as [|lv lvs]; [done|].
  apply represents_all_cons in Hr as [Hr Hrs]. cbn [toast_delete_external zip_with delete_all].
  assert (E : (if typlen et =? -1 then match v with Some d => if VARATT_IS_EXTERNAL_ONDISK (DatumGetPointer d) then toast_delete_datum w (DatumGetPointer d) b else Ok w | None => Ok w end else Ok w)
    = match pointer_of et v with Some tp => toast_delete_datum w (toast_pointer_datum tp) b | None => Ok w end).
  { destruct (pointer_of et v) as [tp|] eqn:Ep.
    - destruct (pointer_of_represents _ _ _ _ _ Hr Ep) as (-> & Hl & Hok & _). rewrite Hl. cbn [DatumGetPointer].
      by destruct (toast_pointer_facts tp Hok) as (-> & _ & _).
    - unfold pointer_of in Ep. destruct (typlen et =? -1); [|done]. destruct v as [d|]; [|done]. cbn [andb] in Ep. by destruct (VARATT_IS_EXTERNAL_ONDISK _). }
  rewrite E. destruct (pointer_of et v); cbn [mbind result_bind]; [|by eapply IH].
  destruct (toast_delete_datum w _ b) as [w1|e]; cbn [mbind result_bind]; [by eapply IH|done].
Qed.

(** The old values that are to be deleted. *)
Definition victim (info : ToastAttrInfo) (tp : option varatt_external) : option varatt_external :=
  if Z.testbit (tai_colflags info) 0 then tp else None.

Lemma delete_old_all w0 w atts olds lvs infos :
  represents_all w0 atts olds lvs ->
  (forall i et old info, atts !! i = Some et -> olds !! i = Some old -> infos !! i = Some info ->
     Z.testbit (tai_colflags info) 0 = true -> is_Some (pointer_of et old)) ->
  length infos = length atts ->
  delete_old w infos olds = delete_all false w (zip_with victim infos (zip_with pointer_of atts olds)).
Proof.
  revert w olds lvs infos. induction atts as [|et atts IH]; intros w olds lvs infos Hr Hv Hlen; [by destruct infos|].
  pose proof Hr as (L1 & L2 & _). destruct olds as [|old olds]; [done|]. destruct lvs as [|lv lvs]; [done|]. destruct infos as [|info infos]; [done|].
  apply represents_all_cons in Hr as [Hr Hrs]. cbn [delete_old zip_with delete_all].
  assert (IH' : forall w1, delete_old w1 infos olds = delete_all false w1 (zip_with victim infos (zip_with pointer_of atts olds))).
  { intros w1. apply (IH w1 olds lvs); [done| |cbn in Hlen; lia]. intros i. apply (Hv (S i)). }
  change TOASTCOL_NEEDS_DELETE_OLD with (2 ^ 0). rewrite flag_clear, negb_involutive by lia. unfold victim at 1.
  destruct (Z.testbit (tai_colflags info) 0) eqn:Eb; cbn [mbind result_bind]; [|apply IH'].
  destruct (Hv O et old info eq_refl eq_refl eq_refl Eb) as [tp Ep]. rewrite Ep.
  destruct (pointer_of_represents _ _ _ _ _ Hr Ep) as (-> & _). cbn [value_ptr DatumGetPointer].
  destruct (toast_delete_datum w _ false) as [w1|e]; cbn [mbind result_bind]; [apply IH'|done].
Qed.

(** ** Is the old value kept? *)

Lemma toast_pointer_inj tp tq : pointer_ok tp -> pointer_ok tq -> toast_pointer_datum tp = toast_pointer_datum tq -> tp = tq.
Proof.
  intros Hp Hq E. destruct (toast_pointer_facts tp Hp) as (_ & _ & <-). destruct (toast_pointer_facts tq Hq) as (_ & _ & <-). by rewrite E.
Qed.

Lemma old_external_spec w et v lv old lo :
  represents w et v lv -> represents w et old lo ->
  old_external et v old = match pointer_of et old with Some _ => Some (negb (bool_decide (v = old))) | None => None end.
Proof.
  intros Hv Ho. destruct (pointer_of et old) as [tp|] eqn:Ep.
  - destruct (pointer_of_represents _ _ _ _ _ Ho Ep) as (-> & Hl & Hok & _). unfold old_external. rewrite Hl. cbn [DatumGetPointer].
    destruct (toast_pointer_facts tp Hok) as (-> & _ & _). change (-1 =? -1) with true. cbn [andb]. f_equal.
    destruct Hv as [|d Hld Hd|p data Hb _ Hd Hf]; [by rewrite bool_decide_eq_true_2|done|].
    rewrite (bool_decide_eq_false_2 (Some (DPtr p) = None)) by done. cbn [orb value_ptr DatumGetPointer].
    change (VARSIZE_EXTERNAL (toast_pointer_datum tp)) with 18.
    assert (H18 : forall tq, bytes_at (toast_pointer_datum tq) 0 18 = toast_pointer_datum tq) by done. rewrite H18.
    destruct Hf as [p Hp|c tq Hx Hpos].
    + destruct (inline_size data p (data_ok_fits _ Hd) Hp) as [_ HE]. unfold VARATT_IS_EXTERNAL_ONDISK, VARATT_IS_EXTERNAL. rewrite HE. cbn [andb negb orb].
      rewrite bool_decide_eq_false_2; [done|]. intros [= ->]. done.
    + change (VARATT_IS_EXTERNAL_ONDISK (toast_pointer_datum tq)) with true. cbn [negb orb]. rewrite H18. f_equal. apply bool_decide_ext. split; [by intros ->|].
      intros E. symmetry. exact (f_equal value_ptr E).
  - unfold pointer_of in Ep. unfold old_external. destruct old as [d|]; [|done]. by destruct (_ && _).
Qed.

(** ** The tuple that toasting makes

    Its size, its image and what is read from it. *)

(** ** The new tuple *)

(** At most what a value takes in a tuple. *)
Definition lval_size (et : ElemType) (lv : Lval) : Z :=
  match lv with
  | LNull => 0
  | LFixed d => 7 + Z.of_nat (length (stored_bytes et d))
  | LData data => 7 + Z.of_nat (length data) + 18
  end.

Fixpoint row_size (atts : list ElemType) (lvs : list Lval) : Z :=
  match atts, lvs with
  | et :: atts', lv :: lvs' => lval_size et lv + row_size atts' lvs'
  | _, _ => 0
  end.

Lemma stored_bytes_length et d : elem_ok et -> datum_ok et d ->
  length (stored_bytes et (stored_datum et d)) = length (stored_bytes et d).
Proof.
  intros He Hd. destruct (typbyval et) eqn:Hb.
  - unfold stored_bytes. by rewrite Hb, !length_le_bytes.
  - pose proof (stored_datum_idem et d He Hd) as E. unfold stored_datum in E. rewrite Hb in E. injection E as E.
    unfold stored_datum. by rewrite Hb, E.
Qed.

Lemma inline_length data p : inline_form data p -> Z.of_nat (length p) <= Z.of_nat (length data) + 4.
Proof.
  intros [|Hs|c He Hc].
  - rewrite length_plain. lia.
  - unfold short_form. cbn [length]. lia.
  - rewrite comp_form_length. unfold TOAST_COMPRESS_HDRSZ in Hc. lia.
Qed.

Lemma cell_size w et d lv :
  elem_ok et -> represents w et (Some d) lv -> 7 + Z.of_nat (length (cell_bytes w et d)) <= lval_size et lv.
Proof.
  intros He. inversion 1 as [|? Hl Hd|p data Hb Hl Hd Hf]; subst; cbn [lval_size].
  - unfold cell_bytes. rewrite datum_ok_expanded, stored_bytes_length by done. lia.
  - destruct Hf as [p Hp|c tp Hx Hpos].
    + pose proof (inline_length _ _ (inline_cell w et data p He Hb Hl (data_ok_fits _ Hd) Hp)). lia.
    + rewrite pointer_cell by done. change (length (toast_pointer_datum tp)) with 18%nat. lia.
Qed.

Lemma row_size_nonneg atts lvs : 0 <= row_size atts lvs.
Proof.
  revert lvs. induction atts as [|et atts IH]; intros [|lv lvs]; cbn [row_size]; try lia. specialize (IH lvs).
  destruct lv; cbn [lval_size]; lia.
Qed.

Lemma layout_bound w atts values lvs off :
  Forall elem_ok atts -> represents_all w atts values lvs -> Z.of_nat (length (layout w atts values off)) <= row_size atts lvs.
Proof.
  intros He. revert values lvs off. induction He as [|et atts He _ IH]; intros values lvs off Hr; [cbn; lia|].
  pose proof Hr as (L1 & L2 & _). destruct values as [|v values]; [done|]. destruct lvs as [|lv lvs]; [done|].
  apply represents_all_cons in Hr as [Hr Hrs]. cbn [row_size layout]. destruct v as [d|].
  - pose proof (cell_size w et d lv He Hr). pose proof (cell_off_bound et d off). rewrite !length_app, length_replicate.
    specialize (IH values lvs (cell_off et d off + Z.of_nat (length (cell_bytes w et d))) Hrs). lia.
  - specialize (IH values lvs off Hrs). assert (0 <= lval_size et lv) by (destruct lv; cbn; lia). lia.
Qed.

Lemma ctx_represents w atts ttc lvs : ctx_inv w atts ttc lvs -> represents_all w atts (ttc_values ttc) lvs.
Proof.
  intros H. split; [apply H|]. split; [apply H|]. intros i et v lv Hi Hv Hlv.
  destruct (ctx_lookup _ _ _ _ i et H Hi) as (v' & info & lv' & E1 & E2 & E3 & Ha). rewrite Hv in E1. rewrite Hlv in E3.
  injection E1 as <-. injection E3 as <-. by eapply att_inv_represents.
Qed.

Lemma natts_replaced im2 n : 0 <= n <= MaxTupleAttributeNumber -> Z.land (HeapTupleHeaderSetNatts im2 n) HEAP_NATTS_MASK = n.
Proof.
  intros H. unfold HeapTupleHeaderSetNatts, MaxTupleAttributeNumber in *. rewrite Z.land_lor_distr_l, <- Z.land_assoc.
  rewrite (Z.land_comm (Z.lnot _)), Z.land_lnot_diag, Z.land_0_r, Z.lor_0_l.
  change HEAP_NATTS_MASK with (Z.ones 11). rewrite Z.land_ones, Z.mod_small by lia. done.
Qed.

Lemma has_null_values w atts values lvs : represents_all w atts values lvs ->
  has_null values = existsb (fun lv => match lv with LNull => true | _ => false end) lvs.
Proof.
  unfold has_null. revert atts lvs. induction values as [|v values IH]; intros atts lvs Hr; pose proof Hr as (L1 & L2 & _).
  - destruct lvs; [done|]. cbn in *. lia.
  - destruct atts as [|et atts]; [done|]. destruct lvs as [|lv lvs]; [done|]. apply represents_all_cons in Hr as [Hr Hrs].
    cbn [existsb]. f_equal; [by destruct Hr|by apply (IH atts)].
Qed.

Lemma represents_values_ok w atts values lvs : Forall elem_ok atts -> represents_all w atts values lvs -> values_ok w atts values.
Proof.
  intros He (L1 & L2 & Hr). split; [done|]. apply Forall2_same_length_lookup_2; [done|]. intros i et v Hi Hv.
  destruct (lookup_lt_is_Some_2 lvs i) as [lv Hlv]; [pose proof (lookup_lt_Some _ _ _ Hi); lia|].
  destruct v as [d|]; [|done]. eapply represents_legal. by eapply Hr.
Qed.

(** A tuple filled anew is the image of its values, whatever masks and
    identity it takes over. *)
Lemma refill_ok w atts values lvs im :
  let hoff := MAXALIGN (SizeofHeapTupleHeader + (if has_null values then BITMAPLEN (Z.of_nat (length atts)) else 0)) in
  let L := Z.of_nat (length (layout w atts values 0)) in
  Forall elem_ok atts -> represents_all w atts values lvs -> Z.of_nat (length atts) <= MaxTupleAttributeNumber ->
  heap_compute_data_size w atts values = Ok L /\ SizeofHeapTupleHeader <= hoff <= 232 /\ L <= row_size atts lvs /\ hoff + L = tuple_size w atts values /\
  exists st, heap_fill_tuple w SizeofHeapTupleHeader atts values (replicate (Z.to_nat (hoff + L - SizeofHeapTupleHeader)) 0) hoff im (has_null values) = Ok st /\
    forall self oid choice ctid im2,
      tuple_image w atts values (mkTuple (hoff + L) self oid choice ctid (HeapTupleHeaderSetNatts im2 (Z.of_nat (length atts))) (f_infomask st) hoff (f_buf st)).
Proof.
  intros hoff L He Hr Hmax. pose proof (represents_values_ok w atts values lvs He Hr) as Hok. pose proof (layout_bound w atts values lvs 0 He Hr) as Hb. fold L in Hb.
  split; [unfold heap_compute_data_size; by rewrite compute_data_size_layout by done|].
  destruct (hoff_bounds SizeofHeapTupleHeader (Z.of_nat (length atts)) (has_null values) ltac:(lia) ltac:(done)) as (H0 & H1 & H2). fold hoff in H1, H2.
  split; [lia|]. split; [done|]. split; [done|].
  edestruct (heap_fill_tuple_image w SizeofHeapTupleHeader atts values hoff im (has_null values)
    (Z.to_nat (hoff + L - SizeofHeapTupleHeader))) as (st & bm & pad & E & Hbuf & Hpos & Him & Hbm); try done; [lia|unfold SizeofHeapTupleHeader in *; lia|].
  exists st. split; [done|]. intros self oid choice ctid im2.
  pose proof (fill_masks_bits w atts values (Z.land im (Z.lnot 7)) Hok) as (M0 & M1 & M2).
  rewrite !Z.land_spec in M0, M1, M2. cbn in M0, M1, M2. rewrite !andb_false_r in M0, M1, M2. cbn in M0, M1, M2. rewrite Him.
  set (tup := mkTuple _ _ _ _ _ _ _ _ _).
  destruct (image_of_buf w atts values tup bm pad 0) as [I1 _]; subst tup; cbn [t_hoff t_len t_bits t_infomask]; try done; try lia.
  - unfold HeapTupleHeaderGetNatts. cbn [t_infomask2]. apply natts_replaced. lia.
  - cbn [replicate]. by rewrite app_nil_r.
Qed.

(** The rebuilt tuple is the image of the changed values. *)
Lemma rebuild_tuple_ok w atts ttc lvs newtup :
  Forall elem_ok atts -> ctx_inv w atts ttc lvs -> Z.testbit (ttc_flags ttc) 2 = has_null (ttc_values ttc) ->
  Z.of_nat (length atts) <= MaxTupleAttributeNumber -> HEAPTUPLESIZE + 232 + row_size atts lvs <= MaxAllocSize ->
  exists tup, rebuild_tuple w atts ttc newtup = Ok tup /\ tuple_image w atts (ttc_values ttc) tup /\
    t_len tup = tuple_size w atts (ttc_values ttc) /\ t_self tup = t_self newtup /\ t_tableOid tup = t_tableOid newtup /\
    t_choice tup = t_choice newtup /\ t_ctid tup = t_ctid newtup.
Proof.
  intros He H Hn Hmax Hsize.
  destruct (refill_ok w atts (ttc_values ttc) lvs (t_infomask newtup) He (ctx_represents _ _ _ _ H) Hmax) as (Esz & B1 & B2 & Ets & st & Est & HI).
  unfold rebuild_tuple. assert (Hnull : negb (Z.land (ttc_flags ttc) TOAST_HAS_NULLS =? 0) = has_null (ttc_values ttc)).
  { rewrite <- Hn. change TOAST_HAS_NULLS with (2 ^ 2). by rewrite flag_clear, negb_involutive. }
  rewrite Hnull, Esz. cbn [mbind result_bind]. set (hoff := MAXALIGN _) in *. set (L := Z.of_nat (length (layout w atts (ttc_values ttc) 0))) in *.
  unfold palloc0. replace (_ >? _) with false by (symmetry; rewrite Z.gtb_ltb; apply Z.ltb_ge; lia). cbn [mbind result_bind]. rewrite Est. cbn [mbind result_bind].
  assert (HS : SizeofHeapTupleHeader = 23 /\ MaxAllocSize = 1073741823 /\ HEAPTUPLESIZE = 24) by done.
  rewrite !uwrap_small by (unfold in_uint; lia). eexists. split; [reflexivity|]. split; [apply HI|]. done.
Qed.

(** What is read from the tuple. *)
Lemma image_represents w td values tup lvs :
  desc_ok td -> tuple_image w (td_types td) values tup -> represents_all w (td_types td) values lvs ->
  exists row td', heap_deform_tuple tup td = (row, td') /\ represents_all w (td_types td) row lvs /\ row = read_back w (td_types td) values.
Proof.
  intros Hd HI (L1 & L2 & Hr). destruct (heap_deform_tuple_image w td _ _ _ HI Hd (desc_matches_self td)) as (td' & E & _).
  rewrite row_of_self in E. eexists _, td'. split; [exact E|]. split; [|done]. split; [unfold read_back; rewrite length_zip_with; lia|]. split; [done|].
  intros i et v lv Hi Hv Hlv. unfold read_back in Hv. rewrite lookup_zip_with, Hi in Hv.
  destruct (values !! i) as [u|] eqn:Eu; [|done]. cbn in Hv. injection Hv as <-. apply represents_cell; [|by eapply Hr].
  destruct HI as [[He _] _ _ _ _ _ _ _]. rewrite Forall_lookup in He. by eapply He.
Qed.

(** ** Read and stored again *)

Lemma inline_cell_cases w et data p :
  typbyval et = false -> typlen et = -1 -> fits data -> inline_form data p ->
  cell_bytes w et (DPtr p) = p \/ (cell_bytes w et (DPtr p) = short_form data /\ (length data <= 126)%nat /\ cell_short et (DPtr p) = true).
Proof.
  intros Hb Hl Hfit Hp. destruct (inline_size data p Hfit Hp) as [_ HE].
  unfold cell_bytes, cell_short, cell_expanded, stored_bytes, VARATT_IS_EXTERNAL_EXPANDED, VARATT_IS_EXTERNAL. cbn [DatumGetPointer].
  rewrite HE, Hb, Hl. cbn [andb]. rewrite andb_false_r. cbn [negb andb].
  destruct (stored_short et (DPtr p) && negb (VARATT_IS_1B p)) eqn:E; [|by left]. right. apply andb_true_iff in E as [E1 E2].
  destruct Hp as [|Hs|c Hen Hc].
  - destruct (plain_header data Hfit) as (_ & H1 & _ & HU & Hsz & Hda). unfold stored_short in E1. rewrite Hl in E1. cbn [DatumGetPointer] in E1. rewrite H1 in E1.
    cbn [orb] in E1. change (-1 =? -1) with true in E1. cbn [andb] in E1. pose proof E1 as E3. apply andb_true_iff in E1 as [_ E1]. apply can_make_short_4B in E1 as [_ E1]. rewrite Hsz, length_plain in E1. rewrite Hda.
    unfold VARATT_CONVERTED_SHORT_SIZE, VARHDRSZ, VARHDRSZ_SHORT. rewrite Hsz, length_plain.
    replace (Z.of_nat (length data) + 4 - 4 + 1) with (Z.of_nat (length data) + 1) by lia. split_and!; [done|lia|].
    unfold stored_short. rewrite Hl. cbn [DatumGetPointer]. rewrite H1. done.
  - destruct (short_header_facts data Hs) as (_ & H1 & _). by rewrite H1 in E2.
  - destruct (comp_header data c Hfit Hc) as [H1 _]. pose proof (header_class (comp_form data c)) as (HC & _ & _). destruct (HC H1) as (H2 & _ & HU).
    unfold stored_short, VARATT_CAN_MAKE_SHORT in E1. cbn [DatumGetPointer] in E1. rewrite H2, HU in E1. cbn [andb orb] in E1. by rewrite !andb_false_r in E1.
Qed.

Lemma cell_stable w et lv d :
  elem_ok et -> represents w et (Some d) lv ->
  cell_short et (cell_datum w et d) = cell_short et d /\ length (cell_bytes w et (cell_datum w et d)) = length (cell_bytes w et d).
Proof.
  intros He. inversion 1 as [|d' Hl Hd|p data Hb Hl Hd Hf]; subst; [rename d into d'|].
  - pose proof (stored_datum_ok et d' He Hd) as Hd2.
    assert (Hc : cell_datum w et d' = stored_datum et d').
    { unfold cell_datum, cell_bytes. rewrite datum_ok_expanded by done. unfold stored_datum. by destruct (typbyval et). }
    rewrite Hc. unfold cell_short, cell_bytes. rewrite !datum_ok_expanded by done. split; [|by apply stored_bytes_length].
    unfold stored_short. apply Z.eqb_neq in Hl. by rewrite Hl.
  - unfold cell_datum. rewrite Hb. destruct Hf as [p Hp|c tp Hx Hpos]; [|by rewrite !pointer_cell].
    pose proof (data_ok_fits _ Hd) as Hfit.
    destruct (inline_cell_cases w et data p Hb Hl Hfit Hp) as [E|(E & Hs & Hsh)]; [by rewrite !E|]. rewrite E, Hsh. destruct (short_header_facts data Hs) as (H1 & H2 & _).
    unfold cell_short, cell_bytes, cell_expanded, stored_bytes, stored_short, VARATT_IS_EXTERNAL_EXPANDED, VARATT_IS_EXTERNAL. cbn [DatumGetPointer].
    rewrite H1, H2, Hb, Hl. done.
Qed.

Lemma layout_stable w atts values lvs off :
  Forall elem_ok atts -> represents_all w atts values lvs ->
  length (layout w atts (read_back w atts values) off) = length (layout w atts values off).
Proof.
  intros He. revert values lvs off. induction He as [|et atts He _ IH]; intros values lvs off Hr; [done|].
  pose proof Hr as (L1 & L2 & _). destruct values as [|v values]; [done|]. destruct lvs as [|lv lvs]; [done|].
  apply represents_all_cons in Hr as [Hr Hrs]. unfold read_back in *. cbn [zip_with layout fmap option_fmap option_map].
  destruct v as [d|]; cbn [fmap option_fmap option_map]; [|by eapply IH].
  destruct (cell_stable w et lv d He Hr) as [E1 E2]. unfold cell_off. rewrite E1, !length_app, !length_replicate, E2.
  by erewrite IH.
Qed.

Lemma has_null_read_back w atts values : length values = length atts -> has_null (read_back w atts values) = has_null values.
Proof.
  unfold has_null, read_back. revert values. induction atts as [|et atts IH]; intros [|v values] Hl; try done. cbn in *. rewrite IH by lia. by destruct v.
Qed.

Lemma tuple_size_stable w atts values lvs :
  Forall elem_ok atts -> represents_all w atts values lvs -> tuple_size w atts (read_back w atts values) = tuple_size w atts values.
Proof. intros He Hr. unfold tuple_size. rewrite (layout_stable w atts values lvs 0), has_null_read_back; [done|apply Hr|done|done]. Qed.
