(* ===== verification/ToastTupleTheorems.v ===== *)
(** * Correctness of the toaster of tuples *)

From stdpp Require Import gmap.
From S2P Require Import Prelude Varlena PgLz PgLzTheorems Toast ToastInline ToastTable ToastStore ToastTheorems.
From S2P Require Import HeapTuple HeapTupleFill HeapTupleProofs HeapTupleRead HeapTupleTheorems.
From S2P Require Import ToastTuple ToastTupleInv ToastTupleRounds ToastTupleInsert.

(** ** When a tuple can be toasted *)

Definition is_lnull (lv : Lval) : bool := match lv with LNull => true | _ => false end.

(** The chunks that the values need at most. *)
Definition total_chunks (lvs : list Lval) : nat :=
  sum_list (map (fun lv => match lv with LData data => nchunks (length data) | _ => 0%nat end) lvs).

Definition header_len (natts : Z) (hasnull : bool) : Z :=
  MAXALIGN (SizeofHeapTupleHeader + (if hasnull then BITMAPLEN natts else 0)).

(** The descriptor is in order, a TOAST table has room if there is one, the
    tuple could be stored in line, and the header leaves room for data. *)
Record toast_ready (w : World) (rel : HeapRelation) (lvs : list Lval) : Prop := {
  tr_desc : desc_ok (rd_att rel);
  tr_natts : td_natts (rd_att rel) <= MaxTupleAttributeNumber;
  tr_room : reltoastrelid (hr_rel rel) <> InvalidOid ->
    exists r idx, toast_table w (hr_rel rel) r idx /\ Z.of_nat (length (idx_entries idx) + total_chunks lvs) < oid_count;
  tr_size : HEAPTUPLESIZE + 232 + row_size (td_types (rd_att rel)) lvs <= MaxAllocSize;
  tr_target : header_len (td_natts (rd_att rel)) (existsb is_lnull lvs) <= RelationGetToastTupleTarget rel TOAST_TUPLE_TARGET <= TOAST_TUPLE_TARGET_MAIN
}.

Lemma pending_bound ttc lvs : (pending ttc lvs <= total_chunks lvs)%nat.
Proof.
  unfold pending, total_chunks. generalize (ttc_attr ttc) as infos. induction lvs as [|lv lvs IH]; intros [|info infos]; cbn; try lia.
  specialize (IH infos). unfold pending1 at 1. destruct (ignored info); cbn in *; lia.
Qed.

(** Every attribute that may be moved out is out, or not longer than a
    pointer that is out. *)
Definition squeezed (atts : list ElemType) (row : list (option Datum)) : Prop :=
  forall i et p, atts !! i = Some et -> row !! i = Some (Some (DPtr p)) -> typlen et = -1 -> typstorage et <> TYPSTORAGE_PLAIN ->
    VARATT_IS_EXTERNAL p = true \/ Z.of_nat (length p) <= 24.

Lemma all_out_squeezed w atts ttc lvs :
  ctx_inv w atts ttc lvs -> all_out atts false ttc -> all_out atts true ttc -> squeezed atts (ttc_values ttc).
Proof.
  intros H Ho Hm i et p Hi Hv Hl Hst. destruct (ctx_lookup _ _ _ _ i et H Hi) as (v & info & lv & E1 & E2 & E3 & Ha).
  rewrite Hv in E1. injection E1 as <-. inversion Ha as [|d ? Hne|? data ? Hb _ Hd Hf Hsz Hig|c tp ? ? Hb _ Hd Hx Hpos Hig]; subst; [done| |by left].
  right. destruct (inline_size data p (data_ok_fits _ Hd) Hf) as [_ HE]. rewrite <- Hsz. rewrite bool_decide_eq_false_2 in Hig by done.
  assert (Hc : forall cm, storage_ok cm et = true -> is_candidate false cm et (Some (DPtr p)) info = true).
  { intros cm Hs. rewrite is_candidate_spec, Hig, Hs. cbn [andb negb value_ptr DatumGetPointer]. unfold VARATT_IS_EXTERNAL. by rewrite HE. }
  destruct (typstorage et) eqn:Es; [done| | |].
  - apply (Ho i et _ info Hi Hv E2). apply Hc. unfold storage_ok. by rewrite Es.
  - apply (Ho i et _ info Hi Hv E2). apply Hc. unfold storage_ok. by rewrite Es.
  - apply (Hm i et _ info Hi Hv E2). apply Hc. unfold storage_ok. by rewrite Es.
Qed.

Lemma inline_cell_length w et data p :
  typbyval et = false -> typlen et = -1 -> fits data -> inline_form data p -> (length (cell_bytes w et (DPtr p)) <= length p)%nat.
Proof.
  intros Hb Hl Hfit Hp. destruct (inline_size data p Hfit Hp) as [Hsz HE].
  unfold cell_bytes, cell_expanded, stored_bytes, VARATT_IS_EXTERNAL_EXPANDED, VARATT_IS_EXTERNAL. cbn [DatumGetPointer].
  rewrite HE, Hb, Hl. cbn [andb]. rewrite andb_false_r. destruct (stored_short et (DPtr p) && negb (VARATT_IS_1B p)) eqn:E; [|lia].
  apply andb_true_iff in E as [E1 E2]. apply negb_true_iff in E2. cbn [length]. unfold VARSIZE_ANY in Hsz. rewrite HE, E2 in Hsz.
  unfold VARDATA. rewrite length_drop. destruct Hp as [|Hs|c He Hc]; [pose proof (length_plain data); lia| |rewrite comp_form_length; lia].
  destruct (short_header_facts data Hs) as (_ & H1 & _). congruence.
Qed.

Lemma squeezed_read_back w atts values lvs :
  Forall elem_ok atts -> represents_all w atts values lvs -> squeezed atts values -> squeezed atts (read_back w atts values).
Proof.
  intros He (L1 & L2 & Hr) Hs i et p Hi Hp Hl Hst. unfold read_back in Hp. rewrite lookup_zip_with, Hi in Hp.
  destruct (values !! i) as [v|] eqn:Ev; [|done]. cbn in Hp. destruct v as [d|]; [|done].
  pose proof (lookup_lt_Some _ _ _ Hi) as Hlt. destruct (lookup_lt_is_Some_2 lvs i ltac:(lia)) as [lv Hlv].
  pose proof (Hr i et _ lv Hi Ev Hlv) as Hd. inversion Hd as [|? Hne|q data Hb _ Hok Hf]; subst; [done|].
  cbn in Hp. injection Hp as Hp. unfold cell_datum in Hp. rewrite Hb in Hp. injection Hp as <-. destruct Hf as [q Hq|c tp Hx Hpos].
  - destruct (Hs i et q Hi Ev Hl Hst) as [HE|Hlen].
    + destruct (inline_size data q (data_ok_fits _ Hok) Hq) as [_ HE']. unfold VARATT_IS_EXTERNAL in HE. congruence.
    + right. pose proof (inline_cell_length w et data q Hb Hl (data_ok_fits _ Hok) Hq). lia.
  - left. by rewrite pointer_cell.
Qed.

(** ** The context after the rounds *)

Section Core.
Variable (w : World) (rel : HeapRelation) (row : list (option Datum)) (olds : option (list (option Datum))) (lvs : list Lval).

Record toasted (w' : World) (ttc : ToastTupleContext) : Prop := {
  ts_grows : grows w w';
  ts_ctx : ctx_inv w' (td_types (rd_att rel)) ttc lvs;
  ts_nulls : Z.testbit (ttc_flags ttc) 2 = has_null row;
  ts_change : Z.testbit (ttc_flags ttc) 3 = false -> ttc_values ttc = row /\ w' = w;
  ts_flags : forall i et v info, td_types (rd_att rel) !! i = Some et -> row !! i = Some v -> ttc_attr ttc !! i = Some info ->
    Z.testbit (tai_colflags info) 0 = deletes_old et v (old_value olds i);
  ts_noflag : Z.testbit (ttc_flags ttc) 0 = false -> forall i info, ttc_attr ttc !! i = Some info -> Z.testbit (tai_colflags info) 0 = false;
  ts_insert : olds = None -> Z.testbit (ttc_flags ttc) 0 = false;
  ts_source : forall i et v v', td_types (rd_att rel) !! i = Some et -> row !! i = Some v -> ttc_values ttc !! i = Some v' -> typlen et = -1 ->
    VARATT_IS_EXTERNAL (value_ptr v') = true ->
    (v' = v /\ keeps_old et v (old_value olds i) = true) \/
    exists tp, v' = Some (DPtr (toast_pointer_datum tp)) /\ live_value w' tp /\ forall tq, live_value w tq -> toast_key tq <> toast_key tp;
  ts_fits : reltoastrelid (hr_rel rel) <> InvalidOid ->
    data_fits w' (td_types (rd_att rel)) (header_len (td_natts (rd_att rel)) (has_null row)) ttc \/ squeezed (td_types (rd_att rel)) (ttc_values ttc)
}.

Lemma toast_core :
  toast_ready w rel lvs -> represents_all w (td_types (rd_att rel)) row lvs ->
  exists ttc w' ttc', toast_tuple_init w (td_types (rd_att rel)) row olds = Ok ttc /\ Z.testbit (ttc_flags ttc) 2 = has_null row /\
    toast_rounds w rel (header_len (td_natts (rd_att rel)) (has_null row)) ttc = Ok (w', ttc') /\ toasted w' ttc'.
Proof.
  intros [Hd Hn Hroom Hsize Htarget] Hrow. unfold toast_tuple_init. set (atts := td_types (rd_att rel)) in *.
  destruct (init_loop_ok w atts row lvs olds 0 0 Hrow) as (values' & infos & fl & -> & Hctx & F2 & F3 & FC & FK & F0 & FI). cbn [mbind result_bind].
  set (ttc := mkTtc values' fl infos) in *. change (existsb is_lnull lvs) with (existsb (fun lv => match lv with LNull => true | _ => false end) lvs) in Htarget.
  rewrite <- (has_null_values w atts row lvs Hrow) in Htarget.
  destruct (hoff_bounds SizeofHeapTupleHeader (td_natts (rd_att rel)) (has_null row) ltac:(unfold td_natts in *; lia) ltac:(done)) as (B0 & B1 & _).
  destruct (toast_rounds_ok w rel (header_len (td_natts (rd_att rel)) (has_null row)) ttc lvs) as (w' & ttc' & E & Hto & Hfit); try done; [apply Hd| |unfold header_len; unfold SizeofHeapTupleHeader in *; lia|].
  { intros Hrel. destruct (Hroom Hrel) as (r & idx & Ht & Hlt). exists r, idx. split; [done|]. pose proof (pending_bound ttc lvs). lia. }
  exists ttc, w', ttc'. split; [done|]. split; [done|]. split; [done|]. destruct Hto as [G C T N D X K V].
  assert (Hinfo : forall i info', ttc_attr ttc' !! i = Some info' ->
    exists info, infos !! i = Some info /\ Z.testbit (tai_colflags info') 0 = Z.testbit (tai_colflags info) 0).
  { intros i info' Hi. pose proof (lookup_lt_Some _ _ _ Hi) as Hlt. pose proof (ci_attr _ _ _ _ C) as L1. pose proof (ci_attr _ _ _ _ Hctx) as L2.
    fold atts in L1. cbn [ttc_attr ttc] in L2. destruct (lookup_lt_is_Some_2 infos i ltac:(lia)) as [info Hinfo]. destruct (K i info Hinfo) as (info2 & E2 & E3). exists info.
    split; [done|]. congruence. }
  split; try done.
  - by rewrite N.
  - intros Hf. destruct (X Hf) as (X1 & X2 & X3). destruct (F3 X1) as [_ X4]. split; [|done]. rewrite X2. exact X4.
  - intros i et v info' Hi Hv Hinf. destruct (Hinfo i info' Hinf) as (info & E1 & ->). by apply FC.
  - rewrite D. intros Hf i info' Hi. destruct (Hinfo i info' Hi) as (info & E1 & ->). destruct (F0 Hf) as [_ F0']. by apply (F0' i).
  - intros Ho. etransitivity; [exact D|exact (FI Ho)].
  - intros i et v v' Hi Hv Hv' Hl Hx. rewrite Forall2_lookup in V. specialize (V i). rewrite Hv' in V. inversion V as [u u' Hstep Hu|]; subst u'. symmetry in Hu.
    destruct Hstep as [u|u p Hp|u tp Hlive Hfr]; [left; by apply (FK i)|exfalso; cbn [value_ptr DatumGetPointer] in Hx; congruence|right; by exists tp].
  - intros Hrel. destruct (Hfit Hrel) as [Hf|[H1 H2]]; [by left|]. right. by eapply all_out_squeezed.
Qed.

End Core.

(** ** The tuple *)

(** Reading a row gives the logical values: NULL, the datum, or what
    [detoast_attr] makes of the varlena. *)
Definition reads (w : World) (row : list (option Datum)) (lvs : list Lval) : Prop :=
  Forall2 (fun v lv =>
    match lv with
    | LNull => v = None
    | LFixed d => v = Some d
    | LData data => exists p, v = Some (DPtr p) /\ Toast.detoast_attr w p = Ok (plain data)
    end) row lvs.

(** The fields that another transaction could see are those of [newtup]. *)
Definition same_identity (newtup tup : HeapTuple) : Prop :=
  t_self tup = t_self newtup /\ t_tableOid tup = t_tableOid newtup /\ t_choice tup = t_choice newtup /\ t_ctid tup = t_ctid newtup.

Lemma reads_read_back w atts values lvs : Forall elem_ok atts -> represents_all w atts values lvs -> reads w (read_back w atts values) lvs.
Proof.
  intros He. revert values lvs. induction He as [|et atts He _ IH]; intros values lvs Hr; pose proof Hr as (L1 & L2 & _).
  { destruct values; [|done]. destruct lvs; [constructor|done]. }
  destruct values as [|v values]; [done|]. destruct lvs as [|lv lvs]; [done|]. apply represents_all_cons in Hr as [Hr Hrs].
  constructor; [|by apply IH]. pose proof (represents_cell w et v lv He Hr) as Hc. destruct Hr as [|d Hl Hd|p data Hb Hl Hd Hf].
  - done.
  - cbn [fmap option_fmap option_map]. unfold cell_datum, cell_bytes. rewrite datum_ok_expanded by done. unfold stored_datum. by destruct (typbyval et).
  - cbn [fmap option_fmap option_map] in *. unfold cell_datum in *. rewrite Hb in *. eexists. split; [done|].
    inversion Hc as [| |q dt _ _ _ Hf' E1 E2]; subst. destruct Hf' as [q Hq|c tp Hx Hpos]; [by apply detoast_inline; [apply data_ok_fits|]|by eapply detoast_external].
Qed.

(** What the new tuple holds when it is read. *)
Record holds (w : World) (rel : HeapRelation) (row : list (option Datum)) (olds : option (list (option Datum))) (lvs : list Lval)
  (w' : World) (newtup tup : HeapTuple) (row' : list (option Datum)) : Prop := {
  hd_read : forall td, desc_ok td -> td_types td = td_types (rd_att rel) ->
    exists td', heap_deform_tuple tup td = (row', td') /\ desc_ok td' /\ same_desc td td';
  hd_reads : reads w' row' lvs;
  hd_identity : same_identity newtup tup;
  hd_values : represents_all w' (td_types (rd_att rel)) row' lvs;
  hd_size : reltoastrelid (hr_rel rel) <> InvalidOid -> t_len tup <= TOAST_TUPLE_TARGET_MAIN \/ squeezed (td_types (rd_att rel)) row';
  hd_source : forall i et v v' tp, td_types (rd_att rel) !! i = Some et -> row !! i = Some v -> row' !! i = Some v' -> pointer_of et v' = Some tp ->
    (v' = v /\ keeps_old et v (old_value olds i) = true) \/ (live_value w' tp /\ forall tq, live_value w tq -> toast_key tq <> toast_key tp)
}.

Lemma image_read w td0 values tup :
  tuple_image w (td_types td0) values tup ->
  forall td, desc_ok td -> td_types td = td_types td0 -> exists td', heap_deform_tuple tup td = (read_back w (td_types td0) values, td') /\ desc_ok td' /\ same_desc td td'.
Proof.
  intros HI td Hd Ht. rewrite <- Ht in *. destruct (heap_deform_tuple_image w td _ _ _ HI Hd (desc_matches_self td)) as (td' & E & H).
  rewrite row_of_self in E. by exists td'.
Qed.

Lemma represents_read_back w atts values lvs : Forall elem_ok atts -> represents_all w atts values lvs -> represents_all w atts (read_back w atts values) lvs.
Proof.
  intros He (L1 & L2 & Hr). split; [unfold read_back; rewrite length_zip_with; lia|]. split; [done|].
  intros i et v lv Hi Hv Hlv. unfold read_back in Hv. rewrite lookup_zip_with, Hi in Hv. destruct (values !! i) as [u|] eqn:Eu; [|done].
  cbn in Hv. injection Hv as <-. apply represents_cell; [|by eapply Hr]. rewrite Forall_lookup in He. by eapply He.
Qed.

(** Storing makes no pointer. *)
Lemma cell_pointer w et v lv tp : elem_ok et -> represents w et v lv -> pointer_of et (cell_datum w et <$> v) = Some tp -> cell_datum w et <$> v = v.
Proof.
  intros He Hr Hp. destruct (pointer_of_represents w et _ lv tp (represents_cell w et v lv He Hr) Hp) as (E & Hl & _).
  inversion Hr as [|d Hne|p data Hb _ Hd Hf]; subst; [done|done|]. destruct Hf as [p Hi|c tq Hx Hpos].
  - exfalso. cbn [fmap option_fmap option_map] in E. unfold cell_datum in E. rewrite Hb in E. pose proof (f_equal value_ptr E) as E'. cbn [value_ptr DatumGetPointer] in E'.
    destruct (inline_size data _ (data_ok_fits _ Hd) (inline_cell w et data p He Hb Hl (data_ok_fits _ Hd) Hi)) as [_ HE]. by rewrite E' in HE.
  - cbn [fmap option_fmap option_map]. unfold cell_datum. by rewrite Hb, pointer_cell.
Qed.

Lemma toasted_tuple w rel values newtup olds lvs w' ttc :
  let atts := td_types (rd_att rel) in let row := read_back w atts values in
  toast_ready w rel lvs -> tuple_image w atts values newtup -> t_len newtup = tuple_size w atts values -> represents_all w atts values lvs ->
  toasted w rel row olds lvs w' ttc ->
  exists tup row', (if negb (Z.land (ttc_flags ttc) TOAST_NEEDS_CHANGE =? 0) then rebuild_tuple w' atts ttc newtup else Ok newtup) = Ok tup /\
    holds w rel row olds lvs w' newtup tup row'.
Proof.
  intros atts row [Hd Hn _ Hsize _] HI Hlen Hr [G C N X F F0 FI S Hfit]. fold atts in C, S, Hfit.
  assert (He : Forall elem_ok atts) by apply Hd. pose proof (represents_read_back w atts values lvs He Hr) as Hrow. fold row in Hrow.
  assert (Hmax : Z.of_nat (length atts) <= MaxTupleAttributeNumber) by (unfold atts, td_types; rewrite length_map; exact Hn).
  assert (Hna : td_natts (rd_att rel) = Z.of_nat (length atts)) by (unfold atts, td_types; by rewrite length_map).
  pose proof (ctx_represents _ _ _ _ C) as Hc.
  assert (Hnull : has_null (ttc_values ttc) = has_null row) by (rewrite (has_null_values w' atts _ lvs Hc); symmetry; by eapply has_null_values).
  change TOAST_NEEDS_CHANGE with (2 ^ 3). rewrite flag_clear, negb_involutive by lia. destruct (Z.testbit (ttc_flags ttc) 3) eqn:E3.
  - destruct (rebuild_tuple_ok w' atts ttc lvs newtup) as (tup & E & HI' & Hlen' & Hid); try done; [congruence|].
    exists tup, (read_back w' atts (ttc_values ttc)). split; [done|]. split.
    + intros td Hdt Ht. by apply (image_read w' (rd_att rel) _ _ HI').
    + by apply reads_read_back.
    + done.
    + by apply represents_read_back.
    + intros Hrel. destruct (Hfit Hrel) as [Hf|Hs]; [left|right; by eapply squeezed_read_back].
      unfold data_fits, header_len in Hf. unfold tuple_size in Hlen'. rewrite Hnull in Hlen'. rewrite Hna in Hf. lia.
    + intros i et v v' tp Hi Hv Hv' Hp. fold atts in Hi. unfold read_back in Hv'. rewrite lookup_zip_with, Hi in Hv'.
      destruct (ttc_values ttc !! i) as [u|] eqn:Eu; [|done]. cbn in Hv'. injection Hv' as <-.
      destruct (ctx_lookup _ _ _ _ i et C Hi) as (u' & info & lv & E1 & E2 & Hlv & Ha). rewrite Eu in E1. injection E1 as <-.
      pose proof (att_inv_represents _ _ _ _ _ Ha) as Hu. assert (Het : elem_ok et) by (rewrite Forall_lookup in He; by eapply He).
      pose proof (cell_pointer w' et u lv tp Het Hu Hp) as Ec. rewrite Ec in Hp |- *. destruct (pointer_of_represents _ _ _ _ _ Hu Hp) as (-> & Hl & Hok & _).
      destruct (S i et v _ Hi Hv Eu Hl eq_refl) as [?|(tq & Eq & Hlive & Hfr)]; [by left|]. right.
      assert (tp = tq); [|by subst]. pose proof (f_equal value_ptr Eq) as Eq'. apply toast_pointer_inj; [done|apply Hlive|exact Eq'].
  - destruct (X eq_refl) as [Ev ->]. exists newtup, row. split; [done|]. split.
    + intros td Hdt Ht. by apply (image_read w (rd_att rel) _ _ HI).
    + by apply reads_read_back.
    + done.
    + done.
    + intros Hrel. destruct (Hfit Hrel) as [Hf|Hs]; [left|right; by rewrite <- Ev].
      pose proof (tuple_size_stable w atts values lvs He Hr) as Hst. fold row in Hst. unfold data_fits, header_len in Hf.
      rewrite Hlen, <- Hst. unfold tuple_size. rewrite Ev, Hna in Hf. lia.
    + intros i et v v' tp Hi Hv Hv' Hp. fold atts in Hi. rewrite Hv in Hv'. injection Hv' as <-. rewrite <- Ev in Hv.
      destruct (ctx_lookup _ _ _ _ i et C Hi) as (u' & info & lv & E1 & E2 & Hlv & Ha). rewrite Hv in E1. injection E1 as <-.
      destruct (pointer_of_represents _ _ _ _ _ (att_inv_represents _ _ _ _ _ Ha) Hp) as (-> & Hl & Hok & _).
      pose proof Hv as Hv2. rewrite Ev in Hv2.
      destruct (S i et _ _ Hi Hv2 Hv Hl eq_refl) as [?|(tq & Eq & Hlive & Hfr)]; [by left|]. right.
      assert (tp = tq); [|by subst]. pose proof (f_equal value_ptr Eq) as Eq'. apply toast_pointer_inj; [done|apply Hlive|exact Eq'].
Qed.


(** ** Inserting *)

Lemma ready_set_att w rel td lvs : desc_ok td -> same_desc (rd_att rel) td -> toast_ready w rel lvs -> toast_ready w (set_att rel td) lvs.
Proof.
  intros Hd Hs [H1 H2 H3 H4 H5]. pose proof (same_desc_types _ _ Hs) as Ht.
  assert (Hn : td_natts td = td_natts (rd_att rel)).
  { unfold td_natts. rewrite <- (length_map att_type (td_attrs td)), <- (length_map att_type (td_attrs (rd_att rel))). unfold td_types in Ht. by rewrite Ht. }
  split; cbn [rd_att set_att hr_rel]; try done; [by rewrite Hn|by rewrite <- Ht|]. rewrite Hn. exact H5.
Qed.

Lemma holds_set_att w rel td row olds lvs w' newtup tup row' :
  td_types td = td_types (rd_att rel) -> holds w (set_att rel td) row olds lvs w' newtup tup row' -> holds w rel row olds lvs w' newtup tup row'.
Proof. intros Ht []. cbn [rd_att set_att hr_rel] in *. rewrite Ht in *. by split. Qed.

(** Everything but the cleanup. *)
Lemma toast_body w rel values newtup olds lvs :
  let atts := td_types (rd_att rel) in let row := read_back w atts values in
  toast_ready w rel lvs -> tuple_image w atts values newtup -> t_len newtup = tuple_size w atts values -> represents_all w atts values lvs ->
  exists ttc w' ttc' tup row', toast_tuple_init w atts row olds = Ok ttc /\
    toast_rounds w rel (MAXALIGN (SizeofHeapTupleHeader + (if negb (Z.land (ttc_flags ttc) TOAST_HAS_NULLS =? 0) then BITMAPLEN (td_natts (rd_att rel)) else 0))) ttc = Ok (w', ttc') /\
    (if negb (Z.land (ttc_flags ttc') TOAST_NEEDS_CHANGE =? 0) then rebuild_tuple w' atts ttc' newtup else Ok newtup) = Ok tup /\
    toasted w rel row olds lvs w' ttc' /\ holds w rel row olds lvs w' newtup tup row'.
Proof.
  intros atts row Hready HI Hlen Hr. assert (He : Forall elem_ok atts) by apply Hready.
  destruct (toast_core w rel row olds lvs Hready (represents_read_back w atts values lvs He Hr)) as (ttc & w' & ttc' & E1 & E2 & E3 & Ht).
  destruct (toasted_tuple w rel values newtup olds lvs w' ttc' Hready HI Hlen Hr Ht) as (tup & row' & E4 & Hh).
  exists ttc, w', ttc', tup, row'. split_and!; try done. change TOAST_HAS_NULLS with (2 ^ 2). by rewrite flag_clear, negb_involutive, E2.
Qed.

Lemma read_back_lookup w atts values i et : length values = length atts -> atts !! i = Some et -> exists v, read_back w atts values !! i = Some v.
Proof.
  intros Hl Hi. apply lookup_lt_is_Some_2. unfold read_back. rewrite length_zip_with. pose proof (lookup_lt_Some _ _ _ Hi). lia.
Qed.

(** ** An example *)

(** A table with a column that is moved out and not compressed, and a TOAST
    table that is empty. *)
Definition td_doc : TupleDesc :=
  mkTupleDesc 2249 (-1) false
    [mkAttr (mkElemType 4 true TYPALIGN_INT TYPSTORAGE_PLAIN) (-1) false None;
     mkAttr (mkElemType (-1) false TYPALIGN_INT TYPSTORAGE_EXTERNAL) (-1) false None;
     mkAttr (mkElemType 8 true TYPALIGN_DOUBLE TYPSTORAGE_PLAIN) (-1) false None].

Definition rel_doc : HeapRelation := mkHeapRel (mkRelation 20000 0) td_doc None.

Definition doc_row (v : option Datum) : list (option Datum) := [Some (DWord 7); v; None].
Definition doc_lvs (lv : Lval) : list Lval := [LFixed (DWord 7); lv; LNull].
Definition long_text : list Z := replicate 3000 97.

Lemma td_doc_ok : desc_ok td_doc.
Proof. split; [|cbn; repeat constructor]. repeat (apply List.Forall_cons); try apply List.Forall_nil; cbn; first [lia|auto]. Qed.

Lemma data_ok_replicate n : Z.of_nat n + 12 <= MaxAllocSize -> data_ok (replicate n 97).
Proof. intros H. split; [apply Forall_replicate; unfold is_byte; lia|by rewrite length_replicate]. Qed.

Lemma doc_represents w v lv : represents w (mkElemType (-1) false TYPALIGN_INT TYPSTORAGE_EXTERNAL) v lv ->
  represents_all w (td_types td_doc) (doc_row v) (doc_lvs lv).
Proof.
  intros Hr. split; [done|]. split; [done|]. intros [|[|[|i]]] et u l Hi Hu Hl; [| | |done]; injection Hi as <-; injection Hu as <-; injection Hl as <-.
  - change (LFixed (DWord 7)) with (LFixed (stored_datum (mkElemType 4 true TYPALIGN_INT TYPSTORAGE_PLAIN) (DWord 7))).
    constructor; [done|]. exists 7. done.
  - done.
  - constructor.
Qed.

Lemma long_represents w : represents w (mkElemType (-1) false TYPALIGN_INT TYPSTORAGE_EXTERNAL) (Some (DPtr (plain long_text))) (LData long_text).
Proof. constructor; [done|done|apply data_ok_replicate; unfold MaxAllocSize; lia|constructor; constructor]. Qed.

(** A tuple with the row, whatever the world. *)
Lemma doc_formed w v lv : represents w (mkElemType (-1) false TYPALIGN_INT TYPSTORAGE_EXTERNAL) v lv ->
  HEAPTUPLESIZE + 232 + row_size (td_types td_doc) (doc_lvs lv) <= MaxAllocSize ->
  exists tup, heap_form_tuple w td_doc (doc_row v) = Ok tup /\ tuple_image w (td_types td_doc) (doc_row v) tup /\ t_len tup = tuple_size w (td_types td_doc) (doc_row v).
Proof.
  intros Hr Hs. pose proof (doc_represents w v lv Hr) as Hall. pose proof (proj1 td_doc_ok) as He.
  destruct (refill_ok w (td_types td_doc) (doc_row v) (doc_lvs lv) 0 He Hall ltac:(done)) as (_ & B1 & B2 & Ets & _).
  destruct (heap_form_tuple_image w td_doc (doc_row v)) as (tup & E & HI & _ & Hl); [by eapply represents_values_ok|done|rewrite <- Ets; lia|].
  by exists tup.
Qed.

Lemma doc_ready : toast_ready empty_world rel_doc (doc_lvs (LData long_text)).
Proof.
  split; [exact td_doc_ok|done| | |done].
  - intros _. exists empty_table, empty_index. split; [exact empty_table_ok|vm_compute; reflexivity].
  - unfold doc_lvs, row_size, lval_size. cbn [td_types td_doc td_attrs map att_type rd_att rel_doc]. unfold long_text. rewrite length_replicate. vm_compute. done.
Qed.

(** C19: [heap_toast_insert_or_update] for an INSERT, on a tuple that
    represents the logical values [lvs]: it succeeds (its four loops end),
    adds values to the TOAST table without touching any, and the tuple it
    returns reads back as exactly the same values after detoasting, in line,
    compressed or out of line as they may be; when the table has a TOAST table,
    the tuple fits a page ([TOAST_TUPLE_TARGET_MAIN]) or every attribute that
    may be moved is out of line or no longer than a pointer to one; and every
    value it holds out of line is live in the TOAST table. *)
Theorem heap_toast_insert_correct w rel values newtup lvs :
  toast_ready w rel lvs -> tuple_image w (td_types (rd_att rel)) values newtup ->
  t_len newtup = tuple_size w (td_types (rd_att rel)) values -> represents_all w (td_types (rd_att rel)) values lvs ->
  exists w' tup rel' row td, heap_toast_insert_or_update w rel newtup None = Ok (w', tup, rel') /\
    grows w w' /\ desc_ok (rd_att rel') /\ same_desc (rd_att rel) (rd_att rel') /\ same_identity newtup tup /\
    heap_deform_tuple tup (rd_att rel') = (row, td) /\ reads w' row lvs /\
    (reltoastrelid (hr_rel rel) <> InvalidOid -> t_len tup <= TOAST_TUPLE_TARGET_MAIN \/ squeezed (td_types (rd_att rel)) row) /\
    (forall i et v tp, td_types (rd_att rel) !! i = Some et -> row !! i = Some v -> pointer_of et v = Some tp -> live_value w' tp).
Proof.
  intros Hready HI Hlen Hr. destruct (image_read w _ _ _ HI (rd_att rel) (tr_desc _ _ _ Hready) eq_refl) as (td & E & Hd & Hs).
  pose proof (same_desc_types _ _ Hs) as Ht. unfold heap_toast_insert_or_update. rewrite E. cbn [rd_att set_att].
  pose proof (ready_set_att w rel td lvs Hd Hs Hready) as Hready'. rewrite Ht in HI, Hlen, Hr.
  destruct (toast_body w (set_att rel td) values newtup None lvs Hready' HI Hlen Hr) as (ttc & w' & ttc' & tup & row & E1 & E2 & E3 & HT & HH).
  cbn [rd_att set_att] in E1, E2, E3. rewrite Ht, E1. cbn [mbind result_bind]. rewrite E2. cbn [mbind result_bind]. rewrite E3. cbn [mbind result_bind].
  unfold toast_tuple_cleanup. change TOAST_NEEDS_DELETE_OLD with (2 ^ 0). rewrite flag_clear, (ts_insert _ _ _ _ _ _ _ HT) by done.
  cbn [negb mbind result_bind]. destruct (hd_read _ _ _ _ _ _ _ _ _ HH td Hd eq_refl) as (td' & Er & _).
  eexists w', tup, (set_att rel td), row, td'. split; [done|]. split; [by eapply ts_grows|]. split; [done|]. split; [done|]. split; [by eapply hd_identity|].
  split; [done|]. split; [by eapply hd_reads|]. split; [exact (hd_size _ _ _ _ _ _ _ _ _ HH)|].
  intros i et v tp Hi Hv Hp. destruct (read_back_lookup w (td_types td) values i et ltac:(apply Hr) Hi) as [u Hu].
  destruct (hd_source _ _ _ _ _ _ _ _ _ HH i et u v tp Hi Hu Hv Hp) as [[_ Hk]|[Hl _]]; done.
Qed.

(** A text of 3000 bytes. *)
Lemma heap_toast_insert_correct_witness :
  exists tup w' tup' rel' row td, heap_form_tuple empty_world td_doc (doc_row (Some (DPtr (plain long_text)))) = Ok tup /\
    heap_toast_insert_or_update empty_world rel_doc tup None = Ok (w', tup', rel') /\
    heap_deform_tuple tup' (rd_att rel') = (row, td) /\ reads w' row (doc_lvs (LData long_text)).
Proof.
  destruct (doc_formed empty_world _ _ (long_represents empty_world)) as (tup & E & HI & Hl); [apply doc_ready|].
  destruct (heap_toast_insert_correct empty_world rel_doc (doc_row (Some (DPtr (plain long_text)))) tup (doc_lvs (LData long_text)))
    as (w' & tup' & rel' & row & td & E1 & _ & _ & _ & _ & E2 & E3 & _).
  - exact doc_ready.
  - exact HI.
  - exact Hl.
  - apply doc_represents, long_represents.
  - exists tup, w', tup', rel', row, td. split_and!; done.
Defined.

(** The text goes out of line, and the tuple has 46 bytes instead of 3032. *)
Example long_text_moved :
  (tup ← heap_form_tuple empty_world td_doc (doc_row (Some (DPtr (plain long_text))));
   '(w, tup', rel) ← heap_toast_insert_or_update empty_world rel_doc tup None;
   Ok (t_len tup, t_len tup', (heap_deform_tuple tup' td_doc).1)) =
  Ok (3032, 46, doc_row (Some (DPtr (toast_pointer_datum (mkExternal 3004 3000 16384 20000))))).
Proof. vm_compute. reflexivity. Qed.

(** ** Updating *)

Lemma delete_all_none b w tps : Forall (fun o => o = None) tps -> delete_all b w tps = Ok w.
Proof. induction 1 as [|o tps -> _ IH]; [done|exact IH]. Qed.

Section Cleanup.
Variable (w : World) (rel : HeapRelation) (row old : list (option Datum)) (lvs oldlvs : list Lval) (w1 : World) (ttc : ToastTupleContext).
Let atts := td_types (rd_att rel).
Let tps := zip_with pointer_of atts old.
Let victims := zip_with victim (ttc_attr ttc) tps.
Hypothesis (Hrow : represents_all w atts row lvs) (Hold : represents_all w atts old oldlvs) (Hlive : live_list w tps)
  (HT : toasted w rel row (Some old) lvs w1 ttc).

Lemma tps_lookup i et o : atts !! i = Some et -> old !! i = Some o -> tps !! i = Some (pointer_of et o).
Proof. intros Hi Ho. unfold tps. by rewrite lookup_zip_with, Hi, Ho. Qed.

(** Which old values are deleted. *)
Lemma victims_lookup i et v o info :
  atts !! i = Some et -> row !! i = Some v -> old !! i = Some o -> ttc_attr ttc !! i = Some info ->
  victims !! i = Some (if bool_decide (v = o) then None else pointer_of et o) /\
  Z.testbit (tai_colflags info) 0 = match pointer_of et o with Some _ => negb (bool_decide (v = o)) | None => false end /\
  keeps_old et v (old_value (Some old) i) = match pointer_of et o with Some _ => bool_decide (v = o) | None => false end.
Proof.
  intros Hi Hv Ho Hinfo. pose proof (lookup_lt_Some _ _ _ Hi) as Hlt.
  destruct (lookup_lt_is_Some_2 lvs i) as [lv Hlv]; [destruct Hrow as (_ & L & _); lia|].
  destruct (lookup_lt_is_Some_2 oldlvs i) as [olv Holv]; [destruct Hold as (_ & L & _); lia|].
  assert (Hr : represents w et v lv) by (destruct Hrow as (_ & _ & H); by eapply H).
  assert (Hr' : represents w et o olv) by (destruct Hold as (_ & _ & H); by eapply H).
  pose proof (old_external_spec w et v lv o olv Hr Hr') as Hx.
  assert (Hf : Z.testbit (tai_colflags info) 0 = match pointer_of et o with Some _ => negb (bool_decide (v = o)) | None => false end).
  { rewrite (ts_flags _ _ _ _ _ _ _ HT i et v info Hi Hv Hinfo). unfold deletes_old, old_value. rewrite Ho. cbn [default]. unfold default, id. rewrite Hx.
    destruct (pointer_of et o); [|done]. by destruct (bool_decide (v = o)). }
  split_and!; [|done|].
  - unfold victims. rewrite lookup_zip_with, Hinfo, (tps_lookup i et o Hi Ho). cbn. unfold victim. rewrite Hf.
    destruct (pointer_of et o); [|by destruct (bool_decide _)]. by destruct (bool_decide (v = o)).
  - unfold keeps_old, old_value. rewrite Ho. unfold default, id. rewrite Hx. destruct (pointer_of et o); [|done]. by destruct (bool_decide (v = o)).
Qed.

Lemma context_lookup i et : atts !! i = Some et ->
  exists v o info, row !! i = Some v /\ old !! i = Some o /\ ttc_attr ttc !! i = Some info.
Proof.
  intros Hi. pose proof (lookup_lt_Some _ _ _ Hi) as Hlt.
  destruct (lookup_lt_is_Some_2 row i) as [v Hv]; [destruct Hrow as (L & _); lia|].
  destruct (lookup_lt_is_Some_2 old i) as [o Ho]; [destruct Hold as (L & _); lia|].
  destruct (lookup_lt_is_Some_2 (ttc_attr ttc) i) as [info Hinfo]; [|by exists v, o, info].
  pose proof (ci_attr _ _ _ _ (ts_ctx _ _ _ _ _ _ _ HT)) as L. fold atts in L. lia.
Qed.

Lemma victims_inv i tp : victims !! i = Some (Some tp) ->
  tps !! i = Some (Some tp) /\ exists et v o, atts !! i = Some et /\ row !! i = Some v /\ old !! i = Some o /\ pointer_of et o = Some tp /\ v <> o.
Proof.
  intros Hi. assert (Hlt : (i < length atts)%nat).
  { pose proof (lookup_lt_Some _ _ _ Hi) as Hlt. unfold victims, tps in Hlt. rewrite !length_zip_with in Hlt. lia. }
  destruct (lookup_lt_is_Some_2 atts i Hlt) as [et Het]. destruct (context_lookup i et Het) as (v & o & info & Hv & Ho & Hinfo).
  destruct (victims_lookup i et v o info Het Hv Ho Hinfo) as (E & _ & _). rewrite Hi in E. case_bool_decide as Hvo; [done|]. injection E as E.
  split; [by rewrite (tps_lookup i et o Het Ho), E|]. by exists et, v, o.
Qed.

Lemma cleanup_ok :
  exists w2, toast_tuple_cleanup w1 ttc (Some old) = Ok w2 /\ deletes false (fun tp => exists i, victims !! i = Some (Some tp)) w1 w2.
Proof.
  pose proof (ci_attr _ _ _ _ (ts_ctx _ _ _ _ _ _ _ HT)) as Hlen. fold atts in Hlen.
  destruct (delete_all_ok false w1 victims) as (w2 & E & D).
  { intros i tp Hi. destruct (victims_inv i tp Hi) as (Ht & _). destruct (Hlive i tp Ht) as [H1 H2].
    split; [apply (gr_live _ _ (ts_grows _ _ _ _ _ _ _ HT)); done|]. intros j tq Hj Hne. destruct (victims_inv j tq Hj) as (Hq & _). by apply (H2 j). }
  exists w2. split; [|done]. rewrite <- E. unfold toast_tuple_cleanup. change TOAST_NEEDS_DELETE_OLD with (2 ^ 0). rewrite flag_clear, negb_involutive by lia.
  destruct (Z.testbit (ttc_flags ttc) 0) eqn:E0.
  - apply (delete_old_all w w1 atts old oldlvs); [done| |done]. intros i et o info Hi Ho Hinfo Hb.
    destruct (context_lookup i et Hi) as (v & o' & info' & Hv & Ho' & Hinfo'). assert (o' = o) by congruence. subst o'.
    destruct (victims_lookup i et v o info Hi Hv Ho Hinfo) as (_ & E1 & _). rewrite Hb in E1. destruct (pointer_of et o); [by eexists|done].
  - symmetry. apply delete_all_none. apply Forall_lookup. intros i o Hi. destruct o as [tp|]; [|done]. exfalso.
    destruct (victims_inv i tp Hi) as (_ & et & v & o & Het & Hv & Ho & Hp & Hne). destruct (context_lookup i et Het) as (_ & _ & info & _ & _ & Hinfo).
    destruct (victims_lookup i et v o info Het Hv Ho Hinfo) as (_ & Hb & _). rewrite (ts_noflag _ _ _ _ _ _ _ HT E0 i info Hinfo), Hp in Hb.
    by rewrite bool_decide_eq_false_2 in Hb.
Qed.

(** An old value that is kept is none of them. *)
Lemma kept_not_victim i et o tp : atts !! i = Some et -> row !! i = Some o -> old !! i = Some o -> pointer_of et o = Some tp ->
  live_value w1 tp /\ forall tq, (exists j, victims !! j = Some (Some tq)) -> toast_key tp <> toast_key tq.
Proof.
  intros Hi Hv Ho Hp. assert (Ht : tps !! i = Some (Some tp)) by (rewrite <- Hp; by apply tps_lookup). destruct (Hlive i tp Ht) as [H1 H2].
  split; [by apply (gr_live _ _ (ts_grows _ _ _ _ _ _ _ HT))|]. intros tq [j Hj]. destruct (victims_inv j tq Hj) as (Hq & et' & v & o' & E1 & E2 & E3 & _ & Hne).
  apply (H2 j tq Hq). intros <-. congruence.
Qed.

(** What the world is like after the cleanup. *)
Lemma cleanup_values w2 newtup tup row' :
  deletes false (fun tp => exists i, victims !! i = Some (Some tp)) w1 w2 -> holds w rel row (Some old) lvs w1 newtup tup row' ->
  keeps w w2 /\ keeps w1 w2 /\
  (forall i et v tp, atts !! i = Some et -> row' !! i = Some v -> pointer_of et v = Some tp -> live_value w2 tp) /\
  (forall i et o tp, atts !! i = Some et -> old !! i = Some o -> pointer_of et o = Some tp ->
     if bool_decide (row !! i = Some o) then live_value w2 tp else gone_value false w2 tp) /\
  (forall tq, live_value w tq -> (forall i tp, tps !! i = Some (Some tp) -> toast_key tq <> toast_key tp) -> live_value w2 tq).
Proof.
  intros D HH. pose proof (dl_keeps _ _ _ _ D eq_refl) as Hk. split_and!; [|done| | |].
  - eapply keeps_trans; [|done]. apply gr_keeps. by eapply ts_grows.
  - intros i et v' tp Hi Hv' Hp. destruct (context_lookup i et Hi) as (v & o & info & Hv & Ho & Hinfo).
    destruct (hd_source _ _ _ _ _ _ _ _ _ HH i et v v' tp Hi Hv Hv' Hp) as [[-> Hkeep]|[Hl Hfr]].
    + destruct (victims_lookup i et v o info Hi Hv Ho Hinfo) as (_ & _ & Ek). rewrite Hkeep in Ek. destruct (pointer_of et o) as [tq|] eqn:Eo; [|done].
      symmetry in Ek. apply bool_decide_eq_true in Ek. subst o. destruct (kept_not_victim i et v tp Hi Hv Ho Hp) as [H1 H2]. by apply (dl_live _ _ _ _ D).
    + apply (dl_live _ _ _ _ D); [done|]. intros tq [j Hj] E. destruct (victims_inv j tq Hj) as (Hq & _). destruct (Hlive j tq Hq) as [Hl' _]. by apply (Hfr tq Hl').
  - intros i et o tp Hi Ho Hp. destruct (context_lookup i et Hi) as (v & o' & info & Hv & Ho' & Hinfo). assert (o' = o) by congruence. subst o'.
    destruct (victims_lookup i et v o info Hi Hv Ho Hinfo) as (Ev & _ & _). rewrite Hv. destruct (decide (v = o)) as [-> |Hne].
    + rewrite bool_decide_eq_true_2 by done. destruct (kept_not_victim i et o tp Hi Hv Ho Hp) as [H1 H2]. by apply (dl_live _ _ _ _ D).
    + rewrite bool_decide_eq_false_2 by congruence. apply (dl_done _ _ _ _ D). exists i. by rewrite Ev, Hp, bool_decide_eq_false_2.
  - intros tq Hq Hne. apply (dl_live _ _ _ _ D); [apply (gr_live _ _ (ts_grows _ _ _ _ _ _ _ HT)); done|].
    intros tp [i Hi]. destruct (victims_inv i tp Hi) as (Ht & _). by apply (Hne i).
Qed.

End Cleanup.

Lemma reads_keeps w w' atts row lvs : keeps w w' -> represents_all w atts row lvs -> reads w row lvs -> reads w' row lvs.
Proof.
  intros Hk (L1 & L2 & Hr) H. apply Forall2_same_length_lookup_2; [lia|]. intros i v lv Hv Hlv.
  unfold reads in H. rewrite Forall2_lookup in H. specialize (H i). rewrite Hv, Hlv in H. inversion H as [? ? Hx|]; subst. destruct lv as [|d|data]; [done|done|].
  destruct (lookup_lt_is_Some_2 atts i) as [et Het]; [pose proof (lookup_lt_Some _ _ _ Hv); lia|].
  pose proof (keeps_represents _ _ _ _ _ Hk (Hr i et v _ Het Hv Hlv)) as R. inversion R as [| |p ? Hb Hl Hd Hf]; subst. exists p. split; [done|].
  destruct Hf as [p Hp|c tp Hx' Hpos]; [by apply detoast_inline; [apply data_ok_fits|]|by eapply detoast_external].
Qed.

(** C20: [heap_toast_insert_or_update] for an UPDATE, when the out-of-line
    values of the old tuple are live and differ from each other: it succeeds,
    the new tuple reads back as the values [lvs] and is as short as for an
    INSERT; exactly those old values are deleted from the TOAST table that the
    new tuple, as it was given, does not hold in the same attribute; every
    value that the resulting tuple points to is live, and so is every value
    that was live and does not belong to the old tuple. *)
Theorem heap_toast_update_correct w rel values newtup lvs oldvalues oldtup oldlvs :
  let atts := td_types (rd_att rel) in let old := read_back w atts oldvalues in
  toast_ready w rel lvs -> tuple_image w atts values newtup -> t_len newtup = tuple_size w atts values -> represents_all w atts values lvs ->
  tuple_image w atts oldvalues oldtup -> represents_all w atts oldvalues oldlvs -> live_list w (zip_with pointer_of atts old) ->
  exists w' tup rel' row td, heap_toast_insert_or_update w rel newtup (Some oldtup) = Ok (w', tup, rel') /\
    keeps w w' /\ desc_ok (rd_att rel') /\ same_desc (rd_att rel) (rd_att rel') /\ same_identity newtup tup /\
    heap_deform_tuple tup (rd_att rel') = (row, td) /\ reads w' row lvs /\
    (reltoastrelid (hr_rel rel) <> InvalidOid -> t_len tup <= TOAST_TUPLE_TARGET_MAIN \/ squeezed atts row) /\
    (forall i et v tp, atts !! i = Some et -> row !! i = Some v -> pointer_of et v = Some tp -> live_value w' tp) /\
    (forall i et o tp, atts !! i = Some et -> old !! i = Some o -> pointer_of et o = Some tp ->
       if bool_decide (read_back w atts values !! i = Some o) then live_value w' tp else gone_value false w' tp) /\
    (forall tq, live_value w tq -> (forall i tp, zip_with pointer_of atts old !! i = Some (Some tp) -> toast_key tq <> toast_key tp) -> live_value w' tq).
Proof.
  intros atts old Hready HI Hlen Hr HIo Hro Hlive.
  destruct (image_read w _ _ _ HI (rd_att rel) (tr_desc _ _ _ Hready) eq_refl) as (td & E & Hd & Hs). pose proof (same_desc_types _ _ Hs) as Ht.
  destruct (image_read w _ _ _ HIo td Hd (eq_sym Ht)) as (td2 & Eo & Hd2 & Hs2). pose proof (same_desc_types _ _ Hs2) as Ht2.
  unfold heap_toast_insert_or_update. rewrite E. cbn [rd_att set_att]. rewrite Eo. fold atts old.
  pose proof (ready_set_att w (set_att rel td) td2 lvs Hd2 Hs2 (ready_set_att w rel td lvs Hd Hs Hready)) as Hready'.
  set (rel2 := set_att (set_att rel td) td2) in *. assert (Ha : td_types td2 = atts) by (unfold atts; congruence).
  assert (He : Forall elem_ok atts) by apply Hready.
  pose proof (represents_read_back w atts values lvs He Hr) as Hrow. pose proof (represents_read_back w atts oldvalues oldlvs He Hro) as Hold. fold old in Hold.
  change atts with (td_types (rd_att rel)) in HI, Hlen, Hr, Hrow, Hold, Hlive |- *. rewrite Ht, Ht2 in HI, Hlen, Hr, Hrow, Hold, Hlive |- *. clear Ha He.
  destruct (toast_body w rel2 values newtup (Some old) lvs Hready' HI Hlen Hr) as (ttc & w1 & ttc' & tup & row & E1 & E2 & E3 & HT & HH).
  change (rd_att rel2) with td2 in E1, E2, E3 |- *.
  rewrite E1. cbn [mbind result_bind]. rewrite E2. cbn [mbind result_bind]. rewrite E3. cbn [mbind result_bind].
  destruct (hd_read _ _ _ _ _ _ _ _ _ HH td2 Hd2 eq_refl) as (td' & Er & _).
  destruct (cleanup_ok w rel2 (read_back w (td_types td2) values) old lvs oldlvs w1 ttc' Hrow Hold Hlive HT) as (w2 & -> & D). cbn [mbind result_bind].
  destruct (cleanup_values w rel2 (read_back w (td_types td2) values) old lvs oldlvs w1 ttc' Hrow Hold Hlive HT w2 newtup tup row D HH) as (K1 & K2 & P1 & P2 & P3).
  exists w2, tup, rel2, row, td'. split; [done|]. split; [done|]. split; [done|].
  split; [destruct Hs as (? & ? & ? & ?), Hs2 as (? & ? & ? & ?); cbn; unfold same_desc, same_attrs in *; split_and!; congruence|].
  split; [by eapply hd_identity|]. split; [done|]. split; [eapply reads_keeps; [done|by eapply hd_values|by eapply hd_reads]|].
  split; [exact (hd_size _ _ _ _ _ _ _ _ _ HH)|]. done.
Qed.

(** ** The example, updated *)

Definition stored_pointer : varatt_external := mkExternal 7 3 16384 20000.
Definition stored_index : ToastIndex := mkIndex true true true [(16384, 0, 0%nat)].

Lemma stored_pointer_ok : pointer_ok stored_pointer.
Proof. unfold pointer_ok, in_uint, MaxAllocSize, VARHDRSZ. cbn. lia. Qed.

Lemma stored_table_ok : toast_rels stored_world !! 20000 = Some stored_table /\ rel_ok stored_table stored_index.
Proof.
  split; [vm_compute; reflexivity|]. split; [done|done| |].
  - intros [|tid] row Hr; [|done]. injection Hr as <-. by left.
  - constructor; [|constructor]. intros _. split; [repeat constructor|]. intros e [<-|[]]. by eexists.
Qed.

Lemma stored_live : live_value stored_world stored_pointer.
Proof.
  split; [exact stored_pointer_ok|]. split; [vm_compute; reflexivity|]. exists stored_table, stored_index.
  split; [apply stored_table_ok|]. split; [apply stored_table_ok|]. split; [done|]. intros [|tid] row Hr _; [|done]. by injection Hr as <-.
Qed.

Lemma stored_represents :
  represents stored_world (mkElemType (-1) false TYPALIGN_INT TYPSTORAGE_EXTERNAL) (Some (DPtr (toast_pointer_datum stored_pointer))) (LData [1; 2; 3]).
Proof.
  constructor; [done|done|split; [repeat constructor; done|done]|]. apply (VF_external _ _ false); [|done]. exists [1; 2; 3]. split; [|done].
  split; [exact stored_pointer_ok|done|vm_compute; reflexivity|]. exists stored_table, stored_index. split; [apply stored_table_ok|]. split; [apply stored_table_ok|].
  exists (fun _ => 0%nat), (fun _ => mkRow 16384 0 (plain [1; 2; 3]) RowLive). split; [vm_compute; reflexivity|].
  intros [|i] Hi; [done|]. exfalso. vm_compute in Hi. lia.
Qed.

Lemma stored_list : live_list stored_world (zip_with pointer_of (td_types td_doc)
  (read_back stored_world (td_types td_doc) (doc_row (Some (DPtr (toast_pointer_datum stored_pointer)))))).
Proof.
  assert (E : zip_with pointer_of (td_types td_doc) (read_back stored_world (td_types td_doc) (doc_row (Some (DPtr (toast_pointer_datum stored_pointer))))) =
    [None; Some stored_pointer; None]) by (vm_compute; reflexivity).
  rewrite E. intros [|[|[|i]]] tp Hi; try done. injection Hi as <-. split; [exact stored_live|]. intros [|[|[|j]]] tq Hj Hne; done.
Qed.

Lemma stored_ready : toast_ready stored_world rel_doc (doc_lvs LNull).
Proof.
  split; [exact td_doc_ok|done| |done|done]. intros _. exists stored_table, stored_index. split; [|vm_compute; reflexivity].
  split; try done; try apply stored_table_ok; vm_compute; done.
Qed.

(** An update that sets the column to NULL. *)
Lemma heap_toast_update_correct_witness :
  exists newtup oldtup w' tup rel', heap_form_tuple stored_world td_doc (doc_row None) = Ok newtup /\
    heap_form_tuple stored_world td_doc (doc_row (Some (DPtr (toast_pointer_datum stored_pointer)))) = Ok oldtup /\
    heap_toast_insert_or_update stored_world rel_doc newtup (Some oldtup) = Ok (w', tup, rel') /\ gone_value false w' stored_pointer.
Proof.
  destruct (doc_formed stored_world None LNull (R_null _ _)) as (newtup & E1 & HI1 & Hl1); [done|].
  destruct (doc_formed stored_world _ _ stored_represents) as (oldtup & E2 & HI2 & _); [done|].
  destruct (heap_toast_update_correct stored_world rel_doc (doc_row None) newtup (doc_lvs LNull)
    (doc_row (Some (DPtr (toast_pointer_datum stored_pointer)))) oldtup (doc_lvs (LData [1; 2; 3])))
    as (w' & tup & rel' & row & td & E & _ & _ & _ & _ & _ & _ & _ & _ & Hold & _).
  - exact stored_ready.
  - exact HI1.
  - exact Hl1.
  - apply doc_represents. constructor.
  - exact HI2.
  - apply doc_represents, stored_represents.
  - exact stored_list.
  - exists newtup, oldtup, w', tup, rel'. split_and!; try done.
    exact (Hold 1%nat (mkElemType (-1) false TYPALIGN_INT TYPSTORAGE_EXTERNAL) _ stored_pointer eq_refl eq_refl eq_refl).
Defined.

(** ** A target below the header *)

(** [maxDataLen] is unsigned: when the header is longer than
    [toast_tuple_target], the limit wraps around, no tuple is too long, and
    nothing is compressed or moved out but attributes with storage MAIN. *)
Theorem toast_target_wraps w rel hoff ttc lvs :
  let atts := td_types (rd_att rel) in let target := RelationGetToastTupleTarget rel TOAST_TUPLE_TARGET in
  Forall elem_ok atts -> ctx_inv w atts ttc lvs -> row_size atts lvs <= MaxAllocSize -> 0 <= target < hoff -> hoff <= 232 ->
  toast_rounds w rel hoff ttc = round_externalize (hr_rel rel) atts (TOAST_TUPLE_TARGET_MAIN - hoff) (S (length atts)) true w ttc.
Proof.
  intros atts target He H Hs Ht Hh. unfold toast_rounds. fold atts target.
  pose proof (layout_bound w atts (ttc_values ttc) lvs 0 He (ctx_represents _ _ _ _ H)) as Hb. unfold MaxAllocSize in Hs.
  set (M := uwrap 64 (target - hoff)).
  assert (Hw : (Z.of_nat (length (layout w atts (ttc_values ttc) 0)) >? M) = false).
  { rewrite Z.gtb_ltb. apply Z.ltb_ge. unfold M, uwrap. replace ((target - hoff) mod 2 ^ 64) with (2 ^ 64 + (target - hoff)); [lia|].
    rewrite <- (Z.mod_small (2 ^ 64 + (target - hoff)) (2 ^ 64)) at 1 by lia. rewrite Z.add_comm. by rewrite <- (Z_mod_plus_full (target - hoff) 1), Z.mul_1_l. }
  pose proof (too_long_ok w atts M ttc lvs He H) as Hl. rewrite Hw in Hl.
  assert (E1 : round1 (hr_rel rel) atts M (S (length atts)) w ttc = Ok (w, ttc)) by (cbn [round1]; by rewrite Hl).
  assert (E2 : round_externalize (hr_rel rel) atts M (S (length atts)) false w ttc = Ok (w, ttc)) by (cbn [round_externalize]; by rewrite Hl).
  assert (E3 : round3 atts M (S (length atts)) w ttc = Ok ttc) by (cbn [round3]; by rewrite Hl).
  rewrite E1. cbn [mbind result_bind]. rewrite E2. cbn [mbind result_bind]. rewrite E3. cbn [mbind result_bind].
  rewrite uwrap_small; [done|]. unfold in_uint. change TOAST_TUPLE_TARGET_MAIN with 8160. lia.
Qed.

(** The default target and the largest one that is allowed. *)
Example toast_targets : TOAST_TUPLE_TARGET = 2032 /\ TOAST_TUPLE_TARGET_MAIN = 8160.
Proof. by split. Qed.

(** A smaller target does not make [heap_prepare_insert] toast: it compares
    with the threshold. *)
Lemma target_not_threshold w rel tup :
  HeapTupleHasExternal tup = false -> t_len tup <= 2032 -> toast_on_insert w rel tup = Ok (w, tup, rel).
Proof.
  intros He Hl. unfold toast_on_insert. rewrite He. change TOAST_TUPLE_THRESHOLD with 2032. cbn [orb].
  by replace (t_len tup >? 2032) with false by (symmetry; rewrite Z.gtb_ltb; apply Z.ltb_ge; lia).
Qed.
