(* ===== verification/ToastFlatten.v ===== *)
(** * Deleting and flattening tuples

    [heap_toast_delete], and the functions that turn a tuple with out-of-line
    values into one that can stand alone. *)

From stdpp Require Import gmap.
From S2P Require Import Prelude Varlena PgLz PgLzTheorems Toast ToastInline ToastTable ToastStore ToastTheorems.
From S2P Require Import HeapTuple HeapTupleFill HeapTupleProofs HeapTupleRead HeapTupleTheorems.
From S2P Require Import ToastTuple ToastTupleInv ToastTupleRounds ToastTupleInsert ToastTupleTheorems.

(** ** Deleting *)

(** [heap_toast_delete], for a DELETE or for a speculative insertion that
    is taken back: when the out-of-line values of the tuple are live and
    different, all their chunks get deleted (or killed), and no other value
    that was live is touched. *)
Theorem heap_toast_delete_correct w rel values tup lvs is_speculative :
  let atts := td_types (rd_att rel) in let tps := zip_with pointer_of atts (read_back w atts values) in
  desc_ok (rd_att rel) -> tuple_image w atts values tup -> represents_all w atts values lvs -> live_list w tps ->
  exists w' rel', heap_toast_delete w rel tup is_speculative = Ok (w', rel') /\
    desc_ok (rd_att rel') /\ same_desc (rd_att rel) (rd_att rel') /\
    (forall i tp, tps !! i = Some (Some tp) -> gone_value is_speculative w' tp) /\
    (forall tq, live_value w tq -> (forall i tp, tps !! i = Some (Some tp) -> toast_key tq <> toast_key tp) -> live_value w' tq).
Proof.
  intros atts tps Hd HI Hr Hlive. destruct (image_read w _ _ _ HI (rd_att rel) Hd eq_refl) as (td & E & Hd' & Hs).
  assert (He : Forall elem_ok atts) by apply Hd. pose proof (represents_read_back w atts values lvs He Hr) as Hrow.
  unfold heap_toast_delete. rewrite E. fold atts. rewrite (toast_delete_external_all is_speculative w w atts _ lvs Hrow). fold tps.
  destruct (delete_all_ok is_speculative w tps Hlive) as (w' & -> & D). cbn [mbind result_bind]. exists w', (set_att rel td).
  split_and!; try done.
  - intros i tp Hi. apply (dl_done _ _ _ _ D). by exists i.
  - intros tq Hq Hne. apply (dl_live _ _ _ _ D); [done|]. intros tp [i Hi]. by apply (Hne i).
Qed.

Lemma heap_toast_delete_correct_witness :
  exists tup w' rel', heap_form_tuple stored_world td_doc (doc_row (Some (DPtr (toast_pointer_datum stored_pointer)))) = Ok tup /\
    heap_toast_delete stored_world rel_doc tup true = Ok (w', rel') /\ gone_value true w' stored_pointer.
Proof.
  destruct (doc_formed stored_world _ _ stored_represents) as (tup & E & HI & _); [done|].
  destruct (heap_toast_delete_correct stored_world rel_doc _ tup (doc_lvs (LData [1; 2; 3])) true td_doc_ok HI (doc_represents _ _ _ stored_represents) stored_list)
    as (w' & rel' & E' & _ & _ & Hg & _).
  exists tup, w', rel'. split; [done|]. split; [done|]. apply (Hg 1%nat). reflexivity.
Defined.

(** ** Flattening *)

(** Every varlena is in line; [plain_only]: and not compressed either. *)
Definition in_line (plain_only : bool) (atts : list ElemType) (row : list (option Datum)) : Prop :=
  forall i et p, atts !! i = Some et -> row !! i = Some (Some (DPtr p)) -> typlen et = -1 ->
    VARATT_IS_EXTERNAL p = false /\ (plain_only = true -> VARATT_IS_COMPRESSED p = false).

Lemma in_line_cons b et atts v row :
  (forall p, v = Some (DPtr p) -> typlen et = -1 -> VARATT_IS_EXTERNAL p = false /\ (b = true -> VARATT_IS_COMPRESSED p = false)) ->
  in_line b atts row -> in_line b (et :: atts) (v :: row).
Proof. intros H0 H [|i] et' p Hi Hv Hl; [|by eapply (H i)]. injection Hi as <-. injection Hv as ->. by apply H0. Qed.

Lemma represents_all_intro w et atts v values lv lvs :
  represents w et v lv -> represents_all w atts values lvs -> represents_all w (et :: atts) (v :: values) (lv :: lvs).
Proof.
  intros Hr (H1 & H2 & H3). split_and!; [cbn; lia|cbn; lia|]. intros [|i] et' v' lv' Hi Hv Hlv; [|by eapply (H3 i)].
  injection Hi as <-. injection Hv as <-. injection Hlv as <-. done.
Qed.

Lemma flatten_values_ok w atts values lvs : represents_all w atts values lvs ->
  exists vs, flatten_values w atts values = Ok vs /\ represents_all w atts vs lvs /\ in_line false atts vs.
Proof.
  revert values lvs. induction atts as [|et atts IH]; intros values lvs Hr; pose proof Hr as (L1 & L2 & _).
  { exists []. split; [by destruct values|]. split; [by destruct lvs|done]. }
  destruct values as [|v values]; [done|]. destruct lvs as [|lv lvs]; [done|]. apply represents_all_cons in Hr as [Hr Hrs].
  destruct (IH values lvs Hrs) as (vs & E & Hvs & Hin). cbn [flatten_values]. rewrite E.
  destruct Hr as [|d Hl Hd|p data Hb Hl Hd Hf]; cbn [mbind result_bind].
  - exists (None :: vs). split; [done|]. split; [apply represents_all_intro; [constructor|done]|by apply in_line_cons].
  - apply Z.eqb_neq in Hl as Hl'. rewrite Hl'. cbn [andb mbind result_bind]. exists (Some d :: vs). split; [done|].
    split; [apply represents_all_intro; [by constructor|done]|by apply in_line_cons].
  - pose proof (data_ok_fits _ Hd) as Hfit. rewrite Hl. change (-1 =? -1) with true. cbn [andb DatumGetPointer].
    assert (Hq : exists q, (if VARATT_IS_EXTERNAL p then p0 ← detoast_external_attr w p; Ok (Some (DPtr p0)) else Ok (Some (DPtr p))) = Ok (Some (DPtr q)) /\ inline_form data q).
    { destruct Hf as [p Hp|c tp Hx Hpos].
      - destruct (inline_size data p Hfit Hp) as [_ HE]. unfold VARATT_IS_EXTERNAL. rewrite HE. by exists p.
      - change (VARATT_IS_EXTERNAL (toast_pointer_datum tp)) with true. cbv iota. destruct (detoast_external_attr_ok w data c tp Hx) as (q & -> & Hq). by exists q. }
    destruct Hq as (q & -> & Hq). cbn [mbind result_bind]. exists (Some (DPtr q) :: vs). split; [done|].
    split; [apply represents_all_intro; [|done]; constructor; try done; by constructor|]. apply in_line_cons; [|done].
    intros p' [= <-] _. destruct (inline_size data q Hfit Hq) as [_ HE]. done.
Qed.

Lemma detoast_values_ok w atts values lvs : represents_all w atts values lvs ->
  exists vs, detoast_values w atts values = Ok vs /\ represents_all w atts vs lvs /\ in_line true atts vs.
Proof.
  revert values lvs. induction atts as [|et atts IH]; intros values lvs Hr; pose proof Hr as (L1 & L2 & _).
  { exists []. split; [by destruct values|]. split; [by destruct lvs|done]. }
  destruct values as [|v values]; [done|]. destruct lvs as [|lv lvs]; [done|]. apply represents_all_cons in Hr as [Hr Hrs].
  destruct (IH values lvs Hrs) as (vs & E & Hvs & Hin). cbn [detoast_values]. rewrite E.
  destruct Hr as [|d Hl Hd|p data Hb Hl Hd Hf]; cbn [mbind result_bind].
  - exists (None :: vs). split; [done|]. split; [apply represents_all_intro; [constructor|done]|by apply in_line_cons].
  - apply Z.eqb_neq in Hl as Hl'. rewrite Hl'. cbn [andb mbind result_bind]. exists (Some d :: vs). split; [done|].
    split; [apply represents_all_intro; [by constructor|done]|by apply in_line_cons].
  - pose proof (data_ok_fits _ Hd) as Hfit. rewrite Hl. change (-1 =? -1) with true. cbn [andb DatumGetPointer].
    assert (Hq : exists q, (if VARATT_IS_EXTERNAL p || VARATT_IS_COMPRESSED p then p0 ← Toast.detoast_attr w p; Ok (Some (DPtr p0)) else Ok (Some (DPtr p))) = Ok (Some (DPtr q)) /\
      inline_form data q /\ VARATT_IS_COMPRESSED q = false).
    { assert (Hplain : VARATT_IS_COMPRESSED (plain data) = false) by (by destruct (plain_header data Hfit) as (_ & _ & H & _)).
      destruct Hf as [p Hp|c tp Hx Hpos].
      - destruct (inline_size data p Hfit Hp) as [_ HE]. unfold VARATT_IS_EXTERNAL. rewrite HE. cbn [orb]. destruct (VARATT_IS_COMPRESSED p) eqn:Ec; [|by exists p].
        rewrite (detoast_inline w data p Hfit Hp). exists (plain data). split; [done|]. split; [constructor|done].
      - change (VARATT_IS_EXTERNAL (toast_pointer_datum tp)) with true. cbn [orb]. rewrite (detoast_external w data c tp Hx). exists (plain data).
        split; [done|]. split; [constructor|done]. }
    destruct Hq as (q & -> & Hq & Hc). cbn [mbind result_bind]. exists (Some (DPtr q) :: vs). split; [done|].
    split; [apply represents_all_intro; [|done]; constructor; try done; by constructor|]. apply in_line_cons; [|done].
    intros p' [= <-] _. destruct (inline_size data q Hfit Hq) as [_ HE]. done.
Qed.

Lemma in_line_read_back b w atts values lvs :
  Forall elem_ok atts -> represents_all w atts values lvs -> in_line b atts values -> in_line b atts (read_back w atts values).
Proof.
  intros He (L1 & L2 & Hr) Hin i et q Hi Hq Hl. unfold read_back in Hq. rewrite lookup_zip_with, Hi in Hq.
  destruct (values !! i) as [v|] eqn:Ev; [|done]. cbn in Hq. destruct v as [d|]; [|done].
  destruct (lookup_lt_is_Some_2 lvs i) as [lv Hlv]; [pose proof (lookup_lt_Some _ _ _ Hi); lia|].
  assert (Het : elem_ok et) by (rewrite Forall_lookup in He; by eapply He).
  pose proof (Hr i et _ lv Hi Ev Hlv) as Hd. inversion Hd as [|? Hne|p data Hb _ Hok Hf]; subst; [done|].
  pose proof (data_ok_fits _ Hok) as Hfit. cbn in Hq. injection Hq as Hq. unfold cell_datum in Hq. rewrite Hb in Hq. injection Hq as <-.
  destruct (Hin i et p Hi Ev Hl) as [HE Hc]. destruct Hf as [p Hp|c tp Hx Hpos]; [|done].
  destruct (inline_cell_cases w et data p Hb Hl Hfit Hp) as [-> |(-> & Hs & _)]; [done|].
  by destruct (short_header_facts data Hs) as (? & _ & ? & _).
Qed.

Lemma in_line_external b w atts values lvs : represents_all w atts values lvs -> in_line b atts values -> any2 is_external atts values = false.
Proof.
  revert values lvs. induction atts as [|et atts IH]; intros values lvs Hr Hin; [done|]. pose proof Hr as (L1 & L2 & _).
  destruct values as [|v values]; [done|]. destruct lvs as [|lv lvs]; [done|]. apply represents_all_cons in Hr as [Hr Hrs].
  unfold any2. cbn [zip zip_with existsb fst snd]. apply orb_false_iff. split; [|by apply (IH values lvs Hrs); intros i; apply (Hin (S i))].
  unfold is_external. destruct Hr as [|d Hl Hd|p data Hb Hl Hd Hf]; [done| |].
  - apply Z.eqb_neq in Hl. by rewrite Hl, andb_false_r.
  - cbn [DatumGetPointer]. destruct (Hin O et p eq_refl eq_refl Hl) as [-> _]. by rewrite andb_false_r.
Qed.

(** Changing only the masks that transactions use. *)
Lemma xact_masks im im' m : m < 4 -> 0 <= m -> Z.testbit (Z.lor (Z.land im (Z.lnot HEAP_XACT_MASK)) (Z.land im' HEAP_XACT_MASK)) m = Z.testbit im m.
Proof.
  intros H1 H2. rewrite Z.lor_spec, !Z.land_spec, Z.lnot_spec by lia.
  assert (Hm : Z.testbit HEAP_XACT_MASK m = false) by (assert (m = 0 \/ m = 1 \/ m = 2 \/ m = 3) as [-> |[-> |[-> | ->]]] by lia; done).
  by rewrite Hm, andb_true_r, andb_false_r, orb_false_r.
Qed.

Lemma xact_natts im im' : Z.land (Z.lor (Z.land im (Z.lnot HEAP2_XACT_MASK)) (Z.land im' HEAP2_XACT_MASK)) HEAP_NATTS_MASK = Z.land im HEAP_NATTS_MASK.
Proof.
  rewrite Z.land_lor_distr_l, <- !Z.land_assoc. change (Z.land (Z.lnot HEAP2_XACT_MASK) HEAP_NATTS_MASK) with HEAP_NATTS_MASK.
  change (Z.land HEAP2_XACT_MASK HEAP_NATTS_MASK) with 0. by rewrite Z.land_0_r, Z.lor_0_r.
Qed.

(** A tuple that holds the values [lvs], all of them in line. *)
Definition flat_tuple (plain_only : bool) (w : World) (td : TupleDesc) (lvs : list Lval) (tup' : HeapTuple) (td' : TupleDesc) : Prop :=
  desc_ok td' /\ same_desc td td' /\ HeapTupleHasExternal tup' = false /\
  exists row td'', heap_deform_tuple tup' td' = (row, td'') /\ reads w row lvs /\ in_line plain_only (td_types td) row.

Lemma flat_image b w td td' vs tup' lvs :
  desc_ok td' -> same_desc td td' -> tuple_image w (td_types td) vs tup' -> represents_all w (td_types td) vs lvs -> in_line b (td_types td) vs ->
  flat_tuple b w td lvs tup' td'.
Proof.
  intros Hd Hs HI Hr Hin. pose proof (same_desc_types _ _ Hs) as Ht. assert (He : Forall elem_ok (td_types td)) by apply HI.
  split; [done|]. split; [done|]. split.
  - unfold HeapTupleHasExternal. change HEAP_HASEXTERNAL with (2 ^ 2). rewrite bit_set_testbit by lia. rewrite (ti_ext _ _ _ _ HI). by eapply in_line_external.
  - destruct (image_read w td vs tup' HI td' Hd (eq_sym Ht)) as (td'' & E & _). eexists _, td''. split; [done|].
    split; [by apply reads_read_back|by eapply in_line_read_back].
Qed.

(** Flattening a tuple, whatever the forms of its values: [toast_flatten_tuple]
    gives a tuple that reads back as the same values, none of them out of
    line, with the identity and the transaction bits of the original;
    [toast_flatten_tuple_to_datum] gives a composite datum with the same
    values, none of them compressed either, and the header of a datum. *)
Theorem toast_flatten_correct w td values tup lvs :
  desc_ok td -> td_natts td <= MaxTupleAttributeNumber -> HEAPTUPLESIZE + 232 + row_size (td_types td) lvs <= MaxAllocSize ->
  tuple_image w (td_types td) values tup -> represents_all w (td_types td) values lvs ->
  (exists tup' td', toast_flatten_tuple w tup td = Ok (tup', td') /\ flat_tuple false w td lvs tup' td' /\ same_identity tup tup' /\
     Z.land (t_infomask tup') HEAP_XACT_MASK = Z.land (t_infomask tup) HEAP_XACT_MASK) /\
  (exists tup' td', toast_flatten_tuple_to_datum w tup td = Ok (tup', td') /\ flat_tuple true w td lvs tup' td' /\
     t_choice tup' = (SET_VARSIZE (t_len tup'), tdtypmod td, tdtypeid td) /\ t_len tup' = SizeofHeapTupleHeader + Z.of_nat (length (t_bits tup'))).
Proof.
  intros Hd Hn Hsize HI Hr. assert (He : Forall elem_ok (td_types td)) by apply Hd.
  destruct (image_read w td values tup HI td Hd eq_refl) as (td' & E & Hd' & Hs). pose proof (same_desc_types _ _ Hs) as Ht.
  pose proof (represents_read_back w _ values lvs He Hr) as Hrow.
  assert (Hna : td_natts td' = Z.of_nat (length (td_types td))) by (rewrite Ht; unfold td_natts, td_types; by rewrite length_map).
  assert (Hmax : Z.of_nat (length (td_types td)) <= MaxTupleAttributeNumber) by (unfold td_types; rewrite length_map; exact Hn).
  unfold toast_flatten_tuple, toast_flatten_tuple_to_datum. rewrite E, <- Ht. split.
  - destruct (flatten_values_ok w _ _ lvs Hrow) as (vs & -> & Hvs & Hin). cbn [mbind result_bind].
    destruct (refill_ok w _ vs lvs 0 He Hvs Hmax) as (_ & B1 & B2 & Ets & _).
    destruct (heap_form_tuple_image w td' vs) as (t & -> & HI' & _ & _); [rewrite <- Ht; by eapply represents_values_ok|lia|rewrite <- Ht, <- Ets; lia|].
    rewrite <- Ht in HI'. cbn [mbind result_bind]. eexists _, td'. split; [reflexivity|]. split_and!; try done.
    + apply (flat_image false w td td' vs); try done. destruct HI' as [I1 I2 I3 I4 I5 I6 I7 I8].
      split; cbn [t_hoff t_len t_bits t_infomask t_infomask2]; try done; unfold HeapTupleHeaderGetNatts; cbn [t_infomask2];
        [rewrite xact_natts; exact I2|rewrite xact_masks by lia; done..].
    + cbn [t_infomask]. rewrite Z.land_lor_distr_l, <- !Z.land_assoc, (Z.land_comm (Z.lnot _)), Z.land_lnot_diag, Z.land_0_r, Z.lor_0_l.
      by rewrite Z.land_diag.
  - destruct (detoast_values_ok w _ _ lvs Hrow) as (vs & -> & Hvs & Hin). cbn [mbind result_bind].
    destruct (refill_ok w _ vs lvs (t_infomask tup) He Hvs Hmax) as (Esz & B1 & B2 & Ets & st & Est & HI'). rewrite Hna, Esz. cbn [mbind result_bind].
    assert (HS : SizeofHeapTupleHeader = 23 /\ MaxAllocSize = 1073741823 /\ HEAPTUPLESIZE = 24) by done.
    set (hoff := MAXALIGN _) in *. set (L := Z.of_nat (length (layout w (td_types td) vs 0))) in *.
    unfold palloc0. replace (_ >? _) with false by (symmetry; rewrite Z.gtb_ltb; apply Z.ltb_ge; lia). cbn [mbind result_bind]. rewrite Est. cbn [mbind result_bind].
    rewrite !uwrap_small by (unfold in_uint; lia). eexists _, td'. split; [reflexivity|].
    split; [by apply (flat_image true w td td' vs)|]. destruct Hs as (-> & -> & _). split; [done|]. eapply ti_len. by apply HI'.
Qed.

Lemma toast_flatten_correct_witness :
  exists tup tup' td', heap_form_tuple stored_world td_doc (doc_row (Some (DPtr (toast_pointer_datum stored_pointer)))) = Ok tup /\
    toast_flatten_tuple stored_world tup td_doc = Ok (tup', td') /\ flat_tuple false stored_world td_doc (doc_lvs (LData [1; 2; 3])) tup' td'.
Proof.
  destruct (doc_formed stored_world _ _ stored_represents) as (tup & E & HI & _); [done|].
  destruct (toast_flatten_correct stored_world td_doc _ tup (doc_lvs (LData [1; 2; 3])) td_doc_ok ltac:(done) ltac:(done) HI (doc_represents _ _ _ stored_represents))
    as [(tup' & td' & E' & Hf & _) _].
  exists tup, tup', td'. split_and!; done.
Defined.
