(* ===== verification/IndexTuple.v ===== *)
(** * Index tuples

    indextuple.c, with the macros of access/itup.h: forming the tuple of an
    index entry, which must not depend on values out of line, taking it apart,
    and truncating it to its first columns.

    A tuple is its header fields and its bytes after the header, from offset
    [SizeofIndexTupleData] on: the null bitmap of fixed size when there is one,
    padding, and the data. *)

From S2P Require Import Prelude Varlena PgLz Toast HeapTuple ToastTuple.

Record IndexTuple : Type := mkIndexTuple {
  t_tid : ItemPointer;
  t_info : Z;
  it_bytes : list Z
}.

Definition INDEX_MAX_KEYS : Z := 32.
Definition SizeofIndexTupleData : Z := 8.
Definition SizeofIndexAttributeBitMap : Z := (INDEX_MAX_KEYS + 8 - 1) ÷ 8.
Definition INDEX_SIZE_MASK : Z := 0x1FFF.
Definition INDEX_VAR_MASK : Z := 0x4000.
Definition INDEX_NULL_MASK : Z := 0x8000.

Definition IndexTupleSize (itup : IndexTuple) : Z := Z.land (t_info itup) INDEX_SIZE_MASK.
Definition IndexTupleHasNulls (itup : IndexTuple) : bool := bit_set (t_info itup) INDEX_NULL_MASK.
Definition IndexTupleHasVarwidths (itup : IndexTuple) : bool := bit_set (t_info itup) INDEX_VAR_MASK.

Definition IndexInfoFindDataOffset (info : Z) : Z :=
  if negb (bit_set info INDEX_NULL_MASK) then MAXALIGN SizeofIndexTupleData
  else MAXALIGN (SizeofIndexTupleData + SizeofIndexAttributeBitMap).

(** The data of the tuple. *)
Definition it_data (itup : IndexTuple) : list Z :=
  drop (Z.to_nat (IndexInfoFindDataOffset (t_info itup) - SizeofIndexTupleData)) (it_bytes itup).

(** [MaxHeapTupleSize / 16]. *)
Definition TOAST_INDEX_TARGET : Z := (8192 - MAXALIGN (24 + 4)) ÷ 16.

(** ** Forming *)

(** Fetch a value that is out of line, and compress it when it is long. *)
Definition untoast_value (w : World) (att : ElemType) (v : option Datum) : result (option Datum) :=
  match v with
  | None => Ok None
  | Some d =>
      if negb (typlen att =? -1) then Ok v
      else
        p ← (if VARATT_IS_EXTERNAL (DatumGetPointer d) then detoast_external_attr w (DatumGetPointer d) else Ok (DatumGetPointer d));
        if negb (VARATT_IS_EXTENDED p) && (VARSIZE_4B p >? TOAST_INDEX_TARGET) &&
           (bool_decide (typstorage att = TYPSTORAGE_EXTENDED) || bool_decide (typstorage att = TYPSTORAGE_MAIN))
        then
          cvalue ← toast_compress_datum p;
          Ok (Some (DPtr match cvalue with Some c => c | None => p end))
        else Ok (Some (DPtr p))
  end.

Fixpoint untoast_values (w : World) (atts : list ElemType) (values : list (option Datum)) : result (list (option Datum)) :=
  match atts, values with
  | att :: atts', v :: values' =>
      v ← untoast_value w att v;
      values' ← untoast_values w atts' values';
      Ok (v :: values')
  | _, _ => Ok []
  end.

Definition index_form_tuple (w : World) (td : TupleDesc) (values : list (option Datum)) : result IndexTuple :=
  if td_natts td >? INDEX_MAX_KEYS then ereport ERRCODE_TOO_MANY_COLUMNS "number of index columns exceeds limit"
  else
    untoasted_values ← untoast_values w (td_types td) values;
    let hasnull := has_null (take (length (td_attrs td)) values) in
    let infomask := if hasnull then INDEX_NULL_MASK else 0 in
    let hoff := IndexInfoFindDataOffset infomask in
    data_size ← heap_compute_data_size w (td_types td) untoasted_values;
    let size := MAXALIGN (hoff + data_size) in
    _ ← palloc0 size;
    st ← heap_fill_tuple w SizeofIndexTupleData (td_types td) untoasted_values
           (replicate (Z.to_nat (size - SizeofIndexTupleData)) 0) hoff 0 hasnull;
    let infomask := if bit_set (f_infomask st) HEAP_HASVARWIDTH then Z.lor infomask INDEX_VAR_MASK else infomask in
    if negb (Z.land size INDEX_SIZE_MASK =? size) then
      ereport ERRCODE_PROGRAM_LIMIT_EXCEEDED "index row requires more bytes than the maximum size"
    else Ok (mkIndexTuple (0, 0) (Z.lor infomask size) (f_buf st)).

(** ** Taking apart *)

Definition index_deform_tuple (itup : IndexTuple) (td : TupleDesc) : list (option Datum) * TupleDesc :=
  let '(values, attrs) := deform_loop (IndexTupleHasNulls itup) (it_bytes itup) (it_data itup) (td_attrs td) 0 0 false in
  (values, set_attrs td attrs).

(** An attribute that is not NULL; [attnum] counts from 1. *)
Definition nocache_index_getattr (itup : IndexTuple) (attnum : Z) (td : TupleDesc) : result (Datum * TupleDesc) :=
  let attnum := attnum - 1 in
  let bp := it_bytes itup in
  let tp := it_data itup in
  att ← array_get (td_attrs td) attnum;
  let slow := IndexTupleHasNulls itup && nulls_before bp attnum in
  if negb slow && (attcacheoff att >=? 0) then
    Ok (fetchatt (att_type att) (drop (Z.to_nat (attcacheoff att)) tp), td)
  else
    let slow := slow || (IndexTupleHasVarwidths itup
                         && existsb (fun a => attlen a <=? 0) (take (S (Z.to_nat attnum)) (td_attrs td))) in
    if negb slow then
      let attrs := init_all_offsets (td_attrs td) in
      att ← array_get attrs attnum;
      Ok (fetchatt (att_type att) (drop (Z.to_nat (attcacheoff att)) tp), set_attrs td attrs)
    else
      '(off, attrs) ← getattr_walk (IndexTupleHasNulls itup) bp tp (td_attrs td) 0 0 false attnum;
      Ok (fetchatt (att_type att) (drop (Z.to_nat off) tp), set_attrs td attrs).

Definition index_getattr (itup : IndexTuple) (attnum : Z) (td : TupleDesc) : result (option Datum * TupleDesc) :=
  if negb (IndexTupleHasNulls itup) then
    att ← array_get (td_attrs td) (attnum - 1);
    if attcacheoff att >=? 0 then
      Ok (Some (fetchatt (att_type att) (drop (Z.to_nat (attcacheoff att)) (it_data itup))), td)
    else '(d, td) ← nocache_index_getattr itup attnum td; Ok (Some d, td)
  else if att_isnull (attnum - 1) (it_bytes itup) then Ok (None, td)
  else '(d, td) ← nocache_index_getattr itup attnum td; Ok (Some d, td).

(** ** Copying and truncating *)

Definition CopyIndexTuple (source : IndexTuple) : IndexTuple :=
  mkIndexTuple (t_tid source) (t_info source) (take (Z.to_nat (IndexTupleSize source - SizeofIndexTupleData)) (it_bytes source)).

(** [TupleDescCopy]: no defaults and missing values. *)
Definition TupleDescCopy (td : TupleDesc) : TupleDesc :=
  mkTupleDesc (tdtypeid td) (tdtypmod td) false (map (fun a => mkAttr (att_type a) (attcacheoff a) false None) (td_attrs td)).

Definition index_truncate_tuple (w : World) (td : TupleDesc) (source : IndexTuple) (leavenatts : Z) : result IndexTuple :=
  if leavenatts =? td_natts td then Ok (CopyIndexTuple source)
  else
    let truncdesc := set_attrs (TupleDescCopy td) (take (Z.to_nat leavenatts) (td_attrs (TupleDescCopy td))) in
    let '(values, truncdesc) := index_deform_tuple source truncdesc in
    truncated ← index_form_tuple w truncdesc values;
    Ok (mkIndexTuple (t_tid source) (t_info truncated) (it_bytes truncated)).
