(* ===== verification/IndexTupleTheorems.v ===== *)
(** * Index tuples read like heap tuples *)

From stdpp Require Import gmap.
From S2P Require Import Prelude Varlena PgLz PgLzTheorems Toast ToastInline ToastTable ToastStore ToastTheorems.
From S2P Require Import HeapTuple HeapTupleFill HeapTupleProofs HeapTupleRead HeapTupleExpand HeapTupleTheorems.
From S2P Require Import ToastTuple ToastTupleInv ToastTupleRounds ToastTupleInsert ToastTupleTheorems ToastFlatten IndexTuple.

(** ** The heap tuple with the same data *)

(** The heap tuple whose bitmap and data are those of the index tuple: its
    header is longer, and so is the space before the data. *)
Definition as_heap (natts : Z) (itup : IndexTuple) : HeapTuple :=
  let gap := Z.to_nat (IndexInfoFindDataOffset (t_info itup) - SizeofIndexTupleData) in
  let bits := take gap (it_bytes itup) ++ replicate (gap - length (it_bytes itup)) 0 ++ 0 :: it_data itup in
  mkTuple (SizeofHeapTupleHeader + Z.of_nat (length bits)) InvalidItemPointer InvalidOid (0, 0, 0) InvalidItemPointer natts
    (Z.lor (if IndexTupleHasNulls itup then HEAP_HASNULL else 0) (if IndexTupleHasVarwidths itup then HEAP_HASVARWIDTH else 0))
    (IndexInfoFindDataOffset (t_info itup) + 16) bits.

Lemma data_offset info : IndexInfoFindDataOffset info = if bit_set info INDEX_NULL_MASK then 16 else 8.
Proof. unfold IndexInfoFindDataOffset. by destruct (bit_set info INDEX_NULL_MASK). Qed.

Lemma as_heap_nulls natts itup : HeapTupleHasNulls (as_heap natts itup) = IndexTupleHasNulls itup.
Proof. unfold HeapTupleHasNulls. cbn [t_infomask as_heap]. by destruct (IndexTupleHasNulls itup), (IndexTupleHasVarwidths itup). Qed.

Lemma as_heap_var natts itup : HeapTupleHasVarWidth (as_heap natts itup) = IndexTupleHasVarwidths itup.
Proof. unfold HeapTupleHasVarWidth. cbn [t_infomask as_heap]. by destruct (IndexTupleHasNulls itup), (IndexTupleHasVarwidths itup). Qed.

Lemma as_heap_data natts itup : t_data (as_heap natts itup) = it_data itup.
Proof.
  unfold t_data. cbn [t_hoff t_bits as_heap]. rewrite data_offset. unfold SizeofHeapTupleHeader, SizeofIndexTupleData.
  set (b := if bit_set _ _ then 16 else 8). assert (Hb : b = 8 \/ b = 16) by (unfold b; destruct (bit_set _ _); lia).
  rewrite !app_assoc. change (0 :: it_data itup) with ([0] ++ it_data itup). rewrite app_assoc. apply drop_app_length'.
  rewrite !length_app, length_take, length_replicate. cbn [length]. lia.
Qed.

Lemma as_heap_byte natts itup i : IndexTupleHasNulls itup = true -> 0 <= i < 8 -> byte_at (t_bits (as_heap natts itup)) i = byte_at (it_bytes itup) i.
Proof.
  intros Hn Hi. unfold IndexTupleHasNulls in Hn. cbn [t_bits as_heap]. rewrite data_offset, Hn. unfold SizeofIndexTupleData. change (Z.to_nat (16 - 8)) with 8%nat.
  unfold byte_at. destruct (decide (Z.to_nat i < length (it_bytes itup))%nat) as [Hl|Hl].
  - rewrite app_nth1 by (rewrite length_take; lia). rewrite <- (firstn_skipn 8 (it_bytes itup)) at 2. rewrite app_nth1 by (rewrite length_take; lia). done.
  - rewrite app_nth2 by (rewrite length_take; lia). rewrite length_take, Nat.min_r by lia. rewrite (nth_overflow (it_bytes itup)) by lia.
    rewrite app_nth1 by (rewrite length_replicate; lia). by rewrite nth_lookup, lookup_replicate_2 by lia.
Qed.

Lemma as_heap_isnull natts itup i : IndexTupleHasNulls itup = true -> 0 <= i < 64 -> att_isnull i (t_bits (as_heap natts itup)) = att_isnull i (it_bytes itup).
Proof.
  intros Hn Hi. unfold att_isnull. rewrite as_heap_byte; [done|done|]. rewrite Z.shiftr_div_pow2 by lia. change (2 ^ 3) with 8. zlia.
Qed.

(** Only the bits of the attributes that are passed matter. *)
Lemma deform_loop_bits hn bp bp' tp attrs n off slow :
  (hn = true -> forall i, n <= i < n + Z.of_nat (length attrs) -> att_isnull i bp = att_isnull i bp') ->
  deform_loop hn bp tp attrs n off slow = deform_loop hn bp' tp attrs n off slow.
Proof.
  revert n off slow. induction attrs as [|a attrs IH]; intros n off slow H; [done|]. cbn [deform_loop].
  assert (E : hn && att_isnull n bp = hn && att_isnull n bp') by (destruct hn; [cbn; apply H; [done|cbn [length]; lia]|done]).
  assert (IH' : forall off slow, deform_loop hn bp tp attrs (n + 1) off slow = deform_loop hn bp' tp attrs (n + 1) off slow).
  { intros. apply IH. intros Hn i Hi. apply H; [done|cbn [length]; lia]. }
  rewrite E. destruct (hn && att_isnull n bp'); [by rewrite IH'|]. destruct (attr_offset tp a off slow) as [[a' off'] slow']. by rewrite IH'.
Qed.

Lemma getattr_walk_bits hn bp bp' tp attrs n off slow target :
  (hn = true -> forall i, n <= i < n + Z.of_nat (length attrs) -> att_isnull i bp = att_isnull i bp') ->
  getattr_walk hn bp tp attrs n off slow target = getattr_walk hn bp' tp attrs n off slow target.
Proof.
  revert n off slow. induction attrs as [|a attrs IH]; intros n off slow H; [done|]. cbn [getattr_walk].
  assert (E : hn && att_isnull n bp = hn && att_isnull n bp') by (destruct hn; [cbn; apply H; [done|cbn [length]; lia]|done]).
  assert (IH' : forall off slow, getattr_walk hn bp tp attrs (n + 1) off slow target = getattr_walk hn bp' tp attrs (n + 1) off slow target).
  { intros. apply IH. intros Hn i Hi. apply H; [done|cbn [length]; lia]. }
  rewrite E. destruct (hn && att_isnull n bp'); [by rewrite IH'|]. destruct (attr_offset tp a off slow) as [[a' off'] slow'].
  destruct (n =? target); [done|]. by rewrite IH'.
Qed.

Lemma nulls_before_bytes bp bp' k : 0 <= k -> (forall i, 0 <= i <= k / 8 -> byte_at bp i = byte_at bp' i) -> nulls_before bp k = nulls_before bp' k.
Proof.
  intros Hk H. unfold nulls_before. rewrite Z.shiftr_div_pow2 by lia. change (2 ^ 3) with 8. rewrite (H (k / 8)) by zlia.
  destruct (negb _); [done|]. assert (E : forall l, (forall i, In i l -> byte_at bp i = byte_at bp' i) ->
    existsb (fun i => negb (byte_at bp i =? 255)) l = existsb (fun i => negb (byte_at bp' i =? 255)) l).
  { induction l as [|x l IH]; intros Hl; [done|]. cbn [existsb]. rewrite IH by (intros; apply Hl; by right). by rewrite Hl by (by left). }
  apply E. intros i Hi. apply H. apply list_elem_of_In, elem_of_seqZ in Hi. lia.
Qed.

Section Readers.
Variable (itup : IndexTuple) (td : TupleDesc) (natts : Z).
Hypothesis (Hle : td_natts td <= natts) (Hmax : natts <= INDEX_MAX_KEYS).
Let htup := as_heap natts itup.

Lemma htup_fields : HeapTupleHasNulls htup = IndexTupleHasNulls itup /\ HeapTupleHasVarWidth htup = IndexTupleHasVarwidths itup /\ t_data htup = it_data itup.
Proof. split_and!; [apply as_heap_nulls|apply as_heap_var|apply as_heap_data]. Qed.

Lemma as_heap_natts : HeapTupleHeaderGetNatts htup = natts.
Proof.
  unfold HeapTupleHeaderGetNatts, htup. cbn [t_infomask2 as_heap]. change HEAP_NATTS_MASK with (Z.ones 11). rewrite Z.land_ones by lia.
  apply Z.mod_small. unfold INDEX_MAX_KEYS, td_natts in *. lia.
Qed.

Lemma bits_agree : IndexTupleHasNulls itup = true -> forall i, 0 <= i < td_natts td -> att_isnull i (it_bytes itup) = att_isnull i (t_bits htup).
Proof. intros Hn i Hi. symmetry. apply as_heap_isnull; [done|]. unfold INDEX_MAX_KEYS in *. lia. Qed.

Lemma index_deform_as_heap : index_deform_tuple itup td = heap_deform_tuple htup td.
Proof.
  destruct htup_fields as (Hnulls & Hvar & Hdata). unfold index_deform_tuple, heap_deform_tuple. rewrite as_heap_natts, Z.min_r, Hnulls, Hdata by done. unfold td_natts. rewrite Nat2Z.id, take_ge, drop_ge by lia.
  rewrite (deform_loop_bits _ _ (t_bits htup)); [|intros Hn i Hi; apply bits_agree; [done|unfold td_natts; lia]].
  destruct (deform_loop _ _ _ _ _ _ _) as [values attrs]. by rewrite !app_nil_r.
Qed.

Lemma nocache_index_getattr_as_heap k : 1 <= k <= td_natts td -> nocache_index_getattr itup k td = nocachegetattr htup k td.
Proof.
  intros Hk. destruct htup_fields as (Hnulls & Hvar & Hdata). unfold nocache_index_getattr, nocachegetattr, HeapTupleNoNulls. fold (HeapTupleHasNulls htup).
  rewrite Hnulls, Hvar, Hdata, negb_involutive.
  assert (E : IndexTupleHasNulls itup && nulls_before (it_bytes itup) (k - 1) = IndexTupleHasNulls itup && nulls_before (t_bits htup) (k - 1)).
  { destruct (IndexTupleHasNulls itup) eqn:Hn; [|done]. cbn [andb]. apply nulls_before_bytes; [lia|]. intros i Hi. symmetry. apply as_heap_byte; [done|].
    unfold INDEX_MAX_KEYS in *. zlia. }
  rewrite E. rewrite (getattr_walk_bits _ _ (t_bits htup)); [done|]. intros Hn i Hi. apply bits_agree; [done|unfold td_natts; lia].
Qed.

Lemma index_getattr_as_heap k : 1 <= k <= td_natts td -> index_getattr itup k td = heap_getattr htup k td.
Proof.
  intros Hk. destruct htup_fields as (Hnulls & _ & Hdata). unfold index_getattr, heap_getattr, fastgetattr, HeapTupleNoNulls. fold (HeapTupleHasNulls htup).
  rewrite as_heap_natts. replace (k >? natts) with false by (symmetry; rewrite Z.gtb_ltb; apply Z.ltb_ge; lia).
  rewrite Hnulls, Hdata. rewrite nocache_index_getattr_as_heap by done.
  destruct (IndexTupleHasNulls itup) eqn:Hn; [|done]. cbn [negb]. by rewrite bits_agree by (done || lia).
Qed.

End Readers.

(** ** Values in line *)

(** Long, plain values may get compressed. *)
Definition compressible (et : ElemType) (p : list Z) : bool :=
  negb (VARATT_IS_EXTENDED p) && (VARSIZE_4B p >? TOAST_INDEX_TARGET) &&
  (bool_decide (typstorage et = TYPSTORAGE_EXTENDED) || bool_decide (typstorage et = TYPSTORAGE_MAIN)).

Lemma compressible_plain et data p : fits data -> inline_form data p -> compressible et p = true -> p = plain data /\ 506 < Z.of_nat (length data).
Proof.
  intros Hfit Hp Hc. unfold compressible in Hc. apply andb_true_iff in Hc as [Hc _]. apply andb_true_iff in Hc as [Hc Hs].
  unfold VARATT_IS_EXTENDED in Hc. rewrite negb_involutive in Hc. rewrite Z.gtb_ltb in Hs. apply Z.ltb_lt in Hs. change TOAST_INDEX_TARGET with 510 in Hs.
  pose proof (header_class p) as (_ & HU & _). destruct (HU Hc) as (H1 & _ & H3). destruct Hp as [|Hl|c He Hcs].
  - destruct (plain_header data Hfit) as (_ & _ & _ & _ & Hz & _). rewrite Hz, length_plain in Hs. split; [done|lia].
  - destruct (short_header_facts data Hl) as (_ & ? & _). congruence.
  - destruct (comp_header data c Hfit Hcs) as [? _]. congruence.
Qed.

(** A plain value of that size is not shortened, nor is a compressed one. *)
Lemma long_cells w et data c :
  typbyval et = false -> typlen et = -1 -> fits data -> 506 < Z.of_nat (length data) -> Z.of_nat (length c) + TOAST_COMPRESS_HDRSZ < Z.of_nat (length data) - 2 ->
  cell_short et (DPtr (plain data)) = false /\ cell_short et (DPtr (comp_form data c)) = false /\
  cell_bytes w et (DPtr (plain data)) = plain data /\ cell_bytes w et (DPtr (comp_form data c)) = comp_form data c.
Proof.
  intros Hb Hl Hfit Hlong Hc. destruct (plain_header data Hfit) as (HE & H1 & H3 & HU & Hsz & _). destruct (comp_header data c Hfit Hc) as [Ec _].
  pose proof (header_class (comp_form data c)) as (HC & _ & _). destruct (HC Ec) as (C1 & C2 & C3).
  assert (Hns : forall b, VARATT_CAN_MAKE_SHORT (plain data) = b -> b = false).
  { intros [|] Hs; [|done]. apply can_make_short_4B in Hs as [_ Hs]. rewrite Hsz, length_plain in Hs. lia. }
  unfold cell_short, cell_bytes, cell_expanded, stored_bytes, stored_short, VARATT_IS_EXTERNAL_EXPANDED, VARATT_IS_EXTERNAL. cbn [DatumGetPointer].
  rewrite Hb, Hl, HE, H1, C1, C2, (Hns _ eq_refl). unfold VARATT_CAN_MAKE_SHORT. rewrite C3. cbn [andb orb negb]. rewrite !andb_false_r. done.
Qed.

(** What [untoast_value] makes of a value in line. *)
Lemma untoast_inline w et data p :
  typbyval et = false -> typlen et = -1 -> data_ok data -> inline_form data p ->
  exists q, (if compressible et p then cvalue ← toast_compress_datum p; Ok (Some (DPtr match cvalue with Some c => c | None => p end)) else Ok (Some (DPtr p))) = Ok (Some (DPtr q)) /\
    inline_form data q /\ cell_short et (DPtr q) = cell_short et (DPtr p) /\ (length (cell_bytes w et (DPtr q)) <= length (cell_bytes w et (DPtr p)))%nat.
Proof.
  intros Hb Hl Hd Hp. pose proof (data_ok_fits _ Hd) as Hfit. destruct (compressible et p) eqn:Ec; [|by exists p].
  destruct (compressible_plain et data p Hfit Hp Ec) as [-> Hlong].
  destruct (toast_compress_result data (plain data) ltac:(apply Hd) (or_introl eq_refl)) as (r & -> & Hr). cbn [mbind result_bind].
  destruct r as [q|]; [|by exists (plain data)]. destruct (Hr q eq_refl) as (c & -> & He & Hc). exists (comp_form data c). split; [done|].
  split; [by constructor|]. destruct (long_cells w et data c Hb Hl Hfit Hlong Hc) as (-> & -> & -> & ->). split; [done|].
  rewrite comp_form_length. pose proof (length_plain data). unfold TOAST_COMPRESS_HDRSZ in Hc. lia.
Qed.

(** [shrinks]: no cell is longer, and none needs alignment that did not. *)
Definition shrinks1 (w : World) (et : ElemType) (v u : option Datum) : Prop :=
  match v, u with
  | None, None => True
  | Some d, Some e => cell_short et e = cell_short et d /\ (length (cell_bytes w et e) <= length (cell_bytes w et d))%nat
  | _, _ => False
  end.

Lemma untoast_value_ok w et v lv : represents w et v lv ->
  exists u, untoast_value w et v = Ok u /\ represents w et u lv /\
    (forall p, u = Some (DPtr p) -> typlen et = -1 -> VARATT_IS_EXTERNAL p = false) /\
    ((forall p, v = Some (DPtr p) -> typlen et = -1 -> VARATT_IS_EXTERNAL p = false) -> shrinks1 w et v u).
Proof.
  intros Hr. unfold untoast_value. destruct Hr as [|d Hl Hd|p data Hb Hl Hd Hf].
  - exists None. split_and!; try done. constructor.
  - apply Z.eqb_neq in Hl as Hl'. rewrite Hl'. exists (Some d). split_and!; try done. by constructor.
  - pose proof (data_ok_fits _ Hd) as Hfit. rewrite Hl. change (negb (-1 =? -1)) with false. cbv iota. cbn [DatumGetPointer]. destruct Hf as [p Hp|c tp Hx Hpos].
    + destruct (inline_size data p Hfit Hp) as [_ HE]. unfold VARATT_IS_EXTERNAL at 1. rewrite HE. cbn [mbind result_bind].
      destruct (untoast_inline w et data p Hb Hl Hd Hp) as (q & E & Hq & Hs1 & Hs2). unfold compressible in E. rewrite E. exists (Some (DPtr q)).
      split; [done|]. split; [constructor; try done; by constructor|]. destruct (inline_size data q Hfit Hq) as [_ HEq]. split; [by intros p' [= <-] _|done].
    + change (VARATT_IS_EXTERNAL (toast_pointer_datum tp)) with true. cbv iota. destruct (detoast_external_attr_ok w data c tp Hx) as (p & -> & Hp). cbn [mbind result_bind].
      destruct (untoast_inline w et data p Hb Hl Hd Hp) as (q & E & Hq & Hs1 & Hs2). unfold compressible in E. rewrite E. exists (Some (DPtr q)).
      split; [done|]. split; [constructor; try done; by constructor|]. destruct (inline_size data q Hfit Hq) as [_ HEq]. split; [by intros p' [= <-] _|].
      intros Hin. exfalso. by specialize (Hin _ eq_refl eq_refl).
Qed.

Lemma untoast_values_ok w atts values lvs : represents_all w atts values lvs ->
  exists vs, untoast_values w atts values = Ok vs /\ represents_all w atts vs lvs /\ in_line false atts vs /\
    (in_line false atts values -> length values = length vs /\ forall i et v u, atts !! i = Some et -> values !! i = Some v -> vs !! i = Some u -> shrinks1 w et v u).
Proof.
  revert values lvs. induction atts as [|et atts IH]; intros values lvs Hr; pose proof Hr as (L1 & L2 & _).
  { exists []. split; [done|]. split; [by destruct lvs|]. split; [done|]. destruct values; done. }
  destruct values as [|v values]; [done|]. destruct lvs as [|lv lvs]; [done|]. apply represents_all_cons in Hr as [Hr Hrs].
  destruct (IH values lvs Hrs) as (vs & E & Hvs & Hin & Hsh). cbn [untoast_values].
  destruct (untoast_value_ok w et v lv Hr) as (u & -> & Hu & Hext & Hs). cbn [mbind result_bind]. rewrite E. cbn [mbind result_bind].
  exists (u :: vs). split; [done|]. split; [by apply represents_all_intro|]. split; [apply in_line_cons; [|done]; intros p Hp Hl; split; [by apply Hext|done]|].
  intros Hi. destruct Hsh as [HL Hsh]; [intros i; apply (Hi (S i))|]. split; [cbn; lia|].
  intros [|i] et' v' u' H1 H2 H3; [|by eapply (Hsh i)]. injection H1 as <-. injection H2 as <-. injection H3 as <-. apply Hs.
  intros p Hp Hl. by destruct (Hi O et p eq_refl (f_equal Some Hp) Hl).
Qed.

(** ** Forming *)

(** The size of the tuple with the values. *)
Definition index_size (w : World) (atts : list ElemType) (vs : list (option Datum)) : Z :=
  MAXALIGN ((if has_null vs then 16 else 8) + Z.of_nat (length (layout w atts vs 0))).

Lemma index_info (null var : bool) size :
  0 <= size < 8192 ->
  let info := Z.lor (Z.lor (if null then INDEX_NULL_MASK else 0) (if var then INDEX_VAR_MASK else 0)) size in
  bit_set info INDEX_NULL_MASK = null /\ bit_set info INDEX_VAR_MASK = var /\ Z.land info INDEX_SIZE_MASK = size.
Proof.
  intros Hs info. assert (Hhigh : forall m, 13 <= m -> Z.testbit size m = false).
  { intros m Hm. rewrite <- (Z.mod_small size (2 ^ 13)) by (change (2 ^ 13) with 8192; lia). by apply Z.mod_pow2_bits_high. }
  assert (Hl : Z.land size (Z.ones 13) = size) by (rewrite Z.land_ones by lia; apply Z.mod_small; change (2 ^ 13) with 8192; lia).
  change INDEX_NULL_MASK with (2 ^ 15) at 1. change INDEX_VAR_MASK with (2 ^ 14) at 1. change INDEX_SIZE_MASK with (Z.ones 13).
  rewrite !bit_set_testbit by lia. unfold info. rewrite !Z.lor_spec, !Hhigh, !orb_false_r by lia.
  split_and!; [by destruct null, var|by destruct null, var|]. rewrite Z.land_lor_distr_l, Hl. by destruct null, var.
Qed.

Lemma index_image w atts vs st bm pad n (var : bool) :
  let hoff := if has_null vs then 16 else 8 in let natts := Z.of_nat (length atts) in
  values_ok w atts vs -> natts <= INDEX_MAX_KEYS -> any2 is_external atts vs = false -> var = any2 var_width atts vs ->
  f_buf st = bm ++ pad ++ layout w atts vs 0 ++ replicate n 0 -> 8 + Z.of_nat (length bm) + Z.of_nat (length pad) = hoff ->
  (has_null vs = true -> bits_inv bm vs /\ Z.of_nat (length bm) = BITMAPLEN natts) ->
  forall tid size, 0 <= size < 8192 ->
  let itup := mkIndexTuple tid (Z.lor (Z.lor (if has_null vs then INDEX_NULL_MASK else 0) (if var then INDEX_VAR_MASK else 0)) size) (f_buf st) in
  tuple_image w atts vs (as_heap natts itup) /\ IndexTupleSize itup = size.
Proof.
  intros hoff natts Hok Hmax Hext Hvar Hbuf Hpos Hbm tid size Hs itup. destruct (index_info (has_null vs) var size Hs) as (I1 & I2 & I3).
  split; [|exact I3]. set (gap := Z.to_nat (IndexInfoFindDataOffset (t_info itup) - SizeofIndexTupleData)).
  assert (Hhoff : IndexInfoFindDataOffset (t_info itup) = hoff) by (rewrite data_offset; cbn [t_info itup]; by rewrite I1).
  assert (Hgap : gap = (length bm + length pad)%nat) by (unfold gap, SizeofIndexTupleData; rewrite Hhoff; lia).
  assert (Hbits : t_bits (as_heap natts itup) = bm ++ (pad ++ [0]) ++ layout w atts vs 0 ++ replicate n 0).
  { cbn [t_bits as_heap]. fold gap. unfold it_data. fold gap. cbn [it_bytes itup]. rewrite Hbuf, Hgap.
    set (rest := layout w atts vs 0 ++ replicate n 0).
    assert (Ht : take (length bm + length pad) (bm ++ pad ++ rest) = bm ++ pad) by (rewrite app_assoc; apply take_app_length'; by rewrite length_app).
    assert (Hd : drop (length bm + length pad) (bm ++ pad ++ rest) = rest) by (rewrite app_assoc; apply drop_app_length'; by rewrite length_app).
    rewrite Ht, Hd. replace (length bm + length pad - _)%nat with 0%nat by (rewrite !length_app; lia). cbn [replicate]. by rewrite app_nil_l, <- !app_assoc. }
  destruct (image_of_buf w atts vs (as_heap natts itup) bm (pad ++ [0]) n) as [HI _]; try done.
  - unfold HeapTupleHeaderGetNatts. cbn [t_infomask2 as_heap]. change HEAP_NATTS_MASK with (Z.ones 11). rewrite Z.land_ones by lia. apply Z.mod_small.
    unfold INDEX_MAX_KEYS in Hmax. lia.
  - cbn [t_hoff as_heap]. rewrite Hhoff, length_app. unfold SizeofHeapTupleHeader. cbn [length]. lia.
  - cbn [t_hoff as_heap]. rewrite Hhoff. unfold hoff. by destruct (has_null vs).
  - change (t_len (as_heap natts itup)) with (SizeofHeapTupleHeader + Z.of_nat (length (t_bits (as_heap natts itup)))). rewrite Hbits. cbn [t_hoff as_heap]. rewrite Hhoff.
    rewrite !length_app, length_replicate. unfold SizeofHeapTupleHeader. cbn [length]. lia.
  - cbn [t_infomask as_heap]. unfold IndexTupleHasNulls, IndexTupleHasVarwidths. cbn [t_info itup]. rewrite I1, I2. by destruct (has_null vs), var.
  - cbn [t_infomask as_heap]. unfold IndexTupleHasNulls, IndexTupleHasVarwidths. cbn [t_info itup]. rewrite I1, I2, <- Hvar. by destruct (has_null vs), var.
  - cbn [t_infomask as_heap]. unfold IndexTupleHasNulls, IndexTupleHasVarwidths. cbn [t_info itup]. rewrite I1, I2, Hext. by destruct (has_null vs), var.
Qed.

(** The two outcomes: a tuple that reads as the heap tuple with the values in
    line, or an error, depending on the size. *)
Lemma index_form_outcome w td values lvs vs :
  Forall elem_ok (td_types td) -> td_natts td <= INDEX_MAX_KEYS -> 24 + row_size (td_types td) lvs <= MaxAllocSize ->
  represents_all w (td_types td) values lvs -> untoast_values w (td_types td) values = Ok vs ->
  represents_all w (td_types td) vs lvs -> in_line false (td_types td) vs ->
  if index_size w (td_types td) vs <=? INDEX_SIZE_MASK then
    exists itup, index_form_tuple w td values = Ok itup /\ IndexTupleSize itup = index_size w (td_types td) vs /\
      index_size w (td_types td) vs = SizeofIndexTupleData + Z.of_nat (length (it_bytes itup)) /\
      forall tid, tuple_image w (td_types td) vs (as_heap (td_natts td) (mkIndexTuple tid (t_info itup) (it_bytes itup)))
  else index_form_tuple w td values = ereport ERRCODE_PROGRAM_LIMIT_EXCEEDED "index row requires more bytes than the maximum size".
Proof.
  intros He Hmax Hsize Hr Hvs Hrv Hin. unfold index_form_tuple. set (atts := td_types td) in *.
  assert (Hna : td_natts td = Z.of_nat (length atts)) by (unfold atts, td_types, td_natts; by rewrite length_map).
  replace (td_natts td >? INDEX_MAX_KEYS) with false by (symmetry; rewrite Z.gtb_ltb; apply Z.ltb_ge; lia).
  rewrite Hvs. cbn [mbind result_bind]. pose proof Hr as (HL & _).
  assert (Hnull : has_null (take (length (td_attrs td)) values) = has_null vs).
  { rewrite take_ge by (unfold atts, td_types in HL; rewrite length_map in HL; lia). rewrite (has_null_values w atts values lvs Hr). symmetry. by eapply has_null_values. }
  rewrite Hnull. pose proof (represents_values_ok w atts vs lvs He Hrv) as Hok. pose proof (layout_bound w atts vs lvs 0 He Hrv) as Hb.
  unfold heap_compute_data_size. rewrite compute_data_size_layout by done. cbn [mbind result_bind]. rewrite Z.add_0_l.
  assert (Hhoff : IndexInfoFindDataOffset (if has_null vs then INDEX_NULL_MASK else 0) = if has_null vs then 16 else 8) by (by destruct (has_null vs)).
  rewrite Hhoff. fold (index_size w atts vs). unfold index_size at 1.
  set (hoff := if has_null vs then 16 else 8) in *. set (L := Z.of_nat (length (layout w atts vs 0))) in *.
  destruct (MAXALIGN_spec (hoff + L)) as [M1 M2]. assert (Hh : hoff = 8 \/ hoff = 16) by (unfold hoff; destruct (has_null vs); lia).
  fold (index_size w atts vs). assert (Hsz : index_size w atts vs = MAXALIGN (hoff + L)) by done. rewrite <- Hsz in M1, M2 |- *. set (size := index_size w atts vs) in *.
  unfold palloc0. replace (size >? MaxAllocSize) with false by (symmetry; rewrite Z.gtb_ltb; apply Z.ltb_ge; lia). cbn [mbind result_bind].
  destruct (heap_fill_tuple_room w SizeofIndexTupleData atts vs hoff 0 (has_null vs) (Z.to_nat (size - SizeofIndexTupleData)) (Z.to_nat (size - (hoff + L))) Hok)
    as (st & bm & pad & E & Hbuf & Hpos & Him & Hbm); try done.
  { unfold hoff. by destruct (has_null vs). }
  { pose proof (BITMAPLEN_spec (Z.of_nat (length atts)) ltac:(lia)). unfold hoff, SizeofIndexTupleData, INDEX_MAX_KEYS in *. destruct (has_null vs); lia. }
  { unfold SizeofIndexTupleData. lia. }
  rewrite E. cbn [mbind result_bind].
  assert (Hmask : Z.land size INDEX_SIZE_MASK = size <-> size <= INDEX_SIZE_MASK).
  { change INDEX_SIZE_MASK with (Z.ones 13). rewrite Z.land_ones by lia. change (2 ^ 13) with 8192. change (Z.ones 13) with 8191. split; intros; [|by apply Z.mod_small; lia].
    pose proof (Z.mod_pos_bound size 8192). lia. }
  destruct (Z.leb_spec size INDEX_SIZE_MASK) as [Hle|Hgt].
  2: { replace (Z.land size INDEX_SIZE_MASK =? size) with false; [done|]. symmetry. apply Z.eqb_neq. intros H. apply Hmask in H. lia. }
  replace (Z.land size INDEX_SIZE_MASK =? size) with true by (symmetry; apply Z.eqb_eq; by apply Hmask). cbn [negb].
  pose proof (fill_masks_bits w atts vs (Z.land 0 (Z.lnot 7)) Hok) as (_ & Hv & _). rewrite Z.land_0_l, Z.testbit_0_l, orb_false_l in Hv.
  assert (Hvar : bit_set (f_infomask st) HEAP_HASVARWIDTH = any2 var_width atts vs).
  { change HEAP_HASVARWIDTH with (2 ^ 1). rewrite bit_set_testbit, Him by lia. by rewrite Z.land_0_l. }
  rewrite Hvar. eexists. split; [reflexivity|].
  replace (if any2 var_width atts vs then Z.lor (if has_null vs then INDEX_NULL_MASK else 0) INDEX_VAR_MASK else if has_null vs then INDEX_NULL_MASK else 0)
    with (Z.lor (if has_null vs then INDEX_NULL_MASK else 0) (if any2 var_width atts vs then INDEX_VAR_MASK else 0)) by (by destruct (any2 var_width atts vs), (has_null vs)).
  assert (HI : forall tid, _) by (intros tid; refine (index_image w atts vs st bm pad _ _ Hok _ (in_line_external false w atts vs lvs Hrv Hin) eq_refl Hbuf Hpos _ tid size _);
    [lia|done|change INDEX_SIZE_MASK with 8191 in Hle; unfold SizeofIndexTupleData in *; lia]).
  split; [by destruct (HI (0, 0))|]. split; [cbn [it_bytes]; rewrite Hbuf, !length_app, length_replicate; unfold SizeofIndexTupleData in *; lia|].
  intros tid. cbn [t_info it_bytes]. rewrite Hna. by destruct (HI tid).
Qed.

(** ** The tuple of a key *)

(** The tuples of one column with a value in line: the size in the header is
    that of the tuple, which consists of bytes. *)

Lemma toast_compress_fits data q :
  fits data -> toast_compress_datum (plain data) = Ok (Some q) -> inline_form data q.
Proof.
  intros Hfit Hq. destruct (Z.le_gt_cases (Z.of_nat (length data) + 12) MaxAllocSize) as [Hle|Hgt].
  { destruct (toast_compress_comp data (plain data) q Hle (or_introl eq_refl) Hq) as (c & -> & He & Hc). by constructor. }
  exfalso. unfold toast_compress_datum in Hq. destruct (VARSIZE_ANY_EXHDR_inline data (plain data) Hfit (or_introl eq_refl)) as [Es _]. rewrite Es in Hq.
  destruct (_ || _); [done|]. apply bind_Ok in Hq as (buf & Hp & _). unfold palloc, palloc0 in Hp. destruct (_ <? 0); [done|].
  destruct (Z.gtb_spec (PGLZ_MAX_OUTPUT (Z.of_nat (length data)) + TOAST_COMPRESS_HDRSZ) MaxAllocSize) as [|H2]; [done|].
  unfold PGLZ_MAX_OUTPUT, TOAST_COMPRESS_HDRSZ in H2. lia.
Qed.

Lemma untoast_plain w et data u :
  typlen et = -1 -> fits data -> untoast_value w et (Some (DPtr (plain data))) = Ok u -> exists q, u = Some (DPtr q) /\ inline_form data q.
Proof.
  intros Hl Hfit Hu. unfold untoast_value in Hu. rewrite Hl in Hu. change (negb (-1 =? -1)) with false in Hu. cbv iota in Hu. cbn [DatumGetPointer] in Hu.
  destruct (plain_header data Hfit) as (HE & _). unfold VARATT_IS_EXTERNAL at 1 in Hu. rewrite HE in Hu. cbn [mbind result_bind] in Hu.
  destruct (_ && _); [|injection Hu as <-; exists (plain data); split; [done|constructor]].
  destruct (toast_compress_datum (plain data)) as [[q|]|e] eqn:Ec; cbn [mbind result_bind] in Hu; [injection Hu as <-..|done].
  - exists q. split; [done|]. by apply toast_compress_fits.
  - exists (plain data). split; [done|constructor].
Qed.

Lemma inline_bytes data p : Forall is_byte data -> inline_form data p -> Forall is_byte p.
Proof.
  intros Hb Hp. destruct Hp as [|Hs|c He _].
  - by apply plain_bytes.
  - constructor; [|done]. rewrite SET_VARSIZE_SHORT_spec by lia. unfold is_byte. lia.
  - unfold comp_form, varlena_c, comp_data. rewrite !Forall_app. split_and!; [apply le_bytes_is_byte|apply le_bytes_is_byte|]. by eapply encodes_bytes.
Qed.

Lemma layout_one_bytes w et data q :
  elem_ok et -> typbyval et = false -> typlen et = -1 -> Forall is_byte data -> fits data -> inline_form data q ->
  Forall is_byte (layout w [et] [Some (DPtr q)] 0) /\ 0 < Z.of_nat (length (layout w [et] [Some (DPtr q)] 0)).
Proof.
  intros He Hbv Hl Hby Hfit Hq. pose proof (inline_cell w et data q He Hbv Hl Hfit Hq) as Hc. cbn [layout].
  rewrite app_nil_r, Forall_app, length_app. split_and!.
  - apply Forall_replicate. unfold is_byte. lia.
  - by eapply inline_bytes.
  - destruct Hc; cbn [short_form length]; [pose proof (length_plain data)|..|rewrite comp_form_length]; lia.
Qed.

Lemma index_key_tuple w td et data itup :
  td_types td = [et] -> typbyval et = false -> typlen et = -1 -> Forall is_byte data -> fits data ->
  index_form_tuple w td [Some (DPtr (plain data))] = Ok itup ->
  IndexTupleSize itup = SizeofIndexTupleData + Z.of_nat (length (it_bytes itup)) /\ IndexTupleSize itup mod 8 = 0 /\
  SizeofIndexTupleData < IndexTupleSize itup /\ Forall is_byte (it_bytes itup).
Proof.
  intros Htd Hbv Hl Hby Hfit Hf. unfold index_form_tuple in Hf. rewrite Htd in Hf. destruct (_ >? _); [done|]. cbn [untoast_values] in Hf.
  destruct (untoast_value w et _) as [u|e] eqn:Eu; cbn [mbind result_bind] in Hf; [|done].
  destruct (untoast_plain w et data u Hl Hfit Eu) as (q & -> & Hq). clear Eu.
  assert (Hnull : has_null (take (length (td_attrs td)) [Some (DPtr (plain data))]) = false) by (destruct (length (td_attrs td)) as [|[|?]]; done).
  rewrite Hnull in Hf. change (IndexInfoFindDataOffset _) with 8 in Hf.
  assert (He : elem_ok et) by (unfold elem_ok; rewrite Hbv; by left).
  assert (Hok : values_ok w [et] [Some (DPtr q)]).
  { split; [by apply Forall_singleton|]. constructor; [|constructor]. by eapply inline_att_ok. }
  unfold heap_compute_data_size in Hf. rewrite compute_data_size_layout in Hf by done. cbn [mbind result_bind] in Hf. rewrite Z.add_0_l in Hf.
  set (L := Z.of_nat (length (layout w [et] [Some (DPtr q)] 0))) in *. destruct (MAXALIGN_spec (8 + L)) as [M1 M2]. set (size := MAXALIGN (8 + L)) in *.
  destruct (palloc0 size) as [o|e]; cbn [mbind result_bind] in Hf; [|done].
  destruct (heap_fill_tuple_room w SizeofIndexTupleData [et] [Some (DPtr q)] 8 0 false (Z.to_nat (size - SizeofIndexTupleData)) (Z.to_nat (size - (8 + L))) Hok)
    as (st & bm & pad & E & Hbuf & Hpos & _); try done; [unfold SizeofIndexTupleData in *; lia|].
  rewrite E in Hf. cbn [mbind result_bind] in Hf. destruct (Z.eqb_spec (Z.land size INDEX_SIZE_MASK) size) as [Hm|]; [|done]. cbn [negb] in Hf. injection Hf as <-.
  assert (Hsz : 0 <= size < 8192).
  { split; [lia|]. rewrite <- Hm. change INDEX_SIZE_MASK with (Z.ones 13). rewrite Z.land_ones by lia. apply Z.mod_pos_bound. lia. }
  assert (Hbp : bm = [] /\ pad = []) by (unfold SizeofIndexTupleData in Hpos; split; apply length_zero_iff_nil; lia). destruct Hbp as [-> ->].
  cbn [app] in Hbuf. pose proof (layout_one_bytes w et data q He Hbv Hl Hby Hfit Hq) as [HLb HLn]. fold L in HLn.
  destruct (index_info false (bit_set (f_infomask st) HEAP_HASVARWIDTH) size Hsz) as (_ & _ & HI). unfold IndexTupleSize. cbn [t_info it_bytes].
  replace (if bit_set (f_infomask st) HEAP_HASVARWIDTH then Z.lor 0 INDEX_VAR_MASK else 0)
    with (Z.lor 0 (if bit_set (f_infomask st) HEAP_HASVARWIDTH then INDEX_VAR_MASK else 0)) by (by destruct (bit_set _ _)).
  cbv zeta in HI. rewrite HI, Hbuf, length_app, length_replicate. fold L. unfold SizeofIndexTupleData in *. split_and!; try lia.
  apply Forall_app. split; [done|]. apply Forall_replicate. unfold is_byte. lia.
Qed.

(** ** Round trip *)

Lemma reads_any_world b w w' atts row lvs : represents_all w atts row lvs -> in_line b atts row -> reads w row lvs -> reads w' row lvs.
Proof.
  intros (L1 & L2 & Hr) Hin H. apply Forall2_same_length_lookup_2; [lia|]. intros i v lv Hv Hlv.
  unfold reads in H. rewrite Forall2_lookup in H. specialize (H i). rewrite Hv, Hlv in H. inversion H as [? ? Hx|]; subst. destruct lv as [|d|data]; [done|done|].
  destruct (lookup_lt_is_Some_2 atts i) as [et Het]; [pose proof (lookup_lt_Some _ _ _ Hv); lia|].
  pose proof (Hr i et v _ Het Hv Hlv) as R. inversion R as [| |p ? Hb Hl Hd Hf]; subst. exists p. split; [done|].
  destruct (Hin i et p Het Hv Hl) as [HE _]. destruct Hf as [p Hp|c tp Hx' Hpos]; [|done]. apply detoast_inline; [by apply data_ok_fits|done].
Qed.

(** What is read from an index tuple. *)
Definition index_reads (td : TupleDesc) (itup : IndexTuple) (lvs : list Lval) : Prop :=
  exists row td', index_deform_tuple itup td = (row, td') /\ desc_ok td' /\ same_desc td td' /\
    (forall w, reads w row lvs) /\ in_line false (td_types td) row /\
    forall k v, row !! k = Some v -> exists td', index_getattr itup (Z.of_nat k + 1) td = Ok (v, td') /\ desc_ok td' /\ same_desc td td'.

Lemma image_index_reads w td vs itup lvs :
  desc_ok td -> td_natts td <= INDEX_MAX_KEYS -> represents_all w (td_types td) vs lvs -> in_line false (td_types td) vs ->
  tuple_image w (td_types td) vs (as_heap (td_natts td) itup) -> index_reads td itup lvs.
Proof.
  intros Hd Hmax Hr Hin HI. assert (He : Forall elem_ok (td_types td)) by apply Hd.
  destruct (image_read w td vs _ HI td Hd eq_refl) as (td' & E & Hd' & Hs). exists (read_back w (td_types td) vs), td'.
  rewrite (index_deform_as_heap itup td (td_natts td)) by done. split; [done|]. split; [done|]. split; [done|].
  pose proof (in_line_read_back false w _ vs lvs He Hr Hin) as Hin'. split.
  { intros w'. eapply reads_any_world; [by apply represents_read_back|done|by apply reads_read_back]. }
  split; [done|]. intros k v Hk. assert (Hlt : 1 <= Z.of_nat k + 1 <= td_natts td).
  { apply lookup_lt_Some in Hk. unfold read_back, td_types in Hk. rewrite length_zip_with, length_map in Hk. unfold td_natts. lia. }
  rewrite (index_getattr_as_heap itup td (td_natts td)) by done. eapply heap_getattr_image; [done|done|apply desc_matches_self|by rewrite row_of_self].
Qed.

(** C21: an index tuple that [index_form_tuple] makes of values in whatever
    form reads back as the same values, by [index_deform_tuple] and by
    [index_getattr] for each column, in any state of the TOAST tables: nothing
    in it is out of line.  It has the size that its header says.  The only
    error is that about its size, and it is raised only if the values,
    uncompressed, take more than 8168 bytes. *)
Theorem index_tuple_roundtrip w td values lvs :
  desc_ok td -> td_natts td <= INDEX_MAX_KEYS -> 24 + row_size (td_types td) lvs <= MaxAllocSize -> represents_all w (td_types td) values lvs ->
  (exists itup, index_form_tuple w td values = Ok itup /\ index_reads td itup lvs /\
     IndexTupleSize itup = SizeofIndexTupleData + Z.of_nat (length (it_bytes itup)) /\ IndexTupleSize itup mod 8 = 0) \/
  (index_form_tuple w td values = ereport ERRCODE_PROGRAM_LIMIT_EXCEEDED "index row requires more bytes than the maximum size" /\
   8168 < row_size (td_types td) lvs).
Proof.
  intros Hd Hmax Hsize Hr. assert (He : Forall elem_ok (td_types td)) by apply Hd.
  destruct (untoast_values_ok w _ values lvs Hr) as (vs & Hvs & Hrv & Hin & _).
  pose proof (index_form_outcome w td values lvs vs He Hmax Hsize Hr Hvs Hrv Hin) as H.
  pose proof (layout_bound w _ vs lvs 0 He Hrv) as Hb. pose proof (MAXALIGN_spec ((if has_null vs then 16 else 8) + Z.of_nat (length (layout w (td_types td) vs 0)))) as [M1 M2].
  fold (index_size w (td_types td) vs) in M1, M2. destruct (Z.leb_spec (index_size w (td_types td) vs) INDEX_SIZE_MASK) as [Hle|Hgt].
  - left. destruct H as (itup & E & Hs1 & Hs2 & HI). exists itup. split; [done|]. specialize (HI (t_tid itup)).
    split; [eapply image_index_reads; try done; by destruct itup|]. rewrite Hs1. done.
  - right. split; [done|]. change INDEX_SIZE_MASK with 8191 in Hgt. destruct (has_null vs); lia.
Qed.

(** The example row, with a value out of line. *)
Lemma index_tuple_roundtrip_witness :
  exists itup, index_form_tuple stored_world td_doc (doc_row (Some (DPtr (toast_pointer_datum stored_pointer)))) = Ok itup /\
    index_reads td_doc itup (doc_lvs (LData [1; 2; 3])).
Proof.
  destruct (index_tuple_roundtrip stored_world td_doc (doc_row (Some (DPtr (toast_pointer_datum stored_pointer)))) (doc_lvs (LData [1; 2; 3])))
    as [(itup & E & H & _)|[_ H]].
  - exact td_doc_ok.
  - vm_compute. discriminate.
  - vm_compute. discriminate.
  - apply doc_represents, stored_represents.
  - by exists itup.
  - exfalso. vm_compute in H. discriminate.
Defined.

(** A text of 3000 equal bytes is compressed; the tuple has 64 bytes. *)
Example index_compresses :
  (itup ← index_form_tuple w_example td_example (doc_row (Some (DPtr (plain long_text))));
   Ok (IndexTupleSize itup)) = Ok 64.
Proof. vm_compute. reflexivity. Qed.

(** ** Truncating *)

Lemma layout_shrinks w atts vs us off off' :
  length vs = length us -> (forall i et v u, atts !! i = Some et -> vs !! i = Some v -> us !! i = Some u -> shrinks1 w et v u) -> off' <= off ->
  off' + Z.of_nat (length (layout w atts us off')) <= off + Z.of_nat (length (layout w atts vs off)).
Proof.
  revert vs us off off'. induction atts as [|et atts IH]; intros [|v vs] [|u us] off off' Hl Hs Hoff; try done; try (cbn; lia).
  pose proof (Hs O et v u eq_refl eq_refl eq_refl) as H0.
  assert (IH' : forall o o', o' <= o -> o' + Z.of_nat (length (layout w atts us o')) <= o + Z.of_nat (length (layout w atts vs o))).
  { intros. apply IH; [cbn in Hl; lia|intros i; apply (Hs (S i))|done]. }
  destruct v as [d|], u as [e|]; cbn [shrinks1] in H0; try done; cbn [layout]; [|by apply IH'].
  destruct H0 as [H1 H2]. rewrite !length_app, !length_replicate. pose proof (cell_off_bound et d off). pose proof (cell_off_bound et e off').
  assert (Ho : cell_off et e off' <= cell_off et d off) by (unfold cell_off; rewrite H1; destruct (cell_short et d); [done|by apply att_align_mono]).
  specialize (IH' (cell_off et d off + Z.of_nat (length (cell_bytes w et d))) (cell_off et e off' + Z.of_nat (length (cell_bytes w et e))) ltac:(lia)). lia.
Qed.

Lemma MAXALIGN_mono a b : a <= b -> MAXALIGN a <= MAXALIGN b.
Proof. intros H. apply (att_align_mono a b TYPALIGN_DOUBLE H). Qed.

Lemma row_size_take atts lvs n : row_size (take n atts) (take n lvs) <= row_size atts lvs.
Proof.
  revert lvs n. induction atts as [|et atts IH]; intros lvs n; [by destruct n|]. destruct n as [|n]; [apply row_size_nonneg|].
  destruct lvs as [|lv lvs]; [done|]. cbn [firstn row_size]. specialize (IH lvs n). lia.
Qed.

Lemma has_null_take values n : has_null (take n values) = true -> has_null values = true.
Proof.
  unfold has_null. intros H. apply existsb_exists in H as (v & Hin & Hv). apply existsb_exists. exists v. split; [|done].
  rewrite <- (firstn_skipn n values). apply in_or_app. by left.
Qed.

Lemma represents_all_take w atts values lvs n : represents_all w atts values lvs -> represents_all w (take n atts) (take n values) (take n lvs).
Proof.
  intros (L1 & L2 & Hr). split; [rewrite !length_take; lia|]. split; [rewrite !length_take; lia|]. intros i et v lv Hi Hv Hlv.
  apply lookup_take_Some in Hi as [Hi _], Hv as [Hv _], Hlv as [Hlv _]. by eapply Hr.
Qed.

Lemma in_line_take b atts values n : in_line b atts values -> in_line b (take n atts) (take n values).
Proof. intros H i et p Hi Hv. apply lookup_take_Some in Hi as [Hi _], Hv as [Hv _]. by eapply H. Qed.

Lemma read_back_take w atts values n : take n (read_back w atts values) = read_back w (take n atts) (take n values).
Proof. apply zip_with_take. Qed.

(** The descriptor of the columns that are left. *)
Definition trunc_desc (td : TupleDesc) (n : nat) : TupleDesc := set_attrs td (take n (td_attrs td)).

Lemma caches_ok_take attrs off n : caches_ok attrs off -> caches_ok (take n attrs) off.
Proof.
  revert off n. induction attrs as [|a attrs IH]; intros off [|n] H; try done. cbn [firstn caches_ok] in *.
  destruct (attcacheoff a <? 0); [by apply Forall_take|]. destruct H as [H1 H2]. split; [done|by apply IH].
Qed.

Lemma trunc_desc_types td n : td_types (trunc_desc td n) = take n (td_types td).
Proof. unfold td_types, trunc_desc. cbn [td_attrs set_attrs]. by rewrite firstn_map. Qed.

Lemma trunc_desc_ok td n : desc_ok td -> desc_ok (trunc_desc td n).
Proof. intros [H1 H2]. split; [rewrite trunc_desc_types; by apply Forall_take|]. by apply caches_ok_take. Qed.

Lemma copy_desc_ok td : desc_ok td -> desc_ok (TupleDescCopy td).
Proof.
  intros [H1 H2]. split.
  - unfold td_types, TupleDescCopy. cbn [td_attrs]. rewrite map_map. exact H1.
  - cbn [td_attrs TupleDescCopy]. generalize dependent (Some 0). clear H1. induction (td_attrs td) as [|a attrs IH]; intros off H; [done|]. cbn [map caches_ok attcacheoff] in *.
    destruct (attcacheoff a <? 0); [|destruct H as [H0 H]; split; [exact H0|by apply IH]].
    apply Forall_map. eapply Forall_impl; [exact H|]. done.
Qed.

Lemma copy_desc_types td : td_types (TupleDescCopy td) = td_types td.
Proof. unfold td_types, TupleDescCopy. cbn [td_attrs]. by rewrite map_map. Qed.

(** Fewer columns that are not longer take no more space. *)
Lemma index_size_truncated w atts n vs us lvs :
  let row := read_back w (take n atts) (take n vs) in
  Forall elem_ok (take n atts) -> represents_all w (take n atts) (take n vs) lvs -> represents_all w (take n atts) us lvs -> length row = length us ->
  (forall i et v u, take n atts !! i = Some et -> row !! i = Some v -> us !! i = Some u -> shrinks1 w et v u) ->
  index_size w (take n atts) us <= index_size w atts vs.
Proof.
  intros row He Hrt Hru Hlu Hsh.
  assert (Hnull : has_null us = true -> has_null vs = true).
  { rewrite (has_null_values w _ us _ Hru), <- (has_null_values w _ _ _ Hrt). apply has_null_take. }
  assert (Hlay : (length (layout w (take n atts) us 0) <= length (layout w atts vs 0))%nat).
  { pose proof (layout_shrinks w (take n atts) row us 0 0 Hlu Hsh ltac:(lia)) as H1.
    pose proof (layout_stable w (take n atts) (take n vs) lvs 0 He Hrt) as H2. fold row in H2. rewrite H2 in H1.
    destruct (layout_take w atts vs 0 n) as [q Hq]. rewrite Hq, length_app. lia. }
  unfold index_size. apply MAXALIGN_mono. destruct (has_null us); [rewrite Hnull by done; lia|]. destruct (has_null vs); lia.
Qed.

(** What [index_deform_tuple] gives under the truncated descriptor. *)
Lemma deform_truncated w td vs source n :
  desc_ok td -> td_natts td <= INDEX_MAX_KEYS -> (n <= length (td_attrs td))%nat ->
  tuple_image w (td_types td) vs (as_heap (td_natts td) source) ->
  exists td', index_deform_tuple source (trunc_desc (TupleDescCopy td) n) = (read_back w (take n (td_types td)) (take n vs), td') /\
    desc_ok td' /\ td_types td' = take n (td_types td).
Proof.
  intros Hd Hmax Hn HI. set (td0 := trunc_desc (TupleDescCopy td) n).
  assert (Ht : td_types td0 = take n (td_types td)) by (unfold td0; by rewrite trunc_desc_types, copy_desc_types).
  assert (Hd0 : desc_ok td0) by apply trunc_desc_ok, copy_desc_ok, Hd.
  assert (Hla : length (td_attrs td0) = n) by (unfold td0, trunc_desc, TupleDescCopy; cbn [td_attrs set_attrs]; rewrite length_take, length_map; lia).
  assert (HlN : length (td_types td) = length (td_attrs td)) by (unfold td_types; by rewrite length_map).
  rewrite (index_deform_as_heap source td0 (td_natts td)); [|unfold td_natts; lia|done].
  assert (Hm : desc_matches td0 (td_types td)).
  { unfold desc_matches. rewrite (take_ge (td_attrs td0)) by lia. fold (td_types td0). by rewrite Ht, Hla. }
  destruct (heap_deform_tuple_image w td0 _ _ _ HI Hd0 Hm) as (td' & E & Hd' & Hs). exists td'. rewrite E. unfold row_of.
  rewrite Hla, (drop_ge (td_attrs td0)) by lia. cbn [map]. rewrite app_nil_r, read_back_take. split; [done|]. split; [done|].
  rewrite <- Ht. symmetry. by apply same_desc_types.
Qed.

(** [index_truncate_tuple] of a tuple that [index_form_tuple] made, whatever
    heap row it points to: it always succeeds, the result holds the first
    columns, with the pivot's tuple identifier, and is not larger than the
    source (what the assertion at its end says). *)
Theorem index_truncate_correct w td values lvs itup tid leavenatts :
  desc_ok td -> td_natts td <= INDEX_MAX_KEYS -> 24 + row_size (td_types td) lvs <= MaxAllocSize -> represents_all w (td_types td) values lvs ->
  index_form_tuple w td values = Ok itup -> 0 <= leavenatts <= td_natts td ->
  let source := mkIndexTuple tid (t_info itup) (it_bytes itup) in let n := Z.to_nat leavenatts in
  exists truncated, index_truncate_tuple w td source leavenatts = Ok truncated /\ t_tid truncated = tid /\
    IndexTupleSize truncated <= IndexTupleSize source /\ index_reads (trunc_desc td n) truncated (take n lvs).
Proof.
  intros Hd Hmax Hsize Hr Hform Hn source n. assert (He : Forall elem_ok (td_types td)) by apply Hd.
  destruct (untoast_values_ok w _ values lvs Hr) as (vs & Hvs & Hrv & Hin & _).
  pose proof (index_form_outcome w td values lvs vs He Hmax Hsize Hr Hvs Hrv Hin) as H.
  destruct (Z.leb_spec (index_size w (td_types td) vs) INDEX_SIZE_MASK) as [Hle|_]; [|by rewrite Hform in H].
  destruct H as (itup0 & E & Hs1 & Hs2 & HI). rewrite Hform in E. injection E as <-. specialize (HI tid). fold source in HI.
  assert (Hln : (n <= length (td_attrs td))%nat) by (unfold n, td_natts in *; lia).
  unfold index_truncate_tuple. destruct (Z.eqb_spec leavenatts (td_natts td)) as [Heq|Hne].
  - assert (Hfull : n = length (td_attrs td)) by (unfold n, td_natts in *; lia). assert (Hcopy : CopyIndexTuple source = source).
    { unfold CopyIndexTuple, source. cbn [t_tid t_info it_bytes]. f_equal. apply take_ge.
      change (IndexTupleSize (mkIndexTuple tid (t_info itup) (it_bytes itup))) with (IndexTupleSize itup). unfold SizeofIndexTupleData in *. lia. }
    exists source. rewrite Hcopy. split_and!; try done. unfold trunc_desc. rewrite take_ge by lia.
    replace (take n lvs) with lvs by (symmetry; apply take_ge; destruct Hr as (_ & L & _); unfold td_types in L; rewrite length_map in L; lia).
    replace (set_attrs td (td_attrs td)) with td by (by destruct td). by eapply image_index_reads.
  - destruct (deform_truncated w td vs source n Hd Hmax Hln HI) as (td' & E & Hd' & Ht'). fold n. fold (trunc_desc (TupleDescCopy td) n). rewrite E, <- Ht'.
    set (row := read_back w (td_types td') (take n vs)).
    assert (He' : Forall elem_ok (td_types td')) by apply Hd'.
    assert (Hna : td_natts td' = Z.of_nat n).
    { unfold td_natts. rewrite <- (length_map att_type). fold (td_types td'). rewrite Ht', length_take. unfold td_types. rewrite length_map. lia. }
    assert (Hrt : represents_all w (td_types td') (take n vs) (take n lvs)) by (rewrite Ht'; by apply represents_all_take).
    assert (Hint : in_line false (td_types td') (take n vs)) by (rewrite Ht'; by apply in_line_take).
    pose proof (represents_read_back w _ _ _ He' Hrt) as Hrow. pose proof (in_line_read_back false w _ _ _ He' Hrt Hint) as Hinr. fold row in Hrow, Hinr.
    destruct (untoast_values_ok w _ row (take n lvs) Hrow) as (us & Hus & Hru & Hiu & Hsh). destruct (Hsh Hinr) as [Hlu Hsh'].
    pose proof (row_size_take (td_types td) lvs n) as Hrs. rewrite <- Ht' in Hrs.
    pose proof (index_form_outcome w td' row (take n lvs) us He' ltac:(unfold td_natts in *; lia) ltac:(lia) Hrow Hus Hru Hiu) as H.
    pose proof (index_size_truncated w (td_types td) n vs us (take n lvs)) as Hsz. rewrite <- Ht' in Hsz. specialize (Hsz He' Hrt Hru Hlu Hsh').
    destruct (Z.leb_spec (index_size w (td_types td') us) INDEX_SIZE_MASK) as [_|Hgt]; [|lia].
    destruct H as (itup' & -> & Hs1' & Hs2' & HI'). cbn [mbind result_bind]. eexists. split; [done|]. split; [done|].
    split; [unfold IndexTupleSize in *; cbn [t_info]; unfold source; cbn [t_info]; lia|].
    eapply (image_index_reads w (trunc_desc td n) us); [by apply trunc_desc_ok| |by rewrite trunc_desc_types, <- Ht'|by rewrite trunc_desc_types, <- Ht'|].
    + unfold td_natts, trunc_desc in *. cbn [td_attrs set_attrs]. rewrite length_take. lia.
    + rewrite trunc_desc_types, <- Ht'. replace (td_natts (trunc_desc td n)) with (td_natts td'); [apply HI'|].
      rewrite Hna. unfold td_natts, trunc_desc. cbn [td_attrs set_attrs]. rewrite length_take. lia.
Qed.

Lemma index_truncate_correct_witness :
  exists itup truncated, index_form_tuple stored_world td_doc (doc_row None) = Ok itup /\
    index_truncate_tuple stored_world td_doc (mkIndexTuple (7, 3) (t_info itup) (it_bytes itup)) 1 = Ok truncated /\
    IndexTupleSize truncated <= IndexTupleSize itup.
Proof.
  assert (E : exists itup, index_form_tuple stored_world td_doc (doc_row None) = Ok itup) by (eexists; vm_compute; reflexivity).
  destruct E as [itup E].
  destruct (index_truncate_correct stored_world td_doc (doc_row None) (doc_lvs LNull) itup (7, 3) 1) as (truncated & E' & _ & Hs & _).
  - exact td_doc_ok.
  - vm_compute. discriminate.
  - vm_compute. discriminate.
  - apply doc_represents. constructor.
  - exact E.
  - split; vm_compute; discriminate.
  - exists itup, truncated. split_and!; done.
Defined.
