(* ===== verification/Page.v ===== *)
(** * Buffer pages

    storage/page/bufpage.c, storage/page/itemptr.c and the checksum of
    include/storage/checksum_impl.h, with include/storage/bufpage.h, itemid.h
    and off.h.

    A page is the list of its [BLCKSZ] bytes: the header, the array of line
    pointers from offset [SizeOfPageHeaderData] to [pd_lower], free space, the
    items from [pd_upper] on, and the special space from [pd_special] on.
    Header fields and line pointers are read from and written to the bytes.
    Accesses outside the page are undefined, so that the model also runs on
    pages whose contents are corrupted.  [ereport(PANIC, ...)], by which
    [PageAddItemExtended] reports corrupted page pointers, is an error like
    [ereport(ERROR, ...)]: either way the function does not return. *)

From S2P Require Import Prelude Varlena HeapTuple IndexTuple Sorting.

Definition BLCKSZ : Z := 8192.
Notation Page := (list Z) (only parsing).

(** ** Memory *)

(** The bytes [bs] put at offset [off] of a buffer. *)
Definition put (buf : Page) (off : Z) (bs : list Z) : Page :=
  take (Z.to_nat off) buf ++ bs ++ drop (Z.to_nat off + length bs) buf.

Definition in_buf (buf : Page) (off len : Z) : bool :=
  (0 <=? off) && (0 <=? len) && (off + len <=? Z.of_nat (length buf)).

Definition mem_read (buf : Page) (off len : Z) : result (list Z) :=
  if in_buf buf off len then Ok (bytes_at buf off len) else undefined "read outside the page".

Definition mem_write (buf : Page) (off : Z) (bs : list Z) : result Page :=
  if in_buf buf off (Z.of_nat (length bs)) then Ok (put buf off bs) else undefined "write outside the page".

Definition memmove (buf : Page) (dst src n : Z) : result Page :=
  bs ← mem_read buf src n; mem_write buf dst bs.

Definition get16 (p : Page) (off : Z) : Z := le_value (bytes_at p off 2).
Definition put16 (p : Page) (off x : Z) : Page := put p off (le_bytes 2 x).

(** ** Line pointers (storage/itemid.h) *)

Record ItemIdData : Type := mkItemId { lp_off : Z; lp_flags : Z; lp_len : Z }.

#[global] Instance ItemIdData_eq_dec : EqDecision ItemIdData.
Proof. solve_decision. Defined.

Definition sizeof_ItemIdData : Z := 4.

(** The bit fields of 15, 2 and 15 bits, from the low end of the word. *)
Definition ItemId_word (lp : ItemIdData) : Z :=
  lp_off lp mod 2 ^ 15 + 2 ^ 15 * (lp_flags lp mod 2 ^ 2) + 2 ^ 17 * (lp_len lp mod 2 ^ 15).

Definition ItemId_of_word (w : Z) : ItemIdData :=
  mkItemId (w mod 2 ^ 15) ((w / 2 ^ 15) mod 2 ^ 2) ((w / 2 ^ 17) mod 2 ^ 15).

Definition LP_UNUSED : Z := 0.
Definition LP_NORMAL : Z := 1.
Definition LP_REDIRECT : Z := 2.
Definition LP_DEAD : Z := 3.

Definition ItemIdIsUsed (lp : ItemIdData) : bool := negb (lp_flags lp =? LP_UNUSED).
Definition ItemIdHasStorage (lp : ItemIdData) : bool := negb (lp_len lp =? 0).
Definition ItemIdSetUnused : ItemIdData := mkItemId 0 LP_UNUSED 0.
Definition ItemIdSetNormal (off len : Z) : ItemIdData := mkItemId (off mod 2 ^ 15) LP_NORMAL (len mod 2 ^ 15).
Definition ItemIdSetRedirect (link : Z) : ItemIdData := mkItemId (link mod 2 ^ 15) LP_REDIRECT 0.
Definition ItemIdSetDead : ItemIdData := mkItemId 0 LP_DEAD 0.
Definition ItemIdMarkDead (lp : ItemIdData) : ItemIdData := mkItemId (lp_off lp) LP_DEAD (lp_len lp).

(** ** Offset numbers (storage/off.h) *)

Definition InvalidOffsetNumber : Z := 0.
Definition FirstOffsetNumber : Z := 1.
Definition MaxOffsetNumber : Z := BLCKSZ ÷ sizeof_ItemIdData.
Definition OffsetNumberIsValid (off : Z) : bool := negb (off =? InvalidOffsetNumber) && (off <=? MaxOffsetNumber).
Definition OffsetNumberNext (off : Z) : Z := uwrap 16 (1 + off).

(** ** Page headers (storage/bufpage.h)

    [pd_lsn] is at offset 0, [pd_checksum] at 8, [pd_flags] at 10, [pd_lower]
    at 12, [pd_upper] at 14, [pd_special] at 16, [pd_pagesize_version] at 18,
    [pd_prune_xid] at 20. *)

Definition SizeOfPageHeaderData : Z := 24.

Definition pd_checksum (p : Page) : Z := get16 p 8.
Definition pd_flags (p : Page) : Z := get16 p 10.
Definition pd_lower (p : Page) : Z := get16 p 12.
Definition pd_upper (p : Page) : Z := get16 p 14.
Definition pd_special (p : Page) : Z := get16 p 16.
Definition pd_pagesize_version (p : Page) : Z := get16 p 18.

Definition set_pd_checksum (p : Page) (x : Z) : Page := put16 p 8 x.
Definition set_pd_flags (p : Page) (x : Z) : Page := put16 p 10 x.
Definition set_pd_lower (p : Page) (x : Z) : Page := put16 p 12 x.
Definition set_pd_upper (p : Page) (x : Z) : Page := put16 p 14 x.
Definition set_pd_special (p : Page) (x : Z) : Page := put16 p 16 x.

Definition PD_HAS_FREE_LINES : Z := 1.
Definition PD_VALID_FLAG_BITS : Z := 7.
Definition PG_PAGE_LAYOUT_VERSION : Z := 4.

Definition PageIsEmpty (p : Page) : bool := pd_lower p <=? SizeOfPageHeaderData.
Definition PageIsNew (p : Page) : bool := pd_upper p =? 0.
Definition PageGetPageSize (p : Page) : Z := Z.land (pd_pagesize_version p) 0xFF00.
Definition PageSetPageSizeAndVersion (p : Page) (size version : Z) : Page := put16 p 18 (Z.lor size version).
Definition PageGetSpecialSize (p : Page) : Z := uwrap 16 (PageGetPageSize p - pd_special p).

Definition PageGetMaxOffsetNumber (p : Page) : Z :=
  if pd_lower p <=? SizeOfPageHeaderData then 0
  else (pd_lower p - SizeOfPageHeaderData) ÷ sizeof_ItemIdData.

Definition PageHasFreeLinePointers (p : Page) : bool := bit_set (pd_flags p) PD_HAS_FREE_LINES.
Definition PageSetHasFreeLinePointers (p : Page) : Page := set_pd_flags p (Z.lor (pd_flags p) PD_HAS_FREE_LINES).
Definition PageClearHasFreeLinePointers (p : Page) : Page :=
  set_pd_flags p (Z.land (pd_flags p) (Z.lnot PD_HAS_FREE_LINES)).

(** The offset of a line pointer, reading it and writing it. *)
Definition linp_addr (off : Z) : Z := SizeOfPageHeaderData + sizeof_ItemIdData * (off - 1).

Definition linp_bytes (lp : ItemIdData) : list Z := le_bytes 4 (ItemId_word lp).

Definition PageGetItemId (p : Page) (off : Z) : result ItemIdData :=
  bs ← mem_read p (linp_addr off) sizeof_ItemIdData; Ok (ItemId_of_word (le_value bs)).

Definition PageSetItemId (p : Page) (off : Z) (lp : ItemIdData) : result Page :=
  mem_write p (linp_addr off) (linp_bytes lp).

(** [lp->lp_off = off], which keeps the other bit fields. *)
Definition set_lp_off (p : Page) (offnum off : Z) : result Page :=
  lp ← PageGetItemId p offnum; PageSetItemId p offnum (mkItemId (off mod 2 ^ 15) (lp_flags lp) (lp_len lp)).

(** The bytes of an item. *)
Definition PageGetItem (p : Page) (lp : ItemIdData) : result (list Z) := mem_read p (lp_off lp) (lp_len lp).

(** ** [PageInit] *)

Definition PageInit (p : Page) (pageSize specialSize : Z) : Page :=
  let specialSize := MAXALIGN specialSize in
  let p := put p 0 (replicate (Z.to_nat pageSize) 0) in
  let p := set_pd_flags p 0 in
  let p := set_pd_lower p SizeOfPageHeaderData in
  let p := set_pd_upper p (pageSize - specialSize) in
  let p := set_pd_special p (pageSize - specialSize) in
  PageSetPageSizeAndVersion p pageSize PG_PAGE_LAYOUT_VERSION.

(** ** Adding items *)

Definition MaxHeapTuplesPerPage : Z :=
  (BLCKSZ - SizeOfPageHeaderData) ÷ (MAXALIGN SizeofHeapTupleHeader + sizeof_ItemIdData).
Definition MaxIndexTuplesPerPage : Z :=
  (BLCKSZ - SizeOfPageHeaderData) ÷ (MAXALIGN (SizeofIndexTupleData + 1) + sizeof_ItemIdData).

Definition PAI_OVERWRITE : Z := 1.
Definition PAI_IS_HEAP : Z := 2.

(** The loop that looks for a free line pointer: the first one from [off] on,
    or [limit]. *)
Fixpoint find_free_linp (n : nat) (p : Page) (off limit : Z) : result Z :=
  if negb (off <? limit) then Ok off
  else match n with
  | O => undefined "out of fuel"
  | S n' =>
      itemId ← PageGetItemId p off;
      if negb (ItemIdIsUsed itemId) && negb (ItemIdHasStorage itemId) then Ok off
      else find_free_linp n' p (off + 1) limit
  end.

(** The choice of the line pointer: [None] when the item is refused, otherwise
    the page (whose hint may be reset), the offset number and whether the line
    pointers from there on have to be moved. *)
Definition add_item_slot (p : Page) (offsetNumber flags limit : Z) : result (option (Page * Z * bool)) :=
  if OffsetNumberIsValid offsetNumber then
    if bit_set flags PAI_OVERWRITE then
      if offsetNumber <? limit then
        itemId ← PageGetItemId p offsetNumber;
        if ItemIdIsUsed itemId || ItemIdHasStorage itemId then Ok None
        else Ok (Some (p, offsetNumber, false))
      else Ok (Some (p, offsetNumber, false))
    else Ok (Some (p, offsetNumber, offsetNumber <? limit))
  else if PageHasFreeLinePointers p then
    off ← find_free_linp (Z.to_nat limit) p 1 limit;
    Ok (Some (if off >=? limit then PageClearHasFreeLinePointers p else p, off, false))
  else Ok (Some (p, limit, false)).

Definition page_pointers_corrupted (p : Page) : bool :=
  (pd_lower p <? SizeOfPageHeaderData) || (pd_lower p >? pd_upper p) ||
  (pd_upper p >? pd_special p) || (pd_special p >? BLCKSZ).

Definition corrupted_page {A} : result A := ereport ERRCODE_DATA_CORRUPTED "corrupted page pointers".

(** What follows the choice: the checks, and putting the item on the page. *)
Definition add_item_at (p : Page) (item : list Z) (limit offsetNumber : Z) (needshuffle : bool) (flags : Z) : result (Page * Z) :=
  if offsetNumber >? limit then Ok (p, InvalidOffsetNumber)
  else if bit_set flags PAI_IS_HEAP && (offsetNumber >? MaxHeapTuplesPerPage) then Ok (p, InvalidOffsetNumber)
  else
    let lower := if (offsetNumber =? limit) || needshuffle then pd_lower p + sizeof_ItemIdData else pd_lower p in
    let size := Z.of_nat (length item) in
    let alignedSize := MAXALIGN size in
    let upper := swrap 32 (pd_upper p - swrap 32 alignedSize) in
    if lower >? upper then Ok (p, InvalidOffsetNumber)
    else
      p ← (if needshuffle then
             memmove p (linp_addr (offsetNumber + 1)) (linp_addr offsetNumber)
               ((limit - offsetNumber) * sizeof_ItemIdData)
           else Ok p);
      p ← PageSetItemId p offsetNumber (ItemIdSetNormal upper size);
      p ← mem_write p upper item;
      Ok (set_pd_upper (set_pd_lower p lower) upper, offsetNumber).

Definition PageAddItemExtended (p : Page) (item : list Z) (offsetNumber flags : Z) : result (Page * Z) :=
  if page_pointers_corrupted p then corrupted_page
  else
    let limit := OffsetNumberNext (PageGetMaxOffsetNumber p) in
    slot ← add_item_slot p offsetNumber flags limit;
    match slot with
    | None => Ok (p, InvalidOffsetNumber)
    | Some (p, offsetNumber, needshuffle) => add_item_at p item limit offsetNumber needshuffle flags
    end.

Definition PageAddItem (p : Page) (item : list Z) (offsetNumber : Z) (overwrite is_heap : bool) : result (Page * Z) :=
  PageAddItemExtended p item offsetNumber
    (Z.lor (if overwrite then PAI_OVERWRITE else 0) (if is_heap then PAI_IS_HEAP else 0)).

(** ** Temporary pages *)

Definition PageGetTempPageCopy (p : Page) : Page := bytes_at p 0 (PageGetPageSize p).

(** [temp] is the memory that palloc returned. *)
Definition PageGetTempPageCopySpecial (p temp : Page) : result Page :=
  let temp := PageInit temp (PageGetPageSize p) (PageGetSpecialSize p) in
  bs ← mem_read p (pd_special p) (PageGetSpecialSize p);
  mem_write temp (pd_special temp) bs.

Definition PageRestoreTempPage (tempPage oldPage : Page) : result Page :=
  bs ← mem_read tempPage 0 (PageGetPageSize tempPage); mem_write oldPage 0 bs.

(** ** Compaction *)

Record itemIdSortData : Type := mkItemIdSort { offsetindex : Z; itemoff : Z; alignedlen : Z }.

Definition itemoffcompare (itemidp1 itemidp2 : itemIdSortData) : Z := itemoff itemidp2 - itemoff itemidp1.

Fixpoint compactify_loop (itemidbase : list itemIdSortData) (p : Page) (upper : Z) : result (Page * Z) :=
  match itemidbase with
  | [] => Ok (p, upper)
  | itemidptr :: rest =>
      let upper := upper - alignedlen itemidptr in
      p ← memmove p upper (itemoff itemidptr) (alignedlen itemidptr);
      p ← set_lp_off p (offsetindex itemidptr + 1) upper;
      compactify_loop rest p upper
  end.

(** Errors that the functions below report on corrupted pages. *)
Definition page_pointers_corrupted_aligned (p : Page) : bool :=
  page_pointers_corrupted p || negb (pd_special p =? MAXALIGN (pd_special p)).

Definition corrupted_line_pointer {A} : result A := ereport ERRCODE_DATA_CORRUPTED "corrupted line pointer".

Definition corrupted_item_lengths {A} : result A := ereport ERRCODE_DATA_CORRUPTED "corrupted item lengths".

Section Compaction.
Context `{Sorter}.

Definition compactify_tuples (itemidbase : list itemIdSortData) (p : Page) : result Page :=
  '(p, upper) ← compactify_loop (qsort_arg itemoffcompare itemidbase) p (pd_special p);
  Ok (set_pd_upper p upper).

(** The scan of the line pointers [i], ..., [i + n - 1] in
    [PageRepairFragmentation]; [upper] and [special] are the fields of the page
    at its start. *)
Fixpoint repair_scan (n : nat) (p : Page) (upper special i : Z) (itemidbase : list itemIdSortData) (nunused totallen : Z)
  : result (Page * list itemIdSortData * Z * Z) :=
  match n with
  | O => Ok (p, itemidbase, nunused, totallen)
  | S n' =>
      lp ← PageGetItemId p i;
      if ItemIdIsUsed lp then
        if ItemIdHasStorage lp then
          if Z.of_nat (length itemidbase) >=? MaxHeapTuplesPerPage then undefined "itemidbase is full"
          else if (lp_off lp <? upper) || (lp_off lp >=? special) then corrupted_line_pointer
          else
            let len := MAXALIGN (lp_len lp) in
            repair_scan n' p upper special (i + 1) (itemidbase ++ [mkItemIdSort (i - 1) (lp_off lp) len]) nunused (totallen + len)
        else repair_scan n' p upper special (i + 1) itemidbase nunused totallen
      else
        p ← PageSetItemId p i ItemIdSetUnused;
        repair_scan n' p upper special (i + 1) itemidbase (nunused + 1) totallen
  end.

Definition PageRepairFragmentation (p : Page) : result Page :=
  let lower := pd_lower p in let upper := pd_upper p in let special := pd_special p in
  if page_pointers_corrupted_aligned p then corrupted_page
  else
    let nline := PageGetMaxOffsetNumber p in
    '(p, itemidbase, nunused, totallen) ← repair_scan (Z.to_nat nline) p upper special FirstOffsetNumber [] 0 0;
    p ← (if (length itemidbase =? 0)%nat then Ok (set_pd_upper p special)
         else if totallen >? special - lower then corrupted_item_lengths
         else compactify_tuples itemidbase p);
    Ok (if nunused >? 0 then PageSetHasFreeLinePointers p else PageClearHasFreeLinePointers p).

End Compaction.

(** ** Free space *)

Definition PageGetFreeSpace (p : Page) : Z :=
  let space := pd_upper p - pd_lower p in
  if space <? sizeof_ItemIdData then 0 else space - sizeof_ItemIdData.

(** [ntups * sizeof(ItemIdData)] is computed in 64 bits and the comparison is
    with its conversion to [int]. *)
Definition PageGetFreeSpaceForMultipleTuples (p : Page) (ntups : Z) : Z :=
  let space := pd_upper p - pd_lower p in
  if space <? swrap 32 (uwrap 64 (ntups * sizeof_ItemIdData)) then 0
  else uwrap 64 (swrap 32 (uwrap 64 (space - ntups * sizeof_ItemIdData))).

Definition PageGetExactFreeSpace (p : Page) : Z :=
  let space := pd_upper p - pd_lower p in if space <? 0 then 0 else space.

(** The loop over the line pointers [off], ..., [nline] that looks for an
    unused one. *)
Fixpoint has_unused_linp (n : nat) (p : Page) (off : Z) : result bool :=
  match n with
  | O => Ok false
  | S n' =>
      lp ← PageGetItemId p off;
      if negb (ItemIdIsUsed lp) then Ok true else has_unused_linp n' p (off + 1)
  end.

Definition PageGetHeapFreeSpace (p : Page) : result Z :=
  let space := PageGetFreeSpace p in
  if space >? 0 then
    let nline := PageGetMaxOffsetNumber p in
    if nline >=? MaxHeapTuplesPerPage then
      if PageHasFreeLinePointers p then
        free ← has_unused_linp (Z.to_nat nline) p FirstOffsetNumber;
        Ok (if free : bool then space else 0)
      else Ok 0
    else Ok space
  else Ok space.

(** ** Index pages *)

(** The check of a line pointer of an index page. *)
Definition line_pointer_corrupted (upper special offset size : Z) : bool :=
  (offset <? upper) || (offset + size >? special) || negb (offset =? MAXALIGN offset).

(** The loop that adds [delta] to the offsets of the items at [offset] or
    before, over the line pointers [i], ..., [i + n - 1].  [test] says which
    line pointers it looks at. *)
Fixpoint shift_items (n : nat) (test : ItemIdData -> bool) (p : Page) (i offset delta : Z) : result Page :=
  match n with
  | O => Ok p
  | S n' =>
      ii ← PageGetItemId p i;
      p ← (if test ii && (lp_off ii <=? offset) then set_lp_off p i (lp_off ii + delta) else Ok p);
      shift_items n' test p (i + 1) offset delta
  end.

Definition PageIndexTupleDelete (p : Page) (offnum : Z) : result Page :=
  if page_pointers_corrupted_aligned p then corrupted_page
  else
    let nline := PageGetMaxOffsetNumber p in
    if (offnum <=? 0) || (offnum >? nline) then elog "invalid index offnum"
    else
      tup ← PageGetItemId p offnum;
      let size := lp_len tup in
      let offset := lp_off tup in
      if line_pointer_corrupted (pd_upper p) (pd_special p) offset size then corrupted_line_pointer
      else
        let size := MAXALIGN size in
        let nbytes := pd_lower p - linp_addr (offnum + 1) in
        p ← (if nbytes >? 0 then memmove p (linp_addr offnum) (linp_addr (offnum + 1)) nbytes else Ok p);
        p ← (if offset >? pd_upper p then memmove p (pd_upper p + size) (pd_upper p) (offset - pd_upper p) else Ok p);
        let p := set_pd_upper p (pd_upper p + size) in
        let p := set_pd_lower p (pd_lower p - sizeof_ItemIdData) in
        if negb (PageIsEmpty p) then shift_items (Z.to_nat (nline - 1)) (fun _ => true) p 1 offset size
        else Ok p.

Definition PageIndexTupleDeleteNoCompact (p : Page) (offnum : Z) : result Page :=
  if page_pointers_corrupted_aligned p then corrupted_page
  else
    let nline := PageGetMaxOffsetNumber p in
    if (offnum <=? 0) || (offnum >? nline) then elog "invalid index offnum"
    else
      tup ← PageGetItemId p offnum;
      let size := lp_len tup in
      let offset := lp_off tup in
      if line_pointer_corrupted (pd_upper p) (pd_special p) offset size then corrupted_line_pointer
      else
        let size := MAXALIGN size in
        '(p, nline) ← (if offnum <? nline then p ← PageSetItemId p offnum ItemIdSetUnused; Ok (p, nline)
                       else Ok (set_pd_lower p (pd_lower p - sizeof_ItemIdData), nline - 1));
        p ← (if offset >? pd_upper p then memmove p (pd_upper p + size) (pd_upper p) (offset - pd_upper p) else Ok p);
        let p := set_pd_upper p (pd_upper p + size) in
        if negb (PageIsEmpty p) then shift_items (Z.to_nat nline) ItemIdHasStorage p 1 offset size
        else Ok p.

Definition PageIndexTupleOverwrite (p : Page) (offnum : Z) (newtup : list Z) : result (Page * bool) :=
  if page_pointers_corrupted_aligned p then corrupted_page
  else
    let itemcount := PageGetMaxOffsetNumber p in
    if (offnum <=? 0) || (offnum >? itemcount) then elog "invalid index offnum"
    else
      tupid ← PageGetItemId p offnum;
      let oldsize := lp_len tupid in
      let offset := lp_off tupid in
      if line_pointer_corrupted (pd_upper p) (pd_special p) offset oldsize then corrupted_line_pointer
      else
        let newsize := Z.of_nat (length newtup) in
        let oldsize := MAXALIGN oldsize in
        let alignednewsize := MAXALIGN newsize in
        if alignednewsize >? oldsize + (pd_upper p - pd_lower p) then Ok (p, false)
        else
          let size_diff := oldsize - swrap 32 alignednewsize in
          p ← (if negb (size_diff =? 0) then
                 p ← memmove p (pd_upper p + size_diff) (pd_upper p) (offset - pd_upper p);
                 let p := set_pd_upper p (pd_upper p + size_diff) in
                 shift_items (Z.to_nat itemcount) ItemIdHasStorage p FirstOffsetNumber offset size_diff
               else Ok p);
          tupid ← PageGetItemId p offnum;
          p ← PageSetItemId p offnum (mkItemId ((offset + size_diff) mod 2 ^ 15) (lp_flags tupid) (newsize mod 2 ^ 15));
          p ← mem_write p ((offset + size_diff) mod 2 ^ 15) newtup;
          Ok (p, true).

(** The scan of [PageIndexMultiDelete] over the line pointers [offnum], ...,
    [offnum + n - 1]: the item numbers not found, the entries to sort, the line
    pointers to keep, and their total length; [itemnos] are the item numbers
    from [nextitm] on. *)
Fixpoint multi_scan (n : nat) (p : Page) (upper special offnum : Z) (itemnos : list Z)
    (itemidbase : list itemIdSortData) (newitemids : list ItemIdData) (totallen : Z)
  : result (list Z * list itemIdSortData * list ItemIdData * Z) :=
  match n with
  | O => Ok (itemnos, itemidbase, newitemids, totallen)
  | S n' =>
      lp ← PageGetItemId p offnum;
      let size := lp_len lp in
      let offset := lp_off lp in
      if line_pointer_corrupted upper special offset size then corrupted_line_pointer
      else if match itemnos with itemno :: _ => offnum =? itemno | [] => false end then
        multi_scan n' p upper special (offnum + 1) (tail itemnos) itemidbase newitemids totallen
      else
        let nused := Z.of_nat (length newitemids) in
        if nused >=? MaxIndexTuplesPerPage then undefined "itemidbase is full"
        else
          let len := MAXALIGN size in
          multi_scan n' p upper special (offnum + 1) itemnos (itemidbase ++ [mkItemIdSort nused offset len])
            (newitemids ++ [lp]) (totallen + len)
  end.

(** The loop for few items, from the last item number to the first. *)
Fixpoint delete_each (p : Page) (itemnos : list Z) : result Page :=
  match itemnos with
  | [] => Ok p
  | offnum :: rest => p ← PageIndexTupleDelete p offnum; delete_each p rest
  end.

Definition PageIndexMultiDelete `{Sorter} (p : Page) (itemnos : list Z) : result Page :=
  if (length itemnos <=? 2)%nat then delete_each p (rev itemnos)
  else
    let lower := pd_lower p in let upper := pd_upper p in let special := pd_special p in
    if page_pointers_corrupted_aligned p then corrupted_page
    else
      let nline := PageGetMaxOffsetNumber p in
      '(missing, itemidbase, newitemids, totallen) ←
        multi_scan (Z.to_nat nline) p upper special FirstOffsetNumber itemnos [] [] 0;
      if negb (length missing =? 0)%nat then elog "incorrect index offsets supplied"
      else if totallen >? special - lower then corrupted_item_lengths
      else
        p ← mem_write p SizeOfPageHeaderData (concat (map linp_bytes newitemids));
        let p := set_pd_lower p (SizeOfPageHeaderData + Z.of_nat (length newitemids) * sizeof_ItemIdData) in
        compactify_tuples itemidbase p.

(** ** Item pointers (storage/page/itemptr.c) *)

Definition ItemPointerEquals (pointer1 pointer2 : ItemPointer) : bool :=
  (pointer1.1 =? pointer2.1) && (pointer1.2 =? pointer2.2).

Definition ItemPointerCompare (arg1 arg2 : ItemPointer) : Z :=
  if arg1.1 <? arg2.1 then -1
  else if arg1.1 >? arg2.1 then 1
  else if arg1.2 <? arg2.2 then -1
  else if arg1.2 >? arg2.2 then 1
  else 0.
