(* ===== verification/PageMem.v ===== *)
(** * Lemmas on the bytes of a page

    Reading after writing: header fields, line pointers and items occupy
    disjoint parts of the page, so that every update is described by what it
    puts at one place and by the places that it leaves alone.  Then the
    invariant of pages and their abstract contents. *)

From S2P Require Import Prelude Varlena HeapTuple IndexTuple Sorting Page.
From S2P Require Import HeapTupleProofs.

(** ** Reading and writing buffers *)

Lemma lookup_bytes_at b o n i :
  0 <= o -> (i < Z.to_nat n)%nat -> bytes_at b o n !! i = b !! (Z.to_nat o + i)%nat.
Proof. intros Ho Hi. unfold bytes_at. rewrite lookup_take_lt by done. by rewrite lookup_drop. Qed.

Lemma bytes_at_length b o n :
  0 <= o -> 0 <= n -> o + n <= Z.of_nat (length b) -> length (bytes_at b o n) = Z.to_nat n.
Proof. intros. unfold bytes_at. rewrite length_take, length_drop. lia. Qed.

(** Two buffers with the same bytes in a range read the same there. *)
Lemma bytes_at_ext b b' o o' n :
  0 <= o -> 0 <= o' ->
  (forall i, (i < Z.to_nat n)%nat -> b !! (Z.to_nat o + i)%nat = b' !! (Z.to_nat o' + i)%nat) ->
  bytes_at b o n = bytes_at b' o' n.
Proof.
  intros Ho Ho' H. apply list_eq. intros i.
  destruct (decide (i < Z.to_nat n)%nat) as [Hi|Hi].
  - rewrite !lookup_bytes_at by done. auto.
  - unfold bytes_at. by rewrite !lookup_take_ge by lia.
Qed.

Lemma bytes_at_bytes_at b o n o' n' :
  0 <= o -> 0 <= o' -> 0 <= n' -> o' + n' <= n -> bytes_at (bytes_at b o n) o' n' = bytes_at b (o + o') n'.
Proof.
  intros. apply bytes_at_ext; [lia..|]. intros i Hi. rewrite lookup_bytes_at by lia. f_equal. lia.
Qed.

Lemma bytes_at_prefix b b' o o' n m :
  0 <= o -> 0 <= o' -> 0 <= m <= n -> bytes_at b o n = bytes_at b' o' n -> bytes_at b o m = bytes_at b' o' m.
Proof.
  intros ? ? ? E. rewrite <- (Z.add_0_r o), <- (Z.add_0_r o'), <- !(bytes_at_bytes_at _ _ n 0 m) by lia. by rewrite E.
Qed.

(** The two halves of a part of a buffer. *)
Lemma bytes_at_split b o n m :
  0 <= o -> 0 <= n -> 0 <= m -> o + n <= Z.of_nat (length b) -> bytes_at b o (n + m) = bytes_at b o n ++ bytes_at b (o + n) m.
Proof.
  intros. unfold bytes_at. rewrite !Z2Nat.inj_add, <- drop_drop by lia. by rewrite take_take_drop.
Qed.

Section Put.
Variables (b : Page) (off : Z) (bs : list Z).
Hypothesis Hoff : 0 <= off.
Hypothesis Hin : off + Z.of_nat (length bs) <= Z.of_nat (length b).

Lemma length_put : length (put b off bs) = length b.
Proof. unfold put. rewrite !length_app, length_take, length_drop. lia. Qed.

Lemma lookup_put_l i : Z.of_nat i < off -> put b off bs !! i = b !! i.
Proof. intros. unfold put. rewrite lookup_app_l by (rewrite length_take; lia). by rewrite lookup_take_lt by lia. Qed.

Lemma lookup_put_m i : off <= Z.of_nat i < off + Z.of_nat (length bs) -> put b off bs !! i = bs !! (i - Z.to_nat off)%nat.
Proof.
  intros. unfold put. rewrite lookup_app_r by (rewrite length_take; lia).
  rewrite length_take, lookup_app_l by lia. f_equal. lia.
Qed.

Lemma lookup_put_r i : off + Z.of_nat (length bs) <= Z.of_nat i -> put b off bs !! i = b !! i.
Proof.
  intros. unfold put. rewrite lookup_app_r by (rewrite length_take; lia).
  rewrite length_take, lookup_app_r by lia. rewrite lookup_drop. f_equal. lia.
Qed.

(** Reading the part that was put, and a part that was not. *)
Lemma bytes_at_put_in o n :
  off <= o -> 0 <= n -> o + n <= off + Z.of_nat (length bs) -> bytes_at (put b off bs) o n = bytes_at bs (o - off) n.
Proof. intros. apply bytes_at_ext; [lia..|]. intros i Hi. rewrite lookup_put_m by lia. f_equal. lia. Qed.

Lemma bytes_at_put_out o n :
  0 <= o -> o + n <= off \/ off + Z.of_nat (length bs) <= o -> bytes_at (put b off bs) o n = bytes_at b o n.
Proof.
  intros Ho [H|H]; apply bytes_at_ext; try lia; intros i Hi; [apply lookup_put_l|apply lookup_put_r]; lia.
Qed.

Lemma put_is_byte : Forall is_byte b -> Forall is_byte bs -> Forall is_byte (put b off bs).
Proof. intros. unfold put. rewrite !Forall_app. auto using Forall_take, Forall_drop. Qed.

End Put.

(** ** Pages *)

Definition is_page (p : Page) : Prop := Z.of_nat (length p) = BLCKSZ /\ Forall is_byte p.

(** [p'] differs from [p] between [lo] and [hi] only. *)
Definition frame (p p' : Page) (lo hi : Z) : Prop :=
  forall o n, 0 <= o -> o + n <= lo \/ hi <= o -> bytes_at p' o n = bytes_at p o n.

Lemma frame_refl p lo hi : frame p p lo hi.
Proof. intros o n _ _. done. Qed.

Lemma frame_weaken p p' lo hi l h : frame p p' lo hi -> l <= lo -> hi <= h -> frame p p' l h.
Proof. intros F ? ? o n Ho Hd. apply F; lia. Qed.

Lemma frame_trans p p' p'' lo hi lo' hi' l h :
  frame p p' lo hi -> frame p' p'' lo' hi' -> l <= lo -> l <= lo' -> hi <= h -> hi' <= h -> frame p p'' l h.
Proof. intros F F' ? ? ? ? o n Ho Hd. rewrite F' by lia. apply F; lia. Qed.

Lemma bytes_at_is_byte p o n : Forall is_byte p -> Forall is_byte (bytes_at p o n).
Proof. intros. unfold bytes_at. auto using Forall_take, Forall_drop. Qed.

Lemma put_page p off bs :
  is_page p -> Forall is_byte bs -> 0 <= off -> off + Z.of_nat (length bs) <= BLCKSZ ->
  is_page (put p off bs) /\ frame p (put p off bs) off (off + Z.of_nat (length bs)) /\
  forall o n, off <= o -> 0 <= n -> o + n <= off + Z.of_nat (length bs) -> bytes_at (put p off bs) o n = bytes_at bs (o - off) n.
Proof.
  intros [Hl Hb] Hbs Ho Hi. split_and!.
  - split; [rewrite length_put; lia|]. by apply put_is_byte.
  - intros o n Hn Hd. apply bytes_at_put_out; lia.
  - intros. apply bytes_at_put_in; lia.
Qed.

Lemma mem_read_page p o n : is_page p -> 0 <= o -> 0 <= n -> o + n <= BLCKSZ -> mem_read p o n = Ok (bytes_at p o n).
Proof. intros [Hl _] ? ? ?. unfold mem_read, in_buf. by rewrite Hl, !(proj2 (Z.leb_le _ _)) by lia. Qed.

Lemma mem_write_page p o bs :
  is_page p -> 0 <= o -> o + Z.of_nat (length bs) <= BLCKSZ -> mem_write p o bs = Ok (put p o bs).
Proof. intros [Hl _] ? ?. unfold mem_write, in_buf. by rewrite Hl, !(proj2 (Z.leb_le _ _)) by lia. Qed.

Lemma memmove_page p dst src n :
  is_page p -> 0 <= dst -> 0 <= src -> 0 <= n -> dst + n <= BLCKSZ -> src + n <= BLCKSZ ->
  exists p', memmove p dst src n = Ok p' /\ is_page p' /\ frame p p' dst (dst + n) /\
  forall o m, dst <= o -> 0 <= m -> o + m <= dst + n -> bytes_at p' o m = bytes_at p (src + (o - dst)) m.
Proof.
  intros Hp ? ? ? ? ?. unfold memmove. rewrite mem_read_page by done. cbn.
  assert (Hl : length (bytes_at p src n) = Z.to_nat n) by (apply bytes_at_length; destruct Hp; lia).
  rewrite mem_write_page by (rewrite ?Hl; done || lia).
  eexists. split; [done|].
  destruct (put_page p dst (bytes_at p src n)) as (Hp' & F & In); [done|by apply bytes_at_is_byte, Hp|lia|lia|].
  rewrite Hl, Z2Nat.id in F, In by lia. split_and!; [done..|].
  intros. rewrite In by lia. apply bytes_at_bytes_at; lia.
Qed.

(** ** Header fields *)

Lemma get16_range p o : is_page p -> 0 <= o -> o + 2 <= BLCKSZ -> 0 <= get16 p o < 2 ^ 16.
Proof.
  intros Hp ? ?. unfold get16. pose proof (bytes_at_is_byte p o 2 (proj2 Hp)) as Hb.
  assert (Hl : length (bytes_at p o 2) = 2%nat) by (apply bytes_at_length; destruct Hp; lia).
  destruct (bytes_at p o 2) as [|x [|y [|]]]; try discriminate. cbn.
  inversion_clear Hb as [|? ? Hx Hb']. inversion_clear Hb' as [|? ? Hy]. unfold is_byte in *. lia.
Qed.

Lemma put16_page p o x :
  is_page p -> 0 <= o -> o + 2 <= BLCKSZ ->
  is_page (put16 p o x) /\ frame p (put16 p o x) o (o + 2) /\ get16 (put16 p o x) o = x mod 2 ^ 16.
Proof.
  intros Hp ? ?. destruct (put_page p o (le_bytes 2 x)) as (Hp' & F & In);
    [done|apply le_bytes_is_byte|done|rewrite length_le_bytes; lia|].
  rewrite length_le_bytes in F, In. split_and!; [done..|].
  unfold get16, put16. rewrite In by lia. rewrite Z.sub_diag, bytes_at_all by (by rewrite length_le_bytes).
  apply (le_value_bytes 2).
Qed.

Lemma frame_get16 p p' lo hi o : frame p p' lo hi -> 0 <= o -> o + 2 <= lo \/ hi <= o -> get16 p' o = get16 p o.
Proof. intros F ? ?. unfold get16. by rewrite F. Qed.

(** ** Line pointers *)

Definition lp_ok (lp : ItemIdData) : Prop :=
  0 <= lp_off lp < 2 ^ 15 /\ 0 <= lp_flags lp < 2 ^ 2 /\ 0 <= lp_len lp < 2 ^ 15.

Lemma ItemId_of_word_ok w : lp_ok (ItemId_of_word w).
Proof. unfold lp_ok, ItemId_of_word; cbn. split_and!; apply Z.mod_pos_bound; lia. Qed.

Lemma ItemId_word_range lp : 0 <= ItemId_word lp < 2 ^ 32.
Proof.
  unfold ItemId_word. pose proof (Z.mod_pos_bound (lp_off lp) (2 ^ 15) ltac:(lia)). pose proof (Z.mod_pos_bound (lp_flags lp) (2 ^ 2) ltac:(lia)).
  pose proof (Z.mod_pos_bound (lp_len lp) (2 ^ 15) ltac:(lia)). lia.
Qed.

Lemma ItemId_of_word_word lp : lp_ok lp -> ItemId_of_word (ItemId_word lp) = lp.
Proof.
  intros (Ho & Hf & Hl). destruct lp as [o f l]; cbn in *. unfold ItemId_of_word, ItemId_word; cbn [lp_off lp_flags lp_len].
  rewrite (Z.mod_small o), (Z.mod_small f), (Z.mod_small l) by lia. f_equal; zlia.
Qed.

(** The line pointer [i] of a page. *)
Definition linp (p : Page) (i : Z) : ItemIdData := ItemId_of_word (le_value (bytes_at p (linp_addr i) 4)).

#[global] Arguments linp : simpl never.

Lemma linp_ok p i : lp_ok (linp p i).
Proof. apply ItemId_of_word_ok. Qed.

Lemma frame_linp p p' lo hi i :
  frame p p' lo hi -> 1 <= i -> linp_addr (i + 1) <= lo \/ hi <= linp_addr i -> linp p' i = linp p i.
Proof. intros F ? ?. unfold linp. rewrite F; [done| |]; unfold linp_addr, SizeOfPageHeaderData, sizeof_ItemIdData in *; lia. Qed.

Lemma PageGetItemId_page p i : is_page p -> 1 <= i -> linp_addr (i + 1) <= BLCKSZ -> PageGetItemId p i = Ok (linp p i).
Proof.
  intros. unfold PageGetItemId, linp_addr, SizeOfPageHeaderData, sizeof_ItemIdData in *.
  rewrite mem_read_page by (done || lia). done.
Qed.

Lemma PageSetItemId_page p i lp :
  is_page p -> lp_ok lp -> 1 <= i -> linp_addr (i + 1) <= BLCKSZ ->
  exists p', PageSetItemId p i lp = Ok p' /\ is_page p' /\ frame p p' (linp_addr i) (linp_addr (i + 1)) /\ linp p' i = lp.
Proof.
  intros Hp Hlp Hi Hb. unfold PageSetItemId.
  assert (Ha : linp_addr (i + 1) = linp_addr i + 4) by (unfold linp_addr, SizeOfPageHeaderData, sizeof_ItemIdData; lia).
  assert (Hn : 0 <= linp_addr i) by (unfold linp_addr, SizeOfPageHeaderData, sizeof_ItemIdData; lia).
  unfold linp_bytes. rewrite mem_write_page by (rewrite ?length_le_bytes; done || lia).
  eexists. split; [done|].
  destruct (put_page p (linp_addr i) (le_bytes 4 (ItemId_word lp))) as (Hp' & F & In);
    [done|apply le_bytes_is_byte|done|rewrite length_le_bytes; lia|].
  rewrite length_le_bytes in F, In. rewrite Ha. split_and!; [done..|].
  unfold linp. rewrite In by lia. rewrite Z.sub_diag, bytes_at_all by (by rewrite length_le_bytes).
  rewrite le_value_bytes, Z.mod_small by (apply ItemId_word_range). by apply ItemId_of_word_word.
Qed.

Lemma set_lp_off_page p i off :
  is_page p -> 1 <= i -> linp_addr (i + 1) <= BLCKSZ ->
  exists p', set_lp_off p i off = Ok p' /\ is_page p' /\ frame p p' (linp_addr i) (linp_addr (i + 1)) /\
  linp p' i = mkItemId (off mod 2 ^ 15) (lp_flags (linp p i)) (lp_len (linp p i)).
Proof.
  intros. unfold set_lp_off. rewrite PageGetItemId_page by done. cbn. apply PageSetItemId_page; [done| |done..].
  destruct (linp_ok p i) as (_ & ? & ?). unfold lp_ok; cbn. split_and!; try apply Z.mod_pos_bound; lia.
Qed.

(** The loop over line pointers changes those that it looks at, and nothing
    else. *)
Definition shift_lp (test : ItemIdData -> bool) (offset delta : Z) (lp : ItemIdData) : ItemIdData :=
  if test lp && (lp_off lp <=? offset) then mkItemId ((lp_off lp + delta) mod 2 ^ 15) (lp_flags lp) (lp_len lp) else lp.

Lemma shift_items_page n test p i offset delta :
  is_page p -> 1 <= i -> linp_addr (i + Z.of_nat n) <= BLCKSZ ->
  exists p', shift_items n test p i offset delta = Ok p' /\ is_page p' /\
  frame p p' (linp_addr i) (linp_addr (i + Z.of_nat n)) /\
  forall j, i <= j < i + Z.of_nat n -> linp p' j = shift_lp test offset delta (linp p j).
Proof.
  revert p i. induction n as [|n IH]; intros p i Hp Hi Hb; cbn [shift_items].
  { exists p. split_and!; [done|done|apply frame_refl|lia]. }
  assert (Ha : forall k, linp_addr (k + 1) = linp_addr k + 4) by (intros; unfold linp_addr, SizeOfPageHeaderData, sizeof_ItemIdData; lia).
  assert (Hm : linp_addr (i + 1) <= linp_addr (i + Z.of_nat (S n))) by (unfold linp_addr, SizeOfPageHeaderData, sizeof_ItemIdData; lia).
  rewrite PageGetItemId_page by (done || lia). cbn [mbind result_bind].
  assert (exists p1, (if test (linp p i) && (lp_off (linp p i) <=? offset)
    then set_lp_off p i (lp_off (linp p i) + delta) else Ok p) = Ok p1 /\ is_page p1 /\
    frame p p1 (linp_addr i) (linp_addr (i + 1)) /\ linp p1 i = shift_lp test offset delta (linp p i)) as (p1 & -> & Hp1 & F1 & E1).
  { unfold shift_lp. destruct (test (linp p i) && (lp_off (linp p i) <=? offset)).
    - destruct (set_lp_off_page p i (lp_off (linp p i) + delta)) as (p1 & ? & ? & ? & ?); [done|done|lia|]. by exists p1.
    - by exists p. }
  cbn [mbind result_bind]. destruct (IH p1 (i + 1)) as (p2 & -> & Hp2 & F2 & E2); [done|lia|by replace (i + 1 + Z.of_nat n) with (i + Z.of_nat (S n)) by lia|].
  replace (i + 1 + Z.of_nat n) with (i + Z.of_nat (S n)) in * by lia.
  exists p2. split_and!; [done|done|eapply frame_trans; eauto; rewrite ?Ha in *; lia|].
  intros j Hj. destruct (Z.eq_dec j i) as [-> |Hne].
  - rewrite <- E1. eapply frame_linp; [exact F2|lia|left; lia].
  - rewrite E2 by lia. f_equal. eapply frame_linp; [exact F1|lia|]. right. unfold linp_addr, SizeOfPageHeaderData, sizeof_ItemIdData; lia.
Qed.

(** ** The invariant of pages and their abstract contents

    A page stands for a sequence of items, each with the flags of its line
    pointer and either the bytes of the item or, without storage, the link of
    the line pointer; for an amount of free space; and for the special space.
    Where an item is stored is not part of it. *)

Inductive ItemView : Type :=
| Bare (flags link : Z)
| Stored (flags : Z) (data : list Z).

#[global] Instance ItemView_eq_dec : EqDecision ItemView.
Proof. solve_decision. Defined.

Record PageState : Type := mkState {
  ps_lsn_checksum : list Z;
  ps_flags : Z;
  ps_version_prune : list Z;
  ps_items : list ItemView;
  ps_free : Z;
  ps_special : list Z
}.

Definition item_view (p : Page) (lp : ItemIdData) : ItemView :=
  if lp_len lp =? 0 then Bare (lp_flags lp) (lp_off lp) else Stored (lp_flags lp) (bytes_at p (lp_off lp) (lp_len lp)).

(** The item [i] of a page, and all of them. *)
Definition item (p : Page) (i : Z) : ItemView := item_view p (linp p i).

Definition page_items (p : Page) : list ItemView :=
  map (fun k => item p (Z.of_nat k + 1)) (seq 0 (Z.to_nat (PageGetMaxOffsetNumber p))).

Definition page_state (p : Page) : PageState :=
  mkState (bytes_at p 0 10) (pd_flags p) (bytes_at p 18 6) (page_items p) (pd_upper p - pd_lower p)
    (bytes_at p (pd_special p) (BLCKSZ - pd_special p)).

(** The space that the data of an item takes. *)
Definition stored_len (v : ItemView) : Z :=
  match v with Bare _ _ => 0 | Stored _ data => MAXALIGN (Z.of_nat (length data)) end.

(** ** The invariant *)

(** Items with storage lie between [lo] and [hi], aligned, and do not overlap;
    unused line pointers are zero. *)
Record layout (lo hi n : Z) (f : Z -> ItemIdData) : Prop := mkLayout {
  lay_in : forall i, 1 <= i <= n -> lp_len (f i) <> 0 ->
    lo <= lp_off (f i) /\ lp_off (f i) mod 8 = 0 /\ lp_off (f i) + lp_len (f i) <= hi;
  lay_disjoint : forall i j, 1 <= i <= n -> 1 <= j <= n -> i <> j -> lp_len (f i) <> 0 -> lp_len (f j) <> 0 ->
    lp_off (f i) + MAXALIGN (lp_len (f i)) <= lp_off (f j) \/ lp_off (f j) + MAXALIGN (lp_len (f j)) <= lp_off (f i);
  lay_unused : forall i, 1 <= i <= n -> lp_flags (f i) = LP_UNUSED -> f i = ItemIdSetUnused
}.

Record page_wf (p : Page) : Prop := mkPageWf {
  wf_page : is_page p;
  wf_lower : SizeOfPageHeaderData <= pd_lower p;
  wf_lower_upper : pd_lower p <= pd_upper p;
  wf_upper_special : pd_upper p <= pd_special p;
  wf_special : pd_special p <= BLCKSZ;
  wf_lower_aligned : pd_lower p mod 4 = 0;
  wf_upper_aligned : pd_upper p mod 8 = 0;
  wf_special_aligned : pd_special p mod 8 = 0;
  wf_flags : 0 <= pd_flags p <= PD_VALID_FLAG_BITS;
  wf_version : pd_pagesize_version p = Z.lor BLCKSZ PG_PAGE_LAYOUT_VERSION;
  wf_layout : layout (pd_upper p) (pd_special p) (PageGetMaxOffsetNumber p) (linp p)
}.

(** ** Offset numbers *)

Ltac linp_lia := unfold linp_addr, SizeOfPageHeaderData, sizeof_ItemIdData, BLCKSZ in *; lia.

Lemma MaxOffsetNumber_eq p :
  SizeOfPageHeaderData <= pd_lower p -> PageGetMaxOffsetNumber p = (pd_lower p - SizeOfPageHeaderData) / 4.
Proof.
  intros H. unfold PageGetMaxOffsetNumber. destruct (Z.leb_spec (pd_lower p) SizeOfPageHeaderData).
  - replace (pd_lower p) with SizeOfPageHeaderData by lia. done.
  - rewrite Z.quot_div_nonneg by linp_lia. done.
Qed.

(** The line pointers end at [pd_lower]. *)
Lemma lower_linp p :
  SizeOfPageHeaderData <= pd_lower p -> pd_lower p mod 4 = 0 ->
  0 <= PageGetMaxOffsetNumber p /\ pd_lower p = linp_addr (PageGetMaxOffsetNumber p + 1).
Proof. intros. rewrite MaxOffsetNumber_eq by done. unfold linp_addr, SizeOfPageHeaderData, sizeof_ItemIdData in *. zlia. Qed.

Lemma max_offset_of_lower p n : 0 <= n -> pd_lower p = linp_addr (n + 1) -> PageGetMaxOffsetNumber p = n.
Proof. intros. rewrite MaxOffsetNumber_eq by linp_lia. unfold linp_addr, SizeOfPageHeaderData, sizeof_ItemIdData in *. zlia. Qed.

Lemma wf_linps p : page_wf p -> 0 <= PageGetMaxOffsetNumber p /\ pd_lower p = linp_addr (PageGetMaxOffsetNumber p + 1).
Proof. intros [? ? ? ? ? ? ? ? ? ? ?]. by apply lower_linp. Qed.

Lemma linp_addr_mono i j : i <= j -> linp_addr i <= linp_addr j.
Proof. linp_lia. Qed.

Lemma linp_addr_mod i : linp_addr i mod 4 = 0.
Proof. unfold linp_addr, SizeOfPageHeaderData, sizeof_ItemIdData. zlia. Qed.

Lemma wf_linp_addr p i : page_wf p -> i <= PageGetMaxOffsetNumber p -> linp_addr (i + 1) <= pd_lower p.
Proof. intros H Hi. destruct (wf_linps p H) as [_ ->]. apply linp_addr_mono. lia. Qed.

(** ** Items *)

Lemma page_items_length p : length (page_items p) = Z.to_nat (PageGetMaxOffsetNumber p).
Proof. unfold page_items. by rewrite length_map, length_seq. Qed.

Lemma page_items_lookup p i :
  1 <= i <= PageGetMaxOffsetNumber p -> page_items p !! Z.to_nat (i - 1) = Some (item p i).
Proof.
  intros Hi. unfold page_items. change (map ?f ?l) with (f <$> l). rewrite list_lookup_fmap, lookup_seq_lt by lia. cbn. do 2 f_equal. lia.
Qed.

(** The items of a page are a list when they are its elements. *)
Lemma page_items_eq p (l : list ItemView) :
  Z.of_nat (length l) = PageGetMaxOffsetNumber p ->
  (forall i, 1 <= i <= PageGetMaxOffsetNumber p -> l !! Z.to_nat (i - 1) = Some (item p i)) -> page_items p = l.
Proof.
  intros Hl H. apply list_eq. intros k. destruct (decide (k < length l)%nat) as [Hk|Hk].
  - specialize (H (Z.of_nat k + 1) ltac:(lia)). pose proof (page_items_lookup p (Z.of_nat k + 1) ltac:(lia)) as E.
    replace (Z.to_nat (Z.of_nat k + 1 - 1)) with k in * by lia. congruence.
  - rewrite !lookup_ge_None_2; [done|lia|]. rewrite page_items_length. lia.
Qed.

Lemma item_view_eq p p' lp lp' :
  lp_flags lp' = lp_flags lp -> lp_len lp' = lp_len lp -> (lp_len lp = 0 -> lp_off lp' = lp_off lp) ->
  (lp_len lp <> 0 -> bytes_at p' (lp_off lp') (lp_len lp) = bytes_at p (lp_off lp) (lp_len lp)) ->
  item_view p' lp' = item_view p lp.
Proof.
  intros Hf Hl Ho Hb. unfold item_view. rewrite Hf, Hl. destruct (Z.eqb_spec (lp_len lp) 0); [by rewrite Ho|by rewrite Hb].
Qed.

Lemma item_same p p' i :
  linp p' i = linp p i ->
  (lp_len (linp p i) <> 0 -> bytes_at p' (lp_off (linp p i)) (lp_len (linp p i)) = bytes_at p (lp_off (linp p i)) (lp_len (linp p i))) ->
  item p' i = item p i.
Proof. intros E Hb. unfold item. rewrite E. by apply item_view_eq. Qed.

Lemma stored_len_item p i :
  page_wf p -> 1 <= i <= PageGetMaxOffsetNumber p ->
  stored_len (item p i) = if lp_len (linp p i) =? 0 then 0 else MAXALIGN (lp_len (linp p i)).
Proof.
  intros Hwf Hi. unfold item, item_view. destruct (Z.eqb_spec (lp_len (linp p i)) 0) as [|Hne]; cbn [stored_len]; [done|].
  destruct (lay_in _ _ _ _ (wf_layout p Hwf) i Hi Hne) as (? & ? & ?). destruct (linp_ok p i) as (? & _ & ?).
  rewrite bytes_at_length; [by rewrite Z2Nat.id by lia|lia..|]. pose proof (wf_special p Hwf). destruct (wf_page p Hwf). lia.
Qed.

(** Items with storage. *)
Definition has_storage (v : ItemView) : bool := match v with Bare _ _ => false | Stored _ _ => true end.

Lemma item_has_storage p i : has_storage (item p i) = ItemIdHasStorage (linp p i).
Proof. unfold item, item_view, ItemIdHasStorage. by destruct (lp_len (linp p i) =? 0). Qed.

Lemma item_storage_len p i : has_storage (item p i) = true -> lp_len (linp p i) <> 0.
Proof. rewrite item_has_storage. unfold ItemIdHasStorage. by destruct (Z.eqb_spec (lp_len (linp p i)) 0). Qed.

Lemma all_stored p i :
  Forall (fun v => has_storage v = true) (page_items p) -> 1 <= i <= PageGetMaxOffsetNumber p -> has_storage (item p i) = true.
Proof. intros H Hi. rewrite Forall_lookup in H. apply (H (Z.to_nat (i - 1))), page_items_lookup, Hi. Qed.

(** The space of an item ends in the space for items, since that is aligned. *)
Lemma lay_end lo hi n f i :
  layout lo hi n f -> hi mod 8 = 0 -> 1 <= i <= n -> lp_len (f i) <> 0 -> lp_off (f i) + MAXALIGN (lp_len (f i)) <= hi.
Proof.
  intros L Hhi Hi Hne. destruct (lay_in _ _ _ _ L i Hi Hne) as (? & ? & ?). pose proof (MAXALIGN_spec (lp_len (f i))). zlia.
Qed.

Lemma MAXALIGN_pos len : 0 < len -> 8 <= MAXALIGN len.
Proof. intros. pose proof (MAXALIGN_spec len). zlia. Qed.

Lemma MAXALIGN_aligned x : x mod 8 = 0 -> MAXALIGN x = x.
Proof. intros. pose proof (MAXALIGN_spec x). zlia. Qed.

(** ** Header checks *)

Lemma wf_not_corrupted p : page_wf p -> page_pointers_corrupted_aligned p = false.
Proof.
  intros []. unfold page_pointers_corrupted_aligned, page_pointers_corrupted.
  rewrite MAXALIGN_aligned, Z.eqb_refl by done. rewrite !Z.gtb_ltb, !(proj2 (Z.ltb_ge _ _)) by lia. done.
Qed.

Lemma wf_not_corrupted' p : page_wf p -> page_pointers_corrupted p = false.
Proof. intros H%wf_not_corrupted. unfold page_pointers_corrupted_aligned in H. by apply orb_false_iff in H as [? _]. Qed.

Lemma wf_line_pointer p i :
  page_wf p -> 1 <= i <= PageGetMaxOffsetNumber p -> lp_len (linp p i) <> 0 ->
  line_pointer_corrupted (pd_upper p) (pd_special p) (lp_off (linp p i)) (lp_len (linp p i)) = false.
Proof.
  intros Hwf Hi Hne. destruct (lay_in _ _ _ _ (wf_layout p Hwf) i Hi Hne) as (? & ? & ?).
  unfold line_pointer_corrupted. rewrite MAXALIGN_aligned, Z.eqb_refl by done.
  rewrite Z.gtb_ltb, !(proj2 (Z.ltb_ge _ _)) by lia. done.
Qed.

Lemma wf_get_linp p i : page_wf p -> 1 <= i <= PageGetMaxOffsetNumber p -> PageGetItemId p i = Ok (linp p i).
Proof.
  intros Hwf Hi. apply PageGetItemId_page; [apply Hwf|lia|]. pose proof (wf_linp_addr p i Hwf ltac:(lia)).
  destruct Hwf. lia.
Qed.

(** ** Updates

    What an update that leaves the header, the flags and the special space
    alone has to establish. *)
Record keeps_header (p p' : Page) : Prop := mkKeeps {
  kh_page : is_page p';
  kh_start : bytes_at p' 0 10 = bytes_at p 0 10;
  kh_flags : pd_flags p' = pd_flags p;
  kh_special : pd_special p' = pd_special p;
  kh_end : bytes_at p' 18 6 = bytes_at p 18 6;
  kh_data : bytes_at p' (pd_special p) (BLCKSZ - pd_special p) = bytes_at p (pd_special p) (BLCKSZ - pd_special p)
}.

Lemma page_keeps_refl p : is_page p -> keeps_header p p.
Proof. by constructor. Qed.

Lemma page_keeps_trans p p' p'' : keeps_header p p' -> keeps_header p' p'' -> keeps_header p p''.
Proof.
  intros [? H1 H2 H3 H4 H5] [? H1' H2' H3' H4' H5']. rewrite H3 in H5'. constructor; congruence.
Qed.

(** Changes between [pd_lower]'s field and the special space. *)
Lemma keeps_frame p p' lo hi :
  is_page p -> is_page p' -> frame p p' lo hi -> SizeOfPageHeaderData <= lo -> hi <= pd_special p -> keeps_header p p'.
Proof.
  intros Hp Hp' F Hlo Hhi. unfold SizeOfPageHeaderData in Hlo.
  constructor; [done|..]; try (apply F; lia); try (eapply frame_get16; [exact F|lia|lia]).
  apply F; [|lia]. apply (get16_range p 16); [done|lia|unfold BLCKSZ; lia].
Qed.

Lemma keeps_set p p' o x :
  keeps_header p p' -> SizeOfPageHeaderData <= pd_special p -> o = 12 \/ o = 14 -> keeps_header p (put16 p' o x).
Proof.
  intros K Hs Ho. eapply page_keeps_trans; [exact K|]. rewrite <- (kh_special _ _ K) in Hs. unfold SizeOfPageHeaderData in Hs.
  destruct (put16_page p' o x) as (Hp' & F & _); [apply K|lia|unfold BLCKSZ; lia|].
  constructor; [done|..]; try (apply F; lia); (eapply frame_get16; [exact F|lia|lia]).
Qed.

Lemma keeps_set_lower p p' x : keeps_header p p' -> SizeOfPageHeaderData <= pd_special p -> keeps_header p (set_pd_lower p' x).
Proof. intros. apply keeps_set; auto. Qed.

Lemma keeps_set_upper p p' x : keeps_header p p' -> SizeOfPageHeaderData <= pd_special p -> keeps_header p (set_pd_upper p' x).
Proof. intros. apply keeps_set; auto. Qed.

Lemma version_bytes p : pd_pagesize_version p = le_value (bytes_at (bytes_at p 18 6) 0 2).
Proof. unfold pd_pagesize_version, get16. by rewrite bytes_at_bytes_at by lia. Qed.

Definition ps_update (s : PageState) (items : list ItemView) (free : Z) : PageState :=
  mkState (ps_lsn_checksum s) (ps_flags s) (ps_version_prune s) items free (ps_special s).

(** Assembling the invariant and the contents of the page after an update. *)
Lemma page_wf_update p p' :
  page_wf p -> keeps_header p p' ->
  SizeOfPageHeaderData <= pd_lower p' <= pd_upper p' -> pd_upper p' <= pd_special p ->
  pd_lower p' mod 4 = 0 -> pd_upper p' mod 8 = 0 ->
  layout (pd_upper p') (pd_special p) (PageGetMaxOffsetNumber p') (linp p') -> page_wf p'.
Proof.
  intros [] [? ? Hf Hs He ?] ? ? ? ? L. rewrite version_bytes in wf_version0.
  constructor; rewrite ?Hs, ?Hf, ?version_bytes, ?He; done || lia.
Qed.

Lemma page_state_update p p' items free :
  keeps_header p p' -> page_items p' = items -> pd_upper p' - pd_lower p' = free ->
  page_state p' = ps_update (page_state p) items free.
Proof. intros [? H1 H2 H3 H4 H5] H6 H7. unfold page_state, ps_update; cbn. by rewrite H1, H2, H3, H4, H5, H6, H7. Qed.
