(* ===== verification/PageShift.v ===== *)
(** * Removing and replacing an item of a page

    [PageIndexTupleDelete], [PageIndexTupleDeleteNoCompact] and
    [PageIndexTupleOverwrite] move the data before an item and adjust the line
    pointers of what they moved.  The items other than this one stay what they
    are. *)

From S2P Require Import Prelude Varlena HeapTuple HeapTupleProofs IndexTuple Sorting Page PageMem.

(** ** Moving the data before an item *)

Section Shift.
Variables (p p' : Page) (t delta n' : Z) (s : Z -> Z) (test : ItemIdData -> bool) (newt : ItemIdData).

#[local] Notation offset := (lp_off (linp p t)).
#[local] Notation size := (MAXALIGN (lp_len (linp p t))).
#[local] Notation n := (PageGetMaxOffsetNumber p).

(** The item [t] of a page; the data before it moves by [delta], at most over
    the space of the item. *)
Hypothesis Hwf : page_wf p.
Hypothesis Ht : 1 <= t <= n.
Hypothesis Htl : lp_len (linp p t) <> 0.
Hypothesis Hdelta : delta <= size.
Hypothesis Hdelta8 : delta mod 8 = 0.
Hypothesis Hlow : 0 <= pd_upper p + delta.
Hypothesis Htest : forall j, 1 <= j <= n -> test (linp p j) = ItemIdHasStorage (linp p j).
Hypothesis Hmoved : forall o m, pd_upper p + delta <= o -> 0 < m -> o + m <= offset + delta ->
  bytes_at p' o m = bytes_at p (o - delta) m.
Hypothesis Hkept : forall o m, offset + size <= o -> o + m <= BLCKSZ -> bytes_at p' o m = bytes_at p o m.

(** The new line pointer [i] comes from the old one [s i]; [newt] is put where
    the line pointer of the item was, if it is still there. *)
Hypothesis Hs : forall i, 1 <= i <= n' -> 1 <= s i <= n.
Hypothesis Hinj : forall i j, 1 <= i <= n' -> 1 <= j <= n' -> s i = s j -> i = j.
Hypothesis Hlinp : forall i, 1 <= i <= n' -> s i <> t -> linp p' i = shift_lp test offset delta (linp p (s i)).
Hypothesis Hnew : forall i, 1 <= i <= n' -> s i = t -> linp p' i = newt.
Hypothesis Hnewt : newt = ItemIdSetUnused \/
  lp_off newt = offset + delta /\ 0 < lp_len newt /\ lp_off newt + MAXALIGN (lp_len newt) <= offset + size /\ lp_flags newt <> LP_UNUSED.

Lemma shift_bare j : 1 <= j <= n -> lp_len (linp p j) = 0 -> shift_lp test offset delta (linp p j) = linp p j.
Proof. intros Hj Hl. unfold shift_lp. rewrite Htest by done. unfold ItemIdHasStorage. by rewrite Hl. Qed.

Lemma shift_stored j :
  1 <= j <= n -> j <> t -> lp_len (linp p j) <> 0 ->
  exists off, shift_lp test offset delta (linp p j) = mkItemId off (lp_flags (linp p j)) (lp_len (linp p j)) /\
  (off = lp_off (linp p j) + delta /\ lp_off (linp p j) + MAXALIGN (lp_len (linp p j)) <= offset \/
   off = lp_off (linp p j) /\ offset + size <= lp_off (linp p j)).
Proof.
  intros Hj Hjt Hl. pose proof (wf_layout p Hwf) as L.
  destruct (lay_in _ _ _ _ L j Hj Hl) as (? & ? & ?). destruct (linp_ok p j) as (? & _ & ?). destruct (linp_ok p t) as (_ & _ & ?).
  pose proof (lay_end _ _ _ _ t L (wf_special_aligned p Hwf) Ht Htl). pose proof (wf_special p Hwf).
  pose proof (lay_disjoint _ _ _ _ L j t Hj Ht Hjt Hl Htl). pose proof (MAXALIGN_pos (lp_len (linp p t)) ltac:(lia)).
  pose proof (MAXALIGN_spec (lp_len (linp p j))).
  unfold shift_lp. rewrite Htest by done. unfold ItemIdHasStorage. rewrite (proj2 (Z.eqb_neq _ _) Hl). cbn [negb andb].
  destruct (Z.leb_spec (lp_off (linp p j)) offset).
  - exists (lp_off (linp p j) + delta). split; [|left; lia]. rewrite Z.mod_small by (unfold BLCKSZ in *; lia). done.
  - exists (lp_off (linp p j)). split; [by destruct (linp p j)|right; lia].
Qed.

Lemma shift_layout : layout (pd_upper p + delta) (pd_special p) n' (linp p').
Proof.
  pose proof (wf_layout p Hwf) as L. pose proof (lay_end _ _ _ _ t L (wf_special_aligned p Hwf) Ht Htl) as Hend.
  destruct (lay_in _ _ _ _ L t Ht Htl) as (Hto & Hta & _). pose proof (MAXALIGN_spec (lp_len newt)) as Hnl.
  constructor.
  - intros i Hi Hl. destruct (Z.eq_dec (s i) t) as [Est|Nst].
    + rewrite (Hnew i Hi Est) in *. destruct Hnewt as [-> | (Ho & ? & ? & _)]; [done|]. rewrite Ho in *. split_and!; [lia|zlia|lia].
    + rewrite (Hlinp i Hi Nst) in *. destruct (Z.eq_dec (lp_len (linp p (s i))) 0) as [E|Hl'].
      { by rewrite shift_bare in Hl by auto. }
      destruct (shift_stored (s i) (Hs i Hi) Nst Hl') as (off & -> & Hoff). cbn.
      destruct (lay_in _ _ _ _ L (s i) (Hs i Hi) Hl') as (? & ? & ?). pose proof (MAXALIGN_spec (lp_len (linp p (s i)))).
      pose proof (lay_end _ _ _ _ (s i) L (wf_special_aligned p Hwf) (Hs i Hi) Hl').
      destruct Hoff as [[-> ?]|[-> ?]]; split_and!; lia || zlia.
  - assert (Hone : forall i, 1 <= i <= n' -> lp_len (linp p' i) <> 0 -> s i <> t ->
      lp_len (linp p (s i)) <> 0 /\ lp_len (linp p' i) = lp_len (linp p (s i)) /\
      (lp_off (linp p' i) = lp_off (linp p (s i)) + delta /\ lp_off (linp p (s i)) + MAXALIGN (lp_len (linp p (s i))) <= offset \/
       lp_off (linp p' i) = lp_off (linp p (s i)) /\ offset + size <= lp_off (linp p (s i)))).
    { intros i Hi Hl Nst. rewrite (Hlinp i Hi Nst) in *. destruct (Z.eq_dec (lp_len (linp p (s i))) 0) as [E|Hl'].
      { by rewrite shift_bare in Hl by auto. }
      destruct (shift_stored (s i) (Hs i Hi) Nst Hl') as (off & -> & Hoff). cbn. done. }
    intros i j Hi Hj Hij Hli Hlj.
    assert (Hsij : s i <> s j) by (intros E; apply Hij, (Hinj i j Hi Hj E)).
    destruct (Z.eq_dec (s i) t) as [Ei|Ni], (Z.eq_dec (s j) t) as [Ej|Nj]; [congruence|..].
    + destruct (Hone j Hj Hlj Nj) as (Hl' & -> & Hoff). rewrite (Hnew i Hi Ei) in *.
      destruct Hnewt as [E | (Ho & ? & ? & _)]; [by rewrite E in Hli|]. rewrite Ho. lia.
    + destruct (Hone i Hi Hli Ni) as (Hl' & -> & Hoff). rewrite (Hnew j Hj Ej) in *.
      destruct Hnewt as [E | (Ho & ? & ? & _)]; [by rewrite E in Hlj|]. rewrite Ho. lia.
    + destruct (Hone i Hi Hli Ni) as (Hl1 & -> & Hoff1). destruct (Hone j Hj Hlj Nj) as (Hl2 & -> & Hoff2).
      pose proof (lay_disjoint _ _ _ _ L (s i) (s j) (Hs i Hi) (Hs j Hj) Hsij Hl1 Hl2).
      pose proof (MAXALIGN_pos (lp_len (linp p t)) ltac:(pose proof (linp_ok p t) as (_ & _ & ?); lia)). lia.
  - intros i Hi Hf. destruct (Z.eq_dec (s i) t) as [Ei|Ni].
    + rewrite (Hnew i Hi Ei) in *. destruct Hnewt as [-> | (_ & _ & _ & ?)]; done.
    + rewrite (Hlinp i Hi Ni) in *. destruct (Z.eq_dec (lp_len (linp p (s i))) 0) as [E|Hl'].
      * rewrite shift_bare in * by auto. apply (lay_unused _ _ _ _ L); auto.
      * destruct (shift_stored (s i) (Hs i Hi) Ni Hl') as (off & E & _). rewrite E in Hf. cbn in Hf.
        pose proof (lay_unused _ _ _ _ L (s i) (Hs i Hi) Hf) as E'. by rewrite E' in Hl'.
Qed.

Lemma shift_item i : 1 <= i <= n' -> s i <> t -> item p' i = item p (s i).
Proof.
  intros Hi Nst. pose proof (wf_layout p Hwf) as L. unfold item. rewrite (Hlinp i Hi Nst).
  destruct (Z.eq_dec (lp_len (linp p (s i))) 0) as [E|Hl].
  { rewrite shift_bare by auto. by apply item_view_eq. }
  destruct (shift_stored (s i) (Hs i Hi) Nst Hl) as (off & -> & Hoff). apply item_view_eq; cbn; [done..|lia|intros _].
  destruct (lay_in _ _ _ _ L (s i) (Hs i Hi) Hl) as (? & ? & ?). destruct (linp_ok p (s i)) as (_ & _ & ?).
  pose proof (MAXALIGN_spec (lp_len (linp p (s i)))). pose proof (wf_special p Hwf).
  destruct Hoff as [[-> ?]|[-> ?]]; [rewrite Hmoved by lia; f_equal; lia|apply Hkept; lia].
Qed.

(** The page after the operation. *)
Lemma shift_finish items :
  keeps_header p p' -> pd_upper p' = pd_upper p + delta -> pd_lower p' = linp_addr (n' + 1) ->
  0 <= n' -> pd_lower p' <= pd_upper p' -> Z.of_nat (length items) = n' ->
  (forall i, 1 <= i <= n' -> items !! Z.to_nat (i - 1) = Some (if s i =? t then item_view p' newt else item p (s i))) ->
  page_wf p' /\ page_state p' = ps_update (page_state p) items (pd_upper p + delta - linp_addr (n' + 1)).
Proof.
  intros K Hu Hl Hn' Hlu Hlen Hitems. pose proof (wf_layout p Hwf) as L.
  pose proof (lay_end _ _ _ _ t L (wf_special_aligned p Hwf) Ht Htl) as Hend.
  destruct (lay_in _ _ _ _ L t Ht Htl) as (Hto & Hta & _).
  assert (Hmax : PageGetMaxOffsetNumber p' = n') by (by apply max_offset_of_lower). split.
  - pose proof (wf_upper_aligned p Hwf). eapply page_wf_update; [exact Hwf|exact K|..]; rewrite ?Hmax, ?Hu.
    + split; linp_lia.
    + lia.
    + rewrite Hl. unfold linp_addr, SizeOfPageHeaderData, sizeof_ItemIdData. zlia.
    + zlia.
    + apply shift_layout.
  - apply page_state_update; [exact K| |congruence]. apply page_items_eq; rewrite Hmax; [done|].
    intros i Hi. rewrite Hitems by done. f_equal. destruct (Z.eqb_spec (s i) t) as [E|N].
    + unfold item. by rewrite Hnew.
    + by rewrite shift_item.
Qed.

End Shift.

(** ** The steps of the operations *)

(** The move of the data before the item at [offset]. *)
Lemma move_data p upper offset delta :
  is_page p -> 0 <= upper <= offset -> offset <= BLCKSZ -> 0 <= upper + delta -> offset + delta <= BLCKSZ ->
  exists p', memmove p (upper + delta) upper (offset - upper) = Ok p' /\ is_page p' /\
  frame p p' (upper + delta) (offset + delta) /\
  forall o m, upper + delta <= o -> 0 <= m -> o + m <= offset + delta -> bytes_at p' o m = bytes_at p (o - delta) m.
Proof.
  intros Hp ? ? ? ?. destruct (memmove_page p (upper + delta) upper (offset - upper)) as (p' & -> & Hp' & F & M); [done|lia..|].
  exists p'. split_and!; [done..| |].
  - replace (offset + delta) with (upper + delta + (offset - upper)) by lia. done.
  - intros. rewrite M by lia. f_equal. lia.
Qed.

Lemma move_data_if p upper offset delta :
  is_page p -> 0 <= upper <= offset -> offset <= BLCKSZ -> 0 <= upper + delta -> offset + delta <= BLCKSZ ->
  exists p', (if offset >? upper then memmove p (upper + delta) upper (offset - upper) else Ok p) = Ok p' /\ is_page p' /\
  frame p p' (upper + delta) (offset + delta) /\
  forall o m, upper + delta <= o -> 0 < m -> o + m <= offset + delta -> bytes_at p' o m = bytes_at p (o - delta) m.
Proof.
  intros Hp ? ? ? ?. destruct (Z.gtb_spec offset upper).
  - destruct (move_data p upper offset delta) as (p' & ? & ? & ? & M); [done|lia..|]. exists p'. split_and!; [done..|]. intros; apply M; lia.
  - exists p. split_and!; [done|done|apply frame_refl|lia].
Qed.

(** Setting a field of the header. *)
Lemma set_upper_page p x :
  is_page p -> 0 <= x < 2 ^ 16 ->
  is_page (set_pd_upper p x) /\ frame p (set_pd_upper p x) 14 16 /\ pd_upper (set_pd_upper p x) = x.
Proof.
  intros Hp Hx. destruct (put16_page p 14 x) as (? & ? & E); [done|lia|unfold BLCKSZ; lia|].
  split_and!; [done..|]. rewrite Z.mod_small in E by lia. done.
Qed.

Lemma set_lower_page p x :
  is_page p -> 0 <= x < 2 ^ 16 ->
  is_page (set_pd_lower p x) /\ frame p (set_pd_lower p x) 12 14 /\ pd_lower (set_pd_lower p x) = x.
Proof.
  intros Hp Hx. destruct (put16_page p 12 x) as (? & ? & E); [done|lia|unfold BLCKSZ; lia|].
  split_and!; [done..|]. rewrite Z.mod_small in E by lia. done.
Qed.

(** Taking a line pointer out of the array. *)
Lemma remove_linp p offnum n :
  is_page p -> 1 <= offnum <= n -> linp_addr (n + 1) <= BLCKSZ ->
  exists p', (if linp_addr (n + 1) - linp_addr (offnum + 1) >? 0
              then memmove p (linp_addr offnum) (linp_addr (offnum + 1)) (linp_addr (n + 1) - linp_addr (offnum + 1)) else Ok p) = Ok p' /\
  is_page p' /\ frame p p' SizeOfPageHeaderData (linp_addr n) /\
  forall i, 1 <= i < n -> linp p' i = linp p (if i <? offnum then i else i + 1).
Proof.
  intros Hp Ho Hn. destruct (Z.gtb_spec (linp_addr (n + 1) - linp_addr (offnum + 1)) 0).
  - destruct (memmove_page p (linp_addr offnum) (linp_addr (offnum + 1)) (linp_addr (n + 1) - linp_addr (offnum + 1)))
      as (p' & -> & Hp' & F & M); [done|linp_lia..|].
    exists p'. split_and!; [done|done|intros o m Hm Hd; apply F; linp_lia|].
    intros i Hi. destruct (Z.ltb_spec i offnum).
    + eapply frame_linp; [exact F|lia|linp_lia].
    + unfold linp. rewrite M by linp_lia. do 3 f_equal. linp_lia.
  - exists p. split_and!; [done|done|apply frame_refl|]. intros i Hi. destruct (Z.ltb_spec i offnum); [done|linp_lia].
Qed.

(** ** [PageIndexTupleDelete] *)

Lemma shift_items_if n p i offset delta test :
  is_page p -> 1 <= i -> 0 <= n -> linp_addr (i + n) <= BLCKSZ -> PageGetMaxOffsetNumber p = n -> 24 <= pd_lower p -> pd_lower p mod 4 = 0 ->
  exists p', (if negb (PageIsEmpty p) then shift_items (Z.to_nat n) test p i offset delta else Ok p) = Ok p' /\ is_page p' /\
  frame p p' (linp_addr i) (linp_addr (i + n)) /\
  forall j, i <= j < i + n -> linp p' j = shift_lp test offset delta (linp p j).
Proof.
  intros Hp Hi Hn Hb Hmax ? ?. unfold PageIsEmpty. destruct (Z.leb_spec (pd_lower p) SizeOfPageHeaderData); cbn [negb].
  - exists p. split_and!; [done|done|apply frame_refl|].
    rewrite MaxOffsetNumber_eq in Hmax by (unfold SizeOfPageHeaderData; lia). unfold SizeOfPageHeaderData in *. intros. zlia.
  - destruct (shift_items_page (Z.to_nat n) test p i offset delta) as (p' & ? & ? & F & M); [done|done|by rewrite Z2Nat.id by lia|].
    rewrite Z2Nat.id in F, M by lia. by exists p'.
Qed.

(** The position of a line pointer before the deletion. *)
Definition before_delete (offnum i : Z) : Z := if i <? offnum then i else i + 1.

Lemma delete_items p offnum i :
  1 <= offnum <= PageGetMaxOffsetNumber p -> 1 <= i < PageGetMaxOffsetNumber p ->
  delete (Z.to_nat (offnum - 1)) (page_items p) !! Z.to_nat (i - 1) = Some (item p (before_delete offnum i)).
Proof.
  intros Ho Hi. unfold before_delete. destruct (Z.ltb_spec i offnum).
  - rewrite list_lookup_delete_lt by lia. apply page_items_lookup. lia.
  - rewrite list_lookup_delete_ge by lia. replace (S (Z.to_nat (i - 1))) with (Z.to_nat (i + 1 - 1)) by lia.
    apply page_items_lookup. lia.
Qed.

Lemma delete_items_length p offnum :
  1 <= offnum <= PageGetMaxOffsetNumber p ->
  Z.of_nat (length (delete (Z.to_nat (offnum - 1)) (page_items p))) = PageGetMaxOffsetNumber p - 1.
Proof.
  intros Ho. rewrite length_delete; [rewrite page_items_length; lia|]. rewrite page_items_lookup by done. done.
Qed.

(** The facts on an item with storage that the proofs below use. *)
Record stored_at (p : Page) (i : Z) : Prop := mkStoredAt {
  sa_off : pd_upper p <= lp_off (linp p i);
  sa_aligned : lp_off (linp p i) mod 8 = 0;
  sa_len : 0 < lp_len (linp p i) < 2 ^ 15;
  sa_size : lp_len (linp p i) <= MAXALIGN (lp_len (linp p i));
  sa_size8 : MAXALIGN (lp_len (linp p i)) mod 8 = 0;
  sa_end : lp_off (linp p i) + MAXALIGN (lp_len (linp p i)) <= pd_special p
}.

Lemma wf_stored_at p i : page_wf p -> 1 <= i <= PageGetMaxOffsetNumber p -> lp_len (linp p i) <> 0 -> stored_at p i.
Proof.
  intros Hwf Hi Hl. pose proof (wf_layout p Hwf) as L. destruct (lay_in _ _ _ _ L i Hi Hl) as (? & ? & ?).
  pose proof (MAXALIGN_spec (lp_len (linp p i))). destruct (linp_ok p i) as (_ & _ & ?).
  constructor; try lia. apply (lay_end _ _ _ _ i L); [apply Hwf|done..].
Qed.

(** What a page looks like after a deletion: [p1] has the line pointers that
    remain, not yet adjusted. *)
Record deleted (p p1 p' : Page) (test : ItemIdData -> bool) (offset size n' : Z) : Prop := mkDeleted {
  del_keeps : keeps_header p p';
  del_upper : pd_upper p' = pd_upper p + size;
  del_lower : pd_lower p' = linp_addr (n' + 1);
  del_moved : forall o m, pd_upper p + size <= o -> 0 < m -> o + m <= offset + size -> bytes_at p' o m = bytes_at p (o - size) m;
  del_kept : forall o m, offset + size <= o -> bytes_at p' o m = bytes_at p o m;
  del_linp : forall i, 1 <= i <= n' -> linp p' i = shift_lp test offset size (linp p1 i)
}.

(** The end of a deletion: [p1] after the change of the line pointers, [p2]
    after the move of the data, [p3] with the new header. *)
Lemma delete_tail p p1 p2 p3 test offset size low n' :
  is_page p -> is_page p1 -> is_page p2 -> is_page p3 ->
  frame p p1 12 low -> frame p1 p2 (pd_upper p + size) (offset + size) -> frame p2 p3 12 16 ->
  (forall o m, pd_upper p + size <= o -> 0 < m -> o + m <= offset + size -> bytes_at p2 o m = bytes_at p1 (o - size) m) ->
  keeps_header p p3 -> pd_upper p3 = pd_upper p + size -> pd_lower p3 = linp_addr (n' + 1) ->
  0 <= n' -> 0 <= size -> linp_addr (n' + 1) <= low -> low <= pd_upper p -> pd_upper p <= offset -> offset + size <= pd_special p ->
  pd_special p <= BLCKSZ ->
  exists p', (if negb (PageIsEmpty p3) then shift_items (Z.to_nat n') test p3 1 offset size else Ok p3) = Ok p' /\
  deleted p p1 p' test offset size n'.
Proof.
  intros Hp Hp1 Hp2 Hp3 F1 F2 F3 M2 K Up Lo Hn Hsz Hlow ? ? ? ?.
  assert (Hmax : PageGetMaxOffsetNumber p3 = n') by (by apply max_offset_of_lower).
  destruct (shift_items_if n' p3 1 offset size test) as (p' & -> & Hp' & F & L);
    [done|lia|lia|linp_lia|done|linp_lia|rewrite Lo; apply linp_addr_mod|].
  rewrite (Z.add_comm 1 n') in F, L. exists p'. split; [done|].
  constructor.
  - eapply page_keeps_trans; [exact K|]. eapply keeps_frame; [done|done|exact F|linp_lia|]. rewrite (kh_special _ _ K). linp_lia.
  - rewrite <- Up. eapply frame_get16; [exact F|lia|linp_lia].
  - rewrite <- Lo. eapply frame_get16; [exact F|lia|linp_lia].
  - intros. rewrite F by linp_lia. rewrite F3 by linp_lia. rewrite M2 by done. apply F1; linp_lia.
  - intros. rewrite F by linp_lia. rewrite F3 by linp_lia. rewrite F2 by linp_lia. apply F1; linp_lia.
  - intros i Hi. rewrite L by lia. f_equal. transitivity (linp p2 i).
    + eapply frame_linp; [exact F3|lia|linp_lia].
    + eapply frame_linp; [exact F2|lia|linp_lia].
Qed.

(** The sequence of updates of [PageIndexTupleDelete]. *)
Lemma delete_run p offnum :
  page_wf p -> 1 <= offnum <= PageGetMaxOffsetNumber p -> lp_len (linp p offnum) <> 0 ->
  exists p1 p', PageIndexTupleDelete p offnum = Ok p' /\
  deleted p p1 p' (fun _ => true) (lp_off (linp p offnum)) (MAXALIGN (lp_len (linp p offnum))) (PageGetMaxOffsetNumber p - 1) /\
  forall i, 1 <= i < PageGetMaxOffsetNumber p -> linp p1 i = linp p (before_delete offnum i).
Proof.
  intros Hwf Ho Hlen. unfold PageIndexTupleDelete. rewrite wf_not_corrupted by done.
  destruct (Z.leb_spec offnum 0); [lia|]. rewrite Z.gtb_ltb. destruct (Z.ltb_spec (PageGetMaxOffsetNumber p) offnum); [lia|].
  cbn [orb]. rewrite wf_get_linp by done. cbn [mbind result_bind]. rewrite wf_line_pointer by auto. cbv zeta.
  destruct (wf_linps p Hwf) as [Hn Hlow]. pose proof Hwf as [Hp ? ? ? ? ? ? ? ? _ _].
  destruct (wf_stored_at p offnum Hwf Ho Hlen) as [? ? ? ? ? ?].
  set (n := PageGetMaxOffsetNumber p) in *. set (offset := lp_off (linp p offnum)) in *.
  set (size := MAXALIGN (lp_len (linp p offnum))) in *.
  assert (Hn1 : pd_lower p - sizeof_ItemIdData = linp_addr n) by (rewrite Hlow; linp_lia).
  rewrite Hlow. destruct (remove_linp p offnum n) as (p1 & -> & Hp1 & F1 & L1); [done|done|lia|].
  cbn [mbind result_bind]. assert (Hn4 : 24 <= linp_addr n) by linp_lia.
  assert (K1 : keeps_header p p1) by (eapply keeps_frame; [..|exact F1| |]; done || linp_lia).
  assert (U1 : pd_upper p1 = pd_upper p) by (eapply frame_get16; [exact F1|linp_lia..]).
  assert (W1 : pd_lower p1 = pd_lower p) by (eapply frame_get16; [exact F1|linp_lia..]).
  rewrite U1. destruct (move_data_if p1 (pd_upper p) offset size) as (p2 & -> & Hp2 & F2 & M2); [done|linp_lia..|].
  cbn [mbind result_bind].
  assert (K2 : keeps_header p p2).
  { eapply page_keeps_trans; [exact K1|]. eapply keeps_frame; [..|exact F2| |rewrite (kh_special _ _ K1)]; done || linp_lia. }
  assert (U2 : pd_upper p2 = pd_upper p) by (rewrite <- U1; eapply frame_get16; [exact F2|linp_lia..]).
  assert (W2 : pd_lower p2 = pd_lower p) by (rewrite <- W1; eapply frame_get16; [exact F2|linp_lia..]).
  rewrite U2. destruct (set_upper_page p2 (pd_upper p + size)) as (Hp3 & F3 & U3); [done|linp_lia|].
  assert (W3 : pd_lower (set_pd_upper p2 (pd_upper p + size)) - sizeof_ItemIdData = linp_addr n).
  { rewrite <- Hn1, <- W2. f_equal. eapply frame_get16; [exact F3|lia..]. }
  rewrite W3. set (p3 := set_pd_upper _ _) in *.
  destruct (set_lower_page p3 (linp_addr n)) as (Hp4 & F4 & W4); [done|linp_lia|].
  destruct (delete_tail p p1 p2 (set_pd_lower p3 (linp_addr n)) (fun _ => true) offset size (linp_addr (n + 1)) (n - 1))
    as (p' & E & D); try done; try linp_lia.
  - eapply frame_weaken; [exact F1|linp_lia..].
  - eapply frame_trans; [exact F3|exact F4|lia..].
  - apply keeps_set_lower; [apply keeps_set_upper|]; done || linp_lia.
  - rewrite <- U3. eapply frame_get16; [exact F4|lia..].
  - exists p1, p'. split_and!; [|exact D|done]. by rewrite <- E.
Qed.

Lemma PageIndexTupleDelete_ok p offnum :
  page_wf p -> Forall (fun v => has_storage v = true) (page_items p) -> 1 <= offnum <= PageGetMaxOffsetNumber p ->
  exists p', PageIndexTupleDelete p offnum = Ok p' /\ page_wf p' /\
  page_state p' = ps_update (page_state p) (delete (Z.to_nat (offnum - 1)) (page_items p))
    (pd_upper p - pd_lower p + sizeof_ItemIdData + stored_len (item p offnum)).
Proof.
  intros Hwf Hst Ho. pose proof (item_storage_len p offnum (all_stored p offnum Hst Ho)) as Hlen.
  destruct (delete_run p offnum Hwf Ho Hlen) as (p1 & p' & E & [K Up Lo M Kp L] & L1). exists p'. split; [done|].
  destruct (wf_linps p Hwf) as [Hn Hlow]. destruct (wf_stored_at p offnum Hwf Ho Hlen) as [? ? ? ? ? ?].
  pose proof Hwf as [Hp ? ? ? ? ? ? ? ? _ _].
  assert (Hb : forall i, 1 <= i <= PageGetMaxOffsetNumber p - 1 ->
    1 <= before_delete offnum i <= PageGetMaxOffsetNumber p /\ before_delete offnum i <> offnum).
  { intros i Hi. unfold before_delete. destruct (Z.ltb_spec i offnum); lia. }
  rewrite (stored_len_item p offnum Hwf Ho), (proj2 (Z.eqb_neq _ _) Hlen).
  replace (pd_upper p - pd_lower p + sizeof_ItemIdData + MAXALIGN (lp_len (linp p offnum)))
    with (pd_upper p + MAXALIGN (lp_len (linp p offnum)) - linp_addr (PageGetMaxOffsetNumber p - 1 + 1)) by linp_lia.
  apply (shift_finish p p' offnum _ _ (before_delete offnum) (fun _ => true) ItemIdSetUnused); try done; try linp_lia; auto.
  - intros j Hj. symmetry. rewrite <- item_has_storage. by apply all_stored.
  - apply Hb.
  - intros i j Hi Hj. unfold before_delete. destruct (Z.ltb_spec i offnum), (Z.ltb_spec j offnum); lia.
  - intros i Hi _. rewrite L by done. f_equal. apply L1. lia.
  - intros i Hi Eo. by apply Hb in Eo.
  - by apply delete_items_length.
  - intros i Hi. destruct (Z.eqb_spec (before_delete offnum i) offnum) as [Eo|_]; [by apply Hb in Eo|]. apply delete_items; lia.
Qed.

(** ** [PageIndexTupleDeleteNoCompact] *)

(** The change of the line pointers. *)
Lemma nocompact_linps p offnum n :
  is_page p -> 1 <= offnum <= n -> pd_lower p = linp_addr (n + 1) -> linp_addr (n + 1) <= pd_special p -> pd_special p <= BLCKSZ ->
  exists p1 n', (if offnum <? n then p' ← PageSetItemId p offnum ItemIdSetUnused; Ok (p', n)
                 else Ok (set_pd_lower p (pd_lower p - sizeof_ItemIdData), n - 1)) = Ok (p1, n') /\
  n' = (if offnum <? n then n else n - 1) /\ is_page p1 /\ keeps_header p p1 /\ frame p p1 12 (linp_addr (n + 1)) /\
  pd_lower p1 = linp_addr (n' + 1) /\ pd_upper p1 = pd_upper p /\
  forall i, 1 <= i <= n' -> linp p1 i = if i =? offnum then ItemIdSetUnused else linp p i.
Proof.
  intros Hp Ho Hlow ? ?. destruct (Z.ltb_spec offnum n).
  - destruct (PageSetItemId_page p offnum ItemIdSetUnused) as (p1 & -> & Hp1 & F & E); [done|by repeat split|lia|linp_lia|].
    exists p1, n. split_and!; try done.
    + eapply keeps_frame; [..|exact F| |]; done || linp_lia.
    + eapply frame_weaken; [exact F|linp_lia..].
    + rewrite <- Hlow. eapply frame_get16; [exact F|linp_lia..].
    + eapply frame_get16; [exact F|linp_lia..].
    + intros i Hi. destruct (Z.eqb_spec i offnum) as [-> |]; [done|]. eapply frame_linp; [exact F|linp_lia..].
  - destruct (set_lower_page p (pd_lower p - sizeof_ItemIdData)) as (Hp1 & F & E); [done|linp_lia|].
    eexists _, (n - 1). split_and!; try done.
    + apply keeps_set_lower; [by apply page_keeps_refl|linp_lia].
    + eapply frame_weaken; [exact F|linp_lia..].
    + rewrite E, Hlow. linp_lia.
    + eapply frame_get16; [exact F|linp_lia..].
    + intros i Hi. destruct (Z.eqb_spec i offnum); [lia|]. eapply frame_linp; [exact F|linp_lia..].
Qed.

Lemma nocompact_run p offnum :
  page_wf p -> 1 <= offnum <= PageGetMaxOffsetNumber p -> lp_len (linp p offnum) <> 0 ->
  exists p1 p' n', PageIndexTupleDeleteNoCompact p offnum = Ok p' /\
  n' = (if offnum <? PageGetMaxOffsetNumber p then PageGetMaxOffsetNumber p else PageGetMaxOffsetNumber p - 1) /\
  deleted p p1 p' ItemIdHasStorage (lp_off (linp p offnum)) (MAXALIGN (lp_len (linp p offnum))) n' /\
  forall i, 1 <= i <= n' -> linp p1 i = if i =? offnum then ItemIdSetUnused else linp p i.
Proof.
  intros Hwf Ho Hlen. unfold PageIndexTupleDeleteNoCompact. rewrite wf_not_corrupted by done.
  destruct (Z.leb_spec offnum 0); [lia|]. rewrite Z.gtb_ltb. destruct (Z.ltb_spec (PageGetMaxOffsetNumber p) offnum); [lia|].
  cbn [orb]. rewrite wf_get_linp by done. cbn [mbind result_bind]. rewrite wf_line_pointer by auto. cbv zeta.
  destruct (wf_linps p Hwf) as [Hn Hlow]. pose proof Hwf as [Hp ? ? ? ? ? ? ? ? _ _].
  destruct (wf_stored_at p offnum Hwf Ho Hlen) as [? ? ? ? ? ?].
  set (n := PageGetMaxOffsetNumber p) in *. set (offset := lp_off (linp p offnum)) in *.
  set (size := MAXALIGN (lp_len (linp p offnum))) in *.
  destruct (nocompact_linps p offnum n) as (p1 & n' & -> & Hn' & Hp1 & K1 & F1 & Lo1 & U1 & L1); [done|done|done|linp_lia..|].
  cbn [mbind result_bind]. rewrite U1. assert (n - 1 <= n' <= n) by (destruct (Z.ltb_spec offnum n); lia).
  destruct (move_data_if p1 (pd_upper p) offset size) as (p2 & -> & Hp2 & F2 & M2); [done|linp_lia..|].
  cbn [mbind result_bind].
  assert (K2 : keeps_header p p2).
  { eapply page_keeps_trans; [exact K1|]. eapply keeps_frame; [..|exact F2| |rewrite (kh_special _ _ K1)]; done || linp_lia. }
  assert (U2 : pd_upper p2 = pd_upper p) by (rewrite <- U1; eapply frame_get16; [exact F2|linp_lia..]).
  rewrite U2. destruct (set_upper_page p2 (pd_upper p + size)) as (Hp3 & F3 & U3); [done|linp_lia|].
  destruct (delete_tail p p1 p2 (set_pd_upper p2 (pd_upper p + size)) ItemIdHasStorage offset size (linp_addr (n + 1)) n')
    as (p' & E & D); try done; try linp_lia.
  - eapply frame_weaken; [exact F3|lia..].
  - apply keeps_set_upper; done || linp_lia.
  - rewrite <- Lo1. transitivity (pd_lower p2); (eapply frame_get16; [eassumption|linp_lia..]).
  - by exists p1, p', n'.
Qed.

Lemma PageIndexTupleDeleteNoCompact_ok p offnum :
  page_wf p -> 1 <= offnum <= PageGetMaxOffsetNumber p -> has_storage (item p offnum) = true ->
  exists p', PageIndexTupleDeleteNoCompact p offnum = Ok p' /\ page_wf p' /\
  page_state p' =
    if offnum <? PageGetMaxOffsetNumber p then
      ps_update (page_state p) (<[Z.to_nat (offnum - 1) := Bare LP_UNUSED 0]> (page_items p))
        (pd_upper p - pd_lower p + stored_len (item p offnum))
    else
      ps_update (page_state p) (delete (Z.to_nat (offnum - 1)) (page_items p))
        (pd_upper p - pd_lower p + sizeof_ItemIdData + stored_len (item p offnum)).
Proof.
  intros Hwf Ho Hs. pose proof (item_storage_len p offnum Hs) as Hlen.
  destruct (nocompact_run p offnum Hwf Ho Hlen) as (p1 & p' & n' & E & Hn' & [K Up Lo M Kp L] & L1). exists p'. split; [done|].
  destruct (wf_linps p Hwf) as [Hn Hlow]. destruct (wf_stored_at p offnum Hwf Ho Hlen) as [? ? ? ? ? ?].
  pose proof Hwf as [Hp ? ? ? ? ? ? ? ? _ _].
  rewrite (stored_len_item p offnum Hwf Ho), (proj2 (Z.eqb_neq _ _) Hlen).
  assert (Hfin : forall items, Z.of_nat (length items) = n' ->
    (forall i, 1 <= i <= n' -> items !! Z.to_nat (i - 1) = Some (if i =? offnum then Bare LP_UNUSED 0 else item p i)) ->
    page_wf p' /\ page_state p' = ps_update (page_state p) items (pd_upper p + MAXALIGN (lp_len (linp p offnum)) - linp_addr (n' + 1))).
  { intros items Hlen' Hit.
    apply (shift_finish p p' offnum _ n' (fun i => i) ItemIdHasStorage ItemIdSetUnused); try done; try linp_lia; auto.
    - destruct (Z.ltb_spec offnum (PageGetMaxOffsetNumber p)); lia.
    - intros i Hi Hne. rewrite L, L1 by done. by destruct (Z.eqb_spec i offnum).
    - intros i Hi ->. rewrite L, L1 by done. by rewrite Z.eqb_refl.
    - destruct (Z.ltb_spec offnum (PageGetMaxOffsetNumber p)); linp_lia. }
  destruct (Z.ltb_spec offnum (PageGetMaxOffsetNumber p)); subst n'.
  - replace (pd_upper p - pd_lower p + MAXALIGN (lp_len (linp p offnum)))
      with (pd_upper p + MAXALIGN (lp_len (linp p offnum)) - linp_addr (PageGetMaxOffsetNumber p + 1)) by linp_lia.
    apply Hfin.
    + rewrite length_insert, page_items_length. lia.
    + intros i Hi. destruct (Z.eqb_spec i offnum) as [-> |].
      * apply list_lookup_insert_eq. rewrite page_items_length. lia.
      * rewrite list_lookup_insert_ne by lia. by apply page_items_lookup.
  - replace (pd_upper p - pd_lower p + sizeof_ItemIdData + MAXALIGN (lp_len (linp p offnum)))
      with (pd_upper p + MAXALIGN (lp_len (linp p offnum)) - linp_addr (PageGetMaxOffsetNumber p - 1 + 1)) by linp_lia.
    apply Hfin; [by apply delete_items_length|].
    intros i Hi. rewrite delete_items by lia. unfold before_delete.
    destruct (Z.eqb_spec i offnum); [lia|]. by destruct (Z.ltb_spec i offnum); [|lia].
Qed.

(** ** [PageIndexTupleOverwrite] *)

Lemma shift_lp_0 test offset lp : lp_ok lp -> shift_lp test offset 0 lp = lp.
Proof.
  intros (Ho & _ & _). unfold shift_lp. destruct (test lp && (lp_off lp <=? offset)); [|done].
  rewrite Z.add_0_r, Z.mod_small by done. by destruct lp.
Qed.

(** The relocation of the data before the item. *)
Lemma overwrite_move p n offset diff :
  is_page p -> SizeOfPageHeaderData <= pd_lower p -> linp_addr (n + 1) <= pd_lower p -> 0 <= n ->
  pd_lower p <= pd_upper p -> pd_upper p <= offset -> offset <= pd_special p -> pd_special p <= BLCKSZ ->
  pd_lower p <= pd_upper p + diff -> offset + diff <= pd_special p ->
  exists p', (if negb (diff =? 0) then
                p ← memmove p (pd_upper p + diff) (pd_upper p) (offset - pd_upper p);
                shift_items (Z.to_nat n) ItemIdHasStorage (set_pd_upper p (pd_upper p + diff)) FirstOffsetNumber offset diff
              else Ok p) = Ok p' /\
  keeps_header p p' /\ pd_upper p' = pd_upper p + diff /\ pd_lower p' = pd_lower p /\
  (forall o m, pd_upper p + diff <= o -> 0 < m -> o + m <= offset + diff -> bytes_at p' o m = bytes_at p (o - diff) m) /\
  (forall o m, offset + diff <= o -> offset <= o -> bytes_at p' o m = bytes_at p o m) /\
  forall i, 1 <= i <= n -> linp p' i = shift_lp ItemIdHasStorage offset diff (linp p i).
Proof.
  intros Hp ? Hlow ? ? ? ? ? ? ?. destruct (Z.eqb_spec diff 0) as [-> |Hd]; cbn [negb].
  { exists p. split_and!; [done|by apply page_keeps_refl|lia|done|intros; f_equal; lia|done|].
    intros. rewrite shift_lp_0; [done|apply linp_ok]. }
  destruct (move_data p (pd_upper p) offset diff) as (p1 & -> & Hp1 & F1 & M1); [done|linp_lia..|]. cbn [mbind result_bind]. cbv zeta.
  assert (U1 : pd_upper p1 = pd_upper p) by (eapply frame_get16; [exact F1|linp_lia..]). rewrite U1.
  destruct (set_upper_page p1 (pd_upper p + diff)) as (Hp2 & F2 & U2); [done|linp_lia|]. set (p2 := set_pd_upper _ _) in *.
  destruct (shift_items_page (Z.to_nat n) ItemIdHasStorage p2 FirstOffsetNumber offset diff) as (p3 & E & Hp3 & F3 & L3);
    [done|done|rewrite Z2Nat.id by lia; unfold FirstOffsetNumber; linp_lia|].
  rewrite Z2Nat.id, (Z.add_comm FirstOffsetNumber) in F3, L3 by lia. unfold FirstOffsetNumber in F3, L3.
  assert (K2 : keeps_header p p2).
  { apply keeps_set_upper; [eapply keeps_frame; [..|exact F1| |]|]; done || linp_lia. }
  exists p3. split_and!; [done|..].
  - eapply page_keeps_trans; [exact K2|]. eapply keeps_frame; [done|done|exact F3|linp_lia|rewrite (kh_special _ _ K2); linp_lia].
  - rewrite <- U2. eapply frame_get16; [exact F3|linp_lia..].
  - transitivity (pd_lower p2); [eapply frame_get16; [exact F3|linp_lia..]|].
    transitivity (pd_lower p1); (eapply frame_get16; [eassumption|linp_lia..]).
  - intros. rewrite F3, F2 by linp_lia. apply M1; lia.
  - intros. rewrite F3, F2 by linp_lia. apply F1; linp_lia.
  - intros i Hi. rewrite L3 by lia. f_equal.
    transitivity (linp p1 i); (eapply frame_linp; [eassumption|linp_lia..]).
Qed.

(** Putting the new tuple in its place. *)
Lemma overwrite_put p offnum n off newtup :
  is_page p -> 1 <= offnum <= n -> linp_addr (n + 1) <= off ->
  off + Z.of_nat (length newtup) <= pd_special p -> pd_special p <= BLCKSZ -> Forall is_byte newtup ->
  exists p', (tupid ← PageGetItemId p offnum;
     p ← PageSetItemId p offnum (mkItemId (off mod 2 ^ 15) (lp_flags tupid) (Z.of_nat (length newtup) mod 2 ^ 15));
     p ← mem_write p (off mod 2 ^ 15) newtup;
     Ok (p, true)) = Ok (p', true) /\
  keeps_header p p' /\ pd_upper p' = pd_upper p /\ pd_lower p' = pd_lower p /\
  (forall o m, linp_addr (n + 1) <= o -> o + m <= off \/ off + Z.of_nat (length newtup) <= o -> bytes_at p' o m = bytes_at p o m) /\
  bytes_at p' off (Z.of_nat (length newtup)) = newtup /\
  linp p' offnum = mkItemId off (lp_flags (linp p offnum)) (Z.of_nat (length newtup)) /\
  forall i, 1 <= i <= n -> i <> offnum -> linp p' i = linp p i.
Proof.
  intros Hp Ho ? ? ? Hb. rewrite PageGetItemId_page by (done || linp_lia). cbn [mbind result_bind].
  rewrite !Z.mod_small by linp_lia. destruct (linp_ok p offnum) as (_ & ? & _).
  destruct (PageSetItemId_page p offnum (mkItemId off (lp_flags (linp p offnum)) (Z.of_nat (length newtup))))
    as (p1 & -> & Hp1 & F1 & E1); [done|unfold lp_ok; cbn; linp_lia|lia|linp_lia|]. cbn [mbind result_bind].
  rewrite mem_write_page by (done || linp_lia). cbn [mbind result_bind].
  destruct (put_page p1 off newtup) as (Hp2 & F2 & M2); [done|done|linp_lia..|].
  assert (K1 : keeps_header p p1) by (eapply keeps_frame; [..|exact F1| |]; done || linp_lia).
  eexists. split_and!; [done|..].
  - eapply page_keeps_trans; [exact K1|]. eapply keeps_frame; [done|done|exact F2|linp_lia|rewrite (kh_special _ _ K1); linp_lia].
  - transitivity (pd_upper p1); (eapply frame_get16; [eassumption|linp_lia..]).
  - transitivity (pd_lower p1); (eapply frame_get16; [eassumption|linp_lia..]).
  - intros. rewrite F2 by linp_lia. apply F1; linp_lia.
  - rewrite M2, Z.sub_diag by lia. by apply bytes_at_all.
  - rewrite <- E1. eapply frame_linp; [exact F2|linp_lia..].
  - intros i Hi Hne. transitivity (linp p1 i); (eapply frame_linp; [eassumption|linp_lia..]).
Qed.

Lemma PageIndexTupleOverwrite_ok p offnum newtup flags data :
  page_wf p -> 1 <= offnum <= PageGetMaxOffsetNumber p -> item p offnum = Stored flags data ->
  Forall is_byte newtup -> newtup <> [] ->
  let need := MAXALIGN (Z.of_nat (length newtup)) in
  let have := MAXALIGN (Z.of_nat (length data)) in
  exists p' b, PageIndexTupleOverwrite p offnum newtup = Ok (p', b) /\ page_wf p' /\
  if need >? have + (pd_upper p - pd_lower p) then b = false /\ p' = p
  else b = true /\ page_state p' = ps_update (page_state p) (<[Z.to_nat (offnum - 1) := Stored flags newtup]> (page_items p))
    (pd_upper p - pd_lower p + have - need).
Proof.
  intros Hwf Ho Hitem Hb Hne need have. unfold PageIndexTupleOverwrite. rewrite wf_not_corrupted by done.
  destruct (Z.leb_spec offnum 0); [lia|]. rewrite Z.gtb_ltb. destruct (Z.ltb_spec (PageGetMaxOffsetNumber p) offnum); [lia|].
  cbn [orb]. rewrite wf_get_linp by done. cbn [mbind result_bind].
  assert (Hlen : lp_len (linp p offnum) <> 0) by (apply item_storage_len; by rewrite Hitem).
  rewrite wf_line_pointer by auto. cbv zeta.
  assert (Hhave : MAXALIGN (lp_len (linp p offnum)) = have /\ lp_flags (linp p offnum) = flags).
  { pose proof (stored_len_item p offnum Hwf Ho) as E. rewrite Hitem, (proj2 (Z.eqb_neq _ _) Hlen) in E. split; [done|].
    unfold item, item_view in Hitem. rewrite (proj2 (Z.eqb_neq _ _) Hlen) in Hitem. congruence. }
  destruct Hhave as [Hhave Hfl]. destruct (wf_stored_at p offnum Hwf Ho Hlen) as [? ? ? ? ? ?]. rewrite Hhave in *.
  fold need. destruct (need >? have + (pd_upper p - pd_lower p)) eqn:Hfit; [by eexists _, _|]. zbool.
  destruct (wf_linps p Hwf) as [Hn Hlow]. pose proof Hwf as [Hp ? ? ? ? ? ? ? ? _ L].
  pose proof (MAXALIGN_spec (Z.of_nat (length newtup))) as Hneed. fold need in Hneed.
  assert (0 < Z.of_nat (length newtup)) by (destruct newtup; [done|cbn; lia]).
  rewrite (swrap_small 32 need) by (unfold in_sint; linp_lia).
  set (n := PageGetMaxOffsetNumber p) in *. set (offset := lp_off (linp p offnum)) in *.
  destruct (overwrite_move p n offset (have - need)) as (p1 & -> & K1 & U1 & Lo1 & M1 & Kp1 & L1); [done|linp_lia..|].
  cbn [mbind result_bind].
  destruct (overwrite_put p1 offnum n (offset + (have - need)) newtup) as (p2 & -> & K2 & U2 & Lo2 & M2 & D2 & E2 & L2);
    try done; try (rewrite ?(kh_special _ _ K1); linp_lia); [apply K1|].
  exists p2, true. split; [done|].
  assert (Hflags : lp_flags (linp p1 offnum) = flags).
  { rewrite L1 by done. unfold shift_lp. by destruct (_ && _). }
  rewrite Hflags in E2.
  assert (Hnz : flags <> LP_UNUSED).
  { rewrite <- Hfl. intros Hu. pose proof (lay_unused _ _ _ _ L offnum Ho Hu) as E. by rewrite E in Hlen. }
  replace (pd_upper p - pd_lower p + have - need) with (pd_upper p + (have - need) - linp_addr (n + 1)) by linp_lia.
  enough (G : page_wf p2 /\ page_state p2 = ps_update (page_state p) (<[Z.to_nat (offnum - 1):=Stored flags newtup]> (page_items p))
    (pd_upper p + (have - need) - linp_addr (n + 1))) by (split; [apply G|split; [done|apply G]]).
  apply (shift_finish p p2 offnum (have - need) n (fun i => i) ItemIdHasStorage
    (mkItemId (offset + (have - need)) flags (Z.of_nat (length newtup)))); rewrite ?Hhave; fold offset; try done; try linp_lia.
  - zlia.
  - intros. rewrite M2 by linp_lia. apply M1; lia.
  - intros. rewrite M2 by linp_lia. apply Kp1; lia.
  - intros. rewrite L2 by lia. apply L1; lia.
  - by intros i Hi ->.
  - right. cbn [lp_off lp_len lp_flags]. fold need. split_and!; [done|lia|lia|done].
  - eapply page_keeps_trans; [exact K1|exact K2].
  - rewrite length_insert, page_items_length. lia.
  - intros i Hi. destruct (Z.eqb_spec i offnum) as [-> |].
    + rewrite list_lookup_insert_eq by (rewrite page_items_length; lia). unfold item_view; cbn [lp_off lp_len lp_flags].
      rewrite D2. destruct (Z.eqb_spec (Z.of_nat (length newtup)) 0); [lia|done].
    + rewrite list_lookup_insert_ne by lia. by apply page_items_lookup.
Qed.
