(* ===== verification/PageAdd.v ===== *)
(** * Adding an item to a page

    [PageAddItemExtended] chooses a line pointer and puts the item below the
    others, or refuses it.  [spec_add] says the same of the contents of the
    page. *)

From S2P Require Import Prelude Varlena HeapTuple HeapTupleProofs IndexTuple Sorting Page PageMem PageShift.

(** ** Specification *)

(** A line pointer that can be used again. *)
Definition is_free (v : ItemView) : bool := match v with Bare flags _ => flags =? LP_UNUSED | Stored _ _ => false end.

(** The position of the first one, or the number of items. *)
Fixpoint first_free (items : list ItemView) : nat :=
  match items with
  | [] => O
  | v :: items' => if is_free v then O else S (first_free items')
  end.

Definition ps_clear_hint (s : PageState) : PageState :=
  mkState (ps_lsn_checksum s) (Z.land (ps_flags s) (Z.lnot PD_HAS_FREE_LINES)) (ps_version_prune s)
    (ps_items s) (ps_free s) (ps_special s).

(** The item is put at [off], which gives [items], if there is room for it and
    for a new line pointer where one is needed. *)
Definition spec_place (s : PageState) (flags off : Z) (new_line : bool) (size : Z) (items : list ItemView) : PageState * Z :=
  let need := (if new_line then sizeof_ItemIdData else 0) + MAXALIGN size in
  if (off >? Z.of_nat (length (ps_items s)) + 1) || bit_set flags PAI_IS_HEAP && (off >? MaxHeapTuplesPerPage) || (need >? ps_free s)
  then (s, InvalidOffsetNumber)
  else (ps_update s items (ps_free s - need), off).

Definition spec_add (s : PageState) (data : list Z) (offnum flags : Z) : PageState * Z :=
  let items := ps_items s in
  let limit := Z.of_nat (length items) + 1 in
  let k := Z.to_nat (offnum - 1) in
  let v := Stored LP_NORMAL data in
  let size := Z.of_nat (length data) in
  if OffsetNumberIsValid offnum then
    if bit_set flags PAI_OVERWRITE then
      match items !! k with
      | Some old => if is_free old then spec_place s flags offnum false size (<[k := v]> items) else (s, InvalidOffsetNumber)
      | None => spec_place s flags offnum true size (items ++ [v])
      end
    else spec_place s flags offnum true size (take k items ++ v :: drop k items)
  else if bit_set (ps_flags s) PD_HAS_FREE_LINES then
    if (first_free items <? length items)%nat
    then spec_place s flags (Z.of_nat (first_free items) + 1) false size (<[first_free items := v]> items)
    else spec_place (ps_clear_hint s) flags limit true size (items ++ [v])
  else spec_place s flags limit true size (items ++ [v]).

(** ** Putting the item on the page *)

(** The line pointer before the insertion of one at [off]. *)
Definition before_insert (off : Z) (shuffle : bool) (i : Z) : Z := if shuffle && (off <? i) then i - 1 else i.

Lemma shuffle_linps p off n (shuffle : bool) :
  is_page p -> 1 <= off <= n + 1 -> (if shuffle then linp_addr (n + 2) else linp_addr (n + 1)) <= BLCKSZ -> (shuffle = true -> off <= n) ->
  exists p', (if shuffle then memmove p (linp_addr (off + 1)) (linp_addr off) ((n + 1 - off) * sizeof_ItemIdData) else Ok p) = Ok p' /\
  is_page p' /\ frame p p' (linp_addr (off + 1)) (if shuffle then linp_addr (n + 2) else linp_addr (off + 1)) /\
  forall i, 1 <= i <= (if shuffle then n + 1 else n) -> i <> off -> linp p' i = linp p (before_insert off shuffle i).
Proof.
  intros Hp Ho Hb Hsh. unfold before_insert. destruct shuffle; cbn [andb].
  - destruct (memmove_page p (linp_addr (off + 1)) (linp_addr off) ((n + 1 - off) * sizeof_ItemIdData)) as (p' & -> & Hp' & F & M);
      [done|linp_lia..|].
    exists p'. split_and!; [done|done|eapply frame_weaken; [exact F|linp_lia..]|].
    intros i Hi Hne. destruct (Z.ltb_spec off i).
    + unfold linp. rewrite M by linp_lia. do 3 f_equal. linp_lia.
    + eapply frame_linp; [exact F|linp_lia..].
  - exists p. split_and!; [done|done|apply frame_refl|done].
Qed.

Section Place.
Variables (p : Page) (data : list Z) (off : Z) (shuffle : bool).
#[local] Notation n := (PageGetMaxOffsetNumber p).
#[local] Notation size := (Z.of_nat (length data)).

Hypothesis Hwf : page_wf p.
Hypothesis Hoff : 1 <= off <= n + 1.
Hypothesis Hshuffle : shuffle = true -> off <= n.
Hypothesis Hfree : shuffle = false -> off <= n -> is_free (item p off) = true.
Hypothesis Hbytes : Forall is_byte data.
Hypothesis Hdata : data <> [].

Definition new_line : bool := (off =? n + 1) || shuffle.
Definition new_lower : Z := if new_line then pd_lower p + sizeof_ItemIdData else pd_lower p.
Definition new_upper : Z := pd_upper p - MAXALIGN size.
Definition new_n : Z := if new_line then n + 1 else n.

Hypothesis Hfit : new_lower <= new_upper.

Lemma place_bounds :
  0 < size <= MAXALIGN size /\ 0 <= n /\ pd_lower p = linp_addr (n + 1) /\ new_lower = linp_addr (new_n + 1) /\
  n <= new_n <= n + 1 /\ off <= new_n /\ new_upper mod 8 = 0 /\ new_upper + MAXALIGN size = pd_upper p /\
  linp_addr (new_n + 1) <= new_upper.
Proof.
  destruct (wf_linps p Hwf) as [Hn Hlow]. pose proof (wf_upper_aligned p Hwf).
  pose proof (MAXALIGN_spec size). assert (0 < size) by (destruct data; [done|cbn; lia]).
  unfold new_lower, new_n, new_upper, new_line in *. destruct (Z.eqb_spec off (n + 1)); cbn [orb] in *; split_and!; try linp_lia; try zlia.
  all: destruct shuffle; linp_lia.
Qed.

Lemma new_n_shuffle : (if shuffle then n + 1 else n) <= new_n.
Proof. unfold new_n, new_line. destruct shuffle, (off =? n + 1); cbn; lia. Qed.

Lemma place_run :
  exists p', (p ← (if shuffle then memmove p (linp_addr (off + 1)) (linp_addr off) ((n + 1 - off) * sizeof_ItemIdData) else Ok p);
    p ← PageSetItemId p off (ItemIdSetNormal new_upper size);
    p ← mem_write p new_upper data;
    Ok (set_pd_upper (set_pd_lower p new_lower) new_upper, off)) = Ok (p', off) /\
  keeps_header p p' /\ pd_upper p' = new_upper /\ pd_lower p' = new_lower /\
  (forall o m, pd_upper p <= o -> bytes_at p' o m = bytes_at p o m) /\ bytes_at p' new_upper size = data /\
  linp p' off = mkItemId new_upper LP_NORMAL size /\
  forall i, 1 <= i <= new_n -> i <> off -> linp p' i = linp p (before_insert off shuffle i).
Proof.
  destruct place_bounds as (Hsize & Hn & Hlow & Hnl & Hnn & Hon & Hu8 & Hu & Hlu).
  pose proof Hwf as [Hp ? ? ? ? ? ? ? ? _ _].
  pose proof new_n_shuffle as Hns.
  destruct (shuffle_linps p off n shuffle) as (p1 & -> & Hp1 & F1 & L1); [done|done| |done|].
  { destruct shuffle; linp_lia. }
  cbn [mbind result_bind]. unfold ItemIdSetNormal. rewrite !Z.mod_small by linp_lia.
  destruct (PageSetItemId_page p1 off (mkItemId new_upper LP_NORMAL size)) as (p2 & -> & Hp2 & F2 & E2);
    [done|unfold lp_ok, LP_NORMAL; cbn; linp_lia|lia|linp_lia|]. cbn [mbind result_bind].
  rewrite mem_write_page by (done || linp_lia). cbn [mbind result_bind].
  destruct (put_page p2 new_upper data) as (Hp3 & F3 & M3); [done|done|linp_lia..|].
  set (p3 := put p2 new_upper data) in *.
  assert (F12 : frame p p2 SizeOfPageHeaderData (linp_addr (new_n + 1))).
  { eapply frame_trans; [exact F1|exact F2|linp_lia..| |linp_lia].
    destruct shuffle; linp_lia. }
  destruct (set_lower_page p3 new_lower) as (Hp4 & F4 & E4); [done|linp_lia|].
  destruct (set_upper_page (set_pd_lower p3 new_lower) new_upper) as (Hp5 & F5 & E5); [done|linp_lia|].
  assert (F45 : frame p3 (set_pd_upper (set_pd_lower p3 new_lower) new_upper) 12 16) by (eapply frame_trans; [exact F4|exact F5|lia..]).
  assert (K2 : keeps_header p p2) by (eapply keeps_frame; [..|exact F12| |]; done || linp_lia).
  eexists. split_and!; [done|..].
  - apply keeps_set_upper; [apply keeps_set_lower|]; try linp_lia. eapply page_keeps_trans; [exact K2|].
    eapply keeps_frame; [done|done|exact F3|linp_lia|rewrite (kh_special _ _ K2); linp_lia].
  - done.
  - rewrite <- E4 at 2. eapply frame_get16; [exact F5|lia..].
  - intros. rewrite F45, F3 by linp_lia. apply F12; linp_lia.
  - rewrite F45, M3 by linp_lia. rewrite Z.sub_diag. by apply bytes_at_all.
  - rewrite <- E2. transitivity (linp p3 off); (eapply frame_linp; [eassumption|linp_lia..]).
  - intros i Hi Hne. rewrite <- L1; [|unfold new_n, new_line in *; destruct shuffle, (Z.eqb_spec off (n + 1)); cbn in *; lia|done].
    transitivity (linp p2 i); [|eapply frame_linp; [exact F2|linp_lia..]].
    transitivity (linp p3 i); (eapply frame_linp; [eassumption|linp_lia..]).
Qed.

(** Where a line pointer comes from. *)
Lemma before_insert_range i :
  1 <= i <= new_n -> i <> off -> 1 <= before_insert off shuffle i <= n.
Proof.
  intros Hi Hne. unfold before_insert, new_n, new_line in *.
  destruct shuffle, (Z.ltb_spec off i), (Z.eqb_spec off (n + 1)); cbn in *; lia.
Qed.

Lemma before_insert_inj i j :
  1 <= i <= new_n -> 1 <= j <= new_n -> i <> off -> j <> off -> before_insert off shuffle i = before_insert off shuffle j -> i = j.
Proof.
  intros Hi Hj Hni Hnj. unfold before_insert. destruct shuffle; cbn [andb]; [|done].
  destruct (Z.ltb_spec off i), (Z.ltb_spec off j); lia.
Qed.

Lemma place_ok :
  exists p', (p ← (if shuffle then memmove p (linp_addr (off + 1)) (linp_addr off) ((n + 1 - off) * sizeof_ItemIdData) else Ok p);
    p ← PageSetItemId p off (ItemIdSetNormal new_upper size);
    p ← mem_write p new_upper data;
    Ok (set_pd_upper (set_pd_lower p new_lower) new_upper, off)) = Ok (p', off) /\ page_wf p' /\
  forall items, Z.of_nat (length items) = new_n -> items !! Z.to_nat (off - 1) = Some (Stored LP_NORMAL data) ->
    (forall i, 1 <= i <= new_n -> i <> off -> items !! Z.to_nat (i - 1) = Some (item p (before_insert off shuffle i))) ->
    page_state p' = ps_update (page_state p) items (new_upper - new_lower).
Proof.
  destruct place_bounds as (Hsize & Hn & Hlow & Hnl & Hnn & Hon & Hu8 & Hu & Hlu).
  destruct place_run as (p' & E & K & U & Lo & Kp & D & Lof & L). exists p'. split; [done|].
  pose proof (wf_layout p Hwf) as Ly. pose proof (wf_upper_special p Hwf). pose proof (wf_special p Hwf).
  assert (Hmax : PageGetMaxOffsetNumber p' = new_n) by (apply max_offset_of_lower; [lia|congruence]).
  split.
  - eapply page_wf_update; [exact Hwf|exact K|..]; rewrite ?Hmax, ?U, ?Lo.
    + linp_lia.
    + lia.
    + rewrite Hnl. apply linp_addr_mod.
    + done.
    + constructor.
      * intros i Hi. destruct (Z.eq_dec i off) as [-> |Hne]; [rewrite Lof; cbn; lia|]. rewrite L by done. intros Hl.
        destruct (lay_in _ _ _ _ Ly _ (before_insert_range i Hi Hne) Hl) as (? & ? & ?). lia.
      * assert (Hold : forall i, 1 <= i <= new_n -> i <> off -> lp_len (linp p' i) <> 0 -> pd_upper p <= lp_off (linp p' i)).
        { intros i Hi Hne. rewrite L by done. intros Hl. apply (lay_in _ _ _ _ Ly _ (before_insert_range i Hi Hne) Hl). }
        intros i j Hi Hj Hij Hli Hlj. destruct (Z.eq_dec i off) as [-> |Hni], (Z.eq_dec j off) as [-> |Hnj]; [done|..].
        -- left. rewrite Lof; cbn. specialize (Hold j Hj Hnj Hlj). lia.
        -- right. rewrite Lof; cbn. specialize (Hold i Hi Hni Hli). lia.
        -- rewrite !L in * by done. apply (lay_disjoint _ _ _ _ Ly); auto using before_insert_range.
           intros Eb. by apply Hij, (before_insert_inj i j).
      * intros i Hi. destruct (Z.eq_dec i off) as [-> |Hne]; [by rewrite Lof|]. rewrite L by done.
        apply (lay_unused _ _ _ _ Ly). by apply before_insert_range.
  - intros items Hlen Hio Hi. apply page_state_update; [done| |congruence]. apply page_items_eq; rewrite Hmax; [done|].
    intros i Hi'. destruct (Z.eq_dec i off) as [-> |Hne].
    + rewrite Hio. f_equal. unfold item, item_view. rewrite Lof; cbn [lp_len lp_off lp_flags]. rewrite D.
      destruct (Z.eqb_spec size 0); [lia|done].
    + rewrite Hi by done. f_equal. unfold item. rewrite L by done. symmetry. apply item_view_eq; [done..|]. intros Hl. apply Kp.
      apply (lay_in _ _ _ _ Ly _ (before_insert_range i Hi' Hne) Hl).
Qed.

End Place.

(** ** The choice of the line pointer *)

Lemma is_free_linp p i :
  is_free (item p i) = negb (ItemIdIsUsed (linp p i)) && negb (ItemIdHasStorage (linp p i)).
Proof.
  unfold item, item_view, ItemIdIsUsed, ItemIdHasStorage. rewrite !negb_involutive.
  destruct (lp_len (linp p i) =? 0); cbn; [by rewrite andb_true_r|by rewrite andb_false_r].
Qed.

Lemma page_items_drop p i :
  1 <= i <= PageGetMaxOffsetNumber p -> drop (Z.to_nat (i - 1)) (page_items p) = item p i :: drop (Z.to_nat i) (page_items p).
Proof.
  intros Hi. rewrite (drop_S (page_items p) (item p i) (Z.to_nat (i - 1))) by (by apply page_items_lookup). do 2 f_equal. lia.
Qed.

Lemma find_free_linp_spec k p off :
  page_wf p -> 1 <= off <= PageGetMaxOffsetNumber p + 1 -> PageGetMaxOffsetNumber p + 1 - off <= Z.of_nat k ->
  find_free_linp k p off (PageGetMaxOffsetNumber p + 1) = Ok (off + Z.of_nat (first_free (drop (Z.to_nat (off - 1)) (page_items p)))).
Proof.
  intros Hwf. revert off. induction k as [|k IH]; intros off Ho Hk; cbn [find_free_linp];
    destruct (Z.ltb_spec off (PageGetMaxOffsetNumber p + 1)) as [Hlt|Hge]; cbn [negb].
  - lia.
  - rewrite drop_ge by (rewrite page_items_length; lia). cbn. f_equal. lia.
  - rewrite wf_get_linp by (done || lia). cbn [mbind result_bind]. rewrite page_items_drop by lia. cbn [first_free].
    rewrite <- is_free_linp. destruct (is_free (item p off)); [f_equal; lia|].
    rewrite IH by lia. f_equal. replace (off + 1 - 1) with off by lia. lia.
  - rewrite drop_ge by (rewrite page_items_length; lia). cbn. f_equal. lia.
Qed.

Lemma first_free_bound items : (first_free items <= length items)%nat.
Proof. induction items as [|v items IH]; cbn; [lia|]. destruct (is_free v); lia. Qed.

Lemma first_free_free items v : items !! first_free items = Some v -> is_free v = true.
Proof. induction items as [|u items IH]; cbn; [done|]. destruct (is_free u) eqn:E; cbn; [by intros [= <-]|done]. Qed.

(** Changing the flags. *)
Lemma set_flags_page p x :
  page_wf p -> 0 <= x <= PD_VALID_FLAG_BITS ->
  page_wf (set_pd_flags p x) /\
  page_state (set_pd_flags p x) = mkState (ps_lsn_checksum (page_state p)) x (ps_version_prune (page_state p))
    (ps_items (page_state p)) (ps_free (page_state p)) (ps_special (page_state p)) /\
  PageGetMaxOffsetNumber (set_pd_flags p x) = PageGetMaxOffsetNumber p.
Proof.
  intros Hwf Hx. unfold PD_VALID_FLAG_BITS in Hx. pose proof Hwf as [Hp ? ? ? ? ? ? ? ? Hv L].
  destruct (put16_page p 10 x) as (Hp' & F & E); [done|lia|unfold BLCKSZ; lia|]. rewrite Z.mod_small in E by lia.
  fold (set_pd_flags p x) in Hp', F, E. change (get16 (set_pd_flags p x) 10) with (pd_flags (set_pd_flags p x)) in E.
  assert (Elo : pd_lower (set_pd_flags p x) = pd_lower p) by (eapply frame_get16; [exact F|lia..]).
  assert (Eup : pd_upper (set_pd_flags p x) = pd_upper p) by (eapply frame_get16; [exact F|lia..]).
  assert (Esp : pd_special (set_pd_flags p x) = pd_special p) by (eapply frame_get16; [exact F|lia..]).
  assert (Emax : PageGetMaxOffsetNumber (set_pd_flags p x) = PageGetMaxOffsetNumber p) by (unfold PageGetMaxOffsetNumber; by rewrite Elo).
  assert (Elp : forall i, 1 <= i -> linp (set_pd_flags p x) i = linp p i) by (intros; eapply frame_linp; [exact F|linp_lia..]).
  split_and!; [| |done].
  - constructor; rewrite ?Elo, ?Eup, ?Esp, ?Emax, ?E; try done.
    + rewrite <- Hv. eapply frame_get16; [exact F|lia..].
    + constructor.
      * intros i Hi. rewrite Elp by lia. by apply L.
      * intros i j Hi Hj. rewrite !Elp by lia. by apply L.
      * intros i Hi. rewrite Elp by lia. by apply L.
  - unfold page_state; cbn. rewrite Elo, Eup, Esp, E. f_equal; try (apply F; linp_lia).
    apply page_items_eq; rewrite Emax; [rewrite page_items_length; destruct (wf_linps p Hwf); lia|].
    intros i Hi. rewrite page_items_lookup by done. f_equal. symmetry. apply item_same; [apply Elp; lia|].
    intros Hl. destruct (lay_in _ _ _ _ L i Hi Hl) as (? & ? & ?). apply F; linp_lia.
Qed.

Lemma hint_range x :
  0 <= x <= PD_VALID_FLAG_BITS ->
  0 <= Z.land x (Z.lnot PD_HAS_FREE_LINES) <= PD_VALID_FLAG_BITS /\ 0 <= Z.lor x PD_HAS_FREE_LINES <= PD_VALID_FLAG_BITS.
Proof.
  unfold PD_VALID_FLAG_BITS. intros Hx.
  assert (x = 0 \/ x = 1 \/ x = 2 \/ x = 3 \/ x = 4 \/ x = 5 \/ x = 6 \/ x = 7) as Hc by lia.
  repeat destruct Hc as [-> |Hc]; try subst x; vm_compute; repeat split; discriminate.
Qed.

Lemma clear_hint_page p :
  page_wf p -> page_wf (PageClearHasFreeLinePointers p) /\
  page_state (PageClearHasFreeLinePointers p) = ps_clear_hint (page_state p) /\
  PageGetMaxOffsetNumber (PageClearHasFreeLinePointers p) = PageGetMaxOffsetNumber p.
Proof.
  intros Hwf. apply set_flags_page; [done|]. apply hint_range, Hwf.
Qed.

(** ** [PageAddItemExtended] *)

Section Add.
Variables (data : list Z) (flags : Z).
Hypothesis Hbytes : Forall is_byte data.
Hypothesis Hdata : data <> [].
Hypothesis Hsize : Z.of_nat (length data) <= MaxAllocSize.

Lemma add_item_at_ok p off shuffle items :
  page_wf p -> 1 <= off -> (shuffle = true -> off <= PageGetMaxOffsetNumber p) ->
  (shuffle = false -> off <= PageGetMaxOffsetNumber p -> is_free (item p off) = true) ->
  (off <= PageGetMaxOffsetNumber p + 1 ->
    Z.of_nat (length items) = new_n p off shuffle /\ items !! Z.to_nat (off - 1) = Some (Stored LP_NORMAL data) /\
    forall i, 1 <= i <= new_n p off shuffle -> i <> off -> items !! Z.to_nat (i - 1) = Some (item p (before_insert off shuffle i))) ->
  exists p' r, add_item_at p data (PageGetMaxOffsetNumber p + 1) off shuffle flags = Ok (p', r) /\ page_wf p' /\
  (page_state p', r) = spec_place (page_state p) flags off (new_line p off shuffle) (Z.of_nat (length data)) items.
Proof.
  intros Hwf Ho Hsh Hfr Hit. unfold add_item_at, spec_place. cbn [ps_items ps_free page_state].
  destruct (wf_linps p Hwf) as [Hn _]. rewrite page_items_length, Z2Nat.id by done.
  destruct (Z.gtb_spec off (PageGetMaxOffsetNumber p + 1)); cbn [orb]; [by eexists _, _|].
  destruct (bit_set flags PAI_IS_HEAP && (off >? MaxHeapTuplesPerPage)); cbn [orb]; [by eexists _, _|].
  pose proof Hwf as [Hp ? ? ? ? ? ? ? ? _ _]. pose proof (MAXALIGN_spec (Z.of_nat (length data))).
  rewrite (swrap_small 32 (MAXALIGN _)), swrap_small by (unfold in_sint, MaxAllocSize in *; linp_lia).
  fold (new_line p off shuffle). fold (new_lower p off shuffle). fold (new_upper p data).
  assert (Hneed : (if new_line p off shuffle then sizeof_ItemIdData else 0) + MAXALIGN (Z.of_nat (length data)) =
    new_lower p off shuffle - pd_lower p + (pd_upper p - new_upper p data)).
  { unfold new_lower, new_upper. destruct (new_line p off shuffle); lia. }
  rewrite Hneed. destruct (Z.gtb_spec (new_lower p off shuffle) (new_upper p data)).
  { rewrite Z.gtb_ltb, (proj2 (Z.ltb_lt _ _)) by lia. by eexists _, _. }
  rewrite Z.gtb_ltb, (proj2 (Z.ltb_ge _ _)) by lia.
  destruct (place_ok p data off shuffle) as (p' & -> & Hwf' & Hps); try done.
  exists p', off. split_and!; [done..|]. destruct Hit as (Hl & Hi & Hr); [lia|]. rewrite (Hps items Hl Hi Hr). do 2 f_equal. lia.
Qed.

(** The lists of items that the choices give. *)
Lemma insert_items p off (shuffle : bool) :
  page_wf p -> 1 <= off -> shuffle = (off <? PageGetMaxOffsetNumber p + 1) -> off <= PageGetMaxOffsetNumber p + 1 ->
  let items := take (Z.to_nat (off - 1)) (page_items p) ++ Stored LP_NORMAL data :: drop (Z.to_nat (off - 1)) (page_items p) in
  Z.of_nat (length items) = new_n p off shuffle /\ items !! Z.to_nat (off - 1) = Some (Stored LP_NORMAL data) /\
  forall i, 1 <= i <= new_n p off shuffle -> i <> off -> items !! Z.to_nat (i - 1) = Some (item p (before_insert off shuffle i)).
Proof.
  intros Hwf Ho -> Hle items. destruct (wf_linps p Hwf) as [Hn _].
  assert (Hnn : new_n p off (off <? PageGetMaxOffsetNumber p + 1) = PageGetMaxOffsetNumber p + 1).
  { unfold new_n, new_line. destruct (Z.eqb_spec off (PageGetMaxOffsetNumber p + 1)), (Z.ltb_spec off (PageGetMaxOffsetNumber p + 1)); cbn; lia. }
  assert (Ht : length (take (Z.to_nat (off - 1)) (page_items p)) = Z.to_nat (off - 1)) by (rewrite length_take, page_items_length; lia).
  rewrite Hnn. unfold items. split_and!.
  - rewrite length_app, Ht. cbn [length]. rewrite length_drop, page_items_length. lia.
  - rewrite lookup_app_r by lia. rewrite Ht, Nat.sub_diag. done.
  - intros i Hi Hne. unfold before_insert. destruct (Z.ltb_spec off i) as [Hlt|Hge].
    + rewrite lookup_app_r by lia. rewrite Ht, lookup_cons_ne_0 by lia. rewrite lookup_drop.
      replace (_ + _)%nat with (Z.to_nat (i - 1 - 1)) by lia.
      destruct (Z.ltb_spec off (PageGetMaxOffsetNumber p + 1)); [|lia]. cbn [andb]. apply page_items_lookup. lia.
    + rewrite andb_false_r, lookup_app_l by lia. rewrite lookup_take_lt by lia. apply page_items_lookup. lia.
Qed.

Lemma append_items p :
  page_items p ++ [Stored LP_NORMAL data] =
  take (Z.to_nat (PageGetMaxOffsetNumber p + 1 - 1)) (page_items p) ++ Stored LP_NORMAL data :: drop (Z.to_nat (PageGetMaxOffsetNumber p + 1 - 1)) (page_items p).
Proof.
  rewrite Z.add_simpl_r, take_ge, drop_ge by (rewrite page_items_length; lia). done.
Qed.

Lemma reuse_items p off :
  page_wf p -> 1 <= off <= PageGetMaxOffsetNumber p ->
  let items := <[Z.to_nat (off - 1) := Stored LP_NORMAL data]> (page_items p) in
  Z.of_nat (length items) = new_n p off false /\ items !! Z.to_nat (off - 1) = Some (Stored LP_NORMAL data) /\
  forall i, 1 <= i <= new_n p off false -> i <> off -> items !! Z.to_nat (i - 1) = Some (item p (before_insert off false i)).
Proof.
  intros Hwf Ho items. destruct (wf_linps p Hwf) as [Hn _].
  assert (Hnn : new_n p off false = PageGetMaxOffsetNumber p).
  { unfold new_n, new_line. destruct (Z.eqb_spec off (PageGetMaxOffsetNumber p + 1)); cbn; lia. }
  rewrite Hnn. unfold items. split_and!.
  - rewrite length_insert, page_items_length. lia.
  - apply list_lookup_insert_eq. rewrite page_items_length. lia.
  - intros i Hi Hne. rewrite list_lookup_insert_ne by lia. by apply page_items_lookup.
Qed.

(** A new line pointer, and one that is used again. *)
Lemma add_new_line p off :
  page_wf p -> 1 <= off ->
  exists p' r, add_item_at p data (PageGetMaxOffsetNumber p + 1) off (off <? PageGetMaxOffsetNumber p + 1) flags = Ok (p', r) /\ page_wf p' /\
  (page_state p', r) = spec_place (page_state p) flags off true (Z.of_nat (length data))
    (take (Z.to_nat (off - 1)) (page_items p) ++ Stored LP_NORMAL data :: drop (Z.to_nat (off - 1)) (page_items p)).
Proof.
  intros Hwf Ho.
  destruct (add_item_at_ok p off (off <? PageGetMaxOffsetNumber p + 1)
    (take (Z.to_nat (off - 1)) (page_items p) ++ Stored LP_NORMAL data :: drop (Z.to_nat (off - 1)) (page_items p)))
    as (p' & r & ? & ? & E); [done|done|intros ?%Z.ltb_lt; lia|intros ?%Z.ltb_ge; lia|intros; by apply insert_items|].
  exists p', r. split_and!; [done..|]. rewrite E. unfold new_line, spec_place. cbn [ps_items page_state].
  destruct (wf_linps p Hwf) as [Hn _]. rewrite page_items_length, Z2Nat.id by done.
  destruct (Z.gtb_spec off (PageGetMaxOffsetNumber p + 1)); [done|].
  destruct (Z.eqb_spec off (PageGetMaxOffsetNumber p + 1)), (Z.ltb_spec off (PageGetMaxOffsetNumber p + 1)); try lia; done.
Qed.

Lemma add_reuse p off :
  page_wf p -> 1 <= off <= PageGetMaxOffsetNumber p -> is_free (item p off) = true ->
  exists p' r, add_item_at p data (PageGetMaxOffsetNumber p + 1) off false flags = Ok (p', r) /\ page_wf p' /\
  (page_state p', r) = spec_place (page_state p) flags off false (Z.of_nat (length data))
    (<[Z.to_nat (off - 1) := Stored LP_NORMAL data]> (page_items p)).
Proof.
  intros Hwf Ho Hfr.
  destruct (add_item_at_ok p off false (<[Z.to_nat (off - 1) := Stored LP_NORMAL data]> (page_items p)))
    as (p' & r & ? & ? & E); [done|lia|done|done|intros; by apply reuse_items|].
  exists p', r. split_and!; [done..|]. rewrite E. unfold new_line. destruct (Z.eqb_spec off (PageGetMaxOffsetNumber p + 1)); [lia|done].
Qed.

Lemma PageAddItemExtended_ok p offnum :
  page_wf p -> 0 <= offnum ->
  exists p' r, PageAddItemExtended p data offnum flags = Ok (p', r) /\ page_wf p' /\
  (page_state p', r) = spec_add (page_state p) data offnum flags.
Proof.
  intros Hwf Ho. unfold PageAddItemExtended. rewrite wf_not_corrupted' by done. destruct (wf_linps p Hwf) as [Hn Hlow].
  assert (Hlim : OffsetNumberNext (PageGetMaxOffsetNumber p) = PageGetMaxOffsetNumber p + 1).
  { unfold OffsetNumberNext. rewrite uwrap_small; [lia|]. unfold in_uint. destruct Hwf. linp_lia. }
  rewrite Hlim. unfold add_item_slot, spec_add. cbn [ps_items ps_flags page_state]. rewrite page_items_length, Z2Nat.id by done.
  pose proof (add_new_line p (PageGetMaxOffsetNumber p + 1) Hwf ltac:(lia)) as Hnew.
  rewrite <- append_items, Z.ltb_irrefl in Hnew.
  destruct (OffsetNumberIsValid offnum) eqn:Hval.
  - assert (1 <= offnum) by (unfold OffsetNumberIsValid, InvalidOffsetNumber in Hval; zbool; lia).
    destruct (bit_set flags PAI_OVERWRITE); [|by apply add_new_line].
    destruct (Z.ltb_spec offnum (PageGetMaxOffsetNumber p + 1)).
    + rewrite wf_get_linp by (done || lia). cbn [mbind result_bind]. rewrite page_items_lookup by lia.
      assert (Hfr : ItemIdIsUsed (linp p offnum) || ItemIdHasStorage (linp p offnum) = negb (is_free (item p offnum))).
      { rewrite is_free_linp, negb_andb, !negb_involutive. done. }
      rewrite Hfr. destruct (is_free (item p offnum)) eqn:Hf; cbn [negb mbind result_bind]; [apply add_reuse; done || lia|by eexists _, _].
    + rewrite lookup_ge_None_2 by (rewrite page_items_length; lia). cbn [mbind result_bind].
      destruct (add_new_line p offnum) as (p' & r & E & ? & Es); [done|done|].
      rewrite (proj2 (Z.ltb_ge _ _)) in E by lia. exists p', r. split_and!; [done..|]. rewrite Es.
      rewrite take_ge, drop_ge by (rewrite page_items_length; lia). done.
  - unfold PageHasFreeLinePointers. destruct (bit_set (pd_flags p) PD_HAS_FREE_LINES); [|done].
    rewrite find_free_linp_spec by (done || lia). cbn [mbind result_bind]. change (drop (Z.to_nat (1 - 1)) (page_items p)) with (page_items p).
    pose proof (first_free_bound (page_items p)) as Hff. rewrite page_items_length in Hff.
    destruct (Nat.ltb_spec (first_free (page_items p)) (Z.to_nat (PageGetMaxOffsetNumber p))) as [Hlt|Hge].
    + rewrite Z.geb_leb, (proj2 (Z.leb_gt _ _)) by lia. cbn [mbind result_bind].
      rewrite (Z.add_comm 1). assert (Hk : Z.to_nat (Z.of_nat (first_free (page_items p)) + 1 - 1) = first_free (page_items p)) by lia.
      destruct (add_reuse p (Z.of_nat (first_free (page_items p)) + 1)) as (p' & r & ? & ? & E); [done|lia| |].
      { eapply first_free_free. rewrite <- page_items_lookup by lia. by rewrite Hk. }
      rewrite Hk in E. by exists p', r.
    + rewrite Z.geb_leb, (proj2 (Z.leb_le _ _)) by lia. cbn [mbind result_bind].
      replace (1 + Z.of_nat (first_free (page_items p))) with (PageGetMaxOffsetNumber p + 1) by lia.
      destruct (clear_hint_page p Hwf) as (Hwf' & Es & Em).
      pose proof (add_new_line _ (PageGetMaxOffsetNumber (PageClearHasFreeLinePointers p) + 1) Hwf' ltac:(lia)) as Hnew'.
      rewrite <- append_items, Z.ltb_irrefl, Em, Es in Hnew'.
      assert (Ei : page_items (PageClearHasFreeLinePointers p) = page_items p) by (apply (f_equal ps_items) in Es; done).
      rewrite Ei in Hnew'. done.
Qed.

End Add.
