(* ===== verification/PageCompact.v ===== *)
(** * Compaction of a page

    [compactify_tuples] moves the items to the end of the page, from the last
    one on, so that no move overwrites data that is still to be moved.  With
    it, [PageRepairFragmentation] and the scan of [PageIndexMultiDelete]. *)

From S2P Require Import Prelude Varlena HeapTuple HeapTupleProofs IndexTuple Sorting Page PageMem PageShift PageAdd.

(** ** The loop of [compactify_tuples] *)

(** Items in descending order that end before [hi] and do not overlap. *)
Fixpoint descending (hi : Z) (its : list itemIdSortData) : Prop :=
  match its with
  | [] => True
  | it :: its' => itemoff it + alignedlen it <= hi /\ descending (itemoff it) its'
  end.

Definition total_len (its : list itemIdSortData) : Z := foldr (fun it n => alignedlen it + n) 0 its.

Lemma total_len_perm its its' : Permutation its its' -> total_len its = total_len its'.
Proof. unfold total_len. induction 1; cbn; lia. Qed.

Lemma total_len_app its its' : total_len (its ++ its') = total_len its + total_len its'.
Proof. unfold total_len. induction its as [|it its IH]; cbn; lia. Qed.

Lemma total_len_nonneg its : Forall (fun it => 0 <= alignedlen it) its -> 0 <= total_len its.
Proof. unfold total_len. induction 1; cbn; lia. Qed.

(** They fit between [lo] and [hi]. *)
Lemma descending_total lo hi its :
  lo <= hi -> descending hi its -> Forall (fun it => lo <= itemoff it) its -> total_len its <= hi - lo.
Proof.
  intros Hl Hd Hf. revert hi Hl Hd. induction Hf as [|it its Hit Hf IH]; cbn; intros hi Hl; [lia|].
  intros [He Hd]. specialize (IH (itemoff it) Hit Hd). unfold total_len in IH. lia.
Qed.

Lemma descending_mono hi hi' its : descending hi its -> hi <= hi' -> descending hi' its.
Proof. destruct its as [|it its]; cbn; [done|]. intros [? ?] ?. split; [lia|done]. Qed.

Lemma descending_end hi its it :
  descending hi its -> Forall (fun it => 0 <= alignedlen it) its -> it ∈ its -> itemoff it + alignedlen it <= hi.
Proof.
  intros Hd Hf. revert hi Hd. induction Hf as [|it' its Hit Hf IH]; intros hi Hd Hin; [by apply not_elem_of_nil in Hin|].
  cbn in Hd. destruct Hd as [He Hd]. apply elem_of_cons in Hin as [-> |Hin]; [done|]. specialize (IH _ Hd Hin). lia.
Qed.

(** The page after the loop, which fills the space between [upper'] and
    [upper]: the items are there, as they were, and do not overlap. *)
Record compacted (p p' : Page) (its : list itemIdSortData) (upper upper' low : Z) : Prop := mkCompacted {
  cp_page : is_page p';
  cp_header : forall o m, 0 <= o -> o + m <= SizeOfPageHeaderData -> bytes_at p' o m = bytes_at p o m;
  cp_above : forall o m, upper <= o -> bytes_at p' o m = bytes_at p o m;
  cp_linp : forall i, 1 <= i -> linp_addr (i + 1) <= low -> (i - 1) ∉ map offsetindex its -> linp p' i = linp p i;
  cp_item : forall it, it ∈ its ->
    let lp := linp p' (offsetindex it + 1) in
    lp_flags lp = lp_flags (linp p (offsetindex it + 1)) /\ lp_len lp = lp_len (linp p (offsetindex it + 1)) /\
    upper' <= lp_off lp /\ lp_off lp mod 8 = 0 /\ lp_off lp + alignedlen it <= upper /\
    bytes_at p' (lp_off lp) (alignedlen it) = bytes_at p (itemoff it) (alignedlen it);
  cp_disjoint : forall it1 it2, it1 ∈ its -> it2 ∈ its -> offsetindex it1 <> offsetindex it2 ->
    let lp1 := linp p' (offsetindex it1 + 1) in let lp2 := linp p' (offsetindex it2 + 1) in
    lp_off lp1 + alignedlen it1 <= lp_off lp2 \/ lp_off lp2 + alignedlen it2 <= lp_off lp1
}.

(** What the loop needs of an entry: its item lies after the line pointers,
    of which one belongs to it. *)
Definition entry_ok (low : Z) (it : itemIdSortData) : Prop :=
  0 <= offsetindex it /\ linp_addr (offsetindex it + 2) <= low /\ low <= itemoff it /\
  0 <= alignedlen it /\ alignedlen it mod 8 = 0.

(** One turn. *)
Lemma compactify_step p it upper low :
  is_page p -> entry_ok low it -> itemoff it + alignedlen it <= upper -> upper <= BLCKSZ ->
  SizeOfPageHeaderData <= low ->
  exists p', (p ← memmove p (upper - alignedlen it) (itemoff it) (alignedlen it);
              set_lp_off p (offsetindex it + 1) (upper - alignedlen it)) = Ok p' /\ is_page p' /\
  (forall o m, 0 <= o -> o + m <= linp_addr (offsetindex it + 1) \/
     linp_addr (offsetindex it + 2) <= o /\ (o + m <= upper - alignedlen it \/ upper <= o) -> bytes_at p' o m = bytes_at p o m) /\
  bytes_at p' (upper - alignedlen it) (alignedlen it) = bytes_at p (itemoff it) (alignedlen it) /\
  linp p' (offsetindex it + 1) =
    mkItemId (upper - alignedlen it) (lp_flags (linp p (offsetindex it + 1))) (lp_len (linp p (offsetindex it + 1))).
Proof.
  intros Hp (? & Hl & ? & ? & ?) ? ? Hlow.
  destruct (memmove_page p (upper - alignedlen it) (itemoff it) (alignedlen it)) as (p1 & -> & Hp1 & F1 & M1); [done|linp_lia..|].
  cbn [mbind result_bind].
  destruct (set_lp_off_page p1 (offsetindex it + 1) (upper - alignedlen it)) as (p2 & -> & Hp2 & F2 & E2); [done|lia|linp_lia|].
  exists p2. split_and!; [done|done|..].
  - intros o m Ho Hd. rewrite F2 by linp_lia. apply F1; linp_lia.
  - rewrite F2 by linp_lia. rewrite M1 by lia. f_equal. lia.
  - rewrite E2, Z.mod_small by linp_lia. f_equal; f_equal; (eapply frame_linp; [exact F1|linp_lia..]).
Qed.

Lemma linp_bytes_same p p' i :
  (forall o m, linp_addr i <= o -> o + m <= linp_addr (i + 1) -> bytes_at p' o m = bytes_at p o m) -> linp p' i = linp p i.
Proof. intros H. unfold linp. rewrite H by linp_lia. done. Qed.

Lemma compactify_loop_ok its p upper low :
  is_page p -> SizeOfPageHeaderData <= low -> upper <= BLCKSZ -> upper mod 8 = 0 -> low <= upper ->
  descending upper its -> Forall (entry_ok low) its -> NoDup (map offsetindex its) ->
  exists p', compactify_loop its p upper = Ok (p', upper - total_len its) /\ low <= upper - total_len its /\
  compacted p p' its upper (upper - total_len its) low.
Proof.
  revert p upper. induction its as [|it its IH]; intros p upper Hp Hlow Hup H8 Hlu Hd Hf Hnd; cbn [compactify_loop].
  { exists p. replace (upper - total_len []) with upper by (cbn; lia). split_and!; [done|done|]. constructor; try done; [by intros ? ?%not_elem_of_nil|by intros ? ? ?%not_elem_of_nil]. }
  cbn in Hd. destruct Hd as [He Hd]. apply Forall_cons in Hf as [Hit Hf]. cbn in Hnd. apply NoDup_cons in Hnd as [Hni Hnd].
  destruct (compactify_step p it upper low) as (p1 & E1 & Hp1 & F1 & B1 & L1); [done..|].
  destruct Hit as (? & Hli & ? & ? & ?). set (u := upper - alignedlen it) in *.
  assert (Hod : forall it', it' ∈ its -> offsetindex it' <> offsetindex it).
  { intros it' Hin E. apply Hni. rewrite <- E. by apply list_elem_of_fmap_2. }
  assert (Hnn : Forall (fun it => 0 <= alignedlen it) its) by (eapply Forall_impl; [exact Hf|by intros x (? & ? & ? & ? & ?)]).
  rewrite Forall_forall in Hf.
  assert (Hlin : forall i, 1 <= i -> linp_addr (i + 1) <= low -> i <> offsetindex it + 1 -> linp p1 i = linp p i).
  { intros i Hi Hil Hne. apply linp_bytes_same. intros. apply F1; linp_lia. }
  destruct (IH p1 u) as (p' & E' & Hl' & [Cp Ch Ca Cl Ci Cd]);
    [done|done|linp_lia|unfold u; zlia|linp_lia|eapply descending_mono; [done|linp_lia]|by apply Forall_forall|done|].
  assert (Ht : upper - total_len (it :: its) = u - total_len its) by (unfold total_len, u; cbn; lia). rewrite Ht.
  assert (Hhead : linp p' (offsetindex it + 1) = linp p1 (offsetindex it + 1)).
  { apply Cl; [lia|linp_lia|]. rewrite Z.add_simpl_r. done. }
  exists p'. split_and!; [|done|].
  - revert E1. destruct (memmove p u (itemoff it) (alignedlen it)) as [q|]; [|done]. cbn [mbind result_bind]. by intros ->.
  - constructor.
    + done.
    + intros. rewrite Ch by done. apply F1; linp_lia.
    + intros. rewrite Ca by linp_lia. apply F1; linp_lia.
    + intros i Hi Hil Hn. cbn in Hn. apply not_elem_of_cons in Hn as [Hn1 Hn2]. rewrite Cl by done. apply Hlin; [done|done|lia].
    + intros it' [-> |Hin]%elem_of_cons.
      * cbv zeta. rewrite Hhead, L1. cbn [lp_off lp_len lp_flags]. split_and!; [done|done| |unfold u; zlia|lia|].
        -- pose proof (total_len_nonneg its Hnn). lia.
        -- rewrite Ca by lia. done.
      * specialize (Ci it' Hin). cbv zeta in Ci |- *. destruct (Hf it' Hin) as (? & ? & ? & ? & ?).
        rewrite (Hlin (offsetindex it' + 1)) in Ci by (linp_lia || (pose proof (Hod it' Hin); lia)).
        destruct Ci as (? & ? & ? & ? & ? & Eb). split_and!; [done..|lia|]. rewrite Eb.
        assert (itemoff it' + alignedlen it' <= itemoff it).
        { by apply (descending_end _ its). }
        apply F1; linp_lia.
    + intros it1 it2 [-> |Hi1]%elem_of_cons [-> |Hi2]%elem_of_cons Hne; cbv zeta.
      * done.
      * right. rewrite Hhead, L1. cbn [lp_off]. apply (Ci it2 Hi2).
      * left. rewrite Hhead, L1. cbn [lp_off]. apply (Ci it1 Hi1).
      * by apply Cd.
Qed.

(** ** The entries of a page *)

(** The entries for the items [i], ..., [i + n - 1] with storage. *)
Fixpoint entries (n : nat) (p : Page) (i : Z) : list itemIdSortData :=
  match n with
  | O => []
  | S n' =>
      (if ItemIdHasStorage (linp p i) then [mkItemIdSort (i - 1) (lp_off (linp p i)) (MAXALIGN (lp_len (linp p i)))] else [])
      ++ entries n' p (i + 1)
  end.

Definition page_entries (p : Page) : list itemIdSortData := entries (Z.to_nat (PageGetMaxOffsetNumber p)) p 1.

Lemma elem_of_entries n p i it :
  it ∈ entries n p i <-> exists j, i <= j < i + Z.of_nat n /\ ItemIdHasStorage (linp p j) = true /\
    it = mkItemIdSort (j - 1) (lp_off (linp p j)) (MAXALIGN (lp_len (linp p j))).
Proof.
  revert i. induction n as [|n IH]; intros i; cbn [entries].
  { split; [by intros ?%not_elem_of_nil|]. intros (j & ? & _). lia. }
  rewrite elem_of_app, IH. split.
  - intros [Hin|(j & ? & ?)]; [|exists j; split; [lia|done]]. exists i.
    destruct (ItemIdHasStorage (linp p i)) eqn:E; [|by apply not_elem_of_nil in Hin]. apply list_elem_of_singleton in Hin as ->.
    split_and!; [lia..|done|done].
  - intros (j & Hj & Hs & ->). destruct (Z.eq_dec j i) as [-> |]; [left|right].
    + rewrite Hs. by apply list_elem_of_singleton.
    + exists j. split_and!; [lia..|done|done].
Qed.

Lemma entries_index n p i it : it ∈ entries n p i -> i - 1 <= offsetindex it.
Proof. intros (j & ? & _ & ->)%elem_of_entries. cbn. lia. Qed.

Lemma entries_nodup n p i : NoDup (map offsetindex (entries n p i)).
Proof.
  revert i. induction n as [|n IH]; intros i; cbn [entries]; [constructor|].
  destruct (ItemIdHasStorage (linp p i)); cbn [app map]; [|done].
  constructor; [|done]. cbn. intros (it & E & Hin%entries_index)%list_elem_of_fmap. lia.
Qed.

(** Their total length is that of the items. *)
Definition used_space (items : list ItemView) : Z := foldr (fun v n => stored_len v + n) 0 items.

Lemma entries_total n p i :
  page_wf p -> 1 <= i -> i + Z.of_nat n = PageGetMaxOffsetNumber p + 1 ->
  total_len (entries n p i) = used_space (drop (Z.to_nat (i - 1)) (page_items p)).
Proof.
  intros Hwf. revert i. induction n as [|n IH]; intros i Hi Hn; cbn [entries].
  { rewrite drop_ge by (rewrite page_items_length; lia). done. }
  rewrite page_items_drop by lia. rewrite total_len_app, IH by lia. rewrite Z.add_simpl_r. cbn [used_space foldr].
  rewrite stored_len_item by (done || lia). unfold ItemIdHasStorage. destruct (Z.eqb_spec (lp_len (linp p i)) 0); cbn; unfold used_space; lia.
Qed.

Lemma page_entries_total p : page_wf p -> total_len (page_entries p) = used_space (page_items p).
Proof.
  intros Hwf. destruct (wf_linps p Hwf). unfold page_entries. rewrite entries_total by (done || lia). done.
Qed.

(** ** [compactify_tuples] *)

#[export] Instance itemoffcompare_preorder : Preorder_cmp itemoffcompare.
Proof. split; unfold itemoffcompare; lia. Qed.

(** What the entries of a page are. *)
Lemma page_entries_in p it :
  page_wf p -> it ∈ page_entries p ->
  exists i, 1 <= i <= PageGetMaxOffsetNumber p /\ lp_len (linp p i) <> 0 /\
  it = mkItemIdSort (i - 1) (lp_off (linp p i)) (MAXALIGN (lp_len (linp p i))) /\ stored_at p i.
Proof.
  intros Hwf (i & Hi & Hs & ->)%elem_of_entries. destruct (wf_linps p Hwf).
  assert (lp_len (linp p i) <> 0) by (unfold ItemIdHasStorage in Hs; zbool; done).
  exists i. split_and!; [lia..|done|done|]. apply wf_stored_at; [done|lia|done].
Qed.

Lemma page_entries_of p i :
  page_wf p -> 1 <= i <= PageGetMaxOffsetNumber p -> lp_len (linp p i) <> 0 ->
  mkItemIdSort (i - 1) (lp_off (linp p i)) (MAXALIGN (lp_len (linp p i))) ∈ page_entries p.
Proof.
  intros Hwf Hi Hl. apply elem_of_entries. exists i. split_and!; [lia..| |done].
  unfold ItemIdHasStorage. by rewrite (proj2 (Z.eqb_neq _ _) Hl).
Qed.

Lemma page_entry_ok p it : page_wf p -> it ∈ page_entries p -> entry_ok (pd_lower p) it /\ 0 < alignedlen it /\ itemoff it + alignedlen it <= pd_special p.
Proof.
  intros Hwf (i & Hi & Hl & -> & [? ? ? ? ? ?])%page_entries_in; [|done]. destruct (wf_linps p Hwf) as [? Hlow].
  pose proof (wf_lower_upper p Hwf). unfold entry_ok; cbn. split_and!; try lia. rewrite Hlow. linp_lia.
Qed.

Lemma page_entries_disjoint p a b :
  page_wf p -> a ∈ page_entries p -> b ∈ page_entries p -> offsetindex a <> offsetindex b ->
  itemoff a + alignedlen a <= itemoff b \/ itemoff b + alignedlen b <= itemoff a.
Proof.
  intros Hwf (i & Hi & Hli & -> & _)%page_entries_in (j & Hj & Hlj & -> & _)%page_entries_in Hne; [|done..]. cbn in *.
  apply (lay_disjoint _ _ _ _ (wf_layout p Hwf)); done || lia.
Qed.

(** Sorted entries that do not overlap are in descending order. *)
Lemma sorted_descending its hi :
  StronglySorted (cmp_le itemoffcompare) its -> NoDup (map offsetindex its) ->
  (forall a, a ∈ its -> 0 < alignedlen a /\ itemoff a + alignedlen a <= hi) ->
  (forall a b, a ∈ its -> b ∈ its -> offsetindex a <> offsetindex b ->
     itemoff a + alignedlen a <= itemoff b \/ itemoff b + alignedlen b <= itemoff a) ->
  descending hi its.
Proof.
  intros Hs. revert hi. induction Hs as [|a its Hs IH Ha]; intros hi Hnd He Hd; cbn; [done|].
  cbn in Hnd. apply NoDup_cons in Hnd as [Hni Hnd]. split; [apply He; left|].
  apply IH; [done| |intros; apply Hd; by try right].
  intros b Hb. split; [apply He; by right|].
  assert (Hab : offsetindex a <> offsetindex b) by (intros E; apply Hni; rewrite E; by apply list_elem_of_fmap_2).
  rewrite List.Forall_forall in Ha. specialize (Ha b (proj1 (list_elem_of_In _ _) Hb)). unfold cmp_le, itemoffcompare in Ha.
  destruct (Hd a b ltac:(left) ltac:(by right) Hab); [|done].
  destruct (He a ltac:(left)). lia.
Qed.

(** The page after the loop, with the new [pd_upper]. *)
Section Compacted.
Variables (p p' : Page) (upper' : Z).
#[local] Notation p2 := (set_pd_upper p' upper').
#[local] Notation n := (PageGetMaxOffsetNumber p).

Hypothesis Hwf : page_wf p.
Hypothesis Hcp : compacted p p' (page_entries p) (pd_special p) upper' (pd_lower p).
Hypothesis Hlo : pd_lower p <= upper'.
Hypothesis Hsp : upper' <= pd_special p.

Lemma compacted_header :
  keeps_header p p2 /\ frame p' p2 14 16 /\ pd_upper p2 = upper' /\ pd_lower p2 = pd_lower p /\ PageGetMaxOffsetNumber p2 = n /\
  forall i, 1 <= i -> linp p2 i = linp p' i.
Proof.
  destruct Hcp as [Cp Ch Ca _ _ _]. pose proof Hwf as [Hp ? ? ? ? ? ? ? ? _ _].
  assert (Hg : forall o, 0 <= o <= 22 -> get16 p' o = get16 p o) by (intros; unfold get16; rewrite Ch by linp_lia; done).
  assert (K : keeps_header p p').
  { constructor; [done|apply Ch; linp_lia|apply Hg; lia|apply Hg; lia|apply Ch; linp_lia|apply Ca; lia]. }
  destruct (set_upper_page p' upper') as (Hp2 & F2 & E2); [done|linp_lia|].
  assert (Hlo2 : pd_lower p2 = pd_lower p) by (transitivity (pd_lower p'); [eapply frame_get16; [exact F2|lia..]|apply Hg; lia]).
  split_and!; [by apply keeps_set_upper; [|linp_lia]|done..| |].
  - unfold PageGetMaxOffsetNumber. by rewrite Hlo2.
  - intros. eapply frame_linp; [exact F2|linp_lia..].
Qed.

Lemma compacted_bare i : 1 <= i <= n -> lp_len (linp p i) = 0 -> linp p2 i = linp p i.
Proof.
  intros Hi Hl. destruct compacted_header as (_ & _ & _ & _ & _ & Hlp). destruct (wf_linps p Hwf) as [Hn Hlow].
  rewrite Hlp by lia. apply (cp_linp _ _ _ _ _ _ Hcp); [lia|linp_lia|].
  intros (it & E & (j & _ & Hj & -> & _)%page_entries_in)%list_elem_of_fmap; [|done]. cbn in E. by replace j with i in Hj by lia.
Qed.

Lemma compacted_stored i :
  1 <= i <= n -> lp_len (linp p i) <> 0 ->
  lp_flags (linp p2 i) = lp_flags (linp p i) /\ lp_len (linp p2 i) = lp_len (linp p i) /\ upper' <= lp_off (linp p2 i) /\
  lp_off (linp p2 i) mod 8 = 0 /\ lp_off (linp p2 i) + MAXALIGN (lp_len (linp p i)) <= pd_special p /\
  bytes_at p2 (lp_off (linp p2 i)) (MAXALIGN (lp_len (linp p i))) = bytes_at p (lp_off (linp p i)) (MAXALIGN (lp_len (linp p i))).
Proof.
  intros Hi Hl. destruct compacted_header as (_ & F2 & _ & _ & _ & Hlp). pose proof (wf_lower p Hwf).
  pose proof (cp_item _ _ _ _ _ _ Hcp _ (page_entries_of p i Hwf Hi Hl)) as Hc. cbn [offsetindex alignedlen itemoff] in Hc. cbv zeta in Hc.
  rewrite Z.sub_simpl_r in Hc. rewrite Hlp by lia. destruct Hc as (? & ? & ? & ? & ? & <-). split_and!; try done.
  apply F2; linp_lia.
Qed.

Lemma compacted_layout : layout upper' (pd_special p) n (linp p2).
Proof.
  destruct compacted_header as (_ & _ & _ & _ & _ & Hlp). pose proof (wf_layout p Hwf) as L. constructor.
  - intros i Hi Hl. destruct (Z.eq_dec (lp_len (linp p i)) 0) as [E|Hl']; [by rewrite compacted_bare in Hl|].
    destruct (compacted_stored i Hi Hl') as (_ & -> & ? & ? & ? & _). pose proof (MAXALIGN_spec (lp_len (linp p i))). lia.
  - intros i j Hi Hj Hij Hli Hlj.
    destruct (Z.eq_dec (lp_len (linp p i)) 0) as [E|Hli']; [by rewrite compacted_bare in Hli|].
    destruct (Z.eq_dec (lp_len (linp p j)) 0) as [E|Hlj']; [by rewrite compacted_bare in Hlj|].
    destruct (compacted_stored i Hi Hli') as (_ & -> & _). destruct (compacted_stored j Hj Hlj') as (_ & -> & _).
    pose proof (cp_disjoint _ _ _ _ _ _ Hcp _ _ (page_entries_of p i Hwf Hi Hli') (page_entries_of p j Hwf Hj Hlj') ltac:(cbn; lia)) as Hd.
    cbn [offsetindex alignedlen] in Hd. cbv zeta in Hd. rewrite !Z.sub_simpl_r in Hd. by rewrite !Hlp by lia.
  - intros i Hi. destruct (Z.eq_dec (lp_len (linp p i)) 0) as [E|Hl']; [rewrite compacted_bare by done; by apply L|].
    destruct (compacted_stored i Hi Hl') as (-> & _). intros Hu. pose proof (lay_unused _ _ _ _ L i Hi Hu) as E. by rewrite E in Hl'.
Qed.

Lemma compacted_item i : 1 <= i <= n -> item p2 i = item p i.
Proof.
  intros Hi. destruct (Z.eq_dec (lp_len (linp p i)) 0) as [E|Hl']; [by unfold item, item_view; rewrite compacted_bare, E by done|].
  destruct (compacted_stored i Hi Hl') as (? & ? & ? & ? & ? & Hb). apply item_view_eq; [done|done|done|]. intros _.
  destruct (linp_ok p i) as (? & _ & ?). pose proof (MAXALIGN_spec (lp_len (linp p i))). pose proof (wf_lower p Hwf).
  eapply bytes_at_prefix; [| | |exact Hb]; linp_lia.
Qed.

Lemma compacted_ok :
  upper' mod 8 = 0 -> page_wf p2 /\ page_state p2 = ps_update (page_state p) (page_items p) (upper' - pd_lower p).
Proof.
  intros H8. destruct compacted_header as (K & _ & Eu & El & Em & _). destruct (wf_linps p Hwf) as [Hn _]. pose proof Hwf as [Hp ? ? ? ? ? ? ? ? _ _]. split.
  - eapply page_wf_update; [exact Hwf|exact K|..]; rewrite ?El, ?Eu, ?Em; try done; try lia. apply compacted_layout.
  - apply page_state_update; [done| |congruence].
    apply page_items_eq; rewrite Em; [rewrite page_items_length; lia|]. intros i Hi. rewrite page_items_lookup by done. by rewrite compacted_item.
Qed.

End Compacted.

Lemma used_space_mod8 items : used_space items mod 8 = 0.
Proof.
  unfold used_space. induction items as [|v items IH]; cbn; [done|].
  assert (stored_len v mod 8 = 0) by (destruct v as [|f d]; cbn; [done|]; apply MAXALIGN_spec). zlia.
Qed.

Section Repair.
Context `{Sorter}.

Lemma compactify_tuples_ok p :
  page_wf p ->
  exists p', compactify_tuples (page_entries p) p = Ok p' /\ page_wf p' /\ used_space (page_items p) <= pd_special p - pd_upper p /\
  page_state p' = ps_update (page_state p) (page_items p) (pd_special p - used_space (page_items p) - pd_lower p).
Proof.
  intros Hwf. pose proof Hwf as [Hp ? ? ? ? ? ? ? ? _ _]. unfold compactify_tuples.
  set (its := qsort_arg itemoffcompare (page_entries p)).
  assert (Hperm : Permutation its (page_entries p)) by apply qsort_arg_perm.
  assert (Hin : forall it, it ∈ its <-> it ∈ page_entries p) by (intros; by rewrite Hperm).
  assert (Hnd : NoDup (map offsetindex its)).
  { change (map ?f ?l) with (f <$> l). rewrite Hperm. apply entries_nodup. }
  assert (Hdesc : descending (pd_special p) its).
  { apply sorted_descending; [apply qsort_arg_sorted, _|done| |].
    - intros a Ha%Hin. destruct (page_entry_ok p a Hwf Ha) as (_ & ? & ?). done.
    - intros a b Ha%Hin Hb%Hin. by apply (page_entries_disjoint p). }
  assert (Ht : total_len its = used_space (page_items p)) by (rewrite (total_len_perm _ _ Hperm); by apply page_entries_total).
  assert (Hu : used_space (page_items p) <= pd_special p - pd_upper p).
  { rewrite <- Ht. apply descending_total; [done|done|]. apply Forall_forall. intros it Hit%Hin.
    by destruct (page_entries_in p it Hwf Hit) as (i & _ & _ & -> & [? ? ? ? ? ?]). }
  destruct (compactify_loop_ok its p (pd_special p) (pd_lower p)) as (p1 & -> & Hl & [Cp Ch Ca Cl Ci Cd]); [done|done|done|done|lia|done| |done|].
  { apply Forall_forall. intros it Hit%Hin. by apply page_entry_ok. }
  cbn [mbind result_bind]. rewrite Ht in *.
  destruct (compacted_ok p p1 (pd_special p - used_space (page_items p))) as [? ?]; [done| |done| | |].
  - constructor; try done.
    + intros i ? ? Hni. apply Cl; [done|done|]. change (map ?f ?l) with (f <$> l) in *. by rewrite Hperm.
    + intros it Hit%Hin. by apply Ci.
    + intros a b Ha%Hin Hb%Hin. by apply Cd.
  - rewrite <- Ht. enough (0 <= total_len its) by lia. apply total_len_nonneg, Forall_forall.
    intros it Hit%Hin. destruct (page_entry_ok p it Hwf Hit) as (_ & ? & _). lia.
  - pose proof (used_space_mod8 (page_items p)). zlia.
  - by exists (set_pd_upper p1 (pd_special p - used_space (page_items p))).
Qed.

(** ** [PageRepairFragmentation] *)

(** Writing the bytes that are there changes nothing. *)
Lemma put_same b o n : 0 <= o -> 0 <= n -> o + n <= Z.of_nat (length b) -> put b o (bytes_at b o n) = b.
Proof.
  intros. unfold put. rewrite bytes_at_length by lia. unfold bytes_at. rewrite <- drop_drop. by rewrite !take_drop.
Qed.

Lemma set_unused_same p i :
  is_page p -> 1 <= i -> linp_addr (i + 1) <= BLCKSZ -> linp p i = ItemIdSetUnused -> PageSetItemId p i ItemIdSetUnused = Ok p.
Proof.
  intros Hp Hi Ha E. unfold PageSetItemId. rewrite mem_write_page by (done || (cbn; linp_lia)). f_equal.
  rewrite <- (put_same p (linp_addr i) 4) at 2 by (destruct Hp; linp_lia). f_equal.
  assert (Hl : length (bytes_at p (linp_addr i) 4) = 4%nat) by (apply bytes_at_length; destruct Hp; linp_lia).
  pose proof (le_bytes_value (bytes_at p (linp_addr i) 4) (bytes_at_is_byte _ _ _ (proj2 Hp))) as Eb. rewrite Hl in Eb. rewrite <- Eb.
  unfold linp_bytes. f_equal. unfold linp in E. set (w := le_value (bytes_at p (linp_addr i) 4)) in *.
  assert (Hw : 0 <= w < 2 ^ 32).
  { pose proof (le_value_bytes 4 w) as Ev. rewrite Eb in Ev. fold w in Ev. rewrite Ev. apply Z.mod_pos_bound. lia. }
  unfold ItemId_of_word, ItemIdSetUnused, LP_UNUSED in E. injection E as E1 E2 E3. change (ItemId_word ItemIdSetUnused) with 0. zlia.
Qed.

Definition count_free (items : list ItemView) : Z := Z.of_nat (length (List.filter is_free items)).

Lemma repair_scan_ok n p i base nun tot :
  page_wf p -> 1 <= i -> i + Z.of_nat n = PageGetMaxOffsetNumber p + 1 ->
  Z.of_nat (length base) + Z.of_nat (length (entries n p i)) <= MaxHeapTuplesPerPage ->
  repair_scan n p (pd_upper p) (pd_special p) i base nun tot =
  Ok (p, base ++ entries n p i, nun + count_free (drop (Z.to_nat (i - 1)) (page_items p)), tot + total_len (entries n p i)).
Proof.
  intros Hwf. revert i base nun tot. induction n as [|n IH]; intros i base nun tot Hi Hn Hm; cbn [repair_scan entries].
  { rewrite drop_ge by (rewrite page_items_length; lia). rewrite app_nil_r. unfold count_free; cbn. do 3 f_equal; lia. }
  rewrite wf_get_linp by (done || lia). cbn [mbind result_bind]. rewrite page_items_drop by lia.
  cbn [entries] in Hm. rewrite length_app in Hm. unfold count_free. cbn [List.filter]. rewrite is_free_linp.
  destruct (ItemIdIsUsed (linp p i)) eqn:Hu; cbn [negb andb].
  - destruct (ItemIdHasStorage (linp p i)) eqn:Hs; cbn [app length] in *.
    + assert (Hl : lp_len (linp p i) <> 0) by (unfold ItemIdHasStorage in Hs; zbool; done).
      destruct (wf_stored_at p i Hwf ltac:(lia) Hl) as [? ? ? ? ? ?].
      rewrite Z.geb_leb, (proj2 (Z.leb_gt _ _)) by lia.
      rewrite (proj2 (Z.ltb_ge _ _)), Z.geb_leb, (proj2 (Z.leb_gt _ _)) by lia. cbn [orb]. cbv zeta.
      rewrite IH by (rewrite ?length_app; cbn [length]; lia). rewrite Z.add_simpl_r, <- app_assoc. cbn [app].
      unfold count_free, total_len. cbn [foldr alignedlen]. do 2 f_equal. lia.
    + rewrite IH by lia. by rewrite Z.add_simpl_r.
  - assert (E : linp p i = ItemIdSetUnused).
    { apply (lay_unused _ _ _ _ (wf_layout p Hwf)); [lia|]. unfold ItemIdIsUsed in Hu. zbool. done. }
    rewrite E. cbn [ItemIdHasStorage ItemIdSetUnused lp_len negb app Z.eqb length].
    pose proof (wf_linp_addr p i Hwf ltac:(lia)). pose proof Hwf as [Hp ? ? ? ? ? ? ? ? _ _].
    rewrite set_unused_same by (done || linp_lia). cbn [mbind result_bind].
    rewrite E in Hm. cbn in Hm. rewrite IH by lia. rewrite Z.add_simpl_r. unfold count_free. do 3 f_equal. lia.
Qed.

(** The number of items with storage. *)
Definition stored_count (items : list ItemView) : Z := Z.of_nat (length (List.filter has_storage items)).

Lemma entries_count n p i :
  1 <= i -> i + Z.of_nat n = PageGetMaxOffsetNumber p + 1 ->
  Z.of_nat (length (entries n p i)) = stored_count (drop (Z.to_nat (i - 1)) (page_items p)).
Proof.
  revert i. unfold stored_count. induction n as [|n IH]; intros i Hi Hn; cbn [entries].
  { rewrite drop_ge by (rewrite page_items_length; lia). done. }
  rewrite page_items_drop by lia. cbn [List.filter]. rewrite item_has_storage, length_app, Nat2Z.inj_add, IH, Z.add_simpl_r by lia.
  destruct (ItemIdHasStorage (linp p i)); cbn [length]; lia.
Qed.

Definition set_hint (flags : Z) (b : bool) : Z :=
  if b then Z.lor flags PD_HAS_FREE_LINES else Z.land flags (Z.lnot PD_HAS_FREE_LINES).

(** What remains of the space between the line pointers and the special space
    when the items are packed. *)
Definition packed_free (s : PageState) (items : list ItemView) : Z :=
  BLCKSZ - Z.of_nat (length (ps_special s)) - SizeOfPageHeaderData - sizeof_ItemIdData * Z.of_nat (length items) - used_space items.

Definition spec_repair (s : PageState) : PageState :=
  mkState (ps_lsn_checksum s) (set_hint (ps_flags s) (existsb is_free (ps_items s))) (ps_version_prune s)
    (ps_items s) (packed_free s (ps_items s)) (ps_special s).

Lemma count_free_pos items : (count_free items >? 0) = existsb is_free items.
Proof.
  unfold count_free. induction items as [|v items IH]; cbn; [done|]. destruct (is_free v); cbn [length]; [|done].
  rewrite Z.gtb_ltb. apply Z.ltb_lt. lia.
Qed.

Lemma packed_free_page p :
  page_wf p -> pd_special p - used_space (page_items p) - pd_lower p = packed_free (page_state p) (page_items p).
Proof.
  intros Hwf. unfold packed_free. cbn [ps_special page_state]. destruct (wf_linps p Hwf). destruct Hwf as [[? ?] ? ? ? ? ? ? ? ? _ _].
  rewrite bytes_at_length, page_items_length by linp_lia. linp_lia.
Qed.

Lemma PageRepairFragmentation_ok p :
  page_wf p -> stored_count (page_items p) <= MaxHeapTuplesPerPage ->
  exists p', PageRepairFragmentation p = Ok p' /\ page_wf p' /\ page_state p' = spec_repair (page_state p).
Proof.
  intros Hwf Hc. unfold PageRepairFragmentation. cbv zeta. rewrite wf_not_corrupted by done. destruct (wf_linps p Hwf) as [Hn _].
  assert (Hcnt : Z.of_nat (length (page_entries p)) = stored_count (page_items p)) by (unfold page_entries; rewrite entries_count by lia; done).
  rewrite repair_scan_ok by (done || unfold FirstOffsetNumber; cbn; unfold page_entries in Hcnt; lia).
  cbn [mbind result_bind app]. change FirstOffsetNumber with 1. fold (page_entries p). change (drop (Z.to_nat (1 - 1)) (page_items p)) with (page_items p).
  rewrite !Z.add_0_l, count_free_pos, page_entries_total by done.
  destruct (compactify_tuples_ok p Hwf) as (p1 & E1 & Hwf1 & Hu & Hs1). rewrite packed_free_page in Hs1 by done.
  assert (exists p2, (if (length (page_entries p) =? 0)%nat then Ok (set_pd_upper p (pd_special p))
    else if used_space (page_items p) >? pd_special p - pd_lower p then corrupted_item_lengths else compactify_tuples (page_entries p) p) = Ok p2 /\
    page_wf p2 /\ page_state p2 = ps_update (page_state p) (page_items p) (packed_free (page_state p) (page_items p))) as (p2 & -> & Hwf2 & Hs2).
  { destruct (Nat.eqb_spec (length (page_entries p)) 0) as [E|_].
    - apply length_zero_iff_nil in E. exists p1. rewrite E in E1. unfold compactify_tuples in E1.
      assert (Eq : qsort_arg itemoffcompare (@nil itemIdSortData) = []) by (apply Permutation_nil; symmetry; apply qsort_arg_perm).
      rewrite Eq in E1. cbn in E1. injection E1 as <-. done.
    - pose proof (wf_lower_upper p Hwf). rewrite Z.gtb_ltb, (proj2 (Z.ltb_ge _ _)) by lia. by exists p1. }
  cbn [mbind result_bind].
  destruct (set_flags_page p2 (set_hint (pd_flags p2) (existsb is_free (page_items p)))) as (Hwf3 & Hs3 & _); [done| |].
  { unfold set_hint. destruct (existsb _ _); apply hint_range, Hwf2. }
  rewrite Hs2 in Hs3. assert (Ef : pd_flags p2 = pd_flags p) by (apply (f_equal ps_flags) in Hs2; done). rewrite Ef in *.
  eexists. split_and!; [done| |].
  - unfold PageSetHasFreeLinePointers, PageClearHasFreeLinePointers. rewrite Ef. by destruct (existsb _ _).
  - transitivity (page_state (set_pd_flags p2 (set_hint (pd_flags p) (existsb is_free (page_items p))))); [|exact Hs3].
    unfold PageSetHasFreeLinePointers, PageClearHasFreeLinePointers, set_hint. rewrite Ef. by destruct (existsb _ _).
Qed.

End Repair.
