(* ===== verification/PageMulti.v ===== *)
(** * Deleting several items of a page

    [PageIndexMultiDelete] on well-formed pages: which items its scan keeps,
    the page with their line pointers, and its compaction; and that it does
    the same as deleting the items one by one. *)

From S2P Require Import Prelude Varlena HeapTuple HeapTupleProofs IndexTuple Sorting Page PageMem PageShift PageAdd PageCompact.

(** ** The scan *)

(** The elements of a list, numbered from [i], whose numbers are not the next
    one of [itemnos], and the item numbers that were not found. *)
Fixpoint multi_filter {A} (l : list A) (i : Z) (itemnos : list Z) : list A * list Z :=
  match l with
  | [] => ([], itemnos)
  | v :: l' =>
      match itemnos with
      | itemno :: itemnos' =>
          if i =? itemno then multi_filter l' (i + 1) itemnos'
          else let '(kept, missing) := multi_filter l' (i + 1) itemnos in (v :: kept, missing)
      | [] => let '(kept, missing) := multi_filter l' (i + 1) [] in (v :: kept, missing)
      end
  end.

Lemma multi_filter_map {A B} (f : A -> B) l i itemnos :
  multi_filter (map f l) i itemnos = (map f (multi_filter l i itemnos).1, (multi_filter l i itemnos).2).
Proof.
  revert i itemnos. induction l as [|v l IH]; intros i itemnos; [done|]. cbn [map multi_filter].
  destruct itemnos as [|x xs]; [|destruct (i =? x)]; rewrite ?IH; try done; destruct (multi_filter _ _ _); done.
Qed.

Lemma multi_filter_sublist {A} (l : list A) i itemnos : (multi_filter l i itemnos).1 `sublist_of` l.
Proof.
  revert i itemnos. induction l as [|v l IH]; intros i itemnos; cbn [multi_filter]; [done|].
  destruct itemnos as [|x xs]; [|destruct (i =? x); [by apply sublist_cons|]];
    match goal with |- context [multi_filter l ?j ?ys] => specialize (IH j ys); destruct (multi_filter l j ys) end; by apply sublist_skip.
Qed.

(** The entries for line pointers that will be at [k], [k + 1], ... *)
Fixpoint entries_from (k : Z) (lps : list ItemIdData) : list itemIdSortData :=
  match lps with
  | [] => []
  | lp :: lps' => mkItemIdSort k (lp_off lp) (MAXALIGN (lp_len lp)) :: entries_from (k + 1) lps'
  end.

(** The numbers of the items that are kept. *)
Definition kept_from (i : Z) (n : nat) (itemnos : list Z) : list Z := (multi_filter (seqZ i (Z.of_nat n)) i itemnos).1.
Definition missing_from (i : Z) (n : nat) (itemnos : list Z) : list Z := (multi_filter (seqZ i (Z.of_nat n)) i itemnos).2.

Lemma seqZ_S i n : seqZ i (Z.of_nat (S n)) = i :: seqZ (i + 1) (Z.of_nat n).
Proof. rewrite seqZ_cons by lia. f_equal. f_equal; lia. Qed.

Lemma multi_scan_ok n p i itemnos base news tot :
  page_wf p -> Forall (fun v => has_storage v = true) (page_items p) ->
  1 <= i -> i + Z.of_nat n = PageGetMaxOffsetNumber p + 1 ->
  Z.of_nat (length news) + Z.of_nat (length (kept_from i n itemnos)) <= MaxIndexTuplesPerPage ->
  multi_scan n p (pd_upper p) (pd_special p) i itemnos base news tot =
  Ok (missing_from i n itemnos, base ++ entries_from (Z.of_nat (length news)) (map (linp p) (kept_from i n itemnos)),
    news ++ map (linp p) (kept_from i n itemnos),
    tot + total_len (entries_from (Z.of_nat (length news)) (map (linp p) (kept_from i n itemnos)))).
Proof.
  intros Hwf Hst. revert i itemnos base news tot. induction n as [|n IH]; intros i itemnos base news tot Hi Hn Hm.
  { unfold total_len. cbn. by rewrite !app_nil_r, Z.add_0_r. }
  cbn [multi_scan]. rewrite wf_get_linp by (done || lia). cbn [mbind result_bind].
  rewrite wf_line_pointer by (try done; try lia; apply item_storage_len, all_stored; done || lia).
  unfold kept_from, missing_from in *. rewrite seqZ_S in *. cbn [multi_filter] in *.
  set (found := match itemnos with itemno :: _ => i =? itemno | [] => false end).
  assert (Hstep : multi_filter (i :: seqZ (i + 1) (Z.of_nat n)) i itemnos =
    if found then multi_filter (seqZ (i + 1) (Z.of_nat n)) (i + 1) (tail itemnos)
    else (i :: (multi_filter (seqZ (i + 1) (Z.of_nat n)) (i + 1) itemnos).1, (multi_filter (seqZ (i + 1) (Z.of_nat n)) (i + 1) itemnos).2)).
  { unfold found. cbn [multi_filter]. destruct itemnos as [|x xs]; [|destruct (i =? x); [done|]]; by destruct (multi_filter _ _ _). }
  cbn [multi_filter] in Hstep. rewrite Hstep in *. destruct found; cbn [fst snd map entries_from length] in *.
  - rewrite IH by (done || lia). done.
  - rewrite Z.geb_leb, (proj2 (Z.leb_gt _ _)) by lia. cbv zeta.
    rewrite IH by (try done; try lia; rewrite length_app; cbn [length]; lia).
    rewrite length_app, Nat2Z.inj_add. cbn [length]. rewrite <- !app_assoc. cbn [app]. unfold total_len. cbn [foldr alignedlen].
    change (Z.of_nat 1) with 1. by rewrite Z.add_assoc.
Qed.

(** ** The page with the line pointers that are kept *)

Lemma length_concat_linps lps : length (concat (map linp_bytes lps)) = (4 * length lps)%nat.
Proof. induction lps as [|lp lps IH]; cbn [map concat]; [done|]. rewrite length_app, IH. unfold linp_bytes. rewrite length_le_bytes. cbn [length]. lia. Qed.

Lemma concat_linps_at lps k lp :
  lps !! k = Some lp -> bytes_at (concat (map linp_bytes lps)) (4 * Z.of_nat k) 4 = linp_bytes lp.
Proof.
  revert k. induction lps as [|lp' lps IH]; intros k Hk; [done|]. cbn [map concat].
  assert (Hl : length (linp_bytes lp') = 4%nat) by apply length_le_bytes.
  destruct k as [|k]; cbn in Hk.
  - injection Hk as ->. rewrite bytes_at_app0; [done|]. by rewrite Hl.
  - rewrite <- (IH k Hk). apply bytes_at_ext; [lia..|]. intros i Hi. rewrite lookup_app_r by lia. f_equal. lia.
Qed.

Lemma linp_bytes_byte lps : Forall is_byte (concat (map linp_bytes lps)).
Proof. induction lps as [|lp lps IH]; cbn [map concat]; [constructor|]. apply Forall_app. split; [apply le_bytes_is_byte|done]. Qed.

Section Keep.
Variables (p : Page) (ks : list Z).
#[local] Notation lps := (map (linp p) ks).
#[local] Notation n' := (Z.of_nat (length ks)).

Hypothesis Hwf : page_wf p.
Hypothesis Hks : forall k, k ∈ ks -> 1 <= k <= PageGetMaxOffsetNumber p.
Hypothesis Hnd : NoDup ks.

Definition keep_page : Page :=
  set_pd_lower (put p SizeOfPageHeaderData (concat (map linp_bytes lps))) (SizeOfPageHeaderData + n' * sizeof_ItemIdData).

Lemma keep_fewer : n' <= PageGetMaxOffsetNumber p.
Proof.
  assert (Hs : ks ⊆+ seqZ 1 (PageGetMaxOffsetNumber p)).
  { apply NoDup_submseteq; [done|]. intros k Hk%Hks. apply elem_of_seqZ. lia. }
  apply submseteq_length in Hs. rewrite length_seqZ in Hs. destruct (wf_linps p Hwf). lia.
Qed.

Lemma keep_run :
  mem_write p SizeOfPageHeaderData (concat (map linp_bytes lps)) = Ok (put p SizeOfPageHeaderData (concat (map linp_bytes lps))).
Proof.
  destruct (wf_linps p Hwf). pose proof keep_fewer. pose proof Hwf as [Hp ? ? ? ? ? ? ? ? _ _].
  apply mem_write_page; [done|done|]. rewrite length_concat_linps, length_map. linp_lia.
Qed.

Lemma keep_facts :
  keeps_header p keep_page /\ pd_upper keep_page = pd_upper p /\ pd_lower keep_page = linp_addr (n' + 1) /\
  PageGetMaxOffsetNumber keep_page = n' /\
  (forall o m, pd_upper p <= o -> bytes_at keep_page o m = bytes_at p o m) /\
  forall i k, 1 <= i -> ks !! Z.to_nat (i - 1) = Some k -> linp keep_page i = linp p k.
Proof.
  destruct (wf_linps p Hwf) as [Hn Hlow]. pose proof keep_fewer. pose proof Hwf as [Hp ? ? ? ? ? ? ? ? _ _].
  assert (Hl : Z.of_nat (length (concat (map linp_bytes lps))) = 4 * n') by (rewrite length_concat_linps, length_map; lia).
  destruct (put_page p SizeOfPageHeaderData (concat (map linp_bytes lps))) as (Hp1 & F1 & M1); [done|apply linp_bytes_byte|done|linp_lia|].
  rewrite Hl in F1, M1. unfold keep_page. set (p1 := put p SizeOfPageHeaderData (concat (map linp_bytes lps))) in *.
  destruct (set_lower_page p1 (SizeOfPageHeaderData + n' * sizeof_ItemIdData)) as (Hp2 & F2 & E2); [done|linp_lia|].
  set (p2 := set_pd_lower p1 _) in *.
  assert (El : pd_lower p2 = linp_addr (n' + 1)) by (rewrite E2; linp_lia).
  split_and!; [|..|done| | |].
  - apply keeps_set_lower; [|linp_lia]. eapply keeps_frame; [..|exact F1| |]; done || linp_lia.
  - transitivity (pd_upper p1); (eapply frame_get16; [eassumption|linp_lia..]).
  - apply max_offset_of_lower; [lia|done].
  - intros. rewrite F2, F1 by linp_lia. done.
  - intros i k Hi Hk. pose proof (lookup_lt_Some _ _ _ Hk) as Hlt.
    transitivity (linp p1 i); [eapply frame_linp; [exact F2|linp_lia..]|]. unfold linp at 1. rewrite M1 by linp_lia.
    replace (linp_addr i - SizeOfPageHeaderData) with (4 * Z.of_nat (Z.to_nat (i - 1))) by linp_lia.
    rewrite (concat_linps_at _ _ (linp p k)) by (change (map ?f ?l) with (f <$> l); by rewrite list_lookup_fmap, Hk).
    unfold linp_bytes. rewrite le_value_bytes, Z.mod_small by (apply ItemId_word_range). apply ItemId_of_word_word, linp_ok.
Qed.

Lemma keep_ok :
  page_wf keep_page /\
  page_state keep_page = ps_update (page_state p) (map (item p) ks) (pd_upper p - linp_addr (n' + 1)).
Proof.
  destruct keep_facts as (K & Eu & El & Em & Kp & L). pose proof keep_fewer.
  destruct (wf_linps p Hwf) as [Hn Hlow]. pose proof Hwf as [Hp ? ? ? ? ? ? ? ? _ Ly].
  assert (Hk : forall i, 1 <= i <= n' -> exists k, ks !! Z.to_nat (i - 1) = Some k /\ linp keep_page i = linp p k /\ 1 <= k <= PageGetMaxOffsetNumber p).
  { intros i Hi. destruct (lookup_lt_is_Some_2 ks (Z.to_nat (i - 1))) as [k Ek]; [lia|].
    exists k. split_and!; [done|apply L; [lia|done]|..]; apply (Hks k); by eapply list_elem_of_lookup_2. }
  split.
  - eapply page_wf_update; [exact Hwf|exact K|..]; rewrite ?El, ?Eu, ?Em; try done; try linp_lia; [apply linp_addr_mod|]. constructor.
    + intros i Hi. destruct (Hk i Hi) as (k & _ & -> & Hb). by apply Ly.
    + intros i j Hi Hj Hij. destruct (Hk i Hi) as (k & Ek & -> & Hb), (Hk j Hj) as (k' & Ek' & -> & Hb'). apply Ly; [done..|].
      intros <-. apply Hij. pose proof (proj1 (NoDup_alt ks) Hnd _ _ _ Ek Ek'). lia.
    + intros i Hi. destruct (Hk i Hi) as (k & _ & -> & Hb). by apply Ly.
  - apply page_state_update; [done| |congruence]. apply page_items_eq; rewrite Em; [by rewrite length_map|].
    intros i Hi. destruct (Hk i Hi) as (k & Ek & Elp & Hb). change (map ?f ?l) with (f <$> l). rewrite list_lookup_fmap, Ek. cbn. f_equal.
    unfold item. rewrite Elp. apply item_view_eq; [done..|]. intros Hl. symmetry. apply Kp. apply (lay_in _ _ _ _ Ly k Hb Hl).
Qed.

End Keep.

(** Its entries are those of the scan. *)
Lemma entries_all_stored n p i :
  (forall j, i <= j < i + Z.of_nat n -> ItemIdHasStorage (linp p j) = true) ->
  entries n p i = entries_from (i - 1) (map (linp p) (seqZ i (Z.of_nat n))).
Proof.
  revert i. induction n as [|n IH]; intros i Hs; [done|]. cbn [entries]. rewrite Hs, IH by (intros; rewrite ?Hs; done || lia).
  rewrite seqZ_S. cbn [map entries_from app]. do 2 f_equal. lia.
Qed.

Lemma keep_entries p ks :
  page_wf p -> (forall k, k ∈ ks -> 1 <= k <= PageGetMaxOffsetNumber p) -> NoDup ks ->
  Forall (fun v => has_storage v = true) (page_items p) ->
  entries_from 0 (map (linp p) ks) = page_entries (keep_page p ks).
Proof.
  intros Hwf Hks Hnd Hst. destruct (keep_facts p ks Hwf Hks Hnd) as (_ & _ & _ & Em & _ & L).
  assert (E : map (linp (keep_page p ks)) (seqZ 1 (Z.of_nat (length ks))) = map (linp p) ks).
  { apply list_eq. intros k. change (map ?f ?l) with (f <$> l). rewrite !list_lookup_fmap.
    destruct (ks !! k) as [x|] eqn:Ek.
    - pose proof (lookup_lt_Some _ _ _ Ek). rewrite lookup_seqZ_lt by lia. cbn. f_equal. apply L; [lia|].
      by replace (Z.to_nat (1 + Z.of_nat k - 1)) with k by lia.
    - apply lookup_ge_None in Ek. by rewrite lookup_seqZ_ge by lia. }
  unfold page_entries. rewrite Em, Nat2Z.id, entries_all_stored, E; [done|].
  intros j Hj. destruct (lookup_lt_is_Some_2 ks (Z.to_nat (j - 1))) as [k Ek]; [lia|]. rewrite (L j k) by (done || lia).
  rewrite <- item_has_storage. apply all_stored; [done|]. apply Hks. by eapply list_elem_of_lookup_2.
Qed.

(** ** Specification *)

Definition spec_delete (s : PageState) (offnum : Z) : option PageState :=
  if offnum <=? 0 then None
  else match ps_items s !! Z.to_nat (offnum - 1) with
  | None => None
  | Some v => Some (ps_update s (delete (Z.to_nat (offnum - 1)) (ps_items s)) (ps_free s + sizeof_ItemIdData + stored_len v))
  end.

(** One by one, from the last item number to the first. *)
Definition spec_delete_all (s : PageState) (itemnos : list Z) : option PageState :=
  foldr (fun offnum os => s ← os; spec_delete s offnum) (Some s) itemnos.

Definition spec_multi (s : PageState) (itemnos : list Z) : option PageState :=
  if (length itemnos <=? 2)%nat then spec_delete_all s itemnos
  else match multi_filter (ps_items s) 1 itemnos with
  | (kept, []) => Some (ps_update s kept (packed_free s kept))
  | _ => None
  end.

Lemma delete_refines p offnum :
  page_wf p -> Forall (fun v => has_storage v = true) (page_items p) ->
  match spec_delete (page_state p) offnum with
  | Some s' => exists p', PageIndexTupleDelete p offnum = Ok p' /\ page_wf p' /\ page_state p' = s'
  | None => PageIndexTupleDelete p offnum = elog "invalid index offnum"
  end.
Proof.
  intros Hwf Hst. destruct (wf_linps p Hwf) as [Hn _]. unfold spec_delete. cbn [ps_items page_state].
  destruct (Z.leb_spec offnum 0).
  { unfold PageIndexTupleDelete. rewrite wf_not_corrupted by done. by rewrite (proj2 (Z.leb_le _ _)) by lia. }
  destruct (Z.le_gt_cases offnum (PageGetMaxOffsetNumber p)) as [Hle|Hgt].
  - rewrite page_items_lookup by lia. apply PageIndexTupleDelete_ok; [done|done|lia].
  - rewrite lookup_ge_None_2 by (rewrite page_items_length; lia). unfold PageIndexTupleDelete. rewrite wf_not_corrupted by done.
    destruct (Z.leb_spec offnum 0); [lia|]. by rewrite Z.gtb_ltb, (proj2 (Z.ltb_lt _ _)) by lia.
Qed.

Lemma spec_delete_stored s s' offnum :
  Forall (fun v => has_storage v = true) (ps_items s) -> spec_delete s offnum = Some s' -> Forall (fun v => has_storage v = true) (ps_items s').
Proof.
  unfold spec_delete. destruct (offnum <=? 0); [done|]. destruct (_ !! _); [|done]. intros Hst [= <-]. cbn. by apply Forall_delete.
Qed.

Lemma delete_each_app p l l' : delete_each p (l ++ l') = (p' ← delete_each p l; delete_each p' l').
Proof.
  revert p. induction l as [|x l IH]; intros p; [done|]. cbn [app delete_each]. destruct (PageIndexTupleDelete p x); [|done].
  cbn [mbind result_bind]. apply IH.
Qed.

Lemma delete_each_refines p itemnos :
  page_wf p -> Forall (fun v => has_storage v = true) (page_items p) ->
  match spec_delete_all (page_state p) itemnos with
  | Some s' => exists p', delete_each p (rev itemnos) = Ok p' /\ page_wf p' /\ page_state p' = s' /\ Forall (fun v => has_storage v = true) (page_items p')
  | None => delete_each p (rev itemnos) = elog "invalid index offnum"
  end.
Proof.
  intros Hwf Hst. induction itemnos as [|x xs IH]; cbn [spec_delete_all foldr rev]; [by exists p|]. rewrite delete_each_app.
  change (foldr _ (Some (page_state p)) xs) with (spec_delete_all (page_state p) xs).
  destruct (spec_delete_all (page_state p) xs) as [s|].
  - destruct IH as (p1 & -> & Hwf1 & <- & Hst1). cbn [mbind option_bind result_bind delete_each]. pose proof (delete_refines p1 x Hwf1 Hst1) as Hd.
    destruct (spec_delete (page_state p1) x) as [s'|] eqn:E.
    + destruct Hd as (p2 & -> & ? & <-). exists p2. cbn. split_and!; [done..|]. by apply (spec_delete_stored (page_state p1) (page_state p2) x).
    + by rewrite Hd.
  - cbn. by rewrite IH.
Qed.

Lemma page_items_seqZ p : page_items p = map (item p) (seqZ 1 (PageGetMaxOffsetNumber p)).
Proof.
  unfold page_items, seqZ. change (map ?f ?l) with (f <$> l). rewrite <- list_fmap_compose. apply list_fmap_ext.
  intros i x _. cbn. by rewrite Z.add_comm.
Qed.

Lemma all_stored_count items : Forall (fun v => has_storage v = true) items -> stored_count items = Z.of_nat (length items).
Proof.
  unfold stored_count. induction 1 as [|v items Hv _ IH]; [done|]. cbn [List.filter]. rewrite Hv. cbn [length]. lia.
Qed.

Section Multi.
Context `{Sorter}.

Lemma multi_refines p itemnos :
  page_wf p -> Forall (fun v => has_storage v = true) (page_items p) -> stored_count (page_items p) <= MaxIndexTuplesPerPage ->
  match spec_multi (page_state p) itemnos with
  | Some s' => exists p', PageIndexMultiDelete p itemnos = Ok p' /\ page_wf p' /\ page_state p' = s'
  | None => exists msg, PageIndexMultiDelete p itemnos = elog msg
  end.
Proof.
  intros Hwf Hst Hc. unfold spec_multi, PageIndexMultiDelete. destruct (length itemnos <=? 2)%nat.
  { pose proof (delete_each_refines p itemnos Hwf Hst) as Hd. destruct (spec_delete_all (page_state p) itemnos); [|by eexists].
    destruct Hd as (p' & ? & ? & ? & _). by exists p'. }
  cbv zeta. rewrite wf_not_corrupted by done. destruct (wf_linps p Hwf) as [Hn Hlow].
  set (n := PageGetMaxOffsetNumber p) in *. set (ks := kept_from 1 (Z.to_nat n) itemnos).
  assert (Hsub : ks `sublist_of` seqZ 1 n) by (unfold ks, kept_from; rewrite Z2Nat.id by done; apply multi_filter_sublist).
  assert (Hks : forall k, k ∈ ks -> 1 <= k <= n).
  { intros k Hk. apply sublist_submseteq in Hsub. eapply elem_of_submseteq in Hk; [|exact Hsub]. apply elem_of_seqZ in Hk. lia. }
  assert (Hnd : NoDup ks) by (eapply sublist_NoDup; [apply NoDup_seqZ|exact Hsub]).
  assert (Hle : Z.of_nat (length ks) <= MaxIndexTuplesPerPage).
  { pose proof (keep_fewer p ks Hwf Hks Hnd). rewrite all_stored_count, page_items_length in Hc by done. unfold n in *. lia. }
  rewrite multi_scan_ok by (try done; cbn [length]; unfold FirstOffsetNumber; fold ks; lia).
  unfold FirstOffsetNumber. fold ks. cbn [mbind result_bind app length]. change (Z.of_nat 0) with 0.
  cbn [ps_items page_state]. rewrite page_items_seqZ, multi_filter_map. fold n.
  assert (Em : (multi_filter (seqZ 1 n) 1 itemnos) = (ks, missing_from 1 (Z.to_nat n) itemnos)).
  { unfold ks, kept_from, missing_from. rewrite Z2Nat.id by done. by destruct (multi_filter _ _ _). }
  rewrite Em. cbn [fst snd]. destruct (missing_from 1 (Z.to_nat n) itemnos) as [|x xs]; cbn [length Nat.eqb negb]; [|by eexists].
  rewrite Z.add_0_l, keep_entries by done. destruct (keep_ok p ks Hwf Hks Hnd) as [Hwf1 Hs1].
  assert (Hi1 : page_items (keep_page p ks) = map (item p) ks) by (apply (f_equal ps_items) in Hs1; done).
  destruct (keep_facts p ks Hwf Hks Hnd) as ([_ _ _ Esp _ Esd] & Eu & El & _).
  destruct (compactify_tuples_ok _ Hwf1) as (p' & E & Hwf' & Hu & Hs'). rewrite Hi1, Esp, Eu in *.
  rewrite page_entries_total, Hi1 by done. pose proof (wf_lower_upper p Hwf).
  rewrite Z.gtb_ltb, (proj2 (Z.ltb_ge _ _)) by lia. rewrite keep_run by done. cbn [mbind result_bind]. rewrite length_map.
  fold (keep_page p ks). exists p'. split_and!; [done..|]. rewrite Hs', Hs1. unfold ps_update, packed_free. cbn [ps_special page_state ps_lsn_checksum ps_flags ps_version_prune].
  rewrite El, length_map. f_equal. rewrite bytes_at_length by (destruct Hwf as [[? ?] ? ? ? ? ? ? ? ? _ _]; linp_lia).
  destruct Hwf as [[? ?] ? ? ? ? ? ? ? ? _ _]. linp_lia.
Qed.

End Multi.

(** ** One by one

    The scan finds all item numbers when they are in ascending order, and then
    keeps what deleting the items from the last to the first leaves. *)

Fixpoint ascending (lo hi : Z) (l : list Z) : Prop :=
  match l with
  | [] => True
  | x :: xs => lo <= x <= hi /\ ascending (x + 1) hi xs
  end.

#[export] Instance ascending_dec lo hi l : Decision (ascending lo hi l).
Proof. revert lo. induction l as [|x xs IH]; intros lo; cbn; [by left|]. specialize (IH (x + 1)). solve_decision. Defined.

Lemma ascending_weaken lo lo' hi l : ascending lo hi l -> lo' <= lo -> ascending lo' hi l.
Proof. destruct l; cbn; [done|]. intros [? ?] ?. split; [lia|done]. Qed.

Lemma ascending_length lo hi l : ascending lo hi l -> l = [] \/ Z.of_nat (length l) <= hi - lo + 1.
Proof.
  revert lo. induction l as [|x xs IH]; intros lo; cbn [ascending length]; [by left|]. intros [? Ha]. right.
  destruct (IH _ Ha) as [-> |?]; cbn [length]; lia.
Qed.

Definition delete_positions {A} (i : Z) (l : list A) (itemnos : list Z) : list A :=
  foldr (fun x l => delete (Z.to_nat (x - i)) l) l itemnos.

Lemma delete_positions_cons {A} i (v : A) l itemnos hi :
  ascending (i + 1) hi itemnos -> delete_positions i (v :: l) itemnos = v :: delete_positions (i + 1) l itemnos.
Proof.
  unfold delete_positions. revert i. assert (G : forall lo i, i + 1 <= lo -> ascending lo hi itemnos ->
    foldr (fun x l => delete (Z.to_nat (x - i)) l) (v :: l) itemnos = v :: foldr (fun x l => delete (Z.to_nat (x - (i + 1))) l) l itemnos).
  { induction itemnos as [|x xs IH]; intros lo i Hlo; [done|]. cbn [ascending foldr]. intros [? Ha]. rewrite (IH (x + 1)) by (done || lia).
    replace (Z.to_nat (x - i)) with (S (Z.to_nat (x - (i + 1)))) by lia. done. }
  intros i. by apply G.
Qed.

Lemma multi_filter_ascending {A} (l : list A) i itemnos :
  ascending i (i + Z.of_nat (length l) - 1) itemnos -> multi_filter l i itemnos = (delete_positions i l itemnos, []).
Proof.
  revert i itemnos. induction l as [|v l IH]; intros i itemnos; cbn [length multi_filter].
  { destruct itemnos as [|x xs]; cbn; [done|lia]. }
  replace (i + Z.of_nat (S (length l)) - 1) with (i + 1 + Z.of_nat (length l) - 1) by lia.
  destruct itemnos as [|x xs]; cbn [ascending].
  { intros _. rewrite IH by done. done. }
  intros [? Ha]. destruct (Z.eqb_spec i x) as [<- |Hne].
  - rewrite IH by done. cbn [delete_positions foldr].
    change (foldr _ (v :: l) xs) with (delete_positions i (v :: l) xs). erewrite delete_positions_cons by done. by rewrite Z.sub_diag.
  - rewrite IH by (cbn [ascending]; split; [lia|done]). erewrite (delete_positions_cons i v l (x :: xs)); [done|].
    cbn [ascending]. split; [|exact Ha]. lia.
Qed.

Lemma multi_filter_missing {A} (l : list A) i itemnos :
  (multi_filter l i itemnos).2 = [] -> ascending i (i + Z.of_nat (length l) - 1) itemnos.
Proof.
  revert i itemnos. induction l as [|v l IH]; intros i itemnos; cbn [length multi_filter]; [by intros E; cbn in E; rewrite E|].
  replace (i + Z.of_nat (S (length l)) - 1) with (i + 1 + Z.of_nat (length l) - 1) by lia.
  destruct itemnos as [|x xs]; [done|]. destruct (Z.eqb_spec i x) as [<- |Hne].
  - intros Hm%IH. cbn [ascending]. split; [lia|done].
  - intros Hm. eapply (ascending_weaken (i + 1)); [|lia]. apply IH. by destruct (multi_filter l (i + 1) (x :: xs)).
Qed.

Lemma delete_positions_length {A} (l : list A) lo itemnos :
  1 <= lo -> ascending lo (Z.of_nat (length l)) itemnos ->
  Z.of_nat (length (delete_positions 1 l itemnos)) = Z.of_nat (length l) - Z.of_nat (length itemnos).
Proof.
  revert lo. induction itemnos as [|x xs IH]; intros lo Hlo; cbn [ascending]; [cbn; lia|]. intros [? Ha].
  cbn [delete_positions foldr]. change (foldr _ l xs) with (delete_positions 1 l xs). specialize (IH (x + 1) ltac:(lia) Ha).
  assert (Hl : Z.of_nat (length xs) <= Z.of_nat (length l) - x) by (destruct (ascending_length _ _ _ Ha) as [-> |]; cbn; lia).
  cbn [length]. rewrite length_delete; [lia|]. apply lookup_lt_is_Some_2. lia.
Qed.

Lemma used_space_delete items k v : items !! k = Some v -> used_space (delete k items) = used_space items - stored_len v.
Proof.
  revert k. induction items as [|u items IH]; intros k Hk; [done|]. destruct k as [|k]; cbn in Hk.
  - injection Hk as ->. unfold used_space. cbn. lia.
  - specialize (IH k Hk). unfold used_space in *. change (delete (S k) (u :: items)) with (u :: delete k items). cbn [foldr]. lia.
Qed.

(** A page without gaps between its items, which is what the operations on
    index pages keep. *)
Definition packed (s : PageState) : Prop := ps_free s = packed_free s (ps_items s).

Lemma packed_free_delete s items k v :
  items !! k = Some v -> packed_free s (delete k items) = packed_free s items + sizeof_ItemIdData + stored_len v.
Proof.
  intros Hk. pose proof (lookup_lt_Some _ _ _ Hk). unfold packed_free. rewrite (used_space_delete _ _ _ Hk), length_delete by (by eexists).
  unfold sizeof_ItemIdData. lia.
Qed.

Lemma spec_delete_all_packed s itemnos lo :
  packed s -> 1 <= lo -> ascending lo (Z.of_nat (length (ps_items s))) itemnos ->
  let items := delete_positions 1 (ps_items s) itemnos in
  spec_delete_all s itemnos = Some (ps_update s items (packed_free s items)).
Proof.
  intros Hp. revert lo. induction itemnos as [|x xs IH]; intros lo Hlo; cbn [ascending].
  { intros _. cbn. unfold packed in Hp. rewrite <- Hp. by destruct s. }
  intros [? Ha]. cbn [spec_delete_all foldr delete_positions]. change (foldr _ (Some s) xs) with (spec_delete_all s xs).
  change (foldr _ (ps_items s) xs) with (delete_positions 1 (ps_items s) xs).
  rewrite (IH (x + 1)) by (done || lia). cbn [mbind option_bind]. unfold spec_delete. rewrite (proj2 (Z.leb_gt _ _)) by lia.
  cbn [ps_items ps_update ps_free]. pose proof (delete_positions_length (ps_items s) (x + 1) xs ltac:(lia) Ha) as Hl.
  pose proof (ascending_length _ _ _ Ha) as Hx.
  destruct (lookup_lt_is_Some_2 (delete_positions 1 (ps_items s) xs) (Z.to_nat (x - 1))) as [v Ev].
  { destruct Hx as [-> |]; cbn [length] in *; lia. }
  rewrite Ev, (packed_free_delete s _ _ v Ev). done.
Qed.
