(* ===== verification/PageOps.v ===== *)
(** * Pages as a state machine

    The operations of bufpage.c and the macros of itemid.h that change line
    pointers, as steps on a page; their specification, on the contents of the
    page; and that the steps implement it.  Then pages with arbitrary contents. *)

From S2P Require Import Prelude Varlena HeapTuple HeapTupleProofs IndexTuple Sorting Page PageMem PageShift PageAdd PageCompact PageMulti.

Inductive PageOp : Type :=
| OpAdd (data : list Z) (offnum flags : Z)
| OpDelete (offnum : Z)
| OpMultiDelete (itemnos : list Z)
| OpDeleteNoCompact (offnum : Z)
| OpOverwrite (offnum : Z) (newtup : list Z)
| OpRepair
| OpSetUnused (offnum : Z)
| OpSetDead (offnum : Z)
| OpSetRedirect (offnum link : Z)
| OpMarkDead (offnum : Z).

(** The operation and its return value. *)
Definition run_op `{Sorter} (op : PageOp) (p : Page) : result (Page * Z) :=
  match op with
  | OpAdd data offnum flags => PageAddItemExtended p data offnum flags
  | OpDelete offnum => p ← PageIndexTupleDelete p offnum; Ok (p, 0)
  | OpMultiDelete itemnos => p ← PageIndexMultiDelete p itemnos; Ok (p, 0)
  | OpDeleteNoCompact offnum => p ← PageIndexTupleDeleteNoCompact p offnum; Ok (p, 0)
  | OpOverwrite offnum newtup => '(p, ok) ← PageIndexTupleOverwrite p offnum newtup; Ok (p, Z.b2z ok)
  | OpRepair => p ← PageRepairFragmentation p; Ok (p, 0)
  | OpSetUnused offnum => p ← PageSetItemId p offnum ItemIdSetUnused; Ok (p, 0)
  | OpSetDead offnum => p ← PageSetItemId p offnum ItemIdSetDead; Ok (p, 0)
  | OpSetRedirect offnum link => p ← PageSetItemId p offnum (ItemIdSetRedirect link); Ok (p, 0)
  | OpMarkDead offnum => lp ← PageGetItemId p offnum; p ← PageSetItemId p offnum (ItemIdMarkDead lp); Ok (p, 0)
  end.

(** ** Specification *)

(** [at_item s offnum f] applies [f] to the item, if there is one. *)
Definition at_item {A} (s : PageState) (offnum : Z) (f : ItemView -> option A) : option A :=
  if offnum <=? 0 then None else v ← ps_items s !! Z.to_nat (offnum - 1); f v.

Definition spec_nocompact (s : PageState) (offnum : Z) : option PageState :=
  at_item s offnum (fun v =>
    let k := Z.to_nat (offnum - 1) in
    if offnum <? Z.of_nat (length (ps_items s))
    then Some (ps_update s (<[k := Bare LP_UNUSED 0]> (ps_items s)) (ps_free s + stored_len v))
    else Some (ps_update s (delete k (ps_items s)) (ps_free s + sizeof_ItemIdData + stored_len v))).

Definition item_flags (v : ItemView) : Z := match v with Bare flags _ => flags | Stored flags _ => flags end.

Definition spec_overwrite (s : PageState) (offnum : Z) (newtup : list Z) : option (PageState * Z) :=
  at_item s offnum (fun v =>
    let need := MAXALIGN (Z.of_nat (length newtup)) in
    if need >? stored_len v + ps_free s then Some (s, 0)
    else Some (ps_update s (<[Z.to_nat (offnum - 1) := Stored (item_flags v) newtup]> (ps_items s)) (ps_free s + stored_len v - need), 1)).

(** Another view for an item; the space of what was there stays in use. *)
Definition spec_set (s : PageState) (offnum : Z) (f : ItemView -> ItemView) : option PageState :=
  at_item s offnum (fun v => Some (ps_update s (<[Z.to_nat (offnum - 1) := f v]> (ps_items s)) (ps_free s))).

Definition mark_dead (v : ItemView) : ItemView :=
  match v with Bare _ link => Bare LP_DEAD link | Stored _ data => Stored LP_DEAD data end.

Definition with_result {A} (o : option A) : option (A * Z) := a ← o; Some (a, 0).

Definition spec_op (op : PageOp) (s : PageState) : option (PageState * Z) :=
  match op with
  | OpAdd data offnum flags => Some (spec_add s data offnum flags)
  | OpDelete offnum => with_result (spec_delete s offnum)
  | OpMultiDelete itemnos => with_result (spec_multi s itemnos)
  | OpDeleteNoCompact offnum => with_result (spec_nocompact s offnum)
  | OpOverwrite offnum newtup => spec_overwrite s offnum newtup
  | OpRepair => Some (spec_repair s, 0)
  | OpSetUnused offnum => with_result (spec_set s offnum (fun _ => Bare LP_UNUSED 0))
  | OpSetDead offnum => with_result (spec_set s offnum (fun _ => Bare LP_DEAD 0))
  | OpSetRedirect offnum link => with_result (spec_set s offnum (fun _ => Bare LP_REDIRECT link))
  | OpMarkDead offnum => with_result (spec_set s offnum mark_dead)
  end.

(** What the callers promise: bytes for an item, item numbers of items with
    storage where the code asserts that, line pointers that exist, and not more
    items than the work arrays have room for. *)
Definition bytes_ok (data : list Z) : bool := forallb (fun b => (0 <=? b) && (b <? 256)) data && negb (length data =? 0)%nat.

Definition item_exists (s : PageState) (offnum : Z) : bool := (1 <=? offnum) && (offnum <=? Z.of_nat (length (ps_items s))).

Definition item_stored (s : PageState) (offnum : Z) : bool :=
  match ps_items s !! Z.to_nat (offnum - 1) with Some v => has_storage v | None => true end.

Definition op_ok (op : PageOp) (s : PageState) : bool :=
  match op with
  | OpAdd data offnum _ => bytes_ok data && (Z.of_nat (length data) <=? MaxAllocSize) && (0 <=? offnum)
  | OpDelete _ => forallb has_storage (ps_items s)
  | OpMultiDelete _ => forallb has_storage (ps_items s) && (stored_count (ps_items s) <=? MaxIndexTuplesPerPage)
  | OpDeleteNoCompact offnum => item_stored s offnum
  | OpOverwrite offnum newtup => item_stored s offnum && bytes_ok newtup
  | OpRepair => stored_count (ps_items s) <=? MaxHeapTuplesPerPage
  | OpSetUnused offnum | OpSetDead offnum | OpMarkDead offnum => item_exists s offnum
  | OpSetRedirect offnum link => item_exists s offnum && (0 <=? link) && (link <? 2 ^ 15)
  end.

(** ** Line pointers *)

Lemma set_linp_ok p i lp v :
  page_wf p -> 1 <= i <= PageGetMaxOffsetNumber p -> lp_ok lp ->
  (lp_len lp <> 0 -> lp_off lp = lp_off (linp p i) /\ lp_len lp = lp_len (linp p i)) ->
  (lp_flags lp = LP_UNUSED -> lp = ItemIdSetUnused) -> item_view p lp = v ->
  exists p', PageSetItemId p i lp = Ok p' /\ page_wf p' /\
  page_state p' = ps_update (page_state p) (<[Z.to_nat (i - 1) := v]> (page_items p)) (pd_upper p - pd_lower p).
Proof.
  intros Hwf Hi Hlp Hsame Hun <-. destruct (wf_linps p Hwf) as [Hn Hlow]. pose proof (wf_linp_addr p i Hwf ltac:(lia)).
  pose proof Hwf as [Hp ? ? ? ? ? ? ? ? _ L].
  destruct (PageSetItemId_page p i lp) as (p' & E & Hp' & F & El); [done|done|lia|linp_lia|]. exists p'. split; [done|].
  assert (K : keeps_header p p') by (eapply keeps_frame; [..|exact F| |]; done || linp_lia).
  assert (Eu : pd_upper p' = pd_upper p) by (eapply frame_get16; [exact F|linp_lia..]).
  assert (Elo : pd_lower p' = pd_lower p) by (eapply frame_get16; [exact F|linp_lia..]).
  assert (Em : PageGetMaxOffsetNumber p' = PageGetMaxOffsetNumber p) by (unfold PageGetMaxOffsetNumber; by rewrite Elo).
  assert (Eo : forall j, 1 <= j -> j <> i -> linp p' j = linp p j) by (intros; eapply frame_linp; [exact F|linp_lia..]).
  split.
  - eapply page_wf_update; [exact Hwf|exact K|..]; rewrite ?Eu, ?Elo, ?Em; try done. constructor.
    + intros j Hj. destruct (Z.eq_dec j i) as [-> |]; [|rewrite Eo by lia; by apply L]. rewrite El. intros Hl.
      destruct (Hsame Hl) as [-> E2]. rewrite E2 in *. by apply L.
    + assert (Hlen : forall j, 1 <= j <= PageGetMaxOffsetNumber p -> lp_len (linp p' j) <> 0 ->
        lp_off (linp p' j) = lp_off (linp p j) /\ lp_len (linp p' j) = lp_len (linp p j)).
      { intros j Hj. destruct (Z.eq_dec j i) as [-> |]; [rewrite El; exact Hsame|rewrite Eo by lia; done]. }
      intros j k Hj Hk Hjk Hlj Hlk. destruct (Hlen j Hj Hlj) as [-> E1], (Hlen k Hk Hlk) as [-> E2]. rewrite E1, E2 in *. by apply L.
    + intros j Hj. destruct (Z.eq_dec j i) as [-> |]; [by rewrite El|]. rewrite Eo by lia. by apply L.
  - apply page_state_update; [done| |congruence]. apply page_items_eq; rewrite Em; [rewrite length_insert, page_items_length; lia|].
    intros j Hj. assert (Hd : forall o m, pd_upper p <= o -> bytes_at p' o m = bytes_at p o m) by (intros; apply F; linp_lia).
    destruct (Z.eq_dec j i) as [-> |].
    + rewrite list_lookup_insert_eq by (rewrite page_items_length; lia). f_equal. unfold item. rewrite El. symmetry. apply item_view_eq; [done..|].
      intros Hl. destruct (Hsame Hl) as [-> E2]. rewrite E2 in *. apply Hd, (lay_in _ _ _ _ L i Hi Hl).
    + rewrite list_lookup_insert_ne by lia. rewrite page_items_lookup by done. f_equal. symmetry. apply item_same; [apply Eo; lia|].
      intros Hl. apply Hd, (lay_in _ _ _ _ L j Hj Hl).
Qed.

(** ** The steps implement the specification *)

Definition refines (m : result (Page * Z)) (o : option (PageState * Z)) : Prop :=
  match o with
  | Some (s', r) => exists p', m = Ok (p', r) /\ page_wf p' /\ page_state p' = s'
  | None => exists msg, m = elog msg
  end.

Lemma bytes_ok_spec data : bytes_ok data = true -> Forall is_byte data /\ data <> [].
Proof.
  unfold bytes_ok. intros [Hb Hl]%andb_true_iff. split; [|by intros ->].
  rewrite forallb_forall in Hb. apply List.Forall_forall. intros b Hin%Hb. unfold is_byte. zbool. lia.
Qed.

Lemma all_storage items : forallb has_storage items = true -> Forall (fun v => has_storage v = true) items.
Proof. intros H. apply List.Forall_forall. by apply forallb_forall. Qed.

(** An operation on an item that does not exist. *)
Lemma at_item_page {A} p offnum (f : ItemView -> option A) :
  page_wf p ->
  1 <= offnum <= PageGetMaxOffsetNumber p /\ at_item (page_state p) offnum f = f (item p offnum) \/
  (offnum <= 0 \/ PageGetMaxOffsetNumber p < offnum) /\ at_item (page_state p) offnum f = None.
Proof.
  intros Hwf. destruct (wf_linps p Hwf) as [Hn _]. unfold at_item. cbn [ps_items page_state].
  destruct (Z.leb_spec offnum 0); [right; split; [by left|done]|].
  destruct (Z.le_gt_cases offnum (PageGetMaxOffsetNumber p)).
  - left. rewrite page_items_lookup by lia. split; [lia|done].
  - right. rewrite lookup_ge_None_2 by (rewrite page_items_length; lia). split; [by right|done].
Qed.

Lemma invalid_offnum offnum n : offnum <= 0 \/ n < offnum -> (offnum <=? 0) || (offnum >? n) = true.
Proof. intros [?|?]; rewrite orb_true_iff; [left|right]; lia. Qed.

Lemma nocompact_refines p offnum :
  page_wf p -> item_stored (page_state p) offnum = true ->
  refines (p ← PageIndexTupleDeleteNoCompact p offnum; Ok (p, 0)) (with_result (spec_nocompact (page_state p) offnum)).
Proof.
  intros Hwf Hs. unfold spec_nocompact. cbv zeta.
  match goal with |- context [at_item _ _ ?f] => destruct (at_item_page p offnum f Hwf) as [[Ho ->]|[Ho ->]] end.
  - unfold item_stored in Hs. cbn [ps_items ps_free page_state] in *. rewrite page_items_lookup in Hs by done.
    destruct (wf_linps p Hwf) as [Hn _]. rewrite page_items_length, Z2Nat.id by done.
    destruct (PageIndexTupleDeleteNoCompact_ok p offnum Hwf Ho Hs) as (p' & -> & Hwf' & Hps). cbn [mbind result_bind]. cbv zeta.
    destruct (offnum <? PageGetMaxOffsetNumber p); cbn; by exists p'.
  - unfold PageIndexTupleDeleteNoCompact. rewrite wf_not_corrupted, invalid_offnum by done. by eexists.
Qed.

Lemma overwrite_refines p offnum newtup :
  page_wf p -> item_stored (page_state p) offnum = true -> bytes_ok newtup = true ->
  refines ('(p, ok) ← PageIndexTupleOverwrite p offnum newtup; Ok (p, Z.b2z ok)) (spec_overwrite (page_state p) offnum newtup).
Proof.
  intros Hwf Hs [Hb Hne]%bytes_ok_spec. unfold spec_overwrite. cbv zeta.
  match goal with |- context [at_item _ _ ?f] => destruct (at_item_page p offnum f Hwf) as [[Ho ->]|[Ho ->]] end.
  - unfold item_stored in Hs. cbn [ps_items ps_free page_state] in *. rewrite page_items_lookup in Hs by done.
    destruct (item p offnum) as [|flags data] eqn:Ei; [done|]. cbn [stored_len item_flags].
    destruct (PageIndexTupleOverwrite_ok p offnum newtup flags data Hwf Ho Ei Hb Hne) as (p' & b & -> & Hwf' & Hps). cbn [mbind result_bind].
    destruct (_ >? _); destruct Hps as [-> Hps]; cbn; [subst p'; by exists p|by exists p'].
  - unfold PageIndexTupleOverwrite. rewrite wf_not_corrupted, invalid_offnum by done. by eexists.
Qed.

Lemma set_refines p offnum lp f :
  page_wf p -> item_exists (page_state p) offnum = true -> lp_ok lp -> item_view p lp = f (item p offnum) ->
  (lp_len lp <> 0 -> lp_off lp = lp_off (linp p offnum) /\ lp_len lp = lp_len (linp p offnum)) ->
  (lp_flags lp = LP_UNUSED -> lp = ItemIdSetUnused) ->
  refines (p ← PageSetItemId p offnum lp; Ok (p, 0)) (with_result (spec_set (page_state p) offnum f)).
Proof.
  intros Hwf He Hlp Hv Hsame Hun. unfold item_exists in He. cbn [ps_items page_state] in He. destruct (wf_linps p Hwf) as [Hn _].
  rewrite page_items_length, Z2Nat.id in He by done. zbool. unfold spec_set.
  match goal with |- context [at_item _ _ ?g] => destruct (at_item_page p offnum g Hwf) as [[Ho ->]|[Ho _]] end; [|lia].
  destruct (set_linp_ok p offnum lp _ Hwf Ho Hlp Hsame Hun Hv) as (p' & -> & Hwf' & Hps). by exists p'.
Qed.

Lemma item_exists_range p offnum :
  page_wf p -> item_exists (page_state p) offnum = true -> 1 <= offnum <= PageGetMaxOffsetNumber p.
Proof.
  intros Hwf He. unfold item_exists in He. cbn [ps_items page_state] in He. destruct (wf_linps p Hwf) as [Hn _].
  rewrite page_items_length, Z2Nat.id in He by done. zbool. done.
Qed.

Section Steps.
Context `{Sorter}.

Lemma op_refines op p : page_wf p -> op_ok op (page_state p) = true -> refines (run_op op p) (spec_op op (page_state p)).
Proof.
  intros Hwf Hok. destruct op as [data offnum flags|offnum|itemnos|offnum|offnum newtup| |offnum|offnum|offnum link|offnum]; cbn [op_ok run_op spec_op] in *.
  - zbool. destruct (bytes_ok_spec data) as [Hb Hne]; [done|].
    destruct (PageAddItemExtended_ok data flags Hb Hne) with (p := p) (offnum := offnum) as (p' & r & -> & Hwf' & E); [done..|].
    rewrite <- E. by exists p'.
  - pose proof (delete_refines p offnum Hwf (all_storage _ Hok)) as Hd. destruct (spec_delete (page_state p) offnum); cbn.
    + destruct Hd as (p' & -> & ? & ?). by exists p'.
    + rewrite Hd. by eexists.
  - zbool. pose proof (multi_refines p itemnos Hwf (all_storage _ ltac:(done)) ltac:(done)) as Hd. destruct (spec_multi (page_state p) itemnos); cbn.
    + destruct Hd as (p' & -> & ? & ?). by exists p'.
    + destruct Hd as [msg ->]. by eexists.
  - by apply nocompact_refines.
  - zbool. by apply overwrite_refines.
  - zbool. destruct (PageRepairFragmentation_ok p Hwf) as (p' & -> & ? & ?); [done|]. by exists p'.
  - apply set_refines; try done; by repeat split.
  - apply set_refines; try done; by repeat split.
  - zbool. apply set_refines; try done; unfold ItemIdSetRedirect; rewrite Z.mod_small by done; by repeat split.
  - rewrite wf_get_linp by (try done; by apply item_exists_range). cbn [mbind result_bind]. destruct (linp_ok p offnum) as (? & ? & ?).
    apply set_refines; try done. unfold item, item_view; cbn. by destruct (_ =? 0).
Qed.

End Steps.

(** ** Pages with arbitrary contents

    The functions check the header and the line pointers that they use, so
    that on a corrupted page they report an error instead of touching memory
    outside the page.  This is shown for every page of [BLCKSZ] bytes. *)

(** The result of an operation is a page or an error that the code raises. *)
Definition safe (m : result Page) : Prop :=
  match m with Ok p => is_page p | Err e => err_code e <> UNDEFINED_BEHAVIOUR end.

(** The same with another value beside the page. *)
Definition safe_with {A} (m : result (Page * A)) : Prop := safe (fmap fst m).

Lemma safe_bind m (f : Page -> result Page) : safe m -> (forall p, m = Ok p -> is_page p -> safe (f p)) -> safe (m ≫= f).
Proof. destruct m as [p|e]; cbn; auto. Qed.

Lemma corrupted_page_safe : safe corrupted_page.
Proof. done. Qed.

(** What the checks of the header say. *)
Record header_ok (p : Page) : Prop := mkHeaderOk {
  ho_page : is_page p;
  ho_lower : SizeOfPageHeaderData <= pd_lower p;
  ho_upper : pd_lower p <= pd_upper p;
  ho_special : pd_upper p <= pd_special p;
  ho_blcksz : pd_special p <= BLCKSZ;
  ho_n : 0 <= PageGetMaxOffsetNumber p;
  ho_linps : linp_addr (PageGetMaxOffsetNumber p + 1) <= pd_lower p
}.

Lemma not_corrupted_ok p : is_page p -> page_pointers_corrupted p = false -> header_ok p.
Proof.
  intros Hp H. unfold page_pointers_corrupted in H. zbool.
  pose proof (MaxOffsetNumber_eq p ltac:(lia)) as E. constructor; try done; rewrite E; unfold linp_addr, SizeOfPageHeaderData, sizeof_ItemIdData in *; zlia.
Qed.

Lemma not_corrupted_aligned_ok p :
  is_page p -> page_pointers_corrupted_aligned p = false -> header_ok p /\ pd_special p mod 8 = 0.
Proof.
  intros Hp H. unfold page_pointers_corrupted_aligned in H. zbool. split; [by apply not_corrupted_ok|].
  pose proof (MAXALIGN_spec (pd_special p)). zlia.
Qed.

Lemma line_pointer_ok upper special offset size :
  line_pointer_corrupted upper special offset size = false -> special mod 8 = 0 ->
  upper <= offset /\ offset + size <= special /\ offset mod 8 = 0 /\ offset + MAXALIGN size <= special.
Proof.
  unfold line_pointer_corrupted. intros H H8. zbool. pose proof (MAXALIGN_spec offset). pose proof (MAXALIGN_spec size).
  split_and!; [lia|lia|zlia|zlia].
Qed.

Lemma header_get p i : header_ok p -> 1 <= i <= PageGetMaxOffsetNumber p -> PageGetItemId p i = Ok (linp p i).
Proof. intros [] Hi. apply PageGetItemId_page; [done|lia|linp_lia]. Qed.

(** ** Deletions *)

(** The part that follows the change of the line pointers. *)
Lemma move_safe p upper offset size :
  is_page p -> 0 <= upper <= offset -> 0 <= size -> offset + size <= BLCKSZ ->
  safe (if offset >? upper then memmove p (upper + size) upper (offset - upper) else Ok p).
Proof. intros. destruct (move_data_if p upper offset size) as (p' & -> & ? & _); done || lia. Qed.

Lemma shift_safe n test p offset delta b :
  is_page p -> linp_addr (1 + Z.of_nat n) <= BLCKSZ -> safe (if b : bool then shift_items n test p 1 offset delta else Ok p).
Proof. intros. destruct b; [|done]. destruct (shift_items_page n test p 1 offset delta) as (p' & -> & ? & _); done. Qed.

Lemma put16_is_page p o x : is_page p -> 0 <= o -> o + 2 <= BLCKSZ -> is_page (put16 p o x).
Proof. intros. by apply put16_page. Qed.

Lemma delete_safe p offnum : is_page p -> safe (PageIndexTupleDelete p offnum).
Proof.
  intros Hp. unfold PageIndexTupleDelete. destruct (page_pointers_corrupted_aligned p) eqn:Hc; [done|].
  destruct (not_corrupted_aligned_ok p Hp Hc) as [Hh H8]. cbv zeta.
  destruct ((offnum <=? 0) || (offnum >? PageGetMaxOffsetNumber p)) eqn:Ho; [done|]. zbool.
  rewrite header_get by (done || lia). cbn [mbind result_bind].
  destruct (line_pointer_corrupted _ _ _ _) eqn:Hlp; [done|]. destruct (line_pointer_ok _ _ _ _ Hlp H8) as (? & ? & ? & ?).
  destruct Hh as [_ ? ? ? ? ? ?]. pose proof (MAXALIGN_spec (lp_len (linp p offnum))). destruct (linp_ok p offnum) as (_ & _ & ?).
  set (size := MAXALIGN _) in *. set (offset := lp_off _) in *. set (n := PageGetMaxOffsetNumber p) in *.
  apply safe_bind.
  { destruct (Z.gtb_spec (pd_lower p - linp_addr (offnum + 1)) 0); [|done].
    destruct (memmove_page p (linp_addr offnum) (linp_addr (offnum + 1)) (pd_lower p - linp_addr (offnum + 1))) as (p' & -> & ? & _); done || linp_lia. }
  intros p1 E1 Hp1. assert (Eu : pd_upper p1 = pd_upper p).
  { revert E1. destruct (Z.gtb_spec (pd_lower p - linp_addr (offnum + 1)) 0); [|by intros [= ->]].
    destruct (memmove_page p (linp_addr offnum) (linp_addr (offnum + 1)) (pd_lower p - linp_addr (offnum + 1))) as (p' & -> & ? & F & _); [done|linp_lia..|].
    intros [= ->]. eapply frame_get16; [exact F|linp_lia..]. }
  rewrite Eu. apply safe_bind; [apply move_safe; done || linp_lia|]. intros p2 _ Hp2. apply shift_safe; [|linp_lia].
  apply put16_is_page; [apply put16_is_page|..]; done || (unfold BLCKSZ; lia).
Qed.

Lemma nocompact_safe p offnum : is_page p -> safe (PageIndexTupleDeleteNoCompact p offnum).
Proof.
  intros Hp. unfold PageIndexTupleDeleteNoCompact. destruct (page_pointers_corrupted_aligned p) eqn:Hc; [done|].
  destruct (not_corrupted_aligned_ok p Hp Hc) as [Hh H8]. cbv zeta.
  destruct ((offnum <=? 0) || (offnum >? PageGetMaxOffsetNumber p)) eqn:Ho; [done|]. zbool.
  rewrite header_get by (done || lia). cbn [mbind result_bind].
  destruct (line_pointer_corrupted _ _ _ _) eqn:Hlp; [done|]. destruct (line_pointer_ok _ _ _ _ Hlp H8) as (? & ? & ? & ?).
  destruct Hh as [_ ? ? ? ? ? ?]. pose proof (MAXALIGN_spec (lp_len (linp p offnum))). destruct (linp_ok p offnum) as (_ & _ & ?).
  set (size := MAXALIGN _) in *. set (offset := lp_off _) in *. set (n := PageGetMaxOffsetNumber p) in *.
  assert (exists p1 n1, (if offnum <? n then p' ← PageSetItemId p offnum ItemIdSetUnused; Ok (p', n)
    else Ok (set_pd_lower p (pd_lower p - sizeof_ItemIdData), n - 1)) = Ok (p1, n1) /\ is_page p1 /\ pd_upper p1 = pd_upper p /\ 0 <= n1 <= n)
    as (p1 & n1 & -> & Hp1 & Eu & Hn1).
  { destruct (Z.ltb_spec offnum n).
    - destruct (PageSetItemId_page p offnum ItemIdSetUnused) as (p1 & -> & Hp1 & F & _); [done|by repeat split|lia|linp_lia|].
      exists p1, n. split_and!; [done|done|eapply frame_get16; [exact F|linp_lia..]|lia|lia].
    - destruct (put16_page p 12 (pd_lower p - sizeof_ItemIdData)) as (Hp1 & F & _); [done|lia|unfold BLCKSZ; lia|].
      eexists _, _. split_and!; [done|done|eapply frame_get16; [exact F|lia..]|lia|lia]. }
  cbn [mbind result_bind]. rewrite Eu. apply safe_bind; [apply move_safe; done || linp_lia|]. intros p2 _ Hp2. apply shift_safe; [|linp_lia].
  apply put16_is_page; done || (unfold BLCKSZ; lia).
Qed.

Lemma overwrite_safe p offnum newtup :
  is_page p -> Forall is_byte newtup -> safe_with (PageIndexTupleOverwrite p offnum newtup).
Proof.
  intros Hp Hb. unfold safe_with, PageIndexTupleOverwrite. destruct (page_pointers_corrupted_aligned p) eqn:Hc; [done|].
  destruct (not_corrupted_aligned_ok p Hp Hc) as [Hh H8]. cbv zeta.
  destruct ((offnum <=? 0) || (offnum >? PageGetMaxOffsetNumber p)) eqn:Ho; [done|]. zbool.
  rewrite header_get by (done || lia). cbn [mbind result_bind].
  destruct (line_pointer_corrupted _ _ _ _) eqn:Hlp; [done|]. destruct (line_pointer_ok _ _ _ _ Hlp H8) as (? & ? & ? & ?).
  destruct Hh as [_ ? ? ? ? ? ?]. pose proof (MAXALIGN_spec (lp_len (linp p offnum))). destruct (linp_ok p offnum) as (_ & _ & ?).
  destruct (_ >? _) eqn:Hfit; [done|]. zbool. pose proof (MAXALIGN_spec (Z.of_nat (length newtup))).
  rewrite (swrap_small 32 (MAXALIGN (Z.of_nat (length newtup)))) by (unfold in_sint; linp_lia).
  set (diff := MAXALIGN _ - MAXALIGN _) in *. set (offset := lp_off _) in *. set (n := PageGetMaxOffsetNumber p) in *.
  destruct (overwrite_move p n offset diff) as (p1 & -> & K1 & U1 & Lo1 & _); try done; try linp_lia. cbn [mbind result_bind].
  destruct (overwrite_put p1 offnum n (offset + diff) newtup) as (p2 & -> & K2 & _);
    try done; try (rewrite ?(kh_special _ _ K1); linp_lia); [apply K1|]. apply K2.
Qed.

(** ** Adding an item *)

Lemma find_free_safe k p off limit :
  is_page p -> 1 <= off -> linp_addr limit <= BLCKSZ -> limit - off <= Z.of_nat k ->
  exists off', find_free_linp k p off limit = Ok off' /\ off <= off' /\ (off <= limit -> off' <= limit).
Proof.
  intros Hp. revert off. induction k as [|k IH]; intros off Ho Hl Hk; cbn [find_free_linp]; destruct (Z.ltb_spec off limit) as [Hlt|]; cbn [negb].
  - lia.
  - exists off. split_and!; [done|lia..].
  - rewrite PageGetItemId_page by (done || linp_lia). cbn [mbind result_bind].
    destruct (_ && _); [exists off; split_and!; [done|lia..]|]. destruct (IH (off + 1)) as (off' & -> & ? & ?); [lia..|]. exists off'. split_and!; [done|lia..].
  - exists off. split_and!; [done|lia..].
Qed.

Lemma add_at_safe p data limit off shuffle flags :
  header_ok p -> Forall is_byte data -> Z.of_nat (length data) <= MaxAllocSize -> limit = PageGetMaxOffsetNumber p + 1 ->
  1 <= off -> (shuffle = true -> off < limit) -> safe_with (add_item_at p data limit off shuffle flags).
Proof.
  intros [Hp ? ? ? ? ? ?] Hb Hsz -> Ho Hsh. unfold safe_with, add_item_at.
  destruct (Z.gtb_spec off (PageGetMaxOffsetNumber p + 1)); [done|]. destruct (bit_set flags PAI_IS_HEAP && _); [done|].
  pose proof (MAXALIGN_spec (Z.of_nat (length data))).
  rewrite (swrap_small 32 (MAXALIGN _)), swrap_small by (unfold in_sint, MaxAllocSize in *; linp_lia).
  set (n := PageGetMaxOffsetNumber p) in *. set (up := pd_upper p - MAXALIGN _) in *.
  destruct (Z.gtb_spec (if (off =? n + 1) || shuffle then pd_lower p + sizeof_ItemIdData else pd_lower p) up) as [|Hfit]; [done|].
  assert (Hoff : linp_addr (off + 1) <= up).
  { destruct (Z.eqb_spec off (n + 1)); cbn [orb] in Hfit; [linp_lia|]. destruct shuffle; linp_lia. }
  assert (Hsh' : (if shuffle then linp_addr (n + 2) else linp_addr (n + 1)) <= BLCKSZ).
  { destruct shuffle; [rewrite orb_true_r in Hfit|]; linp_lia. }
  destruct (shuffle_linps p off n shuffle) as (p1 & -> & Hp1 & _); [done|lia|done|intros E; specialize (Hsh E); lia|]. cbn [mbind result_bind].
  destruct (PageSetItemId_page p1 off (ItemIdSetNormal up (Z.of_nat (length data)))) as (p2 & -> & Hp2 & _); [done| |lia|linp_lia|].
  { unfold lp_ok, ItemIdSetNormal, LP_NORMAL; cbn. split_and!; try apply Z.mod_pos_bound; lia. }
  cbn [mbind result_bind]. rewrite mem_write_page by (done || linp_lia). cbn [mbind result_bind fmap result_fmap fst].
  apply put16_is_page; [apply put16_is_page|..]; try (unfold BLCKSZ; lia). apply put_page; done || linp_lia.
Qed.

Lemma add_safe p data offnum flags :
  is_page p -> Forall is_byte data -> Z.of_nat (length data) <= MaxAllocSize -> 0 <= offnum ->
  safe_with (PageAddItemExtended p data offnum flags).
Proof.
  intros Hp Hb Hsz Ho. unfold PageAddItemExtended. destruct (page_pointers_corrupted p) eqn:Hc; [done|].
  pose proof (not_corrupted_ok p Hp Hc) as Hh. pose proof Hh as [_ ? ? ? ? ? ?]. cbv zeta.
  assert (Hlim : OffsetNumberNext (PageGetMaxOffsetNumber p) = PageGetMaxOffsetNumber p + 1).
  { unfold OffsetNumberNext. rewrite uwrap_small; [lia|]. unfold in_uint. linp_lia. }
  rewrite Hlim. unfold add_item_slot. destruct (OffsetNumberIsValid offnum) eqn:Hval.
  - assert (1 <= offnum) by (unfold OffsetNumberIsValid, InvalidOffsetNumber in Hval; zbool; lia).
    destruct (bit_set flags PAI_OVERWRITE).
    + destruct (Z.ltb_spec offnum (PageGetMaxOffsetNumber p + 1)); [|by apply add_at_safe].
      rewrite header_get by (done || lia). cbn [mbind result_bind]. destruct (_ || _); [done|by apply add_at_safe].
    + apply add_at_safe; try done. intros ?%Z.ltb_lt. done.
  - destruct (PageHasFreeLinePointers p); [|apply add_at_safe; done || lia].
    destruct (find_free_safe (Z.to_nat (PageGetMaxOffsetNumber p + 1)) p 1 (PageGetMaxOffsetNumber p + 1)) as (off & -> & ? & ?); [done|lia|linp_lia|lia|].
    cbn [mbind result_bind]. destruct (off >=? _); [|by apply add_at_safe].
    destruct (put16_page p 10 (Z.land (pd_flags p) (Z.lnot PD_HAS_FREE_LINES))) as (Hp' & F & _); [done|lia|unfold BLCKSZ; lia|].
    assert (El : pd_lower (PageClearHasFreeLinePointers p) = pd_lower p) by (eapply frame_get16; [exact F|lia..]).
    assert (Em : PageGetMaxOffsetNumber (PageClearHasFreeLinePointers p) = PageGetMaxOffsetNumber p) by (unfold PageGetMaxOffsetNumber; by rewrite El).
    apply add_at_safe; try done; [|by rewrite Em].
    assert (Eu : pd_upper (PageClearHasFreeLinePointers p) = pd_upper p) by (eapply frame_get16; [exact F|lia..]).
    assert (Es : pd_special (PageClearHasFreeLinePointers p) = pd_special p) by (eapply frame_get16; [exact F|lia..]).
    constructor; rewrite ?El, ?Eu, ?Es, ?Em; done.
Qed.

(** ** Deleting several items *)

Lemma delete_each_safe p itemnos : is_page p -> safe (delete_each p itemnos).
Proof.
  revert p. induction itemnos as [|x xs IH]; intros p Hp; cbn [delete_each]; [done|].
  apply safe_bind; [by apply delete_safe|]. intros p' _ Hp'. by apply IH.
Qed.

(** An entry whose moves stay in the page. *)
Definition entry_safe (n special : Z) (it : itemIdSortData) : Prop :=
  0 <= offsetindex it < n /\ 0 <= itemoff it /\ 0 <= alignedlen it /\ itemoff it + alignedlen it <= special.

Lemma multi_scan_safe n p i itemnos base news tot :
  header_ok p -> pd_special p mod 8 = 0 -> 1 <= i -> i + Z.of_nat n = PageGetMaxOffsetNumber p + 1 ->
  Z.of_nat (length news) + Z.of_nat n <= MaxIndexTuplesPerPage ->
  match multi_scan n p (pd_upper p) (pd_special p) i itemnos base news tot with
  | Err e => err_code e <> UNDEFINED_BEHAVIOUR
  | Ok (_, base', news', tot') => exists es, base' = base ++ es /\ tot' = tot + total_len es /\
      Z.of_nat (length news) <= Z.of_nat (length news') <= Z.of_nat (length news) + Z.of_nat n /\
      Forall (entry_safe (Z.of_nat (length news')) (pd_special p)) es
  end.
Proof.
  intros Hh H8. revert i itemnos base news tot. induction n as [|n IH]; intros i itemnos base news tot Hi Hn Hm; cbn [multi_scan].
  { exists []. rewrite app_nil_r. unfold total_len; cbn. split_and!; [done|lia..|constructor]. }
  rewrite header_get by (done || lia). cbn [mbind result_bind]. cbv zeta.
  destruct (line_pointer_corrupted _ _ _ _) eqn:Hlp; [done|]. destruct (line_pointer_ok _ _ _ _ Hlp H8) as (? & ? & ? & ?).
  destruct (match itemnos with itemno :: _ => i =? itemno | [] => false end).
  - specialize (IH (i + 1) (tail itemnos) base news tot ltac:(lia) ltac:(lia) ltac:(lia)).
    destruct (multi_scan _ _ _ _ _ _ _ _ _) as [[[[m b] nw] t]|]; [|done]. destruct IH as (es & ? & ? & ? & ?). exists es. split_and!; [done..|lia|lia|done].
  - rewrite Z.geb_leb, (proj2 (Z.leb_gt _ _)) by lia.
    set (it := mkItemIdSort (Z.of_nat (length news)) (lp_off (linp p i)) (MAXALIGN (lp_len (linp p i)))).
    specialize (IH (i + 1) itemnos (base ++ [it]) (news ++ [linp p i]) (tot + alignedlen it) ltac:(lia) ltac:(lia)).
    rewrite length_app in IH. cbn [length] in IH. specialize (IH ltac:(lia)). cbn [alignedlen it] in IH.
    destruct (multi_scan _ _ _ _ _ _ _ _ _) as [[[[m b] nw] t]|]; [|done]. destruct IH as (es & -> & -> & ? & ?).
    exists (it :: es). rewrite <- app_assoc. unfold total_len. cbn [foldr alignedlen it app]. split_and!; [done|lia|lia|lia|].
    constructor; [|done]. destruct (linp_ok p i) as (? & _ & ?). pose proof (MAXALIGN_spec (lp_len (linp p i))). unfold entry_safe; cbn. lia.
Qed.

Lemma compactify_loop_safe its p n upper :
  is_page p -> Forall (entry_safe n BLCKSZ) its -> linp_addr (n + 1) <= BLCKSZ -> total_len its <= upper <= BLCKSZ ->
  exists p' u, compactify_loop its p upper = Ok (p', u) /\ is_page p'.
Proof.
  intros Hp Hf Hn. revert p upper Hp. induction Hf as [|it its (? & ? & ? & ?) Hf IH]; intros p upper Hp Hu; cbn [compactify_loop]; [by eexists _, _|].
  assert (Ht : total_len (it :: its) = alignedlen it + total_len its) by done.
  assert (0 <= total_len its) by (apply total_len_nonneg; eapply Forall_impl; [exact Hf|by intros x (? & ? & ? & ?)]). cbv zeta.
  destruct (memmove_page p (upper - alignedlen it) (itemoff it) (alignedlen it)) as (p1 & -> & Hp1 & _); [done|lia..|]. cbn [mbind result_bind].
  destruct (set_lp_off_page p1 (offsetindex it + 1) (upper - alignedlen it)) as (p2 & -> & Hp2 & _); [done|lia|linp_lia|]. cbn [mbind result_bind].
  apply IH; [done|lia].
Qed.

Lemma multi_safe `{Sorter} p itemnos :
  is_page p -> PageGetMaxOffsetNumber p <= MaxIndexTuplesPerPage -> safe (PageIndexMultiDelete p itemnos).
Proof.
  intros Hp Hmax. unfold PageIndexMultiDelete. destruct (length itemnos <=? 2)%nat; [by apply delete_each_safe|]. cbv zeta.
  destruct (page_pointers_corrupted_aligned p) eqn:Hc; [done|]. destruct (not_corrupted_aligned_ok p Hp Hc) as [Hh H8].
  pose proof Hh as [_ ? ? ? ? ? ?].
  pose proof (multi_scan_safe (Z.to_nat (PageGetMaxOffsetNumber p)) p FirstOffsetNumber itemnos [] [] 0 Hh H8 ltac:(done)
    ltac:(unfold FirstOffsetNumber; lia) ltac:(cbn [length]; lia)) as Hs.
  destruct (multi_scan _ _ _ _ _ _ _ _ _) as [[[[m its] news] tot]|e]; [|done]. destruct Hs as (es & -> & -> & Hl & Hf). cbn [mbind result_bind app].
  destruct (negb _); [done|]. destruct (_ >? _) eqn:Ht; [done|]. zbool. cbn [length] in Hl.
  assert (Hlen : Z.of_nat (length (concat (map linp_bytes news))) = 4 * Z.of_nat (length news)) by (rewrite length_concat_linps; lia).
  rewrite mem_write_page by (done || linp_lia). cbn [mbind result_bind].
  destruct (put_page p SizeOfPageHeaderData (concat (map linp_bytes news))) as (Hp1 & F1 & _); [done|apply linp_bytes_byte|done|linp_lia|].
  set (p1 := put _ _ _) in *. set (x := _ + _ * _). destruct (put16_page p1 12 x) as (Hp2 & F2 & _); [done|lia|unfold BLCKSZ; lia|].
  fold (set_pd_lower p1 x) in Hp2, F2. unfold compactify_tuples.
  assert (Es : pd_special (set_pd_lower p1 x) = pd_special p).
  { transitivity (pd_special p1); (eapply frame_get16; [eassumption|linp_lia..]). }
  destruct (compactify_loop_safe (qsort_arg itemoffcompare es) (set_pd_lower p1 x) (Z.of_nat (length news)) (pd_special (set_pd_lower p1 x)))
    as (p3 & u & -> & Hp3); [done| |linp_lia| |].
  - rewrite (qsort_arg_perm _ itemoffcompare es). eapply Forall_impl; [exact Hf|]. unfold entry_safe. intros it (? & ? & ? & ?). lia.
  - rewrite (total_len_perm _ _ (qsort_arg_perm _ itemoffcompare es)), Es. linp_lia.
  - cbn [mbind result_bind]. apply put16_is_page; done || (unfold BLCKSZ; lia).
Qed.
