(* ===== verification/PageTheorems.v ===== *)
(** * Page checksums and verification, and the theorems on pages

    [pg_checksum_page] of include/storage/checksum_impl.h, and
    [PageIsVerifiedExtended], [PageSetChecksumCopy] and
    [PageSetChecksumInplace] of bufpage.c.  Whether data checksums are enabled
    and [ignore_checksum_failure] are arguments. *)

From S2P Require Import Prelude Varlena HeapTuple HeapTupleProofs IndexTuple Sorting Page PageMem.
From S2P Require Import QSort PageShift PageAdd PageCompact PageMulti PageOps.

(** ** The checksum *)

Definition N_SUMS : nat := 32.
Definition FNV_PRIME : Z := 16777619.

Definition checksumBaseOffsets : list Z :=
  [0x5B1F36E9; 0xB8525960; 0x02AB50AA; 0x1DE66D2A;
   0x79FF467A; 0x9BB9F8A3; 0x217E7CD2; 0x83E13D2C;
   0xF8D4474F; 0xE39EB970; 0x42C6AE16; 0x993216FA;
   0x7B093B5D; 0x98DAFF3C; 0xF718902A; 0x0B1C9CDB;
   0xE58F764B; 0x187636BC; 0x5D7B3BB1; 0xE73DE7DE;
   0x92BEC979; 0xCCA6C0B2; 0x304A0979; 0x85AA43D4;
   0x783125BB; 0x6CA8EAA2; 0xE407EAC6; 0x4B5CFC3E;
   0x9FBF8C76; 0x15CA20BE; 0xF2CA9FD3; 0x959BD756].

Definition CHECKSUM_COMP (checksum value : Z) : Z :=
  let tmp := Z.lxor checksum value in
  Z.lxor (uwrap 32 (tmp * FNV_PRIME)) (Z.shiftr tmp 17).

(** Row [i] of the page as an array of 32-bit words. *)
Definition checksum_row (p : Page) (i : Z) : list Z :=
  map (fun j => le_value (bytes_at p (4 * (32 * i + Z.of_nat j)) 4)) (seq 0 N_SUMS).

(** The inner loop, over the columns. *)
Definition checksum_round (sums row : list Z) : list Z := zip_with CHECKSUM_COMP sums row.

Definition pg_checksum_block (p : Page) : Z :=
  let sums := checksumBaseOffsets in
  let sums := foldl (fun sums i => checksum_round sums (checksum_row p i)) sums (seqZ 0 (BLCKSZ ÷ (4 * 32))) in
  let sums := checksum_round sums (replicate N_SUMS 0) in
  let sums := checksum_round sums (replicate N_SUMS 0) in
  foldl Z.lxor 0 sums.

Definition pg_checksum_page (p : Page) (blkno : Z) : Z :=
  let checksum := pg_checksum_block (set_pd_checksum p 0) in
  let checksum := Z.lxor checksum blkno in
  uwrap 16 (checksum mod 65535 + 1).

(** ** Verification *)

Definition PIV_LOG_WARNING : Z := 1.
Definition PIV_REPORT_STAT : Z := 2.

(** The return value, whether a warning was logged, and whether the failure was
    reported to the statistics collector. *)
Record verify_result : Type := mkVerify { verified : bool; warned : bool; reported : bool }.

Definition header_sane (p : Page) : bool :=
  (Z.land (pd_flags p) (Z.lnot PD_VALID_FLAG_BITS) =? 0) && (pd_lower p <=? pd_upper p) && (pd_upper p <=? pd_special p) &&
  (pd_special p <=? BLCKSZ) && (pd_special p =? MAXALIGN (pd_special p)).

Definition all_zeroes (p : Page) : bool :=
  forallb (fun i => le_value (bytes_at p (8 * i) 8) =? 0) (seqZ 0 (BLCKSZ ÷ 8)).

Definition PageIsVerifiedExtended (checksums ignore_checksum_failure : bool) (p : Page) (blkno flags : Z) : verify_result :=
  let checksum_failure := negb (PageIsNew p) && checksums && negb (pg_checksum_page p blkno =? pd_checksum p) in
  let sane := negb (PageIsNew p) && header_sane p in
  if sane && negb checksum_failure then mkVerify true false false
  else if all_zeroes p then mkVerify true false false
  else if checksum_failure then
    let w := bit_set flags PIV_LOG_WARNING in
    let r := bit_set flags PIV_REPORT_STAT in
    if sane && ignore_checksum_failure then mkVerify true w r else mkVerify false w r
  else mkVerify false false false.

Definition PageIsVerified (checksums ignore_checksum_failure : bool) (p : Page) (blkno : Z) : verify_result :=
  PageIsVerifiedExtended checksums ignore_checksum_failure p blkno (Z.lor PIV_LOG_WARNING PIV_REPORT_STAT).

(** The page, and for the copy the bytes that the caller writes. *)
Definition PageSetChecksumInplace (checksums : bool) (p : Page) (blkno : Z) : Page :=
  if PageIsNew p || negb checksums then p else set_pd_checksum p (pg_checksum_page p blkno).

Definition PageSetChecksumCopy (checksums : bool) (p : Page) (blkno : Z) : list Z :=
  if PageIsNew p || negb checksums then p
  else
    let pageCopy := bytes_at p 0 BLCKSZ in
    set_pd_checksum pageCopy (pg_checksum_page pageCopy blkno).

(** ** Lemmas *)

Lemma put_put b o bs bs' :
  0 <= o -> o + Z.of_nat (length bs) <= Z.of_nat (length b) -> length bs = length bs' -> put (put b o bs) o bs' = put b o bs'.
Proof.
  intros Ho Hl E. unfold put. rewrite take_app_le by (rewrite length_take; lia). rewrite take_take, Nat.min_id. f_equal. f_equal.
  rewrite drop_app_ge by (rewrite length_take; lia). rewrite length_take, drop_app_ge by lia. rewrite drop_drop. f_equal. lia.
Qed.

(** The stored checksum does not enter into the checksum. *)
Lemma pg_checksum_set p x blkno : is_page p -> pg_checksum_page (set_pd_checksum p x) blkno = pg_checksum_page p blkno.
Proof.
  intros [Hl _]. unfold pg_checksum_page.
  enough (E : set_pd_checksum (set_pd_checksum p x) 0 = set_pd_checksum p 0) by (by rewrite E).
  unfold set_pd_checksum, put16. apply put_put; [lia| |done].
  rewrite length_le_bytes. unfold BLCKSZ in Hl. lia.
Qed.

Lemma pg_checksum_range p blkno : 1 <= pg_checksum_page p blkno <= 65535.
Proof.
  unfold pg_checksum_page. pose proof (Z.mod_pos_bound (Z.lxor (pg_checksum_block (set_pd_checksum p 0)) blkno) 65535 ltac:(lia)).
  rewrite uwrap_small; [lia|]. unfold in_uint. lia.
Qed.

(** What setting the checksum changes. *)
Lemma set_checksum_fields p x :
  is_page p -> 0 <= x < 2 ^ 16 ->
  is_page (set_pd_checksum p x) /\ frame p (set_pd_checksum p x) 8 10 /\ pd_checksum (set_pd_checksum p x) = x /\
  header_sane (set_pd_checksum p x) = header_sane p /\ PageIsNew (set_pd_checksum p x) = PageIsNew p.
Proof.
  intros Hp Hx. destruct (put16_page p 8 x) as (Hp' & F & E); [done|lia|unfold BLCKSZ; lia|]. rewrite Z.mod_small in E by lia.
  fold (set_pd_checksum p x) in Hp', F, E. split_and!; [done..| |].
  - unfold header_sane, pd_flags, pd_lower, pd_upper, pd_special. by rewrite !(frame_get16 _ _ _ _ _ F) by lia.
  - unfold PageIsNew, pd_upper. by rewrite (frame_get16 _ _ _ _ _ F) by lia.
Qed.

Lemma wf_header_sane p : page_wf p -> header_sane p = true /\ PageIsNew p = false.
Proof.
  intros []. unfold header_sane, PageIsNew. rewrite MAXALIGN_aligned, Z.eqb_refl by done.
  rewrite !(proj2 (Z.leb_le _ _)) by done. split; [|unfold SizeOfPageHeaderData in *; apply Z.eqb_neq; lia].
  rewrite !andb_true_r. apply Z.eqb_eq. unfold PD_VALID_FLAG_BITS in *.
  rewrite <- Z.ldiff_land. change 7 with (Z.ones 3). rewrite Z.ldiff_ones_r, Z.shiftr_div_pow2 by lia. rewrite Z.div_small by lia. done.
Qed.

Lemma verified_eq checksums ignore p blkno flags :
  verified (PageIsVerifiedExtended checksums ignore p blkno flags) =
  all_zeroes p || (negb (PageIsNew p) && header_sane p && (negb checksums || (pg_checksum_page p blkno =? pd_checksum p) || ignore)).
Proof.
  unfold PageIsVerifiedExtended.
  by destruct (PageIsNew p), (header_sane p), checksums, (all_zeroes p), ignore, (pg_checksum_page p blkno =? pd_checksum p).
Qed.

Lemma byte_list_ok bs : forallb (fun b => (0 <=? b) && (b <? 256)) bs = true -> Forall is_byte bs.
Proof. rewrite forallb_forall. intros H. apply List.Forall_forall. intros b Hb%H. unfold is_byte. zbool. lia. Qed.

(** ** Theorems *)

(** What verification accepts.  A page passes when it is all zeroes, or
    when it is initialized, its header is sane and its checksum, if checksums
    are enabled, is right or may be ignored; and a warning is logged only for a
    wrong checksum.  Setting the checksum of an initialized page with a sane
    header makes it pass, in place or in the copy that is written, with every
    other byte unchanged. *)
Theorem page_verification checksums ignore p blkno flags :
  is_page p ->
  (verified (PageIsVerifiedExtended checksums ignore p blkno flags) = true <->
   all_zeroes p = true \/
   PageIsNew p = false /\ header_sane p = true /\
     (checksums = false \/ pd_checksum p = pg_checksum_page p blkno \/ ignore = true)) /\
  (warned (PageIsVerifiedExtended checksums ignore p blkno flags) = true ->
   checksums = true /\ pd_checksum p <> pg_checksum_page p blkno) /\
  (PageIsNew p = false -> header_sane p = true ->
   PageIsVerifiedExtended checksums ignore (PageSetChecksumInplace checksums p blkno) blkno flags = mkVerify true false false /\
   frame p (PageSetChecksumInplace checksums p blkno) 8 10 /\
   PageSetChecksumCopy checksums p blkno = PageSetChecksumInplace checksums p blkno).
Proof.
  intros Hp. split_and!.
  - rewrite verified_eq, (Z.eqb_sym (pg_checksum_page p blkno)), !orb_true_iff, !andb_true_iff, !orb_true_iff, !negb_true_iff, Z.eqb_eq. tauto.
  - unfold PageIsVerifiedExtended. destruct (PageIsNew p), (header_sane p), checksums, (all_zeroes p), ignore;
      cbn [negb andb warned]; try (destruct (Z.eqb_spec (pg_checksum_page p blkno) (pd_checksum p))); cbn [negb andb warned]; try done; congruence.
  - intros Hn Hs. pose proof (pg_checksum_range p blkno) as Hr.
    assert (Ecopy : bytes_at p 0 BLCKSZ = p) by (apply bytes_at_all; symmetry; apply Hp).
    unfold PageSetChecksumInplace, PageSetChecksumCopy. rewrite Hn, Ecopy. cbn [orb].
    destruct checksums; cbn [negb]; [|split_and!; [by unfold PageIsVerifiedExtended; rewrite Hn, Hs|apply frame_refl|done]].
    destruct (set_checksum_fields p (pg_checksum_page p blkno)) as (Hp' & F & Ec & Eh & En); [done|lia|].
    split_and!; [|done|done]. unfold PageIsVerifiedExtended. rewrite En, Eh, Hn, Hs, Ec, pg_checksum_set, Z.eqb_refl by done. done.
Qed.

(** A page with one line pointer, read back with its checksum. *)
Definition checksum_example : Page := PageInit (replicate (Z.to_nat BLCKSZ) 0) BLCKSZ 16.

Lemma page_verification_witness :
  verified (PageIsVerifiedExtended true false checksum_example 7 0) = false /\
  PageIsVerifiedExtended true false (PageSetChecksumInplace true checksum_example 7) 7 0 = mkVerify true false false.
Proof.
  split; [by vm_compute|]. apply (page_verification true false checksum_example 7 0); [|by vm_compute..].
  split; [by vm_compute|]. apply byte_list_ok. by vm_compute.
Defined.

(** ** Theorems on buffer pages

    The invariant of the pages that the operations build, their refinement of
    the specification, the equivalence of the two ways to delete several
    items, the promise of the free space functions, and safety on corrupted
    pages. *)

(** ** [PageInit] *)

Definition init_state (specialSize : Z) : PageState :=
  mkState (replicate 10 0) 0 (le_bytes 2 (Z.lor BLCKSZ PG_PAGE_LAYOUT_VERSION) ++ [0; 0; 0; 0]) []
    (BLCKSZ - SizeOfPageHeaderData - MAXALIGN specialSize) (replicate (Z.to_nat (MAXALIGN specialSize)) 0).

Lemma bytes_at_zeros n o m : 0 <= o -> 0 <= m -> o + m <= Z.of_nat n -> bytes_at (replicate n 0) o m = replicate (Z.to_nat m) 0.
Proof. intros. unfold bytes_at. rewrite drop_replicate, take_replicate. f_equal. lia. Qed.

(** Setting the header of a page of zeros. *)
Lemma init_header p0 specialSize (sp := BLCKSZ - MAXALIGN specialSize) :
  is_page p0 -> (forall o m, 0 <= o -> 0 <= m -> o + m <= BLCKSZ -> bytes_at p0 o m = replicate (Z.to_nat m) 0) ->
  0 <= specialSize -> MAXALIGN specialSize + SizeOfPageHeaderData <= BLCKSZ ->
  let p5 := PageSetPageSizeAndVersion (set_pd_special (set_pd_upper (set_pd_lower (set_pd_flags p0 0) SizeOfPageHeaderData) sp) sp)
    BLCKSZ PG_PAGE_LAYOUT_VERSION in
  is_page p5 /\ pd_flags p5 = 0 /\ pd_lower p5 = SizeOfPageHeaderData /\ pd_upper p5 = sp /\ pd_special p5 = sp /\
  pd_pagesize_version p5 = Z.lor BLCKSZ PG_PAGE_LAYOUT_VERSION /\
  bytes_at p5 18 6 = le_bytes 2 (Z.lor BLCKSZ PG_PAGE_LAYOUT_VERSION) ++ [0; 0; 0; 0] /\
  forall o m, 0 <= o -> 0 <= m -> o + m <= 10 \/ 20 <= o -> o + m <= BLCKSZ -> bytes_at p5 o m = replicate (Z.to_nat m) 0.
Proof.
  intros Hp0 Hz Hs Hm. cbv zeta. pose proof (MAXALIGN_spec specialSize) as [Hal H8]. assert (24 <= sp <= 8192) by (unfold sp; linp_lia).
  destruct (put16_page p0 10 0) as (Hp1 & F1 & E1); [done|lia|unfold BLCKSZ; lia|].
  destruct (set_lower_page (set_pd_flags p0 0) SizeOfPageHeaderData) as (Hp2 & F2 & E2); [done|done|].
  destruct (set_upper_page (set_pd_lower (set_pd_flags p0 0) SizeOfPageHeaderData) sp) as (Hp3 & F3 & E3); [done|lia|].
  destruct (put16_page (set_pd_upper (set_pd_lower (set_pd_flags p0 0) SizeOfPageHeaderData) sp) 16 sp) as (Hp4 & F4 & E4); [done|lia|unfold BLCKSZ; lia|].
  destruct (put16_page (set_pd_special (set_pd_upper (set_pd_lower (set_pd_flags p0 0) SizeOfPageHeaderData) sp) sp) 18 (Z.lor BLCKSZ PG_PAGE_LAYOUT_VERSION))
    as (Hp5 & F5 & E5); [done|lia|unfold BLCKSZ; lia|].
  rewrite Z.mod_small in E1, E4 by lia. fold (set_pd_flags p0 0) in *. set (p1 := set_pd_flags p0 0) in *. set (p2 := set_pd_lower p1 _) in *.
  set (p3 := set_pd_upper p2 _) in *. fold (set_pd_special p3 sp) in *. set (p4 := set_pd_special p3 _) in *.
  fold (PageSetPageSizeAndVersion p4 BLCKSZ PG_PAGE_LAYOUT_VERSION) in *. set (p5 := PageSetPageSizeAndVersion p4 BLCKSZ PG_PAGE_LAYOUT_VERSION) in *.
  assert (F : forall o m, 0 <= o -> 0 <= m -> o + m <= 10 \/ 20 <= o -> o + m <= BLCKSZ -> bytes_at p5 o m = replicate (Z.to_nat m) 0).
  { intros. rewrite F5, F4, F3, F2, F1 by lia. by apply Hz. }
  split_and!; [done|..|done].
  - rewrite <- E1. transitivity (pd_flags p4); [eapply frame_get16; [exact F5|lia..]|]. transitivity (pd_flags p3); [eapply frame_get16; [exact F4|lia..]|].
    transitivity (pd_flags p2); (eapply frame_get16; [eassumption|lia..]).
  - rewrite <- E2. transitivity (pd_lower p4); [eapply frame_get16; [exact F5|lia..]|]. transitivity (pd_lower p3); (eapply frame_get16; [eassumption|lia..]).
  - rewrite <- E3. transitivity (pd_upper p4); (eapply frame_get16; [eassumption|lia..]).
  - rewrite <- E4. eapply frame_get16; [exact F5|lia..].
  - done.
  - change 6 with (2 + 4). rewrite bytes_at_split by (destruct Hp5; unfold BLCKSZ in *; lia). rewrite (F (18 + 2) 4) by (unfold BLCKSZ; lia).
    f_equal. unfold p5, PageSetPageSizeAndVersion, put16.
    rewrite bytes_at_put_in by (rewrite ?length_le_bytes; destruct Hp4; unfold BLCKSZ in *; lia). rewrite Z.sub_diag. by apply bytes_at_all.
Qed.

Lemma PageInit_page p specialSize :
  Z.of_nat (length p) = BLCKSZ -> 0 <= specialSize -> MAXALIGN specialSize + SizeOfPageHeaderData <= BLCKSZ ->
  page_wf (PageInit p BLCKSZ specialSize) /\ page_state (PageInit p BLCKSZ specialSize) = init_state specialSize.
Proof.
  intros Hl Hs Hm. pose proof (MAXALIGN_spec specialSize) as [Hal H8].
  assert (E0 : put p 0 (replicate (Z.to_nat BLCKSZ) 0) = replicate (Z.to_nat BLCKSZ) 0).
  { unfold put. rewrite length_replicate. cbn [Z.to_nat take app]. rewrite drop_ge by (cbn [Nat.add]; lia). apply app_nil_r. }
  destruct (init_header (replicate (Z.to_nat BLCKSZ) 0) specialSize) as (Hp & Ef & El & Eu & Es & Ev & E18 & F); [|..|done|done|].
  { split; [rewrite length_replicate; unfold BLCKSZ; lia|]. apply Forall_replicate. unfold is_byte. lia. }
  { intros. apply bytes_at_zeros; [done|done|]. unfold BLCKSZ in *. lia. }
  unfold PageInit. rewrite E0. set (p5 := PageSetPageSizeAndVersion _ _ _) in *. clearbody p5. clear E0.
  assert (Em : PageGetMaxOffsetNumber p5 = 0) by (unfold PageGetMaxOffsetNumber; by rewrite El). split.
  - constructor; rewrite ?Ef, ?El, ?Eu, ?Es, ?Em; try done; try linp_lia; try (unfold BLCKSZ; zlia). constructor; intros; lia.
  - unfold page_state, init_state. rewrite Ef, El, Eu, Es, E18, !F by (unfold BLCKSZ in *; lia).
    assert (Ei : page_items p5 = []) by (unfold page_items; by rewrite Em). rewrite Ei. f_equal; [lia|].
    rewrite F by linp_lia. f_equal. lia.
Qed.

(** ** Refinement *)

(** C22: Pages implement their specification.  On a well-formed page, with the
    arguments that the callers promise, every operation of bufpage.c and every
    macro that changes a line pointer does what [spec_op] says of the sequence of
    items, the free space, the flags and the special space: it returns the value
    given there and leaves a well-formed page with these contents, or it raises an
    error exactly when the specification has no result.  Items that the
    operation is not about keep their bytes wherever they are moved, and nothing
    else of the header changes. *)
Theorem page_operations_refine `{S : Sorter} op p :
  page_wf p -> op_ok op (page_state p) = true ->
  match spec_op op (page_state p) with
  | Some (s', r) => exists p', @run_op S op p = Ok (p', r) /\ page_wf p' /\ page_state p' = s'
  | None => exists msg, @run_op S op p = elog msg
  end.
Proof. exact (@op_refines S op p). Qed.

(** A page with three items, of 3, 8 and 17 bytes. *)
Definition example_page : Page :=
  match (p ← PageAddItem (PageInit (replicate (Z.to_nat BLCKSZ) 0) BLCKSZ 16) [1; 2; 3] 0 false false;
         p ← PageAddItem p.1 (replicate 8 7) 1 false false;
         PageAddItem p.1 (replicate 17 9) 0 false false) with
  | Ok (p, _) => p
  | Err _ => []
  end.

(** ** The invariant *)

(** The pages that the operations build. *)
Inductive reachable `{S : Sorter} : Page -> Prop :=
| reach_init p specialSize :
    Z.of_nat (length p) = BLCKSZ -> 0 <= specialSize -> MAXALIGN specialSize + SizeOfPageHeaderData <= BLCKSZ ->
    reachable (PageInit p BLCKSZ specialSize)
| reach_step p op p' r :
    reachable p -> op_ok op (page_state p) = true -> @run_op S op p = Ok (p', r) -> reachable p'.

Lemma reachable_wf `{S : Sorter} p : @reachable S p -> page_wf p.
Proof.
  induction 1 as [p specialSize Hl Hs Hm|p op p' r _ IH Hok E]; [by apply PageInit_page|].
  pose proof (@op_refines S op p IH Hok) as Hr. unfold refines in Hr. destruct (spec_op op (page_state p)) as [[s' r']|].
  - destruct Hr as (p1 & E1 & Hwf & _). congruence.
  - destruct Hr as [msg E1]. rewrite E1 in E. discriminate.
Qed.

(** C23: The invariant of pages.  Every page that [PageInit] and any sequence of
    operations build is well-formed: the header fields are in order and
    aligned, every item with storage lies between [pd_upper] and [pd_special], no
    two items overlap, and unused line pointers are zero.  The space is
    accounted for: header, line pointers, free space, items and special space
    together never exceed the page.  Such a page passes verification when it
    is read back without checksums. *)
Theorem page_invariant `{S : Sorter} p :
  @reachable S p ->
  page_wf p /\
  SizeOfPageHeaderData + sizeof_ItemIdData * Z.of_nat (length (page_items p)) + PageGetExactFreeSpace p
    + used_space (page_items p) + (BLCKSZ - pd_special p) <= BLCKSZ /\
  forall ignore blkno, PageIsVerified false ignore p blkno = mkVerify true false false.
Proof.
  intros Hr. pose proof (reachable_wf p Hr) as Hwf. destruct (wf_linps p Hwf) as [Hn Hlow]. split_and!; [done| |].
  - destruct (@compactify_tuples_ok S p Hwf) as (_ & _ & _ & Hu & _). rewrite page_items_length, Z2Nat.id by done.
    unfold PageGetExactFreeSpace. pose proof (wf_lower_upper p Hwf). destruct (Z.ltb_spec (pd_upper p - pd_lower p) 0); linp_lia.
  - intros ignore blkno. destruct (wf_header_sane p Hwf) as [Hs Hnew]. unfold PageIsVerified, PageIsVerifiedExtended. by rewrite Hs, Hnew.
Qed.

Lemma example_page_reachable : reachable example_page.
Proof.
  apply (reach_step (match (p ← PageAddItem (PageInit (replicate (Z.to_nat BLCKSZ) 0) BLCKSZ 16) [1; 2; 3] 0 false false;
                            PageAddItem p.1 (replicate 8 7) 1 false false) with Ok (p, _) => p | Err _ => [] end)
           (OpAdd (replicate 17 9) 0 0) example_page 3).
  - apply (reach_step (match PageAddItem (PageInit (replicate (Z.to_nat BLCKSZ) 0) BLCKSZ 16) [1; 2; 3] 0 false false with Ok (p, _) => p | Err _ => [] end)
             (OpAdd (replicate 8 7) 1 0) _ 1).
    + apply (reach_step (PageInit (replicate (Z.to_nat BLCKSZ) 0) BLCKSZ 16) (OpAdd [1; 2; 3] 0 0) _ 1).
      * by apply reach_init.
      * by vm_compute.
      * by vm_compute.
    + by vm_compute.
    + by vm_compute.
  - by vm_compute.
  - by vm_compute.
Qed.

Lemma page_operations_refine_witness :
  spec_op (OpDelete 2) (page_state example_page) =
    Some (ps_update (page_state example_page) [Stored 1 (replicate 8 7); Stored 1 (replicate 17 9)] 8112, 0) /\
  exists p', run_op (OpDelete 2) example_page = Ok (p', 0) /\ page_wf p' /\
    page_state p' = ps_update (page_state example_page) [Stored 1 (replicate 8 7); Stored 1 (replicate 17 9)] 8112.
Proof.
  assert (E : spec_op (OpDelete 2) (page_state example_page) =
    Some (ps_update (page_state example_page) [Stored 1 (replicate 8 7); Stored 1 (replicate 17 9)] 8112, 0)) by (by vm_compute).
  split; [exact E|].
  pose proof (page_operations_refine (OpDelete 2) example_page (reachable_wf _ example_page_reachable) ltac:(by vm_compute)) as H.
  rewrite E in H. exact H.
Defined.

Lemma page_invariant_witness : page_wf example_page /\ PageGetExactFreeSpace example_page = 8100.
Proof. split; [apply (page_invariant example_page), example_page_reachable|by vm_compute]. Defined.

(** ** Deleting several items *)

(** Item numbers in ascending order, on a page without gaps. *)
Lemma multi_delete_packed `{S : Sorter} p itemnos :
  page_wf p -> Forall (fun v => has_storage v = true) (page_items p) -> Z.of_nat (length (page_items p)) <= MaxIndexTuplesPerPage ->
  packed (page_state p) -> ascending 1 (Z.of_nat (length (page_items p))) itemnos ->
  let items := delete_positions 1 (page_items p) itemnos in
  exists p1 p2, @PageIndexMultiDelete S p itemnos = Ok p1 /\ delete_each p (rev itemnos) = Ok p2 /\ page_wf p1 /\ page_wf p2 /\
  page_state p1 = ps_update (page_state p) items (packed_free (page_state p) items) /\
  page_state p2 = ps_update (page_state p) items (packed_free (page_state p) items).
Proof.
  intros Hwf Hst Hc Hp Ha. rewrite <- all_stored_count in Hc by done. pose proof (@multi_refines S p itemnos Hwf Hst Hc) as Hm.
  pose proof (delete_each_refines p itemnos Hwf Hst) as He.
  pose proof (spec_delete_all_packed (page_state p) itemnos 1 Hp ltac:(lia) Ha) as Es. cbv zeta in Es. rewrite Es in He.
  assert (Em : spec_multi (page_state p) itemnos = spec_delete_all (page_state p) itemnos).
  { unfold spec_multi. destruct (length itemnos <=? 2)%nat; [done|]. cbn [ps_items page_state].
    rewrite multi_filter_ascending by (by replace (1 + Z.of_nat (length (page_items p)) - 1) with (Z.of_nat (length (page_items p))) by lia).
    by rewrite Es. }
  rewrite Em, Es in Hm. destruct Hm as (p1 & E1 & Hwf1 & Hs1), He as (p2 & E2 & Hwf2 & Hs2 & _). by exists p1, p2.
Qed.

(** C24: Deleting several items at once is deleting them one by one.  On an index
    page without gaps, [PageIndexMultiDelete] with item numbers in ascending order
    leaves the same contents as [PageIndexTupleDelete] on each of them from the
    last to the first: the items at the other positions, in order, with all the
    space of the deleted ones free.  More than two item numbers that are not
    ascending or not on the page are an error. *)
Theorem page_multi_delete_equiv `{S : Sorter} p itemnos :
  page_wf p -> forallb has_storage (page_items p) = true -> Z.of_nat (length (page_items p)) <= MaxIndexTuplesPerPage ->
  packed (page_state p) ->
  (ascending 1 (Z.of_nat (length (page_items p))) itemnos ->
   exists p1 p2, @PageIndexMultiDelete S p itemnos = Ok p1 /\ delete_each p (rev itemnos) = Ok p2 /\
   page_wf p1 /\ page_wf p2 /\ page_state p1 = page_state p2 /\ packed (page_state p1) /\
   page_items p1 = delete_positions 1 (page_items p) itemnos) /\
  (~ ascending 1 (Z.of_nat (length (page_items p))) itemnos -> (2 < length itemnos)%nat ->
   exists msg, @PageIndexMultiDelete S p itemnos = elog msg).
Proof.
  intros Hwf Hst%all_storage Hc Hp. split.
  - intros Ha. destruct (@multi_delete_packed S p itemnos Hwf Hst Hc Hp Ha) as (p1 & p2 & E1 & E2 & Hwf1 & Hwf2 & Hs1 & Hs2).
    exists p1, p2. split_and!; [done..|congruence|by rewrite Hs1|by apply (f_equal ps_items) in Hs1].
  - intros Hn Hl. rewrite <- all_stored_count in Hc by done. pose proof (@multi_refines S p itemnos Hwf Hst Hc) as Hm. unfold spec_multi in Hm. rewrite (proj2 (Nat.leb_gt _ _)) in Hm by lia.
    destruct (multi_filter (ps_items (page_state p)) 1 itemnos) as [kept missing] eqn:Ef. destruct missing as [|x xs]; [|done].
    destruct Hn. replace (Z.of_nat (length (page_items p))) with (1 + Z.of_nat (length (page_items p)) - 1) by lia.
    apply multi_filter_missing. cbn [ps_items page_state] in Ef. by rewrite Ef.
Qed.

Lemma page_multi_delete_equiv_witness :
  exists p1 p2, PageIndexMultiDelete example_page [1; 2; 3] = Ok p1 /\ delete_each example_page [3; 2; 1] = Ok p2 /\
  page_wf p1 /\ page_wf p2 /\ page_state p1 = page_state p2 /\ packed (page_state p1) /\ page_items p1 = [].
Proof.
  apply (page_multi_delete_equiv example_page [1; 2; 3]).
  - apply reachable_wf, example_page_reachable.
  - by vm_compute.
  - vm_compute. discriminate.
  - by vm_compute.
  - vm_compute. intuition discriminate.
Defined.

(** ** Corrupted pages *)

(** C25: Corrupted pages.  Whatever the bytes of a page are, adding an item,
    deleting one, replacing one, and deleting several (if there are no more line
    pointers than fit in the work arrays) never read or write outside the page:
    they return a page, or raise the error that the code reports. *)
Theorem page_corruption_safe `{S : Sorter} p :
  is_page p ->
  (forall data offnum flags, Forall is_byte data -> Z.of_nat (length data) <= MaxAllocSize -> 0 <= offnum ->
     safe_with (PageAddItemExtended p data offnum flags)) /\
  (forall offnum, safe (PageIndexTupleDelete p offnum)) /\
  (forall offnum, safe (PageIndexTupleDeleteNoCompact p offnum)) /\
  (forall offnum newtup, Forall is_byte newtup -> safe_with (PageIndexTupleOverwrite p offnum newtup)) /\
  (forall itemnos, PageGetMaxOffsetNumber p <= MaxIndexTuplesPerPage -> safe (@PageIndexMultiDelete S p itemnos)).
Proof.
  intros Hp. split_and!; intros; [by apply add_safe|by apply delete_safe|by apply nocompact_safe|by apply overwrite_safe|by apply (@multi_safe S)].
Qed.

(** A page of which every byte is 0xA5. *)
Definition garbage_page : Page := replicate (Z.to_nat BLCKSZ) 165.

Lemma garbage_is_page : is_page garbage_page.
Proof. split; [by vm_compute|]. apply byte_list_ok. by vm_compute. Qed.

Lemma page_corruption_safe_witness : safe (PageIndexTupleDelete garbage_page 1).
Proof. destruct (page_corruption_safe garbage_page garbage_is_page) as (_ & Hd & _). exact (Hd 1). Defined.

(** [PageRepairFragmentation] on corrupted pages.  It checks where an item
    starts, but not where it ends: the first page has an item of 100 bytes eight
    bytes before its end, and compaction reads past the page.  Nor does it check
    how many items there are: the second page has 292 line pointers to the same
    bytes, and the work array has room for 291. *)
Definition corrupt_page (linps : list ItemIdData) : Page :=
  let p := PageInit (replicate (Z.to_nat BLCKSZ) 0) BLCKSZ 0 in
  let p := put p SizeOfPageHeaderData (concat (map linp_bytes linps)) in
  set_pd_upper (set_pd_lower p (SizeOfPageHeaderData + 4 * Z.of_nat (length linps))) 8184.

Theorem repair_trusts_items :
  PageRepairFragmentation (corrupt_page [mkItemId 8184 LP_NORMAL 100]) = undefined "read outside the page" /\
  PageRepairFragmentation (corrupt_page (replicate 292 (mkItemId 8184 LP_NORMAL 1))) = undefined "itemidbase is full".
Proof. split; by vm_compute. Qed.

(** ** Free space *)

Lemma first_free_existsb items : existsb is_free items = (first_free items <? length items)%nat.
Proof. induction items as [|v items IH]; cbn; [done|]. destruct (is_free v); cbn [orb]; [done|]. rewrite IH. done. Qed.

Lemma unused_is_free p i : page_wf p -> 1 <= i <= PageGetMaxOffsetNumber p -> negb (ItemIdIsUsed (linp p i)) = is_free (item p i).
Proof.
  intros Hwf Hi. rewrite is_free_linp. destruct (ItemIdIsUsed (linp p i)) eqn:E; cbn; [done|].
  unfold ItemIdIsUsed in E. zbool. by rewrite (lay_unused _ _ _ _ (wf_layout p Hwf) i Hi E).
Qed.

Lemma has_unused_linp_ok k p off :
  page_wf p -> 1 <= off -> off + Z.of_nat k = PageGetMaxOffsetNumber p + 1 ->
  has_unused_linp k p off = Ok (existsb is_free (drop (Z.to_nat (off - 1)) (page_items p))).
Proof.
  intros Hwf. revert off. induction k as [|k IH]; intros off Ho Hk; cbn [has_unused_linp].
  { by rewrite drop_ge by (rewrite page_items_length; lia). }
  rewrite wf_get_linp by (done || lia). cbn [mbind result_bind]. rewrite page_items_drop, unused_is_free by (done || lia). cbn [existsb].
  destruct (is_free (item p off)); [done|]. rewrite IH by lia. by rewrite Z.add_simpl_r.
Qed.

(** Where an item goes when the caller does not say. *)
Lemma spec_add_found s data flags :
  (snd (spec_add s data InvalidOffsetNumber flags) <> InvalidOffsetNumber) <->
  let reuse := bit_set (ps_flags s) PD_HAS_FREE_LINES && existsb is_free (ps_items s) in
  let off := if reuse then Z.of_nat (first_free (ps_items s)) + 1 else Z.of_nat (length (ps_items s)) + 1 in
  (bit_set flags PAI_IS_HEAP = true -> off <= MaxHeapTuplesPerPage) /\
  (if reuse then 0 else sizeof_ItemIdData) + MAXALIGN (Z.of_nat (length data)) <= ps_free s.
Proof.
  cbv zeta. unfold spec_add. cbn [OffsetNumberIsValid InvalidOffsetNumber Z.eqb negb andb]. rewrite first_free_existsb.
  pose proof (first_free_bound (ps_items s)).
  assert (Hp : forall s' off b items, 0 < off -> off <= Z.of_nat (length (ps_items s')) + 1 ->
    (snd (spec_place s' flags off b (Z.of_nat (length data)) items) <> 0 <->
     (bit_set flags PAI_IS_HEAP = true -> off <= MaxHeapTuplesPerPage) /\
     (if b then sizeof_ItemIdData else 0) + MAXALIGN (Z.of_nat (length data)) <= ps_free s')).
  { intros s' off b items Ho Hle. unfold spec_place. rewrite (Z.gtb_ltb off (_ + 1)), (proj2 (Z.ltb_ge _ _)) by lia. cbn [orb].
    destruct (bit_set flags PAI_IS_HEAP); cbn [andb]; destruct (Z.gtb_spec off MaxHeapTuplesPerPage); cbn [orb];
      destruct (Z.gtb_spec ((if b then sizeof_ItemIdData else 0) + MAXALIGN (Z.of_nat (length data))) (ps_free s')); cbn [snd];
      unfold InvalidOffsetNumber; intuition lia. }
  destruct (bit_set (ps_flags s) PD_HAS_FREE_LINES); cbn [andb]; [|apply Hp; lia].
  destruct (Nat.ltb_spec (first_free (ps_items s)) (length (ps_items s))); [apply Hp; lia|]. apply (Hp (ps_clear_hint s)); cbn; lia.
Qed.

(** The free space functions keep their promise.  Without a hint at free
    line pointers, an item is accepted at the end of the page exactly when its
    aligned size is at most [PageGetFreeSpace].  On a heap page with at most
    [MaxHeapTuplesPerPage] line pointers, an item of aligned size at most
    [PageGetHeapFreeSpace] is accepted, whether it reuses a line pointer or
    not. *)
Theorem page_free_space p data :
  page_wf p -> bytes_ok data = true -> Z.of_nat (length data) <= MaxAllocSize ->
  (PageHasFreeLinePointers p = false ->
   exists p' r, PageAddItem p data InvalidOffsetNumber false false = Ok (p', r) /\
   (r <> InvalidOffsetNumber <-> MAXALIGN (Z.of_nat (length data)) <= PageGetFreeSpace p)) /\
  (PageGetMaxOffsetNumber p <= MaxHeapTuplesPerPage ->
   exists space, PageGetHeapFreeSpace p = Ok space /\
   (MAXALIGN (Z.of_nat (length data)) <= space ->
    exists p' r, PageAddItem p data InvalidOffsetNumber false true = Ok (p', r) /\ r <> InvalidOffsetNumber)).
Proof.
  intros Hwf [Hb Hne]%bytes_ok_spec Hsz. destruct (wf_linps p Hwf) as [Hn _].
  assert (Hpos : 8 <= MAXALIGN (Z.of_nat (length data))) by (apply MAXALIGN_pos; destruct data; [done|cbn; lia]).
  assert (Hadd : forall flags, exists p' r, PageAddItemExtended p data InvalidOffsetNumber flags = Ok (p', r) /\
    r = snd (spec_add (page_state p) data InvalidOffsetNumber flags)).
  { intros flags. destruct (PageAddItemExtended_ok data flags Hb Hne Hsz p InvalidOffsetNumber Hwf) as (p' & r & E & _ & Es); [done|].
    exists p', r. split; [done|]. by rewrite <- Es. }
  unfold PageAddItem. split.
  - intros Hh. destruct (Hadd 0) as (p' & r & E & ->). exists p', (snd (spec_add (page_state p) data InvalidOffsetNumber 0)). split; [done|].
    rewrite spec_add_found. cbv zeta. cbn [ps_flags ps_items ps_free page_state]. unfold PageHasFreeLinePointers in Hh. rewrite Hh. cbn [andb].
    unfold PageGetFreeSpace, sizeof_ItemIdData. destruct (Z.ltb_spec (pd_upper p - pd_lower p) 4); (split; [intros [_ ?]; lia|intros; split; [done|lia]]).
  - intros Hmax. unfold PageGetHeapFreeSpace.
    assert (Hfree : forall space, space = 0 \/ space = PageGetFreeSpace p /\
        (PageGetMaxOffsetNumber p < MaxHeapTuplesPerPage \/ PageHasFreeLinePointers p && existsb is_free (page_items p) = true) ->
      MAXALIGN (Z.of_nat (length data)) <= space ->
      exists p' r, PageAddItemExtended p data InvalidOffsetNumber (Z.lor 0 PAI_IS_HEAP) = Ok (p', r) /\ r <> InvalidOffsetNumber).
    { intros space [-> |[-> Hr]] Hle; [lia|]. destruct (Hadd (Z.lor 0 PAI_IS_HEAP)) as (p' & r & E & ->). eexists _, _. split; [exact E|].
      apply spec_add_found. cbv zeta. cbn [ps_flags ps_items ps_free page_state]. fold (PageHasFreeLinePointers p).
      rewrite page_items_length, Z2Nat.id by done. pose proof (first_free_bound (page_items p)) as Hff.
      pose proof (first_free_existsb (page_items p)) as Hex. rewrite page_items_length in Hff, Hex.
      unfold PageGetFreeSpace, sizeof_ItemIdData in *.
      destruct (Z.ltb_spec (pd_upper p - pd_lower p) 4); [lia|].
      destruct (PageHasFreeLinePointers p && existsb is_free (page_items p)) eqn:Ere; [|destruct Hr; [|done]; split; [intros _|]; lia].
      apply andb_true_iff in Ere as [_ Ere]. rewrite Ere in Hex. symmetry in Hex. apply Nat.ltb_lt in Hex. split; [intros _|]; lia. }
    destruct (Z.gtb_spec (PageGetFreeSpace p) 0) as [|H0]; [|exists (PageGetFreeSpace p); split; [done|lia]].
    destruct (Z.geb_spec (PageGetMaxOffsetNumber p) MaxHeapTuplesPerPage).
    + destruct (PageHasFreeLinePointers p) eqn:Eh; [|exists 0; split; [done|lia]].
      rewrite has_unused_linp_ok by (done || unfold FirstOffsetNumber; lia). cbn [mbind result_bind].
      change (drop (Z.to_nat (FirstOffsetNumber - 1)) (page_items p)) with (page_items p).
      eexists. split; [done|]. apply Hfree. destruct (existsb is_free (page_items p)); [right|by left]. split; [done|by right].
    + eexists. split; [done|]. apply Hfree. right. split; [done|left; lia].
Qed.

Lemma page_free_space_witness :
  PageGetFreeSpace example_page = 8096 /\
  exists p' r, PageAddItem example_page (replicate (Z.to_nat 8096) 1) InvalidOffsetNumber false false = Ok (p', r) /\
  (r <> InvalidOffsetNumber <-> MAXALIGN 8096 <= PageGetFreeSpace example_page).
Proof.
  split; [by vm_compute|].
  destruct (page_free_space example_page (replicate (Z.to_nat 8096) 1)) as [Hi _];
    [apply reachable_wf, example_page_reachable|by vm_compute|vm_compute; discriminate|]. apply Hi. by vm_compute.
Defined.
