(* ===== verification/GistPage.v ===== *)
(** * GiST pages

    The functions of access/gist/gistutil.c that move index tuples to and from
    pages ([gistfillbuffer], [gistnospace], [gistfitpage], [gistextractpage],
    [gistfillitupvec], [GISTInitBuffer]), and the updates of a page in
    [gistplacetopage] of access/gist/gist.c.  Buffers, locks and WAL are left
    out.

    A pointer to an index tuple is the bytes from there on; the size in the
    header of the tuple says how many of them belong to it. *)

From S2P Require Import Prelude Varlena HeapTuple HeapTupleProofs IndexTuple Sorting QSort Page PageMem PageShift PageAdd PageCompact PageMulti PageOps PageTheorems.

(** ** Index tuples in memory *)

(** [IndexTupleSize] of the tuple at offset [off] of [bs]. *)
Definition tuple_size_at (bs : list Z) (off : Z) : Z := Z.land (get16 bs (off + 6)) INDEX_SIZE_MASK.

(** The bytes that a copy of the tuple takes. *)
Definition tuple_bytes (itup : list Z) : list Z := bytes_at itup 0 (tuple_size_at itup 0).

(** The tuple that an item pointer of a page points to. *)
Definition tuple_at (p : Page) (off : Z) : result (list Z) :=
  _ ← mem_read p off SizeofIndexTupleData; mem_read p off (tuple_size_at p off).

(** The bytes of a tuple of IndexTuple.v: block number and offset of [t_tid],
    [t_info], and what follows the header. *)
Definition itup_image (itup : IndexTuple) : list Z :=
  le_bytes 2 ((t_tid itup).1 / 2 ^ 16) ++ le_bytes 2 (t_tid itup).1 ++ le_bytes 2 (t_tid itup).2 ++ le_bytes 2 (t_info itup) ++ it_bytes itup.

(** ** gistutil.c *)

Fixpoint gistfill_loop (p : Page) (itup : list (list Z)) (off : Z) : result Page :=
  match itup with
  | [] => Ok p
  | t :: itup' =>
      '(p, l) ← PageAddItem p (tuple_bytes t) off false false;
      if l =? InvalidOffsetNumber then elog "failed to add item to GiST index page"
      else gistfill_loop p itup' (uwrap 16 (off + 1))
  end.

Definition gistfillbuffer (p : Page) (itup : list (list Z)) (off : Z) : result Page :=
  let off := if off =? InvalidOffsetNumber then
               if PageIsEmpty p then FirstOffsetNumber else OffsetNumberNext (PageGetMaxOffsetNumber p)
             else off in
  gistfill_loop p itup off.

(** Sizes are summed in an [unsigned int], compared in 64 bits. *)
Definition gistnospace (p : Page) (itvec : list (list Z)) (todelete freespace : Z) : result bool :=
  let size := foldl (fun size t => uwrap 32 (size + tuple_size_at t 0 + sizeof_ItemIdData)) (uwrap 32 freespace) itvec in
  deleted ← (if negb (todelete =? InvalidOffsetNumber) then
               lp ← PageGetItemId p todelete;
               itup ← tuple_at p (lp_off lp);
               Ok (uwrap 32 (tuple_size_at itup 0 + sizeof_ItemIdData))
             else Ok 0);
  Ok (PageGetFreeSpace p + deleted <? size).

Definition sizeof_GISTPageOpaqueData : Z := 16.
Definition GiSTPageSize : Z := BLCKSZ - SizeOfPageHeaderData - MAXALIGN sizeof_GISTPageOpaqueData.

Definition gistfitpage (itvec : list (list Z)) : bool :=
  let size := foldl (fun size t => size + (tuple_size_at t 0 + sizeof_ItemIdData)) 0 itvec in
  size <=? GiSTPageSize.

Fixpoint gistextract_loop (n : nat) (p : Page) (i : Z) : result (list (list Z)) :=
  match n with
  | O => Ok []
  | S n' =>
      lp ← PageGetItemId p i;
      itup ← tuple_at p (lp_off lp);
      itvec ← gistextract_loop n' p (i + 1);
      Ok (itup :: itvec)
  end.

Definition gistextractpage (p : Page) : result (list (list Z)) :=
  gistextract_loop (Z.to_nat (PageGetMaxOffsetNumber p)) p FirstOffsetNumber.

(** One block of memory with the tuples one after the other. *)
Definition gistfillitupvec (vec : list (list Z)) : list Z := concat (map tuple_bytes vec).

Definition InvalidBlockNumber : Z := 0xFFFFFFFF.
Definition GIST_PAGE_ID : Z := 0xFF81.

Definition GISTInitBuffer (p : Page) (f : Z) : Page :=
  let p := PageInit p BLCKSZ sizeof_GISTPageOpaqueData in
  let opaque := pd_special p in
  let p := put p (opaque + 8) (le_bytes 4 InvalidBlockNumber) in
  let p := put16 p (opaque + 12) f in
  put16 p (opaque + 14) GIST_PAGE_ID.

(** ** gist.c: the updates of [gistplacetopage] *)

(** Enough space: the old tuple is replaced or deleted, the new ones are
    appended. *)
Definition gist_update_page (p : Page) (itup : list (list Z)) (oldoffnum : Z) : result Page :=
  if OffsetNumberIsValid oldoffnum then
    match itup with
    | [t] =>
        '(p, ok) ← PageIndexTupleOverwrite p oldoffnum (tuple_bytes t);
        if ok : bool then Ok p else elog "failed to add item to index page"
    | _ => p ← PageIndexTupleDelete p oldoffnum; gistfillbuffer p itup InvalidOffsetNumber
    end
  else gistfillbuffer p itup InvalidOffsetNumber.

(** No space: the tuples to split, those of the page without the old one and
    the new ones. *)
Definition gist_split_vector (p : Page) (itup : list (list Z)) (oldoffnum : Z) : result (list (list Z)) :=
  itvec ← gistextractpage p;
  let itvec := if OffsetNumberIsValid oldoffnum then delete (Z.to_nat (oldoffnum - FirstOffsetNumber)) itvec else itvec in
  Ok (itvec ++ itup).

(** Filling a page after a split: the tuples of [list], one after the other. *)
Fixpoint gist_fill_split (n : nat) (p : Page) (data : list Z) (i : Z) : result Page :=
  match n with
  | O => Ok p
  | S n' =>
      '(p, l) ← PageAddItem p (tuple_bytes data) (i + FirstOffsetNumber) false false;
      if l =? InvalidOffsetNumber then elog "failed to add item to index page"
      else gist_fill_split n' p (drop (Z.to_nat (tuple_size_at data 0)) data) (i + 1)
  end.

(** ** Well-formed tuples *)

(** A tuple of the size in its header, which [index_form_tuple] aligns, with
    something after the header. *)
Definition tuple_ok (t : list Z) : Prop :=
  Forall is_byte t /\ tuple_size_at t 0 = Z.of_nat (length t) /\ Z.of_nat (length t) mod 8 = 0 /\ SizeofIndexTupleData < Z.of_nat (length t).

(** The items of a GiST page are tuples. *)
Definition gist_items (items : list ItemView) (tuples : list (list Z)) : Prop :=
  Forall2 (fun v t => exists flags, v = Stored flags t /\ tuple_ok t) items tuples.

Lemma tuple_bytes_ok t : tuple_ok t -> tuple_bytes t = t.
Proof. intros (_ & E & _). unfold tuple_bytes. rewrite E. by apply bytes_at_all. Qed.

Lemma tuple_size_bound t : tuple_ok t -> Z.of_nat (length t) <= INDEX_SIZE_MASK.
Proof.
  intros (_ & E & _). rewrite <- E. unfold tuple_size_at, INDEX_SIZE_MASK. change 8191 with (Z.ones 13). rewrite Z.land_ones by lia.
  pose proof (Z.mod_pos_bound (get16 t (0 + 6)) (2 ^ 13) ltac:(lia)). change (Z.ones 13) with (2 ^ 13 - 1). lia.
Qed.

Lemma tuple_bytes_okb t : tuple_ok t -> bytes_ok t = true.
Proof.
  intros (Hb & _ & _ & Hl). unfold bytes_ok. apply andb_true_iff. split; [|unfold SizeofIndexTupleData in Hl; destruct t; [cbn in Hl; lia|done]].
  apply forallb_forall. intros b Hin. rewrite List.Forall_forall in Hb. specialize (Hb b Hin). unfold is_byte in Hb. apply andb_true_iff. lia.
Qed.

(** The space of tuples with their line pointers. *)
Definition tuples_space (ts : list (list Z)) : Z := foldr (fun t n => Z.of_nat (length t) + sizeof_ItemIdData + n) 0 ts.

Lemma tuples_space_nonneg ts : 0 <= tuples_space ts.
Proof. unfold tuples_space, sizeof_ItemIdData. induction ts; cbn; lia. Qed.

(** ** Appending tuples *)

Lemma max_offset_bound p : page_wf p -> 0 <= PageGetMaxOffsetNumber p <= 2042.
Proof. intros Hwf. destruct (wf_linps p Hwf). destruct Hwf. linp_lia. Qed.

(** A tuple at the end of a page: it is stored when there is room for it and
    its line pointer, and refused otherwise. *)
Lemma append_outcome p t :
  page_wf p -> tuple_ok t ->
  exists p' r, PageAddItem p (tuple_bytes t) (PageGetMaxOffsetNumber p + 1) false false = Ok (p', r) /\ page_wf p' /\
  (page_state p', r) =
    if Z.of_nat (length t) + sizeof_ItemIdData <=? pd_upper p - pd_lower p
    then (ps_update (page_state p) (page_items p ++ [Stored LP_NORMAL t]) (pd_upper p - pd_lower p - (Z.of_nat (length t) + sizeof_ItemIdData)),
          PageGetMaxOffsetNumber p + 1)
    else (page_state p, InvalidOffsetNumber).
Proof.
  intros Hwf Ht. pose proof (max_offset_bound p Hwf) as Hn. pose proof (tuple_size_bound t Ht) as Hb. rewrite tuple_bytes_ok by done.
  destruct (bytes_ok_spec t (tuple_bytes_okb t Ht)) as [Hby Hne]. destruct Ht as (_ & _ & H8 & _).
  destruct (PageAddItemExtended_ok t 0 Hby Hne) with (p := p) (offnum := PageGetMaxOffsetNumber p + 1) as (p' & r & E & Hwf' & Es);
    [unfold MaxAllocSize, INDEX_SIZE_MASK in *; lia|done|lia|].
  exists p', r. split_and!; [exact E|done|]. rewrite Es. unfold spec_add. cbn [ps_items page_state].
  assert (Hv : OffsetNumberIsValid (PageGetMaxOffsetNumber p + 1) = true).
  { unfold OffsetNumberIsValid, InvalidOffsetNumber. rewrite (proj2 (Z.eqb_neq _ _)) by lia. change MaxOffsetNumber with 2048. cbn [negb andb]. apply Z.leb_le. lia. }
  rewrite Hv. change (bit_set 0 PAI_OVERWRITE) with false. rewrite <- append_items. unfold spec_place.
  cbn [ps_items page_state ps_free]. rewrite page_items_length, Z2Nat.id, MAXALIGN_aligned by (done || lia).
  rewrite (Z.gtb_ltb (_ + 1)), Z.ltb_irrefl. change (bit_set 0 PAI_IS_HEAP) with false. cbn [andb orb].
  rewrite Z.gtb_ltb, (Z.add_comm sizeof_ItemIdData), Z.leb_antisym. by destruct (_ <? _).
Qed.

(** What a page with one more tuple has. *)
Record appended (p p' : Page) (t : list Z) : Prop := {
  app_wf : page_wf p';
  app_max : PageGetMaxOffsetNumber p' = PageGetMaxOffsetNumber p + 1;
  app_items : page_items p' = page_items p ++ [Stored LP_NORMAL t];
  app_free : pd_upper p' - pd_lower p' = pd_upper p - pd_lower p - (Z.of_nat (length t) + sizeof_ItemIdData);
  app_state : page_state p' = ps_update (page_state p) (page_items p') (pd_upper p' - pd_lower p')
}.

Lemma append_tuple p t :
  page_wf p -> tuple_ok t ->
  exists p' r, PageAddItem p (tuple_bytes t) (PageGetMaxOffsetNumber p + 1) false false = Ok (p', r) /\
  if Z.of_nat (length t) + sizeof_ItemIdData <=? pd_upper p - pd_lower p
  then r = PageGetMaxOffsetNumber p + 1 /\ appended p p' t
  else r = InvalidOffsetNumber.
Proof.
  intros Hwf Ht. destruct (append_outcome p t Hwf Ht) as (p' & r & E & Hwf' & Es). exists p', r. split; [done|].
  destruct (_ <=? _); apply pair_equal_spec in Es as [Es ->]; [|done].
  assert (Ei : page_items p' = page_items p ++ [Stored LP_NORMAL t]) by (by apply (f_equal ps_items) in Es).
  split; [done|]. constructor; [done| |done|by apply (f_equal ps_free) in Es|].
  - apply (f_equal length) in Ei. rewrite length_app, !page_items_length in Ei. cbn [length] in Ei.
    pose proof (max_offset_bound p Hwf). pose proof (max_offset_bound p' Hwf'). lia.
  - rewrite Es at 1. rewrite Ei. f_equal. by apply (f_equal ps_free) in Es.
Qed.

(** Appending one tuple and then others. *)
Lemma appended_trans p p1 p2 t ts :
  appended p p1 t ->
  page_state p2 = ps_update (page_state p1) (page_items p1 ++ map (Stored LP_NORMAL) ts) (pd_upper p1 - pd_lower p1 - tuples_space ts) ->
  page_state p2 = ps_update (page_state p) (page_items p ++ map (Stored LP_NORMAL) (t :: ts)) (pd_upper p - pd_lower p - tuples_space (t :: ts)).
Proof.
  intros [_ _ Ei Ef Es] ->. rewrite Es, Ei, Ef. cbn [tuples_space foldr]. fold (tuples_space ts).
  unfold ps_update; cbn [ps_lsn_checksum ps_flags ps_version_prune ps_special map]. rewrite <- app_assoc. f_equal. lia.
Qed.

Lemma gistfill_ok ts p :
  page_wf p -> Forall tuple_ok ts -> tuples_space ts <= pd_upper p - pd_lower p ->
  exists p', gistfill_loop p ts (PageGetMaxOffsetNumber p + 1) = Ok p' /\ page_wf p' /\
  page_state p' = ps_update (page_state p) (page_items p ++ map (Stored LP_NORMAL) ts) (pd_upper p - pd_lower p - tuples_space ts).
Proof.
  intros Hwf Hts. revert p Hwf. induction Hts as [|t ts Ht Hts IH]; intros p Hwf Hs; cbn [gistfill_loop map].
  { exists p. split_and!; [done..|]. rewrite app_nil_r. unfold tuples_space; cbn. by rewrite Z.sub_0_r. }
  pose proof (tuples_space_nonneg ts). cbn [tuples_space foldr] in Hs. fold (tuples_space ts) in Hs.
  destruct (append_tuple p t Hwf Ht) as (p1 & r & -> & Ha). rewrite (proj2 (Z.leb_le _ _)) in Ha by lia. destruct Ha as [-> Ha]. cbn [mbind result_bind].
  pose proof (max_offset_bound p Hwf). unfold InvalidOffsetNumber. rewrite (proj2 (Z.eqb_neq _ _)), uwrap_small by (unfold in_uint; lia).
  rewrite <- (app_max _ _ _ Ha). pose proof (app_free _ _ _ Ha).
  destruct (IH p1 (app_wf _ _ _ Ha)) as (p2 & E2 & Hwf2 & Es2); [lia|]. exists p2. split_and!; [done..|]. by eapply appended_trans.
Qed.

Lemma gistfillbuffer_ok ts p :
  page_wf p -> Forall tuple_ok ts -> tuples_space ts <= pd_upper p - pd_lower p ->
  exists p', gistfillbuffer p ts InvalidOffsetNumber = Ok p' /\ page_wf p' /\
  page_state p' = ps_update (page_state p) (page_items p ++ map (Stored LP_NORMAL) ts) (pd_upper p - pd_lower p - tuples_space ts).
Proof.
  intros Hwf Hts Hs. unfold gistfillbuffer. cbn [InvalidOffsetNumber Z.eqb].
  assert (Eo : (if PageIsEmpty p then FirstOffsetNumber else OffsetNumberNext (PageGetMaxOffsetNumber p)) = PageGetMaxOffsetNumber p + 1).
  { pose proof (max_offset_bound p Hwf). unfold OffsetNumberNext. rewrite uwrap_small by (unfold in_uint; lia).
    unfold PageIsEmpty, PageGetMaxOffsetNumber in *. destruct (Z.leb_spec (pd_lower p) SizeOfPageHeaderData); [done|lia]. }
  rewrite Eo. by apply gistfill_ok.
Qed.

(** After a split the tuples come from one block of memory. *)
Lemma tuple_bytes_app t rest : tuple_ok t -> tuple_size_at (t ++ rest) 0 = Z.of_nat (length t) /\ tuple_bytes (t ++ rest) = t.
Proof.
  intros (_ & E & _ & Hl). unfold SizeofIndexTupleData in Hl.
  assert (Es : tuple_size_at (t ++ rest) 0 = Z.of_nat (length t)).
  { rewrite <- E. unfold tuple_size_at, get16. do 2 f_equal. apply bytes_at_ext; [lia..|]. intros i Hi. rewrite lookup_app_l by lia. done. }
  split; [done|]. unfold tuple_bytes. rewrite Es. by apply bytes_at_app0.
Qed.

(** Filling a page succeeds exactly when the tuples and their line pointers fit. *)
Lemma gist_fill_split_ok ts p :
  page_wf p -> Forall tuple_ok ts ->
  if tuples_space ts <=? pd_upper p - pd_lower p then
    exists p', gist_fill_split (length ts) p (gistfillitupvec ts) (PageGetMaxOffsetNumber p) = Ok p' /\ page_wf p' /\
    page_state p' = ps_update (page_state p) (page_items p ++ map (Stored LP_NORMAL) ts) (pd_upper p - pd_lower p - tuples_space ts)
  else gist_fill_split (length ts) p (gistfillitupvec ts) (PageGetMaxOffsetNumber p) = elog "failed to add item to index page".
Proof.
  intros Hwf Hts. revert p Hwf. induction Hts as [|t ts Ht Hts IH]; intros p Hwf.
  { pose proof (wf_lower_upper p Hwf). cbn [tuples_space foldr]. rewrite (proj2 (Z.leb_le _ _)) by lia.
    exists p. split_and!; [done..|]. rewrite app_nil_r. by rewrite Z.sub_0_r. }
  pose proof (tuples_space_nonneg ts) as Hnn. cbn [gist_fill_split length]. change FirstOffsetNumber with 1.
  assert (Ev : gistfillitupvec (t :: ts) = t ++ gistfillitupvec ts) by (unfold gistfillitupvec; cbn [map concat]; by rewrite tuple_bytes_ok).
  destruct (tuple_bytes_app t (gistfillitupvec ts) Ht) as [Esz Eb]. rewrite Ev, Esz, Eb, Nat2Z.id, drop_app_length.
  destruct (append_tuple p t Hwf Ht) as (p1 & r & E & Ha). rewrite tuple_bytes_ok in E by done. rewrite E. cbn [mbind result_bind].
  assert (Et : tuples_space (t :: ts) = Z.of_nat (length t) + sizeof_ItemIdData + tuples_space ts) by done.
  destruct (Z.leb_spec (Z.of_nat (length t) + sizeof_ItemIdData) (pd_upper p - pd_lower p)) as [Hle|Hgt];
    [|subst r; rewrite (proj2 (Z.leb_gt _ _)) by lia; done].
  destruct Ha as [-> Ha]. pose proof (max_offset_bound p Hwf). unfold InvalidOffsetNumber. rewrite (proj2 (Z.eqb_neq _ _)) by lia.
  specialize (IH p1 (app_wf _ _ _ Ha)). pose proof (app_free _ _ _ Ha). rewrite (app_max _ _ _ Ha) in IH.
  destruct (Z.leb_spec (tuples_space ts) (pd_upper p1 - pd_lower p1)) as [Hle1|Hgt1].
  - rewrite (proj2 (Z.leb_le _ _)) by lia. destruct IH as (p2 & -> & Hwf2 & Es2). exists p2. split_and!; [done..|]. by eapply appended_trans.
  - by rewrite (proj2 (Z.leb_gt _ _)) by lia.
Qed.

(** ** Reading tuples *)

Lemma gist_item p tuples i :
  page_wf p -> gist_items (page_items p) tuples -> 1 <= i <= PageGetMaxOffsetNumber p ->
  exists t, tuples !! Z.to_nat (i - 1) = Some t /\ tuple_ok t /\ (exists flags, item p i = Stored flags t) /\ tuple_at p (lp_off (linp p i)) = Ok t.
Proof.
  intros Hwf Hg Hi. pose proof (page_items_lookup p i Hi) as Hlk. destruct (Forall2_lookup_l _ _ _ _ _ Hg Hlk) as (t & Et & flags & Ei & Ht).
  exists t. split_and!; [done..|by exists flags|]. unfold item, item_view in Ei.
  destruct (Z.eqb_spec (lp_len (linp p i)) 0) as [|Hl]; [done|].
  assert (Ed : bytes_at p (lp_off (linp p i)) (lp_len (linp p i)) = t) by congruence.
  destruct (wf_stored_at p i Hwf Hi Hl) as [? ? ? ? ? ?]. pose proof Hwf as [[Hpl Hpb] ? ? ? ? ? ? ? ? _ _].
  assert (Elen : lp_len (linp p i) = Z.of_nat (length t)) by (rewrite <- Ed, bytes_at_length by linp_lia; lia).
  destruct Ht as (_ & Esz & _ & H8). unfold SizeofIndexTupleData in H8.
  assert (Es : tuple_size_at p (lp_off (linp p i)) = Z.of_nat (length t)).
  { rewrite <- Esz, <- Ed. unfold tuple_size_at, get16. rewrite bytes_at_bytes_at by linp_lia. done. }
  unfold tuple_at. rewrite !mem_read_page by (try done; unfold SizeofIndexTupleData; linp_lia). cbn [mbind result_bind].
  rewrite Es, <- Elen. by rewrite Ed.
Qed.

Lemma gistextract_ok n p tuples i :
  page_wf p -> gist_items (page_items p) tuples -> 1 <= i -> i + Z.of_nat n = PageGetMaxOffsetNumber p + 1 ->
  gistextract_loop n p i = Ok (drop (Z.to_nat (i - 1)) tuples).
Proof.
  intros Hwf Hg. pose proof (Forall2_length _ _ _ Hg) as Hlen. rewrite page_items_length in Hlen.
  revert i. induction n as [|n IH]; intros i Hi Hn; cbn [gistextract_loop].
  { rewrite drop_ge by lia. done. }
  destruct (gist_item p tuples i Hwf Hg) as (t & Et & _ & _ & Ea); [lia|].
  rewrite wf_get_linp by (done || lia). cbn [mbind result_bind]. rewrite Ea. cbn [mbind result_bind]. rewrite IH by lia. cbn [mbind result_bind].
  rewrite (drop_S tuples t (Z.to_nat (i - 1))) by done. do 3 f_equal. lia.
Qed.

Lemma gistextractpage_ok p tuples : page_wf p -> gist_items (page_items p) tuples -> gistextractpage p = Ok tuples.
Proof.
  intros Hwf Hg. destruct (wf_linps p Hwf). unfold gistextractpage. rewrite (gistextract_ok _ p tuples) by (done || unfold FirstOffsetNumber; lia). done.
Qed.

(** ** Whether tuples fit *)

Lemma nospace_size ts fs :
  Forall tuple_ok ts -> 0 <= fs -> fs + tuples_space ts < 2 ^ 32 ->
  foldl (fun size t => uwrap 32 (size + tuple_size_at t 0 + sizeof_ItemIdData)) (uwrap 32 fs) ts = fs + tuples_space ts.
Proof.
  intros Hts. revert fs. induction Hts as [|t ts (_ & E & _) Hts IH]; intros fs Hf Hs; cbn [foldl].
  { unfold tuples_space in *. cbn in *. rewrite uwrap_small by (unfold in_uint; lia). lia. }
  pose proof (tuples_space_nonneg ts). cbn [tuples_space foldr] in *. fold (tuples_space ts) in *. unfold sizeof_ItemIdData in *.
  rewrite (uwrap_small 32 fs) by (unfold in_uint; lia). rewrite E. rewrite (IH (fs + Z.of_nat (length t) + 4)) by lia. lia.
Qed.

Lemma fit_size ts a : Forall tuple_ok ts -> foldl (fun size t => size + (tuple_size_at t 0 + sizeof_ItemIdData)) a ts = a + tuples_space ts.
Proof.
  intros Hts. revert a. induction Hts as [|t ts (_ & E & _) Hts IH]; intros a; cbn [foldl tuples_space foldr]; [cbn; lia|].
  fold (tuples_space ts). rewrite IH, E. lia.
Qed.

Lemma tuples_space_bound ts : Forall tuple_ok ts -> tuples_space ts <= 8195 * Z.of_nat (length ts).
Proof.
  induction 1 as [|t ts Ht Hts IH]; cbn [tuples_space foldr length]; [cbn; lia|]. fold (tuples_space ts).
  pose proof (tuple_size_bound t Ht). unfold INDEX_SIZE_MASK, sizeof_ItemIdData in *. lia.
Qed.

Lemma gist_items_stored items tuples : gist_items items tuples -> Forall (fun v => has_storage v = true) items.
Proof. induction 1 as [|v t items tuples (flags & -> & _) _ IH]; constructor; done. Qed.

Lemma gist_items_app items tuples ts :
  gist_items items tuples -> Forall tuple_ok ts -> gist_items (items ++ map (Stored LP_NORMAL) ts) (tuples ++ ts).
Proof.
  intros Hg Hts. apply Forall2_app; [done|]. induction Hts as [|t ts Ht Hts IH]; constructor; [|done]. by exists LP_NORMAL.
Qed.

Lemma gist_items_delete items tuples k : gist_items items tuples -> gist_items (delete k items) (delete k tuples).
Proof. apply Forall2_delete. Qed.

(** The outcome of [gistnospace]: the space that is needed against the space
    that there is. *)
Lemma gistnospace_ok p itup oldoffnum freespace tuples :
  page_wf p -> gist_items (page_items p) tuples -> Forall tuple_ok itup -> Z.of_nat (length itup) <= 65536 -> 0 <= freespace <= BLCKSZ ->
  oldoffnum = InvalidOffsetNumber \/ 1 <= oldoffnum <= PageGetMaxOffsetNumber p ->
  gistnospace p itup oldoffnum freespace =
  Ok (PageGetFreeSpace p + (if oldoffnum =? InvalidOffsetNumber then 0 else stored_len (item p oldoffnum) + sizeof_ItemIdData)
      <? freespace + tuples_space itup).
Proof.
  intros Hwf Hg Hts Hl Hf Ho. unfold gistnospace. pose proof (tuples_space_bound itup Hts).
  rewrite nospace_size by (try done; unfold BLCKSZ in *; lia).
  destruct (Z.eqb_spec oldoffnum InvalidOffsetNumber) as [|Hne]; cbn [negb]; [done|]. destruct Ho as [|Ho]; [done|].
  destruct (gist_item p tuples oldoffnum Hwf Hg Ho) as (t & _ & Ht & (flags & ->) & Ea).
  rewrite wf_get_linp by done. cbn [mbind result_bind]. rewrite Ea. cbn [mbind result_bind stored_len].
  pose proof (tuple_size_bound t Ht). destruct Ht as (_ & E & H8 & _). rewrite E, (MAXALIGN_aligned _ H8).
  by rewrite uwrap_small by (unfold in_uint, sizeof_ItemIdData, INDEX_SIZE_MASK in *; lia).
Qed.

(** ** The update of a page *)

Definition updated_tuples (tuples itup : list (list Z)) (oldoffnum : Z) : list (list Z) :=
  if oldoffnum =? InvalidOffsetNumber then tuples ++ itup
  else match itup with
  | [t] => <[Z.to_nat (oldoffnum - 1) := t]> tuples
  | _ => delete (Z.to_nat (oldoffnum - 1)) tuples ++ itup
  end.

(** The special space stays, and so does that there are no gaps. *)
Record keeps_rest (p p' : Page) : Prop := {
  kr_special : ps_special (page_state p') = ps_special (page_state p);
  kr_packed : packed (page_state p) -> packed (page_state p')
}.

Lemma keeps_rest_trans p p1 p2 : keeps_rest p p1 -> keeps_rest p1 p2 -> keeps_rest p p2.
Proof. intros [E1 P1] [E2 P2]. constructor; [congruence|auto]. Qed.

Lemma update_keeps_rest p p' items f :
  page_state p' = ps_update (page_state p) items f -> (packed (page_state p) -> f = packed_free (page_state p) items) -> keeps_rest p p'.
Proof. intros E Hf. constructor; rewrite E; [done|]. intros Hp. unfold packed. cbn [ps_free ps_update]. by rewrite Hf. Qed.

Lemma used_space_app l l' : used_space (l ++ l') = used_space l + used_space l'.
Proof. unfold used_space. induction l as [|v l IH]; cbn; [done|]. unfold used_space in *. lia. Qed.

Lemma packed_free_append s items ts :
  Forall tuple_ok ts -> packed_free s (items ++ map (Stored LP_NORMAL) ts) = packed_free s items - tuples_space ts.
Proof.
  intros Hts. unfold packed_free. rewrite length_app, length_map, used_space_app. unfold tuples_space.
  assert (E : foldr (fun t n => Z.of_nat (length t) + sizeof_ItemIdData + n) 0 ts
              = sizeof_ItemIdData * Z.of_nat (length ts) + used_space (map (Stored LP_NORMAL) ts)); [|lia].
  induction Hts as [|t ts (_ & _ & H8 & _) _ IH]; cbn [foldr map used_space length stored_len]; [done|].
  rewrite IH, (MAXALIGN_aligned _ H8). unfold used_space. lia.
Qed.

Lemma used_space_insert items k v v' : items !! k = Some v -> used_space (<[k := v']> items) = used_space items - stored_len v + stored_len v'.
Proof.
  unfold used_space. revert k. induction items as [|u items IH]; intros [|k] Hk; try done; [injection Hk as ->; cbn; lia|].
  specialize (IH k Hk). change (<[S k := v']> (u :: items)) with (u :: <[k := v']> items). cbn [foldr]. lia.
Qed.

(** A page with the given tuples, and how much space it has at least. *)
Definition updated_page (p p' : Page) (tuples : list (list Z)) (freespace : Z) : Prop :=
  page_wf p' /\ gist_items (page_items p') tuples /\ freespace <= PageGetExactFreeSpace p' /\ keeps_rest p p'.

Lemma fill_page p ts tuples freespace :
  page_wf p -> gist_items (page_items p) tuples -> Forall tuple_ok ts -> freespace + tuples_space ts <= pd_upper p - pd_lower p -> 0 <= freespace ->
  exists p', gistfillbuffer p ts InvalidOffsetNumber = Ok p' /\ updated_page p p' (tuples ++ ts) freespace.
Proof.
  intros Hwf Hg Hts Hs Hf. destruct (gistfillbuffer_ok ts p Hwf Hts) as (p' & E & Hwf' & Es); [lia|]. exists p'. split; [done|].
  split_and!; [done| | |].
  - apply (f_equal ps_items) in Es. cbn in Es. rewrite Es. by apply gist_items_app.
  - apply (f_equal ps_free) in Es. cbn in Es. unfold PageGetExactFreeSpace. rewrite Es. destruct (Z.ltb_spec (pd_upper p - pd_lower p - tuples_space ts) 0); lia.
  - eapply update_keeps_rest; [exact Es|]. unfold packed. cbn [ps_free ps_items page_state]. intros ->. by rewrite packed_free_append.
Qed.

Lemma valid_offnum p oldoffnum :
  page_wf p -> 1 <= oldoffnum <= PageGetMaxOffsetNumber p -> OffsetNumberIsValid oldoffnum = true /\ (oldoffnum =? InvalidOffsetNumber) = false.
Proof.
  intros Hwf Ho. pose proof (max_offset_bound p Hwf). unfold OffsetNumberIsValid, InvalidOffsetNumber. change MaxOffsetNumber with 2048.
  rewrite (proj2 (Z.eqb_neq _ _)), (proj2 (Z.leb_le _ _)) by lia. done.
Qed.

Lemma replace_page p t tuples oldoffnum freespace :
  page_wf p -> gist_items (page_items p) tuples -> tuple_ok t -> 1 <= oldoffnum <= PageGetMaxOffsetNumber p -> 0 <= freespace ->
  freespace + Z.of_nat (length t) <= PageGetFreeSpace p + stored_len (item p oldoffnum) ->
  exists p', (r ← PageIndexTupleOverwrite p oldoffnum (tuple_bytes t);
              let '(p, ok) := r in if ok : bool then Ok p else elog "failed to add item to index page") = Ok p' /\
  updated_page p p' (<[Z.to_nat (oldoffnum - 1) := t]> tuples) freespace.
Proof.
  intros Hwf Hg Ht Ho Hf Hs. destruct (gist_item p tuples oldoffnum Hwf Hg Ho) as (t0 & Et0 & Ht0 & (flags & Ei) & _).
  rewrite tuple_bytes_ok by done. destruct (bytes_ok_spec t (tuple_bytes_okb t Ht)) as [Hby Hne].
  destruct (PageIndexTupleOverwrite_ok p oldoffnum t flags t0 Hwf Ho Ei Hby Hne) as (p' & b & E & Hwf' & Hr).
  pose proof (page_items_lookup p oldoffnum Ho) as Hlk. rewrite Ei in Hs, Hlk. cbn [stored_len] in Hs.
  pose proof (wf_lower_upper p Hwf). assert (Hfs : PageGetFreeSpace p <= pd_upper p - pd_lower p).
  { unfold PageGetFreeSpace, sizeof_ItemIdData. destruct (Z.ltb_spec (pd_upper p - pd_lower p) 4); lia. }
  assert (Ea : MAXALIGN (Z.of_nat (length t)) = Z.of_nat (length t)) by (apply MAXALIGN_aligned, Ht).
  rewrite Ea in Hr. rewrite Z.gtb_ltb, (proj2 (Z.ltb_ge _ _)) in Hr by lia.
  destruct Hr as [-> Es]. rewrite E. cbn [mbind result_bind]. exists p'. split; [done|]. split_and!; [done| | |].
  - apply (f_equal ps_items) in Es. cbn in Es. rewrite Es. apply Forall2_insert; [done|]. by exists flags.
  - apply (f_equal ps_free) in Es. cbn in Es. unfold PageGetExactFreeSpace. rewrite Es.
    destruct (Z.ltb_spec (pd_upper p - pd_lower p + MAXALIGN (Z.of_nat (length t0)) - Z.of_nat (length t)) 0); lia.
  - eapply update_keeps_rest; [exact Es|]. unfold packed, packed_free. cbn [ps_free ps_items page_state]. intros ->.
    rewrite length_insert, (used_space_insert _ _ _ _ Hlk). cbn [stored_len]. rewrite Ea. lia.
Qed.

Lemma delete_fill_page p ts tuples oldoffnum freespace :
  page_wf p -> gist_items (page_items p) tuples -> Forall tuple_ok ts -> 1 <= oldoffnum <= PageGetMaxOffsetNumber p -> 0 <= freespace ->
  freespace + tuples_space ts <= PageGetFreeSpace p + (stored_len (item p oldoffnum) + sizeof_ItemIdData) ->
  exists p', (p ← PageIndexTupleDelete p oldoffnum; gistfillbuffer p ts InvalidOffsetNumber) = Ok p' /\
  updated_page p p' (delete (Z.to_nat (oldoffnum - 1)) tuples ++ ts) freespace.
Proof.
  intros Hwf Hg Hts Ho Hf Hs. destruct (PageIndexTupleDelete_ok p oldoffnum Hwf (gist_items_stored _ _ Hg) Ho) as (p1 & -> & Hwf1 & Es1).
  cbn [mbind result_bind]. pose proof (wf_lower_upper p Hwf).
  destruct (fill_page p1 ts (delete (Z.to_nat (oldoffnum - 1)) tuples) freespace) as (p2 & E2 & Hwf2 & Hg2 & Hf2 & K2); try done.
  - apply (f_equal ps_items) in Es1. cbn in Es1. rewrite Es1. by apply gist_items_delete.
  - apply (f_equal ps_free) in Es1. cbn in Es1. rewrite Es1. unfold PageGetFreeSpace, sizeof_ItemIdData in *.
    destruct (Z.ltb_spec (pd_upper p - pd_lower p) 4); lia.
  - exists p2. split; [done|]. split_and!; try done. eapply keeps_rest_trans; [|exact K2]. eapply update_keeps_rest; [exact Es1|].
    pose proof (page_items_lookup p oldoffnum Ho) as Hlk. unfold packed. cbn [ps_free ps_items page_state]. intros ->.
    rewrite (packed_free_delete _ _ _ _ Hlk). lia.
Qed.

(** The update of a page that has enough space. *)
Lemma gist_update_page_ok p itup oldoffnum freespace tuples :
  page_wf p -> gist_items (page_items p) tuples -> Forall tuple_ok itup -> 0 <= freespace ->
  oldoffnum = InvalidOffsetNumber \/ 1 <= oldoffnum <= PageGetMaxOffsetNumber p ->
  freespace + tuples_space itup <=
    PageGetFreeSpace p + (if oldoffnum =? InvalidOffsetNumber then 0 else stored_len (item p oldoffnum) + sizeof_ItemIdData) ->
  exists p', gist_update_page p itup oldoffnum = Ok p' /\ updated_page p p' (updated_tuples tuples itup oldoffnum) freespace.
Proof.
  intros Hwf Hg Hts Hf Ho Hs. unfold gist_update_page, updated_tuples. destruct Ho as [-> |Ho].
  - change (OffsetNumberIsValid InvalidOffsetNumber) with false. rewrite Z.eqb_refl in *. apply fill_page; try done.
    pose proof (wf_lower_upper p Hwf). pose proof (tuples_space_nonneg itup).
    unfold PageGetFreeSpace, sizeof_ItemIdData in *. destruct (Z.ltb_spec (pd_upper p - pd_lower p) 4); lia.
  - destruct (valid_offnum p oldoffnum Hwf Ho) as [-> E]. rewrite E in *.
    destruct itup as [|t [|t' ts]]; [apply delete_fill_page; done || lia| |apply delete_fill_page; done || lia].
    apply Forall_cons in Hts as [Ht _]. apply replace_page; try done. unfold tuples_space in Hs. cbn in Hs. lia.
Qed.

(** ** Fresh pages *)

(** Writing to the special space, or to the fields before [pd_flags]. *)
Lemma special_put p o bs :
  page_wf p -> Forall is_byte bs -> 0 <= o -> pd_special p <= o \/ o + Z.of_nat (length bs) <= 10 -> o + Z.of_nat (length bs) <= BLCKSZ ->
  page_wf (put p o bs) /\ page_items (put p o bs) = page_items p /\
  pd_lower (put p o bs) = pd_lower p /\ pd_upper (put p o bs) = pd_upper p /\ pd_special (put p o bs) = pd_special p.
Proof.
  intros Hwf Hb H0 Ho Hl. pose proof Hwf as [Hp ? ? ? ? ? ? ? ? Hv L].
  destruct (put_page p o bs) as (Hp' & F & _); [done..|].
  assert (Hg : forall x, 10 <= x <= 22 -> get16 (put p o bs) x = get16 p x) by (intros; eapply frame_get16; [exact F|linp_lia..]).
  assert (El : pd_lower (put p o bs) = pd_lower p) by (apply Hg; lia).
  assert (Eu : pd_upper (put p o bs) = pd_upper p) by (apply Hg; lia).
  assert (Es : pd_special (put p o bs) = pd_special p) by (apply Hg; lia).
  assert (Ef : pd_flags (put p o bs) = pd_flags p) by (apply Hg; lia).
  assert (Em : PageGetMaxOffsetNumber (put p o bs) = PageGetMaxOffsetNumber p) by (unfold PageGetMaxOffsetNumber; by rewrite El).
  destruct (wf_linps p Hwf) as [Hn Hlow].
  assert (Elp : forall i, 1 <= i <= PageGetMaxOffsetNumber p -> linp (put p o bs) i = linp p i) by (intros; eapply frame_linp; [exact F|linp_lia..]).
  split_and!; try done.
  - constructor; rewrite ?El, ?Eu, ?Es, ?Ef, ?Em; try done; [rewrite <- Hv; apply Hg; lia|]. constructor.
    + intros i Hi. rewrite Elp by done. by apply L.
    + intros i j Hi Hj. rewrite !Elp by done. by apply L.
    + intros i Hi. rewrite Elp by done. by apply L.
  - apply page_items_eq; rewrite Em; [rewrite page_items_length; lia|]. intros i Hi. rewrite page_items_lookup by done. f_equal. symmetry.
    apply item_same; [by apply Elp|]. intros Hli. destruct (wf_stored_at p i Hwf Hi Hli) as [? ? ? ? ? ?]. apply F; linp_lia.
Qed.

(** A new GiST page. *)
Lemma GISTInitBuffer_ok p f :
  Z.of_nat (length p) = BLCKSZ ->
  page_wf (GISTInitBuffer p f) /\ page_items (GISTInitBuffer p f) = [] /\
  pd_upper (GISTInitBuffer p f) - pd_lower (GISTInitBuffer p f) = GiSTPageSize /\
  pd_special (GISTInitBuffer p f) = BLCKSZ - sizeof_GISTPageOpaqueData /\
  get16 (GISTInitBuffer p f) (BLCKSZ - sizeof_GISTPageOpaqueData + 12) = f mod 2 ^ 16.
Proof.
  intros Hl. destruct (PageInit_page p sizeof_GISTPageOpaqueData Hl) as [Hwf Es]; [done|vm_compute; discriminate|]. unfold GISTInitBuffer.
  set (p0 := PageInit p BLCKSZ sizeof_GISTPageOpaqueData) in *. cbv zeta. clearbody p0.
  assert (Ei : page_items p0 = []) by (by apply (f_equal ps_items) in Es).
  assert (Esp : length (bytes_at p0 (pd_special p0) (BLCKSZ - pd_special p0)) = 16%nat) by (apply (f_equal ps_special) in Es; cbn in Es; by rewrite Es).
  assert (Ef : pd_upper p0 - pd_lower p0 = GiSTPageSize) by (by apply (f_equal ps_free) in Es).
  pose proof Hwf as [[Hpl _] ? ? ? ? ? ? ? ? _ _]. rewrite bytes_at_length in Esp by linp_lia.
  assert (Hsp : pd_special p0 + 16 = BLCKSZ) by linp_lia. unfold put16.
  destruct (special_put p0 (pd_special p0 + 8) (le_bytes 4 InvalidBlockNumber)) as (Hwf1 & Ei1 & El1 & Eu1 & Es1);
    [done|apply le_bytes_is_byte|linp_lia|left; lia|rewrite length_le_bytes; lia|]. set (p1 := put p0 _ _) in *.
  destruct (special_put p1 (pd_special p0 + 12) (le_bytes 2 f)) as (Hwf2 & Ei2 & El2 & Eu2 & Es2);
    [done|apply le_bytes_is_byte|linp_lia|left; lia|rewrite length_le_bytes; lia|]. set (p2 := put p1 _ _) in *.
  destruct (special_put p2 (pd_special p0 + 14) (le_bytes 2 GIST_PAGE_ID)) as (Hwf3 & Ei3 & El3 & Eu3 & Es3);
    [done|apply le_bytes_is_byte|linp_lia|left; lia|rewrite length_le_bytes; lia|]. replace (BLCKSZ - sizeof_GISTPageOpaqueData) with (pd_special p0) by (unfold sizeof_GISTPageOpaqueData; lia).
  split_and!; [done|congruence|lia|congruence|].
  assert (L1 : length p1 = length p0) by (unfold p1; apply length_put; rewrite ?length_le_bytes; linp_lia).
  assert (L2 : length p2 = length p0) by (unfold p2; rewrite length_put; rewrite ?length_le_bytes; linp_lia).
  unfold get16. rewrite bytes_at_put_out by (rewrite ?length_le_bytes; linp_lia). unfold p2.
  rewrite bytes_at_put_in by (rewrite ?length_le_bytes; linp_lia). rewrite Z.sub_diag, bytes_at_all by (by rewrite length_le_bytes). by rewrite le_value_bytes.
Qed.

(** A copy of a page without its items. *)
Lemma PageGetTempPageCopySpecial_ok p temp :
  page_wf p -> Z.of_nat (length temp) = BLCKSZ ->
  exists p', PageGetTempPageCopySpecial p temp = Ok p' /\ page_wf p' /\ page_items p' = [] /\
  pd_upper p' - pd_lower p' = pd_special p - SizeOfPageHeaderData /\ ps_special (page_state p') = ps_special (page_state p).
Proof.
  intros Hwf Ht. pose proof Hwf as [Hp ? ? ? ? ? ? ? ? Hv _].
  assert (Esz : PageGetPageSize p = BLCKSZ) by (unfold PageGetPageSize; by rewrite Hv).
  assert (Ess : PageGetSpecialSize p = BLCKSZ - pd_special p) by (unfold PageGetSpecialSize; rewrite Esz, uwrap_small by (unfold in_uint; linp_lia); done).
  assert (E8 : MAXALIGN (BLCKSZ - pd_special p) = BLCKSZ - pd_special p) by (apply MAXALIGN_aligned; unfold BLCKSZ; zlia).
  unfold PageGetTempPageCopySpecial. rewrite Esz, Ess. rewrite mem_read_page by (done || linp_lia). cbn [mbind result_bind].
  destruct (PageInit_page temp (BLCKSZ - pd_special p) Ht) as [Hwf0 Es]; [linp_lia|rewrite E8; linp_lia|].
  set (p0 := PageInit temp BLCKSZ (BLCKSZ - pd_special p)) in *. clearbody p0.
  assert (Hlen : length (bytes_at p (pd_special p) (BLCKSZ - pd_special p)) = Z.to_nat (BLCKSZ - pd_special p)) by (apply bytes_at_length; destruct Hp; linp_lia).
  assert (Esp : pd_special p0 = pd_special p).
  { apply (f_equal (fun s => length (ps_special s))) in Es. cbn [ps_special page_state init_state] in Es. rewrite E8, length_replicate in Es.
    pose proof Hwf0 as [[Hpl _] ? ? ? ? ? ? ? ? _ _]. rewrite bytes_at_length in Es by linp_lia. linp_lia. }
  rewrite Esp, mem_write_page by (apply Hwf0 || (rewrite ?Hlen; linp_lia)).
  destruct (special_put p0 (pd_special p) (bytes_at p (pd_special p) (BLCKSZ - pd_special p))) as (Hwf1 & Ei1 & El1 & Eu1 & Es1);
    [done|apply bytes_at_is_byte, Hp|linp_lia|left; lia|rewrite Hlen; linp_lia|].
  eexists. split_and!; [done|done| | |].
  - rewrite Ei1. by apply (f_equal ps_items) in Es.
  - rewrite El1, Eu1. apply (f_equal ps_free) in Es. cbn [ps_free page_state init_state] in Es. rewrite Es, E8. lia.
  - cbn [ps_special page_state]. rewrite Es1, Esp. destruct (wf_page p0 Hwf0). rewrite bytes_at_put_in by (rewrite ?Hlen; linp_lia).
    rewrite Z.sub_diag. apply bytes_at_all. rewrite Hlen. linp_lia.
Qed.

(** ** Theorems *)

(** The page update of a GiST insertion cannot fail.  On a page of index
    tuples, when [gistnospace] says that there is enough space, the update that
    [gistplacetopage] then makes inside a critical section, where an error would
    take the server down, succeeds: the old tuple is replaced in place, or
    deleted and the new tuples appended, the other tuples are what they were,
    and [freespace] bytes are still free.  When it says that there is not, the
    vector to split has the tuples of the page without the old one and the new
    ones. *)
Theorem gist_update_succeeds p itup oldoffnum freespace tuples :
  page_wf p -> gist_items (page_items p) tuples ->
  Forall tuple_ok itup -> Z.of_nat (length itup) <= 65536 -> 0 <= freespace <= BLCKSZ ->
  oldoffnum = InvalidOffsetNumber \/ 1 <= oldoffnum <= PageGetMaxOffsetNumber p ->
  exists nospace, gistnospace p itup oldoffnum freespace = Ok nospace /\
  if nospace : bool then
    gist_split_vector p itup oldoffnum =
      Ok ((if oldoffnum =? InvalidOffsetNumber then tuples else delete (Z.to_nat (oldoffnum - 1)) tuples) ++ itup)
  else
    exists p', gist_update_page p itup oldoffnum = Ok p' /\ page_wf p' /\
    gistextractpage p' = Ok (updated_tuples tuples itup oldoffnum) /\ freespace <= PageGetExactFreeSpace p'.
Proof.
  intros Hwf Hg Hts Hl Hf Ho. rewrite (gistnospace_ok p itup oldoffnum freespace tuples) by done. eexists. split; [done|].
  unfold gist_split_vector. rewrite (gistextractpage_ok p tuples) by done. cbn [mbind result_bind].
  match goal with |- context [?a <? ?b] => destruct (Z.ltb_spec a b) as [Hs|Hs] end.
  - destruct Ho as [-> |Ho]; [done|]. by destruct (valid_offnum p oldoffnum Hwf Ho) as [-> ->].
  - destruct (gist_update_page_ok p itup oldoffnum freespace tuples) as (p' & E & Hwf' & Hg' & Hf' & _); [done..|lia|done|done|].
    exists p'. split_and!; try done. by apply gistextractpage_ok.
Qed.

(** An empty page of GiST size filled after a split. *)
Lemma fill_empty_page p itvec :
  page_wf p -> page_items p = [] -> pd_upper p - pd_lower p = GiSTPageSize -> Forall tuple_ok itvec ->
  if gistfitpage itvec then
    exists p', gist_fill_split (length itvec) p (gistfillitupvec itvec) 0 = Ok p' /\ page_wf p' /\ gist_items (page_items p') itvec /\ keeps_rest p p'
  else gist_fill_split (length itvec) p (gistfillitupvec itvec) 0 = elog "failed to add item to index page".
Proof.
  intros Hwf Ei Ef Hts. pose proof (gist_fill_split_ok itvec p Hwf Hts) as H. unfold gistfitpage. rewrite fit_size, Z.add_0_l by done. rewrite Ef in H.
  assert (Em : PageGetMaxOffsetNumber p = 0).
  { apply (f_equal length) in Ei. rewrite page_items_length in Ei. cbn in Ei. pose proof (max_offset_bound p Hwf). lia. }
  rewrite Em in H. destruct (_ <=? _); [|done]. destruct H as (p' & E & Hwf' & Es). exists p'. split_and!; [done..| |].
  - apply (f_equal ps_items) in Es. cbn [ps_items page_state ps_update] in Es. rewrite Es, Ei. by apply (gist_items_app [] []); [constructor|].
  - eapply update_keeps_rest; [exact Es|]. unfold packed. cbn [ps_free ps_items page_state]. intros Hp. rewrite packed_free_append by done. lia.
Qed.

(** [gistfitpage] is exact.  Tuples for which it is true can be stored on a
    new GiST page, or on the empty copy of a GiST page that replaces it after a
    split, and [gistextractpage] reads them back in order; when it is false the
    page cannot be filled, which [gistplacetopage] reports as an error. *)
Theorem gist_fit_roundtrip p f itvec :
  Z.of_nat (length p) = BLCKSZ -> Forall tuple_ok itvec ->
  if gistfitpage itvec then
    (exists p', gist_fill_split (length itvec) (GISTInitBuffer p f) (gistfillitupvec itvec) 0 = Ok p' /\ page_wf p' /\ gistextractpage p' = Ok itvec) /\
    (forall q, page_wf q -> pd_special q = BLCKSZ - MAXALIGN sizeof_GISTPageOpaqueData ->
     exists p', (temp ← PageGetTempPageCopySpecial q p; gist_fill_split (length itvec) temp (gistfillitupvec itvec) 0) = Ok p' /\
     page_wf p' /\ gistextractpage p' = Ok itvec /\ ps_special (page_state p') = ps_special (page_state q))
  else
    gist_fill_split (length itvec) (GISTInitBuffer p f) (gistfillitupvec itvec) 0 = elog "failed to add item to index page".
Proof.
  intros Hl Hts. destruct (GISTInitBuffer_ok p f Hl) as (Hwf & Ei & Ef & _). pose proof (fill_empty_page _ itvec Hwf Ei Ef Hts) as H.
  destruct (gistfitpage itvec) eqn:Efit; [|exact H].
  split; [destruct H as (p' & ? & ? & ? & _); exists p'; split_and!; [assumption..|by apply gistextractpage_ok]|]. intros q Hq Esp.
  destruct (PageGetTempPageCopySpecial_ok q p Hq Hl) as (temp & -> & Hwft & Eit & Eft & Est). cbn [mbind result_bind].
  pose proof (fill_empty_page temp itvec Hwft Eit) as Ht. rewrite Efit in Ht.
  destruct Ht as (p' & ? & ? & ? & [? _]); [rewrite Eft, Esp; reflexivity|assumption|]. exists p'. split_and!; [assumption..|by apply gistextractpage_ok|congruence].
Qed.

(** *** Witnesses *)

(** Tuples of 16 and 24 bytes. *)
Definition tuple16 : list Z := [0; 0; 0; 0; 1; 0; 16; 0; 1; 2; 3; 4; 5; 6; 7; 8].
Definition tuple24 : list Z := [0; 0; 0; 0; 2; 0; 24; 0; 1; 2; 3; 4; 5; 6; 7; 8; 9; 10; 11; 12; 13; 14; 15; 16].

Lemma tuple16_ok : tuple_ok tuple16.
Proof. unfold tuple_ok. split_and!; [apply byte_list_ok; by vm_compute|by vm_compute|by vm_compute|by vm_compute]. Qed.

Lemma tuple24_ok : tuple_ok tuple24.
Proof. unfold tuple_ok. split_and!; [apply byte_list_ok; by vm_compute|by vm_compute|by vm_compute|by vm_compute]. Qed.


Definition zero_page : Page := replicate (Z.to_nat BLCKSZ) 0.

(** A leaf page with the two tuples. *)
Definition example_gist_page : Page :=
  match gistfillbuffer (GISTInitBuffer zero_page 1) [tuple16; tuple24] InvalidOffsetNumber with Ok p => p | Err _ => [] end.

Lemma example_gist_page_ok : page_wf example_gist_page /\ gist_items (page_items example_gist_page) [tuple16; tuple24].
Proof.
  assert (Hts : Forall tuple_ok [tuple16; tuple24]) by (apply Forall_cons; split; [apply tuple16_ok|apply Forall_singleton, tuple24_ok]).
  destruct (GISTInitBuffer_ok zero_page 1) as (Hwf & Ei & Ef & _); [unfold zero_page; by rewrite length_replicate|].
  destruct (gistfillbuffer_ok [tuple16; tuple24] (GISTInitBuffer zero_page 1) Hwf Hts) as (p' & E & Hwf' & Es); [rewrite Ef; by vm_compute|].
  unfold example_gist_page. rewrite E. split; [done|]. apply (f_equal ps_items) in Es. cbn [ps_items page_state ps_update] in Es. rewrite Es, Ei.
  by apply (gist_items_app [] []); [constructor|].
Qed.

Lemma gist_update_succeeds_witness :
  exists p', gist_update_page example_gist_page [tuple24] 1 = Ok p' /\ gistextractpage p' = Ok [tuple24; tuple24] /\ 100 <= PageGetExactFreeSpace p'.
Proof.
  destruct example_gist_page_ok as [Hwf Hg].
  destruct (gist_update_succeeds example_gist_page [tuple24] 1 100 [tuple16; tuple24] Hwf Hg) as (nospace & E & H);
    [apply Forall_singleton, tuple24_ok|by vm_compute|by vm_compute|right; by vm_compute|].
  assert (En : nospace = false) by (assert (E' : gistnospace example_gist_page [tuple24] 1 100 = Ok false) by (by vm_compute); congruence).
  rewrite En in H. destruct H as (p' & Eu & _ & Ex & Hf). exists p'. split; [exact Eu|]. split; [exact Ex|exact Hf].
Defined.

Lemma gist_fit_roundtrip_witness :
  exists p', gist_fill_split 2 (GISTInitBuffer zero_page 1) (tuple16 ++ tuple24) 0 = Ok p' /\ gistextractpage p' = Ok [tuple16; tuple24].
Proof.
  assert (Hts : Forall tuple_ok [tuple16; tuple24]) by (apply Forall_cons; split; [apply tuple16_ok|apply Forall_singleton, tuple24_ok]).
  assert (Hl : Z.of_nat (length zero_page) = BLCKSZ) by (by vm_compute).
  pose proof (gist_fit_roundtrip zero_page 1 [tuple16; tuple24] Hl Hts) as H.
  change (gistfitpage [tuple16; tuple24]) with true in H. destruct H as [(p' & E & _ & Ex) _]. exists p'. split; [exact E|exact Ex].
Defined.
