(* ===== verification/GistPlace.v ===== *)
(** * Placing tuples on a GiST page

    [gistplacetopage] of access/gist/gist.c with [gistprunepage], the split of
    a page into pages with their downlinks, the chain of right links and the
    marks for concurrent scans.  An index is its blocks.

    Buffers that [gistNewBuffer] returns, the memory of temporary pages and the
    LSNs of the WAL records are arguments; locks and the WAL records are left
    out.  The index has one column of a range type without NULLs, and no
    compress function. *)

From stdpp Require Import gmap.
From S2P Require Import Prelude Varlena PgLz Toast HeapTuple HeapTupleProofs IndexTuple Sorting QSort.
From S2P Require Import RangeTypes RangeOrder RangeOps RangeStore RangeGist RangeGistSplit RangeGistKeys RangeGistTree.
From S2P Require Import Page PageMem PageShift PageAdd PageCompact PageMulti PageOps PageTheorems GistPage.

(** ** The special space of a GiST page *)

Definition get32 (p : Page) (off : Z) : Z := le_value (bytes_at p off 4).
Definition put32 (p : Page) (off x : Z) : Page := put p off (le_bytes 4 x).

Definition F_LEAF : Z := 1.
Definition F_FOLLOW_RIGHT : Z := 8.
Definition F_HAS_GARBAGE : Z := 16.

Definition gist_rightlink (p : Page) : Z := get32 p (pd_special p + 8).
Definition set_gist_rightlink (p : Page) (blkno : Z) : Page := put32 p (pd_special p + 8) blkno.
Definition gist_flags (p : Page) : Z := get16 p (pd_special p + 12).
Definition set_gist_flags (p : Page) (flags : Z) : Page := put16 p (pd_special p + 12) flags.

Definition GistPageIsLeaf (p : Page) : bool := bit_set (gist_flags p) F_LEAF.
Definition GistFollowRight (p : Page) : bool := bit_set (gist_flags p) F_FOLLOW_RIGHT.
Definition GistMarkFollowRight (p : Page) : Page := set_gist_flags p (Z.lor (gist_flags p) F_FOLLOW_RIGHT).
Definition GistClearFollowRight (p : Page) : Page := set_gist_flags p (Z.land (gist_flags p) (Z.lnot F_FOLLOW_RIGHT)).
Definition GistPageHasGarbage (p : Page) : bool := bit_set (gist_flags p) F_HAS_GARBAGE.
Definition GistClearPageHasGarbage (p : Page) : Page := set_gist_flags p (Z.land (gist_flags p) (Z.lnot F_HAS_GARBAGE)).

Definition GistPageGetNSN (p : Page) : Z := Z.lor (Z.shiftl (get32 p (pd_special p)) 32) (get32 p (pd_special p + 4)).
Definition GistPageSetNSN (p : Page) (nsn : Z) : Page := put32 (put32 p (pd_special p) (Z.shiftr nsn 32)) (pd_special p + 4) nsn.
Definition PageGetLSN (p : Page) : Z := Z.lor (Z.shiftl (get32 p 0) 32) (get32 p 4).
Definition PageSetLSN (p : Page) (lsn : Z) : Page := put32 (put32 p 0 (Z.shiftr lsn 32)) 4 lsn.

(** ** Removing dead tuples *)

Definition ItemIdIsDead (lp : ItemIdData) : bool := lp_flags lp =? LP_DEAD.

(** The loop that collects the offsets of the dead items in [deletable]. *)
Fixpoint dead_items (n : nat) (p : Page) (offnum : Z) (deletable : list Z) : result (list Z) :=
  match n with
  | O => Ok deletable
  | S n' =>
      itemId ← PageGetItemId p offnum;
      if ItemIdIsDead itemId then
        if Z.of_nat (length deletable) >=? MaxIndexTuplesPerPage then undefined "deletable is full"
        else dead_items n' p (offnum + 1) (deletable ++ [offnum])
      else dead_items n' p (offnum + 1) deletable
  end.

Definition gistprunepage `{Sorter} (p : Page) (recptr : Z) : result Page :=
  deletable ← dead_items (Z.to_nat (PageGetMaxOffsetNumber p)) p FirstOffsetNumber [];
  if (0 <? length deletable)%nat then
    p ← PageIndexMultiDelete p deletable;
    Ok (PageSetLSN (GistClearPageHasGarbage p) recptr)
  else Ok p.

(** ** Keys and tuples *)

(** The tuple in memory as a record. *)
Definition itup_of_bytes (t : list Z) : IndexTuple :=
  mkIndexTuple (get16 t 0 * 2 ^ 16 + get16 t 2, get16 t 4) (get16 t 6) (drop 8 t).

Definition range_image (r : RangeType) : list Z := le_bytes 4 (vl_len_ r) ++ le_bytes 4 (rangetypid r) ++ rdata r.
Definition range_of_image (bs : list Z) : RangeType :=
  mkRange (le_value (bytes_at bs 0 4)) (le_value (bytes_at bs 4 4)) (drop 8 bs).

Definition TUPLE_IS_VALID : Z := 0xffff.
Definition GIST_ROOT_BLKNO : Z := 0.
Definition GIST_MAX_SPLIT_PAGES : Z := 75.

Section Place.
Context `{H1 : Varlena.Toast} `{Sorter} (tc : TypeCacheEntry) (w : World) (leafTupdesc nonLeafTupdesc : TupleDesc).

(** The key of a tuple, as the support functions get it. *)
Definition tuple_key (t : list Z) : result RangeType :=
  '(v, _) ← index_getattr (itup_of_bytes t) 1 leafTupdesc;
  match v with
  | Some d => bs ← Toast.detoast_attr w (DatumGetPointer d); Ok (range_of_image bs)
  | None => undefined "null key"
  end.

Fixpoint tuple_keys (itvec : list (list Z)) : result (list (list Z * RangeType)) :=
  match itvec with
  | [] => Ok []
  | t :: itvec' => k ← tuple_key t; ks ← tuple_keys itvec'; Ok ((t, k) :: ks)
  end.

(** A tuple for an inner page. *)
Definition gistFormTuple (key : RangeType) : result IndexTuple :=
  res ← index_form_tuple w nonLeafTupdesc [Some (DPtr (range_image key))];
  Ok (mkIndexTuple ((t_tid res).1, 0xffff) (t_info res) (it_bytes res)).

(** ** Splitting *)

Record SplitedPageLayout : Type := mkLayout { lay_num : nat; lay_list : list Z; lay_itup : IndexTuple }.

Definition layout_of (vec : list (list Z * RangeType)) (datum : option RangeType) : result (list SplitedPageLayout) :=
  d ← union_datum datum;
  itup ← gistFormTuple d;
  Ok [mkLayout (length vec) (gistfillitupvec (map fst vec)) itup].

Fixpoint gistSplitLayout (fuel : nat) (itup : list (list Z * RangeType)) : result (list SplitedPageLayout) :=
  match fuel with
  | O => undefined "out of fuel"
  | S fuel' =>
      if (length itup =? 1)%nat then ereport ERRCODE_PROGRAM_LIMIT_EXCEEDED "index row size exceeds maximum"
      else
        v ← gistUserPicksplit tc (map snd itup);
        lvectup ← tuples_at itup (spl_left v);
        rvectup ← tuples_at itup (spl_right v);
        rres ← (if negb (gistfitpage (map fst rvectup)) then gistSplitLayout fuel' rvectup else layout_of rvectup (spl_rdatum v));
        lres ← (if negb (gistfitpage (map fst lvectup)) then gistSplitLayout fuel' lvectup else layout_of lvectup (spl_ldatum v));
        Ok (lres ++ rres)
  end.

(** A page to fill: the tuples, its block and its contents so far. *)
Record WorkPage : Type := mkWork { wp_num : nat; wp_list : list Z; wp_blkno : Z; wp_page : Page }.

(** New buffers for the pages of [dist]. *)
Fixpoint new_pages (flags : Z) (dist : list SplitedPageLayout) (newbufs : list (Z * Page)) : result (list WorkPage) :=
  match dist, newbufs with
  | [], _ => Ok []
  | d :: dist', (blkno, p) :: newbufs' =>
      rest ← new_pages flags dist' newbufs';
      Ok (mkWork (lay_num d) (lay_list d) blkno (GISTInitBuffer p flags) :: rest)
  | _ :: _, [] => elog "no new buffer"
  end.

(** The downlink of a page. *)
Definition downlink (d : SplitedPageLayout) (blkno : Z) : list Z :=
  itup_image (mkIndexTuple (blkno, TUPLE_IS_VALID) (t_info (lay_itup d)) (it_bytes (lay_itup d))).

(** The loop that fills the pages. *)
Fixpoint fill_pages (is_rootsplit markfollowright : bool) (oldrlink oldnsn : Z) (dist : list WorkPage) : result (list (Z * Page)) :=
  match dist with
  | [] => Ok []
  | ptr :: dist' =>
      p ← gist_fill_split (wp_num ptr) (wp_page ptr) (wp_list ptr) 0;
      let p := set_gist_rightlink p
                 match dist' with
                 | next :: _ => if negb (wp_blkno ptr =? GIST_ROOT_BLKNO) then wp_blkno next else oldrlink
                 | [] => oldrlink
                 end in
      let p := if negb (length dist' =? 0)%nat && negb is_rootsplit && markfollowright then GistMarkFollowRight p else GistClearFollowRight p in
      let p := GistPageSetNSN p oldnsn in
      rest ← fill_pages is_rootsplit markfollowright oldrlink oldnsn dist';
      Ok ((wp_blkno ptr, p) :: rest)
  end.

(** The tuples of a block of memory. *)
Fixpoint data_tuples (n : nat) (data : list Z) : list (list Z) :=
  match n with
  | O => []
  | S n' => tuple_bytes data :: data_tuples n' (drop (Z.to_nat (tuple_size_at data 0)) data)
  end.

Definition same_tid (t t' : list Z) : bool := ItemPointerEquals (t_tid (itup_of_bytes t)) (t_tid (itup_of_bytes t')).

(** The block where the first of the new tuples landed: the last one that has a
    tuple with the same [t_tid]. *)
Definition landing (itup : list (list Z)) (dist : list WorkPage) : option Z :=
  match itup with
  | [] => None
  | first :: _ =>
      foldl (fun newblkno ptr => if existsb (fun t => same_tid t first) (data_tuples (wp_num ptr) (wp_list ptr)) then Some (wp_blkno ptr) else newblkno)
        None dist
  end.

Definition file_get (file : gmap Z Page) (blkno : Z) : result Page :=
  match file !! blkno with Some p => Ok p | None => elog "could not read block" end.

Definition file_put (file : gmap Z Page) (pages : list (Z * Page)) (recptr : Z) : gmap Z Page :=
  foldl (fun file '(blkno, p) => <[blkno := PageSetLSN p recptr]> file) file pages.

(** The page has to be split: the changed blocks, the downlinks for the caller
    to insert and where the first tuple landed. *)
Definition place_split (file : gmap Z Page) (blkno : Z) (page : Page) (itup : list (list Z)) (oldoffnum : Z) (markfollowright : bool)
    (newbufs : list (Z * Page)) (temp : Page) (recptr : Z) : result (gmap Z Page * list (Z * list Z) * option Z) :=
  let is_rootsplit := blkno =? GIST_ROOT_BLKNO in
  let flags := if GistPageIsLeaf page then F_LEAF else 0 in
  itvec ← gist_split_vector page itup oldoffnum;
  ktvec ← tuple_keys itvec;
  dist ← gistSplitLayout (length ktvec) ktvec;
  let npage := Z.of_nat (length dist) + (if is_rootsplit then 1 else 0) in
  if npage >? GIST_MAX_SPLIT_PAGES then elog "GiST page split into too many halves"
  else
    let oldrlink := if is_rootsplit then InvalidBlockNumber else gist_rightlink page in
    let oldnsn := if is_rootsplit then 0 else GistPageGetNSN page in
    temp ← PageGetTempPageCopySpecial page temp;
    pages ← (if is_rootsplit then new_pages flags dist newbufs
             else match dist with
                  | [] => undefined "empty split"
                  | d :: dist' =>
                      rest ← new_pages flags dist' newbufs;
                      Ok (mkWork (lay_num d) (lay_list d) blkno (set_gist_flags temp flags) :: rest)
                  end);
    let downlinks := zip_with (fun d ptr => (wp_blkno ptr, downlink d (wp_blkno ptr))) dist pages in
    let work := if is_rootsplit
                then mkWork (length downlinks) (gistfillitupvec (map snd downlinks)) GIST_ROOT_BLKNO (set_gist_flags temp 0) :: pages
                else pages in
    filled ← fill_pages is_rootsplit markfollowright oldrlink oldnsn work;
    match filled with
    | [] => undefined "empty split"
    | (b, p) :: rest =>
        p ← PageRestoreTempPage p page;
        Ok (file_put file ((b, p) :: rest) recptr, if is_rootsplit then [] else downlinks, landing itup work)
    end.

Record GistPlaced : Type := mkPlaced {
  pl_file : gmap Z Page;
  pl_split : bool;
  pl_splitinfo : list (Z * list Z);
  pl_newblkno : option Z
}.

Definition gistplacetopage (file : gmap Z Page) (freespace blkno : Z) (itup : list (list Z)) (oldoffnum : Z) (leftchild : option Z)
    (markfollowright : bool) (newbufs : list (Z * Page)) (temp : Page) (prunelsn recptr : Z) : result GistPlaced :=
  page ← file_get file blkno;
  if GistFollowRight page then elog "concurrent GiST page split was incomplete"
  else
    is_split ← gistnospace page itup oldoffnum freespace;
    '(page, is_split) ←
      (if is_split && GistPageIsLeaf page && GistPageHasGarbage page then
         page ← gistprunepage page prunelsn;
         is_split ← gistnospace page itup oldoffnum freespace;
         Ok (page, is_split)
       else Ok (page, is_split));
    '(file, splitinfo, newblkno) ←
      (if is_split : bool then place_split file blkno page itup oldoffnum markfollowright newbufs temp recptr
       else page ← gist_update_page page itup oldoffnum; Ok (<[blkno := PageSetLSN page recptr]> file, [], Some blkno));
    file ← match leftchild with
           | None => Ok file
           | Some b =>
               leftpg ← file_get file b;
               Ok (<[b := PageSetLSN (GistClearFollowRight (GistPageSetNSN leftpg recptr)) recptr]> file)
           end;
    Ok (mkPlaced file is_split splitinfo newblkno).

End Place.
