(* ===== verification/GistPlaceProofs.v ===== *)
(** * Placing tuples on a GiST page: lemmas

    Pages of an index and the fields of their special space, pruning, the
    layouts of a split, filling the pages and writing them back. *)

From stdpp Require Import gmap.
From S2P Require Import Prelude Varlena PgLz PgLzTheorems Toast ToastInline ToastTupleInv HeapTuple HeapTupleProofs IndexTuple IndexTupleTheorems Sorting QSort.
From S2P Require Import RangeTypes RangeOrder RangeOps RangeStore RangeGist RangeGistSplit RangeGistKeys RangeGistTree.
From S2P Require Import Page PageMem PageShift PageAdd PageCompact PageMulti PageOps PageTheorems GistPage GistPlace.

(** ** Pages of an index *)

Record gist_page (p : Page) (tuples : list (list Z)) : Prop := {
  gp_wf : page_wf p;
  gp_special : pd_special p = BLCKSZ - sizeof_GISTPageOpaqueData;
  gp_items : gist_items (page_items p) tuples;
  gp_packed : packed (page_state p)
}.

Lemma gist_page_extract p tuples : gist_page p tuples -> gistextractpage p = Ok tuples.
Proof. intros [? ? ? ?]. by apply gistextractpage_ok. Qed.

Lemma packed_fields p p' :
  page_items p' = page_items p -> pd_lower p' = pd_lower p -> pd_upper p' = pd_upper p ->
  length (ps_special (page_state p')) = length (ps_special (page_state p)) -> packed (page_state p) -> packed (page_state p').
Proof. intros Ei El Eu Es. unfold packed, packed_free. by rewrite Es; cbn [ps_items ps_free page_state]; rewrite Ei, El, Eu. Qed.

(** Changes outside of the items. *)
Lemma gist_page_put p tuples o bs :
  gist_page p tuples -> Forall is_byte bs -> 0 <= o -> pd_special p <= o \/ o + Z.of_nat (length bs) <= 10 -> o + Z.of_nat (length bs) <= BLCKSZ ->
  gist_page (put p o bs) tuples /\ frame p (put p o bs) o (o + Z.of_nat (length bs)).
Proof.
  intros [Hwf Hs Hi Hp] Hb H0 Ho Hl. destruct (special_put p o bs Hwf Hb H0 Ho Hl) as (Hwf' & Ei & El & Eu & Es).
  split; [|by apply put_page; try done; apply Hwf]. constructor; [done|congruence|congruence|].
  eapply packed_fields; [done..| |exact Hp]. cbn [ps_special page_state]. destruct (wf_page _ Hwf), (wf_page _ Hwf').
  rewrite Es, !bytes_at_length by (rewrite Hs; unfold BLCKSZ, sizeof_GISTPageOpaqueData in *; lia). done.
Qed.

(** The fields of the special space and the LSN. *)
Definition gist_fields (p : Page) : Z * Z * Z * Z := (GistPageGetNSN p, gist_rightlink p, gist_flags p, PageGetLSN p).

Lemma frame_get32 p p' lo hi o : frame p p' lo hi -> 0 <= o -> o + 4 <= lo \/ hi <= o -> get32 p' o = get32 p o.
Proof. intros F ? ?. unfold get32. by rewrite F. Qed.

Lemma get32_put32 p o x : is_page p -> 0 <= o -> o + 4 <= BLCKSZ -> get32 (put32 p o x) o = x mod 2 ^ 32.
Proof.
  intros Hp ? ?. unfold get32, put32. destruct (put_page p o (le_bytes 4 x)) as (_ & _ & In); [done|apply le_bytes_is_byte|done|by rewrite length_le_bytes|].
  rewrite In by (rewrite ?length_le_bytes; lia). rewrite Z.sub_diag, bytes_at_all by (by rewrite length_le_bytes). by rewrite le_value_bytes.
Qed.

Lemma lsn_halves x : 0 <= x < 2 ^ 64 -> Z.lor (Z.shiftl (Z.shiftr x 32 mod 2 ^ 32) 32) (x mod 2 ^ 32) = x.
Proof.
  intros Hx. apply Z.bits_inj'. intros n Hn. rewrite Z.lor_spec. destruct (Z.lt_ge_cases n 32).
  - by rewrite Z.shiftl_spec_low, Z.mod_pow2_bits_low by lia.
  - rewrite Z.shiftl_spec, (Z.mod_pow2_bits_high x), orb_false_r by lia. destruct (Z.lt_ge_cases n 64).
    + rewrite Z.mod_pow2_bits_low, Z.shiftr_spec by lia. f_equal. lia.
    + rewrite Z.mod_pow2_bits_high by lia. rewrite <- (Z.mod_small x (2 ^ 64)) by lia. by rewrite Z.mod_pow2_bits_high by lia.
Qed.

Ltac gist_lia := unfold BLCKSZ, sizeof_GISTPageOpaqueData in *; rewrite ?length_le_bytes in *; lia.

Section Fields.
Context (p : Page) (tuples : list (list Z)) (Hg : gist_page p tuples).

(** A field that is written does not change the others. *)
Lemma put_keeps o bs (P : Page -> Prop) :
  Forall is_byte bs -> 0 <= o -> pd_special p <= o \/ o + Z.of_nat (length bs) <= 10 -> o + Z.of_nat (length bs) <= BLCKSZ ->
  (gist_page (put p o bs) tuples -> pd_special (put p o bs) = pd_special p -> frame p (put p o bs) o (o + Z.of_nat (length bs)) -> P (put p o bs)) ->
  gist_page (put p o bs) tuples /\ P (put p o bs).
Proof.
  intros Hb H0 Ho Hl HP. destruct (gist_page_put p tuples o bs Hg Hb H0 Ho Hl) as [G F]. split; [done|]. apply HP; try done.
  rewrite (gp_special _ _ G). symmetry. apply Hg.
Qed.

Lemma set_rightlink_ok x :
  gist_page (set_gist_rightlink p x) tuples /\
  gist_fields (set_gist_rightlink p x) = (GistPageGetNSN p, x mod 2 ^ 32, gist_flags p, PageGetLSN p).
Proof.
  pose proof (gp_special _ _ Hg) as Hs. apply (put_keeps _ _ (fun q => gist_fields q = _)); [apply le_bytes_is_byte|gist_lia..|].
  intros G Es F. unfold gist_fields, GistPageGetNSN, gist_rightlink, gist_flags, PageGetLSN. rewrite Es.
  fold (put32 p (pd_special p + 8) x) in *. rewrite get32_put32 by (apply Hg || gist_lia).
  rewrite !(frame_get32 _ _ _ _ _ F), (frame_get16 _ _ _ _ _ F) by gist_lia. done.
Qed.

Lemma set_flags_ok x :
  gist_page (set_gist_flags p x) tuples /\
  gist_fields (set_gist_flags p x) = (GistPageGetNSN p, gist_rightlink p, x mod 2 ^ 16, PageGetLSN p).
Proof.
  pose proof (gp_special _ _ Hg) as Hs. apply (put_keeps _ _ (fun q => gist_fields q = _)); [apply le_bytes_is_byte|gist_lia..|].
  intros G Es F. unfold gist_fields, GistPageGetNSN, gist_rightlink, gist_flags, PageGetLSN. rewrite Es.
  fold (put16 p (pd_special p + 12) x) in *. destruct (put16_page p (pd_special p + 12) x) as (_ & _ & ->); [apply Hg|gist_lia..|].
  rewrite !(frame_get32 _ _ _ _ _ F) by gist_lia. done.
Qed.

End Fields.

(** A 64-bit number as two words. *)
Lemma put_halves p tuples o x :
  gist_page p tuples -> pd_special p <= o \/ o + 8 <= 10 -> 0 <= o -> o + 8 <= BLCKSZ -> 0 <= x < 2 ^ 64 ->
  let q := put32 (put32 p o (Z.shiftr x 32)) (o + 4) x in
  gist_page q tuples /\ frame p q o (o + 8) /\ Z.lor (Z.shiftl (get32 q o) 32) (get32 q (o + 4)) = x.
Proof.
  intros G Ho H0 Hl Hx. unfold put32. destruct (gist_page_put p tuples o (le_bytes 4 (Z.shiftr x 32)) G) as [G1 F1];
    [apply le_bytes_is_byte|gist_lia..|]. fold (put32 p o (Z.shiftr x 32)) in *.
  assert (Es : pd_special (put32 p o (Z.shiftr x 32)) = pd_special p) by (rewrite (gp_special _ _ G1); symmetry; apply G).
  destruct (gist_page_put (put32 p o (Z.shiftr x 32)) tuples (o + 4) (le_bytes 4 x) G1) as [G2 F2];
    [apply le_bytes_is_byte|gist_lia..|]. fold (put32 (put32 p o (Z.shiftr x 32)) (o + 4) x) in *. split_and!; [done| |].
  - eapply frame_trans; [exact F1|exact F2|gist_lia..].
  - rewrite get32_put32 by (apply G1 || gist_lia). rewrite (frame_get32 _ _ _ _ o F2) by gist_lia.
    rewrite get32_put32 by (apply G || gist_lia). by apply lsn_halves.
Qed.

Lemma set_nsn_ok p tuples x :
  gist_page p tuples -> 0 <= x < 2 ^ 64 ->
  gist_page (GistPageSetNSN p x) tuples /\ gist_fields (GistPageSetNSN p x) = (x, gist_rightlink p, gist_flags p, PageGetLSN p).
Proof.
  intros G Hx. pose proof (gp_special _ _ G) as Hs. destruct (put_halves p tuples (pd_special p) x G) as (G' & F & E); [gist_lia..|done|].
  fold (GistPageSetNSN p x) in *. split; [done|]. unfold gist_fields, GistPageGetNSN, gist_rightlink, gist_flags, PageGetLSN.
  replace (pd_special (GistPageSetNSN p x)) with (pd_special p) by (rewrite (gp_special _ _ G'); done).
  rewrite E, !(frame_get32 _ _ _ _ _ F), (frame_get16 _ _ _ _ _ F) by gist_lia. done.
Qed.

Lemma set_lsn_ok p tuples x :
  gist_page p tuples -> 0 <= x < 2 ^ 64 ->
  gist_page (PageSetLSN p x) tuples /\ gist_fields (PageSetLSN p x) = (GistPageGetNSN p, gist_rightlink p, gist_flags p, x).
Proof.
  intros G Hx. pose proof (gp_special _ _ G) as Hs. pose proof (put_halves p tuples 0 x G) as Hh. change (0 + 4) with 4 in Hh.
  destruct Hh as (G' & F & E); [gist_lia..|done|]. fold (PageSetLSN p x) in *. split; [done|]. unfold gist_fields, GistPageGetNSN, gist_rightlink, gist_flags, PageGetLSN.
  replace (pd_special (PageSetLSN p x)) with (pd_special p) by (rewrite (gp_special _ _ G'); done).
  rewrite E, !(frame_get32 _ _ _ _ _ F), (frame_get16 _ _ _ _ _ F) by gist_lia. done.
Qed.

(** The fields of the special space depend on its bytes only. *)
Lemma same_special p p' :
  page_wf p -> page_wf p' -> pd_special p = BLCKSZ - sizeof_GISTPageOpaqueData -> ps_special (page_state p') = ps_special (page_state p) ->
  pd_special p' = pd_special p /\ GistPageGetNSN p' = GistPageGetNSN p /\ gist_rightlink p' = gist_rightlink p /\ gist_flags p' = gist_flags p.
Proof.
  intros Hwf Hwf' Hs E. cbn [ps_special page_state] in E. destruct (wf_page _ Hwf) as [Hl _], (wf_page _ Hwf') as [Hl' _].
  assert (Es : pd_special p' = pd_special p).
  { apply (f_equal length) in E. pose proof Hwf' as [_ ? ? ? ? ? ? ? ? _ _]. pose proof Hwf as [_ ? ? ? ? ? ? ? ? _ _].
    rewrite !bytes_at_length in E by linp_lia. linp_lia. }
  assert (B : forall o n, 0 <= o -> 0 <= n -> o + n <= 16 -> bytes_at p' (pd_special p + o) n = bytes_at p (pd_special p + o) n).
  { intros o n ? ? ?. rewrite Es in E. rewrite <- (bytes_at_bytes_at p' (pd_special p) (BLCKSZ - pd_special p)) by gist_lia.
    rewrite E. by rewrite bytes_at_bytes_at by gist_lia. }
  split; [done|]. unfold GistPageGetNSN, gist_rightlink, gist_flags, get32, get16. rewrite Es, !B by lia.
  rewrite <- (Z.add_0_r (pd_special p)) at 1 3. rewrite B by lia. done.
Qed.

(** ** Pruning *)

Definition item_dead (v : ItemView) : bool := item_flags v =? LP_DEAD.

(** The tuples that are not marked dead. *)
Definition live_tuples (items : list ItemView) : list (list Z) :=
  omap (fun v => match v with Stored flags t => if flags =? LP_DEAD then None else Some t | Bare _ _ => None end) items.

(** The positions of dead items, from [i] on. *)
Fixpoint dead_positions (i : Z) (items : list ItemView) : list Z :=
  match items with
  | [] => []
  | v :: items' => if item_dead v then i :: dead_positions (i + 1) items' else dead_positions (i + 1) items'
  end.

Lemma dead_positions_ascending i items : ascending i (i + Z.of_nat (length items) - 1) (dead_positions i items).
Proof.
  revert i. induction items as [|v items IH]; intros i; cbn [dead_positions length]; [done|]. specialize (IH (i + 1)).
  replace (i + 1 + Z.of_nat (length items) - 1) with (i + Z.of_nat (S (length items)) - 1) in IH by lia.
  destruct (item_dead v); [split; [lia|done]|]. eapply ascending_weaken; [exact IH|lia].
Qed.

Lemma delete_dead_positions i items :
  delete_positions i items (dead_positions i items) = List.filter (fun v => negb (item_dead v)) items.
Proof.
  revert i. induction items as [|v items IH]; intros i; [done|]. cbn [dead_positions List.filter].
  pose proof (dead_positions_ascending (i + 1) items) as Ha. destruct (item_dead v); cbn [negb].
  - cbn [delete_positions foldr]. change (foldr _ (v :: items) ?l) with (delete_positions i (v :: items) l).
    erewrite delete_positions_cons by exact Ha. by rewrite Z.sub_diag, IH.
  - erewrite delete_positions_cons by exact Ha. by rewrite IH.
Qed.

Lemma live_gist_items items tuples :
  gist_items items tuples -> gist_items (List.filter (fun v => negb (item_dead v)) items) (live_tuples items).
Proof.
  induction 1 as [|v t items tuples (flags & -> & Ht) _ IH]; [constructor|]. cbn [List.filter live_tuples omap list_omap].
  unfold item_dead. cbn [item_flags]. destruct (flags =? LP_DEAD); cbn [negb]; [exact IH|]. constructor; [by exists flags|exact IH].
Qed.

Lemma item_dead_linp p i : ItemIdIsDead (linp p i) = item_dead (item p i).
Proof. unfold ItemIdIsDead, item_dead, item, item_view. by destruct (_ =? 0). Qed.

Lemma dead_items_ok n p i acc :
  page_wf p -> 1 <= i -> i + Z.of_nat n = PageGetMaxOffsetNumber p + 1 -> Z.of_nat (length acc) + Z.of_nat n <= MaxIndexTuplesPerPage ->
  dead_items n p i acc = Ok (acc ++ dead_positions i (drop (Z.to_nat (i - 1)) (page_items p))).
Proof.
  intros Hwf. revert i acc. induction n as [|n IH]; intros i acc Hi Hn Hc; cbn [dead_items].
  { rewrite drop_ge by (rewrite page_items_length; lia). by rewrite app_nil_r. }
  rewrite wf_get_linp by (done || lia). cbn [mbind result_bind]. rewrite item_dead_linp.
  rewrite (drop_S (page_items p) (item p i) (Z.to_nat (i - 1))) by (apply page_items_lookup; lia). cbn [dead_positions].
  replace (S (Z.to_nat (i - 1))) with (Z.to_nat (i + 1 - 1)) by lia. destruct (item_dead (item p i)).
  - rewrite Z.geb_leb, (proj2 (Z.leb_gt _ _)) by lia. rewrite IH by (rewrite ?length_app; cbn [length]; lia). by rewrite <- app_assoc.
  - by rewrite IH by lia.
Qed.

(** The number of tuples is limited by their size. *)
Lemma tuples_count items tuples : gist_items items tuples -> 16 * Z.of_nat (length items) <= used_space items.
Proof.
  induction 1 as [|v t items tuples (flags & -> & _ & _ & H8 & Hl) _ IH]; [done|]. cbn [length used_space foldr stored_len].
  fold (used_space items). rewrite (MAXALIGN_aligned _ H8). unfold SizeofIndexTupleData in Hl. assert (16 <= Z.of_nat (length t)) by zlia. lia.
Qed.

Lemma gist_page_count p tuples : gist_page p tuples -> 0 <= PageGetMaxOffsetNumber p <= MaxIndexTuplesPerPage.
Proof.
  intros [Hwf Hs Hi Hp]. pose proof (max_offset_bound p Hwf). pose proof (tuples_count _ _ Hi) as Hc. rewrite page_items_length in Hc.
  unfold packed, packed_free in Hp. cbn [ps_free ps_items page_state ps_special] in Hp. rewrite page_items_length in Hp.
  pose proof (wf_lower_upper p Hwf). change MaxIndexTuplesPerPage with 408. unfold SizeOfPageHeaderData, sizeof_ItemIdData, BLCKSZ in *. lia.
Qed.

Lemma bit_clear_mod x b : 0 <= x < 2 ^ 16 -> Z.land x (Z.lnot b) mod 2 ^ 16 = Z.land x (Z.lnot b).
Proof.
  intros Hx. apply Z.mod_small. split; [apply Z.land_nonneg; lia|].
  rewrite <- (Z.mod_small x (2 ^ 16)) by done. rewrite <- Z.land_ones by lia. rewrite <- Z.land_assoc, (Z.land_comm (Z.ones 16)), Z.land_assoc, Z.land_ones by lia.
  apply Z.mod_pos_bound. lia.
Qed.

Lemma gist_flags_range p tuples : gist_page p tuples -> 0 <= gist_flags p < 2 ^ 16.
Proof. intros [Hwf Hs _ _]. apply get16_range; [apply Hwf|gist_lia..]. Qed.

(** Removing the dead tuples keeps the others. *)
Lemma gistprunepage_ok `{Sorter} p tuples recptr :
  gist_page p tuples -> 0 <= recptr < 2 ^ 64 ->
  exists p', gistprunepage p recptr = Ok p' /\ gist_page p' (live_tuples (page_items p)) /\
  GistPageGetNSN p' = GistPageGetNSN p /\ gist_rightlink p' = gist_rightlink p /\
  (gist_flags p' = gist_flags p \/ gist_flags p' = Z.land (gist_flags p) (Z.lnot F_HAS_GARBAGE)).
Proof.
  intros G Hr. pose proof (gist_page_count p tuples G) as Hn. pose proof G as [Hwf Hs Hi Hp]. unfold gistprunepage.
  rewrite dead_items_ok by (done || (cbn [length]; lia) || (change FirstOffsetNumber with 1; lia)). cbn [mbind result_bind app].
  change (drop (Z.to_nat (FirstOffsetNumber - 1)) (page_items p)) with (page_items p). change FirstOffsetNumber with 1.
  pose proof (dead_positions_ascending 1 (page_items p)) as Ha. pose proof (delete_dead_positions 1 (page_items p)) as Ed.
  destruct (dead_positions 1 (page_items p)) as [|x xs] eqn:Edp.
  - exists p. split; [done|]. split; [|by split_and!; [..|left]]. constructor; try done. cbn in Ed. rewrite Ed at 1. by apply (live_gist_items _ tuples).
  - cbn [length Nat.ltb Nat.leb]. rewrite <- Edp in *. clear Edp. set (dead := dead_positions 1 (page_items p)) in *. clearbody dead.
    replace (1 + Z.of_nat (length (page_items p)) - 1) with (Z.of_nat (length (page_items p))) in Ha by lia.
    destruct (multi_delete_packed p dead Hwf) as (p1 & _ & -> & _ & Hwf1 & _ & Es & _);
      [by eapply gist_items_stored|rewrite page_items_length; lia|done|done|]. cbn [mbind result_bind].
    assert (G1 : gist_page p1 (live_tuples (page_items p))).
    { constructor; [done| | |by rewrite Es].
      - by rewrite (proj1 (same_special p p1 Hwf Hwf1 Hs ltac:(by rewrite Es))).
      - apply (f_equal ps_items) in Es. cbn [ps_items page_state ps_update] in Es. rewrite Es, Ed. by apply (live_gist_items _ tuples). }
    destruct (same_special p p1 Hwf Hwf1 Hs) as (_ & En & Er & Ef); [by rewrite Es|].
    destruct (set_flags_ok p1 _ G1 (Z.land (gist_flags p1) (Z.lnot F_HAS_GARBAGE))) as [G2 F2]. fold (GistClearPageHasGarbage p1) in *.
    destruct (set_lsn_ok _ _ recptr G2 Hr) as [G3 F3]. eexists. split; [done|]. split; [done|].
    unfold gist_fields in F2, F3. injection F2 as F2a F2b F2c F2d. injection F3 as F3a F3b F3c F3d.
    rewrite bit_clear_mod in F2c by (by eapply gist_flags_range). split_and!; [congruence|congruence|right; congruence].
Qed.

(** ** Empty pages *)

Lemma empty_gist_page p :
  page_wf p -> page_items p = [] -> pd_special p = BLCKSZ - sizeof_GISTPageOpaqueData -> pd_upper p - pd_lower p = GiSTPageSize -> gist_page p [].
Proof.
  intros Hwf Ei Es Ef. constructor; [done..|rewrite Ei; constructor|]. unfold packed, packed_free. cbn [ps_free ps_items page_state ps_special].
  destruct (wf_page _ Hwf). rewrite Ei, Ef, Es, bytes_at_length by gist_lia. done.
Qed.

Lemma GISTInitBuffer_gist p f : Z.of_nat (length p) = BLCKSZ -> 0 <= f < 2 ^ 16 -> gist_page (GISTInitBuffer p f) [] /\ gist_flags (GISTInitBuffer p f) = f.
Proof.
  intros Hl Hf. destruct (GISTInitBuffer_ok p f Hl) as (Hwf & Ei & Ef & Es & Efl). split; [by apply empty_gist_page|].
  unfold gist_flags. rewrite Es, Efl. by apply Z.mod_small.
Qed.

Lemma temp_page_gist p tuples temp f :
  gist_page p tuples -> Z.of_nat (length temp) = BLCKSZ -> 0 <= f < 2 ^ 16 ->
  exists q, PageGetTempPageCopySpecial p temp = Ok q /\ gist_page (set_gist_flags q f) [] /\ gist_flags (set_gist_flags q f) = f.
Proof.
  intros [Hwf Hs Hi Hp] Hl Hf. destruct (PageGetTempPageCopySpecial_ok p temp Hwf Hl) as (q & E & Hwfq & Ei & Ef & Es). exists q. split; [done|].
  destruct (same_special p q Hwf Hwfq Hs Es) as (Esp & _). assert (G : gist_page q []) by (apply empty_gist_page; try done; [congruence|rewrite Ef, Hs; done]).
  destruct (set_flags_ok q [] G f) as [G' F]. split; [done|]. unfold gist_fields in F. injection F as _ _ F _. rewrite F. by apply Z.mod_small.
Qed.

(** ** Splits with their downlinks *)

Section PlaceProofs.
Context `{H1 : Varlena.Toast} `{Sorter} (tc : TypeCacheEntry) (w : World) (leafTupdesc nonLeafTupdesc : TupleDesc).

Notation form := (gistFormTuple w nonLeafTupdesc).
Notation fit := (fun v : list (list Z * RangeType) => gistfitpage (map fst v)).

Definition part_layout (part : RangeType * list (list Z * RangeType)) (d : SplitedPageLayout) : Prop :=
  lay_num d = length part.2 /\ lay_list d = gistfillitupvec (map fst part.2) /\ form part.1 = Ok (lay_itup d).

(** The layouts are those of the split of RangeGistTree.v, each with its
    downlink. *)
Lemma layout_parts fuel itup :
  match gistSplitLayout tc w nonLeafTupdesc fuel itup with
  | Ok dist => exists parts, gistSplit tc snd fit fuel itup = Ok parts /\ Forall2 part_layout parts dist
  | Err e => gistSplit tc snd fit fuel itup = Err e \/ exists d, form d = Err e
  end.
Proof.
  revert itup. induction fuel as [|fuel IH]; intros itup; cbn [gistSplitLayout gistSplit]; [by left|].
  destruct (length itup =? 1)%nat; [by left|]. destruct (gistUserPicksplit tc (map snd itup)) as [v|e]; cbn [mbind result_bind]; [|by left].
  destruct (tuples_at itup (spl_left v)) as [l|e]; cbn [mbind result_bind]; [|by left].
  destruct (tuples_at itup (spl_right v)) as [r|e]; cbn [mbind result_bind]; [|by left].
  assert (Side : forall side datum,
    match (if negb (gistfitpage (map fst side)) then gistSplitLayout tc w nonLeafTupdesc fuel side else layout_of w nonLeafTupdesc side datum) with
    | Ok dist => exists parts, (if negb (gistfitpage (map fst side)) then gistSplit tc snd fit fuel side else d ← union_datum datum; Ok [(d, side)]) = Ok parts
                               /\ Forall2 part_layout parts dist
    | Err e => (if negb (gistfitpage (map fst side)) then gistSplit tc snd fit fuel side else d ← union_datum datum; Ok [(d, side)]) = Err e
               \/ exists d, form d = Err e
    end).
  { intros side datum. destruct (gistfitpage (map fst side)); cbn [negb]; [|apply IH]. unfold layout_of.
    destruct (union_datum datum) as [d|e]; cbn [mbind result_bind]; [|by left]. destruct (form d) as [t|e] eqn:Et; cbn [mbind result_bind].
    - exists [(d, side)]. split; [done|]. repeat constructor. exact Et.
    - right. by exists d. }
  pose proof (Side r (spl_rdatum v)) as Hr. destruct (if negb (gistfitpage (map fst r)) then _ else _) as [rd|e]; cbn [mbind result_bind].
  2: { destruct Hr as [-> |?]; [by left|by right]. }
  destruct Hr as (rp & -> & Fr). cbn [mbind result_bind]. pose proof (Side l (spl_ldatum v)) as Hl.
  destruct (if negb (gistfitpage (map fst l)) then _ else _) as [ld|e]; cbn [mbind result_bind].
  - destruct Hl as (lp & -> & Fl). cbn [mbind result_bind]. exists (lp ++ rp). split; [done|]. by apply Forall2_app.
  - destruct Hl as [-> |?]; [by left|by right].
Qed.

(** ** Filling the pages *)

(** A page to fill with the tuples [vec]: empty, and they fit. *)
Record work_ok (flags : Z) (ptr : WorkPage) (vec : list (list Z)) : Prop := {
  wk_num : wp_num ptr = length vec;
  wk_list : wp_list ptr = gistfillitupvec vec;
  wk_tuples : Forall tuple_ok vec;
  wk_fit : gistfitpage vec = true;
  wk_page : gist_page (wp_page ptr) [];
  wk_flags : gist_flags (wp_page ptr) = flags;
  wk_blkno : 0 < wp_blkno ptr < 2 ^ 32
}.

(** The chain of pages: each has its tuples, the link to the next one, the NSN
    and the mark that its right sibling has no downlink yet. *)
Fixpoint chain_ok (mark : bool) (flags oldrlink nsn : Z) (pages : list (Z * Page)) (vecs : list (list (list Z))) : Prop :=
  match pages, vecs with
  | [], [] => True
  | (_, p) :: pages', vec :: vecs' =>
      gist_page p vec /\ GistPageGetNSN p = nsn /\
      gist_rightlink p = match pages' with (next, _) :: _ => next | [] => oldrlink end /\
      gist_flags p = (if mark && negb (length pages' =? 0)%nat then Z.lor flags F_FOLLOW_RIGHT else flags) /\
      chain_ok mark flags oldrlink nsn pages' vecs'
  | _, _ => False
  end.

Lemma GiST_empty_space p : gist_page p [] -> page_items p = [] /\ pd_upper p - pd_lower p = GiSTPageSize.
Proof.
  intros [Hwf Hs Hi Hp]. inversion Hi as [E|]. split; [done|]. unfold packed, packed_free in Hp. cbn [ps_free ps_items page_state ps_special] in Hp.
  destruct (wf_page _ Hwf). rewrite <- E, Hs, bytes_at_length in Hp by gist_lia. exact Hp.
Qed.

(** The space that the tuples leave, as [PageGetFreeSpace] reports it: room for
    one more line pointer is set aside. *)
Definition free_space (tuples : list (list Z)) : Z := Z.max 0 (GiSTPageSize - tuples_space tuples - sizeof_ItemIdData).

Lemma gist_items_space items tuples :
  gist_items items tuples -> used_space items + sizeof_ItemIdData * Z.of_nat (length items) = tuples_space tuples.
Proof.
  induction 1 as [|v t items tuples (flags & -> & _ & _ & H8 & _) _ IH]; [done|]. cbn [length used_space tuples_space foldr stored_len].
  fold (used_space items). fold (tuples_space tuples). rewrite (MAXALIGN_aligned _ H8). unfold sizeof_ItemIdData in *. lia.
Qed.

Lemma gist_free_space p tuples : gist_page p tuples -> PageGetFreeSpace p = free_space tuples.
Proof.
  intros [Hwf Hs Hi Hp]. pose proof (gist_items_space _ _ Hi) as Hsp. unfold packed, packed_free in Hp. cbn [ps_free ps_items page_state ps_special] in Hp.
  destruct (wf_page _ Hwf). rewrite Hs, bytes_at_length in Hp by gist_lia. unfold PageGetFreeSpace, free_space.
  assert (E : pd_upper p - pd_lower p = GiSTPageSize - tuples_space tuples) by (rewrite Hp, <- Hsp; change GiSTPageSize with 8152; change SizeOfPageHeaderData with 24; gist_lia).
  rewrite E. destruct (Z.ltb_spec (GiSTPageSize - tuples_space tuples) sizeof_ItemIdData); lia.
Qed.

Lemma fill_work flags ptr vec :
  work_ok flags ptr vec ->
  exists p, gist_fill_split (wp_num ptr) (wp_page ptr) (wp_list ptr) 0 = Ok p /\ gist_page p vec /\ gist_flags p = flags.
Proof.
  intros [En El Ht Hf G Efl Hb]. destruct (GiST_empty_space _ G) as [Ei Es]. pose proof G as [Hwf Hs _ Hp].
  pose proof (fill_empty_page (wp_page ptr) vec Hwf Ei Es Ht) as H2. rewrite Hf in H2. destruct H2 as (p & E & Hwf' & Hi & [Ks Kp]).
  rewrite En, El. exists p. split; [done|]. destruct (same_special _ p Hwf Hwf' Hs Ks) as (Esp & _ & _ & Ef). split; [|congruence].
  constructor; [done|congruence|done|auto].
Qed.

(** The fields of a page that has been filled. *)
Lemma finish_page p vec flags (mark : bool) rlink nsn :
  gist_page p vec -> gist_flags p = flags -> flags = 0 \/ flags = F_LEAF -> 0 <= rlink < 2 ^ 32 -> 0 <= nsn < 2 ^ 64 ->
  let p := set_gist_rightlink p rlink in
  let p := if mark then GistMarkFollowRight p else GistClearFollowRight p in
  let p := GistPageSetNSN p nsn in
  gist_page p vec /\ GistPageGetNSN p = nsn /\ gist_rightlink p = rlink /\ gist_flags p = if mark then Z.lor flags F_FOLLOW_RIGHT else flags.
Proof.
  intros G Ef Hfl Hr Hn. destruct (set_rightlink_ok p vec G rlink) as [G1 F1]. set (p1 := set_gist_rightlink p rlink) in *.
  unfold gist_fields in F1. injection F1 as F1a F1b F1c F1d. rewrite Z.mod_small in F1b by done.
  set (fl := if mark then Z.lor flags F_FOLLOW_RIGHT else flags).
  assert (E2 : (if mark then GistMarkFollowRight p1 else GistClearFollowRight p1) = set_gist_flags p1 fl).
  { unfold GistMarkFollowRight, GistClearFollowRight, fl. rewrite F1c, Ef. destruct mark; [done|]. by destruct Hfl as [-> | ->]. }
  cbv zeta. rewrite E2. destruct (set_flags_ok p1 vec G1 fl) as [G2 F2]. unfold gist_fields in F2. injection F2 as F2a F2b F2c F2d.
  assert (Efl : fl mod 2 ^ 16 = fl) by (unfold fl; destruct Hfl as [-> | ->], mark; done). rewrite Efl in F2c.
  destruct (set_nsn_ok _ vec nsn G2 Hn) as [G3 F3]. unfold gist_fields in F3. injection F3 as F3a F3b F3c F3d.
  split_and!; [done|done|congruence|congruence].
Qed.

Lemma fill_pages_ok (is_root mark : bool) flags oldrlink nsn works vecs :
  Forall2 (work_ok flags) works vecs -> flags = 0 \/ flags = F_LEAF -> 0 <= oldrlink < 2 ^ 32 -> 0 <= nsn < 2 ^ 64 ->
  exists filled, fill_pages is_root mark oldrlink nsn works = Ok filled /\ map fst filled = map wp_blkno works /\
  chain_ok (negb is_root && mark) flags oldrlink nsn filled vecs.
Proof.
  intros F Hfl Hr Hn. induction F as [|ptr vec works vecs Hw F IH]; cbn [fill_pages]; [by exists []|].
  destruct IH as (filled & E & Eb & Hc). destruct (fill_work flags ptr vec Hw) as (p & -> & G & Ef). cbn [mbind result_bind].
  rewrite E. cbn [mbind result_bind]. eexists. split; [done|]. split; [cbn [map fst]; by rewrite Eb|].
  set (rl := match works with next :: _ => _ | [] => _ end).
  assert (Erl : rl = match filled with (next, _) :: _ => next | [] => oldrlink end).
  { unfold rl. destruct Hw as [_ _ _ _ _ _ Hb]. unfold GIST_ROOT_BLKNO. rewrite (proj2 (Z.eqb_neq _ _)) by lia. cbn [negb].
    destruct works, filled as [|[]]; try discriminate Eb; [done|]. by injection Eb as <-. }
  assert (Hrl : 0 <= rl < 2 ^ 32).
  { unfold rl. destruct Hw as [_ _ _ _ _ _ Hb]. destruct F as [|next vec2 ? ? Hw2 _]; [done|]. destruct (_ =? _); cbn [negb]; [done|]. destruct (wk_blkno _ _ _ Hw2). lia. }
  destruct (finish_page p vec flags (negb (length works =? 0)%nat && negb is_root && mark) rl nsn G Ef Hfl Hrl Hn) as (G' & En' & Er' & Ef').
  cbn [chain_ok]. split_and!; [exact G'|exact En'|by rewrite Er'| |exact Hc].
  rewrite Ef'. assert (El : length works = length filled) by (apply (f_equal length) in Eb; by rewrite !length_map in Eb).
  rewrite El. by destruct (length filled =? 0)%nat, is_root, mark.
Qed.

(** ** The pages of a split *)

Definition part_tuples (part : RangeType * list (list Z * RangeType)) : list (list Z) := map fst part.2.

Definition newbuf_ok (b : Z * Page) : Prop := Z.of_nat (length b.2) = BLCKSZ /\ 0 < b.1 < 2 ^ 32.

Lemma new_pages_ok flags dist newbufs parts :
  Forall2 part_layout parts dist -> Forall (fun p => Forall tuple_ok (part_tuples p) /\ gistfitpage (part_tuples p) = true) parts ->
  Forall newbuf_ok newbufs -> flags = 0 \/ flags = F_LEAF ->
  match new_pages flags dist newbufs with
  | Ok pages => Forall2 (work_ok flags) pages (map part_tuples parts) /\ map wp_blkno pages = take (length parts) (map fst newbufs)
  | Err e => e = mkError ERRCODE_INTERNAL_ERROR "no new buffer"
  end.
Proof.
  intros F. revert newbufs. induction F as [|part d parts dist (Hn & Hl & Hf) F IH]; intros newbufs Hp Hb Hfl; cbn [new_pages]; [by split; [constructor|]|].
  apply Forall_cons in Hp as [[Ht Hfit] Hp]. destruct newbufs as [|[blk p] newbufs]; [done|]. apply Forall_cons in Hb as [[Hlp Hbk] Hb].
  specialize (IH newbufs Hp Hb Hfl). destruct (new_pages flags dist newbufs) as [pages|e]; cbn [mbind result_bind]; [|done].
  destruct IH as [IH Eb]. split; [|cbn [map length take wp_blkno fst]; by rewrite Eb]. cbn [map]. constructor; [|done].
  destruct (GISTInitBuffer_gist p flags Hlp) as [G Ef]; [by destruct Hfl as [-> | ->]|].
  constructor; cbn [wp_num wp_list wp_blkno wp_page]; try done. unfold part_tuples. by rewrite length_map.
Qed.

Lemma data_tuples_vec vec : Forall tuple_ok vec -> data_tuples (length vec) (gistfillitupvec vec) = vec.
Proof.
  induction 1 as [|t vec Ht Hts IH]; [done|]. cbn [length data_tuples]. unfold gistfillitupvec. cbn [map concat]. rewrite (tuple_bytes_ok t) by done.
  destruct (tuple_bytes_app t (concat (map tuple_bytes vec)) Ht) as [-> ->]. rewrite Nat2Z.id, drop_app_length. f_equal. exact IH.
Qed.

(** The first new tuple is found on the page where it landed. *)
Lemma landing_ok flags first itup works vecs pre :
  Forall2 (work_ok flags) works vecs -> In first (concat vecs) ->
  exists i blkno vec t, landing (first :: itup) (pre ++ works) = Some blkno /\ map wp_blkno works !! i = Some blkno /\ vecs !! i = Some vec /\
  In t vec /\ same_tid t first = true.
Proof.
  intros F Hin. unfold landing. rewrite foldl_app. set (acc := foldl _ None pre). clearbody acc. revert acc.
  assert (G : forall acc, (exists i blkno vec t, foldl (fun newblkno ptr => if existsb (fun t => same_tid t first) (data_tuples (wp_num ptr) (wp_list ptr)) then Some (wp_blkno ptr) else newblkno) acc works = Some blkno /\
      map wp_blkno works !! i = Some blkno /\ vecs !! i = Some vec /\ In t vec /\ same_tid t first = true) \/
    (foldl (fun newblkno ptr => if existsb (fun t => same_tid t first) (data_tuples (wp_num ptr) (wp_list ptr)) then Some (wp_blkno ptr) else newblkno) acc works = acc /\
     forall t, In t (concat vecs) -> same_tid t first = false)).
  { clear Hin. induction F as [|ptr vec works vecs Hw F IH]; intros acc; cbn [foldl concat map]; [right; split; [done|by intros t []]|].
    rewrite (wk_num _ _ _ Hw), (wk_list _ _ _ Hw), data_tuples_vec by apply Hw.
    destruct (existsb (fun t => same_tid t first) vec) eqn:Ex.
    - destruct (IH (Some (wp_blkno ptr))) as [(i & b & v & t & E & Hb & Hv & Ht)|[E Hno]].
      + left. by exists (S i), b, v, t.
      + left. apply existsb_exists in Ex as (t & Ht & Hs). by exists O, (wp_blkno ptr), vec, t.
    - destruct (IH acc) as [(i & b & v & t & E & Hb & Hv & Ht)|[E Hno]]; [left; by exists (S i), b, v, t|]. right. split; [done|].
      intros t [Ht|Ht]%in_app_iff; [|by apply Hno]. apply not_true_iff_false. intros Hs. apply not_true_iff_false in Ex. apply Ex, existsb_exists. by exists t. }
  intros acc. destruct (G acc) as [?|[_ Hno]]; [done|]. specialize (Hno first Hin). unfold same_tid, ItemPointerEquals in Hno. by rewrite !Z.eqb_refl in Hno.
Qed.

(** The changed blocks of the index. *)
Definition with_lsn (recptr : Z) (pages : list (Z * Page)) : list (Z * Page) := map (fun '(b, p) => (b, PageSetLSN p recptr)) pages.

Lemma file_put_ok (file : gmap Z Page) pages recptr :
  NoDup (map fst pages) ->
  (forall b p, In (b, p) (with_lsn recptr pages) -> file_put file pages recptr !! b = Some p) /\
  (forall b, ~ In b (map fst pages) -> file_put file pages recptr !! b = file !! b).
Proof.
  unfold file_put. revert file. induction pages as [|[b p] pages IH]; intros file Hnd; cbn [foldl map fst with_lsn]; [done|].
  apply NoDup_cons in Hnd as [Hni Hnd]. rewrite list_elem_of_In in Hni. destruct (IH (<[b := PageSetLSN p recptr]> file) Hnd) as [H2 H3]. split.
  - intros b' p' [[= <- <-]|Hin]; [|by apply H2]. rewrite H3 by done. apply lookup_insert_eq.
  - intros b' Hb'. rewrite H3 by (intros ?; apply Hb'; by right). apply lookup_insert_ne. intros ->. apply Hb'. by left.
Qed.

Lemma chain_with_lsn mark flags oldrlink nsn pages vecs recptr :
  0 <= recptr < 2 ^ 64 -> chain_ok mark flags oldrlink nsn pages vecs ->
  chain_ok mark flags oldrlink nsn (with_lsn recptr pages) vecs /\ Forall (fun bp => PageGetLSN bp.2 = recptr) (with_lsn recptr pages).
Proof.
  intros Hr. revert vecs. induction pages as [|[b p] pages IH]; intros [|vec vecs]; cbn [chain_ok with_lsn map]; try done.
  intros (G & En & Er & Ef & Hc). destruct (set_lsn_ok p vec recptr G Hr) as [G' F]. unfold gist_fields in F. injection F as F1 F2 F3 F4.
  destruct (IH vecs Hc) as [IH1 IH2]. split; [|by constructor]. fold (with_lsn recptr pages).
  split_and!; [done|congruence| | |done].
  - rewrite F2, Er. by destruct pages as [|[]].
  - rewrite F3, Ef. by destruct pages as [|[]].
Qed.

Lemma restore_page p page : is_page p -> is_page page -> PageGetPageSize p = BLCKSZ -> PageRestoreTempPage p page = Ok p.
Proof.
  intros Hp Hq E. unfold PageRestoreTempPage. rewrite E, mem_read_page by (done || unfold BLCKSZ; lia). cbn [mbind result_bind].
  pose proof (proj1 Hp) as Hl. rewrite (bytes_at_all p) by (symmetry; exact Hl). rewrite mem_write_page by (done || lia). f_equal. unfold put.
  cbn [Z.to_nat take app Nat.add]. rewrite drop_ge by (destruct Hq; lia). apply app_nil_r.
Qed.

(** ** The split of a page *)

Context `{!RangeSubtype tc} `{!RangeCanonical tc} `{!StableBounds tc}.

(** *** Downlinks *)

(** A descriptor of the index: one column, of a varlena type. *)
Definition key_desc (td : TupleDesc) : Prop := exists et, td_types td = [et] /\ typbyval et = false /\ typlen et = -1.

Lemma stored_bytes_bytes et d : elem_ok et -> datum_ok et d -> Forall is_byte (stored_bytes et d).
Proof.
  intros He Hd. pose proof (stored_datum_ok et d He Hd) as Hs. unfold datum_ok, stored_datum in Hs. destruct (typbyval et) eqn:Eb.
  - unfold stored_bytes. rewrite Eb. apply le_bytes_is_byte.
  - destruct Hs as (bs & [= ->] & Hb & _). done.
Qed.

Lemma range_layout_bytes flags l u :
  is_byte flags -> (RANGE_HAS_LBOUND flags = true -> datum_ok (rngelemtype tc) l) -> (RANGE_HAS_UBOUND flags = true -> datum_ok (rngelemtype tc) u) ->
  Forall is_byte (RangeTypes.layout (rngelemtype tc) flags l u).
Proof.
  intros Hf Hl Hu. pose proof (rs_elem : elem_ok (rngelemtype tc)) as He. unfold RangeTypes.layout. rewrite !Forall_app. split_and!.
  - destruct (RANGE_HAS_LBOUND flags); [apply stored_bytes_bytes; auto|constructor].
  - apply Forall_replicate. unfold is_byte. lia.
  - destruct (RANGE_HAS_UBOUND flags); [apply stored_bytes_bytes; auto|constructor].
  - by apply Forall_singleton.
Qed.

Lemma image_plain r :
  vl_len_ r = SET_VARSIZE (sizeof_RangeType + Z.of_nat (length (rdata r))) -> Forall is_byte (rdata r) ->
  sizeof_RangeType + Z.of_nat (length (rdata r)) <= MaxAllocSize ->
  exists data, range_image r = plain data /\ Forall is_byte data /\ fits data.
Proof.
  intros Hv Hb Hsz. exists (le_bytes 4 (rangetypid r) ++ rdata r). unfold fits, plain, varlena, range_image.
  rewrite length_app, length_le_bytes, Hv. unfold sizeof_RangeType, VARHDRSZ in *. split_and!; [|apply Forall_app; split; [apply le_bytes_is_byte|done]|lia].
  do 3 f_equal. lia.
Qed.

(** The bytes of a key are a varlena. *)
Lemma key_image r : gist_key tc r -> exists data, range_image r = plain data /\ Forall is_byte data /\ fits data.
Proof.
  intros Hk. destruct (gist_key_view tc r Hk) as (_ & lo & up & e & _ & _ & _ & He & _ & Hemp & _).
  destruct e; [rewrite (Hemp eq_refl); apply image_plain; [done|apply Forall_singleton; by vm_compute|by vm_compute]|]. clear Hemp lo up. destruct Hk as (r0 & Hst & Hr & _).
  assert (He0 : RangeIsEmpty r0 = false) by (destruct Hr as [<- |[? _]]; done).
  destruct (stored_layout tc r0 Hst He0) as (lo & up & l & u & -> & Hl & Hu & Hsz). destruct (bound_flags_bits lo up) as (HL & HU & _).
  assert (Hfb : 0 <= bound_flags lo up < 128) by (unfold bound_flags; destruct (infinite lo), (inclusive lo), (infinite up), (inclusive up); done).
  assert (Hlay : forall flags, is_byte flags -> RANGE_HAS_LBOUND flags = negb (infinite lo) -> RANGE_HAS_UBOUND flags = negb (infinite up) ->
    Forall is_byte (RangeTypes.layout (rngelemtype tc) flags l u)).
  { intros flags Hf EL EU. apply range_layout_bytes; [done|rewrite EL|rewrite EU]; intros Hn%negb_true_iff; auto. }
  destruct Hr as [-> |[_ ->]].
  - apply image_plain; [done| |done]. cbn [rdata layout_range]. apply Hlay; [unfold is_byte; lia|done|done].
  - rewrite set_contain_layout by done. destruct (contain_empty_bits (bound_flags lo up)) as (EL & EU & _).
    destruct (layout_contain_empty tc (bound_flags lo up) l u) as (pre & E1 & E2).
    apply image_plain; [done| |cbn [rdata layout_range]; rewrite E2; rewrite E1 in Hsz; rewrite length_app in *; done]. cbn [rdata layout_range].
    apply Hlay; [|congruence|congruence]. change RANGE_CONTAIN_EMPTY with (2 ^ 7). rewrite lor_high by lia. unfold is_byte. lia.
Qed.

(** [gistFormTuple] makes tuples of the keys that the split computes. *)
Lemma itup_image_ok itup :
  IndexTupleSize itup = SizeofIndexTupleData + Z.of_nat (length (it_bytes itup)) -> IndexTupleSize itup mod 8 = 0 ->
  SizeofIndexTupleData < IndexTupleSize itup -> Forall is_byte (it_bytes itup) -> tuple_ok (itup_image itup).
Proof.
  intros Hs H8 Hpos Hb. assert (Hlen : Z.of_nat (length (itup_image itup)) = IndexTupleSize itup).
  { unfold itup_image. rewrite !length_app, !length_le_bytes, Hs. unfold SizeofIndexTupleData. lia. }
  split_and!; [|rewrite Hlen|by rewrite Hlen|by rewrite Hlen].
  - unfold itup_image. rewrite !Forall_app. split_and!; try apply le_bytes_is_byte. done.
  - unfold tuple_size_at, get16, IndexTupleSize. change (bytes_at (itup_image itup) (0 + 6) 2) with (le_bytes 2 (t_info itup)).
    rewrite le_value_bytes. change (2 ^ (8 * Z.of_nat 2)) with (2 ^ 16). rewrite <- Z.land_ones by lia. by rewrite <- Z.land_assoc.
Qed.

Lemma downlink_tuple_ok r itup blkno :
  key_desc nonLeafTupdesc -> gist_key tc r -> form r = Ok itup -> tuple_ok (itup_image (mkIndexTuple (blkno, TUPLE_IS_VALID) (t_info itup) (it_bytes itup))).
Proof.
  intros (et & Htd & Hbv & Hl) Hk Hf. destruct (key_image r Hk) as (data & Ei & Hb & Hfit). unfold gistFormTuple in Hf. rewrite Ei in Hf.
  apply bind_Ok in Hf as (it & Hf & [= <-]). destruct (index_key_tuple w nonLeafTupdesc et data it Htd Hbv Hl Hb Hfit Hf) as (Hs & H8 & Hp & Hby).
  by apply itup_image_ok.
Qed.

(** The downlink for the page of [part] in block [blkno]. *)
Definition downlink_of (part : RangeType * list (list Z * RangeType)) (blkno : Z) (link : Z * list Z) : Prop :=
  link.1 = blkno /\ exists it, form part.1 = Ok it /\ link.2 = itup_image (mkIndexTuple (blkno, TUPLE_IS_VALID) (t_info it) (it_bytes it)).

Definition downlinks_of (parts : list (RangeType * list (list Z * RangeType))) (blknos : list Z) (links : list (Z * list Z)) : Prop :=
  Forall2 (fun pb link => downlink_of pb.1 pb.2 link) (zip parts blknos) links /\ length parts = length blknos.

(** The blocks of the index hold the pages, and the others are as before. *)
Definition blocks_are (file file' : gmap Z Page) (pages : list (Z * Page)) (recptr : Z) : Prop :=
  (forall b p, In (b, p) pages -> file' !! b = Some p /\ PageGetLSN p = recptr) /\ (forall b, ~ In b (map fst pages) -> file' !! b = file !! b).

Definition split_result (file : gmap Z Page) (blkno : Z) (page : Page) (ktvec : list (list Z * RangeType)) (itup : list (list Z)) (mark : bool)
    (newblknos : list Z) (recptr : Z) (file' : gmap Z Page) (splitinfo : list (Z * list Z)) (newblkno : option Z) : Prop :=
  let flags := if GistPageIsLeaf page then F_LEAF else 0 in
  exists parts, Permutation (concat (map snd parts)) ktvec /\ Forall (page_ok tc snd) parts /\
  (if blkno =? GIST_ROOT_BLKNO then
     splitinfo = [] /\
     exists root children downlinks,
       blocks_are file file' ((blkno, root) :: children) recptr /\ map fst children = take (length parts) newblknos /\
       chain_ok false flags InvalidBlockNumber 0 children (map part_tuples parts) /\
       downlinks_of parts (map fst children) downlinks /\
       gist_page root (map snd downlinks) /\ GistPageGetNSN root = 0 /\ gist_rightlink root = InvalidBlockNumber /\ gist_flags root = 0
   else
     exists pages,
       blocks_are file file' pages recptr /\ map fst pages = blkno :: take (length parts - 1) newblknos /\
       chain_ok mark flags (gist_rightlink page) (GistPageGetNSN page) pages (map part_tuples parts) /\
       downlinks_of parts (map fst pages) splitinfo) /\
  (forall first rest, itup = first :: rest ->
     exists i b part t, newblkno = Some b /\ (if blkno =? GIST_ROOT_BLKNO then newblknos else blkno :: newblknos) !! i = Some b /\
     parts !! i = Some part /\ In t (part_tuples part) /\ same_tid t first = true).

(** What makes a split fail. *)
Definition place_failure (ktvec : list (list Z * RangeType)) (e : PgError) : Prop :=
  split_failure tc fit ktvec e \/ (exists d, form d = Err e) \/
  e = mkError ERRCODE_INTERNAL_ERROR "GiST page split into too many halves" \/
  e = mkError ERRCODE_INTERNAL_ERROR "no new buffer" \/
  e = mkError ERRCODE_INTERNAL_ERROR "failed to add item to index page".

Lemma downlinks_ok parts dist pages :
  Forall2 part_layout parts dist -> length pages = length parts ->
  downlinks_of parts (map wp_blkno pages) (zip_with (fun d ptr => (wp_blkno ptr, downlink d (wp_blkno ptr))) dist pages).
Proof.
  intros F. revert pages. unfold downlinks_of. induction F as [|part d parts dist (_ & _ & Hf) F IH]; intros [|ptr pages] Hl; try done.
  injection Hl as Hl. destruct (IH pages Hl) as [IH1 IH2]. cbn [map zip zip_with length]. split; [|by rewrite IH2].
  constructor; [|done]. split; [done|]. by exists (lay_itup d).
Qed.

Lemma gist_get32_range p o : is_page p -> 0 <= o -> o + 4 <= BLCKSZ -> 0 <= get32 p o < 2 ^ 32.
Proof.
  intros [Hl Hb] ? ?. unfold get32. assert (E : length (bytes_at p o 4) = 4%nat) by (apply bytes_at_length; lia).
  rewrite <- (le_bytes_value (bytes_at p o 4)) by (by apply bytes_at_is_byte). rewrite E, le_value_bytes. apply Z.mod_pos_bound. lia.
Qed.

(** The parts of a split and their layouts. *)
Lemma split_parts ktvec :
  ktvec <> [] -> Forall (fun kt => tuple_ok kt.1 /\ gist_key tc kt.2) ktvec ->
  match gistSplitLayout tc w nonLeafTupdesc (length ktvec) ktvec with
  | Ok dist =>
      exists parts, Forall2 part_layout parts dist /\ Permutation (concat (map snd parts)) ktvec /\ Forall (page_ok tc snd) parts /\
      Forall (fun p => Forall tuple_ok (part_tuples p) /\ gistfitpage (part_tuples p) = true) parts /\ parts <> []
  | Err e => place_failure ktvec e
  end.
Proof.
  intros Hne Hk. assert (Hkeys : Forall (fun t => gist_key tc (snd t)) ktvec) by (eapply Forall_impl; [exact Hk|]; by intros ? []).
  pose proof (layout_parts (length ktvec) ktvec) as HL. pose proof (gistSplit_ok tc snd fit (length ktvec) ktvec Hne Hkeys) as HS.
  destruct (gistSplitLayout tc w nonLeafTupdesc (length ktvec) ktvec) as [dist|e].
  - destruct HL as (parts & E & F). rewrite E in HS. destruct HS as (Hp & Hok & Hf). exists parts. split_and!; try done.
    + assert (Hall : Forall (fun kt => tuple_ok kt.1 /\ gist_key tc kt.2) (concat (map snd parts))) by (by rewrite Hp).
      clear -Hall Hf. induction Hf as [|part parts [Hfit _] _ IH]; [constructor|]. cbn [map concat] in Hall. apply Forall_app in Hall as [H2 H3].
      constructor; [|by apply IH]. split; [|done]. unfold part_tuples. apply Forall_map. eapply Forall_impl; [exact H2|]. by intros ? [].
    + intros ->. cbn in Hp. apply Permutation_nil in Hp. done.
  - destruct HL as [E|Hf]; [|by right; left]. left. rewrite E in HS. by apply HS.
Qed.

Lemma NoDup_take_fst {A B} (l : list (A * B)) n : NoDup (map fst l) -> NoDup (take n (map fst l)).
Proof. intros Hnd. rewrite <- (take_drop n (map fst l)) in Hnd. by apply NoDup_app in Hnd as [? _]. Qed.

(** Writing the filled pages back. *)
Lemma written_blocks (file : gmap Z Page) mark flags oldrlink nsn filled vecs recptr :
  NoDup (map fst filled) -> 0 <= recptr < 2 ^ 64 -> chain_ok mark flags oldrlink nsn filled vecs ->
  blocks_are file (file_put file filled recptr) (with_lsn recptr filled) recptr /\ map fst (with_lsn recptr filled) = map fst filled /\
  chain_ok mark flags oldrlink nsn (with_lsn recptr filled) vecs.
Proof.
  intros Hnd Hr Hc. destruct (chain_with_lsn _ _ _ _ _ _ recptr Hr Hc) as [Hc' Hl]. destruct (file_put_ok file filled recptr Hnd) as [H2 H3].
  assert (E : map fst (with_lsn recptr filled) = map fst filled) by (unfold with_lsn; rewrite map_map; apply map_ext; by intros []).
  split_and!; try done. split; [|by rewrite E]. intros b p Hin. split; [by apply H2|]. rewrite List.Forall_forall in Hl. by apply (Hl (b, p)).
Qed.

Lemma page_size_wf p : page_wf p -> PageGetPageSize p = BLCKSZ.
Proof. intros Hwf. pose proof Hwf as [? ? ? ? ? ? ? ? ? Hv _]. unfold PageGetPageSize. by rewrite Hv. Qed.

Section Split.
Context (file : gmap Z Page) (blkno : Z) (page : Page) (tuples itup : list (list Z)) (oldoffnum : Z) (mark : bool).
Context (newbufs : list (Z * Page)) (temp : Page) (recptr : Z) (itvec : list (list Z)) (ktvec : list (list Z * RangeType)).
Hypothesis Hg : gist_page page tuples.
Hypothesis Hvec : gist_split_vector page itup oldoffnum = Ok itvec.
Hypothesis Hkt : tuple_keys w leafTupdesc itvec = Ok ktvec.
Hypothesis Hkeys : Forall (fun kt => tuple_ok kt.1 /\ gist_key tc kt.2) ktvec.
Hypothesis Hne : ktvec <> [].
Hypothesis Hin : forall t, In t itup -> In t (map fst ktvec).
Hypothesis Hnb : Forall newbuf_ok newbufs.
Hypothesis Hnd : NoDup (blkno :: map fst newbufs).
Hypothesis Htemp : Z.of_nat (length temp) = BLCKSZ.
Hypothesis Hrec : 0 <= recptr < 2 ^ 64.

Notation flags := (if GistPageIsLeaf page then F_LEAF else 0).

Lemma flags_cases : flags = 0 \/ flags = F_LEAF.
Proof. destruct (GistPageIsLeaf page); [by right|by left]. Qed.

Lemma flags_range : 0 <= flags < 2 ^ 16.
Proof. by destruct (GistPageIsLeaf page). Qed.

Lemma old_fields : 0 <= gist_rightlink page < 2 ^ 32 /\ 0 <= GistPageGetNSN page < 2 ^ 64.
Proof.
  pose proof Hg as [Hwf Hs _ _]. assert (Hr : forall o, 0 <= o <= 8188 -> 0 <= get32 page o < 2 ^ 32) by (intros; apply gist_get32_range; [apply Hwf|gist_lia..]).
  split; [apply Hr; gist_lia|]. unfold GistPageGetNSN. pose proof (Hr (pd_special page) ltac:(gist_lia)). pose proof (Hr (pd_special page + 4) ltac:(gist_lia)).
  split; [apply Z.lor_nonneg; split; [apply Z.shiftl_nonneg; lia|lia]|].
  destruct (Z.eq_dec (Z.lor (Z.shiftl (get32 page (pd_special page)) 32) (get32 page (pd_special page + 4))) 0) as [-> |]; [lia|].
  apply Z.log2_lt_cancel. change (Z.log2 (2 ^ 64)) with 64. rewrite Z.log2_lor by (apply Z.shiftl_nonneg || lia; lia).
  apply Z.max_lub_lt.
  - destruct (Z.eq_dec (get32 page (pd_special page)) 0) as [-> |]; [done|]. rewrite Z.log2_shiftl by lia.
    assert (Z.log2 (get32 page (pd_special page)) < 32) by (apply Z.log2_lt_pow2; lia). lia.
  - destruct (Z.eq_dec (get32 page (pd_special page + 4)) 0) as [-> |]; [done|].
    assert (Z.log2 (get32 page (pd_special page + 4)) < 32) by (apply Z.log2_lt_pow2; lia). lia.
Qed.

(** Where the tuples of the parts come from. *)
Lemma part_tuples_in parts t : Permutation (concat (map snd parts)) ktvec -> In t itup -> In t (concat (map part_tuples parts)).
Proof.
  intros Hp Ht%Hin. assert (E : concat (map part_tuples parts) = map fst (concat (map snd parts))).
  { unfold part_tuples. rewrite concat_map, map_map. done. }
  rewrite E. by rewrite Hp.
Qed.

Lemma landing_part works parts pre (blks : list Z) :
  Forall2 (work_ok flags) works (map part_tuples parts) -> Permutation (concat (map snd parts)) ktvec ->
  (exists n, map wp_blkno works = take n blks) ->
  forall first rest, itup = first :: rest ->
  exists i b part t, landing itup (pre ++ works) = Some b /\ blks !! i = Some b /\ parts !! i = Some part /\ In t (part_tuples part) /\ same_tid t first = true.
Proof.
  intros F Hp [n Eb] first rest E. destruct (landing_ok flags first rest works (map part_tuples parts) pre F) as (i & b & vec & t & Hl & Hb & Hv & Ht & Hs).
  { apply part_tuples_in; [done|]. rewrite E. by left. }
  rewrite list_lookup_fmap in Hv. destruct (parts !! i) as [part|] eqn:Epart; [|done]. injection Hv as <-.
  exists i, b, part, t. rewrite E. split_and!; try done. rewrite Eb in Hb. by apply lookup_take_Some in Hb as [? _].
Qed.

Lemma NoDup_blocks n : NoDup (blkno :: take n (map fst newbufs)).
Proof.
  apply NoDup_cons in Hnd as [Hni Hnd']. constructor; [|by apply NoDup_take_fst].
  intros Hi. apply Hni. apply list_elem_of_lookup in Hi as [i Hi]. apply lookup_take_Some in Hi as [Hi _]. apply list_elem_of_lookup. by exists i.
Qed.

Lemma place_nonroot :
  0 < blkno < 2 ^ 32 ->
  match place_split tc w leafTupdesc nonLeafTupdesc file blkno page itup oldoffnum mark newbufs temp recptr with
  | Ok (file', splitinfo, newblkno) =>
      split_result file blkno page ktvec itup mark (map fst newbufs) recptr file' splitinfo newblkno
  | Err e => place_failure ktvec e
  end.
Proof.
  intros Hb. unfold place_split. rewrite Hvec. cbn [mbind result_bind]. rewrite Hkt. cbn [mbind result_bind].
  unfold split_result, GIST_ROOT_BLKNO. rewrite (proj2 (Z.eqb_neq blkno 0)) by lia.
  pose proof (split_parts ktvec Hne Hkeys) as HS. destruct (gistSplitLayout _ _ _ _ _) as [dist|e]; cbn [mbind result_bind]; [|done].
  destruct HS as (parts & F & Hp & Hok & Hpt & Hnep). destruct (_ >? _); [right; right; by left|].
  destruct (temp_page_gist page tuples temp flags Hg Htemp flags_range) as (q & -> & Gq & Eq). cbn [mbind result_bind].
  destruct F as [|part d parts dist Hd F]; [done|]. apply Forall_cons in Hpt as [[Ht Hfit] Hpt].
  pose proof (new_pages_ok flags dist newbufs parts F Hpt Hnb flags_cases) as HN.
  destruct (new_pages flags dist newbufs) as [rest|e]; cbn [mbind result_bind]; [|right; right; right; by left]. destruct HN as [FN EN].
  set (w0 := mkWork (lay_num d) (lay_list d) blkno (set_gist_flags q flags)).
  assert (FW : Forall2 (work_ok flags) (w0 :: rest) (map part_tuples (part :: parts))).
  { constructor; [|done]. destruct Hd as (En & El & _). constructor; try done. cbn [w0 wp_num]. unfold part_tuples. by rewrite length_map. }
  destruct old_fields as [Hor Hon]. destruct (fill_pages_ok false mark flags _ _ _ _ FW flags_cases Hor Hon) as (filled & -> & Eb & Hc). cbn [mbind result_bind].
  destruct filled as [|[b p] filled]; [done|]. cbn [negb andb] in Hc. destruct (proj1 Hc) as [Hwfp _ _ _].
  rewrite restore_page by (apply Hwfp || apply Hg || by apply page_size_wf). cbn [mbind result_bind].
  assert (Eblk : map fst ((b, p) :: filled) = blkno :: take (length parts) (map fst newbufs)) by (rewrite Eb; cbn [map wp_blkno w0]; by rewrite EN).
  destruct (written_blocks file mark flags _ _ _ _ recptr ltac:(rewrite Eblk; apply NoDup_blocks) Hrec Hc) as (HB & Ebl & HC).
  exists (part :: parts). split_and!; [done..| |].
  - exists (with_lsn recptr ((b, p) :: filled)). split_and!; [exact HB| |exact HC|].
    + rewrite Ebl, Eblk. do 2 f_equal. cbn [length]. lia.
    + rewrite Ebl, Eb. apply downlinks_ok; [by constructor|]. apply Forall2_length in FW. by rewrite FW, length_map.
  - apply (landing_part _ _ [] _ FW Hp). exists (S (length parts)). cbn [map wp_blkno w0 take]. by rewrite EN.
Qed.

(** The downlinks in the new root are tuples. *)
Hypothesis Hdesc : key_desc nonLeafTupdesc.

Lemma root_downlinks parts dist pages :
  Forall2 part_layout parts dist -> Forall (page_ok tc snd) parts ->
  Forall tuple_ok (map snd (zip_with (fun d ptr => (wp_blkno ptr, downlink d (wp_blkno ptr))) dist pages)).
Proof.
  intros F. revert pages. induction F as [|part d parts dist (_ & _ & Hf) F IH]; intros pages Hok; [constructor|]. destruct pages as [|ptr pages]; [constructor|].
  apply Forall_cons in Hok as [[Hk _] Hok]. cbn [zip_with map snd]. constructor; [|by apply IH]. by eapply downlink_tuple_ok.
Qed.

Lemma place_root :
  blkno = GIST_ROOT_BLKNO ->
  match place_split tc w leafTupdesc nonLeafTupdesc file blkno page itup oldoffnum mark newbufs temp recptr with
  | Ok (file', splitinfo, newblkno) =>
      split_result file blkno page ktvec itup mark (map fst newbufs) recptr file' splitinfo newblkno
  | Err e => place_failure ktvec e
  end.
Proof.
  intros Hb. unfold place_split. rewrite Hvec. cbn [mbind result_bind]. rewrite Hkt. cbn [mbind result_bind].
  unfold split_result. rewrite Hb, Z.eqb_refl. pose proof (split_parts ktvec Hne Hkeys) as HS.
  destruct (gistSplitLayout _ _ _ _ _) as [dist|e]; cbn [mbind result_bind]; [|done].
  destruct HS as (parts & F & Hp & Hok & Hpt & Hnep). destruct (_ >? _); [right; right; by left|].
  destruct (temp_page_gist page tuples temp 0 Hg Htemp ltac:(lia)) as (q & -> & Gq & Eq). cbn [mbind result_bind].
  pose proof (new_pages_ok flags dist newbufs parts F Hpt Hnb flags_cases) as HN.
  destruct (new_pages flags dist newbufs) as [pages|e]; cbn [mbind result_bind]; [|right; right; right; by left]. destruct HN as [FN EN].
  set (links := zip_with _ dist pages). pose proof (root_downlinks parts dist pages F Hok) as Hl. fold links in Hl.
  assert (Hll : length pages = length parts) by (apply Forall2_length in FN; by rewrite FN, length_map).
  pose proof (downlinks_ok parts dist pages F Hll) as HDL. fold links in HDL. clearbody links.
  destruct (GiST_empty_space _ Gq) as [Ei Esp]. pose proof (fill_empty_page _ (map snd links) (gp_wf _ _ Gq) Ei Esp Hl) as HF.
  cbn [fill_pages wp_num wp_list wp_blkno wp_page]. rewrite length_map in HF. destruct (gistfitpage (map snd links));
    [|rewrite HF; right; right; right; by right].
  destruct HF as (p & -> & Hwfp & Hip & [Ks Kp]). cbn [mbind result_bind].
  destruct (fill_pages_ok true mark flags InvalidBlockNumber 0 _ _ FN flags_cases ltac:(done) ltac:(done)) as (filled & -> & Eb & Hc). cbn [mbind result_bind negb andb] in *.
  rewrite andb_false_r. set (p1 := set_gist_rightlink p _).
  assert (E1 : p1 = set_gist_rightlink p InvalidBlockNumber) by (unfold p1; by destruct pages).
  destruct (same_special _ p (gp_wf _ _ Gq) Hwfp (gp_special _ _ Gq) Ks) as (Esp2 & _ & _ & Efl).
  assert (Gp : gist_page p (map snd links)) by (constructor; [done|rewrite Esp2; apply Gq|done|apply Kp, Gq]).
  destruct (finish_page p (map snd links) 0 false InvalidBlockNumber 0 Gp) as (G' & En' & Er' & Ef'); [congruence|by left|done..|]. rewrite <- E1 in *.
  rewrite restore_page by (apply G' || apply Hg || apply page_size_wf, G'). cbn [mbind result_bind].
  set (root := GistPageSetNSN _ _) in *. destruct (set_lsn_ok root _ recptr G' Hrec) as [GR FR].
  unfold gist_fields in FR. injection FR as FR1 FR2 FR3 FR4.
  assert (Eblk : map fst filled = take (length parts) (map fst newbufs)) by congruence.
  assert (Hnd2 : NoDup (map fst ((blkno, root) :: filled))) by (cbn [map fst]; rewrite Eblk; apply NoDup_blocks). rewrite Hb in Hnd2.
  destruct (chain_with_lsn _ _ _ _ _ _ recptr Hrec Hc) as [Hc' Hlsn]. destruct (file_put_ok file _ recptr Hnd2) as [HP1 HP2].
  assert (Ewl : map fst (with_lsn recptr filled) = map fst filled) by (unfold with_lsn; rewrite map_map; apply map_ext; by intros []).
  exists parts. split_and!; [done..| |].
  - exists (PageSetLSN root recptr), (with_lsn recptr filled), links. rewrite Ewl, Eblk, <- EN. split_and!; try done; try congruence.
    split; [|cbn [map fst]; rewrite Ewl; exact HP2]. intros b pg Hi. split; [by apply HP1|]. destruct Hi as [[= <- <-]|Hi]; [done|].
    rewrite List.Forall_forall in Hlsn. by apply (Hlsn (b, pg)).
  - apply (landing_part pages parts [_] _ FN Hp). by exists (length parts).
Qed.

End Split.
End PlaceProofs.
