(* ===== verification/GistPlaceTheorems.v ===== *)
(** * Placing tuples on a GiST page: theorems *)

From stdpp Require Import gmap.
From S2P Require Import Prelude Varlena PgLz Toast HeapTuple HeapTupleProofs IndexTuple Sorting QSort.
From S2P Require Import RangeTypes RangeOrder RangeOps RangeStore RangeCanon RangeTheorems RangeGist RangeGistSplit RangeGistKeys RangeGistTheorems RangeGistTree HeapTupleTheorems.
From S2P Require Import Page PageMem PageShift PageAdd PageCompact PageMulti PageOps PageTheorems GistPage GistPlace GistPlaceProofs.

Section Correctness.
Context `{H1 : Varlena.Toast} `{Sorter} (tc : TypeCacheEntry) `{!RangeSubtype tc} `{!RangeCanonical tc} `{!StableBounds tc}.
Context (w : World) (leafTupdesc nonLeafTupdesc : TupleDesc).









Section Place.
Context (file : gmap Z Page) (freespace blkno : Z) (page : Page) (tuples itup : list (list Z)) (oldoffnum : Z) (leftchild : option Z)
  (ltuples : list (list Z)) (mark : bool) (newbufs : list (Z * Page)) (temp : Page) (prunelsn recptr : Z).



















End Place.
End Correctness.

(** *** An example: the root of an index on [int4range] is split *)

#[local] Existing Instance plain_toast.













